(* ===== verification/_CoqProject ===== *)
-Q . S2P
Prelude.v
Bits.v
State.v
Cpu.v
CpuFacts.v
Bus.v
Mmu.v
MemAccess.v
Alu.v
AluFacts.v
ExecDp.v
ExecMul.v
ExecMedia.v
ArithFacts.v
ExecXfer.v
Float.v
FloatFacts.v
Vfp.v
ExecCp.v
Sync.v
Thumb.v
Step.v
VfpFacts.v
Footprint.v
FootExec.v
FootMem.v
FootVfp.v
FootXfer.v
StepFacts.v
AbortFacts.v
DataCache.v
RamWatch.v
Bytes.v
Aes.v
Img3.v
Macho.v
DeviceTree.v
Loader.v
VmBlock.v
Ppp.v
PppFrame.v
PppFsm.v
PppRun.v
PppTable.v
Net.v
Tcp.v
NetStack.v
NetFacts.v
NetInv.v
TcpTcb.v
TcpInv.v
TcpServe.v
TcpInput.v
NetSafe.v
NetTheorems.v
Uart.v
Gpio.v
Buttons.v
I2c.v
Pcf50635.v
Wm8991.v
I2s.v
Clcd.v
Tvout.v
Spi.v
Nand.v
Nor.v
Storage.v
UsbOtg.v
UsbHost.v
UsbMux.v
UsbMuxStreams.v
UsbPoll.v
Vic.v
Timer.v
Pl080.v
Pl080Facts.v
DmaRequest.v
Lzss.v
