(* ===== verification/Prelude.v ===== *)
(** * A verification library for S5LBox

    S5LBox emulates the Samsung S5L8900 system-on-chip: an ARM1176 core interpreted
    instruction by instruction, the chip's devices, the firmware formats that feed it
    and the host services around it.  This library models the CPU core with its MMU,
    caches and VFP unit; devices; the parsers and ciphers of the firmware formats; the
    block backend; and the guest's network link, from the PPP peer to the TCP endpoint;
    and proves what makes them correct.  Definitions are executable and follow the C
    functions branch by branch; file and function names below are relative to [src/core].

    ** The program and its model

    The core is a structure, [arm_cpu_t] ([include/arm.h]), that [arm_step]
    ([src/arm/arm_interp.c]) advances by one instruction.  It reaches the rest of the
    machine only through the callbacks of [arm_bus_t]; the devices drive its two
    interrupt lines and move data over the same bus.  The firmware parsers turn a file
    into an image in RAM and a start address.  The network link is a byte stream to the
    guest's serial port at one end and host sockets at the other.

    The core:
    - State.v: the constants of [arm.h] and the record [arm_cpu] for [arm_cpu_t], the
      host-side caches being its sub-record [mmu_cache].  Fixed arrays are total
      functions of the index.  A word is a [Z]; wrap-around is written out ([w32],
      [+w], [-w], [.<<] of this file).
    - Cpu.v: banks, mode switching, abort latch, exception entry and return, reset,
      the condition test.
    - Bus.v: [arm_bus_t] as the class [Bus] over any type of machines; [BusRanges] and
      [HostRamCoherent] are the documented contract of its callbacks; [flat_ram] is a
      concrete bus, the flat RAM of the unit tests, that discharges both.
    - Mmu.v ([src/mmu.c]): the page-table walk [mmu_walk] and the software TLB in
      front of it, [arm_mmu_translate].
    - MemAccess.v: the translating accessors, alignment, page crossing, and the two
      caches of host pointers that bypass the TLB and the bus.
    - Alu.v, ExecDp.v, ExecMul.v, ExecMedia.v, ExecXfer.v, Sync.v, ExecCp.v, Thumb.v:
      the instruction groups, one definition per C function or per early-return block
      of one, composed in the order of the source.
    - Float.v, Vfp.v ([src/arm/vfp.c], [include/vfp.h]): the VFP11 unit over the host's
      floating point.  Float.v is IEEE-754 on bit patterns; what the standard leaves to
      the implementation is the class [HostFpu] with the laws [HostFpuOk], and
      [x86_host] is an instance of both.
    - Step.v: [arm_step] itself: interrupt sampling, fetch through the fetch cache, the
      unconditional space, the condition check, the decode chain ([decode]) and the
      retirement tail.
    - RamWatch.v ([arm_ram_watch.c]): stamps that witness that a page was not written,
      and the machine's grants of direct writes beside them.

    The devices ([src/soc]):
    - Vic.v, Timer.v: state, register reads and writes, interrupt outputs.
    - Pl080.v: the DMA controllers, their engine over any instance of [Bus].
      DmaRequest.v ([machine.c]): the request lines the machine gives them, over any
      machine that holds the ports ([DmaPorts]).
    - Uart.v: the serial port, its FIFO and its requests to the DMA engine.
    - Gpio.v ([gpioic.c]): the GPIO interrupt controller and the pin block.  Buttons.v:
      the buttons, driven through both.
    - I2c.v: the controller, over any slaves ([i2c_slave], records of operations on a
      state that has a [Seat] for them).  Pcf50635.v: the power-management unit with its
      clock, and Wm8991.v: the audio codec, two such slaves.
    - I2s.v ([i2s.c], [i2s_audio.c]): the audio controllers, their FIFOs and serial clocks.
    - Spi.v: the SPI controllers, over any slaves.
    - Clcd.v: the display controller and the picture it scans out.  Tvout.v: the video
      output, and the power gates ([power.c]).
    - Nand.v, Nor.v: the flash devices.  Storage.v: their contents in host files, the file
      system being a parameter.
    - UsbOtg.v ([usbotg.c]): the USB device controller in its machine, the class
      [UsbMachine].
    - Bits.v: bits of words and periodic counters, shared by the device files.
    The firmware formats ([src/firmware]) and the block backend:
    - Bytes.v: buffers as lists of bytes; a read outside one is [None], so that a
      function that never yields [None] never leaves its buffer.
    - Aes.v, Img3.v, Macho.v, DeviceTree.v, Lzss.v: the ciphers, the containers, the
      kernel images, the flattened device tree, the decompressor.
    - Loader.v: a container parsed, decrypted, placed in RAM and entered.
    - VmBlock.v ([src/vm_block.c]): exact transfers over the host's partial ones.

    The USB host ([src]):
    - UsbHost.v ([usb_host.c]): the enumeration, a state machine polled between batches.
    - UsbMux.v ([usb_mux.c]): the usbmux peer, its channels and packets.  UsbPoll.v:
      [usb_mux_poll], the peer and the controller on the pipes the host found.

    The network link ([src/net]):
    - Ppp.v ([ppp.c]): framing, option negotiation, the LCP and IPCP automata, timers.
      The IP sink is a parameter.
    - Net.v, Tcp.v, NetStack.v ([net.c], [tcp.c], [net_priv.h], [include/net.h]): the
      gateway behind it: checksums, the queue toward the guest, the flow table; the TCP
      endpoint; ICMP echo, the resolver, UDP and the entry points.  The host's sockets
      are the class [Egress] over any type of contexts, [EgressOk] its documented
      contract.

    The remaining files hold specifications and proofs: CpuFacts.v, AluFacts.v,
    ArithFacts.v, FloatFacts.v, VfpFacts.v for single components; Footprint.v,
    FootExec.v, FootMem.v, FootVfp.v, FootXfer.v for what an instruction may do to the
    core and to its caches; StepFacts.v, AbortFacts.v and DataCache.v for the theorems
    about whole steps and accesses that rest on them; Pl080Facts.v; PppFrame.v, PppFsm.v,
    PppRun.v, PppTable.v; UsbMuxStreams.v; NetFacts.v (checksums), NetInv.v (the invariant of the
    stack), TcpTcb.v, TcpInv.v, TcpServe.v, TcpInput.v (the two byte streams of a
    flow), NetSafe.v and NetTheorems.v.

    ** How state and effects are represented

    A function of the core is a function on [arm_cpu]; a function that also uses the
    bus is a function on [mach B], the core with its bus, for any [B] with an instance
    of [Bus].  Status codes are the C enumeration.  An instruction group yields its
    status, the successor address computed so far and the new state, and the abort
    latch ([abort_pending]) is tested where the C code tests it.  A callback the C
    code may find to be NULL is an [option].  A host pointer is a number that only
    [host_load] and [host_store] interpret.  A function on a buffer of octets returns
    an [option], [None] standing for an access outside it or a loop that did not end;
    the network stack threads its state through that monad, and its members of
    [net_stats_t] are a function of their names, as are those of [ppp_stats_t].

    ** What is proved

    - The MMU.  The software TLB answers every sequence of translations exactly as the
      walk does and stays sound ([tlb_refines_walk]); permissions are monotone in
      privilege and access; a walk is constant on 1 KB blocks, the granule of every
      host-side cache; a fault is never reported as zero.
    - The data caches.  From a sound state a load or store through the block caches,
      the TLB or the walk is one and the same ([data_read_transparent],
      [data_write_transparent]), and no CP15 operation leaves a stale entry
      ([cp15_keeps_caches_sound]).  [block_cache_ignores_stamp] and
      [subpage_span_unchecked] show where the caches' and the splitter's assumptions
      end.
    - Whole steps.  Each function of the interpreter is shown once to be a sequence of
      the small updates of Footprint.v; induction on such sequences gives that every
      step keeps the core well formed, the caches' counters included
      ([step_preserves_wf]), and that a User-mode
      program reaches no privileged state except through an exception
      ([user_confinement]).  An aborted transfer has changed no register
      ([base_restored]).  The hoisted arm of the decode chain is a reordering
      ([decode_hoist_equivalent]).
    - Banks and exceptions.  A mode switch changes which bank is live and no register
      as seen from any bank; exception entry saves, masks and loads what it must;
      returning undoes it; the User-bank accessors see the User bank.
    - Arithmetic.  The barrel shifter against multiplication, division and rotation,
      comparison flags against the order of the operands, saturation against clamping,
      the 64-bit products, the SIMD lanes.
    - The VFP unit.  Conversions to integers round once and saturate; short vectors stay
      inside the register file; flush-to-zero, decided from the host's rounded result,
      answers as the architecture's test of the exact one; where it does not
      ([vfp_divergences]).
    - Devices.  The vector address names the lowest pending source; the timer's modular
      ticks equal single steps, and its distance to the next interrupt is exact; a DMA
      item is a copy whatever its widths, and one held back by the machine's request lines
      does what it would have done at once ([pl080_stall_lossless]).
    - Serial port, pins, buttons.  The port is a queue of sixteen bytes, its registers and
      counters answering for it ([uart_fifo_refines]); the tail of a burst reaches the DMA engine;
      the interrupt controller is 224 independent lines ([gpioic_refines_lines]); a pin
      command moves one pin; every move of a button is sampled ([press_reported]).
    - I2C.  Register traffic is the message to the slave ([i2c_carries_messages]); the clock
      registers read as a calendar ([rtc_reads_calendar]); what is stored in a register of
      the codec, in either encoding, is read back ([codec_registers_roundtrip]).
    - SPI, sound, display.  Octets and answers of an SPI device keep their order, and what
      becomes of every answer is known, flushes and DMA included ([spi_carries_octets]); a
      listener hears the stored octets, one frame per period ([i2s_plays_stream]); a scanned-out picture is the framebuffer's and nothing outside
      either buffer is touched ([clcd_scanout_exact]); a seeded window is the one shown
      ([clcd_seed_handoff]); periods are exact however time is cut.
    - Write witnesses.  Equal stamps exclude a store in between, and a captured page has no
      direct-write grant or alias left ([ram_watch_sound]).
    - Flash.  The NAND device is a table of pages ([nand_refines_pages]); the NOR directory
      is what the boot loader would find; a saved device loads back as it was, and a damaged
      file is refused ([storage_damage_refused]).
    - USB.  An armed endpoint moves exactly the octets of its buffer; the host returns from
      every poll and finds the pipes of the first multiplexer interface, by the fields of
      the descriptors ([parse_config_exact]); the peer stays within its buffers
      ([usb_mux_safe]) and carries the two byte streams of a channel, whole and in order, however they are cut into
      packets ([mux_sends_stream], [mux_receives_stream]), down to guest RAM
      ([mux_poll_delivers]).
    - Firmware.  CBC decryption undoes encryption; the parsers return on every input,
      read inside it and report extents inside it; the IMG3 parser and the device-tree
      lookups implement declarative readings of their formats; loading an encrypted
      container leaves the plaintext in RAM; decompressing an LZSS encoding gives the
      text, and every input terminates within the destination.
    - The block backend.  Exact transfers end whatever the host answers and move exactly
      the bytes asked for over a backend that keeps its contract.
    - PPP.  What one peer accepts reaches the sink of the other octet for octet; the
      handlers implement the rows of the RFC 1661 table they keep to, the others being
      stated one by one; an invariant of every reachable state; a silent guest leaves
      both automata at rest, while the 32-bit clock lasts ([ppp_silence_settles]).
    - The network stack.  From every reachable state every entry point returns, within
      its buffers ([net_stack_safe]); what the guest is handed is valid by the RFCs'
      arithmetic ([guest_receives_valid]); a tick or a segment of a TCP flow moves octets between
      the guest, the two buffers and the host without loss, duplication or reordering
      ([tcp_tick_serves], [tcp_input_streams]), a flow with data buffered before its SYN was
      acknowledged excepted ([early_host_data_loses_an_octet]); the pump keeps to the windows;
      coalescing concatenates ([coalesce_sound]).
    - The places where the code departs from what its comments say are theorems too, at
      the end of the files concerned.

    ** Fuel and bounds

    Nothing is cut short by fuel.  Loops with a fixed trip count (registers of a block
    transfer, bytes of an access, lanes, the interrupt sources, the bits of CLZ, the
    eight reads of a socket) are structural in that count.  The others are structural
    in a fuel that is proved sufficient: the parsers' and the LZSS loop's comes from the
    length of the input; [exact_loop] has 64 callbacks for each byte, the limit the code
    sets on callbacks without progress; the PPP option walk and [name_labels] consume an
    octet in each turn, [syn_options] likewise; a DMA item has at most 4095 units and a
    chain the code's own bound of 1024 items; [pump_data] has 34 turns, each of which
    takes one of the 32 slots; [fold16] needs two turns for a 32-bit sum; the NOR scan,
    the configuration parser and [feed_loop] take an octet or more in each turn; the bursts
    of [usb_mux_poll] are the code's own 32 packets.

    ** Assumptions

    Theorems about steps assume of the platform only what [BusRanges] (callbacks
    deliver words of their width) and [SvcSafe] (a host service handler leaves a
    well-formed core) say, and of the host's floating point [HostFpuOk].  They hold of
    the instances used by the witnesses, [flat_ram] without a handler and [x86_host].
    The transparency theorems also assume that bus reads have no side effect on the
    page tables ([reads_pure]) and that no fetch hook is installed.  The theorems on
    DMA copies are over flat RAM, and a controller is not behind its own bus.
    A machine's UART4 is a field of it ([DmaPortsOk]).
    The USB theorems assume that the refresh of derived levels leaves the controller and RAM
    alone, as it does when no DMA channel is running ([UsbMachineOk]); [usb_box] satisfies it.
    [vm_block_write_then_read] is over backends that make progress.  The PPP sink of
    the reachability theorems may reply but not close the link.  The network theorems
    assume [EgressOk]; [demo_egress] satisfies it.

    ** Not modelled

    The build with [S5LBOX_NO_DREAD]; the RAM map and bulk engine beside the
    interpreter; the generated-code engines, whose meaning is that of AArch64 text;
    the machine's memory map and run loop, its request lines and write grants apart; the graphics core and the touch controller;
    kernel symbols;
    the packet bridge; the byte sources and memory-disk bridges; snapshots; boot bring-up;
    the application and the command-line tools, which are user interface and host
    input and output.  Functions that only produce text for a status are left out. *)

From stdpp Require Export base numbers list functions option decidable.
From Stdlib Require Export ZArith Lia Bool.

Declare Scope word_scope.
Delimit Scope word_scope with word.
#[global] Open Scope Z_scope.
#[global] Open Scope word_scope.

(** ** Words of fixed width

    A [w]-bit unsigned integer of the source is a [Z]; the wrap-around that C
    applies when it stores a result in a [uintN_t] is written out. *)

Definition wrap (w x : Z) : Z := x mod 2 ^ w.
Definition w8 (x : Z) : Z := wrap 8 x.
Definition w16 (x : Z) : Z := wrap 16 x.
Definition w32 (x : Z) : Z := wrap 32 x.
Definition w64 (x : Z) : Z := wrap 64 x.

(** [uint w x]: the value fits a [w]-bit unsigned integer. *)
Definition uint (w x : Z) : Prop := 0 <= x < 2 ^ w.

(** The two's-complement reading of a [w]-bit pattern. *)
Definition sgn (w x : Z) : Z := if x <? 2 ^ (w - 1) then x else x - 2 ^ w.
Definition s8 (x : Z) : Z := sgn 8 (w8 x).
Definition s16 (x : Z) : Z := sgn 16 (w16 x).
Definition s32 (x : Z) : Z := sgn 32 (w32 x).
Definition s64 (x : Z) : Z := sgn 64 (w64 x).

Notation "x +w y" := (w32 (x + y)) (at level 50, left associativity) : word_scope.
Notation "x -w y" := (w32 (x - y)) (at level 50, left associativity) : word_scope.
Notation "x *w y" := (w32 (x * y)) (at level 40, left associativity) : word_scope.
Notation "x .>> n" := (Z.shiftr x n) (at level 45, left associativity) : word_scope.
Notation "x .<< n" := (w32 (Z.shiftl x n)) (at level 45, left associativity) : word_scope.
Notation "x .& y" := (Z.land x y) (at level 46, left associativity) : word_scope.
Notation "x .^ y" := (Z.lxor x y) (at level 47, left associativity) : word_scope.
Notation "x .| y" := (Z.lor x y) (at level 48, left associativity) : word_scope.

(** C's [~x] on a [uint32_t]. *)
Definition wnot (x : Z) : Z := Z.lxor x 0xffffffff.

(** [(x >> lo) & mask], the field extraction every decoder uses. *)
Definition fld (x lo mask : Z) : Z := (x .>> lo) .& mask.

(** [(x >> n) & 1u] read as a bool, and [(x & (1u << n)) != 0]. *)
Definition bit (x n : Z) : bool := Z.testbit x n.

(** [for (i = lo; i < lo + k; i++) a = f(i, a)]. *)
Fixpoint for_range {A} (k : nat) (lo : Z) (f : Z → A → A) (a : A) : A :=
  match k with
  | O => a
  | S k' => for_range k' (lo + 1) f (f lo a)
  end.

Lemma for_range_inv {A} (P : A → Prop) k (f : Z → A → A) : ∀ lo a,
  (∀ i a, lo <= i < lo + Z.of_nat k → P a → P (f i a)) → P a → P (for_range k lo f a).
Proof.
  induction k as [| k IH]; intros lo a Hf Ha; simpl; [done |].
  apply IH; [intros; apply Hf; [lia | done] | apply Hf; [lia | done]].
Qed.

(** ** Ranges *)

Create HintDb word discriminated.
#[export] Hint Constants Opaque : word.
#[export] Hint Variables Opaque : word.

Lemma uint_wrap w x : 0 <= w → uint w (wrap w x).
Proof. intros. apply Z.mod_pos_bound. lia. Qed.

Lemma uint_w32 x : uint 32 (w32 x).
Proof. by apply uint_wrap. Qed.

Lemma uint_w64 x : uint 64 (w64 x).
Proof. by apply uint_wrap. Qed.

Lemma uint_w16 x : uint 16 (w16 x).
Proof. by apply uint_wrap. Qed.

Lemma uint_w8 x : uint 8 (w8 x).
Proof. by apply uint_wrap. Qed.

Lemma wrap_small w x : uint w x → wrap w x = x.
Proof. intros H. apply Z.mod_small, H. Qed.

Lemma w32_small x : uint 32 x → w32 x = x.
Proof. apply wrap_small. Qed.

Lemma wrap_idem w x : 0 <= w → wrap w (wrap w x) = wrap w x.
Proof. intros. by apply wrap_small, uint_wrap. Qed.

Lemma uint_mono v w x : uint v x → v <= w → uint w x.
Proof.
  intros [H1 H2] Hle. split; [done |].
  destruct (Z_lt_le_dec v 0) as [Hv | Hv].
  - rewrite Z.pow_neg_r in H2 by done. lia.
  - eapply Z.lt_le_trans; [exact H2 |]. apply Z.pow_le_mono_r; lia.
Qed.

Lemma uint_bits w x : 0 <= w → 0 <= x →
  uint w x ↔ (∀ i, w <= i → Z.testbit x i = false).
Proof.
  intros Hw Hx. split.
  - intros [_ H] i Hi. destruct (decide (x = 0)) as [-> | Hne].
    { apply Z.testbit_0_l. }
    apply Z.bits_above_log2; [done |].
    apply Z.log2_lt_pow2; [lia |].
    eapply Z.lt_le_trans; [exact H | apply Z.pow_le_mono_r; lia].
  - intros H. split; [done |].
    destruct (decide (x = 0)) as [-> | Hne]; [lia |].
    apply Z.log2_lt_pow2; [lia |].
    destruct (Z_lt_le_dec (Z.log2 x) w) as [| Hge]; [done |].
    specialize (H _ Hge). rewrite Z.bit_log2 in H by lia. done.
Qed.

Lemma uint_high w x i : uint w x → 0 <= w → w <= i → Z.testbit x i = false.
Proof. intros H Hw Hi. by eapply (proj1 (uint_bits w x Hw (proj1 H))). Qed.

Lemma uint_land_l w x y : 0 <= w → uint w x → uint w (x .& y).
Proof.
  intros Hw H. apply uint_bits; [done | |].
  - apply Z.land_nonneg. left. apply H.
  - intros i Hi. by rewrite Z.land_spec, (uint_high w x).
Qed.

Lemma uint_land_r w x y : 0 <= w → uint w y → uint w (x .& y).
Proof. rewrite Z.land_comm. apply uint_land_l. Qed.

Lemma uint_lor w x y : 0 <= w → uint w x → uint w y → uint w (x .| y).
Proof.
  intros Hw H1 H2. apply uint_bits; [done | |].
  - apply Z.lor_nonneg. split; [apply H1 | apply H2].
  - intros i Hi. by rewrite Z.lor_spec, (uint_high w x), (uint_high w y).
Qed.

Lemma uint_lxor w x y : 0 <= w → uint w x → uint w y → uint w (x .^ y).
Proof.
  intros Hw H1 H2. apply uint_bits; [done | |].
  - apply Z.lxor_nonneg. split; intros _; [apply H2 | apply H1].
  - intros i Hi. by rewrite Z.lxor_spec, (uint_high w x), (uint_high w y).
Qed.

Lemma uint_shiftr w x n : 0 <= n → uint w x → uint w (x .>> n).
Proof.
  intros Hn [H1 H2]. split.
  - by apply Z.shiftr_nonneg.
  - rewrite Z.shiftr_div_pow2 by done.
    eapply Z.le_lt_trans; [| exact H2].
    apply Z.div_le_upper_bound; [lia |].
    assert (1 <= 2 ^ n) by (apply (Z.pow_le_mono_r 2 0 n); lia). nia.
Qed.

Lemma uint_shiftl w k x n : 0 <= n → k + n <= w → uint k x → uint w (Z.shiftl x n).
Proof.
  intros Hn Hk [H1 H2]. apply (uint_mono (k + n)); [| lia].
  destruct (Z_lt_le_dec k 0); [rewrite Z.pow_neg_r in H2 by done; lia |].
  rewrite Z.shiftl_mul_pow2 by done. split; [lia |]. rewrite Z.pow_add_r by lia. nia.
Qed.

Lemma uint_wnot x : uint 32 x → uint 32 (wnot x).
Proof. intros. apply uint_lxor; [lia | done |]. by split. Qed.

Lemma uint_0 w : 0 <= w → uint w 0.
Proof. intros. split; [done | lia]. Qed.

Lemma uint_b2z w b : 1 <= w → uint w (Z.b2z b).
Proof.
  intros. assert (2 ^ 1 <= 2 ^ w) by (apply Z.pow_le_mono_r; lia).
  destruct b; split; simpl; lia.
Qed.

Lemma uint_if w (b : bool) x y : uint w x → uint w y → uint w (if b then x else y).
Proof. by destruct b. Qed.

#[export] Hint Resolve uint_w32 uint_w64 uint_w16 uint_w8 uint_wnot uint_if : word.
#[export] Hint Extern 2 (uint _ (Z.land _ ?y)) =>
  first [ apply uint_land_r; [lia | split; lia] | apply uint_land_l; [lia |]
        | apply uint_land_r; [lia |] ] : word.
#[export] Hint Extern 2 (uint _ (Z.lor _ _)) => apply uint_lor; [lia | |] : word.
#[export] Hint Extern 2 (uint _ (Z.lxor _ _)) => apply uint_lxor; [lia | |] : word.
#[export] Hint Extern 2 (uint _ (Z.shiftr _ _)) => apply uint_shiftr; [lia |] : word.
#[export] Hint Extern 4 (uint _ _) => split; lia : word.
#[export] Hint Extern 5 (uint _ _) => eassumption : word.

(** Closes width side conditions. *)
Ltac solve_uint := eauto 12 with word.

(** ** Bit-level equations *)

Lemma testbit_wrap w x i :
  0 <= w → Z.testbit (wrap w x) i = (i <? w) && Z.testbit x i.
Proof.
  intros Hw. unfold wrap. destruct (Z_lt_le_dec i 0) as [Hi | Hi].
  - rewrite !Z.testbit_neg_r by done. by rewrite andb_false_r.
  - rewrite <- Z.land_ones by done. rewrite Z.land_spec, Z.testbit_ones_nonneg by done.
    apply andb_comm.
Qed.

Lemma testbit_w32 x i : Z.testbit (w32 x) i = (i <? 32) && Z.testbit x i.
Proof. by apply testbit_wrap. Qed.

Lemma testbit_ones32 i : 0 <= i → Z.testbit 0xffffffff i = (i <? 32).
Proof. intros Hi. change 0xffffffff with (Z.ones 32). by apply Z.testbit_ones_nonneg. Qed.

Lemma testbit_wnot x i : 0 <= i →
  Z.testbit (wnot x) i = xorb (Z.testbit x i) (i <? 32).
Proof. intros. unfold wnot. by rewrite Z.lxor_spec, testbit_ones32. Qed.

Lemma testbit_shiftr' x n i : 0 <= i → Z.testbit (x .>> n) i = Z.testbit x (i + n).
Proof. apply Z.shiftr_spec. Qed.

Create Rewrite HintDb bitspec.
#[export] Hint Rewrite Z.land_spec Z.lor_spec Z.lxor_spec testbit_w32 Z.testbit_0_l : bitspec.
#[export] Hint Rewrite Z.shiftl_spec testbit_shiftr' testbit_wnot testbit_ones32
  using lia : bitspec.

(** Reduce an equation between words to one between their bits. *)
Ltac bitwise i Hi :=
  apply Z.bits_inj'; intros i Hi; autorewrite with bitspec.

Lemma wnot_eq x : uint 32 x → wnot x = 0xffffffff - x.
Proof.
  intros H. change 0xffffffff with (Z.ones 32).
  rewrite Z.sub_nocarry_ldiff.
  - bitwise i Hi. rewrite Z.ldiff_spec, Z.testbit_ones_nonneg by lia.
    destruct (Z.ltb_spec i 32).
    + by rewrite xorb_true_r.
    + by rewrite (uint_high 32 x).
  - bitwise i Hi. rewrite Z.ldiff_spec, Z.testbit_ones_nonneg by lia.
    destruct (Z.ltb_spec i 32); [by rewrite andb_false_r |].
    by rewrite (uint_high 32 x).
Qed.

(** Case analysis on a bit index below 32. *)
Lemma index32_cases i : 0 <= i < 32 →
  i = 0 ∨ i = 1 ∨ i = 2 ∨ i = 3 ∨ i = 4 ∨ i = 5 ∨ i = 6 ∨ i = 7 ∨
  i = 8 ∨ i = 9 ∨ i = 10 ∨ i = 11 ∨ i = 12 ∨ i = 13 ∨ i = 14 ∨ i = 15 ∨
  i = 16 ∨ i = 17 ∨ i = 18 ∨ i = 19 ∨ i = 20 ∨ i = 21 ∨ i = 22 ∨ i = 23 ∨
  i = 24 ∨ i = 25 ∨ i = 26 ∨ i = 27 ∨ i = 28 ∨ i = 29 ∨ i = 30 ∨ i = 31.
Proof. lia. Qed.

Ltac index32 i Hi :=
  let H := fresh in
  pose proof (index32_cases i Hi) as H;
  repeat (destruct H as [H | H]); subst i.

(** The mask [((1 << n) - 1) << lo]. *)
Definition mask (lo n : Z) : Z := Z.shiftl (Z.ones n) lo.

Lemma testbit_mask lo n i : 0 <= lo → 0 <= n → 0 <= i →
  Z.testbit (mask lo n) i = (lo <=? i) && (i <? lo + n).
Proof.
  intros Hlo Hn Hi. unfold mask. rewrite Z.shiftl_spec by done.
  destruct (Z.leb_spec lo i); simpl.
  - rewrite Z.testbit_ones_nonneg by lia.
    destruct (Z.ltb_spec (i - lo) n), (Z.ltb_spec i (lo + n)); lia.
  - apply Z.testbit_neg_r. lia.
Qed.

#[export] Hint Rewrite testbit_mask using lia : bitspec.

(** Testing a single-bit mask. *)
Lemma land_bit_zero x n : 0 <= n → ((x .& (2 ^ n)) =? 0) = negb (bit x n).
Proof.
  intros Hn. unfold bit. destruct (Z.testbit x n) eqn:E; simpl.
  - apply Z.eqb_neq. intros H. apply (f_equal (fun z => Z.testbit z n)) in H.
    by rewrite Z.land_spec, Z.pow2_bits_true, E, Z.testbit_0_l in H by lia.
  - apply Z.eqb_eq. bitwise i Hi. destruct (decide (i = n)) as [-> | ?].
    + by rewrite E.
    + by rewrite Z.pow2_bits_false, andb_false_r by lia.
Qed.

(** Disjoint bit patterns add. *)
Lemma lor_shift_add k x y : 0 <= k → uint k y → Z.shiftl x k .| y = x * 2 ^ k + y.
Proof.
  intros Hk Hy. rewrite <- Z.shiftl_mul_pow2 by done.
  assert (Z.shiftl x k .& y = 0) as Hd.
  { apply Z.bits_inj'. intros i Hi. rewrite Z.land_spec, Z.shiftl_spec, Z.testbit_0_l by done.
    destruct (Z_lt_le_dec i k).
    - by rewrite Z.testbit_neg_r by lia.
    - by rewrite (uint_high k y), andb_false_r. }
  rewrite <- Z.lxor_lor by done. by rewrite Z.add_nocarry_lxor.
Qed.

(** ** Modular arithmetic *)

Lemma wrap_add_l w x y : wrap w (wrap w x + y) = wrap w (x + y).
Proof. apply Zplus_mod_idemp_l. Qed.

Lemma wrap_eq w x y : 0 <= w → (∃ k, x = y + k * 2 ^ w) → wrap w x = wrap w y.
Proof. intros Hw [k ->]. unfold wrap. apply Z.mod_add. lia. Qed.

Lemma w32_spec x : ∃ k, w32 x = x + k * 2 ^ 32.
Proof.
  exists (- (x / 2 ^ 32)). unfold w32, wrap.
  pose proof (Z.div_mod x (2 ^ 32) ltac:(lia)). lia.
Qed.

(** ** Signed words *)

(** The top bit of a word is a comparison. *)
Lemma bit31 x : uint 32 x → bit x 31 = (2 ^ 31 <=? x).
Proof.
  intros [H1 H2]. unfold bit. destruct (Z.leb_spec (2 ^ 31) x) as [H | H].
  - rewrite <- (Z.add_simpl_r x (2 ^ 31)).
    rewrite Z.testbit_true by lia.
    assert ((x + 2 ^ 31 - 2 ^ 31) / 2 ^ 31 = 1) as ->; [| done].
    symmetry. apply (Z.div_unique _ _ _ (x - 2 ^ 31)); lia.
  - apply (uint_high 31); [split; lia | lia | lia].
Qed.

Lemma s32_val x : uint 32 x → s32 x = if 2 ^ 31 <=? x then x - 2 ^ 32 else x.
Proof.
  intros Hx. unfold s32, sgn. rewrite w32_small by done. change (32 - 1) with 31.
  destruct (Z.ltb_spec x (2 ^ 31)), (Z.leb_spec (2 ^ 31) x); lia.
Qed.

Lemma s32_range x : uint 32 x → - 2 ^ 31 <= s32 x < 2 ^ 31.
Proof. intros Hx. rewrite s32_val by done. destruct Hx, (Z.leb_spec (2 ^ 31) x); lia. Qed.

Lemma w32_s32 x : uint 32 x → w32 (s32 x) = x.
Proof.
  intros Hx. rewrite s32_val by done. destruct (_ <=? _); [| by apply w32_small].
  transitivity (w32 x); [| by apply w32_small]. apply wrap_eq; [lia |]. exists (-1). lia.
Qed.

(** The bits of the signed reading: sign extension. *)
Lemma testbit_s32 x i : uint 32 x → 0 <= i →
  Z.testbit (s32 x) i = if i <? 32 then Z.testbit x i else Z.testbit x 31.
Proof.
  intros Hx Hi. rewrite s32_val, <- bit31 by done. unfold bit.
  destruct (Z.testbit x 31) eqn:E.
  - replace (x - 2 ^ 32) with (Z.lnot (wnot x)).
    2: { rewrite wnot_eq by done. unfold Z.lnot. lia. }
    rewrite Z.lnot_spec, testbit_wnot by lia. destruct (Z.ltb_spec i 32).
    + rewrite xorb_true_r. apply negb_involutive.
    + by rewrite (uint_high 32 x i Hx) by lia.
  - destruct (Z.ltb_spec i 32); [done |]. by apply (uint_high 32).
Qed.

(** Solves equations and bounds over [w32]/[w64] terms by exposing quotients. *)
Ltac solve_word :=
  unfold uint, s8, s16, s32, s64, sgn, w8, w16, w32, w64, wrap in *;
  repeat match goal with
         | |- context [if ?b then _ else _] => destruct b eqn:?
         end;
  Z.to_euclidean_division_equations; lia.

(** ** Boolean and control-flow automation *)

(** Case analysis on every [if] and [match] of the goal, outermost first. *)
Ltac split_ifs :=
  repeat (case_match; simplify_eq/=; try done).
