(* ===== verification/Bits.v ===== *)
(** * Single bits of a word

    [x | (1u << i)], [x & ~(1u << i)] and [x & (1u << i)] bit by bit, for the devices that
    keep one line per bit. *)

From S2P Require Import Prelude.

Lemma one_shl i : 0 <= i < 32 → 1 .<< i = 2 ^ i.
Proof.
  intros Hi. rewrite w32_small; rewrite Z.shiftl_1_l; [done |].
  split; [lia | apply Z.pow_lt_mono_r; lia].
Qed.

Lemma bit_lor_pow x i j : 0 <= i < 32 → 0 <= j → bit (x .| (1 .<< i)) j = bit x j || (j =? i).
Proof.
  intros Hi Hj. unfold bit. rewrite one_shl, Z.lor_spec, Z.pow2_bits_eqb by lia. f_equal. apply Z.eqb_sym.
Qed.

Lemma bit_clear_pow x i j : 0 <= i < 32 → 0 <= j < 32 →
  bit (x .& wnot (1 .<< i)) j = bit x j && negb (j =? i).
Proof.
  intros Hi Hj. unfold bit. rewrite one_shl, Z.land_spec, testbit_wnot, Z.pow2_bits_eqb by lia. f_equal.
  rewrite (proj2 (Z.ltb_lt j 32)), xorb_true_r by lia. f_equal. apply Z.eqb_sym.
Qed.

Lemma bit_test x i : 0 <= i < 32 → (x .& (1 .<< i) =? 0) = negb (bit x i).
Proof. intros Hi. rewrite one_shl by done. apply land_bit_zero. lia. Qed.

Lemma uint_one_shl i : uint 32 (1 .<< i).
Proof. apply uint_w32. Qed.
#[export] Hint Resolve uint_one_shl : word.

(** A line number is a group and a bit. *)
Lemma line_group line : line .>> 5 = line / 32.
Proof. by rewrite Z.shiftr_div_pow2. Qed.
Lemma line_bit line : line .& 31 = line mod 32.
Proof. change 31 with (Z.ones 5). by rewrite Z.land_ones. Qed.

(** Bitwise operators, one bit at a time. *)
Lemma bit_land x y i : bit (x .& y) i = bit x i && bit y i.
Proof. apply Z.land_spec. Qed.
Lemma bit_lor x y i : bit (x .| y) i = bit x i || bit y i.
Proof. apply Z.lor_spec. Qed.
Lemma bit_lxor x y i : bit (x .^ y) i = xorb (bit x i) (bit y i).
Proof. apply Z.lxor_spec. Qed.
Lemma bit_wnot x i : 0 <= i < 32 → bit (wnot x) i = negb (bit x i).
Proof.
  intros Hi. unfold bit. rewrite testbit_wnot by lia.
  by rewrite (proj2 (Z.ltb_lt i 32)), xorb_true_r by lia.
Qed.
Lemma bit_0 i : bit 0 i = false.
Proof. apply Z.testbit_0_l. Qed.

(** ** Packed fields *)

Lemma shiftl_lor a k b : 0 <= k → 0 <= b < 2 ^ k → Z.shiftl a k .| b = a * 2 ^ k + b.
Proof.
  intros Hk Hb. assert (D : Z.shiftl a k .& b = 0).
  { apply Z.bits_inj'. intros i Hi. rewrite Z.land_spec, Z.shiftl_spec, Z.testbit_0_l by lia. destruct (Z.ltb_spec i k).
    - by rewrite (Z.testbit_neg_r a) by lia.
    - rewrite (uint_high k b) by done. apply andb_false_r. }
  rewrite <- Z.lxor_lor, <- Z.add_nocarry_lxor, Z.shiftl_mul_pow2 by done. done.
Qed.

Lemma packed_high a k b : 0 <= k → 0 <= b < 2 ^ k → (Z.shiftl a k .| b) .>> k = a.
Proof. intros Hk Hb. rewrite shiftl_lor, Z.shiftr_div_pow2, Z.div_add_l, Z.div_small by lia. lia. Qed.
Lemma packed_low a k b : 0 <= k → 0 <= b < 2 ^ k → (Z.shiftl a k .| b) mod 2 ^ k = b.
Proof. intros Hk Hb. rewrite shiftl_lor, Z.add_comm, Z.mod_add, Z.mod_small by lia. done. Qed.

(** ** Periodic counters

    The devices that fire at a fixed rate keep a phase and advance it by a number of ticks
    at once; the machine converts CPU ticks to timebase ticks the same way.  Advancing in
    parts is advancing at once, and the first boundary is where the phase says it is. *)

Lemma advance_split a n1 n2 p : 0 < p →
  ((a + n1) mod p + n2) mod p = (a + (n1 + n2)) mod p
  ∧ (a + n1) / p + ((a + n1) mod p + n2) / p = (a + (n1 + n2)) / p.
Proof.
  intros Hp. pose proof (Z.div_mod (a + n1) p ltac:(lia)) as E.
  assert (F : a + (n1 + n2) = ((a + n1) mod p + n2) + (a + n1) / p * p) by lia.
  rewrite F, Z.mod_add, Z.div_add by lia. lia.
Qed.

Lemma advance_phase a n p : 0 < p → 0 <= (a + n) mod p < p.
Proof. intros. apply Z.mod_pos_bound. lia. Qed.

(** A boundary falls within [n] ticks exactly from its distance on. *)
Lemma advance_boundary a n p : 0 <= a < p → 0 <= n → ((a + n) / p =? 0) = (n <? p - a).
Proof.
  intros Ha Hn. destruct (Z.ltb_spec n (p - a)).
  - apply Z.eqb_eq, Z.div_small. lia.
  - apply Z.eqb_neq. assert (1 <= (a + n) / p) by (apply Z.div_le_lower_bound; lia). lia.
Qed.

Lemma advance_inside a n p : 0 <= a → 0 <= n → a + n < p → (a + n) / p = 0 ∧ (a + n) mod p = a + n.
Proof. intros. split; [apply Z.div_small | apply Z.mod_small]; lia. Qed.
