(* ===== verification/State.v ===== *)
(** * The state of the ARM1176 core

    The constants, enumerations and structures of [core/include/arm.h]
    ([arm_cp15_t], [arm_cpu_t]).  The register file and the other fixed C arrays
    are total functions of the index, updated with stdpp's [<[i := v]>]; the
    host-side caches of [arm_cpu_t] (the software TLB and the three host-pointer
    caches) are the sub-record [mmu_cache]. *)

From S2P Require Import Prelude.

(** ** Constants of arm.h *)

Definition ARM_CPSR_N := 0x80000000.
Definition ARM_CPSR_Z := 0x40000000.
Definition ARM_CPSR_C := 0x20000000.
Definition ARM_CPSR_V := 0x10000000.
Definition ARM_CPSR_Q := 0x08000000.
Definition ARM_CPSR_A := 0x100.
Definition ARM_CPSR_E := 0x200.
Definition ARM_CPSR_I := 0x80.
Definition ARM_CPSR_F := 0x40.
Definition ARM_CPSR_T := 0x20.
Definition ARM_CPSR_MODE_MASK := 0x1f.

Definition ARM_SCTLR_M := 0x1.
Definition ARM_SCTLR_A := 0x2.
Definition ARM_SCTLR_S := 0x100.
Definition ARM_SCTLR_R := 0x200.
Definition ARM_SCTLR_V := 0x2000.
Definition ARM_SCTLR_U := 0x400000.
Definition ARM_SCTLR_XP := 0x800000.
Definition ARM_SCTLR_EE := 0x2000000.
Definition ARM_SCTLR_FA := 0x20000000.

Definition ARM_FSR_ALIGNMENT := 0x1.
Definition ARM_FSR_SECTION_ACCESS_FLAG := 0x3.
Definition ARM_FSR_SECTION_TRANSLATION := 0x5.
Definition ARM_FSR_PAGE_ACCESS_FLAG := 0x6.
Definition ARM_FSR_PAGE_TRANSLATION := 0x7.
Definition ARM_FSR_SECTION_DOMAIN := 0x9.
Definition ARM_FSR_PAGE_DOMAIN := 0xb.
Definition ARM_FSR_SECTION_PERMISSION := 0xd.
Definition ARM_FSR_PAGE_PERMISSION := 0xf.

Definition ARM_VEC_RESET := 0x00.
Definition ARM_VEC_UNDEFINED := 0x04.
Definition ARM_VEC_SWI := 0x08.
Definition ARM_VEC_PREFETCH := 0x0c.
Definition ARM_VEC_DATA_ABORT := 0x10.
Definition ARM_VEC_IRQ := 0x18.
Definition ARM_VEC_FIQ := 0x1c.

Definition ARM_MODE_USR := 0x10.
Definition ARM_MODE_FIQ := 0x11.
Definition ARM_MODE_IRQ := 0x12.
Definition ARM_MODE_SVC := 0x13.
Definition ARM_MODE_ABT := 0x17.
Definition ARM_MODE_UND := 0x1b.
Definition ARM_MODE_SYS := 0x1f.

(** ** Enumerations *)

Inductive arm_status : Set :=
| ARM_OK | ARM_UNDEFINED | ARM_HALT | ARM_GUEST_UNDEFINED | ARM_RESTART.

Inductive arm_bank : Set :=
| ARM_BANK_USR | ARM_BANK_FIQ | ARM_BANK_IRQ | ARM_BANK_SVC | ARM_BANK_ABT | ARM_BANK_UND.

Inductive arm_arch : Set := ARM_ARCH_V6_ARM1176 | ARM_ARCH_V7_SWIFT.

Inductive arm_access : Set := ARM_ACCESS_READ | ARM_ACCESS_WRITE | ARM_ACCESS_FETCH.

#[export] Instance arm_status_eq_dec : EqDecision arm_status.
Proof. solve_decision. Defined.
#[export] Instance arm_bank_eq_dec : EqDecision arm_bank.
Proof. solve_decision. Defined.
#[export] Instance arm_access_eq_dec : EqDecision arm_access.
Proof. solve_decision. Defined.

Definition bank_eqb (a b : arm_bank) : bool := bool_decide (a = b).

(** ** Records *)

(** CP15, the system control coprocessor ([arm_cp15_t]). *)
Record arm_cp15 := MkCp15 {
  sctlr : Z;
  actlr : Z;
  cpacr : Z;
  ttbr0 : Z;
  ttbr1 : Z;
  ttbcr : Z;
  dacr : Z;
  dfsr : Z;
  ifsr : Z;
  dfar : Z;
  ifar : Z;
  fcse_pid : Z;
  context_id : Z;
  tpidrurw : Z;
  tpidruro : Z;
  tpidrprw : Z
}.

(** One entry of the software TLB. *)
Record tlb_entry := MkTlb { te_gen : Z; te_tag : Z; te_pa : Z; te_fsr : Z }.

(** One entry of a data block cache; a host pointer is an abstract address of
    host memory, [None] is the null pointer. *)
Record blk_entry := MkBlk { be_host : option Z; be_tag : Z; be_gen : Z }.

(** The registers a cached translation is only valid under. *)
Record stamp := MkStamp {
  st_sctlr : Z; st_ttbr0 : Z; st_ttbr1 : Z; st_ttbcr : Z; st_dacr : Z; st_context_id : Z }.

(** The host-side caches of [arm_cpu_t] and their counters. *)
Record mmu_cache := MkCache {
  tlb : Z → tlb_entry;
  tlb_gen : Z;
  fetch_host : option Z;
  fetch_blk : Z;
  fetch_gen : Z;
  fetch_priv : bool;
  dread : Z → blk_entry;
  dwrite : Z → blk_entry;
  tlb_stamp : stamp;
  tlb_hits : Z;
  tlb_misses : Z;
  tlb_flushes : Z;
  dread_hits : Z;
  dread_misses : Z;
  dwrite_hits : Z;
  dwrite_misses : Z
}.

(** The core ([arm_cpu_t]; the bus pointer is kept beside it, see Bus.v). *)
Record arm_cpu := MkCpu {
  r : Z → Z;
  arch : arm_arch;
  cpsr : Z;
  cp15 : arm_cp15;
  spsr : arm_bank → Z;
  bank_r13 : arm_bank → Z;
  bank_r14 : arm_bank → Z;
  fiq_r8_12 : Z → Z;
  usr_r8_12 : Z → Z;
  cycles : Z;
  abort_pending : bool;
  abort_fsr : Z;
  abort_far : Z;
  irq_line : bool;
  fiq_line : bool;
  excl_valid : bool;
  excl_addr : Z;
  vfp_fpexc : Z;
  vfp_fpscr : Z;
  vfp_s : Z → Z;
  cache : mmu_cache
}.

(** Field updates. *)

Definition set_sctlr (v : Z) (c : arm_cp15) : arm_cp15 :=
  MkCp15 v (actlr c) (cpacr c) (ttbr0 c) (ttbr1 c) (ttbcr c) (dacr c) (dfsr c) (ifsr c)
    (dfar c) (ifar c) (fcse_pid c) (context_id c) (tpidrurw c) (tpidruro c) (tpidrprw c).
Definition set_actlr (v : Z) (c : arm_cp15) : arm_cp15 :=
  MkCp15 (sctlr c) v (cpacr c) (ttbr0 c) (ttbr1 c) (ttbcr c) (dacr c) (dfsr c) (ifsr c)
    (dfar c) (ifar c) (fcse_pid c) (context_id c) (tpidrurw c) (tpidruro c) (tpidrprw c).
Definition set_cpacr (v : Z) (c : arm_cp15) : arm_cp15 :=
  MkCp15 (sctlr c) (actlr c) v (ttbr0 c) (ttbr1 c) (ttbcr c) (dacr c) (dfsr c) (ifsr c)
    (dfar c) (ifar c) (fcse_pid c) (context_id c) (tpidrurw c) (tpidruro c) (tpidrprw c).
Definition set_ttbr0 (v : Z) (c : arm_cp15) : arm_cp15 :=
  MkCp15 (sctlr c) (actlr c) (cpacr c) v (ttbr1 c) (ttbcr c) (dacr c) (dfsr c) (ifsr c)
    (dfar c) (ifar c) (fcse_pid c) (context_id c) (tpidrurw c) (tpidruro c) (tpidrprw c).
Definition set_ttbr1 (v : Z) (c : arm_cp15) : arm_cp15 :=
  MkCp15 (sctlr c) (actlr c) (cpacr c) (ttbr0 c) v (ttbcr c) (dacr c) (dfsr c) (ifsr c)
    (dfar c) (ifar c) (fcse_pid c) (context_id c) (tpidrurw c) (tpidruro c) (tpidrprw c).
Definition set_ttbcr (v : Z) (c : arm_cp15) : arm_cp15 :=
  MkCp15 (sctlr c) (actlr c) (cpacr c) (ttbr0 c) (ttbr1 c) v (dacr c) (dfsr c) (ifsr c)
    (dfar c) (ifar c) (fcse_pid c) (context_id c) (tpidrurw c) (tpidruro c) (tpidrprw c).
Definition set_dacr (v : Z) (c : arm_cp15) : arm_cp15 :=
  MkCp15 (sctlr c) (actlr c) (cpacr c) (ttbr0 c) (ttbr1 c) (ttbcr c) v (dfsr c) (ifsr c)
    (dfar c) (ifar c) (fcse_pid c) (context_id c) (tpidrurw c) (tpidruro c) (tpidrprw c).
Definition set_dfsr (v : Z) (c : arm_cp15) : arm_cp15 :=
  MkCp15 (sctlr c) (actlr c) (cpacr c) (ttbr0 c) (ttbr1 c) (ttbcr c) (dacr c) v (ifsr c)
    (dfar c) (ifar c) (fcse_pid c) (context_id c) (tpidrurw c) (tpidruro c) (tpidrprw c).
Definition set_ifsr (v : Z) (c : arm_cp15) : arm_cp15 :=
  MkCp15 (sctlr c) (actlr c) (cpacr c) (ttbr0 c) (ttbr1 c) (ttbcr c) (dacr c) (dfsr c) v
    (dfar c) (ifar c) (fcse_pid c) (context_id c) (tpidrurw c) (tpidruro c) (tpidrprw c).
Definition set_dfar (v : Z) (c : arm_cp15) : arm_cp15 :=
  MkCp15 (sctlr c) (actlr c) (cpacr c) (ttbr0 c) (ttbr1 c) (ttbcr c) (dacr c) (dfsr c)
    (ifsr c) v (ifar c) (fcse_pid c) (context_id c) (tpidrurw c) (tpidruro c) (tpidrprw c).
Definition set_ifar (v : Z) (c : arm_cp15) : arm_cp15 :=
  MkCp15 (sctlr c) (actlr c) (cpacr c) (ttbr0 c) (ttbr1 c) (ttbcr c) (dacr c) (dfsr c)
    (ifsr c) (dfar c) v (fcse_pid c) (context_id c) (tpidrurw c) (tpidruro c) (tpidrprw c).
Definition set_fcse_pid (v : Z) (c : arm_cp15) : arm_cp15 :=
  MkCp15 (sctlr c) (actlr c) (cpacr c) (ttbr0 c) (ttbr1 c) (ttbcr c) (dacr c) (dfsr c)
    (ifsr c) (dfar c) (ifar c) v (context_id c) (tpidrurw c) (tpidruro c) (tpidrprw c).
Definition set_context_id (v : Z) (c : arm_cp15) : arm_cp15 :=
  MkCp15 (sctlr c) (actlr c) (cpacr c) (ttbr0 c) (ttbr1 c) (ttbcr c) (dacr c) (dfsr c)
    (ifsr c) (dfar c) (ifar c) (fcse_pid c) v (tpidrurw c) (tpidruro c) (tpidrprw c).
Definition set_tpidrurw (v : Z) (c : arm_cp15) : arm_cp15 :=
  MkCp15 (sctlr c) (actlr c) (cpacr c) (ttbr0 c) (ttbr1 c) (ttbcr c) (dacr c) (dfsr c)
    (ifsr c) (dfar c) (ifar c) (fcse_pid c) (context_id c) v (tpidruro c) (tpidrprw c).
Definition set_tpidruro (v : Z) (c : arm_cp15) : arm_cp15 :=
  MkCp15 (sctlr c) (actlr c) (cpacr c) (ttbr0 c) (ttbr1 c) (ttbcr c) (dacr c) (dfsr c)
    (ifsr c) (dfar c) (ifar c) (fcse_pid c) (context_id c) (tpidrurw c) v (tpidrprw c).
Definition set_tpidrprw (v : Z) (c : arm_cp15) : arm_cp15 :=
  MkCp15 (sctlr c) (actlr c) (cpacr c) (ttbr0 c) (ttbr1 c) (ttbcr c) (dacr c) (dfsr c)
    (ifsr c) (dfar c) (ifar c) (fcse_pid c) (context_id c) (tpidrurw c) (tpidruro c) v.

Definition set_tlb (v : Z → tlb_entry) (c : mmu_cache) : mmu_cache :=
  MkCache v (tlb_gen c) (fetch_host c) (fetch_blk c) (fetch_gen c) (fetch_priv c) (dread c)
    (dwrite c) (tlb_stamp c) (tlb_hits c) (tlb_misses c) (tlb_flushes c) (dread_hits c)
    (dread_misses c) (dwrite_hits c) (dwrite_misses c).
Definition set_tlb_gen (v : Z) (c : mmu_cache) : mmu_cache :=
  MkCache (tlb c) v (fetch_host c) (fetch_blk c) (fetch_gen c) (fetch_priv c) (dread c)
    (dwrite c) (tlb_stamp c) (tlb_hits c) (tlb_misses c) (tlb_flushes c) (dread_hits c)
    (dread_misses c) (dwrite_hits c) (dwrite_misses c).
Definition set_fetch_host (v : option Z) (c : mmu_cache) : mmu_cache :=
  MkCache (tlb c) (tlb_gen c) v (fetch_blk c) (fetch_gen c) (fetch_priv c) (dread c)
    (dwrite c) (tlb_stamp c) (tlb_hits c) (tlb_misses c) (tlb_flushes c) (dread_hits c)
    (dread_misses c) (dwrite_hits c) (dwrite_misses c).
Definition set_fetch_blk (v : Z) (c : mmu_cache) : mmu_cache :=
  MkCache (tlb c) (tlb_gen c) (fetch_host c) v (fetch_gen c) (fetch_priv c) (dread c)
    (dwrite c) (tlb_stamp c) (tlb_hits c) (tlb_misses c) (tlb_flushes c) (dread_hits c)
    (dread_misses c) (dwrite_hits c) (dwrite_misses c).
Definition set_fetch_gen (v : Z) (c : mmu_cache) : mmu_cache :=
  MkCache (tlb c) (tlb_gen c) (fetch_host c) (fetch_blk c) v (fetch_priv c) (dread c)
    (dwrite c) (tlb_stamp c) (tlb_hits c) (tlb_misses c) (tlb_flushes c) (dread_hits c)
    (dread_misses c) (dwrite_hits c) (dwrite_misses c).
Definition set_fetch_priv (v : bool) (c : mmu_cache) : mmu_cache :=
  MkCache (tlb c) (tlb_gen c) (fetch_host c) (fetch_blk c) (fetch_gen c) v (dread c)
    (dwrite c) (tlb_stamp c) (tlb_hits c) (tlb_misses c) (tlb_flushes c) (dread_hits c)
    (dread_misses c) (dwrite_hits c) (dwrite_misses c).
Definition set_dread (v : Z → blk_entry) (c : mmu_cache) : mmu_cache :=
  MkCache (tlb c) (tlb_gen c) (fetch_host c) (fetch_blk c) (fetch_gen c) (fetch_priv c) v
    (dwrite c) (tlb_stamp c) (tlb_hits c) (tlb_misses c) (tlb_flushes c) (dread_hits c)
    (dread_misses c) (dwrite_hits c) (dwrite_misses c).
Definition set_dwrite (v : Z → blk_entry) (c : mmu_cache) : mmu_cache :=
  MkCache (tlb c) (tlb_gen c) (fetch_host c) (fetch_blk c) (fetch_gen c) (fetch_priv c)
    (dread c) v (tlb_stamp c) (tlb_hits c) (tlb_misses c) (tlb_flushes c) (dread_hits c)
    (dread_misses c) (dwrite_hits c) (dwrite_misses c).
Definition set_tlb_stamp (v : stamp) (c : mmu_cache) : mmu_cache :=
  MkCache (tlb c) (tlb_gen c) (fetch_host c) (fetch_blk c) (fetch_gen c) (fetch_priv c)
    (dread c) (dwrite c) v (tlb_hits c) (tlb_misses c) (tlb_flushes c) (dread_hits c)
    (dread_misses c) (dwrite_hits c) (dwrite_misses c).
Definition set_tlb_hits (v : Z) (c : mmu_cache) : mmu_cache :=
  MkCache (tlb c) (tlb_gen c) (fetch_host c) (fetch_blk c) (fetch_gen c) (fetch_priv c)
    (dread c) (dwrite c) (tlb_stamp c) v (tlb_misses c) (tlb_flushes c) (dread_hits c)
    (dread_misses c) (dwrite_hits c) (dwrite_misses c).
Definition set_tlb_misses (v : Z) (c : mmu_cache) : mmu_cache :=
  MkCache (tlb c) (tlb_gen c) (fetch_host c) (fetch_blk c) (fetch_gen c) (fetch_priv c)
    (dread c) (dwrite c) (tlb_stamp c) (tlb_hits c) v (tlb_flushes c) (dread_hits c)
    (dread_misses c) (dwrite_hits c) (dwrite_misses c).
Definition set_tlb_flushes (v : Z) (c : mmu_cache) : mmu_cache :=
  MkCache (tlb c) (tlb_gen c) (fetch_host c) (fetch_blk c) (fetch_gen c) (fetch_priv c)
    (dread c) (dwrite c) (tlb_stamp c) (tlb_hits c) (tlb_misses c) v (dread_hits c)
    (dread_misses c) (dwrite_hits c) (dwrite_misses c).
Definition set_dread_hits (v : Z) (c : mmu_cache) : mmu_cache :=
  MkCache (tlb c) (tlb_gen c) (fetch_host c) (fetch_blk c) (fetch_gen c) (fetch_priv c)
    (dread c) (dwrite c) (tlb_stamp c) (tlb_hits c) (tlb_misses c) (tlb_flushes c) v
    (dread_misses c) (dwrite_hits c) (dwrite_misses c).
Definition set_dread_misses (v : Z) (c : mmu_cache) : mmu_cache :=
  MkCache (tlb c) (tlb_gen c) (fetch_host c) (fetch_blk c) (fetch_gen c) (fetch_priv c)
    (dread c) (dwrite c) (tlb_stamp c) (tlb_hits c) (tlb_misses c) (tlb_flushes c)
    (dread_hits c) v (dwrite_hits c) (dwrite_misses c).
Definition set_dwrite_hits (v : Z) (c : mmu_cache) : mmu_cache :=
  MkCache (tlb c) (tlb_gen c) (fetch_host c) (fetch_blk c) (fetch_gen c) (fetch_priv c)
    (dread c) (dwrite c) (tlb_stamp c) (tlb_hits c) (tlb_misses c) (tlb_flushes c)
    (dread_hits c) (dread_misses c) v (dwrite_misses c).
Definition set_dwrite_misses (v : Z) (c : mmu_cache) : mmu_cache :=
  MkCache (tlb c) (tlb_gen c) (fetch_host c) (fetch_blk c) (fetch_gen c) (fetch_priv c)
    (dread c) (dwrite c) (tlb_stamp c) (tlb_hits c) (tlb_misses c) (tlb_flushes c)
    (dread_hits c) (dread_misses c) (dwrite_hits c) v.

Definition set_r (v : Z → Z) (c : arm_cpu) : arm_cpu :=
  MkCpu v (arch c) (cpsr c) (cp15 c) (spsr c) (bank_r13 c) (bank_r14 c) (fiq_r8_12 c)
    (usr_r8_12 c) (cycles c) (abort_pending c) (abort_fsr c) (abort_far c) (irq_line c)
    (fiq_line c) (excl_valid c) (excl_addr c) (vfp_fpexc c) (vfp_fpscr c) (vfp_s c)
    (cache c).
Definition set_arch (v : arm_arch) (c : arm_cpu) : arm_cpu :=
  MkCpu (r c) v (cpsr c) (cp15 c) (spsr c) (bank_r13 c) (bank_r14 c) (fiq_r8_12 c)
    (usr_r8_12 c) (cycles c) (abort_pending c) (abort_fsr c) (abort_far c) (irq_line c)
    (fiq_line c) (excl_valid c) (excl_addr c) (vfp_fpexc c) (vfp_fpscr c) (vfp_s c)
    (cache c).
Definition set_cpsr (v : Z) (c : arm_cpu) : arm_cpu :=
  MkCpu (r c) (arch c) v (cp15 c) (spsr c) (bank_r13 c) (bank_r14 c) (fiq_r8_12 c)
    (usr_r8_12 c) (cycles c) (abort_pending c) (abort_fsr c) (abort_far c) (irq_line c)
    (fiq_line c) (excl_valid c) (excl_addr c) (vfp_fpexc c) (vfp_fpscr c) (vfp_s c)
    (cache c).
Definition set_cp15 (v : arm_cp15) (c : arm_cpu) : arm_cpu :=
  MkCpu (r c) (arch c) (cpsr c) v (spsr c) (bank_r13 c) (bank_r14 c) (fiq_r8_12 c)
    (usr_r8_12 c) (cycles c) (abort_pending c) (abort_fsr c) (abort_far c) (irq_line c)
    (fiq_line c) (excl_valid c) (excl_addr c) (vfp_fpexc c) (vfp_fpscr c) (vfp_s c)
    (cache c).
Definition set_spsr (v : arm_bank → Z) (c : arm_cpu) : arm_cpu :=
  MkCpu (r c) (arch c) (cpsr c) (cp15 c) v (bank_r13 c) (bank_r14 c) (fiq_r8_12 c)
    (usr_r8_12 c) (cycles c) (abort_pending c) (abort_fsr c) (abort_far c) (irq_line c)
    (fiq_line c) (excl_valid c) (excl_addr c) (vfp_fpexc c) (vfp_fpscr c) (vfp_s c)
    (cache c).
Definition set_bank_r13 (v : arm_bank → Z) (c : arm_cpu) : arm_cpu :=
  MkCpu (r c) (arch c) (cpsr c) (cp15 c) (spsr c) v (bank_r14 c) (fiq_r8_12 c) (usr_r8_12 c)
    (cycles c) (abort_pending c) (abort_fsr c) (abort_far c) (irq_line c) (fiq_line c)
    (excl_valid c) (excl_addr c) (vfp_fpexc c) (vfp_fpscr c) (vfp_s c) (cache c).
Definition set_bank_r14 (v : arm_bank → Z) (c : arm_cpu) : arm_cpu :=
  MkCpu (r c) (arch c) (cpsr c) (cp15 c) (spsr c) (bank_r13 c) v (fiq_r8_12 c) (usr_r8_12 c)
    (cycles c) (abort_pending c) (abort_fsr c) (abort_far c) (irq_line c) (fiq_line c)
    (excl_valid c) (excl_addr c) (vfp_fpexc c) (vfp_fpscr c) (vfp_s c) (cache c).
Definition set_fiq_r8_12 (v : Z → Z) (c : arm_cpu) : arm_cpu :=
  MkCpu (r c) (arch c) (cpsr c) (cp15 c) (spsr c) (bank_r13 c) (bank_r14 c) v (usr_r8_12 c)
    (cycles c) (abort_pending c) (abort_fsr c) (abort_far c) (irq_line c) (fiq_line c)
    (excl_valid c) (excl_addr c) (vfp_fpexc c) (vfp_fpscr c) (vfp_s c) (cache c).
Definition set_usr_r8_12 (v : Z → Z) (c : arm_cpu) : arm_cpu :=
  MkCpu (r c) (arch c) (cpsr c) (cp15 c) (spsr c) (bank_r13 c) (bank_r14 c) (fiq_r8_12 c) v
    (cycles c) (abort_pending c) (abort_fsr c) (abort_far c) (irq_line c) (fiq_line c)
    (excl_valid c) (excl_addr c) (vfp_fpexc c) (vfp_fpscr c) (vfp_s c) (cache c).
Definition set_cycles (v : Z) (c : arm_cpu) : arm_cpu :=
  MkCpu (r c) (arch c) (cpsr c) (cp15 c) (spsr c) (bank_r13 c) (bank_r14 c) (fiq_r8_12 c)
    (usr_r8_12 c) v (abort_pending c) (abort_fsr c) (abort_far c) (irq_line c) (fiq_line c)
    (excl_valid c) (excl_addr c) (vfp_fpexc c) (vfp_fpscr c) (vfp_s c) (cache c).
Definition set_abort_pending (v : bool) (c : arm_cpu) : arm_cpu :=
  MkCpu (r c) (arch c) (cpsr c) (cp15 c) (spsr c) (bank_r13 c) (bank_r14 c) (fiq_r8_12 c)
    (usr_r8_12 c) (cycles c) v (abort_fsr c) (abort_far c) (irq_line c) (fiq_line c)
    (excl_valid c) (excl_addr c) (vfp_fpexc c) (vfp_fpscr c) (vfp_s c) (cache c).
Definition set_abort_fsr (v : Z) (c : arm_cpu) : arm_cpu :=
  MkCpu (r c) (arch c) (cpsr c) (cp15 c) (spsr c) (bank_r13 c) (bank_r14 c) (fiq_r8_12 c)
    (usr_r8_12 c) (cycles c) (abort_pending c) v (abort_far c) (irq_line c) (fiq_line c)
    (excl_valid c) (excl_addr c) (vfp_fpexc c) (vfp_fpscr c) (vfp_s c) (cache c).
Definition set_abort_far (v : Z) (c : arm_cpu) : arm_cpu :=
  MkCpu (r c) (arch c) (cpsr c) (cp15 c) (spsr c) (bank_r13 c) (bank_r14 c) (fiq_r8_12 c)
    (usr_r8_12 c) (cycles c) (abort_pending c) (abort_fsr c) v (irq_line c) (fiq_line c)
    (excl_valid c) (excl_addr c) (vfp_fpexc c) (vfp_fpscr c) (vfp_s c) (cache c).
Definition set_irq_line (v : bool) (c : arm_cpu) : arm_cpu :=
  MkCpu (r c) (arch c) (cpsr c) (cp15 c) (spsr c) (bank_r13 c) (bank_r14 c) (fiq_r8_12 c)
    (usr_r8_12 c) (cycles c) (abort_pending c) (abort_fsr c) (abort_far c) v (fiq_line c)
    (excl_valid c) (excl_addr c) (vfp_fpexc c) (vfp_fpscr c) (vfp_s c) (cache c).
Definition set_fiq_line (v : bool) (c : arm_cpu) : arm_cpu :=
  MkCpu (r c) (arch c) (cpsr c) (cp15 c) (spsr c) (bank_r13 c) (bank_r14 c) (fiq_r8_12 c)
    (usr_r8_12 c) (cycles c) (abort_pending c) (abort_fsr c) (abort_far c) (irq_line c) v
    (excl_valid c) (excl_addr c) (vfp_fpexc c) (vfp_fpscr c) (vfp_s c) (cache c).
Definition set_excl_valid (v : bool) (c : arm_cpu) : arm_cpu :=
  MkCpu (r c) (arch c) (cpsr c) (cp15 c) (spsr c) (bank_r13 c) (bank_r14 c) (fiq_r8_12 c)
    (usr_r8_12 c) (cycles c) (abort_pending c) (abort_fsr c) (abort_far c) (irq_line c)
    (fiq_line c) v (excl_addr c) (vfp_fpexc c) (vfp_fpscr c) (vfp_s c) (cache c).
Definition set_excl_addr (v : Z) (c : arm_cpu) : arm_cpu :=
  MkCpu (r c) (arch c) (cpsr c) (cp15 c) (spsr c) (bank_r13 c) (bank_r14 c) (fiq_r8_12 c)
    (usr_r8_12 c) (cycles c) (abort_pending c) (abort_fsr c) (abort_far c) (irq_line c)
    (fiq_line c) (excl_valid c) v (vfp_fpexc c) (vfp_fpscr c) (vfp_s c) (cache c).
Definition set_vfp_fpexc (v : Z) (c : arm_cpu) : arm_cpu :=
  MkCpu (r c) (arch c) (cpsr c) (cp15 c) (spsr c) (bank_r13 c) (bank_r14 c) (fiq_r8_12 c)
    (usr_r8_12 c) (cycles c) (abort_pending c) (abort_fsr c) (abort_far c) (irq_line c)
    (fiq_line c) (excl_valid c) (excl_addr c) v (vfp_fpscr c) (vfp_s c) (cache c).
Definition set_vfp_fpscr (v : Z) (c : arm_cpu) : arm_cpu :=
  MkCpu (r c) (arch c) (cpsr c) (cp15 c) (spsr c) (bank_r13 c) (bank_r14 c) (fiq_r8_12 c)
    (usr_r8_12 c) (cycles c) (abort_pending c) (abort_fsr c) (abort_far c) (irq_line c)
    (fiq_line c) (excl_valid c) (excl_addr c) (vfp_fpexc c) v (vfp_s c) (cache c).
Definition set_vfp_s (v : Z → Z) (c : arm_cpu) : arm_cpu :=
  MkCpu (r c) (arch c) (cpsr c) (cp15 c) (spsr c) (bank_r13 c) (bank_r14 c) (fiq_r8_12 c)
    (usr_r8_12 c) (cycles c) (abort_pending c) (abort_fsr c) (abort_far c) (irq_line c)
    (fiq_line c) (excl_valid c) (excl_addr c) (vfp_fpexc c) (vfp_fpscr c) v (cache c).
Definition set_cache (v : mmu_cache) (c : arm_cpu) : arm_cpu :=
  MkCpu (r c) (arch c) (cpsr c) (cp15 c) (spsr c) (bank_r13 c) (bank_r14 c) (fiq_r8_12 c)
    (usr_r8_12 c) (cycles c) (abort_pending c) (abort_fsr c) (abort_far c) (irq_line c)
    (fiq_line c) (excl_valid c) (excl_addr c) (vfp_fpexc c) (vfp_fpscr c) (vfp_s c) v.
