(* ===== verification/Cpu.v ===== *)
(** * The core's register banks, flags and exception entry

    The state-manipulating helpers of [core/src/arm/arm_interp.c]: flag access,
    the abort latch, bank switching ([arm_set_mode]), the User-bank register view
    used by LDM/STM [^], exception entry, reset and the condition test.

    The specification is [reg_view]: what register [i] holds as seen by bank
    [b], wherever the core has parked it.  [arm_set_mode] is proved to change
    which bank is live and no view at all. *)

From S2P Require Import Prelude State.

(** ** Flags and privilege *)

Definition set_flag (c : arm_cpu) (b : Z) (on : bool) : arm_cpu :=
  set_cpsr (if on then cpsr c .| b else cpsr c .& wnot b) c.

Definition get_flag (c : arm_cpu) (b : Z) : bool := negb ((cpsr c .& b) =? 0).

Definition mode_of (c : arm_cpu) : Z := cpsr c .& ARM_CPSR_MODE_MASK.

Definition cpu_is_priv (c : arm_cpu) : bool := negb (mode_of c =? ARM_MODE_USR).

Definition set_reg (n v : Z) (c : arm_cpu) : arm_cpu := set_r (<[n := v]> (r c)) c.

(** Reading r15 as an operand yields the current instruction's address + 8. *)
Definition reg_read (c : arm_cpu) (pc n : Z) : Z := if n =? 15 then pc +w 8 else r c n.

(** ** The abort latch *)

Definition note_abort (c : arm_cpu) (fsr va : Z) : arm_cpu :=
  if abort_pending c then c
  else set_abort_far va (set_abort_fsr fsr (set_abort_pending true c)).

Definition note_alignment_abort (c : arm_cpu) (va : Z) (write : bool) : arm_cpu :=
  note_abort c (ARM_FSR_ALIGNMENT .| (if write then 0x800 else 0)) va.

(** ** Modes and banks *)

Definition arm_mode_is_valid (mode : Z) : bool :=
  let m := mode .& ARM_CPSR_MODE_MASK in
  (m =? ARM_MODE_USR) || (m =? ARM_MODE_FIQ) || (m =? ARM_MODE_IRQ) ||
  (m =? ARM_MODE_SVC) || (m =? ARM_MODE_ABT) || (m =? ARM_MODE_UND) ||
  (m =? ARM_MODE_SYS).

Definition arm_bank_of_mode (mode : Z) : arm_bank :=
  let m := mode .& ARM_CPSR_MODE_MASK in
  if m =? ARM_MODE_FIQ then ARM_BANK_FIQ
  else if m =? ARM_MODE_IRQ then ARM_BANK_IRQ
  else if m =? ARM_MODE_SVC then ARM_BANK_SVC
  else if m =? ARM_MODE_ABT then ARM_BANK_ABT
  else if m =? ARM_MODE_UND then ARM_BANK_UND
  else ARM_BANK_USR.

(** [for (i = 0; i < 5; i++) { park[i] = r[8+i]; r[8+i] = load[i]; }] in its two
    directions. *)
Definition leave_fiq (c : arm_cpu) : arm_cpu :=
  for_range 5 0 (fun i c =>
    let c := set_fiq_r8_12 (<[i := r c (8 + i)]> (fiq_r8_12 c)) c in
    set_reg (8 + i) (usr_r8_12 c i) c) c.

Definition enter_fiq (c : arm_cpu) : arm_cpu :=
  for_range 5 0 (fun i c =>
    let c := set_usr_r8_12 (<[i := r c (8 + i)]> (usr_r8_12 c)) c in
    set_reg (8 + i) (fiq_r8_12 c i) c) c.

Definition arm_set_mode (c : arm_cpu) (mode : Z) : arm_cpu :=
  let old := cpsr c .& ARM_CPSR_MODE_MASK in
  let mode := mode .& ARM_CPSR_MODE_MASK in
  if negb (arm_mode_is_valid mode) then c
  else
    let ob := arm_bank_of_mode old in
    let nb := arm_bank_of_mode mode in
    let c :=
      if bank_eqb ob nb then c
      else
        let c := set_bank_r13 (<[ob := r c 13]> (bank_r13 c)) c in
        let c := set_bank_r14 (<[ob := r c 14]> (bank_r14 c)) c in
        let c :=
          if bank_eqb ob ARM_BANK_FIQ then leave_fiq c
          else if bank_eqb nb ARM_BANK_FIQ then enter_fiq c
          else c in
        let c := set_reg 13 (bank_r13 c nb) c in
        set_reg 14 (bank_r14 c nb) c in
    set_cpsr ((cpsr c .& wnot ARM_CPSR_MODE_MASK) .| mode) c.

(** The exception-return idiom: bank in the mode of a saved PSR, then take its
    remaining bits. *)
Definition restore_psr (c : arm_cpu) (s : Z) : arm_cpu :=
  let c := arm_set_mode c s in
  set_cpsr ((cpsr c .& ARM_CPSR_MODE_MASK) .| (s .& wnot ARM_CPSR_MODE_MASK)) c.

Definition reg_read_user (c : arm_cpu) (pc i : Z) : Z :=
  let cur := arm_bank_of_mode (cpsr c) in
  if i =? 15 then pc +w 8
  else if bank_eqb cur ARM_BANK_USR then r c i
  else if i =? 13 then bank_r13 c ARM_BANK_USR
  else if i =? 14 then bank_r14 c ARM_BANK_USR
  else if (8 <=? i) && (i <=? 12) && bank_eqb cur ARM_BANK_FIQ then usr_r8_12 c (i - 8)
  else r c i.

Definition reg_write_user (c : arm_cpu) (i v : Z) : arm_cpu :=
  let cur := arm_bank_of_mode (cpsr c) in
  if bank_eqb cur ARM_BANK_USR then set_reg i v c
  else if i =? 13 then set_bank_r13 (<[ARM_BANK_USR := v]> (bank_r13 c)) c
  else if i =? 14 then set_bank_r14 (<[ARM_BANK_USR := v]> (bank_r14 c)) c
  else if (8 <=? i) && (i <=? 12) && bank_eqb cur ARM_BANK_FIQ
       then set_usr_r8_12 (<[i - 8 := v]> (usr_r8_12 c)) c
  else set_reg i v c.

(** ** Exceptions *)

(** Returns the vector address (the C [*next]) and the core. *)
Definition take_exception (c : arm_cpu) (vector mode ret_addr : Z) (mask_fiq : bool)
    : Z * arm_cpu :=
  let saved := cpsr c in
  let c := arm_set_mode c mode in
  let c := set_spsr (<[arm_bank_of_mode mode := saved]> (spsr c)) c in
  let c := set_reg 14 ret_addr c in
  let c := set_cpsr (cpsr c .| ARM_CPSR_I) c in
  let c := if mask_fiq then set_cpsr (cpsr c .| ARM_CPSR_F) c else c in
  let c := if (vector =? ARM_VEC_PREFETCH) || (vector =? ARM_VEC_DATA_ABORT) ||
              (vector =? ARM_VEC_IRQ) || (vector =? ARM_VEC_FIQ)
           then set_cpsr (cpsr c .| ARM_CPSR_A) c else c in
  let c := set_cpsr (cpsr c .& wnot ARM_CPSR_T) c in
  let c := set_flag c ARM_CPSR_E (negb ((sctlr (cp15 c) .& ARM_SCTLR_EE) =? 0)) in
  let c := set_excl_valid false c in
  let base := if negb ((sctlr (cp15 c) .& ARM_SCTLR_V) =? 0) then 0xffff0000 else 0 in
  (base +w vector, c).

Definition take_pending_data_abort (c : arm_cpu) (pc : Z) : arm_cpu :=
  let c := set_abort_pending false c in
  let c := set_cp15 (set_dfsr (abort_fsr c) (cp15 c)) c in
  let c := set_cp15 (set_dfar (abort_far c) (cp15 c)) c in
  let '(vec, c) := take_exception c ARM_VEC_DATA_ABORT ARM_MODE_ABT (pc +w 8) false in
  set_reg 15 vec c.

Definition take_undefined_instruction (c : arm_cpu) (pc : Z) : arm_status * arm_cpu :=
  let '(vec, c) := take_exception c ARM_VEC_UNDEFINED ARM_MODE_UND (pc +w 4) false in
  (ARM_OK, set_reg 15 vec c).

(** The six masks of the guest kernel's own lazy-VFP test. *)
Definition insn_is_vfp_space (insn : Z) : bool :=
  ((insn .& 0xfe000000) =? 0xf2000000) ||
  ((insn .& 0x0f000e10) =? 0x0e000a00) ||
  ((insn .& 0x0e000e00) =? 0x0c000a00) ||
  ((insn .& 0xff100000) =? 0xf4000000) ||
  ((insn .& 0x0f000e10) =? 0x0e000a10) ||
  ((insn .& 0x0fe00e00) =? 0x0c400a00).

Definition vfp_cpacr_permits (c : arm_cpu) : bool :=
  let cp10 := fld (cpacr (cp15 c)) 20 3 in
  let cp11 := fld (cpacr (cp15 c)) 22 3 in
  let acc := if cp10 <? cp11 then cp10 else cp11 in
  if acc =? 3 then true
  else if acc =? 1 then negb (mode_of c =? ARM_MODE_USR)
  else false.

Definition vfp_enabled (c : arm_cpu) : bool := negb ((vfp_fpexc c .& 0x40000000) =? 0).

Definition vfp_lazy_enable_trap (c : arm_cpu) (insn : Z) : bool :=
  if negb (insn_is_vfp_space insn) then false
  else negb (vfp_cpacr_permits c) || negb (vfp_enabled c).

Definition undefined_instruction (c : arm_cpu) (pc insn : Z) : arm_status * arm_cpu :=
  if negb (vfp_lazy_enable_trap c insn) then (ARM_UNDEFINED, c)
  else take_undefined_instruction c pc.

(** ** Reset and conditions *)

Definition cp15_zero : arm_cp15 := MkCp15 0 0 0 0 0 0 0 0 0 0 0 0 0 0 0 0.

Definition cache_reset (k : mmu_cache) : mmu_cache :=
  MkCache (fun _ => MkTlb 0 0 0 0) 1 None 0 0 false
    (fun _ => MkBlk None 0 0) (fun _ => MkBlk None 0 0) (tlb_stamp k) 0 0 0 0 0 0 0.

(** [arm_reset] leaves [arch] and the translation stamp alone. *)
Definition arm_reset (c : arm_cpu) : arm_cpu :=
  MkCpu (fun _ => 0) (arch c) (ARM_MODE_SVC .| ARM_CPSR_I .| ARM_CPSR_F .| ARM_CPSR_A)
    cp15_zero (fun _ => 0) (fun _ => 0) (fun _ => 0) (fun _ => 0) (fun _ => 0) 0
    false 0 0 false false false 0 0 0 (fun _ => 0) (cache_reset (cache c)).

Definition arm_cond_passed (c : arm_cpu) (cond : Z) : bool :=
  let n := get_flag c ARM_CPSR_N in
  let z := get_flag c ARM_CPSR_Z in
  let cf := get_flag c ARM_CPSR_C in
  let v := get_flag c ARM_CPSR_V in
  match cond .& 0xf with
  | 0x0 => z
  | 0x1 => negb z
  | 0x2 => cf
  | 0x3 => negb cf
  | 0x4 => n
  | 0x5 => negb n
  | 0x6 => v
  | 0x7 => negb v
  | 0x8 => cf && negb z
  | 0x9 => negb cf || z
  | 0xa => eqb n v
  | 0xb => negb (eqb n v)
  | 0xc => negb z && eqb n v
  | 0xd => z || negb (eqb n v)
  | _ => true
  end.
