(* ===== verification/CpuFacts.v ===== *)
(** * Facts about register banks and exceptions

    The specification of Cpu.v's bank switching is [reg_view]: what register [i]
    holds as seen by bank [b], wherever the core has parked it.  [arm_set_mode]
    changes which bank is live and no view at all; exception entry changes the
    handler's link register only; an exception return undoes the entry. *)

From S2P Require Import Prelude State Cpu.

(** ** The specification *)

Definition reg_view (c : arm_cpu) (b : arm_bank) (i : Z) : Z :=
  let cur := arm_bank_of_mode (cpsr c) in
  if i =? 13 then if bank_eqb b cur then r c 13 else bank_r13 c b
  else if i =? 14 then if bank_eqb b cur then r c 14 else bank_r14 c b
  else if (8 <=? i) && (i <=? 12) then
    if bank_eqb b ARM_BANK_FIQ
    then if bank_eqb cur ARM_BANK_FIQ then r c i else fiq_r8_12 c (i - 8)
    else if bank_eqb cur ARM_BANK_FIQ then usr_r8_12 c (i - 8) else r c i
  else r c i.

(** ** Bit-field facts *)

Lemma bank_eqb_spec a b : Bool.reflect (a = b) (bank_eqb a b).
Proof. unfold bank_eqb. case_bool_decide; by constructor. Qed.

Lemma bank_eqb_refl a : bank_eqb a a = true.
Proof. by destruct a. Qed.

Lemma land_mode x : x .& ARM_CPSR_MODE_MASK = x mod 32.
Proof. change ARM_CPSR_MODE_MASK with (Z.ones 5). by rewrite Z.land_ones by lia. Qed.

Lemma land_mode_idem x :
  (x .& ARM_CPSR_MODE_MASK) .& ARM_CPSR_MODE_MASK = x .& ARM_CPSR_MODE_MASK.
Proof. by rewrite <- Z.land_assoc, Z.land_diag. Qed.

(** Replacing the mode field. *)
Lemma mode_insert x m :
  ((x .& wnot ARM_CPSR_MODE_MASK) .| (m .& ARM_CPSR_MODE_MASK)) .& ARM_CPSR_MODE_MASK =
  m .& ARM_CPSR_MODE_MASK.
Proof.
  rewrite Z.land_lor_distr_l, <- !Z.land_assoc, Z.land_diag.
  change (wnot ARM_CPSR_MODE_MASK .& ARM_CPSR_MODE_MASK) with 0. by rewrite Z.land_0_r.
Qed.

Lemma rest_insert x m :
  ((x .& wnot ARM_CPSR_MODE_MASK) .| (m .& ARM_CPSR_MODE_MASK)) .& wnot ARM_CPSR_MODE_MASK =
  x .& wnot ARM_CPSR_MODE_MASK.
Proof.
  rewrite Z.land_lor_distr_l, <- !Z.land_assoc, Z.land_diag.
  change (ARM_CPSR_MODE_MASK .& wnot ARM_CPSR_MODE_MASK) with 0.
  by rewrite Z.land_0_r, Z.lor_0_r.
Qed.

(** A value is its mode field and the rest. *)
Lemma mode_split x : uint 32 x →
  (x .& ARM_CPSR_MODE_MASK) .| (x .& wnot ARM_CPSR_MODE_MASK) = x.
Proof.
  intros Hx. rewrite <- Z.land_lor_distr_r.
  change (ARM_CPSR_MODE_MASK .| wnot ARM_CPSR_MODE_MASK) with (Z.ones 32).
  rewrite Z.land_ones by lia. by apply w32_small.
Qed.

Lemma bank_of_mode_mask x : arm_bank_of_mode (x .& ARM_CPSR_MODE_MASK) = arm_bank_of_mode x.
Proof. unfold arm_bank_of_mode. by rewrite land_mode_idem. Qed.

Lemma mode_is_valid_mask x :
  arm_mode_is_valid (x .& ARM_CPSR_MODE_MASK) = arm_mode_is_valid x.
Proof. unfold arm_mode_is_valid. by rewrite land_mode_idem. Qed.

Lemma bank_of_mode_eq x y :
  x .& ARM_CPSR_MODE_MASK = y .& ARM_CPSR_MODE_MASK → arm_bank_of_mode x = arm_bank_of_mode y.
Proof. unfold arm_bank_of_mode. by intros ->. Qed.

(** ** The FIQ shuffle *)

Lemma in_8_12 i : 8 <= i <= 12 → i = 8 ∨ i = 9 ∨ i = 10 ∨ i = 11 ∨ i = 12.
Proof. lia. Qed.

Ltac fn_cases :=
  repeat first [ rewrite fn_lookup_insert | rewrite fn_lookup_insert_ne by lia ].

Lemma leave_fiq_r c i :
  r (leave_fiq c) i = if (8 <=? i) && (i <=? 12) then usr_r8_12 c (i - 8) else r c i.
Proof.
  unfold leave_fiq, set_reg. simpl. destruct (decide (8 <= i <= 12)) as [Hi | Hi].
  - replace ((8 <=? i) && (i <=? 12)) with true by lia.
    destruct (in_8_12 i Hi) as [-> | [-> | [-> | [-> | ->]]]]; fn_cases; done.
  - replace ((8 <=? i) && (i <=? 12)) with false by lia. by fn_cases.
Qed.

Lemma leave_fiq_park c i :
  8 <= i <= 12 → fiq_r8_12 (leave_fiq c) (i - 8) = r c i.
Proof.
  intros Hi. unfold leave_fiq, set_reg. simpl.
  destruct (in_8_12 i Hi) as [-> | [-> | [-> | [-> | ->]]]]; simpl; fn_cases; done.
Qed.

Lemma enter_fiq_r c i :
  r (enter_fiq c) i = if (8 <=? i) && (i <=? 12) then fiq_r8_12 c (i - 8) else r c i.
Proof.
  unfold enter_fiq, set_reg. simpl. destruct (decide (8 <= i <= 12)) as [Hi | Hi].
  - replace ((8 <=? i) && (i <=? 12)) with true by lia.
    destruct (in_8_12 i Hi) as [-> | [-> | [-> | [-> | ->]]]]; fn_cases; done.
  - replace ((8 <=? i) && (i <=? 12)) with false by lia. by fn_cases.
Qed.

Lemma enter_fiq_park c i :
  8 <= i <= 12 → usr_r8_12 (enter_fiq c) (i - 8) = r c i.
Proof.
  intros Hi. unfold enter_fiq, set_reg. simpl.
  destruct (in_8_12 i Hi) as [-> | [-> | [-> | [-> | ->]]]]; simpl; fn_cases; done.
Qed.

(** ** Mode switch *)

Lemma set_mode_cpsr c mode :
  arm_mode_is_valid mode = true →
  cpsr (arm_set_mode c mode) =
  (cpsr c .& wnot ARM_CPSR_MODE_MASK) .| (mode .& ARM_CPSR_MODE_MASK).
Proof.
  intros Hv. unfold arm_set_mode. rewrite mode_is_valid_mask, Hv. simpl.
  by repeat case_match.
Qed.

Lemma set_mode_invalid c mode : arm_mode_is_valid mode = false → arm_set_mode c mode = c.
Proof. intros Hv. unfold arm_set_mode. by rewrite mode_is_valid_mask, Hv. Qed.

(** What a mode switch leaves alone. *)
Lemma set_mode_frame c mode :
  let c' := arm_set_mode c mode in
  arch c' = arch c ∧ cp15 c' = cp15 c ∧ spsr c' = spsr c ∧ cache c' = cache c ∧
  abort_pending c' = abort_pending c ∧ excl_valid c' = excl_valid c ∧ r c' 15 = r c 15.
Proof.
  unfold arm_set_mode. by repeat case_match.
Qed.

(** Case analysis on which bank [b] is, updating the parked copies. *)
Ltac bank_cases b nb ob :=
  let E := fresh in let E' := fresh in
  destruct (bank_eqb_spec b nb) as [E | E], (bank_eqb_spec b ob) as [E' | E'];
  rewrite ?E, ?E', ?fn_lookup_insert; rewrite ?fn_lookup_insert_ne by congruence;
  try congruence.

Lemma set_mode_view c mode b i :
  0 <= i < 15 → reg_view (arm_set_mode c mode) b i = reg_view c b i.
Proof.
  intros Hi. destruct (arm_mode_is_valid mode) eqn:Hv; [| by rewrite set_mode_invalid].
  unfold reg_view. rewrite set_mode_cpsr, (bank_of_mode_eq _ mode) by
    (done || apply mode_insert).
  unfold arm_set_mode. rewrite mode_is_valid_mask, Hv, !bank_of_mode_mask. simpl.
  set (ob := arm_bank_of_mode (cpsr c)). set (nb := arm_bank_of_mode mode).
  destruct (bank_eqb_spec ob nb) as [<- | Hne]; [done |]. simpl.
  set (c1 := set_bank_r14 _ _).
  destruct (Z.eqb_spec i 13) as [-> | H13]; [| destruct (Z.eqb_spec i 14) as [-> | H14]].
  - destruct (bank_eqb_spec ob ARM_BANK_FIQ), (bank_eqb_spec nb ARM_BANK_FIQ); simpl;
      fn_cases; by bank_cases b nb ob.
  - destruct (bank_eqb_spec ob ARM_BANK_FIQ), (bank_eqb_spec nb ARM_BANK_FIQ); simpl;
      fn_cases; by bank_cases b nb ob.
  - destruct ((8 <=? i) && (i <=? 12)) eqn:E8;
      destruct (bank_eqb_spec ob ARM_BANK_FIQ) as [Eo | Eo],
               (bank_eqb_spec nb ARM_BANK_FIQ) as [En | En];
      try (by rewrite Eo, En in Hne);
      unfold set_reg; cbn [r set_r set_cpsr fiq_r8_12 usr_r8_12 cpsr];
      fn_cases; rewrite ?leave_fiq_r, ?enter_fiq_r, ?E8; try done.
    + destruct (bank_eqb b ARM_BANK_FIQ); [| done].
      change (fiq_r8_12 (leave_fiq c1) (i - 8) = r c i). rewrite leave_fiq_park by lia. done.
    + destruct (bank_eqb b ARM_BANK_FIQ); [done |].
      change (usr_r8_12 (enter_fiq c1) (i - 8) = r c i). rewrite enter_fiq_park by lia. done.
Qed.

(** ** Updates that leave the mode alone *)

Lemma mode_lor x k :
  k .& ARM_CPSR_MODE_MASK = 0 → (x .| k) .& ARM_CPSR_MODE_MASK = x .& ARM_CPSR_MODE_MASK.
Proof. intros Hk. by rewrite Z.land_lor_distr_l, Hk, Z.lor_0_r. Qed.

Lemma mode_land x k :
  k .& ARM_CPSR_MODE_MASK = ARM_CPSR_MODE_MASK →
  (x .& k) .& ARM_CPSR_MODE_MASK = x .& ARM_CPSR_MODE_MASK.
Proof. intros Hk. by rewrite <- Z.land_assoc, Hk. Qed.

Lemma mode_set_flag c b on :
  b .& ARM_CPSR_MODE_MASK = 0 → wnot b .& ARM_CPSR_MODE_MASK = ARM_CPSR_MODE_MASK →
  mode_of (set_flag c b on) = mode_of c.
Proof. intros H1 H2. unfold mode_of, set_flag. destruct on; [by apply mode_lor | by apply mode_land]. Qed.

Lemma view_set_cpsr c v b i :
  v .& ARM_CPSR_MODE_MASK = mode_of c → reg_view (set_cpsr v c) b i = reg_view c b i.
Proof. intros Hm. unfold reg_view. simpl. by rewrite (bank_of_mode_eq v (cpsr c)). Qed.

Lemma view_set_lr c v b i :
  reg_view (set_reg 14 v c) b i =
  if bank_eqb b (arm_bank_of_mode (cpsr c)) && (i =? 14) then v else reg_view c b i.
Proof.
  unfold reg_view, set_reg. cbn [r set_r cpsr bank_r13 bank_r14 fiq_r8_12 usr_r8_12].
  destruct (Z.eqb_spec i 14) as [-> | Hne]; simpl.
  - rewrite fn_lookup_insert. by destruct (bank_eqb _ _).
  - rewrite andb_false_r. fn_cases. done.
Qed.

(** ** Exception entry *)

(** The status register a handler starts with, before the endianness bit. *)
Definition entry_cpsr (c : arm_cpu) (vector mode : Z) (mask_fiq : bool) : Z :=
  let x := ((cpsr c .& wnot ARM_CPSR_MODE_MASK) .| (mode .& ARM_CPSR_MODE_MASK)) .| ARM_CPSR_I in
  let x := if mask_fiq then x .| ARM_CPSR_F else x in
  let x := if (vector =? ARM_VEC_PREFETCH) || (vector =? ARM_VEC_DATA_ABORT) ||
              (vector =? ARM_VEC_IRQ) || (vector =? ARM_VEC_FIQ) then x .| ARM_CPSR_A else x in
  let x := x .& wnot ARM_CPSR_T in
  if negb ((sctlr (cp15 c) .& ARM_SCTLR_EE) =? 0) then x .| ARM_CPSR_E else x .& wnot ARM_CPSR_E.

Lemma take_exception_eq c vector mode ret mask_fiq :
  arm_mode_is_valid mode = true →
  take_exception c vector mode ret mask_fiq =
  ((if negb ((sctlr (cp15 c) .& ARM_SCTLR_V) =? 0) then 0xffff0000 else 0) +w vector,
   set_excl_valid false
     (set_cpsr (entry_cpsr c vector mode mask_fiq)
       (set_reg 14 ret
         (set_spsr (<[arm_bank_of_mode mode := cpsr c]> (spsr (arm_set_mode c mode)))
            (arm_set_mode c mode))))).
Proof.
  intros Hv. unfold take_exception, set_flag, entry_cpsr.
  destruct (set_mode_frame c mode) as (_ & Ecp & _).
  rewrite <- (set_mode_cpsr c mode Hv). unfold set_reg.
  by destruct mask_fiq, (_ || _); simpl; rewrite !Ecp; destruct (negb _).
Qed.

Lemma entry_cpsr_mode c vector mode mf :
  entry_cpsr c vector mode mf .& ARM_CPSR_MODE_MASK = mode .& ARM_CPSR_MODE_MASK.
Proof.
  unfold entry_cpsr.
  repeat match goal with
         | |- (if ?b then _ else _) .& _ = _ => destruct b
         | |- (_ .| ARM_CPSR_I) .& _ = _ => rewrite mode_lor by done
         | |- (_ .| ARM_CPSR_F) .& _ = _ => rewrite mode_lor by done
         | |- (_ .| ARM_CPSR_A) .& _ = _ => rewrite mode_lor by done
         | |- (_ .| ARM_CPSR_E) .& _ = _ => rewrite mode_lor by done
         | |- (_ .& wnot ARM_CPSR_T) .& _ = _ => rewrite mode_land by done
         | |- (_ .& wnot ARM_CPSR_E) .& _ = _ => rewrite mode_land by done
         | |- context [if ?b then _ else _] => destruct b
         end; apply mode_insert.
Qed.

(** One bit of the entry status register. *)
Lemma entry_cpsr_bits c vector mode mf i :
  5 <= i < 32 →
  bit (entry_cpsr c vector mode mf) i =
  (if i =? 5 then false
   else if i =? 6 then mf || bit (cpsr c) 6
   else if i =? 7 then true
   else if i =? 8 then
     (vector =? ARM_VEC_PREFETCH) || (vector =? ARM_VEC_DATA_ABORT) ||
     (vector =? ARM_VEC_IRQ) || (vector =? ARM_VEC_FIQ) || bit (cpsr c) 8
   else if i =? 9 then bit (sctlr (cp15 c)) 25
   else bit (cpsr c) i).
Proof.
  intros Hi. assert (negb ((sctlr (cp15 c) .& ARM_SCTLR_EE) =? 0) = bit (sctlr (cp15 c)) 25) as E.
  { change ARM_SCTLR_EE with (2 ^ 25). unfold bit. destruct (Z.testbit _ 25) eqn:E.
    - apply negb_true_iff, Z.eqb_neq. intros H.
      apply (f_equal (fun z => Z.testbit z 25)) in H.
      by rewrite Z.land_spec, E, Z.testbit_0_l in H.
    - apply negb_false_iff, Z.eqb_eq. bitwise k Hk. destruct (decide (k = 25)) as [-> | ?];
        [by rewrite E | by rewrite Z.pow2_bits_false, andb_false_r by lia]. }
  unfold entry_cpsr. rewrite E. unfold bit.
  assert (0 <= i < 32) as Hi' by lia.
  set (va := _ || _ || _ || _). destruct va, mf, (Z.testbit (sctlr (cp15 c)) 25);
    autorewrite with bitspec; index32 i Hi'; try lia;
    cbn -[Z.testbit]; rewrite ?andb_true_r, ?andb_false_r, ?orb_false_r, ?orb_true_r;
    rewrite ?xorb_false_r, ?orb_true_r;
    repeat match goal with
           | |- context [Z.testbit ?a ?n] =>
             first [ is_ground a | idtac ];
             let v := eval vm_compute in (Z.testbit a n) in
             lazymatch v with true => change (Z.testbit a n) with true
                            | false => change (Z.testbit a n) with false end
           end;
    rewrite ?andb_true_r, ?andb_false_r, ?orb_false_r, ?orb_true_r; done.
Qed.

Lemma exception_cpsr_mode c vector mode ret mf :
  arm_mode_is_valid mode = true →
  mode_of (snd (take_exception c vector mode ret mf)) = mode .& ARM_CPSR_MODE_MASK.
Proof. intros Hv. rewrite take_exception_eq by done. apply entry_cpsr_mode. Qed.

Lemma exception_view c vector mode ret mf b i :
  arm_mode_is_valid mode = true → 0 <= i < 15 →
  reg_view (snd (take_exception c vector mode ret mf)) b i =
  if bank_eqb b (arm_bank_of_mode mode) && (i =? 14) then ret else reg_view c b i.
Proof.
  intros Hv Hi. rewrite take_exception_eq by done. cbn [snd].
  set (c1 := set_reg 14 ret _).
  change (reg_view (set_excl_valid false ?x) b i) with (reg_view x b i).
  assert (mode_of c1 = mode .& ARM_CPSR_MODE_MASK) as Hm.
  { unfold mode_of, c1. simpl. rewrite set_mode_cpsr by done. apply mode_insert. }
  transitivity (reg_view (set_cpsr (entry_cpsr c vector mode mf) c1) b i); [done |].
  rewrite view_set_cpsr by (rewrite entry_cpsr_mode; by rewrite Hm).
  unfold c1. rewrite view_set_lr.
  assert (∀ s x, reg_view (set_spsr s x) b i = reg_view x b i) as -> by done.
  rewrite set_mode_view by done. simpl. rewrite set_mode_cpsr by done.
  by rewrite (bank_of_mode_eq _ mode) by apply mode_insert.
Qed.

(** The mode field is all an exception return needs to find its SPSR. *)
Lemma bank_after_exception c vector mode ret mf :
  arm_mode_is_valid mode = true →
  arm_bank_of_mode (cpsr (snd (take_exception c vector mode ret mf))) = arm_bank_of_mode mode.
Proof. intros Hv. apply bank_of_mode_eq. by apply exception_cpsr_mode. Qed.

Lemma restore_psr_cpsr c s :
  uint 32 s → arm_mode_is_valid s = true → cpsr (restore_psr c s) = s.
Proof.
  intros Hs Hv. unfold restore_psr. simpl. rewrite set_mode_cpsr, mode_insert by done.
  by apply mode_split.
Qed.

Lemma restore_psr_view c s b i :
  uint 32 s → arm_mode_is_valid s = true → 0 <= i < 15 →
  reg_view (restore_psr c s) b i = reg_view c b i.
Proof.
  intros Hs Hv Hi. unfold restore_psr. rewrite view_set_cpsr.
  - by apply set_mode_view.
  - unfold mode_of. rewrite set_mode_cpsr, mode_insert, mode_split by done. done.
Qed.

(** ** The User bank's registers *)

(** Register [i] of bank [b] is the User register itself. *)
Definition user_shared (b : arm_bank) (i : Z) : bool :=
  if 13 <=? i then bank_eqb b ARM_BANK_USR
  else if 8 <=? i then negb (bank_eqb b ARM_BANK_FIQ) else true.

(** Decide the register-number tests of a goal from the context. *)
Ltac decide_index :=
  repeat match goal with
         | |- context [?a =? ?b] =>
           first [ replace (a =? b) with true by lia | replace (a =? b) with false by lia ]
         | |- context [?a <=? ?b] =>
           first [ replace (a <=? b) with true by lia | replace (a <=? b) with false by lia ]
         end.

(** Evaluate the comparisons of known banks. *)
Ltac bank_compute :=
  repeat match goal with
         | |- context [bank_eqb ?a ?b] =>
           let v := eval vm_compute in (bank_eqb a b) in
           lazymatch v with true => idtac | false => idtac end;
           change (bank_eqb a b) with v
         end.

Lemma read_user_view c pc i : 0 <= i < 15 →
  reg_read_user c pc i = reg_view c ARM_BANK_USR i.
Proof.
  intros Hi. unfold reg_read_user, reg_view.
  assert (i = 13 ∨ i = 14 ∨ 8 <= i <= 12 ∨ i < 8) as [H | [H | [H | H]]] by lia;
    decide_index; rewrite ?H; by destruct (arm_bank_of_mode (cpsr c)).
Qed.

Lemma write_user_view c i v b j : 0 <= i < 15 → 0 <= j < 15 →
  reg_view (reg_write_user c i v) b j =
  if (j =? i) && user_shared b i then v else reg_view c b j.
Proof.
  intros Hi Hj. unfold reg_write_user, reg_view, user_shared, set_reg.
  assert (i = 13 ∨ i = 14 ∨ 8 <= i <= 12 ∨ i < 8) as Hic by lia;
  assert (j = 13 ∨ j = 14 ∨ 8 <= j <= 12 ∨ j < 8) as Hjc by lia;
  destruct (Z.eqb_spec j i) as [E | Hne]; [rewrite E |];
  destruct Hic as [H | [H | [H | H]]], Hjc as [H' | [H' | [H' | H']]]; try lia;
  destruct (arm_bank_of_mode (cpsr c)) eqn:Ec; decide_index; bank_compute;
  cbn -[Z.eqb Z.leb arm_bank_of_mode]; rewrite ?Ec;
  destruct b; bank_compute; rewrite ?H, ?H', ?fn_lookup_insert;
  rewrite ?fn_lookup_insert_ne by (lia || congruence); done.
Qed.

(** ** Properties *)

(** switching mode changes which bank is live and nothing else.  For every
    current and requested mode, the content of every register of every bank is what
    it was, whether it sits in the register file or is parked (FIQ's r8-r12
    included), and the CPSR changes in its mode field only; a reserved mode number
    changes nothing at all. *)
Theorem set_mode_preserves_banks c mode b i :
  0 <= i < 15 →
  reg_view (arm_set_mode c mode) b i = reg_view c b i ∧
  cpsr (arm_set_mode c mode) =
    (if arm_mode_is_valid mode
     then (cpsr c .& wnot ARM_CPSR_MODE_MASK) .| (mode .& ARM_CPSR_MODE_MASK) else cpsr c) ∧
  spsr (arm_set_mode c mode) = spsr c ∧ r (arm_set_mode c mode) 15 = r c 15.
Proof.
  intros Hi. destruct (set_mode_frame c mode) as (_ & _ & Hs & _ & _ & _ & H15).
  split; [by apply set_mode_view |]. split; [| done].
  destruct (arm_mode_is_valid mode) eqn:Hv; [by apply set_mode_cpsr | by rewrite set_mode_invalid].
Qed.

(** exception entry.  The handler starts at the vector (low or high by
    SCTLR.V) in the exception's mode, in ARM state, with IRQs masked, FIQs masked
    exactly when they were or the exception asks, imprecise aborts masked for the
    aborts and interrupts, and endianness from SCTLR.EE; the interrupted CPSR is in
    the handler's SPSR, the return address in the handler's LR, no other register of
    any bank changes, flags are kept, and the exclusive monitor is cleared. *)
Theorem exception_entry_state c vector mode ret mf :
  arm_mode_is_valid mode = true →
  let '(vec, c') := take_exception c vector mode ret mf in
  vec = (if negb ((sctlr (cp15 c) .& ARM_SCTLR_V) =? 0) then 0xffff0000 else 0) +w vector ∧
  mode_of c' = mode .& ARM_CPSR_MODE_MASK ∧
  (∀ i, 5 <= i < 32 → bit (cpsr c') i =
    (if i =? 5 then false
     else if i =? 6 then mf || bit (cpsr c) 6
     else if i =? 7 then true
     else if i =? 8 then
       (vector =? ARM_VEC_PREFETCH) || (vector =? ARM_VEC_DATA_ABORT) ||
       (vector =? ARM_VEC_IRQ) || (vector =? ARM_VEC_FIQ) || bit (cpsr c) 8
     else if i =? 9 then bit (sctlr (cp15 c)) 25
     else bit (cpsr c) i)) ∧
  spsr c' (arm_bank_of_mode mode) = cpsr c ∧
  (∀ b, b ≠ arm_bank_of_mode mode → spsr c' b = spsr c b) ∧
  (∀ b i, 0 <= i < 15 → reg_view c' b i =
    if bank_eqb b (arm_bank_of_mode mode) && (i =? 14) then ret else reg_view c b i) ∧
  excl_valid c' = false ∧ cp15 c' = cp15 c ∧ r c' 15 = r c 15.
Proof.
  intros Hv. destruct (set_mode_frame c mode) as (_ & Hcp & Hs & _ & _ & _ & H15).
  pose proof (λ b i, exception_view c vector mode ret mf b i Hv) as Hview.
  rewrite take_exception_eq in Hview |- * by done. cbn [snd] in Hview.
  split; [done |]. split; [apply entry_cpsr_mode |].
  split; [intros i Hi; by apply entry_cpsr_bits |].
  split; [apply fn_lookup_insert |].
  split; [intros b Hb; simpl; by rewrite fn_lookup_insert_ne, Hs by congruence |].
  split; [exact Hview |]. done.
Qed.

(** taking an exception and returning from it is invisible to the interrupted
    program.  After entry to any mode with a bank of its own, restoring the handler's
    SPSR gives back the interrupted CPSR exactly (mode, masks, flags, Thumb state)
    and every register of every bank except the handler's link register. *)
Theorem exception_return_roundtrip c vector mode ret mf b i :
  uint 32 (cpsr c) → arm_mode_is_valid (cpsr c) = true → arm_mode_is_valid mode = true →
  0 <= i < 15 →
  let c1 := snd (take_exception c vector mode ret mf) in
  let c2 := restore_psr c1 (spsr c1 (arm_bank_of_mode (cpsr c1))) in
  cpsr c2 = cpsr c ∧
  (¬ (b = arm_bank_of_mode mode ∧ i = 14) → reg_view c2 b i = reg_view c b i).
Proof.
  intros Hu Hc Hv Hi c1 c2. subst c2.
  assert (spsr c1 (arm_bank_of_mode (cpsr c1)) = cpsr c) as ->.
  { unfold c1. rewrite bank_after_exception by done. rewrite take_exception_eq by done.
    apply fn_lookup_insert. }
  split; [by apply restore_psr_cpsr |]. intros Hne.
  rewrite restore_psr_view by done. unfold c1. rewrite exception_view by done.
  destruct (bank_eqb_spec b (arm_bank_of_mode mode)), (Z.eqb_spec i 14); tauto || done.
Qed.

(** the User-bank transfers of LDM/STM [^] and of exception handlers see the
    User program's registers.  In every mode [reg_read_user] returns the User
    bank's register, and [reg_write_user] changes that register in exactly the
    banks that share it with User (r0-r7 in all, r8-r12 in all but FIQ, r13 and r14
    in none) and no other register of any bank. *)
Theorem user_bank_access c pc i v b j :
  0 <= i < 15 → 0 <= j < 15 →
  reg_read_user c pc i = reg_view c ARM_BANK_USR i ∧
  reg_view (reg_write_user c i v) b j =
    (if (j =? i) && user_shared b i then v else reg_view c b j) ∧
  cpsr (reg_write_user c i v) = cpsr c ∧ spsr (reg_write_user c i v) = spsr c.
Proof.
  intros Hi Hj. split; [by apply read_user_view |]. split; [by apply write_user_view |].
  unfold reg_write_user. by repeat case_match.
Qed.

(** ** Concrete inputs *)

(** A Thumb User-mode core with distinct registers. *)
Definition sample_cpu : arm_cpu :=
  MkCpu (fun i => 100 + i) ARM_ARCH_V6_ARM1176 0x60000030 cp15_zero (fun _ => 0)
    (fun _ => 200) (fun _ => 300) (fun i => 400 + i) (fun i => 500 + i) 0 false 0 0
    false false true 0 0 0 (fun _ => 0)
    (MkCache (fun _ => MkTlb 0 0 0 0) 1 None 0 0 false (fun _ => MkBlk None 0 0)
       (fun _ => MkBlk None 0 0) (MkStamp 0 0 0 0 0 0) 0 0 0 0 0 0 0).

Lemma set_mode_preserves_banks_witness :
  r (arm_set_mode sample_cpu ARM_MODE_FIQ) 8 = 400 ∧
  reg_view (arm_set_mode sample_cpu ARM_MODE_FIQ) ARM_BANK_USR 8 = 108 ∧
  reg_view (arm_set_mode sample_cpu ARM_MODE_FIQ) ARM_BANK_USR 8 =
    reg_view sample_cpu ARM_BANK_USR 8.
Proof.
  split; [reflexivity |]. split; [reflexivity |].
  apply (set_mode_preserves_banks sample_cpu ARM_MODE_FIQ ARM_BANK_USR 8). lia.
Defined.

Lemma exception_entry_state_witness :
  let c' := snd (take_exception sample_cpu ARM_VEC_IRQ ARM_MODE_IRQ 0x1004 false) in
  cpsr c' = 0x60000192 ∧ mode_of c' = ARM_MODE_IRQ .& ARM_CPSR_MODE_MASK ∧
  spsr c' ARM_BANK_IRQ = cpsr sample_cpu.
Proof.
  split; [reflexivity |].
  destruct (exception_entry_state sample_cpu ARM_VEC_IRQ ARM_MODE_IRQ 0x1004 false eq_refl)
    as (_ & H1 & _ & H2 & _).
  split; [exact H1 | exact H2].
Defined.

Lemma exception_return_roundtrip_witness :
  let c1 := snd (take_exception sample_cpu ARM_VEC_IRQ ARM_MODE_IRQ 0x1004 false) in
  let c2 := restore_psr c1 (spsr c1 (arm_bank_of_mode (cpsr c1))) in
  cpsr c2 = 0x60000030 ∧ reg_view c2 ARM_BANK_USR 14 = reg_view sample_cpu ARM_BANK_USR 14.
Proof.
  destruct (exception_return_roundtrip sample_cpu ARM_VEC_IRQ ARM_MODE_IRQ 0x1004 false
    ARM_BANK_USR 14) as [H1 H2]; [split; reflexivity || discriminate | reflexivity
    | reflexivity | lia |].
  split; [exact H1 |]. apply H2. intros [E _]. discriminate E.
Defined.

Lemma user_bank_access_witness :
  let c := arm_set_mode sample_cpu ARM_MODE_SVC in
  reg_read_user c 0 13 = 113 ∧ reg_read_user c 0 13 = reg_view c ARM_BANK_USR 13 ∧
  reg_view (reg_write_user c 13 7) ARM_BANK_SVC 13 = 200.
Proof.
  split; [reflexivity |].
  destruct (user_bank_access (arm_set_mode sample_cpu ARM_MODE_SVC) 0 13 7 ARM_BANK_SVC 13)
    as (H1 & H2 & _); [lia | lia |].
  split; [exact H1 | exact H2].
Defined.
