(* ===== verification/Bus.v ===== *)
(** * The system bus

    The interface [arm_bus_t] of [core/include/arm.h]: the CPU reaches memory,
    devices and host services only through these callbacks.  What lies behind
    them (the S5L8900 memory map, a test harness's flat RAM) is a type [B] with
    an instance of [Bus]; optional callbacks are [option]s.  Host pointers handed
    out by [host_ram] are abstract addresses of host memory, dereferenced by
    [host_load] / [host_store].

    [BusRanges] and [HostRamCoherent] state the documented contract of the
    callbacks ("little-endian", "a host pointer for [pa, pa+len) when that whole
    range is plain writable RAM", "valid until the next reset"); [FlatRam] is a
    concrete bus that discharges both. *)

From S2P Require Import Prelude State Cpu.

(** [wait_for_interrupt] runs the platform forward and drives the two interrupt
    lines of the core: it maps them to their new levels.  [privileged_svc_handler]
    may rewrite the core. *)

(** The values of [arm_svc_result_t]; a handler may return any integer. *)
Definition ARM_SVC_UNHANDLED := 0.
Definition ARM_SVC_HANDLED := 1.
Definition ARM_SVC_REDIRECTED := 2.
Definition ARM_SVC_ERROR := -1.

Class Bus (B : Type) := {
  read32 : B → Z → Z * B;
  read16 : B → Z → Z * B;
  read8 : B → Z → Z * B;
  write32 : B → Z → Z → B;
  write16 : B → Z → Z → B;
  write8 : B → Z → Z → B;
  host_ram : B → option (Z → Z → option Z);
  host_ram_write : B → option (Z → Z → option Z);
  host_load : B → Z → Z;
  host_store : B → Z → Z → B;
  wait_for_interrupt : B → option (bool → bool → bool * bool * B);
  privileged_svc_handler : B → option (arm_cpu → Z → Z → Z * arm_cpu * B);
  prepare_fetch : B → option (Z → Z → bool → B)
}.

(** The core together with its bus. *)
Record mach (B : Type) := Mach { cpu : arm_cpu; bus : B }.
Arguments Mach {B} _ _.
Arguments cpu {B} _.
Arguments bus {B} _.

Definition set_cpu {B} (c : arm_cpu) (m : mach B) : mach B := Mach c (bus m).
Definition set_bus {B} (b : B) (m : mach B) : mach B := Mach (cpu m) b.
Definition on_cpu {B} (f : arm_cpu → arm_cpu) (m : mach B) : mach B :=
  Mach (f (cpu m)) (bus m).

Section Ops.
Context {B : Type} `{Bus B}.

(** [bus->read##bits], selected by the access width in bytes. *)
Definition bus_read (n : Z) (b : B) (pa : Z) : Z * B :=
  if n =? 1 then read8 b pa else if n =? 2 then read16 b pa else read32 b pa.

Definition bus_write (n : Z) (b : B) (pa v : Z) : B :=
  if n =? 1 then write8 b pa v else if n =? 2 then write16 b pa v else write32 b pa v.

(** [memcpy] between an [n]-byte little-endian value and host memory. *)
Fixpoint host_get (k : nat) (b : B) (p : Z) : Z :=
  match k with
  | O => 0
  | S k' => host_load b p .| Z.shiftl (host_get k' b (p + 1)) 8
  end.

Fixpoint host_put (k : nat) (b : B) (p v : Z) : B :=
  match k with
  | O => b
  | S k' => host_put k' (host_store b p (v .& 0xff)) (p + 1) (v .>> 8)
  end.

End Ops.

(** ** The contract *)

Class BusRanges (B : Type) `{Bus B} : Prop := {
  read32_range b pa : uint 32 (fst (read32 b pa));
  read16_range b pa : uint 16 (fst (read16 b pa));
  read8_range b pa : uint 8 (fst (read8 b pa));
  host_load_range b p : uint 8 (host_load b p)
}.

(** What the fast paths rely on: a granted range reads and writes exactly as the
    callbacks would, a read of it has no effect, and a store does not change what
    is granted. *)
Class HostRamCoherent (B : Type) `{Bus B} : Prop := {
  host_ram_read b f pa len p off n :
    host_ram b = Some f → f pa len = Some p →
    n = 1 ∨ n = 2 ∨ n = 4 → 0 <= off → off + n <= len → uint 32 (pa + off) →
    bus_read n b (pa + off) = (host_get (Z.to_nat n) b (p + off), b);
  host_ram_write_store b f pa len p off n v :
    host_ram_write b = Some f → f pa len = Some p →
    n = 1 ∨ n = 2 ∨ n = 4 → 0 <= off → off + n <= len → uint 32 (pa + off) →
    bus_write n b (pa + off) v = host_put (Z.to_nat n) b (p + off) v
}.

(** ** A concrete bus: flat RAM of [ram_size] bytes at physical address zero

    The arrangement of the unit-test harnesses: every byte below [ram_size] is
    RAM, reads elsewhere return zero and writes elsewhere are dropped. *)
Record flat_ram := FlatRam { ram_size : Z; ram_byte : Z → Z }.

Definition flat_get8 (b : flat_ram) (a : Z) : Z :=
  if (0 <=? a) && (a <? ram_size b) then w8 (ram_byte b a) else 0.

Definition flat_put8 (b : flat_ram) (a v : Z) : flat_ram :=
  if (0 <=? a) && (a <? ram_size b)
  then FlatRam (ram_size b) (<[a := v]> (ram_byte b)) else b.

Fixpoint flat_get (k : nat) (b : flat_ram) (a : Z) : Z :=
  match k with
  | O => 0
  | S k' => flat_get8 b a .| Z.shiftl (flat_get k' b (a + 1)) 8
  end.

Fixpoint flat_put (k : nat) (b : flat_ram) (a v : Z) : flat_ram :=
  match k with
  | O => b
  | S k' => flat_put k' (flat_put8 b a (v .& 0xff)) (a + 1) (v .>> 8)
  end.

Definition flat_host (b : flat_ram) (pa len : Z) : option Z :=
  if (0 <=? pa) && (pa + len <=? ram_size b) then Some pa else None.

#[export] Instance flat_bus : Bus flat_ram := {
  read32 b a := (flat_get 4 b a, b);
  read16 b a := (flat_get 2 b a, b);
  read8 b a := (flat_get 1 b a, b);
  write32 b a v := flat_put 4 b a v;
  write16 b a v := flat_put 2 b a v;
  write8 b a v := flat_put 1 b a v;
  host_ram b := Some (flat_host b);
  host_ram_write b := Some (flat_host b);
  host_load b p := flat_get8 b p;
  host_store b p v := flat_put8 b p v;
  wait_for_interrupt _ := None;
  privileged_svc_handler _ := None;
  prepare_fetch _ := None
}.

Lemma flat_get8_range b a : uint 8 (flat_get8 b a).
Proof. unfold flat_get8. destruct (_ && _); solve_uint. Qed.

Lemma uint_byte_cons w x y : 0 <= w → uint 8 x → uint w y → uint (8 + w) (x .| Z.shiftl y 8).
Proof.
  intros Hw Hx Hy. apply uint_lor; [lia | by apply (uint_mono 8); [| lia] |].
  rewrite Z.shiftl_mul_pow2 by lia. destruct Hy as [H1 H2].
  split; [lia |]. rewrite Z.pow_add_r by lia. lia.
Qed.

Lemma flat_get_range k b a : uint (8 * Z.of_nat k) (flat_get k b a).
Proof.
  revert a. induction k as [| k IH]; intros a; [split; simpl; lia |].
  replace (8 * Z.of_nat (S k)) with (8 + 8 * Z.of_nat k) by lia.
  apply uint_byte_cons; [lia | apply flat_get8_range | apply IH].
Qed.

#[export] Instance flat_ranges : BusRanges flat_ram.
Proof.
  split; intros; simpl.
  - apply (flat_get_range 4).
  - apply (flat_get_range 2).
  - apply (flat_get_range 1).
  - apply flat_get8_range.
Qed.

#[export] Instance flat_coherent : HostRamCoherent flat_ram.
Proof.
  split; intros b f pa len p off n.
  - intros Hf Hp Hn _ _ _. injection Hf as <-. unfold flat_host in Hp.
    destruct (_ && _); simplify_eq. by destruct Hn as [-> | [-> | ->]].
  - intros v Hf Hp Hn _ _ _. injection Hf as <-. unfold flat_host in Hp.
    destruct (_ && _); simplify_eq. by destruct Hn as [-> | [-> | ->]].
Qed.
