(* ===== verification/Mmu.v ===== *)
(** * The MMU: page-table walk and software TLB

    [core/src/mmu.c].  [mmu_walk] is the ARMv6 short-descriptor walk (TTBR0/TTBR1
    split, sections, supersections, large and small pages, domains, AP/APX, XN);
    [arm_mmu_translate] is its cached front end.  [mmu_walk] is the specification
    and the TLB is proved to refine it: under [tlb_sound], the state invariant
    that every live entry holds what a walk would answer, [arm_mmu_translate]
    returns exactly the walk's answer and keeps the invariant. *)

From S2P Require Import Prelude State Cpu Bus.

(** The answer of a translation: a fault status register value, or a physical
    address (the C function returns 0 and writes [*pa]). *)
Inductive xlat : Set :=
| Fault (fsr : Z)
| Phys (pa : Z).

Definition is_write (acc : arm_access) : bool :=
  match acc with ARM_ACCESS_WRITE => true | _ => false end.
Definition is_fetch (acc : arm_access) : bool :=
  match acc with ARM_ACCESS_FETCH => true | _ => false end.
Definition acc_num (acc : arm_access) : Z :=
  match acc with ARM_ACCESS_READ => 0 | ARM_ACCESS_WRITE => 1 | ARM_ACCESS_FETCH => 2 end.

Definition fsr_make (status domain : Z) (write : bool) : Z :=
  ((status .& 0xf) .| Z.shiftl (domain .& 0xf) 4) .| (if write then 0x800 else 0).

Definition sctlr_has (c : arm_cpu) (b : Z) : bool := negb ((sctlr (cp15 c) .& b) =? 0).

Definition ap_permits (c : arm_cpu) (ap : Z) (apx write priv : bool) : bool :=
  if apx then
    match ap .& 3 with
    | 0 => false
    | 1 => priv && negb write
    | _ => negb write
    end
  else
    match ap .& 3 with
    | 0 =>
      let s := sctlr_has c ARM_SCTLR_S in
      let rr := sctlr_has c ARM_SCTLR_R in
      if s && rr then false
      else if rr then negb write
      else if s then priv && negb write
      else false
    | 1 => priv
    | 2 => priv || negb write
    | _ => true
    end.

Definition access_flag_faults (c : arm_cpu) (xp : bool) (ap : Z) (apx : bool) : bool :=
  if negb xp || negb (sctlr_has c ARM_SCTLR_FA) || negb ((ap .& 1) =? 0) then false
  else if negb apx && (ap =? 0) &&
          xorb (sctlr_has c ARM_SCTLR_S) (sctlr_has c ARM_SCTLR_R) then false
  else true.

Definition xn_forbids_fetch (c : arm_cpu) (acc : arm_access) (dac : Z) (xn : bool) : bool :=
  is_fetch acc && xn && negb (dac =? 3) && sctlr_has c ARM_SCTLR_XP.

(** A captured plain-RAM range, when descriptors may be read only from it. *)
Record ram_window := MkWindow { rw_read_host : Z; rw_base : Z; rw_bytes : Z }.

Section Walk.
Context {B : Type} `{Bus B}.

(** [None]: the descriptor lies outside the captured range. *)
Definition mmu_descriptor (b : B) (ram : option ram_window) (address : Z) : option Z * B :=
  match ram with
  | None => let '(v, b) := read32 b address in (Some v, b)
  | Some w =>
    if negb ((address .& 3) =? 0) || (address <? rw_base w) ||
       (rw_bytes w -w 4 <? address -w rw_base w) then (None, b)
    else (Some (host_get 4 b (rw_read_host w + (address -w rw_base w))), b)
  end.

(** The first-level descriptor's address and the PD bit that disables it. *)
Definition l1_location (c : arm_cpu) (va : Z) : Z * Z :=
  let p := cp15 c in
  let ttbcr_n := ttbcr p .& 7 in
  let use_ttbr0 := (ttbcr_n =? 0) || ((va .>> (32 - ttbcr_n)) =? 0) in
  if use_ttbr0 then
    let base := ttbr0 p .& (0xffffffff .<< (14 - ttbcr_n)) in
    let idx := (va .>> 20) .& (Z.shiftl 1 (12 - ttbcr_n) - 1) in
    (base .| Z.shiftl idx 2, 4)
  else ((ttbr1 p .& 0xffffc000) .| Z.shiftl (va .>> 20) 2, 5).

(** A section or supersection descriptor, already selected. *)
Definition walk_section (c : arm_cpu) (va : Z) (acc : arm_access) (priv : bool)
    (l1 : Z) : xlat :=
  let write := is_write acc in
  let xp := sctlr_has c ARM_SCTLR_XP in
  let supersection := bit l1 18 in
  let domain := if supersection then 0 else fld l1 5 0xf in
  let dac := fld (dacr (cp15 c)) (domain * 2) 3 in
  let ap := fld l1 10 3 in
  let apx := xp && bit l1 15 in
  if access_flag_faults c xp ap apx
  then Fault (fsr_make ARM_FSR_SECTION_ACCESS_FLAG domain write)
  else if (dac =? 0) || (dac =? 2)
  then Fault (fsr_make ARM_FSR_SECTION_DOMAIN domain write)
  else if negb (dac =? 3) && negb (ap_permits c ap apx write priv)
  then Fault (fsr_make ARM_FSR_SECTION_PERMISSION domain write)
  else if xn_forbids_fetch c acc dac (bit l1 4)
  then Fault (fsr_make ARM_FSR_SECTION_PERMISSION domain false)
  else if supersection
  then Phys ((l1 .& 0xff000000) .| (va .& 0x00ffffff))
  else Phys ((l1 .& 0xfff00000) .| (va .& 0x000fffff)).

(** The AP and APX fields of a second-level descriptor. *)
Definition l2_permissions (c : arm_cpu) (va l2 : Z) : Z * bool :=
  let t2 := l2 .& 3 in
  if sctlr_has c ARM_SCTLR_XP then (fld l2 4 3, bit l2 9)
  else if t2 =? 1 then
    let subpage := fld va 14 3 in (fld l2 (4 + subpage * 2) 3, false)
  else if t2 =? 2 then
    let subpage := fld va 10 3 in (fld l2 (4 + subpage * 2) 3, false)
  else (fld l2 4 3, false).

(** A second-level descriptor, fetched through a coarse table of [domain]. *)
Definition walk_page (c : arm_cpu) (va : Z) (acc : arm_access) (priv : bool)
    (domain l2 : Z) : xlat :=
  let write := is_write acc in
  let xp := sctlr_has c ARM_SCTLR_XP in
  let dac := fld (dacr (cp15 c)) (domain * 2) 3 in
  let t2 := l2 .& 3 in
  if t2 =? 0 then Fault (fsr_make ARM_FSR_PAGE_TRANSLATION domain write)
  else
    let '(ap, apx) := l2_permissions c va l2 in
    if access_flag_faults c xp ap apx
    then Fault (fsr_make ARM_FSR_PAGE_ACCESS_FLAG domain write)
    else if (dac =? 0) || (dac =? 2)
    then Fault (fsr_make ARM_FSR_PAGE_DOMAIN domain write)
    else if negb (dac =? 3) && negb (ap_permits c ap apx write priv)
    then Fault (fsr_make ARM_FSR_PAGE_PERMISSION domain write)
    else if xn_forbids_fetch c acc dac (if t2 =? 1 then bit l2 15 else bit l2 0)
    then Fault (fsr_make ARM_FSR_PAGE_PERMISSION domain false)
    else if t2 =? 1
    then Phys ((l2 .& 0xffff0000) .| (va .& 0x0000ffff))
    else Phys ((l2 .& 0xfffff000) .| (va .& 0x00000fff)).

Definition mmu_walk (c : arm_cpu) (b : B) (va : Z) (acc : arm_access) (priv : bool)
    (ram : option ram_window) : xlat * B :=
  let write := is_write acc in
  if negb (sctlr_has c ARM_SCTLR_M) then (Phys va, b)
  else
    let '(l1_addr, pd_bit) := l1_location c va in
    if bit (ttbcr (cp15 c)) pd_bit
    then (Fault (fsr_make ARM_FSR_SECTION_TRANSLATION 0 write), b)
    else
      let '(d1, b) := mmu_descriptor b ram l1_addr in
      match d1 with
      | None => (Fault 0xffffffff, b)
      | Some l1 =>
        let type := l1 .& 3 in
        if (type =? 0) || (type =? 3)
        then (Fault (fsr_make ARM_FSR_SECTION_TRANSLATION 0 write), b)
        else if type =? 2 then (walk_section c va acc priv l1, b)
        else
          let domain := fld l1 5 0xf in
          let l2_addr := (l1 .& 0xfffffc00) .| Z.shiftl (fld va 12 0xff) 2 in
          let '(d2, b) := mmu_descriptor b ram l2_addr in
          match d2 with
          | None => (Fault 0xffffffff, b)
          | Some l2 => (walk_page c va acc priv domain l2, b)
          end
      end.

(** ** The software TLB *)

Definition ARM_TLB_ENTRIES := 4096.

Definition mmu_tlb_tag (va : Z) (acc : arm_access) (priv : bool) : Z :=
  (((va .>> 10) .<< 3) .| Z.shiftl (acc_num acc) 1) .| (if priv then 1 else 0).

Definition mmu_tlb_slot (va : Z) (acc : arm_access) : Z :=
  ((va .>> 10) +w (acc_num acc * (ARM_TLB_ENTRIES / 4))) .& (ARM_TLB_ENTRIES - 1).

Definition current_stamp (c : arm_cpu) : stamp :=
  let p := cp15 c in
  MkStamp (sctlr p) (ttbr0 p) (ttbr1 p) (ttbcr p) (dacr p) (context_id p).

Definition mmu_stamp_matches (c : arm_cpu) : bool :=
  let s := tlb_stamp (cache c) in
  let p := cp15 c in
  (st_sctlr s =? sctlr p) && (st_ttbr0 s =? ttbr0 p) && (st_ttbr1 s =? ttbr1 p) &&
  (st_ttbcr s =? ttbcr p) && (st_dacr s =? dacr p) && (st_context_id s =? context_id p).

Definition arm_mmu_tlb_flush (c : arm_cpu) : arm_cpu :=
  let k := cache c in
  let k := set_tlb_flushes (w64 (tlb_flushes k + 1)) k in
  let k := set_fetch_host None k in
  let k := set_tlb_gen (tlb_gen k +w 1) k in
  let k :=
    if tlb_gen k =? 0 then
      let k := set_tlb (fun _ => MkTlb 0 0 0 0) k in
      let k := set_dread (fun _ => MkBlk None 0 0) k in
      let k := set_dwrite (fun _ => MkBlk None 0 0) k in
      set_tlb_gen 1 k
    else k in
  set_cache k c.

(** The generation fix-up and the stamp check that precede a lookup. *)
Definition mmu_sync (c : arm_cpu) : arm_cpu :=
  let c := if tlb_gen (cache c) =? 0 then set_cache (set_tlb_gen 1 (cache c)) c else c in
  if negb (mmu_stamp_matches c) then
    let c := arm_mmu_tlb_flush c in
    set_cache (set_tlb_stamp (current_stamp c) (cache c)) c
  else c.

Definition entry_answer (e : tlb_entry) (va : Z) : xlat :=
  if te_fsr e =? 0 then Phys (te_pa e .| (va .& 0x3ff)) else Fault (te_fsr e).

Definition entry_of (gen tag : Z) (x : xlat) : tlb_entry :=
  match x with
  | Phys pa => MkTlb gen tag (pa .& wnot 0x3ff) 0
  | Fault fsr => MkTlb gen tag 0 fsr
  end.

Definition run_prepare_fetch (b : B) (va pa : Z) (priv : bool) : B :=
  match prepare_fetch b with Some f => f va pa priv | None => b end.

Definition arm_mmu_translate (m : mach B) (va : Z) (acc : arm_access) (priv : bool)
    : xlat * mach B :=
  if negb (sctlr_has (cpu m) ARM_SCTLR_M) then (Phys va, m)
  else
    let c := mmu_sync (cpu m) in
    let tag := mmu_tlb_tag va acc priv in
    let slot := mmu_tlb_slot va acc in
    let e := tlb (cache c) slot in
    if (te_gen e =? tlb_gen (cache c)) && (te_tag e =? tag) then
      let c := set_cache (set_tlb_hits (w64 (tlb_hits (cache c) + 1)) (cache c)) c in
      (entry_answer e va, Mach c (bus m))
    else
      let c := set_cache (set_tlb_misses (w64 (tlb_misses (cache c) + 1)) (cache c)) c in
      let '(x, b) := mmu_walk c (bus m) va acc priv None in
      let b := match x with
               | Phys pa => if is_fetch acc then run_prepare_fetch b va pa priv else b
               | Fault _ => b
               end in
      let k := cache c in
      let k := set_tlb (<[slot := entry_of (tlb_gen k) tag x]> (tlb k)) k in
      (x, Mach (set_cache k c) b).

(** Rebuild the fetch pointer from an already cached translation. *)
Definition arm_fetch_cache_try_refill (m : mach B) (va : Z) (priv : bool) : bool * mach B :=
  let c := cpu m in
  let k := cache c in
  let va_block := va .& wnot 0x3ff in
  match host_ram (bus m) with
  | None => (false, m)
  | Some host_ram_fn =>
    if match fetch_host k with Some _ => true | None => false end &&
       (fetch_blk k =? va_block) && (fetch_gen k =? tlb_gen k) && eqb (fetch_priv k) priv
    then (true, m)
    else
      let install pa_block count_tlb_hit :=
        match host_ram_fn pa_block 0x400 with
        | None => (false, m)
        | Some host =>
          let k := set_fetch_host (Some host) k in
          let k := set_fetch_blk va_block k in
          let k := set_fetch_gen (tlb_gen k) k in
          let k := set_fetch_priv priv k in
          let k := if count_tlb_hit : bool
                   then set_tlb_hits (w64 (tlb_hits k + 1)) k else k in
          (true, set_cpu (set_cache k c) m)
        end in
      if negb (sctlr_has c ARM_SCTLR_M) then install va_block false
      else
        let tag := mmu_tlb_tag va ARM_ACCESS_FETCH priv in
        let e := tlb k (mmu_tlb_slot va ARM_ACCESS_FETCH) in
        if (tlb_gen k =? 0) || negb (mmu_stamp_matches c) ||
           negb (te_gen e =? tlb_gen k) || negb (te_tag e =? tag) || negb (te_fsr e =? 0)
        then (false, m)
        else install (te_pa e) true
  end.

End Walk.

(** ** Faults *)

Lemma fsr_make_nonzero s d w : uint 4 s → s ≠ 0 → fsr_make s d w ≠ 0.
Proof.
  intros Hs Hne H0. unfold fsr_make in H0.
  apply Z.lor_eq_0_iff in H0 as [H0 _]. apply Z.lor_eq_0_iff in H0 as [H0 _].
  change 0xf with (Z.ones 4) in H0. rewrite Z.land_ones, Z.mod_small in H0; by try lia.
Qed.

Lemma fsr_make_wnr s d w : bit (fsr_make s d w) 11 = w.
Proof.
  unfold bit, fsr_make. rewrite !Z.lor_spec, Z.land_spec, Z.shiftl_spec, Z.land_spec by lia.
  change (Z.testbit 0xf 11) with false. change (Z.testbit 0xf (11 - 4)) with false.
  rewrite !andb_false_r. by destruct w.
Qed.

Lemma fsr_make_status s d w : uint 4 s → fsr_make s d w .& 0xf = s.
Proof.
  intros Hs. unfold fsr_make. change 0xf with (mask 0 4).
  bitwise i Hi. destruct (Z.leb_spec 0 i); [| lia].
  destruct (Z.ltb_spec i (0 + 4)); simpl; rewrite ?andb_false_r, ?andb_true_r.
  - rewrite (Z.testbit_neg_r _ (i - 4)) by lia.
    destruct w; [| by rewrite Z.testbit_0_l, !orb_false_r].
    assert (i = 0 ∨ i = 1 ∨ i = 2 ∨ i = 3) as Hc by lia.
    destruct Hc as [-> | [-> | [-> | ->]]]; by rewrite !orb_false_r.
  - by rewrite (uint_high 4 s).
Qed.

(** ** Permissions *)

Lemma ap_permits_priv c ap apx w :
  ap_permits c ap apx w false = true → ap_permits c ap apx w true = true.
Proof.
  unfold ap_permits. destruct apx, w; simpl;
    destruct (ap .& 3) as [| [|[]|] |]; simpl; try done;
    by destruct (sctlr_has c ARM_SCTLR_S), (sctlr_has c ARM_SCTLR_R).
Qed.

Lemma ap_permits_read c ap apx p :
  ap_permits c ap apx true p = true → ap_permits c ap apx false p = true.
Proof.
  unfold ap_permits. destruct apx, p; simpl;
    destruct (ap .& 3) as [| [|[]|] |]; simpl; try done;
    by destruct (sctlr_has c ARM_SCTLR_S), (sctlr_has c ARM_SCTLR_R).
Qed.

Section WalkFacts.
Context {B : Type} `{Bus B}.

(** Every fault code is non-zero and its WnR bit says whether the access was a
    store. *)
Lemma walk_section_fault c va acc priv l1 f :
  walk_section c va acc priv l1 = Fault f → f ≠ 0 ∧ bit f 11 = is_write acc.
Proof.
  unfold walk_section. intros Hw.
  repeat case_match; simplify_eq;
    (split; [by apply fsr_make_nonzero | rewrite fsr_make_wnr]); try done.
  all: unfold xn_forbids_fetch in *; by destruct acc.
Qed.

Lemma walk_page_fault c va acc priv d l2 f :
  walk_page c va acc priv d l2 = Fault f → f ≠ 0 ∧ bit f 11 = is_write acc.
Proof.
  unfold walk_page. destruct (l2_permissions c va l2) as [ap apx]. intros Hw.
  repeat case_match; simplify_eq;
    (split; [by apply fsr_make_nonzero | rewrite fsr_make_wnr]); try done.
  all: unfold xn_forbids_fetch in *; by destruct acc.
Qed.

Lemma mmu_walk_fault c b va acc priv f b' :
  mmu_walk c b va acc priv None = (Fault f, b') → f ≠ 0 ∧ bit f 11 = is_write acc.
Proof.
  unfold mmu_walk. intros Hw.
  destruct (l1_location c va) as [l1a pd]. simpl in Hw.
  repeat case_match; simplify_eq;
    first [ by eapply walk_section_fault | by eapply walk_page_fault
          | split; [by apply fsr_make_nonzero | apply fsr_make_wnr] ].
Qed.

(** The walk reads nothing of the core but CP15. *)
Lemma mmu_walk_cp15 c c' b va acc priv ram :
  cp15 c = cp15 c' → mmu_walk c b va acc priv ram = mmu_walk c' b va acc priv ram.
Proof.
  intros E. unfold mmu_walk, l1_location, walk_section, walk_page, l2_permissions,
    access_flag_faults, ap_permits, xn_forbids_fetch, sctlr_has.
  by rewrite E.
Qed.

End WalkFacts.

(** ** The 1 KB granule *)

Definition same_block (va va' : Z) : Prop := va .>> 10 = va' .>> 10.

Lemma same_block_testbit va va' i :
  same_block va va' → 10 <= i → Z.testbit va i = Z.testbit va' i.
Proof.
  intros E Hi. replace i with ((i - 10) + 10) by lia.
  rewrite <- !Z.shiftr_spec by lia. by rewrite E.
Qed.

Lemma same_block_shiftr va va' n : same_block va va' → 10 <= n → va .>> n = va' .>> n.
Proof.
  intros E Hn. replace n with (10 + (n - 10)) by lia.
  rewrite <- !Z.shiftr_shiftr by lia. by rewrite E.
Qed.

(** Replace the offset within a 1 KB block. *)
Definition rebase (pa va : Z) : Z := (pa .& wnot 0x3ff) .| (va .& 0x3ff).

Lemma rebase_frame base lo va va' :
  uint 32 base → uint 32 va → uint 32 va' → same_block va va' →
  0 <= lo → 10 <= lo <= 32 →
  rebase ((base .& mask lo (32 - lo)) .| (va .& mask 0 lo)) va' =
  (base .& mask lo (32 - lo)) .| (va' .& mask 0 lo).
Proof.
  intros Hb Hv Hv' E Hlo Hlo'. unfold rebase.
  change 0x3ff with (mask 0 10). change 0xffffffff with (mask 0 32).
  bitwise i Hi. replace (0 <=? i) with true by lia. rewrite !andb_true_l.
  destruct (Z.ltb_spec i (0 + 10)) as [H10 | H10].
  - replace (lo <=? i) with false by lia. replace (i <? 0 + lo) with true by lia.
    replace (i <? 32) with true by lia.
    simpl. by rewrite ?andb_false_r, ?andb_true_r, ?orb_false_l.
  - rewrite (same_block_testbit va va' i E) by lia.
    destruct (Z.ltb_spec i 32); simpl.
    + by rewrite andb_true_r, andb_false_r, orb_false_r.
    + rewrite (uint_high 32 base i Hb), (uint_high 32 va' i Hv') by lia. done.
Qed.

Definition rebase_xlat (x : xlat) (va : Z) : xlat :=
  match x with Phys pa => Phys (rebase pa va) | Fault f => Fault f end.

Lemma rebase_same va va' : uint 32 va → uint 32 va' → same_block va va' → rebase va va' = va'.
Proof.
  intros Hv Hv' E. unfold rebase. change 0x3ff with (mask 0 10).
  bitwise i Hi. replace (0 <=? i) with true by lia. rewrite !andb_true_l.
  destruct (Z.ltb_spec i (0 + 10)) as [H10 | H10].
  - replace (i <? 32) with true by lia. by rewrite andb_false_r, andb_true_r.
  - rewrite (same_block_testbit va va' i E) by lia. destruct (Z.ltb_spec i 32); simpl.
    + by rewrite andb_true_r, andb_false_r, orb_false_r.
    + by rewrite (uint_high 32 va' i Hv') by lia.
Qed.

Section Granule.
Context {B : Type} `{BusRanges B}.
Variables (va va' : Z).
Hypotheses (Hva : uint 32 va) (Hva' : uint 32 va') (Hblk : same_block va va').

Lemma fld_block lo m : 10 <= lo → fld va lo m = fld va' lo m.
Proof using Hblk. intros. unfold fld. by rewrite (same_block_shiftr va va'). Qed.

Lemma l1_location_block c : l1_location c va = l1_location c va'.
Proof using Hblk.
  unfold l1_location.
  assert (0 <= ttbcr (cp15 c) .& 7 < 8) as Hn.
  { change 7 with (Z.ones 3). rewrite Z.land_ones by lia. by apply Z.mod_pos_bound. }
  rewrite (same_block_shiftr va va' 20 Hblk), (same_block_shiftr va va' _ Hblk) by lia.
  done.
Qed.

Lemma rebase_section l1 : uint 32 l1 → ∀ lo, 10 <= lo <= 32 →
  rebase ((l1 .& mask lo (32 - lo)) .| (va .& mask 0 lo)) va' =
  (l1 .& mask lo (32 - lo)) .| (va' .& mask 0 lo).
Proof using Hva Hva' Hblk. intros Hl lo Hlo. apply rebase_frame; try done; lia. Qed.

Lemma walk_section_block c acc priv l1 : uint 32 l1 →
  walk_section c va' acc priv l1 = rebase_xlat (walk_section c va acc priv l1) va'.
Proof using Hva Hva' Hblk.
  intros Hl. unfold walk_section. repeat case_match; simpl; try done; f_equal.
  - change 0xff000000 with (mask 24 (32 - 24)); change 0x00ffffff with (mask 0 24).
    by rewrite (rebase_section l1 Hl 24) by lia.
  - change 0xfff00000 with (mask 20 (32 - 20)); change 0x000fffff with (mask 0 20).
    by rewrite (rebase_section l1 Hl 20) by lia.
Qed.

Lemma l2_permissions_block c l2 : l2_permissions c va' l2 = l2_permissions c va l2.
Proof using Hblk.
  unfold l2_permissions. by rewrite (fld_block 14), (fld_block 10) by lia.
Qed.

Lemma walk_page_block c acc priv d l2 : uint 32 l2 →
  walk_page c va' acc priv d l2 = rebase_xlat (walk_page c va acc priv d l2) va'.
Proof using Hva Hva' Hblk.
  intros Hl. unfold walk_page. rewrite l2_permissions_block.
  destruct (l2_permissions c va l2) as [ap apx].
  repeat case_match; simpl; try done; f_equal.
  - change 0xffff0000 with (mask 16 (32 - 16)); change 0x0000ffff with (mask 0 16).
    by rewrite (rebase_section l2 Hl 16) by lia.
  - change 0xfffff000 with (mask 12 (32 - 12)); change 0x00000fff with (mask 0 12).
    by rewrite (rebase_section l2 Hl 12) by lia.
Qed.

(** The answer for one address of a 1 KB block determines the answer for every
    other: same fault, or the same block of physical memory. *)
Lemma mmu_walk_block c b acc priv :
  mmu_walk c b va' acc priv None =
  let '(x, b') := mmu_walk c b va acc priv None in (rebase_xlat x va', b').
Proof using Hva Hva' Hblk H0.
  unfold mmu_walk. rewrite <- l1_location_block, <- (fld_block 12) by lia.
  destruct (negb _). { simpl. by rewrite rebase_same. }
  destruct (l1_location c va) as [l1a pd]. destruct (bit _ _); [done |]. simpl.
  pose proof (read32_range b l1a) as R1. destruct (read32 b l1a) as [l1 b1]. simpl in R1.
  destruct (_ || _); [done |].
  destruct (_ =? 2). { by rewrite walk_section_block. }
  pose proof (read32_range b1 ((l1 .& 0xfffffc00) .| Z.shiftl (fld va 12 0xff) 2)) as R2.
  destruct (read32 b1 _) as [l2 b2]. simpl in R2. by rewrite walk_page_block.
Qed.

End Granule.

(** ** The TLB refines the walk *)

Lemma lor_low_inj k a b a' b' :
  0 <= k → uint k b → uint k b' →
  Z.shiftl a k .| b = Z.shiftl a' k .| b' → a = a' ∧ b = b'.
Proof.
  intros Hk Hb Hb' E. split.
  - bitwise i Hi. apply (f_equal (fun z => Z.testbit z (i + k))) in E.
    rewrite !Z.lor_spec, !Z.shiftl_spec in E by lia.
    rewrite (uint_high k b), (uint_high k b'), !orb_false_r in E by (done || lia).
    by rewrite Z.add_simpl_r in E.
  - bitwise i Hi. apply (f_equal (fun z => Z.testbit z i)) in E.
    rewrite !Z.lor_spec, !Z.shiftl_spec in E by lia.
    destruct (Z_lt_le_dec i k).
    + by rewrite !(Z.testbit_neg_r _ (i - k)) in E by lia.
    + by rewrite (uint_high k b), (uint_high k b') by (done || lia).
Qed.

Lemma mmu_tlb_tag_inj va va' acc acc' priv priv' :
  uint 32 va → uint 32 va' →
  mmu_tlb_tag va acc priv = mmu_tlb_tag va' acc' priv' →
  same_block va va' ∧ acc = acc' ∧ priv = priv'.
Proof.
  intros Hv Hv' E. unfold mmu_tlb_tag in E.
  assert (∀ x, uint 32 x → (x .>> 10) .<< 3 = Z.shiftl (x .>> 10) 3) as Hs.
  { intros x Hx. apply w32_small. rewrite Z.shiftl_mul_pow2, Z.shiftr_div_pow2 by lia.
    destruct Hx as [H1 H2]. split; [apply Z.mul_nonneg_nonneg; [apply Z.div_pos |]; lia |].
    assert (x / 2 ^ 10 < 2 ^ 22) by (apply Z.div_lt_upper_bound; lia). lia. }
  rewrite !Hs, <- !Z.lor_assoc in E by done.
  apply lor_low_inj in E as [E1 E2]; [| lia | by destruct acc, priv | by destruct acc', priv'].
  split; [exact E1 |]. by destruct acc, priv, acc', priv'.
Qed.

(** Generations never run ahead of the live one. *)
Definition tlb_gens_ok (c : arm_cpu) : Prop :=
  uint 32 (tlb_gen (cache c)) ∧
  ∀ s, 0 <= te_gen (tlb (cache c) s) <= tlb_gen (cache c).

(** The entry a lookup of [va] would hit. *)
Definition tlb_live (c : arm_cpu) (va : Z) (acc : arm_access) (priv : bool) : Prop :=
  let e := tlb (cache c) (mmu_tlb_slot va acc) in
  te_gen e = tlb_gen (cache c) ∧ te_tag e = mmu_tlb_tag va acc priv.

Lemma flush_gens c : tlb_gens_ok c →
  tlb_gens_ok (arm_mmu_tlb_flush c) ∧
  tlb_gen (cache (arm_mmu_tlb_flush c)) ≠ 0 ∧
  ∀ s, te_gen (tlb (cache (arm_mmu_tlb_flush c)) s) ≠ tlb_gen (cache (arm_mmu_tlb_flush c)).
Proof.
  intros [Hg Hs]. unfold arm_mmu_tlb_flush, tlb_gens_ok. simpl.
  destruct (Z.eqb_spec (tlb_gen (cache c) +w 1) 0) as [E | E]; simpl.
  - split; [| split; [done |]]; [| by intros].
    split; [by split |]. intros s. lia.
  - assert (tlb_gen (cache c) +w 1 = tlb_gen (cache c) + 1) as E'.
    { apply w32_small. destruct Hg. split; [lia |].
      destruct (decide (tlb_gen (cache c) = 2 ^ 32 - 1)) as [e | ?]; [| lia].
      rewrite e in E. by vm_compute in E. }
    split; [| split; [done |]].
    + split; [apply uint_w32 |]. intros s. specialize (Hs s). lia.
    + intros s. specialize (Hs s). lia.
Qed.

Lemma flush_cp15 c : cp15 (arm_mmu_tlb_flush c) = cp15 c.
Proof. done. Qed.

Section Refinement.
Context {B : Type} `{BusRanges B}.

(** The bus does not react to reads: every table lies in plain memory. *)
Definition reads_pure (b : B) : Prop := ∀ a, snd (read32 b a) = b.

(** Every live entry answers as a walk would. *)
Definition tlb_sound (m : mach B) : Prop :=
  tlb_gens_ok (cpu m) ∧
  (tlb_gen (cache (cpu m)) ≠ 0 → mmu_stamp_matches (cpu m) = true →
   ∀ va acc priv, uint 32 va → tlb_live (cpu m) va acc priv →
     entry_answer (tlb (cache (cpu m)) (mmu_tlb_slot va acc)) va =
     fst (mmu_walk (cpu m) (bus m) va acc priv None)).

Lemma mmu_walk_pure c b va acc priv :
  reads_pure b → snd (mmu_walk c b va acc priv None) = b.
Proof.
  intros Hp. unfold mmu_walk. destruct (negb _); [done |].
  destruct (l1_location c va) as [l1a pd]. destruct (bit _ _); [done |]. simpl.
  specialize (Hp l1a) as E1. destruct (read32 b l1a) as [l1 b1]. simpl in E1. subst b1.
  destruct (_ || _); [done |]. destruct (_ =? 2); [done |].
  match goal with |- context [read32 b ?a] => specialize (Hp a) as E2; destruct (read32 b a) end.
  done.
Qed.

Lemma current_stamp_matches c k :
  mmu_stamp_matches (set_cache (set_tlb_stamp (current_stamp c) k) c) = true.
Proof. unfold mmu_stamp_matches, current_stamp. simpl. by rewrite !Z.eqb_refl. Qed.

Lemma mmu_sync_spec m : tlb_sound m →
  let c := mmu_sync (cpu m) in
  c = set_cache (cache c) (cpu m) ∧ mmu_stamp_matches c = true ∧
  tlb_gen (cache c) ≠ 0 ∧ tlb_sound (set_cpu c m).
Proof.
  intros [Hg Hs]. unfold mmu_sync.
  set (c0 := if tlb_gen (cache (cpu m)) =? 0 then _ else _).
  assert (c0 = set_cache (cache c0) (cpu m) ∧ tlb_gen (cache c0) ≠ 0 ∧ tlb_sound (set_cpu c0 m))
    as (E0 & Hn0 & Hs0).
  { subst c0. destruct (Z.eqb_spec (tlb_gen (cache (cpu m))) 0) as [E | E].
    - split; [done |]. split; [done |]. split.
      + destruct Hg as [_ Hg]. split; [done |]. intros s. specialize (Hg s). simpl. lia.
      + intros _ _ va acc priv _ [Hl _]. simpl in Hl.
        destruct Hg as [_ Hg]. specialize (Hg (mmu_tlb_slot va acc)). lia.
    - split; [by destruct (cpu m) |]. done. }
  destruct (mmu_stamp_matches c0) eqn:Est; simpl; [done |].
  destruct (flush_gens c0 (proj1 Hs0)) as (Hf & Hfn & Hdead).
  split; [by rewrite E0 |]. split; [apply current_stamp_matches |]. split; [done |].
  split; [done |]. intros _ _ va acc priv _ [Hl _]. by destruct (Hdead (mmu_tlb_slot va acc)).
Qed.

(** One lookup after synchronisation: hit or miss, the answer is the walk's. *)
Lemma translate_synced m va acc priv :
  sctlr_has (cpu m) ARM_SCTLR_M = true → mmu_sync (cpu m) = cpu m →
  mmu_stamp_matches (cpu m) = true → tlb_gen (cache (cpu m)) ≠ 0 →
  tlb_sound m → reads_pure (bus m) → prepare_fetch (bus m) = None → uint 32 va →
  let '(x, m') := arm_mmu_translate m va acc priv in
  x = fst (mmu_walk (cpu m) (bus m) va acc priv None) ∧ bus m' = bus m ∧
  cpu m' = set_cache (cache (cpu m')) (cpu m) ∧ tlb_sound m'.
Proof.
  intros HM Hsync Hst Hgen [Hg Hs] Hp Hpf Hva. unfold arm_mmu_translate.
  rewrite HM, Hsync. simpl.
  destruct (_ && _) eqn:Hhit.
  - apply andb_prop in Hhit as [E1 E2]. apply Z.eqb_eq in E1, E2.
    split; [by apply Hs |]. by destruct m.
  - destruct (mmu_walk _ (bus m) va acc priv None) as [x b] eqn:Hw.
    rewrite (mmu_walk_cp15 _ (cpu m)) in Hw by done.
    pose proof (mmu_walk_pure (cpu m) (bus m) va acc priv Hp) as Hb.
    rewrite Hw in Hb. simpl in Hb. subst b.
    assert ((match x with
             | Phys pa => if is_fetch acc then run_prepare_fetch (bus m) va pa priv else bus m
             | Fault _ => bus m end) = bus m) as ->.
    { destruct x; [done |]. unfold run_prepare_fetch. rewrite Hpf. by destruct (is_fetch acc). }
    split; [first [done | by rewrite Hw] |]. split; [done |]. split; [done |]. simpl.
    destruct Hg as [Hg1 Hg2]. split; [split; [done |] |].
    + intros s. simpl. destruct (decide (s = mmu_tlb_slot va acc)) as [-> | Hne].
      * rewrite fn_lookup_insert. destruct Hg1. destruct x; simpl; lia.
      * rewrite fn_lookup_insert_ne by done. apply Hg2.
    + intros _ _ va' acc' priv' Hva'. unfold tlb_live. simpl.
      destruct (decide (mmu_tlb_slot va' acc' = mmu_tlb_slot va acc)) as [Es | Hne].
      * rewrite Es, fn_lookup_insert. intros [_ Ht].
        assert (mmu_tlb_tag va acc priv = mmu_tlb_tag va' acc' priv') as Et by by destruct x.
        apply mmu_tlb_tag_inj in Et as (Hblk & <- & <-); [| done | done].
        rewrite (mmu_walk_cp15 _ (cpu m)) by done.
        rewrite (mmu_walk_block va va'), Hw by done. destruct x as [f | pa]; [| done].
        apply mmu_walk_fault in Hw as [Hf _]. unfold entry_answer. simpl.
        by apply Z.eqb_neq in Hf as ->.
      * rewrite fn_lookup_insert_ne by done. rewrite (mmu_walk_cp15 _ (cpu m)) by done.
        intros Hl. by apply (Hs Hgen Hst va' acc' priv' Hva').
Qed.


Lemma cached_walk c c' b va acc priv :
  c' = set_cache (cache c') c →
  mmu_walk c' b va acc priv None = mmu_walk c b va acc priv None.
Proof. intros ->. by apply mmu_walk_cp15. Qed.

Lemma set_cache_twice k k' c : set_cache k (set_cache k' c) = set_cache k c.
Proof. done. Qed.

Lemma sctlr_has_cached c c' b : c' = set_cache (cache c') c → sctlr_has c' b = sctlr_has c b.
Proof. by intros ->. Qed.

Lemma mmu_sync_idem c :
  tlb_gen (cache (mmu_sync c)) ≠ 0 → mmu_stamp_matches (mmu_sync c) = true →
  mmu_sync (mmu_sync c) = mmu_sync c.
Proof.
  intros Hg Hst. unfold mmu_sync at 1. apply Z.eqb_neq in Hg. rewrite Hg, Hst. done.
Qed.

Lemma translate_after_sync m va acc priv :
  sctlr_has (cpu m) ARM_SCTLR_M = true →
  sctlr_has (mmu_sync (cpu m)) ARM_SCTLR_M = true →
  mmu_sync (mmu_sync (cpu m)) = mmu_sync (cpu m) →
  arm_mmu_translate m va acc priv = arm_mmu_translate (set_cpu (mmu_sync (cpu m)) m) va acc priv.
Proof.
  intros H1 H2 H3. unfold arm_mmu_translate, set_cpu. cbn [cpu bus].
  rewrite H1, H2, H3. reflexivity.
Qed.

(** The cached translation answers as the walk, disturbs nothing but the cache,
    and keeps the TLB sound. *)
Lemma translate_refines m va acc priv :
  tlb_sound m → reads_pure (bus m) → prepare_fetch (bus m) = None → uint 32 va →
  let '(x, m') := arm_mmu_translate m va acc priv in
  x = fst (mmu_walk (cpu m) (bus m) va acc priv None) ∧ bus m' = bus m ∧
  cpu m' = set_cache (cache (cpu m')) (cpu m) ∧ tlb_sound m'.
Proof.
  intros Hs Hp Hpf Hva. destruct (sctlr_has (cpu m) ARM_SCTLR_M) eqn:HM.
  - destruct (mmu_sync_spec m Hs) as (Ec & Hst & Hg & Hs').
    assert (sctlr_has (mmu_sync (cpu m)) ARM_SCTLR_M = true) as HM'
      by by rewrite (sctlr_has_cached (cpu m)).
    pose proof (mmu_sync_idem (cpu m) Hg Hst) as Hi.
    rewrite translate_after_sync by done.
    pose proof (translate_synced (set_cpu (mmu_sync (cpu m)) m) va acc priv
                  HM' Hi Hst Hg Hs' Hp Hpf Hva) as Ht.
    destruct (arm_mmu_translate _ va acc priv) as [x m']. simpl in Ht.
    destruct Ht as (-> & -> & Hc & Hs2). split; [by rewrite (cached_walk (cpu m)) |].
    split; [done |]. split; [| done]. rewrite Hc. simpl. by rewrite Ec.
  - unfold arm_mmu_translate, mmu_walk. rewrite HM. simpl.
    split; [done |]. split; [done |]. split; [by destruct (cpu m) | done].
Qed.

(** A run of lookups, threading the TLB state. *)
Fixpoint translate_all (m : mach B) (l : list (Z * arm_access * bool)) : list xlat * mach B :=
  match l with
  | [] => ([], m)
  | (va, acc, priv) :: l =>
    let '(x, m) := arm_mmu_translate m va acc priv in
    let '(xs, m) := translate_all m l in
    (x :: xs, m)
  end.

(** C1: the software TLB is invisible.  From a core whose live TLB entries agree
    with the page tables, any sequence of data and fetch lookups — hits, misses,
    replacements, permission faults cached and replayed, and the flush forced by a
    changed translation register in between — returns exactly the answers of
    uncached page-table walks, changes nothing of the core but its cache, and
    leaves the TLB sound again. *)
Theorem tlb_refines_walk m l :
  tlb_sound m → reads_pure (bus m) → prepare_fetch (bus m) = None →
  Forall (fun '(va, _, _) => uint 32 va) l →
  let '(xs, m') := translate_all m l in
  xs = map (fun '(va, acc, priv) => fst (mmu_walk (cpu m) (bus m) va acc priv None)) l ∧
  bus m' = bus m ∧ cpu m' = set_cache (cache (cpu m')) (cpu m) ∧ tlb_sound m'.
Proof.
  intros Hs Hp Hpf Hl. revert m Hs Hp Hpf.
  induction Hl as [| [[va acc] priv] l Hva Hl IH]; intros m Hs Hp Hpf; simpl.
  { split; [done |]. split; [done |]. split; [by destruct (cpu m) | done]. }
  pose proof (translate_refines m va acc priv Hs Hp Hpf Hva) as Ht.
  destruct (arm_mmu_translate m va acc priv) as [x m1].
  destruct Ht as (-> & Eb & Ec & Hs1). rewrite <- Eb in Hp, Hpf.
  specialize (IH m1 Hs1 Hp Hpf). destruct (translate_all m1 l) as [xs m2].
  destruct IH as (-> & Eb2 & Ec2 & Hs2). split; [f_equal |].
  - apply map_ext. intros [[va' acc'] priv']. by rewrite Eb, (cached_walk (cpu m)).
  - split; [by rewrite Eb2 |]. split; [| done]. rewrite Ec2. simpl. by rewrite Ec.
Qed.

End Refinement.

(** ** What a walk grants *)

Section Grants.
Context {B : Type} `{BusRanges B}.

(** Accesses ordered by what they demand: a store demands more than a load, an
    unprivileged access more than a privileged one; a fetch is ordered only by
    privilege. *)
Definition demands_more (acc acc' : arm_access) (priv priv' : bool) : Prop :=
  (acc = acc' ∨ (acc = ARM_ACCESS_WRITE ∧ acc' = ARM_ACCESS_READ)) ∧
  (priv = true → priv' = true).

Lemma ap_permits_mono c ap apx acc acc' priv priv' :
  demands_more acc acc' priv priv' →
  ap_permits c ap apx (is_write acc) priv = true →
  ap_permits c ap apx (is_write acc') priv' = true.
Proof.
  intros [Ha Hp] Hap.
  assert (ap_permits c ap apx (is_write acc') priv = true) as Hr.
  { destruct Ha as [-> | [-> ->]]; [done | by apply ap_permits_read]. }
  destruct priv, priv'; try done; [by specialize (Hp eq_refl) | by apply ap_permits_priv].
Qed.

Lemma xn_mono c acc acc' dac xn priv priv' :
  demands_more acc acc' priv priv' →
  xn_forbids_fetch c acc dac xn = false → xn_forbids_fetch c acc' dac xn = false.
Proof. intros [[-> | [-> ->]] _]; done. Qed.

Lemma walk_section_mono c va acc acc' priv priv' l1 pa :
  demands_more acc acc' priv priv' →
  walk_section c va acc priv l1 = Phys pa → walk_section c va acc' priv' l1 = Phys pa.
Proof.
  intros Hd. unfold walk_section. set (dac := fld (dacr _) _ _).
  destruct (access_flag_faults _ _ _ _); [done |]. destruct (_ || _); [done |].
  destruct (negb _ && negb _) eqn:Eap; [done |].
  destruct (xn_forbids_fetch c acc _ _) eqn:Exn; [done |]. intros Hw.
  rewrite (xn_mono c acc acc' _ _ priv priv') by done.
  replace (negb (dac =? 3) && negb (ap_permits _ _ _ (is_write acc') priv')) with false; [done |].
  destruct (negb (dac =? 3)); [| done]. simpl in *. apply negb_false_iff in Eap.
  by rewrite (ap_permits_mono _ _ _ _ _ _ _ Hd Eap).
Qed.

Lemma walk_page_mono c va acc acc' priv priv' d l2 pa :
  demands_more acc acc' priv priv' →
  walk_page c va acc priv d l2 = Phys pa → walk_page c va acc' priv' d l2 = Phys pa.
Proof.
  intros Hd. unfold walk_page. set (dac := fld (dacr _) _ _).
  destruct (_ =? 0); [done |]. destruct (l2_permissions c va l2) as [ap apx].
  destruct (access_flag_faults _ _ _ _); [done |]. destruct (_ || _); [done |].
  destruct (negb _ && negb _) eqn:Eap; [done |].
  destruct (xn_forbids_fetch c acc _ _) eqn:Exn; [done |]. intros Hw.
  rewrite (xn_mono c acc acc' _ _ priv priv') by done.
  replace (negb (dac =? 3) && negb (ap_permits _ _ _ (is_write acc') priv')) with false; [done |].
  destruct (negb (dac =? 3)); [| done]. simpl in *. apply negb_false_iff in Eap.
  by rewrite (ap_permits_mono _ _ _ _ _ _ _ Hd Eap).
Qed.

(** permissions are monotone through the whole walk.  Whatever an
    unprivileged access may reach a privileged one may reach at the same physical
    address, and whatever may be stored to may be loaded from, for every
    descriptor format, domain and XP setting and for any register contents. *)
Theorem walk_permission_monotone c b va acc acc' priv priv' pa b' :
  demands_more acc acc' priv priv' →
  mmu_walk c b va acc priv None = (Phys pa, b') →
  mmu_walk c b va acc' priv' None = (Phys pa, b').
Proof.
  intros Hd. unfold mmu_walk. destruct (negb _); [done |].
  destruct (l1_location c va) as [l1a pd]. destruct (bit _ _); [done |]. simpl.
  destruct (read32 b l1a) as [l1 b1]. destruct (_ || _); [done |].
  destruct (_ =? 2); intros Hw.
  - injection Hw as Hw <-. by rewrite (walk_section_mono c va acc acc' priv priv' l1 pa Hd Hw).
  - destruct (read32 b1 _) as [l2 b2]. injection Hw as Hw <-.
    by rewrite (walk_page_mono c va acc acc' priv priv' _ l2 pa Hd Hw).
Qed.

(** the granule every host-side cache relies on is sound.  Two addresses of
    one 1 KB block (the ARMv6 legacy subpage) are translated alike: the same
    fault, or the same physical block at their own offsets. *)
Theorem walk_granule c b va va' acc priv x b' :
  uint 32 va → uint 32 va' → same_block va va' →
  mmu_walk c b va acc priv None = (x, b') →
  mmu_walk c b va' acc priv None = (rebase_xlat x va', b').
Proof. intros Hv Hv' Hb Hw. by rewrite (mmu_walk_block va va'), Hw by done. Qed.

(** a fault is never mistaken for success.  The register value reported for a
    denied access is non-zero (zero is the code's "translated" answer), carries the
    access's write bit (WnR, bit 11), and depends on the cause only: with
    translation off no access faults, and with the table disabled by PD0/PD1 the
    fault is reported without touching the bus. *)
Theorem walk_fault_register c b va acc priv :
  match mmu_walk c b va acc priv None with
  | (Fault f, b') =>
      f ≠ 0 ∧ bit f 11 = is_write acc ∧ sctlr_has c ARM_SCTLR_M = true ∧
      (bit (ttbcr (cp15 c)) (snd (l1_location c va)) = true →
       f .& 0xf = ARM_FSR_SECTION_TRANSLATION ∧ b' = b)
  | (Phys pa, b') => sctlr_has c ARM_SCTLR_M = false → pa = va ∧ b' = b
  end.
Proof.
  destruct (mmu_walk c b va acc priv None) as [[f | pa] b'] eqn:Hw.
  - destruct (mmu_walk_fault _ _ _ _ _ _ _ Hw) as [Hf Hb]. split; [done |]. split; [done |].
    unfold mmu_walk in Hw. destruct (sctlr_has c ARM_SCTLR_M) eqn:HM; [| done].
    split; [done |]. simpl in Hw.
    destruct (l1_location c va) as [l1a pd]. simpl. intros Hpd. rewrite Hpd in Hw.
    injection Hw as <- <-. split; [by apply fsr_make_status | done].
  - intros HM. unfold mmu_walk in Hw. rewrite HM in Hw. by injection Hw as <- <-.
Qed.

End Grants.

(** ** A concrete address space

    One section maps the first megabyte onto itself, user read-only; the next is
    a coarse table with one small page. *)

Definition demo_byte (a : Z) : Z :=
  if a =? 0x4000 then 0x02 else if a =? 0x4001 then 0x08
  else if a =? 0x4004 then 0x01 else if a =? 0x4005 then 0x50
  else if a =? 0x5004 then 0x3e else if a =? 0x5005 then 0x70 else 0.

Definition demo_ram : flat_ram := FlatRam 0x8000 demo_byte.

Definition demo_stamp : stamp := MkStamp 0 0 0 0 0 0.

Definition blank_cpu : arm_cpu :=
  MkCpu (fun _ => 0) ARM_ARCH_V6_ARM1176 0 cp15_zero (fun _ => 0) (fun _ => 0) (fun _ => 0)
    (fun _ => 0) (fun _ => 0) 0 false 0 0 false false false 0 0 0 (fun _ => 0)
    (MkCache (fun _ => MkTlb 0 0 0 0) 0 None 0 0 false (fun _ => MkBlk None 0 0)
       (fun _ => MkBlk None 0 0) demo_stamp 0 0 0 0 0 0 0).

(** The core after reset, with translation switched on over [demo_ram]. *)
Definition demo_cpu : arm_cpu :=
  let c := arm_reset blank_cpu in
  set_cp15 (set_sctlr (ARM_SCTLR_M .| ARM_SCTLR_XP)
              (set_ttbr0 0x4000 (set_dacr 1 (cp15 c)))) c.

Definition demo_mach : mach flat_ram := Mach demo_cpu demo_ram.

Lemma demo_sound : tlb_sound demo_mach.
Proof.
  split; [split; [split; by vm_compute | intros s; split; by vm_compute] |].
  intros _ _ va acc priv _ [Hl _]. by vm_compute in Hl.
Qed.

Lemma demo_reads_pure : reads_pure demo_ram.
Proof. done. Qed.

Lemma tlb_refines_walk_witness :
  let l := [(0x123, ARM_ACCESS_READ, false); (0x124, ARM_ACCESS_READ, false);
            (0x124, ARM_ACCESS_WRITE, false); (0x100010, ARM_ACCESS_READ, false);
            (0x101010, ARM_ACCESS_READ, true); (0x124, ARM_ACCESS_WRITE, false)] in
  fst (translate_all demo_mach l) =
    [Phys 0x123; Phys 0x124; Fault 0x80d; Fault 0x7; Phys 0x7010; Fault 0x80d] ∧
  fst (translate_all demo_mach l) =
    map (fun '(va, acc, priv) => fst (mmu_walk demo_cpu demo_ram va acc priv None)) l.
Proof.
  intros l. split; [by vm_compute |].
  assert (Forall (fun '(va, _, _) => uint 32 va) l) as Hl.
  { repeat (apply Forall_cons_2; [split; lia |]). apply Forall_nil_2. }
  pose proof (tlb_refines_walk demo_mach l demo_sound demo_reads_pure eq_refl Hl) as H.
  destruct (translate_all demo_mach l) as [xs m']. apply H.
Defined.

Lemma demo_page_write :
  mmu_walk demo_cpu demo_ram 0x101010 ARM_ACCESS_WRITE false None = (Phys 0x7010, demo_ram).
Proof. by vm_compute. Qed.

Lemma demo_page_read :
  mmu_walk demo_cpu demo_ram 0x101010 ARM_ACCESS_READ false None = (Phys 0x7010, demo_ram).
Proof. by vm_compute. Qed.

Lemma walk_permission_monotone_witness :
  mmu_walk demo_cpu demo_ram 0x101010 ARM_ACCESS_READ true None = (Phys 0x7010, demo_ram).
Proof.
  apply (walk_permission_monotone demo_cpu demo_ram 0x101010 ARM_ACCESS_WRITE ARM_ACCESS_READ
           false true 0x7010 demo_ram).
  - split; [right; split; reflexivity | intros _; reflexivity].
  - exact demo_page_write.
Defined.

Lemma walk_granule_witness :
  mmu_walk demo_cpu demo_ram 0x1013fc ARM_ACCESS_READ false None =
  (rebase_xlat (Phys 0x7010) 0x1013fc, demo_ram) ∧
  rebase_xlat (Phys 0x7010) 0x1013fc = Phys 0x73fc.
Proof.
  split; [| reflexivity].
  apply (walk_granule demo_cpu demo_ram 0x101010 0x1013fc ARM_ACCESS_READ false
           (Phys 0x7010) demo_ram).
  - split; lia.
  - split; lia.
  - reflexivity.
  - exact demo_page_read.
Defined.
