(* ===== verification/MemAccess.v ===== *)
(** * Guest memory accesses

    The translating accessors of [core/src/arm/arm_interp.c] ([mem_r32] ..
    [mem_w8], generated there by [MEM_READ] / [MEM_WRITE]): alignment rules,
    page-crossing accesses, the data block caches that bypass both the TLB and the
    bus callbacks, and the abort latch.  The access width [n] is in bytes.

    DataCache.v proves that the caches are invisible: these accessors agree with
    accesses that walk the page tables and use the bus every time. *)

From S2P Require Import Prelude State Cpu Bus Mmu.

Definition ARM_PAGE_MASK := 0xfff.
Definition ARM_DREAD_ENTRIES := 4096.
Definition ARM_DREAD_BLK_MASK := 0x3ff.

Definition legacy_rotate_word (v byte_offset : Z) : Z :=
  let n := (byte_offset .& 3) * 8 in
  if n =? 0 then v else (v .>> n) .| (v .<< (32 - n)).

Definition legacy_halfword_unpredictable (c : arm_cpu) (va : Z) : bool :=
  negb ((va .& 1) =? 0) && ((sctlr (cp15 c) .& (ARM_SCTLR_U .| ARM_SCTLR_A)) =? 0).

Definition mem_crosses_page (va n : Z) : bool := ARM_PAGE_MASK + 1 <? (va .& ARM_PAGE_MASK) + n.

Definition dread_slot (va : Z) (priv : bool) : Z :=
  ((va .>> 10) +w (if priv then ARM_DREAD_ENTRIES / 2 else 0)) .& (ARM_DREAD_ENTRIES - 1).

Definition dread_tag (va : Z) (priv : bool) : Z :=
  (va .& wnot ARM_DREAD_BLK_MASK) .| (if priv then 1 else 0).

(** [e] holds the live block of tag [tag]: its host pointer. *)
Definition blk_lookup (e : blk_entry) (tag gen : Z) : option Z :=
  match be_host e with
  | Some h => if (be_tag e =? tag) && (be_gen e =? gen) then Some h else None
  | None => None
  end.

Definition dread_hit (c : arm_cpu) (va n : Z) (priv : bool) : option Z * arm_cpu :=
  let k := cache c in
  let miss := set_cache (set_dread_misses (w64 (dread_misses k + 1)) k) c in
  if ARM_DREAD_BLK_MASK + 1 <? (va .& ARM_DREAD_BLK_MASK) + n then (None, miss)
  else match blk_lookup (dread k (dread_slot va priv)) (dread_tag va priv) (tlb_gen k) with
       | None => (None, miss)
       | Some h => (Some (h + (va .& ARM_DREAD_BLK_MASK)),
                    set_cache (set_dread_hits (w64 (dread_hits k + 1)) k) c)
       end.

Section Access.
Context {B : Type} `{Bus B}.

Definition dread_fill (m : mach B) (va pa : Z) (priv : bool) : mach B :=
  let k := cache (cpu m) in
  match host_ram (bus m) with
  | None => m
  | Some f =>
    match f (pa .& wnot ARM_DREAD_BLK_MASK) (ARM_DREAD_BLK_MASK + 1) with
    | None => m
    | Some blk =>
      let e := MkBlk (Some blk) (dread_tag va priv) (tlb_gen k) in
      on_cpu (set_cache (set_dread (<[dread_slot va priv := e]> (dread k)) k)) m
    end
  end.

Definition dwrite_hit (m : mach B) (va n : Z) (priv : bool) : option Z * mach B :=
  let k := cache (cpu m) in
  let miss := on_cpu (set_cache (set_dwrite_misses (w64 (dwrite_misses k + 1)) k)) m in
  match host_ram_write (bus m) with
  | None => (None, m)
  | Some _ =>
    if ARM_DREAD_BLK_MASK + 1 <? (va .& ARM_DREAD_BLK_MASK) + n then (None, miss)
    else match blk_lookup (dwrite k (dread_slot va priv)) (dread_tag va priv) (tlb_gen k) with
         | None => (None, miss)
         | Some h => (Some (h + (va .& ARM_DREAD_BLK_MASK)),
                      on_cpu (set_cache (set_dwrite_hits (w64 (dwrite_hits k + 1)) k)) m)
         end
  end.

Definition dwrite_fill (m : mach B) (va pa : Z) (priv : bool) : mach B :=
  let k := cache (cpu m) in
  match host_ram_write (bus m) with
  | None => m
  | Some f =>
    match f (pa .& wnot ARM_DREAD_BLK_MASK) (ARM_DREAD_BLK_MASK + 1) with
    | None => m
    | Some blk =>
      let e := MkBlk (Some blk) (dread_tag va priv) (tlb_gen k) in
      on_cpu (set_cache (set_dwrite (<[dread_slot va priv := e]> (dwrite k)) k)) m
    end
  end.

(** The byte loop, from byte [i] on with [page_pa] and [val] accumulated. *)
Fixpoint mem_read_crossing_from (k : nat) (m : mach B) (va i page_pa val : Z) (priv : bool)
    : Z * mach B :=
  match k with
  | O => (val, m)
  | S k' =>
    let a := va +w i in
    let byte (m : mach B) page_pa :=
      let '(x, b) := read8 (bus m) (page_pa .| (a .& ARM_PAGE_MASK)) in
      mem_read_crossing_from k' (set_bus b m) va (i + 1) page_pa (val .| (x .<< (8 * i))) priv in
    if (i =? 0) || ((a .& ARM_PAGE_MASK) =? 0) then
      match arm_mmu_translate m a ARM_ACCESS_READ priv with
      | (Fault f, m) => (0, on_cpu (fun c => note_abort c f a) m)
      | (Phys pa, m) => byte m (pa .& wnot ARM_PAGE_MASK)
      end
    else byte m page_pa
  end.

Definition mem_read_crossing (m : mach B) (va n : Z) (priv : bool) : Z * mach B :=
  mem_read_crossing_from (Z.to_nat n) m va 0 0 0 priv.

Fixpoint mem_write_crossing_from (k : nat) (m : mach B) (va i page_pa v : Z) (priv : bool)
    : mach B :=
  match k with
  | O => m
  | S k' =>
    let a := va +w i in
    let byte (m : mach B) page_pa :=
      let b := write8 (bus m) (page_pa .| (a .& ARM_PAGE_MASK)) (w8 (v .>> (8 * i))) in
      mem_write_crossing_from k' (set_bus b m) va (i + 1) page_pa v priv in
    if (i =? 0) || ((a .& ARM_PAGE_MASK) =? 0) then
      match arm_mmu_translate m a ARM_ACCESS_WRITE priv with
      | (Fault f, m) => on_cpu (fun c => note_abort c f a) m
      | (Phys pa, m) => byte m (pa .& wnot ARM_PAGE_MASK)
      end
    else byte m page_pa
  end.

Definition mem_write_crossing (m : mach B) (va n v : Z) (priv : bool) : mach B :=
  mem_write_crossing_from (Z.to_nat n) m va 0 0 v priv.

(** The alignment rule both accessors start with: [None] is the alignment fault,
    [Some va] the address to go on with. *)
Definition ordinary_address (c : arm_cpu) (va n : Z) : option Z :=
  if negb ((va .& (n - 1)) =? 0) then
    if negb ((sctlr (cp15 c) .& ARM_SCTLR_A) =? 0) then None
    else if (sctlr (cp15 c) .& ARM_SCTLR_U) =? 0 then Some (va .& wnot (n - 1))
    else Some va
  else Some va.

(** [mem_r8_as], [mem_r16_as], [mem_r32_as]. *)
Definition mem_read_as (n : Z) (m : mach B) (va : Z) (priv : bool) : Z * mach B :=
  let original := va in
  match ordinary_address (cpu m) va n with
  | None => (0, on_cpu (fun c => note_alignment_abort c va false) m)
  | Some va =>
    let finish value := wrap (8 * n)
      (if (n =? 4) && negb (original =? va)
       then legacy_rotate_word value (original .& 3) else value) in
    if mem_crosses_page va n then
      let '(value, m) := mem_read_crossing m va n priv in (finish (wrap (8 * n) value), m)
    else
      let '(dh, c) := dread_hit (cpu m) va n priv in
      let m := set_cpu c m in
      match dh with
      | Some p => (finish (host_get (Z.to_nat n) (bus m) p), m)
      | None =>
        match arm_mmu_translate m va ARM_ACCESS_READ priv with
        | (Fault f, m) => (0, on_cpu (fun c => note_abort c f va) m)
        | (Phys pa, m) =>
          let '(value, b) := bus_read n (bus m) pa in
          (finish value, dread_fill (set_bus b m) va pa priv)
        end
      end
  end.

(** [mem_w8_as], [mem_w16_as], [mem_w32_as]. *)
Definition mem_write_as (n : Z) (m : mach B) (va v : Z) (priv : bool) : mach B :=
  match ordinary_address (cpu m) va n with
  | None => on_cpu (fun c => note_alignment_abort c va true) m
  | Some va =>
    if mem_crosses_page va n then mem_write_crossing m va n v priv
    else
      let '(dw, m) := dwrite_hit m va n priv in
      match dw with
      | Some p => set_bus (host_put (Z.to_nat n) (bus m) p v) m
      | None =>
        match arm_mmu_translate m va ARM_ACCESS_WRITE priv with
        | (Fault f, m) => on_cpu (fun c => note_abort c f va) m
        | (Phys pa, m) => dwrite_fill (set_bus (bus_write n (bus m) pa v) m) va pa priv
        end
      end
  end.

Definition mem_read (n : Z) (m : mach B) (va : Z) : Z * mach B :=
  mem_read_as n m va (cpu_is_priv (cpu m)).
Definition mem_write (n : Z) (m : mach B) (va v : Z) : mach B :=
  mem_write_as n m va v (cpu_is_priv (cpu m)).

Definition mem_r32 := mem_read 4.
Definition mem_r16 := mem_read 2.
Definition mem_r8 := mem_read 1.
Definition mem_w32 (m : mach B) (va v : Z) := mem_write 4 m va (w32 v).
Definition mem_w16 (m : mach B) (va v : Z) := mem_write 2 m va (w16 v).
Definition mem_w8 (m : mach B) (va v : Z) := mem_write 1 m va (w8 v).

End Access.

(** [Some va]: go on at [va] (the C function updates its argument). *)
Definition prepare_multiword_address (c : arm_cpu) (va alignment : Z) (write : bool)
    : option Z * arm_cpu :=
  let mask := alignment - 1 in
  if (va .& mask) =? 0 then (Some va, c)
  else if negb ((sctlr (cp15 c) .& (ARM_SCTLR_U .| ARM_SCTLR_A)) =? 0)
       then (None, note_alignment_abort c va write)
       else (Some (va .& wnot mask), c).

(** [None]: go on; [Some status]: stop with that status. *)
Definition prepare_sync_address (c : arm_cpu) (va alignment : Z) (write : bool)
    : option arm_status * arm_cpu :=
  if (va .& (alignment - 1)) =? 0 then (None, c)
  else if negb ((sctlr (cp15 c) .& (ARM_SCTLR_U .| ARM_SCTLR_A)) =? 0)
       then (Some ARM_OK, note_alignment_abort c va write)
       else (Some ARM_UNDEFINED, c).

Section VfpBus.
Context {B : Type} `{Bus B}.

Definition vfp_mem_r32 (m : mach B) (va : Z) : Z * mach B :=
  let '(a, c) := prepare_multiword_address (cpu m) va 4 false in
  let m := set_cpu c m in
  match a with Some va => mem_r32 m va | None => (0, m) end.

Definition vfp_mem_w32 (m : mach B) (va v : Z) : mach B :=
  let '(a, c) := prepare_multiword_address (cpu m) va 4 true in
  let m := set_cpu c m in
  match a with Some va => mem_w32 m va v | None => m end.

Definition arm_data_cache_try_refill (m : mach B) (va : Z) (acc : arm_access) (priv : bool)
    : bool * mach B :=
  let c := cpu m in
  let k := cache c in
  let va_block := va .& wnot ARM_DREAD_BLK_MASK in
  let cache_slot := dread_slot va priv in
  let cache_tag := va_block .| (if priv then 1 else 0) in
  let mmu_enabled := sctlr_has c ARM_SCTLR_M in
  let fn := if is_write acc then host_ram_write (bus m) else host_ram (bus m) in
  let live := blk_lookup ((if is_write acc then dwrite k else dread k) cache_slot)
                cache_tag (tlb_gen k) in
  if is_fetch acc then (false, m)
  else if mmu_enabled && ((tlb_gen k =? 0) || negb (mmu_stamp_matches c)) then (false, m)
  else
    match fn with
    | None => (false, m)
    | Some host_fn =>
      if mmu_enabled && (match live with Some _ => true | None => false end) then (true, m)
      else
        let e := tlb k (mmu_tlb_slot va acc) in
        if mmu_enabled && (negb (te_gen e =? tlb_gen k) ||
                           negb (te_tag e =? mmu_tlb_tag va acc priv) || negb (te_fsr e =? 0))
        then (false, m)
        else
          let pa_block := if mmu_enabled then te_pa e else va_block in
          match host_fn pa_block (ARM_DREAD_BLK_MASK + 1) with
          | None => (false, m)
          | Some host =>
            let b := MkBlk (Some host) cache_tag (tlb_gen k) in
            let k := if is_write acc then set_dwrite (<[cache_slot := b]> (dwrite k)) k
                     else set_dread (<[cache_slot := b]> (dread k)) k in
            let k := if mmu_enabled then set_tlb_hits (w64 (tlb_hits k + 1)) k else k in
            (true, set_cpu (set_cache k c) m)
          end
    end.

End VfpBus.
