(* ===== verification/Alu.v ===== *)
(** * Shifter, adder, saturation

    The arithmetic helpers of [core/src/arm/arm_interp.c] that every instruction
    group shares: rotation, sign extension, saturation, the barrel shifter and the
    flag-setting adder. *)

From S2P Require Import Prelude State Cpu.

Definition ror32 (v n : Z) : Z :=
  let n := n .& 31 in
  if n =? 0 then v else (v .>> n) .| (v .<< (32 - n)).

Definition sign_extend8 (v : Z) : Z := ((v .& 0xff) .^ 0x80) -w 0x80.
Definition sign_extend16 (v : Z) : Z := ((v .& 0xffff) .^ 0x8000) -w 0x8000.

(** The result and whether [*saturated] was set. *)
Definition signed_saturate (value bits : Z) : Z * bool :=
  let limit := Z.shiftl 1 (bits - 1) in
  let lo := - limit in
  let hi := limit - 1 in
  if value <? lo then (w32 lo, true)
  else if hi <? value then (w32 hi, true)
  else (w32 value, false).

Definition unsigned_saturate (value bits : Z) : Z * bool :=
  let hi := if bits =? 0 then 0 else Z.shiftl 1 bits - 1 in
  if value <? 0 then (0, true)
  else if hi <? value then (w32 hi, true)
  else (w32 value, false).

(** The shifted value and the carry-out; [carry] is the carry-in. *)
Definition barrel_shift (val type amount : Z) (reg_amount carry : bool) : Z * bool :=
  match type .& 3 with
  | 0 =>
    if amount =? 0 then (val, carry)
    else if amount <? 32 then (val .<< amount, bit val (32 - amount))
    else if amount =? 32 then (0, bit val 0)
    else (0, false)
  | 1 =>
    if amount =? 0 then if reg_amount then (val, carry) else (0, bit val 31)
    else if amount <? 32 then (val .>> amount, bit val (amount - 1))
    else if amount =? 32 then (0, bit val 31)
    else (0, false)
  | 2 =>
    let fill := if (val .& 0x80000000) =? 0 then 0 else 0xffffffff in
    if amount =? 0 then if reg_amount then (val, carry) else (fill, bit val 31)
    else if amount <? 32 then (w32 (Z.shiftr (s32 val) amount), bit val (amount - 1))
    else (fill, bit val 31)
  | _ =>
    if amount =? 0 then
      if reg_amount then (val, carry)
      else ((val .>> 1) .| ((if carry then 1 else 0) .<< 31), bit val 0)
    else
      let amount := amount .& 31 in
      if amount =? 0 then (val, bit val 31)
      else (ror32 val amount, bit val (amount - 1))
  end.

Definition dp_operand2 (c : arm_cpu) (pc insn : Z) (carry : bool) : Z * bool :=
  if bit insn 25 then
    let imm := insn .& 0xff in
    let rot := fld insn 8 0xf * 2 in
    let val := ror32 imm rot in
    (val, if negb (rot =? 0) then bit val 31 else carry)
  else
    let rm := insn .& 0xf in
    let type := fld insn 5 3 in
    if bit insn 4 then
      let amt := reg_read c pc (fld insn 8 0xf) .& 0xff in
      barrel_shift (reg_read c pc rm) type amt true carry
    else
      barrel_shift (reg_read c pc rm) type (fld insn 7 0x1f) false carry.

Definition alu_add (c : arm_cpu) (a b cin : Z) (set : bool) : Z * arm_cpu :=
  let u := w64 (a + b + cin) in
  let r := w32 u in
  let c :=
    if set then
      let c := set_flag c ARM_CPSR_N (bit r 31) in
      let c := set_flag c ARM_CPSR_Z (r =? 0) in
      let c := set_flag c ARM_CPSR_C (bit u 32) in
      set_flag c ARM_CPSR_V (bit (wnot (a .^ b) .& (a .^ r)) 31)
    else c in
  (r, c).

Definition alu_sub (c : arm_cpu) (a b cin : Z) (set : bool) : Z * arm_cpu :=
  alu_add c a (wnot b) cin set.

Definition alu_logic_flags (c : arm_cpu) (r : Z) (carry set : bool) : arm_cpu :=
  if negb set then c
  else
    let c := set_flag c ARM_CPSR_N (bit r 31) in
    let c := set_flag c ARM_CPSR_Z (r =? 0) in
    set_flag c ARM_CPSR_C carry.
