(* ===== verification/AluFacts.v ===== *)
(** * Facts about the shifter, the adder and saturation

    Each routine of Alu.v against its arithmetic meaning on integers: the barrel
    shifter against multiplication, division and rotation, the flag-setting adder
    against exact sums (and so the sixteen conditions against comparisons), the
    saturation helpers against clamping. *)

From S2P Require Import Prelude State Cpu Alu.

(** ** Flags *)

Lemma get_set_flag c n k on : 0 <= n < 32 → 0 <= k < 32 →
  get_flag (set_flag c (2 ^ n) on) (2 ^ k) = if k =? n then on else get_flag c (2 ^ k).
Proof.
  intros Hn Hk. unfold get_flag, set_flag. rewrite !land_bit_zero, !negb_involutive by lia.
  unfold bit. simpl. destruct on.
  - rewrite Z.lor_spec. destruct (Z.eqb_spec k n) as [-> | Hne].
    + rewrite Z.pow2_bits_true by lia. apply orb_true_r.
    + rewrite Z.pow2_bits_false by lia. apply orb_false_r.
  - rewrite Z.land_spec, testbit_wnot by lia. replace (k <? 32) with true by lia.
    rewrite xorb_true_r. destruct (Z.eqb_spec k n) as [-> | Hne].
    + rewrite Z.pow2_bits_true by lia. apply andb_false_r.
    + rewrite Z.pow2_bits_false by lia. apply andb_true_r.
Qed.

(** The four arithmetic flags of [alu_add], and that it changes nothing else. *)
Definition nzcv (c : arm_cpu) : bool * bool * bool * bool :=
  (get_flag c ARM_CPSR_N, get_flag c ARM_CPSR_Z, get_flag c ARM_CPSR_C, get_flag c ARM_CPSR_V).

Lemma alu_add_flags c a b cin :
  let '(r, c') := alu_add c a b cin true in
  nzcv c' = (bit r 31, r =? 0, bit (w64 (a + b + cin)) 32,
             bit (wnot (a .^ b) .& (a .^ r)) 31).
Proof.
  unfold alu_add, nzcv. set (r := w32 (w64 _)). change ARM_CPSR_N with (2 ^ 31).
  change ARM_CPSR_Z with (2 ^ 30). change ARM_CPSR_C with (2 ^ 29).
  change ARM_CPSR_V with (2 ^ 28).
  rewrite !get_set_flag by lia. done.
Qed.

Lemma alu_add_frame c a b cin set :
  let c' := snd (alu_add c a b cin set) in c' = set_cpsr (cpsr c') c.
Proof. unfold alu_add, set_flag. destruct set; simpl; by destruct c. Qed.

(** ** Exact sums *)

Lemma w32_w64 x : w32 (w64 x) = w32 x.
Proof.
  unfold w32, w64, wrap. rewrite <- (Z.add_0_r (x mod 2 ^ 64)).
  Z.to_euclidean_division_equations; lia.
Qed.

Lemma alu_add_value c a b cin set : fst (alu_add c a b cin set) = w32 (a + b + cin).
Proof. unfold alu_add. simpl. apply w32_w64. Qed.

(** Carry-out of an addition of words. *)
Lemma carry_spec a b cin : uint 32 a → uint 32 b → 0 <= cin <= 1 →
  bit (w64 (a + b + cin)) 32 = (2 ^ 32 <=? a + b + cin).
Proof.
  intros [] [] Hc. unfold w64. rewrite wrap_small by (split; lia). unfold bit.
  destruct (Z.leb_spec (2 ^ 32) (a + b + cin)).
  - rewrite Z.testbit_true by lia.
    assert ((a + b + cin) / 2 ^ 32 = 1) as ->; [| done].
    symmetry. apply (Z.div_unique _ _ _ (a + b + cin - 2 ^ 32)); lia.
  - apply (uint_high 32); [split; lia | lia | lia].
Qed.

(** Signed overflow of an addition of words. *)
Lemma overflow_spec a b cin : uint 32 a → uint 32 b → 0 <= cin <= 1 →
  bit (wnot (a .^ b) .& (a .^ w32 (a + b + cin))) 31 =
  negb ((- 2 ^ 31 <=? s32 a + s32 b + cin) && (s32 a + s32 b + cin <? 2 ^ 31)).
Proof.
  intros Ha Hb Hc. unfold bit. rewrite Z.land_spec, testbit_wnot, !Z.lxor_spec by lia.
  change (31 <? 32) with true. rewrite xorb_true_r.
  pose proof (uint_w32 (a + b + cin)) as Hr.
  change Z.testbit with bit. rewrite !bit31 by done.
  rewrite !s32_val by done.
  assert (w32 (a + b + cin) = if 2 ^ 32 <=? a + b + cin then a + b + cin - 2 ^ 32 else a + b + cin)
    as ->.
  { destruct Ha, Hb. unfold w32, wrap. destruct (Z.leb_spec (2 ^ 32) (a + b + cin));
      Z.to_euclidean_division_equations; lia. }
  destruct Ha, Hb. destruct (Z.leb_spec (2 ^ 31) a), (Z.leb_spec (2 ^ 31) b),
    (Z.leb_spec (2 ^ 32) (a + b + cin));
    destruct (Z.leb_spec (2 ^ 31) (a + b + cin)), (Z.leb_spec (2 ^ 31) (a + b + cin - 2 ^ 32));
    cbn [xorb negb andb]; lia.
Qed.

(** ** Conditions *)

Lemma cond_invert c cond : 0 <= cond < 14 →
  arm_cond_passed c (cond .^ 1) = negb (arm_cond_passed c cond).
Proof.
  intros Hc. assert (cond = 0 ∨ cond = 1 ∨ cond = 2 ∨ cond = 3 ∨ cond = 4 ∨ cond = 5 ∨ cond = 6 ∨
    cond = 7 ∨ cond = 8 ∨ cond = 9 ∨ cond = 10 ∨ cond = 11 ∨ cond = 12 ∨ cond = 13) as H by lia.
  repeat destruct H as [-> | H]; try subst cond; unfold arm_cond_passed; simpl;
    by destruct (get_flag c ARM_CPSR_N), (get_flag c ARM_CPSR_Z), (get_flag c ARM_CPSR_C),
      (get_flag c ARM_CPSR_V).
Qed.

(** A condition as a function of the flags. *)
Lemma cond_nzcv c n z cf v : nzcv c = (n, z, cf, v) →
  get_flag c ARM_CPSR_N = n ∧ get_flag c ARM_CPSR_Z = z ∧
  get_flag c ARM_CPSR_C = cf ∧ get_flag c ARM_CPSR_V = v.
Proof. unfold nzcv. intros H. by simplify_eq. Qed.

(** The flags of a comparison. *)
Lemma compare_flags c a b : uint 32 a → uint 32 b →
  nzcv (snd (alu_sub c a b 1 true)) =
  (xorb (s32 a <? s32 b) (negb ((- 2 ^ 31 <=? s32 a - s32 b) && (s32 a - s32 b <? 2 ^ 31))),
   a =? b, b <=? a, negb ((- 2 ^ 31 <=? s32 a - s32 b) && (s32 a - s32 b <? 2 ^ 31))).
Proof.
  intros Ha Hb. unfold alu_sub. pose proof (alu_add_flags c a (wnot b) 1) as Hf.
  pose proof (alu_add_value c a (wnot b) 1 true) as Hv.
  destruct (alu_add c a (wnot b) 1 true) as [r c']. simpl in Hv. simpl. rewrite Hf. subst r.
  pose proof (uint_wnot b Hb) as Hnb.
  assert (s32 (wnot b) = - s32 b - 1) as Hs.
  { rewrite !s32_val by done. rewrite wnot_eq by done. destruct Hb.
    destruct (Z.leb_spec (2 ^ 31) b), (Z.leb_spec (2 ^ 31) (0xffffffff - b)); lia. }
  rewrite carry_spec, overflow_spec by (done || lia).
  rewrite Hs. replace (s32 a + (- s32 b - 1) + 1) with (s32 a - s32 b) by lia.
  rewrite bit31 by apply uint_w32. rewrite wnot_eq by done.
  replace (a + (0xffffffff - b) + 1) with (a - b + 2 ^ 32) by lia.
  assert (w32 (a - b + 2 ^ 32) = if b <=? a then a - b else a - b + 2 ^ 32) as ->.
  { destruct Ha, Hb. unfold w32, wrap.
    destruct (Z.leb_spec b a); Z.to_euclidean_division_equations; lia. }
  rewrite !s32_val by done. destruct Ha, Hb.
  destruct (Z.leb_spec b a), (Z.leb_spec (2 ^ 31) a), (Z.leb_spec (2 ^ 31) b);
    (refine (f_equal2 pair (f_equal2 pair (f_equal2 pair _ _) _) _));
    try match goal with |- context [xorb (?x <? ?y) _] => destruct (Z.ltb_spec x y) end;
    rewrite ?xorb_true_l, ?xorb_false_l; lia.
Qed.

(** ** Rotation and the shifter *)

Lemma testbit_ror v n i : uint 32 v → 0 <= n < 32 → 0 <= i < 32 →
  Z.testbit (ror32 v n) i = Z.testbit v ((i + n) mod 32).
Proof.
  intros Hv Hn Hi. unfold ror32. change 31 with (Z.ones 5).
  rewrite Z.land_ones, (Z.mod_small n) by lia. destruct (Z.eqb_spec n 0) as [-> | Hne].
  { by rewrite Z.add_0_r, Z.mod_small. }
  autorewrite with bitspec. replace (i <? 32) with true by lia. rewrite andb_true_l.
  destruct (Z_lt_le_dec (i + n) 32).
  - rewrite (Z.mod_small (i + n)) by lia. rewrite (Z.testbit_neg_r v (i - _)) by lia.
    apply orb_false_r.
  - rewrite (uint_high 32 v (i + n) Hv) by lia. simpl. f_equal.
    apply (Z.mod_unique _ _ 1); lia.
Qed.

Lemma uint_ror v n : uint 32 v → uint 32 (ror32 v n).
Proof.
  intros Hv. unfold ror32. change 31 with (Z.ones 5). rewrite Z.land_ones by lia.
  pose proof (Z.mod_pos_bound n (2 ^ 5)). destruct (_ =? 0); [done |].
  apply uint_lor; [lia | apply uint_shiftr; [lia | done] | apply uint_w32].
Qed.

Lemma w32_mul_pow2 v n : 32 <= n → w32 (v * 2 ^ n) = 0.
Proof.
  intros Hn. unfold w32, wrap. replace n with (32 + (n - 32)) by lia.
  rewrite Z.pow_add_r by lia. replace (v * (2 ^ 32 * 2 ^ (n - 32))) with
    (v * 2 ^ (n - 32) * 2 ^ 32) by lia. apply Z.mod_mul. lia.
Qed.

(** A signed word shifted out entirely leaves its sign. *)
Lemma s32_div_big v n : uint 32 v → 31 <= n →
  w32 (s32 v / 2 ^ n) = if (v .& 0x80000000) =? 0 then 0 else 0xffffffff.
Proof.
  intros Hv Hn. change 0x80000000 with (2 ^ 31). rewrite land_bit_zero, bit31 by (done || lia).
  pose proof (s32_range v Hv) as Hr. rewrite s32_val in * by done. destruct Hv.
  assert (2 ^ 31 <= 2 ^ n) by (apply Z.pow_le_mono_r; lia).
  destruct (Z.leb_spec (2 ^ 31) v); simpl.
  - replace ((v - 2 ^ 32) / 2 ^ n) with (-1); [done |].
    apply (Z.div_unique _ _ _ (v - 2 ^ 32 + 2 ^ n)); lia.
  - by rewrite Z.div_small by lia.
Qed.

(** The immediate zero amount of LSR and ASR means 32. *)
Definition shift_amount (type amount : Z) (reg_amount : bool) : Z :=
  if (amount =? 0) && negb reg_amount && ((type =? 1) || (type =? 2)) then 32 else amount.

Lemma shift_lsl val n : uint 32 val → 0 <= n →
  ∀ reg cin, barrel_shift val 0 n reg cin =
  (w32 (val * 2 ^ n), if n =? 0 then cin else bit (val * 2 ^ n) 32).
Proof.
  intros Hv Hn reg cin. unfold barrel_shift. change (0 .& 3) with 0. cbv iota beta.
  destruct (Z.eqb_spec n 0) as [-> | Hne]; [by rewrite Z.mul_1_r, w32_small |].
  rewrite <- Z.shiftl_mul_pow2 by done. unfold bit. rewrite Z.shiftl_spec by lia.
  destruct (Z.ltb_spec n 32); [done |]. rewrite Z.shiftl_mul_pow2, w32_mul_pow2 by done.
  destruct (Z.eqb_spec n 32) as [-> | ?]; [done |]. by rewrite Z.testbit_neg_r by lia.
Qed.

Lemma shift_lsr val n : uint 32 val → 0 < n →
  ∀ reg cin, barrel_shift val 1 n reg cin = (val / 2 ^ n, bit val (n - 1)).
Proof.
  intros Hv Hn reg cin. unfold barrel_shift. change (1 .& 3) with 1. cbv iota beta.
  replace (n =? 0) with false by lia.
  rewrite <- Z.shiftr_div_pow2 by lia. destruct (Z.ltb_spec n 32); [done |].
  assert (Z.shiftr val n = 0) as ->.
  { rewrite Z.shiftr_div_pow2 by lia. apply Z.div_small. destruct Hv.
    assert (2 ^ 32 <= 2 ^ n) by (apply Z.pow_le_mono_r; lia). lia. }
  destruct (Z.eqb_spec n 32) as [-> | ?]; [done |]. unfold bit.
  by rewrite (uint_high 32 val (n - 1) Hv) by lia.
Qed.

Lemma shift_asr val n : uint 32 val → 0 < n →
  ∀ reg cin, barrel_shift val 2 n reg cin = (w32 (s32 val / 2 ^ n), bit (s32 val) (n - 1)).
Proof.
  intros Hv Hn reg cin. unfold barrel_shift. change (2 .& 3) with 2. cbv iota beta zeta.
  replace (n =? 0) with false by lia. unfold bit. rewrite testbit_s32 by (done || lia).
  rewrite <- Z.shiftr_div_pow2 by lia. destruct (Z.ltb_spec n 32).
  - by replace (n - 1 <? 32) with true by lia.
  - rewrite Z.shiftr_div_pow2, s32_div_big by (done || lia). f_equal.
    destruct (Z.ltb_spec (n - 1) 32); [by replace (n - 1) with 31 by lia | done].
Qed.

(** the barrel shifter computes multiplication, division and rotation.  For every
    word, type and amount 0..255 (register form) or 0..31 (immediate form, where LSR
    and ASR read zero as 32 and ROR reads it as RRX): LSL multiplies by [2^n] modulo
    [2^32], LSR and ASR divide the unsigned and the signed value by [2^n] rounding
    down, ROR rotates by [n] modulo 32; the carry-out is the last bit shifted out, and
    the carry-in when nothing is shifted. *)
Theorem barrel_shift_spec val type amount reg_amount cin :
  uint 32 val → 0 <= amount → 0 <= type <= 3 →
  let n := shift_amount type amount reg_amount in
  let '(res, cout) := barrel_shift val type amount reg_amount cin in
  if type =? 0 then
    res = w32 (val * 2 ^ n) ∧ cout = (if n =? 0 then cin else bit (val * 2 ^ n) 32)
  else if type =? 1 then
    res = val / 2 ^ n ∧ cout = (if n =? 0 then cin else bit val (n - 1))
  else if type =? 2 then
    res = w32 (s32 val / 2 ^ n) ∧ cout = (if n =? 0 then cin else bit (s32 val) (n - 1))
  else if (amount =? 0) && negb reg_amount then
    res = Z.b2z cin * 2 ^ 31 + val / 2 ∧ cout = bit val 0
  else
    (∀ i, 0 <= i < 32 → bit res i = bit val ((i + n) mod 32)) ∧
    cout = (if n =? 0 then cin else bit res 31).
Proof.
  intros Hv Ha Ht n.
  assert (type = 0 ∨ type = 1 ∨ type = 2 ∨ type = 3) as [-> | [-> | [-> | ->]]] by lia;
    cbn [Z.eqb Pos.eqb].
  - assert (n = amount) as -> by (subst n; unfold shift_amount; by rewrite andb_false_r).
    by rewrite shift_lsl.
  - subst n. unfold shift_amount. destruct (Z.eqb_spec amount 0) as [-> | Hne]; simpl.
    + destruct reg_amount; [unfold barrel_shift; simpl; by rewrite Z.div_1_r |].
      change (barrel_shift val 1 0 false cin) with (barrel_shift val 1 32 false cin).
      by rewrite shift_lsr by (done || lia).
    + rewrite shift_lsr by (done || lia). by replace (amount =? 0) with false by lia.
  - subst n. unfold shift_amount. destruct (Z.eqb_spec amount 0) as [-> | Hne].
    + destruct reg_amount.
      * unfold barrel_shift. simpl. by rewrite Z.div_1_r, w32_s32.
      * change (barrel_shift val 2 0 false cin) with (barrel_shift val 2 32 false cin).
        by rewrite shift_asr by (done || lia).
    + rewrite shift_asr by (done || lia). simpl. by replace (amount =? 0) with false by lia.
  - assert (n = amount) as -> by (subst n; unfold shift_amount; by rewrite andb_false_r).
    unfold barrel_shift. change (3 .& 3) with 3. cbv iota beta zeta.
    destruct (Z.eqb_spec amount 0) as [-> | Hne]; cbn [andb negb].
    + destruct reg_amount; simpl.
      * split; [| done]. intros i Hi. by rewrite Z.add_0_r, Z.mod_small.
      * split; [| done]. rewrite Z.lor_comm.
        assert ((if cin then 1 else 0) .<< 31 = Z.shiftl (Z.b2z cin) 31) as -> by by destruct cin.
        rewrite Z.shiftr_div_pow2 by lia. rewrite lor_shift_add; [done | lia |].
        destruct Hv. split; [apply Z.div_pos; lia | apply Z.div_lt_upper_bound; lia].
    + assert (amount .& 31 = amount mod 32) as ->.
      { change 31 with (Z.ones 5). by rewrite Z.land_ones by lia. }
      pose proof (Z.mod_pos_bound amount 32 ltac:(lia)) as Hm.
      destruct (Z.eqb_spec (amount mod 32) 0) as [E | E].
      * split; [| done]. intros i Hi. unfold bit. rewrite <- Zplus_mod_idemp_r.
        by rewrite E, Z.add_0_r, Z.mod_small.
      * split; unfold bit.
        -- intros i Hi. rewrite testbit_ror by done. by rewrite Zplus_mod_idemp_r.
        -- rewrite testbit_ror by (done || lia). f_equal.
           apply (Z.mod_unique _ _ 1); lia.
Qed.

(** comparing and branching decides the order of the operands.  After
    CMP a, b the condition codes hold exactly when the numbers, read unsigned or in
    two's complement, stand in the named relation (signed overflow included), and the
    odd conditions are the negations of the even ones. *)
Theorem compare_conditions c a b :
  uint 32 a → uint 32 b →
  let '(r, c') := alu_sub c a b 1 true in
  r = w32 (a - b) ∧
  arm_cond_passed c' 0x0 = (a =? b) ∧
  arm_cond_passed c' 0x2 = (b <=? a) ∧
  arm_cond_passed c' 0x8 = (b <? a) ∧
  arm_cond_passed c' 0xa = (s32 b <=? s32 a) ∧
  arm_cond_passed c' 0xc = (s32 b <? s32 a) ∧
  (∀ cond, 0 <= cond < 14 → arm_cond_passed c' (cond .^ 1) = negb (arm_cond_passed c' cond)) ∧
  c' = set_cpsr (cpsr c') c.
Proof.
  intros Ha Hb. pose proof (compare_flags c a b Ha Hb) as Hf.
  pose proof (alu_add_value c a (wnot b) 1 true) as Hv.
  pose proof (alu_add_frame c a (wnot b) 1 true) as Hframe.
  change (alu_sub c a b 1 true) with (alu_add c a (wnot b) 1 true) in *.
  destruct (alu_add c a (wnot b) 1 true) as [r c']. simpl in Hv, Hf, Hframe.
  apply cond_nzcv in Hf as (Hn & Hz & Hc & Ho).
  split; [| split; [| split; [| split; [| split; [| split]]]]].
  - rewrite Hv, wnot_eq by done. apply wrap_eq; [lia |]. exists 1. lia.
  - unfold arm_cond_passed. simpl. by rewrite Hz.
  - unfold arm_cond_passed. simpl. by rewrite Hc.
  - unfold arm_cond_passed. simpl. rewrite Hc, Hz. lia.
  - unfold arm_cond_passed. simpl. rewrite Hn, Ho.
    pose proof (s32_range a Ha). pose proof (s32_range b Hb).
    destruct (_ && _), (Z.ltb_spec (s32 a) (s32 b)); simpl; lia.
  - unfold arm_cond_passed. simpl. rewrite Hz, Hn, Ho.
    assert (s32 a = s32 b ↔ a = b) as Hinj.
    { split; [| by intros ->]. intros E. by rewrite <- (w32_s32 a), <- (w32_s32 b), E. }
    destruct (_ && _), (Z.ltb_spec (s32 a) (s32 b)), (Z.eqb_spec a b); simpl; lia.
  - split; [intros cond Hcond; by apply cond_invert | done].
Qed.

(** ** Concrete inputs *)

Definition flat_cpu : arm_cpu :=
  MkCpu (fun i => i) ARM_ARCH_V6_ARM1176 0x13 cp15_zero (fun _ => 0) (fun _ => 0) (fun _ => 0)
    (fun _ => 0) (fun _ => 0) 0 false 0 0 false false false 0 0 0 (fun _ => 0)
    (MkCache (fun _ => MkTlb 0 0 0 0) 1 None 0 0 false (fun _ => MkBlk None 0 0)
       (fun _ => MkBlk None 0 0) (MkStamp 0 0 0 0 0 0) 0 0 0 0 0 0 0).

Lemma barrel_shift_spec_witness :
  barrel_shift 0x80000001 2 0 false false = (0xffffffff, true) ∧
  fst (barrel_shift 0x80000001 2 0 false false) = w32 (s32 0x80000001 / 2 ^ 32).
Proof.
  split; [reflexivity |].
  apply (barrel_shift_spec 0x80000001 2 0 false false); [split; lia | lia | lia].
Defined.

Lemma compare_conditions_witness :
  arm_cond_passed (snd (alu_sub flat_cpu 0x80000000 1 1 true)) 0xa = false ∧
  arm_cond_passed (snd (alu_sub flat_cpu 0x80000000 1 1 true)) 0xa =
    (s32 1 <=? s32 0x80000000).
Proof.
  split; [reflexivity |].
  apply (compare_conditions flat_cpu 0x80000000 1); [split; lia | split; lia].
Defined.
