(* ===== verification/ExecDp.v ===== *)
(** * Data processing, the miscellaneous space and branches

    [exec_data_processing] and [exec_branch] of [core/src/arm/arm_interp.c].  An
    instruction group is a function of the core, the address [pc] of the
    instruction, its encoding [insn] and the successor address [next] computed so
    far; it returns its status, the new successor and the new core.  The C function
    is one body; its early-return blocks (MOVW/MOVT, the miscellaneous space) are
    separate definitions here, composed in the same order. *)

From S2P Require Import Prelude State Cpu Alu.

(** Status, successor address and core after an instruction. *)
Definition outcome : Type := arm_status * Z * arm_cpu.

(** The destination register field. *)
Definition rd_of (insn : Z) : Z := fld insn 12 0xf.
Definition rn_of (insn : Z) : Z := fld insn 16 0xf.
Definition rm_of (insn : Z) : Z := insn .& 0xf.

(** [c->r[rd] = v; return ARM_OK;] *)
Definition write_rd (c : arm_cpu) (rd v next : Z) : outcome := (ARM_OK, next, set_reg rd v c).

Definition arch_is_v7 (c : arm_cpu) : bool :=
  match arch c with ARM_ARCH_V7_SWIFT => true | ARM_ARCH_V6_ARM1176 => false end.

Definition exec_movw_movt (c : arm_cpu) (insn next : Z) : outcome :=
  let rd := rd_of insn in
  let imm16 := ((insn .>> 4) .& 0xf000) .| (insn .& 0x0fff) in
  if rd =? 15 then (ARM_UNDEFINED, next, c)
  else write_rd c rd (if bit insn 22 then (r c rd .& 0x0000ffff) .| (imm16 .<< 16) else imm16) next.

(** The interworking branch shared by BX and BLX (register). *)
Definition bx_target (c : arm_cpu) (t : Z) : outcome :=
  (ARM_OK, t .& wnot 1, if bit t 0 then set_cpsr (cpsr c .| ARM_CPSR_T) c else c).

Definition exec_bx (c : arm_cpu) (pc insn next : Z) : outcome :=
  let t := reg_read c pc (rm_of insn) in
  if (t .& 3) =? 2 then (ARM_UNDEFINED, next, c) else bx_target c t.

Definition exec_blx_reg (c : arm_cpu) (pc insn next : Z) : outcome :=
  if rm_of insn =? 15 then (ARM_UNDEFINED, next, c)
  else
    let t := reg_read c pc (rm_of insn) in
    if (t .& 3) =? 2 then (ARM_UNDEFINED, next, c)
    else bx_target (set_reg 14 (pc +w 4) c) t.

(** [while (!(v & 0x80000000)) { v <<= 1; n++; }] *)
Fixpoint clz_loop (fuel : nat) (v n : Z) : Z :=
  match fuel with
  | O => n
  | S fuel => if bit v 31 then n else clz_loop fuel (v .<< 1) (n + 1)
  end.

Definition clz (v : Z) : Z := if v =? 0 then 32 else clz_loop 32 v 0.

Definition exec_clz (c : arm_cpu) (pc insn next : Z) : outcome :=
  write_rd c (rd_of insn) (clz (reg_read c pc (rm_of insn))) next.

Definition INT32_MAX := 0x7fffffff.
Definition INT32_MIN := -0x80000000.

(** Clamp to [int32_t], with the saturation indicator. *)
Definition clamp32 (x : Z) : Z * bool :=
  let '(x, sat) := if INT32_MAX <? x then (INT32_MAX, true) else (x, false) in
  if x <? INT32_MIN then (INT32_MIN, true) else (x, sat).

Definition saturating_op (op m n : Z) : Z * bool :=
  let '(n, sat1) := if (op =? 2) || (op =? 3) then clamp32 (n * 2) else (n, false) in
  let acc := if (op =? 0) || (op =? 2) then m + n else m - n in
  let '(acc, sat2) := clamp32 acc in
  (w32 acc, sat1 || sat2).

Definition set_q (c : arm_cpu) (sat : bool) : arm_cpu :=
  if sat then set_cpsr (cpsr c .| ARM_CPSR_Q) c else c.

Definition exec_saturating (c : arm_cpu) (pc insn next : Z) : outcome :=
  let op := fld insn 21 3 in
  let m := s32 (reg_read c pc (rm_of insn)) in
  let n := s32 (reg_read c pc (rn_of insn)) in
  let '(v, sat) := saturating_op op m n in
  (ARM_OK, next, set_q (set_reg (rd_of insn) v c) sat).

Definition exec_mrs (c : arm_cpu) (insn next : Z) : outcome :=
  let from_spsr := bit insn 22 in
  let bank := arm_bank_of_mode (cpsr c) in
  if from_spsr && bank_eqb bank ARM_BANK_USR then (ARM_UNDEFINED, next, c)
  else write_rd c (rd_of insn) (if from_spsr then spsr c bank else cpsr c) next.

Definition msr_mask (fields : Z) : Z :=
  (((if bit fields 0 then 0x000000ff else 0) .| (if bit fields 1 then 0x0000ff00 else 0)) .|
   (if bit fields 2 then 0x00ff0000 else 0)) .| (if bit fields 3 then 0xff000000 else 0).

Definition exec_msr (c : arm_cpu) (pc insn next : Z) : outcome :=
  let to_spsr := bit insn 22 in
  let bank := arm_bank_of_mode (cpsr c) in
  let has_spsr := negb (bank_eqb bank ARM_BANK_USR) in
  let val := if bit insn 25 then ror32 (insn .& 0xff) (fld insn 8 0xf * 2)
             else reg_read c pc (insn .& 0xf) in
  let mask := msr_mask (fld insn 16 0xf) in
  if to_spsr then
    if negb has_spsr then (ARM_UNDEFINED, next, c)
    else (ARM_OK, next,
          set_spsr (<[bank := (spsr c bank .& wnot mask) .| (val .& mask)]> (spsr c)) c)
  else
    let mask := if negb has_spsr && (mode_of c =? ARM_MODE_USR)
                then mask .& 0xff000000 else mask in
    let newcpsr := (cpsr c .& wnot mask) .| (val .& mask) in
    if negb ((mask .& ARM_CPSR_MODE_MASK) =? 0) && negb (arm_mode_is_valid newcpsr)
    then (ARM_UNDEFINED, next, c)
    else if negb ((mask .& 0x1f) =? 0) &&
            negb ((newcpsr .& ARM_CPSR_MODE_MASK) =? mode_of c)
    then (ARM_OK, next, restore_psr c newcpsr)
    else (ARM_OK, next, set_cpsr newcpsr c).

(** Opcodes 0x8..0xb with S clear. *)
Definition exec_miscellaneous (c : arm_cpu) (pc insn next : Z) : outcome :=
  if (insn .& 0x0ffffff0) =? 0x012fff10 then exec_bx c pc insn next
  else if (insn .& 0x0ffffff0) =? 0x012fff30 then exec_blx_reg c pc insn next
  else if (insn .& 0x0fff0ff0) =? 0x016f0f10 then exec_clz c pc insn next
  else if (insn .& 0x0f900ff0) =? 0x01000050 then exec_saturating c pc insn next
  else if (insn .& 0x0fbf0fff) =? 0x010f0000 then exec_mrs c insn next
  else if ((insn .& 0x0fb0fff0) =? 0x0120f000) || ((insn .& 0x0fb0f000) =? 0x0320f000)
  then exec_msr c pc insn next
  else (ARM_UNDEFINED, next, c).

(** The sixteen operations: the result to write, [None] for the comparisons. *)
Definition alu_op (c : arm_cpu) (opcode a op2 cin : Z) (carry set : bool)
    : option Z * arm_cpu :=
  let logic res set := alu_logic_flags c res carry set in
  let arith (x : Z * arm_cpu) := (Some (fst x), snd x) in
  match opcode with
  | 0x0 => (Some (a .& op2), logic (a .& op2) set)
  | 0x1 => (Some (a .^ op2), logic (a .^ op2) set)
  | 0x2 => arith (alu_sub c a op2 1 set)
  | 0x3 => arith (alu_sub c op2 a 1 set)
  | 0x4 => arith (alu_add c a op2 0 set)
  | 0x5 => arith (alu_add c a op2 cin set)
  | 0x6 => arith (alu_sub c a op2 cin set)
  | 0x7 => arith (alu_sub c op2 a cin set)
  | 0x8 => (None, logic (a .& op2) true)
  | 0x9 => (None, logic (a .^ op2) true)
  | 0xa => (None, snd (alu_sub c a op2 1 true))
  | 0xb => (None, snd (alu_add c a op2 0 true))
  | 0xc => (Some (a .| op2), logic (a .| op2) set)
  | 0xd => (Some op2, logic op2 set)
  | 0xe => (Some (a .& wnot op2), logic (a .& wnot op2) set)
  | _ => (Some (wnot op2), logic (wnot op2) set)
  end.

(** [*next = res & ((c->cpsr & T) ? ~1u : ~3u)]: align for the set we land in. *)
Definition align_for_state (c : arm_cpu) (a : Z) : Z :=
  a .& (if (cpsr c .& ARM_CPSR_T) =? 0 then wnot 3 else wnot 1).

(** Write the result; a write to r15 branches, and with S set also restores the
    saved PSR. *)
Definition alu_write (c : arm_cpu) (rd res next : Z) (set : bool) : outcome :=
  let c := set_reg rd res c in
  if rd =? 15 then
    let b := arm_bank_of_mode (cpsr c) in
    let c := if set && negb (bank_eqb b ARM_BANK_USR) then restore_psr c (spsr c b) else c in
    (ARM_OK, align_for_state c res, c)
  else (ARM_OK, next, c).

(** The refusals that precede any change of state. *)
Definition dp_refused (c : arm_cpu) (insn : Z) : bool :=
  let opcode := fld insn 21 0xf in
  let rd := rd_of insn in
  let forbidden_r15 :=
    negb (bit insn 25) && bit insn 4 &&
    ((rd =? 15) || (rn_of insn =? 15) || (rm_of insn =? 15) || (fld insn 8 0xf =? 15)) in
  let b := arm_bank_of_mode (cpsr c) in
  let bad_return :=
    ((opcode <? 8) || (12 <=? opcode)) && (rd =? 15) && bit insn 20 &&
    (bank_eqb b ARM_BANK_USR || negb (arm_mode_is_valid (spsr c b))) in
  forbidden_r15 || bad_return.

Definition exec_alu (c : arm_cpu) (pc insn next : Z) : outcome :=
  let set := bit insn 20 in
  if dp_refused c insn then (ARM_UNDEFINED, next, c)
  else
    let '(op2, carry) := dp_operand2 c pc insn (get_flag c ARM_CPSR_C) in
    let a := reg_read c pc (rn_of insn) in
    let cin := if get_flag c ARM_CPSR_C then 1 else 0 in
    let '(res, c) := alu_op c (fld insn 21 0xf) a op2 cin carry set in
    match res with
    | Some res => alu_write c (rd_of insn) res next set
    | None => (ARM_OK, next, c)
    end.

Definition exec_data_processing (c : arm_cpu) (pc insn next : Z) : outcome :=
  let opcode := fld insn 21 0xf in
  if arch_is_v7 c && ((insn .& 0x0fb00000) =? 0x03000000) then exec_movw_movt c insn next
  else if (8 <=? opcode) && (opcode <=? 0xb) && negb (bit insn 20)
  then exec_miscellaneous c pc insn next
  else exec_alu c pc insn next.

Definition exec_branch (c : arm_cpu) (pc insn next : Z) : outcome :=
  let off := Z.shiftr (s32 (insn .<< 8)) 6 in
  let c := if bit insn 24 then set_reg 14 (pc +w 4) c else c in
  (ARM_OK, (w32 (pc + 8 + off)) .& wnot 3, c).
