(* ===== verification/ExecMul.v ===== *)
(** * Multiplies

    [exec_multiply], [exec_multiply_long] and [exec_dsp_multiply] of
    [core/src/arm/arm_interp.c].  None of them changes the successor address, so
    they return a status and a core. *)

From S2P Require Import Prelude State Cpu Alu.

(** The multiply groups place Rd at 19:16, Rn at 15:12, Rs at 11:8, Rm at 3:0. *)
Definition rs_of (insn : Z) : Z := fld insn 8 0xf.

Definition exec_multiply (c : arm_cpu) (pc insn : Z) : arm_status * arm_cpu :=
  let rd := fld insn 16 0xf in
  let rn := fld insn 12 0xf in
  let rm := insn .& 0xf in
  let res := reg_read c pc rm *w reg_read c pc (rs_of insn) in
  let res := if bit insn 21 then res +w reg_read c pc rn else res in
  let c := set_reg rd res c in
  let c := if bit insn 20
           then set_flag (set_flag c ARM_CPSR_N (bit res 31)) ARM_CPSR_Z (res =? 0) else c in
  (ARM_OK, c).

(** [(hi << 32) | lo] on [uint64_t]. *)
Definition join64 (hi lo : Z) : Z := Z.shiftl hi 32 .| lo.

Definition exec_multiply_long (c : arm_cpu) (pc insn : Z) : arm_status * arm_cpu :=
  let rdhi := fld insn 16 0xf in
  let rdlo := fld insn 12 0xf in
  let rs := rs_of insn in
  let rm := insn .& 0xf in
  if (rdhi =? 15) || (rdlo =? 15) || (rs =? 15) || (rm =? 15) || (rdhi =? rdlo)
  then (ARM_UNDEFINED, c)
  else
    let a := reg_read c pc rm in
    let b := reg_read c pc rs in
    let res := w64 (if bit insn 22 then s32 a * s32 b else a * b) in
    let res := if bit insn 21 then w64 (res + join64 (r c rdhi) (r c rdlo)) else res in
    let c := set_reg rdlo (w32 res) c in
    let c := set_reg rdhi (w32 (res .>> 32)) c in
    let c := if bit insn 20
             then set_flag (set_flag c ARM_CPSR_N (bit res 63)) ARM_CPSR_Z (res =? 0) else c in
    (ARM_OK, c).

Definition dsp_signed_half (value : Z) (top : bool) : Z :=
  let half := (value .>> (if top then 16 else 0)) .& 0xffff in
  if (half .& 0x8000) =? 0 then half else half - 65536.

Definition dsp_signed_word (value : Z) : Z :=
  if (value .& 0x80000000) =? 0 then value else value - 4294967296.

(** The result and the core with the sticky Q updated. *)
Definition dsp_accumulate_word (c : arm_cpu) (product accumulator : Z) : Z * arm_cpu :=
  let sum := product + dsp_signed_word accumulator in
  let c := if (0x7fffffff <? sum) || (sum <? -0x80000000)
           then set_cpsr (cpsr c .| ARM_CPSR_Q) c else c in
  (w32 sum, c).

Definition dsp_write (rd : Z) (vc : Z * arm_cpu) : arm_status * arm_cpu :=
  (ARM_OK, set_reg rd (fst vc) (snd vc)).

Definition exec_dsp_multiply (c : arm_cpu) (insn : Z) : arm_status * arm_cpu :=
  let rd := fld insn 16 0xf in
  let rn := fld insn 12 0xf in
  let rs := rs_of insn in
  let rm := insn .& 0xf in
  let x := bit insn 5 in
  let y := bit insn 6 in
  let src15 := (rs =? 15) || (rm =? 15) in
  let halves := dsp_signed_half (r c rm) x * dsp_signed_half (r c rs) y in
  let word_half := dsp_signed_word (r c rm) * dsp_signed_half (r c rs) y in
  if (insn .& 0x0ff00090) =? 0x01000080 then
    if (rd =? 15) || (rn =? 15) || src15 then (ARM_UNDEFINED, c)
    else dsp_write rd (dsp_accumulate_word c halves (r c rn))
  else if (insn .& 0x0ff000b0) =? 0x01200080 then
    if (rd =? 15) || (rn =? 15) || src15 then (ARM_UNDEFINED, c)
    else
      let upper := w32 (w64 word_half .>> 16) in
      dsp_write rd (dsp_accumulate_word c (dsp_signed_word upper) (r c rn))
  else if (insn .& 0x0ff0f0b0) =? 0x012000a0 then
    if (rd =? 15) || src15 then (ARM_UNDEFINED, c)
    else (ARM_OK, set_reg rd (w32 (w64 word_half .>> 16)) c)
  else if (insn .& 0x0ff00090) =? 0x01400080 then
    let rdhi := rd in
    let rdlo := rn in
    if (rdhi =? 15) || (rdlo =? 15) || src15 || (rdhi =? rdlo) then (ARM_UNDEFINED, c)
    else
      let accumulator := join64 (r c rdhi) (r c rdlo) in
      let result := w64 (accumulator + w64 halves) in
      (ARM_OK, set_reg rdhi (w32 (result .>> 32)) (set_reg rdlo (w32 result) c))
  else if (insn .& 0x0ff0f090) =? 0x01600080 then
    if (rd =? 15) || src15 then (ARM_UNDEFINED, c)
    else (ARM_OK, set_reg rd (w32 halves) c)
  else (ARM_UNDEFINED, c).
