(* ===== verification/ExecMedia.v ===== *)
(** * The ARMv6 media space

    [exec_media] of [core/src/arm/arm_interp.c]: extends, byte reversals, the
    parallel (SIMD) additions and subtractions with their GE flags, SEL, packing,
    division, dual and most-significant-word multiplies, sums of absolute
    differences and saturation.  The C function is one chain of early-return
    blocks; each block is a definition here and [exec_media] is the chain. *)

From S2P Require Import Prelude State Cpu Alu.

Definition media_result : Type := arm_status * arm_cpu.

Definition media_undefined (c : arm_cpu) : media_result := (ARM_UNDEFINED, c).
Definition media_write (c : arm_cpu) (rd v : Z) : media_result := (ARM_OK, set_reg rd v c).
Definition media_set_q (q : bool) (res : media_result) : media_result :=
  if q then (fst res, set_cpsr (cpsr (snd res) .| ARM_CPSR_Q) (snd res)) else res.

(** ** Extends *)

(** The paired forms: two independent 16-bit lanes. *)
Definition extend16_lanes (signed : bool) (v base : Z) : Z :=
  let ext x := if signed then w16 (sign_extend8 x) else w8 x in
  w16 (w16 base + ext v) .| Z.shiftl (w16 (w16 (base .>> 16) + ext (v .>> 16))) 16.

Definition media_extend (c : arm_cpu) (pc insn : Z) : media_result :=
  let op := fld insn 20 0xf in
  let rn := fld insn 16 0xf in
  let rd := fld insn 12 0xf in
  let rm := insn .& 0xf in
  let rot := fld insn 10 3 in
  if (rd =? 15) || (rm =? 15) then media_undefined c
  else
    let v := ror32 (reg_read c pc rm) (rot * 8) in
    if (op =? 0x8) || (op =? 0xc) then
      let base := if rn =? 15 then 0 else reg_read c pc rn in
      media_write c rd (extend16_lanes (op =? 0x8) v base)
    else
      let accumulate res :=
        media_write c rd (if rn =? 15 then res else res +w reg_read c pc rn) in
      match op with
      | 0xa => accumulate (sign_extend8 v)
      | 0xb => accumulate (sign_extend16 v)
      | 0xe => accumulate (v .& 0xff)
      | 0xf => accumulate (v .& 0xffff)
      | _ => media_undefined c
      end.

(** ** Byte reversals *)

Definition rev32 (v : Z) : Z :=
  ((((v .& 0xff) .<< 24) .| ((v .& 0xff00) .<< 8)) .| ((v .>> 8) .& 0xff00)) .|
  ((v .>> 24) .& 0xff).

Definition rev16 (v : Z) : Z :=
  ((((v .& 0x00ff) .<< 8) .| ((v .& 0xff00) .>> 8)) .| ((v .& 0x00ff0000) .<< 8)) .|
  ((v .& 0xff000000) .>> 8).

Definition revsh (v : Z) : Z :=
  sign_extend16 (w16 (((v .& 0xff) .<< 8) .| ((v .>> 8) .& 0xff))).

Definition media_rev (f : Z → Z) (c : arm_cpu) (pc insn : Z) : media_result :=
  let rd := fld insn 12 0xf in
  let rm := insn .& 0xf in
  if (rd =? 15) || (rm =? 15) then media_undefined c
  else media_write c rd (f (reg_read c pc rm)).

(** ** Parallel addition and subtraction *)

(** How one lane of class [cls] and operation [op] is reduced. *)
Record par_op := MkPar {
  p_byte : bool; p_sgn : bool; p_sat : bool; p_halve : bool; p_op : Z }.

Definition par_width (p : par_op) : Z := if p_byte p then 8 else 16.
Definition par_mask (p : par_op) : Z := if p_byte p then 0xff else 0xffff.

Definition par_clamp (lo hi v : Z) : Z :=
  let v := if v <? lo then lo else v in
  if hi <? v then hi else v.

(** Lane [i] subtracts. *)
Definition par_sub (p : par_op) (i : Z) : bool :=
  let is_sub := (p_op p =? 3) || (p_op p =? 7) in
  let sub := if p_op p =? 1 then i =? 0 else is_sub in
  if p_op p =? 2 then i =? 1 else sub.

(** One lane: the 32-bit [lane] before masking, and its GE condition. *)
Definition par_lane (p : par_op) (sub : bool) (am bm : Z) : Z * bool :=
  let w := par_width p in
  let as_ := if p_sgn p then sgn w am else am in
  let bs := if p_sgn p then sgn w bm else bm in
  let sv := if sub then as_ - bs else as_ + bs in
  let uv := w64 (if sub then am - bm else am + bm) in
  let su := if sub then am - bm else am + bm in
  let lane :=
    if p_halve p then w32 (Z.shiftr (if p_sgn p then sv else su) 1)
    else if p_sat p then
      if p_sgn p
      then w32 (par_clamp (if p_byte p then -128 else -32768)
                          (if p_byte p then 127 else 32767) sv)
      else w32 (par_clamp 0 (if p_byte p then 255 else 65535) su)
    else w32 (if p_sgn p then w64 sv else uv) in
  let ge := if p_sgn p then 0 <=? sv
            else if sub then bm <=? am else par_mask p <? uv in
  (lane, ge).

Definition par_step (p : par_op) (a b : Z) (i : Z) (acc : Z * Z) : Z * Z :=
  let '(result, ge) := acc in
  let w := par_width p in
  let exchange := negb (p_byte p) && ((p_op p =? 1) || (p_op p =? 2)) in
  let am := (a .>> (i * w)) .& par_mask p in
  let bi := if exchange then 1 - i else i in
  let bm := (b .>> (bi * w)) .& par_mask p in
  let '(lane, set) := par_lane p (par_sub p i) am bm in
  (result .| ((lane .& par_mask p) .<< (i * w)),
   if set then ge .| (if p_byte p then Z.shiftl 1 i else Z.shiftl 3 (i * 2)) else ge).

Definition par_lanes (p : par_op) : nat := if p_byte p then 4%nat else 2%nat.

(** Result and GE bits of the whole operation. *)
Definition parallel (p : par_op) (a b : Z) : Z * Z :=
  for_range (par_lanes p) 0 (par_step p a b) (0, 0).

Definition media_parallel (c : arm_cpu) (pc insn : Z) : media_result :=
  let cls := fld insn 20 7 in
  let op := fld insn 5 7 in
  let rn := fld insn 16 0xf in
  let rd := fld insn 12 0xf in
  let rm := insn .& 0xf in
  if (cls =? 0) || (cls =? 4) then media_undefined c
  else if (op =? 5) || (op =? 6) then media_undefined c
  else if (rd =? 15) || (rn =? 15) || (rm =? 15) then media_undefined c
  else
    let p := MkPar ((op =? 4) || (op =? 7)) ((cls =? 1) || (cls =? 2) || (cls =? 3))
               ((cls =? 2) || (cls =? 6)) ((cls =? 3) || (cls =? 7)) op in
    let '(result, ge) := parallel p (reg_read c pc rn) (reg_read c pc rm) in
    let c := set_reg rd result c in
    let c := if (cls =? 1) || (cls =? 5)
             then set_cpsr ((cpsr c .& wnot 0xf0000) .| Z.shiftl (ge .& 0xf) 16) c else c in
    (ARM_OK, c).

(** ** Division (ARMv7 only) *)

Definition sdiv32 (n m : Z) : Z :=
  if m =? 0 then 0
  else if (n =? 0x80000000) && (m =? 0xffffffff) then 0x80000000
  else w32 (Z.quot (s32 n) (s32 m)).

Definition udiv32 (n m : Z) : Z := if m =? 0 then 0 else n / m.

Definition media_divide (c : arm_cpu) (insn : Z) : media_result :=
  let rd := fld insn 16 0xf in
  let rm := fld insn 8 0xf in
  let rn := insn .& 0xf in
  match arch c with
  | ARM_ARCH_V6_ARM1176 => media_undefined c
  | ARM_ARCH_V7_SWIFT =>
    if (rd =? 15) || (rn =? 15) || (rm =? 15) then media_undefined c
    else media_write c rd ((if bit insn 21 then udiv32 else sdiv32) (r c rn) (r c rm))
  end.

(** ** Packing and selection *)

Definition pack_halfword (tb : bool) (imm5 n m : Z) : Z :=
  if tb then
    let shifted := w32 (Z.shiftr (s32 m) (if imm5 =? 0 then 31 else imm5)) in
    (n .& 0xffff0000) .| (shifted .& 0x0000ffff)
  else
    let shifted := if imm5 =? 0 then m else m .<< imm5 in
    (n .& 0x0000ffff) .| (shifted .& 0xffff0000).

Definition media_pack (c : arm_cpu) (pc insn : Z) : media_result :=
  let rn := fld insn 16 0xf in
  let rd := fld insn 12 0xf in
  let rm := insn .& 0xf in
  if (rd =? 15) || (rn =? 15) || (rm =? 15) then media_undefined c
  else media_write c rd
         (pack_halfword (bit insn 6) (fld insn 7 0x1f) (reg_read c pc rn) (reg_read c pc rm)).

Definition select_bytes (ge n m : Z) : Z :=
  for_range 4 0 (fun lane out =>
    let mask := 0xff .<< (lane * 8) in
    out .| (if bit ge lane then n .& mask else m .& mask)) 0.

Definition media_sel (c : arm_cpu) (pc insn : Z) : media_result :=
  let rn := fld insn 16 0xf in
  let rd := fld insn 12 0xf in
  let rm := insn .& 0xf in
  if (rd =? 15) || (rn =? 15) || (rm =? 15) then media_undefined c
  else media_write c rd
         (select_bytes (fld (cpsr c) 16 0xf) (reg_read c pc rn) (reg_read c pc rm)).

(** ** Dual multiplies *)

(** The two signed 16x16 products, after the optional halfword swap of [m]. *)
Definition dual_products (swap : bool) (n m : Z) : Z * Z :=
  let m := if swap then (m .>> 16) .| (m .<< 16) else m in
  (s16 (n .& 0xffff) * s16 (m .& 0xffff), s16 (n .>> 16) * s16 (m .>> 16)).

Definition dual_sum (sub swap : bool) (n m : Z) : Z :=
  let '(p1, p2) := dual_products swap n m in
  if sub then p1 - p2 else p1 + p2.

Definition media_smlad (c : arm_cpu) (pc insn : Z) : media_result :=
  let rd := fld insn 16 0xf in
  let ra := fld insn 12 0xf in
  let rm := fld insn 8 0xf in
  let rn := insn .& 0xf in
  if (rd =? 15) || (rm =? 15) || (rn =? 15) then media_undefined c
  else
    let acc := dual_sum (bit insn 6) (bit insn 5) (reg_read c pc rn) (reg_read c pc rm) in
    let acc := if ra =? 15 then acc else acc + s32 (reg_read c pc ra) in
    let c := if negb (acc =? s32 acc) then set_cpsr (cpsr c .| ARM_CPSR_Q) c else c in
    media_write c rd (w32 (w64 acc .& 0xffffffff)).

(** The exact sum of SMLALD's [int64_t] accumulation; the C addition is only
    defined while it fits [int64_t], and the wrapped value is what two's-complement
    hosts compute. *)
Definition smlald_sum (sub swap : bool) (n m hi lo : Z) : Z :=
  s64 (Z.shiftl hi 32 .| lo) + dual_sum sub swap n m.

Definition media_smlald (c : arm_cpu) (pc insn : Z) : media_result :=
  let rdhi := fld insn 16 0xf in
  let rdlo := fld insn 12 0xf in
  let rm := fld insn 8 0xf in
  let rn := insn .& 0xf in
  if (rdhi =? 15) || (rdlo =? 15) || (rm =? 15) || (rn =? 15) || (rdhi =? rdlo)
  then media_undefined c
  else
    let acc := w64 (smlald_sum (bit insn 6) (bit insn 5) (reg_read c pc rn)
                      (reg_read c pc rm) (reg_read c pc rdhi) (reg_read c pc rdlo)) in
    let c := set_reg rdlo (w32 (acc .& 0xffffffff)) c in
    media_write c rdhi (w32 (acc .>> 32)).

(** SMMUL's exact [int64_t] expression, with the same remark. *)
Definition smmul_sum (sub round : bool) (n m : Z) (ra : option Z) : Z :=
  let prod := s32 n * s32 m in
  let acc := match ra with None => 0 | Some a => Z.shiftl (s32 a) 32 end in
  let res := if sub then acc - prod else acc + prod in
  if round then res + 0x80000000 else res.

Definition media_smmul (c : arm_cpu) (pc insn : Z) : media_result :=
  let sel := fld insn 6 3 in
  if negb (sel =? 0) && negb (sel =? 3) then media_undefined c
  else
    let rd := fld insn 16 0xf in
    let ra := fld insn 12 0xf in
    let rm := fld insn 8 0xf in
    let rn := insn .& 0xf in
    let sub := sel =? 3 in
    if (rd =? 15) || (rm =? 15) || (rn =? 15) then media_undefined c
    else if sub && (ra =? 15) then media_undefined c
    else
      let res := smmul_sum sub (bit insn 5) (reg_read c pc rn) (reg_read c pc rm)
                   (if ra =? 15 then None else Some (reg_read c pc ra)) in
      media_write c rd (w32 (w64 res .>> 32)).

Definition usad8 (n m sum : Z) : Z :=
  for_range 4 0 (fun lane sum =>
    let a := (n .>> (lane * 8)) .& 0xff in
    let b := (m .>> (lane * 8)) .& 0xff in
    sum +w (if b <? a then a - b else b - a)) sum.

Definition media_usad8 (c : arm_cpu) (pc insn : Z) : media_result :=
  let rd := fld insn 16 0xf in
  let ra := fld insn 12 0xf in
  let rm := fld insn 8 0xf in
  let rn := insn .& 0xf in
  if (rd =? 15) || (rm =? 15) || (rn =? 15) then media_undefined c
  else media_write c rd
         (usad8 (reg_read c pc rn) (reg_read c pc rm)
                (if ra =? 15 then 0 else reg_read c pc ra)).

(** ** Saturation *)

Definition saturate (uns : bool) (value sat_field : Z) : Z * bool :=
  if uns then unsigned_saturate value sat_field else signed_saturate value (sat_field + 1).

Definition media_ssat (c : arm_cpu) (pc insn : Z) : media_result :=
  let rd := fld insn 12 0xf in
  let rn := insn .& 0xf in
  if (rd =? 15) || (rn =? 15) then media_undefined c
  else
    let shifted := fst (barrel_shift (reg_read c pc rn) (if bit insn 6 then 2 else 0)
                          (fld insn 7 0x1f) false false) in
    let value := if (shifted .& 0x80000000) =? 0 then shifted else shifted - 0x100000000 in
    let '(v, saturated) := saturate (bit insn 22) value (fld insn 16 0x1f) in
    media_set_q saturated (media_write c rd v).

(** Lane [lane] of SSAT16/USAT16: result so far and the shared flag. *)
Definition sat16_step (uns : bool) (sat_field source lane : Z) (acc : Z * bool) : Z * bool :=
  let '(result, saturated) := acc in
  let raw := (source .>> (lane * 16)) .& 0xffff in
  let value := if (raw .& 0x8000) =? 0 then raw else raw - 0x10000 in
  let '(clamped, s) := saturate uns value sat_field in
  (result .| ((clamped .& 0xffff) .<< (lane * 16)), saturated || s).

Definition media_ssat16 (c : arm_cpu) (pc insn : Z) : media_result :=
  let rd := fld insn 12 0xf in
  let rn := insn .& 0xf in
  if (rd =? 15) || (rn =? 15) then media_undefined c
  else
    let '(v, saturated) :=
      for_range 2 0 (sat16_step (bit insn 22) (fld insn 16 0xf) (reg_read c pc rn))
        (0, false) in
    media_set_q saturated (media_write c rd v).

(** ** The chain *)

Definition exec_media (c : arm_cpu) (pc insn : Z) : media_result :=
  if (insn .& 0x0f8003f0) =? 0x06800070 then media_extend c pc insn
  else if (insn .& 0x0fff0ff0) =? 0x06bf0f30 then media_rev rev32 c pc insn
  else if (insn .& 0x0fff0ff0) =? 0x06bf0fb0 then media_rev rev16 c pc insn
  else if (insn .& 0x0fff0ff0) =? 0x06ff0fb0 then media_rev revsh c pc insn
  else if (insn .& 0x0f800f10) =? 0x06000f10 then media_parallel c pc insn
  else if (insn .& 0x0fd0f0f0) =? 0x0710f010 then media_divide c insn
  else if (insn .& 0x0ff00030) =? 0x06800010 then media_pack c pc insn
  else if (insn .& 0x0ff00ff0) =? 0x06800fb0 then media_sel c pc insn
  else if (insn .& 0x0ff00090) =? 0x07000010 then media_smlad c pc insn
  else if (insn .& 0x0ff00090) =? 0x07400010 then media_smlald c pc insn
  else if (insn .& 0x0ff00010) =? 0x07500010 then media_smmul c pc insn
  else if (insn .& 0x0ff000f0) =? 0x07800010 then media_usad8 c pc insn
  else if (insn .& 0x0fa00030) =? 0x06a00010 then media_ssat c pc insn
  else if (insn .& 0x0fb00ff0) =? 0x06a00f30 then media_ssat16 c pc insn
  else media_undefined c.
