(* ===== verification/ArithFacts.v ===== *)
(** * What the arithmetic instructions compute

    Instruction-level facts about ExecDp.v, ExecMul.v and ExecMedia.v: saturating
    arithmetic against clamping, CLZ against the binary logarithm, the 64-bit
    multiplies against exact products, byte reversal, the SIMD lanes against
    independent narrow arithmetic. *)

From S2P Require Import Prelude State Cpu Alu AluFacts ExecDp ExecMul ExecMedia.

(** ** Saturation *)

Definition clamp (lo hi x : Z) : Z := Z.max lo (Z.min hi x).

Lemma clamp32_spec x :
  clamp32 x = (clamp INT32_MIN INT32_MAX x,
               negb ((INT32_MIN <=? x) && (x <=? INT32_MAX))).
Proof.
  unfold clamp32, clamp, INT32_MIN, INT32_MAX.
  destruct (Z.ltb_spec 0x7fffffff x); [destruct (Z.ltb_spec 0x7fffffff (-0x80000000)) |
    destruct (Z.ltb_spec x (-0x80000000))]; f_equal; lia.
Qed.

(** The exact result of QADD, QSUB, QDADD, QDSUB before the last clamp. *)
Definition q_exact (op m n : Z) : Z :=
  let n := if 2 <=? op then clamp INT32_MIN INT32_MAX (2 * n) else n in
  if Z.even op then m + n else m - n.

Definition q_saturates (op m n : Z) : bool :=
  ((2 <=? op) && negb ((INT32_MIN <=? 2 * n) && (2 * n <=? INT32_MAX))) ||
  negb ((INT32_MIN <=? q_exact op m n) && (q_exact op m n <=? INT32_MAX)).

Lemma saturating_op_spec op m n : 0 <= op <= 3 →
  saturating_op op m n =
  (w32 (clamp INT32_MIN INT32_MAX (q_exact op m n)), q_saturates op m n).
Proof.
  intros Hop. unfold saturating_op, q_saturates, q_exact.
  assert (op = 0 ∨ op = 1 ∨ op = 2 ∨ op = 3) as [-> | [-> | [-> | ->]]] by lia;
    cbn [Z.eqb Pos.eqb orb Z.leb Z.compare Pos.compare Pos.compare_cont Z.even andb];
    rewrite ?clamp32_spec, ?(Z.mul_comm n 2); done.
Qed.

(** ** Leading zeros *)

Lemma clz_loop_spec fuel : ∀ v n, 0 < v → uint 32 v → 2 ^ (32 - Z.of_nat fuel) <= v →
  (1 <= fuel <= 32)%nat →
  ∃ k, clz_loop fuel v n = n + k ∧ 0 <= k < Z.of_nat fuel ∧ 2 ^ 31 <= v * 2 ^ k < 2 ^ 32.
Proof.
  induction fuel as [| fuel IH]; intros v n Hv Hu Hlo Hf; [lia |]. cbn [clz_loop].
  rewrite bit31 by done. destruct (Z.leb_spec (2 ^ 31) v).
  { exists 0. destruct Hu. lia. }
  destruct fuel as [| fuel].
  { change (32 - Z.of_nat 1) with 31 in Hlo. lia. }
  assert (v .<< 1 = v * 2) as E.
  { rewrite Z.shiftl_mul_pow2 by lia. apply w32_small. split; lia. }
  rewrite E. destruct (IH (v * 2) (n + 1)) as (k & -> & Hk & Hr); [lia | split; lia | | lia |].
  { replace (32 - Z.of_nat (S fuel)) with (32 - Z.of_nat (S (S fuel)) + 1) by lia.
    rewrite Z.pow_add_r by lia. lia. }
  exists (k + 1). split; [lia |]. split; [lia |]. rewrite Z.pow_add_r by lia. lia.
Qed.

Lemma clz_spec v : uint 32 v →
  if v =? 0 then clz v = 32
  else 0 <= clz v <= 31 ∧ 2 ^ 31 <= v * 2 ^ clz v < 2 ^ 32.
Proof.
  intros Hu. unfold clz. destruct (Z.eqb_spec v 0) as [| Hne]; [done |].
  destruct (clz_loop_spec 32 v 0) as (k & -> & Hk & Hr);
    [destruct Hu; lia | done | change (32 - Z.of_nat 32) with 0; destruct Hu; lia | lia |].
  rewrite Z.add_0_l. lia.
Qed.

(** ** Long products *)

Lemma join64_val hi lo : uint 32 lo → join64 hi lo = hi * 2 ^ 32 + lo.
Proof. intros Hl. unfold join64. by apply lor_shift_add. Qed.

Lemma split64 x : uint 64 x → join64 (w32 (x .>> 32)) (w32 x) = x.
Proof.
  intros [H1 H2]. rewrite join64_val by apply uint_w32. rewrite Z.shiftr_div_pow2 by lia.
  rewrite w32_small by (split; [apply Z.div_pos; lia | apply Z.div_lt_upper_bound; lia]).
  unfold w32, wrap. pose proof (Z.div_mod x (2 ^ 32)). lia.
Qed.

(** ** Byte lanes *)

Definition byte_lane (x i : Z) : Z := (x .>> (8 * i)) .& 0xff.

Lemma testbit_byte_lane x i j : 0 <= i → 0 <= j →
  Z.testbit (byte_lane x i) j = (j <? 8) && Z.testbit x (j + 8 * i).
Proof.
  intros Hi Hj. unfold byte_lane. change 0xff with (mask 0 8). autorewrite with bitspec.
  replace (0 <=? j) with true by lia. rewrite Z.add_0_l. apply andb_comm.
Qed.

Lemma rev32_bit v k : uint 32 v → 0 <= k < 32 →
  Z.testbit (rev32 v) k = Z.testbit v (k mod 8 + 8 * (3 - k / 8)).
Proof.
  intros Hv Hk. unfold rev32.
  change 0xff with (mask 0 8). change 0xff00 with (mask 8 8).
  index32 k Hk; autorewrite with bitspec;
    repeat match goal with
           | |- context [?a <=? ?b] => let v := eval vm_compute in (a <=? b) in
                                       change (a <=? b) with v
           | |- context [?a <? ?b] => let v := eval vm_compute in (a <? b) in
                                      change (a <? b) with v
           end;
    rewrite ?andb_false_r, ?andb_true_r, ?andb_false_l, ?andb_true_l, ?orb_false_r, ?orb_false_l;
    rewrite ?(Z.testbit_neg_r v) by lia; rewrite ?andb_false_r, ?orb_false_r;
    rewrite ?(uint_high 32 v) by (done || lia); rewrite ?orb_false_r, ?orb_false_l; done.
Qed.

Lemma uint_rev32 v : uint 32 (rev32 v).
Proof. unfold rev32. solve_uint. Qed.

Lemma rev32_lane v i : uint 32 v → 0 <= i <= 3 → byte_lane (rev32 v) i = byte_lane v (3 - i).
Proof.
  intros Hv Hi. apply Z.bits_inj'. intros j Hj. rewrite !testbit_byte_lane by lia.
  destruct (Z.ltb_spec j 8); [| done]. cbn [andb]. rewrite rev32_bit by (done || lia). f_equal.
  replace (j + 8 * i) with (j + i * 8) by lia.
  rewrite Z.mod_add, Z.div_add, Z.mod_small, Z.div_small by lia. lia.
Qed.

Lemma rev32_involutive v : uint 32 v → rev32 (rev32 v) = v.
Proof.
  intros Hv. apply Z.bits_inj'. intros k Hk. destruct (Z_lt_le_dec k 32).
  - pose proof (Z.mod_pos_bound k 8 ltac:(lia)). pose proof (Z.div_mod k 8 ltac:(lia)).
    assert (0 <= k / 8 <= 3) by (split; [apply Z.div_pos | ]; lia).
    rewrite !rev32_bit by (apply uint_rev32 || done || lia). f_equal.
    replace (k mod 8 + 8 * (3 - k / 8)) with (k mod 8 + (3 - k / 8) * 8) by lia.
    rewrite Z.mod_add, Z.div_add, Zmod_mod, Z.div_small by lia. lia.
  - by rewrite (uint_high 32 (rev32 _) k (uint_rev32 _)), (uint_high 32 v k Hv) by lia.
Qed.

(** ** Registers of well-formed cores *)

Definition regs_ok (c : arm_cpu) : Prop := ∀ i, uint 32 (r c i).

Lemma reg_read_range c pc i : regs_ok c → uint 32 (reg_read c pc i).
Proof. intros Hr. unfold reg_read. destruct (_ =? _); [apply uint_w32 | apply Hr]. Qed.

#[export] Hint Resolve reg_read_range : word.

Lemma uint_fld x lo m w : 0 <= w → uint w m → uint w (fld x lo m).
Proof. intros. unfold fld. by apply uint_land_r. Qed.

Lemma set_flag_or_q c sat : set_q c sat = set_cpsr (if sat then cpsr c .| ARM_CPSR_Q else cpsr c) c.
Proof. destruct sat, c; done. Qed.

(** The sticky Q flag. *)
Lemma set_q_flags c sat : get_flag (set_q c sat) ARM_CPSR_Q = get_flag c ARM_CPSR_Q || sat ∧
  nzcv (set_q c sat) = nzcv c.
Proof.
  destruct sat; [| by rewrite orb_false_r].
  change (set_q c true) with (set_flag c (2 ^ 27) true). unfold nzcv.
  change ARM_CPSR_N with (2 ^ 31). change ARM_CPSR_Z with (2 ^ 30).
  change ARM_CPSR_C with (2 ^ 29). change ARM_CPSR_V with (2 ^ 28).
  change ARM_CPSR_Q with (2 ^ 27). rewrite !get_set_flag by lia.
  split; [by rewrite orb_true_r | done].
Qed.

(** The saturating additions QADD, QSUB, QDADD and QDSUB put the exact sum or
    difference clamped to 32 signed bits (of the operand doubled and clamped, for the
    doubling forms) in Rd, raise the sticky Q flag exactly when a clamp bit, and change
    no other register and no other arithmetic flag. *)
Theorem saturating_exact c pc insn next : regs_ok c →
  let op := fld insn 21 3 in
  let m := s32 (reg_read c pc (rm_of insn)) in
  let n := s32 (reg_read c pc (rn_of insn)) in
  ∃ c', exec_saturating c pc insn next = (ARM_OK, next, c') ∧
    s32 (r c' (rd_of insn)) = clamp INT32_MIN INT32_MAX (q_exact op m n) ∧
    (∀ i, i ≠ rd_of insn → r c' i = r c i) ∧
    get_flag c' ARM_CPSR_Q = get_flag c ARM_CPSR_Q || q_saturates op m n ∧
    nzcv c' = nzcv c.
Proof.
  intros Hr op m n. unfold exec_saturating. fold op m n.
  assert (0 <= op <= 3) as Hop.
  { destruct (uint_fld insn 21 3 2); [lia | by split | subst op; lia]. }
  rewrite saturating_op_spec by done. eexists. split; [done |].
  set (c1 := set_reg _ _ c). destruct (set_q_flags c1 (q_saturates op m n)) as [HQ HN].
  assert (∀ i, r (set_q c1 (q_saturates op m n)) i = r c1 i) as Hreg.
  { intros i. by destruct (q_saturates op m n). }
  split; [| split; [| split; [exact HQ | exact HN]]].
  - rewrite Hreg. unfold c1, set_reg. simpl. rewrite fn_lookup_insert.
    set (x := q_exact op m n).
    assert (-2 ^ 31 <= clamp INT32_MIN INT32_MAX x < 2 ^ 31).
    { unfold clamp, INT32_MIN, INT32_MAX. lia. }
    rewrite s32_val by apply uint_w32. unfold w32, wrap.
    destruct (Z_lt_le_dec (clamp INT32_MIN INT32_MAX x) 0).
    + rewrite <- (Z.mod_add _ 1), Z.mod_small by lia. rewrite (proj2 (Z.leb_le _ _)) by lia. lia.
    + rewrite Z.mod_small by lia. rewrite (proj2 (Z.leb_gt _ _)) by lia. lia.
  - intros i Hi. rewrite Hreg. unfold c1, set_reg. simpl. by apply fn_lookup_insert_ne.
Qed.

(** Operands at the edges of the signed range. *)
Definition edge_cpu : arm_cpu :=
  set_r (fun i => if i =? 3 then 0x7fffffff else if i =? 4 then 0x80008000 else 2) flat_cpu.

Lemma edge_regs : regs_ok edge_cpu.
Proof. intros i. unfold edge_cpu. simpl. repeat apply uint_if; by split. Qed.

Lemma saturating_exact_witness :
  fst (saturating_op 0 0x7fffffff 2) = 0x7fffffff ∧
  ∃ c', exec_saturating edge_cpu 0x1000 0xe1021053 0x1004 = (ARM_OK, 0x1004, c') ∧
    get_flag c' ARM_CPSR_Q = true.
Proof.
  split; [reflexivity |].
  destruct (saturating_exact edge_cpu 0x1000 0xe1021053 0x1004 edge_regs)
    as (c' & E & _ & _ & HQ & _).
  exists c'. split; [exact E | exact HQ].
Defined.

(** ** The long multiplies *)

Definition long_refused (insn : Z) : bool :=
  let rdhi := fld insn 16 0xf in
  let rdlo := fld insn 12 0xf in
  (rdhi =? 15) || (rdlo =? 15) || (rs_of insn =? 15) || (insn .& 0xf =? 15) || (rdhi =? rdlo).

Lemma bit_w64_63 x : bit (w64 x) 63 = (s64 x <? 0).
Proof.
  unfold s64, sgn. change (64 - 1) with 63. pose proof (uint_w64 x) as [H1 H2].
  unfold bit. destruct (Z.ltb_spec (w64 x) (2 ^ 63)).
  - rewrite (uint_high 63) by (lia || by split). symmetry. apply Z.ltb_ge. lia.
  - symmetry. rewrite (proj2 (Z.ltb_lt _ _)) by lia. symmetry. apply Z.testbit_true; [lia |].
    by rewrite <- (Z.div_unique (w64 x) (2 ^ 63) 1 (w64 x - 2 ^ 63)) by lia.
Qed.

(** The register pair a long multiply leaves, whatever the flags. *)
Lemma long_pair c hi lo x (f : arm_cpu → arm_cpu) :
  uint 64 x → hi ≠ lo → (∀ c, r (f c) = r c) →
  let c' := f (set_reg hi (w32 (x .>> 32)) (set_reg lo (w32 x) c)) in
  join64 (r c' hi) (r c' lo) = x ∧ (∀ i, i ≠ hi → i ≠ lo → r c' i = r c i).
Proof.
  intros Hx Hne Hf c'. unfold c'. rewrite Hf. unfold set_reg. simpl. split.
  - rewrite fn_lookup_insert, fn_lookup_insert_ne, fn_lookup_insert by congruence.
    by apply split64.
  - intros i H1 H2. by rewrite !fn_lookup_insert_ne by congruence.
Qed.

(** UMULL, UMLAL, SMULL and SMLAL leave in RdHi:RdLo the exact 64-bit product of
    the operands, read unsigned or signed, plus the old pair for the accumulating
    forms, modulo 2^64; with S set, N is the sign of that 64-bit value and Z tests it
    for zero, and without S the flags stay. *)
Theorem multiply_long_exact c pc insn : regs_ok c → long_refused insn = false →
  let hi := fld insn 16 0xf in
  let lo := fld insn 12 0xf in
  let a := reg_read c pc (insn .& 0xf) in
  let b := reg_read c pc (rs_of insn) in
  let exact := (if bit insn 22 then s32 a * s32 b else a * b) +
               (if bit insn 21 then r c hi * 2 ^ 32 + r c lo else 0) in
  ∃ c', exec_multiply_long c pc insn = (ARM_OK, c') ∧
    join64 (r c' hi) (r c' lo) = w64 exact ∧
    (∀ i, i ≠ hi → i ≠ lo → r c' i = r c i) ∧
    (if bit insn 20
     then get_flag c' ARM_CPSR_N = (s64 exact <? 0) ∧
          get_flag c' ARM_CPSR_Z = (w64 exact =? 0)
     else cpsr c' = cpsr c).
Proof.
  intros Hr Href hi lo a b exact. unfold exec_multiply_long. unfold long_refused in Href.
  cbv zeta in *. rewrite Href. assert (hi ≠ lo) as Hne.
  { apply orb_false_elim in Href as [_ Href]. by apply Z.eqb_neq. }
  fold hi lo a b.
  set (res := if bit insn 21 then _ else _).
  assert (res = w64 exact) as ->.
  { unfold res, exact. rewrite join64_val by apply Hr.
    destruct (bit insn 21); [| by rewrite Z.add_0_r]. unfold w64. apply wrap_add_l. }
  eexists. split; [reflexivity |]. destruct (bit insn 20).
  - set (f := fun c => set_flag (set_flag c ARM_CPSR_N (bit (w64 exact) 63))
                         ARM_CPSR_Z (w64 exact =? 0)).
    destruct (long_pair c hi lo (w64 exact) f (uint_w64 _) Hne ltac:(done)) as [H1 H2].
    split; [exact H1 | split; [exact H2 |]]. rewrite <- bit_w64_63.
    change ARM_CPSR_N with (2 ^ 31). change ARM_CPSR_Z with (2 ^ 30).
    by rewrite !get_set_flag by lia.
  - destruct (long_pair c hi lo (w64 exact) id (uint_w64 _) Hne ltac:(done)) as [H1 H2].
    split; [exact H1 | split; [exact H2 | done]].
Qed.

Lemma multiply_long_exact_witness :
  long_refused 0xe0d12493 = false ∧
  ∃ c', exec_multiply_long edge_cpu 0x1000 0xe0d12493 = (ARM_OK, c') ∧
    get_flag c' ARM_CPSR_N = (s64 (s32 0x7fffffff * s32 0x80008000) <? 0).
Proof.
  split; [reflexivity |].
  destruct (multiply_long_exact edge_cpu 0x1000 0xe0d12493 edge_regs eq_refl)
    as (c' & E & _ & _ & HN & _).
  exists c'. split; [exact E | exact HN].
Defined.

(** SMLALD accumulates in [int64_t]: this reachable operand combination leaves its
    range, where SMLAL and SMLALxy wrap in [uint64_t]. *)
Lemma smlald_overflows :
  smlald_sum false false 0x80008000 0x80008000 0x7fffffff 0x80000000 = 2 ^ 63.
Proof. reflexivity. Qed.

(** ** Parallel lanes *)

(** Lane [i] of a word, as a number. *)
Definition lane_of (w x i : Z) : Z := wrap w (x .>> (i * w)).

(** The reference: one lane of the operation on integers. *)
Definition lane_exact (p : par_op) (sub : bool) (am bm : Z) : Z :=
  let v x := if p_sgn p then sgn (par_width p) x else x in
  if sub then v am - v bm else v am + v bm.

Definition lane_reduce (p : par_op) (x : Z) : Z :=
  let w := par_width p in
  wrap w (if p_halve p then x / 2
          else if p_sat p then
            (if p_sgn p then clamp (- 2 ^ (w - 1)) (2 ^ (w - 1) - 1) x else clamp 0 (2 ^ w - 1) x)
          else x).

Definition lane_ge (p : par_op) (sub : bool) (x : Z) : bool :=
  if p_sgn p || sub then 0 <=? x else 2 ^ par_width p <=? x.

Lemma wrap_wrap v w x : 0 <= v <= w → wrap v (wrap w x) = wrap v x.
Proof.
  intros Hv. unfold wrap. replace w with (v + (w - v)) by lia. rewrite Z.pow_add_r by lia.
  rewrite Z.rem_mul_r by lia. rewrite Z.mul_comm, Z.mod_add by lia. apply Zmod_mod.
Qed.

Lemma par_clamp_spec lo hi x : lo <= hi → par_clamp lo hi x = clamp lo hi x.
Proof.
  intros. unfold par_clamp, clamp. destruct (Z.ltb_spec x lo); [destruct (Z.ltb_spec hi lo) |
    destruct (Z.ltb_spec hi x)]; lia.
Qed.

Lemma par_mask_wrap p x : x .& par_mask p = wrap (par_width p) x.
Proof.
  unfold par_mask, par_width.
  destruct (p_byte p); [apply (Z.land_ones x 8) | apply (Z.land_ones x 16)]; lia.
Qed.

Lemma par_lane_spec p sub am bm :
  uint (par_width p) am → uint (par_width p) bm →
  let x := lane_exact p sub am bm in
  wrap (par_width p) (fst (par_lane p sub am bm)) = lane_reduce p x ∧
  snd (par_lane p sub am bm) = lane_ge p sub x.
Proof.
  intros Ha Hb x.
  assert (8 <= par_width p <= 16) as Hw by (unfold par_width; destruct (p_byte p); lia).
  assert (∀ y, wrap (par_width p) (w32 y) = wrap (par_width p) y) as H32.
  { intros y. apply wrap_wrap. lia. }
  assert (∀ y, wrap (par_width p) (w64 y) = wrap (par_width p) y) as H64.
  { intros y. apply wrap_wrap. lia. }
  split.
  - unfold par_lane, lane_reduce, x, lane_exact. cbn [fst].
    destruct (p_halve p); [rewrite H32, Z.shiftr_div_pow2 by lia; by destruct (p_sgn p), sub |].
    destruct (p_sat p).
    + destruct p as [by_ sg ? ? ?]; unfold par_width in *; simpl in *.
      destruct sg, by_; rewrite H32, par_clamp_spec by lia; done.
    + rewrite H32. destruct (p_sgn p); rewrite H64; by destruct sub.
  - unfold par_lane, lane_ge, x, lane_exact. cbn [snd].
    assert (par_mask p = 2 ^ par_width p - 1) as Hm.
    { unfold par_mask, par_width. by destruct (p_byte p). }
    assert (2 ^ par_width p <= 2 ^ 16) by (apply Z.pow_le_mono_r; lia).
    destruct Ha, Hb, (p_sgn p); [by destruct sub |].
    destruct sub; simpl; [by destruct (Z.leb_spec bm am), (Z.leb_spec 0 (am - bm)); try lia |].
    rewrite Hm. unfold w64. rewrite wrap_small by (split; lia).
    destruct (Z.ltb_spec (2 ^ par_width p - 1) (am + bm)),
      (Z.leb_spec (2 ^ par_width p) (am + bm)); lia.
Qed.

(** The lane of [b] that meets lane [i] of [a]. *)
Definition par_partner (p : par_op) (i : Z) : Z :=
  if negb (p_byte p) && ((p_op p =? 1) || (p_op p =? 2)) then 1 - i else i.

Definition par_exact (p : par_op) (a b i : Z) : Z :=
  lane_exact p (par_sub p i) (lane_of (par_width p) a i)
    (lane_of (par_width p) b (par_partner p i)).

Lemma par_step_eq p a b i acc :
  par_step p a b i acc =
  (fst acc .| (lane_reduce p (par_exact p a b i) .<< (i * par_width p)),
   if lane_ge p (par_sub p i) (par_exact p a b i)
   then snd acc .| (if p_byte p then Z.shiftl 1 i else Z.shiftl 3 (i * 2)) else snd acc).
Proof.
  destruct acc as [res ge]. unfold par_step, par_exact. rewrite !par_mask_wrap. fold (par_partner p i).
  fold (lane_of (par_width p) a i) (lane_of (par_width p) b (par_partner p i)).
  pose proof (par_lane_spec p (par_sub p i) (lane_of (par_width p) a i)
    (lane_of (par_width p) b (par_partner p i))) as Hl.
  destruct (par_lane _ _ _ _) as [lane set]. simpl in Hl.
  destruct Hl as [<- ->]; [apply uint_wrap; unfold par_width; by destruct (p_byte p) .. |].
  rewrite par_mask_wrap. done.
Qed.

(** Reading a lane back from a word assembled lane by lane. *)
Lemma lane_lor w x y i : 0 <= w → 0 <= i → lane_of w (x .| y) i = lane_of w x i .| lane_of w y i.
Proof.
  intros Hw Hi. unfold lane_of. apply Z.bits_inj'. intros j Hj.
  rewrite Z.lor_spec, !testbit_wrap, !testbit_shiftr', Z.lor_spec by done.
  apply andb_orb_distrib_r.
Qed.

Lemma lane_0 w i : lane_of w 0 i = 0.
Proof. unfold lane_of. by rewrite Z.shiftr_0_l. Qed.

Lemma lane_put w v i j : 0 < w → uint w v → 0 <= i → 0 <= j → (j + 1) * w <= 32 →
  lane_of w (v .<< (j * w)) i = if i =? j then v else 0.
Proof.
  intros Hw Hv Hi Hj Hfit. unfold lane_of. apply Z.bits_inj'. intros k Hk.
  rewrite testbit_wrap, testbit_shiftr', testbit_w32, Z.shiftl_spec by nia.
  destruct (Z.eqb_spec i j) as [-> | Hne].
  - replace (k + j * w - j * w) with k by lia.
    destruct (Z.ltb_spec k w); cbn [andb]; [| symmetry; apply (uint_high w); [done | lia | lia]].
    by rewrite (proj2 (Z.ltb_lt (k + j * w) 32)) by lia.
  - rewrite Z.testbit_0_l. destruct (Z.ltb_spec k w); [| done]. cbn [andb].
    assert (k + i * w - j * w < 0 ∨ w <= k + i * w - j * w) as [H1 | H1] by nia.
    + rewrite Z.testbit_neg_r by done. apply andb_false_r.
    + rewrite (uint_high w) by (done || lia). apply andb_false_r.
Qed.

Lemma uint_lane_reduce p x : uint (par_width p) (lane_reduce p x).
Proof. apply uint_wrap. unfold par_width. by destruct (p_byte p). Qed.

Definition ge_bits (p : par_op) (i : Z) : Z := if p_byte p then i else i / 2.

(** The parallel additions and subtractions (signed, unsigned, saturating and
    halving; bytes, halfwords, and the exchanging ASX and SAX forms) compute every lane
    from its own two lanes alone: lane [i] of the result is the exact integer sum or
    difference of lane [i] of the first operand and its partner lane, reduced to the
    lane's width, saturated or halved, so that no carry crosses a lane; GE bit [j] is
    set exactly when the lane it belongs to did not borrow, or carried out, or was
    non-negative. *)
Theorem parallel_lanes p a b i : 0 <= i < Z.of_nat (par_lanes p) →
  lane_of (par_width p) (fst (parallel p a b)) i = lane_reduce p (par_exact p a b i) ∧
  (∀ j, 0 <= j < 4 →
    bit (snd (parallel p a b)) j =
    lane_ge p (par_sub p (ge_bits p j)) (par_exact p a b (ge_bits p j))).
Proof.
  intros Hi. unfold parallel.
  pose proof (λ i, uint_lane_reduce p (par_exact p a b i)) as Hu.
  set (L := fun i => lane_reduce p (par_exact p a b i)) in *.
  set (G := fun i => lane_ge p (par_sub p i) (par_exact p a b i)).
  change (lane_reduce p (par_exact p a b i)) with (L i).
  assert (∀ i acc, par_step p a b i acc =
    (fst acc .| (L i .<< (i * par_width p)),
     if G i then snd acc .| (if p_byte p then Z.shiftl 1 i else Z.shiftl 3 (i * 2)) else snd acc))
    as Hstep by (intros; apply par_step_eq).
  assert (0 < par_width p) as Hw by (unfold par_width; by destruct (p_byte p)).
  unfold ge_bits, par_lanes, par_width in *. destruct (p_byte p).
  - split.
    + cbn [for_range]. rewrite !Hstep. cbn [fst snd].
      change (0 + 1 + 1 + 1) with 3; change (0 + 1 + 1) with 2; change (0 + 1) with 1.
      rewrite !lane_lor, !lane_put, lane_0 by (apply Hu || lia).
      assert (i = 0 ∨ i = 1 ∨ i = 2 ∨ i = 3) as [-> | [-> | [-> | ->]]] by lia; simpl;
        rewrite ?Z.lor_0_r; done.
    + intros j Hj. change (lane_ge p (par_sub p j) (par_exact p a b j)) with (G j).
      cbn [for_range]. rewrite !Hstep. cbn [fst snd].
      change (0 + 1 + 1 + 1) with 3; change (0 + 1 + 1) with 2; change (0 + 1) with 1.
      assert (j = 0 ∨ j = 1 ∨ j = 2 ∨ j = 3) as [-> | [-> | [-> | ->]]] by lia;
        by destruct (G 0), (G 1), (G 2), (G 3).
  - split.
    + cbn [for_range]. rewrite !Hstep. cbn [fst snd].
      change (0 + 1 + 1 + 1) with 3; change (0 + 1 + 1) with 2; change (0 + 1) with 1.
      rewrite !lane_lor, !lane_put, lane_0 by (apply Hu || lia).
      assert (i = 0 ∨ i = 1) as [-> | ->] by lia; simpl; rewrite ?Z.lor_0_r; done.
    + intros j Hj.
      change (lane_ge p (par_sub p (j / 2)) (par_exact p a b (j / 2))) with (G (j / 2)).
      cbn [for_range]. rewrite !Hstep. cbn [fst snd].
      change (0 + 1 + 1 + 1) with 3; change (0 + 1 + 1) with 2; change (0 + 1) with 1.
      assert (j = 0 ∨ j = 1 ∨ j = 2 ∨ j = 3) as [-> | [-> | [-> | ->]]] by lia;
        change (0 / 2) with 0; change (1 / 2) with 0; change (2 / 2) with 1;
        change (3 / 2) with 1; by destruct (G 0), (G 1).
Qed.

Lemma parallel_lanes_witness :
  parallel (MkPar true true true false 4) 0x7f80ff01 0x01ff0101 = (0x7f800002, 0xb) ∧
  lane_of 8 (fst (parallel (MkPar true true true false 4) 0x7f80ff01 0x01ff0101)) 3 = 0x7f.
Proof.
  split; [reflexivity |].
  apply (parallel_lanes (MkPar true true true false 4) 0x7f80ff01 0x01ff0101 3). by split.
Defined.
