(* ===== verification/ExecXfer.v ===== *)
(** * Loads and stores

    [exec_single_transfer], [exec_extra_transfer] and [exec_block_transfer] of
    [core/src/arm/arm_interp.c].  They work on the core with its bus and return a
    status, the successor address and the new machine.  A latched abort
    ([abort_pending]) makes the C functions return before any register is
    committed; the tests stand here where they stand there. *)

From S2P Require Import Prelude State Cpu Bus Mmu MemAccess Alu.

(** [if (L) ... else ...] operand decode shared by the three groups. *)
Definition indexed (base offset : Z) (up : bool) : Z :=
  if up then base +w offset else base -w offset.

(** The interworking load of the PC. *)
Definition interwork (c : arm_cpu) (v : Z) : Z * arm_cpu :=
  (v .& (if bit v 0 then wnot 1 else wnot 3),
   set_cpsr (if bit v 0 then cpsr c .| ARM_CPSR_T else cpsr c .& wnot ARM_CPSR_T) c).

(** [return_address & ((c->cpsr & T) ? ~1u : ~3u)]. *)
Definition return_align (c : arm_cpu) (a : Z) : Z :=
  a .& (if (cpsr c .& ARM_CPSR_T) =? 0 then wnot 3 else wnot 1).

(** The legacy [LDR Rd,[Rd],#0]. *)
Definition load_same_base_zero_post (insn : Z) : bool :=
  let rn := fld insn 16 0xf in
  let rd := fld insn 12 0xf in
  bit insn 20 && negb (bit insn 25) && negb (bit insn 24) && negb (bit insn 21) &&
  (rn =? rd) && negb (rd =? 15) && ((insn .& 0xfff) =? 0).

Definition single_refused (insn : Z) : bool :=
  let P := bit insn 24 in
  let W := bit insn 21 in
  let rn := fld insn 16 0xf in
  let rd := fld insn 12 0xf in
  ((negb P || W) && ((rn =? 15) || ((rn =? rd) && negb (load_same_base_zero_post insn)))) ||
  (bit insn 25 && ((insn .& 0xf) =? 15)) ||
  (bit insn 22 && (rd =? 15)) ||
  (bit insn 20 && negb P && W && (rd =? 15)).

Definition single_offset (c : arm_cpu) (pc insn : Z) : Z :=
  if negb (bit insn 25) then insn .& 0xfff
  else fst (barrel_shift (reg_read c pc (insn .& 0xf)) (fld insn 5 3) (fld insn 7 0x1f)
              false (get_flag c ARM_CPSR_C)).

(** The final writeback of addressing mode 2. *)
Definition single_writeback (c : arm_cpu) (insn base offset addr : Z) : arm_cpu :=
  let rn := fld insn 16 0xf in
  if negb (bit insn 24) then
    if load_same_base_zero_post insn then c
    else set_reg rn (indexed base offset (bit insn 23)) c
  else if bit insn 21 then set_reg rn addr c
  else c.

Section Transfers.
Context {B : Type} `{Bus B}.

Definition moutcome : Type := arm_status * Z * mach B.

Definition exec_single_transfer (m : mach B) (pc insn next : Z) : moutcome :=
  let c := cpu m in
  let P := bit insn 24 in
  let W := bit insn 21 in
  let byte := bit insn 22 in
  let rn := fld insn 16 0xf in
  let rd := fld insn 12 0xf in
  if single_refused insn then (ARM_UNDEFINED, next, m)
  else
    let offset := single_offset c pc insn in
    let base := reg_read c pc rn in
    let addr := if P then indexed base offset (bit insn 23) else base in
    let priv := if negb P && W then false else cpu_is_priv c in
    if bit insn 20 then
      if (rd =? 15) && negb ((addr .& 3) =? 0) then
        if negb ((sctlr (cp15 c) .& ARM_SCTLR_A) =? 0)
        then (ARM_OK, next, on_cpu (fun c => note_alignment_abort c addr false) m)
        else (ARM_UNDEFINED, next, m)
      else
        let '(val, m) := mem_read_as (if byte then 1 else 4) m addr priv in
        if abort_pending (cpu m) then (ARM_OK, next, m)
        else if (rd =? 15) && ((val .& 3) =? 2) then (ARM_UNDEFINED, next, m)
        else
          let c := set_reg rd val (cpu m) in
          let '(next, c) := if rd =? 15 then interwork c val else (next, c) in
          (ARM_OK, next, set_cpu (single_writeback c insn base offset addr) m)
    else
      let val := if rd =? 15 then pc +w 12 else r c rd in
      let m := mem_write_as (if byte then 1 else 4) m addr (if byte then w8 val else val) priv in
      if abort_pending (cpu m) then (ARM_OK, next, m)
      else (ARM_OK, next, on_cpu (fun c => single_writeback c insn base offset addr) m).

(** ** Extra transfers *)

Definition extra_is_doubleword (insn : Z) : bool :=
  negb (bit insn 20) && negb (fld insn 5 3 =? 1).

Definition extra_refused (insn : Z) : bool :=
  let P := bit insn 24 in
  let W := bit insn 21 in
  let rn := fld insn 16 0xf in
  let rd := fld insn 12 0xf in
  (rd =? 15) ||
  (negb P && W) ||
  ((negb P || W) && ((rn =? 15) || (rn =? rd))) ||
  (negb (bit insn 22) && (negb (fld insn 8 0xf =? 0) || ((insn .& 0xf) =? 15))) ||
  (extra_is_doubleword insn &&
   (bit rd 0 || (rd =? 14) || ((negb P || W) && (rn =? rd + 1)))).

(** LDRD / STRD: [None] when the instruction stops with an abort latched. *)
Definition doubleword_transfer (m : mach B) (pc rd addr : Z) (store : bool)
    : bool * mach B :=
  let '(xfer, c) := prepare_multiword_address (cpu m) addr 4 store in
  let m := set_cpu c m in
  match xfer with
  | None => (false, m)
  | Some xfer =>
    if store then
      let m := mem_w32 m xfer (reg_read (cpu m) pc rd) in
      if abort_pending (cpu m) then (false, m)
      else
        let m := mem_w32 m (xfer +w 4) (reg_read (cpu m) pc (rd + 1)) in
        (negb (abort_pending (cpu m)), m)
    else
      let '(lo, m) := mem_r32 m xfer in
      if abort_pending (cpu m) then (false, m)
      else
        let '(hi, m) := mem_r32 m (xfer +w 4) in
        if abort_pending (cpu m) then (false, m)
        else (true, on_cpu (fun c => set_reg (rd + 1) hi (set_reg rd lo c)) m)
  end.

(** LDRH, LDRSB, LDRSH; [None] for the encoding the C switch defaults on. *)
Definition extra_load (m : mach B) (sh addr : Z) : option Z * mach B :=
  match sh with
  | 1 => let '(v, m) := mem_r16 m addr in (Some v, m)
  | 2 => let '(v, m) := mem_r8 m addr in (Some (w32 (s8 v)), m)
  | 3 => let '(v, m) := mem_r16 m addr in (Some (w32 (s16 v)), m)
  | _ => (None, m)
  end.

(** Addressing mode 3's writeback. *)
Definition extra_writeback (c : arm_cpu) (insn base offset addr : Z) : arm_cpu :=
  let rn := fld insn 16 0xf in
  if negb (bit insn 24) then set_reg rn (indexed base offset (bit insn 23)) c
  else if bit insn 21 then set_reg rn addr c
  else c.

Definition exec_extra_transfer (m : mach B) (pc insn next : Z) : moutcome :=
  let c := cpu m in
  let P := bit insn 24 in
  let L := bit insn 20 in
  let rn := fld insn 16 0xf in
  let rd := fld insn 12 0xf in
  let sh := fld insn 5 3 in
  if extra_refused insn then (ARM_UNDEFINED, next, m)
  else
    let offset := if bit insn 22 then Z.shiftl (fld insn 8 0xf) 4 .| (insn .& 0xf)
                  else reg_read c pc (insn .& 0xf) in
    let base := reg_read c pc rn in
    let addr := if P then indexed base offset (bit insn 23) else base in
    let finish (m : mach B) : moutcome :=
      (ARM_OK, next, on_cpu (fun c => extra_writeback c insn base offset addr) m) in
    if ((sh =? 1) || (L && (sh =? 3))) && legacy_halfword_unpredictable c addr
    then (ARM_UNDEFINED, next, m)
    else if extra_is_doubleword insn then
      let '(done, m) := doubleword_transfer m pc rd addr (sh =? 3) in
      if done then finish m else (ARM_OK, next, m)
    else if L then
      match extra_load m sh addr with
      | (None, m) => (ARM_UNDEFINED, next, m)
      | (Some val, m) =>
        if abort_pending (cpu m) then (ARM_OK, next, m)
        else
          let m := on_cpu (set_reg rd val) m in
          let next := if rd =? 15 then val .& wnot 3 else next in
          (ARM_OK, next, on_cpu (fun c => extra_writeback c insn base offset addr) m)
      end
    else
      let m := mem_w16 m addr (w16 (reg_read c pc rd)) in
      if abort_pending (cpu m) then (ARM_OK, next, m) else finish m.

(** ** Block transfers *)

(** [for (i = 0; i < k; i++) if (list & (1u << i)) n++] *)
Definition count_list (k : nat) (list : Z) : Z :=
  for_range k 0 (fun i n => if bit list i then n + 1 else n) 0.

(** The loading loop: buffered values, the advanced address; [None] when an access
    aborted. *)
Fixpoint load_list (k : nat) (i list : Z) (m : mach B) (addr : Z) (loaded : Z → Z)
    : option (Z * (Z → Z)) * mach B :=
  match k with
  | O => (Some (addr, loaded), m)
  | S k' =>
    if bit list i then
      let '(v, m) := mem_r32 m addr in
      if abort_pending (cpu m) then (None, m)
      else load_list k' (i + 1) list m (addr +w 4) (<[i := v]> loaded)
    else load_list k' (i + 1) list m addr loaded
  end.

(** The storing loop; [value] is the register value emitted for each index. *)
Fixpoint store_list (k : nat) (i list : Z) (value : arm_cpu → Z → Z) (m : mach B) (addr : Z)
    : option Z * mach B :=
  match k with
  | O => (Some addr, m)
  | S k' =>
    if bit list i then
      let m := mem_w32 m addr (value (cpu m) i) in
      if abort_pending (cpu m) then (None, m)
      else store_list k' (i + 1) list value m (addr +w 4)
    else store_list k' (i + 1) list value m addr
  end.

End Transfers.

Definition block_restores (insn : Z) : bool := bit insn 22 && bit insn 20 && bit insn 15.
Definition block_user_bank (insn : Z) : bool :=
  bit insn 22 && negb (bit insn 20 && bit insn 15).

Definition block_refused (c : arm_cpu) (insn : Z) : bool :=
  let rn := fld insn 16 0xf in
  let list := insn .& 0xffff in
  let L := bit insn 20 in
  let W := bit insn 21 in
  let b := arm_bank_of_mode (cpsr c) in
  (list =? 0) || (rn =? 15) ||
  (block_restores insn && (bank_eqb b ARM_BANK_USR || negb (arm_mode_is_valid (spsr c b)))) ||
  (block_user_bank insn && ((mode_of c =? ARM_MODE_USR) || (mode_of c =? ARM_MODE_SYS))) ||
  (block_user_bank insn && W) ||
  (W && bit list rn &&
   (L || negb ((list .& (if rn =? 0 then 0 else Z.shiftl 1 rn - 1)) =? 0))).

(** Start address and writeback value. *)
Definition block_addresses (base n : Z) (P U : bool) : Z * Z :=
  if U then (if P then base +w 4 else base, w32 (base + 4 * n))
  else (if P then w32 (base - 4 * n) else w32 (base - 4 * n + 4), w32 (base - 4 * n)).

(** Committing one loaded register. *)
Definition block_commit (list : Z) (loaded : Z → Z) (user_bank restore_cpsr : bool)
    (i : Z) (st : Z * arm_cpu) : Z * arm_cpu :=
  let '(next, c) := st in
  if negb (bit list i) then st
  else if user_bank then (next, reg_write_user c i (loaded i))
  else
    let c := set_reg i (loaded i) c in
    if (i =? 15) && negb restore_cpsr then interwork c (loaded i) else (next, c).

(** The refusals that depend on the loaded PC. *)
Definition block_bad_pc (c : arm_cpu) (insn : Z) (loaded : Z → Z) : bool :=
  (negb (block_restores insn) && bit insn 15 && ((loaded 15 .& 3) =? 2)) ||
  (block_restores insn && bit insn 15 &&
   ((spsr c (arm_bank_of_mode (cpsr c)) .& ARM_CPSR_T) =? 0) &&
   negb ((loaded 15 .& 2) =? 0)).

(** Commit, writeback and exception return of a completed transfer. *)
Definition block_finish (c : arm_cpu) (insn next wb : Z) (loaded : Z → Z) : Z * arm_cpu :=
  let L := bit insn 20 in
  let rn := fld insn 16 0xf in
  let list := insn .& 0xffff in
  let '(next, c) :=
    if L then for_range 16 0
                (block_commit list loaded (block_user_bank insn) (block_restores insn))
                (next, c)
    else (next, c) in
  let c := if bit insn 21 && negb (L && bit list rn) then set_reg rn wb c else c in
  if block_restores insn then
    let c := restore_psr c (spsr c (arm_bank_of_mode (cpsr c))) in
    (if L && bit list 15 then return_align c (loaded 15) else next, c)
  else (next, c).

(** What STM emits for register [i]. *)
Definition block_value (pc insn : Z) (c : arm_cpu) (i : Z) : Z :=
  if i =? 15 then pc +w 12
  else if block_user_bank insn then reg_read_user c pc i
  else r c i.

Section BlockTransfer.
Context {B : Type} `{Bus B}.

Definition exec_block_transfer (m : mach B) (pc insn next : Z) : @moutcome B :=
  let c := cpu m in
  let list := insn .& 0xffff in
  let L := bit insn 20 in
  if block_refused c insn then (ARM_UNDEFINED, next, m)
  else
    let '(addr, wb) := block_addresses (reg_read c pc (fld insn 16 0xf)) (count_list 16 list)
                         (bit insn 24) (bit insn 23) in
    let '(start, c) := prepare_multiword_address c addr 4 (negb L) in
    let m := set_cpu c m in
    match start with
    | None => (ARM_OK, next, m)
    | Some addr =>
      if L then
        match load_list 16 0 list m addr (fun _ => 0) with
        | (None, m) => (ARM_OK, next, m)
        | (Some (_, loaded), m) =>
          if block_bad_pc (cpu m) insn loaded then (ARM_UNDEFINED, next, m)
          else
            let '(next, c) := block_finish (cpu m) insn next wb loaded in
            (ARM_OK, next, set_cpu c m)
        end
      else
        match store_list 16 0 list (block_value pc insn) m addr with
        | (None, m) => (ARM_OK, next, m)
        | (Some _, m) =>
          let '(next, c) := block_finish (cpu m) insn next wb (fun _ => 0) in
          (ARM_OK, next, set_cpu c m)
        end
    end.

End BlockTransfer.
