(* ===== verification/Float.v ===== *)
(** * Floating point as the host computes it

    [core/src/arm/vfp.c] performs the guest's arithmetic with the host's [float] and
    [double] under [fesetround], and reads the host's exception flags.  This file is
    the C language's side of that: IEEE-754 binary32 and binary64 on bit patterns,
    the five operations, the conversions and comparisons the source uses, with the
    flags they raise.  A finite value is computed exactly and rounded once.

    What IEEE-754 leaves to the implementation is the interface [HostFpu]: the NaN an
    operation delivers, whether tininess is detected before or after rounding,
    whether [<] signals on a quiet NaN, whether a rounding mode is available. *)

From S2P Require Import Prelude.

(** ** Formats *)

Record format := Format { mbits : Z; ebits : Z }.
Definition binary32 : format := Format 23 8.
Definition binary64 : format := Format 52 11.

Definition precision (f : format) : Z := mbits f + 1.
(** The exponent of the last place of a subnormal. *)
Definition emin (f : format) : Z := 2 - 2 ^ (ebits f - 1) - mbits f.
Definition inf_bits (f : format) : Z := (2 ^ ebits f - 1) * 2 ^ mbits f.
Definition min_normal (f : format) : Z := 2 ^ mbits f.
Definition sign_bit (f : format) : Z := 2 ^ (ebits f + mbits f).
Definition quiet_bit (f : format) : Z := 2 ^ (mbits f - 1).

(** ** Bit patterns *)

Definition f_sign (f : format) (u : Z) : bool := bit u (ebits f + mbits f).
Definition f_mag (f : format) (u : Z) : Z := u mod sign_bit f.
Definition is_nan (f : format) (u : Z) : bool := inf_bits f <? f_mag f u.
Definition is_snan (f : format) (u : Z) : bool := is_nan f u && negb (bit u (mbits f - 1)).
Definition is_inf (f : format) (u : Z) : bool := f_mag f u =? inf_bits f.
Definition is_zero (f : format) (u : Z) : bool := f_mag f u =? 0.

(** [f_pack s mag]: the pattern of sign [s] and magnitude [mag]. *)
Definition f_pack (f : format) (s : bool) (mag : Z) : Z := if s then sign_bit f + mag else mag.

(** A finite magnitude is [mant * 2 ^ expo]. *)
Definition f_mant (f : format) (mag : Z) : Z :=
  let e := mag / 2 ^ mbits f in
  if e =? 0 then mag else mag mod 2 ^ mbits f + 2 ^ mbits f.
Definition f_expo (f : format) (mag : Z) : Z :=
  let e := mag / 2 ^ mbits f in
  emin f + (if e =? 0 then 0 else e - 1).

(** ** Rounding *)

Inductive rmode := RN | RP | RM | RZ.

(** Does a magnitude with remainder [rem] out of [2 * half] move up to the next one? *)
Definition rounds_up (mode : rmode) (s : bool) (mant rem half : Z) : bool :=
  match mode with
  | RN => (half <? rem) || ((rem =? half) && Z.odd mant)
  | RP => negb s && negb (rem =? 0)
  | RM => s && negb (rem =? 0)
  | RZ => false
  end.

(** [m * 2 ^ e] as a multiple of [2 ^ q], and whether that is inexact. *)
Definition round_at (mode : rmode) (s : bool) (m e q : Z) : Z * bool :=
  if q <=? e then (Z.shiftl m (e - q), false)
  else
    let k := q - e in
    let mant := Z.shiftr m k in
    let rem := m mod 2 ^ k in
    (mant + (if rounds_up mode s mant rem (2 ^ (k - 1)) then 1 else 0), negb (rem =? 0)).

Definition bitlen (m : Z) : Z := if m =? 0 then 0 else Z.log2 m + 1.

(** The place [m * 2 ^ e] is rounded at, and the magnitude it rounds to, as if the
    exponent were unbounded above. *)
Definition quantum (f : format) (m e : Z) : Z := Z.max (emin f) (e + bitlen m - precision f).
Definition round_mag (f : format) (mode : rmode) (s : bool) (m e : Z) : Z * bool :=
  let q := quantum f m e in
  let '(mant, inexact) := round_at mode s m e q in
  ((q - emin f) * 2 ^ mbits f + mant, inexact).

Definition overflow_mag (f : format) (mode : rmode) (s : bool) : Z :=
  match mode with
  | RN => inf_bits f
  | RP => if s then inf_bits f - 1 else inf_bits f
  | RM => if s then inf_bits f else inf_bits f - 1
  | RZ => inf_bits f - 1
  end.

(** Is a nonzero [m * 2 ^ e] below the smallest normal? *)
Definition tiny_before (f : format) (m e : Z) : bool :=
  negb (m =? 0) && (e + bitlen m <=? emin f + mbits f).
Definition tiny_after (f : format) (mode : rmode) (s : bool) (m e : Z) : bool :=
  tiny_before f m e &&
  ((e + bitlen m <? emin f + mbits f) ||
   (fst (round_at mode s m e (e + bitlen m - precision f)) <? 2 ^ precision f)).

(** ** The host *)

(** The exception flags of [<fenv.h>]. *)
Definition FE_INVALID := 1.
Definition FE_DIVBYZERO := 2.
Definition FE_OVERFLOW := 4.
Definition FE_UNDERFLOW := 8.
Definition FE_INEXACT := 16.

Inductive fop := OP_ADD | OP_SUB | OP_MUL | OP_DIV | OP_SQRT.

Class HostFpu := {
  (** Tininess is detected after rounding (x86) rather than before (AArch64). *)
  tininess_after : bool;
  (** The NaN delivered for an operation with a NaN operand or no defined result. *)
  nan_of : format → fop → Z → Z → Z;
  nan_narrowed : Z → Z;
  nan_widened : Z → Z;
  (** [<] on a quiet NaN raises the invalid flag. *)
  less_signals : bool;
  (** [fesetround] fails. *)
  round_refused : rmode → bool
}.

(** The NaNs it delivers are quiet NaNs of the format. *)
Definition quiet_nan (f : format) (u : Z) : Prop :=
  uint (1 + ebits f + mbits f) u ∧ is_nan f u = true ∧ bit u (mbits f - 1) = true.

Class HostFpuOk `{HostFpu} : Prop := {
  nan_of_quiet f op a b : f = binary32 ∨ f = binary64 → quiet_nan f (nan_of f op a b);
  nan_narrowed_quiet u : quiet_nan binary32 (nan_narrowed u);
  nan_widened_quiet u : quiet_nan binary64 (nan_widened u)
}.

(** ** Operations *)

Section Host.
Context `{HostFpu}.

(** The exact value [m * 2 ^ e] of sign [s], delivered in format [f]. *)
Definition deliver (f : format) (mode : rmode) (s : bool) (m e : Z) : Z * Z :=
  if m =? 0 then (f_pack f s 0, 0)
  else
    let '(mag, inexact) := round_mag f mode s m e in
    if inf_bits f <=? mag then
      (f_pack f s (overflow_mag f mode s), FE_OVERFLOW .| FE_INEXACT)
    else
      let tiny := if tininess_after then tiny_after f mode s m e else tiny_before f m e in
      (f_pack f s mag,
       if inexact then FE_INEXACT .| (if tiny then FE_UNDERFLOW else 0) else 0).

(** What an operation comes to before rounding: a special result with its flags, or
    [m * 2 ^ e] of sign [s].  Where the exact result is not dyadic, [m] keeps more
    digits than rounding looks at, the last one saying whether anything follows. *)
Inductive unrounded := Special (bits raised : Z) | Exact (s : bool) (m e : Z).

(** The value of a sum of two finite patterns, on the smaller exponent. *)
Definition exact_sum (f : format) (a b : Z) : Z * Z :=
  let ma := f_mag f a in
  let mb := f_mag f b in
  let e := Z.min (f_expo f ma) (f_expo f mb) in
  let x := Z.shiftl (f_mant f ma) (f_expo f ma - e) in
  let y := Z.shiftl (f_mant f mb) (f_expo f mb - e) in
  ((if f_sign f a then - x else x) + (if f_sign f b then - y else y), e).

Definition is_rm (mode : rmode) : bool := match mode with RM => true | _ => false end.

Definition add_exact (f : format) (mode : rmode) (op : fop) (a b : Z) : unrounded :=
  let sa := f_sign f a in
  let sb := f_sign f b in
  if is_inf f a && is_inf f b then
    if Bool.eqb sa sb then Special (f_pack f sa (inf_bits f)) 0
    else Special (nan_of f op a b) FE_INVALID
  else if is_inf f a then Special (f_pack f sa (inf_bits f)) 0
  else if is_inf f b then Special (f_pack f sb (inf_bits f)) 0
  else
    let '(v, e) := exact_sum f a b in
    if v =? 0 then Special (f_pack f (if Bool.eqb sa sb then sa else is_rm mode) 0) 0
    else Exact (v <? 0) (Z.abs v) e.

Definition mul_exact (f : format) (a b : Z) : unrounded :=
  let s := xorb (f_sign f a) (f_sign f b) in
  let ma := f_mag f a in
  let mb := f_mag f b in
  if is_inf f a || is_inf f b then
    if is_zero f a || is_zero f b then Special (nan_of f OP_MUL a b) FE_INVALID
    else Special (f_pack f s (inf_bits f)) 0
  else Exact s (f_mant f ma * f_mant f mb) (f_expo f ma + f_expo f mb).

(** [n / d] scaled by [2 ^ k], with a low bit that says whether anything is left. *)
Definition sticky_quotient (n d k : Z) : Z :=
  let n' := Z.shiftl n k in
  2 * (n' / d) + (if n' mod d =? 0 then 0 else 1).

Definition div_exact (f : format) (a b : Z) : unrounded :=
  let s := xorb (f_sign f a) (f_sign f b) in
  let ma := f_mag f a in
  let mb := f_mag f b in
  if is_inf f a then
    if is_inf f b then Special (nan_of f OP_DIV a b) FE_INVALID
    else Special (f_pack f s (inf_bits f)) 0
  else if is_inf f b then Special (f_pack f s 0) 0
  else if is_zero f b then
    if is_zero f a then Special (nan_of f OP_DIV a b) FE_INVALID
    else Special (f_pack f s (inf_bits f)) FE_DIVBYZERO
  else
    let k := 2 * precision f + 2 in
    Exact s (sticky_quotient (f_mant f ma) (f_mant f mb) k) (f_expo f ma - f_expo f mb - k - 1).

(** The root of [m * 2 ^ (2 * k)], with the same low bit. *)
Definition sticky_root (m k : Z) : Z :=
  let n := Z.shiftl m (2 * k) in
  let r := Z.sqrt n in
  2 * r + (if r * r =? n then 0 else 1).

Definition sqrt_exact (f : format) (a : Z) : unrounded :=
  let ma := f_mag f a in
  if is_zero f a then Special a 0
  else if f_sign f a then Special (nan_of f OP_SQRT a 0) FE_INVALID
  else if is_inf f a then Special a 0
  else
    let odd := f_expo f ma mod 2 in
    let k := precision f + 2 in
    Exact false (sticky_root (Z.shiftl (f_mant f ma) odd) k) ((f_expo f ma - odd) / 2 - k - 1).

Definition f_neg (f : format) (u : Z) : Z := u .^ sign_bit f.

Definition op_exact (f : format) (mode : rmode) (op : fop) (a b : Z) : unrounded :=
  let nan_b := match op with OP_SQRT => false | _ => is_nan f b end in
  let snan_b := match op with OP_SQRT => false | _ => is_snan f b end in
  if is_nan f a || nan_b then
    Special (nan_of f op a b) (if is_snan f a || snan_b then FE_INVALID else 0)
  else
    match op with
    | OP_ADD => add_exact f mode op a b
    | OP_SUB => add_exact f mode op a (f_neg f b)
    | OP_MUL => mul_exact f a b
    | OP_DIV => div_exact f a b
    | OP_SQRT => sqrt_exact f a
    end.

(** [x + y], [x - y], [x * y], [x / y] or [sqrt(x)], with the flags it raises. *)
Definition host_op (f : format) (mode : rmode) (op : fop) (a b : Z) : Z * Z :=
  match op_exact f mode op a b with
  | Special u raised => (u, raised)
  | Exact s m e => deliver f mode s m e
  end.

(** [(float)x] for a [double] [x]. *)
Definition narrow (mode : rmode) (u : Z) : Z * Z :=
  let s := f_sign binary64 u in
  if is_nan binary64 u then (nan_narrowed u, if is_snan binary64 u then FE_INVALID else 0)
  else if is_inf binary64 u then (f_pack binary32 s (inf_bits binary32), 0)
  else deliver binary32 mode s (f_mant binary64 (f_mag binary64 u)) (f_expo binary64 (f_mag binary64 u)).

(** [(double)x] for a [float] [x]. *)
Definition widen (u : Z) : Z * Z :=
  let s := f_sign binary32 u in
  if is_nan binary32 u then (nan_widened u, if is_snan binary32 u then FE_INVALID else 0)
  else if is_inf binary32 u then (f_pack binary64 s (inf_bits binary64), 0)
  else deliver binary64 RN s (f_mant binary32 (f_mag binary32 u)) (f_expo binary32 (f_mag binary32 u)).

(** [(double)n] for a 32-bit integer [n]: exact. *)
Definition of_integer (n : Z) : Z := fst (deliver binary64 RN (n <? 0) (Z.abs n) 0).

End Host.

(** ** Comparison *)

(** The order of two patterns that are not NaNs, zeros of both signs being equal. *)
Definition f_key (f : format) (u : Z) : Z := if f_sign f u then - f_mag f u else f_mag f u.
Definition f_compare (f : format) (a b : Z) : comparison := f_key f a ?= f_key f b.
