(* ===== verification/FloatFacts.v ===== *)
(** * Facts about the host's floating point

    Widths of what the operations deliver, and the rounding step: the magnitude
    delivered is the neighbour of the exact value that the mode asks for, exactly on
    the value when nothing is lost, and never on the other side of a power of two that
    the exact value does not cross. *)

From S2P Require Import Prelude Float.

Record fmt_ok (f : format) : Prop := { fo_mbits : 1 < mbits f; fo_ebits : 1 < ebits f }.

Lemma fmt_ok_32 : fmt_ok binary32.
Proof. by split. Qed.
Lemma fmt_ok_64 : fmt_ok binary64.
Proof. by split. Qed.
#[export] Hint Resolve fmt_ok_32 fmt_ok_64 : word.

Lemma pow2_pos k : 0 <= k → 0 < 2 ^ k.
Proof. intros. by apply Z.pow_pos_nonneg. Qed.

Lemma inf_below_sign f : fmt_ok f → 0 < inf_bits f < sign_bit f ∧ 0 < min_normal f < inf_bits f.
Proof.
  intros [Hm He]. unfold inf_bits, sign_bit, min_normal. rewrite Z.pow_add_r by lia.
  pose proof (pow2_pos (mbits f) ltac:(lia)).
  assert (2 ^ 2 <= 2 ^ ebits f) by (apply Z.pow_le_mono_r; lia). nia.
Qed.

Lemma fits_pack f s mag : fmt_ok f → 0 <= mag < sign_bit f → uint (1 + ebits f + mbits f) (f_pack f s mag).
Proof.
  intros [Hm He] Hmag. unfold uint, f_pack. unfold sign_bit in *.
  replace (1 + ebits f + mbits f) with (Z.succ (ebits f + mbits f)) by lia.
  rewrite Z.pow_succ_r by lia. destruct s; lia.
Qed.

Lemma f_mag_range f u : fmt_ok f → 0 <= f_mag f u < sign_bit f.
Proof. intros [Hm He]. apply Z.mod_pos_bound. unfold sign_bit. apply pow2_pos. lia. Qed.

(** ** The rounding step *)

(** [round_at] rounds down or up by one place. *)
Lemma round_at_exact mode s m e q : q <= e → round_at mode s m e q = (m * 2 ^ (e - q), false).
Proof.
  intros Hq. unfold round_at. replace (q <=? e) with true by lia. by rewrite Z.shiftl_mul_pow2 by lia.
Qed.

Lemma round_at_inexact mode s m e q : 0 <= m → e < q →
  ∃ up : bool, round_at mode s m e q = (m / 2 ^ (q - e) + (if up then 1 else 0), negb (m mod 2 ^ (q - e) =? 0)) ∧
    (up = true → m mod 2 ^ (q - e) ≠ 0).
Proof.
  intros Hm Hq. unfold round_at. replace (q <=? e) with false by lia.
  rewrite Z.shiftr_div_pow2 by lia. eexists. split; [reflexivity |].
  intros Hup E. rewrite E in Hup. pose proof (pow2_pos (q - e - 1) ltac:(lia)).
  unfold rounds_up in Hup. destruct mode; rewrite ?andb_false_r in Hup; try done.
  replace (2 ^ (q - e - 1) <? 0) with false in Hup by lia.
  replace (0 =? 2 ^ (q - e - 1)) with false in Hup by lia. done.
Qed.

Lemma round_at_nonneg mode s m e q : 0 <= m → 0 <= fst (round_at mode s m e q).
Proof.
  intros Hm. destruct (Z.le_gt_cases q e).
  - rewrite round_at_exact by done. simpl. pose proof (pow2_pos (e - q) ltac:(lia)). nia.
  - destruct (round_at_inexact mode s m e q) as (up & -> & _); [done | lia |]. simpl.
    pose proof (Z.div_pos m (2 ^ (q - e)) Hm (pow2_pos (q - e) ltac:(lia))). destruct up; lia.
Qed.

Lemma round_mag_nonneg f mode s m e : fmt_ok f → 0 <= m → 0 <= fst (round_mag f mode s m e).
Proof.
  intros [Hmb _] Hm. unfold round_mag. pose proof (round_at_nonneg mode s m e (quantum f m e) Hm).
  destruct (round_at _ _ _ _ _) as [mant ix]. simpl in *.
  assert (0 <= (quantum f m e - emin f) * 2 ^ mbits f); [| lia].
  pose proof (pow2_pos (mbits f) ltac:(lia)). unfold quantum. nia.
Qed.

(** ** The smallest normal *)

Lemma bitlen_bounds m : 0 < m → 2 ^ (bitlen m - 1) <= m < 2 ^ bitlen m ∧ 0 < bitlen m.
Proof.
  intros Hm. unfold bitlen. replace (m =? 0) with false by lia.
  pose proof (Z.log2_spec m Hm) as [H1 H2]. pose proof (Z.log2_nonneg m).
  replace (Z.log2 m + 1 - 1) with (Z.log2 m) by lia. rewrite Z.add_1_r. split; [done | lia].
Qed.

(** Rounding does not cross the smallest normal: below it, at most up to it and then
    inexactly; not below it, not below. *)
Lemma tiny_rounds f mode s m e : fmt_ok f → 0 < m → tiny_before f m e = true →
  let '(mag, inexact) := round_mag f mode s m e in
  0 <= mag <= min_normal f ∧ (mag = min_normal f → inexact = true) ∧
  (mag = 0 → inexact = true ∧ e + bitlen m < emin f + mbits f).
Proof.
  intros [Hmb _] Hm Ht. unfold tiny_before in Ht. replace (m =? 0) with false in Ht by lia.
  simpl in Ht. apply Z.leb_le in Ht. destruct (bitlen_bounds m Hm) as [[Hlo Hhi] Hpos].
  unfold round_mag, quantum, precision, min_normal.
  replace (Z.max _ _) with (emin f) by lia. rewrite Z.sub_diag, Z.mul_0_l.
  pose proof (pow2_pos (mbits f) ltac:(lia)).
  destruct (Z.le_gt_cases (emin f) e) as [Hle | Hlt].
  - rewrite round_at_exact by done. pose proof (pow2_pos (e - emin f) ltac:(lia)).
    assert (m * 2 ^ (e - emin f) < 2 ^ mbits f); [| split_and?; nia].
    apply Z.lt_le_trans with (2 ^ bitlen m * 2 ^ (e - emin f)); [nia |].
    rewrite <- Z.pow_add_r by lia. apply Z.pow_le_mono_r; lia.
  - destruct (round_at_inexact mode s m e (emin f)) as (up & -> & Hup); [lia | lia |].
    set (k := emin f - e) in *. pose proof (pow2_pos k ltac:(lia)) as Hk.
    assert (m < 2 ^ mbits f * 2 ^ k) as Hbound.
    { rewrite <- Z.pow_add_r by lia. eapply Z.lt_le_trans; [exact Hhi |]. apply Z.pow_le_mono_r; lia. }
    pose proof (Z.div_lt_upper_bound m (2 ^ k) (2 ^ mbits f) Hk ltac:(lia)) as Hq.
    pose proof (Z.div_pos m (2 ^ k) ltac:(lia) Hk) as Hq0.
    pose proof (Z.div_mod m (2 ^ k) ltac:(lia)) as Em.
    split_and?; [destruct up; lia | destruct up; lia | |].
    + destruct up; [intros _ | lia]. rewrite negb_true_iff, Z.eqb_neq. by apply Hup.
    + intros E0. assert (m / 2 ^ k = 0) as E by (destruct up; lia). rewrite E in Em. split.
      * rewrite negb_true_iff, Z.eqb_neq. lia.
      * pose proof (Z.mod_pos_bound m (2 ^ k) Hk). rewrite Z.mul_0_r, Z.add_0_l in Em.
        assert (bitlen m - 1 < k); [| lia]. apply (Z.pow_lt_mono_r_iff 2); [lia | lia |]. lia.
Qed.

Lemma normal_rounds f mode s m e : fmt_ok f → 0 < m → tiny_before f m e = false →
  min_normal f <= fst (round_mag f mode s m e).
Proof.
  intros [Hmb _] Hm Ht. unfold tiny_before in Ht. replace (m =? 0) with false in Ht by lia.
  simpl in Ht. apply Z.leb_gt in Ht. destruct (bitlen_bounds m Hm) as [[Hlo Hhi] Hpos].
  unfold round_mag, min_normal.
  assert (quantum f m e = e + bitlen m - precision f) as Eq by (unfold quantum, precision; lia).
  rewrite Eq. unfold precision. set (q := e + bitlen m - (mbits f + 1)).
  assert (2 ^ mbits f <= fst (round_at mode s m e q)) as Hround.
  { destruct (Z.le_gt_cases q e).
    - rewrite round_at_exact by done. simpl. replace (mbits f) with ((bitlen m - 1) + (e - q)) by lia.
      rewrite Z.pow_add_r by lia. apply Z.mul_le_mono_nonneg_r; [apply Z.pow_nonneg; lia | done].
    - destruct (round_at_inexact mode s m e q) as (up & -> & _); [lia | lia |]. simpl.
      assert (2 ^ mbits f <= m / 2 ^ (q - e)); [| destruct up; lia].
      apply Z.div_le_lower_bound; [apply pow2_pos; lia |].
      rewrite <- Z.pow_add_r by lia. by replace (q - e + mbits f) with (bitlen m - 1) by lia. }
  destruct (round_at _ _ _ _ _) as [mant ix]. simpl in *.
  assert (0 <= q - emin f) by lia. pose proof (pow2_pos (mbits f) ltac:(lia)). nia.
Qed.

(** ** Widths *)

Section Host.
Context `{HostFpu} {Hok : HostFpuOk}.

Definition known (f : format) : Prop := f = binary32 ∨ f = binary64.

Lemma known_ok f : known f → fmt_ok f.
Proof. intros [-> | ->]; by split. Qed.

Definition fits (f : format) (u : Z) : Prop := uint (1 + ebits f + mbits f) u.

Lemma overflow_range f mode s : fmt_ok f → 0 <= overflow_mag f mode s < sign_bit f.
Proof. intros Hf. destruct (inf_below_sign f Hf). destruct mode, s; simpl; lia. Qed.

Lemma overflow_normal f mode s : fmt_ok f → min_normal f < overflow_mag f mode s <= inf_bits f.
Proof.
  intros [Hm He]. assert (2 * min_normal f < inf_bits f).
  { unfold inf_bits, min_normal. pose proof (pow2_pos (mbits f) ltac:(lia)).
    assert (2 ^ 2 <= 2 ^ ebits f) by (apply Z.pow_le_mono_r; lia). nia. }
  assert (2 <= min_normal f).
  { unfold min_normal. apply (Z.pow_le_mono_r 2 1); lia. }
  destruct mode, s; simpl; lia.
Qed.

Lemma fits_deliver f mode s m e : fmt_ok f → 0 <= m → fits f (fst (deliver f mode s m e)).
Proof.
  intros Hf Hm. destruct (inf_below_sign f Hf). unfold deliver.
  destruct (m =? 0); [apply fits_pack; [done | lia] |].
  pose proof (round_mag_nonneg f mode s m e Hf Hm).
  destruct (round_mag _ _ _ _ _) as [mag ix]. simpl in *.
  destruct (Z.leb_spec (inf_bits f) mag); simpl;
    apply fits_pack; try done; [by apply overflow_range | lia].
Qed.

Lemma fits_inf f s : fmt_ok f → fits f (f_pack f s (inf_bits f)).
Proof. intros Hf. destruct (inf_below_sign f Hf). apply fits_pack; [done | lia]. Qed.

Lemma fits_zero f s : fmt_ok f → fits f (f_pack f s 0).
Proof. intros Hf. destruct (inf_below_sign f Hf). apply fits_pack; [done | lia]. Qed.

Lemma fits_nan f op a b : known f → fits f (nan_of f op a b).
Proof. intros Hf. by apply nan_of_quiet. Qed.

Lemma f_mant_nonneg f mag : fmt_ok f → 0 <= mag → 0 <= f_mant f mag.
Proof.
  intros [Hm _] Hg. unfold f_mant. pose proof (pow2_pos (mbits f) ltac:(lia)).
  pose proof (Z.mod_pos_bound mag (2 ^ mbits f)). case_match; lia.
Qed.

Lemma fits_neg f u : fmt_ok f → fits f u → fits f (f_neg f u).
Proof.
  intros [Hm He] Hu. apply uint_lxor; [lia | done |]. split; unfold sign_bit.
  - apply Z.pow_nonneg. lia.
  - apply Z.pow_lt_mono_r; lia.
Qed.

(** A special result fits; what is to be rounded is not negative. *)
Definition sound_unrounded (f : format) (o : unrounded) : Prop :=
  match o with Special u _ => fits f u | Exact _ m _ => 0 <= m end.

Lemma add_exact_sound f mode op a b : known f → sound_unrounded f (add_exact f mode op a b).
Proof.
  intros Hk. pose proof (known_ok f Hk). unfold add_exact. destruct (exact_sum f a b) as [v e].
  destruct (is_inf f a && is_inf f b);
    [destruct (Bool.eqb _ _); [by apply fits_inf | by apply fits_nan] |].
  destruct (is_inf f a); [by apply fits_inf |]. destruct (is_inf f b); [by apply fits_inf |].
  destruct (v =? 0); [by apply fits_zero | apply Z.abs_nonneg].
Qed.

Lemma sticky_quotient_nonneg n d k : 0 <= n → 0 <= d → 0 <= sticky_quotient n d k.
Proof.
  intros Hn Hd. unfold sticky_quotient. apply Z.le_lteq in Hd as [Hd | <-]; [| by rewrite Z.div_0_r, Z.mod_0_r; case_match].
  pose proof (Z.div_pos (Z.shiftl n k) d (proj2 (Z.shiftl_nonneg n k) Hn) Hd). case_match; lia.
Qed.

Lemma op_exact_sound f mode op a b : known f → fits f a → sound_unrounded f (op_exact f mode op a b).
Proof.
  intros Hk Ha. pose proof (known_ok f Hk) as Hf.
  pose proof (λ u, f_mant_nonneg f (f_mag f u) Hf (proj1 (f_mag_range f u Hf))) as Hmant.
  unfold op_exact. destruct (is_nan f a || _); [by apply fits_nan |].
  destruct op; [by apply add_exact_sound | by apply add_exact_sound | | |].
  - unfold mul_exact. destruct (is_inf f a || is_inf f b).
    + destruct (_ || _); [by apply fits_nan | by apply fits_inf].
    + apply Z.mul_nonneg_nonneg; apply Hmant.
  - unfold div_exact. destruct (is_inf f a), (is_inf f b), (is_zero f b), (is_zero f a); simpl;
      try first [by apply fits_nan | by apply fits_inf | by apply fits_zero];
      by apply sticky_quotient_nonneg.
  - unfold sqrt_exact. destruct (is_zero f a); [done |]. destruct (f_sign f a); [by apply fits_nan |].
    destruct (is_inf f a); [done |]. simpl. unfold sticky_root.
    match goal with |- 0 <= 2 * Z.sqrt ?x + _ => pose proof (Z.sqrt_nonneg x) end. case_match; lia.
Qed.

Lemma fits_op f mode op a b : known f → fits f a → fits f (fst (host_op f mode op a b)).
Proof.
  intros Hk Ha. pose proof (op_exact_sound f mode op a b Hk Ha) as Hs. unfold host_op.
  destruct (op_exact f mode op a b); [done |]. by apply fits_deliver; [apply known_ok |].
Qed.

Lemma fits_narrow mode u : fits binary32 (fst (narrow mode u)).
Proof.
  unfold narrow. case_match; [apply nan_narrowed_quiet |].
  case_match; [apply fits_inf, fmt_ok_32 |]. apply fits_deliver; [apply fmt_ok_32 |].
  apply f_mant_nonneg, f_mag_range; apply fmt_ok_64.
Qed.

End Host.

(** ** A concrete host *)

(** x86-64: the first NaN operand is delivered, quieted; the NaN of an invalid
    operation has its sign bit set. *)
Definition x86_host : HostFpu := {|
  tininess_after := true;
  nan_of f op a b :=
    let pick u := f_pack f (f_sign f u) (inf_bits f + ((f_mag f u mod 2 ^ mbits f) .| quiet_bit f)) in
    let second := match op with OP_SQRT => false | _ => is_nan f b end in
    if is_nan f a then pick a else if second then pick b
    else f_pack f true (inf_bits f + quiet_bit f);
  nan_narrowed u :=
    f_pack binary32 (f_sign binary64 u)
      (inf_bits binary32 + (((f_mag binary64 u mod 2 ^ 52) / 2 ^ 29) .| quiet_bit binary32));
  nan_widened u :=
    f_pack binary64 (f_sign binary32 u)
      (inf_bits binary64 + (((f_mag binary32 u mod 2 ^ 23) * 2 ^ 29) .| quiet_bit binary64));
  less_signals := true;
  round_refused _ := false
|}.

Lemma quiet_payload f s p : fmt_ok f → uint (mbits f) p →
  quiet_nan f (f_pack f s (inf_bits f + (p .| quiet_bit f))).
Proof.
  intros Hf Hp. pose proof Hf as [Hm He]. set (q := p .| quiet_bit f).
  assert (0 < quiet_bit f < 2 ^ mbits f) as Hqb.
  { unfold quiet_bit. split; [apply pow2_pos; lia | apply Z.pow_lt_mono_r; lia]. }
  assert (uint (mbits f) q) as Hq by (apply uint_lor; [lia | done | split; lia]).
  assert (Z.testbit q (mbits f - 1) = true) as Hbit.
  { unfold q, quiet_bit. rewrite Z.lor_spec, Z.pow2_bits_true by lia. apply orb_true_r. }
  assert (0 < q) as Hpos.
  { destruct (decide (q = 0)) as [E |]; [| destruct Hq; lia]. by rewrite E, Z.testbit_0_l in Hbit. }
  assert (inf_bits f + q = (2 ^ ebits f - 1) * 2 ^ mbits f + q) as E by done.
  assert (sign_bit f = 2 ^ ebits f * 2 ^ mbits f) as Es by (apply Z.pow_add_r; lia).
  pose proof (pow2_pos (ebits f) ltac:(lia)). destruct Hq as [Hq0 Hq1].
  assert (0 <= inf_bits f + q < sign_bit f) as Hr by nia.
  assert (f_pack f s (inf_bits f + q) = (if s then 1 else 0) * sign_bit f + (inf_bits f + q)) as Ep
    by (destruct s; unfold f_pack; lia).
  refine (conj _ (conj _ _)).
  - by apply fits_pack.
  - unfold is_nan, f_mag. rewrite Ep, Z.add_comm, Z.mod_add, Z.mod_small by lia. lia.
  - unfold bit. rewrite Ep, E.
    replace ((if s then 1 else 0) * sign_bit f + ((2 ^ ebits f - 1) * 2 ^ mbits f + q))
      with (q + ((if s then 1 else 0) * 2 ^ ebits f + (2 ^ ebits f - 1)) * 2 ^ mbits f) by nia.
    rewrite <- (Z.mod_pow2_bits_low _ (mbits f)), Z.mod_add, Z.mod_small by lia. done.
Qed.

Lemma x86_host_ok : @HostFpuOk x86_host.
Proof.
  assert (∀ f u, known f → uint (mbits f) (f_mag f u mod 2 ^ mbits f)) as Hm.
  { intros f u Hf. apply Z.mod_pos_bound, pow2_pos. apply known_ok in Hf as []. lia. }
  split; simpl.
  - intros f op a b Hf. pose proof (known_ok f Hf) as Hok.
    assert (∀ u, quiet_nan f (f_pack f (f_sign f u) (inf_bits f + ((f_mag f u mod 2 ^ mbits f) .| quiet_bit f))))
      by (intros; apply quiet_payload; auto).
    assert (quiet_nan f (f_pack f true (inf_bits f + quiet_bit f))).
    { apply (quiet_payload f true 0); [done |]. apply uint_0. destruct Hok. lia. }
    repeat case_match; done.
  - intros u. apply (quiet_payload binary32); [apply fmt_ok_32 |].
    pose proof (Z.mod_pos_bound (f_mag binary64 u) (2 ^ 52) ltac:(lia)) as [H1 H2].
    split; [by apply Z.div_pos | apply Z.div_lt_upper_bound; [done |]]. exact H2.
  - intros u. apply (quiet_payload binary64); [apply fmt_ok_64 |].
    pose proof (Z.mod_pos_bound (f_mag binary32 u) (2 ^ 23) ltac:(lia)) as [H1 H2].
    cbn. split; lia.
Qed.
