(* ===== verification/Vfp.v ===== *)
(** * The VFP11 unit

    [core/src/arm/vfp.c] and the register file of [core/include/vfp.h]: the legacy
    short vectors, flush-to-zero and default-NaN modes, directed rounding, the
    trap-don't-approximate policy, loads and stores, and the register transfers.
    Operands and results are bit patterns; [u2f] and [f2u] are the identity on them.
    The host's arithmetic is Float.v.  The text a refusal prints and keeps for
    [vfp_trap_reason] is not modelled. *)

From S2P Require Import Prelude State Cpu Bus Mmu MemAccess Float.

Definition ARM_FPSCR_N := 0x80000000.
Definition ARM_FPSCR_Z := 0x40000000.
Definition ARM_FPSCR_C := 0x20000000.
Definition ARM_FPSCR_V := 0x10000000.
Definition ARM_FPSCR_NZCV := 0xf0000000.
Definition ARM_FPSCR_DN := 0x02000000.
Definition ARM_FPSCR_FZ := 0x01000000.
Definition ARM_FPSCR_RMODE := 0x00c00000.
Definition ARM_FPSCR_STRIDE := 0x00300000.
Definition ARM_FPSCR_LEN := 0x00070000.
Definition ARM_FPSCR_IDE := 0x8000.
Definition ARM_FPSCR_IXE := 0x1000.
Definition ARM_FPSCR_UFE := 0x0800.
Definition ARM_FPSCR_OFE := 0x0400.
Definition ARM_FPSCR_DZE := 0x0200.
Definition ARM_FPSCR_IOE := 0x0100.
Definition ARM_FPSCR_ENABLES :=
  ((((ARM_FPSCR_IDE .| ARM_FPSCR_IXE) .| ARM_FPSCR_UFE) .| ARM_FPSCR_OFE) .| ARM_FPSCR_DZE)
  .| ARM_FPSCR_IOE.
Definition ARM_FPSCR_IDC := 0x80.
Definition ARM_FPSCR_IXC := 0x10.
Definition ARM_FPSCR_UFC := 0x08.
Definition ARM_FPSCR_OFC := 0x04.
Definition ARM_FPSCR_DZC := 0x02.
Definition ARM_FPSCR_IOC := 0x01.
Definition ARM_FPSCR_WMASK := 0xf3f79f9f.
Definition ARM1176_FPSID := 0x410120b4.

(** ** The register file *)

Definition vfp_get_s (c : arm_cpu) (n : Z) : Z := vfp_s c (n .& 31).
Definition vfp_set_s (n v : Z) (c : arm_cpu) : arm_cpu :=
  set_vfp_s (<[n .& 31 := v]> (vfp_s c)) c.
Definition vfp_get_d (c : arm_cpu) (n : Z) : Z :=
  let n := (n .& 15) * 2 in vfp_s c n .| Z.shiftl (vfp_s c (n + 1)) 32.
Definition vfp_set_d (n v : Z) (c : arm_cpu) : arm_cpu :=
  let n := (n .& 15) * 2 in
  set_vfp_s (<[n + 1 := w32 (v .>> 32)]> (<[n := w32 v]> (vfp_s c))) c.

Definition vfp_fmt (dbl : bool) : format := if dbl then binary64 else binary32.
Definition vfp_get (dbl : bool) (c : arm_cpu) (n : Z) : Z :=
  if dbl then vfp_get_d c n else vfp_get_s c n.
Definition vfp_set (dbl : bool) (n v : Z) (c : arm_cpu) : arm_cpu :=
  if dbl then vfp_set_d n v c else vfp_set_s n v c.

Definition SREG (f4 : Z) (lo : bool) : Z := (f4 .<< 1) .| (if lo then 1 else 0).

(** ** Refusals and modes *)

Definition vfp_result : Type := arm_status * arm_cpu.
Definition vfp_trap (c : arm_cpu) : vfp_result := (ARM_UNDEFINED, c).
Definition vfp_guest_undefined (c : arm_cpu) : vfp_result := (ARM_GUEST_UNDEFINED, c).

Definition MODE_EXACT := 0.
Definition MODE_VALUES := ARM_FPSCR_ENABLES.
Definition MODE_ROUNDING := MODE_VALUES.

(** The current modes include one the tier refuses. *)
Definition mode_bad (c : arm_cpu) (tier : Z) : bool := negb ((vfp_fpscr c .& tier) =? 0).

Definition host_round_from_fpscr (fpscr : Z) : rmode :=
  match (fpscr .& ARM_FPSCR_RMODE) .>> 22 with 1 => RP | 2 => RM | 3 => RZ | _ => RN end.

(** ** Flush-to-zero, default NaN *)

Definition VFP_FZ_AMBIGUOUS := 0x40.
Definition F32_DEFAULT_NAN := 0x7fc00000.
Definition F64_DEFAULT_NAN := 0x7ff8000000000000.
Definition default_nan (f : format) : Z :=
  if mbits f =? 23 then F32_DEFAULT_NAN else F64_DEFAULT_NAN.

Definition fpscr_has (fpscr b : Z) : bool := negb ((fpscr .& b) =? 0).

(** [fz_in32], [fz_in64]: the operand and the flags so far. *)
Definition fz_in (f : format) (u exc : Z) : Z * Z :=
  let mag := f_mag f u in
  if negb (mag =? 0) && (mag <? min_normal f)
  then (f_pack f (f_sign f u) 0, exc .| ARM_FPSCR_IDC) else (u, exc).

(** [fz_out32], [fz_out64]. *)
Definition fz_out (f : format) (u exc : Z) : Z * Z :=
  let mag := f_mag f u in
  if negb (mag =? 0) && (mag <? min_normal f)
  then (f_pack f (f_sign f u) 0, (exc .& wnot ARM_FPSCR_IXC) .| ARM_FPSCR_UFC)
  else if (mag =? min_normal f) && fpscr_has exc ARM_FPSCR_IXC
  then (u, exc .| VFP_FZ_AMBIGUOUS) else (u, exc).

(** [dn_out32], [dn_out64]. *)
Definition dn_out (f : format) (u fpscr : Z) : Z :=
  if fpscr_has fpscr ARM_FPSCR_DN && is_nan f u then default_nan f else u.

Definition host_exceptions (raised : Z) : Z :=
  let has x := negb ((raised .& x) =? 0) in
  let f := if has FE_INVALID then ARM_FPSCR_IOC else 0 in
  let f := if has FE_DIVBYZERO then f .| ARM_FPSCR_DZC else f in
  let f := if has FE_OVERFLOW then f .| ARM_FPSCR_OFC else f in
  let f := if has FE_UNDERFLOW then f .| ARM_FPSCR_UFC else f in
  if has FE_INEXACT then f .| ARM_FPSCR_IXC else f.

Definition apply_fz (f : format) (step : format → Z → Z → Z * Z) (fpscr u exc : Z) : Z * Z :=
  if fpscr_has fpscr ARM_FPSCR_FZ then step f u exc else (u, exc).

(** ** One arithmetic operation *)

Section Arith.
Context `{HostFpu}.

(** [x < 0.0]: the answer and what the host raises for it. *)
Definition below_zero (f : format) (u : Z) : bool * Z :=
  if is_nan f u then (false, if is_snan f u || less_signals then FE_INVALID else 0)
  else (f_key f u <? 0, 0).

(** [f32_do], [f64_do]: the result and the flags so far. *)
Definition fp_do (f : format) (op : fop) (a b fpscr exc : Z) : Z * Z :=
  let '(x, e) := apply_fz f fz_in fpscr a 0 in
  let '(y, e) := apply_fz f fz_in fpscr b e in
  let '(neg, signalled) :=
    match op with OP_SQRT => below_zero f x | _ => (false, 0) end in
  let e := if neg then e .| ARM_FPSCR_IOC else e in
  let '(r, raised) := host_op f (host_round_from_fpscr fpscr) op x y in
  let e := e .| host_exceptions (raised .| signalled) in
  let '(r, e) := apply_fz f fz_out fpscr r e in
  (dn_out f r fpscr, exc .| e).

(** ** Float to integer *)

(** A double rounded to an integral value. *)
Inductive integral := Integral (z : Z) | Infinite (negative : bool).

Definition round_integral (mode : rmode) (v : Z) : integral * bool :=
  let s := f_sign binary64 v in
  let mag := f_mag binary64 v in
  if is_inf binary64 v then (Infinite s, false)
  else
    let '(m, inexact) := round_at mode s (f_mant binary64 mag) (f_expo binary64 mag) 0 in
    (Integral (if s then - m else m), inexact).

(** [ceil], [floor], [trunc] and [rint], the last with the host rounding to nearest. *)
Definition fp_round_integral (v fpscr : Z) : integral * bool :=
  round_integral (host_round_from_fpscr fpscr) v.

Definition at_least (x : integral) (k : Z) : bool :=
  match x with Integral z => k <=? z | Infinite s => negb s end.
Definition less_than (x : integral) (k : Z) : bool :=
  match x with Integral z => z <? k | Infinite s => s end.
Definition integer_of (x : integral) : Z := match x with Integral z => z | Infinite _ => 0 end.

Definition fp_to_int (v : Z) (is_signed round_to_zero : bool) (fpscr exc : Z) : Z * Z :=
  if is_nan binary64 v then (0, exc .| ARM_FPSCR_IOC)
  else
    let '(x, differs) :=
      if round_to_zero then round_integral RZ v else fp_round_integral v fpscr in
    let inexact := if differs then exc .| ARM_FPSCR_IXC else exc in
    if is_signed then
      if at_least x 2147483648 then (0x7fffffff, exc .| ARM_FPSCR_IOC)
      else if less_than x (-2147483648) then (0x80000000, exc .| ARM_FPSCR_IOC)
      else (w32 (integer_of x), inexact)
    else
      if at_least x 4294967296 then (0xffffffff, exc .| ARM_FPSCR_IOC)
      else if less_than x 0 then (0, exc .| ARM_FPSCR_IOC)
      else (w32 (integer_of x), inexact).

(** [order] is [None] for unordered operands. *)
Definition cmp_flags_ordered (order : option comparison) : Z :=
  match order with
  | Some Lt => ARM_FPSCR_N
  | Some Eq => ARM_FPSCR_Z .| ARM_FPSCR_C
  | Some Gt => ARM_FPSCR_C
  | None => ARM_FPSCR_C .| ARM_FPSCR_V
  end.

(** ** Short vectors *)

Record vfp_short_vector := MkShape {
  sv_count : Z; sv_stride : Z; sv_bank_mask : Z; sv_bank_size : Z; sv_vector : bool }.

(** [None]: the shape is refused. *)
Definition vfp_short_vector_shape (fpscr : Z) (dbl : bool) (rd : Z) : option vfp_short_vector :=
  let len := (fpscr .& ARM_FPSCR_LEN) .>> 16 in
  let encoded_stride := (fpscr .& ARM_FPSCR_STRIDE) .>> 20 in
  let bank_size := if dbl then 4 else 8 in
  let vector := negb (len =? 0) && (bank_size <=? rd) in
  let shape count stride := MkShape count stride (bank_size - 1) bank_size vector in
  if len =? 0 then
    if negb (encoded_stride =? 0) then None else Some (shape 1 1)
  else
    match (if encoded_stride =? 0 then Some 1 else if encoded_stride =? 3 then Some 2 else None) with
    | None => None
    | Some stride =>
      if negb vector then Some (shape 1 stride)
      else if bank_size / stride <? len + 1 then None
      else Some (shape (len + 1) stride)
    end.

Definition vfp_short_vector_reg (shape : vfp_short_vector) (reg lane : Z)
    (bank_zero_is_scalar : bool) : Z :=
  if negb (sv_vector shape) || (bank_zero_is_scalar && (reg <? sv_bank_size shape)) then reg
  else (reg .& wnot (sv_bank_mask shape)) .|
       ((reg +w (lane *w sv_stride shape)) .& sv_bank_mask shape).

(** The lanes in order, each with the flags of those before it. *)
Fixpoint lanes_from (k : nat) (lane : Z) (f : Z → Z → Z * Z) (exc : Z) : list Z * Z :=
  match k with
  | O => ([], exc)
  | S k => let '(x, exc) := f lane exc in
           let '(xs, exc) := lanes_from k (lane + 1) f exc in (x :: xs, exc)
  end.

Fixpoint write_lanes (dbl : bool) (shape : vfp_short_vector) (rd lane : Z) (result : list Z)
    (c : arm_cpu) : arm_cpu :=
  match result with
  | [] => c
  | x :: xs => write_lanes dbl shape rd (lane + 1) xs
                 (vfp_set dbl (vfp_short_vector_reg shape rd lane false) x c)
  end.

(** Compute every lane before writing any, unless flush-to-zero could not decide. *)
Definition run_lanes (c : arm_cpu) (dbl : bool) (shape : vfp_short_vector) (rd : Z)
    (f : Z → Z → Z * Z) : vfp_result :=
  let '(result, exc) := lanes_from (Z.to_nat (sv_count shape)) 0 f 0 in
  if fpscr_has exc VFP_FZ_AMBIGUOUS then vfp_trap c
  else
    let c := write_lanes dbl shape rd 0 result c in
    (ARM_OK, set_vfp_fpscr (vfp_fpscr c .| exc) c).

(** ** Data processing *)

Inductive vfp_kind :=
  A_VMLA | A_VMLS | A_VNMLS | A_VNMLA | A_VMUL | A_VNMUL | A_VADD | A_VSUB | A_VDIV.

(** One lane of the three-operand group on [d], [n], [m]; the accumulating forms round
    twice. *)
Definition arith_lane (f : format) (kind : vfp_kind) (d n m fpscr exc : Z) : Z * Z :=
  match kind with
  | A_VADD => fp_do f OP_ADD n m fpscr exc
  | A_VSUB => fp_do f OP_SUB n m fpscr exc
  | A_VMUL => fp_do f OP_MUL n m fpscr exc
  | A_VNMUL => let '(r, exc) := fp_do f OP_MUL n m fpscr exc in (f_neg f r, exc)
  | A_VDIV => fp_do f OP_DIV n m fpscr exc
  | A_VMLA | A_VMLS | A_VNMLS | A_VNMLA =>
    let '(p, exc) := fp_do f OP_MUL n m fpscr exc in
    let p := match kind with A_VMLS | A_VNMLA => f_neg f p | _ => p end in
    let d := match kind with A_VNMLA | A_VNMLS => f_neg f d | _ => d end in
    fp_do f OP_ADD d p fpscr exc
  end.

Definition arith_kind (op : Z) (alt : bool) : option vfp_kind :=
  match op with
  | 0 => Some (if alt then A_VMLS else A_VMLA)
  | 1 => Some (if alt then A_VNMLA else A_VNMLS)
  | 2 => Some (if alt then A_VNMUL else A_VMUL)
  | 3 => Some (if alt then A_VSUB else A_VADD)
  | 4 => if alt then None else Some A_VDIV
  | _ => None
  end.

Definition vfp_dp_arith (c : arm_cpu) (insn op : Z) : vfp_result :=
  let dbl := bit insn 8 in
  match arith_kind op (bit insn 6) with
  | None => vfp_trap c
  | Some kind =>
    if mode_bad c MODE_ROUNDING then vfp_trap c
    else if dbl && (bit insn 22 || bit insn 7 || bit insn 5) then vfp_trap c
    else
      let reg f lo := if dbl then f else SREG f lo in
      let rd := reg (fld insn 12 0xf) (bit insn 22) in
      let rn := reg (fld insn 16 0xf) (bit insn 7) in
      let rm := reg (insn .& 0xf) (bit insn 5) in
      let fs := vfp_fpscr c in
      match vfp_short_vector_shape fs dbl rd with
      | None => vfp_trap c
      | Some shape =>
        run_lanes c dbl shape rd (fun lane exc =>
          arith_lane (vfp_fmt dbl) kind
            (vfp_get dbl c (vfp_short_vector_reg shape rd lane false))
            (vfp_get dbl c (vfp_short_vector_reg shape rn lane false))
            (vfp_get dbl c (vfp_short_vector_reg shape rm lane true)) fs exc)
      end
  end.

(** VMOV, VABS, VNEG, VSQRT on registers. *)
Definition vfp_unary (c : arm_cpu) (insn : Z) (negating : bool) : vfp_result :=
  let dbl := bit insn 8 in
  let top := bit insn 7 in
  let D := bit insn 22 in
  let M := bit insn 5 in
  let sqrt_ := negating && top in
  let fs := vfp_fpscr c in
  if mode_bad c (if sqrt_ then MODE_ROUNDING else MODE_EXACT) then vfp_trap c
  else if dbl && (D || M) then vfp_trap c
  else
    let rd := if dbl then fld insn 12 0xf else SREG (fld insn 12 0xf) D in
    let rm := if dbl then insn .& 0xf else SREG (insn .& 0xf) M in
    let f := vfp_fmt dbl in
    match vfp_short_vector_shape fs dbl rd with
    | None => vfp_trap c
    | Some shape =>
      run_lanes c dbl shape rd (fun lane exc =>
        let s := vfp_get dbl c (vfp_short_vector_reg shape rm lane true) in
        if negb negating then (if top then f_mag f s else s, exc)
        else if negb top then (f_neg f s, exc)
        else fp_do f OP_SQRT s 0 fs exc)
    end.

(** VCMP, VCMPE. *)
Definition vfp_compare (c : arm_cpu) (insn : Z) (zero : bool) : vfp_result :=
  let dbl := bit insn 8 in
  let top := bit insn 7 in
  let D := bit insn 22 in
  let M := bit insn 5 in
  let vm := insn .& 0xf in
  let fs := vfp_fpscr c in
  if mode_bad c MODE_VALUES then vfp_trap c
  else if zero && (negb (vm =? 0) || M) then vfp_trap c
  else if dbl && (D || M) then vfp_trap c
  else
    let rd := if dbl then fld insn 12 0xf else SREG (fld insn 12 0xf) D in
    let rm := if dbl then vm else SREG vm M in
    let f := vfp_fmt dbl in
    let ua := vfp_get dbl c rd in
    let ub := if zero then 0 else vfp_get dbl c rm in
    let '(a, exc) := apply_fz f fz_in fs ua 0 in
    let '(b, exc) := apply_fz f fz_in fs ub exc in
    let nan_op := is_nan f a || is_nan f b in
    let snan_op := is_snan f ua || (negb zero && is_snan f ub) in
    let order := if nan_op then None else Some (f_compare f a b) in
    let exc := if snan_op || (top && nan_op) then exc .| ARM_FPSCR_IOC else exc in
    (ARM_OK, set_vfp_fpscr ((fs .& wnot ARM_FPSCR_NZCV) .| cmp_flags_ordered order .| exc) c).

(** VCVT between single and double. *)
Definition vfp_convert_width (c : arm_cpu) (insn : Z) : vfp_result :=
  let dbl := bit insn 8 in
  let D := bit insn 22 in
  let M := bit insn 5 in
  let vd := fld insn 12 0xf in
  let vm := insn .& 0xf in
  let fs := vfp_fpscr c in
  if negb (bit insn 7) then vfp_trap c
  else if mode_bad c (if dbl then MODE_ROUNDING else MODE_VALUES) then vfp_trap c
  else if dbl then
    if M then vfp_trap c
    else
      let '(s, exc) := apply_fz binary64 fz_in fs (vfp_get_d c vm) 0 in
      let '(r, raised) := narrow (host_round_from_fpscr fs) s in
      let exc := exc .| host_exceptions raised in
      let '(r, exc) := apply_fz binary32 fz_out fs r exc in
      if fpscr_has exc VFP_FZ_AMBIGUOUS then vfp_trap c
      else
        let c := vfp_set_s (SREG vd D) (dn_out binary32 r fs) c in
        (ARM_OK, set_vfp_fpscr (vfp_fpscr c .| exc) c)
  else if D then vfp_trap c
  else
    let '(s, exc) := apply_fz binary32 fz_in fs (vfp_get_s c (SREG vm M)) 0 in
    let '(r, raised) := widen s in
    let exc := exc .| host_exceptions raised in
    let c := vfp_set_d vd (dn_out binary64 r fs) c in
    (ARM_OK, set_vfp_fpscr (vfp_fpscr c .| exc) c).

(** VCVT from a 32-bit integer. *)
Definition vfp_from_integer (c : arm_cpu) (insn : Z) : vfp_result :=
  let dbl := bit insn 8 in
  let D := bit insn 22 in
  let vd := fld insn 12 0xf in
  if mode_bad c (if dbl then MODE_EXACT else MODE_ROUNDING) then vfp_trap c
  else
    let raw := vfp_get_s c (SREG (insn .& 0xf) (bit insn 5)) in
    let exact := of_integer (if bit insn 7 then s32 raw else raw) in
    if dbl then
      if D then vfp_trap c else (ARM_OK, vfp_set_d vd exact c)
    else
      let '(r, raised) := narrow (host_round_from_fpscr (vfp_fpscr c)) exact in
      let c := vfp_set_s (SREG vd D) r c in
      (ARM_OK, set_vfp_fpscr (vfp_fpscr c .| host_exceptions raised) c).

(** VCVT, VCVTR to a 32-bit integer. *)
Definition vfp_to_integer (c : arm_cpu) (insn : Z) (is_signed : bool) : vfp_result :=
  let dbl := bit insn 8 in
  let M := bit insn 5 in
  let vm := insn .& 0xf in
  let fs := vfp_fpscr c in
  if mode_bad c MODE_VALUES then vfp_trap c
  else if dbl && M then vfp_trap c
  else
    let '(v, exc) :=
      if dbl then apply_fz binary64 fz_in fs (vfp_get_d c vm) 0
      else
        let '(s, exc) := apply_fz binary32 fz_in fs (vfp_get_s c (SREG vm M)) 0 in
        (fst (widen s), exc) in
    let '(n, exc) := fp_to_int v is_signed (bit insn 7) fs exc in
    let c := vfp_set_s (SREG (fld insn 12 0xf) (bit insn 22)) n c in
    (ARM_OK, set_vfp_fpscr (vfp_fpscr c .| exc) c).

Definition vfp_dp_other (c : arm_cpu) (insn : Z) : vfp_result :=
  match fld insn 16 0xf with
  | 0 => vfp_unary c insn false
  | 1 => vfp_unary c insn true
  | 4 => vfp_compare c insn false
  | 5 => vfp_compare c insn true
  | 7 => vfp_convert_width c insn
  | 8 => vfp_from_integer c insn
  | 12 => vfp_to_integer c insn false
  | 13 => vfp_to_integer c insn true
  | _ => vfp_trap c
  end.

Definition vfp_dp (c : arm_cpu) (insn : Z) : vfp_result :=
  let b i := if bit insn i then 1 else 0 in
  let op := Z.shiftl (b 23) 2 .| Z.shiftl (b 21) 1 .| b 20 in
  if op =? 7 then
    if bit insn 6 then vfp_dp_other c insn else vfp_trap c
  else vfp_dp_arith c insn op.

End Arith.

(** ** Register transfers *)

(** VMOV between a core register and a single register or half of a double. *)
Definition vmov_core (c : arm_cpu) (insn sn : Z) : vfp_result :=
  let rt := fld insn 12 0xf in
  if rt =? 15 then vfp_trap c
  else if bit insn 20 then (ARM_OK, set_reg rt (vfp_get_s c sn) c)
  else (ARM_OK, vfp_set_s sn (r c rt) c).

Definition vmrs (c : arm_cpu) (insn : Z) : vfp_result :=
  let vn := fld insn 16 0xf in
  let rt := fld insn 12 0xf in
  if (rt =? 15) && negb (vn =? 1) then vfp_trap c
  else
    match (match vn with
           | 0 => Some ARM1176_FPSID | 1 => Some (vfp_fpscr c) | 8 => Some (vfp_fpexc c)
           | _ => None end) with
    | None => vfp_trap c
    | Some v =>
      if rt =? 15 then (ARM_OK, set_cpsr ((cpsr c .& 0x0fffffff) .| (v .& 0xf0000000)) c)
      else (ARM_OK, set_reg rt v c)
    end.

Definition vmsr (c : arm_cpu) (insn : Z) : vfp_result :=
  let rt := fld insn 12 0xf in
  if rt =? 15 then vfp_trap c
  else
    match fld insn 16 0xf with
    | 1 => (ARM_OK, set_vfp_fpscr (r c rt .& ARM_FPSCR_WMASK) c)
    | 8 => (ARM_OK, set_vfp_fpexc (r c rt) c)
    | _ => vfp_trap c
    end.

Definition vfp_xfer32 (c : arm_cpu) (insn : Z) : vfp_result :=
  let opc1 := fld insn 21 7 in
  let cp11 := bit insn 8 in
  let vn := fld insn 16 0xf in
  if negb cp11 && (opc1 =? 0) then
    if negb ((insn .& 0x6f) =? 0) then vfp_trap c else vmov_core c insn (SREG vn (bit insn 7))
  else if cp11 && (opc1 <=? 1) then
    if bit insn 7 then vfp_trap c
    else if negb ((insn .& 0x6f) =? 0) then vfp_trap c
    else vmov_core c insn (SREG vn (negb (opc1 =? 0)))
  else if cp11 then vfp_trap c
  else if negb (opc1 =? 7) then vfp_trap c
  else if negb ((insn .& 0xef) =? 0) then vfp_trap c
  else if (vn =? 8) && (mode_of c =? ARM_MODE_USR) then vfp_guest_undefined c
  else if (vn =? 0) && negb (vfp_enabled c) && (mode_of c =? ARM_MODE_USR)
  then vfp_guest_undefined c
  else if bit insn 20 then vmrs c insn else vmsr c insn.

Definition vfp_xfer64 (c : arm_cpu) (insn : Z) : vfp_result :=
  let L := bit insn 20 in
  let M := bit insn 5 in
  let rt2 := fld insn 16 0xf in
  let rt := fld insn 12 0xf in
  let vm := insn .& 0xf in
  if negb ((insn .& 0xc0) =? 0) then vfp_trap c
  else if (rt =? 15) || (rt2 =? 15) then vfp_trap c
  else if bit insn 8 then
    if M then vfp_trap c
    else if L then
      let v := vfp_get_d c vm in
      (ARM_OK, set_reg rt2 (w32 (v .>> 32)) (set_reg rt (w32 v) c))
    else (ARM_OK, vfp_set_d vm (r c rt .| Z.shiftl (r c rt2) 32) c)
  else
    let sm := SREG vm M in
    if sm =? 31 then vfp_trap c
    else if L then
      let c := set_reg rt (vfp_get_s c sm) c in
      (ARM_OK, set_reg rt2 (vfp_get_s c (sm + 1)) c)
    else
      let c := vfp_set_s sm (r c rt) c in
      (ARM_OK, vfp_set_s (sm + 1) (r c rt2) c).

(** ** Loads and stores *)

Section Transfers.
Context {B : Type} `{Bus B}.

(** Each moves one register and says whether to go on. *)
Definition vfp_load_reg (dbl : bool) (n : Z) (m : mach B) (addr : Z) : bool * mach B :=
  let '(lo, m) := vfp_mem_r32 m addr in
  if abort_pending (cpu m) then (false, m)
  else if dbl then
    let '(hi, m) := vfp_mem_r32 m (addr +w 4) in
    if abort_pending (cpu m) then (false, m)
    else (true, on_cpu (vfp_set_d n (lo .| Z.shiftl hi 32)) m)
  else (true, on_cpu (vfp_set_s n lo) m).

Definition vfp_store_reg (dbl : bool) (n : Z) (m : mach B) (addr : Z) : bool * mach B :=
  if dbl then
    let v := vfp_get_d (cpu m) n in
    let m := vfp_mem_w32 m addr (w32 v) in
    if abort_pending (cpu m) then (false, m)
    else
      let m := vfp_mem_w32 m (addr +w 4) (w32 (v .>> 32)) in
      (negb (abort_pending (cpu m)), m)
  else
    let m := vfp_mem_w32 m addr (vfp_get_s (cpu m) n) in
    (negb (abort_pending (cpu m)), m).

Definition vfp_move_reg (L dbl : bool) (n : Z) (m : mach B) (addr : Z) : bool * mach B :=
  if L then vfp_load_reg dbl n m addr else vfp_store_reg dbl n m addr.

Fixpoint vfp_move_list (k : nat) (L dbl : bool) (n : Z) (m : mach B) (addr : Z) : bool * mach B :=
  match k with
  | O => (true, m)
  | S k =>
    let '(go, m) := vfp_move_reg L dbl n m addr in
    if go then vfp_move_list k L dbl (n + 1) m (addr +w (if dbl then 8 else 4)) else (false, m)
  end.

(** The reserved word of FLDMX / FSTMX. *)
Definition vfp_move_tail (L : bool) (m : mach B) (addr : Z) : bool * mach B :=
  let m := if L then snd (vfp_mem_r32 m addr) else vfp_mem_w32 m addr 0 in
  (negb (abort_pending (cpu m)), m).

Definition vfp_block (m : mach B) (insn base : Z) : arm_status * mach B :=
  let U := bit insn 23 in
  let D := bit insn 22 in
  let W := bit insn 21 in
  let L := bit insn 20 in
  let vd := fld insn 12 0xf in
  let dbl := bit insn 8 in
  let imm8 := insn .& 0xff in
  let first := if dbl then vd else SREG vd D in
  let count := if dbl then imm8 / 2 else imm8 in
  if imm8 =? 0 then (ARM_UNDEFINED, m)
  else if dbl && D then (ARM_UNDEFINED, m)
  else if (if dbl then 16 else 32) <? first + count then (ARM_UNDEFINED, m)
  else
    let addr := if U then base else base -w (imm8 * 4) in
    let '(go, m) := vfp_move_list (Z.to_nat count) L dbl first m addr in
    if negb go then (ARM_OK, m)
    else
      let '(go, m) := if dbl && bit imm8 0 then vfp_move_tail L m (addr +w (count * 8))
                      else (true, m) in
      if negb go then (ARM_OK, m)
      else if W then
        (ARM_OK, on_cpu (set_reg (fld insn 16 0xf)
                           (if U then base +w (imm8 * 4) else base -w (imm8 * 4))) m)
      else (ARM_OK, m).

Definition vfp_ldst (m : mach B) (pc insn : Z) : arm_status * mach B :=
  let P := bit insn 24 in
  let U := bit insn 23 in
  let D := bit insn 22 in
  let W := bit insn 21 in
  let L := bit insn 20 in
  let rn := fld insn 16 0xf in
  let vd := fld insn 12 0xf in
  let dbl := bit insn 8 in
  let imm8 := insn .& 0xff in
  if negb P && negb U && negb W then (ARM_UNDEFINED, m)
  else if P && U && W then (ARM_UNDEFINED, m)
  else if (rn =? 15) && (W || negb P) then (ARM_UNDEFINED, m)
  else
    let base := if rn =? 15 then pc +w 8 else r (cpu m) rn in
    if P && negb W then
      let addr := if U then base +w (imm8 * 4) else base -w (imm8 * 4) in
      if dbl && D then (ARM_UNDEFINED, m)
      else
        let n := if dbl then vd else SREG vd D in
        (ARM_OK, snd (vfp_move_reg L dbl n m addr))
    else vfp_block m insn base.

Context `{HostFpu}.

Definition vfp_execute_inner (m : mach B) (pc insn : Z) : arm_status * mach B :=
  let c := cpu m in
  let keep (o : vfp_result) := (fst o, set_cpu (snd o) m) in
  let is_sysreg := (insn .& 0x0fe00f10) =? 0x0ee00a10 in
  let crn := fld insn 16 0xf in
  if negb (vfp_cpacr_permits c) then (ARM_UNDEFINED, m)
  else if negb (vfp_enabled c) && (negb is_sysreg || (negb (crn =? 0) && negb (crn =? 8)))
  then (ARM_UNDEFINED, m)
  else if (insn .& 0x0f000e10) =? 0x0e000a10 then keep (vfp_xfer32 c insn)
  else if (insn .& 0x0f000e10) =? 0x0e000a00 then keep (vfp_dp c insn)
  else if (insn .& 0x0fe00e00) =? 0x0c400a00 then keep (vfp_xfer64 c insn)
  else if (insn .& 0x0e000e00) =? 0x0c000a00 then vfp_ldst m pc insn
  else (ARM_UNDEFINED, m).

(** The host's rounding mode follows FPSCR for the one instruction. *)
Definition vfp_execute (m : mach B) (pc insn : Z) : arm_status * mach B :=
  if (vfp_fpscr (cpu m) .& ARM_FPSCR_RMODE) =? 0 then vfp_execute_inner m pc insn
  else if round_refused (host_round_from_fpscr (vfp_fpscr (cpu m))) then (ARM_UNDEFINED, m)
  else vfp_execute_inner m pc insn.

End Transfers.
