(* ===== verification/ExecCp.v ===== *)
(** * Coprocessors and the host service call

    [exec_coprocessor] (CP14, CP15, WFI) and [privileged_svc_result] of
    [core/src/arm/arm_interp.c].  CP10/CP11 go to the VFP unit of Vfp.v. *)

From S2P Require Import Prelude State Cpu Bus Mmu MemAccess Float Vfp.

(** ** Identification registers *)

Definition ARM1176_MIDR := 0x410fb767.
Definition ARM1176_CACHE_TYPE := 0x1d152152.

Definition id_crm1 (opc2 : Z) : Z :=
  match opc2 with
  | 0 => 0x00000111 | 1 => 0x00000001 | 4 => 0x01130003 | 5 => 0x10030302
  | 6 => 0x01222100 | _ => 0
  end.

Definition id_crm2 (opc2 : Z) : Z :=
  match opc2 with
  | 0 => 0x00140011 | 1 => 0x12002111 | 2 => 0x11231121 | 3 => 0x01102131
  | 4 => 0x00000141 | _ => 0
  end.

(** ** MRC: the value read *)

Definition cp15_read (p : arm_cp15) (crn crm opc2 : Z) : Z :=
  match crn with
  | 0 =>
    if crm =? 0 then
      if opc2 =? 0 then ARM1176_MIDR
      else if opc2 =? 1 then ARM1176_CACHE_TYPE else 0
    else if crm =? 1 then id_crm1 opc2
    else if crm =? 2 then id_crm2 opc2 else 0
  | 1 =>
    if crm =? 0 then
      match opc2 with 0 => sctlr p | 1 => actlr p | 2 => cpacr p | _ => 0 end
    else 0
  | 2 =>
    if crm =? 0 then
      match opc2 with 0 => ttbr0 p | 1 => ttbr1 p | 2 => ttbcr p | _ => 0 end
    else 0
  | 3 => dacr p
  | 5 => if opc2 =? 1 then ifsr p else dfsr p
  | 6 => if opc2 =? 2 then ifar p else dfar p
  | 13 =>
    match opc2 with
    | 1 => context_id p | 2 => tpidrurw p | 3 => tpidruro p | 4 => tpidrprw p
    | _ => fcse_pid p
    end
  | _ => 0
  end.

(** ** MCR: the register written, and whether the TLB is flushed *)

Definition cp15_write (p : arm_cp15) (crn crm opc2 v : Z) : arm_cp15 * bool :=
  match crn with
  | 1 =>
    if crm =? 0 then
      match opc2 with
      | 0 => (set_sctlr v p, true)
      | 1 => (set_actlr v p, false)
      | 2 => (set_cpacr v p, false)
      | _ => (p, false)
      end
    else (p, false)
  | 2 =>
    if crm =? 0 then
      (match opc2 with
       | 0 => set_ttbr0 v p
       | 1 => set_ttbr1 v p
       | 2 => set_ttbcr (v .& 0x37) p
       | _ => p
       end, true)
    else (p, false)
  | 3 => (set_dacr v p, true)
  | 5 => (if opc2 =? 1 then set_ifsr v p else set_dfsr v p, false)
  | 6 => (if opc2 =? 2 then set_ifar v p else set_dfar v p, false)
  | 7 => (p, false)
  | 8 => (p, true)
  | 13 =>
    match opc2 with
    | 1 => (set_context_id v p, true)
    | 2 => (set_tpidrurw v p, false)
    | 3 => (set_tpidruro v p, false)
    | 4 => (set_tpidrprw v p, false)
    | _ => (set_fcse_pid v p, false)
    end
  | _ => (p, false)
  end.

Definition set_lines (irq fiq : bool) (c : arm_cpu) : arm_cpu :=
  set_fiq_line fiq (set_irq_line irq c).

(** CP15 access from User mode. *)
Definition cp15_user_allowed (load : bool) (crn crm opc2 : Z) : bool :=
  (crn =? 7) || ((crn =? 13) && (crm =? 0) && (opc2 =? 2)) ||
  ((crn =? 13) && (crm =? 0) && (opc2 =? 3) && load).

Section Coprocessor.
Context {B : Type} `{Bus B} `{HostFpu}.

Definition exec_cp14 (m : mach B) (insn : Z) : arm_status * mach B :=
  if negb (cpu_is_priv (cpu m)) then (ARM_UNDEFINED, m)
  else (ARM_OK, if bit insn 20 then on_cpu (set_reg (fld insn 12 0xf) 0) m else m).

Definition exec_wfi (m : mach B) (pc rd : Z) : arm_status * mach B :=
  let c := cpu m in
  if negb (cpu_is_priv c) then (ARM_UNDEFINED, m)
  else if negb (reg_read c pc rd =? 0) then (ARM_UNDEFINED, m)
  else
    match wait_for_interrupt (bus m) with
    | None => (ARM_OK, m)
    | Some wait =>
      let '(irq, fiq, b) := wait (irq_line c) (fiq_line c) in
      (ARM_OK, Mach (set_lines irq fiq c) b)
    end.

Definition exec_cp15 (m : mach B) (pc insn : Z) : arm_status * mach B :=
  let c := cpu m in
  let load := bit insn 20 in
  let opc1 := fld insn 21 7 in
  let crn := fld insn 16 0xf in
  let rd := fld insn 12 0xf in
  let opc2 := fld insn 5 7 in
  let crm := insn .& 0xf in
  if negb load && (opc1 =? 0) && (crn =? 7) && (opc2 =? 4) && (crm =? 0)
  then exec_wfi m pc rd
  else if negb (cpu_is_priv c) && negb (cp15_user_allowed load crn crm opc2)
  then (ARM_UNDEFINED, m)
  else if load then (ARM_OK, on_cpu (set_reg rd (cp15_read (cp15 c) crn crm opc2)) m)
  else
    let '(p, flush) := cp15_write (cp15 c) crn crm opc2 (reg_read c pc rd) in
    let c := set_cp15 p c in
    (ARM_OK, set_cpu (if flush then arm_mmu_tlb_flush c else c) m).

Definition exec_coprocessor (m : mach B) (pc insn : Z) : arm_status * mach B :=
  let cp := fld insn 8 0xf in
  if cp =? 14 then exec_cp14 m insn
  else if (cp =? 10) || (cp =? 11) then vfp_execute m pc insn
  else if negb (cp =? 15) then (ARM_UNDEFINED, m)
  else exec_cp15 m pc insn.

(** ** The host service call *)

(** The result code and the machine; the core is rolled back unless the handler
    answered HANDLED or REDIRECTED. *)
Definition privileged_svc_result (m : mach B) (pc encoding : Z) : Z * mach B :=
  if negb (cpu_is_priv (cpu m)) then (ARM_SVC_UNHANDLED, m)
  else
    match privileged_svc_handler (bus m) with
    | None => (ARM_SVC_UNHANDLED, m)
    | Some handler =>
      let '(result, c, b) := handler (cpu m) pc encoding in
      if (result =? ARM_SVC_HANDLED) || (result =? ARM_SVC_REDIRECTED)
      then (result, Mach c b)
      else if result =? ARM_SVC_ERROR
      then (ARM_SVC_ERROR, Mach (set_cycles (w64 (cycles (cpu m) - 1)) (cpu m)) b)
      else (ARM_SVC_UNHANDLED, Mach (cpu m) b)
    end.

(** SVC, ARM or Thumb: [ret] is the return address. *)
Definition exec_svc (m : mach B) (pc encoding ret next : Z) : arm_status * Z * mach B :=
  let '(result, m) := privileged_svc_result m pc encoding in
  if result =? ARM_SVC_ERROR then (ARM_HALT, next, m)
  else if result =? ARM_SVC_REDIRECTED then (ARM_OK, r (cpu m) 15, m)
  else if result =? ARM_SVC_HANDLED then (ARM_OK, next, m)
  else
    let '(vec, c) := take_exception (cpu m) ARM_VEC_SWI ARM_MODE_SVC ret false in
    (ARM_OK, vec, set_cpu c m).

End Coprocessor.
