(* ===== verification/Sync.v ===== *)
(** * Exclusive accesses and SWP

    The LDREX/STREX family and SWP/SWPB of [arm_step]
    ([core/src/arm/arm_interp.c]), with the one-address local monitor
    ([excl_valid], [excl_addr]). *)

From S2P Require Import Prelude State Cpu Bus Mmu MemAccess.

Definition set_monitor (addr : Z) (c : arm_cpu) : arm_cpu :=
  set_excl_addr addr (set_excl_valid true c).

Definition monitor_holds (c : arm_cpu) (addr : Z) : bool :=
  excl_valid c && (excl_addr c =? addr).

Section Exclusive.
Context {B : Type} `{Bus B}.

Definition sync_result : Type := arm_status * mach B.

(** [if (prepare_sync_address(...)) body] *)
Definition with_sync_address (m : mach B) (addr alignment : Z) (write : bool)
    (body : mach B → mach B) : sync_result :=
  let '(stop, c) := prepare_sync_address (cpu m) addr alignment write in
  let m := set_cpu c m in
  match stop with
  | Some st => (st, m)
  | None => (ARM_OK, body m)
  end.

(** LDREX, LDREXB, LDREXH after the checks: [n] bytes into Rd, monitor armed. *)
Definition load_exclusive (n rd addr : Z) (m : mach B) : mach B :=
  let '(v, m) := mem_read n m addr in
  if abort_pending (cpu m) then m
  else on_cpu (fun c => set_monitor addr (set_reg rd v c)) m.

Definition exec_ldrex (n : Z) (m : mach B) (insn : Z) : sync_result :=
  let rn := fld insn 16 0xf in
  let rd := fld insn 12 0xf in
  if (rn =? 15) || (rd =? 15) then (ARM_UNDEFINED, m)
  else
    let addr := r (cpu m) rn in
    if n =? 1 then (ARM_OK, load_exclusive 1 rd addr m)
    else with_sync_address m addr n false (load_exclusive n rd addr).

Definition exec_ldrexd (m : mach B) (insn : Z) : sync_result :=
  let rn := fld insn 16 0xf in
  let rd := fld insn 12 0xf in
  if (rn =? 15) || bit rd 0 || (rd =? 14) then (ARM_UNDEFINED, m)
  else
    let addr := r (cpu m) rn in
    with_sync_address m addr 8 false (fun m =>
      let '(lo, m) := mem_r32 m addr in
      if abort_pending (cpu m) then m
      else
        let '(hi, m) := mem_r32 m (addr +w 4) in
        if abort_pending (cpu m) then m
        else on_cpu (fun c => set_monitor addr (set_reg (rd + 1) hi (set_reg rd lo c))) m).

(** The store is performed by [store] when the monitor holds; Rd is 0 or 1; the
    monitor is consumed either way. *)
Definition store_exclusive (rd addr : Z) (store : mach B → mach B) (m : mach B) : mach B :=
  let m :=
    if monitor_holds (cpu m) addr then
      let m := store m in
      if abort_pending (cpu m) then m else on_cpu (set_reg rd 0) m
    else on_cpu (set_reg rd 1) m in
  on_cpu (set_excl_valid false) m.

(** Base STREX translates for writing before it consults the monitor. *)
Definition strex_checked (rd addr : Z) (store : mach B → mach B) (m : mach B) : mach B :=
  match arm_mmu_translate m addr ARM_ACCESS_WRITE (cpu_is_priv (cpu m)) with
  | (Fault fsr, m) =>
    on_cpu (fun c => set_excl_valid false (note_abort c fsr addr)) m
  | (Phys _, m) => store_exclusive rd addr store m
  end.

Definition strex_refused (insn : Z) : bool :=
  let rn := fld insn 16 0xf in
  let rd := fld insn 12 0xf in
  let rm := insn .& 0xf in
  (rn =? 15) || (rd =? 15) || (rm =? 15) || (rd =? rn) || (rd =? rm).

Definition exec_strex (n : Z) (m : mach B) (insn : Z) : sync_result :=
  let rd := fld insn 12 0xf in
  let rm := insn .& 0xf in
  if strex_refused insn then (ARM_UNDEFINED, m)
  else
    let addr := r (cpu m) (fld insn 16 0xf) in
    let store m := mem_write n m addr (wrap (8 * n) (r (cpu m) rm)) in
    if n =? 1 then (ARM_OK, store_exclusive rd addr store m)
    else with_sync_address m addr n true
           (if n =? 4 then strex_checked rd addr store else store_exclusive rd addr store).

Definition strexd_refused (insn : Z) : bool :=
  let rn := fld insn 16 0xf in
  let rd := fld insn 12 0xf in
  let rm := insn .& 0xf in
  (rn =? 15) || (rd =? 15) || bit rm 0 || (rm =? 14) || (rd =? rn) || (rd =? rm) ||
  (rd =? rm + 1).

Definition exec_strexd (m : mach B) (insn : Z) : sync_result :=
  let rd := fld insn 12 0xf in
  let rm := insn .& 0xf in
  if strexd_refused insn then (ARM_UNDEFINED, m)
  else
    let addr := r (cpu m) (fld insn 16 0xf) in
    let store m :=
      let m := mem_w32 m addr (r (cpu m) rm) in
      if abort_pending (cpu m) then m
      else mem_w32 m (addr +w 4) (r (cpu m) (rm + 1)) in
    with_sync_address m addr 8 true (store_exclusive rd addr store).

Definition exec_swp (m : mach B) (insn : Z) : sync_result :=
  let c := cpu m in
  let rn := fld insn 16 0xf in
  let rd := fld insn 12 0xf in
  let rm := insn .& 0xf in
  let byte := bit insn 22 in
  if (rn =? 15) || (rd =? 15) || (rm =? 15) || (rn =? rm) || (rn =? rd)
  then (ARM_UNDEFINED, m)
  else
    let addr := r c rn in
    if negb byte && negb ((addr .& 3) =? 0) &&
       negb ((sctlr (cp15 c) .& (ARM_SCTLR_U .| ARM_SCTLR_A)) =? 0)
    then (ARM_OK, on_cpu (fun c => note_alignment_abort c addr true) m)
    else
      let '(old, m) := if byte then mem_r8 m addr else mem_r32 m addr in
      if abort_pending (cpu m) then (ARM_OK, m)
      else
        let v := r (cpu m) rm in
        let m := if byte then mem_w8 m addr (w8 v) else mem_w32 m addr v in
        (ARM_OK, if abort_pending (cpu m) then m else on_cpu (set_reg rd old) m).

End Exclusive.
