(* ===== verification/Thumb.v ===== *)
(** * The Thumb instruction set

    [thumb_step] of [core/src/arm/arm_interp.c]: one definition per case of its
    switch on [insn >> 12], on a 16-bit encoding.  Thumb reuses the shifter, adder,
    memory accessors and block loops of the ARM state. *)

From S2P Require Import Prelude State Cpu Bus Mmu MemAccess Alu ExecMedia ExecXfer ExecCp.

(** [TB(n)], the 3-bit register field. *)
Definition TB (insn n : Z) : Z := fld insn n 7.

Section Thumb.
Context {B : Type} `{Bus B}.

Definition t_result : Type := @moutcome B.

Definition t_undefined (m : mach B) (next : Z) : t_result := (ARM_UNDEFINED, next, m).
Definition t_cpu (m : mach B) (next : Z) (c : arm_cpu) : t_result := (ARM_OK, next, set_cpu c m).
Definition t_write (m : mach B) (next rd v : Z) : t_result := t_cpu m next (set_reg rd v (cpu m)).

(** [v = mem_r..(); if (c->abort_pending) return ARM_OK; c->r[rd] = v;] *)
Definition t_load (next rd : Z) (vm : Z * mach B) : t_result :=
  let '(v, m) := vm in
  if abort_pending (cpu m) then (ARM_OK, next, m) else t_write m next rd v.

(** [c->r[rd] = alu_..(c, ...)] *)
Definition t_alu (m : mach B) (next rd : Z) (rc : Z * arm_cpu) : t_result :=
  t_cpu m next (set_reg rd (fst rc) (snd rc)).

(** Write a shifter or logical result and set the logical flags. *)
Definition t_logic (m : mach B) (next rd : Z) (rc : Z * bool) : t_result :=
  t_cpu m next (alu_logic_flags (set_reg rd (fst rc) (cpu m)) (fst rc) (snd rc) true).

(** Cases 0x0, 0x1. *)
Definition thumb_shift_add (m : mach B) (insn next : Z) : t_result :=
  let c := cpu m in
  let rd := TB insn 0 in
  let rs := TB insn 3 in
  if (insn .& 0xf800) =? 0x1800 then
    let op2 := if bit insn 10 then TB insn 6 else r c (TB insn 6) in
    t_alu m next rd (if bit insn 9 then alu_sub c (r c rs) op2 1 true
                     else alu_add c (r c rs) op2 0 true)
  else
    t_logic m next rd
      (barrel_shift (r c rs) (fld insn 11 3) (fld insn 6 0x1f) false (get_flag c ARM_CPSR_C)).

(** Cases 0x2, 0x3. *)
Definition thumb_imm8 (m : mach B) (insn next : Z) : t_result :=
  let c := cpu m in
  let rd := fld insn 8 7 in
  let imm := insn .& 0xff in
  match fld insn 11 3 with
  | 0 => t_logic m next rd (imm, get_flag c ARM_CPSR_C)
  | 1 => t_cpu m next (snd (alu_sub c (r c rd) imm 1 true))
  | 2 => t_alu m next rd (alu_add c (r c rd) imm 0 true)
  | _ => t_alu m next rd (alu_sub c (r c rd) imm 1 true)
  end.

(** The sixteen register ALU operations. *)
Definition thumb_alu (m : mach B) (insn next : Z) : t_result :=
  let c := cpu m in
  let rd := TB insn 0 in
  let a := r c rd in
  let b := r c (TB insn 3) in
  let carry := get_flag c ARM_CPSR_C in
  let cin := if carry then 1 else 0 in
  let shift type := t_logic m next rd (barrel_shift a type (b .& 0xff) true carry) in
  match fld insn 6 0xf with
  | 0x0 => t_logic m next rd (a .& b, carry)
  | 0x1 => t_logic m next rd (a .^ b, carry)
  | 0x2 => shift 0
  | 0x3 => shift 1
  | 0x4 => shift 2
  | 0x5 => t_alu m next rd (alu_add c a b cin true)
  | 0x6 => t_alu m next rd (alu_sub c a b cin true)
  | 0x7 => shift 3
  | 0x8 => t_cpu m next (alu_logic_flags c (a .& b) carry true)
  | 0x9 => t_alu m next rd (alu_sub c 0 b 1 true)
  | 0xa => t_cpu m next (snd (alu_sub c a b 1 true))
  | 0xb => t_cpu m next (snd (alu_add c a b 0 true))
  | 0xc => t_logic m next rd (a .| b, carry)
  | 0xd =>
    let res := a *w b in
    t_cpu m next (set_flag (set_flag (set_reg rd res c) ARM_CPSR_N (bit res 31))
                    ARM_CPSR_Z (res =? 0))
  | 0xe => t_logic m next rd (a .& wnot b, carry)
  | _ => t_logic m next rd (wnot b, carry)
  end.

(** BX / BLX (register). *)
Definition thumb_bx (m : mach B) (pc insn sv rs next : Z) : t_result :=
  let c := cpu m in
  if bit insn 7 && (rs =? 15) then t_undefined m next
  else if (sv .& 3) =? 2 then t_undefined m next
  else
    let c := if bit insn 7 then set_reg 14 ((pc +w 2) .| 1) c else c in
    let c := if negb (bit sv 0) then set_cpsr (cpsr c .& wnot ARM_CPSR_T) c else c in
    (ARM_OK, sv .& wnot 1, set_cpu c m).

(** High-register operations. *)
Definition thumb_hireg (m : mach B) (pc insn next : Z) : t_result :=
  let c := cpu m in
  let pc4 := pc +w 4 in
  let rd := TB insn 0 .| ((insn .>> 4) .& 8) in
  let rs := TB insn 3 .| ((insn .>> 3) .& 8) in
  let sv := if rs =? 15 then pc4 else r c rs in
  match fld insn 8 3 with
  | 0 => if rd =? 15 then (ARM_OK, (pc4 +w sv) .& wnot 1, m)
         else t_write m next rd (r c rd +w sv)
  | 1 => t_cpu m next (snd (alu_sub c (if rd =? 15 then pc4 else r c rd) sv 1 true))
  | 2 => if rd =? 15 then (ARM_OK, sv .& wnot 1, m) else t_write m next rd sv
  | _ => thumb_bx m pc insn sv rs next
  end.

(** Case 0x4. *)
Definition thumb_case4 (m : mach B) (pc insn next : Z) : t_result :=
  if (insn .& 0xfc00) =? 0x4000 then thumb_alu m insn next
  else if (insn .& 0xfc00) =? 0x4400 then thumb_hireg m pc insn next
  else
    let addr := ((pc +w 4) .& wnot 3) +w ((insn .& 0xff) .<< 2) in
    t_load next (fld insn 8 7) (mem_r32 m addr).

(** Case 0x5. *)
Definition thumb_reg_offset (m : mach B) (insn next : Z) : t_result :=
  let c := cpu m in
  let rd := TB insn 0 in
  let addr := r c (TB insn 3) +w r c (TB insn 6) in
  if bit insn 9 then
    let op := fld insn 10 3 in
    if negb (op =? 1) && legacy_halfword_unpredictable c addr then t_undefined m next
    else match op with
         | 0 => (ARM_OK, next, mem_w16 m addr (w16 (r c rd)))
         | 1 => t_load next rd (let '(v, m) := mem_r8 m addr in (w32 (s8 v), m))
         | 2 => t_load next rd (mem_r16 m addr)
         | _ => t_load next rd (let '(v, m) := mem_r16 m addr in (w32 (s16 v), m))
         end
  else
    let byte := bit insn 10 in
    if bit insn 11 then t_load next rd (if byte then mem_r8 m addr else mem_r32 m addr)
    else (ARM_OK, next, if byte then mem_w8 m addr (w8 (r c rd)) else mem_w32 m addr (r c rd)).

(** Cases 0x6, 0x7. *)
Definition thumb_imm5 (m : mach B) (insn next : Z) : t_result :=
  let c := cpu m in
  let rd := TB insn 0 in
  let off := fld insn 6 0x1f in
  let byte := bit insn 12 in
  let addr := r c (TB insn 3) +w (if byte then off else off .<< 2) in
  if bit insn 11 then t_load next rd (if byte then mem_r8 m addr else mem_r32 m addr)
  else (ARM_OK, next, if byte then mem_w8 m addr (w8 (r c rd)) else mem_w32 m addr (r c rd)).

(** Case 0x8. *)
Definition thumb_half_imm5 (m : mach B) (insn next : Z) : t_result :=
  let c := cpu m in
  let rd := TB insn 0 in
  let addr := r c (TB insn 3) +w ((fld insn 6 0x1f) .<< 1) in
  if legacy_halfword_unpredictable c addr then t_undefined m next
  else if bit insn 11 then t_load next rd (mem_r16 m addr)
  else (ARM_OK, next, mem_w16 m addr (w16 (r c rd))).

(** Case 0x9. *)
Definition thumb_sp_relative (m : mach B) (insn next : Z) : t_result :=
  let c := cpu m in
  let rd := fld insn 8 7 in
  let addr := r c 13 +w ((insn .& 0xff) .<< 2) in
  if bit insn 11 then t_load next rd (mem_r32 m addr)
  else (ARM_OK, next, mem_w32 m addr (r c rd)).

(** Case 0xa. *)
Definition thumb_address (m : mach B) (pc insn next : Z) : t_result :=
  let c := cpu m in
  let imm := (insn .& 0xff) .<< 2 in
  t_write m next (fld insn 8 7)
    (if bit insn 11 then r c 13 +w imm else ((pc +w 4) .& wnot 3) +w imm).

(** [for (i = 0; i < 8; i++) if (list & (1u << i)) c->r[i] = loaded[i];] *)
Definition commit_low (list : Z) (loaded : Z → Z) (c : arm_cpu) : arm_cpu :=
  for_range 8 0 (fun i c => if bit list i then set_reg i (loaded i) c else c) c.

Definition push_pop_count (insn : Z) : Z :=
  (if bit insn 8 then 1 else 0) + count_list 8 (insn .& 0xff).

Definition thumb_pop (m : mach B) (insn next : Z) : t_result :=
  let list := insn .& 0xff in
  let extra := bit insn 8 in
  let old_sp := r (cpu m) 13 in
  let '(start, c) := prepare_multiword_address (cpu m) old_sp 4 false in
  let m := set_cpu c m in
  match start with
  | None => (ARM_OK, next, m)
  | Some addr =>
    match load_list 8 0 list m addr (fun _ => 0) with
    | (None, m) => (ARM_OK, next, m)
    | (Some (addr, loaded), m) =>
      let '(pcv, m) := if extra then mem_r32 m addr else (0, m) in
      if extra && abort_pending (cpu m) then (ARM_OK, next, m)
      else if extra && ((pcv .& 3) =? 2) then t_undefined m next
      else
        let c := commit_low list loaded (cpu m) in
        let c := set_reg 13 (w32 (old_sp + 4 * push_pop_count insn)) c in
        if extra then
          let c := if negb (bit pcv 0) then set_cpsr (cpsr c .& wnot ARM_CPSR_T) c else c in
          t_cpu m (pcv .& wnot 1) c
        else t_cpu m next c
    end
  end.

Definition thumb_push (m : mach B) (insn next : Z) : t_result :=
  let list := insn .& 0xff in
  let new_sp := w32 (r (cpu m) 13 - 4 * push_pop_count insn) in
  let '(start, c) := prepare_multiword_address (cpu m) new_sp 4 true in
  let m := set_cpu c m in
  match start with
  | None => (ARM_OK, next, m)
  | Some addr =>
    match store_list 8 0 list r m addr with
    | (None, m) => (ARM_OK, next, m)
    | (Some addr, m) =>
      let m := if bit insn 8 then mem_w32 m addr (r (cpu m) 14) else m in
      if bit insn 8 && abort_pending (cpu m) then (ARM_OK, next, m)
      else t_write m next 13 new_sp
    end
  end.

Definition thumb_extend (m : mach B) (insn next : Z) : t_result :=
  let v := r (cpu m) (TB insn 3) in
  t_write m next (TB insn 0)
    match fld insn 6 3 with
    | 0 => w32 (s16 (w16 v))
    | 1 => w32 (s8 (w8 v))
    | 2 => v .& 0xffff
    | _ => v .& 0xff
    end.

Definition thumb_rev (m : mach B) (insn next : Z) : t_result :=
  let v := r (cpu m) (TB insn 3) in
  let rd := TB insn 0 in
  match fld insn 6 3 with
  | 0 => t_write m next rd (rev32 v)
  | 1 => t_write m next rd (rev16 v)
  | 3 => t_write m next rd (w32 (s16 (w16 (((v .& 0xff) .<< 8) .| ((v .>> 8) .& 0xff)))))
  | _ => t_undefined m next
  end.

Definition cps_mask (c : arm_cpu) (a i f disable : bool) : arm_cpu :=
  let c := if a then set_flag c ARM_CPSR_A disable else c in
  let c := if i then set_flag c ARM_CPSR_I disable else c in
  if f then set_flag c ARM_CPSR_F disable else c.

Definition thumb_cps (m : mach B) (insn next : Z) : t_result :=
  if negb (cpu_is_priv (cpu m)) then (ARM_OK, next, m)
  else t_cpu m next (cps_mask (cpu m) (bit insn 2) (bit insn 1) (bit insn 0) (bit insn 4)).

(** Case 0xb. *)
Definition thumb_misc (m : mach B) (insn next : Z) : t_result :=
  if (insn .& 0xff00) =? 0xb000 then
    let imm := (insn .& 0x7f) .<< 2 in
    t_write m next 13 (if bit insn 7 then r (cpu m) 13 -w imm else r (cpu m) 13 +w imm)
  else if (insn .& 0xf600) =? 0xb400 then
    if ((insn .& 0xff) =? 0) && negb (bit insn 8) then t_undefined m next
    else if bit insn 11 then thumb_pop m insn next else thumb_push m insn next
  else if (insn .& 0xff00) =? 0xb200 then thumb_extend m insn next
  else if (insn .& 0xff00) =? 0xba00 then thumb_rev m insn next
  else if (insn .& 0xffe0) =? 0xb660 then thumb_cps m insn next
  else if (insn .& 0xfff7) =? 0xb650 then
    if bit insn 3 then t_undefined m next else (ARM_OK, next, m)
  else t_undefined m next.

(** Case 0xc. *)
Definition thumb_multiple (m : mach B) (insn next : Z) : t_result :=
  let rb := fld insn 8 7 in
  let list := insn .& 0xff in
  let base := r (cpu m) rb in
  let n := count_list 8 list in
  let load := bit insn 11 in
  let lower := if rb =? 0 then 0 else Z.shiftl 1 rb - 1 in
  if list =? 0 then t_undefined m next
  else if negb load && bit list rb && negb ((list .& lower) =? 0) then t_undefined m next
  else
    let '(start, c) := prepare_multiword_address (cpu m) base 4 (negb load) in
    let m := set_cpu c m in
    match start with
    | None => (ARM_OK, next, m)
    | Some addr =>
      if load then
        match load_list 8 0 list m addr (fun _ => 0) with
        | (None, m) => (ARM_OK, next, m)
        | (Some (_, loaded), m) =>
          let c := commit_low list loaded (cpu m) in
          t_cpu m next (if negb (bit list rb) then set_reg rb (w32 (base + 4 * n)) c else c)
        end
      else
        match store_list 8 0 list r m addr with
        | (None, m) => (ARM_OK, next, m)
        | (Some _, m) => t_write m next rb (w32 (base + 4 * n))
        end
    end.

(** Case 0xd. *)
Definition thumb_cond_svc (m : mach B) (pc insn next : Z) : t_result :=
  let cond := fld insn 8 0xf in
  if cond =? 0xf then exec_svc m pc insn (pc +w 2) next
  else if cond =? 0xe then t_undefined m next
  else if arm_cond_passed (cpu m) cond
  then (ARM_OK, (pc +w 4) +w (w32 (s8 (insn .& 0xff)) .<< 1), m)
  else (ARM_OK, next, m).

(** Case 0xe. *)
Definition thumb_branch (m : mach B) (pc insn next : Z) : t_result :=
  if bit insn 11 then
    let c := cpu m in
    let target := (r c 14 +w ((insn .& 0x7ff) .<< 1)) .& wnot 3 in
    let c := set_reg 14 ((pc +w 2) .| 1) c in
    (ARM_OK, target, set_cpu (set_cpsr (cpsr c .& wnot ARM_CPSR_T) c) m)
  else
    let off := Z.shiftr (s32 ((insn .& 0x7ff) .<< 21)) 20 in
    (ARM_OK, (pc +w 4) +w w32 off, m).

(** Case 0xf. *)
Definition thumb_bl (m : mach B) (pc insn next : Z) : t_result :=
  if negb (bit insn 11) then
    let off := Z.shiftr (s32 ((insn .& 0x7ff) .<< 21)) 9 in
    t_write m next 14 ((pc +w 4) +w w32 off)
  else
    let target := r (cpu m) 14 +w ((insn .& 0x7ff) .<< 1) in
    (ARM_OK, target .& wnot 1, on_cpu (set_reg 14 ((pc +w 2) .| 1)) m).

Definition thumb_step (m : mach B) (pc insn next : Z) : t_result :=
  match insn .>> 12 with
  | 0x0 | 0x1 => thumb_shift_add m insn next
  | 0x2 | 0x3 => thumb_imm8 m insn next
  | 0x4 => thumb_case4 m pc insn next
  | 0x5 => thumb_reg_offset m insn next
  | 0x6 | 0x7 => thumb_imm5 m insn next
  | 0x8 => thumb_half_imm5 m insn next
  | 0x9 => thumb_sp_relative m insn next
  | 0xa => thumb_address m pc insn next
  | 0xb => thumb_misc m insn next
  | 0xc => thumb_multiple m insn next
  | 0xd => thumb_cond_svc m pc insn next
  | 0xe => thumb_branch m pc insn next
  | _ => thumb_bl m pc insn next
  end.

End Thumb.
