(* ===== verification/Step.v ===== *)
(** * One step of the core

    [arm_step] of [core/src/arm/arm_interp.c]: interrupt sampling, translated fetch
    through the fetch-block cache, Thumb dispatch, the unconditional space,
    condition check, the ARM decode chain and the retirement tail.

    The decode chain is the function [decode] from encodings to instruction
    classes.  [decode_unhoisted] is the same chain without its hoisted first arm;
    the comment in the source claims the hoist is "a reordering rather than a
    reinterpretation". *)

From S2P Require Import Prelude State Cpu Bus Mmu MemAccess Alu ExecDp ExecMul ExecMedia.
From S2P Require Import ExecXfer Float Vfp ExecCp Sync Thumb.

(** ** Decode *)

Inductive insn_class : Set :=
| C_DATA_PROCESSING | C_BRANCH | C_MULTIPLY | C_MULTIPLY_LONG | C_DSP_MULTIPLY | C_MEDIA
| C_SINGLE_TRANSFER | C_BLOCK_TRANSFER | C_EXTRA_TRANSFER
| C_LDREX | C_STREX | C_LDREXD | C_STREXD | C_LDREXB | C_STREXB | C_LDREXH | C_STREXH
| C_SWP | C_SYNC_RESERVED | C_COPROCESSOR | C_VFP | C_SVC | C_UNDEFINED.

(** The hoisted arm's guard. *)
Definition hoisted (insn : Z) : bool :=
  ((insn .& 0x0c000000) =? 0x00000000) &&
  negb ((insn .& 0x01900000) =? 0x01000000) &&
  negb (((insn .& 0x0e000000) =? 0x00000000) && ((insn .& 0x00000090) =? 0x00000090)).

(** The synchronisation primitives, tested on [insn & 0x0ff00ff0]. *)
Definition decode_sync (insn : Z) : insn_class :=
  let k := insn .& 0x0ff00ff0 in
  if k =? 0x01900f90 then C_LDREX
  else if k =? 0x01800f90 then C_STREX
  else if k =? 0x01b00f90 then C_LDREXD
  else if k =? 0x01a00f90 then C_STREXD
  else if k =? 0x01d00f90 then C_LDREXB
  else if k =? 0x01c00f90 then C_STREXB
  else if k =? 0x01f00f90 then C_LDREXH
  else if k =? 0x01e00f90 then C_STREXH
  else if (insn .& 0x0fb00ff0) =? 0x01000090 then C_SWP
  else if ((insn .& 0x0e000000) =? 0x00000000) && ((insn .& 0x00000090) =? 0x00000090)
  then C_SYNC_RESERVED
  else if (insn .& 0x0f000010) =? 0x0e000010 then C_COPROCESSOR
  else if ((insn .& 0x0f000e10) =? 0x0e000a00) || ((insn .& 0x0e000e00) =? 0x0c000a00)
  then C_VFP
  else if (insn .& 0x0f000000) =? 0x0f000000 then C_SVC
  else if (insn .& 0x0c000000) =? 0x00000000 then C_DATA_PROCESSING
  else C_UNDEFINED.

(** The chain below the hoisted arm. *)
Definition decode_unhoisted (insn : Z) : insn_class :=
  if ((insn .& 0x0f000000) =? 0x0a000000) || ((insn .& 0x0f000000) =? 0x0b000000) then C_BRANCH
  else if (insn .& 0x0fc000f0) =? 0x00000090 then C_MULTIPLY
  else if (insn .& 0x0f8000f0) =? 0x00800090 then C_MULTIPLY_LONG
  else if (insn .& 0x0f900090) =? 0x01000080 then C_DSP_MULTIPLY
  else if ((insn .& 0x0e000000) =? 0x06000000) && negb ((insn .& 0x00000010) =? 0) then C_MEDIA
  else if (insn .& 0x0c000000) =? 0x04000000 then C_SINGLE_TRANSFER
  else if (insn .& 0x0e000000) =? 0x08000000 then C_BLOCK_TRANSFER
  else if ((insn .& 0x0e000000) =? 0x00000000) && ((insn .& 0x00000090) =? 0x00000090) &&
          negb ((insn .& 0x00000060) =? 0x00000000) then C_EXTRA_TRANSFER
  else decode_sync insn.

Definition decode (insn : Z) : insn_class :=
  if hoisted insn then C_DATA_PROCESSING else decode_unhoisted insn.

Section Step.
Context {B : Type} `{Bus B} `{HostFpu}.

(** ** Dispatch of a conditional instruction *)

Definition keep_bus (m : mach B) (o : outcome) : @moutcome B :=
  let '(st, next, c) := o in (st, next, set_cpu c m).

Definition keep_next (m : mach B) (next : Z) (o : arm_status * arm_cpu) : @moutcome B :=
  (fst o, next, set_cpu (snd o) m).

Definition with_next (next : Z) (o : arm_status * mach B) : @moutcome B :=
  (fst o, next, snd o).

Definition dispatch (m : mach B) (pc insn next : Z) : @moutcome B :=
  let c := cpu m in
  match decode insn with
  | C_DATA_PROCESSING => keep_bus m (exec_data_processing c pc insn next)
  | C_BRANCH => keep_bus m (exec_branch c pc insn next)
  | C_MULTIPLY => keep_next m next (exec_multiply c pc insn)
  | C_MULTIPLY_LONG => keep_next m next (exec_multiply_long c pc insn)
  | C_DSP_MULTIPLY => keep_next m next (exec_dsp_multiply c insn)
  | C_MEDIA => keep_next m next (exec_media c pc insn)
  | C_SINGLE_TRANSFER => exec_single_transfer m pc insn next
  | C_BLOCK_TRANSFER => exec_block_transfer m pc insn next
  | C_EXTRA_TRANSFER => exec_extra_transfer m pc insn next
  | C_LDREX => with_next next (exec_ldrex 4 m insn)
  | C_STREX => with_next next (exec_strex 4 m insn)
  | C_LDREXD => with_next next (exec_ldrexd m insn)
  | C_STREXD => with_next next (exec_strexd m insn)
  | C_LDREXB => with_next next (exec_ldrex 1 m insn)
  | C_STREXB => with_next next (exec_strex 1 m insn)
  | C_LDREXH => with_next next (exec_ldrex 2 m insn)
  | C_STREXH => with_next next (exec_strex 2 m insn)
  | C_SWP => with_next next (exec_swp m insn)
  | C_COPROCESSOR => with_next next (exec_coprocessor m pc insn)
  | C_VFP => with_next next (vfp_execute m pc insn)
  | C_SVC => exec_svc m pc insn (pc +w 4) next
  | C_SYNC_RESERVED | C_UNDEFINED => (ARM_UNDEFINED, next, m)
  end.

(** ** The unconditional space *)

Definition step_result : Type := arm_status * mach B.

Definition lift (m : mach B) (o : arm_status * arm_cpu) : step_result :=
  (fst o, set_cpu (snd o) m).

Definition retire (m : mach B) (next : Z) : step_result := (ARM_OK, on_cpu (set_reg 15 next) m).

Definition data_abort (m : mach B) (pc : Z) : step_result :=
  (ARM_OK, on_cpu (fun c => take_pending_data_abort c pc) m).

Definition uncond_cps (m : mach B) (insn next : Z) : step_result :=
  let c := cpu m in
  if negb (cpu_is_priv c) then retire m next
  else
    let imod := fld insn 18 3 in
    let chg_mode := bit insn 17 in
    if chg_mode && negb (arm_mode_is_valid insn) then (ARM_UNDEFINED, m)
    else
      let c := if bit imod 1 then cps_mask c (bit insn 8) (bit insn 7) (bit insn 6) (bit imod 0)
               else c in
      let c := if chg_mode then arm_set_mode c (insn .& ARM_CPSR_MODE_MASK) else c in
      retire (set_cpu c m) next.

Definition uncond_blx (m : mach B) (pc insn : Z) : step_result :=
  let c := cpu m in
  let off := Z.shiftr (s32 (insn .<< 8)) 6 in
  let h := if bit insn 24 then 1 else 0 in
  let c := set_reg 14 (pc +w 4) c in
  let c := set_cpsr (cpsr c .| ARM_CPSR_T) c in
  retire (set_cpu c m) (w32 (pc + 8 + off + 2 * h) .& wnot 1).

(** Transfer base of SRS and RFE, and their writeback value. *)
Definition srs_base (sp : Z) (P U : bool) : Z :=
  if U then (if P then sp +w 4 else sp) else (if P then sp -w 8 else sp -w 4).

Definition srs_writeback (sp : Z) (U : bool) : Z := if U then sp +w 8 else sp -w 8.

Definition banked_sp (c : arm_cpu) (b : arm_bank) : Z :=
  if bank_eqb b (arm_bank_of_mode (cpsr c)) then r c 13 else bank_r13 c b.

Definition set_banked_sp (b : arm_bank) (v : Z) (c : arm_cpu) : arm_cpu :=
  if bank_eqb b (arm_bank_of_mode (cpsr c)) then set_reg 13 v c
  else set_bank_r13 (<[b := v]> (bank_r13 c)) c.

Definition uncond_srs (m : mach B) (pc insn next : Z) : step_result :=
  let c := cpu m in
  let U := bit insn 23 in
  let mode := insn .& ARM_CPSR_MODE_MASK in
  if (mode_of c =? ARM_MODE_USR) || (mode_of c =? ARM_MODE_SYS) then (ARM_UNDEFINED, m)
  else if negb (arm_mode_is_valid mode) then (ARM_UNDEFINED, m)
  else
    let tb := arm_bank_of_mode mode in
    let cur := arm_bank_of_mode (cpsr c) in
    let sp := banked_sp c tb in
    let '(base, c) := prepare_multiword_address c (srs_base sp (bit insn 24) U) 4 true in
    let m := set_cpu c m in
    match base with
    | None => data_abort m pc
    | Some base =>
      let m := mem_w32 m base (r (cpu m) 14) in
      if abort_pending (cpu m) then data_abort m pc
      else
        let m := mem_w32 m (base +w 4) (spsr (cpu m) cur) in
        if abort_pending (cpu m) then data_abort m pc
        else
          let m := if bit insn 21 then on_cpu (set_banked_sp tb (srs_writeback sp U)) m else m in
          retire m next
    end.

Definition uncond_rfe (m : mach B) (pc insn : Z) : step_result :=
  let c := cpu m in
  let U := bit insn 23 in
  let rn := fld insn 16 0xf in
  if negb (cpu_is_priv c) then (ARM_UNDEFINED, m)
  else if rn =? 15 then (ARM_UNDEFINED, m)
  else
    let sp := r c rn in
    let '(base, c) := prepare_multiword_address c (srs_base sp (bit insn 24) U) 4 false in
    let m := set_cpu c m in
    match base with
    | None => data_abort m pc
    | Some base =>
      let '(new_pc, m) := mem_r32 m base in
      if abort_pending (cpu m) then data_abort m pc
      else
        let '(new_cpsr, m) := mem_r32 m (base +w 4) in
        if abort_pending (cpu m) then data_abort m pc
        else if negb (arm_mode_is_valid new_cpsr) then (ARM_UNDEFINED, m)
        else if ((new_cpsr .& ARM_CPSR_T) =? 0) && negb ((new_pc .& 2) =? 0)
        then (ARM_UNDEFINED, m)
        else
          let c := if bit insn 21 then set_reg rn (srs_writeback sp U) (cpu m) else cpu m in
          let c := restore_psr c new_cpsr in
          retire (set_cpu c m) (return_align c new_pc)
    end.

Definition unconditional (m : mach B) (pc insn next : Z) : step_result :=
  if insn =? 0xf57ff01f then retire (on_cpu (set_excl_valid false) m) next
  else if (insn .& 0x0c00f000) =? 0x0400f000 then retire m next
  else if (insn .& 0xfff1fe20) =? 0xf1000000 then uncond_cps m insn next
  else if (insn .& 0xfe000000) =? 0xfa000000 then uncond_blx m pc insn
  else if (insn .& 0xfe5fffe0) =? 0xf84d0500 then uncond_srs m pc insn next
  else if (insn .& 0xfe50ffff) =? 0xf8100a00 then uncond_rfe m pc insn
  else if (insn .& 0xfffffdff) =? 0xf1010000 then
    if bit insn 9 then (ARM_UNDEFINED, m) else retire m next
  else lift m (undefined_instruction (cpu m) pc insn).

(** ** Fetch *)

(** A prefetch abort, or the instruction's place: in granted host memory, or behind
    the bus at a physical address. *)
Inductive fetched : Set := FetchFault (fsr : Z) | FetchHost (p : Z) | FetchBus (pa : Z).

Definition fetch_hit (c : arm_cpu) (pc : Z) (priv : bool) : option Z :=
  let k := cache c in
  match fetch_host k with
  | Some h =>
    if (fetch_blk k =? (pc .& wnot 0x3ff)) && (fetch_gen k =? tlb_gen k) &&
       eqb (fetch_priv k) priv
    then Some (h + (pc - (pc .& wnot 0x3ff))) else None
  | None => None
  end.

Definition fetch (m : mach B) (pc : Z) : fetched * mach B :=
  let priv := cpu_is_priv (cpu m) in
  let blk_va := pc .& wnot 0x3ff in
  match fetch_hit (cpu m) pc priv with
  | Some p => (FetchHost p, m)
  | None =>
    match arm_mmu_translate m pc ARM_ACCESS_FETCH priv with
    | (Fault fsr, m) => (FetchFault fsr, m)
    | (Phys pa, m) =>
      match host_ram (bus m) with
      | None => (FetchBus pa, m)
      | Some f =>
        match f (pa .& wnot 0x3ff) 0x400 with
        | None => (FetchBus pa, m)
        | Some blk =>
          let k := cache (cpu m) in
          let k := set_fetch_host (Some blk) k in
          let k := set_fetch_blk blk_va k in
          let k := set_fetch_gen (tlb_gen k) k in
          let k := set_fetch_priv priv k in
          (FetchHost (blk + (pc - blk_va)), on_cpu (set_cache k) m)
        end
      end
    end
  end.

(** The [n]-byte instruction at the fetched place. *)
Definition fetch_insn (n : Z) (m : mach B) (f : fetched) : Z * mach B :=
  match f with
  | FetchHost p => (host_get (Z.to_nat n) (bus m) p, m)
  | FetchBus pa => let '(v, b) := bus_read n (bus m) pa in (v, set_bus b m)
  | FetchFault _ => (0, m)
  end.

(** ** The step *)

Definition count_cycle (c : arm_cpu) : arm_cpu := set_cycles (w64 (cycles c + 1)) c.

(** Exception entry that also loads r15. *)
Definition enter (c : arm_cpu) (vector mode ret : Z) (mask_fiq : bool) : arm_cpu :=
  let '(vec, c) := take_exception c vector mode ret mask_fiq in set_reg 15 vec c.

Definition step_thumb (m : mach B) (pc : Z) (f : fetched) : step_result :=
  let '(tinsn, m) := fetch_insn 2 m f in
  let '(st, next, m) := thumb_step (on_cpu count_cycle m) pc tinsn (pc +w 2) in
  if decide (st = ARM_HALT) then (ARM_HALT, m)
  else if abort_pending (cpu m) then data_abort m pc
  else if decide (st = ARM_OK) then retire m next
  else (st, m).

(** The tail of the ARM path. *)
Definition finish_arm (m : mach B) (pc insn next : Z) (st : arm_status) : step_result :=
  if abort_pending (cpu m) then data_abort m pc
  else
    match st with
    | ARM_GUEST_UNDEFINED => lift m (take_undefined_instruction (cpu m) pc)
    | ARM_UNDEFINED => lift m (undefined_instruction (cpu m) pc insn)
    | ARM_OK => retire m next
    | _ => (st, m)
    end.

Definition is_svc (insn : Z) : bool :=
  match decode insn with C_SVC => true | _ => false end.

Definition step_arm (m : mach B) (pc : Z) (f : fetched) : step_result :=
  let '(insn, m) := fetch_insn 4 m f in
  let next := pc +w 4 in
  let m := on_cpu count_cycle m in
  let cond := insn .>> 28 in
  if cond =? 0xf then unconditional m pc insn next
  else if negb (cond =? 0xe) && negb (arm_cond_passed (cpu m) cond) then retire m next
  else
    let '(st, next, m) := dispatch m pc insn next in
    if is_svc insn && bool_decide (st = ARM_HALT) then (ARM_HALT, m)
    else finish_arm m pc insn next st.

Definition arm_step (m : mach B) : step_result :=
  let c := cpu m in
  let pc := r c 15 in
  if negb (arm_mode_is_valid (cpsr c)) then (ARM_UNDEFINED, m)
  else if fiq_line c && ((cpsr c .& ARM_CPSR_F) =? 0) then
    (ARM_OK, set_cpu (enter (count_cycle c) ARM_VEC_FIQ ARM_MODE_FIQ (pc +w 4) true) m)
  else if irq_line c && ((cpsr c .& ARM_CPSR_I) =? 0) then
    (ARM_OK, set_cpu (enter (count_cycle c) ARM_VEC_IRQ ARM_MODE_IRQ (pc +w 4) false) m)
  else
    match fetch m pc with
    | (FetchFault fsr, m) =>
      let c := count_cycle (cpu m) in
      let c := set_cp15 (set_ifar pc (set_ifsr fsr (cp15 c))) c in
      (ARM_OK, set_cpu (enter c ARM_VEC_PREFETCH ARM_MODE_ABT (pc +w 4) false) m)
    | (f, m) =>
      if (cpsr (cpu m) .& ARM_CPSR_T) =? 0 then step_arm m pc f else step_thumb m pc f
    end.

End Step.
