(* ===== verification/VfpFacts.v ===== *)
(** * What the VFP unit computes

    Conversion to integers against rounding and clamping of the exact value; the
    short-vector addressing; flush-to-zero, which the source decides from the host's
    already rounded result, against the architecture's test of the exact result. *)

From S2P Require Import Prelude State Cpu Float FloatFacts Vfp.

(** ** Float to integer *)

(** [k] is the integer [mode] selects for the number [n / d]. *)
Definition rounds_to (mode : rmode) (n d k : Z) : Prop :=
  match mode with
  | RN => 2 * Z.abs (n - k * d) <= d ∧ (2 * Z.abs (n - k * d) = d → Z.even k = true)
  | RP => (k - 1) * d < n <= k * d
  | RM => k * d <= n < (k + 1) * d
  | RZ => Z.abs k * d <= Z.abs n < (Z.abs k + 1) * d ∧ 0 <= k * n
  end.

(** The exact value of a finite double, as a fraction. *)
Definition signed (s : bool) (x : Z) : Z := if s then - x else x.
Definition numerator (v : Z) : Z :=
  let mag := f_mag binary64 v in
  signed (f_sign binary64 v) (f_mant binary64 mag * 2 ^ Z.max 0 (f_expo binary64 mag)).
Definition denominator (v : Z) : Z := 2 ^ Z.max 0 (- f_expo binary64 (f_mag binary64 v)).

Lemma even_signed s k : Z.even (signed s k) = Z.even k.
Proof. destruct s; [apply Z.even_opp | done]. Qed.

(** Rounding [D * qt + rem] over [D = 2 * half]. *)
Lemma rounds_up_spec mode s qt rem half : 0 <= qt → 0 < half → 0 <= rem < 2 * half →
  let up := rounds_up mode s qt rem half in
  rounds_to mode (signed s (2 * half * qt + rem)) (2 * half)
    (signed s (qt + (if up then 1 else 0))) ∧ (up = true → 0 < rem).
Proof.
  intros Hq Hh Hr. unfold rounds_up, rounds_to. rewrite even_signed. destruct mode.
  - destruct (Z.ltb_spec half rem), (Z.eqb_spec rem half); simpl; try lia.
    + rewrite Z.even_add, <- Z.negb_odd. destruct s; simpl; (split; [split; [nia | intros; nia] | lia]).
    + subst rem. destruct (Z.odd qt) eqn:Eo; rewrite ?Z.even_add, <- ?Z.negb_odd, ?Eo; simpl;
        (split; [split; [destruct s; simpl; nia | done] | lia]).
    + split; [split; [destruct s; simpl; nia | intros; destruct s; simpl in *; nia] | done].
  - destruct (Z.eqb_spec rem 0), s; simpl; split; (nia || lia).
  - destruct (Z.eqb_spec rem 0), s; simpl; split; (nia || lia).
  - destruct s; simpl; split; (nia || done).
Qed.

Lemma round_at_zero mode s m e : 0 <= m →
  let '(k, inexact) := round_at mode s m e 0 in
  let n := signed s (m * 2 ^ Z.max 0 e) in
  let d := 2 ^ Z.max 0 (- e) in
  rounds_to mode n d (signed s k) ∧ inexact = negb (signed s k * d =? n).
Proof.
  intros Hm. destruct (Z.le_gt_cases 0 e).
  - rewrite round_at_exact by done. cbv zeta. replace (Z.max 0 (- e)) with 0 by lia.
    replace (Z.max 0 e) with (e - 0) by lia. set (x := m * 2 ^ (e - 0)).
    assert (0 <= x) by (pose proof (pow2_pos (e - 0) ltac:(lia)); nia).
    rewrite Z.pow_0_r, Z.mul_1_r, Z.eqb_refl. split; [| done].
    unfold rounds_to. destruct mode; destruct s; simpl; try (split; [lia | nia || lia]).
  - unfold round_at. cbv zeta. replace (0 <=? e) with false by lia. rewrite Z.shiftr_div_pow2 by lia.
    replace (Z.max 0 (- e)) with (0 - e) by lia. replace (Z.max 0 e) with 0 by lia.
    rewrite Z.pow_0_r, Z.mul_1_r. set (half := 2 ^ (0 - e - 1)).
    assert (2 ^ (0 - e) = 2 * half) as ->.
    { subst half. rewrite <- Z.pow_succ_r by lia. f_equal. lia. }
    assert (0 < half) by (apply pow2_pos; lia).
    pose proof (Z.div_mod m (2 * half) ltac:(lia)) as E.
    pose proof (Z.mod_pos_bound m (2 * half) ltac:(lia)) as Hr.
    pose proof (Z.div_pos m (2 * half) Hm ltac:(lia)) as Hq.
    set (qt := m / (2 * half)) in *. set (rem := m mod (2 * half)) in *.
    destruct (rounds_up_spec mode s qt rem half Hq ltac:(lia) Hr) as [H1 H2].
    rewrite <- E in H1. split; [done |].
    destruct (rounds_up mode s qt rem half); [specialize (H2 eq_refl) |];
      destruct (Z.eqb_spec rem 0), s; simpl; symmetry; rewrite ?negb_true_iff, ?negb_false_iff,
        ?Z.eqb_neq, ?Z.eqb_eq; nia.
Qed.

Definition int_min (is_signed : bool) : Z := if is_signed then - 2 ^ 31 else 0.
Definition int_max (is_signed : bool) : Z := if is_signed then 2 ^ 31 - 1 else 2 ^ 32 - 1.
Definition saturated (is_signed : bool) (k : Z) : Z :=
  w32 (Z.max (int_min is_signed) (Z.min (int_max is_signed) k)).
Definition convert_mode (round_to_zero : bool) (fpscr : Z) : rmode :=
  if round_to_zero then RZ else host_round_from_fpscr fpscr.

Section Convert.
Context (v : Z) (is_signed round_to_zero : bool) (fpscr exc : Z).

(** The conversion once the rounded value is known. *)
Lemma fp_to_int_finite k inexact : is_nan binary64 v = false → is_inf binary64 v = false →
  round_at (convert_mode round_to_zero fpscr) (f_sign binary64 v)
    (f_mant binary64 (f_mag binary64 v)) (f_expo binary64 (f_mag binary64 v)) 0 = (k, inexact) →
  let z := signed (f_sign binary64 v) k in
  fp_to_int v is_signed round_to_zero fpscr exc =
    (saturated is_signed z,
     if (int_min is_signed <=? z) && (z <=? int_max is_signed)
     then (if inexact then exc .| ARM_FPSCR_IXC else exc) else exc .| ARM_FPSCR_IOC).
Proof.
  intros Hn Hi E. cbv zeta. unfold fp_to_int. rewrite Hn.
  assert ((if round_to_zero then round_integral RZ v else fp_round_integral v fpscr) =
    (Integral (signed (f_sign binary64 v) k), inexact)) as ->.
  { unfold fp_round_integral, round_integral, convert_mode in *. rewrite Hi. cbv zeta.
    by destruct round_to_zero; rewrite E. }
  set (z := signed _ _). unfold saturated, int_min, int_max, at_least, less_than, integer_of.
  destruct is_signed.
  - destruct (Z.leb_spec 2147483648 z).
    { rewrite Z.min_l, Z.max_r by lia. replace (z <=? 2 ^ 31 - 1) with false by lia. by rewrite andb_false_r. }
    destruct (Z.ltb_spec z (-2147483648)).
    { rewrite Z.min_r, Z.max_l by lia. by replace (- 2 ^ 31 <=? z) with false by lia. }
    rewrite Z.min_r, Z.max_r by lia.
    by replace ((- 2 ^ 31 <=? z) && (z <=? 2 ^ 31 - 1)) with true by lia.
  - destruct (Z.leb_spec 4294967296 z).
    { rewrite Z.min_l, Z.max_r by lia. replace (z <=? 2 ^ 32 - 1) with false by lia. by rewrite andb_false_r. }
    destruct (Z.ltb_spec z 0).
    { rewrite Z.min_r, Z.max_l by lia. by replace (0 <=? z) with false by lia. }
    rewrite Z.min_r, Z.max_r by lia.
    by replace ((0 <=? z) && (z <=? 2 ^ 32 - 1)) with true by lia.
Qed.

(** VCVT and VCVTR to an integer.  A finite double is rounded once, exactly as the
    selected mode says (truncation, or any of the four modes of FPSCR), then clamped to
    the 32-bit signed or unsigned range; the invalid flag is raised exactly when the
    rounded integer is outside the range, and the inexact flag exactly when it is inside
    and differs from the value.  An infinity saturates with the invalid flag and a NaN
    gives zero with it. *)
Theorem fp_to_int_exact :
  let out := fp_to_int v is_signed round_to_zero fpscr exc in
  (is_nan binary64 v = true → out = (0, exc .| ARM_FPSCR_IOC)) ∧
  (is_nan binary64 v = false → is_inf binary64 v = true →
     out = (w32 (if f_sign binary64 v then int_min is_signed else int_max is_signed),
            exc .| ARM_FPSCR_IOC)) ∧
  (is_nan binary64 v = false → is_inf binary64 v = false → ∃ k,
     rounds_to (convert_mode round_to_zero fpscr) (numerator v) (denominator v) k ∧
     fst out = saturated is_signed k ∧
     snd out = if (int_min is_signed <=? k) && (k <=? int_max is_signed)
               then (if k * denominator v =? numerator v then exc else exc .| ARM_FPSCR_IXC)
               else exc .| ARM_FPSCR_IOC).
Proof.
  cbv zeta. split_and?.
  - intros Hn. unfold fp_to_int. by rewrite Hn.
  - intros Hn Hi. unfold fp_to_int, fp_round_integral, round_integral. rewrite Hn, Hi.
    by destruct round_to_zero, is_signed, (f_sign binary64 v).
  - intros Hn Hi. set (mag := f_mag binary64 v).
    pose proof (round_at_zero (convert_mode round_to_zero fpscr) (f_sign binary64 v)
      (f_mant binary64 mag) (f_expo binary64 mag)
      (f_mant_nonneg binary64 mag fmt_ok_64 (proj1 (f_mag_range binary64 v fmt_ok_64)))) as Hr.
    destruct (round_at _ _ _ _ 0) as [k inexact] eqn:E. destruct Hr as [Hr Hx].
    exists (signed (f_sign binary64 v) k). rewrite (fp_to_int_finite k inexact Hn Hi E).
    split; [exact Hr |]. split; [done |]. simpl. rewrite Hx.
    change (2 ^ Z.max 0 (- f_expo binary64 mag)) with (denominator v).
    change (signed _ (_ * 2 ^ Z.max 0 _)) with (numerator v). by destruct (_ =? numerator v).
Qed.

End Convert.

(** -2.5 to nearest even, to minus infinity, and as an unsigned integer. *)
Lemma fp_to_int_exact_witness :
  fp_to_int 0xc004000000000000 true false 0 0 = (0xfffffffe, ARM_FPSCR_IXC) ∧
  fp_to_int 0xc004000000000000 true false 0x00800000 0 = (0xfffffffd, ARM_FPSCR_IXC) ∧
  fp_to_int 0xc004000000000000 false true 0 0 = (0, ARM_FPSCR_IOC) ∧
  ∃ k, rounds_to RN (-5 * 2 ^ 50) (2 ^ 51) k ∧ saturated true k = 0xfffffffe.
Proof.
  split; [by vm_compute |]. split; [by vm_compute |]. split; [by vm_compute |].
  destruct (fp_to_int_exact 0xc004000000000000 true false 0 0) as (_ & _ & H).
  destruct (H eq_refl eq_refl) as (k & Hr & Ho & _). exists k. split; [exact Hr | symmetry; exact Ho].
Defined.

(** ** Short vectors *)

Definition bank_width (dbl : bool) : Z := if dbl then 4 else 8.
Definition file_size (dbl : bool) : Z := if dbl then 16 else 32.

(** What every accepted shape is. *)
Lemma shape_spec fpscr dbl rd shape : vfp_short_vector_shape fpscr dbl rd = Some shape →
  let st := sv_stride shape in
  (st = 1 ∨ st = 2) ∧ sv_bank_size shape = bank_width dbl ∧
  sv_bank_mask shape = bank_width dbl - 1 ∧ 1 <= sv_count shape ∧
  sv_count shape * st <= bank_width dbl ∧
  (sv_vector shape = false → sv_count shape = 1) ∧
  (sv_vector shape = true → bank_width dbl <= rd).
Proof.
  unfold vfp_short_vector_shape. fold (bank_width dbl).
  set (len := (fpscr .& _) .>> 16). set (es := (fpscr .& _) .>> 20).
  assert (0 <= len) as Hlen by (apply (proj2 (Z.shiftr_nonneg _ _)), (proj2 (Z.land_nonneg _ _)); right; unfold ARM_FPSCR_LEN; lia).
  destruct (Z.eqb_spec len 0) as [El | Hne].
  { destruct (es =? 0); cbn [negb]; [| done]. intros [= <-]. simpl.
    split_and?; try done; [by left | destruct dbl; simpl; lia]. }
  assert (∀ st, st = 1 ∨ st = 2 →
    (if negb (bank_width dbl <=? rd)
     then Some (MkShape 1 st (bank_width dbl - 1) (bank_width dbl) (bank_width dbl <=? rd))
     else if bank_width dbl / st <? len + 1 then None
     else Some (MkShape (len + 1) st (bank_width dbl - 1) (bank_width dbl) (bank_width dbl <=? rd)))
    = Some shape → (sv_stride shape = 1 ∨ sv_stride shape = 2) ∧ sv_bank_size shape = bank_width dbl ∧
      sv_bank_mask shape = bank_width dbl - 1 ∧ 1 <= sv_count shape ∧
      sv_count shape * sv_stride shape <= bank_width dbl ∧
      (sv_vector shape = false → sv_count shape = 1) ∧
      (sv_vector shape = true → bank_width dbl <= rd)) as Hst.
  { intros st Hs. destruct (Z.leb_spec (bank_width dbl) rd); simpl.
    - destruct (Z.ltb_spec (bank_width dbl / st) (len + 1)); [done |]. intros [= <-]. simpl.
      split_and?; try done; [lia |].
      assert ((len + 1) * st <= bank_width dbl / st * st) by (apply Z.mul_le_mono_nonneg_r; lia).
      pose proof (Z.mul_div_le (bank_width dbl) st ltac:(lia)). lia.
    - intros [= <-]. simpl. split_and?; try done. destruct dbl, Hs as [-> | ->]; simpl; lia. }
  cbn [negb andb]. destruct (es =? 0); [by apply Hst; left |]. destruct (es =? 3); [by apply Hst; right | done].
Qed.

(** The circular address, with its masks spelled out as division. *)
Lemma bank_bits : forallb (fun reg => forallb (fun x =>
    ((reg .& wnot 7) .| x =? 8 * (reg / 8) + x) &&
    ((4 <=? x) || ((reg .& wnot 3) .| x =? 4 * (reg / 4) + x))) (seqZ 0 8)) (seqZ 0 32) = true.
Proof. by vm_compute. Qed.

Lemma bank_address dbl reg x : 0 <= reg < 32 → 0 <= x →
  (reg .& wnot (bank_width dbl - 1)) .| (x .& (bank_width dbl - 1)) =
  bank_width dbl * (reg / bank_width dbl) + x mod bank_width dbl.
Proof.
  intros Hr Hx. pose proof bank_bits as Hb. rewrite forallb_forall in Hb.
  assert (x .& (bank_width dbl - 1) = x mod bank_width dbl) as ->.
  { destruct dbl; [exact (Z.land_ones x 2 ltac:(lia)) | exact (Z.land_ones x 3 ltac:(lia))]. }
  set (y := x mod bank_width dbl).
  assert (0 <= y < bank_width dbl) as Hy by (apply Z.mod_pos_bound; by destruct dbl).
  specialize (Hb reg ltac:(apply list_elem_of_In, elem_of_seqZ; lia)). rewrite forallb_forall in Hb.
  specialize (Hb y ltac:(apply list_elem_of_In, elem_of_seqZ; destruct dbl; simpl in *; lia)).
  apply andb_true_iff in Hb as [H8 H4]. apply Z.eqb_eq in H8.
  destruct dbl; simpl in *; [| done]. apply orb_true_iff in H4 as [H4 | H4]; [| by apply Z.eqb_eq].
  apply Z.leb_le in H4. lia.
Qed.

(** The register a lane uses. *)
Lemma lane_register fpscr dbl rd shape reg lane scalar :
  vfp_short_vector_shape fpscr dbl rd = Some shape →
  0 <= reg < file_size dbl → 0 <= lane < sv_count shape →
  let g := vfp_short_vector_reg shape reg lane scalar in
  g = reg ∨
  g = bank_width dbl * (reg / bank_width dbl) + (reg + lane * sv_stride shape) mod bank_width dbl.
Proof.
  intros Hs Hr Hl. destruct (shape_spec _ _ _ _ Hs) as (Hst & Hbs & Hbm & Hc & Hcs & _ & _).
  cbv zeta. unfold vfp_short_vector_reg. destruct (_ || _); [by left | right].
  assert (lane * sv_stride shape <= 8) by (destruct dbl, Hst as [E | E]; rewrite E in *; simpl in *; lia).
  rewrite (w32_small (lane * sv_stride shape)) by (split; destruct Hst as [E | E]; rewrite E in *; lia).
  rewrite (w32_small (reg + _)) by (split; destruct dbl, Hst as [E | E]; rewrite E in *; simpl in *; lia).
  rewrite Hbm. apply bank_address; destruct dbl, Hst as [E | E]; rewrite ?E in *; simpl in *; lia.
Qed.

(** Short vectors stay inside the register file and the result array.  Whatever
    FPSCR.LEN and STRIDE hold, an accepted shape has at most eight lanes (four for
    doubles), the size of the array the results are gathered in; every lane of every
    operand names an existing register of the same bank as the encoded one; and the
    lanes of a vector destination are pairwise different registers, so no result
    overwrites another. *)
Theorem short_vector_safe fpscr dbl rd shape :
  vfp_short_vector_shape fpscr dbl rd = Some shape → 0 <= rd < file_size dbl →
  1 <= sv_count shape <= bank_width dbl ∧
  (∀ reg lane scalar, 0 <= reg < file_size dbl → 0 <= lane < sv_count shape →
     let g := vfp_short_vector_reg shape reg lane scalar in
     0 <= g < file_size dbl ∧ g / bank_width dbl = reg / bank_width dbl) ∧
  (∀ l1 l2, 0 <= l1 < sv_count shape → 0 <= l2 < sv_count shape → l1 ≠ l2 →
     vfp_short_vector_reg shape rd l1 false ≠ vfp_short_vector_reg shape rd l2 false).
Proof.
  intros Hs Hrd. pose proof (shape_spec _ _ _ _ Hs) as (Hst & Hbs & Hbm & Hc & Hcs & Hv & _).
  assert (0 < bank_width dbl) as Hw by by destruct dbl.
  split_and?; [done | destruct Hst as [E | E]; rewrite E in *; lia | |].
  - intros reg lane scalar Hr Hl. cbv zeta.
    destruct (lane_register _ _ _ _ reg lane scalar Hs Hr Hl) as [-> | ->]; [done |].
    pose proof (Z.mod_pos_bound (reg + lane * sv_stride shape) (bank_width dbl) Hw) as Hm.
    rewrite (Z.mul_comm (bank_width dbl)), Z.div_add_l, (Z.div_small (_ mod _)) by lia.
    split; [| lia]. pose proof (Z.div_mod reg (bank_width dbl) ltac:(lia)).
    pose proof (Z.mod_pos_bound reg (bank_width dbl) Hw).
    destruct dbl; cbn [bank_width file_size] in *; lia.
  - intros l1 l2 H1 H2 Hne. destruct (sv_vector shape) eqn:Ev; [| rewrite Hv in * by done; lia].
    unfold vfp_short_vector_reg. rewrite Ev. cbn [negb orb andb].
    assert (∀ l, 0 <= l < sv_count shape → 0 <= l * sv_stride shape <= 8) as Hls
      by (intros; destruct dbl, Hst as [E | E]; rewrite E in *; simpl in *; lia).
    pose proof (Hls l1 H1). pose proof (Hls l2 H2).
    rewrite !(w32_small (_ * _)), !(w32_small (rd + _)) by (split; destruct dbl; simpl in *; lia).
    rewrite Hbm, !bank_address by (destruct dbl; simpl in *; lia). intros E. apply Hne.
    assert ((rd + l1 * sv_stride shape) mod bank_width dbl = (rd + l2 * sv_stride shape) mod bank_width dbl)
      as Em by lia.
    pose proof (Z.div_mod (rd + l1 * sv_stride shape) (bank_width dbl) ltac:(lia)).
    pose proof (Z.div_mod (rd + l2 * sv_stride shape) (bank_width dbl) ltac:(lia)).
    destruct dbl, Hst as [Es | Es]; rewrite Es in *; cbn [bank_width] in *; lia.
Qed.

(** LEN = 4, STRIDE = 2 on singles, destination s9. *)
Lemma short_vector_safe_witness :
  ∃ shape, vfp_short_vector_shape 0x00330000 false 9 = Some shape ∧
    map (fun l => vfp_short_vector_reg shape 9 l false) [0; 1; 2; 3] = [9; 11; 13; 15] ∧
    1 <= sv_count shape <= 8 ∧
    vfp_short_vector_reg shape 9 0 false ≠ vfp_short_vector_reg shape 9 3 false.
Proof.
  eexists. split; [reflexivity |]. split; [by vm_compute |].
  destruct (short_vector_safe 0x00330000 false 9 _ eq_refl ltac:(simpl; lia)) as (H1 & _ & H3).
  split; [exact H1 |]. apply H3; vm_compute; intuition discriminate.
Defined.

(** ** Flush-to-zero *)

Lemma has_lor x y b : fpscr_has (x .| y) b = fpscr_has x b || fpscr_has y b.
Proof.
  unfold fpscr_has. rewrite Z.land_lor_distr_l, <- negb_andb. f_equal.
  apply eq_true_iff_eq. by rewrite andb_true_iff, !Z.eqb_eq, Z.lor_eq_0_iff.
Qed.

Lemma has_land x y b : fpscr_has (x .& y) b = fpscr_has x (y .& b).
Proof. unfold fpscr_has. by rewrite Z.land_assoc. Qed.

Lemma has_0 b : fpscr_has 0 b = false.
Proof. done. Qed.

Lemma pack_parts f s mag : fmt_ok f → 0 <= mag < sign_bit f →
  f_mag f (f_pack f s mag) = mag ∧ f_sign f (f_pack f s mag) = s.
Proof.
  intros [Hm He] Hg. assert (sign_bit f = 2 ^ (ebits f + mbits f)) as Es by done.
  unfold f_mag, f_sign, f_pack, bit. destruct s.
  - rewrite Z.add_comm. split.
    + replace (mag + sign_bit f) with (mag + 1 * sign_bit f) by lia.
      rewrite Z.mod_add by lia. by apply Z.mod_small.
    + rewrite Es in *. rewrite Z.add_nocarry_lxor.
      { rewrite Z.lxor_spec, Z.pow2_bits_true by lia. by rewrite (uint_high (ebits f + mbits f)) by (done || lia). }
      apply Z.bits_inj'. intros i Hi. rewrite Z.land_spec, Z.testbit_0_l, Z.pow2_bits_eqb by lia.
      destruct (Z.eqb_spec (ebits f + mbits f) i) as [<- |]; [| apply andb_false_r].
      by rewrite (uint_high (ebits f + mbits f)) by (done || lia).
  - split; [by apply Z.mod_small |]. by apply (uint_high (ebits f + mbits f)); [| lia |].
Qed.

Lemma fz_in_flags f u exc b : fpscr_has ARM_FPSCR_IDC b = false →
  fpscr_has (snd (fz_in f u exc)) b = fpscr_has exc b.
Proof. intros Hb. unfold fz_in. case_match; [| done]. simpl. by rewrite has_lor, Hb, orb_false_r. Qed.

Lemma fz_in_value f u exc : fst (fz_in f u exc) = fst (fz_in f u 0).
Proof. unfold fz_in. by case_match. Qed.

(** Rounding in [HostFpu]'s formats, and the flush of what comes out. *)
Lemma flush_spec `{HostFpu} f mode s m e e0 : fmt_ok f → 0 < m →
  fpscr_has e0 ARM_FPSCR_IXC = false → fpscr_has e0 ARM_FPSCR_UFC = false →
  fpscr_has e0 VFP_FZ_AMBIGUOUS = false →
  let '(mag, inexact) := round_mag f mode s m e in
  let '(r, raised) := deliver f mode s m e in
  let '(r', exc) := fz_out f r (e0 .| host_exceptions raised) in
  fpscr_has exc VFP_FZ_AMBIGUOUS = (mag =? min_normal f) && inexact ∧
  (fpscr_has exc VFP_FZ_AMBIGUOUS = false →
   if tiny_before f m e
   then r' = f_pack f s 0 ∧ fpscr_has exc ARM_FPSCR_UFC = true ∧
        fpscr_has exc ARM_FPSCR_IXC = (mag =? 0)
   else r' = r ∧ fpscr_has exc ARM_FPSCR_UFC = false).
Proof.
  intros Hf Hm Hi Hu Ha. destruct (inf_below_sign f Hf) as [Hinf Hmin].
  pose proof (round_mag_nonneg f mode s m e Hf ltac:(lia)) as Hg.
  pose proof (tiny_rounds f mode s m e Hf Hm) as Htiny.
  pose proof (normal_rounds f mode s m e Hf Hm) as Hnorm.
  unfold deliver. replace (m =? 0) with false by lia.
  destruct (round_mag f mode s m e) as [mag inexact]. cbn [fst] in *.
  assert (∀ raised, fpscr_has (e0 .| host_exceptions raised) ARM_FPSCR_IXC =
    fpscr_has (host_exceptions raised) ARM_FPSCR_IXC) as Hix by (intros; by rewrite has_lor, Hi).
  assert (∀ raised, fpscr_has (host_exceptions raised) VFP_FZ_AMBIGUOUS = false) as Hamb.
  { intros. unfold host_exceptions. by repeat case_match. }
  destruct (Z.leb_spec (inf_bits f) mag) as [Ho | Ho].
  - set (big := overflow_mag f mode s).
    pose proof (overflow_normal f mode s Hf) as Hbig. fold big in Hbig.
    unfold fz_out. destruct (pack_parts f s big Hf ltac:(lia)) as [-> _].
    replace (big <? min_normal f) with false by lia. rewrite andb_false_r.
    replace (big =? min_normal f) with false by lia. cbn [andb].
    replace (mag =? min_normal f) with false by lia. cbn [andb].
    split; [by rewrite has_lor, Ha |]. intros _. destruct (tiny_before f m e); [lia |].
    split; [done | by rewrite has_lor, Hu].
  - set (fl := if inexact then _ else 0). unfold fz_out.
    destruct (pack_parts f s mag Hf ltac:(lia)) as [-> ->].
    assert (fpscr_has (host_exceptions fl) ARM_FPSCR_IXC = inexact) as Hfl.
    { subst fl. destruct inexact; [| done]. by destruct (if tininess_after then _ else _). }
    destruct (tiny_before f m e) eqn:Et.
    + destruct (Htiny eq_refl) as (Hr & Hb & Hz).
      destruct (Z.eqb_spec mag 0) as [-> | Hne]; cbn [negb andb].
      * destruct (Hz eq_refl) as [-> Hdeep]. replace (0 =? min_normal f) with false by lia.
        cbn [andb]. split; [by rewrite has_lor, Ha, Hamb |]. intros _.
        rewrite !has_lor, Hi, Hu, Hfl. split_and?; [done | | done].
        subst fl. unfold tiny_after. rewrite Et.
        replace (e + bitlen m <? emin f + mbits f) with true by lia. by destruct tininess_after.
      * destruct (Z.ltb_spec mag (min_normal f)); cbn [fst snd].
        -- rewrite !has_lor, !has_land. replace (mag =? min_normal f) with false by lia. cbn [andb].
           change (wnot ARM_FPSCR_IXC .& VFP_FZ_AMBIGUOUS) with VFP_FZ_AMBIGUOUS.
           rewrite !has_lor, Ha, Hamb. split; [done |]. intros _. split_and?; [done | by rewrite orb_true_r |].
           change (wnot ARM_FPSCR_IXC .& ARM_FPSCR_IXC) with 0. by unfold fpscr_has; rewrite !Z.land_0_r.
        -- assert (mag = min_normal f) as -> by lia. rewrite Z.eqb_refl, Hix, Hfl, (Hb eq_refl).
           cbn [andb]. rewrite !has_lor. split; [by rewrite orb_true_r | by rewrite orb_true_r].
    + specialize (Hnorm eq_refl). replace (mag <? min_normal f) with false by lia.
      rewrite andb_false_r, Hix, Hfl.
      assert (fpscr_has (host_exceptions fl) ARM_FPSCR_UFC = false) as Hun.
      { subst fl. unfold tiny_after. rewrite Et. by destruct inexact, tininess_after. }
      destruct (_ && inexact); rewrite !has_lor, ?Ha, ?Hamb, ?Hu, ?Hun; done.
Qed.

Lemma deliver_finite `{HostFpu} f mode s m e : fmt_ok f → 0 < m →
  is_nan f (fst (deliver f mode s m e)) = false.
Proof.
  intros Hf Hm. destruct (inf_below_sign f Hf) as [Hinf Hmin].
  pose proof (round_mag_nonneg f mode s m e Hf ltac:(lia)).
  pose proof (overflow_normal f mode s Hf). unfold deliver, is_nan. replace (m =? 0) with false by lia.
  destruct (round_mag f mode s m e) as [mag ix]. cbn [fst] in *.
  destruct (Z.leb_spec (inf_bits f) mag); cbn [fst];
    match goal with |- context [f_pack f s ?g] =>
      destruct (pack_parts f s g Hf ltac:(lia)) as [-> _] end; lia.
Qed.

(** The operand flags carry only the input-denormal and invalid bits. *)
Lemma operand_flags f a b fs neg bitv : fpscr_has fs ARM_FPSCR_FZ = true →
  fpscr_has ARM_FPSCR_IDC bitv = false → fpscr_has ARM_FPSCR_IOC bitv = false →
  let '(x, e1) := apply_fz f fz_in fs a 0 in
  let '(y, e2) := apply_fz f fz_in fs b e1 in
  x = fst (fz_in f a 0) ∧ y = fst (fz_in f b 0) ∧
  fpscr_has (if neg : bool then e2 .| ARM_FPSCR_IOC else e2) bitv = false.
Proof.
  intros Hfz Hd Hi. unfold apply_fz. rewrite Hfz.
  pose proof (fz_in_flags f a 0 bitv Hd) as H1. destruct (fz_in f a 0) as [x e1]. simpl in H1.
  pose proof (fz_in_flags f b e1 bitv Hd) as H2. pose proof (fz_in_value f b e1) as H3.
  destruct (fz_in f b e1) as [y e2]. simpl in *. split_and?; [done | done |].
  destruct neg; rewrite ?has_lor, H2, H1; [by rewrite Hi | done].
Qed.

(** An operation that comes to a finite value has no NaN operand, so [<] is silent. *)
Lemma exact_silent `{HostFpu} f mode op x y s m e : op_exact f mode op x y = Exact s m e →
  snd (match op with OP_SQRT => below_zero f x | _ => (false, 0) end) = 0.
Proof.
  unfold op_exact, below_zero. destruct op; [done.. |]. rewrite orb_false_r.
  by destruct (is_nan f x).
Qed.

(** C40: Flush-to-zero decided after rounding.  With FPSCR.FZ set, the unit looks only at
    the result the host has already rounded.  Whenever it does not refuse the
    instruction as undecidable, its answer is the one of the architecture, which tests
    the exact result before rounding: an exact result below the smallest normal gives a
    zero of its sign with the underflow flag, and any other is delivered as the host
    rounded it, without that flag.  It refuses exactly when the host returned the
    smallest normal inexactly.  The inexact flag, which the flush replaces, survives only
    where the host had already rounded all the way to zero. *)
Theorem flush_to_zero_decided `{HostFpu} f op a b fs s m e :
  known f → fpscr_has fs ARM_FPSCR_FZ = true → 0 < m →
  let mode := host_round_from_fpscr fs in
  op_exact f mode op (fst (fz_in f a 0)) (fst (fz_in f b 0)) = Exact s m e →
  let '(mag, inexact) := round_mag f mode s m e in
  let '(r, exc) := fp_do f op a b fs 0 in
  fpscr_has exc VFP_FZ_AMBIGUOUS = (mag =? min_normal f) && inexact ∧
  (fpscr_has exc VFP_FZ_AMBIGUOUS = false →
   if tiny_before f m e
   then r = f_pack f s 0 ∧ fpscr_has exc ARM_FPSCR_UFC = true ∧
        fpscr_has exc ARM_FPSCR_IXC = (mag =? 0)
   else r = fst (deliver f mode s m e) ∧ fpscr_has exc ARM_FPSCR_UFC = false).
Proof.
  intros Hk Hfz Hm mode E. pose proof (known_ok f Hk) as Hf. unfold fp_do. fold mode.
  pose proof (λ neg b' Hd Hi, operand_flags f a b fs neg b' Hfz Hd Hi) as Ho.
  destruct (apply_fz f fz_in fs a 0) as [x e1]. destruct (apply_fz f fz_in fs b e1) as [y e2].
  destruct (Ho false ARM_FPSCR_IXC eq_refl eq_refl) as (-> & -> & _).
  pose proof (exact_silent f mode op _ _ s m e E) as Hsil.
  destruct (match op with OP_SQRT => _ | _ => _ end) as [neg sig]. simpl in Hsil. subst sig.
  set (e3 := if neg then _ else _). unfold host_op. rewrite E.
  pose proof (flush_spec f mode s m e e3 Hf Hm) as Hfl.
  do 3 (specialize (Hfl ltac:(by eapply Ho))).
  pose proof (deliver_finite f mode s m e Hf Hm) as Hfin.
  destruct (round_mag f mode s m e) as [mag inexact].
  destruct (deliver f mode s m e) as [r raised]. rewrite Z.lor_0_r. unfold apply_fz. rewrite Hfz.
  destruct (fz_out f r _) as [r' exc] eqn:Eo. rewrite Z.lor_0_l.
  destruct Hfl as [H1 H2]. split; [done |]. intros Ha. specialize (H2 Ha).
  assert (is_nan f r' = false) as Hn.
  { unfold fz_out in Eo. destruct (_ && _); [injection Eo as <- _ |].
    - unfold is_nan. destruct (inf_below_sign f Hf).
      destruct (pack_parts f (f_sign f r) 0 Hf ltac:(lia)) as [-> _]. lia.
    - by destruct (_ && _); injection Eo as <- _. }
  unfold dn_out. rewrite Hn, andb_false_r. by destruct (tiny_before f m e).
Qed.

(** The smallest normal times one half, on singles. *)
Lemma flush_to_zero_decided_witness :
  @fp_do x86_host binary32 OP_MUL 0x00800000 0xbf000000 ARM_FPSCR_FZ 0 = (0x80000000, ARM_FPSCR_UFC) ∧
  fst (@fp_do x86_host binary32 OP_MUL 0x00800000 0xbf000000 ARM_FPSCR_FZ 0) = f_pack binary32 true 0.
Proof.
  split; [by vm_compute |].
  pose proof (@flush_to_zero_decided x86_host binary32 OP_MUL 0x00800000 0xbf000000 ARM_FPSCR_FZ
    true (2 ^ 46) (-173) (or_introl eq_refl) eq_refl eq_refl ltac:(by vm_compute)) as H.
  assert (round_mag binary32 (host_round_from_fpscr ARM_FPSCR_FZ) true (2 ^ 46) (-173) = (0x400000, false))
    as E1 by by vm_compute.
  assert (@fp_do x86_host binary32 OP_MUL 0x00800000 0xbf000000 ARM_FPSCR_FZ 0 = (0x80000000, ARM_FPSCR_UFC))
    as E2 by by vm_compute.
  rewrite E1, E2 in H. rewrite E2. destruct H as [_ H]. exact (proj1 (H eq_refl)).
Defined.

(** Three results the unit's comments describe otherwise, on an x86-64 host.  With
    flush-to-zero set, a product so small that the host rounds it to zero reports
    inexact beside underflow; VSQRT of a quiet NaN raises the invalid flag, because the
    test for a negative operand is a signalling comparison; and VSQRT of minus one with
    default-NaN mode clear gives the host's NaN, whose sign bit is set, not the
    architecture's default NaN. *)
Theorem vfp_divergences :
  @fp_do x86_host binary32 OP_MUL 0x0d800000 0x0d800000 ARM_FPSCR_FZ 0 =
    (0, ARM_FPSCR_UFC .| ARM_FPSCR_IXC) ∧
  @fp_do x86_host binary32 OP_SQRT 0x7fc00000 0 0 0 = (0x7fc00000, ARM_FPSCR_IOC) ∧
  @fp_do x86_host binary32 OP_SQRT 0xbf800000 0 0 0 = (0xffc00000, ARM_FPSCR_IOC) ∧
  0xffc00000 ≠ F32_DEFAULT_NAN.
Proof. by vm_compute. Qed.
