(* ===== verification/Footprint.v ===== *)
(** * What one instruction may do to the core

    The interpreter changes the core through a small repertoire of updates.  [micro]
    names them, each with the privilege it needs and the width of what it stores;
    [evolves] says that a computation is a sequence of them.  Every function of the
    interpreter is shown to evolve the core (FootExec.v), and what holds of every
    sequence of updates -- register widths and the mode field stay well formed, User
    mode reaches no privileged state -- is proved here once, by induction. *)

From stdpp Require Import relations.
From S2P Require Import Prelude State Cpu CpuFacts.

(** ** Well-formed cores *)

Record cp15_ok (p : arm_cp15) : Prop := {
  ok_sctlr : uint 32 (sctlr p); ok_actlr : uint 32 (actlr p); ok_cpacr : uint 32 (cpacr p);
  ok_ttbr0 : uint 32 (ttbr0 p); ok_ttbr1 : uint 32 (ttbr1 p); ok_ttbcr : uint 32 (ttbcr p);
  ok_dacr : uint 32 (dacr p); ok_dfsr : uint 32 (dfsr p); ok_ifsr : uint 32 (ifsr p);
  ok_dfar : uint 32 (dfar p); ok_ifar : uint 32 (ifar p); ok_fcse : uint 32 (fcse_pid p);
  ok_context : uint 32 (context_id p); ok_rw : uint 32 (tpidrurw p);
  ok_ro : uint 32 (tpidruro p); ok_prw : uint 32 (tpidrprw p)
}.

(** The [uint32_t] fields of a TLB entry, of a block entry and of the stamp. *)
Definition tlb_entry_ok (e : tlb_entry) : Prop :=
  uint 32 (te_gen e) ∧ uint 32 (te_tag e) ∧ uint 32 (te_pa e) ∧ uint 32 (te_fsr e).

Definition blk_entry_ok (e : blk_entry) : Prop := uint 32 (be_tag e) ∧ uint 32 (be_gen e).

Definition stamp_ok (s : stamp) : Prop :=
  uint 32 (st_sctlr s) ∧ uint 32 (st_ttbr0 s) ∧ uint 32 (st_ttbr1 s) ∧
  uint 32 (st_ttbcr s) ∧ uint 32 (st_dacr s) ∧ uint 32 (st_context_id s).

(** The caches: 32-bit tags, addresses and generations, 64-bit event counters. *)
Record cache_ok (k : mmu_cache) : Prop := {
  k_tlb : ∀ i, tlb_entry_ok (tlb k i);
  k_gen : uint 32 (tlb_gen k);
  k_fetch_blk : uint 32 (fetch_blk k);
  k_fetch_gen : uint 32 (fetch_gen k);
  k_dread : ∀ i, blk_entry_ok (dread k i);
  k_dwrite : ∀ i, blk_entry_ok (dwrite k i);
  k_stamp : stamp_ok (tlb_stamp k);
  k_tlb_hits : uint 64 (tlb_hits k);
  k_tlb_misses : uint 64 (tlb_misses k);
  k_tlb_flushes : uint 64 (tlb_flushes k);
  k_dread_hits : uint 64 (dread_hits k);
  k_dread_misses : uint 64 (dread_misses k);
  k_dwrite_hits : uint 64 (dwrite_hits k);
  k_dwrite_misses : uint 64 (dwrite_misses k)
}.

(** Every field of the core fits its C type. *)
Record widths (c : arm_cpu) : Prop := {
  w_r : ∀ i, uint 32 (r c i);
  w_cpsr : uint 32 (cpsr c);
  w_cp15 : cp15_ok (cp15 c);
  w_spsr : ∀ b, uint 32 (spsr c b);
  w_r13 : ∀ b, uint 32 (bank_r13 c b);
  w_r14 : ∀ b, uint 32 (bank_r14 c b);
  w_fiq : ∀ i, uint 32 (fiq_r8_12 c i);
  w_usr : ∀ i, uint 32 (usr_r8_12 c i);
  w_cycles : uint 64 (cycles c);
  w_fsr : uint 32 (abort_fsr c);
  w_far : uint 32 (abort_far c);
  w_excl : uint 32 (excl_addr c);
  w_fpexc : uint 32 (vfp_fpexc c);
  w_fpscr : uint 32 (vfp_fpscr c);
  w_vfp : ∀ i, uint 32 (vfp_s c i);
  w_cache : cache_ok (cache c)
}.

(** ... and the mode field names one of the seven modes. *)
Definition wf (c : arm_cpu) : Prop := widths c ∧ arm_mode_is_valid (cpsr c) = true.

#[export] Hint Resolve w_r w_cpsr w_spsr w_r13 w_r14 w_fiq w_usr w_fsr w_far w_excl w_fpexc w_fpscr w_vfp : word.
#[export] Hint Resolve w_cp15 ok_sctlr ok_actlr ok_cpacr ok_ttbr0 ok_ttbr1 ok_ttbcr ok_dacr
  ok_dfsr ok_ifsr ok_dfar ok_ifar ok_fcse ok_context ok_rw ok_ro ok_prw : word.

Lemma wf_widths c : wf c → widths c.
Proof. by intros []. Qed.

#[export] Hint Resolve wf_widths : word.

Lemma uint_insert {A} `{EqDecision A} w (f : A → Z) i v j :
  (∀ j, uint w (f j)) → uint w v → uint w (<[i := v]> f j).
Proof.
  intros Hf Hv. destruct (decide (i = j)) as [-> |].
  - by rewrite fn_lookup_insert.
  - by rewrite fn_lookup_insert_ne.
Qed.

(** ** Widths of the caches *)

Lemma blank_tlb_ok : tlb_entry_ok (MkTlb 0 0 0 0).
Proof. by repeat split. Qed.

Lemma blank_blk_ok : blk_entry_ok (MkBlk None 0 0).
Proof. by repeat split. Qed.

Lemma insert_ok {A} (P : A → Prop) (f : Z → A) i v j :
  (∀ j, P (f j)) → P v → P (<[i := v]> f j).
Proof.
  intros Hf Hv. destruct (decide (i = j)) as [-> |].
  - by rewrite fn_lookup_insert.
  - by rewrite fn_lookup_insert_ne.
Qed.

#[export] Hint Resolve k_gen k_fetch_blk k_fetch_gen k_tlb_hits k_tlb_misses k_tlb_flushes
  k_dread_hits k_dread_misses k_dwrite_hits k_dwrite_misses : word.

(** One field of the caches is rewritten: the others keep their widths. *)
Ltac cache_tac :=
  match goal with Hk : cache_ok _ |- cache_ok _ =>
    split; simpl; try exact blank_tlb_ok; try exact blank_blk_ok;
    try apply Hk; try (intros; apply insert_ok; [apply Hk |]);
    auto using blank_tlb_ok, blank_blk_ok with word
  end.

(** ** Widths of the updates *)

Ltac widths_tac :=
  intros [] *; split; simpl; try done; intros; try (apply uint_insert); auto.

Lemma widths_set_reg c i v : widths c → uint 32 v → widths (set_reg i v c).
Proof. unfold set_reg. widths_tac. Qed.

Lemma widths_set_cpsr c v : widths c → uint 32 v → widths (set_cpsr v c).
Proof. widths_tac. Qed.

Lemma widths_set_cp15 c p : widths c → cp15_ok p → widths (set_cp15 p c).
Proof. widths_tac. Qed.

Lemma widths_set_spsr c b v : widths c → uint 32 v → widths (set_spsr (<[b := v]> (spsr c)) c).
Proof. widths_tac. Qed.

Lemma widths_set_r13 c b v :
  widths c → uint 32 v → widths (set_bank_r13 (<[b := v]> (bank_r13 c)) c).
Proof. widths_tac. Qed.

Lemma widths_set_r14 c b v :
  widths c → uint 32 v → widths (set_bank_r14 (<[b := v]> (bank_r14 c)) c).
Proof. widths_tac. Qed.

Lemma widths_set_fiq c i v :
  widths c → uint 32 v → widths (set_fiq_r8_12 (<[i := v]> (fiq_r8_12 c)) c).
Proof. widths_tac. Qed.

Lemma widths_set_usr c i v :
  widths c → uint 32 v → widths (set_usr_r8_12 (<[i := v]> (usr_r8_12 c)) c).
Proof. widths_tac. Qed.

Lemma widths_fiq_moves c : widths c → widths (leave_fiq c) ∧ widths (enter_fiq c).
Proof.
  intros Hw. split; apply (for_range_inv widths); try done; intros i c' _ H'.
  - apply widths_set_reg; [apply widths_set_fiq; [done |] |]; apply H'.
  - apply widths_set_reg; [apply widths_set_usr; [done |] |]; apply H'.
Qed.

Lemma widths_set_mode c mode : widths c → widths (arm_set_mode c mode).
Proof.
  intros Hw. unfold arm_set_mode. destruct (negb _); [done |].
  set (ob := arm_bank_of_mode _). set (nb := arm_bank_of_mode (mode .& _)).
  set (c' := if bank_eqb ob nb then c else _).
  enough (widths c') as H'.
  { apply widths_set_cpsr; [done |]. apply uint_lor; [lia | apply uint_land_l; [lia | apply H'] |
      apply uint_land_r; [lia | by split]]. }
  subst c'. destruct (bank_eqb ob nb); [done |].
  set (c1 := set_bank_r14 _ _).
  assert (widths c1) as H1.
  { apply widths_set_r14; [apply widths_set_r13 |]; try done; apply Hw. }
  clearbody c1. destruct (widths_fiq_moves c1 H1) as [Hl He].
  assert (∀ c2, widths c2 → widths (set_reg 14 (bank_r14 (set_reg 13 (bank_r13 c2 nb) c2) nb)
                                      (set_reg 13 (bank_r13 c2 nb) c2))) as Hfin.
  { intros c2 H2. apply widths_set_reg; [apply widths_set_reg; [done |] |]; apply H2. }
  destruct (bank_eqb ob ARM_BANK_FIQ); [by apply Hfin |].
  destruct (bank_eqb nb ARM_BANK_FIQ); by apply Hfin.
Qed.

Lemma widths_restore_psr c s : widths c → uint 32 s → widths (restore_psr c s).
Proof.
  intros Hw Hs. unfold restore_psr. pose proof (widths_set_mode c s Hw) as H'.
  apply widths_set_cpsr; [done |].
  apply uint_lor; [lia | apply uint_land_l; [lia | apply H'] | apply uint_land_l; [lia | done]].
Qed.

Lemma widths_write_user c i v : widths c → uint 32 v → widths (reg_write_user c i v).
Proof.
  intros Hw Hv. unfold reg_write_user. repeat case_match;
    by (apply widths_set_reg || apply widths_set_r13 || apply widths_set_r14 ||
        apply widths_set_usr).
Qed.

(** ** The updates *)

(** The PSR bits User mode cannot write: all but the flags byte, GE and T. *)
Definition psr_protected := 0x00f0ffdf.

Definition latch (p : bool) (f a : Z) (c : arm_cpu) : arm_cpu :=
  set_abort_far a (set_abort_fsr f (set_abort_pending p c)).

Inductive micro (c : arm_cpu) : arm_cpu → Prop :=
| u_reg i v : uint 32 v → micro c (set_reg i v c)
| u_psr v : uint 32 v → v .& psr_protected = cpsr c .& psr_protected → micro c (set_cpsr v c)
| u_cache k : cache_ok k → micro c (set_cache k c)
| u_abort p f a : uint 32 f → uint 32 a → micro c (latch p f a c)
| u_monitor v a : uint 32 a → micro c (set_excl_addr a (set_excl_valid v c))
| u_cycles n : uint 64 n → micro c (set_cycles n c)
| u_thread v : uint 32 v → micro c (set_cp15 (set_tpidrurw v (cp15 c)) c)
| u_fpscr v : uint 32 v → micro c (set_vfp_fpscr v c)
| u_vfp s : (∀ i, uint 32 (s i)) → micro c (set_vfp_s s c)
| p_psr v : cpu_is_priv c = true → uint 32 v →
    v .& ARM_CPSR_MODE_MASK = mode_of c → micro c (set_cpsr v c)
| p_mode mode : cpu_is_priv c = true → micro c (arm_set_mode c mode)
| p_restore s : cpu_is_priv c = true → uint 32 s → arm_mode_is_valid s = true →
    micro c (restore_psr c s)
| p_spsr b v : cpu_is_priv c = true → uint 32 v → micro c (set_spsr (<[b := v]> (spsr c)) c)
| p_user i v : cpu_is_priv c = true → uint 32 v → micro c (reg_write_user c i v)
| p_sp b v : cpu_is_priv c = true → uint 32 v →
    micro c (set_bank_r13 (<[b := v]> (bank_r13 c)) c)
| p_cp15 p : cpu_is_priv c = true → cp15_ok p → micro c (set_cp15 p c)
| p_lines irq fiq : cpu_is_priv c = true → micro c (set_fiq_line fiq (set_irq_line irq c))
| p_fpexc v : cpu_is_priv c = true → uint 32 v → micro c (set_vfp_fpexc v c)
| p_host c' : cpu_is_priv c = true → arch c' = arch c → wf c' → micro c c'.

Lemma valid_same_mode x y : x .& ARM_CPSR_MODE_MASK = y .& ARM_CPSR_MODE_MASK →
  arm_mode_is_valid x = arm_mode_is_valid y.
Proof. intros E. by rewrite <- (mode_is_valid_mask x), E, mode_is_valid_mask. Qed.

Lemma protected_mode x y : x .& psr_protected = y .& psr_protected →
  x .& ARM_CPSR_MODE_MASK = y .& ARM_CPSR_MODE_MASK.
Proof.
  intros E. apply (f_equal (fun z => z .& ARM_CPSR_MODE_MASK)) in E.
  by rewrite <- !Z.land_assoc in E.
Qed.

Lemma write_user_cpsr c i v : cpsr (reg_write_user c i v) = cpsr c.
Proof. unfold reg_write_user. by repeat case_match. Qed.

(** Every update keeps the core well formed. *)
Lemma micro_wf c c' : micro c c' → wf c → wf c'.
Proof.
  intros Hm [Hw Hv]. destruct Hm.
  - split; [by apply widths_set_reg | done].
  - split; [by apply widths_set_cpsr |]. simpl.
    by rewrite (valid_same_mode v (cpsr c)) by (by apply protected_mode).
  - split; [| done]. destruct Hw. by split.
  - split; [| done]. destruct Hw. by split.
  - split; [| done]. destruct Hw. by split.
  - split; [| done]. destruct Hw. by split.
  - split; [| done]. apply widths_set_cp15; [done |].
    destruct (w_cp15 c Hw). by split.
  - split; [| done]. destruct Hw. by split.
  - split; [| done]. destruct Hw. by split.
  - split; [by apply widths_set_cpsr |]. simpl. by rewrite (valid_same_mode v (cpsr c)).
  - split; [by apply widths_set_mode |].
    destruct (arm_mode_is_valid mode) eqn:E; [| by rewrite set_mode_invalid].
    by rewrite set_mode_cpsr, <- mode_is_valid_mask, mode_insert, mode_is_valid_mask.
  - split; [by apply widths_restore_psr |].
    by rewrite restore_psr_cpsr.
  - split; [by apply widths_set_spsr | done].
  - split; [by apply widths_write_user |]. by rewrite write_user_cpsr.
  - split; [by apply widths_set_r13 | done].
  - split; [by apply widths_set_cp15 | done].
  - split; [| done]. destruct Hw. by split.
  - split; [| done]. destruct Hw. by split.
  - done.
Qed.

(** ** Computations *)

Definition evolves (c c' : arm_cpu) : Prop := wf c → rtc micro c c'.

Lemma micros_wf c c' : rtc micro c c' → wf c → wf c'.
Proof. induction 1; eauto using micro_wf. Qed.

Lemma evolves_wf c c' : evolves c c' → wf c → wf c'.
Proof. intros He Hw. by eapply micros_wf; [apply He |]. Qed.

#[export] Instance evolves_preorder : PreOrder evolves.
Proof.
  split; [intros c _; apply rtc_refl |].
  intros c1 c2 c3 H1 H2 Hw. etrans; [by apply H1 |]. apply H2. by eapply evolves_wf.
Qed.

(** One more update. *)
Lemma evolves_snoc c0 c c' :
  evolves c0 c → (wf c0 → wf c → micro c c') → evolves c0 c'.
Proof.
  intros H1 H2 Hw. eapply rtc_r; [by apply H1 |]. apply H2; [done | by eapply evolves_wf].
Qed.

Lemma ev_refl c : evolves c c.
Proof. done. Qed.

Lemma ev_reg c0 c i v :
  evolves c0 c → (wf c0 → wf c → uint 32 v) → evolves c0 (set_reg i v c).
Proof. intros H1 H2. eapply evolves_snoc; [done |]. intros. apply u_reg; auto. Qed.

(** Replacing bits outside [p] keeps the bits inside. *)
Lemma masked_update p x b v : uint 32 p → b .& p = 0 → v .& p = 0 →
  ((x .& wnot b) .| v) .& p = x .& p.
Proof.
  intros Hp Hb Hv. rewrite Z.land_lor_distr_l, Hv, Z.lor_0_r.
  apply Z.bits_inj'. intros i Hi. rewrite !Z.land_spec, testbit_wnot by done.
  apply (f_equal (fun z => Z.testbit z i)) in Hb. rewrite Z.land_spec, Z.testbit_0_l in Hb.
  destruct (Z.testbit p i) eqn:E; [| by rewrite !andb_false_r].
  rewrite andb_true_r in Hb. rewrite Hb. destruct (Z.ltb_spec i 32).
  - by rewrite !andb_true_r.
  - by rewrite (uint_high 32 p) in E by (done || lia).
Qed.

Lemma ev_psr_bits c0 c b v : evolves c0 c →
  (wf c0 → wf c → uint 32 v) → b .& psr_protected = 0 → v .& psr_protected = 0 →
  evolves c0 (set_cpsr ((cpsr c .& wnot b) .| v) c).
Proof.
  intros H1 H2 Hb Hv. eapply evolves_snoc; [done |]. intros Hw Hw'. apply u_psr.
  - apply uint_lor; [lia | apply uint_land_l; [lia |] | auto]. apply Hw'.
  - apply masked_update; [by split | done | done].
Qed.

Lemma ev_psr_clear c0 c b : evolves c0 c → b .& psr_protected = 0 →
  evolves c0 (set_cpsr (cpsr c .& wnot b) c).
Proof.
  intros H1 Hb. rewrite <- (Z.lor_0_r (_ .& _)). apply ev_psr_bits; [done | | done | done].
  intros. by apply uint_0.
Qed.

Lemma ev_psr_set c0 c b : evolves c0 c → uint 32 b → b .& psr_protected = 0 →
  evolves c0 (set_cpsr (cpsr c .| b) c).
Proof.
  intros H1 Hu Hb. eapply evolves_snoc; [done |]. intros Hw Hw'. apply u_psr.
  - apply uint_lor; [lia | apply Hw' | done].
  - by rewrite Z.land_lor_distr_l, Hb, Z.lor_0_r.
Qed.

Lemma ev_flag c0 c b on : evolves c0 c → uint 32 b → b .& psr_protected = 0 →
  evolves c0 (set_flag c b on).
Proof.
  intros H1 Hu Hb. unfold set_flag. destruct on; [by apply ev_psr_set | by apply ev_psr_clear].
Qed.

Lemma ev_cycles c0 c n : uint 64 n → evolves c0 c → evolves c0 (set_cycles n c).
Proof. intros Hn H1. eapply evolves_snoc; [done |]. intros. by apply u_cycles. Qed.

Lemma ev_monitor c0 c v a :
  evolves c0 c → (wf c0 → wf c → uint 32 a) → evolves c0 (set_excl_addr a (set_excl_valid v c)).
Proof. intros H1 H2. eapply evolves_snoc; [done |]. intros. apply u_monitor; auto. Qed.

Lemma ev_excl_valid c0 c v : evolves c0 c → evolves c0 (set_excl_valid v c).
Proof.
  intros H1. replace (set_excl_valid v c) with (set_excl_addr (excl_addr c) (set_excl_valid v c))
    by (by destruct c).
  apply ev_monitor; [done |]. intros _ Hw. apply Hw.
Qed.

Lemma ev_note_abort c0 c fsr va :
  evolves c0 c → (wf c0 → wf c → uint 32 fsr ∧ uint 32 va) → evolves c0 (note_abort c fsr va).
Proof.
  intros H1 H2. unfold note_abort. destruct (abort_pending c); [done |].
  eapply evolves_snoc; [done |]. intros Hw Hw'. destruct (H2 Hw Hw').
  by apply (u_abort c true fsr va).
Qed.

Lemma ev_alignment c0 c va w :
  evolves c0 c → (wf c0 → wf c → uint 32 va) → evolves c0 (note_alignment_abort c va w).
Proof.
  intros H1 H2. apply ev_note_abort; [done |]. intros. split; [| auto].
  destruct w; by split.
Qed.

(** ** Privileged updates *)

Section Privileged.
Context (c0 c : arm_cpu) (Hev : evolves c0 c) (Hp : cpu_is_priv c = true).

Lemma ev_priv_psr v : (wf c0 → wf c → uint 32 v) → v .& ARM_CPSR_MODE_MASK = mode_of c →
  evolves c0 (set_cpsr v c).
Proof. intros Hv Hm. eapply evolves_snoc; [done |]. intros. apply p_psr; auto. Qed.

Lemma ev_set_mode mode : evolves c0 (arm_set_mode c mode).
Proof. eapply evolves_snoc; [done |]. intros. by apply p_mode. Qed.

Lemma ev_restore s : (wf c0 → wf c → uint 32 s) → arm_mode_is_valid s = true →
  evolves c0 (restore_psr c s).
Proof. intros Hs Hv. eapply evolves_snoc; [done |]. intros. apply p_restore; auto. Qed.

Lemma ev_spsr b v : (wf c0 → wf c → uint 32 v) →
  evolves c0 (set_spsr (<[b := v]> (spsr c)) c).
Proof. intros Hv. eapply evolves_snoc; [done |]. intros. apply p_spsr; auto. Qed.

Lemma ev_write_user i v : (wf c0 → wf c → uint 32 v) → evolves c0 (reg_write_user c i v).
Proof. intros Hv. eapply evolves_snoc; [done |]. intros. apply p_user; auto. Qed.

Lemma ev_bank_sp b v : (wf c0 → wf c → uint 32 v) →
  evolves c0 (set_bank_r13 (<[b := v]> (bank_r13 c)) c).
Proof. intros Hv. eapply evolves_snoc; [done |]. intros. apply p_sp; auto. Qed.

Lemma ev_cp15 p : (wf c0 → wf c → cp15_ok p) → evolves c0 (set_cp15 p c).
Proof. intros Hv. eapply evolves_snoc; [done |]. intros. apply p_cp15; auto. Qed.

Lemma ev_lines irq fiq : evolves c0 (set_fiq_line fiq (set_irq_line irq c)).
Proof. eapply evolves_snoc; [done |]. intros. by apply p_lines. Qed.

Lemma ev_host c' : arch c' = arch c → (wf c0 → wf c → wf c') → evolves c0 c'.
Proof. intros Ha Hw. eapply evolves_snoc; [done |]. intros. apply p_host; auto. Qed.

End Privileged.

(** ** Memory accesses: the core but for its caches and the abort latch *)

Definition blank_cache : mmu_cache :=
  MkCache (fun _ => MkTlb 0 0 0 0) 0 None 0 0 false (fun _ => MkBlk None 0 0)
    (fun _ => MkBlk None 0 0) (MkStamp 0 0 0 0 0 0) 0 0 0 0 0 0 0.

Definition core_of (c : arm_cpu) : arm_cpu := set_cache blank_cache (latch false 0 0 c).

(** [c'] differs from [c] in the caches and the abort latch only. *)
Definition quiet (c c' : arm_cpu) : Prop := core_of c' = core_of c.

#[export] Instance quiet_equiv : Equivalence quiet.
Proof. split; unfold quiet; repeat intro; congruence. Qed.

Section Quiet.
Context {c c' : arm_cpu} (Hq : quiet c c').

Lemma quiet_r : r c' = r c.
Proof. exact (f_equal r Hq). Qed.
Lemma quiet_cpsr : cpsr c' = cpsr c.
Proof. exact (f_equal cpsr Hq). Qed.
Lemma quiet_spsr : spsr c' = spsr c.
Proof. exact (f_equal spsr Hq). Qed.
Lemma quiet_cp15 : cp15 c' = cp15 c.
Proof. exact (f_equal cp15 Hq). Qed.
Lemma quiet_priv : cpu_is_priv c' = cpu_is_priv c.
Proof. unfold cpu_is_priv, mode_of. by rewrite quiet_cpsr. Qed.

End Quiet.

Lemma quiet_cache c k : quiet c (set_cache k c).
Proof. by destruct c. Qed.

Lemma quiet_note_abort c f a : quiet c (note_abort c f a).
Proof. unfold note_abort. by destruct (abort_pending c). Qed.

Lemma quiet_alignment c a w : quiet c (note_alignment_abort c a w).
Proof. apply quiet_note_abort. Qed.

(** ** User-mode confinement *)

(** What a program in User mode can change: its registers, the flags, GE and T bits,
    TPIDRURW, the monitor, the VFP data, the caches and the abort latch. *)
Record confined (c c' : arm_cpu) : Prop := {
  cf_psr : cpsr c' .& psr_protected = cpsr c .& psr_protected;
  cf_spsr : spsr c' = spsr c;
  cf_banks : bank_r13 c' = bank_r13 c ∧ bank_r14 c' = bank_r14 c;
  cf_fiq : fiq_r8_12 c' = fiq_r8_12 c ∧ usr_r8_12 c' = usr_r8_12 c;
  cf_cp15 : set_tpidrurw 0 (cp15 c') = set_tpidrurw 0 (cp15 c);
  cf_lines : irq_line c' = irq_line c ∧ fiq_line c' = fiq_line c;
  cf_fpexc : vfp_fpexc c' = vfp_fpexc c;
  cf_arch : arch c' = arch c
}.

#[export] Instance confined_preorder : PreOrder confined.
Proof.
  split; [by split |]. intros c1 c2 c3 [] []. split; try congruence; intuition congruence.
Qed.

Lemma confined_mode c c' : confined c c' → mode_of c' = mode_of c.
Proof. intros []. by apply protected_mode. Qed.

Lemma user_not_priv c : mode_of c = ARM_MODE_USR → cpu_is_priv c = true → False.
Proof. unfold cpu_is_priv. intros ->. done. Qed.

Lemma micro_confined c c' : micro c c' → mode_of c = ARM_MODE_USR → confined c c'.
Proof.
  intros Hm Hu. destruct Hm; try (exfalso; by eapply user_not_priv); by split.
Qed.

Lemma micros_confined c c' : rtc micro c c' → mode_of c = ARM_MODE_USR → confined c c'.
Proof.
  induction 1 as [| c c1 c2 H1 H2 IH]; intros Hu; [done |].
  pose proof (micro_confined _ _ H1 Hu) as Hc. etrans; [done |]. apply IH.
  by rewrite (confined_mode _ _ Hc).
Qed.
