(* ===== verification/FootExec.v ===== *)
(** * The instruction groups and the updates they make

    One lemma per function of the interpreter: it is a sequence of the updates of
    Footprint.v ([evolves]), and the successor address it yields is a word.  The
    groups that only compute come first, the ones that access memory or coprocessors
    after them. *)

From S2P Require Import Prelude State Cpu CpuFacts Alu AluFacts ExecDp ExecMul ExecMedia.
From S2P Require Import ArithFacts Bus Mmu MemAccess ExecXfer ExecCp Sync Footprint.

(** ** Widths of computed values *)

Lemma uint_barrel v t n ra cin : uint 32 v → 0 <= n → uint 32 (fst (barrel_shift v t n ra cin)).
Proof.
  intros Hv Hn. unfold barrel_shift.
  repeat case_match; cbn [fst]; solve_uint; try (by split); by apply uint_ror.
Qed.

Lemma fld_nonneg x lo m : 0 <= m → 0 <= fld x lo m.
Proof. intros. unfold fld. apply Z.land_nonneg. by right. Qed.

Lemma land_nonneg_r x m : 0 <= m → 0 <= x .& m.
Proof. intros. apply Z.land_nonneg. by right. Qed.

#[export] Hint Resolve uint_barrel uint_ror : word.
#[export] Hint Extern 3 (0 <= fld _ _ _) => apply fld_nonneg; lia : word.
#[export] Hint Extern 3 (0 <= Z.land _ _) => apply land_nonneg_r; lia : word.
#[export] Hint Extern 3 (uint _ (fld _ _ _)) => apply uint_fld; [lia | split; lia] : word.

Lemma wf_reg_read c pc i : wf c → uint 32 (reg_read c pc i).
Proof. intros [Hw _]. apply reg_read_range. intros j. apply Hw. Qed.

Lemma wf_reg c i : wf c → uint 32 (r c i).
Proof. intros [Hw _]. apply Hw. Qed.

#[export] Hint Resolve wf_reg_read wf_reg : word.

Lemma uint_alu_add c a b cin set : uint 32 (fst (alu_add c a b cin set)).
Proof. unfold alu_add. simpl. solve_uint. Qed.

Lemma uint_alu_sub c a b cin set : uint 32 (fst (alu_sub c a b cin set)).
Proof. apply uint_alu_add. Qed.

Lemma uint_operand2 c pc insn cin : wf c → uint 32 (fst (dp_operand2 c pc insn cin)).
Proof. intros Hw. unfold dp_operand2. repeat case_match; simpl; solve_uint. Qed.

Lemma uint_clz v : uint 32 v → uint 32 (clz v).
Proof.
  intros Hv. pose proof (clz_spec v Hv). destruct (v =? 0); [| split; lia].
  by replace (clz v) with 32.
Qed.

Lemma uint_sign_extend8 v : uint 32 (sign_extend8 v).
Proof. unfold sign_extend8. solve_uint. Qed.

Lemma uint_sign_extend16 v : uint 32 (sign_extend16 v).
Proof. unfold sign_extend16. solve_uint. Qed.

Lemma uint_w16_32 v : uint 32 (w16 v).
Proof. eapply uint_mono; [apply uint_w16 | lia]. Qed.

Lemma uint_w8_32 v : uint 32 (w8 v).
Proof. eapply uint_mono; [apply uint_w8 | lia]. Qed.

#[export] Hint Resolve uint_alu_add uint_alu_sub uint_operand2 uint_clz uint_sign_extend8
  uint_sign_extend16 uint_w16_32 uint_w8_32 uint_rev32 : word.

Lemma uint_msr_mask f : uint 32 (msr_mask f).
Proof. unfold msr_mask. repeat case_match; by split. Qed.

#[export] Hint Resolve uint_msr_mask : word.

Lemma uint_wnot_const x : 0 <= x → x < 2 ^ 32 → uint 32 (wnot x).
Proof. intros. apply uint_wnot. by split. Qed.

#[export] Hint Extern 2 (uint 32 (wnot _)) => apply uint_wnot; split; lia : word.

(** ** The proof engine *)

(** Peel the updates off the goal one at a time, splitting the control flow. *)
Ltac ev_step :=
  match goal with
  | |- evolves ?c ?c => apply ev_refl
  | H : evolves ?c0 ?c |- evolves ?c0 ?c => exact H
  | |- evolves _ (set_reg _ _ _) => apply ev_reg; [| intros; solve_uint]
  | |- evolves _ (set_flag _ _ _) => apply ev_flag; [| by split | done]
  | |- evolves _ (set_cpsr (cpsr ?c .| _) ?c) => apply ev_psr_set; [| by split | done]
  | |- evolves _ (set_cpsr (cpsr ?c .& wnot _) ?c) => apply ev_psr_clear; [| done]
  | |- evolves _ (set_excl_valid _ _) => apply ev_excl_valid
  | |- evolves _ (set_excl_addr _ (set_excl_valid _ _)) => apply ev_monitor; [| intros; solve_uint]
  | |- evolves _ (set_cycles _ _) => apply ev_cycles; [apply uint_w64 |]
  | |- evolves _ (note_alignment_abort _ _ _) => apply ev_alignment; [| intros; solve_uint]
  | |- evolves _ (if ?b then _ else _) => destruct b eqn:?
  | |- evolves _ (match ?x with _ => _ end) => destruct x eqn:?
  end.

Ltac ev := repeat ev_step.

(** The result of a group that does not branch, and of one that may. *)
Definition good (c : arm_cpu) (o : arm_status * arm_cpu) : Prop := evolves c (snd o).

Definition good_next (c : arm_cpu) (o : outcome) : Prop :=
  evolves c (snd o) ∧ (wf c → uint 32 (snd (fst o))).

Lemma ev_alu_add c0 c a b cin set : evolves c0 c → evolves c0 (snd (alu_add c a b cin set)).
Proof. intros Hc. unfold alu_add. simpl. ev. Qed.

Lemma ev_logic_flags c0 c v carry set : evolves c0 c → evolves c0 (alu_logic_flags c v carry set).
Proof. intros Hc. unfold alu_logic_flags. ev. Qed.

Section Compute.
Context (c : arm_cpu) (pc insn next : Z).
Hypothesis (Hpc : uint 32 pc) (Hinsn : uint 32 insn) (Hnext : uint 32 next).

Lemma good_stay st : good_next c (st, next, c).
Proof. split; [apply ev_refl | done]. Qed.

Lemma good_write c' rd v : evolves c c' → (wf c → wf c' → uint 32 v) →
  good_next c (write_rd c' rd v next).
Proof. intros Hc Hv. split; [by apply ev_reg | done]. Qed.

(** ** Data processing *)

Lemma movw_good : good_next c (exec_movw_movt c insn next).
Proof.
  unfold exec_movw_movt. case_match; [apply good_stay |].
  apply good_write; [apply ev_refl |]. intros. apply uint_if; solve_uint.
Qed.

Lemma bx_good c' t : evolves c c' → (wf c → wf c' → uint 32 t) → good_next c (bx_target c' t).
Proof.
  intros Hc Ht. unfold bx_target. split; cbn [fst snd]; [ev |].
  intros Hw. apply uint_land_l; [lia |]. apply Ht; [done | by eapply evolves_wf].
Qed.

Lemma bx_reg_good : good_next c (exec_bx c pc insn next).
Proof.
  unfold exec_bx. case_match; [apply good_stay |].
  apply bx_good; [apply ev_refl | intros; solve_uint].
Qed.

Lemma blx_reg_good : good_next c (exec_blx_reg c pc insn next).
Proof.
  unfold exec_blx_reg. repeat (case_match; [apply good_stay |]).
  apply bx_good; [ev | intros; solve_uint].
Qed.

Lemma saturating_good : good_next c (exec_saturating c pc insn next).
Proof.
  unfold exec_saturating, set_q.
  destruct (saturating_op _ _ _) as [v sat] eqn:E. split; [| done]. cbn [fst snd].
  assert (uint 32 v) as Hv.
  { unfold saturating_op in E. repeat case_match; simplify_eq; apply uint_w32. }
  ev.
Qed.

Lemma user_bank_of_mode : mode_of c = ARM_MODE_USR → arm_bank_of_mode (cpsr c) = ARM_BANK_USR.
Proof. unfold mode_of, arm_bank_of_mode. by intros ->. Qed.

Lemma bank_priv : bank_eqb (arm_bank_of_mode (cpsr c)) ARM_BANK_USR = false → cpu_is_priv c = true.
Proof.
  intros Hb. unfold cpu_is_priv. destruct (Z.eqb_spec (mode_of c) ARM_MODE_USR) as [E |]; [| done].
  by rewrite user_bank_of_mode in Hb.
Qed.

Lemma mrs_good : good_next c (exec_mrs c insn next).
Proof.
  unfold exec_mrs. case_match; [apply good_stay |].
  apply good_write; [apply ev_refl |]. intros [] _. apply uint_if; solve_uint.
Qed.

(** The PSR value MSR writes. *)
Definition msr_merge (x mask val : Z) : Z := (x .& wnot mask) .| (val .& mask).

Lemma uint_msr_merge x m val : uint 32 x → uint 32 val → uint 32 (msr_merge x m val).
Proof. intros. apply uint_lor; [lia | |]; apply uint_land_l; done || lia. Qed.

Lemma msr_merge_keep x m val p : uint 32 p → m .& p = 0 →
  msr_merge x m val .& p = x .& p.
Proof.
  intros Hp Hm. apply masked_update; [done | done |]. by rewrite <- Z.land_assoc, Hm, Z.land_0_r.
Qed.

(** A privileged MSR to the CPSR, after its validity check. *)
Lemma msr_priv_good mask val : cpu_is_priv c = true → (wf c → uint 32 val) →
  let newcpsr := msr_merge (cpsr c) mask val in
  negb ((mask .& ARM_CPSR_MODE_MASK) =? 0) && negb (arm_mode_is_valid newcpsr) = false →
  good_next c
    (if negb ((mask .& ARM_CPSR_MODE_MASK) =? 0) &&
        negb ((newcpsr .& ARM_CPSR_MODE_MASK) =? mode_of c)
     then (ARM_OK, next, restore_psr c newcpsr)
     else (ARM_OK, next, set_cpsr newcpsr c)).
Proof.
  intros Hp Hval newcpsr Hvalid.
  assert (wf c → uint 32 newcpsr) as Hn.
  { intros Hw. apply uint_msr_merge; [apply Hw | auto]. }
  case_match eqn:E; (split; [| done]).
  - apply andb_true_iff in E as [E _]. rewrite E in Hvalid. apply negb_false_iff in Hvalid.
    apply ev_restore; auto using ev_refl.
  - apply ev_priv_psr; auto using ev_refl. unfold mode_of.
    apply andb_false_iff in E as [E | E]; apply negb_false_iff, Z.eqb_eq in E; [| done].
    apply msr_merge_keep; [by split | done].
Qed.

Lemma msr_good : good_next c (exec_msr c pc insn next).
Proof.
  unfold exec_msr. set (val := if bit insn 25 then _ else _).
  assert (wf c → uint 32 val) as Hval.
  { intros. unfold val. apply uint_if; solve_uint. }
  pose proof (uint_msr_mask (fld insn 16 0xf)) as Hm. set (mask := msr_mask _) in *.
  destruct (bit insn 22).
  { rewrite negb_involutive. case_match eqn:Eb; [apply good_stay |]. split; [| done].
    apply ev_spsr; [apply ev_refl | by apply bank_priv |].
    intros [Hw Hx] _. apply uint_msr_merge; [apply Hw | by apply Hval]. }
  rewrite negb_involutive. destruct (mode_of c =? ARM_MODE_USR) eqn:Eu.
  - unfold mode_of in Eu. rewrite (user_bank_of_mode (proj1 (Z.eqb_eq _ _) Eu)).
    change (bank_eqb ARM_BANK_USR ARM_BANK_USR && true) with true. cbn iota.
    change 0x1f with ARM_CPSR_MODE_MASK. set (m := mask .& 0xff000000).
    assert (∀ p, 0xff000000 .& p = 0 → m .& p = 0) as Hp.
    { intros p Hp. unfold m. by rewrite <- Z.land_assoc, Hp, Z.land_0_r. }
    rewrite (Hp ARM_CPSR_MODE_MASK eq_refl). cbn [negb andb Z.eqb].
    split; [| done]. apply ev_psr_bits; [apply ev_refl | | by apply Hp |].
    + intros. apply uint_land_l; auto; lia.
    + by rewrite <- Z.land_assoc, Hp, Z.land_0_r.
  - rewrite andb_false_r. change 0x1f with ARM_CPSR_MODE_MASK.
    case_match eqn:E1; [apply good_stay |].
    apply msr_priv_good; [unfold cpu_is_priv; by rewrite Eu | done | done].
Qed.

Lemma misc_good : good_next c (exec_miscellaneous c pc insn next).
Proof.
  unfold exec_miscellaneous.
  repeat (case_match; [first [ apply bx_reg_good | apply blx_reg_good | apply saturating_good
    | apply mrs_good | apply msr_good
    | apply good_write; [apply ev_refl | intros; solve_uint] ] |]).
  apply good_stay.
Qed.

(** The operations change flags only. *)
Definition flags_only (c c' : arm_cpu) : Prop :=
  evolves c c' ∧ spsr c' = spsr c ∧ mode_of c' = mode_of c.

Lemma flags_only_add a b cin set : flags_only c (snd (alu_add c a b cin set)).
Proof.
  split; [apply ev_alu_add, ev_refl |]. unfold alu_add. cbv zeta. cbn [snd].
  destruct set; [| done]. split; [done |]. by rewrite !mode_set_flag.
Qed.

Lemma flags_only_logic v carry set : flags_only c (alu_logic_flags c v carry set).
Proof.
  split; [apply ev_logic_flags, ev_refl |]. unfold alu_logic_flags. cbv zeta.
  destruct set; [| done]. cbn [negb]. split; [done |]. by rewrite !mode_set_flag.
Qed.

Lemma alu_op_flags opcode a op2 cin carry set :
  flags_only c (snd (alu_op c opcode a op2 cin carry set)).
Proof.
  unfold alu_op, alu_sub. repeat case_match; cbn [fst snd];
    first [apply flags_only_logic | apply flags_only_add].
Qed.

Lemma alu_op_uint opcode a op2 cin carry set v c' : uint 32 a → uint 32 op2 →
  alu_op c opcode a op2 cin carry set = (Some v, c') → uint 32 v.
Proof.
  intros Ha Hb E. unfold alu_op in E. repeat case_match; simplify_eq; solve_uint.
Qed.

Lemma comparison_writes_nothing opcode a op2 cin carry set : 8 <= opcode < 12 →
  is_Some (fst (alu_op c opcode a op2 cin carry set)) → False.
Proof.
  intros Hop [v Hv]. assert (opcode = 8 ∨ opcode = 9 ∨ opcode = 10 ∨ opcode = 11) as H by lia.
  by destruct H as [-> | [-> | [-> | ->]]].
Qed.

Lemma align_uint c' v : uint 32 v → uint 32 (align_for_state c' v).
Proof. intros. unfold align_for_state. apply uint_land_l; [lia | done]. Qed.

Lemma alu_good : good_next c (exec_alu c pc insn next).
Proof.
  unfold exec_alu. destruct (dp_refused c insn) eqn:Er; [apply good_stay |].
  destruct (dp_operand2 _ _ _ _) as [op2 carry] eqn:Eo.
  set (a := reg_read c pc (rn_of insn)). set (cin := if get_flag c _ then 1 else 0).
  assert (wf c → uint 32 op2) as Ho.
  { intros. replace op2 with (fst (dp_operand2 c pc insn (get_flag c ARM_CPSR_C))) by (by rewrite Eo).
    by apply uint_operand2. }
  pose proof (alu_op_flags (fld insn 21 0xf) a op2 cin carry (bit insn 20)) as (Hev & Hs & Hm).
  destruct (alu_op _ _ _ _ _ _ _) as [[res |] c'] eqn:Ea; cbn [fst snd] in *; [| by split].
  assert (wf c → uint 32 res) as Hres.
  { intros Hw. eapply alu_op_uint; [by apply wf_reg_read | by apply Ho | exact Ea]. }
  unfold alu_write. destruct (rd_of insn =? 15) eqn:Erd.
  2: { split; [| done]. cbn [fst snd]. apply ev_reg; auto. }
  split; [| intros; by apply align_uint, Hres]. cbn [fst snd].
  set (c1 := set_reg _ _ _). assert (evolves c c1) as H1 by (apply ev_reg; auto).
  destruct (bit insn 20 && _) eqn:Eb; [| done]. apply andb_true_iff in Eb as [Es Eb].
  assert (arm_bank_of_mode (cpsr c1) = arm_bank_of_mode (cpsr c)) as Ebank.
  { apply bank_of_mode_eq, Hm. }
  rewrite Ebank in *. change (spsr c1) with (spsr c'). rewrite Hs.
  apply ev_restore; [done | | intros [] _; solve_uint |].
  - apply negb_true_iff in Eb. unfold cpu_is_priv. change (mode_of c1) with (mode_of c').
    rewrite Hm. by apply bank_priv.
  - unfold dp_refused in Er. cbv zeta in Er. apply orb_false_iff in Er as [_ Er].
    rewrite Erd, Es, !andb_true_r in Er. apply negb_true_iff in Eb. rewrite Eb, orb_false_l in Er.
    destruct ((fld insn 21 15 <? 8) || (12 <=? fld insn 21 15)) eqn:Eop.
    { by apply negb_false_iff in Er. }
    exfalso. apply (comparison_writes_nothing (fld insn 21 0xf) a op2 cin carry (bit insn 20)).
    + apply orb_false_iff in Eop as [E1%Z.ltb_ge E2%Z.leb_gt]. done.
    + by rewrite Ea.
Qed.

Lemma dp_good : good_next c (exec_data_processing c pc insn next).
Proof.
  unfold exec_data_processing.
  repeat case_match; [apply movw_good | apply misc_good | apply alu_good].
Qed.

Lemma branch_good : good_next c (exec_branch c pc insn next).
Proof.
  unfold exec_branch. split; cbn [fst snd]; [ev |].
  intros. apply uint_land_l; [lia | apply uint_w32].
Qed.

(** ** Multiplies *)

Lemma multiply_good : good c (exec_multiply c pc insn).
Proof. unfold exec_multiply, good. cbn [fst snd]. ev. Qed.

Lemma multiply_long_good : good c (exec_multiply_long c pc insn).
Proof. unfold exec_multiply_long, good. case_match; cbn [fst snd]; ev. Qed.

Lemma dsp_write_good rd p a : good c (dsp_write rd (dsp_accumulate_word c p a)).
Proof. unfold dsp_write, dsp_accumulate_word, good. cbn [fst snd]. ev. Qed.

Lemma dsp_good : good c (exec_dsp_multiply c insn).
Proof.
  unfold exec_dsp_multiply. repeat case_match;
    first [ apply dsp_write_good | unfold good; cbn [fst snd]; ev ].
Qed.

(** ** The media space *)

Lemma media_write_good rd v : (wf c → uint 32 v) → good c (media_write c rd v).
Proof. intros Hv. unfold good, media_write. cbn [snd]. by apply ev_reg; [apply ev_refl | auto]. Qed.

Lemma media_stay st : good c (st, c).
Proof. apply ev_refl. Qed.

Lemma set_q_good q res : good c res → good c (media_set_q q res).
Proof. unfold good, media_set_q. intros. destruct q; [| done]. cbn [snd]. ev. Qed.

Lemma uint_extend16 s v b : uint 32 (extend16_lanes s v b).
Proof.
  unfold extend16_lanes. apply uint_lor; [lia | solve_uint |].
  apply (uint_shiftl 32 16); [lia | lia | apply uint_w16].
Qed.

Lemma uint_rev16 v : uint 32 (rev16 v).
Proof. unfold rev16. solve_uint. Qed.

Lemma uint_parallel p a b : uint 32 (fst (parallel p a b)).
Proof.
  unfold parallel. apply (for_range_inv (fun x => uint 32 (fst x))); [| by split].
  intros i [x g] _ Hx. unfold par_step. destruct (par_lane _ _ _ _). cbn [fst] in *. solve_uint.
Qed.

Lemma uint_sdiv n m : uint 32 (sdiv32 n m).
Proof. unfold sdiv32. repeat case_match; solve_uint. Qed.

Lemma uint_udiv n m : uint 32 n → uint 32 m → uint 32 (udiv32 n m).
Proof.
  intros [] [? _]. unfold udiv32. destruct (Z.eqb_spec m 0); [by split |].
  split; [by apply Z.div_pos; lia |]. apply Z.div_lt_upper_bound; nia.
Qed.

Lemma uint_pack tb k n m : uint 32 n → uint 32 m → uint 32 (pack_halfword tb k n m).
Proof.
  intros. unfold pack_halfword. cbv zeta. repeat case_match;
    (apply uint_lor; [lia | |]; apply uint_land_l; lia || solve_uint).
Qed.

Lemma uint_select ge n m : uint 32 n → uint 32 m → uint 32 (select_bytes ge n m).
Proof.
  intros. unfold select_bytes. apply (for_range_inv (uint 32)); [| by split].
  intros i x _ Hx. apply uint_lor; [lia | done |]. apply uint_if; apply uint_land_l; done || lia.
Qed.

Lemma uint_usad8 n m s : uint 32 s → uint 32 (usad8 n m s).
Proof.
  intros. unfold usad8. apply (for_range_inv (uint 32)); [| done]. intros. apply uint_w32.
Qed.

Lemma uint_saturate u v k : uint 32 (fst (saturate u v k)).
Proof.
  unfold saturate, unsigned_saturate, signed_saturate. repeat case_match; cbn [fst]; solve_uint.
Qed.

Hint Resolve uint_extend16 uint_rev16 uint_parallel uint_sdiv uint_udiv uint_pack uint_select
  uint_usad8 uint_saturate : word.

Lemma sat16_good u f s : uint 32 (fst (for_range 2 0 (sat16_step u f s) (0, false))).
Proof.
  apply (for_range_inv (fun x => uint 32 (fst x))); [| by split].
  intros i [x g] _ Hx. unfold sat16_step. destruct (saturate _ _ _). cbn [fst] in *. solve_uint.
Qed.

Ltac media_tac :=
  repeat (case_match; [apply media_stay |]);
  first [ apply media_write_good; intros; solve_uint | idtac ].

Lemma extend_good : good c (media_extend c pc insn).
Proof.
  unfold media_extend. case_match; [apply media_stay |].
  assert (wf c → uint 32 (ror32 (reg_read c pc (insn .& 15)) (fld insn 10 3 * 8))) as Hv.
  { intros. solve_uint. }
  repeat case_match; first [ apply media_stay | apply media_write_good; intros; solve_uint ].
Qed.

Lemma parallel_good : good c (media_parallel c pc insn).
Proof.
  unfold media_parallel. media_tac.
  set (p := MkPar _ _ _ _ _). pose proof (uint_parallel p (reg_read c pc (fld insn 16 15))
    (reg_read c pc (insn .& 15))) as Hu.
  destruct (parallel _ _ _) as [res ge]. unfold good. cbn [fst snd] in *.
  assert (evolves c (set_reg (fld insn 12 15) res c)) as Hc1 by ev.
  case_match; [| done].
  assert (uint 4 (ge .& 0xf)) as Hg by (apply uint_land_r; [lia | by split]).
  apply ev_psr_bits; [done | | done |].
  - intros. apply (uint_shiftl 32 4); [lia | lia | done].
  - apply Z.bits_inj'. intros i Hi. rewrite Z.land_spec, Z.shiftl_spec, Z.testbit_0_l by done.
    destruct (Z_lt_le_dec i 16); [by rewrite Z.testbit_neg_r by lia |].
    destruct (Z_lt_le_dec i 20); [| by rewrite (uint_high 4) by (done || lia)].
    assert (i = 16 ∨ i = 17 ∨ i = 18 ∨ i = 19) as [-> | [-> | [-> | ->]]] by lia;
      apply andb_false_r.
Qed.

Lemma smlad_good : good c (media_smlad c pc insn).
Proof.
  unfold media_smlad. media_tac. unfold good, media_write. cbn [snd]. ev.
Qed.

Lemma smlald_good : good c (media_smlald c pc insn).
Proof.
  unfold media_smlald. media_tac. unfold good, media_write. cbn [snd]. ev.
Qed.

Lemma ssat_good : good c (media_ssat c pc insn).
Proof.
  unfold media_ssat. media_tac. cbv zeta.
  destruct (saturate _ _ _) as [v q] eqn:E. apply set_q_good, media_write_good. intros _.
  replace v with (fst (v, q)) by done. rewrite <- E. apply uint_saturate.
Qed.

Lemma ssat16_good : good c (media_ssat16 c pc insn).
Proof.
  unfold media_ssat16. media_tac.
  destruct (for_range 2 0 _ _) as [v q] eqn:E. apply set_q_good, media_write_good. intros _.
  replace v with (fst (v, q)) by done. rewrite <- E. apply sat16_good.
Qed.

Lemma media_all_good : good c (exec_media c pc insn).
Proof.
  unfold exec_media.
  case_match; [apply extend_good |].
  case_match; [unfold media_rev; media_tac |].
  case_match; [unfold media_rev; media_tac |].
  case_match; [unfold media_rev, revsh; media_tac |].
  case_match; [apply parallel_good |].
  case_match.
  { unfold media_divide. destruct (arch c); [apply media_stay |].
    case_match; [apply media_stay |]. apply media_write_good. intros.
    case_match; solve_uint. }
  case_match; [unfold media_pack; media_tac |].
  case_match; [unfold media_sel; media_tac |].
  case_match; [apply smlad_good |].
  case_match; [apply smlald_good |].
  case_match; [unfold media_smmul; media_tac |].
  case_match.
  { unfold media_usad8. media_tac. }
  case_match; [apply ssat_good |].
  case_match; [apply ssat16_good | apply media_stay].
Qed.

End Compute.

#[export] Hint Resolve uint_extend16 uint_rev16 uint_parallel uint_sdiv uint_udiv uint_pack
  uint_select uint_usad8 uint_saturate : word.
