(* ===== verification/FootMem.v ===== *)
(** * Memory accesses leave the core alone

    Every accessor of MemAccess.v, and with them translation and the transfer loops,
    changes the core's caches and abort latch and nothing else ([quiet]), yields words,
    and is a sequence of the updates of Footprint.v.  This is the base-restored abort
    model at its root: an access that faults has changed no register. *)

From stdpp Require Import relations.
From S2P Require Import Prelude State Cpu CpuFacts Bus Mmu MemAccess Alu ExecXfer Footprint.
From S2P Require Import FootExec.

(** What an access does to the core. *)
Definition accesses {B} (m m' : mach B) : Prop :=
  wf (cpu m) → quiet (cpu m) (cpu m') ∧ rtc micro (cpu m) (cpu m').

Lemma accesses_wf {B} (m m' : mach B) : accesses m m' → wf (cpu m) → wf (cpu m').
Proof. intros Ha Hw. by eapply micros_wf; [apply Ha |]. Qed.

#[export] Instance accesses_preorder {B} : PreOrder (@accesses B).
Proof.
  split; [intros m _; by split; [| apply rtc_refl] |]. intros m1 m2 m3 H1 H2 Hw.
  destruct (H1 Hw) as [Hq Hr]. destruct (H2 (accesses_wf _ _ H1 Hw)). split; by etrans.
Qed.

Lemma accesses_evolves {B} (m m' : mach B) : accesses m m' → evolves (cpu m) (cpu m').
Proof. intros Ha Hw. by apply Ha. Qed.

Lemma accesses_quiet {B} (m m' : mach B) : accesses m m' → wf (cpu m) → quiet (cpu m) (cpu m').
Proof. intros Ha Hw. by apply Ha. Qed.

(** Appending an access whose side conditions hold in the first state. *)
Lemma accesses_then {B} (m0 m m' : mach B) :
  accesses m0 m → (wf (cpu m0) → accesses m m') → accesses m0 m'.
Proof. intros H1 H2 Hw. exact (transitivity H1 (H2 Hw) Hw). Qed.

Lemma accesses_intro {B} (m m' : mach B) :
  quiet (cpu m) (cpu m') → evolves (cpu m) (cpu m') → accesses m m'.
Proof. intros Hq He Hw. split; [done | by apply He]. Qed.

Lemma accesses_bus {B} (m : mach B) b : accesses m (set_bus b m).
Proof. apply accesses_intro; [done | apply ev_refl]. Qed.

Lemma accesses_self {B} (m : mach B) : accesses m (set_cpu (cpu m) m).
Proof. apply accesses_intro; [done | apply ev_refl]. Qed.

Lemma accesses_cache {B} (m : mach B) k b :
  (wf (cpu m) → cache_ok k) → accesses m (Mach (set_cache k (cpu m)) b).
Proof.
  intros Hk. apply accesses_intro; [apply quiet_cache |]. eapply evolves_snoc; [apply ev_refl |].
  intros Hw _. apply u_cache. auto.
Qed.

Lemma accesses_cache_step {B} (m : mach B) k :
  (cache_ok (cache (cpu m)) → cache_ok k) → accesses m (on_cpu (set_cache k) m).
Proof. intros E. apply accesses_cache. intros [Hw _]. apply E, Hw. Qed.

Lemma accesses_latch {B} (m : mach B) f va :
  uint 32 f → uint 32 va → accesses m (on_cpu (fun c => note_abort c f va) m).
Proof.
  intros. apply accesses_intro; [apply quiet_note_abort |].
  apply ev_note_abort; [apply ev_refl | done].
Qed.

Lemma accesses_alignment {B} (m : mach B) va w :
  uint 32 va → accesses m (on_cpu (fun c => note_alignment_abort c va w) m).
Proof.
  intros. apply accesses_intro; [apply quiet_alignment |]. apply ev_alignment; [apply ev_refl | done].
Qed.

(** ** Translation *)

Lemma uint_fsr_make s d w : uint 32 (fsr_make s d w).
Proof.
  unfold fsr_make. repeat apply uint_lor; try lia.
  - apply uint_land_r; [lia | by split].
  - apply (uint_shiftl 32 4); [lia | lia |]. apply uint_land_r; [lia | by split].
  - by destruct w.
Qed.

Definition xlat_ok (x : xlat) : Prop := match x with Fault f => uint 32 f | Phys _ => True end.

Section Mem.
Context {B : Type} `{Bus B}.
Implicit Types m : mach B.

(** A cached answer: whatever the walk said, the entry made of it has its widths. *)
Lemma entry_of_ok gen tag x : uint 32 gen → uint 32 tag → xlat_ok x →
  tlb_entry_ok (entry_of gen tag x).
Proof.
  intros Hg Ht Hx. unfold tlb_entry_ok. destruct x; simpl; split_and?; try done.
  apply uint_land_r; [lia | by apply uint_wnot; split].
Qed.

Lemma tlb_tag_uint va acc priv : uint 32 (mmu_tlb_tag va acc priv).
Proof.
  unfold mmu_tlb_tag. repeat apply uint_lor; try lia.
  - apply uint_w32.
  - by destruct acc.
  - by destruct priv.
Qed.

Lemma dread_tag_uint va priv : uint 32 (dread_tag va priv).
Proof.
  unfold dread_tag. apply uint_lor; [lia | | by destruct priv].
  apply uint_land_r; [lia | by apply uint_wnot; split].
Qed.

Lemma stamp_uint c : cp15_ok (cp15 c) → stamp_ok (current_stamp c).
Proof. intros []. unfold stamp_ok. by split_and?. Qed.

Lemma walk_ok c b va acc priv : xlat_ok (fst (mmu_walk c b va acc priv None)).
Proof.
  unfold mmu_walk. destruct (l1_location c va). unfold walk_section, walk_page.
  repeat case_match; simplify_eq; simpl; try done; try apply uint_fsr_make.
Qed.

Lemma flush_cache_ok c : cache_ok (cache c) → cache_ok (cache (arm_mmu_tlb_flush c)).
Proof. intros Hk. unfold arm_mmu_tlb_flush. case_match; simpl; cache_tac. Qed.

Lemma sync_cache_ok c : wf c → cache_ok (cache (mmu_sync c)).
Proof.
  intros [Hw _]. unfold mmu_sync. set (c1 := if _ =? 0 then _ else c).
  assert (cache_ok (cache c1)) as Hk.
  { pose proof (w_cache _ Hw) as Hk. subst c1. case_match; simpl; cache_tac. }
  assert (cp15 c1 = cp15 c) as Ec by (subst c1; by case_match).
  clearbody c1. case_match; [| done].
  pose proof (flush_cache_ok c1 Hk) as Hf. simpl. split; simpl; try apply Hf.
  apply stamp_uint. change (cp15_ok (cp15 c1)). rewrite Ec. apply Hw.
Qed.

Lemma sync_core c : mmu_sync c = set_cache (cache (mmu_sync c)) c.
Proof. unfold mmu_sync, arm_mmu_tlb_flush. destruct c. repeat case_match; done. Qed.

Lemma translate_accesses m va acc priv :
  let '(x, m') := arm_mmu_translate m va acc priv in
  accesses m m' ∧ (wf (cpu m) → xlat_ok x).
Proof.
  unfold arm_mmu_translate. destruct (negb _); [by split |].
  pose proof (sync_cache_ok (cpu m)) as Hk. rewrite (sync_core (cpu m)).
  set (k := cache (mmu_sync (cpu m))) in *. cbn [cache set_cache].
  destruct (_ && _).
  - split.
    + apply (accesses_cache m). intros Hw. specialize (Hk Hw). cache_tac.
    + intros Hw. unfold entry_answer. case_match; simpl; [done |]. apply (k_tlb _ (Hk Hw)).
  - set (c1 := set_cache (set_tlb_misses _ _) _).
    pose proof (walk_ok c1 (bus m) va acc priv) as Hx.
    destruct (mmu_walk _ _ _ _ _ _) as [x b]. cbn [fst] in Hx.
    split; [| done]. apply (accesses_cache m). intros Hw. specialize (Hk Hw). cache_tac.
    apply entry_of_ok; [apply Hk | apply tlb_tag_uint | exact Hx].
Qed.

(** A translation whose fault is latched. *)
Lemma translate_fault m va acc priv m' f :
  arm_mmu_translate m va acc priv = (Fault f, m') →
  uint 32 va → accesses m (on_cpu (fun c => note_abort c f va) m').
Proof.
  intros E Hva. pose proof (translate_accesses m va acc priv) as Ht. rewrite E in Ht.
  destruct Ht as [Ha Hx]. eapply accesses_then; [exact Ha |]. intros Hw.
  apply accesses_latch; [by apply Hx | done].
Qed.

Lemma translate_phys m va acc priv m' pa : arm_mmu_translate m va acc priv = (Phys pa, m') →
  accesses m m'.
Proof.
  intros E. pose proof (translate_accesses m va acc priv) as Ht. rewrite E in Ht. apply Ht.
Qed.

(** ** The accessors *)

Lemma fill_entry_ok k blk va priv : cache_ok k →
  blk_entry_ok (MkBlk (Some blk) (dread_tag va priv) (tlb_gen k)).
Proof. intros Hk. split; [apply dread_tag_uint | apply Hk]. Qed.

Lemma read_crossing_accesses k : ∀ m va i page_pa val priv,
  accesses m (snd (mem_read_crossing_from k m va i page_pa val priv)).
Proof.
  induction k as [| k IH]; intros m va i pp v priv; [reflexivity |].
  cbn [mem_read_crossing_from].
  assert (∀ m1 pp v, accesses m m1 → accesses m (snd (let '(x, b) := read8 (bus m1)
    (pp .| ((va +w i) .& ARM_PAGE_MASK)) in mem_read_crossing_from k (set_bus b m1) va (i + 1) pp
    (v .| (x .<< (8 * i))) priv))) as Hbyte.
  { intros m1 pp1 v1 H1. destruct (read8 _ _) as [x b]. etrans; [exact H1 |].
    etrans; [apply (accesses_bus m1 b) | apply IH]. }
  case_match; [| by apply Hbyte].
  destruct (arm_mmu_translate _ _ _ _) as [[f | pa] m'] eqn:E.
  - eapply translate_fault; [exact E | apply uint_w32].
  - apply Hbyte. by eapply translate_phys.
Qed.

Lemma write_crossing_accesses k : ∀ m va i page_pa v priv,
  accesses m (mem_write_crossing_from k m va i page_pa v priv).
Proof.
  induction k as [| k IH]; intros m va i pp v priv; [reflexivity |].
  cbn [mem_write_crossing_from].
  case_match; [| etrans; [apply accesses_bus | apply IH]].
  destruct (arm_mmu_translate _ _ _ _) as [[f | pa] m'] eqn:E.
  - eapply translate_fault; [exact E | apply uint_w32].
  - etrans; [by eapply translate_phys |]. etrans; [apply accesses_bus | apply IH].
Qed.

Lemma dread_hit_accesses m va n priv : accesses m (set_cpu (snd (dread_hit (cpu m) va n priv)) m).
Proof. unfold dread_hit. repeat case_match; apply accesses_cache_step; intros; cache_tac. Qed.

Lemma dwrite_hit_accesses m va n priv : accesses m (snd (dwrite_hit m va n priv)).
Proof.
  unfold dwrite_hit. repeat case_match;
    first [reflexivity | apply accesses_cache_step; intros; cache_tac].
Qed.

Lemma dread_fill_accesses m va pa priv : accesses m (dread_fill m va pa priv).
Proof.
  unfold dread_fill. repeat case_match; first [reflexivity | apply accesses_cache_step].
  intros. cache_tac. by apply fill_entry_ok.
Qed.

Lemma dwrite_fill_accesses m va pa priv : accesses m (dwrite_fill m va pa priv).
Proof.
  unfold dwrite_fill. repeat case_match; first [reflexivity | apply accesses_cache_step].
  intros. cache_tac. by apply fill_entry_ok.
Qed.

Lemma ordinary_uint c va n va' : ordinary_address c va n = Some va' → uint 32 va → uint 32 va'.
Proof.
  unfold ordinary_address. repeat case_match; intros; simplify_eq; [| done | done].
  apply uint_land_l; [lia | done].
Qed.

Lemma read_accesses n m va priv : uint 32 va → accesses m (snd (mem_read_as n m va priv)).
Proof.
  intros Hva. unfold mem_read_as. destruct (ordinary_address _ _ _) as [va' |] eqn:Ea.
  2: { by apply accesses_alignment. }
  case_match.
  { pose proof (read_crossing_accesses (Z.to_nat n) m va' 0 0 0 priv) as Hx.
    unfold mem_read_crossing. by destruct (mem_read_crossing_from _ _ _ _ _ _ _). }
  pose proof (dread_hit_accesses m va' n priv) as Hd.
  destruct (dread_hit _ _ _ _) as [[p |] c]; [exact Hd |]. cbn [snd] in Hd.
  etrans; [exact Hd |].
  destruct (arm_mmu_translate _ _ _ _) as [[f | pa] m'] eqn:E.
  - eapply translate_fault; [exact E | by eapply ordinary_uint].
  - destruct (bus_read _ _ _) as [v b]. cbn [snd]. etrans; [by eapply translate_phys |].
    etrans; [apply (accesses_bus m' b) | apply dread_fill_accesses].
Qed.

Lemma read_uint n m va priv : n = 1 ∨ n = 2 ∨ n = 4 → uint (8 * n) (fst (mem_read_as n m va priv)).
Proof.
  intros Hn. unfold mem_read_as. assert (0 <= 8 * n) by lia.
  repeat case_match; cbn [fst]; first [by apply uint_0 | by apply uint_wrap].
Qed.

Lemma write_accesses n m va v priv : uint 32 va → accesses m (mem_write_as n m va v priv).
Proof.
  intros Hva. unfold mem_write_as. destruct (ordinary_address _ _ _) as [va' |] eqn:Ea.
  2: { by apply accesses_alignment. }
  case_match; [apply write_crossing_accesses |].
  pose proof (dwrite_hit_accesses m va' n priv) as Hd.
  destruct (dwrite_hit _ _ _ _) as [[p |] m1]; cbn [snd] in Hd.
  { etrans; [exact Hd | apply accesses_bus]. }
  etrans; [exact Hd |].
  destruct (arm_mmu_translate _ _ _ _) as [[f | pa] m'] eqn:E.
  - eapply translate_fault; [exact E | by eapply ordinary_uint].
  - etrans; [by eapply translate_phys |].
    etrans; [apply accesses_bus | apply dwrite_fill_accesses].
Qed.

(** ** Alignment preparation *)

Lemma prepare_accesses m va al w : uint 32 va →
  let '(a, c) := prepare_multiword_address (cpu m) va al w in
  accesses m (set_cpu c m) ∧ (∀ va', a = Some va' → uint 32 va').
Proof.
  intros Hva. unfold prepare_multiword_address. repeat case_match; simplify_eq.
  - split; [apply accesses_self |]. by intros ? [= <-].
  - split; [by apply (accesses_alignment m) | done].
  - split; [apply accesses_self |]. 
    intros ? [= <-]. apply uint_land_l; [lia | done].
Qed.

Lemma prepare_sync_accesses m va al w : uint 32 va →
  accesses m (set_cpu (snd (prepare_sync_address (cpu m) va al w)) m).
Proof.
  intros Hva. unfold prepare_sync_address. repeat case_match; cbn [snd]; try apply accesses_self.
  by apply (accesses_alignment m).
Qed.

(** ** Transfer loops *)

Lemma load_list_accesses k : ∀ i list m addr loaded, uint 32 addr → (∀ j, uint 32 (loaded j)) →
  accesses m (snd (load_list k i list m addr loaded)) ∧
  (∀ a l, fst (load_list k i list m addr loaded) = Some (a, l) →
    uint 32 a ∧ ∀ j, uint 32 (l j)).
Proof.
  induction k as [| k IH]; intros i list m addr loaded Ha Hl; cbn [load_list].
  { split; [reflexivity |]. intros a l [= <- <-]. done. }
  case_match; [| by apply IH].
  pose proof (read_accesses 4 m addr (cpu_is_priv (cpu m)) Ha) as Hr.
  pose proof (read_uint 4 m addr (cpu_is_priv (cpu m)) ltac:(auto)) as Hu.
  unfold mem_r32, mem_read. destruct (mem_read_as _ _ _ _) as [v m']. cbn [fst snd] in Hr, Hu.
  case_match; [by split |].
  destruct (IH (i + 1) list m' (addr +w 4) (<[i := v]> loaded)) as [Ha1 Ha2].
  { apply uint_w32. } { intros j. by apply uint_insert. }
  split; [by etrans | done].
Qed.

Lemma store_list_accesses k : ∀ i list value m addr, uint 32 addr →
  accesses m (snd (store_list k i list value m addr)) ∧
  (∀ a, fst (store_list k i list value m addr) = Some a → uint 32 a).
Proof.
  induction k as [| k IH]; intros i list value m addr Ha; cbn [store_list].
  { split; [reflexivity |]. by intros a [= <-]. }
  case_match; [| by apply IH].
  pose proof (write_accesses 4 m addr (w32 (value (cpu m) i)) (cpu_is_priv (cpu m)) Ha) as Hr.
  unfold mem_w32, mem_write. case_match; [by split |].
  destruct (IH (i + 1) list value (mem_write_as 4 m addr (w32 (value (cpu m) i))
    (cpu_is_priv (cpu m))) (addr +w 4) ltac:(apply uint_w32)) as [Ha1 Ha2].
  split; [by etrans | done].
Qed.

End Mem.
