(* ===== verification/FootVfp.v ===== *)
(** * The updates of a VFP instruction

    The unit of Vfp.v makes only the updates of Footprint.v: it changes VFP data and
    FPSCR, core registers and flags by the transfers, FPEXC from privileged modes, and
    through its loads and stores the caches and the abort latch.  Results are proved to
    fit their registers. *)

From stdpp Require Import relations.
From S2P Require Import Prelude State Cpu Bus Mmu MemAccess Float FloatFacts Vfp Footprint.
From S2P Require Import FootExec FootMem.

(** ** Registers *)

Lemma ev_fpscr c0 c v : evolves c0 c → (wf c0 → wf c → uint 32 v) → evolves c0 (set_vfp_fpscr v c).
Proof. intros H1 H2. eapply evolves_snoc; [done |]. intros. apply u_fpscr; auto. Qed.

Lemma ev_set_s c0 c n v : evolves c0 c → (wf c0 → wf c → uint 32 v) → evolves c0 (vfp_set_s n v c).
Proof.
  intros H1 H2. eapply evolves_snoc; [done |]. intros. apply u_vfp. intros i.
  apply uint_insert; auto. intros. solve_uint.
Qed.

Lemma ev_set_d c0 c n v : evolves c0 c → evolves c0 (vfp_set_d n v c).
Proof.
  intros H1. eapply evolves_snoc; [done |]. intros Hw Hw'. apply u_vfp. intros i.
  apply uint_insert; [| solve_uint]. intros j. apply uint_insert; [intros | ]; solve_uint.
Qed.

Lemma uint_get_d c n : wf c → uint 64 (vfp_get_d c n).
Proof.
  intros Hw. apply uint_lor; [lia | |].
  - apply (uint_mono 32); [solve_uint | lia].
  - apply (uint_shiftl 64 32); [lia | lia |]. solve_uint.
Qed.

Lemma fits_get dbl c n : wf c → fits (vfp_fmt dbl) (vfp_get dbl c n).
Proof. intros Hw. destruct dbl; [by apply uint_get_d |]. apply w_vfp. by apply Hw. Qed.

Lemma known_fmt dbl : known (vfp_fmt dbl).
Proof. destruct dbl; [by right | by left]. Qed.

Lemma ev_set c0 c dbl n v : evolves c0 c → (wf c0 → wf c → fits (vfp_fmt dbl) v) →
  evolves c0 (vfp_set dbl n v c).
Proof. intros H1 H2. destruct dbl; [by apply ev_set_d | by apply ev_set_s]. Qed.

(** ** Results fit *)

Section Fits.
Context `{HostFpu} {Hok : HostFpuOk}.

(** A value of format [f] and flags that fit FPSCR. *)
Definition fits_pair (f : format) (p : Z * Z) : Prop := fits f (fst p) ∧ uint 32 (snd p).

Lemma uint_or_const v x : uint 32 v → 0 <= x < 2 ^ 32 → uint 32 (v .| x).
Proof. intros. by apply uint_lor. Qed.

Lemma apply_fz_fits step f fs u exc : (fits_pair f (step f u exc)) →
  fits f u → uint 32 exc → fits_pair f (apply_fz f step fs u exc).
Proof. intros Hs Hu He. unfold apply_fz. by case_match. Qed.

Lemma fz_in_fits f u exc : fmt_ok f → fits f u → uint 32 exc → fits_pair f (fz_in f u exc).
Proof.
  intros Hf Hu He. unfold fz_in. case_match; [| done].
  split; [by apply fits_zero | by apply uint_or_const].
Qed.

Lemma fz_out_fits f u exc : fmt_ok f → fits f u → uint 32 exc → fits_pair f (fz_out f u exc).
Proof.
  intros Hf Hu He. unfold fz_out. case_match; [| case_match; [| done]].
  - split; [by apply fits_zero |]. apply uint_or_const; [| done]. by apply uint_land_l.
  - split; [done | by apply uint_or_const].
Qed.

Lemma dn_out_fits f u fs : known f → fits f u → fits f (dn_out f u fs).
Proof. intros Hk Hu. unfold dn_out. case_match; [| done]. by destruct Hk as [-> | ->]. Qed.

Lemma host_exceptions_uint raised : uint 32 (host_exceptions raised).
Proof.
  unfold host_exceptions.
  destruct (negb _), (negb _), (negb _), (negb _), (negb _); by split.
Qed.

Lemma in_fits f fs u exc : known f → fits f u → uint 32 exc →
  fits_pair f (apply_fz f fz_in fs u exc).
Proof. intros Hk Hu He. apply apply_fz_fits; try done. apply fz_in_fits; auto using known_ok. Qed.

Lemma out_fits f fs u exc : known f → fits f u → uint 32 exc →
  fits_pair f (apply_fz f fz_out fs u exc).
Proof. intros Hk Hu He. apply apply_fz_fits; try done. apply fz_out_fits; auto using known_ok. Qed.

Lemma fp_do_fits f op a b fs exc : known f → fits f a → fits f b → uint 32 exc →
  fits_pair f (fp_do f op a b fs exc).
Proof.
  intros Hk Ha Hb He. unfold fp_do.
  destruct (in_fits f fs a 0 Hk Ha (uint_0 32 ltac:(lia))) as [Hx He1].
  destruct (apply_fz f fz_in fs a 0) as [x e1]. simpl in Hx, He1.
  destruct (in_fits f fs b e1 Hk Hb He1) as [Hy He2].
  destruct (apply_fz f fz_in fs b e1) as [y e2]. simpl in Hy, He2.
  destruct (match op with OP_SQRT => _ | _ => _ end) as [neg sig].
  pose proof (fits_op f (host_round_from_fpscr fs) op x y Hk Hx) as Hr.
  destruct (host_op _ _ _ _ _) as [r raised]. simpl in Hr.
  set (e3 := if neg then _ else _).
  assert (uint 32 e3) as He3 by (subst e3; destruct neg; [by apply uint_or_const | done]).
  assert (uint 32 (e3 .| host_exceptions (raised .| sig))) as He4
    by (apply uint_lor; [lia | done | apply host_exceptions_uint]).
  destruct (out_fits f fs r _ Hk Hr He4) as [Hr' He5].
  destruct (apply_fz f fz_out fs r _) as [r' e5]. simpl in *.
  split; [by apply dn_out_fits | by apply uint_lor].
Qed.

Lemma arith_lane_fits f kind d n m fs exc :
  known f → fits f d → fits f n → fits f m → uint 32 exc →
  fits_pair f (arith_lane f kind d n m fs exc).
Proof.
  intros Hk Hd Hn Hm He. pose proof (known_ok f Hk) as Hf.
  destruct (fp_do_fits f OP_MUL n m fs exc Hk Hn Hm He) as [Hp He'].
  unfold arith_lane. destruct kind; try by apply fp_do_fits.
  all: destruct (fp_do f OP_MUL n m fs exc) as [p e]; simpl in Hp, He'.
  all: try (split; [by apply fits_neg | done]).
  all: apply fp_do_fits; auto using fits_neg.
Qed.

Lemma fp_to_int_uint v sg rz fs exc : uint 32 exc →
  uint 32 (fst (fp_to_int v sg rz fs exc)) ∧ uint 32 (snd (fp_to_int v sg rz fs exc)).
Proof.
  intros He. unfold fp_to_int. case_match; [split; [by split | by apply uint_or_const] |].
  destruct (if rz then _ else _) as [x ix].
  assert (uint 32 (if ix then exc .| ARM_FPSCR_IXC else exc))
    by (destruct ix; [by apply uint_or_const | done]).
  repeat case_match; simpl;
    (split; [first [solve_uint | by split] | first [done | by apply uint_or_const]]).
Qed.

(** ** Lanes *)

Lemma lanes_fits f k lane step exc :
  (∀ l e, uint 32 e → fits_pair f (step l e)) → uint 32 exc →
  Forall (fits f) (fst (lanes_from k lane step exc)) ∧ uint 32 (snd (lanes_from k lane step exc)).
Proof.
  intros Hs. revert lane exc. induction k as [| k IH]; intros lane exc He; simpl; [done |].
  destruct (Hs lane exc He) as [Hx He1]. destruct (step lane exc) as [x e1]. simpl in *.
  destruct (IH (lane + 1) e1 He1) as [Hl He2].
  destruct (lanes_from k (lane + 1) step e1) as [xs e2]. simpl in *. auto.
Qed.

Lemma ev_lanes c0 dbl shape rd l : ∀ lane c, evolves c0 c →
  (wf c0 → Forall (fits (vfp_fmt dbl)) l) → evolves c0 (write_lanes dbl shape rd lane l c).
Proof.
  induction l as [| x l IH]; intros lane c Hc Hl; simpl; [done |].
  apply IH; [apply ev_set; [done |] |]; intros Hw; [intros _ |]; pose proof (Hl Hw) as Hl';
    by inversion Hl'.
Qed.

Lemma run_lanes_good c dbl shape rd step :
  (wf c → ∀ l e, uint 32 e → fits_pair (vfp_fmt dbl) (step l e)) → good c (run_lanes c dbl shape rd step).
Proof.
  intros Hs. unfold good, run_lanes.
  pose proof (λ Hw, lanes_fits (vfp_fmt dbl) (Z.to_nat (sv_count shape)) 0 step 0 (Hs Hw)
    (uint_0 32 ltac:(lia))) as Hl.
  destruct (lanes_from _ _ _ _) as [l e]. simpl in Hl. case_match; [apply ev_refl |]. simpl.
  apply ev_fpscr.
  - apply ev_lanes; [apply ev_refl | intros Hw; by apply Hl].
  - intros Hw Hw'. apply uint_lor; [lia | solve_uint | by apply Hl].
Qed.

End Fits.

(** ** The instruction groups *)

Section Groups.
Context `{HostFpu} {Hok : HostFpuOk}.

Lemma trap_good c : good c (vfp_trap c).
Proof. apply ev_refl. Qed.
Lemma guest_undefined_good c : good c (vfp_guest_undefined c).
Proof. apply ev_refl. Qed.

(** Split the refusals off. *)
Ltac refuse :=
  match goal with
  | |- good _ (if ?b then _ else _) => destruct b eqn:?; [apply trap_good |]
  | |- good _ (match ?x with None => _ | Some _ => _ end) => destruct x eqn:?; [| apply trap_good]
  end.

Lemma dp_arith_good c insn op : good c (vfp_dp_arith c insn op).
Proof.
  unfold vfp_dp_arith. cbv zeta. repeat refuse.
  apply run_lanes_good. intros Hw l e He.
  apply arith_lane_fits; auto using fits_get, known_fmt.
Qed.

Lemma uint_f_mag dbl s : fits (vfp_fmt dbl) (f_mag (vfp_fmt dbl) s).
Proof.
  assert (fmt_ok (vfp_fmt dbl)) as Hf by (destruct dbl; by split).
  pose proof (f_mag_range _ s Hf). by apply (fits_pack (vfp_fmt dbl) false).
Qed.

Lemma vfp_unary_good c insn neg : good c (vfp_unary c insn neg).
Proof.
  unfold vfp_unary. cbv zeta. repeat refuse. apply run_lanes_good. intros Hw l e He.
  pose proof (fits_get (bit insn 8) c (vfp_short_vector_reg v
    (if bit insn 8 then insn .& 15 else SREG (insn .& 15) (bit insn 5)) l true) Hw) as Hs.
  assert (fmt_ok (vfp_fmt (bit insn 8))) as Hf by apply known_ok, known_fmt.
  destruct (negb neg); [destruct (bit insn 7); split; by try apply uint_f_mag |].
  destruct (negb (bit insn 7)); [split; [by apply fits_neg | done] |].
  apply fp_do_fits; [apply known_fmt | done | | done]. by apply (fits_zero _ false).
Qed.

Lemma cmp_flags_uint o : uint 32 (cmp_flags_ordered o).
Proof. destruct o as [[] |]; by split. Qed.

Lemma vfp_compare_good c insn zero : good c (vfp_compare c insn zero).
Proof.
  unfold vfp_compare. cbv zeta. do 3 refuse.
  set (f := vfp_fmt (bit insn 8)). set (ua := vfp_get _ _ _). set (ub := if zero then _ else _).
  assert (known f) as Hk by apply known_fmt.
  assert (wf c → fits f ua ∧ fits f ub) as Hu.
  { intros Hw. split; [by apply fits_get |]. subst ub. destruct zero; [| by apply fits_get].
    apply (fits_zero f false), known_ok, Hk. }
  destruct (apply_fz f fz_in (vfp_fpscr c) ua 0) as [a e1] eqn:E1.
  destruct (apply_fz f fz_in (vfp_fpscr c) ub e1) as [b e2] eqn:E2.
  unfold good. cbn [snd]. apply ev_fpscr; [apply ev_refl |]. intros Hw _.
  destruct (Hu Hw) as [Ha Hb].
  pose proof (in_fits f (vfp_fpscr c) ua 0 Hk Ha (uint_0 32 ltac:(lia))) as [_ He1].
  rewrite E1 in He1. simpl in He1.
  pose proof (in_fits f (vfp_fpscr c) ub e1 Hk Hb He1) as [_ He2]. rewrite E2 in He2. simpl in He2.
  apply uint_lor; [lia | apply uint_lor; [lia | solve_uint | apply cmp_flags_uint] |].
  case_match; [by apply uint_or_const | done].
Qed.

Lemma convert_width_good c insn : good c (vfp_convert_width c insn).
Proof.
  unfold vfp_convert_width. cbv zeta. do 2 refuse. destruct (bit insn 8).
  - refuse. set (fs := vfp_fpscr c). set (u := vfp_get_d c _).
    destruct (apply_fz binary64 fz_in fs u 0) as [s e1] eqn:E1.
    pose proof (fits_narrow (host_round_from_fpscr fs) s) as Hr.
    destruct (narrow _ _) as [r raised]. simpl in Hr.
    set (e2 := e1 .| _). destruct (apply_fz binary32 fz_out fs r e2) as [r' e3] eqn:E3.
    refuse. assert (wf c → fits_pair binary32 (r', e3)) as Ho.
    { intros Hw. rewrite <- E3. apply out_fits; [by left | done |]. apply uint_lor; [lia | | apply host_exceptions_uint].
      pose proof (in_fits binary64 fs u 0 (or_intror eq_refl) (uint_get_d c _ Hw) (uint_0 32 ltac:(lia))) as [_ He].
      by rewrite E1 in He. }
    unfold good. simpl. apply ev_fpscr; [apply ev_set_s; [apply ev_refl |] |].
    + intros Hw _. apply (dn_out_fits binary32 r' fs); [by left | by apply Ho].
    + intros Hw Hw'. apply uint_lor; [lia | subst fs; solve_uint | by apply Ho].
  - refuse. set (fs := vfp_fpscr c). set (u := vfp_get_s c _).
    destruct (apply_fz binary32 fz_in fs u 0) as [s e1] eqn:E1. destruct (widen s) as [r raised].
    unfold good. simpl. apply ev_fpscr; [by apply ev_set_d, ev_refl |]. intros Hw Hw'.
    apply uint_lor; [lia | solve_uint |]. apply uint_lor; [lia | | apply host_exceptions_uint].
    pose proof (in_fits binary32 fs u 0 (or_introl eq_refl) (w_vfp _ (proj1 Hw) _) (uint_0 32 ltac:(lia))) as [_ He].
    by rewrite E1 in He.
Qed.

Lemma from_integer_good c insn : good c (vfp_from_integer c insn).
Proof.
  unfold vfp_from_integer. cbv zeta. refuse. destruct (bit insn 8).
  - refuse. apply ev_set_d, ev_refl.
  - set (x := of_integer _). pose proof (fits_narrow (host_round_from_fpscr (vfp_fpscr c)) x) as Hr.
    destruct (narrow _ _) as [r raised]. simpl in Hr. unfold good. simpl.
    apply ev_fpscr; [by apply ev_set_s; [apply ev_refl |] |]. intros Hw Hw'.
    apply uint_lor; [lia | solve_uint | apply host_exceptions_uint].
Qed.

Lemma to_integer_good c insn sg : good c (vfp_to_integer c insn sg).
Proof.
  unfold vfp_to_integer. cbv zeta. do 2 refuse. set (fs := vfp_fpscr c).
  set (p := if bit insn 8 then _ else _).
  assert (wf c → uint 32 (snd p)) as Hp.
  { intros Hw. subst p. destruct (bit insn 8).
    - apply in_fits; [by right | by apply uint_get_d | by split].
    - set (u := vfp_get_s c _).
      pose proof (in_fits binary32 fs u 0 (or_introl eq_refl) (w_vfp _ (proj1 Hw) _) (uint_0 32 ltac:(lia))) as [_ He].
      by destruct (apply_fz _ _ _ _ _) as [s e]. }
  destruct p as [v exc]. simpl in Hp.
  pose proof (λ Hw, fp_to_int_uint v sg (bit insn 7) fs exc (Hp Hw)) as Hn.
  destruct (fp_to_int _ _ _ _ _) as [n e]. simpl in Hn. unfold good. simpl.
  apply ev_fpscr; [apply ev_set_s; [apply ev_refl | intros Hw _; by apply Hn] |].
  intros Hw Hw'. apply uint_lor; [lia | solve_uint | by apply Hn].
Qed.

Lemma vfp_dp_good c insn : good c (vfp_dp c insn).
Proof.
  unfold vfp_dp. cbv zeta. destruct (_ =? 7); [| apply dp_arith_good].
  destruct (bit insn 6); [| apply trap_good]. unfold vfp_dp_other.
  repeat case_match; first [apply vfp_unary_good | apply vfp_compare_good | apply convert_width_good
    | apply from_integer_good | apply to_integer_good | apply trap_good].
Qed.

Lemma vmov_core_good c insn sn : good c (vmov_core c insn sn).
Proof.
  unfold vmov_core. cbv zeta. refuse. unfold good. case_match; simpl.
  - apply ev_reg; [apply ev_refl |]. intros Hw _. by apply w_vfp, Hw.
  - apply ev_set_s; [apply ev_refl |]. intros. solve_uint.
Qed.

Lemma vmrs_good c insn : good c (vmrs c insn).
Proof.
  unfold vmrs. cbv zeta. refuse. 
  match goal with |- good _ match ?x with _ => _ end => set (o := x) end.
  assert (wf c → ∀ v, o = Some v → uint 32 v) as Hv.
  { intros Hw v. subst o. repeat case_match; intros [= <-]; first [by split | solve_uint]. }
  destruct o as [v |]; [| apply trap_good]. unfold good. case_match; simpl.
  - apply (ev_psr_bits c c 0xf0000000 (v .& 0xf0000000)); [apply ev_refl | | done |].
    + intros Hw _. apply uint_land_l; [lia | auto].
    + by rewrite <- Z.land_assoc, Z.land_0_r.
  - apply ev_reg; [apply ev_refl | auto].
Qed.

Lemma vmsr_good c insn : (fld insn 16 0xf = 8 → cpu_is_priv c = true) → good c (vmsr c insn).
Proof.
  intros Hp. unfold vmsr. cbv zeta. refuse. unfold good.
  destruct (decide (fld insn 16 15 = 8)) as [E | E].
  - rewrite E. simpl. eapply evolves_snoc; [apply ev_refl |]. intros. apply p_fpexc; [auto | solve_uint].
  - repeat case_match; simpl; try apply ev_refl; try congruence.
    apply ev_fpscr; [apply ev_refl |]. intros. apply uint_land_l; [lia | solve_uint].
Qed.

Lemma user_or_priv c : (mode_of c =? ARM_MODE_USR) = false → cpu_is_priv c = true.
Proof. unfold cpu_is_priv. by intros ->. Qed.

Lemma vfp_xfer32_good c insn : good c (vfp_xfer32 c insn).
Proof.
  unfold vfp_xfer32. cbv zeta.
  destruct (_ && _); [refuse; apply vmov_core_good |].
  destruct (_ && _); [do 2 refuse; apply vmov_core_good |]. do 3 refuse.
  destruct (_ && _) eqn:E; [apply guest_undefined_good |].
  destruct (_ && _ && _); [apply guest_undefined_good |].
  destruct (bit insn 20); [apply vmrs_good | apply vmsr_good]. intros E8.
  apply user_or_priv. by rewrite E8 in E.
Qed.

Lemma vfp_xfer64_good c insn : good c (vfp_xfer64 c insn).
Proof.
  unfold vfp_xfer64. cbv zeta. do 2 refuse. destruct (bit insn 8).
  - refuse. unfold good. case_match; simpl; [| apply ev_set_d, ev_refl].
    apply ev_reg; [apply ev_reg; [apply ev_refl |] |]; intros; solve_uint.
  - refuse. unfold good. case_match; simpl.
    + apply ev_reg; [apply ev_reg; [apply ev_refl |] |]; intros; by apply w_vfp, wf_widths.
    + apply ev_set_s; [apply ev_set_s; [apply ev_refl |] |]; intros; solve_uint.
Qed.

End Groups.

(** ** Loads and stores *)

Section Transfers.
Context {B : Type} `{Bus B}.
Implicit Types m : mach B.

Lemma ev_access c0 m m' : evolves c0 (cpu m) → accesses m m' → evolves c0 (cpu m').
Proof. intros H1 H2. etrans; [exact H1 | by apply accesses_evolves]. Qed.

Lemma vfp_r32_accesses m va : uint 32 va →
  accesses m (snd (vfp_mem_r32 m va)) ∧ uint 32 (fst (vfp_mem_r32 m va)).
Proof.
  intros Hva. unfold vfp_mem_r32. pose proof (prepare_accesses m va 4 false Hva) as Hp.
  destruct (prepare_multiword_address _ _ _ _) as [[a |] c]; destruct Hp as [Hp Hu]; [| by split].
  split; [| by apply (read_uint 4); auto].
  etrans; [apply Hp | by apply read_accesses, Hu].
Qed.

Lemma vfp_w32_accesses m va v : uint 32 va → accesses m (vfp_mem_w32 m va v).
Proof.
  intros Hva. unfold vfp_mem_w32. pose proof (prepare_accesses m va 4 true Hva) as Hp.
  destruct (prepare_multiword_address _ _ _ _) as [[a |] c]; destruct Hp as [Hp Hu]; [| done].
  etrans; [apply Hp | by apply write_accesses, Hu].
Qed.

Lemma vfp_move_reg_evolves L dbl n m addr : uint 32 addr →
  evolves (cpu m) (cpu (snd (vfp_move_reg L dbl n m addr))).
Proof.
  intros Ha. unfold vfp_move_reg. destruct L.
  - unfold vfp_load_reg. destruct (vfp_r32_accesses m addr Ha) as [H1 Hlo].
    destruct (vfp_mem_r32 m addr) as [lo m1]. simpl in H1, Hlo. apply accesses_evolves in H1.
    destruct (abort_pending (cpu m1)); [done |]. destruct dbl.
    + destruct (vfp_r32_accesses m1 (addr +w 4) (uint_w32 _)) as [H2 Hhi].
      destruct (vfp_mem_r32 m1 _) as [hi m2]. simpl in H2.
      assert (evolves (cpu m) (cpu m2)) by by eapply ev_access.
      destruct (abort_pending (cpu m2)); [done |]. by apply ev_set_d.
    + apply ev_set_s; auto.
  - unfold vfp_store_reg. destruct dbl.
    + pose proof (vfp_w32_accesses m addr (w32 (vfp_get_d (cpu m) n)) Ha) as H1.
      apply accesses_evolves in H1. destruct (abort_pending _); [done |].
      eapply ev_access; [exact H1 |]. by apply vfp_w32_accesses, uint_w32.
    + by apply accesses_evolves, vfp_w32_accesses.
Qed.

Lemma vfp_move_list_evolves L dbl k : ∀ n m addr, uint 32 addr →
  evolves (cpu m) (cpu (snd (vfp_move_list k L dbl n m addr))).
Proof.
  induction k as [| k IH]; intros n m addr Ha; [apply ev_refl |]. simpl.
  pose proof (vfp_move_reg_evolves L dbl n m addr Ha) as H1.
  destruct (vfp_move_reg L dbl n m addr) as [[] m1]; [| done].
  etrans; [exact H1 | apply IH, uint_w32].
Qed.

Lemma vfp_move_tail_evolves L m addr : uint 32 addr → evolves (cpu m) (cpu (snd (vfp_move_tail L m addr))).
Proof.
  intros Ha. destruct L; apply accesses_evolves; [by apply vfp_r32_accesses | by apply vfp_w32_accesses].
Qed.

Lemma vfp_block_evolves m insn base : uint 32 base → evolves (cpu m) (cpu (snd (vfp_block m insn base))).
Proof.
  intros Hb. unfold vfp_block. cbv zeta.
  destruct (_ =? 0); [apply ev_refl |]. destruct (_ && _); [apply ev_refl |].
  destruct (_ <? _); [apply ev_refl |].
  set (addr := if bit insn 23 then base else _). assert (uint 32 addr) as Ha.
  { subst addr. destruct (bit insn 23); [done | apply uint_w32]. }
  set (k := Z.to_nat _). set (n := if bit insn 8 then fld insn 12 15 else _).
  pose proof (vfp_move_list_evolves (bit insn 20) (bit insn 8) k n m addr Ha) as H1.
  destruct (vfp_move_list _ _ _ _ _ _) as [go m1]. simpl in H1. destruct go; [| done]. cbn [negb].
  set (o := if _ && _ then _ else _).
  assert (evolves (cpu m) (cpu (snd o))) as H2.
  { subst o. destruct (_ && _); [| exact H1]. etrans; [exact H1 | apply vfp_move_tail_evolves, uint_w32]. }
  destruct o as [go2 m2]. simpl in H2. destruct go2; [| done]. cbn [negb].
  destruct (bit insn 21); [| done]. simpl. apply ev_reg; [done |]. intros. case_match; apply uint_w32.
Qed.

Lemma vfp_ldst_evolves m pc insn : evolves (cpu m) (cpu (snd (vfp_ldst m pc insn))).
Proof.
  intros Hw. revert Hw. unfold vfp_ldst. cbv zeta. do 3 (destruct (_ && _); [apply ev_refl |]).
  set (base := if fld insn 16 15 =? 15 then _ else _). intros Hw.
  assert (uint 32 base) as Hb. { subst base. destruct (_ =? _); [apply uint_w32 | solve_uint]. }
  revert Hw. change (evolves (cpu m) (cpu (snd
    (if bit insn 24 && negb (bit insn 21) then
      if bit insn 8 && bit insn 22 then (ARM_UNDEFINED, m)
      else (ARM_OK, snd (vfp_move_reg (bit insn 20) (bit insn 8)
        (if bit insn 8 then fld insn 12 15 else SREG (fld insn 12 15) (bit insn 22)) m
        (if bit insn 23 then base +w ((insn .& 255) * 4) else base -w ((insn .& 255) * 4))))
     else vfp_block m insn base)))).
  destruct (_ && _); [| by apply vfp_block_evolves]. destruct (_ && _); [apply ev_refl |].
  apply vfp_move_reg_evolves. destruct (bit insn 23); apply uint_w32.
Qed.

Context `{HostFpu} {Hok : HostFpuOk}.

(** Every VFP instruction, refused or executed. *)
Lemma vfp_evolves m pc insn : evolves (cpu m) (cpu (snd (vfp_execute m pc insn))).
Proof.
  assert (evolves (cpu m) (cpu (snd (vfp_execute_inner m pc insn)))) as Hi.
  { unfold vfp_execute_inner. cbv zeta. do 2 (case_match; [apply ev_refl |]).
    case_match; [apply vfp_xfer32_good |]. case_match; [apply vfp_dp_good |].
    case_match; [apply vfp_xfer64_good |]. case_match; [apply vfp_ldst_evolves | apply ev_refl]. }
  unfold vfp_execute. case_match; [done |]. case_match; [apply ev_refl | done].
Qed.

End Transfers.
