(* ===== verification/FootXfer.v ===== *)
(** * The updates of the memory, coprocessor and Thumb instructions

    The remaining instruction groups as sequences of the updates of Footprint.v:
    transfers, exclusives, coprocessors, and the Thumb set. *)

From stdpp Require Import relations.
From S2P Require Import Prelude State Cpu CpuFacts Bus Mmu MemAccess Alu AluFacts ExecDp.
From S2P Require Import ArithFacts ExecMedia ExecXfer Float FloatFacts Vfp ExecCp Sync Thumb.
From S2P Require Import Footprint FootExec FootMem FootVfp.

(** The result of an instruction that may access memory. *)
Definition good_m {B} (m : mach B) (o : @moutcome B) : Prop :=
  evolves (cpu m) (cpu (snd o)) ∧ (wf (cpu m) → uint 32 (snd (fst o))).

Lemma good_m_intro {B} (m m' : mach B) st next :
  evolves (cpu m) (cpu m') → (wf (cpu m) → uint 32 next) → good_m m (st, next, m').
Proof. done. Qed.

Lemma good_accesses {B} (m m' : mach B) st next :
  accesses m m' → uint 32 next → good_m m (st, next, m').
Proof. intros Ha Hn. split; [by apply accesses_evolves | done]. Qed.

Lemma good_assume {B} (m : mach B) o : (wf (cpu m) → good_m m o) → good_m m o.
Proof. intros Hg. split; intros Hw; by apply Hg. Qed.

Section Seq.
Context {B : Type} `{Bus B}.
Implicit Types m : mach B.

(** Sequencing an access after earlier updates. *)
Lemma ev_then c0 m m' : evolves c0 (cpu m) → (wf c0 → wf (cpu m) → accesses m m') →
  evolves c0 (cpu m').
Proof.
  intros H1 H2 Hw. pose proof (evolves_wf _ _ H1 Hw) as Hw'.
  etrans; [by apply H1 |]. by apply (H2 Hw Hw').
Qed.

Lemma uint_interwork c v : uint 32 v → uint 32 (fst (interwork c v)).
Proof. intros. apply uint_land_l; [lia | done]. Qed.

Lemma ev_interwork c0 c v : evolves c0 c → evolves c0 (snd (interwork c v)).
Proof. intros. unfold interwork. cbn [snd]. destruct (bit v 0); ev. Qed.

Lemma uint_return_align c v : uint 32 v → uint 32 (return_align c v).
Proof. intros. apply uint_land_l; [lia | done]. Qed.

Lemma uint_indexed a b u : uint 32 (indexed a b u).
Proof. unfold indexed. destruct u; apply uint_w32. Qed.

Lemma ev_single_writeback c0 c insn base offset addr : evolves c0 c →
  (wf c0 → uint 32 addr) → evolves c0 (single_writeback c insn base offset addr).
Proof.
  intros Hc Ha. unfold single_writeback.
  repeat case_match; first [ done | apply ev_reg; [done | intros; first [apply uint_indexed | auto]] ].
Qed.

Lemma ev_extra_writeback c0 c insn base offset addr : evolves c0 c →
  (wf c0 → uint 32 addr) → evolves c0 (extra_writeback c insn base offset addr).
Proof.
  intros Hc Ha. unfold extra_writeback.
  repeat case_match; first [ done | apply ev_reg; [done | intros; first [apply uint_indexed | auto]] ].
Qed.

Lemma read_word n m va priv : n = 1 ∨ n = 2 ∨ n = 4 →
  uint 32 (fst (mem_read_as n m va priv)).
Proof. intros Hn. eapply uint_mono; [by apply read_uint | lia]. Qed.

(** ** Single transfers *)

Lemma single_good m pc insn next : uint 32 next →
  good_m m (exec_single_transfer m pc insn next).
Proof.
  intros Hnext. unfold exec_single_transfer.
  case_match; [by split; [apply ev_refl |] |].
  set (offset := single_offset _ _ _). set (base := reg_read (cpu m) pc _).
  set (addr := if bit insn 24 then _ else _). set (priv := if _ && _ then false else _).
  assert (wf (cpu m) → uint 32 addr) as Haddr.
  { intros. subst addr. apply uint_if; [apply uint_indexed | by apply wf_reg_read]. }
  destruct (bit insn 20).
  - case_match.
    { case_match; (split; [| done]); [| apply ev_refl].
      apply ev_alignment; [apply ev_refl | auto]. }
    set (n := if bit insn 22 then 1 else 4).
    assert (evolves (cpu m) (cpu (snd (mem_read_as n m addr priv)))) as He.
    { eapply ev_then; [apply ev_refl | intros; apply read_accesses; auto]. }
    pose proof (read_word n m addr priv ltac:(unfold n; destruct (bit insn 22); lia)) as Hv.
    destruct (mem_read_as _ _ _ _) as [v m']. cbn [fst snd] in He, Hv.
    case_match; [by split |]. case_match; [by split |].
    assert (evolves (cpu m) (set_reg (fld insn 12 15) v (cpu m'))) as Hev1 by ev.
    destruct (fld insn 12 15 =? 15).
    + pose proof (uint_interwork (set_reg (fld insn 12 15) v (cpu m')) v Hv) as Hi.
      pose proof (ev_interwork _ _ v Hev1) as He1.
      destruct (interwork _ _) as [next' c']. split; [| done]. by apply ev_single_writeback.
    + split; [| done]. by apply ev_single_writeback.
  - set (m' := mem_write_as _ _ _ _ _).
    assert (evolves (cpu m) (cpu m')) as He.
    { eapply ev_then; [apply ev_refl | intros; apply write_accesses; auto]. }
    case_match; (split; [| done]); [exact He |]. by apply ev_single_writeback.
Qed.

(** ** Extra transfers *)

Lemma doubleword_ev m pc rd addr store : (wf (cpu m) → uint 32 addr) →
  evolves (cpu m) (cpu (snd (doubleword_transfer m pc rd addr store))).
Proof.
  intros Haddr. unfold doubleword_transfer.
  pose proof (fun Hw => prepare_accesses m addr 4 store (Haddr Hw)) as Hp.
  destruct (prepare_multiword_address _ _ _ _) as [x c].
  assert (evolves (cpu m) c) as Hc.
  { intros Hw. destruct (Hp Hw) as [Ha _]. by apply accesses_evolves in Ha; apply Ha. }
  destruct x as [xfer |]; [| exact Hc].
  assert (wf (cpu m) → uint 32 xfer) as Hx.
  { intros Hw. by apply (Hp Hw). }
  set (m1 := set_cpu c m). assert (evolves (cpu m) (cpu m1)) as Hm1 by exact Hc.
  clearbody m1. clear Hp Hc.
  destruct store.
  - set (m2 := mem_w32 _ _ _). assert (evolves (cpu m) (cpu m2)) as Hm2.
    { eapply ev_then; [exact Hm1 | intros; apply write_accesses; auto]. }
    case_match; [done |]. cbn [snd].
    eapply ev_then; [exact Hm2 | intros; apply write_accesses, uint_w32].
  - unfold mem_r32, mem_read.
    assert (evolves (cpu m) (cpu (snd (mem_read_as 4 m1 xfer (cpu_is_priv (cpu m1)))))) as Hm2.
    { eapply ev_then; [exact Hm1 | intros; apply read_accesses; auto]. }
    pose proof (read_word 4 m1 xfer (cpu_is_priv (cpu m1)) ltac:(auto)) as Hlo.
    destruct (mem_read_as _ _ _ _) as [lo m2]. cbn [fst snd] in *. case_match; [done |].
    assert (evolves (cpu m) (cpu (snd (mem_read_as 4 m2 (xfer +w 4) (cpu_is_priv (cpu m2)))))) as Hm3.
    { eapply ev_then; [exact Hm2 | intros; apply read_accesses, uint_w32]. }
    pose proof (read_word 4 m2 (xfer +w 4) (cpu_is_priv (cpu m2)) ltac:(auto)) as Hhi.
    destruct (mem_read_as _ _ _ _) as [hi m3]. cbn [fst snd] in *. case_match; [done |]. cbn. ev.
Qed.

Lemma extra_load_ev m sh addr : (wf (cpu m) → uint 32 addr) →
  evolves (cpu m) (cpu (snd (extra_load m sh addr))) ∧
  (∀ v, fst (extra_load m sh addr) = Some v → uint 32 v).
Proof.
  intros Haddr. unfold extra_load, mem_r16, mem_r8, mem_read.
  assert (∀ n, evolves (cpu m) (cpu (snd (mem_read_as n m addr (cpu_is_priv (cpu m)))))) as He.
  { intros n. eapply ev_then; [apply ev_refl | intros; apply read_accesses; auto]. }
  pose proof (read_word 2 m addr (cpu_is_priv (cpu m)) ltac:(auto)) as H2.
  pose proof (He 2) as He2. pose proof (He 1) as He1.
  destruct (mem_read_as 2 _ _ _) as [v2 m2], (mem_read_as 1 _ _ _) as [v1 m1].
  cbn [fst snd] in *.
  repeat case_match; simplify_eq; cbn [fst snd];
    (split; [first [done | apply ev_refl] | intros ? [=]; subst; first [done | apply uint_w32]]).
Qed.

Lemma extra_good m pc insn next : uint 32 next → good_m m (exec_extra_transfer m pc insn next).
Proof.
  intros Hnext. unfold exec_extra_transfer. case_match; [by split; [apply ev_refl |] |].
  set (offset := if bit insn 22 then _ else _). set (base := reg_read (cpu m) pc _).
  set (addr := if bit insn 24 then _ else _).
  assert (wf (cpu m) → uint 32 addr) as Haddr.
  { intros. subst addr. apply uint_if; [apply uint_indexed | by apply wf_reg_read]. }
  assert (∀ m', evolves (cpu m) (cpu m') → good_m m (ARM_OK, next,
    on_cpu (fun c => extra_writeback c insn base offset addr) m')) as Hfin.
  { intros m' He. split; [by apply ev_extra_writeback | done]. }
  case_match; [by split; [apply ev_refl |] |]. case_match.
  { pose proof (doubleword_ev m pc (fld insn 12 15) addr (fld insn 5 3 =? 3) Haddr) as He.
    destruct (doubleword_transfer _ _ _ _ _) as [[] m']; [by apply Hfin | by split]. }
  case_match.
  - destruct (extra_load_ev m (fld insn 5 3) addr Haddr) as [He Hv].
    destruct (extra_load _ _ _) as [[v |] m']; cbn [fst snd] in *; [| by split].
    specialize (Hv v eq_refl). case_match; [by split |].
    split; [| intros; apply uint_if; [apply uint_land_l; [lia | done] | done]].
    apply ev_extra_writeback; [cbn; ev | done].
  - set (m' := mem_w16 _ _ _). assert (evolves (cpu m) (cpu m')) as He.
    { eapply ev_then; [apply ev_refl | intros; apply write_accesses; auto]. }
    case_match; [by split | by apply Hfin].
Qed.

(** ** Block transfers *)

Lemma ev_assume c0 c : (wf c0 → evolves c0 c) → evolves c0 c.
Proof. intros He Hw. by apply He. Qed.

Lemma interwork_frame c v :
  spsr (snd (interwork c v)) = spsr c ∧ mode_of (snd (interwork c v)) = mode_of c.
Proof.
  unfold interwork. cbn [snd]. split; [done |]. unfold mode_of. cbn [cpsr set_cpsr].
  destruct (bit v 0); [by apply mode_lor | by apply mode_land].
Qed.

Lemma write_user_frame c i v :
  spsr (reg_write_user c i v) = spsr c ∧ mode_of (reg_write_user c i v) = mode_of c.
Proof.
  split; [unfold reg_write_user; by repeat case_match |].
  unfold mode_of. by rewrite write_user_cpsr.
Qed.

(** What the commit loop keeps true. *)
Definition committing (c0 c1 : arm_cpu) (st : Z * arm_cpu) : Prop :=
  evolves c0 (snd st) ∧ uint 32 (fst st) ∧ spsr (snd st) = spsr c1 ∧
  mode_of (snd st) = mode_of c1.

Lemma commit_step c0 c1 list loaded ub rc i st :
  (∀ j, uint 32 (loaded j)) → (ub = true → cpu_is_priv c1 = true) →
  committing c0 c1 st → committing c0 c1 (block_commit list loaded ub rc i st).
Proof.
  intros Hl Hub (He & Hn & Hs & Hm). destruct st as [nx c]. unfold block_commit. cbn [fst snd] in *.
  case_match; [done |]. destruct ub.
  - destruct (write_user_frame c i (loaded i)) as [Hs' Hm'].
    repeat split; cbn [fst snd]; try congruence; try apply Hn.
    apply ev_write_user; [done | | auto]. unfold cpu_is_priv. rewrite Hm. by apply Hub.
  - assert (evolves c0 (set_reg i (loaded i) c)) as Hc1 by (apply ev_reg; auto).
    case_match; [| by repeat split; try apply Hn].
    destruct (interwork_frame (set_reg i (loaded i) c) (loaded i)) as [Hs' Hm'].
    repeat split; try (by apply uint_interwork); [by apply ev_interwork | by rewrite Hs' | by rewrite Hm'].
Qed.

Lemma commit_all c0 c next insn loaded :
  evolves c0 c → uint 32 next → (∀ j, uint 32 (loaded j)) → block_refused c insn = false →
  committing c0 c (for_range 16 0 (block_commit (insn .& 0xffff) loaded (block_user_bank insn)
                     (block_restores insn)) (next, c)).
Proof.
  intros He Hn Hl Hr. apply (for_range_inv (committing c0 c)); [| by repeat split; try apply Hn].
  intros i st _. apply commit_step; [done |]. intros Hub.
  unfold block_refused in Hr. cbv zeta in Hr. rewrite !orb_false_iff in Hr.
  destruct Hr as ((((_ & _) & Hu) & _) & _). rewrite Hub in Hu. cbn [andb] in Hu.
  unfold cpu_is_priv. apply orb_false_iff in Hu as [Hu _]. by rewrite Hu.
Qed.

(** The guard of an exception-returning LDM. *)
Lemma block_restores_ok c insn : block_refused c insn = false → block_restores insn = true →
  cpu_is_priv c = true ∧ arm_mode_is_valid (spsr c (arm_bank_of_mode (cpsr c))) = true.
Proof.
  intros Hr Hb. unfold block_refused in Hr. cbv zeta in Hr. rewrite !orb_false_iff in Hr.
  destruct Hr as ((((_ & Hc) & _) & _) & _). rewrite Hb in Hc. cbn [andb] in Hc.
  apply orb_false_iff in Hc as [Hbank Hv]. split; [by apply bank_priv |].
  by apply negb_false_iff in Hv.
Qed.

Lemma block_finish_ev c0 c insn next wb loaded :
  evolves c0 c → uint 32 next → uint 32 wb → (∀ j, uint 32 (loaded j)) →
  block_refused c insn = false →
  evolves c0 (snd (block_finish c insn next wb loaded)) ∧
  uint 32 (fst (block_finish c insn next wb loaded)).
Proof.
  intros He Hn Hwb Hl Hr. unfold block_finish.
  set (st := if bit insn 20 then _ else _).
  assert (committing c0 c st) as Hst.
  { subst st. case_match; [by apply commit_all | by repeat split; try apply Hn]. }
  destruct st as [nx c1]. destruct Hst as (He1 & Hn1 & Hs1 & Hm1). cbn [fst snd] in *.
  set (c2 := if _ && _ then set_reg _ _ c1 else c1).
  assert (evolves c0 c2 ∧ spsr c2 = spsr c ∧ mode_of c2 = mode_of c) as (He2 & Hs2 & Hm2).
  { subst c2. case_match; split_and?; try done. by apply ev_reg. }
  destruct (block_restores insn) eqn:Eb; [| by split].
  destruct (block_restores_ok c insn Hr Eb) as [Hp Hv].
  assert (arm_bank_of_mode (cpsr c2) = arm_bank_of_mode (cpsr c)) as Ebank.
  { by apply bank_of_mode_eq. }
  rewrite <- Hs2, <- Ebank in Hv. cbn [fst snd]. split.
  - apply ev_restore; [done | | intros _ Hw; apply Hw | done]. unfold cpu_is_priv. by rewrite Hm2.
  - case_match; [by apply uint_return_align | done].
Qed.

Lemma refused_quiet c c' insn : quiet c c' → block_refused c' insn = block_refused c insn.
Proof.
  intros Hq. unfold block_refused, mode_of. by rewrite (quiet_cpsr Hq), (quiet_spsr Hq).
Qed.

Lemma block_addresses_uint base n P U : uint 32 base →
  uint 32 (fst (block_addresses base n P U)) ∧ uint 32 (snd (block_addresses base n P U)).
Proof.
  intros Hb. unfold block_addresses. destruct U, P; cbn [fst snd]; split; solve_uint.
Qed.

Lemma block_good m pc insn next : uint 32 next → good_m m (exec_block_transfer m pc insn next).
Proof.
  intros Hnext. apply good_assume. intros Hw. unfold exec_block_transfer.
  destruct (block_refused (cpu m) insn) eqn:Er; [by split; [apply ev_refl |] |].
  destruct (block_addresses_uint (reg_read (cpu m) pc (fld insn 16 15))
    (count_list 16 (insn .& 0xffff)) (bit insn 24) (bit insn 23)) as [Haddr Hwb].
  { by apply wf_reg_read. }
  destruct (block_addresses _ _ _ _) as [addr wb]. cbn [fst snd] in *.
  pose proof (prepare_accesses m addr 4 (negb (bit insn 20)) Haddr) as Hp.
  destruct (prepare_multiword_address _ _ _ _) as [[start |] c], Hp as [Hm1 Hstart].
  2: { by apply good_accesses. }
  specialize (Hstart start eq_refl). set (m1 := set_cpu c m) in *. clearbody m1.
  assert (∀ m2 l, accesses m m2 → (∀ j, uint 32 (l j)) → good_m m
    (let '(next, c) := block_finish (cpu m2) insn next wb l in (ARM_OK, next, set_cpu c m2)))
    as Hfin.
  { intros m2 l Hm2 Hl. destruct (block_finish_ev (cpu m) (cpu m2) insn next wb l) as [He Hn];
      [by apply accesses_evolves | done | done | done | |].
    { rewrite (refused_quiet (cpu m)); [done | by apply accesses_quiet]. }
    destruct (block_finish _ _ _ _ _). by split. }
  destruct (bit insn 20).
  - destruct (load_list_accesses 16 0 (insn .& 0xffff) m1 start (fun _ => 0)) as [Ha Hl];
      [done | by intros; split |].
    destruct (load_list _ _ _ _ _ _) as [[[a l] |] m2]; cbn [fst snd] in *.
    + destruct (Hl a l eq_refl) as [_ Hl']. assert (accesses m m2) by (by etrans).
      case_match; [by apply good_accesses | by apply Hfin].
    + apply good_accesses; [by etrans | done].
  - destruct (store_list_accesses 16 0 (insn .& 0xffff) (block_value pc insn) m1 start) as [Ha _];
      [done |].
    destruct (store_list _ _ _ _ _ _) as [[a |] m2]; cbn [fst snd] in *.
    + apply Hfin; [by etrans | by intros; split].
    + apply good_accesses; [by etrans | done].
Qed.

(** ** Exclusives and SWP *)

Definition good_s (m : mach B) (o : arm_status * mach B) : Prop := evolves (cpu m) (cpu (snd o)).

Lemma good_s_assume m o : (wf (cpu m) → good_s m o) → good_s m o.
Proof. intros Hg Hw. by apply Hg. Qed.

Lemma ev_read m0 m n va priv : evolves (cpu m0) (cpu m) → uint 32 va →
  evolves (cpu m0) (cpu (snd (mem_read_as n m va priv))).
Proof. intros He Hva. eapply ev_then; [exact He | intros; by apply read_accesses]. Qed.

Lemma ev_write m0 m n va v priv : evolves (cpu m0) (cpu m) → uint 32 va →
  evolves (cpu m0) (cpu (mem_write_as n m va v priv)).
Proof. intros He Hva. eapply ev_then; [exact He | intros; by apply write_accesses]. Qed.

Lemma sync_address_good m addr al w body : uint 32 addr →
  (∀ m', evolves (cpu m) (cpu m') → evolves (cpu m) (cpu (body m'))) →
  good_s m (with_sync_address m addr al w body).
Proof.
  intros Ha Hb. unfold with_sync_address.
  pose proof (prepare_sync_accesses m addr al w Ha) as Hp.
  destruct (prepare_sync_address _ _ _ _) as [[st |] c]; cbn [snd] in Hp.
  - by apply accesses_evolves in Hp.
  - apply Hb. by apply accesses_evolves in Hp.
Qed.

Lemma load_exclusive_ev m0 m n rd addr : n = 1 ∨ n = 2 ∨ n = 4 → uint 32 addr →
  evolves (cpu m0) (cpu m) → evolves (cpu m0) (cpu (load_exclusive n rd addr m)).
Proof.
  intros Hn Ha He. unfold load_exclusive, mem_read.
  pose proof (ev_read m0 m n addr (cpu_is_priv (cpu m)) He Ha) as Hr.
  pose proof (read_word n m addr (cpu_is_priv (cpu m)) Hn) as Hv.
  destruct (mem_read_as _ _ _ _) as [v m']. cbn [fst snd] in *. case_match; [done |].
  cbn. unfold set_monitor. ev.
Qed.

Lemma ldrex_good m n insn : n = 1 ∨ n = 2 ∨ n = 4 → good_s m (exec_ldrex n m insn).
Proof.
  intros Hn. apply good_s_assume. intros Hw. unfold exec_ldrex.
  case_match; [apply ev_refl |]. pose proof (wf_reg (cpu m) (fld insn 16 15) Hw) as Ha.
  case_match.
  - apply load_exclusive_ev; auto using ev_refl.
  - apply sync_address_good; [done |]. intros. by apply load_exclusive_ev.
Qed.

Lemma ldrexd_good m insn : good_s m (exec_ldrexd m insn).
Proof.
  apply good_s_assume. intros Hw. unfold exec_ldrexd.
  case_match; [apply ev_refl |]. pose proof (wf_reg (cpu m) (fld insn 16 15) Hw) as Ha.
  apply sync_address_good; [done |]. intros m1 He. unfold mem_r32, mem_read.
  pose proof (ev_read m m1 4 _ (cpu_is_priv (cpu m1)) He Ha) as Hr1.
  pose proof (read_word 4 m1 (r (cpu m) (fld insn 16 15)) (cpu_is_priv (cpu m1)) ltac:(auto)) as Hlo.
  destruct (mem_read_as _ _ _ _) as [lo m2]. cbn [fst snd] in *. case_match; [done |].
  pose proof (ev_read m m2 4 (r (cpu m) (fld insn 16 15) +w 4) (cpu_is_priv (cpu m2)) Hr1
    (uint_w32 _)) as Hr2.
  pose proof (read_word 4 m2 (r (cpu m) (fld insn 16 15) +w 4) (cpu_is_priv (cpu m2))
    ltac:(auto)) as Hhi.
  destruct (mem_read_as _ _ _ _) as [hi m3]. cbn [fst snd] in *. case_match; [done |].
  cbn. unfold set_monitor. ev.
Qed.

Lemma store_exclusive_ev m0 m rd addr store : evolves (cpu m0) (cpu m) →
  (∀ m, evolves (cpu m0) (cpu m) → evolves (cpu m0) (cpu (store m))) →
  evolves (cpu m0) (cpu (store_exclusive rd addr store m)).
Proof.
  intros He Hs. unfold store_exclusive. cbn. apply ev_excl_valid.
  repeat case_match; cbn; try (apply Hs; done); ev. by apply Hs.
Qed.

Lemma strex_checked_ev m0 m rd addr store : uint 32 addr → evolves (cpu m0) (cpu m) →
  (∀ m, evolves (cpu m0) (cpu m) → evolves (cpu m0) (cpu (store m))) →
  evolves (cpu m0) (cpu (strex_checked rd addr store m)).
Proof.
  intros Ha He Hs. unfold strex_checked.
  destruct (arm_mmu_translate _ _ _ _) as [[f | pa] m'] eqn:E.
  - cbn. apply ev_excl_valid. apply (ev_then (cpu m0) m (on_cpu (fun c => note_abort c f addr) m'));
      [done |]. intros. by eapply translate_fault.
  - apply store_exclusive_ev; [| done]. eapply ev_then; [exact He |].
    intros. by eapply translate_phys.
Qed.

Lemma strex_good m n insn : good_s m (exec_strex n m insn).
Proof.
  apply good_s_assume. intros Hw. unfold exec_strex.
  case_match; [apply ev_refl |]. pose proof (wf_reg (cpu m) (fld insn 16 15) Hw) as Ha.
  set (store := fun m' => mem_write _ _ _ _).
  assert (∀ m', evolves (cpu m) (cpu m') → evolves (cpu m) (cpu (store m'))) as Hs.
  { intros. by apply ev_write. }
  case_match.
  - apply store_exclusive_ev; [apply ev_refl | done].
  - apply sync_address_good; [done |]. intros m' He. case_match.
    + by apply strex_checked_ev.
    + by apply store_exclusive_ev.
Qed.

Lemma strexd_good m insn : good_s m (exec_strexd m insn).
Proof.
  apply good_s_assume. intros Hw. unfold exec_strexd.
  case_match; [apply ev_refl |]. pose proof (wf_reg (cpu m) (fld insn 16 15) Hw) as Ha.
  apply sync_address_good; [done |]. intros m' He. apply store_exclusive_ev; [done |].
  intros m1 He1. pose proof (ev_write m m1 4 _ (w32 (r (cpu m1) (insn .& 15)))
    (cpu_is_priv (cpu m1)) He1 Ha) as Hs1.
  unfold mem_w32 at 2 3, mem_write. case_match; [done |].
  apply ev_write; [done | apply uint_w32].
Qed.

Lemma swp_good m insn : good_s m (exec_swp m insn).
Proof.
  apply good_s_assume. intros Hw. unfold exec_swp.
  case_match; [apply ev_refl |]. pose proof (wf_reg (cpu m) (fld insn 16 15) Hw) as Ha.
  case_match; [apply ev_alignment; [apply ev_refl | done] |].
  unfold mem_r8, mem_r32, mem_read.
  set (n := if bit insn 22 then 1 else 4).
  replace (if bit insn 22 then _ else _)
    with (mem_read_as n m (r (cpu m) (fld insn 16 15)) (cpu_is_priv (cpu m)))
    by (unfold n; by destruct (bit insn 22)).
  pose proof (ev_read m m n _ (cpu_is_priv (cpu m)) (ev_refl _) Ha) as Hr.
  pose proof (read_word n m (r (cpu m) (fld insn 16 15)) (cpu_is_priv (cpu m))
    ltac:(unfold n; destruct (bit insn 22); lia)) as Hv.
  destruct (mem_read_as _ _ _ _) as [old m1]. cbn [fst snd] in *. case_match; [done |].
  set (m2 := if bit insn 22 then _ else _). assert (evolves (cpu m) (cpu m2)) as Hm2.
  { subst m2. case_match; by apply ev_write. }
  unfold good_s. cbn [snd]. case_match; [done |]. cbn. ev.
Qed.

(** ** Coprocessors *)

Lemma cp15_write_ok p crn crm opc2 v : cp15_ok p → uint 32 v →
  cp15_ok (fst (cp15_write p crn crm opc2 v)).
Proof.
  intros Hp Hv. assert (uint 32 (v .& 0x37)) by (apply uint_land_l; [lia | done]).
  unfold cp15_write. destruct Hp. repeat case_match; simplify_eq; cbn [fst]; by split.
Qed.

Lemma cp15_read_uint p crn crm opc2 : cp15_ok p → uint 32 (cp15_read p crn crm opc2).
Proof.
  intros []. unfold cp15_read, id_crm1, id_crm2.
  repeat case_match; simplify_eq; first [done | by split].
Qed.

(** A User-mode write that is allowed. *)
Lemma cp15_user_write p crn crm opc2 v : cp15_user_allowed false crn crm opc2 = true →
  cp15_write p crn crm opc2 v = (p, false) ∨
  cp15_write p crn crm opc2 v = (set_tpidrurw v p, false).
Proof.
  unfold cp15_user_allowed. rewrite andb_false_r, orb_false_r. intros Ha.
  apply orb_true_iff in Ha as [->%Z.eqb_eq | Ha]; [by left |].
  rewrite !andb_true_iff, !Z.eqb_eq in Ha. destruct Ha as [[-> ->] ->]. by right.
Qed.

Lemma ev_flush c0 c : evolves c0 c → evolves c0 (arm_mmu_tlb_flush c).
Proof.
  intros He. unfold arm_mmu_tlb_flush. eapply evolves_snoc; [exact He |].
  intros _ [Hw _]. apply u_cache, flush_cache_ok, Hw.
Qed.

Lemma set_cp15_same c : set_cp15 (cp15 c) c = c.
Proof. by destruct c. Qed.

Lemma cp15_good m pc insn : good_s m (exec_cp15 m pc insn).
Proof.
  apply good_s_assume. intros Hw. unfold exec_cp15.
  set (crn := fld insn 16 15). set (opc2 := fld insn 5 7). set (rd := fld insn 12 15).
  case_match.
  { unfold exec_wfi. case_match eqn:Ep; [apply ev_refl |]. apply negb_false_iff in Ep.
    case_match; [apply ev_refl |]. case_match; [| apply ev_refl].
    destruct (_ (irq_line _) (fiq_line _)) as [[irq fiq] b]. apply ev_lines; [apply ev_refl | done]. }
  case_match eqn:Eu; [apply ev_refl |]. destruct (bit insn 20).
  { unfold good_s. cbn. apply ev_reg; [apply ev_refl |]. intros [Hw' _] _.
    apply cp15_read_uint, Hw'. }
  pose proof (wf_reg_read (cpu m) pc rd Hw) as Hv.
  pose proof (cp15_write_ok (cp15 (cpu m)) crn (insn .& 0xf) opc2 (reg_read (cpu m) pc rd)) as Hok.
  assert (∀ p : arm_cp15, evolves (cpu m) (set_cp15 p (cpu m)) → ∀ fl : bool,
    evolves (cpu m) (if fl then arm_mmu_tlb_flush (set_cp15 p (cpu m)) else set_cp15 p (cpu m)))
    as Hfl.
  { intros p Hp []; [by apply ev_flush | done]. }
  destruct (cp15_write _ _ _ _ _) as [p fl] eqn:Ew. cbn [fst] in Hok.
  unfold good_s. cbn [snd cpu set_cpu]. apply Hfl. destruct (cpu_is_priv (cpu m)) eqn:Ep.
  - apply ev_cp15; [apply ev_refl | done |]. intros [Hw' _] _. apply Hok; [apply Hw' | done].
  - cbn [negb andb] in Eu. apply negb_false_iff in Eu.
    destruct (cp15_user_write (cp15 (cpu m)) _ _ _ (reg_read (cpu m) pc rd) Eu) as [E | E];
      rewrite Ew in E; simplify_eq.
    + rewrite set_cp15_same. apply ev_refl.
    + eapply evolves_snoc; [apply ev_refl |]. intros. by apply u_thread.
Qed.

Lemma cp14_good m insn : good_s m (exec_cp14 m insn).
Proof.
  unfold exec_cp14, good_s. case_match; [apply ev_refl |]. cbn [snd].
  case_match; cbn; [| apply ev_refl]. ev.
Qed.

End Seq.

(** ** The contract of host service handlers *)

(** A host service handler leaves a well-formed core and no abort behind. *)
Class SvcSafe (B : Type) `{Bus B} : Prop :=
  svc_safe (b : B) h c pc e res c' b' :
    privileged_svc_handler b = Some h → h c pc e = (res, c', b') → wf c →
    wf c' ∧ arch c' = arch c ∧ (abort_pending c = false → abort_pending c' = false).

Section Host.
Context {B : Type} `{Bus B} `{HostFpu} `{!HostFpuOk} `{!SvcSafe B}.
Implicit Types m : mach B.

Lemma coprocessor_good m pc insn : good_s m (exec_coprocessor m pc insn).
Proof.
  unfold exec_coprocessor. repeat case_match;
    [apply cp14_good | apply vfp_evolves | apply ev_refl | apply cp15_good].
Qed.

(** A host service call leaves the core as the handler made it, or enters the
    Supervisor exception. *)
Definition svc_good m (o : @moutcome B) : Prop :=
  good_m m o ∨
  ∃ ret, uint 32 ret ∧ fst (fst o) = ARM_OK ∧
    (snd (fst o), cpu (snd o)) = take_exception (cpu m) ARM_VEC_SWI ARM_MODE_SVC ret false.

Lemma svc_result_cases m pc e res m' : privileged_svc_result m pc e = (res, m') →
  wf (cpu m) →
  evolves (cpu m) (cpu m') ∧ (abort_pending (cpu m) = false → abort_pending (cpu m') = false) ∧
  (res ≠ ARM_SVC_ERROR → res ≠ ARM_SVC_REDIRECTED → res ≠ ARM_SVC_HANDLED → cpu m' = cpu m).
Proof.
  unfold privileged_svc_result. intros E Hw.
  destruct (negb _) eqn:Ep; [by simplify_eq |]. apply negb_false_iff in Ep.
  destruct (privileged_svc_handler (bus m)) as [h |] eqn:Eh; [| by simplify_eq].
  destruct (h (cpu m) pc e) as [[result c'] b'] eqn:Er.
  destruct (svc_safe _ _ _ _ _ _ _ _ Eh Er Hw) as (Hw' & Ha & Hab).
  case_match eqn:E1.
  { simplify_eq. split; [| split; [done |]].
    - apply (ev_host _ (cpu m)); [apply ev_refl | done | done | done].
    - apply orb_true_iff in E1 as [->%Z.eqb_eq | ->%Z.eqb_eq]; done. }
  case_match; simplify_eq; cbn [cpu]; split_and?; try done; ev.
Qed.

Lemma svc_all_good m pc e ret next : uint 32 ret → uint 32 next → wf (cpu m) →
  svc_good m (exec_svc m pc e ret next) ∧
  (abort_pending (cpu m) = false → abort_pending (cpu (snd (exec_svc m pc e ret next))) = false).
Proof.
  intros Hret Hnext Hw. unfold exec_svc.
  destruct (privileged_svc_result m pc e) as [res m'] eqn:E.
  destruct (svc_result_cases _ _ _ _ _ E Hw) as (He & Ha & Hsame).
  case_match eqn:E1; [split; [by left; split | done] |].
  case_match eqn:E2.
  { split; [left; split; [done |] | done]. intros _. apply wf_reg. by eapply evolves_wf. }
  case_match eqn:E3; [split; [by left; split | done] |].
  rewrite Hsame in * by (by apply Z.eqb_neq).
  rewrite take_exception_eq by done. split.
  - right. exists ret. by rewrite take_exception_eq.
  - destruct (set_mode_frame (cpu m) ARM_MODE_SVC) as (_ & _ & _ & _ & Hp & _). cbn. by rewrite Hp.
Qed.

End Host.

(** ** The Thumb set *)

Section ThumbFoot.
Context {B : Type} `{Bus B} `{!SvcSafe B}.
Implicit Types m : mach B.

Section Insn.
Context (m : mach B) (pc insn next : Z) (Hw : wf (cpu m)).
Hypothesis (Hpc : uint 32 pc) (Hinsn : uint 16 insn) (Hnext : uint 32 next).

Lemma t_cpu_good m' n' c' : evolves (cpu m) c' → uint 32 n' → good_m m (t_cpu m' n' c').
Proof. intros He Hn. by split. Qed.

Lemma t_write_good m' rd v : evolves (cpu m) (cpu m') → uint 32 v →
  good_m m (t_write m' next rd v).
Proof. intros He Hv. apply t_cpu_good; [by apply ev_reg | done]. Qed.

Lemma t_stay : good_m m (t_undefined m next).
Proof. split; [apply ev_refl | done]. Qed.

Lemma t_load_good rd n addr (f : Z → Z) : n = 1 ∨ n = 2 ∨ n = 4 → uint 32 addr →
  (∀ v, uint 32 v → uint 32 (f v)) →
  good_m m (t_load next rd (let '(v, m') := mem_read n m addr in (f v, m'))).
Proof.
  intros Hn Ha Hf. unfold t_load, mem_read.
  pose proof (ev_read m m n addr (cpu_is_priv (cpu m)) (ev_refl _) Ha) as He.
  pose proof (read_word n m addr (cpu_is_priv (cpu m)) Hn) as Hv.
  destruct (mem_read_as _ _ _ _) as [v m']. cbn [fst snd] in *.
  case_match; [by split |]. apply t_write_good; auto.
Qed.

Lemma t_load_plain rd n addr : n = 1 ∨ n = 2 ∨ n = 4 → uint 32 addr →
  good_m m (t_load next rd (mem_read n m addr)).
Proof.
  intros Hn Ha. pose proof (t_load_good rd n addr (fun v => v) Hn Ha ltac:(done)) as Hg.
  by destruct (mem_read n m addr).
Qed.

Lemma t_store_good n addr v : uint 32 addr →
  good_m m (ARM_OK, next, mem_write n m addr v).
Proof. intros Ha. split; [by apply ev_write; [apply ev_refl |] | done]. Qed.

Lemma t_alu_good rd a b cin : good_m m (t_alu m next rd (alu_add (cpu m) a b cin true)).
Proof.
  apply t_cpu_good; [| done]. apply ev_reg; [apply ev_alu_add, ev_refl | intros; apply uint_alu_add].
Qed.

Lemma t_logic_good rd v carry : uint 32 v → good_m m (t_logic m next rd (v, carry)).
Proof.
  intros Hv. apply t_cpu_good; [| done]. apply ev_logic_flags, ev_reg; [apply ev_refl | done].
Qed.

Lemma t_shift_good rd x : uint 32 (fst x) → good_m m (t_logic m next rd x).
Proof. destruct x. apply t_logic_good. Qed.

Ltac uint_tac := auto with word; try apply uint_w32; try (by apply wf_reg); solve_uint.

Lemma shift_add_good : good_m m (thumb_shift_add m insn next).
Proof.
  unfold thumb_shift_add, alu_sub. case_match.
  - case_match; apply t_alu_good.
  - apply t_shift_good. apply uint_barrel; [by apply wf_reg | apply fld_nonneg; lia].
Qed.

Lemma imm8_good : good_m m (thumb_imm8 m insn next).
Proof.
  unfold thumb_imm8, alu_sub. repeat case_match; first [ apply t_alu_good | idtac ].
  - apply t_logic_good. apply uint_land_r; [lia | by split].
  - apply t_cpu_good; [apply ev_alu_add, ev_refl | done].
Qed.

Lemma thumb_alu_good : good_m m (thumb_alu m insn next).
Proof.
  assert (∀ i, uint 32 (r (cpu m) i)) as Hr by (intros; by apply wf_reg).
  unfold thumb_alu, alu_sub.
  repeat case_match;
    first [ apply t_alu_good
          | apply t_cpu_good; [apply ev_alu_add, ev_refl | done]
          | apply t_cpu_good; [apply ev_logic_flags, ev_refl | done]
          | apply t_shift_good, uint_barrel; [done | apply land_nonneg_r; lia]
          | apply t_logic_good; solve [apply uint_land_l; [lia | done] | solve_uint]
          | apply t_cpu_good; [ev | done] ].
Qed.

Lemma thumb_bx_good sv rs : uint 32 sv → good_m m (thumb_bx m pc insn sv rs next).
Proof.
  intros Hs. unfold thumb_bx. case_match; [apply t_stay |]. case_match; [apply t_stay |].
  split; [cbn [cpu set_cpu snd] | intros; apply uint_land_l; [lia | done]].
  case_match; case_match; ev.
Qed.

Lemma hireg_good : good_m m (thumb_hireg m pc insn next).
Proof.
  unfold thumb_hireg, alu_sub. set (rs := _ .| ((insn .>> 3) .& 8)).
  set (sv := if rs =? 15 then _ else _). assert (uint 32 sv) as Hsv.
  { subst sv. apply uint_if; [apply uint_w32 | by apply wf_reg]. }
  repeat case_match; first
    [ by apply thumb_bx_good
    | split; [apply ev_refl | intros; apply uint_land_l; [lia | done || apply uint_w32]]
    | apply t_write_good; [apply ev_refl | done || apply uint_w32]
    | apply t_cpu_good; [apply ev_alu_add, ev_refl | done] ].
Qed.

Lemma case4_good : good_m m (thumb_case4 m pc insn next).
Proof.
  unfold thumb_case4. case_match; [apply thumb_alu_good |].
  case_match; [apply hireg_good |]. apply t_load_plain; [auto | apply uint_w32].
Qed.

Lemma reg_offset_good : good_m m (thumb_reg_offset m insn next).
Proof.
  unfold thumb_reg_offset. case_match.
  - case_match; [apply t_stay |].
    destruct (fld insn 10 3) as [| [[] | [] |] |];
      first [ apply t_store_good, uint_w32
            | apply t_load_plain; [auto | apply uint_w32]
            | apply t_load_good; [auto | apply uint_w32 | intros; apply uint_w32] ].
  - repeat case_match;
      first [ apply t_store_good, uint_w32 | apply t_load_plain; [auto | apply uint_w32] ].
Qed.

Lemma imm5_good : good_m m (thumb_imm5 m insn next).
Proof.
  unfold thumb_imm5. repeat case_match;
    first [ apply t_store_good, uint_w32 | apply t_load_plain; [auto | apply uint_w32] ].
Qed.

Lemma half_imm5_good : good_m m (thumb_half_imm5 m insn next).
Proof.
  unfold thumb_half_imm5. repeat case_match;
    first [ apply t_stay | apply t_store_good, uint_w32
          | apply t_load_plain; [auto | apply uint_w32] ].
Qed.

Lemma sp_relative_good : good_m m (thumb_sp_relative m insn next).
Proof.
  unfold thumb_sp_relative. repeat case_match;
    first [ apply t_store_good, uint_w32 | apply t_load_plain; [auto | apply uint_w32] ].
Qed.

Lemma address_good : good_m m (thumb_address m pc insn next).
Proof.
  unfold thumb_address. apply t_write_good; [apply ev_refl |]. case_match; apply uint_w32.
Qed.

Lemma commit_low_ev list loaded c0 c : evolves c0 c → (∀ j, uint 32 (loaded j)) →
  evolves c0 (commit_low list loaded c).
Proof.
  intros He Hl. unfold commit_low. apply (for_range_inv (evolves c0)); [| done].
  intros i c' _ He'. case_match; [| done]. apply ev_reg; auto.
Qed.

Lemma pop_good : good_m m (thumb_pop m insn next).
Proof.
  unfold thumb_pop. pose proof (wf_reg (cpu m) 13 Hw) as Hsp.
  pose proof (prepare_accesses m (r (cpu m) 13) 4 false Hsp) as Hp.
  destruct (prepare_multiword_address _ _ _ _) as [[start |] c], Hp as [Hm1 Hstart].
  2: { by apply good_accesses. }
  specialize (Hstart start eq_refl). set (m1 := set_cpu c m) in *. clearbody m1.
  destruct (load_list_accesses 8 0 (insn .& 0xff) m1 start (fun _ => 0)) as [Ha Hl];
    [done | by intros; split |].
  destruct (load_list _ _ _ _ _ _) as [[[addr loaded] |] m2]; cbn [fst snd] in *.
  2: { apply good_accesses; [by etrans | done]. }
  destruct (Hl addr loaded eq_refl) as [Haddr Hl']. assert (accesses m m2) as Hm2 by (by etrans).
  set (rd := if bit insn 8 then _ else _).
  assert (accesses m (snd rd) ∧ uint 32 (fst rd)) as [Hm3 Hpc'].
  { subst rd. case_match; [| by split]. unfold mem_r32, mem_read.
    split; [etrans; [exact Hm2 | by apply read_accesses] | apply read_word; auto]. }
  destruct rd as [pcv m3]. cbn [fst snd] in *.
  case_match; [by apply good_accesses |].
  case_match; [split; [by apply accesses_evolves | done] |].
  assert (evolves (cpu m) (set_reg 13 (w32 (r (cpu m) 13 + 4 * push_pop_count insn))
    (commit_low (insn .& 255) loaded (cpu m3)))) as Hc.
  { apply ev_reg; [| intros; apply uint_w32]. apply commit_low_ev; [by apply accesses_evolves | done]. }
  case_match; [| by apply t_cpu_good].
  apply t_cpu_good; [case_match; ev | apply uint_land_l; [lia | done]].
Qed.

Lemma push_good : good_m m (thumb_push m insn next).
Proof.
  unfold thumb_push. set (new_sp := w32 _).
  pose proof (prepare_accesses m new_sp 4 true (uint_w32 _)) as Hp.
  destruct (prepare_multiword_address _ _ _ _) as [[start |] c], Hp as [Hm1 Hstart].
  2: { by apply good_accesses. }
  specialize (Hstart start eq_refl). set (m1 := set_cpu c m) in *. clearbody m1.
  destruct (store_list_accesses 8 0 (insn .& 0xff) r m1 start) as [Ha Ha']; [done |].
  destruct (store_list _ _ _ _ _ _) as [[addr |] m2]; cbn [fst snd] in *.
  2: { apply good_accesses; [by etrans | done]. }
  specialize (Ha' addr eq_refl). assert (accesses m m2) as Hm2 by (by etrans).
  set (m3 := if bit insn 8 then _ else m2). assert (accesses m m3) as Hm3.
  { subst m3. case_match; [| done]. etrans; [exact Hm2 | by apply write_accesses]. }
  case_match; [by apply good_accesses |].
  apply t_write_good; [by apply accesses_evolves | apply uint_w32].
Qed.

Lemma extend_rev_good :
  good_m m (thumb_extend m insn next) ∧ good_m m (thumb_rev m insn next).
Proof.
  pose proof (wf_reg (cpu m) (TB insn 3) Hw) as Hv. split.
  - unfold thumb_extend. apply t_write_good; [apply ev_refl |].
    repeat case_match; first [apply uint_w32 | apply uint_land_l; [lia | done]].
  - pose proof (uint_rev32 (r (cpu m) (TB insn 3))). pose proof (uint_rev16 (r (cpu m) (TB insn 3))).
    unfold thumb_rev. destruct (fld insn 6 3) as [| [[] | [] |] |]; try apply t_stay;
      (apply t_write_good; [apply ev_refl | done || apply uint_w32]).
Qed.

Lemma cps_mask_ev c0 c a i f d : cpu_is_priv c = true → evolves c0 c →
  evolves c0 (cps_mask c a i f d) ∧ cpu_is_priv (cps_mask c a i f d) = true.
Proof.
  intros Hp He. assert (∀ c' b, evolves c0 c' ∧ cpu_is_priv c' = true → uint 32 b →
    b .& ARM_CPSR_MODE_MASK = 0 → wnot b .& ARM_CPSR_MODE_MASK = ARM_CPSR_MODE_MASK →
    evolves c0 (set_flag c' b d) ∧ cpu_is_priv (set_flag c' b d) = true) as Hflag.
  { intros c' b [He' Hp'] Hb H1 H2. pose proof (mode_set_flag c' b d H1 H2) as Hm. split.
    - unfold set_flag. apply ev_priv_psr; [done | done | | exact Hm].
      intros _ [Hw' _]. destruct d; [apply uint_lor; [lia | apply Hw' | done] |].
      apply uint_land_l; [lia | apply Hw'].
    - unfold cpu_is_priv. by rewrite Hm. }
  unfold cps_mask.
  destruct a, i, f; repeat (apply Hflag; [| by split | done | done]); done.
Qed.

Lemma thumb_cps_good : good_m m (thumb_cps m insn next).
Proof.
  unfold thumb_cps. case_match eqn:E; [split; [apply ev_refl | done] |].
  apply negb_false_iff in E. apply t_cpu_good; [| done].
  by apply (cps_mask_ev (cpu m) (cpu m)).
Qed.

Lemma thumb_misc_good : good_m m (thumb_misc m insn next).
Proof.
  destruct extend_rev_good as [He Hr]. unfold thumb_misc.
  case_match; [apply t_write_good; [apply ev_refl | case_match; apply uint_w32] |].
  case_match.
  { case_match; [apply t_stay |]. case_match; [apply pop_good | apply push_good]. }
  case_match; [exact He |]. case_match; [exact Hr |]. case_match; [apply thumb_cps_good |].
  case_match; [| apply t_stay]. case_match; [apply t_stay | split; [apply ev_refl | done]].
Qed.

Lemma multiple_good : good_m m (thumb_multiple m insn next).
Proof.
  unfold thumb_multiple. do 2 (case_match; [apply t_stay |]).
  set (rb := fld insn 8 7). pose proof (wf_reg (cpu m) rb Hw) as Hb.
  pose proof (prepare_accesses m (r (cpu m) rb) 4 (negb (bit insn 11)) Hb) as Hp.
  destruct (prepare_multiword_address _ _ _ _) as [[start |] c], Hp as [Hm1 Hstart].
  2: { by apply good_accesses. }
  specialize (Hstart start eq_refl). set (m1 := set_cpu c m) in *. clearbody m1.
  destruct (bit insn 11).
  - destruct (load_list_accesses 8 0 (insn .& 0xff) m1 start (fun _ => 0)) as [Ha Hl];
      [done | by intros; split |].
    destruct (load_list _ _ _ _ _ _) as [[[addr loaded] |] m2]; cbn [fst snd] in *.
    2: { apply good_accesses; [by etrans | done]. }
    destruct (Hl addr loaded eq_refl) as [_ Hl'].
    assert (evolves (cpu m) (commit_low (insn .& 255) loaded (cpu m2))) as Hc.
    { apply commit_low_ev; [apply accesses_evolves; by etrans | done]. }
    apply t_cpu_good; [| done]. case_match; ev.
  - destruct (store_list_accesses 8 0 (insn .& 0xff) r m1 start) as [Ha _]; [done |].
    destruct (store_list _ _ _ _ _ _) as [[addr |] m2]; cbn [fst snd] in *.
    + apply t_write_good; [apply accesses_evolves; by etrans | apply uint_w32].
    + apply good_accesses; [by etrans | done].
Qed.

Lemma branch_link_good : good_m m (thumb_branch m pc insn next) ∧ good_m m (thumb_bl m pc insn next).
Proof.
  split.
  - unfold thumb_branch. case_match.
    + split; [cbn [cpu set_cpu snd]; ev | intros; apply uint_land_l; [lia | apply uint_w32]].
    + split; [apply ev_refl | intros; apply uint_w32].
  - unfold thumb_bl. case_match.
    + apply t_write_good; [apply ev_refl | apply uint_w32].
    + split; [cbn; ev | intros; apply uint_land_l; [lia | apply uint_w32]].
Qed.

(** A Thumb instruction evolves the core or enters the Supervisor exception, and only
    an abort of its own leaves the latch set. *)
Lemma thumb_good : svc_good m (thumb_step m pc insn next).
Proof.
  unfold thumb_step. destruct branch_link_good as [Hb Hbl].
  assert (svc_good m (thumb_cond_svc m pc insn next)) as Hsvc.
  { unfold thumb_cond_svc. case_match; [by apply svc_all_good; [apply uint_w32 | |] |].
    case_match; [left; apply t_stay |].
    case_match; left; (split; [apply ev_refl | intros; done || apply uint_w32]). }
  repeat case_match; first [ exact Hsvc | left ];
    first [ apply shift_add_good | apply imm8_good | apply case4_good | apply reg_offset_good
          | apply imm5_good | apply half_imm5_good | apply sp_relative_good | apply address_good
          | apply thumb_misc_good | apply multiple_good | done ].
Qed.

End Insn.
End ThumbFoot.
