(* ===== verification/StepFacts.v ===== *)
(** * Facts about a whole step

    The decode chain and its hoisted arm; what one step may do to the core: the
    instruction's updates, then at most one exception entry.  Well-formedness of the
    core, emptiness of the abort latch and the confinement of User mode follow for
    every step, whatever the memory holds. *)

From stdpp Require Import relations.
From S2P Require Import Prelude State Cpu CpuFacts Bus Mmu MemAccess Alu AluFacts ExecDp ExecMul ExecMedia.
From S2P Require Import ExecXfer Float FloatFacts Vfp ExecCp Sync Thumb Step.
From S2P Require Import Footprint FootExec FootMem FootVfp FootXfer.

(** ** Decode *)

(** Two constraints on the same bits: [(x & m) = v] is impossible when some bit of a
    known pattern disagrees. *)
Lemma land_conflict x m v m' v' : ((x .& m) =? v) = true →
  ((v .^ v') .& (m .& m')) ≠ 0 → ((x .& m') =? v') = false.
Proof.
  intros E%Z.eqb_eq Hc. apply Z.eqb_neq. intros E'. apply Hc. rewrite <- E, <- E'.
  apply Z.bits_inj'. intros i Hi. rewrite !Z.land_spec, Z.lxor_spec, !Z.land_spec, Z.testbit_0_l.
  by destruct (Z.testbit x i), (Z.testbit m i), (Z.testbit m' i).
Qed.

(** A test fails when a weaker one does. *)
Lemma land_weaken x m v m' v' : ((x .& m') =? v') = false →
  m .& m' = m' → v .& m' = v' → ((x .& m) =? v) = false.
Proof.
  intros E%Z.eqb_neq Hm Hv. apply Z.eqb_neq. intros E'. apply E.
  by rewrite <- Hm, Z.land_assoc, E', Hv.
Qed.

(** Discharge the tests of a chain that the hypotheses refute. *)
Ltac refute_tests :=
  repeat match goal with
         | H : ((?x .& ?m) =? ?v) = true |- context [(?x .& ?m') =? ?v'] =>
           rewrite (land_conflict x m v m' v' H) by (vm_compute; discriminate)
         | H : ((?x .& ?m') =? ?v') = false |- context [(?x .& ?m) =? ?v] =>
           rewrite (land_weaken x m v m' v' H) by reflexivity
         end.

(** Moving data processing to the front of the decode chain is a reordering and
    not a reinterpretation: for every encoding the hoisted arm takes exactly the
    instructions that the chain without it would have given to the data-processing
    handler, so the two chains agree. *)
Theorem decode_hoist_equivalent insn : decode insn = decode_unhoisted insn.
Proof.
  unfold decode. destruct (hoisted insn) eqn:Eh; [| done]. unfold hoisted in Eh.
  rewrite !andb_true_iff, !negb_true_iff in Eh. destruct Eh as [[H0 H1] H2].
  assert (((insn .& 0x0e000090) =? 0x00000090) = false) as H3.
  { destruct ((insn .& 0x0e000090) =? 0x90) eqn:E; [| done]. apply Z.eqb_eq in E.
    assert (insn .& 0x0e000000 = 0) as Ha.
    { change 0x0e000000 with (0x0e000090 .& 0x0e000000). by rewrite Z.land_assoc, E. }
    assert (insn .& 0x00000090 = 0x90) as Hb.
    { change (insn .& 0x90) with (insn .& (0x0e000090 .& 0x90)). by rewrite Z.land_assoc, E. }
    by rewrite Ha, Hb in H2. }
  unfold decode_unhoisted, decode_sync. cbv zeta. rewrite H2. cbn [andb]. refute_tests.
  cbn [orb andb]. by rewrite H0.
Qed.

(** ** Exception entries *)

(** The six entries [arm_step] makes, each from a core the instruction left. *)
Inductive trap (c : arm_cpu) : arm_cpu → Prop :=
| trap_undefined ret : uint 32 ret →
    trap c (enter c ARM_VEC_UNDEFINED ARM_MODE_UND ret false)
| trap_svc ret : uint 32 ret → trap c (enter c ARM_VEC_SWI ARM_MODE_SVC ret false)
| trap_prefetch fsr pc ret : uint 32 fsr → uint 32 pc → uint 32 ret →
    trap c (enter (set_cp15 (set_ifar pc (set_ifsr fsr (cp15 c))) c)
              ARM_VEC_PREFETCH ARM_MODE_ABT ret false)
| trap_data_abort pc : uint 32 pc → trap c (take_pending_data_abort c pc)
| trap_irq ret : uint 32 ret → trap c (enter c ARM_VEC_IRQ ARM_MODE_IRQ ret false)
| trap_fiq ret : uint 32 ret → trap c (enter c ARM_VEC_FIQ ARM_MODE_FIQ ret true).

(** CP15 but for the fault status and address registers. *)
Definition fault_frame (p : arm_cp15) : arm_cp15 :=
  set_dfsr 0 (set_ifsr 0 (set_dfar 0 (set_ifar 0 p))).

(** The core an entry starts from: the fault registers are recorded first. *)
Definition recorded (c c' : arm_cpu) : Prop :=
  ∃ p q, cp15_ok p ∧ fault_frame p = fault_frame (cp15 c) ∧ c' = set_abort_pending q (set_cp15 p c) ∧
    (abort_pending c = false → q = false).

(** Every entry is one [enter] with a vector and a mode of the table. *)
Definition vector_table : list (Z * Z) :=
  [(ARM_VEC_UNDEFINED, ARM_MODE_UND); (ARM_VEC_SWI, ARM_MODE_SVC);
   (ARM_VEC_PREFETCH, ARM_MODE_ABT); (ARM_VEC_DATA_ABORT, ARM_MODE_ABT);
   (ARM_VEC_IRQ, ARM_MODE_IRQ); (ARM_VEC_FIQ, ARM_MODE_FIQ)].

Lemma recorded_refl c : widths c → recorded c c.
Proof.
  intros Hw. exists (cp15 c), (abort_pending c). split_and?; [apply Hw | done | | done].
  by destruct c.
Qed.

Lemma trap_enter c c' : trap c c' → wf c →
  ∃ c1 vec mode ret mf, recorded c c1 ∧ uint 32 ret ∧ (vec, mode) ∈ vector_table ∧
    c' = enter c1 vec mode ret mf ∧
    (abort_pending c = false ∨ vec = ARM_VEC_DATA_ABORT → abort_pending c1 = false).
Proof.
  intros Ht [Hw _]. pose proof (recorded_refl c Hw) as Hc.
  assert (∀ vec mode, bool_decide ((vec, mode) ∈ vector_table) = true →
    (vec, mode) ∈ vector_table) as Hin by (intros ? ? ?; by eapply bool_decide_eq_true_1).
  destruct Ht.
  - exists c, ARM_VEC_UNDEFINED, ARM_MODE_UND, ret, false.
    split_and?; try done; [by apply Hin | by intros [|]].
  - exists c, ARM_VEC_SWI, ARM_MODE_SVC, ret, false.
    split_and?; try done; [by apply Hin | by intros [|]].
  - eexists _, ARM_VEC_PREFETCH, ARM_MODE_ABT, ret, false.
    split_and?; [| done | by apply Hin | reflexivity | by intros [|]].
    exists (set_ifar pc (set_ifsr fsr (cp15 c))), (abort_pending c). destruct (w_cp15 c Hw).
    split_and?; [by split | done | | done]. by destruct c.
  - exists (set_cp15 (set_dfar (abort_far c) (set_dfsr (abort_fsr c) (cp15 c)))
      (set_abort_pending false c)), ARM_VEC_DATA_ABORT, ARM_MODE_ABT, (pc +w 8), false.
    split_and?; [| apply uint_w32 | by apply Hin | reflexivity | done].
    exists (set_dfar (abort_far c) (set_dfsr (abort_fsr c) (cp15 c))), false.
    destruct (w_cp15 c Hw), Hw. split_and?; [by split | done | | done]. by destruct c.
  - exists c, ARM_VEC_IRQ, ARM_MODE_IRQ, ret, false.
    split_and?; try done; [by apply Hin | by intros [|]].
  - exists c, ARM_VEC_FIQ, ARM_MODE_FIQ, ret, true.
    split_and?; try done; [by apply Hin | by intros [|]].
Qed.

Lemma table_mode vec mode : (vec, mode) ∈ vector_table →
  arm_mode_is_valid mode = true ∧ mode .& ARM_CPSR_MODE_MASK = mode.
Proof.
  intros Ht. assert (Forall (fun x => arm_mode_is_valid (snd x) = true ∧
    snd x .& ARM_CPSR_MODE_MASK = snd x) vector_table) as Hall by repeat constructor.
  by apply (proj1 (list.Forall_forall _ _) Hall (vec, mode)).
Qed.

Lemma uint_entry_cpsr c vec mode mf : widths c → uint 32 (entry_cpsr c vec mode mf).
Proof.
  intros Hw. assert (∀ x k, uint 32 x → uint 32 (x .& k)) as Hland.
  { intros. apply uint_land_l; [lia | done]. }
  assert (∀ x k, uint 32 x → uint 32 k → uint 32 (x .| k)) as Hlor.
  { intros. apply uint_lor; done || lia. }
  assert (uint 32 (mode .& ARM_CPSR_MODE_MASK)) by (apply uint_land_r; [lia | by split]).
  unfold entry_cpsr. cbv zeta.
  repeat first [ assumption | apply uint_if | apply Hland | apply Hlor ]; first [by split | apply Hw].
Qed.

Lemma view_set_pc c v b i : i < 15 → reg_view (set_reg 15 v c) b i = reg_view c b i.
Proof. intros Hi. unfold reg_view, set_reg. simpl. by rewrite !fn_lookup_insert_ne by lia. Qed.

(** What an entry leaves. *)
Lemma enter_spec c vec mode ret mf : (vec, mode) ∈ vector_table → widths c → uint 32 ret →
  let c' := enter c vec mode ret mf in
  wf c' ∧ mode_of c' = mode ∧ bit (cpsr c') 7 = true ∧
  r c' 15 = (if negb ((sctlr (cp15 c) .& ARM_SCTLR_V) =? 0) then 0xffff0000 else 0) +w vec ∧
  spsr c' (arm_bank_of_mode mode) = cpsr c ∧
  (∀ b, b ≠ arm_bank_of_mode mode → spsr c' b = spsr c b) ∧
  (∀ b i, 0 <= i < 15 → (b, i) ≠ (arm_bank_of_mode mode, 14) → reg_view c' b i = reg_view c b i) ∧
  cp15 c' = cp15 c ∧ abort_pending c' = abort_pending c.
Proof.
  intros Ht Hw Hret c'. destruct (table_mode vec mode Ht) as [Hv Hmask].
  destruct (set_mode_frame c mode) as (_ & Hcp & Hs & _ & Hab & _ & _).
  pose proof (λ b i Hi, exception_view c vec mode ret mf b i Hv Hi) as Hview.
  pose proof (entry_cpsr_bits c vec mode mf 7 ltac:(lia)) as H7.
  pose proof (entry_cpsr_mode c vec mode mf) as Hm.
  pose proof (widths_set_mode c mode Hw) as Hw1.
  subst c'. unfold enter. rewrite take_exception_eq in Hview |- * by done. cbn [snd] in Hview.
  split_and?; try done.
  - split; [| simpl; by rewrite (valid_same_mode _ _ Hm)].
    apply widths_set_reg; [| apply uint_w32].
    set (c2 := set_reg 14 ret _). assert (widths c2) as Hw2.
    { apply widths_set_reg; [| done]. apply widths_set_spsr; [exact Hw1 | apply Hw]. }
    destruct (widths_set_cpsr c2 _ Hw2 (uint_entry_cpsr c vec mode mf Hw)). by split.
  - unfold mode_of. simpl. by rewrite Hm.
  - simpl. apply fn_lookup_insert.
  - intros b Hb. simpl. by rewrite fn_lookup_insert_ne, Hs by congruence.
  - intros b i Hi Hbi. rewrite view_set_pc, Hview by lia.
    destruct (bank_eqb_spec b (arm_bank_of_mode mode)) as [-> |]; [| done].
    destruct (Z.eqb_spec i 14) as [-> |]; [| done]. by destruct Hbi.
Qed.

(** ** The shape of a step *)

(** Updates, then at most one exception entry. *)
Definition steps_to (c c' : arm_cpu) : Prop :=
  rtc micro c c' ∨ ∃ c1, rtc micro c c1 ∧ trap c1 c'.

Section Shape.
Context {B : Type} `{Bus B} `{!BusRanges B} `{HostFpu} `{!HostFpuOk} `{!SvcSafe B}.
Implicit Types m : mach B.

(** A result of the step function; the latch is empty again unless the host stopped. *)
Definition step_ok (m0 : mach B) (res : arm_status * mach B) : Prop :=
  wf (cpu m0) → abort_pending (cpu m0) = false →
  steps_to (cpu m0) (cpu (snd res)) ∧
  (fst res ≠ ARM_HALT → abort_pending (cpu (snd res)) = false).

(** [m] was reached from [m0] by updates only, no abort latched. *)
Definition reached (m0 m : mach B) : Prop :=
  evolves (cpu m0) (cpu m) ∧ (abort_pending (cpu m0) = false → abort_pending (cpu m) = false).

Lemma reached_refl m : reached m m.
Proof. split; [apply ev_refl | done]. Qed.

Lemma step_stop m0 m st : reached m0 m → step_ok m0 (st, m).
Proof. intros [He Hl] Hw Hp. split; [left; by apply He | auto]. Qed.

Lemma step_halt m0 m : evolves (cpu m0) (cpu m) → step_ok m0 (ARM_HALT, m).
Proof. intros He Hw Hp. split; [left; by apply He | done]. Qed.

Lemma step_retire m0 m next : reached m0 m → (wf (cpu m0) → uint 32 next) →
  step_ok m0 (retire m next).
Proof.
  intros [He Hl] Hn Hw Hp. split; [| intros _; by apply Hl]. left. unfold retire. cbn.
  assert (evolves (cpu m0) (set_reg 15 next (cpu m))) as He' by (apply ev_reg; auto).
  by apply He'.
Qed.

Lemma latch_after_trap c c' : trap c c' → wf c → abort_pending c = false → abort_pending c' = false.
Proof.
  intros Ht Hw Hp. destruct (trap_enter c c' Ht Hw) as (c1 & vec & mode & ret & mf & Hr & Hret & Hin & -> & Ha).
  destruct Hr as (p & q & Hpok & _ & -> & _).
  destruct (enter_spec (set_abort_pending q (set_cp15 p c)) vec mode ret mf Hin) as
    (_ & _ & _ & _ & _ & _ & _ & _ & ->); [| done | by apply Ha; left].
  destruct Hw as [[] _]. by split.
Qed.

Lemma step_trap m0 m c' st : reached m0 m → (wf (cpu m) → trap (cpu m) c') →
  step_ok m0 (st, set_cpu c' m).
Proof.
  intros [He Hl] Ht Hw Hp. pose proof (evolves_wf _ _ He Hw) as Hw'. split.
  - right. exists (cpu m). split; [by apply He | by apply Ht].
  - intros _. eapply latch_after_trap; [by apply Ht | done | by apply Hl].
Qed.

Lemma step_undefined m0 m pc insn : reached m0 m → uint 32 pc →
  step_ok m0 (lift m (undefined_instruction (cpu m) pc insn)).
Proof.
  intros Hr Hpc. unfold undefined_instruction. case_match.
  - apply step_stop. by destruct m.
  - unfold take_undefined_instruction, lift. 
    pose proof (trap_undefined (cpu m) (pc +w 4) (uint_w32 _)) as Ht. unfold enter in Ht.
    destruct (take_exception _ _ _ _ _). by apply step_trap.
Qed.

Lemma step_abort m0 m pc : evolves (cpu m0) (cpu m) → uint 32 pc → step_ok m0 (data_abort m pc).
Proof.
  intros He Hpc Hw Hp. pose proof (evolves_wf _ _ He Hw) as Hw'.
  pose proof (trap_data_abort (cpu m) pc Hpc) as Ht. split.
  - right. exists (cpu m). split; [by apply He | exact Ht].
  - intros _. unfold data_abort. cbn [snd cpu on_cpu]. unfold take_pending_data_abort.
    set (c1 := set_cp15 (set_dfar _ _) _). assert (abort_pending c1 = false) as Hc by done.
    clearbody c1. rewrite take_exception_eq by done.
    destruct (set_mode_frame c1 ARM_MODE_ABT) as (_ & _ & _ & _ & Hab & _ & _).
    cbn. by rewrite Hab.
Qed.

(** ** Fetch *)

Lemma host_get_range b k : ∀ p, uint (8 * Z.of_nat k) (host_get k b p).
Proof.
  induction k as [| k IH]; intros p; [split; simpl; lia |].
  replace (8 * Z.of_nat (S k)) with (8 + 8 * Z.of_nat k) by lia.
  apply uint_byte_cons; [lia | apply host_load_range | apply IH].
Qed.

Lemma translate_latch m va acc priv :
  abort_pending (cpu (snd (arm_mmu_translate m va acc priv))) = abort_pending (cpu m).
Proof.
  unfold arm_mmu_translate. destruct (negb _); [done |]. rewrite (sync_core (cpu m)).
  destruct (_ && _); [done |]. by destruct (mmu_walk _ _ _ _ _ _).
Qed.

Definition fetched_ok (f : fetched) : Prop :=
  match f with FetchFault fsr => uint 32 fsr | _ => True end.

Lemma fetch_ok m pc : wf (cpu m) →
  reached m (snd (fetch m pc)) ∧ fetched_ok (fst (fetch m pc)) ∧
  quiet (cpu m) (cpu (snd (fetch m pc))).
Proof.
  intros Hw. unfold fetch. case_match; [by split_and?; [apply reached_refl | ..] |].
  pose proof (translate_accesses m pc ARM_ACCESS_FETCH (cpu_is_priv (cpu m))) as Ht.
  pose proof (translate_latch m pc ARM_ACCESS_FETCH (cpu_is_priv (cpu m))) as Hl.
  destruct (arm_mmu_translate _ _ _ _) as [x m']. destruct Ht as [Ha Hx]. cbn [snd] in Hl.
  assert (∀ k f', (cache_ok (cache (cpu m')) → cache_ok k) → fetched_ok f' →
    reached m (on_cpu (set_cache k) m') ∧ fetched_ok f' ∧
    quiet (cpu m) (cpu (on_cpu (set_cache k) m'))) as Hk.
  { intros k f' Hk Hf'. pose proof (accesses_cache_step m' k Hk) as Ha'.
    pose proof (transitivity Ha Ha') as Hb. split_and?; [| done | by apply Hb].
    split; [by apply accesses_evolves |]. cbn. by rewrite Hl. }
  assert (reached m m') as Hm' by (split; [by apply accesses_evolves | by rewrite Hl]).
  destruct x as [fsr | pa]; [split_and?; [done | by apply Hx | by apply Ha] |].
  repeat case_match; try (split_and?; [done | done | by apply Ha]).
  apply Hk; [| done]. intros Hc. cache_tac.
  apply uint_land_r; [lia | by apply uint_wnot; split].
Qed.

Lemma fetch_insn_ok n m f : n = 2 ∨ n = 4 →
  uint (8 * n) (fst (fetch_insn n m f)) ∧ cpu (snd (fetch_insn n m f)) = cpu m.
Proof.
  intros Hn. unfold fetch_insn. destruct f as [fsr | p | pa]; cbn [fst snd].
  - split; [| done]. apply uint_0. lia.
  - split; [| done]. pose proof (host_get_range (bus m) (Z.to_nat n) p) as Hr.
    rewrite Z2Nat.id in Hr by lia. exact Hr.
  - unfold bus_read. destruct Hn as [-> | ->]; cbn [Z.eqb Pos.eqb].
    + pose proof (read16_range (bus m) pa) as Hr. by destruct (read16 _ _).
    + pose proof (read32_range (bus m) pa) as Hr. by destruct (read32 _ _).
Qed.

(** ** Dispatch *)

Lemma keep_bus_good m o : good_next (cpu m) o → good_m m (keep_bus m o).
Proof. destruct o as [[st nx] c']. intros [He Hn]. by split. Qed.

Lemma keep_next_good m next o : good (cpu m) o → uint 32 next → good_m m (keep_next m next o).
Proof. intros Hg Hn. by split. Qed.

Lemma with_next_good m next o : good_s m o → uint 32 next → good_m m (with_next next o).
Proof. intros Hg Hn. by split. Qed.

Section Insn.
Context (m : mach B) (pc insn next : Z) (Hw : wf (cpu m)).
Hypothesis (Hpc : uint 32 pc) (Hinsn : uint 32 insn) (Hnext : uint 32 next).

Lemma dispatch_good : is_svc insn = false → good_m m (dispatch m pc insn next).
Proof.
  intros Hs. unfold dispatch. unfold is_svc in Hs. destruct (decode insn); try done;
    first
    [ apply keep_bus_good; [ apply dp_good || apply branch_good ]; done
    | apply keep_next_good; [ first [ apply multiply_good | apply multiply_long_good | apply dsp_good
        | apply media_all_good ] | done ]; done
    | by apply single_good | by apply block_good | by apply extra_good
    | apply with_next_good; [| done];
      first [ apply ldrex_good; auto | apply strex_good | apply ldrexd_good | apply strexd_good
            | apply swp_good | apply coprocessor_good | apply vfp_evolves ]
    | split; [apply ev_refl | done] ].
Qed.

Lemma dispatch_svc : is_svc insn = true → dispatch m pc insn next = exec_svc m pc insn (pc +w 4) next.
Proof. unfold is_svc, dispatch. by destruct (decode insn). Qed.

End Insn.

Lemma retire_enter m0 m ret vec c' : reached m0 m → uint 32 ret →
  take_exception (cpu m) ARM_VEC_SWI ARM_MODE_SVC ret false = (vec, c') →
  step_ok m0 (retire (set_cpu c' m) vec).
Proof.
  intros Hr Hret E. pose proof (trap_svc (cpu m) ret Hret) as Ht. unfold enter in Ht.
  rewrite E in Ht. by apply (step_trap m0 m (set_reg 15 vec c')).
Qed.

(** Any outcome of an ordinary instruction is retired or trapped. *)
Lemma finish_good m0 m pc insn next st : evolves (cpu m0) (cpu m) → uint 32 pc →
  (wf (cpu m0) → uint 32 next) → step_ok m0 (finish_arm m pc insn next st).
Proof.
  intros He Hpc Hn Hw Hp. revert Hw Hp. unfold finish_arm.
  destruct (abort_pending (cpu m)) eqn:Ea; [by apply step_abort |].
  assert (reached m0 m) as Hr by done.
  destruct st; try (by apply step_stop).
  - by apply step_retire.
  - by apply step_undefined.
  - pose proof (trap_undefined (cpu m) (pc +w 4) (uint_w32 _)) as Ht. unfold enter in Ht.
    unfold take_undefined_instruction, lift. destruct (take_exception _ _ _ _ _).
    by apply step_trap.
Qed.

Lemma reached_count m : reached m (on_cpu count_cycle m).
Proof. split; [apply ev_cycles; [apply uint_w64 | apply ev_refl] | done]. Qed.

(** SVC, from either instruction set. *)
Lemma svc_step m0 m pc e ret next : reached m0 m → uint 32 ret → uint 32 next →
  wf (cpu m0) → abort_pending (cpu m0) = false →
  let '(st, next, m') := exec_svc m pc e ret next in
  abort_pending (cpu m') = false ∧
  (st = ARM_HALT → step_ok m0 (ARM_HALT, m')) ∧
  (st = ARM_OK → step_ok m0 (retire m' next)) ∧
  (st = ARM_HALT ∨ st = ARM_OK).
Proof.
  intros [He Hl] Hret Hnext Hw Hp. pose proof (evolves_wf _ _ He Hw) as Hw'.
  destruct (svc_all_good m pc e ret next Hret Hnext Hw') as [Hg Ha].
  assert (fst (fst (exec_svc m pc e ret next)) = ARM_HALT ∨
          fst (fst (exec_svc m pc e ret next)) = ARM_OK) as Hst.
  { unfold exec_svc. destruct (privileged_svc_result _ _ _) as [res mm].
    repeat case_match; auto. }
  destruct (exec_svc m pc e ret next) as [[st nx] m'] eqn:E. cbn [fst snd] in *.
  specialize (Ha (Hl Hp)). split_and?; [done | | | done].
  - intros ->. apply step_halt. destruct Hg as [[Hg _] | (? & _ & ? & _)]; [by etrans | done].
  - intros ->. destruct Hg as [[Hg Hn] | (ret' & Hret' & _ & Ht)].
    + apply step_retire; [split; [by etrans | done] |]. intros _. by apply Hn.
    + cbn [fst snd] in Ht. symmetry in Ht.
      pose proof (retire_enter m0 m ret' nx (cpu m') (conj He Hl) Hret' Ht) as Hok.
      exact Hok.
Qed.

Lemma svc_entry_latch c ret vec c' :
  (vec, c') = take_exception c ARM_VEC_SWI ARM_MODE_SVC ret false →
  abort_pending c' = abort_pending c.
Proof.
  rewrite take_exception_eq by done. intros [= -> ->].
  by destruct (set_mode_frame c ARM_MODE_SVC) as (_ & _ & _ & _ & Hab & _).
Qed.

(** ** Thumb *)

Lemma step_thumb_ok m0 m pc f : reached m0 m → uint 32 pc → step_ok m0 (step_thumb m pc f).
Proof.
  intros [He Hl] Hpc Hw Hp. revert Hw Hp. unfold step_thumb.
  destruct (fetch_insn_ok 2 m f) as [Hi Hc]; [by left |].
  destruct (fetch_insn 2 m f) as [tinsn m1]. cbn [fst snd] in *.
  set (m2 := on_cpu count_cycle m1).
  assert (reached m0 m2) as [He2 Hl2].
  { unfold m2, reached. cbn. rewrite Hc. split; [by apply ev_cycles; [apply uint_w64 |] | exact Hl]. }
  intros Hw Hp. pose proof (evolves_wf _ _ He2 Hw) as Hw2. revert Hw Hp.
  destruct (thumb_good m2 pc tinsn (pc +w 2) Hw2 (uint_w32 _)) as [[Hg Hn] | (ret & Hret & Hst & Ht)];
    destruct (thumb_step m2 pc tinsn (pc +w 2)) as [[st nx] m3]; cbn [fst snd] in *.
  - assert (evolves (cpu m0) (cpu m3)) as He3 by (by etrans).
    case_match; [by apply step_halt |]. case_match eqn:Ea; [by apply step_abort |].
    case_match; [| by apply step_stop]. apply step_retire; [done |]. intros _. by apply Hn.
  - subst st. pose proof (svc_entry_latch _ _ _ _ Ht) as Hab. case_match; [done |].
    intros Hw Hp. rewrite Hab, (Hl2 Hp). case_match; [| done].
    revert Hw Hp. exact (retire_enter m0 m2 ret nx (cpu m3) (conj He2 Hl2) Hret (eq_sym Ht)).
Qed.

(** ** The unconditional space *)

Section Uncond.
Context (m0 m : mach B) (Hr : reached m0 m) (pc insn next : Z).
Hypothesis (Hpc : uint 32 pc) (Hnext : uint 32 next).

Lemma cps_ok : step_ok m0 (uncond_cps m insn next).
Proof.
  destruct Hr as [He Hl]. unfold uncond_cps. case_match eqn:Ep; [by apply step_retire |].
  apply negb_false_iff in Ep. case_match; [by apply step_stop |].
  set (c1 := if bit (fld insn 18 3) 1 then _ else cpu m).
  assert (evolves (cpu m0) c1 ∧ cpu_is_priv c1 = true ∧ abort_pending c1 = abort_pending (cpu m))
    as (He1 & Hp1 & Ha1).
  { subst c1. case_match; [| done].
    destruct (cps_mask_ev (cpu m0) (cpu m) (bit insn 8) (bit insn 7) (bit insn 6)
      (bit (fld insn 18 3) 0) Ep He) as [He1 Hp1].
    split_and?; [done | done |]. unfold cps_mask. by repeat case_match. }
  apply step_retire; [| done]. split; cbn.
  - case_match; [by apply ev_set_mode | done].
  - intros Hp. case_match; [| by rewrite Ha1, (Hl Hp)].
    destruct (set_mode_frame c1 (insn .& ARM_CPSR_MODE_MASK)) as (_ & _ & _ & _ & Hab & _).
    by rewrite Hab, Ha1, (Hl Hp).
Qed.

Lemma blx_ok : step_ok m0 (uncond_blx m pc insn).
Proof.
  destruct Hr as [He Hl]. unfold uncond_blx. apply step_retire.
  - split; [cbn [cpu set_cpu]; ev | exact Hl].
  - intros _. apply uint_land_l; [lia | apply uint_w32].
Qed.

Lemma uint_srs_base sp P U : uint 32 sp → uint 32 (srs_base sp P U).
Proof. intros. unfold srs_base. destruct U, P; done || apply uint_w32. Qed.

Lemma banked_sp_uint c b : wf c → uint 32 (banked_sp c b).
Proof. intros [Hw _]. unfold banked_sp. case_match; apply Hw. Qed.

Lemma set_banked_sp_ev c0 c b v : evolves c0 c → cpu_is_priv c = true → uint 32 v →
  evolves c0 (set_banked_sp b v c).
Proof.
  intros He Hp Hv. unfold set_banked_sp. case_match; [by apply ev_reg |]. by apply ev_bank_sp.
Qed.

Lemma step_assume res : (wf (cpu m0) → abort_pending (cpu m0) = false → step_ok m0 res) → step_ok m0 res.
Proof. intros Hs Hw Hp. by apply Hs. Qed.

(** Two words through an access each, any abort entered at once. *)
Lemma ev_accesses m1 m2 : evolves (cpu m0) (cpu m1) → accesses m1 m2 → evolves (cpu m0) (cpu m2).
Proof. intros He Ha. etrans; [exact He | by apply accesses_evolves]. Qed.

Lemma srs_ok : step_ok m0 (uncond_srs m pc insn next).
Proof.
  destruct Hr as [He Hl]. apply step_assume. intros Hw Hp. pose proof (evolves_wf _ _ He Hw) as Hw'.
  unfold uncond_srs. case_match eqn:Em; [by apply step_stop |]. case_match; [by apply step_stop |].
  apply orb_false_iff in Em as [Eu _].
  set (tb := arm_bank_of_mode (insn .& ARM_CPSR_MODE_MASK)). set (sp := banked_sp (cpu m) tb).
  pose proof (banked_sp_uint (cpu m) tb Hw') as Hsp.
  pose proof (prepare_accesses m (srs_base sp (bit insn 24) (bit insn 23)) 4 true
    (uint_srs_base _ _ _ Hsp)) as Hprep.
  destruct (prepare_multiword_address _ _ _ _) as [[base |] c], Hprep as [Ha1 Hbase].
  2: { apply step_abort; [by eapply ev_accesses | done]. }
  specialize (Hbase base eq_refl). set (m1 := set_cpu c m) in *. clearbody m1.
  set (m2 := mem_w32 m1 base (r (cpu m1) 14)).
  assert (accesses m m2) as Ha2 by (etrans; [exact Ha1 | by apply write_accesses]).
  case_match; [apply step_abort; [by eapply ev_accesses | done] |].
  set (m3 := mem_w32 m2 (base +w 4) _).
  assert (accesses m m3) as Ha3 by (etrans; [exact Ha2 | apply write_accesses, uint_w32]).
  case_match eqn:Ep3; [apply step_abort; [by eapply ev_accesses | done] |].
  assert (evolves (cpu m0) (cpu m3)) as He3 by (by eapply ev_accesses).
  case_match; [| by apply step_retire].
  apply step_retire; [| done]. split.
  - cbn. apply set_banked_sp_ev; [done | | unfold srs_writeback; case_match; apply uint_w32].
    rewrite (quiet_priv (accesses_quiet _ _ Ha3 Hw')). unfold cpu_is_priv. by rewrite Eu.
  - intros _. cbn. unfold set_banked_sp. by case_match.
Qed.

Lemma rfe_ok : step_ok m0 (uncond_rfe m pc insn).
Proof.
  destruct Hr as [He Hl]. apply step_assume. intros Hw Hp. pose proof (evolves_wf _ _ He Hw) as Hw'.
  unfold uncond_rfe. case_match eqn:Em; [by apply step_stop |]. case_match; [by apply step_stop |].
  apply negb_false_iff in Em. set (rn := fld insn 16 15).
  pose proof (prepare_accesses m (srs_base (r (cpu m) rn) (bit insn 24) (bit insn 23)) 4 false
    (uint_srs_base _ _ _ (wf_reg _ rn Hw'))) as Hprep.
  destruct (prepare_multiword_address _ _ _ _) as [[base |] c], Hprep as [Ha1 Hbase].
  2: { apply step_abort; [by eapply ev_accesses | done]. }
  specialize (Hbase base eq_refl). set (m1 := set_cpu c m) in *. clearbody m1.
  unfold mem_r32, mem_read.
  pose proof (read_accesses 4 m1 base (cpu_is_priv (cpu m1)) Hbase) as Ha2.
  pose proof (read_word 4 m1 base (cpu_is_priv (cpu m1)) ltac:(auto)) as Hpc'.
  destruct (mem_read_as 4 m1 _ _) as [new_pc m2]. cbn [fst snd] in *.
  assert (accesses m m2) as Hm2 by (by etrans).
  case_match; [apply step_abort; [by eapply ev_accesses | done] |].
  pose proof (read_accesses 4 m2 (base +w 4) (cpu_is_priv (cpu m2)) (uint_w32 _)) as Ha3.
  pose proof (read_word 4 m2 (base +w 4) (cpu_is_priv (cpu m2)) ltac:(auto)) as Hps.
  destruct (mem_read_as 4 m2 _ _) as [new_cpsr m3]. cbn [fst snd] in *.
  assert (accesses m m3) as Hm3 by (by etrans).
  assert (evolves (cpu m0) (cpu m3)) as He3 by (by eapply ev_accesses).
  case_match eqn:Ep3; [by apply step_abort |].
  assert (reached m0 m3) as Hr3 by done.
  case_match eqn:Ev; [by apply step_stop |]. case_match; [by apply step_stop |].
  apply negb_false_iff in Ev. set (c4 := if bit insn 21 then _ else cpu m3).
  assert (evolves (cpu m0) c4 ∧ cpu_is_priv c4 = true ∧ abort_pending c4 = false) as (He4 & Hp4 & Ha4).
  { pose proof (quiet_priv (accesses_quiet _ _ Hm3 Hw')) as Hq. rewrite Em in Hq.
    subst c4. case_match; split_and?; try done.
    apply ev_reg; [done |]. intros. unfold srs_writeback. case_match; apply uint_w32. }
  apply step_retire; [split; cbn |].
  - by apply ev_restore.
  - intros _. unfold restore_psr. destruct (set_mode_frame c4 new_cpsr) as (_ & _ & _ & _ & Hab & _).
    cbn. by rewrite Hab.
  - intros _. by apply uint_return_align.
Qed.

Lemma unconditional_ok : step_ok m0 (unconditional m pc insn next).
Proof.
  unfold unconditional. case_match.
  { apply step_retire; [| done]. split; [cbn; apply ev_excl_valid, Hr | apply Hr]. }
  case_match; [by apply step_retire |]. case_match; [apply cps_ok |].
  case_match; [apply blx_ok |]. case_match; [apply srs_ok |]. case_match; [apply rfe_ok |].
  case_match; [case_match; [by apply step_stop | by apply step_retire] |].
  by apply step_undefined.
Qed.

End Uncond.

(** ** ARM state and the whole step *)

Lemma step_arm_ok m0 m pc f : reached m0 m → uint 32 pc → step_ok m0 (step_arm m pc f).
Proof.
  intros [He Hl] Hpc. apply step_assume. intros Hw Hp. unfold step_arm.
  destruct (fetch_insn_ok 4 m f) as [Hi Hc]; [by right |].
  destruct (fetch_insn 4 m f) as [insn m1]. cbn [fst snd] in *.
  set (m2 := on_cpu count_cycle m1).
  assert (reached m0 m2) as Hr2.
  { unfold m2, reached. cbn. rewrite Hc. split; [by apply ev_cycles; [apply uint_w64 |] | exact Hl]. }
  clearbody m2. pose proof (evolves_wf _ _ (proj1 Hr2) Hw) as Hw2.
  case_match; [apply unconditional_ok; [done | done | apply uint_w32] |].
  case_match; [apply step_retire; [done | intros; apply uint_w32] |].
  destruct (is_svc insn) eqn:Es.
  - rewrite dispatch_svc by done.
    pose proof (svc_step m0 m2 pc insn (pc +w 4) (pc +w 4) Hr2 (uint_w32 _) (uint_w32 _) Hw Hp) as Hs.
    destruct (exec_svc _ _ _ _ _) as [[st nx] m3]. destruct Hs as (Ha & Hh & Hok & [-> | ->]).
    + by apply Hh.
    + cbn [andb bool_decide]. unfold finish_arm. rewrite Ha. by apply Hok.
  - assert (good_m m2 (dispatch m2 pc insn (pc +w 4))) as [Hg Hn].
    { apply dispatch_good; auto using uint_w32. }
    destruct (dispatch _ _ _ _) as [[st nx] m3]. cbn [fst snd] in *. cbn [andb].
    apply finish_good; [etrans; [apply Hr2 | done] | done | intros _; by apply Hn].
Qed.

Lemma arm_step_ok m : step_ok m (arm_step m).
Proof.
  apply step_assume. intros Hw Hp. unfold arm_step. pose proof (wf_reg (cpu m) 15 Hw) as Hpc.
  set (pc := r (cpu m) 15) in *. destruct Hw as [Hww Hv]. rewrite Hv. cbn [negb].
  assert (wf (cpu m)) as Hw by done.
  case_match; [apply (step_trap m (on_cpu count_cycle m)); [apply reached_count |];
    intros _; apply trap_fiq, uint_w32 |].
  case_match; [apply (step_trap m (on_cpu count_cycle m)); [apply reached_count |];
    intros _; apply trap_irq, uint_w32 |].
  destruct (fetch_ok m pc Hw) as (Hr & Hf & Hq). destruct (fetch m pc) as [f m1]. cbn [fst snd] in *.
  destruct f as [fsr | p | pa].
  - apply (step_trap m (on_cpu count_cycle m1)).
    + destruct Hr. split; [by apply ev_cycles; [apply uint_w64 |] | done].
    + intros _. by apply (trap_prefetch (count_cycle (cpu m1)) fsr pc); [| | apply uint_w32].
  - case_match; [by apply step_arm_ok | by apply step_thumb_ok].
  - case_match; [by apply step_arm_ok | by apply step_thumb_ok].
Qed.

End Shape.

(** ** What every step preserves *)

Lemma trap_wf c c' : trap c c' → wf c → wf c'.
Proof.
  intros Ht Hw.
  destruct (trap_enter c c' Ht Hw) as (c1 & vec & mode & ret & mf & Hr & Hret & Hin & -> & _).
  destruct Hr as (p & q & Hp & _ & -> & _).
  apply (enter_spec (set_abort_pending q (set_cp15 p c)) vec mode ret mf Hin); [| done].
  destruct Hw as [[] _]. by split.
Qed.

(** C4: Every step of the core, from any well-formed core with an empty abort latch and
    over any bus, leaves a well-formed core: each register, banked register, status
    register and CP15 register still fits its 32-bit type, the cycle counter its 64 bits,
    and so does every tag, address, generation, stamp and event counter of the TLB and the
    block caches; the mode field of the CPSR still names one of the seven modes; and
    (unless the host service stopped the machine) no data abort is left latched. *)
Theorem step_preserves_wf {B} `{Bus B, !BusRanges B, HostFpu, !HostFpuOk, !SvcSafe B}
    (m m' : mach B) st :
  wf (cpu m) → abort_pending (cpu m) = false → arm_step m = (st, m') →
  wf (cpu m') ∧ (st ≠ ARM_HALT → abort_pending (cpu m') = false).
Proof.
  intros Hw Hp E. destruct (arm_step_ok m Hw Hp) as [Hs Ha]. rewrite E in *. cbn [fst snd] in *.
  split; [| exact Ha]. destruct Hs as [Hs | (c1 & Hs & Ht)]; [by eapply micros_wf |].
  eapply trap_wf; [exact Ht |]. by eapply micros_wf.
Qed.

(** A register only privileged modes see: a banked copy that is not the User one. *)
Definition privileged_reg (b : arm_bank) (i : Z) : Prop :=
  b ≠ ARM_BANK_USR ∧ (i = 13 ∨ i = 14 ∨ (b = ARM_BANK_FIQ ∧ 8 <= i <= 12)).

Lemma confined_view c c' b i : confined c c' → mode_of c = ARM_MODE_USR → privileged_reg b i →
  reg_view c' b i = reg_view c b i.
Proof.
  intros Hc Hu [Hb Hi]. pose proof (confined_mode _ _ Hc) as Hm. rewrite Hu in Hm.
  pose proof (user_bank_of_mode c Hu) as E. pose proof (user_bank_of_mode c' Hm) as E'.
  destruct Hc as [_ _ [H13 H14] [Hf _] _ _ _ _]. unfold reg_view. cbv zeta. rewrite E, E'.
  assert (bank_eqb b ARM_BANK_USR = false) as -> by (by destruct (bank_eqb_spec b ARM_BANK_USR)).
  destruct Hi as [-> | [-> | [-> Hi]]]; [by rewrite H13 | by rewrite H14 |].
  replace (i =? 13) with false by lia. replace (i =? 14) with false by lia.
  replace (8 <=? i) with true by lia. replace (i <=? 12) with true by lia. cbn. by rewrite Hf.
Qed.

(** C5: A program in User mode is confined.  One step either leaves the core in User
    mode with every privileged register, saved status register, mask bit, interrupt
    line and CP15 register (but its own thread register) as it was, or enters an
    exception: the core continues at the vector of that exception, in the mode the
    vector table gives it, with interrupts masked, with a User-mode status register
    saved, and with all other privileged registers (the new mode's link register
    apart) and CP15 (the fault registers apart) unchanged. *)
Theorem user_confinement {B} `{Bus B, !BusRanges B, HostFpu, !HostFpuOk, !SvcSafe B}
    (m m' : mach B) st :
  wf (cpu m) → abort_pending (cpu m) = false → mode_of (cpu m) = ARM_MODE_USR →
  arm_step m = (st, m') →
  let c := cpu m in
  let c' := cpu m' in
  confined c c' ∨
  ∃ vec mode, (vec, mode) ∈ vector_table ∧
    mode_of c' = mode ∧
    r c' 15 = (if negb ((sctlr (cp15 c) .& ARM_SCTLR_V) =? 0) then 0xffff0000 else 0) +w vec ∧
    bit (cpsr c') 7 = true ∧
    spsr c' (arm_bank_of_mode mode) .& psr_protected = cpsr c .& psr_protected ∧
    (∀ b, b ≠ arm_bank_of_mode mode → spsr c' b = spsr c b) ∧
    (∀ b i, privileged_reg b i → (b, i) ≠ (arm_bank_of_mode mode, 14) →
      reg_view c' b i = reg_view c b i) ∧
    set_tpidrurw 0 (fault_frame (cp15 c')) = set_tpidrurw 0 (fault_frame (cp15 c)).
Proof.
  intros Hw Hp Hu E c c'. destruct (arm_step_ok m Hw Hp) as [Hs _]. rewrite E in Hs. cbn [snd] in Hs.
  destruct Hs as [Hs | (c1 & Hs & Ht)]; [left; by apply micros_confined | right].
  pose proof (micros_confined _ _ Hs Hu) as Hc. pose proof (micros_wf _ _ Hs Hw) as Hw1.
  destruct (trap_enter c1 c' Ht Hw1) as (c2 & vec & mode & ret & mf & Hr & Hret & Hin & Ec & _).
  destruct Hr as (p & q & Hpok & Hfr & -> & _).
  set (c2 := set_abort_pending q (set_cp15 p c1)) in *.
  assert (widths c2) as Hw2 by (destruct Hw1 as [[] _]; by split).
  destruct (enter_spec c2 vec mode ret mf Hin Hw2 Hret)
    as (_ & Hm & H7 & H15 & Hsp & Hso & Hv & Hcp & _).
  rewrite <- Ec in *. exists vec, mode. split_and?; try done.
  - assert (sctlr p = sctlr (cp15 c)) as Es.
    { transitivity (sctlr (cp15 c1)); [exact (f_equal sctlr Hfr) |].
      exact (f_equal sctlr (cf_cp15 _ _ Hc)). }
    rewrite H15. change (cp15 c2) with p. by rewrite Es.
  - rewrite Hsp. exact (cf_psr _ _ Hc).
  - intros b Hb. rewrite (Hso b Hb). change (spsr c2) with (spsr c1). by rewrite (cf_spsr _ _ Hc).
  - intros b i Hpr Hbi. rewrite Hv; [| destruct Hpr as [_ [-> | [-> | [_ ?]]]]; lia | done].
    change (reg_view c2 b i) with (reg_view c1 b i). by apply confined_view.
  - rewrite Hcp. change (cp15 c2) with p. rewrite Hfr.
    exact (f_equal fault_frame (cf_cp15 _ _ Hc)).
Qed.

(** ** A concrete machine *)

Lemma flat_svc_safe : SvcSafe flat_ram.
Proof. intros b h c pc e res c' b' E. done. Qed.

(** User mode at address 0, about to execute [SVC #0]. *)
Definition user_ram : flat_ram := FlatRam 0x1000 (fun a => if a =? 3 then 0xef else 0).

Definition user_cpu : arm_cpu := set_r (fun _ => 0) (set_cpsr 0x10 flat_cpu).

Definition user_mach : mach flat_ram := Mach user_cpu user_ram.

Lemma user_wf : wf user_cpu.
Proof. split; [| done]. split; intros; by split. Qed.

Lemma step_preserves_wf_witness :
  fst (@arm_step _ _ x86_host user_mach) = ARM_OK ∧
  wf (cpu (snd (@arm_step _ _ x86_host user_mach))).
Proof.
  split; [vm_compute; reflexivity |].
  destruct (@arm_step _ _ x86_host user_mach) as [st m'] eqn:E.
  exact (proj1 (@step_preserves_wf _ _ _ x86_host x86_host_ok flat_svc_safe user_mach m' st
    user_wf eq_refl E)).
Defined.

Lemma user_confinement_witness :
  mode_of (cpu (snd (@arm_step _ _ x86_host user_mach))) = ARM_MODE_SVC ∧
  (confined user_cpu (cpu (snd (@arm_step _ _ x86_host user_mach))) ∨
   ∃ vec mode, (vec, mode) ∈ vector_table ∧
     mode_of (cpu (snd (@arm_step _ _ x86_host user_mach))) = mode).
Proof.
  split; [vm_compute; reflexivity |].
  destruct (@arm_step _ _ x86_host user_mach) as [st m'] eqn:E.
  destruct (@user_confinement _ _ _ x86_host x86_host_ok flat_svc_safe user_mach m' st
    user_wf eq_refl eq_refl E) as [Hc | (vec & mode & Hin & Hm & _)]; [by left |].
  right. by exists vec, mode.
Defined.
