(* ===== verification/AbortFacts.v ===== *)
(** * The base-restored abort model

    A transfer that aborts must be restartable: the handler fixes the mapping and
    executes the instruction again, which is only right if the first attempt has
    changed no register.  Stated for the ARM transfer groups of ExecXfer.v and the
    multi-register transfers of Thumb.v. *)

From stdpp Require Import relations.
From S2P Require Import Prelude State Cpu CpuFacts Bus Mmu MemAccess Alu AluFacts ExecDp ExecXfer.
From S2P Require Import ExecCp Sync Thumb Step Footprint FootExec FootMem FootXfer StepFacts.

(** An instruction that ends with an abort latched has only touched the caches and the
    latch, and retires nothing. *)
Definition restored {B} (m : mach B) (next : Z) (o : @moutcome B) : Prop :=
  abort_pending (cpu (snd o)) = true →
  fst (fst o) = ARM_OK ∧ snd (fst o) = next ∧ quiet (cpu m) (cpu (snd o)).

Section Abort.
Context {B : Type} `{Bus B}.
Implicit Types m : mach B.

Lemma restored_committed m next st next' m' :
  abort_pending (cpu m') = false → restored m next (st, next', m').
Proof. intros Ha Hp. cbn in Hp. congruence. Qed.

Lemma restored_access m next m' : wf (cpu m) → accesses m m' → restored m next (ARM_OK, next, m').
Proof. intros Hw Ha _. split_and?; [done | done | by apply Ha]. Qed.

(** ** What keeps the latch *)

Lemma single_writeback_latch c insn b o a :
  abort_pending (single_writeback c insn b o a) = abort_pending c.
Proof. unfold single_writeback. by repeat case_match. Qed.

Lemma extra_writeback_latch c insn b o a :
  abort_pending (extra_writeback c insn b o a) = abort_pending c.
Proof. unfold extra_writeback. by repeat case_match. Qed.

Lemma restore_psr_latch c s : abort_pending (restore_psr c s) = abort_pending c.
Proof. unfold restore_psr. by destruct (set_mode_frame c s) as (_ & _ & _ & _ & Hab & _). Qed.

Lemma write_user_latch c i v : abort_pending (reg_write_user c i v) = abort_pending c.
Proof. unfold reg_write_user. by repeat case_match. Qed.

Lemma block_finish_latch c insn next wb loaded :
  abort_pending (snd (block_finish c insn next wb loaded)) = abort_pending c.
Proof.
  unfold block_finish. set (st := if bit insn 20 then _ else _).
  assert (abort_pending (snd st) = abort_pending c) as Hst.
  { subst st. case_match; [| done].
    apply (for_range_inv (fun st => abort_pending (snd st) = abort_pending c)); [| done].
    intros i [nx c'] _ Hc. unfold block_commit. repeat case_match; cbn [snd] in *; try done.
    by rewrite write_user_latch. }
  destruct st as [nx c1]. cbn [snd] in Hst.
  set (c2 := if _ && _ then set_reg _ _ c1 else c1).
  assert (abort_pending c2 = abort_pending c) as Hc2 by (subst c2; by case_match).
  case_match; [| done]. cbn [snd]. by rewrite restore_psr_latch.
Qed.

Lemma commit_low_latch list loaded c : abort_pending (commit_low list loaded c) = abort_pending c.
Proof.
  unfold commit_low. apply (for_range_inv (fun x => abort_pending x = abort_pending c)); [| done].
  intros i x _ Hx. by case_match.
Qed.

Lemma prepare_latch c va al w va' c' :
  prepare_multiword_address c va al w = (Some va', c') → c' = c.
Proof. unfold prepare_multiword_address. repeat case_match; intros [=]; congruence. Qed.

Lemma load_list_latch k : ∀ i list m addr loaded x m',
  load_list k i list m addr loaded = (Some x, m') →
  abort_pending (cpu m) = false → abort_pending (cpu m') = false.
Proof.
  induction k as [| k IH]; intros i list m addr loaded x m' E Hp; cbn [load_list] in E.
  { by simplify_eq. }
  case_match; [| by eapply IH]. destruct (mem_r32 m addr) as [v m1]. case_match; [done |].
  by eapply IH.
Qed.

Lemma store_list_latch k : ∀ i list value m addr x m',
  store_list k i list value m addr = (Some x, m') →
  abort_pending (cpu m) = false → abort_pending (cpu m') = false.
Proof.
  induction k as [| k IH]; intros i list value m addr x m' E Hp; cbn [store_list] in E.
  { by simplify_eq. }
  case_match; [| by eapply IH]. case_match; [done |]. by eapply IH.
Qed.

(** ** The ARM transfers *)

Section Insn.
Context (m : mach B) (pc insn next : Z) (Hw : wf (cpu m)) (Hp : abort_pending (cpu m) = false).

Lemma single_restored : restored m next (exec_single_transfer m pc insn next).
Proof.
  unfold exec_single_transfer. case_match; [by apply restored_committed |].
  set (offset := single_offset _ _ _). set (base := reg_read (cpu m) pc _).
  set (addr := if bit insn 24 then _ else _). set (priv := if _ && _ then false else _).
  assert (uint 32 addr) as Haddr.
  { subst addr. apply uint_if; [apply uint_indexed | by apply wf_reg_read]. }
  destruct (bit insn 20).
  - case_match.
    { case_match; [| by apply restored_committed].
      apply restored_access; [done | by apply accesses_alignment]. }
    set (n := if bit insn 22 then 1 else 4). pose proof (read_accesses n m addr priv Haddr) as Ha.
    destruct (mem_read_as _ _ _ _) as [v m']. cbn [snd] in Ha.
    case_match eqn:Ep; [by apply restored_access |]. case_match; [by apply restored_committed |].
    destruct (fld insn 12 15 =? 15); [destruct (interwork _ _) as [nx c'] eqn:Ei |];
      apply restored_committed; cbn; rewrite single_writeback_latch; [| done].
    unfold interwork in Ei. by simplify_eq.
  - set (m' := mem_write_as _ _ _ _ _). assert (accesses m m') as Ha by (by apply write_accesses).
    case_match eqn:Ep; [by apply restored_access |].
    apply restored_committed. cbn. by rewrite single_writeback_latch.
Qed.

Lemma doubleword_restored rd addr store : uint 32 addr →
  let '(fin, m') := doubleword_transfer m pc rd addr store in
  if fin then abort_pending (cpu m') = false else accesses m m'.
Proof.
  intros Haddr. unfold doubleword_transfer.
  pose proof (prepare_accesses m addr 4 store Haddr) as Hprep.
  destruct (prepare_multiword_address _ _ _ _) as [[xfer |] c] eqn:E, Hprep as [Ha1 Hx]; [| done].
  specialize (Hx xfer eq_refl). set (m1 := set_cpu c m) in *. clearbody m1. destruct store.
  - set (m2 := mem_w32 m1 xfer _).
    assert (accesses m m2) as Ha2 by (etrans; [exact Ha1 | by apply write_accesses]).
    destruct (abort_pending (cpu m2)); [done |].
    set (m3 := mem_w32 m2 _ _).
    assert (accesses m m3) as Ha3 by (etrans; [exact Ha2 | apply write_accesses, uint_w32]).
    by destruct (abort_pending (cpu m3)) eqn:E3.
  - unfold mem_r32, mem_read.
    pose proof (read_accesses 4 m1 xfer (cpu_is_priv (cpu m1)) Hx) as Hr1.
    destruct (mem_read_as _ _ _ _) as [lo m2]. cbn [snd] in Hr1.
    assert (accesses m m2) as Ha2 by (by etrans).
    destruct (abort_pending (cpu m2)); [done |].
    pose proof (read_accesses 4 m2 (xfer +w 4) (cpu_is_priv (cpu m2)) (uint_w32 _)) as Hr2.
    destruct (mem_read_as _ _ _ _) as [hi m3]. cbn [snd] in Hr2.
    assert (accesses m m3) as Ha3 by (by etrans).
    by destruct (abort_pending (cpu m3)) eqn:E3.
Qed.

Lemma extra_load_accesses sh addr : uint 32 addr → accesses m (snd (extra_load m sh addr)).
Proof.
  intros Haddr. unfold extra_load, mem_r16, mem_r8, mem_read.
  pose proof (read_accesses 2 m addr (cpu_is_priv (cpu m)) Haddr) as H2.
  pose proof (read_accesses 1 m addr (cpu_is_priv (cpu m)) Haddr) as H1.
  destruct (mem_read_as 2 _ _ _), (mem_read_as 1 _ _ _). by repeat case_match; simplify_eq.
Qed.

Lemma extra_load_none sh addr m' : extra_load m sh addr = (None, m') → m' = m.
Proof.
  unfold extra_load. destruct (mem_r16 m addr), (mem_r8 m addr).
  by repeat case_match; intros [=].
Qed.

Lemma extra_restored : restored m next (exec_extra_transfer m pc insn next).
Proof.
  unfold exec_extra_transfer. case_match; [by apply restored_committed |].
  set (offset := if bit insn 22 then _ else _). set (base := reg_read (cpu m) pc _).
  set (addr := if bit insn 24 then _ else _).
  assert (uint 32 addr) as Haddr.
  { subst addr. apply uint_if; [apply uint_indexed | by apply wf_reg_read]. }
  case_match; [by apply restored_committed |]. case_match.
  { pose proof (doubleword_restored (fld insn 12 15) addr (fld insn 5 3 =? 3) Haddr) as Hd.
    destruct (doubleword_transfer _ _ _ _ _) as [[] m']; [| by apply restored_access].
    apply restored_committed. cbn. by rewrite extra_writeback_latch. }
  case_match.
  - pose proof (extra_load_accesses (fld insn 5 3) addr Haddr) as Ha.
    destruct (extra_load _ _ _) as [[v |] m'] eqn:El; cbn [snd] in Ha.
    + case_match eqn:Ep; [by apply restored_access |].
      apply restored_committed. cbn. by rewrite extra_writeback_latch.
    + apply extra_load_none in El as ->. by apply restored_committed.
  - set (m' := mem_w16 _ _ _). assert (accesses m m') as Ha by (by apply write_accesses).
    case_match eqn:Ep; [by apply restored_access |].
    apply restored_committed. cbn. by rewrite extra_writeback_latch.
Qed.

Lemma block_restored : restored m next (exec_block_transfer m pc insn next).
Proof.
  unfold exec_block_transfer. case_match; [by apply restored_committed |].
  destruct (block_addresses_uint (reg_read (cpu m) pc (fld insn 16 15))
    (count_list 16 (insn .& 0xffff)) (bit insn 24) (bit insn 23)) as [Haddr _].
  { by apply wf_reg_read. }
  destruct (block_addresses _ _ _ _) as [addr wb]. cbn [fst snd] in *.
  pose proof (prepare_accesses m addr 4 (negb (bit insn 20)) Haddr) as Hprep.
  destruct (prepare_multiword_address _ _ _ _) as [[start |] c] eqn:E, Hprep as [Hm1 Hstart].
  2: { by apply restored_access. }
  specialize (Hstart start eq_refl). apply prepare_latch in E as ->.
  set (m1 := set_cpu (cpu m) m) in *. assert (abort_pending (cpu m1) = false) as Hp1 by done.
  clearbody m1. destruct (bit insn 20).
  - destruct (load_list_accesses 16 0 (insn .& 0xffff) m1 start (fun _ => 0)) as [Ha _];
      [done | by intros; split |].
    destruct (load_list _ _ _ _ _ _) as [[[a l] |] m2] eqn:El; cbn [fst snd] in *.
    2: { apply restored_access; [done | by etrans]. }
    pose proof (load_list_latch _ _ _ _ _ _ _ _ El Hp1) as Hp2.
    case_match; [by apply restored_committed |].
    pose proof (block_finish_latch (cpu m2) insn next wb l) as Hf.
    destruct (block_finish _ _ _ _ _) as [nx c']. apply restored_committed.
    change (abort_pending c' = false). cbn [snd] in Hf. by rewrite Hf.
  - destruct (store_list_accesses 16 0 (insn .& 0xffff) (block_value pc insn) m1 start) as [Ha _];
      [done |].
    destruct (store_list _ _ _ _ _ _) as [[a |] m2] eqn:El; cbn [fst snd] in *.
    2: { apply restored_access; [done | by etrans]. }
    pose proof (store_list_latch _ _ _ _ _ _ _ _ El Hp1) as Hp2.
    pose proof (block_finish_latch (cpu m2) insn next wb (fun _ => 0)) as Hf.
    destruct (block_finish _ _ _ _ _) as [nx c']. apply restored_committed.
    change (abort_pending c' = false). cbn [snd] in Hf. by rewrite Hf.
Qed.

(** ** Thumb's multi-register transfers *)

Lemma pop_restored : restored m next (thumb_pop m insn next).
Proof.
  unfold thumb_pop. pose proof (wf_reg (cpu m) 13 Hw) as Hsp.
  pose proof (prepare_accesses m (r (cpu m) 13) 4 false Hsp) as Hprep.
  destruct (prepare_multiword_address _ _ _ _) as [[start |] c] eqn:E, Hprep as [Hm1 Hstart].
  2: { by apply restored_access. }
  specialize (Hstart start eq_refl). apply prepare_latch in E as ->.
  set (m1 := set_cpu (cpu m) m) in *. assert (abort_pending (cpu m1) = false) as Hp1 by done.
  clearbody m1.
  destruct (load_list_accesses 8 0 (insn .& 0xff) m1 start (fun _ => 0)) as [Ha Hl];
    [done | by intros; split |].
  destruct (load_list _ _ _ _ _ _) as [[[addr loaded] |] m2] eqn:El; cbn [fst snd] in *.
  2: { apply restored_access; [done | by etrans]. }
  destruct (Hl addr loaded eq_refl) as [Haddr _]. assert (accesses m m2) as Hm2 by (by etrans).
  pose proof (load_list_latch _ _ _ _ _ _ _ _ El Hp1) as Hp2.
  set (rd := if bit insn 8 then _ else _).
  assert (accesses m (snd rd) ∧ (bit insn 8 = false → abort_pending (cpu (snd rd)) = false))
    as [Hm3 Hp3].
  { subst rd. case_match; [| by split]. split; [| done].
    etrans; [exact Hm2 | by apply read_accesses]. }
  destruct rd as [pcv m3]. cbn [fst snd] in *.
  destruct (bit insn 8 && abort_pending (cpu m3)) eqn:E3; [by apply restored_access |].
  assert (abort_pending (cpu m3) = false) as Hp3'.
  { destruct (bit insn 8); [exact E3 | by apply Hp3]. }
  case_match; [by apply restored_committed |].
  rewrite <- (commit_low_latch (insn .& 255) loaded) in Hp3'.
  case_match; apply restored_committed; cbn [cpu set_cpu]; [by case_match | done].
Qed.

Lemma push_restored : restored m next (thumb_push m insn next).
Proof.
  unfold thumb_push. set (new_sp := w32 _).
  pose proof (prepare_accesses m new_sp 4 true (uint_w32 _)) as Hprep.
  destruct (prepare_multiword_address _ _ _ _) as [[start |] c] eqn:E, Hprep as [Hm1 Hstart].
  2: { by apply restored_access. }
  specialize (Hstart start eq_refl). apply prepare_latch in E as ->.
  set (m1 := set_cpu (cpu m) m) in *. assert (abort_pending (cpu m1) = false) as Hp1 by done.
  clearbody m1.
  destruct (store_list_accesses 8 0 (insn .& 0xff) r m1 start) as [Ha Ha']; [done |].
  destruct (store_list _ _ _ _ _ _) as [[addr |] m2] eqn:El; cbn [fst snd] in *.
  2: { apply restored_access; [done | by etrans]. }
  specialize (Ha' addr eq_refl). assert (accesses m m2) as Hm2 by (by etrans).
  pose proof (store_list_latch _ _ _ _ _ _ _ _ El Hp1) as Hp2.
  set (m3 := if bit insn 8 then _ else m2). assert (accesses m m3) as Hm3.
  { subst m3. case_match; [| done]. etrans; [exact Hm2 | by apply write_accesses]. }
  assert (bit insn 8 = false → abort_pending (cpu m3) = false) as Hp3.
  { intros E8. subst m3. by rewrite E8. }
  destruct (bit insn 8 && abort_pending (cpu m3)) eqn:E3; [by apply restored_access |].
  apply restored_committed. cbn. destruct (bit insn 8); [exact E3 | by apply Hp3].
Qed.

Lemma multiple_restored : restored m next (thumb_multiple m insn next).
Proof.
  unfold thumb_multiple. do 2 (case_match; [by apply restored_committed |]).
  set (rb := fld insn 8 7). pose proof (wf_reg (cpu m) rb Hw) as Hb.
  pose proof (prepare_accesses m (r (cpu m) rb) 4 (negb (bit insn 11)) Hb) as Hprep.
  destruct (prepare_multiword_address _ _ _ _) as [[start |] c] eqn:E, Hprep as [Hm1 Hstart].
  2: { by apply restored_access. }
  specialize (Hstart start eq_refl). apply prepare_latch in E as ->.
  set (m1 := set_cpu (cpu m) m) in *. assert (abort_pending (cpu m1) = false) as Hp1 by done.
  clearbody m1. destruct (bit insn 11).
  - destruct (load_list_accesses 8 0 (insn .& 0xff) m1 start (fun _ => 0)) as [Ha _];
      [done | by intros; split |].
    destruct (load_list _ _ _ _ _ _) as [[[addr loaded] |] m2] eqn:El; cbn [fst snd] in *.
    2: { apply restored_access; [done | by etrans]. }
    apply restored_committed. pose proof (load_list_latch _ _ _ _ _ _ _ _ El Hp1) as Hp2.
    cbn [cpu set_cpu].
    transitivity (abort_pending (commit_low (insn .& 255) loaded (cpu m2)));
      [by destruct (negb (bit (insn .& 255) rb)) | by rewrite commit_low_latch].
  - destruct (store_list_accesses 8 0 (insn .& 0xff) r m1 start) as [Ha _]; [done |].
    destruct (store_list _ _ _ _ _ _) as [[addr |] m2] eqn:El; cbn [fst snd] in *.
    2: { apply restored_access; [done | by etrans]. }
    apply restored_committed. exact (store_list_latch _ _ _ _ _ _ _ _ El Hp1).
Qed.

End Insn.
End Abort.

(** C6: The base-restored abort model.  When a load or store of any of the ARM transfer
    groups (single, halfword and doubleword, multiple, the exception-returning and
    User-bank forms included) or a Thumb PUSH, POP, LDMIA or STMIA ends with an abort
    latched, it has changed nothing of the core but the host-side caches and the latch:
    no loaded register is committed, the base is not written back, the status register
    and the banks are untouched and the successor address is not redirected, so the
    handler can fix the mapping and execute the instruction again. *)
Theorem base_restored {B} `{Bus B} (m : mach B) pc insn next :
  wf (cpu m) → abort_pending (cpu m) = false →
  restored m next (exec_single_transfer m pc insn next) ∧
  restored m next (exec_extra_transfer m pc insn next) ∧
  restored m next (exec_block_transfer m pc insn next) ∧
  restored m next (thumb_pop m insn next) ∧
  restored m next (thumb_push m insn next) ∧
  restored m next (thumb_multiple m insn next).
Proof.
  intros Hw Hp. split_and?; [by apply single_restored | by apply extra_restored
    | by apply block_restored | by apply pop_restored | by apply push_restored
    | by apply multiple_restored].
Qed.

(** A machine with translation on and an empty first-level table: every access
    faults.  LDM r1!, {r0, r2} must leave r1 alone. *)
Definition unmapped_cpu : arm_cpu :=
  set_cp15 (set_sctlr ARM_SCTLR_M cp15_zero) (set_cpsr 0x13 user_cpu).

Lemma unmapped_wf : wf unmapped_cpu.
Proof. split; [| done]. split; intros; by split. Qed.

Lemma base_restored_witness :
  let m := Mach unmapped_cpu user_ram in
  let o := exec_block_transfer m 0 0xe8b10005 4 in
  abort_pending (cpu (snd o)) = true ∧ r (cpu (snd o)) 1 = 0.
Proof.
  intros m o. assert (abort_pending (cpu (snd o)) = true) as Ha by (vm_compute; reflexivity).
  split; [exact Ha |].
  destruct (base_restored m 0 0xe8b10005 4 unmapped_wf eq_refl) as (_ & _ & Hb & _).
  destruct (Hb Ha) as (_ & _ & Hq). exact (f_equal (fun f => f 1) (quiet_r Hq)).
Defined.
