(* ===== verification/DataCache.v ===== *)
(** * The data block caches are invisible

    The accessors of MemAccess.v keep two direct-mapped caches of host pointers beside
    the TLB, and a hit in them skips translation and the bus.  [dcache_sound] is the
    invariant that makes this right; [ref_read] and [ref_write] are the accesses
    without any cache.  The invariant is kept by every access that leaves the mapping
    alone and by every CP15 operation. *)

From S2P Require Import Prelude State Cpu CpuFacts Bus Mmu MemAccess Alu AluFacts ExecCp Footprint.

(** ** The two caches at once *)

Definition blks (w : bool) (k : mmu_cache) : Z → blk_entry := if w then dwrite k else dread k.
Definition set_blks (w : bool) (v : Z → blk_entry) (k : mmu_cache) : mmu_cache :=
  if w then set_dwrite v k else set_dread v k.
Definition blk_acc (w : bool) : arm_access := if w then ARM_ACCESS_WRITE else ARM_ACCESS_READ.

Definition blk_hit (w : bool) (k : mmu_cache) (va : Z) (priv : bool) : option Z :=
  blk_lookup (blks w k (dread_slot va priv)) (dread_tag va priv) (tlb_gen k).

(** Entries never carry a generation ahead of the live one. *)
Definition blk_gens (k : mmu_cache) : Prop :=
  ∀ w s h, be_host (blks w k s) = Some h → 0 <= be_gen (blks w k s) <= tlb_gen k.

(** A cache change that matters to the block caches. *)
Definition blks_kept (k k' : mmu_cache) : Prop :=
  dread k' = dread k ∧ dwrite k' = dwrite k ∧ tlb_gen k' = tlb_gen k.
Definition blks_dead (k : mmu_cache) : Prop := ∀ w va priv, blk_hit w k va priv = None.

Lemma blk_hit_kept w k k' va priv : blks_kept k k' → blk_hit w k' va priv = blk_hit w k va priv.
Proof. intros (H1 & H2 & H3). unfold blk_hit, blks. by rewrite H1, H2, H3. Qed.

Lemma blk_gens_kept k k' : blks_kept k k' → blk_gens k → blk_gens k'.
Proof. intros (H1 & H2 & H3) Hg w s h. unfold blks. rewrite H1, H2, H3. apply Hg. Qed.

Lemma hit_gen e tag gen h : blk_lookup e tag gen = Some h →
  be_host e = Some h ∧ be_tag e = tag ∧ be_gen e = gen.
Proof.
  unfold blk_lookup. destruct (be_host e); [| done].
  destruct (_ && _) eqn:E; [| done]. intros [= ->]. apply andb_true_iff in E as [E1 E2].
  by apply Z.eqb_eq in E1, E2.
Qed.

Lemma hit_fresh tag gen h : blk_lookup (MkBlk (Some h) tag gen) tag gen = Some h.
Proof. unfold blk_lookup. simpl. by rewrite !Z.eqb_refl. Qed.

(** A flush retires every block. *)
Lemma flush_blks c : tlb_gens_ok c → blk_gens (cache c) →
  blk_gens (cache (arm_mmu_tlb_flush c)) ∧ blks_dead (cache (arm_mmu_tlb_flush c)).
Proof.
  intros [Hg _] Hk. unfold arm_mmu_tlb_flush. simpl.
  destruct (Z.eqb_spec (tlb_gen (cache c) +w 1) 0) as [E | E].
  - split; [by intros [] s h |]. by intros [] va priv.
  - assert (tlb_gen (cache c) +w 1 = tlb_gen (cache c) + 1) as E'.
    { apply w32_small. destruct Hg. split; [lia |].
      destruct (decide (tlb_gen (cache c) = 2 ^ 32 - 1)) as [e | ?]; [| lia].
      rewrite e in E. by vm_compute in E. }
    split.
    + intros w s h Hh. specialize (Hk w s h). rewrite E'. destruct w; simpl in *; specialize (Hk Hh); lia.
    + intros w va priv. destruct (blk_hit _ _ _ _) as [h |] eqn:Eh; [| done].
      apply hit_gen in Eh as (Hh & _ & Hgen). specialize (Hk w (dread_slot va priv) h).
      destruct w; simpl in *; specialize (Hk Hh); lia.
Qed.

(** Synchronisation keeps the blocks or retires them all. *)
Lemma sync_blks c : tlb_gens_ok c → blk_gens (cache c) →
  blk_gens (cache (mmu_sync c)) ∧
  (blks_kept (cache c) (cache (mmu_sync c)) ∨ blks_dead (cache (mmu_sync c))).
Proof.
  intros Hg Hk. unfold mmu_sync.
  set (c0 := if tlb_gen (cache c) =? 0 then _ else c).
  assert (tlb_gens_ok c0 ∧ blk_gens (cache c0) ∧
    (blks_kept (cache c) (cache c0) ∨ blks_dead (cache c0))) as (Hg0 & Hk0 & Hc0).
  { subst c0. destruct (Z.eqb_spec (tlb_gen (cache c)) 0) as [E |]; [| by split_and?; [| | left]].
    split_and?.
    - destruct Hg as [_ Hg]. split; [by split |]. intros s. specialize (Hg s). simpl. lia.
    - intros w s h Hh. specialize (Hk w s h). destruct w; simpl in *; specialize (Hk Hh); lia.
    - right. intros w va priv. destruct (blk_hit _ _ _ _) as [h |] eqn:Eh; [| done].
      apply hit_gen in Eh as (Hh & _ & Hgen). specialize (Hk w (dread_slot va priv) h).
      destruct w; simpl in *; specialize (Hk Hh); lia. }
  destruct (negb _); [| done].
  destruct (flush_blks c0 Hg0 Hk0) as [Hf Hd]. cbn [cache set_cache]. split.
  - intros w s h Hh. by apply (Hf w s h); destruct w.
  - right. intros w va priv. specialize (Hd w va priv). by destruct w.
Qed.

(** ** Blocks and offsets *)

Lemma testbit_blk_mask i : 0 <= i →
  Z.testbit (wnot ARM_DREAD_BLK_MASK) i = (10 <=? i) && (i <? 32).
Proof.
  intros Hi. change ARM_DREAD_BLK_MASK with (mask 0 10). autorewrite with bitspec.
  destruct (Z.leb_spec 0 i), (Z.ltb_spec i (0 + 10)), (Z.leb_spec 10 i), (Z.ltb_spec i 32); lia || done.
Qed.

Lemma testbit_offset_mask i : 0 <= i → Z.testbit ARM_DREAD_BLK_MASK i = (i <? 10).
Proof.
  intros Hi. change ARM_DREAD_BLK_MASK with (mask 0 10). autorewrite with bitspec.
  destruct (Z.leb_spec 0 i), (Z.ltb_spec i (0 + 10)), (Z.ltb_spec i 10); lia || done.
Qed.

(** Compare block and offset patterns bit by bit. *)
Ltac block_bits :=
  let i := fresh "i" in let Hi := fresh "Hi" in
  apply Z.bits_inj'; intros i Hi; rewrite ?Z.land_spec, ?Z.lor_spec, ?Z.land_spec, ?Z.testbit_0_l;
  rewrite ?testbit_blk_mask, ?testbit_offset_mask by done;
  destruct (Z.ltb_spec i 10), (Z.leb_spec 10 i), (Z.ltb_spec i 32); try lia;
  repeat match goal with
         | H : uint 32 ?x |- context [Z.testbit ?x i] => rewrite (uint_high 32 x i H) by lia
         end;
  rewrite ?andb_false_r, ?andb_true_r, ?orb_false_r; done.

Lemma split_block va : uint 32 va →
  (va .& wnot ARM_DREAD_BLK_MASK) + (va .& ARM_DREAD_BLK_MASK) = va.
Proof.
  intros Hu. assert ((va .& wnot ARM_DREAD_BLK_MASK) .& (va .& ARM_DREAD_BLK_MASK) = 0) by block_bits.
  rewrite Z.add_nocarry_lxor, Z.lxor_lor by done. block_bits.
Qed.

Lemma rebase_parts pa va : uint 32 va →
  rebase pa va .& wnot ARM_DREAD_BLK_MASK = pa .& wnot ARM_DREAD_BLK_MASK ∧
  rebase pa va .& ARM_DREAD_BLK_MASK = va .& ARM_DREAD_BLK_MASK ∧ uint 32 (rebase pa va).
Proof.
  intros Hv. unfold rebase. change 0x3ff with ARM_DREAD_BLK_MASK. split_and?; [block_bits.. |].
  apply uint_lor; [lia | apply uint_land_r; [lia | by split] | apply uint_land_l; [lia | done]].
Qed.

Lemma dread_tag_inj va va' priv priv' : uint 32 va → uint 32 va' →
  dread_tag va priv = dread_tag va' priv' → same_block va va' ∧ priv = priv'.
Proof.
  intros Hv Hv' E. unfold dread_tag in E. split.
  - unfold same_block. apply Z.bits_inj'. intros i Hi. rewrite !Z.shiftr_spec by done.
    apply (f_equal (fun z => Z.testbit z (i + 10))) in E.
    rewrite !Z.lor_spec, !Z.land_spec, testbit_blk_mask in E by lia.
    assert (∀ p : bool, Z.testbit (if p then 1 else 0) (i + 10) = false) as Hp.
    { intros []; [apply (uint_high 1); [by split | lia | lia] | apply Z.testbit_0_l]. }
    rewrite !Hp, !orb_false_r in E. destruct (Z.ltb_spec (i + 10) 32).
    + replace (10 <=? i + 10) with true in E by lia. by rewrite !andb_true_r in E.
    + by rewrite (uint_high 32 va), (uint_high 32 va') by (done || lia).
  - apply (f_equal (fun z => Z.testbit z 0)) in E.
    rewrite !Z.lor_spec, !Z.land_spec, testbit_blk_mask, !andb_false_r in E by lia.
    by destruct priv, priv'.
Qed.

Section Sound.
Context {B : Type} `{Bus B, !BusRanges B, !HostRamCoherent B}.
Implicit Types m : mach B.

Definition grant (w : bool) (b : B) : option (Z → Z → option Z) :=
  if w then host_ram_write b else host_ram b.

(** Every block a lookup would hit is the block the walk reaches, granted by the bus. *)
Definition blk_sound (w : bool) m : Prop :=
  ∀ va priv h, uint 32 va → blk_hit w (cache (cpu m)) va priv = Some h →
    ∃ f pa, grant w (bus m) = Some f ∧ f (pa .& wnot ARM_DREAD_BLK_MASK) 0x400 = Some h ∧
      fst (mmu_walk (cpu m) (bus m) va (blk_acc w) priv None) = Phys pa.

Definition dcache_sound m : Prop :=
  tlb_sound m ∧ blk_gens (cache (cpu m)) ∧ ∀ w, blk_sound w m.

(** Two buses through which addresses mean the same. *)
Definition same_mapping (b b' : B) : Prop :=
  host_ram b' = host_ram b ∧ host_ram_write b' = host_ram_write b ∧
  ∀ c va acc priv, fst (mmu_walk c b' va acc priv None) = fst (mmu_walk c b va acc priv None).

Lemma sound_remap m b : dcache_sound m → same_mapping (bus m) b → dcache_sound (set_bus b m).
Proof.
  intros ([Hg Ht] & Hk & Hs) (H1 & H2 & H3). refine (conj (conj Hg _) (conj Hk _)).
  - intros Hn Hst va acc priv Hva Hl. rewrite H3. by apply Ht.
  - intros w va priv h Hva Hh. destruct (Hs w va priv h Hva Hh) as (f & pa & Hf & Hp & Hx).
    exists f, pa. split_and?; [| done | by rewrite H3]. unfold grant. cbn. by destruct w; rewrite ?H1, ?H2.
Qed.

(** A translation keeps the blocks or retires them. *)
Lemma translate_blks m va acc priv : tlb_gens_ok (cpu m) → blk_gens (cache (cpu m)) →
  let k' := cache (cpu (snd (arm_mmu_translate m va acc priv))) in
  blk_gens k' ∧ (blks_kept (cache (cpu m)) k' ∨ blks_dead k').
Proof.
  intros Hg Hk. unfold arm_mmu_translate. destruct (negb _); [by split; [| left] |].
  destruct (sync_blks (cpu m) Hg Hk) as [Hk' Hd]. destruct (_ && _); [exact (conj Hk' Hd) |].
  destruct (mmu_walk _ _ _ _ _ _). exact (conj Hk' Hd).
Qed.

Lemma translate_sound m va acc priv :
  dcache_sound m → reads_pure (bus m) → prepare_fetch (bus m) = None → uint 32 va →
  let '(x, m') := arm_mmu_translate m va acc priv in
  x = fst (mmu_walk (cpu m) (bus m) va acc priv None) ∧ bus m' = bus m ∧
  cpu m' = set_cache (cache (cpu m')) (cpu m) ∧ dcache_sound m'.
Proof.
  intros (Ht & Hk & Hs) Hp Hf Hva.
  pose proof (translate_refines m va acc priv Ht Hp Hf Hva) as Hr.
  pose proof (translate_blks m va acc priv (proj1 Ht) Hk) as Hb.
  destruct (arm_mmu_translate _ _ _ _) as [x m']. destruct Hr as (Hx & Hbus & Hc & Ht').
  cbn [snd] in Hb. destruct Hb as [Hk' Hkd].
  refine (conj Hx (conj Hbus (conj Hc (conj Ht' (conj Hk' _))))).
  intros w va' priv' h Hva' Hh. destruct Hkd as [Hkept | Hdead]; [| by rewrite Hdead in Hh].
  rewrite (blk_hit_kept w _ _ va' priv' Hkept) in Hh. rewrite Hbus, Hc.
  rewrite (cached_walk (cpu m)) by done. by apply Hs.
Qed.

(** What a granted walk tells about offsets. *)
Lemma walk_offset c b va acc priv pa : uint 32 va →
  fst (mmu_walk c b va acc priv None) = Phys pa →
  pa .& ARM_DREAD_BLK_MASK = va .& ARM_DREAD_BLK_MASK ∧ uint 32 pa.
Proof.
  intros Hva E. pose proof (mmu_walk_block va va Hva Hva eq_refl c b acc priv) as Hb.
  destruct (mmu_walk c b va acc priv None) as [x b']. cbn [fst] in E. subst x. injection Hb as Hpa.
  destruct (rebase_parts pa va Hva) as (_ & H1 & H2). by rewrite Hpa.
Qed.

Lemma walk_same_block c b va va' acc priv pa : uint 32 va → uint 32 va' → same_block va va' →
  fst (mmu_walk c b va acc priv None) = Phys pa →
  fst (mmu_walk c b va' acc priv None) = Phys (rebase pa va').
Proof.
  intros Hva Hva' Hb E. rewrite (mmu_walk_block va va') by done.
  destruct (mmu_walk c b va acc priv None) as [x b']. cbn [fst] in *. by subst x.
Qed.

(** ** Installing a block *)

Definition install (w : bool) (va : Z) (priv : bool) (blk : Z) (k : mmu_cache) : mmu_cache :=
  set_blks w (<[dread_slot va priv := MkBlk (Some blk) (dread_tag va priv) (tlb_gen k)]> (blks w k)) k.

Lemma install_frame w va priv blk k :
  tlb (install w va priv blk k) = tlb k ∧ tlb_gen (install w va priv blk k) = tlb_gen k ∧
  tlb_stamp (install w va priv blk k) = tlb_stamp k ∧
  blks (negb w) (install w va priv blk k) = blks (negb w) k ∧
  blks w (install w va priv blk k) =
    <[dread_slot va priv := MkBlk (Some blk) (dread_tag va priv) (tlb_gen k)]> (blks w k).
Proof. by destruct w. Qed.

Lemma install_sound w m va priv pa f blk : dcache_sound m → uint 32 va →
  fst (mmu_walk (cpu m) (bus m) va (blk_acc w) priv None) = Phys pa →
  grant w (bus m) = Some f → f (pa .& wnot ARM_DREAD_BLK_MASK) 0x400 = Some blk →
  dcache_sound (on_cpu (set_cache (install w va priv blk (cache (cpu m)))) m).
Proof.
  intros ([Hg Ht] & Hk & Hs) Hva Hx Hf Hblk.
  destruct (install_frame w va priv blk (cache (cpu m))) as (E1 & E2 & E3 & E4 & E5).
  set (k' := install _ _ _ _ _) in *.
  assert (∀ w', w' = w ∨ blks w' k' = blks w' (cache (cpu m))) as Hw'.
  { intros w'. destruct w, w'; auto. }
  refine (conj (conj _ _) (conj _ _)).
  - unfold tlb_gens_ok. cbn. by rewrite E1, E2.
  - intros Hn Hst va' acc priv' Hva' [Hl1 Hl2]. cbn in *. rewrite E1 in *. rewrite E2 in *.
    rewrite (mmu_walk_cp15 _ (cpu m)) by done. apply Ht; [done | | done | done].
    unfold mmu_stamp_matches in *. cbn in Hst. by rewrite E3 in Hst.
  - intros w' s h Hh. cbn in *. rewrite E2. destruct (Hw' w') as [-> | E]; [| rewrite E in *; by eapply Hk].
    rewrite E5 in *. destruct (decide (dread_slot va priv = s)) as [<- |].
    + rewrite fn_lookup_insert. simpl. destruct Hg as [[] _]. lia.
    + rewrite fn_lookup_insert_ne in * by done. by eapply Hk.
  - intros w' va' priv' h Hva' Hh. cbn in Hh |- *. rewrite (mmu_walk_cp15 _ (cpu m)) by done.
    unfold blk_hit in Hh. rewrite E2 in Hh.
    destruct (Hw' w') as [-> | E]; [| rewrite E in Hh; by apply Hs].
    rewrite E5 in Hh. destruct (decide (dread_slot va priv = dread_slot va' priv')) as [Es | Hne].
    2: { rewrite fn_lookup_insert_ne in Hh by done. by apply Hs. }
    rewrite Es, fn_lookup_insert in Hh.
    pose proof (hit_gen _ _ _ _ Hh) as (Hh1 & Htag & _). cbn in Hh1, Htag. injection Hh1 as <-.
    apply dread_tag_inj in Htag as [Hsame <-]; [| done | done].
    exists f, (rebase pa va'). split_and?; [done | | by apply (walk_same_block _ _ va)].
    destruct (rebase_parts pa va' Hva') as (-> & _). done.
Qed.

Lemma counters_sound m k : dcache_sound m → tlb k = tlb (cache (cpu m)) →
  tlb_stamp k = tlb_stamp (cache (cpu m)) → blks_kept (cache (cpu m)) k →
  dcache_sound (on_cpu (set_cache k) m).
Proof.
  intros ([Hg Ht] & Hk & Hs) E1 E2 Hkept. pose proof Hkept as (E3 & E4 & E5).
  refine (conj (conj _ _) (conj (blk_gens_kept _ _ Hkept Hk) _)).
  - unfold tlb_gens_ok. cbn. by rewrite E1, E5.
  - intros Hn Hst va acc priv Hva [Hl1 Hl2]. cbn in *. rewrite E1 in *. rewrite E5 in *.
    rewrite (mmu_walk_cp15 _ (cpu m)) by done. apply Ht; [done | | done | done].
    unfold mmu_stamp_matches in *. cbn in Hst. by rewrite E2 in Hst.
  - intros w va priv h Hva Hh. cbn in Hh |- *. rewrite (mmu_walk_cp15 _ (cpu m)) by done.
    rewrite (blk_hit_kept w _ _ _ _ Hkept) in Hh. by apply Hs.
Qed.

(** The block a hit names is the block the walk reaches: the place accessed. *)
Lemma hit_place w m va priv h n : dcache_sound m → uint 32 va →
  blk_hit w (cache (cpu m)) va priv = Some h →
  (va .& ARM_DREAD_BLK_MASK) + n <= 0x400 →
  ∃ f base off, grant w (bus m) = Some f ∧ f base 0x400 = Some h ∧ 0 <= off ∧ off + n <= 0x400 ∧
    uint 32 (base + off) ∧ off = va .& ARM_DREAD_BLK_MASK ∧
    fst (mmu_walk (cpu m) (bus m) va (blk_acc w) priv None) = Phys (base + off).
Proof.
  intros (_ & _ & Hs) Hva Hh Hn. destruct (Hs w va priv h Hva Hh) as (f & pa & Hf & Hp & Hx).
  destruct (walk_offset _ _ _ _ _ _ Hva Hx) as [Hoff Hpa].
  exists f, (pa .& wnot ARM_DREAD_BLK_MASK), (pa .& ARM_DREAD_BLK_MASK).
  rewrite split_block by done. rewrite Hoff. split_and?; try done.
  apply Z.land_nonneg. by right.
Qed.

(** ** The reference accesses *)

(** The value an [n]-byte load delivers, with the legacy rotation of words. *)
Definition load_result (n original va value : Z) : Z :=
  wrap (8 * n) (if (n =? 4) && negb (original =? va)
                then legacy_rotate_word value (original .& 3) else value).

Definition ref_read (n : Z) m (va : Z) (priv : bool) : Z * mach B :=
  match ordinary_address (cpu m) va n with
  | None => (0, on_cpu (fun c => note_alignment_abort c va false) m)
  | Some a =>
    match fst (mmu_walk (cpu m) (bus m) a ARM_ACCESS_READ priv None) with
    | Fault f => (0, on_cpu (fun c => note_abort c f a) m)
    | Phys pa => let '(v, b) := bus_read n (bus m) pa in (load_result n va a v, set_bus b m)
    end
  end.

Definition ref_write (n : Z) m (va v : Z) (priv : bool) : mach B :=
  match ordinary_address (cpu m) va n with
  | None => on_cpu (fun c => note_alignment_abort c va true) m
  | Some a =>
    match fst (mmu_walk (cpu m) (bus m) a ARM_ACCESS_WRITE priv None) with
    | Fault f => on_cpu (fun c => note_abort c f a) m
    | Phys pa => set_bus (bus_write n (bus m) pa v) m
    end
  end.

(** The machine but for the caches. *)
Definition visible m : mach B := on_cpu (set_cache blank_cache) m.

Definition within_page m (va n : Z) : Prop :=
  ∀ a, ordinary_address (cpu m) va n = Some a → mem_crosses_page a n = false.

Lemma ordinary_word c va n a : ordinary_address c va n = Some a → uint 32 va → uint 32 a.
Proof.
  unfold ordinary_address. repeat case_match; intros; simplify_eq; [| done | done].
  apply uint_land_l; [lia | done].
Qed.

Lemma set_bus_same m : set_bus (bus m) m = m.
Proof. by destruct m. Qed.

Lemma visible_cached m c : c = set_cache (cache c) (cpu m) → visible (set_cpu c m) = visible m.
Proof. intros ->. by destruct m. Qed.

Lemma visible_latch m c f va : c = set_cache (cache c) (cpu m) →
  visible (on_cpu (fun c => note_abort c f va) (set_cpu c m)) =
  visible (on_cpu (fun c => note_abort c f va) m).
Proof.
  intros ->. unfold visible, on_cpu, note_abort. cbn. by destruct (abort_pending (cpu m)).
Qed.

Lemma latch_sound m f va : dcache_sound m → dcache_sound (on_cpu (fun c => note_abort c f va) m).
Proof. intros Hs. unfold on_cpu, note_abort. destruct m as [c b]. cbn. by destruct (abort_pending c). Qed.

(** A host pointer installed after a miss. *)
Lemma fill_sound m va pa priv : dcache_sound m → uint 32 va →
  fst (mmu_walk (cpu m) (bus m) va ARM_ACCESS_READ priv None) = Phys pa →
  dcache_sound (dread_fill m va pa priv) ∧ visible (dread_fill m va pa priv) = visible m ∧
  bus (dread_fill m va pa priv) = bus m.
Proof.
  intros Hs Hva Hx. unfold dread_fill. destruct (host_ram (bus m)) as [f |] eqn:Hf; [| done].
  destruct (f _ _) as [blk |] eqn:Hb; [| done]. split_and?; [| done | done].
  by apply (install_sound false m va priv pa f blk).
Qed.

Lemma wfill_sound m va pa priv : dcache_sound m → uint 32 va →
  fst (mmu_walk (cpu m) (bus m) va ARM_ACCESS_WRITE priv None) = Phys pa →
  dcache_sound (dwrite_fill m va pa priv) ∧ visible (dwrite_fill m va pa priv) = visible m ∧
  bus (dwrite_fill m va pa priv) = bus m.
Proof.
  intros Hs Hva Hx. unfold dwrite_fill. destruct (host_ram_write (bus m)) as [f |] eqn:Hf; [| done].
  destruct (f _ _) as [blk |] eqn:Hb; [| done]. split_and?; [| done | done].
  by apply (install_sound true m va priv pa f blk).
Qed.

(** Looking a load up: a miss counts, a hit names the place the walk reaches. *)
Lemma dread_hit_spec m va n priv : dcache_sound m → uint 32 va → n = 1 ∨ n = 2 ∨ n = 4 →
  let '(dh, c) := dread_hit (cpu m) va n priv in
  c = set_cache (cache c) (cpu m) ∧ dcache_sound (set_cpu c m) ∧
  ∀ p, dh = Some p → ∃ pa,
    fst (mmu_walk (cpu m) (bus m) va ARM_ACCESS_READ priv None) = Phys pa ∧
    bus_read n (bus m) pa = (host_get (Z.to_nat n) (bus m) p, bus m).
Proof.
  intros Hs Hva Hn. unfold dread_hit.
  assert (dcache_sound (on_cpu (set_cache (set_dread_misses
    (w64 (dread_misses (cache (cpu m)) + 1)) (cache (cpu m)))) m)) as Hmiss
    by by apply counters_sound.
  destruct (Z.ltb_spec (ARM_DREAD_BLK_MASK + 1) ((va .& ARM_DREAD_BLK_MASK) + n)) as [| Hfit];
    [done |].
  destruct (blk_lookup _ _ _) as [h |] eqn:Eh; [| done].
  split_and?; [done | by apply (counters_sound m) |]. intros p [= <-].
  destruct (hit_place false m va priv h n Hs Hva Eh Hfit)
    as (f & base & off & Hf & Hb & H1 & H2 & H3 & -> & Hx).
  exists (base + (va .& ARM_DREAD_BLK_MASK)). split; [done |].
  by apply (host_ram_read _ f _ 0x400).
Qed.

(** C2: The data caches are invisible to loads.  From any state in which live cache
    entries agree with the page tables, a load of any width that stays within a page
    delivers the same value, latches the same abort and has the same effect on the bus
    as a load that walks the page tables and goes through the bus every time, whether
    it hits a cached block, hits the TLB or walks; nothing else of the core changes,
    and the caches are left sound whenever the bus read did not itself remap memory. *)
Theorem data_read_transparent n m va priv :
  n = 1 ∨ n = 2 ∨ n = 4 → uint 32 va → dcache_sound m → reads_pure (bus m) →
  prepare_fetch (bus m) = None → within_page m va n →
  let '(v, m') := mem_read_as n m va priv in
  let '(v', mr) := ref_read n m va priv in
  v = v' ∧ visible m' = visible mr ∧
  (same_mapping (bus m) (bus mr) → dcache_sound m').
Proof.
  intros Hn Hva Hs Hp Hpf Hpage. unfold mem_read_as, ref_read.
  destruct (ordinary_address (cpu m) va n) as [a |] eqn:Ea.
  2: { split_and?; [done | done |]. intros _. by apply latch_sound. }
  rewrite (Hpage a Ea). pose proof (ordinary_word _ _ _ _ Ea Hva) as Ha.
  pose proof (dread_hit_spec m a n priv Hs Ha Hn) as Hd.
  destruct (dread_hit _ _ _ _) as [dh c]. destruct Hd as (Hc & Hsc & Hhit).
  destruct dh as [p |].
  { destruct (Hhit p eq_refl) as (pa & -> & ->). rewrite set_bus_same.
    split_and?; [done | by apply visible_cached | done]. }
  pose proof (translate_sound (set_cpu c m) a ARM_ACCESS_READ priv Hsc Hp Hpf Ha) as Ht.
  destruct (arm_mmu_translate _ _ _ _) as [x m1]. destruct Ht as (Hx & Hb & Hc1 & Hs1).
  cbn [cpu bus set_cpu] in Hx, Hb, Hc1. rewrite (cached_walk (cpu m)) in Hx by done.
  assert (cpu m1 = set_cache (cache (cpu m1)) (cpu m)) as Hc1'.
  { rewrite Hc1 at 1. by rewrite Hc. }
  assert (m1 = set_cpu (cpu m1) m) as Em1 by (unfold set_cpu; rewrite <- Hb; by destruct m1).
  rewrite <- Hx. destruct x as [f | pa].
  - split_and?; [done | | intros _; by apply latch_sound].
    rewrite Em1. by apply visible_latch.
  - rewrite Hb. destruct (bus_read n (bus m) pa) as [v b] eqn:Er. split_and?; [done | |].
    + destruct m as [c0 b0], m1 as [c1 b1]. unfold dread_fill. cbn in *.
      rewrite Hc1'. by repeat case_match.
    + cbn [bus set_bus]. intros Hmap. rewrite <- Hb in Hmap.
      apply (fill_sound (set_bus b m1) a pa priv); [by apply sound_remap | done |].
      destruct Hmap as (_ & _ & ->). cbn. rewrite (cached_walk (cpu m)), Hb by done. by rewrite <- Hx.
Qed.

Lemma dwrite_hit_spec m va n v priv : dcache_sound m → uint 32 va → n = 1 ∨ n = 2 ∨ n = 4 →
  let '(dw, m1) := dwrite_hit m va n priv in
  cpu m1 = set_cache (cache (cpu m1)) (cpu m) ∧ bus m1 = bus m ∧ dcache_sound m1 ∧
  ∀ p, dw = Some p → ∃ pa,
    fst (mmu_walk (cpu m) (bus m) va ARM_ACCESS_WRITE priv None) = Phys pa ∧
    bus_write n (bus m) pa v = host_put (Z.to_nat n) (bus m) p v.
Proof.
  intros Hs Hva Hn. unfold dwrite_hit.
  assert (∀ k, tlb k = tlb (cache (cpu m)) → tlb_stamp k = tlb_stamp (cache (cpu m)) →
    blks_kept (cache (cpu m)) k → dcache_sound (on_cpu (set_cache k) m)) as Hcnt.
  { intros. by apply counters_sound. }
  destruct (host_ram_write (bus m)) eqn:Ew; [| split_and?; try done; by destruct m as [[] ?]].
  destruct (Z.ltb_spec (ARM_DREAD_BLK_MASK + 1) ((va .& ARM_DREAD_BLK_MASK) + n)) as [| Hfit];
    [refine (conj _ (conj _ (conj (Hcnt _ _ _ _) _))); done |].
  destruct (blk_lookup _ _ _) as [h |] eqn:Eh;
    [| refine (conj _ (conj _ (conj (Hcnt _ _ _ _) _))); done].
  refine (conj _ (conj _ (conj (Hcnt _ _ _ _) _))); try done. intros p [= <-].
  destruct (hit_place true m va priv h n Hs Hva Eh Hfit)
    as (f & base & off & Hf & Hb & H1 & H2 & H3 & -> & Hx).
  exists (base + (va .& ARM_DREAD_BLK_MASK)). split; [done |].
  by apply (host_ram_write_store _ f _ 0x400).
Qed.

(** C3: The data caches are invisible to stores.  A store of any width within a page,
    from a state with sound caches, writes exactly the bytes a walk and a bus write
    would, at the same physical place, or latches the same abort and writes nothing;
    the caches stay sound whenever the store did not itself change what addresses
    mean. *)
Theorem data_write_transparent n m va v priv :
  n = 1 ∨ n = 2 ∨ n = 4 → uint 32 va → dcache_sound m → reads_pure (bus m) →
  prepare_fetch (bus m) = None → within_page m va n →
  let m' := mem_write_as n m va v priv in
  let mr := ref_write n m va v priv in
  visible m' = visible mr ∧ (same_mapping (bus m) (bus mr) → dcache_sound m').
Proof.
  intros Hn Hva Hs Hp Hpf Hpage. unfold mem_write_as, ref_write.
  destruct (ordinary_address (cpu m) va n) as [a |] eqn:Ea.
  2: { split; [done |]. intros _. by apply latch_sound. }
  rewrite (Hpage a Ea). pose proof (ordinary_word _ _ _ _ Ea Hva) as Ha.
  pose proof (dwrite_hit_spec m a n v priv Hs Ha Hn) as Hd.
  destruct (dwrite_hit _ _ _ _) as [dw m0]. destruct Hd as (Hc & Hb0 & Hs0 & Hhit).
  assert (m0 = set_cpu (cpu m0) m) as Em0 by (unfold set_cpu; rewrite <- Hb0; by destruct m0).
  destruct dw as [p |].
  { destruct (Hhit p eq_refl) as (pa & -> & ->). rewrite Hb0. split.
    - unfold visible, on_cpu, set_bus. cbn. by rewrite Hc.
    - cbn [bus set_bus]. intros Hmap. apply sound_remap; [done | by rewrite Hb0]. }
  rewrite <- Hb0 in Hp, Hpf.
  pose proof (translate_sound m0 a ARM_ACCESS_WRITE priv Hs0 Hp Hpf Ha) as Ht.
  destruct (arm_mmu_translate _ _ _ _) as [x m1]. destruct Ht as (Hx & Hb & Hc1 & Hs1).
  rewrite Hb0 in Hx, Hb. rewrite (cached_walk (cpu m)) in Hx by done.
  assert (cpu m1 = set_cache (cache (cpu m1)) (cpu m)) as Hc1'.
  { rewrite Hc1 at 1. by rewrite Hc. }
  assert (m1 = set_cpu (cpu m1) m) as Em1 by (unfold set_cpu; rewrite <- Hb; by destruct m1).
  rewrite <- Hx. destruct x as [f | pa].
  - split; [| intros _; by apply latch_sound]. rewrite Em1. by apply visible_latch.
  - rewrite Hb. split.
    + destruct m as [c0 b0], m1 as [c1 b1]. unfold dwrite_fill. cbn in *.
      rewrite Hc1'. by repeat case_match.
    + cbn [bus set_bus]. intros Hmap. rewrite <- Hb in Hmap.
      apply (wfill_sound (set_bus (bus_write n (bus m) pa v) m1) a pa priv);
        [apply sound_remap; [done |]; by rewrite <- Hb | done |].
      destruct Hmap as (_ & _ & Hmap). cbn. rewrite <- Hb, Hmap, (cached_walk (cpu m)) by done.
      by rewrite Hb, <- Hx.
Qed.

(** ** CP15 *)

(** The registers a walk reads. *)
Definition walk_regs (p : arm_cp15) : Z * Z * Z * Z * Z :=
  (sctlr p, ttbr0 p, ttbr1 p, ttbcr p, dacr p).

Lemma walk_regs_eq c c' b va acc priv : walk_regs (cp15 c) = walk_regs (cp15 c') →
  mmu_walk c b va acc priv None = mmu_walk c' b va acc priv None.
Proof.
  unfold walk_regs. intros [= E1 E2 E3 E4 E5]. unfold mmu_walk, l1_location, walk_section,
    walk_page, l2_permissions, access_flag_faults, ap_permits, xn_forbids_fetch, sctlr_has.
  by rewrite E1, E2, E3, E4, E5.
Qed.

(** A CP15 write either leaves the registers a walk reads alone or asks for a flush. *)
Lemma cp15_write_flushes p crn crm opc2 v :
  snd (cp15_write p crn crm opc2 v) = true ∨
  walk_regs (fst (cp15_write p crn crm opc2 v)) = walk_regs p ∧
  context_id (fst (cp15_write p crn crm opc2 v)) = context_id p.
Proof. unfold cp15_write. repeat case_match; simplify_eq; cbn [fst snd]; auto. Qed.

Lemma flush_sound c b p : tlb_gens_ok c → blk_gens (cache c) →
  dcache_sound (Mach (arm_mmu_tlb_flush (set_cp15 p c)) b).
Proof.
  intros Hg Hk. destruct (flush_gens (set_cp15 p c) Hg) as (Hf & Hn & Hdead).
  destruct (flush_blks (set_cp15 p c) Hg Hk) as [Hk' Hd].
  refine (conj (conj Hf _) (conj Hk' _)).
  - intros _ _ va acc priv _ [Hl _]. by destruct (Hdead (mmu_tlb_slot va acc)).
  - intros w va priv h _ Hh. cbn [cpu] in Hh. by rewrite Hd in Hh.
Qed.

Lemma quiet_cp15_sound m p b : dcache_sound m → same_mapping (bus m) b →
  walk_regs p = walk_regs (cp15 (cpu m)) → context_id p = context_id (cp15 (cpu m)) →
  dcache_sound (Mach (set_cp15 p (cpu m)) b).
Proof.
  intros Hs Hm Hw Hc. destruct (sound_remap m b Hs Hm) as ([Hg Ht] & Hk & Hb).
  assert (∀ va acc priv, mmu_walk (set_cp15 p (cpu m)) b va acc priv None =
    mmu_walk (cpu m) b va acc priv None) as Hwalk by (intros; by apply walk_regs_eq).
  refine (conj (conj Hg _) (conj Hk _)).
  - intros Hn Hst va acc priv Hva Hl. cbn [cpu bus] in *. rewrite Hwalk. apply Ht; try done.
    unfold mmu_stamp_matches in *. unfold walk_regs in Hw. cbn [cp15 set_cp15 cache] in Hst.
    injection Hw as E1 E2 E3 E4 E5. rewrite E1, E2, E3, E4, E5, Hc in Hst. exact Hst.
  - intros w va priv h Hva Hh. destruct (Hb w va priv h Hva Hh) as (f & pa & Hf & Hp & Hx).
    exists f, pa. split_and?; [done | done |]. cbn [cpu bus] in *. by rewrite Hwalk.
Qed.

Lemma same_mapping_refl b : same_mapping b b.
Proof. by split_and?. Qed.

(** No CP15 operation leaves a stale translation behind.  Every MCR of CP15, from
    any mode and of any encoding, either leaves the registers a walk reads unchanged or
    retires every TLB entry and every cached block, so all live entries still agree
    with the page tables under the new register values; MRC and the wait-for-interrupt
    operation keep them too as long as the platform does not remap memory. *)
Theorem cp15_keeps_caches_sound m pc insn :
  dcache_sound m → same_mapping (bus m) (bus (snd (exec_cp15 m pc insn))) →
  dcache_sound (snd (exec_cp15 m pc insn)).
Proof.
  intros Hs Hmap. unfold exec_cp15 in *.
  assert (∀ c b, same_mapping (bus m) b → cache c = cache (cpu m) → cp15 c = cp15 (cpu m) →
    dcache_sound (Mach c b)) as Hsame.
  { intros c b Hm Hc Hp. pose proof (sound_remap m b Hs Hm) as ([Hg Ht] & Hk & Hb).
    assert (∀ va acc priv, mmu_walk c b va acc priv None = mmu_walk (cpu m) b va acc priv None)
      as Hwalk by (intros; by apply mmu_walk_cp15).
    unfold tlb_gens_ok, mmu_stamp_matches, tlb_live in *. cbn [cpu bus set_bus] in *.
    refine (conj (conj _ _) (conj _ _)).
    - unfold tlb_gens_ok. cbn [cpu]. by rewrite Hc.
    - unfold mmu_stamp_matches, tlb_live. cbn [cpu bus]. rewrite Hc, Hp. intros. rewrite Hwalk. by apply Ht.
    - cbn [cpu]. by rewrite Hc.
    - intros w va priv h Hva Hh. cbn [cpu bus] in *. rewrite Hc in Hh.
      destruct (Hb w va priv h Hva Hh) as (f & pa & Hf & Hpp & Hx). exists f, pa.
      split_and?; [done | done |]. cbn [cpu bus]. by rewrite Hwalk. }
  destruct (_ && _ && _ && _ && _).
  { unfold exec_wfi in *. destruct (negb _); [done |]. destruct (negb _); [done |].
    destruct (wait_for_interrupt (bus m)) as [wait |]; [| done].
    destruct (wait _ _) as [[irq fiq] b]. by apply Hsame. }
  destruct (_ && _); [done |]. destruct (bit insn 20); [by apply Hsame |].
  destruct Hs as ([Hg Ht] & Hk & Hb).
  pose proof (cp15_write_flushes (cp15 (cpu m)) (fld insn 16 0xf) (insn .& 0xf) (fld insn 5 7)
    (reg_read (cpu m) pc (fld insn 12 0xf))) as Hw.
  destruct (cp15_write _ _ _ _ _) as [p fl]. cbn [fst snd] in *.
  destruct fl; [by apply flush_sound |]. destruct Hw as [| [Hw Hc]]; [done |].
  apply quiet_cp15_sound; [done | apply same_mapping_refl | done | done].
Qed.

End Sound.

(** ** Concrete accesses *)

Lemma demo_dcache_sound : dcache_sound demo_mach.
Proof.
  refine (conj demo_sound (conj _ _)).
  - by intros [] s h.
  - by intros [] va priv h.
Qed.

Lemma demo_within va n : ((va .& (n - 1)) =? 0) = true → mem_crosses_page va n = false →
  within_page demo_mach va n.
Proof. intros E Hc a. unfold ordinary_address. rewrite E. by intros [= <-]. Qed.

(** The second load hits the block the first one cached. *)
Lemma data_read_transparent_witness :
  let '(v1, m1) := mem_read_as 4 demo_mach 0x4000 false in
  let '(v2, m2) := mem_read_as 4 m1 0x4004 false in
  v1 = 0x802 ∧ v2 = 0x5001 ∧ dread_hits (cache (cpu m2)) = 1 ∧
  visible m1 = visible demo_mach ∧ visible m2 = visible m1 ∧ dcache_sound m2.
Proof.
  pose proof (data_read_transparent 4 demo_mach 0x4000 false ltac:(by do 2 right)
    ltac:(by split) demo_dcache_sound demo_reads_pure eq_refl
    (demo_within 0x4000 4 eq_refl eq_refl)) as H1.
  destruct (mem_read_as 4 demo_mach 0x4000 false) as [v1 m1] eqn:E1.
  assert (ref_read 4 demo_mach 0x4000 false = (0x802, demo_mach)) as R1 by by vm_compute.
  rewrite R1 in H1. destruct H1 as (-> & V1 & S1). specialize (S1 (same_mapping_refl _)).
  assert (m1 = snd (mem_read_as 4 demo_mach 0x4000 false)) as -> by by rewrite E1.
  set (m1 := snd _) in *.
  assert (∀ a, (ordinary_address (cpu m1) 0x4004 4 = Some a) → mem_crosses_page a 4 = false) as W.
  { intros a Ha. vm_compute in Ha. by injection Ha as <-. }
  pose proof (data_read_transparent 4 m1 0x4004 false ltac:(by do 2 right)
    ltac:(by split) S1 demo_reads_pure eq_refl W) as H2.
  assert (dread_hits (cache (cpu (snd (mem_read_as 4 m1 0x4004 false)))) = 1) as Hh by by vm_compute.
  destruct (mem_read_as 4 m1 0x4004 false) as [v2 m2].
  assert (ref_read 4 m1 0x4004 false = (0x5001, m1)) as R2 by by vm_compute.
  rewrite R2 in H2. destruct H2 as (-> & V2 & S2). specialize (S2 (same_mapping_refl _)).
  by split_and?.
Defined.

Lemma data_write_transparent_witness :
  let m' := mem_write_as 4 demo_mach 0x101010 0xcafe1234 true in
  visible m' = visible (ref_write 4 demo_mach 0x101010 0xcafe1234 true) ∧
  flat_get 4 (bus m') 0x7010 = 0xcafe1234 ∧ abort_pending (cpu m') = false.
Proof.
  split; [| by vm_compute].
  apply (data_write_transparent 4 demo_mach 0x101010 0xcafe1234 true).
  - by do 2 right.
  - by split.
  - exact demo_dcache_sound.
  - exact demo_reads_pure.
  - reflexivity.
  - by apply demo_within.
Defined.

(** A machine that holds a live cached block. *)
Definition warm_mach : mach flat_ram :=
  on_cpu (set_cache (install false 0x4000 true 0x4000 (cache demo_cpu))) demo_mach.

Lemma warm_sound : dcache_sound warm_mach.
Proof.
  by apply (install_sound false demo_mach 0x4000 true 0x4000 (flat_host demo_ram) 0x4000
    demo_dcache_sound).
Qed.

(** MCR p15, 0, r0, c3, c0, 0: the write of DACR that must retire live entries. *)
Lemma cp15_keeps_caches_sound_witness :
  let m := snd (exec_cp15 warm_mach 0x100 0xee030f10) in
  blk_hit false (cache (cpu warm_mach)) 0x4000 true = Some 0x4000 ∧
  blk_hit false (cache (cpu m)) 0x4000 true = None ∧
  dacr (cp15 (cpu m)) = 0 ∧ dcache_sound m.
Proof.
  intros m. split; [by vm_compute |]. split; [by vm_compute |]. split; [by vm_compute |].
  apply (cp15_keeps_caches_sound warm_mach 0x100 0xee030f10 warm_sound).
  exact (same_mapping_refl demo_ram).
Defined.

(** ** Where the caches' assumptions end *)

(** The registers of a translation changed on the core itself, with no CP15 write. *)
Definition dacr_denied (m : mach flat_ram) : mach flat_ram :=
  on_cpu (fun c => set_cp15 (set_dacr 0 (cp15 c)) c) m.

(** Soundness of the block caches is kept by CP15 writes, not by the register stamp.
    When DACR is changed in the core structure itself, as a snapshot restore or a test
    does, the next translation notices, but a load that hits a cached block never
    translates: it delivers data from a domain it no longer may read, with no abort,
    where the same load with an empty cache takes a section domain fault. *)
Theorem block_cache_ignores_stamp :
  let m0 := snd (mem_read_as 4 demo_mach 0x4000 true) in
  let m := dacr_denied m0 in
  let '(v, m') := mem_read_as 4 m 0x4000 true in
  let '(v', mr) := ref_read 4 m 0x4000 true in
  mmu_stamp_matches (cpu m0) = true ∧ mmu_stamp_matches (cpu m) = false ∧
  v = 0x802 ∧ abort_pending (cpu m') = false ∧
  v' = 0 ∧ abort_pending (cpu mr) = true ∧ abort_fsr (cpu mr) .& 0xf = 0x9.
Proof. by vm_compute. Qed.

(** The legacy format (SCTLR.XP clear) with unaligned accesses on: a small page whose
    first 1 KB is user read-write and whose second is privileged only. *)
Definition legacy_byte (a : Z) : Z :=
  if a =? 0x4004 then 0x01 else if a =? 0x4005 then 0x50
  else if a =? 0x5004 then 0x72 else if a =? 0x5005 then 0x70 else 0.

Definition legacy_mach : mach flat_ram :=
  Mach (set_cp15 (set_sctlr (ARM_SCTLR_M .| ARM_SCTLR_U) (cp15 demo_cpu)) demo_cpu)
    (FlatRam 0x8000 legacy_byte).

(** A misaligned access is split only where it crosses a 4 KB page, so one that
    crosses from a 1 KB legacy subpage into the next has only its first byte checked: a
    user store of a word writes two bytes of a subpage in which a user store of a byte
    takes a permission fault. *)
Theorem subpage_span_unchecked :
  let word := mem_write_as 4 legacy_mach 0x1013fe 0x44332211 false in
  let byte := mem_write_as 1 legacy_mach 0x101400 0x33 false in
  abort_pending (cpu word) = false ∧ flat_get 2 (bus word) 0x7400 = 0x4433 ∧
  abort_pending (cpu byte) = true ∧ abort_fsr (cpu byte) .& 0xf = 0xf ∧
  flat_get 2 (bus byte) 0x7400 = 0.
Proof. by vm_compute. Qed.
