(* ===== verification/RamWatch.v ===== *)
(** * Write witnesses for guest RAM

    [core/src/arm/arm_ram_watch.c]: a stamp per physical 1 KiB page.  A stamp captured twice
    with the same value says that nothing was stored to the page in between, provided that
    direct writes are refused on stamped pages and every other store is announced first.
    Host pointers are abstract addresses of host memory, as in Bus.v; the header's contract
    that no other store escapes the announcement is what the machine keeps: its grant of
    direct writes ([core/src/soc/machine.c]) is here too, and the entries the core filled
    under it. *)

From S2P Require Import Prelude State AluFacts Bus Mmu MemAccess.

Definition UINT64_MAX := 2 ^ 64 - 1.

Record ram_watch := MkWatch { wt_ram : Z; wt_base : Z; wt_size : Z; wt_pages : Z; wt_sequence : Z; wt_stamp : Z → Z }.

(** [memory] is whether the allocation succeeds, [ram] the host pointer. *)
Definition arm_ram_watch_create (memory : bool) (ram : option Z) (base size : Z) : option ram_watch :=
  match ram with
  | None => None
  | Some ram =>
    if (size =? 0) || negb (base .& 1023 =? 0) || negb (size .& 1023 =? 0) || (0x100000000 <? base + size) then None
    else if memory then Some (MkWatch ram base size (size / 1024) 0 (fun _ => 0)) else None
  end.

Definition arm_ram_watch_reset (w : ram_watch) : ram_watch :=
  MkWatch (wt_ram w) (wt_base w) (wt_size w) (wt_pages w) (wt_sequence w) (fun _ => 0).

Definition wt_put (i v sequence : Z) (w : ram_watch) : ram_watch :=
  MkWatch (wt_ram w) (wt_base w) (wt_size w) (wt_pages w) sequence (<[i := v]> (wt_stamp w)).

(** The stamp and the counter after it. *)
Definition next_stamp (w : ram_watch) : Z * Z :=
  if wt_sequence w =? UINT64_MAX then (0, wt_sequence w) else (wt_sequence w + 1, wt_sequence w + 1).

(** The direct-write aliases of a page lose their entry. *)
Definition revoke_page (page : Z) (c : arm_cpu) : arm_cpu :=
  let k := cache c in
  set_cache (set_dwrite (fun i => if (0 <=? i) && (i <? ARM_DREAD_ENTRIES) && bool_decide (be_host (dwrite k i) = Some page)
                                  then MkBlk None 0 0 else dwrite k i) k) c.

Definition arm_ram_watch_capture (w : ram_watch) (c : arm_cpu) (page : Z) : Z * ram_watch * arm_cpu :=
  if wt_sequence w =? UINT64_MAX then (0, w, c)
  else if (page <? wt_ram w) || (wt_size w <=? page - wt_ram w) || negb ((page - wt_ram w) .& 1023 =? 0) then (0, w, c)
  else
    let index := (page - wt_ram w) / 1024 in
    if wt_stamp w index =? 0 then
      let '(s, n) := next_stamp w in (s, wt_put index s n w, revoke_page page c)
    else (wt_stamp w index, w, c).

Definition arm_ram_watch_unwatched (w : option ram_watch) (pa length : Z) : bool :=
  match w with
  | None => true
  | Some w =>
    if (length =? 0) || (pa <? wt_base w) || (wt_size w <? pa - wt_base w + length) then false
    else
      let first := (pa - wt_base w) / 1024 in
      let last := (pa - wt_base w + length - 1) / 1024 in
      forallb (fun i => wt_stamp w i =? 0) (seqZ first (last - first + 1))
  end.

(** [core/src/soc/machine.c]: the bus's direct-write grant while a watch is installed.  The
    watch is created over the machine's own RAM, so base and size are the machine's. *)
Definition machine_host_ram (w : ram_watch) (pa len : Z) : option Z :=
  if len =? 0 then None
  else if (pa <? wt_base w) || (wt_size w <? pa - wt_base w + len) then None
  else Some (wt_ram w + (pa - wt_base w)).

Definition machine_watched_ram_write (w : ram_watch) (pa len : Z) : option Z :=
  if (pa =? wt_base w) && (len =? wt_size w) then None
  else if negb (arm_ram_watch_unwatched (Some w) pa len) then None
  else machine_host_ram w pa len.

Definition touch_page (w : ram_watch) (i : Z) : ram_watch :=
  if wt_stamp w i =? 0 then w
  else let '(s, n) := next_stamp w in wt_put i (if s =? 0 then UINT64_MAX else s) n w.

Definition arm_ram_watch_changed (w : ram_watch) (pa length : Z) : ram_watch :=
  if length =? 0 then w
  else
    let first := if pa <? wt_base w then wt_base w else pa in
    let end_ := wt_base w + wt_size w in
    let last := if end_ <? pa + length then end_ else pa + length in
    if last <=? first then w
    else
      let a := (first - wt_base w) / 1024 in
      let b := (last - 1 - wt_base w) / 1024 in
      foldl touch_page w (seqZ a (b - a + 1)).

(** ** A stamp is a witness *)

(** The counter is above every stamp but the mark of exhaustion, which stays. *)
Record watch_ok (w : ram_watch) : Prop := {
  wo_sequence : uint 64 (wt_sequence w);
  wo_stamp i : 0 <= wt_stamp w i <= wt_sequence w ∨ wt_sequence w = UINT64_MAX ∧ wt_stamp w i = UINT64_MAX;
  wo_pages : wt_size w = 1024 * wt_pages w ∧ 0 < wt_pages w }.

(** From [w] to [w'] without a reset: counters and stamps only grow, and page [i] has a new
    stamp exactly as [fresh] demands. *)
Record later (fresh : Z → Prop) (w w' : ram_watch) : Prop := {
  la_ok : watch_ok w';
  la_place : wt_ram w' = wt_ram w ∧ wt_base w' = wt_base w ∧ wt_size w' = wt_size w ∧ wt_pages w' = wt_pages w;
  la_sequence : wt_sequence w <= wt_sequence w';
  la_stamp i : wt_stamp w i ≠ 0 → wt_stamp w i <= wt_stamp w' i;
  la_fresh i : fresh i → wt_stamp w i ≠ 0 → wt_sequence w' ≠ UINT64_MAX → wt_sequence w < wt_stamp w' i }.

Lemma later_refl w : watch_ok w → later (fun _ => False) w w.
Proof. intros H. split; [done|done|lia|intros; lia|by intros ? []]. Qed.

Lemma later_trans (F G : Z → Prop) w w1 w2 : watch_ok w → later F w w1 → later G w1 w2 → later (fun i => F i ∨ G i) w w2.
Proof.
  intros [Hq Hs _] [O1 (P1 & P2 & P3 & P4) Q1 S1 F1] [O2 (P1' & P2' & P3' & P4') Q2 S2 F2]. destruct Hq as [Q0 Q0'].
  assert (N : ∀ i, wt_stamp w i ≠ 0 → wt_stamp w1 i ≠ 0) by (intros i Hi; specialize (S1 i Hi); specialize (Hs i); unfold UINT64_MAX in *; lia).
  pose proof O2. destruct O1 as [[? ?] _ _], O2 as [[? ?] _ _]. split; [done|split_and!; congruence|lia| |].
  - intros i Hi. specialize (S1 i Hi). specialize (S2 i (N i Hi)). lia.
  - intros i [Hf|Hg] Hi Hm; [|specialize (F2 i Hg (N i Hi) Hm); lia].
    assert (wt_sequence w1 ≠ UINT64_MAX) by (unfold UINT64_MAX in *; lia). specialize (F1 i Hf Hi ltac:(done)). specialize (S2 i (N i Hi)). lia.
Qed.

Lemma later_put i w : watch_ok w → later (fun k => k = i) w (let '(s, n) := next_stamp w in wt_put i (if s =? 0 then UINT64_MAX else s) n w).
Proof.
  intros H. destruct H as [[Q0 Q1] Hs Hp]. unfold next_stamp. destruct (Z.eqb_spec (wt_sequence w) UINT64_MAX) as [E|E].
  - change (0 =? 0) with true. cbv iota. assert (G : ∀ k, wt_stamp w k <= wt_stamp (wt_put i UINT64_MAX (wt_sequence w) w) k ∧
      (0 <= wt_stamp (wt_put i UINT64_MAX (wt_sequence w) w) k <= wt_sequence w)).
    { intros k. cbn [wt_stamp wt_put]. specialize (Hs k). destruct (decide (k = i)) as [-> |]; [rewrite fn_lookup_insert|rewrite fn_lookup_insert_ne by done]; lia. }
    split; [|done|cbn; lia| |].
    + split; [done|intros k; left; apply G|done].
    + intros k _. apply G.
    + intros k _ _. cbn [wt_sequence wt_put]. congruence.
  - rewrite (proj2 (Z.eqb_neq (wt_sequence w + 1) 0)) by lia. unfold UINT64_MAX in *.
    assert (G : ∀ k, wt_stamp w k <= wt_stamp (wt_put i (wt_sequence w + 1) (wt_sequence w + 1) w) k ∧
      (0 <= wt_stamp (wt_put i (wt_sequence w + 1) (wt_sequence w + 1) w) k <= wt_sequence w + 1)).
    { intros k. cbn [wt_stamp wt_put]. specialize (Hs k). destruct (decide (k = i)) as [-> |]; [rewrite fn_lookup_insert|rewrite fn_lookup_insert_ne by done]; lia. }
    split; [|done|cbn; lia| |].
    + split; [split; cbn; lia|intros k; left; apply G|done].
    + intros k _. apply G.
    + intros k -> _ _. cbn [wt_stamp wt_put]. rewrite fn_lookup_insert. lia.
Qed.

Lemma later_touch l : ∀ w, watch_ok w → later (fun i => i ∈ l) w (foldl touch_page w l).
Proof.
  induction l as [|k l IH]; intros w H; cbn [foldl].
  { destruct (later_refl w H). split; try done. intros i []%not_elem_of_nil. }
  assert (T : later (fun i => i = k) w (touch_page w k)).
  { unfold touch_page. destruct (Z.eqb_spec (wt_stamp w k) 0) as [E|E]; [|by apply later_put].
    destruct (later_refl w H). split; try done. intros i ->. done. }
  destruct (later_trans _ _ _ _ _ H T (IH _ (la_ok _ _ _ T))) as [A B C D E]. split; try done.
  intros i [-> |Hi]%elem_of_cons; [apply E; by left|apply E; by right].
Qed.

(** The pages a store reaches. *)
Definition reaches (w : ram_watch) (pa length i : Z) : Prop :=
  ∃ a, pa <= a < pa + length ∧ wt_base w + 1024 * i <= a < wt_base w + 1024 * (i + 1) ∧ 0 <= i < wt_pages w.

Lemma changed_later w pa length : watch_ok w → 0 <= length →
  later (reaches w pa length) w (arm_ram_watch_changed w pa length).
Proof.
  intros H Hl. unfold arm_ram_watch_changed. destruct (wo_pages w H) as [Hs Hp].
  assert (None_ : (∀ i, ¬ reaches w pa length i) → later (reaches w pa length) w w).
  { intros N. destruct (later_refl w H). split; try done. intros i Hi. by destruct (N i). }
  destruct (Z.eqb_spec length 0); [apply None_; intros i (a & ? & _); lia|].
  set (first := if pa <? wt_base w then wt_base w else pa). set (last := if _ <? pa + length then _ else pa + length).
  assert (F : first = Z.max pa (wt_base w)) by (unfold first; destruct (Z.ltb_spec pa (wt_base w)); lia).
  assert (L : last = Z.min (pa + length) (wt_base w + wt_size w)) by (unfold last; destruct (Z.ltb_spec (wt_base w + wt_size w) (pa + length)); lia).
  clearbody first last. destruct (Z.leb_spec last first).
  { apply None_. intros i (a & ? & ? & ?). lia. }
  destruct (later_touch (seqZ ((first - wt_base w) / 1024) ((last - 1 - wt_base w) / 1024 - (first - wt_base w) / 1024 + 1)) w H) as [A B C D E].
  split; try done. intros i (a & H1 & H2 & H3). apply E, elem_of_seqZ.
  assert ((first - wt_base w) / 1024 <= i) by (apply Z.lt_succ_r, Z.div_lt_upper_bound; lia).
  assert (i <= (last - 1 - wt_base w) / 1024) by (apply Z.div_le_lower_bound; lia). lia.
Qed.

(** ** Witnessed intervals *)

(** What the machine does between two captures: more captures, announced stores, the
    fills of the direct-write cache that the bus grants, and TLB flushes. *)
Inductive watch_op :=
  Capture (page : Z) | Changed (pa length : Z) | Fill (va pa : Z) (priv : bool) | Flush.

(** [dwrite_fill] of MemAccess.v over this grant. *)
Definition watched_fill (w : ram_watch) (va pa : Z) (priv : bool) (c : arm_cpu) : arm_cpu :=
  let k := cache c in
  match machine_watched_ram_write w (pa .& wnot ARM_DREAD_BLK_MASK) (ARM_DREAD_BLK_MASK + 1) with
  | None => c
  | Some blk =>
    set_cache (set_dwrite (<[dread_slot va priv := MkBlk (Some blk) (dread_tag va priv) (tlb_gen k)]> (dwrite k)) k) c
  end.

Lemma fill_is_dwrite_fill {B} `{Bus B} (m : mach B) w va pa priv :
  host_ram_write (bus m) = Some (machine_watched_ram_write w) →
  cpu (dwrite_fill m va pa priv) = watched_fill w va pa priv (cpu m).
Proof. intros Hf. unfold dwrite_fill, watched_fill. rewrite Hf. by destruct (machine_watched_ram_write w _ _). Qed.

Definition watch_do (wc : ram_watch * arm_cpu) (o : watch_op) : ram_watch * arm_cpu :=
  match o with
  | Capture page => let '(_, w, c) := arm_ram_watch_capture wc.1 wc.2 page in (w, c)
  | Changed pa length => (arm_ram_watch_changed wc.1 pa length, wc.2)
  | Fill va pa priv => (wc.1, watched_fill wc.1 va pa priv wc.2)
  | Flush => (wc.1, arm_mmu_tlb_flush wc.2)
  end.
Definition watch_op_ok (o : watch_op) : Prop :=
  match o with Changed _ length => 0 <= length | Fill _ pa _ => uint 32 pa | _ => True end.
Definition stores (w : ram_watch) (i : Z) (o : watch_op) : Prop :=
  match o with Changed pa length => reaches w pa length i | _ => False end.

Lemma capture_later w c page : watch_ok w → later (fun _ => False) w (arm_ram_watch_capture w c page).1.2.
Proof.
  intros H. unfold arm_ram_watch_capture. destruct (Z.eqb_spec (wt_sequence w) UINT64_MAX) as [|N]; [by apply later_refl|].
  destruct (_ || _); [by apply later_refl|]. destruct (_ =? 0); [|by apply later_refl].
  pose proof (later_put ((page - wt_ram w) / 1024) w H) as P. unfold next_stamp in *. rewrite (proj2 (Z.eqb_neq _ _) N) in *.
  destruct (wo_sequence w H). rewrite (proj2 (Z.eqb_neq (wt_sequence w + 1) 0)) in P by lia. cbn [fst snd]. destruct P. by split.
Qed.

Lemma do_later w c o : watch_ok w → watch_op_ok o → later (fun i => stores w i o) w (watch_do (w, c) o).1.
Proof.
  intros H Ho. destruct o as [page|pa length|va pa priv|]; [|by apply changed_later|by apply later_refl|by apply later_refl].
  pose proof (capture_later w c page H) as L. cbn [watch_do fst snd]. destruct (arm_ram_watch_capture w c page) as [[s w'] c'].
  destruct L. split; try done.
Qed.

Lemma run_later ops : Forall watch_op_ok ops → ∀ w c, watch_ok w →
  later (fun i => Exists (stores w i) ops) w (foldl watch_do (w, c) ops).1.
Proof.
  induction 1 as [|o ops Ho _ IH]; intros w c H; cbn [foldl].
  { destruct (later_refl w H). split; try done. intros i Hi. by apply Exists_nil in Hi. }
  pose proof (do_later w c o H Ho) as D. destruct (watch_do (w, c) o) as [w1 c1]. cbn [fst] in *.
  destruct (later_trans _ _ _ _ _ H D (IH w1 c1 (la_ok _ _ _ D))) as [A B C S F]. split; try done.
  intros i Hx%Exists_cons. apply F. destruct Hx as [Hx|Hx]; [by left|right]. destruct (la_place _ _ _ D) as (_ & P2 & _ & P4).
  eapply Exists_impl; [|exact Hx]. intros [|pa length| |]; try done. unfold stores, reaches. by rewrite P2, P4.
Qed.

(** What a capture that answers a stamp says of the watch it leaves. *)
Lemma captured w c page s : watch_ok w → (arm_ram_watch_capture w c page).1.1 = s → s ≠ 0 →
  let w' := (arm_ram_watch_capture w c page).1.2 in let i := (page - wt_ram w) / 1024 in
  wt_stamp w' i = s ∧ wt_sequence w ≠ UINT64_MAX ∧ s <= wt_sequence w' ∧ wt_ram w' = wt_ram w ∧ (page - wt_ram w) mod 1024 = 0 ∧ 0 <= i < wt_pages w.
Proof.
  intros H. unfold arm_ram_watch_capture. destruct (Z.eqb_spec (wt_sequence w) UINT64_MAX) as [|N]; [by intros <-|].
  destruct (wo_pages w H) as [Hs Hp]. destruct (_ || _) eqn:G; [by intros <-|].
  apply orb_false_elim in G as [G G3]. apply orb_false_elim in G as [G1 G2]. apply Z.ltb_ge in G1. apply Z.leb_gt in G2. apply negb_false_iff, Z.eqb_eq in G3.
  change 1023 with (Z.ones 10) in G3. rewrite Z.land_ones in G3 by lia. change (2 ^ 10) with 1024 in G3.
  assert (I : 0 <= (page - wt_ram w) / 1024 < wt_pages w) by (split; [apply Z.div_pos; lia|apply Z.div_lt_upper_bound; lia]).
  destruct (Z.eqb_spec (wt_stamp w ((page - wt_ram w) / 1024)) 0).
  - unfold next_stamp. rewrite (proj2 (Z.eqb_neq _ _) N). cbn [fst snd]. intros <- _. split; [apply fn_lookup_insert|]. split_and!; try done; cbn; lia.
  - cbn [fst snd]. intros <- _. split_and!; try done; try lia. destruct (wo_stamp w H ((page - wt_ram w) / 1024)) as [|[? ?]]; [lia|done].
Qed.

(** ** No alias of a stamped page *)

(** Every direct-write entry is one unstamped page of the watched RAM. *)
Record grants_ok (w : ram_watch) (c : arm_cpu) : Prop := {
  gr_base : wt_base w mod 1024 = 0;
  gr_alias slot h : 0 <= slot < ARM_DREAD_ENTRIES → be_host (dwrite (cache c) slot) = Some h →
    ∃ i, 0 <= i < wt_pages w ∧ h = wt_ram w + 1024 * i ∧ wt_stamp w i = 0 }.

Lemma touch_zero l i : ∀ w, wt_stamp w i = 0 → wt_stamp (foldl touch_page w l) i = 0.
Proof.
  induction l as [|k l IH]; intros w Hw; [done|]. cbn [foldl]. apply IH. unfold touch_page.
  destruct (Z.eqb_spec (wt_stamp w k) 0) as [|N]; [done|]. destruct (next_stamp w). cbn [wt_put wt_stamp].
  rewrite fn_lookup_insert_ne; [done | by intros ->].
Qed.

Lemma changed_zero w pa length i : wt_stamp w i = 0 → wt_stamp (arm_ram_watch_changed w pa length) i = 0.
Proof. intros Hw. unfold arm_ram_watch_changed. repeat (case_match; [done|]). by apply touch_zero. Qed.

Lemma block_aligned pa : uint 32 pa → (pa .& wnot ARM_DREAD_BLK_MASK) mod 1024 = 0 ∧ 0 <= pa .& wnot ARM_DREAD_BLK_MASK.
Proof.
  intros Hp. split; [| apply Z.land_nonneg; left; apply Hp]. change 1024 with (2 ^ 10). rewrite <- Z.land_ones by lia.
  rewrite <- Z.land_assoc. change (wnot ARM_DREAD_BLK_MASK .& Z.ones 10) with 0. apply Z.land_0_r.
Qed.

Lemma fill_grants w c va pa priv : watch_ok w → uint 32 pa → grants_ok w c → grants_ok w (watched_fill w va pa priv c).
Proof.
  intros Hw Hp [Gb Ga]. split; [done|]. unfold watched_fill, machine_watched_ram_write, machine_host_ram.
  destruct (block_aligned pa Hp) as [Hm Hn]. set (b := pa .& wnot ARM_DREAD_BLK_MASK) in *. change (ARM_DREAD_BLK_MASK + 1) with 1024.
  destruct (_ && _); [exact Ga|]. destruct (arm_ram_watch_unwatched _ _ _) eqn:U; cbn [negb]; [|exact Ga].
  change (1024 =? 0) with false. cbv iota. destruct (_ || _) eqn:R; [exact Ga|].
  apply orb_false_elim in R as [R1%Z.ltb_ge R2%Z.ltb_ge]. destruct (wo_pages w Hw) as [Hs Hpos].
  intros slot h Hslot. cbn [cache set_cache dwrite set_dwrite].
  destruct (decide (dread_slot va priv = slot)) as [<- | Hne].
  2: { rewrite fn_lookup_insert_ne by done. by apply Ga. }
  rewrite fn_lookup_insert. cbn [be_host]. intros [= <-].
  assert (b - wt_base w = 1024 * ((b - wt_base w) / 1024)) as Ed.
  { pose proof (Z.div_mod (b - wt_base w) 1024). rewrite Zminus_mod, Hm, Gb in H. change ((0 - 0) mod 1024) with 0 in H. lia. }
  exists ((b - wt_base w) / 1024). split; [lia|]. split; [lia|].
  unfold arm_ram_watch_unwatched in U. change (1024 =? 0) with false in U. destruct (_ || _); [done|].
  rewrite forallb_forall in U. apply Z.eqb_eq, U, list_elem_of_In, elem_of_seqZ.
  assert ((b - wt_base w) / 1024 <= (b - wt_base w + 1024 - 1) / 1024) by (apply Z.div_le_mono; lia). lia.
Qed.

Lemma capture_grants w c page : watch_ok w → grants_ok w c →
  let '(s, w', c') := arm_ram_watch_capture w c page in grants_ok w' c'.
Proof.
  intros Hw G0. pose proof G0 as [Gb Ga]. unfold arm_ram_watch_capture. destruct (Z.eqb_spec (wt_sequence w) UINT64_MAX) as [|N]; [exact G0|].
  destruct (_ || _) eqn:G; [exact G0|]. destruct (wt_stamp w _ =? 0); [|exact G0].
  apply orb_false_elim in G as [_ G3]. apply negb_false_iff, Z.eqb_eq in G3.
  change 1023 with (Z.ones 10) in G3. rewrite Z.land_ones in G3 by lia. change (2 ^ 10) with 1024 in G3.
  unfold next_stamp. rewrite (proj2 (Z.eqb_neq _ _) N). split; [done|].
  intros slot h Hslot. cbn [revoke_page cache set_cache dwrite set_dwrite wt_ram wt_pages wt_put wt_stamp].
  rewrite (proj2 (Z.leb_le 0 slot)), (proj2 (Z.ltb_lt slot _)) by lia. cbn [andb]. case_bool_decide as Eh; [done|].
  intros Hh. destruct (Ga slot h Hslot Hh) as (i & Hi & -> & Hz). exists i. split; [done|]. split; [done|].
  rewrite fn_lookup_insert_ne; [done|]. intros <-. apply Eh. rewrite Hh. f_equal.
  pose proof (Z.div_mod (page - wt_ram w) 1024). lia.
Qed.

Lemma flush_grants w c : grants_ok w c → grants_ok w (arm_mmu_tlb_flush c).
Proof.
  intros [Gb Ga]. split; [done|]. intros slot h Hslot. unfold arm_mmu_tlb_flush. case_match; [done|]. cbn. by apply Ga.
Qed.

Lemma do_grants w c o : watch_ok w → watch_op_ok o → grants_ok w c →
  grants_ok (watch_do (w, c) o).1 (watch_do (w, c) o).2.
Proof.
  intros Hw Ho Hg. destruct o as [page|pa length|va pa priv|]; cbn [watch_do fst snd].
  - pose proof (capture_grants w c page Hw Hg) as G. by destruct (arm_ram_watch_capture w c page) as [[s w'] c'].
  - destruct (changed_later w pa length Hw Ho) as [_ (P1 & P2 & _ & P4) _ _ _]. destruct Hg as [Gb Ga].
    split; [by rewrite P2|]. intros slot h Hs Hh. destruct (Ga slot h Hs Hh) as (i & Hi & -> & Hz).
    exists i. rewrite P1, P4. split_and!; try done; try lia. by apply changed_zero.
  - by apply fill_grants.
  - by apply flush_grants.
Qed.

Lemma run_grants ops : Forall watch_op_ok ops → ∀ w c, watch_ok w → grants_ok w c →
  grants_ok (foldl watch_do (w, c) ops).1 (foldl watch_do (w, c) ops).2.
Proof.
  induction 1 as [|o ops Ho _ IH]; intros w c Hw Hg; cbn [foldl]; [done|].
  pose proof (do_grants w c o Hw Ho Hg) as G. pose proof (do_later w c o Hw Ho) as [L _ _ _ _].
  destruct (watch_do (w, c) o) as [w1 c1]. by apply IH.
Qed.

(** C19: between two captures of a page that give the same stamp, whatever else is
    captured, stored, granted and flushed in between, no announced store reached the page;
    and from the first of them on no store can go unannounced: no grant of the bus covers
    any byte of the page, and no entry of the core's direct-write cache, older ones
    included, points into it. *)
Theorem ram_watch_sound (w : ram_watch) (c : arm_cpu) (page s : Z) (ops : list watch_op) :
  watch_ok w → grants_ok w c → Forall watch_op_ok ops → s ≠ 0 →
  let '(s1, w1, c1) := arm_ram_watch_capture w c page in let i := (page - wt_ram w) / 1024 in
  s1 = s →
  let '(w2, c2) := foldl watch_do (w1, c1) ops in
  ((arm_ram_watch_capture w2 c2 page).1.1 = s → ¬ Exists (stores w1 i) ops)
  ∧ (∀ pa length, reaches w2 pa length i → machine_watched_ram_write w2 pa length = None)
  ∧ (∀ slot h, 0 <= slot < ARM_DREAD_ENTRIES → be_host (dwrite (cache c2) slot) = Some h →
       h + 1024 <= page ∨ page + 1024 <= h).
Proof.
  intros H Hg Ho Hs0. pose proof (capture_later w c page H) as L1. pose proof (captured w c page s H) as C1.
  pose proof (capture_grants w c page H Hg) as G1.
  destruct (arm_ram_watch_capture w c page) as [[s1 w1] c1]. cbn [fst snd] in *. set (i := (page - wt_ram w) / 1024) in *. intros E1.
  destruct (C1 E1 Hs0) as (S1 & N1 & B1 & R1 & Hp & I). pose proof (run_later ops Ho w1 c1 (la_ok _ _ _ L1)) as L2.
  pose proof (run_grants ops Ho w1 c1 (la_ok _ _ _ L1) G1) as G2.
  destruct (foldl watch_do (w1, c1) ops) as [w2 c2]. cbn [fst snd] in L2, G2. destruct L2 as [O2 (P1 & P2 & P3 & P4) Q2 St2 F2].
  assert (wt_stamp w2 i ≠ 0) as Hne.
  { specialize (St2 i ltac:(congruence)). destruct (wo_stamp w1 (la_ok _ _ _ L1) i); unfold UINT64_MAX in *; lia. }
  split; [|split].
  - intros E2 X. destruct (captured w2 c2 page s O2 E2 Hs0) as (S2 & N2 & _). rewrite P1, R1 in S2. fold i in S2.
    assert (K : (arm_ram_watch_capture w2 c2 page).1.2 = w2 ∨ wt_stamp w2 i = 0).
    { unfold arm_ram_watch_capture. rewrite P1, R1. fold i. destruct (_ =? UINT64_MAX); [by left|]. destruct (_ || _); [by left|].
      destruct (Z.eqb_spec (wt_stamp w2 i) 0); [by right|by left]. }
    specialize (F2 i X ltac:(congruence) N2). destruct (wo_sequence w1 (la_ok _ _ _ L1)). destruct K as [K|K]; [rewrite K in S2|]; lia.
  - intros pa length (a & A1 & A2 & A3). unfold machine_watched_ram_write. destruct (_ && _); [done|].
    assert (arm_ram_watch_unwatched (Some w2) pa length = false) as ->; [|done].
    unfold arm_ram_watch_unwatched. destruct (_ || _) eqn:G; [done|].
    apply orb_false_elim in G as [G E3]. apply orb_false_elim in G as [E1' E2]. apply Z.ltb_ge in E2, E3.
    apply not_true_iff_false. intros T. rewrite forallb_forall in T.
    assert (Z0 : (wt_stamp w2 i =? 0) = true).
    { apply T, list_elem_of_In, elem_of_seqZ.
      assert ((pa - wt_base w2) / 1024 <= i) by (apply Z.lt_succ_r, Z.div_lt_upper_bound; lia).
      assert (i <= (pa - wt_base w2 + length - 1) / 1024) by (apply Z.div_le_lower_bound; lia). lia. }
    by apply Z.eqb_eq in Z0.
  - intros slot h Hslot Hh. destruct (gr_alias _ _ G2 slot h Hslot Hh) as (j & Hj & -> & Hz).
    assert (j ≠ i) by (by intros ->). pose proof (Z.div_mod (page - wt_ram w) 1024) as Ed. fold i in Ed.
    rewrite P1, R1. lia.
Qed.

Lemma created_ok memory ram base size w : 0 <= size → arm_ram_watch_create memory ram base size = Some w → watch_ok w.
Proof.
  intros Hn. unfold arm_ram_watch_create. destruct ram as [ram|]; [|done]. destruct (_ || _) eqn:G; [done|]. destruct memory; [|done]. intros [= <-].
  apply orb_false_elim in G as [G _]. apply orb_false_elim in G as [G G3]. apply orb_false_elim in G as [G1 _]. apply Z.eqb_neq in G1.
  apply negb_false_iff, Z.eqb_eq in G3. change 1023 with (Z.ones 10) in G3. rewrite Z.land_ones in G3 by lia. change (2 ^ 10) with 1024 in G3.
  split; [split; cbn; lia|intros i; left; cbn; lia|]. cbn [wt_size wt_pages]. pose proof (Z.div_mod size 1024). lia.
Qed.

(** *** An example: the third page is captured, the first is written *)

Definition demo_watch : ram_watch := MkWatch 0x7000 0x08000000 4096 4 0 (fun _ => 0).
Definition watched_cpu : arm_cpu :=
  set_cache (set_dwrite (<[5 := MkBlk (Some 0x7800) 9 1]> (fun _ => MkBlk None 0 0)) (cache flat_cpu)) flat_cpu.
Definition watch_ops : list watch_op :=
  [Changed 0x08000000 16; Capture 0x7800; Fill 0x4000 0x08000b00 false; Fill 0x4400 0x08000c00 false].

Lemma demo_grants : grants_ok demo_watch watched_cpu.
Proof.
  split; [reflexivity|]. intros slot h _. cbn. destruct (decide (5 = slot)) as [<- | Hne].
  - rewrite fn_lookup_insert. cbn. intros [= <-]. by exists 2.
  - by rewrite fn_lookup_insert_ne by done.
Qed.

(** The alias of the captured page is gone, and the page cannot be granted again; its
    neighbour can. *)
Lemma ram_watch_sound_witness :
  arm_ram_watch_create true (Some 0x7000) 0x08000000 4096 = Some demo_watch
  ∧ be_host (dwrite (cache watched_cpu) 5) = Some 0x7800
  ∧ let '(s, w, c) := arm_ram_watch_capture demo_watch watched_cpu 0x7800 in
    let '(w', c') := foldl watch_do (w, c) watch_ops in
    s = 1 ∧ be_host (dwrite (cache c') (dread_slot 0x4400 false)) = Some 0x7c00
    ∧ ¬ Exists (stores w 2) watch_ops
    ∧ machine_watched_ram_write w' 0x08000bfe 4 = None
    ∧ ∀ slot h, 0 <= slot < ARM_DREAD_ENTRIES → be_host (dwrite (cache c') slot) = Some h → h + 1024 <= 0x7800 ∨ 0x7800 + 1024 <= h.
Proof.
  split; [reflexivity|]. split; [reflexivity|].
  assert (O : watch_ok demo_watch) by (apply (created_ok true (Some 0x7000) 0x08000000 4096); [lia|reflexivity]).
  assert (Hops : Forall watch_op_ok watch_ops) by (repeat constructor; cbn; lia).
  pose proof (ram_watch_sound demo_watch watched_cpu 0x7800 1 watch_ops O demo_grants Hops ltac:(lia)) as T.
  destruct (arm_ram_watch_capture demo_watch watched_cpu 0x7800) as [[s w] c] eqn:E.
  assert (F : s = 1) by (injection E as <- <- <-; done). specialize (T F).
  assert (P : let wc := foldl watch_do (w, c) watch_ops in wt_base wc.1 = 0x08000000 ∧ wt_pages wc.1 = 4
    ∧ (arm_ram_watch_capture wc.1 wc.2 0x7800).1.1 = 1 ∧ be_host (dwrite (cache wc.2) (dread_slot 0x4400 false)) = Some 0x7c00)
    by (injection E as <- <- <-; vm_compute; done).
  destruct (foldl watch_do (w, c) watch_ops) as [w2 c2]. cbn [fst snd] in *. destruct P as (P1 & P2 & P3 & P4). destruct T as (T1 & T2 & T3).
  split_and!; [done|done|apply T1, P3| |exact T3]. apply T2. exists 0x08000bfe. rewrite P1, P2. vm_compute. split_and!; (discriminate || reflexivity).
Defined.
