(* ===== verification/Bytes.v ===== *)
(** * Byte buffers

    Buffers the host program reads and writes by offset: lists of bytes, every read
    going through [get8], which is [None] outside the buffer.  A function that may
    read outside its buffer therefore returns an option, and proving that it never
    returns [None] is proving it memory safe. *)

From S2P Require Import Prelude.

Definition get8 (b : list Z) (off : Z) : option Z :=
  if off <? 0 then None else w8 <$> b !! Z.to_nat off.

(** [rd32] of the little-endian parsers. *)
Definition rd32 (b : list Z) (off : Z) : option Z :=
  p0 ← get8 b off; p1 ← get8 b (off + 1); p2 ← get8 b (off + 2); p3 ← get8 b (off + 3);
  Some (((p0 .| Z.shiftl p1 8) .| Z.shiftl p2 16) .| Z.shiftl p3 24).

(** The source of a [memcpy] of [n] bytes. *)
Definition get_bytes (b : list Z) (off n : Z) : option (list Z) :=
  mapM (get8 b) (seqZ off n).

(** The destination of one: [src] written over [dst] from [off]. *)
Definition put_bytes (dst : list Z) (off : Z) (src : list Z) : option (list Z) :=
  if (off <? 0) || (Z.of_nat (length dst) <? off + Z.of_nat (length src)) then None
  else Some (take (Z.to_nat off) dst ++ src ++ drop (Z.to_nat off + length src) dst).

Definition blen (b : list Z) : Z := Z.of_nat (length b).

(** The characters of a C string: up to the first NUL. *)
Fixpoint c_string (l : list Z) : list Z :=
  match l with
  | [] => []
  | c :: l => if c =? 0 then [] else c :: c_string l
  end.

(** ** Reads inside the buffer succeed *)

Lemma get8_inside b off : 0 <= off < blen b → ∃ v, get8 b off = Some v ∧ uint 8 v.
Proof.
  intros [Hlo Hhi]. unfold get8, blen in *. replace (off <? 0) with false by lia.
  destruct (lookup_lt_is_Some_2 b (Z.to_nat off)) as [x ->]; [lia |].
  exists (w8 x). split; [done | apply uint_w8].
Qed.

Lemma get8_uint b off v : get8 b off = Some v → uint 8 v.
Proof.
  unfold get8. case_match; [done |]. destruct (b !! _); [| done]. intros [= <-]. apply uint_w8.
Qed.

Lemma rd32_inside b off : 0 <= off → off + 4 <= blen b → ∃ v, rd32 b off = Some v ∧ uint 32 v.
Proof.
  intros Hlo Hhi. unfold rd32.
  destruct (get8_inside b off) as (p0 & -> & H0); [lia |].
  destruct (get8_inside b (off + 1)) as (p1 & -> & H1); [lia |].
  destruct (get8_inside b (off + 2)) as (p2 & -> & H2); [lia |].
  destruct (get8_inside b (off + 3)) as (p3 & -> & H3); [lia |]. simpl.
  eexists. split; [done |].
  repeat apply uint_lor; try lia; [by apply (uint_mono 8); [| lia] | ..];
    by apply (uint_shiftl 32 8); try lia.
Qed.

Lemma get_bytes_inside b off n : 0 <= off → off + n <= blen b →
  ∃ l, get_bytes b off n = Some l ∧ blen l = Z.max 0 n ∧ Forall (uint 8) l.
Proof.
  intros Hlo Hhi. unfold get_bytes.
  destruct (mapM (get8 b) (seqZ off n)) as [l |] eqn:E.
  - exists l. split; [done |]. apply mapM_Some in E. split.
    + apply Forall2_length in E. rewrite length_seqZ in E. unfold blen. lia.
    + clear Hlo Hhi. induction E; constructor; eauto using get8_uint.
  - apply mapM_None in E. apply Exists_exists in E as (i & Hi & Hn).
    apply list_elem_of_In, elem_of_seqZ in Hi. destruct (get8_inside b i) as (v & Hv & _); [lia |]. congruence.
Qed.

Lemma get_bytes_lookup b off n l i : get_bytes b off n = Some l → 0 <= i < n →
  get8 b (off + i) = l !! Z.to_nat i.
Proof.
  unfold get_bytes. intros E Hi. apply mapM_Some in E.
  assert (seqZ off n !! Z.to_nat i = Some (off + i)) as Hs by (apply lookup_seqZ; lia).
  destruct (Forall2_lookup_l _ _ _ _ _ E Hs) as (v & Hv & Hg). by rewrite Hg, Hv.
Qed.

Lemma put_bytes_inside dst off src : 0 <= off → off + blen src <= blen dst →
  ∃ l, put_bytes dst off src = Some l ∧ blen l = blen dst.
Proof.
  intros Hlo Hhi. unfold put_bytes, blen in *. replace (off <? 0) with false by lia.
  replace (_ <? _) with false by lia. eexists. split; [done |].
  rewrite !length_app, length_take, length_drop. lia.
Qed.

(** ** Reads of a concatenation *)

Definition is_bytes (l : list Z) : Prop := Forall (uint 8) l.

#[export] Instance uint_dec w x : Decision (uint w x).
Proof. unfold uint. apply _. Defined.

(** Decides a closed statement about concrete bytes. *)
Ltac by_computation := apply (bool_decide_unpack _); vm_compute; exact I.

Lemma blen_nonneg (l : list Z) : 0 <= blen l.
Proof. unfold blen. lia. Qed.

Lemma blen_app a b : blen (a ++ b) = blen a + blen b.
Proof. unfold blen. rewrite length_app. lia. Qed.

Lemma blen_drop (l : list Z) n : 0 <= n <= blen l → blen (drop (Z.to_nat n) l) = blen l - n.
Proof. unfold blen. rewrite length_drop. lia. Qed.

Lemma get8_app pre b off : 0 <= off → get8 (pre ++ b) (blen pre + off) = get8 b off.
Proof.
  intros H. unfold get8, blen.
  destruct (Z.ltb_spec (Z.of_nat (length pre) + off) 0); [lia |].
  replace (off <? 0) with false by lia.
  rewrite lookup_app_r by lia. do 2 f_equal. lia.
Qed.

Lemma rd32_app pre b off : 0 <= off → rd32 (pre ++ b) (blen pre + off) = rd32 b off.
Proof. intros H. unfold rd32. rewrite <- !(Z.add_assoc (blen pre)). by rewrite !get8_app by lia. Qed.

Lemma get_bytes_app_l pre b off n : 0 <= off →
  get_bytes (pre ++ b) (blen pre + off) n = get_bytes b off n.
Proof.
  intros H. unfold get_bytes.
  rewrite <- (fmap_add_seqZ (blen pre) off n).
  assert (Forall (fun i => 0 <= i) (seqZ off n)) as Hp.
  { apply Forall_forall. intros x Hx%list_elem_of_In%elem_of_seqZ. lia. }
  induction Hp as [| i l Hi Hp IH]; csimpl; [done |]. rewrite get8_app by done.
  destruct (get8 b i); simpl; [| done]. by f_equal.
Qed.

Lemma get_bytes_self l post : is_bytes l → get_bytes (l ++ post) 0 (blen l) = Some l.
Proof.
  intros H. unfold get_bytes, blen. induction H as [| x l Hx H IH]; [done |].
  replace (Z.of_nat (length (x :: l))) with (Z.succ (Z.of_nat (length l))) by (simpl; lia).
  rewrite (seqZ_cons 0) by lia. simpl.
  unfold get8 at 1. simpl. unfold w8. rewrite wrap_small by done. simpl.
  pose proof (get_bytes_app_l [x] (l ++ post) 0 (Z.of_nat (length l)) ltac:(lia)) as E.
  unfold get_bytes in E. change (blen [x] + 0) with 1 in E. simpl in E.
  replace (Z.pred (Z.succ (Z.of_nat (length l)))) with (Z.of_nat (length l)) by lia.
  transitivity (Some l ≫= λ k, Some (x :: k)); [f_equal; exact (eq_trans E IH) | done].
Qed.

(** A 32-bit word stored little-endian. *)
Definition le32 (x : Z) : list Z := [x .& 0xff; fld x 8 0xff; fld x 16 0xff; fld x 24 0xff].

Lemma blen_le32 x : blen (le32 x) = 4.
Proof. done. Qed.

Lemma le32_bytes x : is_bytes (le32 x).
Proof. repeat apply Forall_cons_2; try apply Forall_nil_2; apply uint_land_r; (lia || (split; lia)). Qed.

(** Bit [i] of byte [k / 8], put back at its place. *)
Lemma testbit_byte x k i : 0 <= k → 0 <= i →
  Z.testbit (Z.shiftl (fld x k 0xff) k) i = ((k <=? i) && (i <? k + 8)) && Z.testbit x i.
Proof.
  intros Hk Hi. change 0xff with (Z.ones 8). unfold fld. rewrite Z.shiftl_spec by done.
  destruct (Z.leb_spec k i); [| by rewrite Z.testbit_neg_r by lia].
  rewrite Z.land_spec, Z.shiftr_spec, Z.testbit_ones_nonneg, Z.sub_add by lia.
  destruct (Z.ltb_spec (i - k) 8), (Z.ltb_spec i (k + 8)); try lia; simpl;
    by rewrite ?andb_true_r, ?andb_false_r.
Qed.

Lemma le32_join x : uint 32 x →
  (((x .& 0xff) .| Z.shiftl (fld x 8 0xff) 8) .| Z.shiftl (fld x 16 0xff) 16)
  .| Z.shiftl (fld x 24 0xff) 24 = x.
Proof.
  intros Hx. replace (x .& 0xff) with (Z.shiftl (fld x 0 0xff) 0)
    by (unfold fld; by rewrite Z.shiftr_0_r, Z.shiftl_0_r).
  apply Z.bits_inj'. intros i Hi. rewrite !Z.lor_spec, !testbit_byte by lia.
  destruct (Z_lt_le_dec i 32); [| by rewrite (uint_high 32 x), !andb_false_r by (done || lia)].
  destruct (Z.testbit x i); rewrite ?andb_true_r, ?andb_false_r; lia.
Qed.

Lemma rd32_le32 x post : uint 32 x → rd32 (le32 x ++ post) 0 = Some x.
Proof.
  intros Hx. rewrite <- (le32_join x Hx) at 2.
  pose proof (le32_bytes x) as H. unfold is_bytes, le32 in H. rewrite !Forall_cons_iff in H.
  destruct H as (H0 & H1 & H2 & H3 & _). unfold rd32, get8, le32, w8. simpl.
  by rewrite !wrap_small by done.
Qed.

(** A word where it was stored. *)
Lemma rd32_at b pre x post off : b = pre ++ le32 x ++ post → off = blen pre → uint 32 x →
  rd32 b off = Some x.
Proof.
  intros -> -> Hx. rewrite <- (Z.add_0_r (blen pre)), rd32_app by done. by apply rd32_le32.
Qed.

Lemma get_bytes_at b pre l post off n : b = pre ++ l ++ post → off = blen pre → n = blen l →
  is_bytes l → get_bytes b off n = Some l.
Proof.
  intros -> -> -> Hl. pose proof (get_bytes_app_l pre (l ++ post) 0 (blen l) ltac:(done)) as E.
  rewrite Z.add_0_r in E. rewrite E. by apply get_bytes_self.
Qed.

(** Reads of a prefix. *)
Lemma get8_prefix b post off : off < blen b → get8 (b ++ post) off = get8 b off.
Proof.
  intros H. unfold get8, blen in *. destruct (Z.ltb_spec off 0); [done |].
  by rewrite lookup_app_l by lia.
Qed.

Lemma rd32_prefix b post off : off + 4 <= blen b → rd32 (b ++ post) off = rd32 b off.
Proof. intros H. unfold rd32. by rewrite !get8_prefix by lia. Qed.

Lemma get_bytes_prefix b post off n : off + n <= blen b →
  get_bytes (b ++ post) off n = get_bytes b off n.
Proof.
  intros H. unfold get_bytes.
  assert (Forall (fun i => i < blen b) (seqZ off n)) as Hp.
  { apply Forall_forall. intros x Hx%list_elem_of_In%elem_of_seqZ. lia. }
  induction Hp as [| i l Hi Hp IH]; csimpl; [done |]. rewrite get8_prefix by done.
  destruct (get8 b i); simpl; [| done]. by f_equal.
Qed.

(** Reads in the middle: of [p] in [pre ++ p ++ post]. *)
Lemma rd32_mid pre p post off : 0 <= off → off + 4 <= blen p →
  rd32 (pre ++ p ++ post) (blen pre + off) = rd32 p off.
Proof. intros. rewrite rd32_app by done. by apply rd32_prefix. Qed.

Lemma get_bytes_mid pre p post off n : 0 <= off → off + n <= blen p →
  get_bytes (pre ++ p ++ post) (blen pre + off) n = get_bytes p off n.
Proof. intros. rewrite get_bytes_app_l by done. by apply get_bytes_prefix. Qed.

Lemma get8_outside b off : blen b <= off → get8 b off = None.
Proof.
  intros H. unfold get8, blen in *. destruct (Z.ltb_spec off 0); [done |].
  by rewrite lookup_ge_None_2 by lia.
Qed.

Lemma get_bytes_outside b off n : 0 < n → blen b < off + n → get_bytes b off n = None.
Proof.
  intros Hn H. unfold get_bytes. apply mapM_None. apply Exists_exists.
  exists (off + n - 1). split; [| apply get8_outside; lia].
  apply list_elem_of_In, elem_of_seqZ. lia.
Qed.

Lemma get_bytes_split b off n1 n2 l : 0 <= n1 → 0 <= n2 → get_bytes b off (n1 + n2) = Some l →
  get_bytes b off n1 = Some (take (Z.to_nat n1) l) ∧
  get_bytes b (off + n1) n2 = Some (drop (Z.to_nat n1) l).
Proof.
  intros H1 H2. unfold get_bytes. rewrite seqZ_app by done. intros E%mapM_Some.
  apply Forall2_app_inv_l in E as (l1 & l2 & E1 & E2 & ->).
  assert (length l1 = Z.to_nat n1) as L1 by (apply Forall2_length in E1; rewrite length_seqZ in E1; lia).
  rewrite take_app_length', drop_app_length' by done. by split; apply mapM_Some.
Qed.

Lemma get_bytes_length b off n l : get_bytes b off n = Some l → blen l = Z.max 0 n.
Proof.
  intros E%mapM_Some%Forall2_length. rewrite length_seqZ in E. unfold blen. lia.
Qed.

Lemma put_bytes_blen dst off src l : put_bytes dst off src = Some l → blen l = blen dst.
Proof.
  intros E. unfold put_bytes in E. destruct (_ || _) eqn:Eb; [done |].
  apply orb_false_elim in Eb as [?%Z.ltb_ge ?%Z.ltb_ge].
  destruct (put_bytes_inside dst off src) as (l' & E' & Hl); [done | unfold blen; lia |].
  unfold put_bytes in E'. rewrite !(proj2 (Z.ltb_ge _ _)) in E' by done. simpl in E'. congruence.
Qed.

(** What was written is read back. *)
Lemma put_get_bytes dst off src l : put_bytes dst off src = Some l → is_bytes src →
  get_bytes l off (blen src) = Some src.
Proof.
  unfold put_bytes. destruct (_ || _) eqn:E; [done |]. intros [= <-] Hs.
  apply orb_false_elim in E as [E1%Z.ltb_ge E2%Z.ltb_ge].
  assert (blen (take (Z.to_nat off) dst) = off) as L by (unfold blen; rewrite length_take; lia).
  pose proof (get_bytes_app_l (take (Z.to_nat off) dst)
    (src ++ drop (Z.to_nat off + length src) dst) 0 (blen src) ltac:(done)) as E.
  rewrite L, Z.add_0_r in E. rewrite E. by apply get_bytes_self.
Qed.

(** Transfers in pieces. *)
Lemma get_bytes_join b off n1 n2 l1 l2 : 0 <= n1 → 0 <= n2 →
  get_bytes b off n1 = Some l1 → get_bytes b (off + n1) n2 = Some l2 →
  get_bytes b off (n1 + n2) = Some (l1 ++ l2).
Proof.
  intros H1 H2 E1%mapM_Some E2%mapM_Some. unfold get_bytes. rewrite seqZ_app by done.
  apply mapM_Some. by apply Forall2_app.
Qed.

Lemma put_bytes_join dst off l1 l2 d1 d2 : put_bytes dst off l1 = Some d1 →
  put_bytes d1 (off + blen l1) l2 = Some d2 → put_bytes dst off (l1 ++ l2) = Some d2.
Proof.
  unfold put_bytes, blen. destruct (_ || _) eqn:E1; [done |]. intros [= <-].
  apply orb_false_elim in E1 as [?%Z.ltb_ge ?%Z.ltb_ge].
  set (pre := take (Z.to_nat off) dst). assert (length pre = Z.to_nat off) as Lp
    by (unfold pre; rewrite length_take; lia).
  destruct (_ || _) eqn:E2; [done |]. intros [= <-].
  apply orb_false_elim in E2 as [?%Z.ltb_ge H2%Z.ltb_ge].
  rewrite !length_app, length_drop in H2.
  destruct (_ || _) eqn:E3.
  { rewrite length_app in E3. apply orb_true_iff in E3 as [?%Z.ltb_lt | ?%Z.ltb_lt]; lia. }
  assert (Z.to_nat (off + Z.of_nat (length l1)) = length (pre ++ l1)) as Hn
    by (rewrite length_app; lia).
  rewrite Hn, (app_assoc pre l1), take_app_length, drop_app_ge by lia.
  rewrite drop_drop, <- !app_assoc. do 5 f_equal. rewrite !length_app. lia.
Qed.

(** ** Programs that return

    [returns Q m]: [m] reads inside its buffers, terminates, and its result satisfies
    [Q].  The rules below are the proof rules of a total-correctness logic; the tactic
    [reading] applies them along a parser. *)

Definition returns {A} (Q : A → Prop) (m : option A) : Prop := ∃ a, m = Some a ∧ Q a.

Lemma returns_ret {A} (Q : A → Prop) a : Q a → returns Q (Some a).
Proof. by exists a. Qed.

Lemma returns_bind {A B} (P : A → Prop) (Q : B → Prop) m (f : A → option B) :
  returns P m → (∀ a, P a → returns Q (f a)) → returns Q (m ≫= f).
Proof. intros (a & -> & Ha) H. by apply H. Qed.

Lemma returns_if {A} (Q : A → Prop) (c : bool) m1 m2 :
  (c = true → returns Q m1) → (c = false → returns Q m2) → returns Q (if c then m1 else m2).
Proof. destruct c; auto. Qed.

Lemma returns_weaken {A} (P Q : A → Prop) m : returns P m → (∀ a, P a → Q a) → returns Q m.
Proof. intros (a & -> & Ha) H. exists a. auto. Qed.

Lemma returns_get8 b off : 0 <= off < blen b → returns (uint 8) (get8 b off).
Proof. apply get8_inside. Qed.

Lemma returns_rd32 b off : 0 <= off ∧ off + 4 <= blen b → returns (uint 32) (rd32 b off).
Proof. intros []. by apply rd32_inside. Qed.

Lemma returns_get_bytes b off n : 0 <= off ∧ 0 <= n ∧ off + n <= blen b →
  returns (fun l => blen l = n ∧ is_bytes l) (get_bytes b off n).
Proof.
  intros (H1 & H2 & H3). destruct (get_bytes_inside b off n) as (l & E & Hl & Hb); [done.. |].
  exists l. split_and!; [done | lia | done].
Qed.

Lemma returns_put_bytes dst off src : 0 <= off ∧ off + blen src <= blen dst →
  returns (fun l => blen l = blen dst ∧ ∀ x, In x src → In x l) (put_bytes dst off src).
Proof.
  intros [H1 H2]. destruct (put_bytes_inside dst off src H1 H2) as (l & E & Hl). exists l.
  split_and!; [done.. |]. intros x Hx. unfold put_bytes in E. case_match; [done |].
  injection E as <-. rewrite !in_app_iff. auto.
Qed.

(** The conditions of the path taken, as comparisons. *)
Ltac bool_facts :=
  repeat match goal with
  | H : _ && _ = true |- _ => apply andb_prop in H as []
  | H : _ || _ = false |- _ => apply orb_false_elim in H as []
  | H : negb _ = true |- _ => apply negb_true_iff in H
  | H : negb _ = false |- _ => apply negb_false_iff in H
  | H : (_ <? _) = true |- _ => apply Z.ltb_lt in H
  | H : (_ <? _) = false |- _ => apply Z.ltb_ge in H
  | H : (_ <=? _) = true |- _ => apply Z.leb_le in H
  | H : (_ <=? _) = false |- _ => apply Z.leb_gt in H
  | H : (_ =? _) = true |- _ => apply Z.eqb_eq in H
  | H : (_ =? _) = false |- _ => apply Z.eqb_neq in H
  end.

(** One rule; side conditions on offsets by [lia]. *)
Ltac read1 :=
  lazymatch goal with
  | |- returns _ (rd32 _ _ ≫= _) =>
    eapply returns_bind; [apply returns_rd32; lia | intros ? [? ?]]
  | |- returns _ (get8 _ _ ≫= _) =>
    eapply returns_bind; [apply returns_get8; lia | intros ? [? ?]]
  | |- returns _ (get_bytes _ _ _ ≫= _) =>
    eapply returns_bind; [apply returns_get_bytes; lia | intros ? [? ?]]
  | |- returns _ (put_bytes _ _ _ ≫= _) =>
    eapply returns_bind; [apply returns_put_bytes; lia | intros ? [? ?]]
  | |- returns _ (if _ then _ else _) => apply returns_if; intros; bool_facts
  | |- returns _ (Some _) => apply returns_ret
  end.
Ltac reading := repeat (cbv zeta; read1).

(** ** Arrays of octets that are written in place

    A write seen octet by octet, and programming, which only clears bits. *)

Lemma get8_put dst off src l x : put_bytes dst off src = Some l → 0 <= x →
  get8 l x = if (off <=? x) && (x <? off + blen src) then get8 src (x - off) else get8 dst x.
Proof.
  unfold put_bytes, blen. destruct (_ || _) eqn:E; [done|]. intros [= <-] Hx.
  rewrite orb_false_iff, !Z.ltb_ge in E. unfold get8. rewrite (proj2 (Z.ltb_ge x 0)) by done.
  destruct (Z.leb_spec off x) as [A|A]; cbn [andb].
  2:{ f_equal. rewrite lookup_app_l by (rewrite length_take; lia). apply lookup_take_lt. lia. }
  rewrite lookup_app_r by (rewrite length_take; lia). rewrite length_take.
  destruct (Z.ltb_spec x (off + Z.of_nat (length src))) as [B|B].
  - rewrite (proj2 (Z.ltb_ge (x - off) 0)) by lia. f_equal. rewrite lookup_app_l by lia. f_equal. lia.
  - f_equal. rewrite lookup_app_r, lookup_drop by lia. f_equal. lia.
Qed.

Lemma get_bytes_ext b b' off off' n : (∀ i, 0 <= i < n → get8 b (off + i) = get8 b' (off' + i)) →
  get_bytes b off n = get_bytes b' off' n.
Proof.
  intros H. unfold get_bytes. destruct (Z.ltb_spec 0 n) as [Hn|Hn].
  2:{ by rewrite !seqZ_nil by done. }
  assert (E : ∀ o, seqZ o n = map (Z.add o) (seqZ 0 n)).
  { intros o. apply list_eq. intros i. rewrite list_lookup_fmap.
    destruct (decide (Z.of_nat i < n)) as [L|L].
    - assert (A : seqZ o n !! i = Some (o + Z.of_nat i)) by (apply lookup_seqZ; lia).
      assert (B : seqZ 0 n !! i = Some (0 + Z.of_nat i)) by (apply lookup_seqZ; lia).
      by rewrite A, B.
    - by rewrite !lookup_seqZ_ge by lia. }
  rewrite (E off), (E off'). clear E.
  assert (H' : Forall (fun i => get8 b (off + i) = get8 b' (off' + i)) (seqZ 0 n)).
  { apply Forall_forall. intros i Hi. apply H. apply list_elem_of_In, elem_of_seqZ in Hi. lia. }
  induction H' as [|i l Hi Hl IH]; [done|]. simpl. by rewrite Hi, IH.
Qed.

(** A range beside the one written, and one inside it. *)
Lemma get_bytes_beside dst off src l x k : put_bytes dst off src = Some l → 0 <= x →
  x + k <= off ∨ off + blen src <= x → get_bytes l x k = get_bytes dst x k.
Proof.
  intros Hp Hx Ho. apply get_bytes_ext. intros i Hi. rewrite (get8_put _ _ _ _ _ Hp) by lia.
  destruct (Z.leb_spec off (x + i)), (Z.ltb_spec (x + i) (off + blen src)); done || lia.
Qed.

Lemma get_bytes_within dst off src l x k : put_bytes dst off src = Some l → 0 <= off →
  off <= x → x + k <= off + blen src → get_bytes l x k = get_bytes src (x - off) k.
Proof.
  intros Hp H0 Hx Hk. apply get_bytes_ext. intros i Hi. rewrite (get8_put _ _ _ _ _ Hp) by lia.
  rewrite (proj2 (Z.leb_le _ _)), (proj2 (Z.ltb_lt _ _)) by lia. cbn [andb]. f_equal. lia.
Qed.

Lemma put_bytes_bytes dst off src l : put_bytes dst off src = Some l → is_bytes dst → is_bytes src → is_bytes l.
Proof.
  unfold put_bytes. destruct (_ || _); [done|]. intros [= <-] Hd Hs.
  apply Forall_app. split; [by apply Forall_take|]. apply Forall_app. split; [done|by apply Forall_drop].
Qed.

Lemma get_bytes_replicate m v x k : uint 8 v → 0 <= x → 0 <= k → x + k <= Z.of_nat m →
  get_bytes (replicate m v) x k = Some (replicate (Z.to_nat k) v).
Proof.
  intros Hv Hx Hk Hm. unfold get_bytes. apply mapM_Some_2.
  apply Forall2_same_length_lookup_2; [by rewrite length_seqZ, length_replicate|].
  intros i a b Ha Hb. apply lookup_seqZ in Ha as [-> Hi]. apply lookup_replicate in Hb as [-> _].
  unfold get8. rewrite (proj2 (Z.ltb_ge _ _)), lookup_replicate_2 by lia. simpl. f_equal. by apply wrap_small.
Qed.

Lemma get_bytes_all l : is_bytes l → get_bytes l 0 (blen l) = Some l.
Proof. intros Hl. pose proof (get_bytes_self l [] Hl) as E. by rewrite app_nil_r in E. Qed.

(** Programming [want] over [old] can only clear bits. *)
Definition only_clears (old want : list Z) : bool :=
  forallb (fun '(o, w) => (o .& w) =? w) (zip old want).
Lemma only_clears_land old : ∀ want, length old = length want → only_clears old want = true →
  zip_with Z.land old want = want.
Proof.
  unfold only_clears. induction old as [|o old IH]; intros [|w want] Hl T; try done. simpl in *.
  rewrite andb_true_iff, Z.eqb_eq in T. destruct T as [T1 T2]. rewrite T1. f_equal. apply IH; [by injection Hl|done].
Qed.
Lemma only_clears_ones want n : is_bytes want → only_clears (replicate n 0xff) want = true.
Proof.
  unfold only_clears. revert n. induction want as [|w want IH]; intros [|n] Hw; try done. simpl.
  apply Forall_cons_1 in Hw as [Hw Hwant]. rewrite IH by done. rewrite andb_true_r. apply Z.eqb_eq.
  rewrite Z.land_comm. change 0xff with (Z.ones 8). rewrite Z.land_ones by lia. apply Z.mod_small. exact Hw.
Qed.
