(* ===== verification/Aes.v ===== *)
(** * AES and CBC

    [core/src/firmware/aes.c]: the byte-oriented cipher, its key schedule and the two
    CBC directions.  A block is a list of sixteen bytes.  Decryption is proved to undo
    encryption, block by block and over a CBC stream, for any key schedule; the inverse
    S-box and the inverse of the column mixing are checked, not assumed. *)

From Stdlib Require Import Btauto.
From S2P Require Import Prelude Bytes.

Definition AES_BLOCK_SIZE := 16.
Definition AES_MAX_ROUNDS := 14.

Definition SBOX : list Z := [
  0x63; 0x7c; 0x77; 0x7b; 0xf2; 0x6b; 0x6f; 0xc5; 0x30; 0x01; 0x67; 0x2b; 0xfe; 0xd7; 0xab; 0x76;
  0xca; 0x82; 0xc9; 0x7d; 0xfa; 0x59; 0x47; 0xf0; 0xad; 0xd4; 0xa2; 0xaf; 0x9c; 0xa4; 0x72; 0xc0;
  0xb7; 0xfd; 0x93; 0x26; 0x36; 0x3f; 0xf7; 0xcc; 0x34; 0xa5; 0xe5; 0xf1; 0x71; 0xd8; 0x31; 0x15;
  0x04; 0xc7; 0x23; 0xc3; 0x18; 0x96; 0x05; 0x9a; 0x07; 0x12; 0x80; 0xe2; 0xeb; 0x27; 0xb2; 0x75;
  0x09; 0x83; 0x2c; 0x1a; 0x1b; 0x6e; 0x5a; 0xa0; 0x52; 0x3b; 0xd6; 0xb3; 0x29; 0xe3; 0x2f; 0x84;
  0x53; 0xd1; 0x00; 0xed; 0x20; 0xfc; 0xb1; 0x5b; 0x6a; 0xcb; 0xbe; 0x39; 0x4a; 0x4c; 0x58; 0xcf;
  0xd0; 0xef; 0xaa; 0xfb; 0x43; 0x4d; 0x33; 0x85; 0x45; 0xf9; 0x02; 0x7f; 0x50; 0x3c; 0x9f; 0xa8;
  0x51; 0xa3; 0x40; 0x8f; 0x92; 0x9d; 0x38; 0xf5; 0xbc; 0xb6; 0xda; 0x21; 0x10; 0xff; 0xf3; 0xd2;
  0xcd; 0x0c; 0x13; 0xec; 0x5f; 0x97; 0x44; 0x17; 0xc4; 0xa7; 0x7e; 0x3d; 0x64; 0x5d; 0x19; 0x73;
  0x60; 0x81; 0x4f; 0xdc; 0x22; 0x2a; 0x90; 0x88; 0x46; 0xee; 0xb8; 0x14; 0xde; 0x5e; 0x0b; 0xdb;
  0xe0; 0x32; 0x3a; 0x0a; 0x49; 0x06; 0x24; 0x5c; 0xc2; 0xd3; 0xac; 0x62; 0x91; 0x95; 0xe4; 0x79;
  0xe7; 0xc8; 0x37; 0x6d; 0x8d; 0xd5; 0x4e; 0xa9; 0x6c; 0x56; 0xf4; 0xea; 0x65; 0x7a; 0xae; 0x08;
  0xba; 0x78; 0x25; 0x2e; 0x1c; 0xa6; 0xb4; 0xc6; 0xe8; 0xdd; 0x74; 0x1f; 0x4b; 0xbd; 0x8b; 0x8a;
  0x70; 0x3e; 0xb5; 0x66; 0x48; 0x03; 0xf6; 0x0e; 0x61; 0x35; 0x57; 0xb9; 0x86; 0xc1; 0x1d; 0x9e;
  0xe1; 0xf8; 0x98; 0x11; 0x69; 0xd9; 0x8e; 0x94; 0x9b; 0x1e; 0x87; 0xe9; 0xce; 0x55; 0x28; 0xdf;
  0x8c; 0xa1; 0x89; 0x0d; 0xbf; 0xe6; 0x42; 0x68; 0x41; 0x99; 0x2d; 0x0f; 0xb0; 0x54; 0xbb; 0x16].

Definition sbox (x : Z) : Z := nth (Z.to_nat x) SBOX 0.

(** [for (i = 0; i < 256; i++) INV_SBOX[SBOX[i]] = i]. *)
Definition build_tables : Z → Z :=
  foldl (fun inv i => <[sbox i := i]> inv) (fun _ => 0) (seqZ 0 256).
Definition inv_sbox_table : list Z := Eval vm_compute in map build_tables (seqZ 0 256).
Definition inv_sbox (x : Z) : Z := nth (Z.to_nat x) inv_sbox_table 0.

(** ** The field *)

Definition xtime (a : Z) : Z := w8 (Z.shiftl a 1) .^ (if bit a 7 then 0x1b else 0).

(** [while (b)], over the eight bits of [b]. *)
Fixpoint gmul_from (k : nat) (a b r : Z) : Z :=
  match k with
  | O => r
  | S k =>
    if b =? 0 then r
    else gmul_from k (xtime a) (b .>> 1) (if bit b 0 then r .^ a else r)
  end.
Definition gmul (a b : Z) : Z := gmul_from 8 a b 0.

(** ** Key schedule *)

Definition sub_word (w : Z) : Z :=
  ((Z.shiftl (sbox (fld w 24 0xff)) 24 .| Z.shiftl (sbox (fld w 16 0xff)) 16)
   .| Z.shiftl (sbox (fld w 8 0xff)) 8) .| sbox (w .& 0xff).
Definition rot_word (w : Z) : Z := (w .<< 8) .| (w .>> 24).

Record aes_ctx := MkAes { rk : Z → Z; rounds : Z }.

Definition aes_geometry (key_bits : Z) : option (Z * Z) :=
  match key_bits with 128 => Some (4, 10) | 192 => Some (6, 12) | 256 => Some (8, 14) | _ => None end.

Definition key_word (key : list Z) (i : Z) : Z :=
  let k j := nth (Z.to_nat (4 * i + j)) key 0 in
  ((Z.shiftl (k 0) 24 .| Z.shiftl (k 1) 16) .| Z.shiftl (k 2) 8) .| k 3.

(** One step of the expansion: the schedule so far and [rcon]. *)
Definition expand_step (nk : Z) (acc : (Z → Z) * Z) (i : Z) : (Z → Z) * Z :=
  let '(w, rcon) := acc in
  let t := w (i - 1) in
  let '(t, rcon) :=
    if i mod nk =? 0 then (sub_word (rot_word t) .^ Z.shiftl rcon 24, xtime rcon)
    else if (6 <? nk) && (i mod nk =? 4) then (sub_word t, rcon)
    else (t, rcon) in
  (<[i := w (i - nk) .^ t]> w, rcon).

Definition aes_init (key : list Z) (key_bits : Z) : option aes_ctx :=
  match aes_geometry key_bits with
  | None => None
  | Some (nk, rounds) =>
    let total := 4 * (rounds + 1) in
    let w := foldl (fun w i => <[i := key_word key i]> w) (fun _ => 0) (seqZ 0 nk) in
    Some (MkAes (fst (foldl (expand_step nk) (w, 1) (seqZ nk (total - nk)))) rounds)
  end.

(** ** Rounds *)

Definition block := list Z.

Definition xor_blocks (a b : block) : block := zip_with Z.lxor a b.

(** The sixteen bytes of round key [rk[at..at+3]]. *)
Definition round_key (rk : Z → Z) (r : Z) : block :=
  flat_map (fun c => let w := rk (4 * r + c) in
                     [fld w 24 0xff; fld w 16 0xff; fld w 8 0xff; w .& 0xff]) (seqZ 0 4).
Definition add_round_key (rk : Z → Z) (r : Z) (s : block) : block :=
  xor_blocks s (round_key rk r).

Definition sub_bytes (s : block) : block := map sbox s.
Definition inv_sub_bytes (s : block) : block := map inv_sbox s.

(** [s[4*c + r] = t[4*((c + r) % 4) + r]], and its converse. *)
Definition shift_rows (s : block) : block :=
  map (fun i => let r := i mod 4 in nth (Z.to_nat (4 * ((i / 4 + r) mod 4) + r)) s 0) (seqZ 0 16).
Definition inv_shift_rows (s : block) : block :=
  foldl (fun t i => let r := i mod 4 in
           <[Z.to_nat (4 * ((i / 4 + r) mod 4) + r) := nth (Z.to_nat i) s 0]> t) s (seqZ 0 16).

Definition mix_column (a0 a1 a2 a3 : Z) : list Z :=
  let x := ((a0 .^ a1) .^ a2) .^ a3 in
  [a0 .^ (x .^ xtime (a0 .^ a1)); a1 .^ (x .^ xtime (a1 .^ a2));
   a2 .^ (x .^ xtime (a2 .^ a3)); a3 .^ (x .^ xtime (a3 .^ a0))].

Definition inv_mix_column (a0 a1 a2 a3 : Z) : list Z :=
  let g := gmul in
  [((g a0 14 .^ g a1 11) .^ g a2 13) .^ g a3 9;
   ((g a0 9 .^ g a1 14) .^ g a2 11) .^ g a3 13;
   ((g a0 13 .^ g a1 9) .^ g a2 14) .^ g a3 11;
   ((g a0 11 .^ g a1 13) .^ g a2 9) .^ g a3 14].

Fixpoint on_columns (f : Z → Z → Z → Z → list Z) (s : block) : block :=
  match s with
  | a0 :: a1 :: a2 :: a3 :: rest => f a0 a1 a2 a3 ++ on_columns f rest
  | _ => s
  end.
Definition mix_columns : block → block := on_columns mix_column.
Definition inv_mix_columns : block → block := on_columns inv_mix_column.

Definition encrypt_round (rk : Z → Z) (s : block) (r : Z) : block :=
  add_round_key rk r (mix_columns (shift_rows (sub_bytes s))).
Definition decrypt_round (rk : Z → Z) (s : block) (r : Z) : block :=
  inv_mix_columns (add_round_key rk r (inv_sub_bytes (inv_shift_rows s))).

Definition aes_encrypt_block (ctx : aes_ctx) (input : block) : block :=
  let s := add_round_key (rk ctx) 0 input in
  let s := foldl (encrypt_round (rk ctx)) s (seqZ 1 (rounds ctx - 1)) in
  add_round_key (rk ctx) (rounds ctx) (shift_rows (sub_bytes s)).

Definition aes_decrypt_block (ctx : aes_ctx) (input : block) : block :=
  let s := add_round_key (rk ctx) (rounds ctx) input in
  let s := foldl (decrypt_round (rk ctx)) s (reverse (seqZ 1 (rounds ctx - 1))) in
  add_round_key (rk ctx) 0 (inv_sub_bytes (inv_shift_rows s)).

(** ** CBC: [n] blocks from the front of [input] *)

Fixpoint cbc_decrypt_blocks (n : nat) (ctx : aes_ctx) (prev input : block) : list Z :=
  match n with
  | O => []
  | S n =>
    let cipher := take 16 input in
    xor_blocks (aes_decrypt_block ctx cipher) prev ++ cbc_decrypt_blocks n ctx cipher (drop 16 input)
  end.

Fixpoint cbc_encrypt_blocks (n : nat) (ctx : aes_ctx) (prev input : block) : list Z :=
  match n with
  | O => []
  | S n =>
    let out := aes_encrypt_block ctx (xor_blocks (take 16 input) prev) in
    out ++ cbc_encrypt_blocks n ctx out (drop 16 input)
  end.

(** [None] is the refusal of a length that is not whole blocks. *)
Definition aes_cbc_decrypt (ctx : aes_ctx) (iv input : list Z) : option (list Z) :=
  if negb (blen input mod AES_BLOCK_SIZE =? 0) then None
  else Some (cbc_decrypt_blocks (Z.to_nat (blen input / AES_BLOCK_SIZE)) ctx iv input).

Definition aes_cbc_encrypt (ctx : aes_ctx) (iv input : list Z) : option (list Z) :=
  if negb (blen input mod AES_BLOCK_SIZE =? 0) then None
  else Some (cbc_encrypt_blocks (Z.to_nat (blen input / AES_BLOCK_SIZE)) ctx iv input).

(** ** Facts: bytes and blocks *)

Definition is_block (s : block) : Prop := length s = 16%nat ∧ is_bytes s.

Lemma is_bytes_xor a b : is_bytes a → is_bytes b → is_bytes (xor_blocks a b).
Proof.
  intros Ha. revert b. induction Ha as [| x a Hx Ha IH]; intros b Hb; [constructor |].
  destruct Hb as [| y b Hy Hb]; constructor; [apply uint_lxor; done || lia | by apply IH].
Qed.

Lemma is_block_xor a b : is_block a → is_block b → is_block (xor_blocks a b).
Proof.
  intros [La Ha] [Lb Hb]. split; [| by apply is_bytes_xor].
  unfold xor_blocks. rewrite length_zip_with. lia.
Qed.

Lemma xor_blocks_cancel a b : length a = length b → xor_blocks (xor_blocks a b) b = a.
Proof.
  revert b. induction a as [| x a IH]; intros [| y b] [=]; [done |].
  unfold xor_blocks in *. simpl. rewrite IH by done. f_equal.
  by rewrite Z.lxor_assoc, Z.lxor_nilpotent, Z.lxor_0_r.
Qed.

Lemma round_key_block k r : is_block (round_key k r).
Proof.
  split; [done |]. unfold round_key, is_bytes. cbn -[Z.land Z.shiftr].
  repeat apply Forall_cons_2; try apply Forall_nil_2; apply uint_land_r; (lia || (split; lia)).
Qed.

Lemma byte_index x : uint 8 x → In x (seqZ 0 256).
Proof. intros [? ?]. apply list_elem_of_In, elem_of_seqZ. lia. Qed.

Lemma forall_bytes (P : Z → bool) : forallb P (seqZ 0 256) = true → ∀ x, uint 8 x → P x = true.
Proof. intros H x Hx. rewrite forallb_forall in H. by apply H, byte_index. Qed.

(** The inverse S-box inverts the S-box, and both are tables of bytes. *)
Lemma inv_sbox_sbox x : uint 8 x → inv_sbox (sbox x) = x.
Proof.
  intros Hx. apply Z.eqb_eq. apply (forall_bytes (fun x => inv_sbox (sbox x) =? x)); [| done].
  by vm_compute.
Qed.

Lemma sbox_uint x : uint 8 x → uint 8 (sbox x).
Proof.
  intros Hx. unfold uint. enough ((0 <=? sbox x) && (sbox x <? 2 ^ 8) = true) by lia.
  apply (forall_bytes (fun x => (0 <=? sbox x) && (sbox x <? 2 ^ 8))); [by vm_compute | done].
Qed.

(** ** Facts: the steps of a round and their inverses *)

Lemma sub_bytes_block s : is_block s → is_block (sub_bytes s).
Proof.
  intros [L H]. split; unfold sub_bytes; [by rewrite length_map |].
  apply Forall_map. exact (Forall_impl _ sbox_uint H).
Qed.

Lemma inv_sub_bytes_sub s : is_block s → inv_sub_bytes (sub_bytes s) = s.
Proof.
  intros [_ H]. unfold inv_sub_bytes, sub_bytes. rewrite map_map.
  induction H as [| x s Hx H IH]; simpl; [done |]. by rewrite inv_sbox_sbox, IH.
Qed.

(** A list of sixteen elements, by name. *)
Ltac sixteen s L :=
  do 16 (destruct s as [| ? s]; [discriminate L |]); destruct s; [| discriminate L].

Lemma shift_rows_block s : is_block s → is_block (shift_rows s).
Proof.
  intros [L H]. sixteen s L. split; [done |]. unfold is_bytes in *.
  match goal with |- Forall _ (shift_rows ?l) =>
    let t := eval vm_compute in (shift_rows l) in change (shift_rows l) with t end.
  rewrite !Forall_cons_iff in H. rewrite !Forall_cons_iff. tauto.
Qed.

Lemma inv_shift_rows_shift s : is_block s → inv_shift_rows (shift_rows s) = s.
Proof. intros [L _]. by sixteen s L. Qed.

(** [xtime], multiplication by x, is linear. *)
Lemma xtime_xor a b : xtime (a .^ b) = xtime a .^ xtime b.
Proof.
  unfold xtime, w8, bit. bitwise i Hi. rewrite !testbit_wrap, !Z.shiftl_spec, Z.lxor_spec by lia.
  destruct (i <? 8), (Z.testbit a 7), (Z.testbit b 7); simpl;
    rewrite ?Z.testbit_0_l; btauto.
Qed.

Lemma xtime_uint a : uint 8 (xtime a).
Proof.
  unfold xtime. apply uint_lxor; [lia | apply uint_w8 |]. destruct (bit a 7); split; lia.
Qed.

(** The inverse mixing undoes the mixing: over the linear operator [xtime] alone, for
    any four bytes. *)
Lemma inv_mix_column_mix a0 a1 a2 a3 rest :
  inv_mix_columns (mix_column a0 a1 a2 a3 ++ rest) = [a0; a1; a2; a3] ++ inv_mix_columns rest.
Proof.
  unfold inv_mix_columns, mix_column. simpl. f_equal; [| f_equal; [| f_equal; [| f_equal]]];
    unfold gmul; simpl gmul_from; rewrite ?Z.lxor_0_l, ?xtime_xor;
    apply Z.bits_inj'; intros i Hi; rewrite !Z.lxor_spec; btauto.
Qed.

Lemma inv_mix_columns_mix s : is_block s → inv_mix_columns (mix_columns s) = s.
Proof.
  intros [L _]. sixteen s L. unfold mix_columns. cbn [on_columns]. by rewrite !inv_mix_column_mix.
Qed.

Lemma mix_column_bytes a0 a1 a2 a3 :
  uint 8 a0 → uint 8 a1 → uint 8 a2 → uint 8 a3 → is_bytes (mix_column a0 a1 a2 a3).
Proof.
  intros. unfold mix_column, is_bytes. rewrite !Forall_cons_iff.
  split_and!; [..| constructor]; repeat first [done | apply xtime_uint | apply uint_lxor].
Qed.

Lemma mix_columns_block s : is_block s → is_block (mix_columns s).
Proof.
  intros [L H]. sixteen s L. split; [done |]. unfold mix_columns, is_bytes in *. cbn [on_columns].
  rewrite !Forall_cons_iff in H. rewrite !Forall_app. split_and!; try apply mix_column_bytes; tauto.
Qed.
#[export] Hint Resolve is_block_xor round_key_block sub_bytes_block shift_rows_block
  mix_columns_block : word.

Lemma add_round_key_block k r s : is_block s → is_block (add_round_key k r s).
Proof. unfold add_round_key. auto with word. Qed.
#[export] Hint Resolve add_round_key_block : word.

Lemma add_round_key_twice k r s : is_block s → add_round_key k r (add_round_key k r s) = s.
Proof.
  intros [L _]. destruct (round_key_block k r) as [Lk _].
  unfold add_round_key. apply xor_blocks_cancel. lia.
Qed.

Lemma encrypt_round_block k s r : is_block s → is_block (encrypt_round k s r).
Proof. unfold encrypt_round. auto 6 with word. Qed.

Lemma encrypt_rounds_block k l s : is_block s → is_block (foldl (encrypt_round k) s l).
Proof.
  revert s. induction l as [| r l IH]; simpl; intros s Hs; [done |].
  by apply IH, encrypt_round_block.
Qed.

(** ** Facts: a block *)

(** Undoing the first half of a round. *)
Lemma inv_sub_shift s : is_block s → inv_sub_bytes (inv_shift_rows (shift_rows (sub_bytes s))) = s.
Proof. intros H. rewrite inv_shift_rows_shift by auto with word. by apply inv_sub_bytes_sub. Qed.

Lemma decrypt_round_undo k s r : is_block s →
  decrypt_round k (shift_rows (sub_bytes (encrypt_round k s r))) r = shift_rows (sub_bytes s).
Proof.
  intros Hs. unfold decrypt_round.
  rewrite inv_sub_shift by (by apply encrypt_round_block). unfold encrypt_round.
  by rewrite add_round_key_twice, inv_mix_columns_mix by auto with word.
Qed.

(** The decryption loop straddles the rounds: it starts and ends between a row shift
    and a column mixing. *)
Lemma decrypt_rounds_undo k l s : is_block s →
  foldl (decrypt_round k) (shift_rows (sub_bytes (foldl (encrypt_round k) s l))) (reverse l)
  = shift_rows (sub_bytes s).
Proof.
  revert s. induction l as [| r l IH] using rev_ind; intros s Hs; [done |].
  rewrite foldl_snoc, reverse_snoc. cbn [foldl].
  rewrite decrypt_round_undo by (by apply encrypt_rounds_block). by apply IH.
Qed.

Lemma encrypt_block_block ctx p : is_block p → is_block (aes_encrypt_block ctx p).
Proof.
  intros Hp. unfold aes_encrypt_block.
  apply add_round_key_block, shift_rows_block, sub_bytes_block, encrypt_rounds_block.
  auto with word.
Qed.

Lemma decrypt_encrypt_block ctx p : is_block p →
  aes_decrypt_block ctx (aes_encrypt_block ctx p) = p.
Proof.
  intros Hp. unfold aes_decrypt_block, aes_encrypt_block.
  set (s := foldl (encrypt_round _) _ _).
  assert (is_block s) by (apply encrypt_rounds_block; auto with word).
  rewrite add_round_key_twice by auto with word. unfold s.
  rewrite decrypt_rounds_undo, inv_sub_shift by auto with word. by apply add_round_key_twice.
Qed.

(** ** Facts: a CBC stream *)

Lemma take_block n l : length l = (16 * S n)%nat → is_bytes l → is_block (take 16 l).
Proof. intros L H. split; [rewrite length_take; lia | by apply Forall_take]. Qed.

Lemma cbc_encrypt_bytes n ctx : ∀ prev p, is_block prev → is_bytes p → length p = (16 * n)%nat →
  length (cbc_encrypt_blocks n ctx prev p) = (16 * n)%nat ∧
  is_bytes (cbc_encrypt_blocks n ctx prev p).
Proof.
  induction n as [| n IH]; intros prev p Hv Hp L; cbn [cbc_encrypt_blocks];
    [by split; [| constructor] |].
  assert (is_block (aes_encrypt_block ctx (xor_blocks (take 16 p) prev))) as Hb.
  { apply encrypt_block_block, is_block_xor; [by apply (take_block n) | done]. }
  edestruct (IH (aes_encrypt_block ctx (xor_blocks (take 16 p) prev)) (drop 16 p)) as [Lc Hc];
    [done | by apply Forall_drop | rewrite length_drop; lia |].
  destruct Hb as [Lb Hb]. split; [rewrite length_app; lia | by apply Forall_app_2].
Qed.

Lemma cbc_roundtrip n ctx : ∀ prev p, is_block prev → is_bytes p → length p = (16 * n)%nat →
  cbc_decrypt_blocks n ctx prev (cbc_encrypt_blocks n ctx prev p) = p.
Proof.
  induction n as [| n IH]; intros prev p Hv Hp L; cbn [cbc_encrypt_blocks cbc_decrypt_blocks].
  { destruct p; [reflexivity | discriminate L]. }
  pose proof (take_block n p L Hp) as Ht.
  assert (is_block (aes_encrypt_block ctx (xor_blocks (take 16 p) prev))) as Hb
    by (by apply encrypt_block_block, is_block_xor).
  rewrite take_app_length', drop_app_length' by (symmetry; apply Hb).
  rewrite decrypt_encrypt_block, xor_blocks_cancel by
    (by apply is_block_xor || (destruct Ht, Hv; lia)).
  rewrite IH by (done || (by apply Forall_drop) || (rewrite length_drop; lia)).
  apply take_drop.
Qed.

Lemma cbc_undo ctx iv p : is_block iv → is_bytes p → blen p mod AES_BLOCK_SIZE = 0 →
  ∃ c, aes_cbc_encrypt ctx iv p = Some c ∧ blen c = blen p ∧ aes_cbc_decrypt ctx iv c = Some p ∧
       is_bytes c.
Proof.
  intros Hv Hp E. unfold aes_cbc_encrypt, aes_cbc_decrypt, AES_BLOCK_SIZE in *. rewrite E. simpl.
  assert (length p = (16 * Z.to_nat (blen p / 16))%nat) as L.
  { unfold blen in *. pose proof (Z.div_mod (Z.of_nat (length p)) 16 ltac:(lia)). lia. }
  destruct (cbc_encrypt_bytes _ ctx iv p Hv Hp L) as [Lc Hc].
  eexists. split; [done |].
  assert (blen (cbc_encrypt_blocks (Z.to_nat (blen p / 16)) ctx iv p) = blen p) as Lb
    by (unfold blen in *; lia).
  rewrite Lb, E. split_and!; try done. simpl. f_equal. by apply cbc_roundtrip.
Qed.

(** Decryption keeps lengths, whatever it is given. *)
Lemma length_inv_shift_rows s : length (inv_shift_rows s) = length s.
Proof.
  unfold inv_shift_rows. generalize (seqZ 0 16). intros l.
  enough (∀ t, length t = length s → length (foldl (fun t i => let r := i mod 4 in
    <[Z.to_nat (4 * ((i / 4 + r) mod 4) + r) := nth (Z.to_nat i) s 0]> t) t l) = length s) by auto.
  induction l as [| i l IH]; simpl; intros t Ht; [done |]. apply IH. by rewrite length_insert.
Qed.

Lemma length_add_round_key k r s : length s = 16%nat → length (add_round_key k r s) = 16%nat.
Proof. intros L. unfold add_round_key, xor_blocks. rewrite length_zip_with, L. done. Qed.

Lemma length_decrypt_round k s r : length s = 16%nat → length (decrypt_round k s r) = 16%nat.
Proof.
  intros L. unfold decrypt_round. set (t := add_round_key _ _ _).
  assert (length t = 16%nat) as Lt.
  { apply length_add_round_key. unfold inv_sub_bytes. by rewrite length_map, length_inv_shift_rows. }
  clearbody t. by sixteen t Lt.
Qed.

Lemma length_decrypt_block ctx s : length s = 16%nat → length (aes_decrypt_block ctx s) = 16%nat.
Proof.
  intros L. unfold aes_decrypt_block.
  apply length_add_round_key. unfold inv_sub_bytes. rewrite length_map, length_inv_shift_rows.
  apply (length_add_round_key (rk ctx) (rounds ctx)) in L. revert L.
  generalize (add_round_key (rk ctx) (rounds ctx) s), (reverse (seqZ 1 (rounds ctx - 1))).
  intros t l. revert t. induction l as [| r l IH]; simpl; intros t L; [done |].
  by apply IH, length_decrypt_round.
Qed.

Lemma length_cbc_decrypt n ctx : ∀ prev c, length prev = 16%nat → length c = (16 * n)%nat →
  length (cbc_decrypt_blocks n ctx prev c) = (16 * n)%nat.
Proof.
  induction n as [| n IH]; intros prev c Hp Hc; cbn [cbc_decrypt_blocks]; [done |].
  assert (length (take 16 c) = 16%nat) as Ht by (rewrite length_take; lia).
  unfold xor_blocks. rewrite length_app, length_zip_with, (length_decrypt_block ctx _ Ht), Hp, IH;
    [lia | done | rewrite length_drop; lia].
Qed.

Lemma aes_cbc_decrypt_length ctx iv c : length iv = 16%nat → blen c mod 16 = 0 →
  returns (fun p => blen p = blen c) (aes_cbc_decrypt ctx iv c).
Proof.
  intros Hv Hc. unfold aes_cbc_decrypt, AES_BLOCK_SIZE. rewrite Hc. simpl. apply returns_ret.
  unfold blen in *. rewrite length_cbc_decrypt; [| done |];
    pose proof (Z.div_mod (Z.of_nat (length c)) 16 ltac:(lia)); lia.
Qed.

(** The example vectors of FIPS-197, appendix C, for 128- and 256-bit keys. *)
Definition fips_plain : block := map (fun i => 0x11 * i) (seqZ 0 16).

Example fips197_128 : (fun c => aes_encrypt_block c fips_plain) <$> aes_init (seqZ 0 16) 128
  = Some [0x69; 0xc4; 0xe0; 0xd8; 0x6a; 0x7b; 0x04; 0x30;
          0xd8; 0xcd; 0xb7; 0x80; 0x70; 0xb4; 0xc5; 0x5a].
Proof. by vm_compute. Qed.

Example fips197_256 : (fun c => aes_encrypt_block c fips_plain) <$> aes_init (seqZ 0 32) 256
  = Some [0x8e; 0xa2; 0xb7; 0xca; 0x51; 0x67; 0x45; 0xbf;
          0xea; 0xfc; 0x49; 0x90; 0x4b; 0x49; 0x60; 0x89].
Proof. by vm_compute. Qed.

(** ** Theorem *)

(** CBC decryption undoes CBC encryption, for every key schedule, every IV and every
    plaintext of whole blocks (none included), and the ciphertext is as long as the
    plaintext; a length that is not whole blocks is refused by both directions. *)
Theorem aes_cbc_roundtrip ctx iv p : is_block iv → is_bytes p →
  if blen p mod AES_BLOCK_SIZE =? 0 then
    ∃ c, aes_cbc_encrypt ctx iv p = Some c ∧ blen c = blen p ∧ is_bytes c ∧
         aes_cbc_decrypt ctx iv c = Some p
  else aes_cbc_encrypt ctx iv p = None ∧ aes_cbc_decrypt ctx iv p = None.
Proof.
  intros Hv Hp. destruct (Z.eqb_spec (blen p mod AES_BLOCK_SIZE) 0) as [E | E].
  - destruct (cbc_undo ctx iv p Hv Hp E) as (c & ? & ? & ? & ?). eauto.
  - unfold aes_cbc_encrypt, aes_cbc_decrypt. by rewrite (proj2 (Z.eqb_neq _ _) E).
Qed.

Lemma aes_cbc_roundtrip_witness :
  let ctx := default (MkAes (fun _ => 0) 10) (aes_init (seqZ 0 16) 128) in
  ∃ c, aes_cbc_encrypt ctx (seqZ 0 16) (seqZ 0 32) = Some c ∧ blen c = 32 ∧ is_bytes c ∧
       aes_cbc_decrypt ctx (seqZ 0 16) c = Some (seqZ 0 32).
Proof.
  intros ctx. apply (aes_cbc_roundtrip ctx (seqZ 0 16) (seqZ 0 32));
    [split; [done |] |]; apply Forall_forall; intros x Hx%list_elem_of_In%elem_of_seqZ;
    split; lia.
Defined.
