(* ===== verification/Img3.v ===== *)
(** * IMG3 containers

    [core/src/firmware/img3.c].  The input is a list of bytes, [NULL] being the absence
    of one; [out->data] is an offset into it.  A function that reads the input returns
    an option, [None] being a read outside the buffer or a loop that outlives its
    fuel: [img3_parse_safe] proves that neither ever happens.  [img3_parse_encode]
    relates the parser to a declarative reading of the containers it accepts. *)

From S2P Require Import Prelude Bytes Aes.

Definition IMG3_MAGIC := 0x496d6733.
Definition IMG3_TAG_DATA := 0x44415441.
Definition IMG3_TAG_KBAG := 0x4b424147.
Definition IMG3_TAG_SHSH := 0x53485348.
Definition IMG3_TAG_VERS := 0x56455253.
Definition IMG3_HEADER_SIZE := 20.
Definition IMG3_TAG_HEADER := 12.

Inductive img3_status :=
  | IMG3_OK | IMG3_ERR_TOO_SMALL | IMG3_ERR_BAD_MAGIC | IMG3_ERR_BAD_SIZE
  | IMG3_ERR_BAD_TAG | IMG3_ERR_INVALID_ARGUMENT.

Record img3_kbag := MkKbag {
  crypt_state : Z; kbag_bits : Z;
  kbag_iv : list Z; kbag_key : list Z;
  present : bool; malformed : bool }.

Record img3 := MkImg3 {
  ident : Z; full_size : Z; data_size : Z; signed_size : Z;
  data : option Z; data_len : Z;
  kbag : img3_kbag;
  has_shsh : bool;
  vers : list Z }.

(** [memset(out, 0, sizeof *out)]. *)
Definition img3_zero : img3 :=
  MkImg3 0 0 0 0 None 0 (MkKbag 0 0 (replicate 16 0) (replicate 32 0) false false) false
    (replicate 64 0).

Definition set_data (d : Z) (n : Z) (o : img3) : img3 :=
  MkImg3 (ident o) (full_size o) (data_size o) (signed_size o) (Some d) n (kbag o) (has_shsh o) (vers o).
Definition set_kbag (k : img3_kbag) (o : img3) : img3 :=
  MkImg3 (ident o) (full_size o) (data_size o) (signed_size o) (data o) (data_len o) k (has_shsh o) (vers o).
Definition set_shsh (v : bool) (o : img3) : img3 :=
  MkImg3 (ident o) (full_size o) (data_size o) (signed_size o) (data o) (data_len o) (kbag o) v (vers o).
Definition set_vers (v : list Z) (o : img3) : img3 :=
  MkImg3 (ident o) (full_size o) (data_size o) (signed_size o) (data o) (data_len o) (kbag o) (has_shsh o) v.

Definition img3_ident_str (ident : Z) : list Z :=
  [fld ident 24 0xff; fld ident 16 0xff; fld ident 8 0xff; ident .& 0xff; 0].

(** ** The key bag *)

Definition parse_kbag (b : list Z) (d len : Z) (k : img3_kbag) : option img3_kbag :=
  let k := MkKbag (crypt_state k) (kbag_bits k) (kbag_iv k) (kbag_key k) (present k) true in
  if len <? 24 then Some k else
  cs ← rd32 b d; bits ← rd32 b (d + 4); iv ← get_bytes b (d + 8) 16;
  let k := MkKbag cs bits iv (kbag_key k) (present k) true in
  if negb (bits =? 128) && negb (bits =? 192) && negb (bits =? 256) then Some k else
  let key_len := bits / 8 in
  if len <? 24 + key_len then Some k else
  key ← get_bytes b (d + 24) key_len;
  key ← put_bytes (kbag_key k) 0 key;
  Some (MkKbag cs bits iv key true false).

(** ** The tags *)

Definition parse_vers (b : list Z) (d data_len : Z) (o : img3) : option img3 :=
  if data_len <? 4 then Some o else
  slen ← rd32 b d;
  if data_len <? slen + 4 then Some o else
  let n := if slen <? 63 then slen else 63 in
  s ← get_bytes b (d + 4) n;
  v ← put_bytes (vers o) 0 s; v ← put_bytes v n [0];
  Some (set_vers v o).

(** The [switch] on a tag's magic; [d] is the offset of its payload. *)
Definition img3_tag (b : list Z) (magic d data_len : Z) (o : img3) : option img3 :=
  if magic =? IMG3_TAG_DATA then Some (set_data d data_len o)
  else if magic =? IMG3_TAG_KBAG then
    if present (kbag o) then Some o
    else k ← parse_kbag b d data_len (kbag o); Some (set_kbag k o)
  else if magic =? IMG3_TAG_SHSH then Some (set_shsh (0 <? data_len) o)
  else if magic =? IMG3_TAG_VERS then parse_vers b d data_len o
  else Some o.

(** [while (off + IMG3_TAG_HEADER <= end)] and the framing test after it. *)
Fixpoint img3_tags (fuel : nat) (b : list Z) (off end_ : Z) (o : img3) : option (img3_status * img3) :=
  match fuel with
  | O => None
  | S fuel =>
    if off + IMG3_TAG_HEADER <=? end_ then
      magic ← rd32 b off; total_len ← rd32 b (off + 4); dlen ← rd32 b (off + 8);
      if total_len <? IMG3_TAG_HEADER then Some (IMG3_ERR_BAD_TAG, o)
      else if end_ <? off + total_len then Some (IMG3_ERR_BAD_TAG, o)
      else if total_len <? dlen + IMG3_TAG_HEADER then Some (IMG3_ERR_BAD_TAG, o)
      else
        o ← img3_tag b magic (off + IMG3_TAG_HEADER) dlen o;
        img3_tags fuel b (off + total_len) end_ o
    else if negb (off =? end_) then Some (IMG3_ERR_BAD_TAG, o)
    else Some (IMG3_OK, o)
  end.

(** A tag is at least its header, so the input's length bounds the loop. *)
Definition img3_parse (buf : option (list Z)) : option (img3_status * img3) :=
  match buf with
  | None => Some (IMG3_ERR_TOO_SMALL, img3_zero)
  | Some b =>
    if blen b <? IMG3_HEADER_SIZE then Some (IMG3_ERR_TOO_SMALL, img3_zero) else
    m ← rd32 b 0;
    if negb (m =? IMG3_MAGIC) then Some (IMG3_ERR_BAD_MAGIC, img3_zero) else
    full ← rd32 b 4; dsize ← rd32 b 8; ssize ← rd32 b 12; id ← rd32 b 16;
    let o := MkImg3 id full dsize ssize None 0 (kbag img3_zero) false (vers img3_zero) in
    if (full <? IMG3_HEADER_SIZE) || (blen b <? full) then Some (IMG3_ERR_BAD_SIZE, o)
    else if full <? dsize + IMG3_HEADER_SIZE then Some (IMG3_ERR_BAD_SIZE, o)
    else img3_tags (S (length b)) b IMG3_HEADER_SIZE full o
  end.

(** ** Decryption

    The inner option is the [bool] result with the bytes written to [out]. *)
Definition img3_decrypt_data_iv (b : list Z) (img : img3) (key : option (list Z)) (key_bits : Z)
    (iv : option (list Z)) (out_cap : Z) : option (option (list Z)) :=
  match data img, key, iv with
  | Some d, Some key, Some iv =>
    if negb (present (kbag img)) || malformed (kbag img)
       || negb (key_bits =? kbag_bits (kbag img)) || (out_cap <? data_len img) then Some None
    else match aes_init key key_bits with
    | None => Some None
    | Some ctx =>
      let whole := data_len img .& wnot (AES_BLOCK_SIZE - 1) in
      let tail := data_len img - whole in
      src ← get_bytes b d whole;
      match (if whole =? 0 then Some [] else aes_cbc_decrypt ctx iv src) with
      | None => Some None
      | Some p => t ← get_bytes b (d + whole) tail; Some (Some (p ++ t))
      end
    end
  | _, _, _ => Some None
  end.

(** ** Safety *)

Definition payload_inside (b : list Z) (o : img3) : Prop :=
  match data o with
  | Some d => 0 <= d ∧ uint 32 (data_len o) ∧ d + data_len o <= blen b
  | None => data_len o = 0
  end.

Definition kbag_wf (k : img3_kbag) : Prop :=
  blen (kbag_iv k) = 16 ∧ blen (kbag_key k) = 32 ∧
  (present k = true → malformed k = false ∧ (kbag_bits k = 128 ∨ kbag_bits k = 192 ∨ kbag_bits k = 256)).

(** What a caller may rely on. *)
Definition img3_wf (b : list Z) (o : img3) : Prop :=
  payload_inside b o ∧ kbag_wf (kbag o) ∧ blen (vers o) = 64 ∧ In 0 (vers o).

(** The four words of the header, which no tag changes. *)
Definition header (o : img3) : Z * Z * Z * Z := (ident o, full_size o, data_size o, signed_size o).
Definition img3_ok (b : list Z) (o o' : img3) : Prop := img3_wf b o' ∧ header o' = header o.

Lemma key_bits_known bits :
  negb (bits =? 128) && negb (bits =? 192) && negb (bits =? 256) = false →
  16 <= bits / 8 <= 32 ∧ (bits = 128 ∨ bits = 192 ∨ bits = 256).
Proof.
  intros H. assert (bits = 128 ∨ bits = 192 ∨ bits = 256) as Hb by lia.
  split; [by destruct Hb as [-> | [-> | ->]] | done].
Qed.

Lemma kbag_wf_absent k : blen (kbag_iv k) = 16 → blen (kbag_key k) = 32 → present k = false → kbag_wf k.
Proof. intros ? ? H. unfold kbag_wf. rewrite H. done. Qed.

Lemma parse_kbag_safe b d len k : 0 <= d → d + len <= blen b → kbag_wf k → present k = false →
  returns kbag_wf (parse_kbag b d len k).
Proof.
  intros Hd Hlen (Wi & Wk & _) Hp. unfold parse_kbag. reading.
  1-3: by apply kbag_wf_absent.
  match goal with H : _ && _ = false |- _ => apply key_bits_known in H as [? ?] end. cbn [kbag_key].
  reading. split; [done | split; [simpl; lia | done]].
Qed.

Lemma parse_vers_safe b d n o : 0 <= d → d + n <= blen b → img3_wf b o →
  returns (img3_ok b o) (parse_vers b d n o).
Proof.
  intros Hd Hlen (Hp & Hk & Hv & Hz). unfold parse_vers. reading; [by split | by split |].
  set (m := if a <? 63 then a else 63). assert (0 <= m <= 63 ∧ m <= a) by (unfold m; destruct (Z.ltb_spec a 63); lia).
  change (blen [0]) with 1 in *. assert (blen [0] = 1) by done. reading. split; [| done]. split_and!; try done.
  - simpl. lia.
  - simpl. auto with datatypes.
Qed.

Lemma img3_tag_safe b magic d n o : 0 <= d → uint 32 n → d + n <= blen b → img3_wf b o →
  returns (img3_ok b o) (img3_tag b magic d n o).
Proof.
  intros Hd Hn Hlen W. unfold img3_tag. destruct W as (Hp & Hk & Hv) eqn:EW. reading; try (by split).
  - eapply returns_bind; [by apply parse_kbag_safe | intros k' Hk'; apply returns_ret]. done.
  - by apply parse_vers_safe.
Qed.

Lemma img3_tags_safe fuel b end_ : ∀ off o,
  (Z.to_nat (end_ - off) < fuel)%nat → 0 <= off → end_ <= blen b → img3_wf b o →
  returns (fun r => img3_ok b o (snd r)) (img3_tags fuel b off end_ o).
Proof.
  induction fuel as [| fuel IH]; intros off o Hf Ho He W; [lia |]. simpl. unfold IMG3_TAG_HEADER.
  reading; try (by split).
  eapply returns_bind; [apply img3_tag_safe; done || lia || by split | intros o' [W' Hh]].
  eapply returns_weaken; [apply IH; done || lia | intros r [W'' Hr]].
  split; [done | congruence].
Qed.

Lemma img3_parse_returns buf :
  ∃ st o, img3_parse buf = Some (st, o) ∧ img3_wf (default [] buf) o ∧
    (st = IMG3_OK → IMG3_HEADER_SIZE <= full_size o <= blen (default [] buf) ∧
                    data_size o + IMG3_HEADER_SIZE <= full_size o).
Proof.
  enough (returns (fun r => img3_wf (default [] buf) (snd r) ∧
    (fst r = IMG3_OK → IMG3_HEADER_SIZE <= full_size (snd r) <= blen (default [] buf) ∧
       data_size (snd r) + IMG3_HEADER_SIZE <= full_size (snd r))) (img3_parse buf))
    as ([st o] & -> & H) by (by exists st, o).
  assert (∀ b, img3_wf b img3_zero) as Wz.
  { intros b. split; [done | split; [by apply kbag_wf_absent | split; [done | by left]]]. }
  unfold img3_parse. destruct buf as [b |]; [simpl default | reading; done].
  unfold IMG3_HEADER_SIZE in *. reading; try done.
  all: match goal with |- context [MkImg3 ?i ?f ?d ?g] =>
    set (o := MkImg3 i f d g _ _ _ _ _); assert (img3_wf b o) as W by apply (Wz b) end.
  1-2: done.
  eapply returns_weaken; [apply img3_tags_safe; done || (unfold blen in *; lia) | intros [st o'] [W' Hh]].
  split; [done |]. intros _. injection Hh as _ Hf Hd _. simpl in Hf, Hd |- *. lia.
Qed.

Lemma img3_parse_total buf : ∃ st o, img3_parse buf = Some (st, o) ∧ img3_wf (default [] buf) o.
Proof. destruct (img3_parse_returns buf) as (st & o & ? & ? & _). eauto. Qed.

(** For every input, absent, empty, truncated or hostile, the parser terminates and
    reads only inside the buffer.  Whatever it reports, what it has recorded is safe to
    use: the payload lies inside the buffer, the version string is NUL-terminated within
    its 64 bytes, a key bag marked present is not marked malformed and has one of the
    three key sizes.  On success the container's declared size fits the buffer. *)
Theorem img3_parse_safe buf :
  ∃ st o, img3_parse buf = Some (st, o) ∧ img3_wf (default [] buf) o ∧
    (st = IMG3_OK → IMG3_HEADER_SIZE <= full_size o <= blen (default [] buf) ∧
                    data_size o + IMG3_HEADER_SIZE <= full_size o).
Proof. apply img3_parse_returns. Qed.

(** ** Decryption *)

Lemma whole_blocks n : uint 32 n → n .& wnot (AES_BLOCK_SIZE - 1) = 16 * (n / 16).
Proof.
  intros Hn. replace (16 * (n / 16)) with (Z.shiftl (Z.shiftr n 4) 4)
    by (rewrite Z.shiftl_mul_pow2, Z.shiftr_div_pow2 by lia; change (2 ^ 4) with 16; lia).
  unfold AES_BLOCK_SIZE. change (16 - 1) with (Z.ones 4). bitwise i Hi.
  rewrite Z.testbit_ones_nonneg by lia.
  destruct (Z.ltb_spec i 4); [rewrite (Z.testbit_neg_r _ (i - 4)) by lia;
    replace (i <? 32) with true by lia; by rewrite andb_false_r |].
  rewrite Z.shiftr_spec, Z.sub_add, xorb_false_l by lia.
  destruct (Z.ltb_spec i 32); [by rewrite andb_true_r |].
  by rewrite andb_false_r, (uint_high 32 n) by (done || lia).
Qed.

(** Decryption stays inside the payload and yields as many bytes. *)
Lemma img3_decrypt_safe b img key bits iv cap : payload_inside b img →
  (∀ v, iv = Some v → length v = 16%nat) →
  returns (fun out => ∀ p, out = Some p → blen p = data_len img)
    (img3_decrypt_data_iv b img key bits iv cap).
Proof.
  intros Hp Hiv. unfold img3_decrypt_data_iv, payload_inside in *.
  destruct (data img) as [d |]; [| by apply returns_ret].
  destruct key as [key |], iv as [iv |]; try by apply returns_ret.
  destruct Hp as (Hd & Hu & Hin). specialize (Hiv iv eq_refl).
  apply returns_if; intros _; [by apply returns_ret |].
  destruct (aes_init key bits) as [ctx |]; [| by apply returns_ret]. cbv zeta.
  rewrite whole_blocks by done. destruct Hu.
  pose proof (Z.div_mod (data_len img) 16 ltac:(lia)).
  pose proof (Z.mod_pos_bound (data_len img) 16 ltac:(lia)).
  assert (0 <= data_len img / 16) by (apply Z.div_pos; lia).
  eapply returns_bind; [apply returns_get_bytes; lia | intros src [Ls _]].
  assert (returns (fun p => blen p = 16 * (data_len img / 16))
    (if 16 * (data_len img / 16) =? 0 then Some [] else aes_cbc_decrypt ctx iv src)) as (p & -> & Lp).
  { apply returns_if; intros E; bool_facts; [apply returns_ret; unfold blen; simpl; lia |].
    rewrite <- Ls. apply aes_cbc_decrypt_length; [done | rewrite Ls, Z.mul_comm; by apply Z.mod_mul]. }
  eapply returns_bind; [apply returns_get_bytes; lia | intros t [Lt _]].
  apply returns_ret. intros ? [= <-]. rewrite blen_app. lia.
Qed.

(** The plaintext of a payload [c]: its whole blocks deciphered, the rest as it is. *)
Definition whole (n : Z) : Z := 16 * (n / 16).
Definition decrypt_payload (ctx : aes_ctx) (iv c : list Z) : option (list Z) :=
  let w := Z.to_nat (whole (blen c)) in
  p ← aes_cbc_decrypt ctx iv (take w c); Some (p ++ drop w c).
Definition encrypt_payload (ctx : aes_ctx) (iv p : list Z) : option (list Z) :=
  let w := Z.to_nat (whole (blen p)) in
  c ← aes_cbc_encrypt ctx iv (take w p); Some (c ++ drop w p).

Lemma whole_range n : 0 <= n → 0 <= whole n <= n ∧ n - whole n < 16 ∧ whole n mod 16 = 0.
Proof.
  intros H. unfold whole. pose proof (Z.div_mod n 16 ltac:(lia)).
  pose proof (Z.mod_pos_bound n 16 ltac:(lia)). assert (0 <= n / 16) by (apply Z.div_pos; lia).
  rewrite Z.mul_comm, Z.mod_mul by lia. lia.
Qed.

Lemma img3_decrypt_value b img d c key bits ctx iv cap :
  data img = Some d → get_bytes b d (data_len img) = Some c → uint 32 (data_len img) →
  present (kbag img) = true → malformed (kbag img) = false → bits = kbag_bits (kbag img) →
  data_len img <= cap → aes_init key bits = Some ctx →
  img3_decrypt_data_iv b img (Some key) bits (Some iv) cap = Some (decrypt_payload ctx iv c).
Proof.
  intros Hd Hc Hu Hp Hm -> Hcap Hk. unfold img3_decrypt_data_iv.
  rewrite Hd, Hp, Hm, Z.eqb_refl, Hk. replace (cap <? data_len img) with false by lia.
  cbn [negb orb]. cbv zeta. rewrite whole_blocks by done. fold (whole (data_len img)).
  destruct Hu as [Hu _].
  assert (blen c = data_len img) as Lc by (rewrite (get_bytes_length _ _ _ _ Hc); lia).
  destruct (whole_range (data_len img) Hu) as (Hw & _ & _).
  replace (data_len img) with (whole (data_len img) + (data_len img - whole (data_len img))) in Hc by lia.
  apply get_bytes_split in Hc as [H1 H2]; [| lia..].
  rewrite H1. simpl mbind. unfold decrypt_payload. rewrite Lc, H2.
  destruct (Z.eqb_spec (whole (data_len img)) 0) as [-> | _]; [done |].
  by destruct (aes_cbc_decrypt _ _ _).
Qed.

Lemma encrypt_payload_decrypt ctx iv p : is_block iv → is_bytes p →
  ∃ c, encrypt_payload ctx iv p = Some c ∧ decrypt_payload ctx iv c = Some p ∧ blen c = blen p.
Proof.
  intros Hv Hp. unfold encrypt_payload.
  assert (0 <= blen p) as Hb by (unfold blen; lia).
  destruct (whole_range (blen p) Hb) as (Hw & _ & Hm). set (w := Z.to_nat (whole (blen p))).
  assert (blen (take w p) = whole (blen p)) as Lw by (unfold w, blen in *; rewrite length_take; lia).
  destruct (cbc_undo ctx iv (take w p)) as (c & -> & Lc & Hc & _);
    [done | by apply Forall_take | by rewrite Lw |].
  simpl. eexists. split; [done |].
  assert (blen (c ++ drop w p) = blen p) as L.
  { rewrite blen_app, Lc. rewrite <- (take_drop w p) at 3. by rewrite blen_app. }
  split; [| done]. unfold decrypt_payload. rewrite L. fold w.
  assert (length c = w) by (unfold w, blen in *; lia).
  rewrite take_app_length', drop_app_length' by done. rewrite Hc. simpl. by rewrite take_drop.
Qed.

(** ** Containers, read declaratively *)

(** A tag: any bytes may pad its payload. *)
Record tag := MkTag { magic : Z; payload : list Z; padding : list Z }.

Definition tag_size (t : tag) : Z := IMG3_TAG_HEADER + blen (payload t) + blen (padding t).
Definition encode_tag (t : tag) : list Z :=
  le32 (magic t) ++ le32 (tag_size t) ++ le32 (blen (payload t)) ++ payload t ++ padding t.
Definition encode_tags (ts : list tag) : list Z := flat_map encode_tag ts.

Definition container_size (ts : list tag) : Z := IMG3_HEADER_SIZE + blen (encode_tags ts).
Definition encode_img3 (id dsize ssize : Z) (ts : list tag) : list Z :=
  (le32 IMG3_MAGIC ++ le32 (container_size ts) ++ le32 dsize ++ le32 ssize ++ le32 id)
  ++ encode_tags ts.

Definition tag_wf (t : tag) : Prop :=
  uint 32 (magic t) ∧ is_bytes (payload t) ∧ uint 32 (tag_size t).
Definition container_wf (id dsize ssize : Z) (ts : list tag) : Prop :=
  uint 32 id ∧ uint 32 dsize ∧ uint 32 ssize ∧ uint 32 (container_size ts) ∧
  dsize + IMG3_HEADER_SIZE <= container_size ts ∧ Forall tag_wf ts.

#[export] Instance tag_wf_dec t : Decision (tag_wf t).
Proof. unfold tag_wf, is_bytes. apply _. Defined.
#[export] Instance container_wf_dec id dsize ssize ts : Decision (container_wf id dsize ssize ts).
Proof. unfold container_wf. apply _. Defined.

(** The payloads of the tags named [m], in order. *)
Definition payloads (m : Z) (ts : list tag) : list (list Z) :=
  payload <$> filter (fun t => magic t = m) ts.

(** The fields of a key bag, when the payload holds all of them. *)
Definition kbag_fields (p : list Z) : option (Z * Z * list Z * list Z) :=
  cs ← rd32 p 0; bits ← rd32 p 4; iv ← get_bytes p 8 16;
  if (bits =? 128) || (bits =? 192) || (bits =? 256)
  then key ← get_bytes p 24 (bits / 8); Some (cs, bits, iv, key) else None.

(** The fields a parsed key bag shows. *)
Definition kbag_shows (k : img3_kbag) : Z * Z * list Z * list Z :=
  (crypt_state k, kbag_bits k, kbag_iv k, take (Z.to_nat (kbag_bits k / 8)) (kbag_key k)).

(** What [out->data], [out->data_len] denote. *)
Definition payload_of (b : list Z) (o : img3) : option (list Z) :=
  d ← data o; get_bytes b d (data_len o).

(** [o] describes the tags [ts] found in [b]: the last DATA payload, the first key bag
    that can be decoded, whether there were only ones that cannot, and whether the last
    signature is not empty. *)
Record describes (b : list Z) (ts : list tag) (o : img3) : Prop := {
  d_data : payload_of b o = list.last (payloads IMG3_TAG_DATA ts);
  d_kbag : (if present (kbag o) then Some (kbag_shows (kbag o)) else None)
           = head (omap kbag_fields (payloads IMG3_TAG_KBAG ts));
  d_bad : malformed (kbag o) = negb (present (kbag o))
          && negb (length (payloads IMG3_TAG_KBAG ts) =? 0)%nat;
  d_shsh : has_shsh o = default false ((fun p => 0 <? blen p) <$> list.last (payloads IMG3_TAG_SHSH ts)) }.

Lemma parse_kbag_fields pre p post k : kbag_wf k → present k = false →
  returns (fun k' => (if present k' then Some (kbag_shows k') else None) = kbag_fields p ∧
                     malformed k' = negb (present k'))
    (parse_kbag (pre ++ p ++ post) (blen pre) (blen p) k).
Proof.
  intros (Wi & Wk & _) Hp. unfold parse_kbag, kbag_fields.
  destruct (Z.ltb_spec (blen p) 24).
  { apply returns_ret. cbn [present malformed]. rewrite Hp. split; [| done].
    rewrite (get_bytes_outside p 8) by lia. by destruct (rd32 p 0), (rd32 p 4). }
  rewrite <- (Z.add_0_r (blen pre)) at 1. rewrite !rd32_mid, get_bytes_mid by lia.
  destruct (rd32_inside p 0) as (cs & -> & _); [lia.. |].
  destruct (rd32_inside p 4) as (bits & -> & _); [lia.. |].
  destruct (get_bytes_inside p 8 16) as (iv & -> & _); [lia.. |]. simpl.
  destruct (_ && _) eqn:E; simpl.
  { apply returns_ret. cbn [present malformed]. rewrite Hp.
    replace (_ || _) with false by lia. done. }
  apply key_bits_known in E as [Hk Hb]. replace (_ || _) with true by lia.
  destruct (Z.ltb_spec (blen p) (24 + bits / 8)).
  { apply returns_ret. cbn [present malformed]. rewrite Hp. split; [| done].
    by rewrite get_bytes_outside by lia. }
  rewrite get_bytes_mid by lia.
  destruct (get_bytes_inside p 24 (bits / 8)) as (key & -> & Lk & _); [lia.. |]. simpl.
  destruct (put_bytes (kbag_key k) 0 key) as [key' |] eqn:Ep; simpl.
  2:{ destruct (put_bytes_inside (kbag_key k) 0 key) as (? & ? & _); [lia.. | congruence]. }
  apply returns_ret. split; [| done]. unfold kbag_shows; cbn.
  unfold put_bytes in Ep. case_match; [done |]. injection Ep as <-. simpl.
  rewrite take_app_length' by (unfold blen in *; lia). done.
Qed.

Lemma payloads_snoc m ts t :
  payloads m (ts ++ [t]) = payloads m ts ++ (if magic t =? m then [payload t] else []).
Proof.
  unfold payloads. rewrite list.filter_app, fmap_app. f_equal. rewrite filter_cons, filter_nil.
  destruct (Z.eqb_spec (magic t) m); by case_decide.
Qed.

Lemma payloads_other m ts t : magic t ≠ m → payloads m (ts ++ [t]) = payloads m ts.
Proof. intros H. rewrite payloads_snoc. destruct (Z.eqb_spec (magic t) m); [done | apply app_nil_r]. Qed.

Lemma payloads_same m ts t : magic t = m → payloads m (ts ++ [t]) = payloads m ts ++ [payload t].
Proof. intros H. rewrite payloads_snoc. by destruct (Z.eqb_spec (magic t) m). Qed.

(** A tag that no clause of [describes] mentions. *)
Lemma describes_other b ts t o : describes b ts o →
  magic t ≠ IMG3_TAG_DATA → magic t ≠ IMG3_TAG_KBAG → magic t ≠ IMG3_TAG_SHSH →
  describes b (ts ++ [t]) o.
Proof. intros [? ? ? ?] H1 H2 H3. by split; rewrite payloads_other. Qed.

Lemma parse_vers_shape b d n o o' : parse_vers b d n o = Some o' → ∃ v, o' = set_vers v o.
Proof.
  assert (o = set_vers (vers o) o) as Eo by (by destruct o).
  unfold parse_vers. destruct (n <? 4); [intros [= <-]; eauto |].
  destruct (rd32 b d) as [slen |]; simpl; [| done]. destruct (n <? slen + 4); [intros [= <-]; eauto |].
  destruct (get_bytes _ _ _) as [s |]; simpl; [| done].
  destruct (put_bytes (vers o) 0 s) as [v |]; simpl; [| done].
  destruct (put_bytes v _ [0]) as [v' |]; simpl; [| done]. intros [= <-]. eauto.
Qed.

Lemma describes_vers b ts o v : describes b ts o → describes b ts (set_vers v o).
Proof. by intros [? ? ? ?]. Qed.

Lemma describes_kbag b ts t o pre post : describes b ts o → img3_wf b o → b = pre ++ payload t ++ post →
  magic t = IMG3_TAG_KBAG → present (kbag o) = false →
  returns (fun k => describes b (ts ++ [t]) (set_kbag k o))
    (parse_kbag b (blen pre) (blen (payload t)) (kbag o)).
Proof.
  intros [D1 D2 D3 D4] (_ & Wk & _) -> Hm Hp.
  eapply returns_weaken; [by apply parse_kbag_fields | intros k [Hk Hb]].
  rewrite Hp in D2. split; simpl; rewrite ?payloads_other, ?payloads_same by (by rewrite Hm); try done.
  - rewrite Hk, omap_app. destruct (omap _ _); [| done]. simpl. by destruct (kbag_fields (payload t)).
  - rewrite Hb, length_app, Nat.add_1_r. by rewrite andb_true_r.
Qed.

Lemma describes_tag b ts t o pre post : describes b ts o → img3_wf b o → b = pre ++ payload t ++ post →
  is_bytes (payload t) →
  returns (describes b (ts ++ [t])) (img3_tag b (magic t) (blen pre) (blen (payload t)) o).
Proof.
  intros D W E Hb. unfold img3_tag. pose proof D as [D1 D2 D3 D4].
  destruct (Z.eqb_spec (magic t) IMG3_TAG_DATA) as [Hm | H1].
  { apply returns_ret. split; simpl; rewrite ?payloads_other by (by rewrite Hm); try done.
    rewrite payloads_same, list.last_snoc by done. unfold payload_of. simpl. rewrite E.
    rewrite <- (Z.add_0_r (blen pre)), get_bytes_app_l by done. by apply get_bytes_self. }
  destruct (Z.eqb_spec (magic t) IMG3_TAG_KBAG) as [Hm | H2].
  { destruct (present (kbag o)) eqn:Hp.
    - apply returns_ret. split; rewrite ?payloads_other by (by rewrite Hm); try done.
      + rewrite payloads_same, omap_app, Hp by done.
        by destruct (omap _ _).
      + by rewrite D3, Hp, andb_false_l.
    - eapply returns_bind; [by eapply describes_kbag | intros k Hk; by apply returns_ret]. }
  destruct (Z.eqb_spec (magic t) IMG3_TAG_SHSH) as [Hm | H3].
  { apply returns_ret. split; simpl; rewrite ?payloads_other by (by rewrite Hm); try done.
    by rewrite payloads_same, list.last_snoc by done. }
  destruct (Z.eqb_spec (magic t) IMG3_TAG_VERS) as [Hm | H4].
  - destruct (parse_vers_safe b (blen pre) (blen (payload t)) o) as (o' & Ho' & _);
      [unfold blen; lia | rewrite E, !blen_app; unfold blen; lia | done |].
    exists o'. split; [done |]. apply parse_vers_shape in Ho' as [v ->].
    by apply describes_vers, describes_other.
  - apply returns_ret. by apply describes_other.
Qed.

Lemma encode_tags_cons t ts : encode_tags (t :: ts) = encode_tag t ++ encode_tags ts.
Proof. done. Qed.

Lemma blen_encode_tag t : blen (encode_tag t) = tag_size t.
Proof. unfold encode_tag, tag_size. rewrite !blen_app, !blen_le32. unfold IMG3_TAG_HEADER. lia. Qed.

Lemma tag_size_pos t : IMG3_TAG_HEADER <= tag_size t.
Proof. unfold tag_size, blen. lia. Qed.

Lemma payload_len t : tag_wf t → uint 32 (blen (payload t)).
Proof. intros (_ & _ & [? ?]). unfold tag_size, IMG3_TAG_HEADER, blen in *. split; lia. Qed.

(** The three words of a tag, read back. *)
Lemma tag_words b pre t post : tag_wf t → b = pre ++ encode_tag t ++ post →
  rd32 b (blen pre) = Some (magic t) ∧ rd32 b (blen pre + 4) = Some (tag_size t) ∧
  rd32 b (blen pre + 8) = Some (blen (payload t)).
Proof.
  intros Ht ->. pose proof (payload_len t Ht). destruct Ht as (Hm & Hp & Hs).
  unfold encode_tag. rewrite <- !app_assoc. split_and!.
  - by eapply rd32_at.
  - eapply (rd32_at _ (pre ++ le32 (magic t))); [by rewrite <- !app_assoc | by rewrite blen_app | done].
  - eapply (rd32_at _ (pre ++ le32 (magic t) ++ le32 (tag_size t)));
      [by rewrite <- !app_assoc | rewrite !blen_app, !blen_le32; lia | done].
Qed.

Lemma img3_tags_encode b rest : ∀ ts fuel pre seen o,
  b = pre ++ encode_tags ts ++ rest → (length ts < fuel)%nat → Forall tag_wf ts →
  describes b seen o → img3_wf b o →
  ∃ o', img3_tags fuel b (blen pre) (blen pre + blen (encode_tags ts)) o = Some (IMG3_OK, o') ∧
        describes b (seen ++ ts) o' ∧ header o' = header o.
Proof.
  induction ts as [| t ts IH]; intros fuel pre seen o E Hf Hts D W;
    (destruct fuel as [| fuel]; [simpl in Hf; lia |]); cbn [img3_tags].
  { change (blen (encode_tags [])) with 0.
    replace (_ <=? _) with false by (unfold IMG3_TAG_HEADER; lia).
    rewrite Z.add_0_r, Z.eqb_refl, app_nil_r. eauto. }
  apply Forall_cons_iff in Hts as [Ht Hts].
  pose proof (tag_size_pos t) as Hpos. unfold IMG3_TAG_HEADER in Hpos.
  assert (blen (encode_tags (t :: ts)) = tag_size t + blen (encode_tags ts)) as Hlen
    by (by rewrite encode_tags_cons, blen_app, blen_encode_tag).
  assert (0 <= blen (encode_tags ts)) by (unfold blen; lia). rewrite Hlen.
  assert (b = pre ++ encode_tag t ++ encode_tags ts ++ rest) as Eb
    by (by rewrite E, encode_tags_cons, <- app_assoc).
  destruct (tag_words b pre t _ Ht Eb) as (-> & -> & ->). simpl. unfold IMG3_TAG_HEADER.
  replace (_ <=? _) with true by lia. replace (_ <? 12) with false by lia.
  replace (_ <? _) with false by lia.
  replace (_ <? _) with false by (unfold tag_size, IMG3_TAG_HEADER, blen in *; lia).
  set (pre' := pre ++ le32 (magic t) ++ le32 (tag_size t) ++ le32 (blen (payload t))).
  assert (blen pre' = blen pre + 12) as Hpre'
    by (unfold pre'; rewrite !blen_app, !blen_le32; lia).
  assert (b = pre' ++ payload t ++ padding t ++ encode_tags ts ++ rest) as Ep
    by (rewrite Eb; unfold pre', encode_tag; by rewrite <- !app_assoc).
  rewrite <- Hpre'.
  destruct (describes_tag b seen t o pre' _ D W Ep) as (o' & Ho' & D'); [apply Ht |].
  destruct (img3_tag_safe b (magic t) (blen pre') (blen (payload t)) o) as (o'' & Ho'' & W' & Hh);
    [unfold blen; lia | by apply payload_len | rewrite Ep, !blen_app; unfold blen; lia | done |].
  rewrite Ho' in Ho'' |- *. injection Ho'' as <-. simpl.
  destruct (IH fuel (pre ++ encode_tag t) (seen ++ [t]) o') as (o2 & E2 & D2 & H2);
    [by rewrite <- app_assoc | simpl in Hf; lia | done.. |].
  rewrite blen_app, blen_encode_tag in E2. rewrite Z.add_assoc, E2. exists o2.
  split; [done | split; [by rewrite <- app_assoc in D2 | congruence]].
Qed.

Lemma tags_length ts : Z.of_nat (length ts) <= blen (encode_tags ts).
Proof.
  induction ts as [| t ts IH]; [done |]. rewrite encode_tags_cons, blen_app, blen_encode_tag.
  pose proof (tag_size_pos t). unfold IMG3_TAG_HEADER in *. simpl length. lia.
Qed.

Lemma header_words m f d s i X : uint 32 m → uint 32 f → uint 32 d → uint 32 s → uint 32 i →
  let b := (le32 m ++ le32 f ++ le32 d ++ le32 s ++ le32 i) ++ X in
  rd32 b 0 = Some m ∧ rd32 b 4 = Some f ∧ rd32 b 8 = Some d ∧ rd32 b 12 = Some s ∧ rd32 b 16 = Some i.
Proof.
  intros. unfold b. split_and!.
  - by eapply (rd32_at _ []).
  - by eapply (rd32_at _ (le32 m)).
  - by eapply (rd32_at _ (le32 m ++ le32 f)).
  - by eapply (rd32_at _ (le32 m ++ le32 f ++ le32 d)).
  - by eapply (rd32_at _ (le32 m ++ le32 f ++ le32 d ++ le32 s)).
Qed.

Lemma img3_parse_container id dsize ssize ts rest : container_wf id dsize ssize ts →
  let b := encode_img3 id dsize ssize ts ++ rest in
  ∃ o, img3_parse (Some b) = Some (IMG3_OK, o) ∧ describes b ts o ∧
       header o = (id, container_size ts, dsize, ssize).
Proof.
  intros (Hid & Hd & Hs & Hc & Hfit & Hts) b.
  set (hdr := le32 IMG3_MAGIC ++ le32 (container_size ts) ++ le32 dsize ++ le32 ssize ++ le32 id).
  assert (b = hdr ++ encode_tags ts ++ rest) as E by (unfold b, encode_img3; by rewrite <- app_assoc).
  assert (blen hdr = 20) as Hh by done.
  assert (0 <= blen (encode_tags ts) ∧ 0 <= blen rest) as [? ?] by (unfold blen; lia).
  assert (blen b = container_size ts + blen rest) as Hb
    by (rewrite E, !blen_app, Hh; unfold container_size, IMG3_HEADER_SIZE; lia).
  unfold img3_parse. unfold container_size, IMG3_HEADER_SIZE in *.
  replace (blen b <? 20) with false by lia.
  destruct (header_words IMG3_MAGIC (20 + blen (encode_tags ts)) dsize ssize id (encode_tags ts ++ rest))
    as (E0 & E1 & E2 & E3 & E4);
    [by split | assumption | assumption | assumption | assumption |].
  change (_ ++ encode_tags ts ++ rest) with (hdr ++ encode_tags ts ++ rest) in E0, E1, E2, E3, E4.
  rewrite <- E in E0, E1, E2, E3, E4. clearbody b.
  rewrite E0, E1, E2, E3, E4. cbn [mbind option_bind]. rewrite Z.eqb_refl. cbn [negb].
  replace (_ || _) with false by lia. replace (_ <? dsize + 20) with false by lia.
  set (o := MkImg3 _ _ _ _ _ _ _ _ _).
  assert (describes b [] o) as D by (by split).
  assert (img3_wf b o) as W.
  { split; [done | split; [by apply kbag_wf_absent | split; [done | by left]]]. }
  destruct (img3_tags_encode b rest ts (S (length b)) hdr [] o E) as (o' & Ho & D' & Hd');
    [pose proof (tags_length ts); unfold blen in *; lia | done.. |].
  rewrite Hh in Ho. rewrite Ho. exists o'. split; [done | split; [done |]]. by rewrite Hd'.
Qed.

(** The parser accepts every container laid out from well-formed tags, whatever
    bytes follow it in the buffer, and what it reports is a declarative reading of the
    tags: the payload is the last DATA tag's, byte for byte; the key bag is the first one
    that holds all its fields; the image counts as malformed exactly when it has key bags
    and none can be decoded; the signature flag is whether the last SHSH is not empty. *)
Theorem img3_parse_encode id dsize ssize ts rest : container_wf id dsize ssize ts →
  let b := encode_img3 id dsize ssize ts ++ rest in
  ∃ o, img3_parse (Some b) = Some (IMG3_OK, o) ∧ describes b ts o ∧
       header o = (id, container_size ts, dsize, ssize).
Proof. apply img3_parse_container. Qed.

(** A container with a signature, a key bag and two payloads, the second of which counts. *)
Definition sample_tags : list tag :=
  [MkTag IMG3_TAG_DATA [1; 2; 3] []; MkTag IMG3_TAG_SHSH [7] [0; 0];
   MkTag IMG3_TAG_KBAG (le32 1 ++ le32 128 ++ seqZ 0 16 ++ seqZ 16 16) [];
   MkTag IMG3_TAG_DATA [5; 6] [0]].

Lemma img3_parse_encode_witness :
  let b := encode_img3 0x6b726e6c 60 0 sample_tags ++ [0xff] in
  ∃ o, img3_parse (Some b) = Some (IMG3_OK, o) ∧ describes b sample_tags o ∧
       header o = (0x6b726e6c, container_size sample_tags, 60, 0).
Proof.
  apply (img3_parse_encode 0x6b726e6c 60 0 sample_tags [0xff]). by_computation.
Defined.
