(* ===== verification/Macho.v ===== *)
(** * Mach-O kernels

    [core/src/firmware/macho.c].  As in Img3.v the parser returns an option, [None]
    being a read outside the image or exhausted fuel.  [macho_parse_safe] proves that
    neither happens and that every extent the parser reports lies inside the image, so
    that no consumer has to validate one again. *)

From S2P Require Import Prelude Bytes.

Definition MH_MAGIC_32 := 0xfeedface.
Definition MH_CPU_TYPE_ARM := 12.
Definition LC_SEGMENT := 0x01.
Definition LC_SYMTAB := 0x02.
Definition LC_UNIXTHREAD := 0x05.
Definition LC_UUID := 0x1b.
Definition MACHO_MAX_SEGMENTS := 16.

Inductive macho_status :=
  | MACHO_OK | MACHO_ERR_TOO_SMALL | MACHO_ERR_BAD_MAGIC | MACHO_ERR_NOT_ARM
  | MACHO_ERR_MALFORMED | MACHO_ERR_TOO_MANY | MACHO_ERR_INVALID_ARGUMENT.

Record macho_segment_t := MkSegment {
  name : list Z; vmaddr : Z; vmsize : Z; fileoff : Z; filesize : Z }.

(** [segments] holds the counted ones, [segment_count] being its length. *)
Record macho := MkMacho {
  cputype : Z; cpusubtype : Z; filetype : Z;
  segments : list macho_segment_t;
  entry : option (Z * Z);                 (* [has_entry], [entry], [entry_sp] *)
  symtab : option (Z * Z * Z * Z);        (* [has_symtab]; symoff, nsyms, stroff, strsize *)
  uuid : option (list Z);                 (* [has_uuid], [uuid] *)
  vm_low : Z; vm_high : Z }.

Definition macho_zero : macho := MkMacho 0 0 0 [] None None None 0 0.

Definition set_range (lo hi : Z) (m : macho) : macho :=
  MkMacho (cputype m) (cpusubtype m) (filetype m) (segments m) (entry m) (symtab m) (uuid m) lo hi.
Definition add_segment (s : macho_segment_t) (m : macho) : macho :=
  MkMacho (cputype m) (cpusubtype m) (filetype m) (segments m ++ [s]) (entry m) (symtab m) (uuid m)
    (vm_low m) (vm_high m).
Definition set_entry (e : Z * Z) (m : macho) : macho :=
  MkMacho (cputype m) (cpusubtype m) (filetype m) (segments m) (Some e) (symtab m) (uuid m)
    (vm_low m) (vm_high m).
Definition set_symtab (s : Z * Z * Z * Z) (m : macho) : macho :=
  MkMacho (cputype m) (cpusubtype m) (filetype m) (segments m) (entry m) (Some s) (uuid m)
    (vm_low m) (vm_high m).
Definition set_uuid (u : list Z) (m : macho) : macho :=
  MkMacho (cputype m) (cpusubtype m) (filetype m) (segments m) (entry m) (symtab m) (Some u)
    (vm_low m) (vm_high m).

(** ** Load commands, at offset [off] with size [cmdsize] *)

Definition cmd_segment (b : list Z) (off cmdsize : Z) (m : macho) : option (macho_status * macho) :=
  if cmdsize <? 56 then Some (MACHO_ERR_MALFORMED, m) else
  nsects ← rd32 b (off + 48);
  if negb (56 + nsects * 68 =? cmdsize) then Some (MACHO_ERR_MALFORMED, m) else
  if MACHO_MAX_SEGMENTS <=? Z.of_nat (length (segments m)) then Some (MACHO_ERR_TOO_MANY, m) else
  nm ← get_bytes b (off + 8) 16;
  va ← rd32 b (off + 24); vs ← rd32 b (off + 28); fo ← rd32 b (off + 32); fs ← rd32 b (off + 36);
  if blen b <? fo + fs then Some (MACHO_ERR_MALFORMED, m) else
  if vs <? fs then Some (MACHO_ERR_MALFORMED, m) else
  let s := MkSegment (nm ++ [0]) va vs fo fs in
  if negb (vs =? 0) then
    let lo := if va <? vm_low m then va else vm_low m in
    let end_ := va + vs in
    if 0xffffffff <? end_ then Some (MACHO_ERR_MALFORMED, set_range lo (vm_high m) m) else
    let hi := if vm_high m <? end_ then end_ else vm_high m in
    Some (MACHO_OK, add_segment s (set_range lo hi m))
  else Some (MACHO_OK, add_segment s m).

Definition cmd_symtab (b : list Z) (off cmdsize : Z) (m : macho) : option (macho_status * macho) :=
  if cmdsize <? 24 then Some (MACHO_ERR_MALFORMED, m) else
  symoff ← rd32 b (off + 8); nsyms ← rd32 b (off + 12);
  stroff ← rd32 b (off + 16); strsize ← rd32 b (off + 20);
  if blen b <? symoff + nsyms * 12 then Some (MACHO_ERR_MALFORMED, m) else
  if blen b <? stroff + strsize then Some (MACHO_ERR_MALFORMED, m) else
  Some (MACHO_OK, set_symtab (symoff, nsyms, stroff, strsize) m).

Definition cmd_unixthread (b : list Z) (off cmdsize : Z) (m : macho) : option (macho_status * macho) :=
  if 8 + 8 + 17 * 4 <=? cmdsize then
    let regs := off + 16 in
    sp ← rd32 b (regs + 13 * 4); pc ← rd32 b (regs + 15 * 4);
    Some (MACHO_OK, set_entry (pc, sp) m)
  else Some (MACHO_OK, m).

Definition cmd_uuid (b : list Z) (off cmdsize : Z) (m : macho) : option (macho_status * macho) :=
  if negb (cmdsize =? 24) || match uuid m with Some _ => true | None => false end then Some (MACHO_ERR_MALFORMED, m) else
  u ← get_bytes b (off + 8) 16;
  Some (MACHO_OK, set_uuid u m).

Definition load_command (b : list Z) (cmd off cmdsize : Z) (m : macho) : option (macho_status * macho) :=
  if cmd =? LC_SEGMENT then cmd_segment b off cmdsize m
  else if cmd =? LC_SYMTAB then cmd_symtab b off cmdsize m
  else if cmd =? LC_UNIXTHREAD then cmd_unixthread b off cmdsize m
  else if cmd =? LC_UUID then cmd_uuid b off cmdsize m
  else Some (MACHO_OK, m).

(** [for (i = 0; i < ncmds; i++)] and what follows it.  A command is at least eight
    bytes, so the image's length bounds the loop however large [ncmds] is. *)
Fixpoint load_commands (fuel : nat) (b : list Z) (i ncmds off cmds_end : Z) (m : macho)
    : option (macho_status * macho) :=
  match fuel with
  | O => None
  | S fuel =>
    if i <? ncmds then
      if cmds_end <? off + 8 then Some (MACHO_ERR_MALFORMED, m) else
      cmd ← rd32 b off; cmdsize ← rd32 b (off + 4);
      if (cmdsize <? 8) || (cmds_end <? off + cmdsize) then Some (MACHO_ERR_MALFORMED, m) else
      r ← load_command b cmd off cmdsize m;
      match r with
      | (MACHO_OK, m) => load_commands fuel b (i + 1) ncmds (off + cmdsize) cmds_end m
      | _ => Some r
      end
    else if negb (off =? cmds_end) then Some (MACHO_ERR_MALFORMED, m)
    else Some (MACHO_OK, if vm_low m =? 0xffffffff then set_range 0 (vm_high m) m else m)
  end.

Definition macho_parse (buf : option (list Z)) : option (macho_status * macho) :=
  match buf with
  | None => Some (MACHO_ERR_TOO_SMALL, macho_zero)
  | Some b =>
    if blen b <? 28 then Some (MACHO_ERR_TOO_SMALL, macho_zero) else
    magic ← rd32 b 0;
    if negb (magic =? MH_MAGIC_32) then Some (MACHO_ERR_BAD_MAGIC, macho_zero) else
    ct ← rd32 b 4; cs ← rd32 b 8; ft ← rd32 b 12; ncmds ← rd32 b 16; cmdsz ← rd32 b 20;
    let m := MkMacho ct cs ft [] None None None 0 0 in
    if negb (ct =? MH_CPU_TYPE_ARM) then Some (MACHO_ERR_NOT_ARM, m) else
    let cmds_end := 28 + cmdsz in
    if blen b <? cmds_end then Some (MACHO_ERR_MALFORMED, m) else
    load_commands (S (length b)) b 0 ncmds 28 cmds_end (set_range 0xffffffff 0 m)
  end.

Definition macho_segment (m : macho) (nm : list Z) : option macho_segment_t :=
  find (fun s => bool_decide (c_string (name s) = c_string nm)) (segments m).

(** ** Safety *)

(** What a consumer may rely on about one segment. *)
Definition segment_wf (b : list Z) (lo hi : Z) (s : macho_segment_t) : Prop :=
  length (name s) = 17%nat ∧ In 0 (name s) ∧
  0 <= fileoff s ∧ 0 <= filesize s ∧ fileoff s + filesize s <= blen b ∧
  filesize s <= vmsize s ∧
  (vmsize s ≠ 0 → lo <= vmaddr s ∧ vmaddr s + vmsize s <= hi).

Definition symtab_wf (b : list Z) (m : macho) : Prop :=
  match symtab m with
  | Some (symoff, nsyms, stroff, strsize) =>
    0 <= symoff ∧ 0 <= nsyms ∧ symoff + nsyms * 12 <= blen b ∧
    0 <= stroff ∧ 0 <= strsize ∧ stroff + strsize <= blen b
  | None => True
  end.

Definition macho_wf (b : list Z) (m : macho) : Prop :=
  Forall (segment_wf b (vm_low m) (vm_high m)) (segments m) ∧
  Z.of_nat (length (segments m)) <= MACHO_MAX_SEGMENTS ∧
  symtab_wf b m ∧ (∀ u, uuid m = Some u → blen u = 16) ∧
  uint 32 (vm_low m) ∧ uint 32 (vm_high m).

Lemma segment_wf_widen b lo hi lo' hi' s : lo' <= lo → hi <= hi' →
  segment_wf b lo hi s → segment_wf b lo' hi' s.
Proof.
  intros ? ? (? & ? & ? & ? & ? & ? & H). split_and!; try done. intros Hs. apply H in Hs. lia.
Qed.

Lemma macho_wf_widen b m lo hi : lo <= vm_low m → vm_high m <= hi → uint 32 lo → uint 32 hi →
  macho_wf b m → macho_wf b (set_range lo hi m).
Proof.
  intros ? ? ? ? (H & Hn & Hs & Hu & _). split_and!; try done. simpl.
  eapply Forall_impl; [| exact H]. intros s. by apply segment_wf_widen.
Qed.

Lemma macho_wf_segment b m s : Z.of_nat (length (segments m)) < MACHO_MAX_SEGMENTS →
  segment_wf b (vm_low m) (vm_high m) s → macho_wf b m → macho_wf b (add_segment s m).
Proof.
  intros Hc W (H & _ & Hs & Hu & Hr). split_and!; try done; try apply Hr; simpl.
  - apply Forall_app. split; [done | by constructor].
  - rewrite length_app. simpl. lia.
Qed.

Definition cmd_ok (b : list Z) (r : macho_status * macho) : Prop := macho_wf b (snd r).

Lemma cmd_segment_safe b off cmdsize m : 0 <= off → off + cmdsize <= blen b → macho_wf b m →
  returns (cmd_ok b) (cmd_segment b off cmdsize m).
Proof.
  intros Ho Hs W. pose proof W as (_ & _ & _ & _ & [L0 L1] & [H0 H1]).
  unfold cmd_segment. reading; try done; unfold cmd_ok; simpl.
  all: assert (∀ x y, (if x <? y then x else y) <= y ∧ (if x <? y then x else y) <= x) as Hmin
    by (intros x y; destruct (Z.ltb_spec x y); lia).
  all: assert (∀ x y, y <= (if y <? x then x else y) ∧ x <= (if y <? x then x else y)) as Hmax
    by (intros x y; destruct (Z.ltb_spec y x); lia).
  - apply macho_wf_widen; try done; [apply Hmin | by apply uint_if].
  - apply macho_wf_segment; [done | |
      apply macho_wf_widen; try done; [apply Hmin | apply Hmax | by apply uint_if |
        apply uint_if; by split; lia]].
    split_and!; try done; simpl; try lia; [rewrite length_app; unfold blen in *; simpl; lia |
      rewrite in_app_iff; right; by left | intros _; split; [apply Hmin | apply Hmax]].
  - apply macho_wf_segment; [done | | done].
    split_and!; try done; simpl; try lia; [rewrite length_app; unfold blen in *; simpl; lia |
      rewrite in_app_iff; right; by left].
Qed.

Lemma load_command_safe b cmd off cmdsize m : 0 <= off → off + cmdsize <= blen b → macho_wf b m →
  returns (cmd_ok b) (load_command b cmd off cmdsize m).
Proof.
  intros Ho Hs W. unfold load_command. reading; [by apply cmd_segment_safe | | | | done].
  - unfold cmd_symtab. reading; try done.
    destruct W as (? & ? & ? & ? & ?). split; [done | split; [done | split; [| by split]]].
    unfold symtab_wf. simpl. lia.
  - unfold cmd_unixthread. reading; done.
  - unfold cmd_uuid. reading; [done |].
    destruct W as (? & ? & ? & ? & ?). split; [done | split; [done | split; [done | split; [| done]]]].
    simpl. by intros ? [= <-].
Qed.

Lemma load_commands_safe fuel b ncmds cmds_end : ∀ i off m,
  (Z.to_nat (cmds_end - off) < fuel)%nat → 0 <= off → cmds_end <= blen b → macho_wf b m →
  returns (cmd_ok b) (load_commands fuel b i ncmds off cmds_end m).
Proof.
  induction fuel as [| fuel IH]; intros i off m Hf Ho He W; [lia |]. simpl. reading; try done.
  - eapply returns_bind; [apply load_command_safe; done || lia | intros [st m'] W'].
    destruct st; try (by apply returns_ret). apply IH; done || lia.
  - unfold cmd_ok. simpl. destruct (vm_low m =? 0xffffffff) eqn:E; [| done].
    pose proof W as (_ & _ & _ & _ & [? ?] & ?). apply macho_wf_widen; done || lia.
Qed.

(** For every input the parser terminates, whatever count of load commands the header
    claims, and reads only inside the image.  What it has recorded is safe to use, on
    every outcome: at most sixteen segments, their names NUL-terminated, their file
    extents inside the image and no larger than their memory extents, every non-empty
    one inside [vm_low, vm_high]; the symbol and string tables inside the image; the
    UUID sixteen bytes. *)
Theorem macho_parse_safe buf :
  ∃ st m, macho_parse buf = Some (st, m) ∧ macho_wf (default [] buf) m.
Proof.
  enough (returns (cmd_ok (default [] buf)) (macho_parse buf)) as ([st m] & -> & H)
    by (by exists st, m).
  assert (∀ b ct cs ft lo, uint 32 lo →
    macho_wf b (MkMacho ct cs ft [] None None None lo 0)) as Wz by (intros; by split_and!).
  unfold macho_parse. destruct buf as [b |]; simpl default; reading; try by apply Wz.
  apply load_commands_safe; [unfold blen in *; lia | lia.. | by apply Wz].
Qed.
