(* ===== verification/DeviceTree.v ===== *)
(** * Flattened device trees

    [core/src/firmware/devicetree.c].  The blob is a list of bytes; functions that read
    it return an option, [None] being a read outside it or exhausted fuel.  An abstract
    tree and its flattening say what a blob means: [dt_lookup_refines] proves that
    walking a path in the blob and reading a property there is walking the tree. *)

From S2P Require Import Prelude Bytes.

Definition DT_PROP_NAME_LEN := 32.
Definition DT_MAX_DEPTH := 32.
Definition PROP_HEADER := DT_PROP_NAME_LEN + 4.
Definition NODE_HEADER := 8.

Inductive dt_status := DT_OK | DT_ERR_TRUNCATED | DT_ERR_TOO_DEEP | DT_ERR_NOT_FOUND.

Record dt_node := MkNode { offset : Z; n_props : Z; n_children : Z; props_off : Z }.

Definition dt_fits (b : list Z) (off need : Z) : bool := off + need <=? blen b.

(** [(v + 3u) & ~(uint64_t)3u]. *)
Definition align4 (v : Z) : Z := (v + 3) .& 0xfffffffffffffffc.

Definition read_node (b : list Z) (off : Z) : option (option dt_node) :=
  if negb (dt_fits b off NODE_HEADER) then Some None else
  np ← rd32 b off; nc ← rd32 b (off + 4);
  Some (Some (MkNode off np nc (off + NODE_HEADER))).

(** The offset past the property at [off], 0 being the error. *)
Definition skip_property (b : list Z) (off : Z) : option Z :=
  if negb (dt_fits b off PROP_HEADER) then Some 0 else
  l ← rd32 b (off + DT_PROP_NAME_LEN);
  let next := align4 (off + PROP_HEADER + (l .& 0x7fffffff)) in
  if blen b <? next then Some 0 else Some next.

(** [for (i = 0; i < n; i++) { cur = skip(cur); if (!cur) return 0; }].  Each round moves
    forward, so the blob's length bounds the rounds however large [n] is. *)
Fixpoint skip_many (fuel : nat) (skip : Z → option Z) (n cur : Z) : option Z :=
  match fuel with
  | O => None
  | S fuel =>
    if 0 <? n then
      cur ← skip cur;
      if cur =? 0 then Some 0 else skip_many fuel skip (n - 1) cur
    else Some cur
  end.

(** [levels] is [DT_MAX_DEPTH + 1 - depth]. *)
Fixpoint skip_node (levels : nat) (b : list Z) (off : Z) : option Z :=
  match levels with
  | O => Some 0
  | S levels =>
    r ← read_node b off;
    match r with
    | None => Some 0
    | Some n =>
      cur ← skip_many (S (length b)) (skip_property b) (n_props n) (props_off n);
      if cur =? 0 then Some 0
      else skip_many (S (length b)) (skip_node levels b) (n_children n) cur
    end
  end.
Definition depth_left (depth : Z) : nat := Z.to_nat (DT_MAX_DEPTH + 1 - depth).

Definition dt_parse (blob : option (list Z)) : option (dt_status * option dt_node) :=
  match blob with
  | None => Some (DT_ERR_TRUNCATED, None)
  | Some b =>
    if blen b <? NODE_HEADER then Some (DT_ERR_TRUNCATED, None) else
    e ← skip_node (depth_left 0) b 0;
    if e =? 0 then Some (DT_ERR_TRUNCATED, None) else
    r ← read_node b 0;
    match r with
    | None => Some (DT_ERR_TRUNCATED, None)
    | Some n => Some (DT_OK, Some n)
    end
  end.

(** [strncmp(a, b, n) == 0] of C strings, NUL beyond their ends. *)
Fixpoint strneq (n : nat) (a b : list Z) : bool :=
  match n with
  | O => true
  | S n =>
    let x := hd 0 a in
    if x =? hd 0 b then (if x =? 0 then true else strneq n (tl a) (tl b)) else false
  end.

(** The found value is its offset and length. *)
Fixpoint property_from (fuel : nat) (b : list Z) (name : list Z) (n cur : Z)
    : option (dt_status * (Z * Z)) :=
  match fuel with
  | O => None
  | S fuel =>
    if 0 <? n then
      if negb (dt_fits b cur PROP_HEADER) then Some (DT_ERR_TRUNCATED, (0, 0)) else
      pname ← get_bytes b cur DT_PROP_NAME_LEN;
      if strneq (Z.to_nat DT_PROP_NAME_LEN) pname name then
        l ← rd32 b (cur + DT_PROP_NAME_LEN);
        let plen := l .& 0x7fffffff in
        if negb (dt_fits b (cur + PROP_HEADER) plen) then Some (DT_ERR_TRUNCATED, (0, 0))
        else Some (DT_OK, (cur + PROP_HEADER, plen))
      else
        cur ← skip_property b cur;
        if cur =? 0 then Some (DT_ERR_TRUNCATED, (0, 0))
        else property_from fuel b name (n - 1) cur
    else Some (DT_ERR_NOT_FOUND, (0, 0))
  end.

Definition dt_property (b : list Z) (node : dt_node) (name : list Z) : option (dt_status * (Z * Z)) :=
  property_from (S (length b)) b name (n_props node) (props_off node).

Definition dt_property_u32 (b : list Z) (node : dt_node) (name : list Z) : option (dt_status * Z) :=
  r ← dt_property b node name;
  match r with
  | (DT_OK, (v, n)) => if n <? 4 then Some (DT_ERR_TRUNCATED, 0) else x ← rd32 b v; Some (DT_OK, x)
  | (st, _) => Some (st, 0)
  end.

(** The characters "name". *)
Definition NAME : list Z := [0x6e; 0x61; 0x6d; 0x65].

(** [n >= want && strncmp(v, name, want) == 0 && (n == want || v[want] == 0)]. *)
Definition name_matches (b : list Z) (v n : Z) (name : list Z) : option bool :=
  let want := blen name in
  if n <? want then Some false else
  s ← get_bytes b v want;
  if negb (strneq (length name) s name) then Some false
  else if n =? want then Some true
  else c ← get8 b (v + want); Some (c =? 0).

Fixpoint child_from (fuel : nat) (b : list Z) (name : list Z) (n cur : Z)
    : option (dt_status * option dt_node) :=
  match fuel with
  | O => None
  | S fuel =>
    if 0 <? n then
      r ← read_node b cur;
      match r with
      | None => Some (DT_ERR_TRUNCATED, None)
      | Some child =>
        p ← dt_property b child NAME;
        hit ← match p with
              | (DT_OK, (v, len)) => name_matches b v len name
              | _ => Some false
              end;
        if hit : bool then Some (DT_OK, Some child) else
        cur ← skip_node (depth_left 0) b cur;
        if cur =? 0 then Some (DT_ERR_TRUNCATED, None) else child_from fuel b name (n - 1) cur
      end
    else Some (DT_ERR_NOT_FOUND, None)
  end.

Definition dt_child (b : list Z) (parent : dt_node) (name : list Z) : option (dt_status * option dt_node) :=
  cur ← skip_many (S (length b)) (skip_property b) (n_props parent) (props_off parent);
  if (0 <? n_props parent) && (cur =? 0) then Some (DT_ERR_TRUNCATED, None)
  else child_from (S (length b)) b name (n_children parent) cur.

(** ** Paths: strings of characters, 0x2f being the slash *)

Fixpoint strip_slashes (p : list Z) : list Z :=
  match p with
  | c :: p' => if c =? 0x2f then strip_slashes p' else p
  | [] => []
  end.
(** The first segment and what follows it. *)
Fixpoint segment (p : list Z) : list Z * list Z :=
  match p with
  | c :: p' => if c =? 0x2f then ([], p) else let '(s, rest) := segment p' in (c :: s, rest)
  | [] => ([], [])
  end.

Fixpoint path_from (fuel : nat) (b : list Z) (cur : dt_node) (p : list Z) : option (dt_status * option dt_node) :=
  match fuel with
  | O => None
  | S fuel =>
    match p with
    | [] => Some (DT_OK, Some cur)
    | _ =>
      let '(seg, rest) := segment p in
      if (blen seg =? 0) || (DT_PROP_NAME_LEN <=? blen seg) then Some (DT_ERR_NOT_FOUND, None) else
      r ← dt_child b cur seg;
      match r with
      | (DT_OK, Some child) => path_from fuel b child (strip_slashes rest)
      | (st, _) => Some (st, None)
      end
    end
  end.

Definition dt_path (b : list Z) (root : dt_node) (path : list Z) : option (dt_status * option dt_node) :=
  path_from (S (length path)) b root (strip_slashes path).

(** ** Safety *)

Lemma align4_spec v : 0 <= v → v + 3 < 2 ^ 64 → align4 v = (v + 3) / 4 * 4.
Proof.
  intros H1 H2. unfold align4. rewrite <- (Z.shiftl_mul_pow2 _ 2), <- (Z.shiftr_div_pow2 _ 2) by lia.
  change 0xfffffffffffffffc with (Z.shiftl (Z.ones 62) 2).
  apply Z.bits_inj'. intros i Hi. rewrite Z.land_spec, !Z.shiftl_spec by lia.
  destruct (Z.ltb_spec i 2); [rewrite !(Z.testbit_neg_r _ (i - 2)) by lia; by rewrite andb_false_r |].
  rewrite Z.testbit_ones_nonneg, Z.shiftr_spec, Z.sub_add by lia.
  destruct (Z.ltb_spec (i - 2) 62); [by rewrite andb_true_r |].
  by rewrite andb_false_r, (uint_high 64 (v + 3)) by (lia || (split; lia)).
Qed.

(** A blob is less than the address space. *)
Section Safety.
Context (b : list Z) (Hb : blen b < 2 ^ 62).

Lemma align4_range v : 0 <= v < 2 ^ 63 → v <= align4 v < v + 4.
Proof.
  intros H. rewrite align4_spec by lia. pose proof (Z.div_mod (v + 3) 4 ltac:(lia)).
  pose proof (Z.mod_pos_bound (v + 3) 4 ltac:(lia)). lia.
Qed.

(** A skip: 0, or forward and still inside. *)
Definition skips (off e : Z) : Prop := e = 0 ∨ (off < e ∧ e <= blen b).

Lemma mask31_range x : uint 32 x → 0 <= x .& 0x7fffffff < 2 ^ 31.
Proof. intros _. change 0x7fffffff with (Z.ones 31). rewrite Z.land_ones by lia. by apply Z.mod_pos_bound. Qed.

Lemma skip_property_safe off : 0 <= off → returns (skips off) (skip_property b off).
Proof.
  intros Ho. unfold skip_property, dt_fits, PROP_HEADER, DT_PROP_NAME_LEN.
  reading; [by left | by left | right].
  match goal with H : 0 <= ?a, H' : ?a < 2 ^ 32 |- _ => pose proof (mask31_range a (conj H H')) end.
  match goal with |- context [align4 ?v] => pose proof (align4_range v ltac:(lia)) end. lia.
Qed.

Lemma skip_many_safe skip : (∀ off, 0 <= off → returns (skips off) (skip off)) →
  ∀ fuel n cur, (Z.to_nat (blen b - cur) < fuel)%nat → 0 <= cur <= blen b →
  returns (fun e => e = 0 ∨ (cur <= e ∧ e <= blen b)) (skip_many fuel skip n cur).
Proof.
  intros Hs. induction fuel as [| fuel IH]; intros n cur Hf Hc; [lia |]. simpl.
  reading; [| right; lia].
  eapply returns_bind; [apply Hs; lia | intros e He].
  destruct (Z.eqb_spec e 0); [apply returns_ret; by left |]. destruct He as [-> | He]; [done |].
  eapply returns_weaken; [apply IH; lia | intros e' [-> | ?]; [by left | right; lia]].
Qed.

Lemma read_node_safe off : 0 <= off →
  returns (fun r => ∀ n, r = Some n → offset n = off ∧ props_off n = off + 8 ∧ off + 8 <= blen b)
    (read_node b off).
Proof.
  intros Ho. unfold read_node, dt_fits, NODE_HEADER. reading; [done |]. by intros n [= <-].
Qed.

Lemma skip_node_safe levels : ∀ off, 0 <= off → returns (skips off) (skip_node levels b off).
Proof.
  induction levels as [| levels IH]; intros off Ho; cbn [skip_node]; [apply returns_ret; by left |].
  eapply returns_bind; [by apply read_node_safe | intros [n |] Hn; [| apply returns_ret; by left]].
  destruct (Hn n eq_refl) as (_ & Hp & ?).
  eapply returns_bind; [apply skip_many_safe; [apply skip_property_safe | unfold blen; lia | lia] |].
  intros cur Hcur. destruct (Z.eqb_spec cur 0); [apply returns_ret; by left |].
  destruct Hcur as [-> | Hcur]; [done |].
  eapply returns_weaken; [apply skip_many_safe; [done | unfold blen; lia | lia] |].
  intros e [-> | ?]; [by left | right; lia].
Qed.

(** A node whose properties start inside the blob, as every node the parser returns. *)
Definition node_inside (n : dt_node) : Prop := 0 <= offset n ∧ props_off n = offset n + 8 ∧ props_off n <= blen b.

Definition value_inside (r : dt_status * (Z * Z)) : Prop :=
  fst r = DT_OK → 0 <= fst (snd r) ∧ 0 <= snd (snd r) ∧ fst (snd r) + snd (snd r) <= blen b.

Lemma property_from_safe name : ∀ fuel n cur, (Z.to_nat (blen b - cur) < fuel)%nat → 0 <= cur <= blen b →
  returns value_inside (property_from fuel b name n cur).
Proof.
  induction fuel as [| fuel IH]; intros n cur Hf Hc; [lia |]. cbn [property_from].
  unfold dt_fits, PROP_HEADER, DT_PROP_NAME_LEN. reading; try done.
  - match goal with H : 0 <= ?a, H' : ?a < 2 ^ 32 |- _ => pose proof (mask31_range a (conj H H')) end.
    intros _. cbn [fst snd]. lia.
  - eapply returns_bind; [apply skip_property_safe; lia | intros e He].
    destruct (Z.eqb_spec e 0); [by apply returns_ret |]. destruct He as [-> | He]; [done |]. apply IH; lia.
Qed.

Lemma dt_property_safe node name : node_inside node → returns value_inside (dt_property b node name).
Proof. intros (? & ? & ?). apply property_from_safe; unfold blen in *; lia. Qed.

Definition child_inside (r : dt_status * option dt_node) : Prop :=
  match r with
  | (DT_OK, Some n) => node_inside n
  | (DT_OK, None) => False
  | (_, _) => snd r = None
  end.

Lemma name_matches_safe v n name : 0 <= v → 0 <= n → v + n <= blen b →
  returns (fun _ => True) (name_matches b v n name).
Proof.
  intros. unfold name_matches. assert (0 <= blen name) by (unfold blen; lia).
  by reading.
Qed.

Lemma child_from_safe name : ∀ fuel n cur, (Z.to_nat (blen b - cur) < fuel)%nat → 0 <= cur <= blen b →
  returns child_inside (child_from fuel b name n cur).
Proof.
  induction fuel as [| fuel IH]; intros n cur Hf Hc; [lia |]. cbn [child_from]. reading; [| done].
  eapply returns_bind; [apply read_node_safe; lia | intros [child |] Hn; [| by apply returns_ret]].
  destruct (Hn child eq_refl) as (Eo & Ep & ?).
  assert (node_inside child) as Hin by (unfold node_inside; lia).
  eapply returns_bind; [by apply dt_property_safe | intros [st [v len]] Hv].
  apply returns_bind with (P := fun _ => True).
  { destruct st; try by apply returns_ret. destruct (Hv eq_refl) as (? & ? & ?). by apply name_matches_safe. }
  intros [] _; [by apply returns_ret |].
  eapply returns_bind; [apply skip_node_safe; lia | intros e He].
  destruct (Z.eqb_spec e 0); [by apply returns_ret |]. destruct He as [-> | He]; [done |]. apply IH; lia.
Qed.

Lemma dt_child_safe parent name : node_inside parent → returns child_inside (dt_child b parent name).
Proof.
  intros (? & ? & ?). unfold dt_child.
  eapply returns_bind; [apply skip_many_safe; [apply skip_property_safe | unfold blen in *; lia | lia] |].
  intros cur Hcur. reading; [done |]. apply child_from_safe; unfold blen in *; lia.
Qed.

Lemma segment_shorter p : p ≠ [] → hd 0 p ≠ 0x2f →
  (length (strip_slashes (snd (segment p))) < length p)%nat.
Proof.
  assert (∀ q, (length (strip_slashes q) <= length q)%nat) as Hs.
  { induction q as [| c q IH]; simpl; [done |]. destruct (c =? 47); simpl; lia. }
  assert (∀ q, (length (snd (segment q)) <= length q)%nat) as Hg.
  { induction q as [| c q IH]; simpl; [done |]. destruct (c =? 47); [simpl; lia |].
    destruct (segment q); simpl in *; lia. }
  destruct p as [| c p]; [done |]. intros _ Hc. simpl in Hc |- *.
  destruct (Z.eqb_spec c 47); [done |]. specialize (Hg p). destruct (segment p) as [s rest]. simpl in *.
  specialize (Hs rest). lia.
Qed.

Lemma strip_head p : strip_slashes p = [] ∨ hd 0 (strip_slashes p) ≠ 0x2f.
Proof. induction p as [| c p IH]; simpl; [by left |]. destruct (Z.eqb_spec c 47); [done | by right]. Qed.

Lemma path_from_safe : ∀ fuel cur p, (length p < fuel)%nat → p = [] ∨ hd 0 p ≠ 0x2f → node_inside cur →
  returns child_inside (path_from fuel b cur p).
Proof.
  induction fuel as [| fuel IH]; intros cur p Hf Hp Hn; [lia |]. cbn [path_from].
  destruct p as [| c p]; [by apply returns_ret |]. destruct Hp as [| Hp]; [done |].
  pose proof (segment_shorter (c :: p) ltac:(done) Hp) as Hlt. destruct (segment (c :: p)) as [seg rest].
  reading; [done |].
  eapply returns_bind; [by apply dt_child_safe | intros [st r] Hr].
  destruct st; try (by apply returns_ret). destruct r as [child |]; [| done].
  cbn [snd] in Hlt. apply IH; [lia | apply strip_head | done].
Qed.
End Safety.

(** ** Abstract trees and their flattening *)

Record dprop := MkProp { p_name : list Z; p_flag : bool; p_value : list Z }.
Inductive dtree := DNode (props : list dprop) (children : list dtree).

Definition t_props (t : dtree) : list dprop := let 'DNode ps _ := t in ps.
Definition t_children (t : dtree) : list dtree := let 'DNode _ cs := t in cs.

Definition pad_name (l : list Z) : list Z := l ++ replicate (32 - length l) 0.
Definition encode_prop (p : dprop) : list Z :=
  pad_name (p_name p) ++ le32 (blen (p_value p) + (if p_flag p then 2 ^ 31 else 0))
  ++ p_value p ++ replicate (Z.to_nat ((- blen (p_value p)) mod 4)) 0.
Fixpoint encode (t : dtree) : list Z :=
  match t with
  | DNode ps cs =>
    (le32 (Z.of_nat (length ps)) ++ le32 (Z.of_nat (length cs)))
    ++ flat_map encode_prop ps ++ flat_map encode cs
  end.

Lemma encode_node ps cs : encode (DNode ps cs) =
  (le32 (Z.of_nat (length ps)) ++ le32 (Z.of_nat (length cs)))
  ++ flat_map encode_prop ps ++ flat_map encode cs.
Proof. done. Qed.

Definition prop_wf (p : dprop) : Prop :=
  (length (p_name p) <= 32)%nat ∧ is_bytes (p_name p) ∧ is_bytes (p_value p) ∧ blen (p_value p) < 2 ^ 31.

(** At most [levels] levels of nodes, and counts that fit their fields. *)
Fixpoint tree_wf (levels : nat) (t : dtree) : Prop :=
  match levels, t with
  | O, _ => False
  | S levels, DNode ps cs =>
    Z.of_nat (length ps) < 2 ^ 32 ∧ Z.of_nat (length cs) < 2 ^ 32 ∧
    Forall prop_wf ps ∧ Forall (tree_wf levels) cs
  end.

(** A property by its name, a child by the C string in its "name" property. *)
Definition tree_prop (t : dtree) (name : list Z) : option (list Z) :=
  p_value <$> find (fun p => bool_decide (c_string (p_name p) = name)) (t_props t).
Definition tree_child (t : dtree) (name : list Z) : option dtree :=
  find (fun c => bool_decide (c_string <$> tree_prop c NAME = Some name)) (t_children t).
Fixpoint tree_path (t : dtree) (segs : list (list Z)) : option dtree :=
  match segs with
  | [] => Some t
  | s :: segs => if DT_PROP_NAME_LEN <=? blen s then None else c ← tree_child t s; tree_path c segs
  end.

(** The non-empty pieces of a path between its slashes. *)
Fixpoint pieces (p : list Z) : list (list Z) :=
  match p with
  | [] => [[]]
  | c :: p =>
    if c =? 0x2f then [] :: pieces p
    else match pieces p with s :: r => (c :: s) :: r | [] => [[c]] end
  end.
Definition split_path (p : list Z) : list (list Z) := filter (fun s => s ≠ []) (pieces p).

(** *** Layout *)

Lemma blen_replicate n (x : Z) : blen (replicate n x) = Z.of_nat n.
Proof. unfold blen. by rewrite length_replicate. Qed.

Lemma pad_name_len l : (length l <= 32)%nat → blen (pad_name l) = 32.
Proof. intros H. unfold pad_name. rewrite blen_app, blen_replicate. unfold blen. lia. Qed.

Lemma pad_mod n : 0 <= n → 0 <= (- n) mod 4 < 4 ∧ (n + (- n) mod 4) mod 4 = 0.
Proof.
  intros H. split; [apply Z.mod_pos_bound; lia |].
  rewrite Z.add_mod_idemp_r by lia. by replace (n + - n) with 0 by lia.
Qed.

Definition aligned (n : Z) : Prop := n mod 4 = 0.
Lemma aligned_add a c : aligned a → aligned c → aligned (a + c).
Proof. unfold aligned. intros Ha Hc. rewrite Z.add_mod, Ha, Hc by lia. done. Qed.

Lemma prop_size p : prop_wf p →
  blen (encode_prop p) = 36 + blen (p_value p) + (- blen (p_value p)) mod 4 ∧
  aligned (blen (encode_prop p)).
Proof.
  intros (Hn & _ & _ & _).
  pose proof (pad_mod (blen (p_value p)) ltac:(unfold blen; lia)) as [? Hm].
  assert (blen (encode_prop p) = 36 + blen (p_value p) + (- blen (p_value p)) mod 4) as E.
  { unfold encode_prop. rewrite !blen_app, pad_name_len, blen_le32, blen_replicate by done. lia. }
  split; [done |]. unfold aligned. rewrite E, <- Z.add_assoc, Z.add_mod, Hm by lia. done.
Qed.

Section Layout.
Context {A : Type} (enc : A → list Z).

(** Blocks laid out one after the other, each skipped from its start. *)
Lemma skip_many_encode b skip : ∀ xs fuel pre post,
  (∀ x, In x xs → ∀ pre post, b = pre ++ enc x ++ post → aligned (blen pre) →
     skip (blen pre) = Some (blen pre + blen (enc x)) ∧ 0 < blen (enc x) ∧ aligned (blen (enc x))) →
  b = pre ++ flat_map enc xs ++ post → aligned (blen pre) → (length xs < fuel)%nat →
  skip_many fuel skip (Z.of_nat (length xs)) (blen pre) = Some (blen pre + blen (flat_map enc xs)) ∧
  aligned (blen (flat_map enc xs)) ∧ (length xs <= length (flat_map enc xs))%nat.
Proof.
  induction xs as [| x xs IH]; intros fuel pre post Hx E Ha Hf;
    (destruct fuel as [| fuel]; [simpl in Hf; lia |]); cbn [skip_many].
  { simpl. rewrite Z.add_0_r. done. }
  rewrite (proj2 (Z.ltb_lt 0 (Z.of_nat (length (x :: xs))))) by (cbn [length]; lia).
  simpl flat_map in *. rewrite <- app_assoc in E.
  destruct (Hx x ltac:(by left) _ _ E Ha) as (-> & Hpos & Hal). cbn [mbind option_bind].
  destruct (Z.eqb_spec (blen pre + blen (enc x)) 0); [unfold blen in *; lia |].
  destruct (IH fuel (pre ++ enc x) post) as (Es & Hal' & Hl');
    [intros y Hy; apply Hx; by right | by rewrite <- app_assoc | rewrite blen_app; by apply aligned_add
    | simpl in Hf; lia |].
  rewrite !blen_app in *. replace (Z.of_nat (length (x :: xs)) - 1) with (Z.of_nat (length xs)) by (cbn [length]; lia).
  rewrite Es, Z.add_assoc. split_and!; [done | by apply aligned_add |].
  rewrite length_app. unfold blen in Hpos. simpl. lia.
Qed.
End Layout.

Lemma length_word_masked v (f : bool) : 0 <= v < 2 ^ 31 →
  uint 32 (v + (if f then 2 ^ 31 else 0)) ∧ (v + (if f then 2 ^ 31 else 0)) .& 0x7fffffff = v.
Proof.
  intros H. split; [destruct f; split; lia |]. change 0x7fffffff with (Z.ones 31).
  rewrite Z.land_ones by lia. destruct f.
  - replace (v + 2 ^ 31) with (v + 1 * 2 ^ 31) by lia. rewrite Z.mod_add by lia. by apply Z.mod_small.
  - rewrite Z.add_0_r. by apply Z.mod_small.
Qed.

(** The fields of a property, read back. *)
Lemma prop_fields b pre p post : b = pre ++ encode_prop p ++ post → prop_wf p →
  get_bytes b (blen pre) 32 = Some (pad_name (p_name p)) ∧
  (∃ l, rd32 b (blen pre + 32) = Some l ∧ l .& 0x7fffffff = blen (p_value p)) ∧
  get_bytes b (blen pre + 36) (blen (p_value p)) = Some (p_value p) ∧
  blen pre + blen (encode_prop p) <= blen b.
Proof.
  intros E (Hn & Hnb & Hvb & Hv).
  destruct (length_word_masked (blen (p_value p)) (p_flag p)) as [Hu Hm]; [unfold blen in *; lia |].
  assert (is_bytes (pad_name (p_name p))) as Hpb
    by (apply Forall_app_2; [done | apply Forall_replicate; split; lia]).
  unfold encode_prop in E. rewrite <- !app_assoc in E. split_and!.
  - eapply get_bytes_at; [exact E | done | by rewrite pad_name_len | done].
  - eexists. split; [| exact Hm].
    eapply (rd32_at _ (pre ++ pad_name (p_name p))); [by rewrite <- app_assoc | | done].
    by rewrite blen_app, pad_name_len.
  - eapply (get_bytes_at _ (pre ++ pad_name (p_name p)
      ++ le32 (blen (p_value p) + (if p_flag p then 2 ^ 31 else 0))));
      [rewrite E, <- !app_assoc; reflexivity | | done | done].
    rewrite !blen_app, pad_name_len, blen_le32 by done. lia.
  - rewrite E. unfold encode_prop. rewrite !blen_app. unfold blen. lia.
Qed.

Section Encoded.
Context (b : list Z) (Hb : blen b < 2 ^ 62).

Lemma skip_property_encode pre p post : b = pre ++ encode_prop p ++ post → aligned (blen pre) → prop_wf p →
  skip_property b (blen pre) = Some (blen pre + blen (encode_prop p)).
Proof.
  intros E Ha Hp. destruct (prop_fields b pre p post E Hp) as (_ & (l & Hl & Hm) & _ & Hin).
  destruct (prop_size p Hp) as [Es Hal]. unfold skip_property, dt_fits, PROP_HEADER, DT_PROP_NAME_LEN.
  pose proof (pad_mod (blen (p_value p)) ltac:(unfold blen; lia)) as [Hpad Hmod].
  assert (0 <= blen pre ∧ 0 <= blen (p_value p)) as [? ?] by (unfold blen; lia).
  rewrite (proj2 (Z.leb_le (blen pre + (32 + 4)) (blen b))) by lia. cbn [negb]. rewrite Hl. cbn [mbind option_bind].
  rewrite Hm. assert (align4 (blen pre + (32 + 4) + blen (p_value p)) = blen pre + blen (encode_prop p)) as ->.
  { rewrite align4_spec by lia. set (v := blen (p_value p)) in *.
    assert (blen pre + (32 + 4) + v + 3 = blen pre + 36 + (v + (- v) mod 4) + (3 - (- v) mod 4)) as -> by lia.
    assert ((blen pre + 36 + (v + (- v) mod 4)) mod 4 = 0) as Hz.
    { apply aligned_add; [by apply aligned_add | exact Hmod]. }
    apply Z.mod_divide in Hz as [q Hq]; [| lia]. rewrite Hq, Z.add_comm, Z.div_add by lia.
    rewrite Z.div_small by lia. lia. }
  by rewrite (proj2 (Z.ltb_ge (blen b) (blen pre + blen (encode_prop p)))) by lia.
Qed.

Lemma node_header pre t post levels : b = pre ++ encode t ++ post → tree_wf levels t →
  read_node b (blen pre) = Some (Some (MkNode (blen pre) (Z.of_nat (length (t_props t)))
    (Z.of_nat (length (t_children t))) (blen pre + 8))).
Proof.
  intros E Hw. destruct levels as [| levels]; [done |]. destruct t as [ps cs].
  destruct Hw as (Hp & Hc & _). unfold read_node, dt_fits, NODE_HEADER.
  rewrite encode_node, <- !app_assoc in E.
  rewrite (proj2 (Z.leb_le (blen pre + 8) (blen b)))
    by (rewrite E, !blen_app, !blen_le32; unfold blen; lia). cbn [negb].
  rewrite (rd32_at b pre (Z.of_nat (length ps)) _ (blen pre) E) by (done || split; lia).
  rewrite (rd32_at b (pre ++ le32 (Z.of_nat (length ps))) (Z.of_nat (length cs))
    (flat_map encode_prop ps ++ flat_map encode cs ++ post))
    by (rewrite ?blen_app, ?blen_le32, <- ?app_assoc; done || split; lia).
  done.
Qed.

Lemma tree_wf_mono l l' t : (l <= l')%nat → tree_wf l t → tree_wf l' t.
Proof.
  revert l' t. induction l as [| l IH]; intros l' [ps cs] Hle Hw; [done |].
  destruct l' as [| l']; [lia |]. destruct Hw as (? & ? & ? & Hc). split_and!; try done.
  eapply Forall_impl; [| exact Hc]. intros c. apply IH. lia.
Qed.

(** The properties, then the children, of a node laid out at [pre]. *)
Definition body_at (pre : list Z) (t : dtree) (post : list Z) : Prop :=
  ∃ h, blen h = 8 ∧ b = (pre ++ h) ++ flat_map encode_prop (t_props t) ++ flat_map encode (t_children t) ++ post.

Lemma encode_body pre t post : b = pre ++ encode t ++ post → body_at pre t post.
Proof.
  destruct t as [ps cs]. rewrite encode_node. intros E.
  exists (le32 (Z.of_nat (length ps)) ++ le32 (Z.of_nat (length cs))).
  split; [reflexivity |]. cbn [t_props t_children]. rewrite E, <- !app_assoc. reflexivity.
Qed.

Lemma skip_props pre t post levels : body_at pre t post → aligned (blen pre) → tree_wf (S levels) t →
  skip_many (S (length b)) (skip_property b) (Z.of_nat (length (t_props t))) (blen pre + 8)
    = Some (blen pre + 8 + blen (flat_map encode_prop (t_props t))) ∧
  aligned (blen (flat_map encode_prop (t_props t))).
Proof.
  intros (h & Lh & E) Ha Hw. destruct t as [ps cs]. destruct Hw as (_ & _ & Hps & _). simpl in E |- *.
  replace (blen pre + 8) with (blen (pre ++ h)) by (rewrite blen_app; lia).
  assert (∀ p, In p ps → ∀ pre post, b = pre ++ encode_prop p ++ post → aligned (blen pre) →
    skip_property b (blen pre) = Some (blen pre + blen (encode_prop p)) ∧
    0 < blen (encode_prop p) ∧ aligned (blen (encode_prop p))) as Hskip.
  { intros p Hp pre' post' E' Ha'. rewrite List.Forall_forall in Hps. specialize (Hps p Hp).
    destruct (prop_size p Hps) as [Es Hal].
    pose proof (pad_mod (blen (p_value p)) ltac:(unfold blen; lia)) as [? _].
    split_and!; [by eapply skip_property_encode | unfold blen in *; lia | done]. }
  assert (aligned (blen (pre ++ h))) as Ha'.
  { rewrite blen_app, Lh. by apply aligned_add. }
  destruct (skip_many_encode encode_prop b (skip_property b) ps (S (length b)) (pre ++ h)
    (flat_map encode cs ++ post)) as (? & ? & _); try done.
  rewrite E, !length_app.
  destruct (skip_many_encode encode_prop b (skip_property b) ps (S (length ps)) (pre ++ h)
    (flat_map encode cs ++ post)) as (_ & _ & ?); try done; lia.
Qed.

Lemma skip_node_encode : ∀ levels t pre post, b = pre ++ encode t ++ post → aligned (blen pre) →
  tree_wf levels t →
  skip_node levels b (blen pre) = Some (blen pre + blen (encode t)) ∧ 0 < blen (encode t) ∧
  aligned (blen (encode t)).
Proof.
  induction levels as [| levels IH]; intros t pre post E Ha Hw; [done |]. cbn [skip_node].
  rewrite (node_header pre t post (S levels) E Hw). cbn [mbind option_bind n_props props_off n_children].
  pose proof (encode_body pre t post E) as Hbody.
  destruct (skip_props pre t post levels Hbody Ha Hw) as [-> Hal]. cbn [mbind option_bind].
  assert (0 <= blen pre ∧ 0 <= blen (flat_map encode_prop (t_props t))) as [? ?] by (unfold blen; lia).
  destruct (Z.eqb_spec (blen pre + 8 + blen (flat_map encode_prop (t_props t))) 0); [lia |].
  destruct Hbody as (h & Lh & Eb). destruct t as [ps cs]. destruct Hw as (_ & _ & _ & Hcs).
  simpl t_props in *. simpl t_children in *.
  set (pre' := (pre ++ h) ++ flat_map encode_prop ps).
  assert (blen pre' = blen pre + 8 + blen (flat_map encode_prop ps)) as Lp
    by (unfold pre'; rewrite !blen_app; lia).
  rewrite <- Lp. rewrite app_assoc in Eb. fold pre' in Eb.
  assert (aligned (blen pre')) as Ha'.
  { rewrite Lp. apply aligned_add; [by apply aligned_add | done]. }
  assert (∀ fuel, (length cs < fuel)%nat →
    skip_many fuel (skip_node levels b) (Z.of_nat (length cs)) (blen pre')
      = Some (blen pre' + blen (flat_map encode cs)) ∧ aligned (blen (flat_map encode cs)) ∧
    (length cs <= length (flat_map encode cs))%nat) as Hmany.
  { intros fuel Hf. eapply skip_many_encode; [| exact Eb | done | done].
    intros c Hc pre1 post1 E1 Ha1. rewrite List.Forall_forall in Hcs. by eapply IH, Hcs. }
  destruct (Hmany (S (length cs)) ltac:(lia)) as (_ & Halc & Hlen).
  destruct (Hmany (S (length b))) as (-> & _ & _); [rewrite Eb, !length_app; lia |].
  rewrite encode_node, !blen_app, !blen_le32. split; [f_equal; lia |].
  split; [unfold blen; lia |]. repeat apply aligned_add; done.
Qed.
End Encoded.

(** *** C strings *)

Definition no_nul (l : list Z) : Prop := Forall (fun c => c ≠ 0) l.

Lemma strneq_spec n : ∀ a name, no_nul name →
  strneq n a name = bool_decide (take n (c_string a) = take n name).
Proof.
  induction n as [| n IH]; intros a name Hn; [done |]. cbn [strneq].
  destruct a as [| x a], name as [| y name]; cbn -[Z.eqb]; [done | | |].
  - apply Forall_cons_iff in Hn as [Hy _]. destruct (Z.eqb_spec 0 y); [by subst |]. done.
  - by destruct (Z.eqb_spec x 0).
  - apply Forall_cons_iff in Hn as [Hy Hn].
    destruct (Z.eqb_spec x y) as [-> | Hxy].
    + destruct (Z.eqb_spec y 0); [done |]. rewrite IH by done. cbn [take].
      apply bool_decide_ext. split; [by intros -> | by intros [=]].
    + destruct (Z.eqb_spec x 0); symmetry; apply bool_decide_eq_false; [done |].
      cbn [take]. by intros [=].
Qed.

Lemma c_string_pad l k : c_string (l ++ replicate k 0) = c_string l.
Proof. induction l as [| x l IH]; simpl; [by destruct k | by rewrite IH]. Qed.

Lemma c_string_length l : (length (c_string l) <= length l)%nat.
Proof. induction l as [| x l IH]; simpl; [done |]. destruct (x =? 0); simpl; lia. Qed.

(** A stored name equals a looked-up one. *)
Lemma strneq_name nm name : (length nm <= 32)%nat → (length name <= 32)%nat → no_nul name →
  strneq 32 (pad_name nm) name = bool_decide (c_string nm = name).
Proof.
  intros H1 H2 Hn. unfold pad_name. rewrite strneq_spec, c_string_pad by done.
  pose proof (c_string_length nm). by rewrite !take_ge by lia.
Qed.

Lemma strneq_take n : ∀ a name, strneq n (take n a) name = strneq n a name.
Proof.
  induction n as [| n IH]; intros [| x a] name; cbn -[Z.eqb]; [done.. |].
  destruct (x =? hd 0 name); [| done]. by destruct (x =? 0).
Qed.

Lemma c_string_is name : ∀ l, no_nul name →
  c_string l = name ↔ (length name <= length l)%nat ∧ strneq (length name) l name = true ∧
                      hd 0 (drop (length name) l) = 0.
Proof.
  induction name as [| y name IH]; intros l Hn.
  - destruct l as [| x l]; cbn -[Z.eqb]; [intuition lia |].
    destruct (Z.eqb_spec x 0); split; [intuition lia | done | discriminate | by intros (_ & _ & ?)].
  - apply Forall_cons_iff in Hn as [Hy Hn]. destruct l as [| x l]; cbn -[Z.eqb].
    { split; [done | lia]. }
    specialize (IH l Hn). rewrite <- Nat.succ_le_mono.
    destruct (Z.eqb_spec x 0) as [-> | Hx]; [destruct (Z.eqb_spec 0 y); [congruence | split; [done | by intros (_ & ? & _)]] |].
    destruct (Z.eqb_spec x y) as [-> | Hxy].
    + rewrite <- IH. split; [by intros [=] | by intros ->].
    + split; [by intros [=] | by intros (_ & ? & _)].
Qed.

Lemma name_matches_encode b v l name : 0 <= v → get_bytes b v (blen l) = Some l → no_nul name →
  name_matches b v (blen l) name = Some (bool_decide (c_string l = name)).
Proof.
  intros Hv Hg Hn. unfold name_matches. pose proof (c_string_is name l Hn) as Hc.
  destruct (Z.ltb_spec (blen l) (blen name)).
  { rewrite bool_decide_false; [done |]. rewrite Hc. unfold blen in *. lia. }
  replace (blen l) with (blen name + (blen l - blen name)) in Hg at 1 by lia.
  apply get_bytes_split in Hg as [-> Hrest]; [| unfold blen; lia | lia]. cbn [mbind option_bind].
  replace (Z.to_nat (blen name)) with (length name) in * by (unfold blen; lia).
  rewrite strneq_take.
  destruct (strneq (length name) l name) eqn:Es; cbn [negb];
    [| rewrite bool_decide_false; [done | rewrite Hc; by intros (_ & ? & _)]].
  destruct (Z.eqb_spec (blen l) (blen name)) as [El | El].
  { rewrite bool_decide_true; [done |]. apply Hc. split; [unfold blen in *; lia |]. split; [done |].
    rewrite drop_ge by (unfold blen in *; lia). done. }
  pose proof (get_bytes_lookup _ _ _ _ 0 Hrest ltac:(lia)) as H0. rewrite Z.add_0_r in H0. rewrite H0.
  change (Z.to_nat 0) with 0%nat. destruct (drop (length name) l) as [| c r] eqn:Ed.
  { apply (f_equal length) in Ed. rewrite length_drop in Ed. unfold blen in *. simpl in Ed. lia. }
  simpl. f_equal. destruct (Z.eqb_spec c 0) as [-> | Hne].
  - symmetry. apply bool_decide_eq_true, Hc. split; [unfold blen in *; lia | done].
  - symmetry. apply bool_decide_eq_false. rewrite Hc. intros (_ & _ & Hz). done.
Qed.

(** *** Lookups *)

Section Lookups.
Context (b : list Z) (Hb : blen b < 2 ^ 62).

(** [n] is the node laid out for [t] somewhere in the blob. *)
Definition represents (n : dt_node) (t : dtree) : Prop :=
  ∃ pre post, b = pre ++ encode t ++ post ∧ aligned (blen pre) ∧ tree_wf (depth_left 0) t ∧
    n = MkNode (blen pre) (Z.of_nat (length (t_props t))) (Z.of_nat (length (t_children t))) (blen pre + 8).

Lemma property_from_encode name : no_nul name → (length name <= 32)%nat → ∀ ps fuel pre post,
  b = pre ++ flat_map encode_prop ps ++ post → aligned (blen pre) → Forall prop_wf ps → (length ps < fuel)%nat →
  match find (fun p => bool_decide (c_string (p_name p) = name)) ps with
  | None => property_from fuel b name (Z.of_nat (length ps)) (blen pre) = Some (DT_ERR_NOT_FOUND, (0, 0))
  | Some p => prop_wf p ∧ ∃ off, 0 <= off ∧
      property_from fuel b name (Z.of_nat (length ps)) (blen pre) = Some (DT_OK, (off, blen (p_value p))) ∧
      get_bytes b off (blen (p_value p)) = Some (p_value p)
  end.
Proof.
  intros Hn Hl. induction ps as [| p ps IH]; intros fuel pre post E Ha Hw Hf;
    (destruct fuel as [| fuel]; [simpl in Hf; lia |]); cbn [property_from find]; [done |].
  rewrite (proj2 (Z.ltb_lt 0 (Z.of_nat (length (p :: ps))))) by (cbn [length]; lia).
  apply Forall_cons_iff in Hw as [Hp Hw]. cbn [flat_map] in E. rewrite <- app_assoc in E.
  destruct (prop_fields b pre p _ E Hp) as (Hname & (l & Hlen & Hm) & Hval & Hin).
  destruct (prop_size p Hp) as [Es Hal]. pose proof (pad_mod (blen (p_value p)) ltac:(unfold blen; lia)) as [? _].
  assert (0 <= blen pre ∧ 0 <= blen (p_value p)) as [? ?] by (unfold blen; lia).
  unfold dt_fits, PROP_HEADER, DT_PROP_NAME_LEN. rewrite (proj2 (Z.leb_le _ (blen b))) by lia.
  cbn [negb]. rewrite Hname. cbn [mbind option_bind]. change (Z.to_nat 32) with 32%nat.
  rewrite strneq_name by (done || apply Hp). case_bool_decide as Hc.
  - rewrite Hlen. cbn [mbind option_bind]. rewrite Hm. split; [done |].
    rewrite (proj2 (Z.leb_le _ (blen b))) by lia. exists (blen pre + 36). split; [lia | done].
  - rewrite (skip_property_encode b Hb pre p _ E Ha Hp). cbn [mbind option_bind].
    destruct (Z.eqb_spec (blen pre + blen (encode_prop p)) 0); [lia |].
    replace (Z.of_nat (length (p :: ps)) - 1) with (Z.of_nat (length ps)) by (cbn [length]; lia).
    rewrite <- blen_app. apply (IH fuel (pre ++ encode_prop p) post);
      [by rewrite <- app_assoc | rewrite blen_app; by apply aligned_add | done | cbn [length] in Hf; lia].
Qed.

Lemma many_inside {A} (enc : A → list Z) xs : (∀ x, 0 < blen (enc x)) →
  (length xs <= length (flat_map enc xs))%nat.
Proof.
  intros H. induction xs as [| x xs IH]; simpl; [done |]. rewrite length_app.
  specialize (H x). unfold blen in H. lia.
Qed.

Lemma encode_prop_pos p : 0 < blen (encode_prop p).
Proof. unfold encode_prop. rewrite !blen_app, blen_le32. unfold blen. lia. Qed.
Lemma encode_pos t : 0 < blen (encode t).
Proof. destruct t. rewrite encode_node, !blen_app, !blen_le32. unfold blen. lia. Qed.

Lemma dt_property_encode n t name : represents n t → no_nul name → (length name <= 32)%nat →
  match tree_prop t name with
  | None => dt_property b n name = Some (DT_ERR_NOT_FOUND, (0, 0))
  | Some v => ∃ off, 0 <= off ∧ dt_property b n name = Some (DT_OK, (off, blen v)) ∧
                     get_bytes b off (blen v) = Some v
  end.
Proof.
  intros (pre & post & E & Ha & Hw & ->) Hn Hl. unfold dt_property. cbn [n_props props_off].
  destruct (encode_body b pre t post E) as (h & Lh & Eb). destruct t as [ps cs].
  destruct Hw as (_ & _ & Hps & _). cbn [t_props t_children] in *.
  replace (blen pre + 8) with (blen (pre ++ h)) by (rewrite blen_app; lia).
  assert (aligned (blen (pre ++ h))) as Ha' by (rewrite blen_app, Lh; by apply aligned_add).
  pose proof (many_inside encode_prop ps encode_prop_pos).
  pose proof (property_from_encode name Hn Hl ps (S (length b)) (pre ++ h) _ Eb Ha' Hps) as H0.
  unfold tree_prop. cbn [t_props]. destruct (find _ ps) as [p |]; cbn [fmap option_fmap option_map].
  - destruct H0 as (_ & H0); [rewrite Eb, !length_app; lia | done].
  - apply H0. rewrite Eb, !length_app. lia.
Qed.

Lemma NAME_ok : no_nul NAME ∧ (length NAME <= 32)%nat.
Proof. split; [by_computation | simpl; lia]. Qed.

Lemma child_from_encode name l : no_nul name → (l <= depth_left 0)%nat → ∀ cs fuel pre post,
  b = pre ++ flat_map encode cs ++ post → aligned (blen pre) → Forall (tree_wf l) cs → (length cs < fuel)%nat →
  match find (fun c => bool_decide (c_string <$> tree_prop c NAME = Some name)) cs with
  | None => child_from fuel b name (Z.of_nat (length cs)) (blen pre) = Some (DT_ERR_NOT_FOUND, None)
  | Some c => ∃ n, child_from fuel b name (Z.of_nat (length cs)) (blen pre) = Some (DT_OK, Some n) ∧
                   represents n c
  end.
Proof.
  intros Hn Hl. induction cs as [| c cs IH]; intros fuel pre post E Ha Hw Hf;
    (destruct fuel as [| fuel]; [simpl in Hf; lia |]); cbn [child_from find]; [done |].
  rewrite (proj2 (Z.ltb_lt 0 (Z.of_nat (length (c :: cs))))) by (cbn [length]; lia).
  apply Forall_cons_iff in Hw as [Hc Hw]. cbn [flat_map] in E. rewrite <- app_assoc in E.
  pose proof (tree_wf_mono l (depth_left 0) c Hl Hc) as Hc33.
  rewrite (node_header b pre c _ _ E Hc). cbn [mbind option_bind].
  set (child := MkNode (blen pre) (Z.of_nat (length (t_props c))) (Z.of_nat (length (t_children c))) (blen pre + 8)).
  assert (represents child c) as Hrep by (by exists pre, (flat_map encode cs ++ post)).
  destruct NAME_ok as [HN1 HN2]. pose proof (dt_property_encode child c NAME Hrep HN1 HN2) as Hp.
  assert (∃ p, dt_property b child NAME = Some p ∧
    match p with (DT_OK, (v, len)) => name_matches b v len name | _ => Some false end
      = Some (bool_decide (c_string <$> tree_prop c NAME = Some name))) as (p & -> & Hhit).
  { destruct (tree_prop c NAME) as [v |].
    - destruct Hp as (off & Ho & -> & Hg). eexists. split; [done |]. cbn [fmap option_fmap option_map].
      rewrite (name_matches_encode b off v name Ho Hg Hn). f_equal.
      apply bool_decide_ext. split; [by intros -> | by intros [=]].
    - eexists. split; [exact Hp | done]. }
  cbn [mbind option_bind]. rewrite Hhit. case_bool_decide; [by exists child |].
  destruct (skip_node_encode b Hb (depth_left 0) c pre _ E Ha Hc33) as (-> & Hpos & Hal).
  cbn [mbind option_bind].
  destruct (Z.eqb_spec (blen pre + blen (encode c)) 0); [unfold blen in *; lia |].
  replace (Z.of_nat (length (c :: cs)) - 1) with (Z.of_nat (length cs)) by (cbn [length]; lia).
  rewrite <- blen_app. apply (IH fuel (pre ++ encode c) post);
    [by rewrite <- app_assoc | rewrite blen_app; by apply aligned_add | done | cbn [length] in Hf; lia].
Qed.

Lemma dt_child_encode n t name : represents n t → no_nul name →
  match tree_child t name with
  | None => dt_child b n name = Some (DT_ERR_NOT_FOUND, None)
  | Some c => ∃ n', dt_child b n name = Some (DT_OK, Some n') ∧ represents n' c
  end.
Proof.
  intros (pre & post & E & Ha & Hw & ->) Hn. unfold dt_child. cbn [n_props props_off n_children].
  pose proof (encode_body b pre t post E) as Hbody.
  destruct (skip_props b Hb pre t post 32 Hbody Ha Hw) as [-> Hal]. cbn [mbind option_bind].
  destruct Hbody as (h & Lh & Eb). destruct t as [ps cs]. destruct Hw as (_ & _ & _ & Hcs).
  cbn [t_props t_children] in *. set (pre' := (pre ++ h) ++ flat_map encode_prop ps).
  assert (blen pre' = blen pre + 8 + blen (flat_map encode_prop ps)) as Lp
    by (unfold pre'; rewrite !blen_app; lia).
  rewrite <- Lp. rewrite app_assoc in Eb. fold pre' in Eb.
  assert (aligned (blen pre')) as Ha' by (rewrite Lp; apply aligned_add; [by apply aligned_add | done]).
  rewrite (proj2 (Z.eqb_neq (blen pre') 0)), andb_false_r by (rewrite Lp; unfold blen; lia).
  pose proof (many_inside encode cs encode_pos).
  apply (child_from_encode name 32 Hn ltac:(unfold depth_left, DT_MAX_DEPTH; lia) cs (S (length b)) pre' post);
    [done.. |]. rewrite Eb, !length_app. lia.
Qed.
End Lookups.

(** *** Paths *)

Lemma pieces_segment p : pieces p = fst (segment p) :: match snd (segment p) with [] => [] | _ :: r => pieces r end.
Proof.
  induction p as [| c p IH]; cbn -[Z.eqb]; [done |]. destruct (c =? 47); [done |].
  destruct (segment p) as [s rest]. by rewrite IH.
Qed.

Lemma segment_rest p : snd (segment p) = [] ∨ ∃ r, snd (segment p) = 0x2f :: r.
Proof.
  induction p as [| c p IH]; cbn -[Z.eqb]; [by left |].
  destruct (Z.eqb_spec c 47) as [-> |]; [right; by exists p |]. destruct (segment p). exact IH.
Qed.

Lemma split_strip p : split_path (strip_slashes p) = split_path p.
Proof.
  induction p as [| c p IH]; [done |]. cbn [strip_slashes].
  destruct (Z.eqb_spec c 0x2f) as [-> |]; [exact IH | reflexivity].
Qed.

Lemma split_segment p : p ≠ [] → hd 0 p ≠ 0x2f →
  fst (segment p) ≠ [] ∧ split_path p = fst (segment p) :: split_path (snd (segment p)).
Proof.
  intros Hne Hhd. assert (fst (segment p) ≠ []) as Hs.
  { destruct p as [| c p]; [done |]. cbn -[Z.eqb] in *. destruct (Z.eqb_spec c 47); [done |].
    by destruct (segment p). }
  split; [done |]. unfold split_path at 1. rewrite pieces_segment, filter_cons, decide_True by done. f_equal.
  destruct (segment_rest p) as [-> | [r ->]]; done.
Qed.

Lemma no_nul_strip p : no_nul p → no_nul (strip_slashes p).
Proof.
  induction p as [| c p IH]; cbn -[Z.eqb]; [done |]. intros Hn.
  destruct (c =? 47); [| done]. apply IH. by inversion Hn.
Qed.

Lemma no_nul_segment p : no_nul p → no_nul (fst (segment p)) ∧ no_nul (snd (segment p)).
Proof.
  induction p as [| c p IH]; cbn -[Z.eqb]; [split; constructor |]. intros Hn.
  apply Forall_cons_iff in Hn as Hn'. destruct Hn' as [Hc Hp]. destruct (c =? 47); [split; [constructor | done] |].
  destruct (IH Hp), (segment p). split; [by constructor | done].
Qed.

Lemma path_from_encode b : blen b < 2 ^ 62 → ∀ fuel p n t, represents b n t → no_nul p →
  (length p < fuel)%nat → p = [] ∨ hd 0 p ≠ 0x2f →
  match tree_path t (split_path p) with
  | None => path_from fuel b n p = Some (DT_ERR_NOT_FOUND, None)
  | Some t' => ∃ n', path_from fuel b n p = Some (DT_OK, Some n') ∧ represents b n' t'
  end.
Proof.
  intros Hb. induction fuel as [| fuel IH]; intros p n t Hr Hn Hf Hp; [lia |]. cbn [path_from].
  destruct p as [| c p]; [by exists n |]. destruct Hp as [| Hp]; [done |].
  destruct (split_segment (c :: p) ltac:(done) Hp) as [Hs ->].
  pose proof (segment_shorter (c :: p) ltac:(done) Hp) as Hlt.
  destruct (no_nul_segment (c :: p) Hn) as [Hns Hnr].
  destruct (segment (c :: p)) as [seg rest]. cbn [fst snd] in *. cbn [tree_path].
  assert (blen seg ≠ 0) as Hseg by (destruct seg; [done | unfold blen; cbn [length]; lia]).
  rewrite (proj2 (Z.eqb_neq _ _) Hseg). cbn [orb].
  destruct (DT_PROP_NAME_LEN <=? blen seg); [done |].
  pose proof (dt_child_encode b Hb n t seg Hr Hns) as Hc.
  destruct (tree_child t seg) as [c' |]; cbn [mbind option_bind].
  - destruct Hc as (n' & -> & Hr'). cbn [mbind option_bind]. rewrite <- split_strip.
    apply IH; [done | by apply no_nul_strip | lia | apply strip_head].
  - by rewrite Hc.
Qed.

(** A tree that is parsed is a tree that is represented. *)
Lemma dt_parse_encode t rest : tree_wf (depth_left 0) t → let b := encode t ++ rest in
  blen b < 2 ^ 62 →
  ∃ root, dt_parse (Some b) = Some (DT_OK, Some root) ∧ represents b root t.
Proof.
  intros Hw b Hb. unfold dt_parse, NODE_HEADER.
  assert (b = [] ++ encode t ++ rest) as E by done.
  assert (8 <= blen b) as H8.
  { unfold b. destruct t. rewrite encode_node, !blen_app, !blen_le32. unfold blen. lia. }
  rewrite (proj2 (Z.ltb_ge (blen b) 8)) by done.
  destruct (skip_node_encode b Hb (depth_left 0) t [] rest E ltac:(done) Hw) as (Hs & Hpos & _).
  change (blen []) with 0 in Hs. rewrite Hs. cbn [mbind option_bind].
  rewrite (proj2 (Z.eqb_neq _ 0)) by lia.
  pose proof (node_header b [] t rest _ E Hw) as Hh. change (blen []) with 0 in Hh. rewrite Hh.
  eexists. split; [done |]. by exists [], rest.
Qed.

(** C31: A flattened tree parses, whatever follows it in the buffer, and every lookup in
    the blob is the lookup in the tree: a path, with any leading, trailing or repeated
    slashes, leads to the node that the tree's children lead to, or is reported not
    found exactly when the tree has no such child; there a property is found exactly
    when the tree's node has one of that name, and its value is the tree's, byte for
    byte.  The tree may nest 33 levels, the limit the parser sets. *)
Theorem dt_lookup_refines t rest path name :
  tree_wf (depth_left 0) t → blen (encode t ++ rest) < 2 ^ 62 →
  no_nul path → no_nul name → (length name <= 32)%nat →
  let b := encode t ++ rest in
  ∃ root, dt_parse (Some b) = Some (DT_OK, Some root) ∧
  match tree_path t (split_path path) with
  | None => dt_path b root path = Some (DT_ERR_NOT_FOUND, None)
  | Some t' => ∃ n, dt_path b root path = Some (DT_OK, Some n) ∧
    match tree_prop t' name with
    | None => dt_property b n name = Some (DT_ERR_NOT_FOUND, (0, 0))
    | Some v => ∃ off, dt_property b n name = Some (DT_OK, (off, blen v)) ∧
                       get_bytes b off (blen v) = Some v
    end
  end.
Proof.
  intros Hw Hb Hpn Hnn Hl b. destruct (dt_parse_encode t rest Hw Hb) as (root & Hp & Hr).
  exists root. split; [done |]. fold b in Hb, Hr. unfold dt_path. rewrite <- split_strip.
  assert (length (strip_slashes path) < S (length path))%nat as Hlen.
  { clear. induction path as [| c p IH]; cbn -[Z.eqb]; [lia |]. destruct (c =? 47); cbn [length]; lia. }
  pose proof (path_from_encode b Hb _ _ root t Hr (no_nul_strip _ Hpn) Hlen (strip_head path)) as Hpath.
  destruct (tree_path t (split_path (strip_slashes path))) as [t' |]; [| done].
  destruct Hpath as (n & Hn & Hr'). exists n. split; [done |].
  pose proof (dt_property_encode b Hb n t' name Hr' Hnn Hl) as Hprop.
  destruct (tree_prop t' name) as [v |]; [| done]. destruct Hprop as (off & _ & ? & ?). eauto.
Qed.

(** For every blob the parser terminates, whatever counts and lengths it claims, and
    reads only inside it; so does every walk and every property lookup from the root it
    returns, and a value it finds lies inside the blob. *)
Theorem dt_parse_safe blob path name : blen (default [] blob) < 2 ^ 62 →
  ∃ st root, dt_parse blob = Some (st, root) ∧
  match st, root with
  | DT_OK, Some root =>
    let b := default [] blob in
    ∃ st' n, dt_path b root path = Some (st', n) ∧
    match st', n with
    | DT_OK, Some n => ∃ r, dt_property b n name = Some r ∧ value_inside b r
    | DT_OK, None => False
    | _, _ => n = None
    end
  | DT_OK, None => False
  | _, _ => root = None
  end.
Proof.
  intros Hb. unfold dt_parse. destruct blob as [b |]; simpl default in *; [| by eexists _, _].
  destruct (Z.ltb_spec (blen b) NODE_HEADER); [by eexists _, _ |]. unfold NODE_HEADER in *.
  destruct (skip_node_safe b Hb (depth_left 0) 0) as (e & -> & He); [done |]. cbn [mbind option_bind].
  destruct (Z.eqb_spec e 0); [by eexists _, _ |].
  destruct (read_node_safe b 0) as ([root |] & -> & Hroot); [done | | by eexists _, _].
  destruct (Hroot root eq_refl) as (Eo & Ep & ?). eexists _, _. split; [done |]. cbv zeta.
  assert (node_inside b root) as Hin by (unfold node_inside; lia).
  assert (length (strip_slashes path) < S (length path))%nat as Hlen.
  { clear. induction path as [| c p IH]; cbn -[Z.eqb]; [lia |]. destruct (c =? 47); cbn [length]; lia. }
  destruct (path_from_safe b Hb (S (length path)) root (strip_slashes path) Hlen (strip_head path) Hin)
    as ([st k] & Hpath & Hc).
  exists st, k. split; [exact Hpath |]. destruct st; try done. destruct k as [k |]; [| done].
  destruct (dt_property_safe b Hb k name Hc) as (r & ? & ?). eauto.
Qed.

(** A root with the child "cpu", whose "clk" is a word. *)
Definition CPU : list Z := [0x63; 0x70; 0x75].
Definition CLK : list Z := [0x63; 0x6c; 0x6b].
Definition sample_tree : dtree :=
  DNode [MkProp NAME false [0x72; 0]]
    [DNode [MkProp NAME false [0x61]] [];
     DNode [MkProp NAME false (CPU ++ [0]); MkProp CLK true (le32 412000000)] []].

#[export] Instance prop_wf_dec p : Decision (prop_wf p).
Proof. unfold prop_wf, is_bytes. apply _. Defined.
#[export] Instance tree_wf_dec : ∀ levels t, Decision (tree_wf levels t).
Proof.
  intros levels. induction levels as [| levels IH]; intros [ps cs]; simpl; apply _.
Defined.

Lemma dt_lookup_refines_witness :
  let b := encode sample_tree ++ [1; 2; 3] in
  let path := [0x2f] ++ CPU ++ [0x2f; 0x2f] in
  ∃ root, dt_parse (Some b) = Some (DT_OK, Some root) ∧
  match tree_path sample_tree (split_path path) with
  | None => dt_path b root path = Some (DT_ERR_NOT_FOUND, None)
  | Some t' => ∃ n, dt_path b root path = Some (DT_OK, Some n) ∧
    match tree_prop t' CLK with
    | None => dt_property b n CLK = Some (DT_ERR_NOT_FOUND, (0, 0))
    | Some v => ∃ off, dt_property b n CLK = Some (DT_OK, (off, blen v)) ∧
                       get_bytes b off (blen v) = Some v
    end
  end.
Proof.
  intros b path. apply (dt_lookup_refines sample_tree [1; 2; 3] path CLK); try by_computation.
Defined.

Lemma dt_parse_safe_witness :
  ∃ st root, dt_parse (Some (replicate 7 0xff)) = Some (st, root) ∧ root = None.
Proof.
  destruct (dt_parse_safe (Some (replicate 7 0xff)) [] []) as (st & root & E & H); [by_computation |].
  exists st, root. split; [exact E |]. vm_compute in E. by injection E as <- <-.
Defined.

(** A well-formed tree one level past the limit: the parser refuses it, but as truncated;
    no function returns [DT_ERR_TOO_DEEP]. *)
Fixpoint chain (n : nat) : dtree := DNode [] match n with O => [] | S n => [chain n] end.

Lemma too_deep_reported_as_truncated :
  tree_wf 34 (chain 33) ∧ dt_parse (Some (encode (chain 33))) = Some (DT_ERR_TRUNCATED, None) ∧
  ∃ root, dt_parse (Some (encode (chain 32))) = Some (DT_OK, Some root).
Proof. split; [by_computation |]. split; [by vm_compute |]. eexists. by vm_compute. Qed.
