(* ===== verification/Loader.v ===== *)
(** * Loading firmware

    [core/src/firmware/loader.c]: an IMG3 container is parsed, decrypted and placed in
    guest RAM, and the core may be reset to run it.  Of the machine only what the
    loader touches is here: the core, the RAM and its base address. *)

From S2P Require Import Prelude State Cpu CpuFacts Bytes Aes Img3.

Inductive fw_status :=
  | FW_OK | FW_ERR_PARSE | FW_ERR_NO_PAYLOAD | FW_ERR_DECRYPT | FW_ERR_NO_ROOM
  | FW_ERR_KEY_REQUIRED | FW_ERR_INVALID_ARGUMENT | FW_ERR_IV_REQUIRED.

(** [m->cpu], [m->ram] with [m->ram_size] its length, [m->ram_base]. *)
Record machine := MkMachine { m_cpu : arm_cpu; m_ram : option (list Z); m_ram_base : Z }.

Record fw_image := MkImage {
  fw_ident : Z; fw_ident_str : list Z; fw_vers : list Z; fw_load_addr : Z; fw_size : Z;
  was_encrypted : bool; was_signed : bool }.

(** [fw_describe]: what is stored through [out] on success. *)
Definition fw_describe (img : img3) (load_addr : Z) : fw_image :=
  MkImage (ident img) (img3_ident_str (ident img)) (<[63%nat := 0]> (vers img)) load_addr
    (data_len img) (present (kbag img)) (has_shsh img).

Definition set_ram (ram : list Z) (m : machine) : machine :=
  MkMachine (m_cpu m) (Some ram) (m_ram_base m).

(** The result of a load: a status, the machine, and the image description, which is
    written only on success.  [None] is a read or write outside a buffer. *)
Definition fw_result : Type := option (fw_status * machine * option fw_image).
Definition fw_fail (st : fw_status) (m : machine) : fw_result := Some (st, m, None).

(** The bytes to be placed at [dst], of which there are [cap] to the end of RAM. *)
Definition fw_payload (b : list Z) (img : img3) (d : Z) (key : option (list Z)) (key_bits : Z)
    (iv : option (list Z)) (cap : Z) : option (fw_status * list Z) :=
  if malformed (kbag img) then Some (FW_ERR_DECRYPT, [])
  else if present (kbag img) then
    match key, iv with
    | None, _ => Some (FW_ERR_KEY_REQUIRED, [])
    | _, None => Some (FW_ERR_IV_REQUIRED, [])
    | _, _ =>
      out ← img3_decrypt_data_iv b img key key_bits iv cap;
      match out with
      | None => Some (FW_ERR_DECRYPT, [])
      | Some bytes => Some (FW_OK, bytes)
      end
    end
  else bytes ← get_bytes b d (data_len img); Some (FW_OK, bytes).

Definition fw_load_img3_common (m : machine) (buf : option (list Z)) (key : option (list Z))
    (key_bits : Z) (iv : option (list Z)) (load_addr : Z) : fw_result :=
  match m_ram m, buf with
  | Some ram, Some b =>
    r ← img3_parse buf;
    match r with
    | (IMG3_OK, img) =>
      match data img with
      | None => fw_fail FW_ERR_NO_PAYLOAD m
      | Some d =>
        if data_len img =? 0 then fw_fail FW_ERR_NO_PAYLOAD m else
        if load_addr <? m_ram_base m then fw_fail FW_ERR_NO_ROOM m else
        let off := load_addr - m_ram_base m in
        if blen ram <? off + data_len img then fw_fail FW_ERR_NO_ROOM m else
        p ← fw_payload b img d key key_bits iv (blen ram - off);
        match p with
        | (FW_OK, bytes) =>
          ram' ← put_bytes ram off bytes;
          Some (FW_OK, set_ram ram' m, Some (fw_describe img load_addr))
        | (st, _) => fw_fail st m
        end
      end
    | _ => fw_fail FW_ERR_PARSE m
    end
  | _, _ => fw_fail FW_ERR_INVALID_ARGUMENT m
  end.

Definition fw_load_img3 m buf key key_bits load_addr : fw_result :=
  fw_load_img3_common m buf key key_bits None load_addr.
Definition fw_load_img3_iv m buf key key_bits iv load_addr : fw_result :=
  fw_load_img3_common m buf key key_bits iv load_addr.

(** Enter as the boot ROM would: reset, then run from the load address. *)
Definition fw_enter (load_addr : Z) (m : machine) : machine :=
  MkMachine (set_reg 15 load_addr (arm_reset (m_cpu m))) (m_ram m) (m_ram_base m).
Definition fw_boot (load_addr : Z) (r : fw_result) : fw_result :=
  x ← r;
  match x with
  | (FW_OK, m, out) => Some (FW_OK, fw_enter load_addr m, out)
  | _ => Some x
  end.
Definition fw_boot_img3 m buf key key_bits load_addr : fw_result :=
  fw_boot load_addr (fw_load_img3 m buf key key_bits load_addr).
Definition fw_boot_img3_iv m buf key key_bits iv load_addr : fw_result :=
  fw_boot load_addr (fw_load_img3_iv m buf key key_bits iv load_addr).

(** ** Facts *)

Lemma fw_payload_safe b img d key bits iv cap : img3_wf b img → data img = Some d →
  (∀ v, iv = Some v → length v = 16%nat) →
  returns (fun r => fst r = FW_OK → blen (snd r) = data_len img ∧ malformed (kbag img) = false ∧
             (present (kbag img) = false → payload_of b img = Some (snd r)))
    (fw_payload b img d key bits iv cap).
Proof.
  intros (Hp & Hk & _) Hd Hiv. unfold fw_payload.
  destruct (malformed (kbag img)) eqn:Em; [by apply returns_ret |].
  destruct (present (kbag img)) eqn:Ep.
  - destruct key as [key |], iv as [iv |]; try (by apply returns_ret).
    eapply returns_bind; [by apply img3_decrypt_safe | intros [p |] Hl; [| by apply returns_ret]].
    apply returns_ret. intros _. simpl. split; [by apply Hl | done].
  - unfold payload_inside in Hp. rewrite Hd in Hp. destruct Hp as (? & [? ?] & ?).
    destruct (get_bytes_inside b d (data_len img)) as (l & E & Hl & _); [lia.. |].
    rewrite E. apply returns_ret. intros _. simpl. split_and!; [lia | done | intros _].
    unfold payload_of. by rewrite Hd.
Qed.

(** What a load may have done to the machine. *)
Definition loaded (m : machine) (b : list Z) (addr : Z) (m' : machine) (out : fw_image) : Prop :=
  ∃ ram img bytes,
    m_ram m = Some ram ∧ img3_parse (Some b) = Some (IMG3_OK, img) ∧
    blen bytes = data_len img ∧ 0 < data_len img ∧
    m_ram_base m <= addr ∧ addr - m_ram_base m + blen bytes <= blen ram ∧
    put_bytes ram (addr - m_ram_base m) bytes = m_ram m' ∧ blen (default [] (m_ram m')) = blen ram ∧
    m_ram_base m' = m_ram_base m ∧ m_cpu m' = m_cpu m ∧
    malformed (kbag img) = false ∧
    (present (kbag img) = false → payload_of b img = Some bytes) ∧
    out = fw_describe img addr.

(** Loading any bytes whatever, with any key material, terminates, reads only inside
    the file and writes only inside guest RAM.  Unless it reports success the machine is
    exactly what it was.  On success only the bytes from the load address on, as many as
    the payload has, are different; the core is untouched; an image whose key bag could
    not be decoded is never accepted; and the payload of an image without a key bag is
    placed as it is. *)
Theorem fw_load_safe m buf key bits iv addr : (∀ v, iv = Some v → length v = 16%nat) →
  ∃ st m' out, fw_load_img3_common m buf key bits iv addr = Some (st, m', out) ∧
    match st, out with
    | FW_OK, Some out => loaded m (default [] buf) addr m' out
    | FW_OK, None => False
    | _, _ => m' = m ∧ out = None
    end.
Proof.
  intros Hiv. enough (returns (fun r : fw_status * machine * option fw_image =>
    match fst (fst r), snd r with
    | FW_OK, Some out => loaded m (default [] buf) addr (snd (fst r)) out
    | FW_OK, None => False
    | _, _ => snd (fst r) = m ∧ snd r = None
    end) (fw_load_img3_common m buf key bits iv addr)) as ([[st m'] out] & -> & H)
    by (by exists st, m', out).
  unfold fw_load_img3_common, fw_fail.
  destruct (m_ram m) as [ram |] eqn:Er; [| by apply returns_ret].
  destruct buf as [b |]; [| by apply returns_ret]. simpl default.
  destruct (img3_parse_total (Some b)) as (st & img & E & W). rewrite E. simpl mbind.
  destruct st; try by apply returns_ret.
  destruct (data img) as [d |] eqn:Ed; [| by apply returns_ret].
  reading; try done.
  pose proof W as (Hp & _). unfold payload_inside in Hp. simpl default in *.
  rewrite Ed in Hp. destruct Hp as (? & [? ?] & ?).
  eapply returns_bind; [by eapply fw_payload_safe | intros [st bytes] Hb].
  destruct st; try by apply returns_ret.
  destruct (Hb eq_refl) as (Hl & Hm & Hc). simpl in Hl, Hc.
  destruct (put_bytes_inside ram (addr - m_ram_base m) bytes) as (ram' & Ew & Lr); [lia.. |].
  rewrite Ew. apply returns_ret. exists ram, img, bytes. simpl. split_and!; done || lia.
Qed.

(** A concrete encrypted container and a machine to load it into. *)
#[export] Instance is_bytes_dec l : Decision (is_bytes l).
Proof. unfold is_bytes. apply _. Defined.

Definition sample_key : list Z := seqZ 0 16.
Definition sample_iv : list Z := seqZ 0x40 16.
Definition sample_plain : list Z := seqZ 0 19.
Definition sample_cipher : list Z :=
  default [] (ctx ← aes_init sample_key 128; encrypt_payload ctx sample_iv sample_plain).
Definition sample_image : list tag :=
  [MkTag IMG3_TAG_KBAG (le32 1 ++ le32 128 ++ seqZ 0 16 ++ seqZ 16 16) [];
   MkTag IMG3_TAG_DATA sample_cipher [0]].
Definition sample_machine : machine := MkMachine sample_cpu (Some (replicate 64 0)) 0x8000.

Lemma fw_load_safe_witness :
  ∃ st m' out, fw_load_img3_common sample_machine (Some [1; 2; 3]) None 128 (Some sample_iv) 0x8000
      = Some (st, m', out) ∧
    match st, out with
    | FW_OK, Some out => loaded sample_machine [1; 2; 3] 0x8000 m' out
    | FW_OK, None => False
    | _, _ => m' = sample_machine ∧ out = None
    end.
Proof.
  apply (fw_load_safe sample_machine (Some [1; 2; 3]) None 128 (Some sample_iv) 0x8000).
  by intros v [= <-].
Defined.

(** C30: The published key and IV decrypt what they encrypted.  For every container laid
    out from well-formed tags whose last DATA payload is a non-empty plaintext encrypted
    under the key and IV given, and whose first complete key bag names that key's size,
    booting it succeeds wherever it fits: guest RAM from the load address holds exactly
    the plaintext, a partial last block included, no other byte of RAM is different, and
    the core starts at the load address in Supervisor mode, interrupts masked, with the
    MMU off. *)
Theorem fw_boot_plaintext m ram id dsize ssize ts rest key bits iv ctx plain c kb addr :
  container_wf id dsize ssize ts → m_ram m = Some ram →
  aes_init key bits = Some ctx → is_block iv → is_bytes plain → plain ≠ [] →
  encrypt_payload ctx iv plain = Some c →
  list.last (payloads IMG3_TAG_DATA ts) = Some c →
  head (omap kbag_fields (payloads IMG3_TAG_KBAG ts)) = Some kb → kb.1.1.2 = bits →
  m_ram_base m <= addr → addr - m_ram_base m + blen plain <= blen ram →
  ∃ m' ram' out,
    fw_boot_img3_iv m (Some (encode_img3 id dsize ssize ts ++ rest)) (Some key) bits (Some iv) addr
      = Some (FW_OK, m', Some out) ∧
    m_ram m' = Some ram' ∧ put_bytes ram (addr - m_ram_base m) plain = Some ram' ∧
    get_bytes ram' (addr - m_ram_base m) (blen plain) = Some plain ∧
    fw_ident out = id ∧ was_encrypted out = true ∧
    r (m_cpu m') 15 = addr ∧ mode_of (m_cpu m') = ARM_MODE_SVC ∧
    get_flag (m_cpu m') ARM_CPSR_I = true ∧ get_flag (m_cpu m') ARM_CPSR_F = true ∧
    sctlr (cp15 (m_cpu m')) .& ARM_SCTLR_M = 0.
Proof.
  intros Hwf Hram Hctx Hiv Hpl Hne Henc Hdata Hkb <- Hbase Hfit.
  destruct (img3_parse_container id dsize ssize ts rest Hwf) as (o & Ho & [D1 D2 D3 _] & Hh).
  set (b := encode_img3 id dsize ssize ts ++ rest) in *. clearbody b.
  destruct (img3_parse_total (Some b)) as (st & o' & Ho' & W).
  rewrite Ho in Ho'. injection Ho' as <- <-. simpl default in W. destruct W as (Wp & _).
  destruct (encrypt_payload_decrypt ctx iv plain Hiv Hpl) as (c' & Ec & Hdec & Lc).
  rewrite Henc in Ec. injection Ec as <-.
  rewrite Hdata in D1. rewrite Hkb in D2.
  destruct (present (kbag o)) eqn:Ep; [| done]. injection D2 as D2. simpl in D3.
  unfold payload_of in D1. unfold payload_inside in Wp.
  destruct (data o) as [d |] eqn:Ed; simpl in D1; [| done]. destruct Wp as (Hd & Hu & Hin).
  assert (0 < blen plain) by (destruct plain; [done | unfold blen; simpl; lia]).
  assert (data_len o = blen plain) as Ld
    by (pose proof (get_bytes_length _ _ _ _ D1); destruct Hu; lia).
  destruct (put_bytes_inside ram (addr - m_ram_base m) plain) as (ram' & Ew & _); [lia.. |].
  exists (fw_enter addr (set_ram ram' m)), ram', (fw_describe o addr).
  split; [| repeat split; try done].
  - unfold fw_boot_img3_iv, fw_boot, fw_load_img3_iv, fw_load_img3_common, fw_payload.
    rewrite Hram, Ho. simpl mbind. rewrite Ed, D3, Ep. rewrite Ld at 1.
    replace (blen plain =? 0) with false by lia. replace (addr <? m_ram_base m) with false by lia.
    replace (_ <? _) with false by lia.
    rewrite (img3_decrypt_value b o d c key kb.1.1.2 ctx iv);
      [| done | done | done | done | done | by rewrite <- D2 | lia | done].
    rewrite Hdec. simpl mbind. by rewrite Ew.
  - by eapply put_get_bytes.
  - simpl. by injection Hh.
Qed.

Lemma fw_boot_plaintext_witness :
  ∃ m' ram' out,
    fw_boot_img3_iv sample_machine (Some (encode_img3 0x6b726e6c 60 0 sample_image ++ [9]))
        (Some sample_key) 128 (Some sample_iv) 0x8010 = Some (FW_OK, m', Some out) ∧
    m_ram m' = Some ram' ∧ put_bytes (replicate 64 0) 0x10 sample_plain = Some ram' ∧
    get_bytes ram' 0x10 19 = Some sample_plain ∧
    fw_ident out = 0x6b726e6c ∧ was_encrypted out = true ∧
    r (m_cpu m') 15 = 0x8010 ∧ mode_of (m_cpu m') = ARM_MODE_SVC ∧
    get_flag (m_cpu m') ARM_CPSR_I = true ∧ get_flag (m_cpu m') ARM_CPSR_F = true ∧
    sctlr (cp15 (m_cpu m')) .& ARM_SCTLR_M = 0.
Proof.
  destruct (aes_init sample_key 128) as [ctx |] eqn:Ek; [| by vm_compute in Ek].
  assert (is_block sample_iv) as Hiv by (split; [done | by_computation]).
  assert (is_bytes sample_plain) as Hpl by by_computation.
  apply (fw_boot_plaintext sample_machine (replicate 64 0) 0x6b726e6c 60 0 sample_image [9]
    sample_key 128 sample_iv ctx sample_plain sample_cipher (1, 128, seqZ 0 16, seqZ 16 16) 0x8010);
    try done; [by_computation | | by_computation..].
  destruct (encrypt_payload_decrypt ctx sample_iv sample_plain Hiv Hpl) as (c & Ec & _).
  unfold sample_cipher. rewrite Ek. simpl mbind. by rewrite Ec.
Defined.
