(* ===== verification/VmBlock.v ===== *)
(** * Exact transfers over a partial backend

    [core/src/vm_block.c].  The host's callbacks are parameters over a type [W] of host
    states: each answers with a status, a count and the new host state.  Reading and
    writing are the same loop around a different callback, here [exact_loop].  It is
    proved to end within a bounded number of callbacks whatever they answer, to ask only
    for ranges inside the block, and, over a backend that keeps the documented contract,
    to move exactly the bytes asked for. *)

From S2P Require Import Prelude Bytes.

(** A callback's status; [VM_BLOCK_IO_OTHER] is any other value of the C enumeration's
    type. *)
Inductive vm_block_io_status :=
  | VM_BLOCK_IO_OK | VM_BLOCK_IO_RETRY | VM_BLOCK_IO_ERROR | VM_BLOCK_IO_OTHER.

Inductive vm_block_status :=
  | VM_BLOCK_STATUS_OK | VM_BLOCK_STATUS_INVALID_ARGUMENT | VM_BLOCK_STATUS_OVERFLOW
  | VM_BLOCK_STATUS_BOUNDS | VM_BLOCK_STATUS_BACKEND | VM_BLOCK_STATUS_CANCELLED
  | VM_BLOCK_STATUS_STALLED | VM_BLOCK_STATUS_PROTOCOL.

#[export] Instance vm_block_status_eq_dec : EqDecision vm_block_status.
Proof. solve_decision. Defined.

Definition VM_BLOCK_NO_PROGRESS_LIMIT := 64.
Definition VM_BLOCK_MAX_CALLBACK_BYTES := 1048576.
Definition UINT64_MAX := 0xffffffffffffffff.

(** [read_at]: host state, offset, count asked for; the bytes stored from the start of
    the destination, the count reported, the status.  [write_at] takes the source. *)
Record vm_block (W : Type) := MkBlock {
  size : Z; identity : Z; generation : Z;
  read_at : option (W → Z → Z → vm_block_io_status * Z * list Z * W);
  write_at : option (W → Z → list Z → vm_block_io_status * Z * W);
  flush : option (W → vm_block_io_status * W) }.
Arguments MkBlock {W}.
Arguments size {W}. Arguments identity {W}. Arguments generation {W}.
Arguments read_at {W}. Arguments write_at {W}. Arguments flush {W}.

(** [cancelled && cancelled(cancel_context)]. *)
Definition poll {W} (cancelled : option (W → bool * W)) (w : W) : bool * W :=
  match cancelled with Some f => f w | None => (false, w) end.

Definition vm_block_check_range {W} (block : option (vm_block W)) (offset length : Z) : vm_block_status :=
  match block with
  | None => VM_BLOCK_STATUS_INVALID_ARGUMENT
  | Some b =>
    if UINT64_MAX - offset <? length then VM_BLOCK_STATUS_OVERFLOW
    else if (size b <? offset) || (size b - offset <? length) then VM_BLOCK_STATUS_BOUNDS
    else VM_BLOCK_STATUS_OK
  end.

Definition vm_block_get_info {W} (block : option (vm_block W)) : vm_block_status * option (Z * Z * Z) :=
  match block with
  | None => (VM_BLOCK_STATUS_INVALID_ARGUMENT, None)
  | Some b => (VM_BLOCK_STATUS_OK, Some (size b, identity b, generation b))
  end.

(** ** The transfer loop

    [S] is the state the callback works on: the host state, with the destination when
    reading.  [xfer s completed requested] is one callback at the current position. *)
Section Exact.
Context {S : Type} (xfer : S → Z → Z → vm_block_io_status * Z * S) (stop : S → bool * S) (len : Z).

Definition exact_requested (completed : Z) : Z :=
  let remaining := len - completed in
  if VM_BLOCK_MAX_CALLBACK_BYTES <? remaining then VM_BLOCK_MAX_CALLBACK_BYTES else remaining.

(** One pass through the body: stop with a status, or go on with the counts. *)
Definition exact_body (s : S) (completed no_progress : Z)
    : S * (vm_block_status * Z + Z * Z) :=
  let requested := exact_requested completed in
  let '(c, s) := stop s in
  if c : bool then (s, inl (VM_BLOCK_STATUS_CANCELLED, completed)) else
  let '(io, actual, s) := xfer s completed requested in
  let stalled :=
    let no_progress := no_progress + 1 in
    if VM_BLOCK_NO_PROGRESS_LIMIT <=? no_progress then inl (VM_BLOCK_STATUS_STALLED, completed)
    else inr (completed, no_progress) in
  (s, if requested <? actual then inl (VM_BLOCK_STATUS_PROTOCOL, completed) else
      match io with
      | VM_BLOCK_IO_OK => if negb (actual =? 0) then inr (completed + actual, 0) else stalled
      | VM_BLOCK_IO_RETRY =>
        if negb (actual =? 0) then inl (VM_BLOCK_STATUS_PROTOCOL, completed) else stalled
      | VM_BLOCK_IO_ERROR =>
        if negb (actual =? 0) then inl (VM_BLOCK_STATUS_PROTOCOL, completed)
        else inl (VM_BLOCK_STATUS_BACKEND, completed)
      | VM_BLOCK_IO_OTHER => inl (VM_BLOCK_STATUS_PROTOCOL, completed)
      end).

(** [while (completed < length)]; the fuel counts callbacks. *)
Fixpoint exact_loop (fuel : nat) (s : S) (completed no_progress : Z) : option (vm_block_status * Z * S) :=
  if completed <? len then
    match fuel with
    | O => None
    | Datatypes.S fuel =>
      match exact_body s completed no_progress with
      | (s, inl (st, done)) => Some (st, done, s)
      | (s, inr (completed, no_progress)) => exact_loop fuel s completed no_progress
      end
    end
  else Some (VM_BLOCK_STATUS_OK, completed, s).

(** Callbacks enough for any behaviour of the backend. *)
Definition exact_fuel : nat := Z.to_nat (VM_BLOCK_NO_PROGRESS_LIMIT * len).
End Exact.

(** The destination after a callback stored [bytes] at [completed]. *)
Definition store_at (dest : list Z) (completed : Z) (bytes : list Z) : list Z :=
  take (length dest) (take (Z.to_nat completed) dest ++ bytes
                      ++ drop (Z.to_nat completed + length bytes) dest).

Definition read_xfer {W} (f : W → Z → Z → vm_block_io_status * Z * list Z * W) (offset : Z)
    (s : W * list Z) (completed requested : Z) : vm_block_io_status * Z * (W * list Z) :=
  let '(io, actual, bytes, w) := f (fst s) (w64 (offset + completed)) requested in
  (io, actual, (w, store_at (snd s) completed (take (Z.to_nat requested) bytes))).

Definition write_xfer {W} (f : W → Z → list Z → vm_block_io_status * Z * W) (offset : Z) (source : list Z)
    (w : W) (completed requested : Z) : vm_block_io_status * Z * W :=
  f w (w64 (offset + completed)) (take (Z.to_nat requested) (drop (Z.to_nat completed) source)).

(** The destination is as long as the transfer; [None] in it is the NULL pointer. *)
Definition vm_block_read_exact {W} (block : option (vm_block W)) (offset len : Z)
    (destination : option (list Z)) (cancelled : option (W → bool * W)) (w : W)
    : option (vm_block_status * Z * (W * option (list Z))) :=
  let fail st := Some (st, 0, (w, destination)) in
  match vm_block_check_range block offset len, block with
  | VM_BLOCK_STATUS_OK, Some b =>
    if len =? 0 then fail VM_BLOCK_STATUS_OK else
    match destination, read_at b with
    | Some dest, Some f =>
      '(st, n, (w, dest)) ← exact_loop (read_xfer f offset)
         (fun s => let '(c, w) := poll cancelled (fst s) in (c, (w, snd s))) len (exact_fuel len)
         (w, dest) 0 0;
      Some (st, n, (w, Some dest))
    | _, _ => fail VM_BLOCK_STATUS_INVALID_ARGUMENT
    end
  | st, _ => fail st
  end.

Definition vm_block_write_exact {W} (block : option (vm_block W)) (offset len : Z)
    (source : option (list Z)) (cancelled : option (W → bool * W)) (w : W)
    : option (vm_block_status * Z * W) :=
  let fail st := Some (st, 0, w) in
  match vm_block_check_range block offset len, block with
  | VM_BLOCK_STATUS_OK, Some b =>
    if len =? 0 then fail VM_BLOCK_STATUS_OK else
    match source, write_at b with
    | Some src, Some f =>
      exact_loop (write_xfer f offset src) (poll cancelled) len (exact_fuel len) w 0 0
    | _, _ => fail VM_BLOCK_STATUS_INVALID_ARGUMENT
    end
  | st, _ => fail st
  end.

(** [for (;;)] around the flush callback. *)
Fixpoint flush_loop {W} (fuel : nat) (f : W → vm_block_io_status * W) (cancelled : option (W → bool * W))
    (w : W) (no_progress : Z) : option (vm_block_status * W) :=
  match fuel with
  | O => None
  | Datatypes.S fuel =>
    let '(c, w) := poll cancelled w in
    if c : bool then Some (VM_BLOCK_STATUS_CANCELLED, w) else
    let '(io, w) := f w in
    match io with
    | VM_BLOCK_IO_OK => Some (VM_BLOCK_STATUS_OK, w)
    | VM_BLOCK_IO_RETRY =>
      let no_progress := no_progress + 1 in
      if VM_BLOCK_NO_PROGRESS_LIMIT <=? no_progress then Some (VM_BLOCK_STATUS_STALLED, w)
      else flush_loop fuel f cancelled w no_progress
    | VM_BLOCK_IO_ERROR => Some (VM_BLOCK_STATUS_BACKEND, w)
    | VM_BLOCK_IO_OTHER => Some (VM_BLOCK_STATUS_PROTOCOL, w)
    end
  end.

Definition vm_block_flush {W} (block : option (vm_block W)) (cancelled : option (W → bool * W)) (w : W)
    : option (vm_block_status * W) :=
  match block with
  | Some b =>
    match flush b with
    | Some f => flush_loop (Z.to_nat VM_BLOCK_NO_PROGRESS_LIMIT) f cancelled w 0
    | None => Some (VM_BLOCK_STATUS_INVALID_ARGUMENT, w)
    end
  | None => Some (VM_BLOCK_STATUS_INVALID_ARGUMENT, w)
  end.

(** ** The loop, whatever the callbacks answer *)

Lemma requested_range len c : 0 <= c < len →
  1 <= exact_requested len c <= VM_BLOCK_MAX_CALLBACK_BYTES ∧ c + exact_requested len c <= len.
Proof.
  intros H. unfold exact_requested, VM_BLOCK_MAX_CALLBACK_BYTES.
  destruct (Z.ltb_spec 1048576 (len - c)); lia.
Qed.

(** What the loop has left to do: at most this many callbacks. *)
Definition exact_measure (len completed no_progress : Z) : Z :=
  VM_BLOCK_NO_PROGRESS_LIMIT * (len - completed) - no_progress.

Section ExactFacts.
Context {S : Type} (len : Z).
Implicit Types (xfer : S → Z → Z → vm_block_io_status * Z * S) (stop : S → bool * S).

(** Counts reported by a callback are C's [size_t]. *)
Definition counts xfer : Prop :=
  ∀ s c n, let '(_, actual, _) := xfer s c n in 0 <= actual.

(** Each pass that goes on is nearer the end. *)
Lemma exact_body_measure xfer stop s c np s' c' np' : counts xfer → 0 <= c < len → 0 <= np < 64 →
  exact_body xfer stop len s c np = (s', inr (c', np')) →
  c <= c' <= len ∧ 0 <= np' < 64 ∧ exact_measure len c' np' < exact_measure len c np.
Proof.
  intros Hx Hc Hnp. pose proof (requested_range len c Hc). unfold exact_body.
  destruct (stop s) as [[] s0]; [done |].
  specialize (Hx s0 c (exact_requested len c)). destruct (xfer s0 c _) as [[io actual] s1].
  unfold exact_measure, VM_BLOCK_NO_PROGRESS_LIMIT.
  destruct (Z.ltb_spec (exact_requested len c) actual); [done |].
  destruct io, (Z.eqb_spec actual 0), (Z.leb_spec 64 (np + 1)); simpl; try done;
    intros [= <- <- <-]; lia.
Qed.

Lemma exact_body_stops xfer stop s c np s' st done : exact_body xfer stop len s c np = (s', inl (st, done)) →
  done = c ∧ st ≠ VM_BLOCK_STATUS_OK.
Proof.
  unfold exact_body. destruct (stop s) as [[] s0]; [by intros [= <- <- <-] |].
  destruct (xfer s0 c _) as [[io actual] s1].
  destruct (_ <? actual); [by intros [= <- <- <-] |].
  destruct io, (actual =? 0), (VM_BLOCK_NO_PROGRESS_LIMIT <=? np + 1); simpl; try done; by intros [= <- <- <-].
Qed.

Lemma exact_loop_returns xfer stop : counts xfer → ∀ fuel s c np,
  exact_measure len c np <= Z.of_nat fuel → 0 <= c <= len → 0 <= np < 64 →
  returns (fun '(st, done, s') => c <= done <= len ∧ (st = VM_BLOCK_STATUS_OK ↔ done = len))
    (exact_loop xfer stop len fuel s c np).
Proof.
  intros Hx. induction fuel as [| fuel IH]; intros s c np Hf Hc Hnp; simpl;
    (destruct (Z.ltb_spec c len); [| apply returns_ret; by replace c with len by lia]).
  { unfold exact_measure, VM_BLOCK_NO_PROGRESS_LIMIT in Hf. lia. }
  destruct (exact_body xfer stop len s c np) as [s' [[st fin] | [c' np']]] eqn:E.
  - apply exact_body_stops in E as [-> ?]. apply returns_ret. split; [lia |]. split; [done | lia].
  - apply exact_body_measure in E as (? & ? & ?); [| done | lia | done].
    eapply returns_weaken; [apply IH; lia | intros [[st done] s''] [? ?]; by split; [lia |]].
Qed.

(** The loop depends on a callback only at the positions it is called for. *)
Lemma exact_loop_local xfer xfer' stop : counts xfer →
  (∀ s c, 0 <= c < len → xfer s c (exact_requested len c) = xfer' s c (exact_requested len c)) →
  ∀ fuel s c np, 0 <= c <= len → 0 <= np < 64 →
  exact_loop xfer stop len fuel s c np = exact_loop xfer' stop len fuel s c np.
Proof.
  intros Hn Hx. induction fuel as [| fuel IH]; intros s c np Hc Hnp; simpl;
    (destruct (Z.ltb_spec c len); [| done]); [done |].
  assert (exact_body xfer stop len s c np = exact_body xfer' stop len s c np) as E.
  { unfold exact_body. destruct (stop s) as [[] s0]; [done |]. by rewrite Hx by lia. }
  rewrite <- E. destruct (exact_body xfer stop len s c np) as [s' [[st fin] | [c' np']]] eqn:E'; [done |].
  apply exact_body_measure in E' as (? & ? & ?); [| done | lia | done]. apply IH; lia.
Qed.
End ExactFacts.

(** ** A range that passed the check *)

Lemma check_range_inside {W} (b : vm_block W) offset len : uint 64 offset → 0 <= len →
  size b <= UINT64_MAX →
  vm_block_check_range (Some b) offset len = VM_BLOCK_STATUS_OK ↔ offset + len <= size b.
Proof.
  intros [? ?] ? Hs. unfold vm_block_check_range, UINT64_MAX in *.
  destruct (Z.ltb_spec (0xffffffffffffffff - offset) len); [split; [done | lia] |].
  destruct (Z.ltb_spec (size b) offset), (Z.ltb_spec (size b - offset) len); simpl;
    (split; [done | lia]) || (split; [lia | done]).
Qed.

Lemma position_exact offset c n : 0 <= offset → 0 <= c → offset + c <= n → n <= UINT64_MAX →
  w64 (offset + c) = offset + c.
Proof. intros. apply wrap_small. unfold UINT64_MAX in *. split; lia. Qed.

(** The counts a backend reports are not negative: they are [size_t]s. *)
Definition backend_counts {W} (b : vm_block W) : Prop :=
  (∀ f, read_at b = Some f → ∀ w o n, 0 <= (f w o n).1.1.2) ∧
  (∀ f, write_at b = Some f → ∀ w o l, 0 <= (f w o l).1.2).

Lemma read_counts {W} (f : W → Z → Z → _) offset : (∀ w o n, 0 <= (f w o n).1.1.2) →
  counts (read_xfer f offset).
Proof.
  intros H [w d] c n. unfold read_xfer. simpl. specialize (H w (w64 (offset + c)) n).
  by destruct (f _ _ _) as [[[io a] l] w'].
Qed.

Lemma write_counts {W} (f : W → Z → list Z → _) offset src : (∀ w o l, 0 <= (f w o l).1.2) →
  counts (write_xfer (W:=W) f offset src).
Proof.
  intros H w c n. unfold write_xfer.
  specialize (H w (w64 (offset + c)) (take (Z.to_nat n) (drop (Z.to_nat c) src))).
  by destruct (f _ _ _) as [[io a] w'].
Qed.

Definition exact_outcome (len : Z) (st : vm_block_status) (n : Z) : Prop :=
  0 <= n <= len ∧ (st = VM_BLOCK_STATUS_OK → n = len) ∧ (0 < len → n = len → st = VM_BLOCK_STATUS_OK).

(** The two backends answer alike inside [offset, offset + len), in requests of 1 byte
    to 1 MiB. *)
Definition agree_inside {W} (b b' : vm_block W) (offset len : Z) : Prop :=
  let inside o n := offset <= o ∧ 1 <= n <= VM_BLOCK_MAX_CALLBACK_BYTES ∧ o + n <= offset + len in
  size b' = size b ∧
  match read_at b, read_at b' with
  | Some f, Some g => ∀ w o n, inside o n → f w o n = g w o n
  | None, None => True
  | _, _ => False
  end ∧
  match write_at b, write_at b' with
  | Some f, Some g => ∀ w o l, inside o (blen l) → f w o l = g w o l
  | None, None => True
  | _, _ => False
  end.

Lemma exact_fuel_enough len : 0 <= len → exact_measure len 0 0 <= Z.of_nat (exact_fuel len).
Proof. intros. unfold exact_measure, exact_fuel, VM_BLOCK_NO_PROGRESS_LIMIT. lia. Qed.

Lemma outcome_fail {A} len st (w : A) : 0 <= len → (st = VM_BLOCK_STATUS_OK → len = 0) →
  returns (fun '(st, n, _) => exact_outcome len st n) (Some (st, 0, w)).
Proof. intros ? H. apply returns_ret. split; [lia |]. split; [intros ?%H; lia | lia]. Qed.

Section Terminates.
Context {W : Type} (b : vm_block W) (offset len : Z) (cancelled : option (W → bool * W)) (w : W).
Hypotheses (Ho : uint 64 offset) (Hl : 0 <= len) (Hs : size b <= UINT64_MAX) (Hb : backend_counts b).

Lemma read_exact_returns buf :
  returns (fun '(st, n, _) => exact_outcome len st n)
    (vm_block_read_exact (Some b) offset len buf cancelled w).
Proof.
  unfold vm_block_read_exact. destruct (vm_block_check_range _ _ _); try by apply outcome_fail.
  destruct (Z.eqb_spec len 0); [by apply outcome_fail |].
  destruct buf as [dest |], (read_at b) as [f |] eqn:Ef; try by apply outcome_fail.
  eapply returns_bind;
    [apply exact_loop_returns; [apply read_counts, Hb, Ef | by apply exact_fuel_enough | lia | lia] |].
  intros [[st k] [w' d']] [Hn Hst]. apply returns_ret. split; [lia |]. split; [apply Hst | intros _; apply Hst].
Qed.

Lemma write_exact_returns buf :
  returns (fun '(st, n, _) => exact_outcome len st n)
    (vm_block_write_exact (Some b) offset len buf cancelled w).
Proof.
  unfold vm_block_write_exact. destruct (vm_block_check_range _ _ _); try by apply outcome_fail.
  destruct (Z.eqb_spec len 0); [by apply outcome_fail |].
  destruct buf as [src |], (write_at b) as [f |] eqn:Ef; try by apply outcome_fail.
  eapply returns_weaken;
    [apply exact_loop_returns; [by apply write_counts, Hb | by apply exact_fuel_enough | lia | lia] |].
  intros [[st k] w'] [Hn Hst]. split; [lia |]. split; [apply Hst | intros _; apply Hst].
Qed.

Lemma read_exact_local b' buf : agree_inside b b' offset len →
  vm_block_read_exact (Some b') offset len buf cancelled w
  = vm_block_read_exact (Some b) offset len buf cancelled w.
Proof.
  intros (Es & Hr & _). unfold vm_block_read_exact.
  destruct (vm_block_check_range (Some b) offset len) eqn:E; simpl in E |- *; rewrite Es, E; try done.
  assert (offset + len <= size b) as Hin by (by apply check_range_inside).
  destruct (Z.eqb_spec len 0); [done |]. destruct buf as [dest |]; [| done].
  destruct (read_at b) as [f |] eqn:Ef, (read_at b') as [g |]; try done.
  f_equal. symmetry. apply exact_loop_local; [apply read_counts, Hb, Ef | | lia | lia].
  intros [w0 d] c Hc. pose proof (requested_range len c Hc). destruct Ho. unfold read_xfer.
  by rewrite (position_exact offset c (size b)), Hr by lia.
Qed.

Lemma write_exact_local b' buf : (∀ s, buf = Some s → blen s = len) → agree_inside b b' offset len →
  vm_block_write_exact (Some b') offset len buf cancelled w
  = vm_block_write_exact (Some b) offset len buf cancelled w.
Proof.
  intros Hbuf (Es & _ & Hr). unfold vm_block_write_exact.
  destruct (vm_block_check_range (Some b) offset len) eqn:E; simpl in E |- *; rewrite Es, E; try done.
  assert (offset + len <= size b) as Hin by (by apply check_range_inside).
  destruct (Z.eqb_spec len 0); [done |]. destruct buf as [src |]; [| done].
  specialize (Hbuf src eq_refl).
  destruct (write_at b) as [f |] eqn:Ef, (write_at b') as [g |]; try done.
  symmetry. apply exact_loop_local; [by apply write_counts, Hb | | lia | lia].
  intros w0 c Hc. pose proof (requested_range len c Hc). destruct Ho. unfold write_xfer.
  rewrite (position_exact offset c (size b)) by lia. apply Hr.
  assert (blen (take (Z.to_nat (exact_requested len c)) (drop (Z.to_nat c) src)) = exact_requested len c)
    by (unfold blen in *; rewrite length_take, length_drop; lia). lia.
Qed.
End Terminates.

Lemma flush_loop_returns {W} (f : W → vm_block_io_status * W) cancelled fuel : ∀ w np,
  64 - np <= Z.of_nat fuel → np < 64 → returns (fun _ => True) (flush_loop fuel f cancelled w np).
Proof.
  induction fuel as [| fuel IH]; intros w np Hf Hnp; [lia |]. simpl. unfold VM_BLOCK_NO_PROGRESS_LIMIT.
  destruct (poll cancelled w) as [[] w']; [by apply returns_ret |].
  destruct (f w') as [[] w'']; try by apply returns_ret.
  destruct (Z.leb_spec 64 (np + 1)); [by apply returns_ret |]. apply IH; lia.
Qed.

(** C32: An exact transfer and a flush end within a bounded number of callbacks, however
    the host answers them: retries for ever, partial or empty transfers, errors, counts
    larger than the request.  The count returned never exceeds the length, and the
    status is success exactly when a non-empty transfer is complete.  No callback is
    asked for a byte outside the range or for a request of no bytes or of more than
    1 MiB: a backend that answers differently there gives the same result. *)
Theorem vm_block_exact_terminates {W} (b : vm_block W) offset len buf cancelled w :
  uint 64 offset → 0 <= len → size b <= UINT64_MAX → backend_counts b →
  (∀ s, buf = Some s → blen s = len) →
  (∃ st n r, vm_block_read_exact (Some b) offset len buf cancelled w = Some (st, n, r) ∧
             exact_outcome len st n) ∧
  (∃ st n r, vm_block_write_exact (Some b) offset len buf cancelled w = Some (st, n, r) ∧
             exact_outcome len st n) ∧
  (∃ r, vm_block_flush (Some b) cancelled w = Some r) ∧
  (∀ b', agree_inside b b' offset len →
     vm_block_read_exact (Some b') offset len buf cancelled w
       = vm_block_read_exact (Some b) offset len buf cancelled w ∧
     vm_block_write_exact (Some b') offset len buf cancelled w
       = vm_block_write_exact (Some b) offset len buf cancelled w).
Proof.
  intros Ho Hl Hs Hb Hbuf. split_and!.
  - destruct (read_exact_returns b offset len cancelled w Hl Hb buf) as ([[st n] r] & ? & ?). eauto.
  - destruct (write_exact_returns b offset len cancelled w Hl Hb buf) as ([[st n] r] & ? & ?). eauto.
  - unfold vm_block_flush. destruct (flush b) as [f |]; [| eauto].
    destruct (flush_loop_returns f cancelled 64 w 0) as (r & ? & _); [done.. |]. eauto.
  - intros b' Hag. split; [by apply read_exact_local | by apply write_exact_local].
Qed.

(** ** A backend that keeps its contract

    The documented contract of [vm_block.h]: OK with a positive count is that many bytes
    moved; OK with none, and RETRY, move nothing.  [stall] bounds how many callbacks in a
    row may move nothing: fewer than the limit. *)
Definition advances {W} (stall : W → Z) (w : W) (io : vm_block_io_status) (actual n : Z) (w' : W) : Prop :=
  (io = VM_BLOCK_IO_OK ∧ 1 <= actual <= n ∧ 0 <= stall w' < VM_BLOCK_NO_PROGRESS_LIMIT) ∨
  ((io = VM_BLOCK_IO_OK ∨ io = VM_BLOCK_IO_RETRY) ∧ actual = 0 ∧ 0 <= stall w' < stall w).

Record live_backend {W} (b : vm_block W) (disk : W → list Z) (stall : W → Z) : Prop := {
  lb_read : ∃ f, read_at b = Some f ∧ ∀ w o n, 0 <= o → 1 <= n → o + n <= blen (disk w) →
    let '(io, actual, bytes, w') := f w o n in
    advances stall w io actual n w' ∧ disk w' = disk w ∧
    get_bytes (disk w) o actual = Some (take (Z.to_nat actual) bytes) ∧ blen bytes = actual;
  lb_write : ∃ f, write_at b = Some f ∧ ∀ w o l, 0 <= o → 1 <= blen l → o + blen l <= blen (disk w) →
    let '(io, actual, w') := f w o l in
    advances stall w io actual (blen l) w' ∧
    put_bytes (disk w) o (take (Z.to_nat actual) l) = Some (disk w') }.

Section Live.
Context {S : Type} (xfer : S → Z → Z → vm_block_io_status * Z * S) (stop : S → bool * S) (len : Z)
  (stall : S → Z) (I : S → Z → Prop).
Hypothesis Hstop : ∀ s, stop s = (false, s).
Hypothesis Hxfer : ∀ s c, I s c → 0 <= c < len →
  let '(io, actual, s') := xfer s c (exact_requested len c) in
  advances stall s io actual (exact_requested len c) s' ∧ I s' (c + actual).

(** A loop over callbacks that advance completes, and keeps what they keep. *)
Lemma exact_loop_live : ∀ fuel s c np,
  exact_measure len c np <= Z.of_nat fuel → 0 <= c <= len → 0 <= np → 0 <= stall s →
  np + stall s < VM_BLOCK_NO_PROGRESS_LIMIT → I s c →
  returns (fun '(st, n, s') => st = VM_BLOCK_STATUS_OK ∧ n = len ∧ I s' len ∧
             0 <= stall s' < VM_BLOCK_NO_PROGRESS_LIMIT)
    (exact_loop xfer stop len fuel s c np).
Proof.
  unfold exact_measure, VM_BLOCK_NO_PROGRESS_LIMIT.
  induction fuel as [| fuel IH]; intros s c np Hf Hc Hnp Hst Hlim HI; simpl;
    (destruct (Z.ltb_spec c len); [| apply returns_ret; replace len with c by lia; split_and!; done || lia]);
    [lia |].
  specialize (Hxfer s c HI ltac:(lia)). unfold exact_body. rewrite Hstop.
  destruct (xfer s c _) as [[io actual] s']. destruct Hxfer as [Ha HI'].
  pose proof (requested_range len c ltac:(lia)). unfold advances, VM_BLOCK_NO_PROGRESS_LIMIT in *.
  destruct Ha as [(-> & Ha & Hs') | (Hio & -> & Hs')].
  - destruct (Z.ltb_spec (exact_requested len c) actual); [lia |].
    destruct (Z.eqb_spec actual 0); [lia |]. apply IH; done || lia.
  - rewrite Z.add_0_r in HI'. destruct (Z.ltb_spec (exact_requested len c) 0); [lia |]. simpl.
    destruct (Z.leb_spec 64 (np + 1)); [lia |].
    destruct Hio as [-> | ->]; apply IH; done || lia.
Qed.
End Live.

Lemma store_at_take dest c bytes : (c + length bytes <= length dest)%nat →
  take (c + length bytes) (store_at dest (Z.of_nat c) bytes) = take c dest ++ bytes ∧
  length (store_at dest (Z.of_nat c) bytes) = length dest.
Proof.
  intros H. unfold store_at. rewrite Nat2Z.id. split.
  - rewrite take_take, Nat.min_l, app_assoc by lia.
    apply take_app_length'. rewrite length_app, length_take. lia.
  - rewrite length_take, !length_app, length_take, length_drop. lia.
Qed.

Section LiveBackend.
Context {W : Type} (b : vm_block W) (disk : W → list Z) (stall : W → Z).
Hypothesis Hlive : live_backend b disk stall.
Context (offset len : Z).
Hypotheses (Ho : 0 <= offset) (Hl : 0 < len) (Hin : offset + len <= size b) (Hs : size b <= UINT64_MAX).

(** What reading keeps: the disk, and the bytes moved so far. *)
Definition read_inv (D : list Z) (s : W * list Z) (c : Z) : Prop :=
  disk (fst s) = D ∧ blen (snd s) = len ∧ get_bytes D offset c = Some (take (Z.to_nat c) (snd s)).

Lemma read_xfer_live f D : read_at b = Some f → blen D = size b → ∀ s c, read_inv D s c → 0 <= c < len →
  let '(io, actual, s') := read_xfer f offset s c (exact_requested len c) in
  advances (fun s => stall (fst s)) s io actual (exact_requested len c) s' ∧ read_inv D s' (c + actual).
Proof.
  intros Ef HD [w c0] c (E0 & Ld & Hg) Hc. destruct (lb_read _ _ _ Hlive) as (f' & Ef' & Hf).
  rewrite Ef in Ef'. injection Ef' as <-. simpl in E0, Ld, Hg. pose proof (requested_range len c Hc).
  unfold read_xfer. simpl. rewrite (position_exact offset c (size b)) by lia.
  specialize (Hf w (offset + c) (exact_requested len c) ltac:(lia) ltac:(lia) ltac:(rewrite E0; lia)).
  destruct (f w _ _) as [[[io actual] bytes] w1]. destruct Hf as (Ha & Hd1 & Hgb & Lb).
  split; [exact Ha |].
  assert (0 <= actual <= exact_requested len c) as Hact by (destruct Ha as [(_ & ? & _) | (_ & -> & _)]; lia).
  rewrite (take_ge bytes) in Hgb by (unfold blen in *; lia).
  rewrite (take_ge bytes) by (unfold blen in *; lia).
  destruct (store_at_take c0 (Z.to_nat c) bytes) as [Et El]; [unfold blen in *; lia |].
  rewrite Z2Nat.id in Et, El by lia. unfold read_inv. simpl.
  split; [congruence |]. split; [unfold blen in *; lia |].
  replace (Z.to_nat (c + actual)) with (Z.to_nat c + length bytes)%nat by (unfold blen in *; lia).
  rewrite Et. apply get_bytes_join; [lia | lia | done |]. by rewrite <- E0.
Qed.

Lemma range_passes : vm_block_check_range (Some b) offset len = VM_BLOCK_STATUS_OK.
Proof. apply check_range_inside; [unfold UINT64_MAX in *; split; lia | lia | done | done]. Qed.

Lemma read_exact_live w dest : blen (disk w) = size b → blen dest = len → 0 <= stall w < VM_BLOCK_NO_PROGRESS_LIMIT →
  ∃ w' dest', vm_block_read_exact (Some b) offset len (Some dest) None w
                = Some (VM_BLOCK_STATUS_OK, len, (w', Some dest')) ∧
    get_bytes (disk w) offset len = Some dest' ∧ disk w' = disk w.
Proof.
  intros HD Hd Hst. destruct (lb_read _ _ _ Hlive) as (f & Ef & _). unfold vm_block_read_exact.
  rewrite range_passes, Ef. destruct (Z.eqb_spec len 0); [lia |].
  destruct (exact_loop_live (read_xfer f offset)
    (fun s => let '(c, w) := poll None (fst s) in (c, (w, snd s))) len (fun s => stall (fst s))
    (read_inv (disk w)) ltac:(by intros []) (read_xfer_live f _ Ef HD) (exact_fuel len) (w, dest) 0 0)
    as ([[st k] [w' d']] & -> & -> & -> & (Hw' & Ld & Hg) & _);
    [by apply exact_fuel_enough; lia | lia | lia | apply Hst | simpl; lia | by split |].
  exists w', d'. split; [done |]. split; [| done]. rewrite Hg. f_equal. apply take_ge.
  simpl in Ld |- *. unfold blen in Ld. lia.
Qed.

Lemma write_xfer_live f src w : write_at b = Some f → blen (disk w) = size b → blen src = len → ∀ s c,
  put_bytes (disk w) offset (take (Z.to_nat c) src) = Some (disk s) → 0 <= c < len →
  let '(io, actual, s') := write_xfer f offset src s c (exact_requested len c) in
  advances stall s io actual (exact_requested len c) s' ∧
  put_bytes (disk w) offset (take (Z.to_nat (c + actual)) src) = Some (disk s').
Proof.
  intros Ef HD Hd s c Hp Hc. destruct (lb_write _ _ _ Hlive) as (f' & Ef' & Hf).
  rewrite Ef in Ef'. injection Ef' as <-. pose proof (requested_range len c Hc). unfold write_xfer.
  rewrite (position_exact offset c (size b)) by lia.
  set (l := take (Z.to_nat (exact_requested len c)) (drop (Z.to_nat c) src)).
  assert (blen l = exact_requested len c) as Ll
    by (unfold l, blen in *; rewrite length_take, length_drop; lia).
  pose proof (put_bytes_blen _ _ _ _ Hp).
  specialize (Hf s (offset + c) l ltac:(lia) ltac:(lia) ltac:(lia)).
  destruct (f s _ l) as [[io actual] s']. destruct Hf as [Ha Hp']. rewrite Ll in Ha. split; [done |].
  assert (0 <= actual <= exact_requested len c) by (destruct Ha as [(_ & ? & _) | (_ & -> & _)]; lia).
  rewrite Z2Nat.inj_add, <- take_take_drop by lia. eapply put_bytes_join; [done |].
  assert (blen (take (Z.to_nat c) src) = c) as -> by (unfold blen in *; rewrite length_take; lia).
  unfold l in Hp'. by rewrite take_take, Nat.min_l in Hp' by lia.
Qed.

Lemma write_exact_live w src : blen (disk w) = size b → blen src = len → 0 <= stall w < VM_BLOCK_NO_PROGRESS_LIMIT →
  ∃ w', vm_block_write_exact (Some b) offset len (Some src) None w = Some (VM_BLOCK_STATUS_OK, len, w') ∧
    put_bytes (disk w) offset src = Some (disk w') ∧ 0 <= stall w' < VM_BLOCK_NO_PROGRESS_LIMIT.
Proof.
  intros HD Hd Hst. destruct (lb_write _ _ _ Hlive) as (f & Ef & _). unfold vm_block_write_exact.
  rewrite range_passes, Ef. destruct (Z.eqb_spec len 0); [lia |].
  destruct (exact_loop_live (write_xfer f offset src) (poll None) len stall
    (fun s c => put_bytes (disk w) offset (take (Z.to_nat c) src) = Some (disk s))
    ltac:(done) (write_xfer_live f src w Ef HD Hd) (exact_fuel len) w 0 0)
    as ([[st k] w'] & -> & -> & -> & Hp & Hst');
    [by apply exact_fuel_enough; lia | lia | lia | lia | lia | |].
  - unfold put_bytes. simpl. rewrite (proj2 (Z.ltb_ge offset 0) Ho), (proj2 (Z.ltb_ge _ _)).
    + simpl. by rewrite Nat.add_0_r, take_drop.
    + unfold blen in *. lia.
  - exists w'. split; [done |]. split; [| done].
    rewrite take_ge in Hp by (unfold blen in Hd; lia). done.
Qed.
End LiveBackend.

(** Over a live backend, one that keeps the documented contract, reports no error and
    never moves nothing 64 times in a row, writing a range inside the block succeeds and
    reading the range back gives exactly the bytes written, however the backend splits
    the transfers; no byte outside the range changes. *)
Theorem vm_block_write_then_read {W} (b : vm_block W) disk stall offset len w src dest :
  live_backend b disk stall → blen (disk w) = size b → 0 <= offset → 0 < len → offset + len <= size b → size b <= UINT64_MAX →
  blen src = len → blen dest = len → is_bytes src → 0 <= stall w < VM_BLOCK_NO_PROGRESS_LIMIT →
  ∃ w1 w2,
    vm_block_write_exact (Some b) offset len (Some src) None w = Some (VM_BLOCK_STATUS_OK, len, w1) ∧
    put_bytes (disk w) offset src = Some (disk w1) ∧
    vm_block_read_exact (Some b) offset len (Some dest) None w1
      = Some (VM_BLOCK_STATUS_OK, len, (w2, Some src)) ∧
    disk w2 = disk w1.
Proof.
  intros Hlive HD Ho Hl Hin Hs Lsrc Ldst Hb Hst.
  destruct (write_exact_live b disk stall Hlive offset len Ho Hl Hin Hs w src HD Lsrc Hst)
    as (w1 & E1 & Hp & Hst1).
  destruct (read_exact_live b disk stall Hlive offset len Ho Hl Hin Hs w1 dest
    (eq_trans (put_bytes_blen _ _ _ _ Hp) HD) Ldst Hst1)
    as (w2 & d & E2 & Hg & Hd). exists w1, w2.
  split; [done |]. split; [done |]. split; [| done]. rewrite E2. do 4 f_equal.
  apply (put_get_bytes _ _ _ _ Hp) in Hb. rewrite Lsrc, Hg in Hb. congruence.
Qed.

(** ** A concrete backend

    A list of bytes, at most three moved per callback, every other call a retry. *)
Definition toy_read (w : list Z * bool) (o n : Z) : vm_block_io_status * Z * list Z * (list Z * bool) :=
  if snd w then (VM_BLOCK_IO_RETRY, 0, [], (fst w, false))
  else let k := Z.min 3 n in
       match get_bytes (fst w) o k with
       | Some l => (VM_BLOCK_IO_OK, k, l, (fst w, true))
       | None => (VM_BLOCK_IO_ERROR, 0, [], w)
       end.
Definition toy_write (w : list Z * bool) (o : Z) (l : list Z) : vm_block_io_status * Z * (list Z * bool) :=
  if snd w then (VM_BLOCK_IO_RETRY, 0, (fst w, false))
  else let k := Z.min 3 (blen l) in
       match put_bytes (fst w) o (take (Z.to_nat k) l) with
       | Some d => (VM_BLOCK_IO_OK, k, (d, true))
       | None => (VM_BLOCK_IO_ERROR, 0, w)
       end.
Definition toy_block : vm_block (list Z * bool) :=
  MkBlock 16 1 1 (Some toy_read) (Some toy_write) (Some (fun w => (VM_BLOCK_IO_OK, w))).

Lemma toy_live : live_backend toy_block fst (fun w => if snd w then 1 else 0).
Proof.
  split.
  - exists toy_read. split; [done |]. intros [d []] o n Ho Hn Hin; unfold toy_read, advances; simpl in *.
    { split; [right; split_and!; auto; lia |]. split; [done |]. split; [| done]. unfold get_bytes.
      by rewrite seqZ_nil. }
    destruct (get_bytes_inside d o (Z.min 3 n)) as (l & E & Ll & _); [lia.. |]. rewrite E. simpl.
    split; [left; unfold VM_BLOCK_NO_PROGRESS_LIMIT; split_and!; done || lia |].
    split; [done |]. split; [| lia]. rewrite take_ge by (unfold blen in *; lia). done.
  - exists toy_write. split; [done |]. intros [d []] o l Ho Hn Hin; unfold toy_write, advances; simpl in *.
    { split; [right; split_and!; auto; lia |].
      unfold put_bytes. simpl. rewrite (proj2 (Z.ltb_ge o 0) Ho), (proj2 (Z.ltb_ge _ _)).
      - simpl. by rewrite Nat.add_0_r, take_drop.
      - unfold blen in *. lia. }
    destruct (put_bytes_inside d o (take (Z.to_nat (Z.min 3 (blen l))) l)) as (d' & E & Ll);
      [done | unfold blen in *; rewrite length_take; lia |]. rewrite E. simpl.
    split; [left; unfold VM_BLOCK_NO_PROGRESS_LIMIT; split_and!; done || lia | done].
Qed.

Lemma vm_block_write_then_read_witness : ∃ w1 w2,
  vm_block_write_exact (Some toy_block) 2 7 (Some (seqZ 1 7)) None (replicate 16 0, false)
    = Some (VM_BLOCK_STATUS_OK, 7, w1) ∧
  put_bytes (replicate 16 0) 2 (seqZ 1 7) = Some (fst w1) ∧
  vm_block_read_exact (Some toy_block) 2 7 (Some (replicate 7 0)) None w1
    = Some (VM_BLOCK_STATUS_OK, 7, (w2, Some (seqZ 1 7))) ∧
  fst w2 = fst w1.
Proof.
  apply (vm_block_write_then_read toy_block fst (fun w => if snd w then 1 else 0) 2 7
    (replicate 16 0, false) (seqZ 1 7) (replicate 7 0) toy_live); try done; by_computation.
Defined.

(** A backend that retries for ever, for the termination theorem. *)
Definition stuck_block : vm_block unit :=
  MkBlock 16 1 1 (Some (fun _ _ _ => (VM_BLOCK_IO_RETRY, 0, [], tt)))
    (Some (fun _ _ _ => (VM_BLOCK_IO_RETRY, 0, tt))) (Some (fun _ => (VM_BLOCK_IO_RETRY, tt))).

Lemma vm_block_exact_terminates_witness :
  ∃ st n r, vm_block_read_exact (Some stuck_block) 2 7 (Some (replicate 7 0)) None tt = Some (st, n, r) ∧
            exact_outcome 7 st n ∧ st = VM_BLOCK_STATUS_STALLED.
Proof.
  destruct (vm_block_exact_terminates stuck_block 2 7 (Some (replicate 7 0)) None tt)
    as ((st & n & r & E & H) & _); [by_computation | done | done | | by intros ? [= <-] |].
  - by split; intros f [= <-].
  - exists st, n, r. split; [done |]. split; [done |]. vm_compute in E. by injection E.
Defined.
