(* ===== verification/Ppp.v ===== *)
(** * The PPP peer

    [core/src/net/ppp.c]: HDLC-async framing with its frame check sequence, the transmit
    ring, the LCP and IPCP option negotiation, the automaton of RFC 1661 and its restart
    timers.  The state is [ppp_peer_t], regrouped: [remote] is what the guest asked for,
    [deframer] and [ring] the two byte streams; the counters of [ppp_stats_t] are a
    function of their names.  The IP sink is a parameter: a function on the peer, since
    the callback may send. *)

From S2P Require Import Prelude Bytes.

Definition PPP_PROTO_IP := 0x0021.
Definition PPP_PROTO_IPCP := 0x8021.
Definition PPP_PROTO_LCP := 0xc021.
Definition PPP_CONF_REQ := 1.
Definition PPP_CONF_ACK := 2.
Definition PPP_CONF_NAK := 3.
Definition PPP_CONF_REJ := 4.
Definition PPP_TERM_REQ := 5.
Definition PPP_TERM_ACK := 6.
Definition PPP_CODE_REJ := 7.
Definition PPP_PROTO_REJ := 8.
Definition PPP_ECHO_REQ := 9.
Definition PPP_ECHO_REPLY := 10.
Definition PPP_DISCARD_REQ := 11.
Definition LCP_OPT_MRU := 1.
Definition LCP_OPT_ASYNCMAP := 2.
Definition LCP_OPT_AUTH := 3.
Definition LCP_OPT_QUALITY := 4.
Definition LCP_OPT_MAGIC := 5.
Definition LCP_OPT_PCOMP := 7.
Definition LCP_OPT_ACCOMP := 8.
Definition IPCP_OPT_ADDRESSES := 1.
Definition IPCP_OPT_COMPRESS := 2.
Definition IPCP_OPT_ADDRESS := 3.
Definition IPCP_OPT_DNS1 := 129.
Definition IPCP_OPT_DNS2 := 131.
Definition PPP_FLAG := 0x7e.
Definition PPP_ESCAPE := 0x7d.
Definition PPP_TRANS := 0x20.
Definition PPP_ALLSTATIONS := 0xff.
Definition PPP_UI := 0x03.
Definition PPP_FCS_INIT := 0xffff.
Definition PPP_FCS_GOOD := 0xf0b8.
Definition PPP_MRU_DEFAULT := 1500.
Definition PPP_MAX_FRAME := PPP_MRU_DEFAULT + 6.
Definition PPP_TX_BULK_FRAMES := 32.
Definition PPP_TX_RING := (2 * PPP_MAX_FRAME + 2) * PPP_TX_BULK_FRAMES.
Definition PPP_RESTART_MS := 3000.
Definition PPP_MAX_CONFIGURE := 10.
Definition PPP_MAX_TERMINATE := 2.
Definition PPP_MAX_FAILURE := 5.
Definition PPP_REQ_LCP_MAGIC := 1.
Definition PPP_REQ_LCP_ASYNCMAP := 2.
Definition PPP_REQ_IPCP_ADDRESS := 1.

Inductive ppp_state :=
  | PPP_S_INITIAL | PPP_S_STARTING | PPP_S_CLOSED | PPP_S_STOPPED | PPP_S_CLOSING
  | PPP_S_STOPPING | PPP_S_REQSENT | PPP_S_ACKRCVD | PPP_S_ACKSENT | PPP_S_OPENED.
#[export] Instance ppp_state_eq_dec : EqDecision ppp_state.
Proof. solve_decision. Defined.

Inductive ppp_phase_t :=
  | PPP_PHASE_DEAD | PPP_PHASE_ESTABLISH | PPP_PHASE_NETWORK | PPP_PHASE_OPEN | PPP_PHASE_TERMINATE.

(** The two protocols that have an automaton. *)
Inductive layer := LCP | IPCP.
#[export] Instance layer_eq_dec : EqDecision layer.
Proof. solve_decision. Defined.
Definition proto_of (l : layer) : Z := match l with LCP => PPP_PROTO_LCP | IPCP => PPP_PROTO_IPCP end.

(** The counters of [ppp_stats_t]. *)
Inductive ppp_stat :=
  | rx_bytes | tx_bytes | frames_in | frames_out | fcs_errors | short_frames | long_frames
  | aborts | unknown_protos | unknown_codes | ip_frames_in | ip_frames_dropped | ip_frames_out
  | ip_bytes_in | ip_bytes_out | tx_overflows | echo_replies | ipcp_dns_requests
  | ipcp_dns_acked | ipcp_dns_naked.
#[export] Instance ppp_stat_eq_dec : EqDecision ppp_stat.
Proof. solve_decision. Defined.

Record ppp_config := MkConfig { local_ip : Z; remote_ip : Z; dns1 : Z; dns2 : Z; magic_number : Z }.

Record ppp_fsm := MkFsm {
  st : ppp_state; next_id : Z; last_req_id : Z; restarts : Z; failures : Z; req_opts : Z;
  restart_at_ms : Z; timer_running : bool }.

(** [peer_magic] is [None] while [peer_magic_valid] is false. *)
Record ppp_remote := MkRemote {
  peer_magic : option Z; peer_asyncmap : Z; peer_mru : Z; peer_pcomp : bool; peer_accomp : bool }.

(** [rxbuf] holds [rxlen] octets. *)
Record ppp_deframer := MkDeframer { rxbuf : list Z; in_frame : bool; escaped : bool; overlong : bool }.

Record ppp_ring := MkRing { tx : Z → Z; tx_head : Z; tx_tail : Z }.

Record ppp_peer := MkPeer {
  cfg : ppp_config; stats : ppp_stat → Z;
  lcp : ppp_fsm; ipcp : ppp_fsm; opened : bool; now_ms : Z;
  our_magic : Z; remote : ppp_remote;
  assigned_ip : Z; assigned : bool; tx_accm : Z;
  deframer : ppp_deframer; ring : ppp_ring }.

(** ** Assignments to fields *)

Definition p_cfg (v : ppp_config) (p : ppp_peer) : ppp_peer :=
  MkPeer v (stats p) (lcp p) (ipcp p) (opened p) (now_ms p) (our_magic p) (remote p)
    (assigned_ip p) (assigned p) (tx_accm p) (deframer p) (ring p).
Definition p_stats (v : ppp_stat → Z) (p : ppp_peer) : ppp_peer :=
  MkPeer (cfg p) v (lcp p) (ipcp p) (opened p) (now_ms p) (our_magic p) (remote p)
    (assigned_ip p) (assigned p) (tx_accm p) (deframer p) (ring p).
Definition p_lcp (v : ppp_fsm) (p : ppp_peer) : ppp_peer :=
  MkPeer (cfg p) (stats p) v (ipcp p) (opened p) (now_ms p) (our_magic p) (remote p)
    (assigned_ip p) (assigned p) (tx_accm p) (deframer p) (ring p).
Definition p_ipcp (v : ppp_fsm) (p : ppp_peer) : ppp_peer :=
  MkPeer (cfg p) (stats p) (lcp p) v (opened p) (now_ms p) (our_magic p) (remote p)
    (assigned_ip p) (assigned p) (tx_accm p) (deframer p) (ring p).
Definition p_opened (v : bool) (p : ppp_peer) : ppp_peer :=
  MkPeer (cfg p) (stats p) (lcp p) (ipcp p) v (now_ms p) (our_magic p) (remote p) (assigned_ip p)
    (assigned p) (tx_accm p) (deframer p) (ring p).
Definition p_now_ms (v : Z) (p : ppp_peer) : ppp_peer :=
  MkPeer (cfg p) (stats p) (lcp p) (ipcp p) (opened p) v (our_magic p) (remote p) (assigned_ip p)
    (assigned p) (tx_accm p) (deframer p) (ring p).
Definition p_our_magic (v : Z) (p : ppp_peer) : ppp_peer :=
  MkPeer (cfg p) (stats p) (lcp p) (ipcp p) (opened p) (now_ms p) v (remote p) (assigned_ip p)
    (assigned p) (tx_accm p) (deframer p) (ring p).
Definition p_remote (v : ppp_remote) (p : ppp_peer) : ppp_peer :=
  MkPeer (cfg p) (stats p) (lcp p) (ipcp p) (opened p) (now_ms p) (our_magic p) v (assigned_ip p)
    (assigned p) (tx_accm p) (deframer p) (ring p).
Definition p_assigned_ip (v : Z) (p : ppp_peer) : ppp_peer :=
  MkPeer (cfg p) (stats p) (lcp p) (ipcp p) (opened p) (now_ms p) (our_magic p) (remote p) v
    (assigned p) (tx_accm p) (deframer p) (ring p).
Definition p_assigned (v : bool) (p : ppp_peer) : ppp_peer :=
  MkPeer (cfg p) (stats p) (lcp p) (ipcp p) (opened p) (now_ms p) (our_magic p) (remote p)
    (assigned_ip p) v (tx_accm p) (deframer p) (ring p).
Definition p_tx_accm (v : Z) (p : ppp_peer) : ppp_peer :=
  MkPeer (cfg p) (stats p) (lcp p) (ipcp p) (opened p) (now_ms p) (our_magic p) (remote p)
    (assigned_ip p) (assigned p) v (deframer p) (ring p).
Definition p_deframer (v : ppp_deframer) (p : ppp_peer) : ppp_peer :=
  MkPeer (cfg p) (stats p) (lcp p) (ipcp p) (opened p) (now_ms p) (our_magic p) (remote p)
    (assigned_ip p) (assigned p) (tx_accm p) v (ring p).
Definition p_ring (v : ppp_ring) (p : ppp_peer) : ppp_peer :=
  MkPeer (cfg p) (stats p) (lcp p) (ipcp p) (opened p) (now_ms p) (our_magic p) (remote p)
    (assigned_ip p) (assigned p) (tx_accm p) (deframer p) v.

Definition f_st (v : ppp_state) (f : ppp_fsm) : ppp_fsm :=
  MkFsm v (next_id f) (last_req_id f) (restarts f) (failures f) (req_opts f) (restart_at_ms f)
    (timer_running f).
Definition f_next_id (v : Z) (f : ppp_fsm) : ppp_fsm :=
  MkFsm (st f) v (last_req_id f) (restarts f) (failures f) (req_opts f) (restart_at_ms f)
    (timer_running f).
Definition f_last_req_id (v : Z) (f : ppp_fsm) : ppp_fsm :=
  MkFsm (st f) (next_id f) v (restarts f) (failures f) (req_opts f) (restart_at_ms f)
    (timer_running f).
Definition f_restarts (v : Z) (f : ppp_fsm) : ppp_fsm :=
  MkFsm (st f) (next_id f) (last_req_id f) v (failures f) (req_opts f) (restart_at_ms f)
    (timer_running f).
Definition f_failures (v : Z) (f : ppp_fsm) : ppp_fsm :=
  MkFsm (st f) (next_id f) (last_req_id f) (restarts f) v (req_opts f) (restart_at_ms f)
    (timer_running f).
Definition f_req_opts (v : Z) (f : ppp_fsm) : ppp_fsm :=
  MkFsm (st f) (next_id f) (last_req_id f) (restarts f) (failures f) v (restart_at_ms f)
    (timer_running f).
Definition f_restart_at_ms (v : Z) (f : ppp_fsm) : ppp_fsm :=
  MkFsm (st f) (next_id f) (last_req_id f) (restarts f) (failures f) (req_opts f) v
    (timer_running f).
Definition f_timer_running (v : bool) (f : ppp_fsm) : ppp_fsm :=
  MkFsm (st f) (next_id f) (last_req_id f) (restarts f) (failures f) (req_opts f)
    (restart_at_ms f) v.

Definition r_peer_magic (v : option Z) (m : ppp_remote) : ppp_remote :=
  MkRemote v (peer_asyncmap m) (peer_mru m) (peer_pcomp m) (peer_accomp m).
Definition r_peer_asyncmap (v : Z) (m : ppp_remote) : ppp_remote :=
  MkRemote (peer_magic m) v (peer_mru m) (peer_pcomp m) (peer_accomp m).
Definition r_peer_mru (v : Z) (m : ppp_remote) : ppp_remote :=
  MkRemote (peer_magic m) (peer_asyncmap m) v (peer_pcomp m) (peer_accomp m).
Definition r_peer_pcomp (v : bool) (m : ppp_remote) : ppp_remote :=
  MkRemote (peer_magic m) (peer_asyncmap m) (peer_mru m) v (peer_accomp m).
Definition r_peer_accomp (v : bool) (m : ppp_remote) : ppp_remote :=
  MkRemote (peer_magic m) (peer_asyncmap m) (peer_mru m) (peer_pcomp m) v.

Definition the_fsm (l : layer) (p : ppp_peer) : ppp_fsm := match l with LCP => lcp p | IPCP => ipcp p end.
(** An assignment through [f = fsm_for(p, proto)]. *)
Definition on_fsm (l : layer) (g : ppp_fsm → ppp_fsm) (p : ppp_peer) : ppp_peer :=
  match l with LCP => p_lcp (g (lcp p)) p | IPCP => p_ipcp (g (ipcp p)) p end.
Definition state_of (l : layer) (p : ppp_peer) : ppp_state := st (the_fsm l p).
Definition set_state (l : layer) (s : ppp_state) : ppp_peer → ppp_peer := on_fsm l (f_st s).
Definition bump (c : ppp_stat) (n : Z) (p : ppp_peer) : ppp_peer :=
  p_stats (<[c := w64 (stats p c + n)]> (stats p)) p.

(** ** FCS-16 *)

Definition fcs_bit (fcs : Z) : Z := if bit fcs 0 then (fcs .>> 1) .^ 0x8408 else fcs .>> 1.
Definition fcs_byte (fcs d : Z) : Z := Nat.iter 8 fcs_bit (fcs .^ d).
Definition ppp_fcs16 (fcs : Z) (data : list Z) : Z := foldl fcs_byte fcs data.

(** ** Framing *)

Definition needs_escape (c accm : Z) : bool :=
  if (c =? PPP_FLAG) || (c =? PPP_ESCAPE) then true
  else if c <? 0x20 then negb ((accm .& (1 .<< c)) =? 0) else false.

Definition escape_byte (accm c : Z) : list Z :=
  if needs_escape c accm then [PPP_ESCAPE; c .^ PPP_TRANS] else [c].

(** [None] is the "did not fit" of the C function; [out] is what is written so far. *)
Definition ppp_emit (cap accm : Z) (out : option (list Z)) (c : Z) : option (list Z) :=
  o ← out;
  let e := escape_byte accm c in
  if cap <? blen o + blen e then None else Some (o ++ e).

Definition frame_header (proto : Z) : list Z := [PPP_ALLSTATIONS; PPP_UI; proto .>> 8; proto .& 0xff].
Definition frame_fcs (proto : Z) (info : list Z) : Z :=
  ppp_fcs16 (ppp_fcs16 PPP_FCS_INIT (frame_header proto)) info .^ 0xffff.

(** [None] is the result 0. *)
Definition ppp_frame (proto : Z) (info : list Z) (accm cap : Z) : option (list Z) :=
  if PPP_MRU_DEFAULT <? blen info then None else
  let fcs := frame_fcs proto info in
  if cap <? 1 then None else
  out ← foldl (ppp_emit cap accm) (Some [PPP_FLAG])
          (frame_header proto ++ info ++ [fcs .& 0xff; fcs .>> 8]);
  if cap <? blen out + 1 then None else Some (out ++ [PPP_FLAG]).

(** ** The transmit ring *)

Definition tx_used (p : ppp_peer) : Z := tx_head (ring p) -w tx_tail (ring p).

(** [for (i = 0; i < n; i++) tx[(head + i) % RING] = enc[i]]. *)
Definition ring_put (t : Z → Z) (head : Z) (enc : list Z) : Z → Z :=
  snd (foldl (fun '(i, t) b => (i + 1, <[(head +w i) mod PPP_TX_RING := b]> t)) (0, t) enc).

Definition tx_frame (p : ppp_peer) (proto : Z) (info : list Z) : ppp_peer :=
  match ppp_frame proto info (tx_accm p) (2 * PPP_MAX_FRAME + 2) with
  | None => bump tx_overflows 1 p
  | Some enc =>
    if w64 (PPP_TX_RING - tx_used p) <? blen enc then bump tx_overflows 1 p else
    let g := ring p in
    let p := p_ring (MkRing (ring_put (tx g) (tx_head g) enc) (tx_head g +w blen enc) (tx_tail g)) p in
    bump tx_bytes (blen enc) (bump frames_out 1 p)
  end.

Definition ppp_output_pending (p : ppp_peer) : Z := tx_used p.
Definition ppp_output_capacity (p : ppp_peer) : Z :=
  if tx_used p <=? PPP_TX_RING then PPP_TX_RING - tx_used p else 0.

(** [None] is the result -1. *)
Definition ppp_output_byte (p : ppp_peer) : option Z * ppp_peer :=
  let g := ring p in
  if tx_head g =? tx_tail g then (None, p)
  else (Some (tx g (tx_tail g mod PPP_TX_RING)), p_ring (MkRing (tx g) (tx_head g) (tx_tail g +w 1)) p).

Fixpoint ppp_output (cap : nat) (p : ppp_peer) : list Z * ppp_peer :=
  match cap with
  | O => ([], p)
  | S cap =>
    match ppp_output_byte p with
    | (None, p) => ([], p)
    | (Some b, p) => let '(bs, p) := ppp_output cap p in (b :: bs, p)
    end
  end.

(** ** Control packets *)

Definition be16 (v : Z) : list Z := [fld v 8 0xff; v .& 0xff].
Definition be32 (v : Z) : list Z := [fld v 24 0xff; fld v 16 0xff; fld v 8 0xff; v .& 0xff].
Definition get_be32 (l : list Z) : Z :=
  ((Z.shiftl (nth 0 l 0) 24 .| Z.shiftl (nth 1 l 0) 16) .| Z.shiftl (nth 2 l 0) 8) .| nth 3 l 0.

Definition cp_packet (code id : Z) (data : list Z) : list Z :=
  [code; id] ++ be16 (blen data + 4) ++ data.

Definition send_cp (l : layer) (code id : Z) (data : list Z) (p : ppp_peer) : ppp_peer :=
  if PPP_MRU_DEFAULT <? blen data + 4 then bump tx_overflows 1 p
  else tx_frame p (proto_of l) (cp_packet code id data).

(** ** The automaton's actions *)

Definition has_req (f : ppp_fsm) (b : Z) : bool := negb (req_opts f .& b =? 0).

Definition build_confreq (l : layer) (p : ppp_peer) : list Z :=
  match l with
  | LCP =>
    (if has_req (lcp p) PPP_REQ_LCP_ASYNCMAP then [LCP_OPT_ASYNCMAP; 6] ++ be32 0 else [])
    ++ (if has_req (lcp p) PPP_REQ_LCP_MAGIC then [LCP_OPT_MAGIC; 6] ++ be32 (our_magic p) else [])
  | IPCP =>
    if has_req (ipcp p) PPP_REQ_IPCP_ADDRESS then [IPCP_OPT_ADDRESS; 6] ++ be32 (local_ip (cfg p)) else []
  end.

Definition restart_start (l : layer) (p : ppp_peer) : ppp_peer :=
  on_fsm l (fun f => f_restart_at_ms (now_ms p +w PPP_RESTART_MS) (f_timer_running true f)) p.
Definition restart_stop (l : layer) : ppp_peer → ppp_peer := on_fsm l (f_timer_running false).
Definition irc (l : layer) (count : Z) : ppp_peer → ppp_peer :=
  on_fsm l (fun f => f_failures PPP_MAX_FAILURE (f_restarts count f)).
Definition count_down (n : Z) : Z := if n =? 0 then 0 else n - 1.
(** [f->last_req_id = f->next_id++]. *)
Definition fresh_id (f : ppp_fsm) : ppp_fsm := f_next_id (w8 (next_id f + 1)) (f_last_req_id (next_id f) f).

Definition scr (l : layer) (fresh : bool) (p : ppp_peer) : ppp_peer :=
  let opts := build_confreq l p in
  let p := if fresh then on_fsm l fresh_id p else p in
  let p := send_cp l PPP_CONF_REQ (last_req_id (the_fsm l p)) opts p in
  let p := on_fsm l (fun f => f_restarts (count_down (restarts f)) f) p in
  restart_start l p.

Definition str_ (l : layer) (p : ppp_peer) : ppp_peer :=
  let p := on_fsm l fresh_id p in
  let p := send_cp l PPP_TERM_REQ (last_req_id (the_fsm l p)) [] p in
  let p := on_fsm l (fun f => f_restarts (count_down (restarts f)) f) p in
  restart_start l p.

Definition sta (l : layer) (id : Z) : ppp_peer → ppp_peer := send_cp l PPP_TERM_ACK id [].

Definition ipcp_start (p : ppp_peer) : ppp_peer :=
  let p := on_fsm IPCP (fun f => f_req_opts PPP_REQ_IPCP_ADDRESS (f_st PPP_S_REQSENT f)) p in
  scr IPCP true (irc IPCP PPP_MAX_CONFIGURE p).

Definition tlu (l : layer) (p : ppp_peer) : ppp_peer :=
  match l with
  | LCP => ipcp_start p
  | IPCP => p_assigned true (p_assigned_ip (remote_ip (cfg p)) p)
  end.
Definition tld (l : layer) (p : ppp_peer) : ppp_peer :=
  match l with
  | LCP => p_assigned false (restart_stop IPCP (set_state IPCP PPP_S_INITIAL p))
  | IPCP => p_assigned false p
  end.

(** ** Option negotiation *)

Inductive opt_verdict := OPT_ACK | OPT_NAK (nak : list Z) | OPT_REJ.

(** [o] is the option from its type octet on, [olen] its length octet. *)
Definition lcp_review (o : list Z) (olen : Z) (p : ppp_peer) : opt_verdict * ppp_peer :=
  let type := nth 0 o 0 in
  let upd g := p_remote (g (remote p)) p in
  if type =? LCP_OPT_MRU then
    if negb (olen =? 4) then (OPT_REJ, p) else
    let mru := Z.shiftl (nth 2 o 0) 8 .| nth 3 o 0 in
    if PPP_MRU_DEFAULT <? mru then (OPT_NAK ([LCP_OPT_MRU; 4] ++ be16 PPP_MRU_DEFAULT), p)
    else (OPT_ACK, upd (r_peer_mru (w16 mru)))
  else if type =? LCP_OPT_ASYNCMAP then
    if negb (olen =? 6) then (OPT_REJ, p)
    else (OPT_ACK, upd (r_peer_asyncmap (get_be32 (drop 2 o))))
  else if type =? LCP_OPT_AUTH then (OPT_REJ, p)
  else if type =? LCP_OPT_QUALITY then (OPT_REJ, p)
  else if type =? LCP_OPT_MAGIC then
    if negb (olen =? 6) then (OPT_REJ, p) else
    let m := get_be32 (drop 2 o) in
    if m =? our_magic p then
      let alt := m .^ 0xa5a5a5a5 in
      let alt := if alt =? m then m +w 1 else alt in
      (OPT_NAK ([LCP_OPT_MAGIC; 6] ++ be32 alt), p)
    else (OPT_ACK, upd (r_peer_magic (Some m)))
  else if type =? LCP_OPT_PCOMP then
    if negb (olen =? 2) then (OPT_REJ, p) else (OPT_ACK, upd (r_peer_pcomp true))
  else if type =? LCP_OPT_ACCOMP then
    if negb (olen =? 2) then (OPT_REJ, p) else (OPT_ACK, upd (r_peer_accomp true))
  else (OPT_REJ, p).

Definition ipcp_review (o : list Z) (olen : Z) (p : ppp_peer) : opt_verdict * ppp_peer :=
  let type := nth 0 o 0 in
  if type =? IPCP_OPT_ADDRESS then
    if negb (olen =? 6) then (OPT_REJ, p)
    else if get_be32 (drop 2 o) =? remote_ip (cfg p) then (OPT_ACK, p)
    else (OPT_NAK ([IPCP_OPT_ADDRESS; 6] ++ be32 (remote_ip (cfg p))), p)
  else if type =? IPCP_OPT_COMPRESS then (OPT_REJ, p)
  else if type =? IPCP_OPT_ADDRESSES then (OPT_REJ, p)
  else if (type =? IPCP_OPT_DNS1) || (type =? IPCP_OPT_DNS2) then
    if negb (olen =? 6) then (OPT_REJ, p) else
    let p := bump ipcp_dns_requests 1 p in
    let have := if type =? IPCP_OPT_DNS1 then dns1 (cfg p) else dns2 (cfg p) in
    if get_be32 (drop 2 o) =? have then (OPT_ACK, bump ipcp_dns_acked 1 p)
    else (OPT_NAK ([type; 6] ++ be32 have), bump ipcp_dns_naked 1 p)
  else (OPT_REJ, p).

Definition review (l : layer) : list Z → Z → ppp_peer → opt_verdict * ppp_peer :=
  match l with LCP => lcp_review | IPCP => ipcp_review end.

Inductive cr_result := CR_INVALID | CR_ACK | CR_NAK | CR_REJ.
#[export] Instance cr_result_eq_dec : EqDecision cr_result.
Proof. solve_decision. Defined.

(** [rej] and [nak] are [PPP_MRU_DEFAULT] octets each. *)
Definition bounded_app (buf more : list Z) : list Z :=
  if blen buf + blen more <=? PPP_MRU_DEFAULT then buf ++ more else buf.

(** The walk over the options: [None] when they do not tile the packet. *)
Fixpoint review_options (fuel : nat) (l : layer) (opts rej nak : list Z) (p : ppp_peer)
    : option (list Z * list Z) * ppp_peer :=
  match fuel, opts with
  | _, [] => (Some (rej, nak), p)
  | O, _ => (None, p)
  | S fuel, _ =>
    if blen opts <? 2 then (None, p) else
    let olen := nth 1 opts 0 in
    if (olen <? 2) || (blen opts <? olen) then (None, p) else
    let o := take (Z.to_nat olen) opts in
    let '(v, p) := review l o olen p in
    let rest := drop (Z.to_nat olen) opts in
    match v with
    | OPT_REJ => review_options fuel l rest (bounded_app rej o) nak p
    | OPT_NAK n => review_options fuel l rest rej (bounded_app nak n) p
    | OPT_ACK => review_options fuel l rest rej nak p
    end
  end.

Definition classify_confreq (l : layer) (opts : list Z) (p : ppp_peer) : cr_result * list Z * ppp_peer :=
  match review_options (length opts) l opts [] [] p with
  | (None, p) => (CR_INVALID, [], p)
  | (Some (rej, nak), p) =>
    if negb (blen rej =? 0) then (CR_REJ, rej, p)
    else if negb (blen nak =? 0) then (CR_NAK, nak, p)
    else (CR_ACK, opts, p)
  end.

(** The walk of [apply_nak] and [apply_rej], which stops at an option that does not fit. *)
Fixpoint each_option (fuel : nat) (g : Z → Z → list Z → ppp_peer → ppp_peer) (opts : list Z) (p : ppp_peer)
    : ppp_peer :=
  match fuel with
  | O => p
  | S fuel =>
    if blen opts <? 2 then p else
    let olen := nth 1 opts 0 in
    if (olen <? 2) || (blen opts <? olen) then p
    else each_option fuel g (drop (Z.to_nat olen) opts) (g (nth 0 opts 0) olen (drop 2 opts) p)
  end.

Definition nak_one (l : layer) (type olen : Z) (v : list Z) (p : ppp_peer) : ppp_peer :=
  match l with
  | LCP => if (type =? LCP_OPT_MAGIC) && (olen =? 6) then p_our_magic (get_be32 v) p else p
  | IPCP =>
    if (type =? IPCP_OPT_ADDRESS) && (olen =? 6)
    then p_cfg (MkConfig (get_be32 v) (remote_ip (cfg p)) (dns1 (cfg p)) (dns2 (cfg p))
                  (magic_number (cfg p))) p
    else p
  end.
Definition drop_req (b : Z) (f : ppp_fsm) : ppp_fsm := f_req_opts (req_opts f .& (0xff .^ b)) f.
Definition rej_one (l : layer) (type olen : Z) (v : list Z) (p : ppp_peer) : ppp_peer :=
  match l with
  | LCP =>
    let p := if type =? LCP_OPT_MAGIC then on_fsm LCP (drop_req PPP_REQ_LCP_MAGIC) p else p in
    if type =? LCP_OPT_ASYNCMAP then on_fsm LCP (drop_req PPP_REQ_LCP_ASYNCMAP) p else p
  | IPCP => if type =? IPCP_OPT_ADDRESS then on_fsm IPCP (drop_req PPP_REQ_IPCP_ADDRESS) p else p
  end.
Definition apply_nak (l : layer) (opts : list Z) : ppp_peer → ppp_peer :=
  each_option (length opts) (nak_one l) opts.
Definition apply_rej (l : layer) (opts : list Z) : ppp_peer → ppp_peer :=
  each_option (length opts) (rej_one l) opts.

(** ** The events of RFC 1661 section 4.1 *)

Definition answer_code (r : cr_result) : Z :=
  match r with CR_ACK => PPP_CONF_ACK | CR_NAK => PPP_CONF_NAK | _ => PPP_CONF_REJ end.

(** What [ev_rcr] does before it answers. *)
Definition rcr_prepare (l : layer) (entry : ppp_state) (p : ppp_peer) : ppp_peer :=
  match entry with
  | PPP_S_STOPPED => scr l true (irc l PPP_MAX_CONFIGURE p)
  | PPP_S_OPENED => scr l true (irc l PPP_MAX_CONFIGURE (tld l p))
  | _ => p
  end.

(** The state after the answer. *)
Definition rcr_finish (l : layer) (entry : ppp_state) (good : bool) (p : ppp_peer) : ppp_peer :=
  match entry with
  | PPP_S_STOPPED | PPP_S_OPENED | PPP_S_REQSENT | PPP_S_ACKSENT =>
    set_state l (if good then PPP_S_ACKSENT else PPP_S_REQSENT) p
  | PPP_S_ACKRCVD =>
    if good then tlu l (restart_stop l (set_state l PPP_S_OPENED p)) else p
  | _ => p
  end.

Definition ev_rcr (l : layer) (id : Z) (opts : list Z) (p : ppp_peer) : ppp_peer :=
  let entry := state_of l p in
  if bool_decide (entry = PPP_S_INITIAL ∨ entry = PPP_S_CLOSED) then sta l id p else
  let '(r, resp, p) := classify_confreq l opts p in
  match r with
  | CR_INVALID => p
  | _ =>
    let p := rcr_prepare l entry p in
    let p := send_cp l (answer_code r) id resp p in
    let good := bool_decide (r = CR_ACK) in
    if negb good && (failures (the_fsm l p) =? 0) then restart_stop l (set_state l PPP_S_STOPPED p)
    else
      let p := if good then p else on_fsm l (fun f => f_failures (failures f - 1) f) p in
      rcr_finish l entry good p
  end.

Definition ev_rca (l : layer) (id : Z) (p : ppp_peer) : ppp_peer :=
  if negb (id =? last_req_id (the_fsm l p)) then p else
  match state_of l p with
  | PPP_S_CLOSED | PPP_S_STOPPED => sta l id p
  | PPP_S_REQSENT => set_state l PPP_S_ACKRCVD (irc l PPP_MAX_CONFIGURE p)
  | PPP_S_ACKRCVD => set_state l PPP_S_REQSENT (scr l true p)
  | PPP_S_ACKSENT => tlu l (set_state l PPP_S_OPENED (restart_stop l (irc l PPP_MAX_CONFIGURE p)))
  | PPP_S_OPENED => set_state l PPP_S_REQSENT (scr l true (tld l p))
  | _ => p
  end.

Definition ev_rcn (l : layer) (id : Z) (p : ppp_peer) : ppp_peer :=
  if negb (id =? last_req_id (the_fsm l p)) then p else
  match state_of l p with
  | PPP_S_CLOSED | PPP_S_STOPPED => sta l id p
  | PPP_S_REQSENT | PPP_S_ACKSENT => scr l true (irc l PPP_MAX_CONFIGURE p)
  | PPP_S_ACKRCVD => set_state l PPP_S_REQSENT (scr l true p)
  | PPP_S_OPENED => set_state l PPP_S_REQSENT (scr l true (tld l p))
  | _ => p
  end.

Definition ev_rtr (l : layer) (id : Z) (p : ppp_peer) : ppp_peer :=
  match state_of l p with
  | PPP_S_OPENED =>
    let p := on_fsm l (f_restarts 0) (tld l p) in
    restart_start l (set_state l PPP_S_STOPPING (sta l id p))
  | PPP_S_REQSENT | PPP_S_ACKRCVD | PPP_S_ACKSENT => set_state l PPP_S_REQSENT (sta l id p)
  | _ => sta l id p
  end.

Definition ev_rta (l : layer) (p : ppp_peer) : ppp_peer :=
  match state_of l p with
  | PPP_S_CLOSING => set_state l PPP_S_CLOSED (restart_stop l p)
  | PPP_S_STOPPING => set_state l PPP_S_STOPPED (restart_stop l p)
  | PPP_S_ACKRCVD => set_state l PPP_S_REQSENT p
  | PPP_S_OPENED => set_state l PPP_S_REQSENT (scr l true (tld l p))
  | _ => p
  end.

(** RXJ-: a rejected code or protocol. *)
Definition ev_rxj (l : layer) (p : ppp_peer) : ppp_peer :=
  let p := restart_stop l (set_state l PPP_S_STOPPED p) in
  match l with LCP => tld LCP p | IPCP => p end.

Definition ev_echo (l : layer) (id : Z) (data : list Z) (p : ppp_peer) : ppp_peer :=
  if negb (bool_decide (l = LCP)) || negb (bool_decide (state_of l p = PPP_S_OPENED)) then p
  else if blen data <? 4 then p else
  let n := if PPP_MRU_DEFAULT <? blen data then PPP_MRU_DEFAULT else blen data in
  let reply := be32 (our_magic p) ++ drop 4 (take (Z.to_nat n) data) in
  bump echo_replies 1 (send_cp l PPP_ECHO_REPLY id reply p).

(** ** Packets and frames *)

Definition cp_input (l : layer) (pkt : list Z) (p : ppp_peer) : ppp_peer :=
  if blen pkt <? 4 then p else
  let code := nth 0 pkt 0 in
  let id := nth 1 pkt 0 in
  let plen := Z.shiftl (nth 2 pkt 0) 8 .| nth 3 pkt 0 in
  if (plen <? 4) || (blen pkt <? plen) then p else
  let data := drop 4 (take (Z.to_nat plen) pkt) in
  if code =? PPP_CONF_REQ then ev_rcr l id data p
  else if code =? PPP_CONF_ACK then ev_rca l id p
  else if code =? PPP_CONF_NAK then
    ev_rcn l id (if id =? last_req_id (the_fsm l p) then apply_nak l data p else p)
  else if code =? PPP_CONF_REJ then
    ev_rcn l id (if id =? last_req_id (the_fsm l p) then apply_rej l data p else p)
  else if code =? PPP_TERM_REQ then ev_rtr l id p
  else if code =? PPP_TERM_ACK then ev_rta l p
  else if (code =? PPP_CODE_REJ) || (code =? PPP_PROTO_REJ) then ev_rxj l p
  else if code =? PPP_ECHO_REQ then ev_echo l id data p
  else if (code =? PPP_ECHO_REPLY) || (code =? PPP_DISCARD_REQ) then p
  else
    let p := bump unknown_codes 1 p in
    let rid := next_id (the_fsm l p) in
    let p := on_fsm l (fun f => f_next_id (w8 (next_id f + 1)) f) p in
    let n := if PPP_MRU_DEFAULT - 4 <? plen then PPP_MRU_DEFAULT - 4 else plen in
    send_cp l PPP_CODE_REJ rid (take (Z.to_nat n) pkt) p.

Section Input.
(** [p->ip_sink] with its context, when one is installed. *)
Context (ip_sink : option (list Z → ppp_peer → ppp_peer)).

Definition ip_input (info : list Z) (p : ppp_peer) : ppp_peer :=
  let p := bump ip_bytes_in (blen info) (bump ip_frames_in 1 p) in
  match ip_sink with
  | Some f => if bool_decide (st (ipcp p) = PPP_S_OPENED) then f info p else bump ip_frames_dropped 1 p
  | None => bump ip_frames_dropped 1 p
  end.

Definition unknown_proto (proto : Z) (info : list Z) (p : ppp_peer) : ppp_peer :=
  let p := bump unknown_protos 1 p in
  if bool_decide (st (lcp p) = PPP_S_OPENED) then
    let m := if PPP_MRU_DEFAULT - 2 <? blen info then PPP_MRU_DEFAULT - 2 else blen info in
    let rid := next_id (lcp p) in
    let p := on_fsm LCP (fun f => f_next_id (w8 (next_id f + 1)) f) p in
    send_cp LCP PPP_PROTO_REJ rid ([proto .>> 8; proto .& 0xff] ++ take (Z.to_nat m) info) p
  else p.

(** A frame whose protocol has been read. *)
Definition ppp_deliver (proto : Z) (info : list Z) (p : ppp_peer) : ppp_peer :=
  let p := bump frames_in 1 p in
  if proto =? PPP_PROTO_LCP then cp_input LCP info p
  else if proto =? PPP_PROTO_IPCP then cp_input IPCP info p
  else if proto =? PPP_PROTO_IP then ip_input info p
  else unknown_proto proto info p.

Definition frame_input (f : list Z) (p : ppp_peer) : ppp_peer :=
  if blen f <? 4 then bump short_frames 1 p
  else if negb (ppp_fcs16 PPP_FCS_INIT f =? PPP_FCS_GOOD) then bump fcs_errors 1 p
  else
    let f := take (length f - 2) f in
    let f := if (2 <=? blen f) && (nth 0 f 0 =? PPP_ALLSTATIONS) && (nth 1 f 0 =? PPP_UI)
             then drop 2 f else f in
    if blen f <? 1 then bump short_frames 1 p
    else if bit (nth 0 f 0) 0 then ppp_deliver (nth 0 f 0) (drop 1 f) p
    else if blen f <? 2 then bump short_frames 1 p
    else ppp_deliver (Z.shiftl (nth 0 f 0) 8 .| nth 1 f 0) (drop 2 f) p.

Definition ppp_input_byte (p : ppp_peer) (byte : Z) : ppp_peer :=
  let p := bump rx_bytes 1 p in
  let d := deframer p in
  if byte =? PPP_FLAG then
    let p :=
      if escaped d then bump aborts 1 p
      else if in_frame d && negb (blen (rxbuf d) =? 0) then
        if overlong d then bump long_frames 1 p else frame_input (rxbuf d) p
      else p in
    p_deframer (MkDeframer [] true false false) p
  else if negb (in_frame d) then p
  else if byte =? PPP_ESCAPE then p_deframer (MkDeframer (rxbuf d) (in_frame d) true (overlong d)) p
  else
    let byte := if escaped d then byte .^ PPP_TRANS else byte in
    if PPP_MAX_FRAME <=? blen (rxbuf d)
    then p_deframer (MkDeframer (rxbuf d) (in_frame d) false true) p
    else p_deframer (MkDeframer (rxbuf d ++ [byte]) (in_frame d) false (overlong d)) p.

Definition ppp_input (p : ppp_peer) (bytes : list Z) : ppp_peer := foldl ppp_input_byte p bytes.
End Input.

(** ** Timers *)

Definition restart_timeout (l : layer) (p : ppp_peer) : ppp_peer :=
  if restarts (the_fsm l p) =? 0 then
    let p := restart_stop l p in
    match state_of l p with
    | PPP_S_CLOSING => set_state l PPP_S_CLOSED p
    | PPP_S_STOPPING | PPP_S_REQSENT | PPP_S_ACKRCVD | PPP_S_ACKSENT => set_state l PPP_S_STOPPED p
    | _ => p
    end
  else
    match state_of l p with
    | PPP_S_CLOSING | PPP_S_STOPPING =>
      let p := send_cp l PPP_TERM_REQ (last_req_id (the_fsm l p)) [] p in
      restart_start l (on_fsm l (fun f => f_restarts (restarts f - 1) f) p)
    | PPP_S_REQSENT | PPP_S_ACKRCVD | PPP_S_ACKSENT => scr l false p
    | _ => restart_stop l p
    end.

Definition timer_due (l : layer) (now : Z) (p : ppp_peer) : bool :=
  timer_running (the_fsm l p) && (restart_at_ms (the_fsm l p) <=? now).

Definition ppp_tick (p : ppp_peer) (now : Z) : ppp_peer :=
  let now := w32 now in
  if now <? now_ms p then p else
  let p := p_now_ms now p in
  let p := if timer_due LCP now p then restart_timeout LCP p else p in
  if timer_due IPCP now p then restart_timeout IPCP p else p.

(** ** Administration *)

Definition ppp_config_default : ppp_config := MkConfig 0x0a000202 0x0a00020f 0x0a000203 0x0a000203 0x5335384c.

Definition fsm_zero : ppp_fsm := MkFsm PPP_S_INITIAL 1 0 0 0 0 0 false.

Definition ppp_init (config : option ppp_config) : ppp_peer :=
  let c := default ppp_config_default config in
  MkPeer c (fun _ => 0) fsm_zero fsm_zero false 0 (magic_number c)
    (MkRemote None 0xffffffff PPP_MRU_DEFAULT false false) 0 false 0xffffffff
    (MkDeframer [] false false false) (MkRing (fun _ => 0) 0 0).

Definition ppp_send_ip (p : ppp_peer) (pkt : list Z) : bool * ppp_peer :=
  if blen pkt =? 0 then (false, p)
  else if negb (bool_decide (st (ipcp p) = PPP_S_OPENED)) then (false, bump tx_overflows 1 p)
  else if peer_mru (remote p) <? blen pkt then (false, bump tx_overflows 1 p)
  else
    let before := stats p frames_out in
    let p := tx_frame p PPP_PROTO_IP pkt in
    if stats p frames_out =? before then (false, p)
    else (true, bump ip_bytes_out (blen pkt) (bump ip_frames_out 1 p)).

Definition ppp_open (p : ppp_peer) : ppp_peer :=
  if opened p then p else
  let p := p_opened true p in
  let p := on_fsm LCP (f_req_opts (PPP_REQ_LCP_MAGIC .| PPP_REQ_LCP_ASYNCMAP)) p in
  let p := irc LCP PPP_MAX_CONFIGURE p in
  scr LCP true (set_state LCP PPP_S_REQSENT p).

Definition ppp_close (p : ppp_peer) : ppp_peer :=
  let p := p_opened false p in
  let p := if bool_decide (st (lcp p) = PPP_S_OPENED) then tld LCP p else p in
  if bool_decide (st (lcp p) = PPP_S_INITIAL ∨ st (lcp p) = PPP_S_CLOSED)
  then set_state LCP PPP_S_CLOSED p
  else str_ LCP (set_state LCP PPP_S_CLOSING (irc LCP PPP_MAX_TERMINATE p)).

Definition ppp_phase (p : ppp_peer) : ppp_phase_t :=
  match st (lcp p), st (ipcp p) with
  | (PPP_S_CLOSING | PPP_S_STOPPING), _ => PPP_PHASE_TERMINATE
  | _, PPP_S_OPENED => PPP_PHASE_OPEN
  | PPP_S_OPENED, _ => PPP_PHASE_NETWORK
  | (PPP_S_INITIAL | PPP_S_CLOSED), _ => PPP_PHASE_DEAD
  | _, _ => PPP_PHASE_ESTABLISH
  end.
