(* ===== verification/PppFrame.v ===== *)
(** * Frames and the transmit ring

    What Ppp.v sends, Ppp.v receives: the check sequence, the escaping, the deframer and
    the ring are inverses of one another. *)

From S2P Require Import Prelude Bytes Ppp.

(** ** The check sequence *)

Lemma fcs_bit_uint x : uint 16 x → uint 16 (fcs_bit x).
Proof.
  intros H. unfold fcs_bit. pose proof (uint_shiftr 16 x 1 ltac:(lia) H).
  destruct (bit x 0); [| done]. apply uint_lxor; [lia | done | split; lia].
Qed.

Lemma fcs_byte_uint f d : uint 16 f → uint 8 d → uint 16 (fcs_byte f d).
Proof.
  intros Hf Hd. unfold fcs_byte.
  assert (uint 16 (f .^ d)) as H by (apply uint_lxor; [lia | done | by apply (uint_mono 8)]).
  revert H. generalize (f .^ d). clear. intros x Hx.
  apply Nat.iter_invariant; [intros; by apply fcs_bit_uint | done].
Qed.

Lemma ppp_fcs16_uint l : ∀ f, uint 16 f → is_bytes l → uint 16 (ppp_fcs16 f l).
Proof.
  induction l as [| d l IH]; intros f Hf Hl; [done |]. apply Forall_cons_iff in Hl as [Hd Hl].
  by apply IH; [apply fcs_byte_uint |].
Qed.

Lemma ppp_fcs16_app f a b : ppp_fcs16 f (a ++ b) = ppp_fcs16 (ppp_fcs16 f a) b.
Proof. apply foldl_app. Qed.

Lemma forallb_seqZ f n i : forallb f (seqZ 0 n) = true → 0 <= i < n → f i = true.
Proof. rewrite forallb_forall. intros H Hi. apply H, list_elem_of_In, elem_of_seqZ. lia. Qed.

(** The receiver's test: running the register over its own complement, low octet first,
    leaves the constant. *)
Lemma fcs_residue r : uint 16 r →
  ppp_fcs16 r [(r .^ 0xffff) .& 0xff; (r .^ 0xffff) .>> 8] = PPP_FCS_GOOD.
Proof.
  intros [H0 H1]. apply Z.eqb_eq.
  assert (forallb (fun h => forallb (fun l => let r := 256 * h + l in
      ppp_fcs16 r [(r .^ 0xffff) .& 0xff; (r .^ 0xffff) .>> 8] =? PPP_FCS_GOOD)
    (seqZ 0 256)) (seqZ 0 256) = true) as Hall by (by vm_compute).
  pose proof (Z.mod_pos_bound r 256 ltac:(lia)). change (2 ^ 16) with 65536 in H1.
  assert (0 <= r / 256 < 256) by (split; [by apply Z.div_pos | by apply Z.div_lt_upper_bound]).
  apply (forallb_seqZ _ _ (r / 256)) in Hall; [| done].
  apply (forallb_seqZ _ _ (r mod 256)) in Hall; [| done].
  cbv beta zeta in Hall. by rewrite <- Z.div_mod in Hall.
Qed.

(** ** Escaping *)

Lemma needs_escape_special c accm : needs_escape c accm = false → c ≠ PPP_FLAG ∧ c ≠ PPP_ESCAPE.
Proof.
  unfold needs_escape. destruct (Z.eqb_spec c PPP_FLAG), (Z.eqb_spec c PPP_ESCAPE); simpl; done.
Qed.

Lemma needs_escape_trans c accm : uint 8 c → needs_escape c accm = true →
  c .^ PPP_TRANS ≠ PPP_FLAG ∧ c .^ PPP_TRANS ≠ PPP_ESCAPE ∧ (c .^ PPP_TRANS) .^ PPP_TRANS = c.
Proof.
  intros [H0 H1] Hn. split_and!; [| | by rewrite Z.lxor_assoc, Z.lxor_nilpotent, Z.lxor_0_r].
  all: intros E; apply (f_equal (fun x => x .^ PPP_TRANS)) in E;
    rewrite Z.lxor_assoc, Z.lxor_nilpotent, Z.lxor_0_r in E; rewrite E in Hn; by vm_compute in Hn.
Qed.

(** The deframer between octets of a frame, [buf] received so far. *)
Definition receiving (buf : list Z) (p : ppp_peer) : ppp_peer := p_deframer (MkDeframer buf true false false) p.
Definition count_rx (n : nat) (p : ppp_peer) : ppp_peer := Nat.iter n (bump rx_bytes 1) p.

Lemma count_rx_receiving n buf p : count_rx n (receiving buf p) = receiving buf (count_rx n p).
Proof. induction n as [| n IH]; simpl; [done |]. by rewrite IH. Qed.

Lemma count_rx_stats n p : ∃ s, count_rx n p = p_stats s p.
Proof.
  induction n as [| n [s IH]]; [exists (stats p); by destruct p |].
  change (count_rx (S n) p) with (bump rx_bytes 1 (count_rx n p)). rewrite IH. by eexists.
Qed.

Section Deframe.
Context (sink : option (list Z → ppp_peer → ppp_peer)).

Lemma input_plain p buf c : c ≠ PPP_FLAG → c ≠ PPP_ESCAPE → blen buf < PPP_MAX_FRAME →
  ppp_input_byte sink (receiving buf p) c = receiving (buf ++ [c]) (bump rx_bytes 1 p).
Proof.
  intros H1 H2 Hl. unfold ppp_input_byte. simpl.
  rewrite (proj2 (Z.eqb_neq c PPP_FLAG)), (proj2 (Z.eqb_neq c PPP_ESCAPE)) by done.
  by rewrite (proj2 (Z.leb_gt PPP_MAX_FRAME (blen buf))) by done.
Qed.

Lemma input_escaped p buf c : c .^ PPP_TRANS ≠ PPP_FLAG → c .^ PPP_TRANS ≠ PPP_ESCAPE →
  (c .^ PPP_TRANS) .^ PPP_TRANS = c → blen buf < PPP_MAX_FRAME →
  ppp_input_byte sink (ppp_input_byte sink (receiving buf p) PPP_ESCAPE) (c .^ PPP_TRANS)
    = receiving (buf ++ [c]) (count_rx 2 p).
Proof.
  intros H1 H2 H3 Hl. unfold ppp_input_byte at 2. simpl. unfold ppp_input_byte. simpl.
  rewrite (proj2 (Z.eqb_neq (c .^ PPP_TRANS) PPP_FLAG)), (proj2 (Z.eqb_neq (c .^ PPP_TRANS) PPP_ESCAPE)) by done.
  by rewrite (proj2 (Z.leb_gt PPP_MAX_FRAME (blen buf))), H3 by done.
Qed.

Lemma ppp_input_app a b p : ppp_input sink p (a ++ b) = ppp_input sink (ppp_input sink p a) b.
Proof. apply foldl_app. Qed.

Lemma ppp_input_one b p : ppp_input sink p [b] = ppp_input_byte sink p b.
Proof. done. Qed.

Lemma count_rx_app {A} (a b : list A) p :
  count_rx (length (a ++ b)) p = count_rx (length b) (count_rx (length a) p).
Proof. unfold count_rx. by rewrite length_app, Nat.add_comm, Nat.iter_add. Qed.

Lemma input_escape_byte accm c p buf : uint 8 c → blen buf < PPP_MAX_FRAME →
  ppp_input sink (receiving buf p) (escape_byte accm c)
    = receiving (buf ++ [c]) (count_rx (length (escape_byte accm c)) p).
Proof.
  intros Hc Hl. unfold escape_byte. destruct (needs_escape c accm) eqn:E.
  - destruct (needs_escape_trans c accm Hc E) as (H1 & H2 & H3). by apply input_escaped.
  - destruct (needs_escape_special c accm E). by apply input_plain.
Qed.

(** Escaped octets arrive as they were. *)
Lemma input_escape accm l : ∀ p buf, is_bytes l → blen buf + blen l <= PPP_MAX_FRAME →
  ppp_input sink (receiving buf p) (flat_map (escape_byte accm) l)
    = receiving (buf ++ l) (count_rx (length (flat_map (escape_byte accm) l)) p).
Proof.
  induction l as [| c l IH]; intros p buf Hb Hl.
  { simpl. by rewrite app_nil_r. }
  apply Forall_cons_iff in Hb as [Hc Hb]. rewrite (blen_app [c] l : blen (c :: l) = _) in Hl.
  change (blen [c]) with 1 in Hl. assert (0 <= blen l) by (unfold blen; lia).
  cbn [flat_map]. rewrite ppp_input_app, input_escape_byte by (done || lia).
  rewrite IH, count_rx_app, <- app_assoc; [done.. |].
  rewrite blen_app. change (blen [c]) with 1. lia.
Qed.

(** The opening flag. *)
Lemma input_flag p : escaped (deframer p) = false →
  (in_frame (deframer p) = true → rxbuf (deframer p) = []) →
  ppp_input_byte sink p PPP_FLAG = receiving [] (count_rx 1 p).
Proof.
  intros He Hr. unfold ppp_input_byte. simpl. rewrite He.
  destruct (in_frame (deframer p)); simpl; [by rewrite Hr | done].
Qed.

(** The closing one. *)
Lemma input_close p buf : buf ≠ [] →
  ppp_input_byte sink (receiving buf p) PPP_FLAG
    = receiving [] (frame_input sink buf (receiving buf (count_rx 1 p))).
Proof.
  intros Hb. unfold ppp_input_byte. simpl.
  destruct (Z.eqb_spec (blen buf) 0); [| done]. destruct buf; [done | unfold blen in *; simpl in *; lia].
Qed.
End Deframe.

(** ** What [ppp_frame] writes *)

Definition body (proto : Z) (info : list Z) : list Z :=
  frame_header proto ++ info ++ [frame_fcs proto info .& 0xff; frame_fcs proto info .>> 8].

Lemma emit_all cap accm l : ∀ out, blen out <= cap →
  foldl (ppp_emit cap accm) (Some out) l
    = (if cap <? blen out + blen (flat_map (escape_byte accm) l) then None
       else Some (out ++ flat_map (escape_byte accm) l)).
Proof.
  assert (∀ l, foldl (ppp_emit cap accm) None l = None) as Hn by (intros k; by induction k).
  induction l as [| c l IH]; intros out Ho; cbn [foldl flat_map].
  { rewrite app_nil_r. change (blen []) with 0. by rewrite (proj2 (Z.ltb_ge _ _)) by lia. }
  unfold ppp_emit at 2. simpl mbind. rewrite blen_app.
  assert (0 <= blen (flat_map (escape_byte accm) l)) by (unfold blen; lia).
  destruct (Z.ltb_spec cap (blen out + blen (escape_byte accm c))).
  - by rewrite Hn, (proj2 (Z.ltb_lt _ _)) by lia.
  - rewrite IH, blen_app, <- app_assoc, Z.add_assoc by (rewrite blen_app; lia). done.
Qed.

(** The frame a buffer of [cap] octets gets, if it fits. *)
Definition wire (proto : Z) (info : list Z) (accm : Z) : list Z :=
  [PPP_FLAG] ++ flat_map (escape_byte accm) (body proto info) ++ [PPP_FLAG].

Lemma ppp_frame_shape proto info accm cap :
  ppp_frame proto info accm cap
    = (if (PPP_MRU_DEFAULT <? blen info) || (cap <? blen (wire proto info accm)) then None
       else Some (wire proto info accm)).
Proof.
  unfold ppp_frame. destruct (PPP_MRU_DEFAULT <? blen info); [done |]. cbn [orb].
  unfold wire. rewrite !blen_app. change (blen [PPP_FLAG]) with 1.
  fold (frame_fcs proto info). fold (body proto info).
  set (e := flat_map _ _). assert (0 <= blen e) by (unfold blen; lia).
  destruct (Z.ltb_spec cap 1). { by rewrite (proj2 (Z.ltb_lt _ _)) by lia. }
  rewrite emit_all by done. fold e. change (blen [PPP_FLAG]) with 1.
  destruct (Z.ltb_spec cap (1 + blen e)).
  { cbv [mbind option_bind]. by rewrite (proj2 (Z.ltb_lt _ _)) by lia. }
  cbv [mbind option_bind]. rewrite blen_app. change (blen [PPP_FLAG]) with 1.
  rewrite (Z.add_assoc 1), <- app_assoc. done.
Qed.

Lemma escape_byte_length accm c : blen (escape_byte accm c) <= 2.
Proof. unfold escape_byte. by case_match. Qed.

Lemma flat_map_escape_length accm l : blen (flat_map (escape_byte accm) l) <= 2 * blen l.
Proof.
  induction l as [| c l IH]; [done |]. cbn [flat_map]. rewrite blen_app.
  pose proof (escape_byte_length accm c). unfold blen in *. simpl length. lia.
Qed.

(** The ring always has a frame's worth of room to build one in. *)
Lemma wire_length proto info accm : blen info <= PPP_MRU_DEFAULT →
  blen (wire proto info accm) <= 2 * PPP_MAX_FRAME + 2.
Proof.
  intros H. unfold wire. rewrite !blen_app. change (blen [PPP_FLAG]) with 1.
  pose proof (flat_map_escape_length accm (body proto info)) as Hl.
  unfold body in *. rewrite !blen_app in Hl. change (blen (frame_header proto)) with 4 in Hl.
  change (blen [frame_fcs proto info .& 0xff; frame_fcs proto info .>> 8]) with 2 in Hl.
  unfold PPP_MAX_FRAME. lia.
Qed.

Lemma uint16_high x : uint 16 x → uint 8 (x .>> 8).
Proof.
  intros H. split; [by apply (uint_shiftr 16); [lia |] |].
  rewrite Z.shiftr_div_pow2 by lia. apply Z.div_lt_upper_bound; [lia |]. apply H.
Qed.

Lemma uint16_low x : uint 8 (x .& 0xff).
Proof. apply uint_land_r; [lia | split; lia]. Qed.

Lemma high_low x : 0 <= x → Z.shiftl (x .>> 8) 8 .| (x .& 0xff) = x.
Proof.
  intros Hx. apply Z.bits_inj'. intros i Hi. change 0xff with (Z.ones 8).
  rewrite Z.lor_spec, Z.shiftl_spec, Z.land_spec, Z.testbit_ones_nonneg by lia.
  destruct (Z.ltb_spec i 8).
  - rewrite (Z.testbit_neg_r _ (i - 8)) by lia. by rewrite andb_true_r.
  - rewrite Z.shiftr_spec by lia. replace (i - 8 + 8) with i by lia. by rewrite andb_false_r, orb_false_r.
Qed.

Lemma frame_header_bytes proto : uint 16 proto → is_bytes (frame_header proto).
Proof.
  intros H. constructor; [by_computation |]. constructor; [by_computation |].
  constructor; [by apply uint16_high |]. constructor; [apply uint16_low | constructor].
Qed.

Lemma body_bytes proto info : uint 16 proto → is_bytes info → is_bytes (body proto info).
Proof.
  intros Hp Hi.
  pose proof (frame_header_bytes proto Hp).
  assert (uint 16 (frame_fcs proto info)).
  { apply uint_lxor; [lia | | split; lia]. apply ppp_fcs16_uint; [| done].
    apply ppp_fcs16_uint; [by_computation | done]. }
  unfold body. apply Forall_app. split; [done |]. apply Forall_app. split; [done |].
  repeat apply Forall_cons_2; try apply Forall_nil_2; eauto using uint16_high, uint16_low.
Qed.

Lemma body_fcs proto info : uint 16 proto → is_bytes info →
  ppp_fcs16 PPP_FCS_INIT (body proto info) = PPP_FCS_GOOD.
Proof.
  intros Hp Hi. unfold body. rewrite !ppp_fcs16_app. unfold frame_fcs. apply fcs_residue.
  apply ppp_fcs16_uint; [| done]. apply ppp_fcs16_uint; [by_computation | by apply frame_header_bytes].
Qed.

(** An intact frame is delivered under the protocol it was sent with. *)
Lemma frame_input_body sink proto info p : uint 16 proto → bit proto 8 = false → is_bytes info →
  frame_input sink (body proto info) p = ppp_deliver sink proto info p.
Proof.
  intros Hp Hb Hi. unfold frame_input. rewrite body_fcs, Z.eqb_refl by done. cbn [negb].
  assert (take (length (body proto info) - 2) (body proto info) = frame_header proto ++ info) as ->.
  { unfold body. rewrite app_assoc, length_app. simpl (length [_; _]).
    by rewrite Nat.add_sub, take_app_length. }
  rewrite (proj2 (Z.ltb_ge _ _)) by (unfold body; rewrite !blen_app; unfold blen; simpl; lia).
  rewrite (proj2 (Z.leb_le _ _)) by (rewrite blen_app; unfold blen; simpl; lia).
  cbn [frame_header app nth drop andb]. rewrite !Z.eqb_refl. cbn [andb].
  rewrite !(proj2 (Z.ltb_ge _ _)) by (unfold blen; simpl length; lia).
  cbn [nth drop].
  assert (bit (proto .>> 8) 0 = false) as -> by (unfold bit in *; by rewrite Z.shiftr_spec).
  by rewrite high_low by apply Hp.
Qed.

(** The deframer is between frames: nothing assembled, no escape pending. *)
Definition between_frames (p : ppp_peer) : Prop :=
  escaped (deframer p) = false ∧ (in_frame (deframer p) = true → rxbuf (deframer p) = []).

(** Feeding the octets [ppp_frame] produced, in one call or in several, delivers the
    datagram that was framed. *)
Lemma frame_delivered sink proto info accm cap fr p : uint 16 proto → bit proto 8 = false → is_bytes info →
  between_frames p → ppp_frame proto info accm cap = Some fr →
  ppp_input sink p fr
    = receiving [] (ppp_deliver sink proto info (receiving (body proto info) (count_rx (length fr) p))).
Proof.
  intros Hp Hb Hi [He Hr]. rewrite ppp_frame_shape. destruct (Z.ltb_spec PPP_MRU_DEFAULT (blen info)); [done |].
  cbn [orb]. case_match; [done |]. intros [= <-]. unfold wire. set (e := flat_map _ _).
  rewrite !ppp_input_app. rewrite !ppp_input_one.
  rewrite (input_flag sink p) by done.
  unfold e. rewrite input_escape; cycle 1.
  { by apply body_bytes. }
  { unfold body. rewrite !blen_app. unfold PPP_MAX_FRAME, blen in *. simpl. lia. }
  fold e. rewrite app_nil_l.
  rewrite input_close by done. rewrite frame_input_body by done.
  rewrite (count_rx_app [PPP_FLAG]), (count_rx_app e). done.
Qed.

(** ** The ring is a queue

    The indices are 32-bit counters reduced modulo the size of the ring, and 2^32 is not
    a multiple of it: octets either side of a counter's wrap share slots once they are
    more than 41408 apart. *)

Definition slot (c i : Z) : Z := (c +w i) mod PPP_TX_RING.
Definition WRAP_SPAN := 2 ^ 32 mod PPP_TX_RING.

(** [n] octets from counter [c] on occupy distinct slots. *)
Definition fits_ring (c n : Z) : Prop :=
  n <= PPP_TX_RING ∧ (c + n <= 2 ^ 32 ∨ n <= WRAP_SPAN).

Lemma slot_distinct c n i j : uint 32 c → fits_ring c n → 0 <= i < j → j < n → slot c i ≠ slot c j.
Proof.
  intros [H0 H1] [Hn Hw] Hi Hj. unfold slot, w32, wrap.
  assert (PPP_TX_RING = 96448) as HR by done. assert (WRAP_SPAN = 41408) as HW by done.
  rewrite HR, HW in *. change (2 ^ 32) with 4294967296 in *. Z.to_euclidean_division_equations. lia.
Qed.

(** The octets queued, oldest first. *)
Definition tx_pending (p : ppp_peer) : list Z :=
  (fun i => tx (ring p) (slot (tx_tail (ring p)) i)) <$> seqZ 0 (tx_used p).

Definition ring_ok (p : ppp_peer) : Prop := uint 32 (tx_head (ring p)) ∧ uint 32 (tx_tail (ring p)).

Lemma slot_used p i : ring_ok p → slot (tx_tail (ring p)) (tx_used p + i) = slot (tx_head (ring p)) i.
Proof.
  intros [Hh Ht]. unfold slot, tx_used. f_equal. unfold w32.
  rewrite Z.add_comm, <- Z.add_assoc, wrap_add_l. f_equal. lia.
Qed.

Definition put_from (k : Z) (t : Z → Z) (head : Z) (enc : list Z) : Z → Z :=
  snd (foldl (fun '(i, t) b => (i + 1, <[(head +w i) mod PPP_TX_RING := b]> t)) (k, t) enc).

Lemma put_from_cons k t head b enc :
  put_from k t head (b :: enc) = put_from (k + 1) (<[slot head k := b]> t) head enc.
Proof. done. Qed.

Lemma put_from_other enc : ∀ k t head x,
  (∀ i, k <= i < k + blen enc → x ≠ slot head i) → put_from k t head enc x = t x.
Proof.
  induction enc as [| b enc IH]; intros k t head x Hx; [done |].
  assert (blen (b :: enc) = 1 + blen enc) as Hl by (unfold blen; simpl length; lia).
  assert (0 <= blen enc) by (unfold blen; lia).
  rewrite put_from_cons, IH by (intros; apply Hx; lia).
  apply fn_lookup_insert_ne. intros E. apply (Hx k); [lia | done].
Qed.

Lemma put_from_at enc : ∀ k t head j b,
  (∀ i i', k <= i < i' → i' < k + blen enc → slot head i ≠ slot head i') →
  enc !! j = Some b → put_from k t head enc (slot head (k + Z.of_nat j)) = b.
Proof.
  induction enc as [| c enc IH]; intros k t head j b Hd Hj; [done |].
  assert (blen (c :: enc) = 1 + blen enc) as Hl by (unfold blen; simpl length; lia).
  rewrite put_from_cons. destruct j as [| j]; simpl in Hj.
  - injection Hj as ->. rewrite Z.add_0_r, put_from_other; [apply fn_lookup_insert |].
    intros i Hi. apply Hd; lia.
  - replace (k + Z.of_nat (S j)) with (k + 1 + Z.of_nat j) by lia. apply IH; [| done].
    intros; apply Hd; lia.
Qed.

(** A frame queued goes behind what is pending and disturbs none of it. *)
Lemma ring_put_pending p enc : ring_ok p → fits_ring (tx_tail (ring p)) (tx_used p + blen enc) →
  let g := ring p in
  (fun i => ring_put (tx g) (tx_head g) enc (slot (tx_tail g) i)) <$> seqZ 0 (tx_used p + blen enc)
    = tx_pending p ++ enc.
Proof.
  intros Hok Hf g. assert (0 <= tx_used p) as Hu by apply uint_w32. assert (0 <= blen enc) by (unfold blen; lia).
  rewrite seqZ_app, fmap_app by done. f_equal.
  - apply list_fmap_ext. intros k i Hi. apply lookup_seqZ in Hi as [-> Hi].
    apply (put_from_other enc 0). intros j Hj. unfold g. rewrite <- (slot_used p j) by done.
    eapply slot_distinct; [apply Hok | exact Hf | lia | lia].
  - apply list_eq. intros k. rewrite list_lookup_fmap. destruct (enc !! k) as [b |] eqn:E.
    + pose proof (lookup_lt_Some _ _ _ E). rewrite lookup_seqZ_lt by (unfold blen; lia).
      simpl. f_equal. rewrite Z.add_0_l. unfold g. rewrite slot_used by done.
      apply (put_from_at enc 0 _ _ k b); [| done]. intros i i' Hi Hi'.
      rewrite <- !slot_used by done. eapply slot_distinct; [apply Hok | exact Hf | lia | lia].
    + apply lookup_ge_None in E. rewrite lookup_seqZ_ge; [done | unfold blen; lia].
Qed.

Lemma tx_used_put p n : ring_ok p → 0 <= n → tx_used p + n <= PPP_TX_RING →
  (tx_head (ring p) +w n) -w tx_tail (ring p) = tx_used p + n.
Proof.
  intros Hok Hn Hf. unfold tx_used in *. rewrite <- Z.add_opp_r. unfold w32. rewrite wrap_add_l.
  rewrite <- (w32_small (wrap 32 _ + n)).
  - unfold w32. rewrite (wrap_add_l 32 (tx_head _ - _)). f_equal. lia.
  - pose proof (uint_w32 (tx_head (ring p) - tx_tail (ring p))) as [? ?]. unfold w32 in *.
    split; [lia |]. eapply Z.le_lt_trans; [exact Hf | done].
Qed.

Definition room_for (p : ppp_peer) (n : Z) : Prop :=
  ring_ok p ∧ fits_ring (tx_tail (ring p)) (tx_used p + n).

Lemma tx_frame_queues p proto info enc : let p' := tx_frame p proto info in
  ppp_frame proto info (tx_accm p) (2 * PPP_MAX_FRAME + 2) = Some enc → room_for p (blen enc) →
  tx_pending p' = tx_pending p ++ enc ∧ ring_ok p' ∧ tx_tail (ring p') = tx_tail (ring p)
  ∧ stats p' frames_out = w64 (stats p frames_out + 1).
Proof.
  intros p' He [Hok Hf]. assert (0 <= tx_used p) as Hu by apply uint_w32.
  assert (0 <= blen enc) by (unfold blen; lia). assert (tx_used p + blen enc <= PPP_TX_RING) as Hr by apply Hf.
  assert (blen enc <= w64 (PPP_TX_RING - tx_used p)) as Hw.
  { unfold w64. rewrite wrap_small; [lia |]. split; [lia |].
    eapply Z.le_lt_trans; [| exact (eq_refl : (96448 ?= 2 ^ 64) = Lt)].
    assert (PPP_TX_RING = 96448) by done. lia. }
  unfold p', tx_frame. rewrite He, (proj2 (Z.ltb_ge _ _)) by done. split; [| split; [split |]].
  - unfold tx_pending at 1, tx_used. cbn [ring bump p_stats p_ring tx tx_head tx_tail].
    rewrite tx_used_put by done. by apply ring_put_pending.
  - apply uint_w32.
  - apply Hok.
  - split; [done |]. unfold bump. cbn [stats p_stats p_ring].
    rewrite fn_lookup_insert_ne, fn_lookup_insert by done. done.
Qed.

Lemma output_byte_pending p : ring_ok p →
  match tx_pending p with
  | [] => ppp_output_byte p = (None, p)
  | b :: rest => ∃ p', ppp_output_byte p = (Some b, p') ∧ tx_pending p' = rest ∧ ring_ok p'
  end.
Proof.
  intros Hok. pose proof Hok as [Hh Ht]. unfold ppp_output_byte.
  destruct (Z.eqb_spec (tx_head (ring p)) (tx_tail (ring p))) as [E | E].
  { unfold tx_pending, tx_used. by rewrite E, Z.sub_diag. }
  assert (0 < tx_used p).
  { unfold tx_used, w32, wrap. destruct Hh, Ht. change (2 ^ 32) with 4294967296 in *.
    Z.to_euclidean_division_equations. lia. }
  unfold tx_pending at 1. rewrite seqZ_cons by done. cbn [fmap list_fmap]. eexists. split; [| split].
  - do 2 f_equal. unfold slot. by rewrite Z.add_0_r, w32_small.
  - unfold tx_pending. cbn [ring p_ring tx tx_tail].
    assert (tx_used (p_ring (MkRing (tx (ring p)) (tx_head (ring p)) (tx_tail (ring p) +w 1)) p)
      = Z.pred (tx_used p)) as ->.
    { unfold tx_used, w32, wrap in *. cbn [ring p_ring tx_head tx_tail]. destruct Hh, Ht.
      change (2 ^ 32) with 4294967296 in *. Z.to_euclidean_division_equations. lia. }
    change (Z.succ 0) with (1 + 0). rewrite <- fmap_add_seqZ, <- list_fmap_compose.
    apply list_fmap_ext. intros k i _. cbn. f_equal. unfold slot. f_equal. unfold w32.
    rewrite wrap_add_l. f_equal. lia.
  - split; [done | apply uint_w32].
Qed.

(** Octets leave in the order they were queued. *)
Lemma output_pending cap : ∀ p, ring_ok p →
  ∃ p', ppp_output cap p = (take cap (tx_pending p), p') ∧ tx_pending p' = drop cap (tx_pending p) ∧ ring_ok p'.
Proof.
  induction cap as [| cap IH]; intros p Hok; cbn [ppp_output].
  { exists p. by rewrite take_0, drop_0. }
  pose proof (output_byte_pending p Hok) as Hb. destruct (tx_pending p) as [| b rest] eqn:E.
  - rewrite Hb. exists p. done.
  - destruct Hb as (p1 & -> & Hp & Hok1). destruct (IH p1 Hok1) as (p2 & -> & H2 & Hok2).
    exists p2. rewrite Hp in *. done.
Qed.

(** C37: A datagram accepted by one peer reaches the sink of a peer at the other end of the
    line, octet for octet. *)
Theorem ppp_link_delivers (a b : ppp_peer) (f : list Z → ppp_peer → ppp_peer) (pkt : list Z) (cap : nat)
    (Hpkt : is_bytes pkt) (Hne : pkt ≠ [])
    (Ha : st (ipcp a) = PPP_S_OPENED) (Hmru : blen pkt <= peer_mru (remote a) <= PPP_MRU_DEFAULT)
    (Hroom : room_for a (2 * PPP_MAX_FRAME + 2)) (Hidle : tx_pending a = [])
    (Hcap : 2 * PPP_MAX_FRAME + 2 <= Z.of_nat cap)
    (Hb : st (ipcp b) = PPP_S_OPENED) (Hrx : between_frames b) :
  ∃ a1 a2 line b1, ppp_send_ip a pkt = (true, a1) ∧ ppp_output cap a1 = (line, a2)
    ∧ tx_pending a2 = [] ∧ ppp_input (Some f) b line = receiving [] (f pkt b1)
    ∧ cfg b1 = cfg b ∧ lcp b1 = lcp b ∧ ipcp b1 = ipcp b ∧ ring b1 = ring b.
Proof.
  set (enc := wire PPP_PROTO_IP pkt (tx_accm a)).
  pose proof (wire_length PPP_PROTO_IP pkt (tx_accm a) ltac:(lia)) as Hl. fold enc in Hl.
  assert (ppp_frame PPP_PROTO_IP pkt (tx_accm a) (2 * PPP_MAX_FRAME + 2) = Some enc) as He.
  { rewrite ppp_frame_shape. fold enc. rewrite (proj2 (Z.ltb_ge PPP_MRU_DEFAULT _)) by lia. cbn [orb].
    by rewrite (proj2 (Z.ltb_ge _ (blen enc))) by lia. }
  pose proof (frame_delivered (Some f) PPP_PROTO_IP pkt _ _ enc b
    ltac:(by_computation) ltac:(reflexivity) Hpkt Hrx He) as HD. clearbody enc.
  destruct (count_rx_stats (length enc) b) as [s Hs]. rewrite Hs in HD.
  assert (room_for a (blen enc)) as Hr.
  { destruct Hroom as [? [? ?]]. split; [done |]. split; lia. }
  destruct (tx_frame_queues a PPP_PROTO_IP pkt enc He Hr) as (Hp & Hok & _ & Hst).
  rewrite Hidle in Hp. simpl in Hp.
  set (a1 := bump ip_bytes_out (blen pkt) (bump ip_frames_out 1 (tx_frame a PPP_PROTO_IP pkt))).
  destruct (output_pending cap a1 Hok) as (a2 & Ho & Hp2 & _).
  change (tx_pending a1) with (tx_pending (tx_frame a PPP_PROTO_IP pkt)) in Ho, Hp2. rewrite Hp in Ho, Hp2.
  rewrite take_ge in Ho by (unfold blen in *; lia). rewrite drop_ge in Hp2 by (unfold blen in *; lia).
  do 4 eexists. split; [| split; [exact Ho | split; [exact Hp2 | split]]].
  - unfold ppp_send_ip. rewrite (proj2 (Z.eqb_neq (blen pkt) 0)) by (destruct pkt; [done | unfold blen; simpl; lia]).
    rewrite bool_decide_eq_true_2 by done. cbn [negb].
    rewrite (proj2 (Z.ltb_ge _ _)) by lia. rewrite Hst.
    rewrite (proj2 (Z.eqb_neq _ _)); [done |]. unfold w64, wrap. change (2 ^ 64) with 18446744073709551616.
    Z.to_euclidean_division_equations. lia.
  - rewrite HD. unfold ppp_deliver. cbn [Z.eqb PPP_PROTO_IP PPP_PROTO_LCP PPP_PROTO_IPCP Pos.eqb].
    unfold ip_input. rewrite bool_decide_eq_true_2 by exact Hb. reflexivity.
  - done.
Qed.

(** The witness and the wrap. *)
Definition linked_peer : ppp_peer :=
  set_state LCP PPP_S_OPENED (set_state IPCP PPP_S_OPENED (ppp_init None)).

Lemma ppp_link_delivers_witness : ∃ a1 a2 line b1,
  ppp_send_ip linked_peer [0x45; 0x7e; 0x7d; 0x03] = (true, a1) ∧ ppp_output 3100 a1 = (line, a2)
    ∧ tx_pending a2 = [] ∧ ppp_input (Some (fun _ => id)) linked_peer line = receiving [] b1
    ∧ cfg b1 = cfg linked_peer ∧ lcp b1 = lcp linked_peer ∧ ipcp b1 = ipcp linked_peer
    ∧ ring b1 = ring linked_peer.
Proof.
  apply (ppp_link_delivers linked_peer linked_peer (fun _ => id) [0x45; 0x7e; 0x7d; 0x03] 3100).
  - by_computation.
  - done.
  - reflexivity.
  - by_computation.
  - split; [split; by_computation | split; [by_computation |]]. left. by_computation.
  - reflexivity.
  - by_computation.
  - reflexivity.
  - split; [reflexivity | done].
Defined.

(** Where the counters wrap, a frame that fits overwrites octets still queued: 2^32 is
    not a multiple of the ring's size. *)
Lemma ring_wrap_overwrites p proto info enc : tx_tail (ring p) = 2 ^ 32 - WRAP_SPAN → tx_head (ring p) = 0 →
  ppp_frame proto info (tx_accm p) (2 * PPP_MAX_FRAME + 2) = Some enc →
  let p' := tx_frame p proto info in
  stats p' frames_out = w64 (stats p frames_out + 1) ∧ fst (ppp_output_byte p') = Some PPP_FLAG.
Proof.
  intros Ht Hh He. assert (∃ rest, enc = PPP_FLAG :: rest ∧ blen enc <= 2 * PPP_MAX_FRAME + 2) as (rest & -> & Hl).
  { rewrite ppp_frame_shape in He. destruct (Z.ltb_spec PPP_MRU_DEFAULT (blen info)); [done |].
    cbn [orb] in He. case_match; [done |]. injection He as <-. eexists. split; [done | by apply wire_length]. }
  unfold tx_frame. rewrite He. assert (w64 (PPP_TX_RING - tx_used p) = PPP_TX_RING - WRAP_SPAN) as ->.
  { unfold tx_used. by rewrite Ht, Hh. }
  rewrite (proj2 (Z.ltb_ge _ _)) by (eapply Z.le_trans; [exact Hl | done]). split.
  { unfold bump. cbn [stats p_stats p_ring]. rewrite fn_lookup_insert_ne, fn_lookup_insert by done. done. }
  unfold ppp_output_byte. cbn [ring bump p_stats p_ring tx tx_head tx_tail]. rewrite Ht, Hh.
  rewrite (proj2 (Z.eqb_neq _ _)).
  - cbn [fst]. f_equal. change ((2 ^ 32 - WRAP_SPAN) mod PPP_TX_RING) with (slot 0 0).
    change (ring_put (tx (ring p)) 0 (PPP_FLAG :: rest)) with (put_from 0 (tx (ring p)) 0 (PPP_FLAG :: rest)).
    apply (put_from_at (PPP_FLAG :: rest) 0 (tx (ring p)) 0 0); [| done].
    intros i i' Hi Hi'. apply (slot_distinct 0 (blen (PPP_FLAG :: rest))); [by_computation | | lia | lia].
    assert (2 * PPP_MAX_FRAME + 2 = 3014) by done. assert (WRAP_SPAN = 41408) by done.
    split; [eapply Z.le_trans; [exact Hl | done] | right; lia].
  - unfold w32, wrap. assert (2 * PPP_MAX_FRAME + 2 = 3014) by done. assert (WRAP_SPAN = 41408) by done.
    assert (0 <= blen (PPP_FLAG :: rest)) by (unfold blen; lia). rewrite Z.mod_small; change (2 ^ 32) with 4294967296; lia.
Qed.
