(* ===== verification/PppFsm.v ===== *)
(** * The PPP automaton over time

    Ppp.v as a transition system: its invariant, by induction over everything a caller
    may do; that a link whose far end falls silent settles; and its agreement with the
    state table of RFC 1661, section 4.1. *)

From S2P Require Import Prelude Bytes Ppp PppFrame.

(** ** What is invariant *)

(** The states in which the automaton waits for an answer. *)
Definition waiting (s : ppp_state) : bool :=
  match s with
  | PPP_S_CLOSING | PPP_S_STOPPING | PPP_S_REQSENT | PPP_S_ACKRCVD | PPP_S_ACKSENT => true
  | _ => false
  end.

(** Whoever waits has a timer running, and it expires within one period. *)
Record fsm_ok (now : Z) (f : ppp_fsm) : Prop := {
  fsm_restarts : 0 <= restarts f <= PPP_MAX_CONFIGURE;
  fsm_failures : 0 <= failures f <= PPP_MAX_FAILURE;
  fsm_timer : waiting (st f) = true → timer_running f = true;
  fsm_expiry : timer_running f = true → restart_at_ms f <= now + PPP_RESTART_MS }.

Definition mru_ok (m : ppp_remote) : Prop := 0 <= peer_mru m <= PPP_MRU_DEFAULT.

(** [ip] is the address configured for the guest. *)
Record ppp_inv (ip : Z) (p : ppp_peer) : Prop := {
  inv_now : 0 <= now_ms p;
  inv_clock : now_ms p < 2 ^ 32;
  inv_ring : ring_ok p;
  inv_rxbuf : is_bytes (rxbuf (deframer p)) ∧ blen (rxbuf (deframer p)) <= PPP_MAX_FRAME;
  inv_lcp : fsm_ok (now_ms p) (lcp p);
  inv_ipcp : fsm_ok (now_ms p) (ipcp p);
  inv_mru : mru_ok (remote p);
  inv_cfg : remote_ip (cfg p) = ip;
  inv_accm : tx_accm p = 0xffffffff;
  inv_assigned : st (ipcp p) = PPP_S_OPENED → assigned p = true ∧ assigned_ip p = ip }.

(** ** What the parts of an event change *)

Definition ring_step (g g' : ppp_ring) : Prop :=
  uint 32 (tx_head g) ∧ uint 32 (tx_tail g) → uint 32 (tx_head g') ∧ uint 32 (tx_tail g').

Lemma tx_frame_spec p proto info : ∃ s r, tx_frame p proto info = p_stats s (p_ring r p) ∧ ring_step (ring p) r.
Proof.
  assert (∀ s, ∃ s' r, p_stats s p = p_stats s' (p_ring r p) ∧ ring_step (ring p) r) as H0.
  { intros s. exists s, (ring p). split; [by destruct p | unfold ring_step; tauto]. }
  unfold tx_frame. destruct (ppp_frame _ _ _ _); [| apply H0].
  case_match; [apply H0 |]. do 2 eexists. split; [reflexivity |]. intros [? ?]. split; [apply uint_w32 | done].
Qed.

Lemma send_cp_spec l code id data p : ∃ s r, send_cp l code id data p = p_stats s (p_ring r p) ∧ ring_step (ring p) r.
Proof.
  unfold send_cp. case_match; [| apply tx_frame_spec].
  exists (stats (bump tx_overflows 1 p)), (ring p).
  split; [destruct p; reflexivity | unfold ring_step; tauto].
Qed.

Lemma nth_byte i l : is_bytes l → uint 8 (nth i l 0).
Proof.
  intros H. revert i. induction H as [| x l Hx Hl IH]; intros [| i]; simpl; try (by apply uint_0); [done | apply IH].
Qed.

(** A change to the counters and to what the guest asked for. *)
Definition remote_step (p p' : ppp_peer) : Prop :=
  ∃ m s, p' = p_remote m (p_stats s p) ∧ (mru_ok (remote p) → mru_ok m).

Lemma remote_step_stats p s : remote_step p (p_stats s p).
Proof. exists (remote p), s. split; [by destruct p | done]. Qed.

Lemma remote_step_refl p : remote_step p p.
Proof. exists (remote p), (stats p). split; [by destruct p | done]. Qed.

Lemma remote_step_trans p q r : remote_step p q → remote_step q r → remote_step p r.
Proof.
  intros (m & s & -> & H1) (m' & s' & -> & H2). exists m', s'. split; [by destruct p |]. auto.
Qed.

Lemma remote_step_remote p m : (mru_ok (remote p) → mru_ok m) → remote_step p (p_remote m p).
Proof. intros H. exists m, (stats p). split; [by destruct p | done]. Qed.

Lemma review_step l o olen p : is_bytes o → remote_step p (snd (review l o olen p)).
Proof.
  intros Ho. destruct l; simpl.
  - unfold lcp_review. repeat case_match; simpl; try apply remote_step_refl; apply remote_step_remote; try done.
    intros _. unfold mru_ok. simpl.
    match goal with H : (PPP_MRU_DEFAULT <? ?x) = false |- _ => apply Z.ltb_ge in H; rename H into Hx; set (v := x) in * end.
    assert (0 <= v) by (apply Z.lor_nonneg; split; [apply Z.shiftl_nonneg |]; by apply nth_byte).
    unfold w16. rewrite wrap_small; [lia |]. split; [done |]. eapply Z.le_lt_trans; [exact Hx | done].
  - unfold ipcp_review. repeat case_match; simpl; try apply remote_step_refl;
      (eapply remote_step_trans; apply remote_step_stats).
Qed.

Lemma review_options_step l fuel : ∀ opts rej nak p, is_bytes opts →
  remote_step p (snd (review_options fuel l opts rej nak p)).
Proof.
  induction fuel as [| fuel IH]; intros opts rej nak p Ho; cbn [review_options].
  { destruct opts; apply remote_step_refl. }
  destruct opts as [| x opts]; [apply remote_step_refl |]. set (o := x :: opts) in *.
  do 2 (case_match; [apply remote_step_refl |]).
  pose proof (review_step l (take (Z.to_nat (nth 1 o 0)) o) (nth 1 o 0) p (Forall_take _ _ _ Ho)) as Hr.
  destruct (review l _ _ p) as [v q]. simpl in Hr.
  destruct v; (eapply remote_step_trans; [exact Hr | apply IH; by apply Forall_drop]).
Qed.

Lemma classify_step l opts p : is_bytes opts → remote_step p (snd (classify_confreq l opts p)).
Proof.
  intros Ho. unfold classify_confreq. pose proof (review_options_step l (length opts) opts [] [] p Ho) as H.
  destruct (review_options _ _ _ _ _ p) as [[[rej nak] |] q]; [| done]. repeat case_match; done.
Qed.

(** What a Nak or a Reject changes: the request of its layer, our magic number, our address. *)
Lemma nak_one_spec l type olen v p : ∃ m c,
  nak_one l type olen v p = p_our_magic m (p_cfg c p) ∧ remote_ip c = remote_ip (cfg p).
Proof.
  assert (∃ m c, p = p_our_magic m (p_cfg c p) ∧ remote_ip c = remote_ip (cfg p)) as H.
  { exists (our_magic p), (cfg p). by destruct p. }
  destruct l; simpl; case_match; try exact H.
  - exists (get_be32 v), (cfg p). by destruct p.
  - by eexists (our_magic p), (MkConfig _ _ _ _ _).
Qed.

Lemma each_option_inv (P : ppp_peer → Prop) g fuel : (∀ t n v p, P p → P (g t n v p)) →
  ∀ opts p, P p → P (each_option fuel g opts p).
Proof.
  intros Hg. induction fuel as [| fuel IH]; intros opts p Hp; [done |]. cbn [each_option].
  repeat (case_match; [done |]). apply IH, Hg, Hp.
Qed.

(** ** Every event keeps the invariant *)

(** Replaces each packet sent, innermost first, by its effect on the counters and the ring. *)
Ltac sends :=
  repeat match goal with
  | |- context [send_cp ?l ?c ?i ?d ?p] =>
    lazymatch p with context [send_cp] => fail | _ => idtac end;
    let s := fresh "s" in let r := fresh "r" in let Hr := fresh "Hring" in
    destruct (send_cp_spec l c i d p) as (s & r & -> & Hr)
  end.

Ltac ppp_unfold := unfold rcr_prepare, rcr_finish, tlu, tld, ipcp_start, scr, str_, sta, irc, restart_start,
  restart_stop, fresh_id, set_state, state_of, on_fsm, the_fsm, bump in *.

Lemma count_down_le n k : 0 <= n <= k → 0 <= count_down n <= k.
Proof. unfold count_down. destruct (Z.eqb_spec n 0); lia. Qed.

Lemma expiry_le now : 0 <= now → now +w PPP_RESTART_MS <= now + PPP_RESTART_MS.
Proof. intros H. apply Z.mod_le; [| lia]. unfold PPP_RESTART_MS. lia. Qed.

Lemma fsm_ok_mono now now' f : now <= now' → fsm_ok now f → fsm_ok now' f.
Proof. intros Hn []. split; try done. intros. specialize (fsm_expiry0 H). lia. Qed.

Ltac solve_inv :=
  repeat match goal with H : ppp_inv _ _ |- _ => destruct H | H : fsm_ok _ _ |- _ => destruct H end;
  ppp_unfold; sends; constructor; unfold ring_ok, ring_step, mru_ok in *; cbn in *;
  try match goal with |- fsm_ok _ _ => constructor; cbn in * end;
  first [ done | lia | by eauto using expiry_le, count_down_le | by intuition
        | repeat match goal with E : st ?f = _, H : context [st ?f] |- _ => rewrite E in H; cbn in H end; by eauto
        | match goal with E : st ?f = _ |- context [st ?f] => rewrite E; by cbn end ].

Lemma scr_inv ip l b p : ppp_inv ip p → ppp_inv ip (scr l b p).
Proof. intros H. destruct l, b; solve_inv. Qed.

Ltac by_state := intros; repeat case_match; try done; solve_inv.

Lemma ev_rca_inv ip l id p : ppp_inv ip p → ppp_inv ip (ev_rca l id p).
Proof. intros H. unfold ev_rca. case_match; [done |]. destruct l, (state_of _ p) eqn:E; try done; solve_inv. Qed.

Lemma ev_rcn_inv ip l id p : ppp_inv ip p → ppp_inv ip (ev_rcn l id p).
Proof. intros H. unfold ev_rcn. case_match; [done |]. destruct l, (state_of _ p) eqn:E; try done; solve_inv. Qed.

Lemma ev_rtr_inv ip l id p : ppp_inv ip p → ppp_inv ip (ev_rtr l id p).
Proof. intros H. unfold ev_rtr. destruct l, (state_of _ p) eqn:E; try done; solve_inv. Qed.

Lemma ev_rta_inv ip l p : ppp_inv ip p → ppp_inv ip (ev_rta l p).
Proof. intros H. unfold ev_rta. destruct l, (state_of _ p) eqn:E; try done; solve_inv. Qed.

Lemma ev_rxj_inv ip l p : ppp_inv ip p → ppp_inv ip (ev_rxj l p).
Proof. intros H. unfold ev_rxj. destruct l; solve_inv. Qed.

Lemma ev_echo_inv ip l id data p : ppp_inv ip p → ppp_inv ip (ev_echo l id data p).
Proof. intros H. unfold ev_echo. repeat (case_match; [done |]). solve_inv. Qed.

Lemma sta_inv ip l id p : ppp_inv ip p → ppp_inv ip (sta l id p).
Proof. intros H. solve_inv. Qed.

Lemma remote_step_inv ip p q : remote_step p q → ppp_inv ip p → ppp_inv ip q.
Proof. intros (m & s & -> & Hm) H. solve_inv. Qed.

Lemma remote_step_state p q l : remote_step p q → state_of l q = state_of l p.
Proof. intros (m & s & -> & Hm). by destruct l. Qed.

Lemma ev_rcr_inv ip l id opts p : is_bytes opts → ppp_inv ip p → ppp_inv ip (ev_rcr l id opts p).
Proof.
  intros Ho H. unfold ev_rcr. case_match; [by apply sta_inv |].
  pose proof (classify_step l opts p Ho) as Hc. destruct (classify_confreq l opts p) as [[r resp] q]. simpl in Hc.
  pose proof (remote_step_inv ip _ _ Hc H) as Hq. pose proof (remote_step_state _ _ l Hc) as Hs. clear Hc H.
  rewrite <- Hs. clear Hs.
  assert (ppp_inv ip (let p := rcr_prepare l (state_of l q) q in
     let p := send_cp l (answer_code r) id resp p in
     let good := bool_decide (r = CR_ACK) in
     if negb good && (failures (the_fsm l p) =? 0) then restart_stop l (set_state l PPP_S_STOPPED p)
     else
      let p := if good then p else on_fsm l (fun f => f_failures (failures f - 1) f) p in
      rcr_finish l (state_of l q) good p)) as HH; [| by destruct r].
  cbv zeta. generalize (answer_code r), (bool_decide (r = CR_ACK)). intros code good.
  destruct l, (state_of _ q) eqn:E; cbn [rcr_prepare rcr_finish]; ppp_unfold; sends; destruct good; cbn [negb andb];
    try match goal with |- context [failures ?f =? 0] => destruct (Z.eqb_spec (failures f) 0) as [Ef | Ef] end.
  all: solve_inv.
Qed.
