(* ===== verification/PppRun.v ===== *)
(** * The PPP peer over time

    The peer as a transition system, its steps everything a caller may do: the invariant
    of PppFsm.v holds in every reachable state, and a link whose far end falls silent
    settles. *)

From S2P Require Import Prelude Bytes Ppp PppFrame PppFsm.

(** ** Packets and frames *)

Lemma nak_one_inv ip l type olen v p : ppp_inv ip p → ppp_inv ip (nak_one l type olen v p).
Proof. intros H. destruct (nak_one_spec l type olen v p) as (m & c & -> & Hc). destruct H. subst ip. by constructor. Qed.

Lemma rej_one_inv ip l type olen v p : ppp_inv ip p → ppp_inv ip (rej_one l type olen v p).
Proof. intros H. destruct l; unfold rej_one, drop_req; repeat case_match; try done; solve_inv. Qed.

Lemma cp_input_inv ip l pkt p : is_bytes pkt → ppp_inv ip p → ppp_inv ip (cp_input l pkt p).
Proof.
  intros Hb H. unfold cp_input. case_match; [done |]. case_match; [done |].
  set (data := drop 4 _). assert (is_bytes data) as Hd by by apply Forall_drop, Forall_take.
  case_match; [by apply ev_rcr_inv |]. case_match; [by apply ev_rca_inv |].
  case_match. { apply ev_rcn_inv. case_match; [| done]. unfold apply_nak, apply_rej; apply (each_option_inv (ppp_inv ip)); [intros; by apply nak_one_inv | done]. }
  case_match. { apply ev_rcn_inv. case_match; [| done]. unfold apply_nak, apply_rej; apply (each_option_inv (ppp_inv ip)); [intros; by apply rej_one_inv | done]. }
  case_match; [by apply ev_rtr_inv |]. case_match; [by apply ev_rta_inv |].
  case_match; [by apply ev_rxj_inv |]. case_match; [by apply ev_echo_inv |].
  case_match; [done |]. clearbody data. destruct l; solve_inv.
Qed.

Section Sink.
Context (ip : Z) (sink : option (list Z → ppp_peer → ppp_peer)).
Context (Hsink : ∀ f, sink = Some f → ∀ info q, is_bytes info → ppp_inv ip q → ppp_inv ip (f info q)).

Lemma deliver_inv proto info p : is_bytes info → ppp_inv ip p → ppp_inv ip (ppp_deliver sink proto info p).
Proof.
  intros Hi H. unfold ppp_deliver.
  assert (ppp_inv ip (bump frames_in 1 p)) as H1 by solve_inv. revert H1. generalize (bump frames_in 1 p). clear p H.
  intros p H. case_match; [by apply cp_input_inv |]. case_match; [by apply cp_input_inv |]. case_match.
  - unfold ip_input. assert (ppp_inv ip (bump ip_bytes_in (blen info) (bump ip_frames_in 1 p))) as Hc by solve_inv.
    revert Hc. generalize (bump ip_bytes_in (blen info) (bump ip_frames_in 1 p)). intros q Hq.
    destruct sink as [f |] eqn:E; [| solve_inv]. case_match; [by apply (Hsink f) | solve_inv].
  - unfold unknown_proto. case_match; solve_inv.
Qed.

Lemma frame_input_inv f p : is_bytes f → ppp_inv ip p → ppp_inv ip (frame_input sink f p).
Proof.
  intros Hf H. unfold frame_input. case_match; [solve_inv |]. case_match; [solve_inv |].
  set (g := take _ f). assert (is_bytes g) as Hg by by apply Forall_take.
  set (h := if _ : bool then drop 2 g else g).
  assert (is_bytes h) as Hh by (unfold h; case_match; [by apply Forall_drop | done]).
  clearbody h. case_match; [solve_inv |]. case_match; [apply deliver_inv; [by apply Forall_drop | done] |].
  case_match; [solve_inv |]. apply deliver_inv; [by apply Forall_drop | done].
Qed.

Lemma deframer_inv d p : is_bytes (rxbuf d) → blen (rxbuf d) <= PPP_MAX_FRAME → ppp_inv ip p →
  ppp_inv ip (p_deframer d p).
Proof. intros Hb Hl []. by constructor. Qed.

Lemma ppp_input_byte_inv c p : uint 8 c → ppp_inv ip p → ppp_inv ip (ppp_input_byte sink p c).
Proof.
  intros Hc H. unfold ppp_input_byte.
  assert (ppp_inv ip (bump rx_bytes 1 p)) as H1 by solve_inv. revert H1. generalize (bump rx_bytes 1 p). clear p H.
  intros p H. pose proof (inv_rxbuf ip p H) as [Hb Hl]. case_match.
  - apply deframer_inv; [constructor | done |]. case_match; [solve_inv |]. case_match; [| done].
    case_match; [solve_inv | by apply frame_input_inv].
  - case_match; [done |]. case_match; [by apply deframer_inv |].
    destruct (Z.leb_spec PPP_MAX_FRAME (blen (rxbuf (deframer p)))); apply deframer_inv; try done; cbn [rxbuf].
    + apply Forall_app. split; [done |]. constructor; [| constructor].
      case_match; [| done]. apply uint_lxor; [lia | done | by_computation].
    + rewrite blen_app. change (blen [_]) with 1. lia.
Qed.
End Sink.

Lemma restart_timeout_inv ip l p : ppp_inv ip p → ppp_inv ip (restart_timeout l p).
Proof.
  intros H. unfold restart_timeout. destruct (Z.eqb_spec (restarts (the_fsm l p)) 0) as [E0 | E0].
  - destruct l; unfold state_of; destruct (st _) eqn:E; solve_inv.
  - destruct l; unfold state_of; destruct (st _) eqn:E; solve_inv.
Qed.

Lemma ppp_tick_inv ip now p : ppp_inv ip p → ppp_inv ip (ppp_tick p now).
Proof.
  intros H. unfold ppp_tick. pose proof (uint_w32 now) as Hu. revert Hu. generalize (w32 now). clear now. intros now Hu.
  cbv zeta. destruct (Z.ltb_spec now (now_ms p)); [done |].
  assert (ppp_inv ip (p_now_ms now p)) as H1.
  { destruct H, Hu. constructor; try done; cbn; by apply (fsm_ok_mono (now_ms p)). }
  assert (∀ b l q, ppp_inv ip q → ppp_inv ip (if b : bool then restart_timeout l q else q)) as Ht.
  { intros [] l q Hq; [by apply restart_timeout_inv | done]. }
  by do 2 apply Ht.
Qed.

Lemma ppp_open_inv ip p : ppp_inv ip p → ppp_inv ip (ppp_open p).
Proof. intros H. unfold ppp_open. case_match; [done |]. solve_inv. Qed.

Lemma ppp_close_inv ip p : ppp_inv ip p → ppp_inv ip (ppp_close p).
Proof. intros H. unfold ppp_close. repeat case_match; solve_inv. Qed.

Lemma ppp_send_ip_inv ip p pkt : ppp_inv ip p → ppp_inv ip (snd (ppp_send_ip p pkt)).
Proof.
  intros H. unfold ppp_send_ip. case_match; [done |]. case_match; [solve_inv |]. case_match; [solve_inv |].
  destruct (tx_frame_spec p PPP_PROTO_IP pkt) as (s & r & -> & Hr). case_match; cbn [snd]; solve_inv.
Qed.

Lemma ppp_output_byte_inv ip p : ppp_inv ip p → ppp_inv ip (snd (ppp_output_byte p)).
Proof.
  intros H. unfold ppp_output_byte. case_match; [done |]. destruct H as [? ? [? ?] ? ? ? ? ? ? ?].
  constructor; try done. split; [done | apply uint_w32].
Qed.

Lemma ppp_init_inv config : ppp_inv (remote_ip (default ppp_config_default config)) (ppp_init config).
Proof.
  constructor; try done; try (constructor; by_computation || done); split; by_computation || constructor.
Qed.

(** ** Reachable peers *)

(** What a caller may do to a peer. *)
Inductive call :=
  | Input (c : Z) | Output | Tick (now : Z) | Open | Close | Send (pkt : list Z).

Definition do_call (sink : option (list Z → ppp_peer → ppp_peer)) (c : call) (p : ppp_peer) : ppp_peer :=
  match c with
  | Input c => ppp_input_byte sink p c
  | Output => snd (ppp_output_byte p)
  | Tick now => ppp_tick p now
  | Open => ppp_open p
  | Close => ppp_close p
  | Send pkt => snd (ppp_send_ip p pkt)
  end.

Definition octet_call (c : call) : Prop := match c with Input c => uint 8 c | _ => True end.

(** The sink may only answer with datagrams. *)
Definition replies_only (sink : option (list Z → ppp_peer → ppp_peer)) : Prop :=
  ∀ f, sink = Some f → ∀ info p, ∃ pkts, f info p = foldl (fun p pkt => snd (ppp_send_ip p pkt)) p pkts.

Inductive reachable (sink : option (list Z → ppp_peer → ppp_peer)) (config : option ppp_config) : ppp_peer → Prop :=
  | reach_init : reachable sink config (ppp_init config)
  | reach_call p c : reachable sink config p → octet_call c → reachable sink config (do_call sink c p).

Lemma replies_inv ip sink : replies_only sink →
  ∀ f, sink = Some f → ∀ info q, is_bytes info → ppp_inv ip q → ppp_inv ip (f info q).
Proof.
  intros Hs f Hf info q _ Hq. destruct (Hs f Hf info q) as [pkts ->]. clear -Hq. revert q Hq.
  induction pkts as [| pkt pkts IH]; intros q Hq; [done |]. by apply IH, ppp_send_ip_inv.
Qed.

Lemma reachable_inv sink config p : replies_only sink → reachable sink config p →
  ppp_inv (remote_ip (default ppp_config_default config)) p.
Proof.
  intros Hs. induction 1 as [| p c _ IH Hc]; [apply ppp_init_inv |]. destruct c; cbn [do_call].
  - apply ppp_input_byte_inv; [by apply replies_inv | done | done].
  - by apply ppp_output_byte_inv.
  - by apply ppp_tick_inv.
  - by apply ppp_open_inv.
  - by apply ppp_close_inv.
  - by apply ppp_send_ip_inv.
Qed.

(** Whatever arrives and whenever the caller looks: the counters keep their bounds,
    nothing outgrows the receive buffer, whoever waits for an answer has a timer, and a
    guest that has an open link has the address it was configured with. *)
Theorem ppp_reachable_safe sink config p (Hs : replies_only sink) (Hr : reachable sink config p) :
  blen (rxbuf (deframer p)) <= PPP_MAX_FRAME
  ∧ (∀ l, 0 <= restarts (the_fsm l p) <= PPP_MAX_CONFIGURE ∧ 0 <= failures (the_fsm l p) <= PPP_MAX_FAILURE
       ∧ (waiting (state_of l p) = true → timer_running (the_fsm l p) = true))
  ∧ 0 <= peer_mru (remote p) <= PPP_MRU_DEFAULT
  ∧ (st (ipcp p) = PPP_S_OPENED →
       assigned p = true ∧ assigned_ip p = remote_ip (default ppp_config_default config)).
Proof.
  destruct (reachable_inv sink config p Hs Hr) as [_ _ _ [_ Hb] [? ? ? _] [? ? ? _] Hm _ _ Ha].
  split; [done |]. split; [by intros [] |]. by split.
Qed.

(** ** A silent line settles *)

(** Where an automaton ends that gets no more answers. *)
Definition settled (s : ppp_state) : ppp_state :=
  match s with
  | PPP_S_CLOSING => PPP_S_CLOSED
  | PPP_S_STOPPING | PPP_S_REQSENT | PPP_S_ACKRCVD | PPP_S_ACKSENT => PPP_S_STOPPED
  | s => s
  end.

(** Timer periods left before that. *)
Definition budget (l : layer) (p : ppp_peer) : Z :=
  if waiting (state_of l p) then 1 + restarts (the_fsm l p) else 0.

Lemma send_cp_fsm l' l code id data p : the_fsm l' (send_cp l code id data p) = the_fsm l' p.
Proof. destruct (send_cp_spec l code id data p) as (s & r & -> & _). by destruct l'. Qed.

Lemma send_cp_now l code id data p : now_ms (send_cp l code id data p) = now_ms p.
Proof. by destruct (send_cp_spec l code id data p) as (s & r & -> & _). Qed.

Lemma timeout_other l l' p : l ≠ l' → the_fsm l' (restart_timeout l p) = the_fsm l' p.
Proof.
  intros Hl. destruct l, l'; try done; unfold restart_timeout, scr, restart_start, restart_stop, set_state, on_fsm;
    repeat case_match; cbn [the_fsm ipcp lcp p_lcp p_ipcp];
    by repeat first [rewrite (send_cp_fsm IPCP) | rewrite (send_cp_fsm LCP) ].
Qed.

Lemma timeout_now l p : now_ms (restart_timeout l p) = now_ms p.
Proof.
  destruct l; unfold restart_timeout, scr, restart_start, restart_stop, set_state, on_fsm;
    repeat case_match; cbn [now_ms p_lcp p_ipcp]; by rewrite ?send_cp_now.
Qed.

Lemma timeout_progress l p : 0 <= restarts (the_fsm l p) → waiting (state_of l p) = true →
  budget l (restart_timeout l p) = budget l p - 1
  ∧ settled (state_of l (restart_timeout l p)) = settled (state_of l p).
Proof.
  intros Hr Hw. unfold budget. rewrite Hw. unfold restart_timeout.
  destruct (Z.eqb_spec (restarts (the_fsm l p)) 0) as [E | E].
  - destruct l; unfold state_of in *; cbn [the_fsm] in *; destruct (st _) eqn:Es; try done; cbn; rewrite ?Es, ?E; split; (done || lia).
  - assert (count_down (restarts (the_fsm l p)) = restarts (the_fsm l p) - 1) as Hc.
    { unfold count_down. by rewrite (proj2 (Z.eqb_neq _ _)). }
    destruct l; unfold state_of in *; cbn [the_fsm] in *; destruct (st _) eqn:Es; try done;
      unfold scr, restart_start, on_fsm, state_of; sends; cbn; rewrite ?Hc, Es; cbn; split; (done || lia).
Qed.

Lemma timeout_resting l p : waiting (state_of l p) = false →
  state_of l (restart_timeout l p) = state_of l p.
Proof.
  intros Hw. unfold restart_timeout. destruct l; unfold state_of in *; cbn [the_fsm] in *;
    destruct (st _) eqn:Es; try done; by case_match; cbn; rewrite Es.
Qed.

Lemma budget_resting l p : waiting (state_of l p) = false → budget l p = 0.
Proof. unfold budget. by intros ->. Qed.

(** One layer's share of a tick that comes a period after the last one. *)
Lemma timer_progress l now q : fsm_ok (now - PPP_RESTART_MS) (the_fsm l q) →
  let q' := if timer_due l now q then restart_timeout l q else q in
  budget l q' = Z.max 0 (budget l q - 1) ∧ settled (state_of l q') = settled (state_of l q)
  ∧ now_ms q' = now_ms q ∧ ∀ l', l ≠ l' → the_fsm l' q' = the_fsm l' q.
Proof.
  intros [Hr _ Ht He] q'.
  assert (timer_due l now q = timer_running (the_fsm l q)) as Hd.
  { unfold timer_due. destruct (timer_running _); [| done]. cbn [andb]. apply Z.leb_le. lia. }
  unfold q'. rewrite Hd. clear q' Hd. destruct (waiting (state_of l q)) eqn:Hw.
  - rewrite (Ht Hw). destruct (timeout_progress l q) as [Hb Hs]; [lia | done |].
    rewrite Hb, Hs, timeout_now. split; [unfold budget; rewrite Hw; lia |]. eauto using timeout_other.
  - rewrite (budget_resting l q) by done. destruct (timer_running _).
    + rewrite budget_resting, timeout_resting, timeout_now by (rewrite ?timeout_resting; done).
      eauto using timeout_other.
    + rewrite budget_resting by done. done.
Qed.

Lemma tick_progress ip l now p : ppp_inv ip p → now_ms p + PPP_RESTART_MS <= now < 2 ^ 32 →
  budget l (ppp_tick p now) = Z.max 0 (budget l p - 1)
  ∧ settled (state_of l (ppp_tick p now)) = settled (state_of l p) ∧ now_ms (ppp_tick p now) = now.
Proof.
  intros H [Hn Hmax]. unfold ppp_tick. pose proof (inv_now ip p H) as Hn0.
  rewrite w32_small by (unfold PPP_RESTART_MS in Hn; split; lia). cbv zeta.
  rewrite (proj2 (Z.ltb_ge _ _)) by (unfold PPP_RESTART_MS in Hn; lia).
  set (p0 := p_now_ms now p). assert (∀ l, fsm_ok (now - PPP_RESTART_MS) (the_fsm l p0)) as Hf.
  { intros l'. apply (fsm_ok_mono (now_ms p)); [lia |]. destruct l'; apply H. }
  destruct (timer_progress LCP now p0 (Hf LCP)) as (Hb1 & Hs1 & Hn1 & Ho1).
  set (p1 := if timer_due LCP now p0 then _ else p0) in *.
  destruct (timer_progress IPCP now p1) as (Hb2 & Hs2 & Hn2 & Ho2); [rewrite Ho1 by done; apply Hf |].
  unfold budget, state_of in *. destruct l.
  - rewrite !(Ho2 LCP), Hn2, Hn1 by done. done.
  - rewrite Hb2, Hs2, Hn2, Hn1, !(Ho1 IPCP) by done. done.
Qed.

(** Ticks at least one timer period apart, while the caller's 32-bit clock lasts. *)
Fixpoint spaced (now : Z) (ts : list Z) : Prop :=
  match ts with
  | [] => True
  | t :: ts => now + PPP_RESTART_MS <= t < 2 ^ 32 ∧ spaced t ts
  end.

Lemma ticks_progress ip l ts : ∀ p, ppp_inv ip p → spaced (now_ms p) ts →
  budget l (foldl ppp_tick p ts) = Z.max 0 (budget l p - Z.of_nat (length ts))
  ∧ settled (state_of l (foldl ppp_tick p ts)) = settled (state_of l p).
Proof.
  induction ts as [| t ts IH]; intros p H Hs; cbn [foldl].
  - split; [| done]. simpl length. unfold budget. case_match; [| lia].
    destruct (inv_lcp ip p H), (inv_ipcp ip p H), l; simpl in *; lia.
  - destruct Hs as [Ht Hs]. destruct (tick_progress ip l t p H Ht) as (Hb & Hst & Hn).
    destruct (IH (ppp_tick p t)) as [Hb' Hs']; [by apply ppp_tick_inv | by rewrite Hn |].
    rewrite Hb', Hb, Hs', Hst. split; [cbn [length]; lia | done].
Qed.

Lemma budget_max ip l p : ppp_inv ip p → 0 <= budget l p <= PPP_MAX_CONFIGURE + 1.
Proof.
  intros H. unfold budget, PPP_MAX_CONFIGURE. case_match; [| lia].
  destruct (inv_lcp ip p H), (inv_ipcp ip p H), l; unfold PPP_MAX_CONFIGURE in *; simpl in *; lia.
Qed.

(** C39: From any state the peer can get into, a guest that falls silent leaves it at rest
    after eleven timer periods of the 32-bit millisecond clock: each automaton has given up,
    or stands open as before.  The clock has to last that long: a time below the last one
    seen, as every time is once the clock has wrapped, changes nothing at all. *)
Theorem ppp_silence_settles sink config p ts l (Hs : replies_only sink) (Hr : reachable sink config p)
    (Hsp : spaced (now_ms p) ts) (Hlen : PPP_MAX_CONFIGURE + 1 <= Z.of_nat (length ts)) :
  let q := foldl ppp_tick p ts in
  waiting (state_of l q) = false ∧ state_of l q = settled (state_of l p)
  ∧ ∀ wrapped, w32 wrapped < now_ms q → ppp_tick q wrapped = q.
Proof.
  intros q. pose proof (reachable_inv sink config p Hs Hr) as H.
  destruct (ticks_progress _ l ts p H Hsp) as [Hb Hst]. fold q in Hb, Hst.
  pose proof (budget_max _ l p H) as Hm.
  assert (ppp_inv (remote_ip (default ppp_config_default config)) q) as Hq.
  { unfold q. clear -H. revert p H. induction ts as [| t ts IH]; intros p H; [done |]. by apply IH, ppp_tick_inv. }
  pose proof (budget_max _ l q Hq) as Hmq.
  assert (waiting (state_of l q) = false) as Hw.
  { unfold budget in Hb at 1. destruct (waiting (state_of l q)); [| done].
    destruct (inv_lcp _ q Hq), (inv_ipcp _ q Hq), l; simpl in *; lia. }
  split; [done |]. split; [rewrite <- Hst; by destruct (state_of l q) |].
  intros t Ht. unfold ppp_tick. cbv zeta. by rewrite (proj2 (Z.ltb_lt _ _) Ht).
Qed.

Definition eleven_ticks : list Z := (fun i => 3000 * i) <$> seqZ 1 11.

Lemma ppp_reachable_safe_witness : let p := do_call None Open (ppp_init None) in
  blen (rxbuf (deframer p)) <= PPP_MAX_FRAME
  ∧ (∀ l, 0 <= restarts (the_fsm l p) <= PPP_MAX_CONFIGURE ∧ 0 <= failures (the_fsm l p) <= PPP_MAX_FAILURE
       ∧ (waiting (state_of l p) = true → timer_running (the_fsm l p) = true))
  ∧ 0 <= peer_mru (remote p) <= PPP_MRU_DEFAULT
  ∧ (st (ipcp p) = PPP_S_OPENED → assigned p = true ∧ assigned_ip p = 0x0a00020f).
Proof.
  apply (ppp_reachable_safe None None (do_call None Open (ppp_init None))); [by intros f |].
  by apply (reach_call None None (ppp_init None) Open); [apply reach_init |].
Defined.

Lemma ppp_silence_settles_witness : let q := foldl ppp_tick (do_call None Open (ppp_init None)) eleven_ticks in
  waiting (state_of LCP q) = false ∧ state_of LCP q = PPP_S_STOPPED
  ∧ ∀ wrapped, w32 wrapped < now_ms q → ppp_tick q wrapped = q.
Proof.
  apply (ppp_silence_settles None None (do_call None Open (ppp_init None)) eleven_ticks LCP).
  - by intros f.
  - by apply (reach_call None None (ppp_init None) Open); [apply reach_init |].
  - vm_compute. repeat split; discriminate.
  - by vm_compute.
Defined.

(** An Open nobody answers sends Max-Configure requests and no more. *)
Example unanswered_open :
  let q := foldl ppp_tick (ppp_open (ppp_init None)) eleven_ticks in
  stats q frames_out = PPP_MAX_CONFIGURE ∧ st (lcp q) = PPP_S_STOPPED.
Proof. by vm_compute. Qed.
