(* ===== verification/PppTable.v ===== *)
(** * The PPP automaton and RFC 1661

    The state table of RFC 1661, section 4.1, as a specification: for each event and
    state the actions and the next state.  The handlers of Ppp.v implement the rows marked
    [conforming]; the others are stated one by one. *)

From S2P Require Import Prelude Bytes Ppp PppFrame PppFsm.

(** ** The table *)

Inductive rfc_event := RCR_good | RCR_bad | RCA | RCN | RTR | RTA | RXJ_bad | TO_more | TO_last.

Inductive rfc_action := Tlu | Tld | Tlf | Irc | Zrc | Scr | Sca | Scn | Str | Sta.

(** [None]: the event cannot occur in the state. *)
Definition rfc_table (e : rfc_event) (s : ppp_state) : option (list rfc_action * ppp_state) :=
  match e, s with
  | _, (PPP_S_INITIAL | PPP_S_STARTING) => None
  | (RCR_good | RCR_bad | RCA | RCN | RTR), PPP_S_CLOSED => Some ([Sta], PPP_S_CLOSED)
  | (RCA | RCN | RTR), PPP_S_STOPPED => Some ([Sta], PPP_S_STOPPED)
  | RCR_good, PPP_S_STOPPED => Some ([Irc; Scr; Sca], PPP_S_ACKSENT)
  | RCR_bad, PPP_S_STOPPED => Some ([Irc; Scr; Scn], PPP_S_REQSENT)
  | (RCR_good | RCR_bad | RCA | RCN), (PPP_S_CLOSING | PPP_S_STOPPING) => Some ([], s)
  | RCR_good, (PPP_S_REQSENT | PPP_S_ACKSENT) => Some ([Sca], PPP_S_ACKSENT)
  | RCR_good, PPP_S_ACKRCVD => Some ([Sca; Tlu], PPP_S_OPENED)
  | RCR_good, PPP_S_OPENED => Some ([Tld; Scr; Sca], PPP_S_ACKSENT)
  | RCR_bad, (PPP_S_REQSENT | PPP_S_ACKSENT) => Some ([Scn], PPP_S_REQSENT)
  | RCR_bad, PPP_S_ACKRCVD => Some ([Scn], PPP_S_ACKRCVD)
  | RCR_bad, PPP_S_OPENED => Some ([Tld; Scr; Scn], PPP_S_REQSENT)
  | RCA, PPP_S_REQSENT => Some ([Irc], PPP_S_ACKRCVD)
  | RCA, PPP_S_ACKRCVD => Some ([Scr], PPP_S_REQSENT)
  | RCA, PPP_S_ACKSENT => Some ([Irc; Tlu], PPP_S_OPENED)
  | (RCA | RCN), PPP_S_OPENED => Some ([Tld; Scr], PPP_S_REQSENT)
  | RCN, PPP_S_REQSENT => Some ([Irc; Scr], PPP_S_REQSENT)
  | RCN, PPP_S_ACKRCVD => Some ([Scr], PPP_S_REQSENT)
  | RCN, PPP_S_ACKSENT => Some ([Irc; Scr], PPP_S_ACKSENT)
  | RTR, (PPP_S_CLOSING | PPP_S_STOPPING) => Some ([Sta], s)
  | RTR, (PPP_S_REQSENT | PPP_S_ACKRCVD | PPP_S_ACKSENT) => Some ([Sta], PPP_S_REQSENT)
  | RTR, PPP_S_OPENED => Some ([Tld; Zrc; Sta], PPP_S_STOPPING)
  | RTA, (PPP_S_CLOSED | PPP_S_STOPPED | PPP_S_REQSENT | PPP_S_ACKSENT) => Some ([], s)
  | RTA, PPP_S_CLOSING => Some ([Tlf], PPP_S_CLOSED)
  | RTA, PPP_S_STOPPING => Some ([Tlf], PPP_S_STOPPED)
  | RTA, PPP_S_ACKRCVD => Some ([], PPP_S_REQSENT)
  | RTA, PPP_S_OPENED => Some ([Tld; Scr], PPP_S_REQSENT)
  | RXJ_bad, (PPP_S_CLOSED | PPP_S_CLOSING) => Some ([Tlf], PPP_S_CLOSED)
  | RXJ_bad, PPP_S_OPENED => Some ([Tld; Irc; Str], PPP_S_STOPPING)
  | RXJ_bad, _ => Some ([Tlf], PPP_S_STOPPED)
  | TO_more, (PPP_S_CLOSING | PPP_S_STOPPING) => Some ([Str], s)
  | TO_more, (PPP_S_REQSENT | PPP_S_ACKRCVD) => Some ([Scr], PPP_S_REQSENT)
  | TO_more, PPP_S_ACKSENT => Some ([Scr], PPP_S_ACKSENT)
  | TO_last, PPP_S_CLOSING => Some ([Tlf], PPP_S_CLOSED)
  | TO_last, (PPP_S_STOPPING | PPP_S_REQSENT | PPP_S_ACKRCVD | PPP_S_ACKSENT) => Some ([Tlf], PPP_S_STOPPED)
  | (TO_more | TO_last), _ => None
  end.

(** The rows the peer keeps to. *)
Definition conforming (e : rfc_event) (s : ppp_state) : bool :=
  match e, s with
  | (RCR_good | RCR_bad), (PPP_S_CLOSING | PPP_S_STOPPING) => false
  | RXJ_bad, (PPP_S_CLOSED | PPP_S_CLOSING | PPP_S_OPENED) => false
  | TO_more, PPP_S_ACKRCVD => false
  | _, _ => true
  end.

(** The packets an action sends; [nak] is the code of the answer to a bad request. *)
Definition action_packets (l : layer) (nak : Z) (a : rfc_action) : list (layer * Z) :=
  match a with
  | Scr => [(l, PPP_CONF_REQ)]
  | Sca => [(l, PPP_CONF_ACK)]
  | Scn => [(l, nak)]
  | Str => [(l, PPP_TERM_REQ)]
  | Sta => [(l, PPP_TERM_ACK)]
  | Tlu => match l with LCP => [(IPCP, PPP_CONF_REQ)] | IPCP => [] end
  | Tld | Tlf | Irc | Zrc => []
  end.

(** ** Sending, as a relation *)

Definition is_packet (accm : Z) (k : layer * Z) (fr : list Z) : Prop :=
  ∃ id data, fr = wire (proto_of (fst k)) (cp_packet (snd k) id data) accm ∧ blen (cp_packet (snd k) id data) <= PPP_MRU_DEFAULT.

Definition FRAME_MAX := 2 * PPP_MAX_FRAME + 2.

Lemma frame_max : FRAME_MAX = 3014.
Proof. done. Qed.

Definition queued (ks : list (layer * Z)) (p p' : ppp_peer) : Prop :=
  ∃ frames, Forall2 (is_packet (tx_accm p)) ks frames ∧ tx_pending p' = tx_pending p ++ concat frames
    ∧ ring_ok p' ∧ tx_tail (ring p') = tx_tail (ring p) ∧ tx_accm p' = tx_accm p.

(** [p'] is [p] after sending exactly the packets [ks], given room for them. *)
Definition sent (ks : list (layer * Z)) (p p' : ppp_peer) : Prop :=
  room_for p (FRAME_MAX * Z.of_nat (length ks)) → queued ks p p'.

Lemma blen_pending p : blen (tx_pending p) = tx_used p.
Proof.
  unfold tx_pending, blen. rewrite length_fmap, length_seqZ. apply Z2Nat.id, uint_w32.
Qed.

Lemma room_less p m n : m <= n → room_for p n → room_for p m.
Proof. intros Hm [? [? ?]]. split; [done |]. split; lia. Qed.

Lemma frames_length accm ks frames : Forall2 (is_packet accm) ks frames →
  blen (concat frames) <= FRAME_MAX * Z.of_nat (length ks).
Proof.
  induction 1 as [| k fr ks frames (id & data & -> & Hl) Hf IH]; [done |]. cbn [concat length].
  rewrite blen_app. pose proof (wire_length (proto_of k.1) _ accm Hl). unfold FRAME_MAX in *. lia.
Qed.

Lemma queued_room ks p p' n : queued ks p p' →
  room_for p (FRAME_MAX * Z.of_nat (length ks) + n) → room_for p' n.
Proof.
  intros (frames & Hf & Hp & Hok & Ht & _) [_ [H1 H2]]. split; [done |]. rewrite Ht.
  pose proof (frames_length _ _ _ Hf). apply (f_equal blen) in Hp. rewrite blen_app, !blen_pending in Hp.
  split; lia.
Qed.

Lemma sent_trans ks ks' p q r : sent ks p q → sent ks' q r → sent (ks ++ ks') p r.
Proof.
  intros H1 H2 Hr. rewrite length_app, Nat2Z.inj_add, Z.mul_add_distr_l in Hr.
  assert (queued ks p q) as Hq by (apply H1; eapply room_less; [| exact Hr]; rewrite frame_max; lia).
  destruct (H2 (queued_room ks p q _ Hq Hr)) as (f2 & ? & Hp2 & Hok2 & Ht2 & Ha2).
  destruct Hq as (f1 & ? & Hp1 & Hok1 & Ht1 & Ha1).
  exists (f1 ++ f2). rewrite concat_app, app_assoc, <- Hp1, <- Ha1. split; [| by rewrite Ht2, Ha2].
  apply Forall2_app; [by rewrite Ha1 | done].
Qed.

Lemma sent_same p p' : ring p' = ring p → tx_accm p' = tx_accm p → sent [] p p'.
Proof.
  intros Hr Ha [Hok _]. exists []. unfold tx_pending, tx_used, ring_ok in *. rewrite Hr, Ha.
  rewrite app_nil_r. split; [constructor | done].
Qed.

Lemma sent_post ks p q r : sent ks p q → ring r = ring q → tx_accm r = tx_accm q → sent ks p r.
Proof. intros H Hr Ha. rewrite <- (app_nil_r ks). eapply sent_trans; [exact H | by apply sent_same]. Qed.

Lemma sent_cp l code id data p q ks : sent ks p q → blen data + 4 <= PPP_MRU_DEFAULT →
  sent (ks ++ [(l, code)]) p (send_cp l code id data q).
Proof.
  intros H Hl. eapply sent_trans; [exact H |]. clear H. intros Hr.
  assert (blen (cp_packet code id data) = blen data + 4) as Hc.
  { unfold cp_packet. rewrite !blen_app. change (blen [code; id]) with 2. change (blen (be16 _)) with 2. lia. }
  set (enc := wire (proto_of l) (cp_packet code id data) (tx_accm q)).
  pose proof (wire_length (proto_of l) (cp_packet code id data) (tx_accm q) ltac:(lia)) as Hw. fold enc in Hw.
  assert (ppp_frame (proto_of l) (cp_packet code id data) (tx_accm q) (2 * PPP_MAX_FRAME + 2) = Some enc) as He.
  { rewrite ppp_frame_shape. fold enc. rewrite (proj2 (Z.ltb_ge PPP_MRU_DEFAULT _)) by lia. cbn [orb].
    by rewrite (proj2 (Z.ltb_ge _ (blen enc))). }
  unfold send_cp. rewrite (proj2 (Z.ltb_ge _ _)) by lia.
  destruct (tx_frame_queues q (proto_of l) (cp_packet code id data) enc He) as (Hp & Hok & Ht & _).
  { eapply room_less; [| exact Hr]. unfold FRAME_MAX. cbn [length]. lia. }
  destruct (tx_frame_spec q (proto_of l) (cp_packet code id data)) as (s & r & E & _).
  exists [enc]. cbn [concat]. rewrite app_nil_r. split; [| split; [done | split; [done | split; [done | by rewrite E]]]].
  constructor; [| constructor]. exists id, data. split; [done |]. cbn [snd]. lia.
Qed.

(** ** The answer to a Configure-Request fits a packet *)

Lemma blen_take n l : 0 <= n <= blen l → blen (take (Z.to_nat n) l) = n.
Proof. unfold blen. rewrite length_take. lia. Qed.

Lemma bounded_app_length buf more : blen (bounded_app buf more) <= blen buf + blen more.
Proof. unfold bounded_app. case_match; [by rewrite blen_app |]. unfold blen. lia. Qed.

Lemma review_nak_length l o olen p n : fst (review l o olen p) = OPT_NAK n → blen n <= olen.
Proof.
  destruct l; simpl; unfold lcp_review, ipcp_review; repeat case_match; simpl; try done;
    intros [= <-]; repeat match goal with H : negb (olen =? _) = false |- _ => apply negb_false_iff, Z.eqb_eq in H; subst olen end;
    by vm_compute.
Qed.

Lemma review_options_length l fuel : ∀ opts rej nak p rej' nak',
  fst (review_options fuel l opts rej nak p) = Some (rej', nak') →
  blen rej' + blen nak' <= blen rej + blen nak + blen opts.
Proof.
  induction fuel as [| fuel IH]; intros opts rej nak p rej' nak'; cbn [review_options].
  { destruct opts; simpl; [intros [= <- <-]; unfold blen; simpl; lia | done]. }
  destruct opts as [| x opts]; [simpl; intros [= <- <-]; unfold blen; simpl; lia |]. set (o := x :: opts) in *.
  case_match; [done |]. set (n := nth 1 o 0).
  destruct (Z.ltb_spec n 2); [done |]. destruct (Z.ltb_spec (blen o) n); [done |]. cbn [orb].
  pose proof (blen_take n o ltac:(lia)) as Ht. pose proof (blen_drop o n ltac:(lia)) as Hd.
  pose proof (review_nak_length l (take (Z.to_nat n) o) n p) as Hn.
  destruct (review l _ n p) as [v q]. simpl in Hn. destruct v as [| m |]; intros E%IH; rewrite Hd in E.
  - lia.
  - specialize (Hn m eq_refl). pose proof (bounded_app_length nak m). lia.
  - pose proof (bounded_app_length rej (take (Z.to_nat n) o)). lia.
Qed.

Lemma answer_length l opts p : blen (snd (fst (classify_confreq l opts p))) <= blen opts.
Proof.
  unfold classify_confreq. pose proof (review_options_length l (length opts) opts [] [] p) as H.
  assert (0 <= blen opts) by (unfold blen; lia).
  destruct (review_options _ _ _ _ _ p) as [[[rej nak] |] q]; simpl; [| done].
  specialize (H rej nak eq_refl). change (blen []) with 0 in H.
  assert (0 <= blen rej ∧ 0 <= blen nak) as [? ?] by (unfold blen; lia). repeat case_match; simpl; lia.
Qed.

Lemma confreq_length l p : blen (build_confreq l p) <= 12.
Proof. destruct l; simpl; repeat case_match; by vm_compute. Qed.

(** ** What each action sends *)

Lemma sent_scr l b ks p q : sent ks p q → sent (ks ++ [(l, PPP_CONF_REQ)]) p (scr l b q).
Proof.
  intros H. pose proof (confreq_length l q). unfold scr, restart_start.
  assert (∀ q', ring q' = ring q → tx_accm q' = tx_accm q → sent (ks ++ [(l, PPP_CONF_REQ)]) p
    (send_cp l PPP_CONF_REQ (last_req_id (the_fsm l q')) (build_confreq l q) q')) as Hs.
  { intros q' Hr Ha. apply sent_cp; [by eapply sent_post | unfold PPP_MRU_DEFAULT; lia]. }
  set (q' := if b then _ else q). specialize (Hs q').
  eapply sent_post; [apply Hs; unfold q'; by destruct b, l | |]; by destruct l.
Qed.

Lemma sent_sta l id ks p q : sent ks p q → sent (ks ++ [(l, PPP_TERM_ACK)]) p (sta l id q).
Proof. intros H. by apply sent_cp. Qed.

Lemma sent_tld l ks p q : sent ks p q → sent ks p (tld l q).
Proof. intros H. eapply sent_post; [exact H | |]; by destruct l. Qed.

Lemma sent_irc l n ks p q : sent ks p q → sent ks p (irc l n q).
Proof. intros H. eapply sent_post; [exact H | |]; by destruct l. Qed.

Lemma sent_on_fsm l g ks p q : sent ks p q → sent ks p (on_fsm l g q).
Proof. intros H. eapply sent_post; [exact H | |]; by destruct l. Qed.

Lemma sent_tlu l nak ks p q : sent ks p q → sent (ks ++ action_packets l nak Tlu) p (tlu l q).
Proof.
  intros H. destruct l; cbn [tlu action_packets].
  - unfold ipcp_start. by apply sent_scr, sent_irc, sent_on_fsm.
  - rewrite app_nil_r. by eapply sent_post.
Qed.

(** ** The handlers against the table *)

Definition handle (l : layer) (e : rfc_event) (id : Z) (opts : list Z) (p : ppp_peer) : ppp_peer :=
  match e with
  | RCR_good | RCR_bad => ev_rcr l id opts p
  | RCA => ev_rca l id p
  | RCN => ev_rcn l id p
  | RTR => ev_rtr l id p
  | RTA => ev_rta l p
  | RXJ_bad => ev_rxj l p
  | TO_more | TO_last => restart_timeout l p
  end.

(** What makes it this event.  A bad request is one the peer may still answer: once
    Max-Failure refusals are spent it gives up instead. *)
Definition occurs (l : layer) (e : rfc_event) (id : Z) (opts : list Z) (p : ppp_peer) : Prop :=
  let verdict := fst (fst (classify_confreq l opts p)) in
  match e with
  | RCR_good => verdict = CR_ACK
  | RCR_bad => (verdict = CR_NAK ∨ verdict = CR_REJ)
      ∧ (failures (the_fsm l p) = 0 → state_of l p = PPP_S_STOPPED ∨ state_of l p = PPP_S_OPENED)
  | RCA | RCN => id = last_req_id (the_fsm l p)
  | RTR | RTA | RXJ_bad => True
  | TO_more => restarts (the_fsm l p) ≠ 0
  | TO_last => restarts (the_fsm l p) = 0
  end.

(** The row's outcome. *)
Definition obeys (l : layer) (acts : list rfc_action) (s' : ppp_state) (p q : ppp_peer) : Prop :=
  state_of l q = s' ∧ ∃ nak, (nak = PPP_CONF_NAK ∨ nak = PPP_CONF_REJ)
    ∧ sent (flat_map (action_packets l nak) acts) p q.

Lemma sent_eq ks ks' p q : sent ks p q → ks = ks' → sent ks' p q.
Proof. by intros H <-. Qed.

(** The state after each action. *)
Lemma state_set l s p : state_of l (set_state l s p) = s.
Proof. by destruct l. Qed.

Lemma state_on_fsm l l' g p : (∀ f, st (g f) = st f) → state_of l (on_fsm l' g p) = state_of l p.
Proof. intros H. destruct l, l'; unfold state_of; simpl; by rewrite ?H. Qed.

Lemma state_send l l' code id data p : state_of l (send_cp l' code id data p) = state_of l p.
Proof. destruct (send_cp_spec l' code id data p) as (s & r & -> & _). by destruct l. Qed.

Lemma state_irc l l' n p : state_of l (irc l' n p) = state_of l p.
Proof. by apply state_on_fsm. Qed.

Lemma state_restart_start l l' p : state_of l (restart_start l' p) = state_of l p.
Proof. by apply state_on_fsm. Qed.

Lemma state_restart_stop l l' p : state_of l (restart_stop l' p) = state_of l p.
Proof. by apply state_on_fsm. Qed.

Lemma state_scr l l' b p : state_of l (scr l' b p) = state_of l p.
Proof.
  unfold scr. rewrite state_restart_start, state_on_fsm by done. rewrite state_send.
  destruct b; [| done]. by apply state_on_fsm.
Qed.

Lemma state_sta l l' id p : state_of l (sta l' id p) = state_of l p.
Proof. apply state_send. Qed.

Lemma state_tld l p : state_of l (tld l p) = state_of l p.
Proof. by destruct l. Qed.

Lemma state_tlu l p : state_of l (tlu l p) = state_of l p.
Proof.
  destruct l; [| done]. cbn [tlu]. unfold ipcp_start. by rewrite state_scr, state_irc.
Qed.

Create Rewrite HintDb ppp_state.
#[export] Hint Rewrite state_set state_send state_irc state_restart_start state_restart_stop state_scr state_sta
  state_tld state_tlu : ppp_state.
#[export] Hint Rewrite state_on_fsm using done : ppp_state.

Ltac sent_chain :=
  lazymatch goal with
  | |- sent _ _ (scr _ _ _) => apply sent_scr
  | |- sent _ _ (sta _ _ _) => apply sent_sta
  | |- sent _ _ (tlu _ _) => apply (sent_tlu _ 0)
  | |- sent _ _ (tld _ _) => apply sent_tld
  | |- sent _ _ (irc _ _ _) => apply sent_irc
  | |- sent _ _ (on_fsm _ _ _) => apply sent_on_fsm
  | |- sent _ _ (set_state _ _ _) => apply sent_on_fsm
  | |- sent _ _ (restart_stop _ _) => apply sent_on_fsm
  | |- sent _ _ (restart_start _ _) => apply sent_on_fsm
  | |- sent _ _ (send_cp _ _ _ _ _) => apply sent_cp; [| lia]
  end.

Ltac row_with nak l Es :=
  split;
  [ autorewrite with ppp_state; first [reflexivity | exact Es | congruence]
  | exists nak; split; [tauto |];
    eapply sent_eq;
    [ repeat sent_chain; first [eassumption | apply sent_same; reflexivity]
    | first [reflexivity | destruct l; reflexivity] ] ].
Ltac row l Es := row_with PPP_CONF_NAK l Es.

Lemma rows_rca l id p acts s' : id = last_req_id (the_fsm l p) →
  rfc_table RCA (state_of l p) = Some (acts, s') → obeys l acts s' p (ev_rca l id p).
Proof.
  intros Hid. unfold ev_rca. rewrite <- Hid, Z.eqb_refl. cbn [negb]. clear Hid.
  destruct (state_of l p) eqn:Es; intros [= <- <-]; row l Es.
Qed.

Lemma rows_rcn l id p acts s' : id = last_req_id (the_fsm l p) →
  rfc_table RCN (state_of l p) = Some (acts, s') → obeys l acts s' p (ev_rcn l id p).
Proof.
  intros Hid. unfold ev_rcn. rewrite <- Hid, Z.eqb_refl. cbn [negb]. clear Hid.
  destruct (state_of l p) eqn:Es; intros [= <- <-]; row l Es.
Qed.

Lemma rows_rtr l id p acts s' :
  rfc_table RTR (state_of l p) = Some (acts, s') → obeys l acts s' p (ev_rtr l id p).
Proof. unfold ev_rtr. destruct (state_of l p) eqn:Es; intros [= <- <-]; row l Es. Qed.

Lemma rows_rta l p acts s' :
  rfc_table RTA (state_of l p) = Some (acts, s') → obeys l acts s' p (ev_rta l p).
Proof. unfold ev_rta. destruct (state_of l p) eqn:Es; intros [= <- <-]; row l Es. Qed.

Lemma rows_rxj l p acts s' : conforming RXJ_bad (state_of l p) = true →
  rfc_table RXJ_bad (state_of l p) = Some (acts, s') → obeys l acts s' p (ev_rxj l p).
Proof.
  unfold ev_rxj. destruct l.
  - destruct (state_of LCP p) eqn:Es; try done; intros _ [= <- <-]; row LCP Es.
  - destruct (state_of IPCP p) eqn:Es; try done; intros _ [= <- <-]; row IPCP Es.
Qed.

Lemma confreq_fits l p : blen (build_confreq l p) + 4 <= PPP_MRU_DEFAULT.
Proof. pose proof (confreq_length l p). unfold PPP_MRU_DEFAULT. lia. Qed.

Lemma rows_timeout_more l p acts s' : conforming TO_more (state_of l p) = true → restarts (the_fsm l p) ≠ 0 →
  rfc_table TO_more (state_of l p) = Some (acts, s') → obeys l acts s' p (restart_timeout l p).
Proof.
  intros Hc Hr. unfold restart_timeout. rewrite (proj2 (Z.eqb_neq _ _)) by done.
  destruct (state_of l p) eqn:Es; try done; intros [= <- <-]; try row l Es.
  all: split; [autorewrite with ppp_state; exact Es |].
  all: exists PPP_CONF_NAK; split; [by left |]; apply sent_on_fsm, sent_on_fsm.
  all: apply (sent_cp l PPP_TERM_REQ _ [] p p []); [by apply sent_same | done].
Qed.

Lemma rows_timeout_last l p acts s' : restarts (the_fsm l p) = 0 →
  rfc_table TO_last (state_of l p) = Some (acts, s') → obeys l acts s' p (restart_timeout l p).
Proof.
  intros Hr. unfold restart_timeout. rewrite Hr. cbn [Z.eqb].
  autorewrite with ppp_state. destruct (state_of l p) eqn:Es; try done; intros [= <- <-]; row l Es.
Qed.

(** The answer to a request, sent behind what [ks] already holds. *)
Lemma sent_answer l code id resp ks p q : sent ks p q → blen resp + 4 <= PPP_MRU_DEFAULT →
  sent (ks ++ [(l, code)]) p (send_cp l code id resp q).
Proof. apply sent_cp. Qed.

Lemma sent_remote p q : remote_step p q → sent [] p q.
Proof. intros (m & s & -> & _). by apply sent_same. Qed.

Lemma failures_send l l' code id data p : failures (the_fsm l (send_cp l' code id data p)) = failures (the_fsm l p).
Proof. destruct (send_cp_spec l' code id data p) as (s & r & -> & _). by destruct l. Qed.

Lemma failures_prepare l entry p : (entry = PPP_S_STOPPED ∨ entry = PPP_S_OPENED) →
  failures (the_fsm l (rcr_prepare l entry p)) = PPP_MAX_FAILURE.
Proof. intros [-> | ->]; destruct l; ppp_unfold; sends; reflexivity. Qed.

Ltac decide_closed :=
  repeat match goal with |- context [bool_decide ?P] =>
    let b := eval vm_compute in (bool_decide P) in change (bool_decide P) with b end;
  cbn [negb andb rcr_prepare rcr_finish answer_code].

Section Request.
Context (l : layer) (id : Z) (opts : list Z) (p : ppp_peer).
Context (Hb : is_bytes opts) (Hl : blen opts + 4 <= PPP_MRU_DEFAULT).

(** A request the peer accepts. *)
Lemma rows_rcr_good acts s' :
  conforming RCR_good (state_of l p) = true → fst (fst (classify_confreq l opts p)) = CR_ACK →
  rfc_table RCR_good (state_of l p) = Some (acts, s') → obeys l acts s' p (ev_rcr l id opts p).
Proof.
  intros Hc Hv Ht. unfold ev_rcr. pose proof (classify_step l opts p Hb) as Hq.
  pose proof (answer_length l opts p) as Ha.
  destruct (classify_confreq l opts p) as [[r resp] q]. cbn [fst snd] in *. subst r.
  pose proof (remote_step_state _ _ l Hq) as Hs. pose proof (sent_remote _ _ Hq) as H0. rewrite <- Hs in *. clear Hq.
  destruct (state_of l q) eqn:Es; try done; injection Ht as <- <-; decide_closed; row l Es.
Qed.

(** One it refuses, while it may. *)
Lemma rows_rcr_bad acts s' :
  conforming RCR_bad (state_of l p) = true →
  (fst (fst (classify_confreq l opts p)) = CR_NAK ∨ fst (fst (classify_confreq l opts p)) = CR_REJ) →
  (failures (the_fsm l p) = 0 → state_of l p = PPP_S_STOPPED ∨ state_of l p = PPP_S_OPENED) →
  rfc_table RCR_bad (state_of l p) = Some (acts, s') → obeys l acts s' p (ev_rcr l id opts p).
Proof.
  intros Hc Hv Hf Ht. unfold ev_rcr. pose proof (classify_step l opts p Hb) as Hq.
  pose proof (answer_length l opts p) as Ha.
  destruct (classify_confreq l opts p) as [[r resp] q]. cbn [fst snd] in *.
  pose proof (remote_step_state _ _ l Hq) as Hs. pose proof (sent_remote _ _ Hq) as H0.
  assert (failures (the_fsm l q) = failures (the_fsm l p)) as Hfq by (destruct Hq as (m & s & -> & _); by destruct l).
  rewrite <- Hs, <- Hfq in *. clear Hq Hfq.
  assert (∀ A (x y : A), match r with CR_INVALID => x | _ => y end = y) as -> by (intros; by destruct Hv as [-> | ->]).
  assert (bool_decide (r = CR_ACK) = false) as -> by (destruct Hv as [-> | ->]; done).
  assert (answer_code r = PPP_CONF_NAK ∨ answer_code r = PPP_CONF_REJ) as Hn.
  { destruct Hv as [-> | ->]; tauto. }
  assert ((failures (the_fsm l (send_cp l (answer_code r) id resp (rcr_prepare l (state_of l q) q))) =? 0) = false) as Hz.
  { apply Z.eqb_neq. rewrite failures_send. destruct (state_of l q) eqn:Es; try (rewrite failures_prepare by tauto; done).
    all: intros E; destruct (Hf E); done. }
  rewrite Hz. cbn [negb andb]. clear Hz Hf. revert Hn. generalize (answer_code r). intros nak Hn.
  destruct (state_of l q) eqn:Es; try done; injection Ht as <- <-; decide_closed; row_with nak l Es.
Qed.
End Request.

(** C38: Each handler does what its row of the table says: the packets it sends, in their
    order, and the state it leaves, for every row the peer keeps to. *)
Theorem rfc1661_conformance (l : layer) (e : rfc_event) (id : Z) (opts : list Z) (p : ppp_peer)
    (acts : list rfc_action) (s' : ppp_state)
    (Hb : is_bytes opts) (Hl : blen opts + 4 <= PPP_MRU_DEFAULT)
    (Hrow : rfc_table e (state_of l p) = Some (acts, s')) (Hc : conforming e (state_of l p) = true)
    (Ho : occurs l e id opts p) (Hroom : room_for p (3 * FRAME_MAX)) :
  let q := handle l e id opts p in
  state_of l q = s' ∧ ∃ nak, (nak = PPP_CONF_NAK ∨ nak = PPP_CONF_REJ)
    ∧ queued (flat_map (action_packets l nak) acts) p q.
Proof.
  assert (obeys l acts s' p (handle l e id opts p)) as [Hs (nak & Hn & Hq)].
  { destruct e; cbn [handle occurs] in *.
    - by apply rows_rcr_good.
    - destruct Ho. by apply rows_rcr_bad.
    - by apply rows_rca.
    - by apply rows_rcn.
    - by apply rows_rtr.
    - by apply rows_rta.
    - by apply rows_rxj.
    - by apply rows_timeout_more.
    - by apply rows_timeout_last. }
  split; [done |]. exists nak. split; [done |]. apply Hq. eapply room_less; [| exact Hroom].
  rewrite frame_max. enough (Z.of_nat (length (flat_map (action_packets l nak) acts)) <= 3) by lia.
  clear -Hrow. destruct e, (state_of l p); try done; injection Hrow as <- <-; destruct l; by vm_compute.
Qed.

(** A peer asked to renegotiate with a request it refuses: MRU 2000. *)
Definition oversize_mru : list Z := [LCP_OPT_MRU; 4; 7; 208].
Definition open_peer : ppp_peer := linked_peer.

Lemma rfc1661_conformance_witness : let q := handle LCP RCR_bad 7 oversize_mru open_peer in
  state_of LCP q = PPP_S_REQSENT ∧ ∃ nak, (nak = PPP_CONF_NAK ∨ nak = PPP_CONF_REJ)
    ∧ queued (flat_map (action_packets LCP nak) [Tld; Scr; Scn]) open_peer q.
Proof.
  apply (rfc1661_conformance LCP RCR_bad 7 oversize_mru open_peer [Tld; Scr; Scn] PPP_S_REQSENT).
  - by_computation.
  - by_computation.
  - reflexivity.
  - reflexivity.
  - split; [left; reflexivity | intros _; right; reflexivity].
  - split; [split; by_computation | split; [by_computation |]]. left. by_computation.
Defined.

(** ** The rows the peer does not keep to *)

(** After Close a Configure-Request is still answered. *)
Lemma closing_answers_request l id p : state_of l p = PPP_S_CLOSING →
  sent [(l, PPP_CONF_ACK)] p (ev_rcr l id [] p) ∧ rfc_table RCR_good PPP_S_CLOSING = Some ([], PPP_S_CLOSING).
Proof.
  intros Es. split; [| done]. unfold ev_rcr. rewrite Es. cbn [classify_confreq review_options length]. decide_closed.
  apply (sent_cp l PPP_CONF_ACK id [] p p []); [by apply sent_same | done].
Qed.

(** A timeout in Ack-Rcvd asks again and stays there. *)
Lemma ack_received_timeout l p : state_of l p = PPP_S_ACKRCVD → restarts (the_fsm l p) ≠ 0 →
  state_of l (restart_timeout l p) = PPP_S_ACKRCVD
  ∧ rfc_table TO_more PPP_S_ACKRCVD = Some ([Scr], PPP_S_REQSENT).
Proof.
  intros Es Hr. unfold restart_timeout. rewrite (proj2 (Z.eqb_neq _ _)), Es by done. by rewrite state_scr.
Qed.

(** A rejected code in any state stops the automaton without a Terminate-Request, an idle one included. *)
Lemma reject_always_stops l p : state_of l (ev_rxj l p) = PPP_S_STOPPED ∧ sent [] p (ev_rxj l p).
Proof. destruct l; (split; [done | by apply sent_same]). Qed.

(** So a line nobody opened can be talked into opening: a Code-Reject, a request and an
    acknowledgement suffice. *)
Definition lcp_octets (code id : Z) : list Z := wire PPP_PROTO_LCP (cp_packet code id []) 0xffffffff.

Lemma unopened_line_opens :
  let p := ppp_input None (ppp_init None)
             (lcp_octets PPP_CODE_REJ 1 ++ lcp_octets PPP_CONF_REQ 2 ++ lcp_octets PPP_CONF_ACK 1) in
  opened p = false ∧ st (lcp p) = PPP_S_OPENED ∧ ppp_phase p = PPP_PHASE_NETWORK.
Proof. by vm_compute. Qed.

(** IPCP stopped by a reject leaves the guest's address marked as assigned. *)
Lemma ipcp_reject_keeps_address p : assigned p = true →
  st (ipcp (ev_rxj IPCP p)) = PPP_S_STOPPED ∧ assigned (ev_rxj IPCP p) = true.
Proof. done. Qed.
