(* ===== verification/Net.v ===== *)
(** * The network stack: state, checksums, the queue toward the guest, the flow table

    [core/include/net.h], the inline functions of [core/src/net/net_priv.h] and the upper
    half of [core/src/net/net.c].  [net_tcb] is the TCP-only part of [net_flow_t];
    [txbuf] and [rxbuf] hold the first [txlen] and [rxlen] octets of their arrays.  The
    members of [net_stats_t] are a function of their names, the output slots a function of
    the slot index.  [net_egress_t] is the class [Egress] over any type of contexts, each
    member optional since each may be NULL.  A read through a pointer is a read of
    Bytes.v: an operation on guest octets returns [None] where the C code would leave a
    buffer. *)

From S2P Require Import Prelude Bytes.

Definition NET_PROTO_ICMP := 1.
Definition NET_PROTO_TCP := 6.
Definition NET_PROTO_UDP := 17.
Definition NET_MTU := 1500.
Definition NET_TCP_MSS_MAX := 1460.
Definition NET_TCP_TXBUF := 64 * 1024.
Definition NET_TCP_RXBUF := 4096.
Definition NET_TCP_CWND_MAX_SEGMENTS := 3.
Definition NET_MAX_FLOWS := 24.
Definition NET_OUT_SLOTS := 32.
Definition NET_TCP_RTO_MS := 1000.
Definition NET_TCP_RTO_MAX_MS := 16000.
Definition NET_TCP_RTX_MAX := 8.
Definition NET_TCP_TIME_WAIT_MS := 2000.
Definition NET_UDP_IDLE_MS := 60000.
Definition NET_DNS_TTL := 60.
Definition NET_DNS_TIMEOUT_MS := 30000.
Definition NET_TCP_ABORT_NONE := 0.
Definition NET_TCP_ABORT_UNEXPECTED_SYN := 1.
Definition NET_TCP_ABORT_CONNECT := 2.
Definition NET_TCP_ABORT_HOST_SEND := 3.
Definition NET_TCP_ABORT_HOST_RECV := 4.
Definition NET_TCP_ABORT_RETRANSMIT := 5.
Definition NET_DNS_PENDING := 4.
Definition NET_DNS_QUERY_MAX := 271.
Definition NET_ST_PENDING := 0.
Definition NET_ST_READY := 1.
Definition NET_ST_FAILED := -1.
Definition NET_EG_WOULDBLOCK := 0.
Definition NET_EG_EOF := -1.
Definition NET_RES_OK := 0.
Definition NET_RES_PENDING := 1.
Definition NET_RES_NXDOMAIN := -1.
Definition NET_RES_FAIL := -2.
Definition IPV4_HDR_LEN := 20.
Definition TCP_HDR_LEN := 20.
Definition UDP_HDR_LEN := 8.
Definition ICMP_HDR_LEN := 8.
Definition TCP_FIN := 0x01.
Definition TCP_SYN := 0x02.
Definition TCP_RST := 0x04.
Definition TCP_PSH := 0x08.
Definition TCP_ACK := 0x10.
Definition ICMP_ECHO_REPLY := 0.
Definition ICMP_ECHO_REQUEST := 8.

(** The members of [net_egress_t].  [eg_recv] also yields the octets it placed in the
    buffer, [eg_resolve] the address it stored. *)
Class Egress (E : Type) := {
  eg_open : option (E → Z → Z → Z → Z * E);
  eg_status : option (E → Z → Z * E);
  eg_send : option (E → Z → list Z → Z * E);
  eg_recv : option (E → Z → Z → Z * list Z * E);
  eg_shutdown_tx : option (E → Z → E);
  eg_close : option (E → Z → E);
  eg_resolve : option (E → list Z → Z * Z * E);
  eg_icmp_echo : option (E → Z → list Z → Z * E) }.

(** What [net.h] says of them: no more octets accepted than offered, no more delivered
    than there is room for, an address is a word. *)
Class EgressOk (E : Type) `{Egress E} := {
  send_ok : ∀ send e h d r e', eg_send = Some send → send e h d = (r, e') → r <= blen d;
  recv_ok : ∀ recv e h n r d e', eg_recv = Some recv → recv e h n = (r, d, e') →
    0 < r → r <= n ∧ blen d = r ∧ is_bytes d;
  resolve_ok : ∀ resolve e n r a e', eg_resolve = Some resolve → resolve e n = (r, a, e') →
    uint 32 a }.

Inductive net_tcp_state :=
  | NET_TCP_CLOSED | NET_TCP_SYN_RCVD | NET_TCP_ESTABLISHED | NET_TCP_FIN_WAIT_1
  | NET_TCP_FIN_WAIT_2 | NET_TCP_CLOSE_WAIT | NET_TCP_CLOSING | NET_TCP_LAST_ACK
  | NET_TCP_TIME_WAIT.
#[export] Instance net_tcp_state_eq_dec : EqDecision net_tcp_state.
Proof. solve_decision. Defined.

(** [(uint32_t)f->state]. *)
Definition tcp_state_code (s : net_tcp_state) : Z :=
  match s with
  | NET_TCP_CLOSED => 0 | NET_TCP_SYN_RCVD => 1 | NET_TCP_ESTABLISHED => 2
  | NET_TCP_FIN_WAIT_1 => 3 | NET_TCP_FIN_WAIT_2 => 4 | NET_TCP_CLOSE_WAIT => 5
  | NET_TCP_CLOSING => 6 | NET_TCP_LAST_ACK => 7 | NET_TCP_TIME_WAIT => 8
  end.

Inductive net_stat :=
  | ip_in | ip_out | ip_bad_version | ip_bad_header | ip_bad_checksum | ip_frags_refused
  | ip_bad_source | proto_unsupported | icmp_in | icmp_echo_replies | icmp_unsupported
  | udp_in | udp_out | dns_queries | dns_answered | dns_nxdomain | dns_failed | dns_deferred
  | dns_pending_full | dns_timeouts | dns_malformed | dns_last_flags | dns_last_qdcount
  | tcp_in_ | tcp_out_ | tcp_syns | tcp_established | tcp_refused | tcp_resets_out
  | tcp_resets_in | tcp_retransmits | tcp_out_of_order | tcp_bytes_to_host
  | tcp_bytes_to_guest | tcp_bytes_acked_by_guest | tcp_aborts_unexpected_syn
  | tcp_aborts_connect | tcp_aborts_host_send | tcp_aborts_host_recv | tcp_aborts_retransmit
  | tcp_last_abort_reason | tcp_last_abort_state | tcp_last_abort_window
  | tcp_last_abort_inflight | tcp_last_abort_buffered | tcp_last_abort_retries
  | tcp_last_peer_reset_state | tcp_last_peer_reset_window | tcp_last_peer_reset_inflight
  | tcp_last_peer_reset_buffered | tcp_last_peer_reset_retries | flows_open | flows_peak
  | flow_table_full | out_dropped.
#[export] Instance net_stat_eq_dec : EqDecision net_stat.
Proof. solve_decision. Defined.

Record net_config := MkNetConfig {
  guest_ip : Z; local_ip : Z; dns_ip : Z; iss : Z; tcp_cwnd_segments : Z }.

Record net_tcb := MkTcb {
  state : net_tcp_state; irs : Z; rcv_nxt : Z; snd_una : Z; snd_nxt : Z; snd_max : Z;
  snd_wnd : Z; mss : Z; cwnd : Z; cwnd_limit : Z; ssthresh : Z; fin_sent : bool;
  host_eof : bool; tx_shutdown : bool; need_ack : bool; rto_on : bool; rto_at : Z; rtx : Z;
  close_at : Z; txbuf : list Z; rxbuf : list Z }.

Record net_flow := MkFlow {
  used : bool; proto : Z; guest_port : Z; dst_ip : Z; dst_port : Z; handle : Z; last_ms : Z;
  tcb : net_tcb }.

(** [query_len] is the length of [query]. *)
Record net_dns_pending := MkPending {
  pused : bool; pguest_port : Z; started_ms : Z; pname : list Z; query : list Z }.

Record net_stack (E : Type) := MkStack {
  cfg : net_config; eg : E; stats : net_stat → Z; now_ms : Z; iss_walk : Z;
  flow : Z → net_flow; dns : Z → net_dns_pending;
  out : Z → list Z; out_head : Z; out_tail : Z }.
Arguments MkStack {E} _ _ _ _ _ _ _ _ _ _.
Arguments cfg {E} _. Arguments eg {E} _. Arguments stats {E} _. Arguments now_ms {E} _.
Arguments iss_walk {E} _. Arguments flow {E} _. Arguments dns {E} _. Arguments out {E} _.
Arguments out_head {E} _. Arguments out_tail {E} _.

Definition txlen (t : net_tcb) : Z := blen (txbuf t).
Definition rxlen (t : net_tcb) : Z := blen (rxbuf t).

(** ** Assignments to fields *)

Definition tc_state (v : net_tcp_state) (t : net_tcb) : net_tcb :=
  MkTcb v (irs t) (rcv_nxt t) (snd_una t) (snd_nxt t) (snd_max t) (snd_wnd t) (mss t) (cwnd t)
    (cwnd_limit t) (ssthresh t) (fin_sent t) (host_eof t) (tx_shutdown t) (need_ack t) (rto_on
    t) (rto_at t) (rtx t) (close_at t) (txbuf t) (rxbuf t).
Definition tc_irs (v : Z) (t : net_tcb) : net_tcb :=
  MkTcb (state t) v (rcv_nxt t) (snd_una t) (snd_nxt t) (snd_max t) (snd_wnd t) (mss t) (cwnd t)
    (cwnd_limit t) (ssthresh t) (fin_sent t) (host_eof t) (tx_shutdown t) (need_ack t) (rto_on
    t) (rto_at t) (rtx t) (close_at t) (txbuf t) (rxbuf t).
Definition tc_rcv_nxt (v : Z) (t : net_tcb) : net_tcb :=
  MkTcb (state t) (irs t) v (snd_una t) (snd_nxt t) (snd_max t) (snd_wnd t) (mss t) (cwnd t)
    (cwnd_limit t) (ssthresh t) (fin_sent t) (host_eof t) (tx_shutdown t) (need_ack t) (rto_on
    t) (rto_at t) (rtx t) (close_at t) (txbuf t) (rxbuf t).
Definition tc_snd_una (v : Z) (t : net_tcb) : net_tcb :=
  MkTcb (state t) (irs t) (rcv_nxt t) v (snd_nxt t) (snd_max t) (snd_wnd t) (mss t) (cwnd t)
    (cwnd_limit t) (ssthresh t) (fin_sent t) (host_eof t) (tx_shutdown t) (need_ack t) (rto_on
    t) (rto_at t) (rtx t) (close_at t) (txbuf t) (rxbuf t).
Definition tc_snd_nxt (v : Z) (t : net_tcb) : net_tcb :=
  MkTcb (state t) (irs t) (rcv_nxt t) (snd_una t) v (snd_max t) (snd_wnd t) (mss t) (cwnd t)
    (cwnd_limit t) (ssthresh t) (fin_sent t) (host_eof t) (tx_shutdown t) (need_ack t) (rto_on
    t) (rto_at t) (rtx t) (close_at t) (txbuf t) (rxbuf t).
Definition tc_snd_max (v : Z) (t : net_tcb) : net_tcb :=
  MkTcb (state t) (irs t) (rcv_nxt t) (snd_una t) (snd_nxt t) v (snd_wnd t) (mss t) (cwnd t)
    (cwnd_limit t) (ssthresh t) (fin_sent t) (host_eof t) (tx_shutdown t) (need_ack t) (rto_on
    t) (rto_at t) (rtx t) (close_at t) (txbuf t) (rxbuf t).
Definition tc_snd_wnd (v : Z) (t : net_tcb) : net_tcb :=
  MkTcb (state t) (irs t) (rcv_nxt t) (snd_una t) (snd_nxt t) (snd_max t) v (mss t) (cwnd t)
    (cwnd_limit t) (ssthresh t) (fin_sent t) (host_eof t) (tx_shutdown t) (need_ack t) (rto_on
    t) (rto_at t) (rtx t) (close_at t) (txbuf t) (rxbuf t).
Definition tc_mss (v : Z) (t : net_tcb) : net_tcb :=
  MkTcb (state t) (irs t) (rcv_nxt t) (snd_una t) (snd_nxt t) (snd_max t) (snd_wnd t) v (cwnd t)
    (cwnd_limit t) (ssthresh t) (fin_sent t) (host_eof t) (tx_shutdown t) (need_ack t) (rto_on
    t) (rto_at t) (rtx t) (close_at t) (txbuf t) (rxbuf t).
Definition tc_cwnd (v : Z) (t : net_tcb) : net_tcb :=
  MkTcb (state t) (irs t) (rcv_nxt t) (snd_una t) (snd_nxt t) (snd_max t) (snd_wnd t) (mss t) v
    (cwnd_limit t) (ssthresh t) (fin_sent t) (host_eof t) (tx_shutdown t) (need_ack t) (rto_on
    t) (rto_at t) (rtx t) (close_at t) (txbuf t) (rxbuf t).
Definition tc_cwnd_limit (v : Z) (t : net_tcb) : net_tcb :=
  MkTcb (state t) (irs t) (rcv_nxt t) (snd_una t) (snd_nxt t) (snd_max t) (snd_wnd t) (mss t)
    (cwnd t) v (ssthresh t) (fin_sent t) (host_eof t) (tx_shutdown t) (need_ack t) (rto_on t)
    (rto_at t) (rtx t) (close_at t) (txbuf t) (rxbuf t).
Definition tc_ssthresh (v : Z) (t : net_tcb) : net_tcb :=
  MkTcb (state t) (irs t) (rcv_nxt t) (snd_una t) (snd_nxt t) (snd_max t) (snd_wnd t) (mss t)
    (cwnd t) (cwnd_limit t) v (fin_sent t) (host_eof t) (tx_shutdown t) (need_ack t) (rto_on t)
    (rto_at t) (rtx t) (close_at t) (txbuf t) (rxbuf t).
Definition tc_fin_sent (v : bool) (t : net_tcb) : net_tcb :=
  MkTcb (state t) (irs t) (rcv_nxt t) (snd_una t) (snd_nxt t) (snd_max t) (snd_wnd t) (mss t)
    (cwnd t) (cwnd_limit t) (ssthresh t) v (host_eof t) (tx_shutdown t) (need_ack t) (rto_on t)
    (rto_at t) (rtx t) (close_at t) (txbuf t) (rxbuf t).
Definition tc_host_eof (v : bool) (t : net_tcb) : net_tcb :=
  MkTcb (state t) (irs t) (rcv_nxt t) (snd_una t) (snd_nxt t) (snd_max t) (snd_wnd t) (mss t)
    (cwnd t) (cwnd_limit t) (ssthresh t) (fin_sent t) v (tx_shutdown t) (need_ack t) (rto_on t)
    (rto_at t) (rtx t) (close_at t) (txbuf t) (rxbuf t).
Definition tc_tx_shutdown (v : bool) (t : net_tcb) : net_tcb :=
  MkTcb (state t) (irs t) (rcv_nxt t) (snd_una t) (snd_nxt t) (snd_max t) (snd_wnd t) (mss t)
    (cwnd t) (cwnd_limit t) (ssthresh t) (fin_sent t) (host_eof t) v (need_ack t) (rto_on t)
    (rto_at t) (rtx t) (close_at t) (txbuf t) (rxbuf t).
Definition tc_need_ack (v : bool) (t : net_tcb) : net_tcb :=
  MkTcb (state t) (irs t) (rcv_nxt t) (snd_una t) (snd_nxt t) (snd_max t) (snd_wnd t) (mss t)
    (cwnd t) (cwnd_limit t) (ssthresh t) (fin_sent t) (host_eof t) (tx_shutdown t) v (rto_on t)
    (rto_at t) (rtx t) (close_at t) (txbuf t) (rxbuf t).
Definition tc_rto_on (v : bool) (t : net_tcb) : net_tcb :=
  MkTcb (state t) (irs t) (rcv_nxt t) (snd_una t) (snd_nxt t) (snd_max t) (snd_wnd t) (mss t)
    (cwnd t) (cwnd_limit t) (ssthresh t) (fin_sent t) (host_eof t) (tx_shutdown t) (need_ack t)
    v (rto_at t) (rtx t) (close_at t) (txbuf t) (rxbuf t).
Definition tc_rto_at (v : Z) (t : net_tcb) : net_tcb :=
  MkTcb (state t) (irs t) (rcv_nxt t) (snd_una t) (snd_nxt t) (snd_max t) (snd_wnd t) (mss t)
    (cwnd t) (cwnd_limit t) (ssthresh t) (fin_sent t) (host_eof t) (tx_shutdown t) (need_ack t)
    (rto_on t) v (rtx t) (close_at t) (txbuf t) (rxbuf t).
Definition tc_rtx (v : Z) (t : net_tcb) : net_tcb :=
  MkTcb (state t) (irs t) (rcv_nxt t) (snd_una t) (snd_nxt t) (snd_max t) (snd_wnd t) (mss t)
    (cwnd t) (cwnd_limit t) (ssthresh t) (fin_sent t) (host_eof t) (tx_shutdown t) (need_ack t)
    (rto_on t) (rto_at t) v (close_at t) (txbuf t) (rxbuf t).
Definition tc_close_at (v : Z) (t : net_tcb) : net_tcb :=
  MkTcb (state t) (irs t) (rcv_nxt t) (snd_una t) (snd_nxt t) (snd_max t) (snd_wnd t) (mss t)
    (cwnd t) (cwnd_limit t) (ssthresh t) (fin_sent t) (host_eof t) (tx_shutdown t) (need_ack t)
    (rto_on t) (rto_at t) (rtx t) v (txbuf t) (rxbuf t).
Definition tc_txbuf (v : list Z) (t : net_tcb) : net_tcb :=
  MkTcb (state t) (irs t) (rcv_nxt t) (snd_una t) (snd_nxt t) (snd_max t) (snd_wnd t) (mss t)
    (cwnd t) (cwnd_limit t) (ssthresh t) (fin_sent t) (host_eof t) (tx_shutdown t) (need_ack t)
    (rto_on t) (rto_at t) (rtx t) (close_at t) v (rxbuf t).
Definition tc_rxbuf (v : list Z) (t : net_tcb) : net_tcb :=
  MkTcb (state t) (irs t) (rcv_nxt t) (snd_una t) (snd_nxt t) (snd_max t) (snd_wnd t) (mss t)
    (cwnd t) (cwnd_limit t) (ssthresh t) (fin_sent t) (host_eof t) (tx_shutdown t) (need_ack t)
    (rto_on t) (rto_at t) (rtx t) (close_at t) (txbuf t) v.

Definition fl_used (v : bool) (f : net_flow) : net_flow :=
  MkFlow v (proto f) (guest_port f) (dst_ip f) (dst_port f) (handle f) (last_ms f) (tcb f).
Definition fl_proto (v : Z) (f : net_flow) : net_flow :=
  MkFlow (used f) v (guest_port f) (dst_ip f) (dst_port f) (handle f) (last_ms f) (tcb f).
Definition fl_guest_port (v : Z) (f : net_flow) : net_flow :=
  MkFlow (used f) (proto f) v (dst_ip f) (dst_port f) (handle f) (last_ms f) (tcb f).
Definition fl_dst_ip (v : Z) (f : net_flow) : net_flow :=
  MkFlow (used f) (proto f) (guest_port f) v (dst_port f) (handle f) (last_ms f) (tcb f).
Definition fl_dst_port (v : Z) (f : net_flow) : net_flow :=
  MkFlow (used f) (proto f) (guest_port f) (dst_ip f) v (handle f) (last_ms f) (tcb f).
Definition fl_handle (v : Z) (f : net_flow) : net_flow :=
  MkFlow (used f) (proto f) (guest_port f) (dst_ip f) (dst_port f) v (last_ms f) (tcb f).
Definition fl_last_ms (v : Z) (f : net_flow) : net_flow :=
  MkFlow (used f) (proto f) (guest_port f) (dst_ip f) (dst_port f) (handle f) v (tcb f).
Definition fl_tcb (v : net_tcb) (f : net_flow) : net_flow :=
  MkFlow (used f) (proto f) (guest_port f) (dst_ip f) (dst_port f) (handle f) (last_ms f) v.

Section setters.
Context {E : Type}.
Definition n_cfg (v : net_config) (ns : net_stack E) : net_stack E :=
  MkStack v (eg ns) (stats ns) (now_ms ns) (iss_walk ns) (flow ns) (dns ns) (out ns) (out_head
    ns) (out_tail ns).
Definition n_eg (v : E) (ns : net_stack E) : net_stack E :=
  MkStack (cfg ns) v (stats ns) (now_ms ns) (iss_walk ns) (flow ns) (dns ns) (out ns) (out_head
    ns) (out_tail ns).
Definition n_stats (v : net_stat → Z) (ns : net_stack E) : net_stack E :=
  MkStack (cfg ns) (eg ns) v (now_ms ns) (iss_walk ns) (flow ns) (dns ns) (out ns) (out_head ns)
    (out_tail ns).
Definition n_now_ms (v : Z) (ns : net_stack E) : net_stack E :=
  MkStack (cfg ns) (eg ns) (stats ns) v (iss_walk ns) (flow ns) (dns ns) (out ns) (out_head ns)
    (out_tail ns).
Definition n_iss_walk (v : Z) (ns : net_stack E) : net_stack E :=
  MkStack (cfg ns) (eg ns) (stats ns) (now_ms ns) v (flow ns) (dns ns) (out ns) (out_head ns)
    (out_tail ns).
Definition n_flow (v : Z → net_flow) (ns : net_stack E) : net_stack E :=
  MkStack (cfg ns) (eg ns) (stats ns) (now_ms ns) (iss_walk ns) v (dns ns) (out ns) (out_head
    ns) (out_tail ns).
Definition n_dns (v : Z → net_dns_pending) (ns : net_stack E) : net_stack E :=
  MkStack (cfg ns) (eg ns) (stats ns) (now_ms ns) (iss_walk ns) (flow ns) v (out ns) (out_head
    ns) (out_tail ns).
Definition n_out (v : Z → list Z) (ns : net_stack E) : net_stack E :=
  MkStack (cfg ns) (eg ns) (stats ns) (now_ms ns) (iss_walk ns) (flow ns) (dns ns) v (out_head
    ns) (out_tail ns).
Definition n_out_head (v : Z) (ns : net_stack E) : net_stack E :=
  MkStack (cfg ns) (eg ns) (stats ns) (now_ms ns) (iss_walk ns) (flow ns) (dns ns) (out ns) v
    (out_tail ns).
Definition n_out_tail (v : Z) (ns : net_stack E) : net_stack E :=
  MkStack (cfg ns) (eg ns) (stats ns) (now_ms ns) (iss_walk ns) (flow ns) (dns ns) (out ns)
    (out_head ns) v.
End setters.

(** ** Octets and sequence numbers *)

Definition net_rd16 (p : list Z) (off : Z) : option Z :=
  p0 ← get8 p off; p1 ← get8 p (off + 1); Some (Z.shiftl p0 8 .| p1).
Definition net_rd32 (p : list Z) (off : Z) : option Z :=
  p0 ← get8 p off; p1 ← get8 p (off + 1); p2 ← get8 p (off + 2); p3 ← get8 p (off + 3);
  Some (((Z.shiftl p0 24 .| Z.shiftl p1 16) .| Z.shiftl p2 8) .| p3).
(** The octets that [net_wr16] and [net_wr32] store. *)
Definition net_wr16 (v : Z) : list Z := [fld v 8 0xff; v .& 0xff].
Definition net_wr32 (v : Z) : list Z := [fld v 24 0xff; fld v 16 0xff; fld v 8 0xff; v .& 0xff].
Definition net_seq_lt (a b : Z) : bool := s32 (a - b) <? 0.
Definition net_seq_le (a b : Z) : bool := s32 (a - b) <=? 0.
(** [flags & bit]. *)
Definition has_flag (flags b : Z) : bool := negb (flags .& b =? 0).

(** ** Checksums *)

(** The summing loop and the odd octet after it. *)
Fixpoint sum16 (sum : Z) (data : list Z) : Z :=
  match data with
  | a :: b :: data => sum16 (sum +w (Z.shiftl a 8 .| b)) data
  | [a] => sum +w Z.shiftl a 8
  | [] => sum
  end.

(** [while (sum >> 16)]; two turns always suffice for a 32-bit sum ([fold16_done]). *)
Fixpoint fold16 (turns : nat) (sum : Z) : Z :=
  match turns with
  | O => sum
  | S turns => if sum .>> 16 =? 0 then sum else fold16 turns ((sum .& 0xffff) +w (sum .>> 16))
  end.

Definition net_checksum (data : list Z) : Z := wnot (fold16 2 (sum16 0 data)) .& 0xffff.

Definition pseudo_header (src dst proto n : Z) : list Z :=
  net_wr32 src ++ net_wr32 dst ++ [0; w8 proto] ++ net_wr16 (w16 n).
Definition net_l4_checksum (src dst proto : Z) (seg : list Z) : Z :=
  wnot (fold16 2 (sum16 (sum16 0 (pseudo_header src dst proto (blen seg))) seg)) .& 0xffff.

(** ** The IPv4 header *)

Definition ipv4_header (len ident proto sum src dst : Z) : list Z :=
  [0x45; 0] ++ net_wr16 len ++ net_wr16 ident ++ net_wr16 0x4000 ++ [64; w8 proto]
  ++ net_wr16 sum ++ net_wr32 src ++ net_wr32 dst.

(** [None] is the result 0; the header is written at the start of [out]. *)
Definition net_build_ipv4 (cap src dst proto ident payload_len : Z) : option (list Z) :=
  if cap <? IPV4_HDR_LEN then None
  else if NET_MTU <? payload_len + IPV4_HDR_LEN then None
  else
    let len := w16 (IPV4_HDR_LEN + payload_len) in
    Some (ipv4_header len ident proto
            (net_checksum (ipv4_header len ident proto 0 src dst)) src dst).

(** ** Receive coalescing *)

Definition plain_tcp_data (p : list Z) : option bool :=
  if (blen p <=? 40) || (65535 <? blen p) then Some false else
  p0 ← get8 p 0; len ← net_rd16 p 2; frag ← net_rd16 p 6; pr ← get8 p 9;
  off ← get8 p 32; fl ← get8 p 33; urg ← net_rd16 p 38;
  hdr ← get_bytes p 0 20; src ← net_rd32 p 12; dst ← net_rd32 p 16;
  seg ← get_bytes p 20 (blen p - 20);
  Some ((p0 =? 0x45) && (len =? blen p) && (frag =? 0x4000) && (pr =? NET_PROTO_TCP)
        && (off =? 0x50) && ((fl =? 0x10) || (fl =? 0x18)) && (urg =? 0)
        && (net_checksum hdr =? 0) && (net_l4_checksum src dst NET_PROTO_TCP seg =? 0)).

(** [memcmp(a + off, b + off, n) == 0]. *)
Definition same_bytes (a b : list Z) (off n : Z) : option bool :=
  x ← get_bytes a off n; y ← get_bytes b off n; Some (bool_decide (x = y)).

(** The coalesced datagram, [Some []] for the result 0: [dst] is then unchanged. *)
Definition net_tcp_receive_coalesce (dst : list Z) (capacity : Z) (next : list Z) : option (list Z) :=
  let n := blen dst in let nn := blen next in
  if capacity <? n then Some [] else
  ok1 ← plain_tcp_data dst; ok2 ← plain_tcp_data next;
  if negb (ok1 && ok2) then Some [] else
  if (capacity - n <? nn - 40) || (65535 <? n + nn - 40) then Some [] else
  tos ← same_bytes dst next 1 1; ttl ← same_bytes dst next 8 1;
  tuple ← same_bytes dst next 12 12; ack ← same_bytes dst next 28 4;
  wnd ← same_bytes dst next 34 2; s ← net_rd32 dst 24; s' ← net_rd32 next 24;
  if negb (tos && ttl && tuple && ack && wnd && (s' =? s +w (n - 40))) then Some [] else
  pay ← get_bytes next 40 (nn - 40); f1 ← get8 dst 33; f2 ← get8 next 33;
  let dst := dst ++ pay in
  let n := blen dst in
  dst ← put_bytes dst 33 [f1 .| f2];
  dst ← put_bytes dst 2 (net_wr16 (w16 n));
  dst ← put_bytes dst 10 (net_wr16 0);
  hdr ← get_bytes dst 0 20;
  dst ← put_bytes dst 10 (net_wr16 (net_checksum hdr));
  dst ← put_bytes dst 36 (net_wr16 0);
  a ← net_rd32 dst 12; b ← net_rd32 dst 16; seg ← get_bytes dst 20 (n - 20);
  put_bytes dst 36 (net_wr16 (net_l4_checksum a b NET_PROTO_TCP seg)).

(** ** The queue toward the guest *)

Section stack.
Context {E : Type} `{Egress E}.
Implicit Types ns : net_stack E.

Definition bump_stat (c : net_stat) (n : Z) ns : net_stack E :=
  n_stats (<[c := w64 (stats ns c + n)]> (stats ns)) ns.
Definition set_stat (c : net_stat) (v : Z) ns : net_stack E :=
  n_stats (<[c := v]> (stats ns)) ns.

(** [None] for NULL, otherwise the index of the slot. *)
Definition net_out_alloc ns : option Z :=
  if NET_OUT_SLOTS <=? out_head ns -w out_tail ns then None else Some (out_head ns mod NET_OUT_SLOTS).

Definition net_emit (src dst proto : Z) (payload : list Z) ns : bool * net_stack E :=
  if NET_MTU <? blen payload + IPV4_HDR_LEN then (false, bump_stat out_dropped 1 ns) else
  match net_out_alloc ns with
  | None => (false, bump_stat out_dropped 1 ns)
  | Some d =>
    match net_build_ipv4 NET_MTU src dst proto (w16 (stats ns ip_out + 1)) (blen payload) with
    | None => (false, bump_stat out_dropped 1 ns)
    | Some hdr =>
      let ns := n_out (<[d := hdr ++ payload]> (out ns)) ns in
      (true, bump_stat ip_out 1 (n_out_head (out_head ns +w 1) ns))
    end
  end.

Definition net_output_peek ns : Z :=
  if out_head ns =? out_tail ns then 0 else blen (out ns (out_tail ns mod NET_OUT_SLOTS)).
Definition net_output_pending ns : Z := out_head ns -w out_tail ns.
(** The empty list is the result 0. *)
Definition net_output (cap : Z) ns : list Z * net_stack E :=
  if out_head ns =? out_tail ns then ([], ns) else
  let d := out ns (out_tail ns mod NET_OUT_SLOTS) in
  if cap <? blen d then ([], ns) else (d, n_out_tail (out_tail ns +w 1) ns).

(** ** The flow table *)

Definition on_flow (i : Z) (g : net_flow → net_flow) ns : net_stack E :=
  n_flow (<[i := g (flow ns i)]> (flow ns)) ns.
Definition on_tcb (i : Z) (g : net_tcb → net_tcb) : net_stack E → net_stack E :=
  on_flow i (fun f => fl_tcb (g (tcb f)) f).

Definition zero_tcb : net_tcb :=
  MkTcb NET_TCP_CLOSED 0 0 0 0 0 0 0 0 0 0 false false false false false 0 0 0 [] [].
Definition zero_flow : net_flow := MkFlow false 0 0 0 0 0 0 zero_tcb.

Definition flow_indices : list Z := seqZ 0 NET_MAX_FLOWS.

Definition flow_matches (proto gport dst_ip dport : Z) (f : net_flow) : bool :=
  used f && (Net.proto f =? proto) && (guest_port f =? gport) && (Net.dst_ip f =? dst_ip)
  && (dst_port f =? dport).
(** [None] for NULL, otherwise the index of the flow. *)
Definition net_flow_find (proto gport dst_ip dport : Z) ns : option Z :=
  find (fun i => flow_matches proto gport dst_ip dport (flow ns i)) flow_indices.

Definition net_flows_open ns : Z :=
  Z.of_nat (length (List.filter (fun i => used (flow ns i)) flow_indices)).

Definition net_flow_alloc (proto gport dst_ip dport : Z) ns : option Z * net_stack E :=
  match find (fun i => negb (used (flow ns i))) flow_indices with
  | None => (None, bump_stat flow_table_full 1 ns)
  | Some i =>
    let ns := on_flow i (fun _ =>
      MkFlow true proto gport dst_ip dport (-1) (now_ms ns) zero_tcb) ns in
    let ns := bump_stat flows_open 1 ns in
    let live := net_flows_open ns in
    (Some i, if stats ns flows_peak <? live then set_stat flows_peak live ns else ns)
  end.

Definition net_flow_free (i : Z) ns : net_stack E :=
  if negb (used (flow ns i)) then ns else
  let h := handle (flow ns i) in
  let ns :=
    match eg_close with
    | Some close => if 0 <=? h then n_eg (close (eg ns) h) ns else ns
    | None => ns
    end in
  on_flow i (fun _ => fl_handle (-1) zero_flow) ns.
End stack.
