(* ===== verification/Tcp.v ===== *)
(** * The TCP endpoint

    [core/src/net/tcp.c]: one RFC 793 endpoint per guest flow, always the passive side.
    Functions act on the stack and the index of the flow, as the C functions act on [ns]
    and [f = &ns->flow[i]]; those that touch only the control block are functions on
    [net_tcb].  [None] means a buffer was left or a loop did not end. *)

From S2P Require Import Prelude Bytes Net.

(** ** Functions of the control block *)

Definition tcp_backoff (rtx : Z) : Z :=
  let ms := for_range (Z.to_nat rtx) 0
    (fun _ ms => if ms <? NET_TCP_RTO_MAX_MS then ms *w 2 else ms) NET_TCP_RTO_MS in
  if NET_TCP_RTO_MAX_MS <? ms then NET_TCP_RTO_MAX_MS else ms.

Definition tcp_timers (now : Z) (t : net_tcb) : net_tcb :=
  let unacked := negb (snd_nxt t =? snd_una t) in
  let persist := negb unacked && negb (txlen t =? 0) && (snd_wnd t =? 0) in
  if unacked || persist then
    if rto_on t then t else tc_rto_at (now +w tcp_backoff (rtx t)) (tc_rto_on true t)
  else tc_rtx 0 (tc_rto_on false t).

Definition tcp_inflight (t : net_tcb) : Z :=
  let n := snd_nxt t -w snd_una t in
  if fin_sent t && (txlen t <? n) then txlen t else n.

Definition tcp_initial_cwnd (mss : Z) : Z :=
  let four := 4 *w mss in
  let floor := 2 *w mss in
  let floor := if floor <? 4380 then 4380 else floor in
  if four <? floor then four else floor.

Definition tcp_cwnd_ceiling (t : net_tcb) : Z :=
  let segments := if cwnd_limit t =? 0 then NET_TCP_CWND_MAX_SEGMENTS else cwnd_limit t in
  let segments := if NET_OUT_SLOTS <? segments then NET_OUT_SLOTS else segments in
  let ceiling := segments *w mss t in
  if ceiling <? NET_TCP_TXBUF then ceiling else NET_TCP_TXBUF.

Definition tcp_cwnd_ack (acknowledged : Z) (t : net_tcb) : net_tcb :=
  if acknowledged =? 0 then t else
  let increase :=
    if cwnd t <? ssthresh t then if acknowledged <? mss t then acknowledged else mss t
    else
      let increase := (mss t *w mss t) / cwnd t in
      if increase =? 0 then 1 else increase in
  let ceiling := tcp_cwnd_ceiling t in
  if (ceiling <=? cwnd t) || (ceiling -w cwnd t <? increase) then tc_cwnd ceiling t
  else tc_cwnd (cwnd t +w increase) t.

Definition tcp_cwnd_timeout (t : net_tcb) : net_tcb :=
  let floor := 2 *w mss t in
  let threshold := tcp_inflight t / 2 in
  let threshold := if threshold <? floor then floor else threshold in
  let ceiling := tcp_cwnd_ceiling t in
  tc_cwnd (mss t) (tc_ssthresh (if threshold <? ceiling then threshold else ceiling) t).

Definition tcp_guest_finished (s : net_tcp_state) : bool :=
  match s with
  | NET_TCP_CLOSE_WAIT | NET_TCP_CLOSING | NET_TCP_LAST_ACK | NET_TCP_TIME_WAIT => true
  | _ => false
  end.

(** The state after the guest acknowledges our FIN. *)
Definition tcp_fin_acked (now : Z) (t : net_tcb) : net_tcb :=
  match state t with
  | NET_TCP_FIN_WAIT_1 => tc_state NET_TCP_FIN_WAIT_2 t
  | NET_TCP_CLOSING =>
    tc_close_at (now +w NET_TCP_TIME_WAIT_MS) (tc_state NET_TCP_TIME_WAIT t)
  | NET_TCP_LAST_ACK => tc_state NET_TCP_CLOSED t
  | _ => t
  end.

(** ** Segments toward the guest *)

Definition tcp_header (sport dport seq ack off flags wnd sum : Z) (opts : list Z) : list Z :=
  net_wr16 sport ++ net_wr16 dport ++ net_wr32 seq ++ net_wr32 ack ++ [off; flags]
  ++ net_wr16 wnd ++ net_wr16 sum ++ net_wr16 0 ++ opts.

(** The Maximum Segment Size option. *)
Definition mss_option : list Z := [2; 4] ++ net_wr16 NET_TCP_MSS_MAX.

(** [if (end is later) snd_max = end] for a segment of [n] octets at [seq]. *)
Definition commit_seq (flags seq n : Z) (t : net_tcb) : net_tcb :=
  if (0 <? n) || has_flag flags (TCP_SYN .| TCP_FIN) then
    let e := seq +w n in
    let e := if has_flag flags TCP_SYN then e +w 1 else e in
    let e := if has_flag flags TCP_FIN then e +w 1 else e in
    if net_seq_lt (snd_max t) e then tc_snd_max e t else t
  else t.

Section tcp.
Context {E : Type} `{Egress E}.
Implicit Types ns : net_stack E.

Definition the_tcb (i : Z) ns : net_tcb := tcb (flow ns i).

(** The segment [tcp_out] builds, with the given checksum. *)
Definition tcp_segment (i flags seq : Z) (data : list Z) (sum : Z) ns : list Z :=
  let f := flow ns i in
  let opts := if has_flag flags TCP_SYN then mss_option else [] in
  let wnd := NET_TCP_RXBUF -w rxlen (tcb f) in
  let wnd := if 0xffff <? wnd then 0xffff else wnd in
  tcp_header (dst_port f) (guest_port f) seq
    (if has_flag flags TCP_ACK then rcv_nxt (tcb f) else 0)
    (w8 (Z.shiftl ((TCP_HDR_LEN + blen opts) / 4) 4)) flags wnd sum opts ++ data.

Definition tcp_out (i flags seq : Z) (data : list Z) ns : option (bool * net_stack E) :=
  let f := flow ns i in
  let n := blen data in
  let total := blen (tcp_segment i flags seq data 0 ns) in
  if TCP_HDR_LEN + 4 + NET_TCP_MSS_MAX <? total then None else
  let sum := net_l4_checksum (dst_ip f) (guest_ip (cfg ns)) NET_PROTO_TCP
               (tcp_segment i flags seq data 0 ns) in
  let '(ok, ns) := net_emit (dst_ip f) (guest_ip (cfg ns)) NET_PROTO_TCP
                     (tcp_segment i flags seq data sum ns) ns in
  if negb ok then Some (false, ns) else
  let ns := on_tcb i (commit_seq flags seq n) ns in
  let ns := bump_stat tcp_out_ 1 ns in
  let ns := if 0 <? n then bump_stat tcp_bytes_to_guest n ns else ns in
  Some (true, if has_flag flags TCP_ACK then on_tcb i (tc_need_ack false) ns else ns).

Definition reject_segment (sport dport seq ack flags sum : Z) : list Z :=
  tcp_header sport dport seq ack 0x50 flags 0 sum [].

Definition tcp_reject (dst : Z) (seg : list Z) (paylen : Z) ns : option (net_stack E) :=
  flags ← get8 seg 13;
  if has_flag flags TCP_RST then Some ns else
  dport ← net_rd16 seg 2; sport ← net_rd16 seg 0;
  ack ← net_rd32 seg 8; seq ← net_rd32 seg 4;
  let e := seq +w paylen in
  let e := if has_flag flags TCP_SYN then e +w 1 else e in
  let e := if has_flag flags TCP_FIN then e +w 1 else e in
  let r := if has_flag flags TCP_ACK then reject_segment dport sport ack 0 TCP_RST
           else reject_segment dport sport 0 e (TCP_RST .| TCP_ACK) in
  let '(ok, ns) := net_emit dst (guest_ip (cfg ns)) NET_PROTO_TCP
                     (r (net_l4_checksum dst (guest_ip (cfg ns)) NET_PROTO_TCP (r 0))) ns in
  Some (if (ok : bool) then bump_stat tcp_resets_out 1 ns else ns).

Definition count_abort (reason : Z) ns : Z * net_stack E :=
  if reason =? NET_TCP_ABORT_UNEXPECTED_SYN then (reason, bump_stat tcp_aborts_unexpected_syn 1 ns)
  else if reason =? NET_TCP_ABORT_CONNECT then (reason, bump_stat tcp_aborts_connect 1 ns)
  else if reason =? NET_TCP_ABORT_HOST_SEND then (reason, bump_stat tcp_aborts_host_send 1 ns)
  else if reason =? NET_TCP_ABORT_HOST_RECV then (reason, bump_stat tcp_aborts_host_recv 1 ns)
  else if reason =? NET_TCP_ABORT_RETRANSMIT then (reason, bump_stat tcp_aborts_retransmit 1 ns)
  else (NET_TCP_ABORT_NONE, ns).

Definition tcp_abort (i reason : Z) ns : option (net_stack E) :=
  let '(reason, ns) := count_abort reason ns in
  let t := the_tcb i ns in
  let ns := set_stat tcp_last_abort_reason reason ns in
  let ns := set_stat tcp_last_abort_state (tcp_state_code (state t)) ns in
  let ns := set_stat tcp_last_abort_window (snd_wnd t) ns in
  let ns := set_stat tcp_last_abort_inflight (snd_nxt t -w snd_una t) ns in
  let ns := set_stat tcp_last_abort_buffered (txlen t) ns in
  let ns := set_stat tcp_last_abort_retries (rtx t) ns in
  ns ← snd <$> tcp_out i (TCP_RST .| TCP_ACK) (snd_nxt t) [] ns;
  Some (net_flow_free i (bump_stat tcp_resets_out 1 ns)).

(** ** The pump *)

(** The sending loop of [tcp_pump]; a turn either queues a datagram or ends the loop, so
    more turns than there are slots are never taken. *)
Fixpoint pump_data (turns : nat) (i sent : Z) ns : option (net_stack E) :=
  match turns with
  | O => None
  | S turns =>
    let t := the_tcb i ns in
    if negb (sent <? txlen t) then Some ns else
    let limit := if snd_wnd t <? cwnd t then snd_wnd t else cwnd t in
    let win := if sent <? limit then limit - sent else 0 in
    let seg := txlen t - sent in
    if win =? 0 then Some ns else
    let seg := if win <? seg then win else seg in
    let seg := if mss t <? seg then mss t else seg in
    data ← get_bytes (txbuf t) sent seg;
    '(ok, ns) ← tcp_out i (TCP_ACK .| TCP_PSH) (snd_nxt t) data ns;
    if (ok : bool) then pump_data turns i (sent + seg) (on_tcb i (fun t => tc_snd_nxt (snd_nxt t +w seg) t) ns)
    else Some ns
  end.

(** The FIN enters the sequence space once the host stream ends. *)
Definition pump_eof (t : net_tcb) : net_tcb :=
  if host_eof t && negb (fin_sent t)
     && (bool_decide (state t = NET_TCP_ESTABLISHED) || bool_decide (state t = NET_TCP_CLOSE_WAIT))
  then tc_state (if bool_decide (state t = NET_TCP_CLOSE_WAIT) then NET_TCP_LAST_ACK
                 else NET_TCP_FIN_WAIT_1) (tc_fin_sent true t)
  else t.

Definition fin_due (t : net_tcb) : bool :=
  fin_sent t && (snd_nxt t =? snd_una t +w txlen t)
  && match state t with
     | NET_TCP_FIN_WAIT_1 | NET_TCP_CLOSING | NET_TCP_LAST_ACK => true
     | _ => false
     end.

Definition pump_fin (i : Z) ns : option (net_stack E) :=
  let t := the_tcb i ns in
  if fin_due t then
    '(ok, ns) ← tcp_out i (TCP_ACK .| TCP_FIN) (snd_nxt t) [] ns;
    Some (if (ok : bool) then on_tcb i (fun t => tc_snd_nxt (snd_nxt t +w 1) t) ns else ns)
  else Some ns.

(** [if (f->need_ack) tcp_out(ns, f, TCP_ACK, f->snd_nxt, NULL, 0)]. *)
Definition send_owed_ack (i : Z) ns : option (net_stack E) :=
  let t := the_tcb i ns in
  if need_ack t then snd <$> tcp_out i TCP_ACK (snd_nxt t) [] ns else Some ns.

Definition tcp_pump (i : Z) ns : option (net_stack E) :=
  let t := the_tcb i ns in
  if bool_decide (state t = NET_TCP_SYN_RCVD) || bool_decide (state t = NET_TCP_TIME_WAIT)
  then Some ns else
  ns ← pump_data 34 i (tcp_inflight t) ns;
  let ns := on_tcb i pump_eof ns in
  ns ← pump_fin i ns;
  ns ← send_owed_ack i ns;
  Some (on_tcb i (tcp_timers (now_ms ns)) ns).

(** ** The tick *)

(** A block of [net_tcp_tick] either returns ([inl]) or falls through ([inr]). *)
Definition tick_block : Type := option (net_stack E + net_stack E).
Definition fall_through (b : tick_block) (k : net_stack E → option (net_stack E)) : option (net_stack E) :=
  r ← b; match r with inl ns => Some ns | inr ns => k ns end.

(** [(int32_t)(now_ms - at) >= 0]. *)
Definition time_reached (now at_ : Z) : bool := 0 <=? s32 (now - at_).

Definition tick_time_wait (i : Z) ns : option (net_stack E) :=
  ns ← send_owed_ack i ns;
  Some (if time_reached (now_ms ns) (close_at (the_tcb i ns)) then net_flow_free i ns else ns).

(** The host connect, awaited before the guest's SYN is answered. *)
Definition tick_connect (i : Z) ns : option (net_stack E) :=
  let '(st, ns) :=
    match eg_status with
    | Some status => let '(st, e) := status (eg ns) (handle (flow ns i)) in (st, n_eg e ns)
    | None => (NET_ST_READY, ns)
    end in
  if st =? NET_ST_PENDING then
    if time_reached (now_ms ns) (close_at (the_tcb i ns))
    then tcp_abort i NET_TCP_ABORT_CONNECT (bump_stat tcp_refused 1 ns) else Some ns
  else if st =? NET_ST_FAILED then tcp_abort i NET_TCP_ABORT_CONNECT (bump_stat tcp_refused 1 ns)
  else
    '(ok, ns) ← tcp_out i (TCP_SYN .| TCP_ACK) (snd_nxt (the_tcb i ns)) [] ns;
    if negb ok then Some ns else
    let ns := on_tcb i (fun t => tc_snd_nxt (snd_nxt t +w 1) t) ns in
    Some (on_tcb i (tcp_timers (now_ms ns)) ns).

(** Guest to host: what the socket refuses stays buffered. *)
Definition tick_to_host (i : Z) ns : tick_block :=
  let t := the_tcb i ns in
  match eg_send with
  | Some send =>
    if rxlen t =? 0 then Some (inr ns) else
    let '(w, e) := send (eg ns) (handle (flow ns i)) (rxbuf t) in
    let ns := n_eg e ns in
    if w <? 0 then inl <$> tcp_abort i NET_TCP_ABORT_HOST_SEND ns
    else if 0 <? w then
      rest ← get_bytes (rxbuf t) w (rxlen t - w);
      Some (inr (on_tcb i (fun t => tc_need_ack true (tc_rxbuf rest t)) ns))
    else Some (inr ns)
  | None => Some (inr ns)
  end.

Definition tick_shutdown (i : Z) ns : net_stack E :=
  let t := the_tcb i ns in
  if tcp_guest_finished (state t) && (rxlen t =? 0) && negb (tx_shutdown t) then
    let ns := on_tcb i (tc_tx_shutdown true) ns in
    match eg_shutdown_tx with
    | Some shutdown_tx => n_eg (shutdown_tx (eg ns) (handle (flow ns i))) ns
    | None => ns
    end
  else ns.

(** Host to guest, at most eight reads. *)
Fixpoint read_host (recv : E → Z → Z → Z * list Z * E) (guard : nat) (i : Z) ns : tick_block :=
  match guard with
  | O => Some (inr ns)
  | S guard =>
    let t := the_tcb i ns in
    if negb (txlen t <? NET_TCP_TXBUF) then Some (inr ns) else
    let '(r, d, e) := recv (eg ns) (handle (flow ns i)) (NET_TCP_TXBUF - txlen t) in
    let ns := n_eg e ns in
    if r =? NET_EG_WOULDBLOCK then Some (inr ns)
    else if r =? NET_EG_EOF then Some (inr (on_tcb i (tc_host_eof true) ns))
    else if r <? 0 then inl <$> tcp_abort i NET_TCP_ABORT_HOST_RECV ns
    else if (blen d <? r) || (NET_TCP_TXBUF <? txlen t + r) then None
    else read_host recv guard i
           (on_tcb i (fun t => tc_txbuf (txbuf t ++ take (Z.to_nat r) d) t) ns)
  end.

Definition tick_from_host (i : Z) ns : tick_block :=
  match eg_recv with
  | Some recv => if host_eof (the_tcb i ns) then Some (inr ns) else read_host recv 8 i ns
  | None => Some (inr ns)
  end.

(** The shared deadline: give up, probe a closed window, or go back N. *)
Definition tick_rto (i : Z) ns : tick_block :=
  let t := the_tcb i ns in
  if negb (rto_on t && time_reached (now_ms ns) (rto_at t)) then Some (inr ns) else
  let ns := on_tcb i (fun t => tc_rtx (rtx t +w 1) (tc_rto_on false t)) ns in
  let t := the_tcb i ns in
  if NET_TCP_RTX_MAX <? rtx t then inl <$> tcp_abort i NET_TCP_ABORT_RETRANSMIT ns else
  let ns := bump_stat tcp_retransmits 1 ns in
  if (snd_nxt t =? snd_una t) && negb (txlen t =? 0) && (snd_wnd t =? 0) then
    data ← get_bytes (txbuf t) 0 1;
    '(ok, ns) ← tcp_out i TCP_ACK (snd_nxt t) data ns;
    Some (inl (if (ok : bool) then on_tcb i (tcp_timers (now_ms ns)) ns else ns))
  else Some (inr (on_tcb i (fun t => let t := tcp_cwnd_timeout t in tc_snd_nxt (snd_una t) t) ns)).

(** From the traffic of an open connection to the end of [net_tcp_tick]. *)
Definition tick_open (i : Z) ns : option (net_stack E) :=
  fall_through (tick_to_host i ns) (fun ns =>
  fall_through (tick_from_host i (tick_shutdown i ns)) (fun ns =>
  fall_through (tick_rto i ns) (fun ns =>
  ns ← tcp_pump i ns;
  Some (if bool_decide (state (the_tcb i ns) = NET_TCP_CLOSED) then net_flow_free i ns else ns)))).

Definition net_tcp_tick (i : Z) ns : option (net_stack E) :=
  let t := the_tcb i ns in
  if negb (used (flow ns i)) then Some ns
  else if bool_decide (state t = NET_TCP_TIME_WAIT) then tick_time_wait i ns
  else if bool_decide (state t = NET_TCP_CLOSED) then Some (net_flow_free i ns)
  else if bool_decide (state t = NET_TCP_SYN_RCVD) && (snd_nxt t =? snd_una t) then tick_connect i ns
  else tick_open i ns.

(** ** Segments from the guest *)

(** [tcp_consume_ack], up to the FIN. *)
Definition consume_ack_tcb (ack : Z) (t : net_tcb) : option net_tcb :=
  let dat := ack -w snd_una t in
  let dat := if txlen t <? dat then txlen t else dat in
  t ← (if dat =? 0 then Some t else
       let t := tcp_cwnd_ack dat t in
       rest ← get_bytes (txbuf t) dat (txlen t - dat); Some (tc_txbuf rest t));
  let t := tc_snd_una ack t in
  let t := if net_seq_lt (snd_nxt t) ack then tc_snd_nxt ack t else t in
  Some (tc_rto_on false (tc_rtx 0 t)).

Definition tcp_consume_ack (i ack : Z) ns : option (net_stack E) :=
  let t := the_tcb i ns in
  if negb (net_seq_lt (snd_una t) ack) || negb (net_seq_le ack (snd_max t)) then Some ns else
  let dat := ack -w snd_una t in
  let fin := fin_sent t && (txlen t <? dat) in
  let dat := if txlen t <? dat then txlen t else dat in
  let ns := if dat =? 0 then ns else bump_stat tcp_bytes_acked_by_guest dat ns in
  t ← consume_ack_tcb ack t;
  let ns := on_tcb i (fun _ => t) ns in
  Some (if fin then on_tcb i (tcp_fin_acked (now_ms ns)) ns else ns).

(** The options loop of [tcp_syn]: the MSS they leave.  Each turn moves on by at least one
    octet. *)
Fixpoint syn_options (turns : nat) (seg : list Z) (doff at_ mss : Z) : option Z :=
  match turns with
  | O => None
  | S turns =>
    if negb (at_ + 1 <? doff) then Some mss else
    kind ← get8 seg at_;
    if kind =? 0 then Some mss
    else if kind =? 1 then syn_options turns seg doff (at_ + 1) mss
    else
      len ← get8 seg (at_ + 1);
      if (len <? 2) || (doff <? at_ + len) then Some mss else
      mss ← (if (kind =? 2) && (len =? 4) then net_rd16 seg (at_ + 2) else Some mss);
      syn_options turns seg doff (at_ + len) mss
  end.

Definition clamp_mss (mss : Z) : Z :=
  let mss := if NET_TCP_MSS_MAX <? mss then NET_TCP_MSS_MAX else mss in
  if mss <? 64 then 64 else mss.

(** The control block a SYN creates, up to the send sequence. *)
Definition syn_tcb (sseq wnd mss limit : Z) (t : net_tcb) : net_tcb :=
  let t := tc_state NET_TCP_SYN_RCVD (tc_snd_wnd wnd (tc_rcv_nxt (sseq +w 1) (tc_irs sseq t))) in
  let t := tc_cwnd_limit limit (tc_cwnd (tcp_initial_cwnd mss) (tc_mss mss t)) in
  tc_ssthresh (tcp_cwnd_ceiling t) t.

Definition tcp_syn (dst : Z) (seg : list Z) (doff : Z) ns : option (net_stack E) :=
  gport ← net_rd16 seg 0; dport ← net_rd16 seg 2;
  match net_flow_alloc NET_PROTO_TCP gport dst dport ns with
  | (None, ns) => tcp_reject dst seg 0 ns
  | (Some i, ns) =>
    let ns := bump_stat tcp_syns 1 ns in
    sseq ← net_rd32 seg 4; wnd ← net_rd16 seg 14;
    m ← syn_options (Z.to_nat doff) seg doff TCP_HDR_LEN 536;
    let ns := on_tcb i (syn_tcb sseq wnd (clamp_mss m) (tcp_cwnd_segments (cfg ns))) ns in
    let ns := n_iss_walk (iss_walk ns +w 0x9e3779b9) ns in
    let s := iss_walk ns in
    let ns := on_tcb i (fun t => tc_snd_una s (tc_snd_nxt s (tc_snd_max s t))) ns in
    let '(h, ns) :=
      match eg_open with
      | Some open => let '(h, e) := open (eg ns) NET_PROTO_TCP dst dport in (h, n_eg e ns)
      | None => (-1, ns)
      end in
    let ns := on_flow i (fl_handle h) ns in
    if h <? 0 then
      let ns := bump_stat tcp_refused 1 ns in
      ns ← snd <$> tcp_out i (TCP_RST .| TCP_ACK) (snd_nxt (the_tcb i ns)) [] ns;
      Some (net_flow_free i (bump_stat tcp_resets_out 1 ns))
    else
      let ns := on_tcb i (tc_close_at (now_ms ns +w 30000)) ns in
      net_tcp_tick i ns
  end.

Definition peer_reset (i : Z) ns : net_stack E :=
  let t := the_tcb i ns in
  let ns := bump_stat tcp_resets_in 1 ns in
  let ns := set_stat tcp_last_peer_reset_state (tcp_state_code (state t)) ns in
  let ns := set_stat tcp_last_peer_reset_window (snd_wnd t) ns in
  let ns := set_stat tcp_last_peer_reset_inflight (snd_nxt t -w snd_una t) ns in
  let ns := set_stat tcp_last_peer_reset_buffered (txlen t) ns in
  let ns := set_stat tcp_last_peer_reset_retries (rtx t) ns in
  net_flow_free i ns.

(** The octets of a payload at [sseq] that are next and fit: the part already received is
    skipped, what exceeds the buffer is cut.  [None] when the payload does not continue
    the stream. *)
Definition in_order (sseq paylen : Z) (t : net_tcb) : bool :=
  net_seq_le sseq (rcv_nxt t) && net_seq_lt (rcv_nxt t) (sseq +w paylen).

Definition tcp_data (i sseq : Z) (pay : list Z) ns : option (net_stack E) :=
  let t := the_tcb i ns in
  if (blen pay =? 0) || tcp_guest_finished (state t) then Some ns else
  if in_order sseq (blen pay) t then
    let skip := rcv_nxt t -w sseq in
    let len := w32 (blen pay) -w skip in
    let space := NET_TCP_RXBUF -w rxlen t in
    let len := if space <? len then space else len in
    ns ← (if len =? 0 then Some ns else
          d ← get_bytes pay skip len;
          if NET_TCP_RXBUF <? rxlen t + len then None else
          let ns := on_tcb i (fun t => tc_rcv_nxt (rcv_nxt t +w len) (tc_rxbuf (rxbuf t ++ d) t)) ns in
          Some (bump_stat tcp_bytes_to_host len ns));
    Some (on_tcb i (tc_need_ack true) ns)
  else Some (on_tcb i (tc_need_ack true) (bump_stat tcp_out_of_order 1 ns)).

(** A FIN once the guest's close is accepted: a retransmission. *)
Definition fin_again (now : Z) (t : net_tcb) : net_tcb :=
  if tcp_guest_finished (state t) then
    let t := tc_need_ack true t in
    if bool_decide (state t = NET_TCP_TIME_WAIT) then tc_close_at (now +w NET_TCP_TIME_WAIT_MS) t else t
  else t.

(** The guest's FIN, the next octet of its stream. *)
Definition fin_accept (now seg_end : Z) (t : net_tcb) : net_tcb :=
  if (seg_end =? rcv_nxt t) && negb (tcp_guest_finished (state t)) then
    let t := tc_need_ack true (tc_rcv_nxt (rcv_nxt t +w 1) t) in
    match state t with
    | NET_TCP_ESTABLISHED => tc_state NET_TCP_CLOSE_WAIT t
    | NET_TCP_FIN_WAIT_1 => tc_state NET_TCP_CLOSING t
    | NET_TCP_FIN_WAIT_2 =>
      tc_close_at (now +w NET_TCP_TIME_WAIT_MS) (tc_state NET_TCP_TIME_WAIT t)
    | _ => t
    end
  else t.

Definition tcp_fin (i flags seg_end : Z) ns : net_stack E :=
  if has_flag flags TCP_FIN then
    on_tcb i (fin_accept (now_ms ns) seg_end) (on_tcb i (fin_again (now_ms ns)) ns)
  else ns.

(** An acceptable acknowledgement and everything after it. *)
Definition tcp_acked (i flags sseq sack wnd : Z) (pay : list Z) ns : option (net_stack E) :=
  let ns := on_tcb i (tc_snd_wnd wnd) ns in
  ns ← tcp_consume_ack i sack ns;
  if negb (used (flow ns i)) then Some ns else
  let ns := on_tcb i (fun t => if snd_nxt t =? snd_una t then tcp_timers (now_ms ns) t else t) ns in
  let t := the_tcb i ns in
  let syn_rcvd := bool_decide (state t = NET_TCP_SYN_RCVD) in
  if syn_rcvd && net_seq_lt (snd_una t) (snd_nxt t) then Some ns else
  let ns := if syn_rcvd then bump_stat tcp_established 1 (on_tcb i (tc_state NET_TCP_ESTABLISHED) ns)
            else ns in
  ns ← tcp_data i sseq pay ns;
  net_tcp_tick i (tcp_fin i flags (sseq +w blen pay) ns).

(** A segment for an existing flow. *)
Definition tcp_for_flow (i dst flags sseq sack : Z) (seg pay : list Z) ns : option (net_stack E) :=
  let ns := on_flow i (fl_last_ms (now_ms ns)) ns in
  let t := the_tcb i ns in
  if has_flag flags TCP_RST then Some (peer_reset i ns)
  else if has_flag flags TCP_SYN then
    if bool_decide (state t = NET_TCP_SYN_RCVD) then
      if snd_nxt t =? snd_una t then Some ns
      else snd <$> tcp_out i (TCP_SYN .| TCP_ACK) (snd_una t) [] ns
    else tcp_abort i NET_TCP_ABORT_UNEXPECTED_SYN ns
  else if negb (has_flag flags TCP_ACK) then Some ns
  else
    let future_ack := net_seq_lt (snd_max t) sack in
    if bool_decide (state t = NET_TCP_SYN_RCVD) && (future_ack || negb (net_seq_lt (snd_una t) sack))
    then tcp_reject dst seg (blen pay) ns
    else if future_ack then
      let ns := on_tcb i (tc_need_ack true) ns in
      snd <$> tcp_out i TCP_ACK (snd_nxt t) [] ns
    else
      wnd ← net_rd16 seg 14;
      tcp_acked i flags sseq sack wnd pay ns.

Definition net_tcp_input (src dst : Z) (seg : list Z) ns : option (net_stack E) :=
  let ns := bump_stat tcp_in_ 1 ns in
  let n := blen seg in
  if n <? TCP_HDR_LEN then Some (bump_stat ip_bad_header 1 ns)
  else if negb (net_l4_checksum src dst NET_PROTO_TCP seg =? 0)
  then Some (bump_stat ip_bad_checksum 1 ns)
  else
    b12 ← get8 seg 12;
    let doff := (b12 .>> 4) * 4 in
    if (doff <? TCP_HDR_LEN) || (n <? doff) then Some (bump_stat ip_bad_header 1 ns) else
    gport ← net_rd16 seg 0; dport ← net_rd16 seg 2;
    sseq ← net_rd32 seg 4; sack ← net_rd32 seg 8; flags ← get8 seg 13;
    pay ← get_bytes seg doff (n - doff);
    match net_flow_find NET_PROTO_TCP gport dst dport ns with
    | None =>
      if has_flag flags TCP_SYN && negb (has_flag flags TCP_ACK) && negb (has_flag flags TCP_RST)
      then tcp_syn dst seg doff ns else tcp_reject dst seg (n - doff) ns
    | Some i => tcp_for_flow i dst flags sseq sack seg pay ns
    end.
End tcp.
