(* ===== verification/NetStack.v ===== *)
(** * The gateway: ICMP echo, the resolver, UDP, demultiplexing, the tick

    The lower half of [core/src/net/net.c], on top of Net.v and Tcp.v.  The conventions
    are those of Net.v: [None] is a read outside a buffer, a write past one, or a loop
    that does not end. *)

From S2P Require Import Prelude Bytes Net Tcp.

Definition DNS_QR := 0x8000.
Definition DNS_AA := 0x0400.
Definition DNS_RD := 0x0100.
Definition DNS_RA := 0x0080.
Definition DNS_RC_OK := 0.
Definition DNS_RC_FORMERR := 1.
Definition DNS_RC_SERVFAIL := 2.
Definition DNS_RC_NXDOMAIN := 3.
Definition DNS_RC_NOTIMP := 4.
Definition DNS_T_A := 1.
Definition DNS_T_AAAA := 28.
Definition DNS_C_IN := 1.

(** ** Names *)

(** The octets a label may hold. *)
Definition label_octet (c : Z) : bool :=
  ((97 <=? c) && (c <=? 122)) || ((65 <=? c) && (c <=? 90)) || ((48 <=? c) && (c <=? 57))
  || (c =? 45) || (c =? 95).

(** [if (w + 1 < cap) out[w++] = c]. *)
Definition push_char (cap : Z) (out : list Z) (c : Z) : list Z :=
  if blen out + 1 <? cap then out ++ [c] else out.

(** The label loop of [dns_name].  The result is [None] outside the buffer, [Some None]
    for the result 0, otherwise the octets used and the characters written before the
    NUL.  Each turn consumes the length octet. *)
Fixpoint name_labels (turns : nat) (p : list Z) (cap at_ : Z) (out : list Z)
    : option (option (Z * list Z)) :=
  match turns with
  | O => None
  | S turns =>
    if blen p <=? at_ then Some None else
    l ← get8 p at_;
    let at_ := at_ + 1 in
    if l =? 0 then
      Some (if cap <=? blen out then None else if blen out =? 0 then None else Some (at_, out))
    else if negb (l .& 0xc0 =? 0) then Some None
    else if 63 <? l then Some None
    else if blen p <? at_ + l then Some None
    else
      let out := if negb (blen out =? 0) then push_char cap out 46 else out in
      label ← get_bytes p at_ l;
      if negb (forallb label_octet label) then Some None else
      let out := foldl (push_char cap) out label in
      if 255 <? at_ + l then Some None else name_labels turns p cap (at_ + l) out
  end.

Definition dns_name (p : list Z) (cap : Z) : option (option (Z * list Z)) :=
  name_labels (S (length p)) p cap 0 [].

(** The datagram [dns_reply] builds for the first [qend] octets of the query. *)
Definition dns_answer (a : Z) : list Z :=
  net_wr16 0xc00c ++ net_wr16 DNS_T_A ++ net_wr16 DNS_C_IN ++ net_wr32 NET_DNS_TTL ++ net_wr16 4
  ++ net_wr32 a.
Definition dns_message (question : list Z) (flags rcode : Z) (answer : option Z) : list Z :=
  take 2 question ++ net_wr16 flags
  ++ net_wr16 (if rcode =? DNS_RC_FORMERR then 0 else 1)
  ++ net_wr16 (match answer with Some _ => 1 | None => 0 end)
  ++ net_wr16 0 ++ net_wr16 0 ++ drop 12 question
  ++ match answer with Some a => dns_answer a | None => [] end.
Definition udp_header (sport dport len sum : Z) : list Z :=
  net_wr16 sport ++ net_wr16 dport ++ net_wr16 len ++ net_wr16 sum.

Definition NET_DNS_NAME := 256.
Definition no_query : net_dns_pending := MkPending false 0 0 [] [].

Section stack.
Context {E : Type} `{Egress E}.
Implicit Types ns : net_stack E.

(** A UDP datagram toward the guest, checksummed. *)
Definition udp_emit (src sport dport : Z) (pay : list Z) ns : bool * net_stack E :=
  let u sum := udp_header sport dport (w16 (UDP_HDR_LEN + blen pay)) sum ++ pay in
  net_emit src (guest_ip (cfg ns)) NET_PROTO_UDP
    (u (net_l4_checksum src (guest_ip (cfg ns)) NET_PROTO_UDP (u 0))) ns.

(** ** ICMP *)

Definition icmp_input (src dst : Z) (p : list Z) ns : option (net_stack E) :=
  let ns := bump_stat icmp_in 1 ns in
  if blen p <? ICMP_HDR_LEN then Some (bump_stat ip_bad_header 1 ns)
  else if negb (net_checksum p =? 0) then Some (bump_stat ip_bad_checksum 1 ns)
  else
    ty ← get8 p 0; code ← get8 p 1;
    if negb (ty =? ICMP_ECHO_REQUEST) || negb (code =? 0)
    then Some (bump_stat icmp_unsupported 1 ns)
    else if (dst =? local_ip (cfg ns)) || (dst =? dns_ip (cfg ns)) then
      if NET_MTU - IPV4_HDR_LEN <? blen p then Some (bump_stat ip_bad_header 1 ns) else
      r ← put_bytes p 0 [ICMP_ECHO_REPLY];
      r ← put_bytes r 2 (net_wr16 0);
      r ← put_bytes r 2 (net_wr16 (net_checksum r));
      let '(ok, ns) := net_emit dst src NET_PROTO_ICMP r ns in
      Some (if ok then bump_stat icmp_echo_replies 1 ns else ns)
    else
      match eg_icmp_echo with
      | Some echo =>
        let '(r, e) := echo (eg ns) dst p in
        let ns := n_eg e ns in
        Some (if 0 <=? r then ns else bump_stat icmp_unsupported 1 ns)
      | None => Some (bump_stat icmp_unsupported 1 ns)
      end.

(** ** The resolver *)

Definition dns_reply (gport : Z) (q : list Z) (qend rcode : Z) (answer : option Z) ns
    : option (net_stack E) :=
  if NET_MTU - IPV4_HDR_LEN - UDP_HDR_LEN <? qend + 16 + UDP_HDR_LEN
  then Some (bump_stat dns_malformed 1 ns) else
  question ← get_bytes q 0 qend;
  qflags ← net_rd16 q 2;
  let flags := w16 (((DNS_QR .| DNS_AA) .| DNS_RA) .| rcode) in
  let flags := if has_flag qflags DNS_RD then flags .| DNS_RD else flags in
  let '(ok, ns) := udp_emit (dns_ip (cfg ns)) 53 gport (dns_message question flags rcode answer) ns in
  Some (if ok then bump_stat udp_out 1 ns else ns).

Definition dns_finish (gport : Z) (q : list Z) (query_len result address : Z) ns
    : option (net_stack E) :=
  if result =? NET_RES_OK then
    bump_stat dns_answered 1 <$> dns_reply gport q query_len DNS_RC_OK (Some address) ns
  else if result =? NET_RES_NXDOMAIN then
    bump_stat dns_nxdomain 1 <$> dns_reply gport q query_len DNS_RC_NXDOMAIN None ns
  else bump_stat dns_failed 1 <$> dns_reply gport q query_len DNS_RC_SERVFAIL None ns.

(** The scan of [dns_defer]: [inl tt] when the query is already represented, otherwise the
    first free slot. *)
Fixpoint dns_scan (k : nat) (i gport : Z) (q : list Z) (free_slot : option Z) ns
    : unit + option Z :=
  match k with
  | O => inr free_slot
  | S k =>
    let slot := dns ns i in
    if negb (pused slot) then
      dns_scan k (i + 1) gport q (match free_slot with None => Some i | _ => free_slot end) ns
    else if (pguest_port slot =? gport) && bool_decide (query slot = q) then inl tt
    else dns_scan k (i + 1) gport q free_slot ns
  end.

Definition dns_defer (gport : Z) (q name : list Z) ns : bool * net_stack E :=
  if (blen q =? 0) || (NET_DNS_QUERY_MAX <? blen q) then (false, ns) else
  match dns_scan (Z.to_nat NET_DNS_PENDING) 0 gport q None ns with
  | inl _ => (true, ns)
  | inr None => (false, bump_stat dns_pending_full 1 ns)
  | inr (Some i) =>
    let slot := MkPending true gport (now_ms ns) (take (Z.to_nat (NET_DNS_NAME - 1)) name) q in
    (true, bump_stat dns_deferred 1 (n_dns (<[i := slot]> (dns ns)) ns))
  end.

Definition resolve (name : list Z) ns : Z * Z * net_stack E :=
  match eg_resolve with
  | Some res => let '(rc, a, e) := res (eg ns) name in (rc, a, n_eg e ns)
  | None => (NET_RES_FAIL, 0, ns)
  end.

Definition dns_slot_tick (i : Z) ns : option (net_stack E) :=
  let slot := dns ns i in
  if negb (pused slot) then Some ns else
  let '(result, address, ns) := resolve (pname slot) ns in
  if (result =? NET_RES_PENDING) && ((now_ms ns -w started_ms slot) <? NET_DNS_TIMEOUT_MS)
  then Some ns
  else
    let '(result, ns) := if result =? NET_RES_PENDING then (NET_RES_FAIL, bump_stat dns_timeouts 1 ns)
                         else (result, ns) in
    ns ← dns_finish (pguest_port slot) (query slot) (blen (query slot)) result address ns;
    Some (n_dns (<[i := no_query]> (dns ns)) ns).

(** [for (i = 0; i < n; i++) f(i)] for an [f] that may leave a buffer. *)
Fixpoint for_each (k : nat) (i : Z) (f : Z → net_stack E → option (net_stack E)) ns
    : option (net_stack E) :=
  match k with
  | O => Some ns
  | S k => ns ← f i ns; for_each k (i + 1) f ns
  end.

Definition dns_tick : net_stack E → option (net_stack E) :=
  for_each (Z.to_nat NET_DNS_PENDING) 0 dns_slot_tick.

Definition dns_malformed_reply (gport : Z) (p : list Z) ns : option (net_stack E) :=
  dns_reply gport p 12 DNS_RC_FORMERR None (bump_stat dns_malformed 1 ns).

(** A question of type [qt] and class [qc] about [name], ending at [qend]. *)
Definition dns_question (gport : Z) (p name : list Z) (qend qt qc : Z) ns : option (net_stack E) :=
  if negb (qc =? DNS_C_IN) then
    bump_stat dns_failed 1 <$> dns_reply gport p qend DNS_RC_NOTIMP None ns
  else if qt =? DNS_T_AAAA then
    bump_stat dns_answered 1 <$> dns_reply gport p qend DNS_RC_OK None ns
  else if negb (qt =? DNS_T_A) then
    bump_stat dns_failed 1 <$> dns_reply gport p qend DNS_RC_NOTIMP None ns
  else
    let '(rc, a, ns) := resolve name ns in
    if rc =? NET_RES_PENDING then
      q ← get_bytes p 0 qend; Some (snd (dns_defer gport q name ns))
    else dns_finish gport p qend rc a ns.

Definition dns_input (gport : Z) (p : list Z) ns : option (net_stack E) :=
  let ns := bump_stat dns_queries 1 ns in
  if blen p <? 12 then Some (bump_stat dns_malformed 1 ns) else
  flags ← net_rd16 p 2; qdcount ← net_rd16 p 4;
  let ns := set_stat dns_last_qdcount qdcount (set_stat dns_last_flags flags ns) in
  if has_flag flags DNS_QR then Some (bump_stat dns_malformed 1 ns)
  else if negb (qdcount =? 1) then dns_malformed_reply gport p ns
  else
    rest ← get_bytes p 12 (blen p - 12);
    parsed ← dns_name rest NET_DNS_NAME;
    match parsed with
    | None => dns_malformed_reply gport p ns
    | Some (nl, name) =>
      if blen p <? 12 + nl + 4 then dns_malformed_reply gport p ns else
      qt ← net_rd16 p (12 + nl); qc ← net_rd16 p (12 + nl + 2);
      dns_question gport p name (12 + nl + 4) qt qc ns
    end.

(** ** UDP *)

Definition udp_send (i : Z) (pay : list Z) ns : net_stack E :=
  let ns := on_flow i (fl_last_ms (now_ms ns)) ns in
  match eg_send with
  | Some send =>
    let '(r, e) := send (eg ns) (handle (flow ns i)) pay in
    let ns := n_eg e ns in
    if r <? 0 then net_flow_free i ns else ns
  | None => ns
  end.

Definition udp_forward (dst sport dport : Z) (pay : list Z) ns : net_stack E :=
  match net_flow_find NET_PROTO_UDP sport dst dport ns with
  | Some i => udp_send i pay ns
  | None =>
    match net_flow_alloc NET_PROTO_UDP sport dst dport ns with
    | (None, ns) => ns
    | (Some i, ns) =>
      let '(h, ns) :=
        match eg_open with
        | Some open => let '(h, e) := open (eg ns) NET_PROTO_UDP dst dport in (h, n_eg e ns)
        | None => (-1, ns)
        end in
      let ns := on_flow i (fl_handle h) ns in
      if h <? 0 then net_flow_free i ns else udp_send i pay ns
    end
  end.

Definition udp_input (src dst : Z) (p : list Z) ns : option (net_stack E) :=
  let ns := bump_stat udp_in 1 ns in
  let n := blen p in
  if n <? UDP_HDR_LEN then Some (bump_stat ip_bad_header 1 ns) else
  sport ← net_rd16 p 0; dport ← net_rd16 p 2; ulen ← net_rd16 p 4;
  if (ulen <? UDP_HDR_LEN) || (n <? ulen) then Some (bump_stat ip_bad_header 1 ns) else
  sum ← net_rd16 p 6;
  dgram ← get_bytes p 0 ulen;
  if negb (sum =? 0) && negb (net_l4_checksum src dst NET_PROTO_UDP dgram =? 0)
  then Some (bump_stat ip_bad_checksum 1 ns) else
  pay ← get_bytes p UDP_HDR_LEN (ulen - UDP_HDR_LEN);
  if (dst =? dns_ip (cfg ns)) && (dport =? 53) then dns_input sport pay ns
  else Some (udp_forward dst sport dport pay ns).

(** The reads of [udp_poll], at most eight. *)
Fixpoint udp_reads (recv : E → Z → Z → Z * list Z * E) (guard : nat) (i : Z) ns : option (net_stack E) :=
  match guard with
  | O => Some ns
  | S guard =>
    let f := flow ns i in
    let cap := NET_MTU - IPV4_HDR_LEN - UDP_HDR_LEN in
    let '(r, d, e) := recv (eg ns) (handle f) cap in
    let ns := n_eg e ns in
    if r =? NET_EG_WOULDBLOCK then Some ns
    else if r <? 0 then Some (net_flow_free i ns)
    else if (cap <? r) || (blen d <? r) then None
    else
      let '(ok, ns) := udp_emit (dst_ip f) (dst_port f) (guest_port f) (take (Z.to_nat r) d) ns in
      if negb ok then Some ns
      else udp_reads recv guard i (on_flow i (fl_last_ms (now_ms ns)) (bump_stat udp_out 1 ns))
  end.

Definition udp_poll (i : Z) ns : option (net_stack E) :=
  match eg_recv with
  | Some recv => if handle (flow ns i) <? 0 then Some ns else udp_reads recv 8 i ns
  | None => Some ns
  end.

(** ** Datagrams from the guest *)

Definition net_input (pkt : list Z) ns : option (net_stack E) :=
  let ns := bump_stat ip_in 1 ns in
  let n := blen pkt in
  if n <? IPV4_HDR_LEN then Some (bump_stat ip_bad_header 1 ns) else
  b0 ← get8 pkt 0;
  if negb (b0 .>> 4 =? 4) then Some (bump_stat ip_bad_version 1 ns) else
  let ihl := (b0 .& 0x0f) * 4 in
  if (ihl <? IPV4_HDR_LEN) || (n <? ihl) then Some (bump_stat ip_bad_header 1 ns) else
  total ← net_rd16 pkt 2;
  if (total <? ihl) || (n <? total) then Some (bump_stat ip_bad_header 1 ns) else
  hdr ← get_bytes pkt 0 ihl;
  if negb (net_checksum hdr =? 0) then Some (bump_stat ip_bad_checksum 1 ns) else
  frag ← net_rd16 pkt 6;
  if has_flag frag 0x2000 || has_flag frag 0x1fff then Some (bump_stat ip_frags_refused 1 ns) else
  src ← net_rd32 pkt 12; dst ← net_rd32 pkt 16;
  if negb (src =? guest_ip (cfg ns)) then Some (bump_stat ip_bad_source 1 ns) else
  l4 ← get_bytes pkt ihl (total - ihl); proto ← get8 pkt 9;
  if proto =? NET_PROTO_ICMP then icmp_input src dst l4 ns
  else if proto =? NET_PROTO_UDP then udp_input src dst l4 ns
  else if proto =? NET_PROTO_TCP then net_tcp_input src dst l4 ns
  else Some (bump_stat proto_unsupported 1 ns).

Definition net_input_at (pkt : list Z) (now : Z) ns : option (net_stack E) :=
  net_input pkt (if time_reached now (now_ms ns) then n_now_ms now ns else ns).

(** ** The tick *)

Definition flow_tick (now i : Z) ns : option (net_stack E) :=
  if negb (used (flow ns i)) then Some ns
  else if proto (flow ns i) =? NET_PROTO_UDP then
    ns ← udp_poll i ns;
    Some (if used (flow ns i) && (NET_UDP_IDLE_MS <? now -w last_ms (flow ns i))
          then net_flow_free i ns else ns)
  else net_tcp_tick i ns.

Definition net_tick (now : Z) ns : option (net_stack E) :=
  if negb (time_reached now (now_ms ns)) then Some ns else
  ns ← dns_tick (n_now_ms now ns);
  for_each (Z.to_nat NET_MAX_FLOWS) 0 (flow_tick now) ns.
End stack.

(** ** Set-up *)

Definition net_config_default : net_config :=
  MkNetConfig 0x0a00020f 0x0a000202 0x0a000203 0x5335384c 0.

Definition net_init {E} (c : net_config) (e : E) : net_stack E :=
  MkStack c e (fun _ => 0) 0 (iss c) (fun _ => fl_handle (-1) zero_flow) (fun _ => no_query)
    (fun _ => []) 0 0.

Definition net_reset {E} `{Egress E} (ns : net_stack E) : net_stack E :=
  let ns := foldl (fun ns i => if used (flow ns i) then net_flow_free i ns else ns) ns flow_indices in
  net_init (cfg ns) (eg ns).

(** ** Reporting *)

Record net_tcp_live_status := MkLive {
  l_flows : Z; l_state : net_tcp_state; l_guest_port : Z; l_dst_port : Z; l_window : Z;
  l_mss : Z; l_cwnd : Z; l_ssthresh : Z; l_inflight : Z; l_tx_buffered : Z; l_rx_buffered : Z;
  l_retries : Z; l_rto_remaining : Z; l_flags : Z }.

(** The tie-breaking order of [net_get_tcp_live_status]. *)
Definition busier (a b : net_tcb) : bool :=
  let fa := snd_nxt a -w snd_una a in let fb := snd_nxt b -w snd_una b in
  (txlen b <? txlen a) || ((txlen a =? txlen b) && (fb <? fa))
  || ((txlen a =? txlen b) && (fa =? fb) && (rxlen b <? rxlen a)).

Definition select_live {E} (ns : net_stack E) : Z * option net_flow :=
  foldl (fun '(n, sel) i =>
    let f := flow ns i in
    if negb (used f) || negb (proto f =? NET_PROTO_TCP) then (n, sel) else
    (n + 1, match sel with
            | None => Some f
            | Some s => if busier (tcb f) (tcb s) then Some f else Some s
            end)) (0, None) flow_indices.

Definition live_flags (t : net_tcb) : Z :=
  ((((if fin_sent t then 1 else 0) .| (if host_eof t then 2 else 0))
    .| (if tx_shutdown t then 4 else 0)) .| (if need_ack t then 8 else 0))
  .| (if rto_on t then 16 else 0).

(** [None] is the result false. *)
Definition net_get_tcp_live_status {E} (ns : net_stack E) : option net_tcp_live_status :=
  let '(n, sel) := select_live ns in
  f ← sel;
  let t := tcb f in
  let inflight := snd_nxt t -w snd_una t in
  let inflight := if fin_sent t && (txlen t <? inflight) then txlen t else inflight in
  let remaining := if rto_on t then Z.max 0 (s32 (rto_at t - now_ms ns)) else 0 in
  Some (MkLive n (state t) (guest_port f) (dst_port f) (snd_wnd t) (mss t) (cwnd t)
          (ssthresh t) inflight (txlen t) (rxlen t) (rtx t) remaining (live_flags t)).
