(* ===== verification/NetFacts.v ===== *)
(** * Checksums, and what net_emit puts in the queue

    RFC 1071 arithmetic: the folded sum is the sum modulo 65535, so storing the complement
    in a zeroed field makes the whole verify.  [valid_datagram] is what the guest's own IP
    and transport input check, written from the RFCs; [built_valid] shows it of a datagram
    as [net_emit] builds it. *)

From S2P Require Import Prelude Bytes Net.

(** ** The sum of sixteen-bit words, without wrap-around *)

Fixpoint words (l : list Z) : Z :=
  match l with
  | a :: b :: l => a * 256 + b + words l
  | [a] => a * 256
  | [] => 0
  end.

(** Induction by two octets. *)
Lemma pair_ind (P : list Z → Prop) : P [] → (∀ a, P [a]) →
  (∀ a b l, P l → P (a :: b :: l)) → ∀ l, P l.
Proof.
  intros H0 H1 H2 l. enough (P l ∧ ∀ a, P (a :: l)) as [? _] by done.
  induction l as [| b l [IH IH']]; split; auto.
Qed.

Lemma words_bound l : is_bytes l → 0 <= words l ∧ 2 * words l <= 65535 * (blen l + 1).
Proof.
  unfold blen. induction l as [| a | a b l IH] using pair_ind; intros Hb; simpl words; simpl length.
  - lia.
  - apply Forall_cons_1 in Hb as [[? ?] _]. lia.
  - apply Forall_cons_1 in Hb as [[? ?] Hb]. apply Forall_cons_1 in Hb as [[? ?] Hb].
    destruct (IH Hb). lia.
Qed.

Lemma words_app l1 l2 : Nat.Even (length l1) → words (l1 ++ l2) = words l1 + words l2.
Proof.
  induction l1 as [| a | a b l1 IH] using pair_ind; intros He; simpl.
  - lia.
  - destruct He as [k Hk]. simpl in Hk. lia.
  - rewrite IH; [lia |]. destruct He as [k Hk]. exists (pred k). simpl in Hk. lia.
Qed.

Lemma words_wr16 v l : uint 16 v → words (net_wr16 v ++ l) = v + words l.
Proof.
  intros Hv. cbn [net_wr16 app words].
  assert (fld v 8 0xff * 256 + (v .& 0xff) = v) as ->; [| lia].
  unfold fld. change 0xff with (Z.ones 8). rewrite !Z.land_ones, Z.shiftr_div_pow2 by lia.
  change 256 with (2 ^ 8). destruct Hv as [H1 H2].
  rewrite (Z.mod_small (v / 2 ^ 8)).
  - rewrite (Z.div_mod v (2 ^ 8)) at 3; lia.
  - split; [apply Z.div_pos; lia | apply Z.div_lt_upper_bound; lia].
Qed.

Lemma wr16_bytes v : is_bytes (net_wr16 v).
Proof. repeat apply Forall_cons_2; try apply Forall_nil_2; apply uint_land_r; (lia || (split; lia)). Qed.
Lemma wr32_bytes v : is_bytes (net_wr32 v).
Proof. repeat apply Forall_cons_2; try apply Forall_nil_2; apply uint_land_r; (lia || (split; lia)). Qed.
Lemma bytes_app l1 l2 : is_bytes l1 → is_bytes l2 → is_bytes (l1 ++ l2).
Proof. apply Forall_app_2. Qed.
#[export] Hint Resolve wr16_bytes wr32_bytes bytes_app : word.

Lemma sum16_words l : ∀ s, is_bytes l → 0 <= s → s + words l < 2 ^ 32 → sum16 s l = s + words l.
Proof.
  induction l as [| a | a b l IH] using pair_ind; intros s Hb H0 Hs; simpl sum16; simpl words in *.
  - lia.
  - apply Forall_cons_1 in Hb as [Ha _]. destruct Ha. rewrite Z.shiftl_mul_pow2 by lia.
    apply w32_small. split; lia.
  - apply Forall_cons_1 in Hb as [Ha Hb]. apply Forall_cons_1 in Hb as [Hb' Hb].
    rewrite lor_shift_add by (done || lia). destruct (words_bound l Hb) as [Hw _].
    destruct Ha, Hb'.
    rewrite w32_small by (split; lia). rewrite IH; [lia | done | lia | lia].
Qed.

(** ** Folding *)

Lemma fold_turn s : uint 32 s →
  ((s .& 0xffff) +w (s .>> 16)) = s mod 65536 + s / 65536.
Proof.
  intros [H1 H2]. change 0xffff with (Z.ones 16). rewrite Z.land_ones, Z.shiftr_div_pow2 by lia.
  change (2 ^ 16) with 65536. apply w32_small.
  pose proof (Z.mod_pos_bound s 65536). pose proof (Z.div_pos s 65536).
  assert (s / 65536 < 65536) by (apply Z.div_lt_upper_bound; lia). split; lia.
Qed.

(** The loop of [net_checksum] ends within two turns, below 2^16, at the sum modulo
    65535. *)
Lemma fold16_done s : uint 32 s →
  let r := fold16 2 s in uint 16 r ∧ (∃ k, s = r + 65535 * k) ∧ (r = 0 → s = 0).
Proof.
  intros Hs. cbn zeta. unfold fold16.
  assert (∀ x, uint 32 x → (x .>> 16 =? 0) = true → uint 16 x) as Hsmall.
  { intros x [H1 H2] H%Z.eqb_eq. rewrite Z.shiftr_div_pow2 in H by lia.
    apply Z.div_small_iff in H as [|]; [| lia ..]. split; lia. }
  destruct (s .>> 16 =? 0) eqn:E0.
  { split_and!; [by apply Hsmall | exists 0; lia | done]. }
  rewrite fold_turn by done.
  assert (s / 65536 ≠ 0) as Hne.
  { intros E. apply Z.eqb_neq in E0. apply E0. rewrite Z.shiftr_div_pow2 by lia. exact E. }
  pose proof (Z.mod_pos_bound s 65536). pose proof (Z.div_mod s 65536).
  assert (0 <= s / 65536 < 65536) by (destruct Hs; split; [apply Z.div_pos | apply Z.div_lt_upper_bound]; lia).
  set (t := s mod 65536 + s / 65536).
  assert (uint 32 t) as Ht by (split; lia).
  destruct (t .>> 16 =? 0) eqn:E1.
  { split_and!; [by apply Hsmall | exists (s / 65536); lia | lia]. }
  rewrite fold_turn by done.
  assert (t / 65536 = 1) as Hq.
  { apply Z.eqb_neq in E1. rewrite Z.shiftr_div_pow2 in E1 by lia. change (2 ^ 16) with 65536 in E1.
    assert (t / 65536 < 2) by (apply Z.div_lt_upper_bound; lia).
    assert (0 <= t / 65536) by (apply Z.div_pos; lia). lia. }
  pose proof (Z.div_mod t 65536). pose proof (Z.mod_pos_bound t 65536). rewrite Hq in *.
  split_and!; [split; lia | exists (s / 65536 + 1); lia | lia].
Qed.

Lemma complement16 x : uint 16 x → wnot x .& 0xffff = 65535 - x.
Proof.
  intros Hx. rewrite wnot_eq by (by apply (uint_mono 16)).
  change 0xffff with (Z.ones 16). rewrite Z.land_ones by lia. destruct Hx as [H1 H2].
  replace (0xffffffff - x) with (65535 - x + 65535 * 2 ^ 16) by lia.
  rewrite Z.mod_add by lia. change (Z.ones 16) with 65535. apply Z.mod_small. lia.
Qed.

(** The checksum of a sum. *)
Definition complement_sum (s : Z) : Z := wnot (fold16 2 s) .& 0xffff.

Lemma complement_sum_range s : uint 32 s → uint 16 (complement_sum s).
Proof.
  intros Hs. destruct (fold16_done s Hs) as [[H1 H2] _].
  unfold complement_sum. rewrite complement16 by done. split; lia.
Qed.

(** Adding the checksum of a sum to it gives a sum that verifies. *)
Lemma complement_sum_fills s : 0 <= s → s + 65535 < 2 ^ 32 → complement_sum (s + complement_sum s) = 0.
Proof.
  intros H0 Hs. destruct (fold16_done s) as (Hr & [k Hk] & Hz); [split; lia |].
  assert (complement_sum s = 65535 - fold16 2 s) as E by (by apply complement16).
  rewrite E. destruct Hr as [Hr1 Hr2].
  set (t := s + (65535 - fold16 2 s)).
  destruct (fold16_done t) as (Hr' & [k' Hk'] & Hz'); [split; lia |].
  unfold complement_sum. rewrite complement16 by done.
  destruct Hr' as [Hr1' Hr2'].
  assert (fold16 2 t ≠ 0).
  { intros Hf%Hz'. assert (s = 0) as E0 by lia. subst s. change (fold16 2 0) with 0 in *. lia. }
  assert (fold16 2 t = 65535 * (k - k' + 1)) by lia. nia.
Qed.

(** ** Filling a checksum field *)

(** A field of two octets at an even offset. *)
Lemma words_field pre v post : Nat.Even (length pre) → uint 16 v →
  words (pre ++ net_wr16 v ++ post) = v + words (pre ++ net_wr16 0 ++ post).
Proof.
  intros He Hv. rewrite !(words_app pre) by done.
  rewrite !words_wr16 by (done || (split; lia)). lia.
Qed.

Lemma net_checksum_words l : is_bytes l → blen l <= 65535 → net_checksum l = complement_sum (words l).
Proof.
  intros Hb Hl. destruct (words_bound l Hb). unfold net_checksum.
  rewrite sum16_words by (done || lia). done.
Qed.

Lemma net_checksum_fills pre post : Nat.Even (length pre) → is_bytes pre → is_bytes post →
  blen (pre ++ net_wr16 0 ++ post) <= 65535 →
  let k := net_checksum (pre ++ net_wr16 0 ++ post) in
  uint 16 k ∧ net_checksum (pre ++ net_wr16 k ++ post) = 0.
Proof.
  intros He H1 H2 Hl k.
  assert (is_bytes (pre ++ net_wr16 0 ++ post)) as Hb0 by auto with word.
  destruct (words_bound _ Hb0) as [Hw1 Hw2].
  assert (k = complement_sum (words (pre ++ net_wr16 0 ++ post))) as Hk by (by apply net_checksum_words).
  assert (uint 16 k) as Hku by (rewrite Hk; apply complement_sum_range; split; lia).
  split; [done |].
  assert (blen (pre ++ net_wr16 k ++ post) = blen (pre ++ net_wr16 0 ++ post)) as Hlen
    by (unfold blen; by rewrite !length_app).
  rewrite net_checksum_words by (auto with word || lia).
  rewrite words_field by done. rewrite Z.add_comm, Hk. apply complement_sum_fills; lia.
Qed.

Lemma pseudo_bytes src dst proto n : is_bytes (pseudo_header src dst proto n).
Proof.
  unfold pseudo_header. repeat apply bytes_app; auto with word.
  repeat apply Forall_cons_2; [by split | apply uint_w8 | constructor].
Qed.

Lemma l4_checksum_words src dst proto seg : is_bytes seg → blen seg <= 65535 →
  net_l4_checksum src dst proto seg
  = complement_sum (words (pseudo_header src dst proto (blen seg)) + words seg).
Proof.
  intros Hb Hl. unfold net_l4_checksum.
  pose proof (pseudo_bytes src dst proto (blen seg)) as Hp.
  destruct (words_bound _ Hp) as [Hp1 Hp2]. destruct (words_bound _ Hb) as [Hs1 Hs2].
  change (blen (pseudo_header src dst proto (blen seg))) with 12 in Hp2.
  rewrite (sum16_words (pseudo_header _ _ _ _)) by (done || lia).
  rewrite sum16_words by (done || lia). done.
Qed.

Lemma l4_checksum_fills src dst proto pre post : Nat.Even (length pre) → is_bytes pre → is_bytes post →
  blen (pre ++ net_wr16 0 ++ post) <= 65535 →
  let k := net_l4_checksum src dst proto (pre ++ net_wr16 0 ++ post) in
  uint 16 k ∧ net_l4_checksum src dst proto (pre ++ net_wr16 k ++ post) = 0.
Proof.
  intros He H1 H2 Hl k.
  assert (is_bytes (pre ++ net_wr16 0 ++ post)) as Hb0 by auto with word.
  destruct (words_bound _ Hb0) as [Hw1 Hw2].
  pose proof (pseudo_bytes src dst proto (blen (pre ++ net_wr16 0 ++ post))) as Hp.
  destruct (words_bound _ Hp) as [Hp1 Hp2].
  change (blen (pseudo_header _ _ _ _)) with 12 in Hp2.
  assert (k = complement_sum (words (pseudo_header src dst proto (blen (pre ++ net_wr16 0 ++ post)))
    + words (pre ++ net_wr16 0 ++ post))) as Hk by (by apply l4_checksum_words).
  assert (uint 16 k) as Hku by (rewrite Hk; apply complement_sum_range; split; lia).
  split; [done |].
  assert (blen (pre ++ net_wr16 k ++ post) = blen (pre ++ net_wr16 0 ++ post)) as Hlen
    by (unfold blen; by rewrite !length_app).
  rewrite l4_checksum_words by (auto with word || lia).
  rewrite Hlen, words_field by done. rewrite (Z.add_comm k), Z.add_assoc, Hk.
  apply complement_sum_fills; lia.
Qed.

(** ** Reading what was written *)

Lemma wr16_join v : uint 16 v → Z.shiftl (fld v 8 0xff) 8 .| (v .& 0xff) = v.
Proof.
  intros Hv. pose proof (words_wr16 v [] Hv) as E. cbn [net_wr16 app words] in E.
  rewrite lor_shift_add; [change (2 ^ 8) with 256; lia | lia | apply uint_land_r; [lia | split; lia]].
Qed.

Lemma net_rd16_at b pre v post off : b = pre ++ net_wr16 v ++ post → off = blen pre → uint 16 v →
  net_rd16 b off = Some v.
Proof.
  intros -> -> Hv. unfold net_rd16.
  rewrite <- (Z.add_0_r (blen pre)) at 1. rewrite !get8_app by lia.
  change (get8 _ 0) with (Some (w8 (fld v 8 0xff))). change (get8 _ 1) with (Some (w8 (v .& 0xff))).
  cbn [mbind option_bind].
  pose proof (wr16_bytes v) as Hb. apply Forall_cons_1 in Hb as [H1 Hb]. apply Forall_cons_1 in Hb as [H2 _].
  unfold w8. rewrite !wrap_small by done. by rewrite wr16_join.
Qed.

Lemma wr32_join v : uint 32 v →
  ((Z.shiftl (fld v 24 0xff) 24 .| Z.shiftl (fld v 16 0xff) 16) .| Z.shiftl (fld v 8 0xff) 8)
  .| (v .& 0xff) = v.
Proof.
  intros Hv. apply Z.bits_inj'. intros i Hi. rewrite !Z.lor_spec, !testbit_byte, Z.land_spec by lia.
  change 0xff with (Z.ones 8). rewrite Z.testbit_ones_nonneg by lia.
  destruct (Z_lt_le_dec i 32) as [Hlt | Hge].
  - destruct (Z.testbit v i); rewrite ?andb_true_r, ?andb_false_r; [| done].
    destruct (Z.leb_spec 24 i), (Z.leb_spec 16 i), (Z.leb_spec 8 i), (Z.ltb_spec i (24 + 8)),
      (Z.ltb_spec i (16 + 8)), (Z.ltb_spec i (8 + 8)), (Z.ltb_spec i 8); done || lia.
  - rewrite (uint_high 32 v) by (done || lia). by rewrite !andb_false_r.
Qed.

Lemma net_rd32_at b pre v post off : b = pre ++ net_wr32 v ++ post → off = blen pre → uint 32 v →
  net_rd32 b off = Some v.
Proof.
  intros -> -> Hv. unfold net_rd32.
  rewrite <- (Z.add_0_r (blen pre)) at 1. rewrite !get8_app by lia.
  change (get8 _ 0) with (Some (w8 (fld v 24 0xff))). change (get8 _ 1) with (Some (w8 (fld v 16 0xff))).
  change (get8 _ 2) with (Some (w8 (fld v 8 0xff))). change (get8 _ 3) with (Some (w8 (v .& 0xff))).
  cbn [mbind option_bind].
  pose proof (wr32_bytes v) as Hb. repeat (apply Forall_cons_1 in Hb as [? Hb]).
  unfold w8. rewrite !wrap_small by done. by rewrite wr32_join.
Qed.

(** Overwriting a field. *)
Lemma put_bytes_field b pre old post src off : b = pre ++ old ++ post → off = blen pre →
  length old = length src → put_bytes b off src = Some (pre ++ src ++ post).
Proof.
  intros -> -> Hl. unfold put_bytes, blen. rewrite !length_app.
  rewrite !(proj2 (Z.ltb_ge _ _)) by lia. cbn [orb]. rewrite Nat2Z.id, take_app_length.
  by rewrite <- Hl, <- drop_drop, drop_app_length, drop_app_length.
Qed.

(** ** Valid datagrams

    What a receiver checks, written from the RFCs and not from net.c: an octet string is
    read big-endian by position, and a checksum verifies when the one's complement sum of
    what it covers is all ones (RFC 1071), that is, when the plain sum is a positive
    multiple of 65535. *)

Definition octet (d : list Z) (k : nat) : Z := nth k d 0.
Definition half_at (d : list Z) (k : nat) : Z := 256 * octet d k + octet d (S k).
Definition word_at (d : list Z) (k : nat) : Z := 65536 * half_at d k + half_at d (S (S k)).

Definition sum_verifies (s : Z) : Prop := 0 < s ∧ s mod 65535 = 0.

(** The pseudo-header of RFC 768 and RFC 9293: addresses, protocol, length. *)
Definition pseudo_sum (src dst proto n : Z) : Z :=
  (src / 65536 + src mod 65536) + (dst / 65536 + dst mod 65536) + proto + n.

(** Echo messages, TCP segments and UDP datagrams; nothing else is for the guest. *)
Definition transport_verifies (src dst proto : Z) (seg : list Z) : Prop :=
  proto = 1 ∧ 8 <= blen seg ∧ sum_verifies (words seg)
  ∨ proto = 6 ∧ 20 <= 4 * (octet seg 12 / 16) <= blen seg
    ∧ sum_verifies (pseudo_sum src dst 6 (blen seg) + words seg)
  ∨ proto = 17 ∧ 8 <= blen seg ∧ half_at seg 4 = blen seg
    ∧ sum_verifies (pseudo_sum src dst 17 (blen seg) + words seg).

(** A datagram for [guest] that its own input accepts. *)
Record valid_datagram (guest : Z) (d : list Z) : Prop := {
  d_octets : is_bytes d;
  d_size : 20 <= blen d <= 1500;
  d_version : octet d 0 = 0x45;
  d_total : half_at d 2 = blen d;
  d_whole : half_at d 6 = 0x4000;
  d_ttl : octet d 8 = 64;
  d_to : word_at d 16 = guest;
  d_header : sum_verifies (words (take 20 d));
  d_transport : transport_verifies (word_at d 12) guest (octet d 9) (drop 20 d) }.

Lemma wr16_be v : uint 16 v → 256 * fld v 8 0xff + (v .& 0xff) = v.
Proof. intros Hv. pose proof (words_wr16 v [] Hv) as E. cbn [net_wr16 app words] in E. lia. Qed.

Lemma wr32_be v : uint 32 v →
  65536 * (256 * fld v 24 0xff + fld v 16 0xff) + (256 * fld v 8 0xff + (v .& 0xff)) = v.
Proof.
  intros [H1 H2]. unfold fld. change 0xff with (Z.ones 8). rewrite !Z.land_ones, !Z.shiftr_div_pow2 by lia.
  change (2 ^ 8) with 256. change (2 ^ 16) with 65536. change (2 ^ 24) with 16777216.
  change (2 ^ 32) with 4294967296 in H2. Z.to_euclidean_division_equations. lia.
Qed.

Lemma words_wr32 v l : uint 32 v → words (net_wr32 v ++ l) = (v / 65536 + v mod 65536) + words l.
Proof.
  intros Hv. pose proof (wr32_be v Hv) as E. pose proof (wr32_bytes v) as Hb. cbn [net_wr32 app words] in *.
  repeat (apply Forall_cons_1 in Hb as [[? ?] Hb]). change (2 ^ 8) with 256 in *.
  assert (256 * fld v 24 255 + fld v 16 255 = v / 65536) as Eq.
  { apply (Z.div_unique _ _ _ (256 * fld v 8 255 + (v .& 255))); lia. }
  pose proof (Z.div_mod v 65536). lia.
Qed.

Lemma pseudo_words src dst proto n : uint 32 src → uint 32 dst → uint 8 proto → uint 16 n →
  words (pseudo_header src dst proto n) = pseudo_sum src dst proto n.
Proof.
  intros Hs Hd Hp Hn. unfold pseudo_header, pseudo_sum. rewrite !words_wr32 by done.
  cbn [app words]. unfold w8, w16. rewrite !wrap_small by done.
  pose proof (words_wr16 n [] Hn) as E. rewrite app_nil_r in E. rewrite E. cbn [words]. lia.
Qed.

Lemma complement_verifies s : uint 32 s → complement_sum s = 0 ↔ sum_verifies s.
Proof.
  intros Hs. destruct (fold16_done s Hs) as ([Hr1 Hr2] & [k Hk] & Hz). change (2 ^ 16) with 65536 in Hr2.
  unfold complement_sum, sum_verifies. rewrite complement16 by done.
  assert (s mod 65535 = fold16 2 s mod 65535) as ->.
  { rewrite Hk at 1. rewrite (Z.mul_comm 65535), Z.mod_add; [done | lia]. }
  split.
  - intros E. assert (fold16 2 s = 65535) as Hf by lia. rewrite Hf. split; [| done].
    destruct (Z.eqb_spec s 0) as [-> |]; [by vm_compute in Hf | destruct Hs; lia].
  - intros [Hp E]. destruct (Z.eqb_spec (fold16 2 s) 65535) as [-> |]; [done |].
    rewrite Z.mod_small in E by lia. specialize (Hz E). lia.
Qed.

Lemma checksum_verifies l : is_bytes l → blen l <= 65535 → net_checksum l = 0 → sum_verifies (words l).
Proof.
  intros Hb Hl E. destruct (words_bound l Hb). rewrite net_checksum_words in E by done.
  apply complement_verifies; [split; lia | done].
Qed.

Lemma l4_verifies src dst proto seg : uint 32 src → uint 32 dst → uint 8 proto → is_bytes seg →
  blen seg <= 65535 →
  net_l4_checksum src dst proto seg = 0 ↔ sum_verifies (pseudo_sum src dst proto (blen seg) + words seg).
Proof.
  intros Hs Hd Hp Hb Hl. rewrite l4_checksum_words by done.
  destruct (words_bound _ Hb). destruct (words_bound _ (pseudo_bytes src dst proto (blen seg))) as [? Hw].
  change (blen (pseudo_header _ _ _ _)) with 12 in Hw. rewrite <- pseudo_words; try done.
  - apply complement_verifies. split; lia.
  - unfold blen in *. split; lia.
Qed.

Lemma tcp_verifies src dst seg : uint 32 src → uint 32 dst → is_bytes seg → blen seg <= 65535 →
  20 <= 4 * (octet seg 12 / 16) <= blen seg → net_l4_checksum src dst NET_PROTO_TCP seg = 0 →
  transport_verifies src dst NET_PROTO_TCP seg.
Proof. intros Hs Hd Hb Hl Ho E. right. left. split_and!; try done; [lia .. |]. by apply l4_verifies. Qed.

Lemma header_bytes len ident proto sum src dst : is_bytes (ipv4_header len ident proto sum src dst).
Proof.
  unfold ipv4_header. repeat apply bytes_app; auto with word;
    repeat apply Forall_cons_2; try apply Forall_nil_2; solve [by split | apply uint_w8].
Qed.

(** The header with its checksum, in front of a payload that verifies. *)
Lemma built_valid src dst proto ident payload hdr :
  uint 32 src → uint 32 dst → uint 8 proto → is_bytes payload →
  net_build_ipv4 NET_MTU src dst proto ident (blen payload) = Some hdr →
  transport_verifies src dst proto payload → valid_datagram dst (hdr ++ payload).
Proof.
  intros Hsrc Hdst Hp Hb E Hv. unfold net_build_ipv4 in E.
  destruct (NET_MTU <? IPV4_HDR_LEN); [done |].
  destruct (Z.ltb_spec NET_MTU (blen payload + IPV4_HDR_LEN)) as [| Hl]; [done |].
  change NET_MTU with 1500 in Hl. change IPV4_HDR_LEN with 20 in Hl.
  injection E as <-. set (len := w16 (IPV4_HDR_LEN + blen payload)).
  assert (len = 20 + blen payload ∧ uint 16 len) as [Elen Hlen].
  { unfold len, w16. change IPV4_HDR_LEN with 20 in *.
    assert (uint 16 (20 + blen payload)) by (unfold blen in *; split; lia).
    by rewrite wrap_small. }
  set (k := net_checksum _).
  destruct (net_checksum_fills ([0x45; 0] ++ net_wr16 len ++ net_wr16 ident ++ net_wr16 0x4000
    ++ [64; w8 proto]) (net_wr32 src ++ net_wr32 dst)) as [Hk Hz]; [by exists 5%nat | .. | done |].
  { repeat apply bytes_app; auto with word;
      repeat apply Forall_cons_2; try apply Forall_nil_2; solve [by split | apply uint_w8]. }
  { auto with word. }
  fold k in Hk, Hz. pose proof (wr32_be _ Hsrc) as Es. pose proof (wr32_be _ Hdst) as Ed.
  pose proof (header_bytes len ident proto k src dst) as Hh.
  assert (0 <= blen payload) by (unfold blen; lia).
  split; try done.
  - by apply bytes_app.
  - rewrite blen_app. change (blen (ipv4_header _ _ _ _ _ _)) with 20. lia.
  - rewrite blen_app. change (blen (ipv4_header _ _ _ _ _ _)) with 20. rewrite <- Elen. by apply wr16_be.
  - exact (checksum_verifies _ Hh (proj1 (Z.leb_le 20 65535) eq_refl) Hz).
  - change (word_at _ 12) with (65536 * (256 * fld src 24 0xff + fld src 16 0xff) + (256 * fld src 8 0xff + (src .& 0xff))).
    change (octet _ 9) with (w8 proto). unfold w8. rewrite Es, wrap_small by done. exact Hv.
Qed.
