(* ===== verification/NetInv.v ===== *)
(** * The invariant of the network stack: queue, flow table, segments

    [stack_ok] is what every entry point keeps: the queue toward the guest holds at most 32
    datagrams, each valid and addressed to the guest; buffers stay within their arrays;
    each control block's sequence space is in order ([seq_ok]).  [queued] is the abstract
    FIFO the ring of slots implements. *)

From S2P Require Import Prelude Bytes Net Tcp NetFacts.

(** ** The invariant *)

(** What is sent and not acknowledged, and the furthest octet ever sent, from [snd_una]. *)
Definition flight (t : net_tcb) : Z := snd_nxt t -w snd_una t.
Definition reach (t : net_tcb) : Z := snd_max t -w snd_una t.

(** How far [snd_max] may be: the SYN and the FIN occupy one octet each, the FIN only after
    the buffered data; once it is acknowledged nothing is outstanding. *)
Definition seq_bound (t : net_tcb) : Z :=
  match state t with
  | NET_TCP_SYN_RCVD => 1
  | NET_TCP_ESTABLISHED | NET_TCP_CLOSE_WAIT => txlen t
  | NET_TCP_FIN_WAIT_1 | NET_TCP_CLOSING | NET_TCP_LAST_ACK => txlen t + 1
  | NET_TCP_FIN_WAIT_2 | NET_TCP_TIME_WAIT | NET_TCP_CLOSED => 0
  end.

Definition fin_ok (t : net_tcb) : Prop :=
  match state t with
  | NET_TCP_SYN_RCVD | NET_TCP_ESTABLISHED | NET_TCP_CLOSE_WAIT => fin_sent t = false
  | NET_TCP_FIN_WAIT_1 | NET_TCP_CLOSING | NET_TCP_LAST_ACK =>
    fin_sent t = true ∧ host_eof t = true
  | NET_TCP_FIN_WAIT_2 | NET_TCP_TIME_WAIT => txlen t = 0 ∧ host_eof t = true
  | NET_TCP_CLOSED => txlen t = 0
  end.

Definition seq_ok (t : net_tcb) : Prop := flight t <= reach t <= seq_bound t ∧ fin_ok t.

(** The windows of a connection that has one. *)
Definition window_ok (t : net_tcb) : Prop :=
  64 <= mss t <= NET_TCP_MSS_MAX ∧ 64 <= cwnd t <= NET_TCP_TXBUF ∧ uint 32 (ssthresh t)
  ∧ uint 32 (cwnd_limit t).

Record tcb_ok (t : net_tcb) : Prop := {
  t_words : uint 32 (snd_una t) ∧ uint 32 (snd_nxt t) ∧ uint 32 (snd_max t) ∧ uint 32 (rcv_nxt t);
  t_wnd : uint 32 (snd_wnd t);
  t_tx : txlen t <= NET_TCP_TXBUF ∧ is_bytes (txbuf t);
  t_rx : rxlen t <= NET_TCP_RXBUF ∧ is_bytes (rxbuf t);
  t_win : state t ≠ NET_TCP_CLOSED → window_ok t;
  t_seq : seq_ok t }.

Record flow_ok (f : net_flow) : Prop := {
  f_ports : uint 16 (guest_port f) ∧ uint 16 (dst_port f);
  f_ip : uint 32 (dst_ip f);
  f_tcb : tcb_ok (tcb f) }.

Definition cfg_ok (c : net_config) : Prop :=
  uint 32 (guest_ip c) ∧ uint 32 (local_ip c) ∧ uint 32 (dns_ip c) ∧ uint 32 (tcp_cwnd_segments c).

Definition pending_ok (q : net_dns_pending) : Prop :=
  blen (query q) <= NET_DNS_QUERY_MAX ∧ is_bytes (query q) ∧ uint 16 (pguest_port q)
  ∧ (pused q = true → 12 <= blen (query q)).

(** The datagrams waiting for the guest, oldest first. *)
Definition queued {E} (ns : net_stack E) : list (list Z) :=
  (fun k => out ns ((out_tail ns + k) mod NET_OUT_SLOTS)) <$> seqZ 0 (out_head ns -w out_tail ns).

Record stack_ok {E} (ns : net_stack E) : Prop := {
  s_cfg : cfg_ok (cfg ns);
  s_ring : uint 32 (out_head ns) ∧ uint 32 (out_tail ns) ∧ out_head ns -w out_tail ns <= NET_OUT_SLOTS;
  s_queue : Forall (valid_datagram (guest_ip (cfg ns))) (queued ns);
  s_flow : ∀ i, flow_ok (flow ns i);
  s_dns : ∀ i, pending_ok (dns ns i) }.

(** ** Words *)

Lemma sub32_range a b : 0 <= a -w b < 2 ^ 32.
Proof. apply uint_w32. Qed.

(** A difference of words, as an equation [lia] can use. *)
Lemma sub32_cases a b : uint 32 a → uint 32 b →
  (b <= a ∧ a -w b = a - b) ∨ (a < b ∧ a -w b = a - b + 2 ^ 32).
Proof.
  intros [] []. unfold w32, wrap. destruct (Z_le_gt_dec b a); [left | right]; split; try lia.
  - apply Z.mod_small. lia.
  - rewrite <- (Z.mod_add _ 1) by lia. rewrite Z.mod_small; lia.
Qed.
Lemma add32_cases a b : uint 32 a → uint 32 b →
  (a + b < 2 ^ 32 ∧ a +w b = a + b) ∨ (2 ^ 32 <= a + b ∧ a +w b = a + b - 2 ^ 32).
Proof.
  intros [] []. unfold w32, wrap. destruct (Z_lt_le_dec (a + b) (2 ^ 32)); [left | right]; split; try lia.
  - apply Z.mod_small. lia.
  - rewrite <- (Z.mod_add _ (-1)) by lia. rewrite Z.mod_small; lia.
Qed.

(** A sequence number and its distance from a base determine each other. *)
Lemma sub_add_base base k : uint 32 base → uint 32 k → (base +w k) -w base = k.
Proof.
  intros Hb Hk. unfold w32. rewrite <- (wrap_small 32 k Hk) at 2.
  unfold wrap. rewrite Zminus_mod_idemp_l. f_equal. lia.
Qed.
Lemma add_sub_base base x : uint 32 base → uint 32 x → base +w (x -w base) = x.
Proof.
  intros Hb Hx. unfold w32. rewrite <- (wrap_small 32 x Hx) at 2.
  unfold wrap. rewrite Zplus_mod_idemp_r. f_equal. lia.
Qed.
Lemma add_add_base base a b : (base +w a) +w b = base +w (a + b).
Proof. unfold w32, wrap. rewrite Zplus_mod_idemp_l. f_equal. lia. Qed.
Lemma sub_shift base k x : uint 32 base → uint 32 x → 0 <= k <= x -w base →
  x -w (base +w k) = x -w base - k.
Proof.
  intros Hb Hx Hk. unfold w32 at 1 2, wrap. rewrite Zminus_mod_idemp_r.
  rewrite <- (wrap_small 32 (x -w base - k)).
  - unfold wrap, w32. unfold wrap. rewrite Zminus_mod_idemp_l. f_equal. lia.
  - pose proof (sub32_range x base). split; lia.
Qed.

(** [net_seq_lt] within half the space of a base. *)
Lemma seq_lt_base base a b : uint 32 base → uint 32 a → uint 32 b →
  a -w base < 2 ^ 31 → b -w base < 2 ^ 31 → net_seq_lt a b = (a -w base <? b -w base).
Proof.
  intros Hbase Ha Hb H1 H2. unfold net_seq_lt, s32, sgn.
  pose proof (sub32_range a base). pose proof (sub32_range b base).
  assert (w32 (a - b) = (a -w base) -w (b -w base)) as ->.
  { rewrite <- (add_sub_base base a) at 1 by done. rewrite <- (add_sub_base base b) at 1 by done.
    unfold w32, wrap. rewrite <- Zminus_mod. f_equal. lia. }
  change (32 - 1) with 31.
  destruct (sub32_cases (a -w base) (b -w base)) as [[? ->] | [? ->]]; [split; lia .. | |];
    destruct (Z.ltb_spec (a -w base) (b -w base)); try lia;
    destruct (Z.ltb_spec (a -w base - (b -w base)) (2 ^ 31));
    destruct (Z.ltb_spec (a -w base - (b -w base) + 2 ^ 32) (2 ^ 31)); lia.
Qed.

(** [net_seq_lt] as a condition on the difference. *)
Lemma seq_lt_dist a b : net_seq_lt a b = (2 ^ 31 <=? a -w b).
Proof.
  unfold net_seq_lt, s32, sgn. pose proof (sub32_range a b). change (32 - 1) with 31.
  destruct (Z.ltb_spec (a -w b) (2 ^ 31)), (Z.leb_spec (2 ^ 31) (a -w b)); lia.
Qed.
Lemma seq_le_dist a b : net_seq_le a b = (a -w b =? 0) || (2 ^ 31 <=? a -w b).
Proof.
  unfold net_seq_le, s32, sgn. pose proof (sub32_range a b). change (32 - 1) with 31.
  destruct (Z.ltb_spec (a -w b) (2 ^ 31)), (Z.leb_spec (2 ^ 31) (a -w b)), (Z.eqb_spec (a -w b) 0); lia.
Qed.

(** ** The queue *)

(** The slot count divides the range of the cursors. *)
Lemma slot_add base k : (base +w k) mod 32 = (base + k) mod 32.
Proof.
  unfold w32, wrap. change (2 ^ 32) with (32 * 2 ^ 27).
  by rewrite Z.rem_mul_r, (Z.mul_comm 32), Z.mod_add, Z.mod_mod by lia.
Qed.

Section queue.
Context {E : Type}.
Implicit Types ns : net_stack E.

Lemma queued_length ns : stack_ok ns → Z.of_nat (length (queued ns)) = out_head ns -w out_tail ns.
Proof.
  intros Hok. unfold queued. rewrite length_fmap, length_seqZ.
  pose proof (sub32_range (out_head ns) (out_tail ns)). lia.
Qed.

(** Writing the slot at the head appends. *)
Lemma queued_push ns d c :
  uint 32 (out_head ns) → uint 32 (out_tail ns) → out_head ns -w out_tail ns < NET_OUT_SLOTS →
  c = n_out_head (out_head ns +w 1) (n_out (<[out_head ns mod NET_OUT_SLOTS := d]> (out ns)) ns) →
  queued c = queued ns ++ [d] ∧ uint 32 (out_head c) ∧ uint 32 (out_tail c)
  ∧ out_head c -w out_tail c = out_head ns -w out_tail ns + 1.
Proof.
  intros Hh Ht Hlen ->. change NET_OUT_SLOTS with 32 in *.
  set (n := out_head ns -w out_tail ns) in *. pose proof (sub32_range (out_head ns) (out_tail ns)) as Hn.
  fold n in Hn.
  assert ((out_head ns +w 1) -w out_tail ns = n + 1) as Hnew.
  { rewrite <- (add_sub_base (out_tail ns) (out_head ns)) by done. fold n.
    rewrite add_add_base. apply sub_add_base; [done | split; lia]. }
  split_and!; [| apply uint_w32 | done | done].
  unfold queued. cbn [out out_head out_tail n_out_head n_out]. rewrite Hnew. fold n.
  rewrite (seqZ_app 0 n 1) by lia. rewrite fmap_app. f_equal.
  - apply list_fmap_ext. intros k x Hx. apply lookup_seqZ in Hx as [-> Hk].
    rewrite fn_lookup_insert_ne; [done |].
    intros E'. change NET_OUT_SLOTS with 32 in E'. rewrite <- (add_sub_base (out_tail ns) (out_head ns)), slot_add in E' by done.
    fold n in E'. pose proof (Z.div_mod (out_tail ns + n) 32 ltac:(lia)).
    pose proof (Z.div_mod (out_tail ns + (0 + Z.of_nat k)) 32 ltac:(lia)). lia.
  - change (seqZ (0 + n) 1) with [0 + n]. cbn [fmap list_fmap]. f_equal. change NET_OUT_SLOTS with 32.
    assert ((out_tail ns + (0 + n)) mod 32 = out_head ns mod 32) as ->; [| by rewrite fn_lookup_insert].
    rewrite <- (add_sub_base (out_tail ns) (out_head ns)), slot_add by done. done.
Qed.

Lemma queued_pop ns d q : uint 32 (out_head ns) → uint 32 (out_tail ns) → queued ns = d :: q →
  out ns (out_tail ns mod NET_OUT_SLOTS) = d ∧ queued (n_out_tail (out_tail ns +w 1) ns) = q.
Proof.
  intros Hh Ht Hq. unfold queued in *. cbn [out out_head out_tail n_out_tail].
  pose proof (sub32_range (out_head ns) (out_tail ns)).
  destruct (Z.eq_dec (out_head ns -w out_tail ns) 0) as [E0 | Hne].
  { by rewrite E0 in Hq. }
  rewrite seqZ_cons in Hq by lia. cbn [fmap list_fmap] in Hq.
  rewrite Z.add_0_r in Hq. injection Hq as Hd Hq. split; [done |].
  rewrite sub_shift by (done || lia). rewrite <- Hq.
  rewrite <- (fmap_add_seqZ 1 0), <- list_fmap_compose.
  apply list_fmap_ext. intros k x _. cbn. change NET_OUT_SLOTS with 32.
  rewrite <- (Zplus_mod_idemp_l (out_tail ns +w 1)), slot_add, Zplus_mod_idemp_l.
  do 2 f_equal. lia.
Qed.

(** ** What an operation leaves alone *)

(** Configuration, clock, egress, pending lookups. *)
Record quiet ns ns' : Prop := {
  q_cfg : cfg ns' = cfg ns;
  q_now : now_ms ns' = now_ms ns;
  q_eg : eg ns' = eg ns;
  q_dns : dns ns' = dns ns }.

Lemma quiet_refl ns : quiet ns ns.
Proof. done. Qed.
Lemma quiet_trans a b c : quiet a b → quiet b c → quiet a c.
Proof. intros [] []. split; congruence. Qed.

Lemma ok_flow v ns : stack_ok ns → (∀ i, flow_ok (v i)) → stack_ok (n_flow v ns).
Proof. intros [] Hv. by split. Qed.

Lemma ok_on_flow i g ns : stack_ok ns → flow_ok (g (flow ns i)) → stack_ok (on_flow i g ns).
Proof.
  intros Hok Hg. apply ok_flow; [done |]. intros j. destruct (decide (i = j)) as [<- |].
  - by rewrite fn_lookup_insert.
  - rewrite fn_lookup_insert_ne by done. apply Hok.
Qed.

Lemma ok_on_tcb i g ns : stack_ok ns → tcb_ok (g (tcb (flow ns i))) → stack_ok (on_tcb i g ns).
Proof. intros Hok Hg. apply ok_on_flow; [done |]. by destruct (s_flow ns Hok i). Qed.

Lemma ok_stats v ns : stack_ok ns → stack_ok (n_stats v ns).
Proof. by intros []. Qed.
Lemma ok_bump c n ns : stack_ok ns → stack_ok (bump_stat c n ns).
Proof. apply ok_stats. Qed.
Lemma ok_set c n ns : stack_ok ns → stack_ok (set_stat c n ns).
Proof. apply ok_stats. Qed.
Lemma ok_eg e ns : stack_ok ns → stack_ok (n_eg e ns).
Proof. by intros []. Qed.
Lemma ok_now v ns : stack_ok ns → stack_ok (n_now_ms v ns).
Proof. by intros []. Qed.
Lemma ok_iss v ns : stack_ok ns → stack_ok (n_iss_walk v ns).
Proof. by intros []. Qed.

(** ** Emission *)

Lemma net_emit_spec src proto payload ns :
  stack_ok ns → uint 32 src → uint 8 proto → is_bytes payload →
  transport_verifies src (guest_ip (cfg ns)) proto payload →
  let '(ok, ns') := net_emit src (guest_ip (cfg ns)) proto payload ns in
  stack_ok ns' ∧ quiet ns ns' ∧ flow ns' = flow ns ∧
  if ok then ∃ hdr, blen hdr = 20 ∧ queued ns' = queued ns ++ [hdr ++ payload]
  else queued ns' = queued ns.
Proof.
  intros Hok Hsrc Hp Hb Hv. destruct (s_ring ns Hok) as (Hh & Ht & Hlen).
  destruct (s_cfg ns Hok) as (Hg & _). unfold net_emit.
  destruct (NET_MTU <? blen payload + IPV4_HDR_LEN) eqn:Emtu.
  { split_and!; [by apply ok_bump | done ..]. }
  unfold net_out_alloc.
  destruct (Z.leb_spec NET_OUT_SLOTS (out_head ns -w out_tail ns)) as [Hf | Hf].
  { split_and!; [by apply ok_bump | done ..]. }
  destruct (net_build_ipv4 _ _ _ _ _ _) as [hdr |] eqn:Eh.
  2: { split_and!; [by apply ok_bump | done ..]. }
  pose proof (built_valid _ _ _ _ _ _ Hsrc Hg Hp Hb Eh Hv) as Hd.
  destruct (queued_push ns (hdr ++ payload) _ Hh Ht Hf eq_refl) as (Hq & Hh' & Ht' & Hl').
  set (c := n_out_head _ _) in *. split_and!.
  - apply ok_bump. destruct Hok. split; [done | | | done ..].
    + split_and!; [done | done | unfold c in *; cbn in *; lia].
    + rewrite Hq. change (cfg c) with (cfg ns). apply Forall_app_2; [done | by apply Forall_singleton].
  - done.
  - done.
  - exists hdr. split; [| exact Hq]. unfold net_build_ipv4 in Eh. repeat case_match; try done.
    injection Eh as <-. done.
Qed.
End queue.
