(* ===== verification/TcpTcb.v ===== *)
(** * The TCP control block keeps its invariant

    The functions of Tcp.v on [net_tcb] alone: cursors, windows, acknowledgement, close. *)

From S2P Require Import Prelude Bytes Net Tcp NetFacts NetInv.

(** ** Updates of the control block that the invariant does not see *)

Lemma ok_need_ack b t : tcb_ok t → tcb_ok (tc_need_ack b t).
Proof. by intros []. Qed.
Lemma ok_rto_on b t : tcb_ok t → tcb_ok (tc_rto_on b t).
Proof. by intros []. Qed.
Lemma ok_rto_at v t : tcb_ok t → tcb_ok (tc_rto_at v t).
Proof. by intros []. Qed.
Lemma ok_rtx v t : tcb_ok t → tcb_ok (tc_rtx v t).
Proof. by intros []. Qed.
Lemma ok_close_at v t : tcb_ok t → tcb_ok (tc_close_at v t).
Proof. by intros []. Qed.
Lemma ok_tx_shutdown v t : tcb_ok t → tcb_ok (tc_tx_shutdown v t).
Proof. by intros []. Qed.
Lemma ok_snd_wnd v t : uint 32 v → tcb_ok t → tcb_ok (tc_snd_wnd v t).
Proof. by intros ? []. Qed.
Lemma ok_rcv_nxt v t : uint 32 v → tcb_ok t → tcb_ok (tc_rcv_nxt v t).
Proof. intros ? [(? & ? & ? & ?) ? ? ? ? ?]. by split. Qed.
Lemma ok_rxbuf v t : blen v <= NET_TCP_RXBUF → is_bytes v → tcb_ok t → tcb_ok (tc_rxbuf v t).
Proof. by intros ? ? []. Qed.
Lemma ok_timers now t : tcb_ok t → tcb_ok (tcp_timers now t).
Proof.
  intros Hok. unfold tcp_timers. case_match; [case_match |]; auto using ok_rto_at, ok_rto_on, ok_rtx.
Qed.

Create HintDb tcb discriminated.
#[export] Hint Constants Opaque : tcb.
#[export] Hint Resolve ok_need_ack ok_rto_on ok_rto_at ok_rtx ok_close_at ok_tx_shutdown ok_timers : tcb.

Lemma zero_tcb_ok : tcb_ok zero_tcb.
Proof. split; cbn; repeat split; try done; constructor. Qed.
Lemma zero_flow_ok h : flow_ok (fl_handle h zero_flow).
Proof. split; [by repeat split | by split | apply zero_tcb_ok]. Qed.

(** ** The sequence space *)

Lemma txlen_nonneg t : 0 <= txlen t.
Proof. apply blen_nonneg. Qed.

Lemma seq_bound_le t : tcb_ok t → seq_bound t <= NET_TCP_TXBUF + 1.
Proof.
  intros [_ _ [Htx _] _ _ _]. unfold seq_bound. change NET_TCP_TXBUF with 65536 in *.
  pose proof (txlen_nonneg t). destruct (state t); lia.
Qed.

(** How many octets of sequence space a segment occupies. *)
Definition seg_span (flags n : Z) : Z :=
  n + (if has_flag flags TCP_SYN then 1 else 0) + (if has_flag flags TCP_FIN then 1 else 0).

Lemma commit_at flags k n t :
  tcb_ok t → 0 <= k → 0 <= n → k + seg_span flags n < 2 ^ 31 → 0 < seg_span flags n →
  commit_seq flags (snd_una t +w k) n t
  = tc_snd_max (snd_una t +w Z.max (reach t) (k + seg_span flags n)) t.
Proof.
  intros Hok Hk Hn Hlt Hpos. pose proof (seq_bound_le t Hok) as Hb.
  destruct Hok as [(Hu & _ & Hm & _) _ _ _ _ [[_ Hr] _]].
  change NET_TCP_TXBUF with 65536 in Hb.
  unfold commit_seq.
  assert ((0 <? n) || has_flag flags (TCP_SYN .| TCP_FIN) = true) as ->.
  { destruct (Z.ltb_spec 0 n); [done |]. cbn. unfold seg_span, has_flag in *.
    change (TCP_SYN .| TCP_FIN) with 3.
    destruct (flags .& 3 =? 0) eqn:E3; [exfalso | done].
    assert (∀ b, b .& 3 = b → flags .& b = 0) as Hz.
    { intros b Hb'. rewrite <- Hb', (Z.land_comm b), Z.land_assoc, (proj1 (Z.eqb_eq _ _) E3).
      apply Z.land_0_l. }
    rewrite (Hz TCP_SYN), (Hz TCP_FIN) in Hpos by done. cbn in Hpos. lia. }
  assert (∀ e, e = k + seg_span flags n → (if net_seq_lt (snd_max t) (snd_una t +w e) then
    tc_snd_max (snd_una t +w e) t else t) = tc_snd_max (snd_una t +w Z.max (reach t) e) t) as Hgen.
  { intros e He. pose proof (sub32_range (snd_max t) (snd_una t)).
    rewrite (seq_lt_base (snd_una t)); [| done | done | apply uint_w32 | fold (reach t); lia |].
    2: { rewrite sub_add_base; [lia | done | split; lia]. }
    rewrite sub_add_base by (done || (split; lia)). fold (reach t).
    destruct (Z.ltb_spec (reach t) e).
    - by rewrite Z.max_r by lia.
    - rewrite Z.max_l by lia. unfold reach. rewrite add_sub_base by done. by destruct t. }
  rewrite <- Hgen by done. cbv zeta.
  assert ((if has_flag flags TCP_FIN
           then (if has_flag flags TCP_SYN then snd_una t +w k +w n +w 1 else snd_una t +w k +w n) +w 1
           else if has_flag flags TCP_SYN then snd_una t +w k +w n +w 1 else snd_una t +w k +w n)
          = snd_una t +w (k + seg_span flags n)) as ->; [| done].
  unfold seg_span. destruct (has_flag flags TCP_SYN), (has_flag flags TCP_FIN);
    rewrite ?add_add_base; do 2 f_equal; lia.
Qed.

(** Moving the two cursors within the bound of the state. *)
Lemma ok_cursors k r t : tcb_ok t → 0 <= k <= r → r <= seq_bound t →
  tcb_ok (tc_snd_nxt (snd_una t +w k) (tc_snd_max (snd_una t +w r) t)).
Proof.
  intros Hok Hk Hr. pose proof (seq_bound_le t Hok). change NET_TCP_TXBUF with 65536 in *.
  destruct Hok as [(Hu & Hn & Hm & Hv) ? ? ? ? [_ Hfin]]. split; try done.
  - cbn. repeat split; try apply Hu; try apply Hv; apply uint_w32.
  - split; [| done]. unfold flight, reach. cbn. rewrite !sub_add_base by (done || (split; lia)).
    split; [lia | exact Hr].
Qed.

(** Committing up to [k + span], the retransmission cursor where it was. *)
Lemma ok_commit flags k n t :
  tcb_ok t → 0 <= k → 0 <= n → k + seg_span flags n <= seq_bound t →
  tcb_ok (commit_seq flags (snd_una t +w k) n t).
Proof.
  intros Hok Hk Hn Hb. pose proof (seq_bound_le t Hok). change NET_TCP_TXBUF with 65536 in *.
  assert (0 <= seg_span flags n) by (unfold seg_span; repeat case_match; lia).
  destruct (Z.eq_dec (seg_span flags n) 0) as [E0 | Hne].
  - assert (n = 0 ∧ has_flag flags TCP_SYN = false ∧ has_flag flags TCP_FIN = false) as (-> & HS & HF).
    { unfold seg_span in E0. repeat case_match; split_and!; try done; lia. }
    assert (commit_seq flags (snd_una t +w k) 0 t = t) as ->; [| done].
    unfold commit_seq. rewrite HS, HF. cbn zeta. destruct (has_flag _ (_ .| _)) eqn:E; [| done].
    exfalso. unfold has_flag in *. apply negb_false_iff, Z.eqb_eq in HS, HF.
    by rewrite Z.land_lor_distr_r, HS, HF in E.
  - rewrite commit_at by (done || lia).
    destruct Hok as [(Hu & Hnx & Hm & Hv) ? ? ? ? [[Hfl Hrb] Hfin]].
    pose proof (sub32_range (snd_max t) (snd_una t)) as Hrr. fold (reach t) in Hrr.
    split; try done.
    + cbn. repeat split; try apply Hu; try apply Hnx; try apply Hv; apply uint_w32.
    + split; [| done]. unfold flight, reach in *. cbn.
      rewrite sub_add_base by (done || (split; lia)).
      split; [lia |]. change (Z.max (snd_max t -w snd_una t) (k + seg_span flags n) <= seq_bound t). lia.
Qed.


(** ** Windows *)

Lemma ceiling_range t : window_ok t → mss t <= tcp_cwnd_ceiling t <= NET_TCP_TXBUF.
Proof.
  intros ([Hm1 Hm2] & _ & _ & [Hl1 Hl2]). unfold tcp_cwnd_ceiling.
  change NET_TCP_CWND_MAX_SEGMENTS with 3. change NET_OUT_SLOTS with 32.
  change NET_TCP_MSS_MAX with 1460 in *. change NET_TCP_TXBUF with 65536.
  set (n := if cwnd_limit t =? 0 then 3 else cwnd_limit t).
  assert (1 <= n) by (unfold n; destruct (Z.eqb_spec (cwnd_limit t) 0); lia).
  set (n' := if 32 <? n then 32 else n).
  assert (1 <= n' <= 32) by (unfold n'; destruct (Z.ltb_spec 32 n); lia).
  rewrite w32_small by (split; nia). destruct (Z.ltb_spec (n' * mss t) 65536); nia.
Qed.

Lemma ok_window_cwnd v t : 64 <= v <= NET_TCP_TXBUF → window_ok t → window_ok (tc_cwnd v t).
Proof. by intros ? (? & ? & ?). Qed.

(** Only the windows change. *)
Lemma ok_cwnd v t : 64 <= v <= NET_TCP_TXBUF → tcb_ok t → tcb_ok (tc_cwnd v t).
Proof. intros Hv [? ? ? ? Hw ?]. split; try done. intros Hs. apply ok_window_cwnd; [done |]. by apply Hw. Qed.

Lemma cwnd_ack_range n t : 0 <= n → window_ok t → 64 <= cwnd (tcp_cwnd_ack n t) <= NET_TCP_TXBUF.
Proof.
  intros Hn Hw. pose proof (ceiling_range t Hw) as Hc. destruct Hw as ([Hm1 Hm2] & Hcw & _ & _).
  unfold tcp_cwnd_ack. destruct (n =? 0); [done |].
  set (inc := if cwnd t <? ssthresh t then _ else _).
  assert (0 <= inc) as Hinc.
  { unfold inc. repeat case_match; try lia; apply Z.div_pos; try lia; apply (uint_w32 (mss t * mss t)). }
  change NET_TCP_TXBUF with 65536 in *.
  destruct (Z.leb_spec (tcp_cwnd_ceiling t) (cwnd t)); cbn [orb].
  { cbn. lia. }
  rewrite (w32_small (_ - _)) by (split; lia).
  destruct (Z.ltb_spec (tcp_cwnd_ceiling t - cwnd t) inc); cbn; [lia |].
  rewrite w32_small by (split; lia). lia.
Qed.

Lemma cwnd_ack_is n t : tcp_cwnd_ack n t = tc_cwnd (cwnd (tcp_cwnd_ack n t)) t.
Proof. unfold tcp_cwnd_ack. destruct (n =? 0); [by destruct t |]. by case_match. Qed.

Lemma ok_cwnd_timeout t : state t ≠ NET_TCP_CLOSED → tcb_ok t → tcb_ok (tcp_cwnd_timeout t).
Proof.
  intros Hs [? ? ? ? Hw ?]. specialize (Hw Hs). split; try done. intros _.
  pose proof (ceiling_range t Hw) as Hc. destruct Hw as ([Hm1 Hm2] & Hcw & Hss & Hl).
  change NET_TCP_TXBUF with 65536 in *. change NET_TCP_MSS_MAX with 1460 in *.
  assert (0 <= tcp_inflight t).
  { unfold tcp_inflight. case_match; [apply txlen_nonneg | apply sub32_range]. }
  assert (uint 32 (2 *w mss t)) as [] by apply uint_w32.
  assert (0 <= tcp_inflight t / 2) by (apply Z.div_pos; lia).
  unfold window_ok. change NET_TCP_TXBUF with 65536. change NET_TCP_MSS_MAX with 1460.
  cbn. split_and!; try done; try lia.
  set (th := if _ <? _ then 2 *w mss t else _).
  assert (0 <= th) by (unfold th; case_match; lia).
  destruct (Z.ltb_spec th (tcp_cwnd_ceiling t)); split; lia.
Qed.

Lemma initial_cwnd_range m : 64 <= m <= NET_TCP_MSS_MAX → 64 <= tcp_initial_cwnd m <= 4380.
Proof.
  intros [H1 H2]. change NET_TCP_MSS_MAX with 1460 in *. unfold tcp_initial_cwnd.
  rewrite !w32_small by (split; lia).
  destruct (Z.ltb_spec (2 * m) 4380); [| lia].
  destruct (Z.ltb_spec (4 * m) 4380); lia.
Qed.

Lemma clamp_mss_range m : 64 <= clamp_mss m <= NET_TCP_MSS_MAX.
Proof.
  unfold clamp_mss. change NET_TCP_MSS_MAX with 1460.
  destruct (Z.ltb_spec 1460 m); [done |]. destruct (Z.ltb_spec m 64); lia.
Qed.

(** ** Opening and closing *)

(** The control block of a new flow, its three send cursors at the initial sequence. *)
Lemma ok_syn_tcb sseq wnd m limit s : uint 32 wnd → uint 32 limit → uint 32 s →
  tcb_ok (tc_snd_una s (tc_snd_nxt s (tc_snd_max s (syn_tcb sseq wnd (clamp_mss m) limit zero_tcb)))).
Proof.
  intros Hw Hl Hs. pose proof (clamp_mss_range m) as Hm. pose proof (initial_cwnd_range _ Hm) as Hc.
  set (t := tc_cwnd_limit limit (tc_cwnd (tcp_initial_cwnd (clamp_mss m)) (tc_mss (clamp_mss m)
    (tc_state NET_TCP_SYN_RCVD (tc_snd_wnd wnd (tc_rcv_nxt (sseq +w 1) (tc_irs sseq zero_tcb))))))).
  assert (window_ok t) as Hwin.
  { unfold window_ok. cbn. unfold NET_TCP_TXBUF, NET_TCP_MSS_MAX in *. split_and!; try done; lia. }
  pose proof (ceiling_range t Hwin) as Hceil.
  split; cbn.
  - repeat split; try apply Hs. all: apply uint_w32.
  - done.
  - split; [done | constructor].
  - split; [done | constructor].
  - intros _. destruct Hwin as (W1 & W2 & _ & W4).
    assert (uint 32 (tcp_cwnd_ceiling t)) as W3.
    { destruct W1. unfold NET_TCP_TXBUF in *. split; lia. }
    split; [exact W1 | split; [exact W2 | split; [exact W3 | exact W4]]].
  - unfold seq_ok, flight, reach, seq_bound, fin_ok. cbn. by rewrite Z.sub_diag.
Qed.

Lemma ok_state s t : tcb_ok t → state t ≠ NET_TCP_CLOSED → reach t <= seq_bound (tc_state s t) →
  fin_ok (tc_state s t) → tcb_ok (tc_state s t).
Proof.
  intros [? ? ? ? Hw [[Hf _] _]] Hs Hb Hfin. split; try done. intros _. by apply Hw.
Qed.

Lemma ok_pump_eof t : tcb_ok t → tcb_ok (pump_eof t).
Proof.
  intros Hok. unfold pump_eof. destruct (_ && _) eqn:E; [| done].
  apply andb_prop in E as [E Est]. apply andb_prop in E as [Heof _].
  destruct Hok as [? ? ? ? Hw [Hr _]].
  assert (state t = NET_TCP_ESTABLISHED ∨ state t = NET_TCP_CLOSE_WAIT) as Hst.
  { apply orb_prop in Est as [Est | Est]; apply bool_decide_eq_true in Est; auto. }
  assert (window_ok t) by (apply Hw; intros Hs; rewrite Hs in Hst; by destruct Hst).
  assert (flight t <= reach t <= txlen t + 1).
  { unfold seq_bound in Hr. destruct Hst as [Es | Es]; rewrite Es in Hr; lia. }
  split; try done. split; destruct Hst as [Es | Es]; unfold seq_bound, fin_ok; cbn; rewrite Es; done.
Qed.

(** The guest's close. *)
Lemma ok_fin_again now t : tcb_ok t → tcb_ok (fin_again now t).
Proof. intros Hok. unfold fin_again. repeat case_match; auto with tcb. Qed.

Lemma ok_fin_accept now e t : tcb_ok t → tcb_ok (fin_accept now e t).
Proof.
  intros Hok. unfold fin_accept. case_match; [| done]. cbn [state tc_need_ack tc_rcv_nxt].
  assert (tcb_ok (tc_need_ack true (tc_rcv_nxt (rcv_nxt t +w 1) t))) as Hok'
    by (apply ok_need_ack, ok_rcv_nxt; [apply uint_w32 | done]).
  set (t' := tc_need_ack _ _) in *.
  change (state t) with (state t'). clearbody t'. clear Hok.
  pose proof (t_seq _ Hok') as [[_ Hr] Hfin]. unfold fin_ok, seq_bound in Hfin, Hr.
  destruct (state t') eqn:Es; try apply ok_close_at; try done;
    (apply ok_state; [done | congruence | |]); unfold seq_bound, fin_ok; cbn; rewrite ?Es; done.
Qed.

(** Our FIN acknowledged: nothing is outstanding. *)
Lemma ok_fin_acked now t : tcb_ok t → reach t = 0 → txlen t = 0 → host_eof t = true →
  tcb_ok (tcp_fin_acked now t).
Proof.
  intros Hok Hr Ht He. unfold tcp_fin_acked.
  destruct (state t) eqn:Es; try apply ok_close_at; try done;
    (apply ok_state; [done | congruence | |]); unfold seq_bound, fin_ok; cbn; rewrite ?Es; done || lia.
Qed.

(** ** Acknowledgement *)

Lemma get_bytes_slice l off n : is_bytes l → 0 <= off → 0 <= n → off + n <= blen l →
  get_bytes l off n = Some (take (Z.to_nat n) (drop (Z.to_nat off) l)).
Proof.
  intros Hb Ho Hn Hl. unfold blen in Hl.
  apply (get_bytes_at _ (take (Z.to_nat off) l) _ (drop (Z.to_nat n) (drop (Z.to_nat off) l))).
  - by rewrite take_drop, take_drop.
  - unfold blen. rewrite length_take. lia.
  - unfold blen. rewrite length_take, length_drop. lia.
  - by apply Forall_take, Forall_drop.
Qed.

Lemma get_bytes_drop l n : is_bytes l → 0 <= n <= blen l →
  get_bytes l n (blen l - n) = Some (drop (Z.to_nat n) l).
Proof.
  intros Hb Hn. rewrite get_bytes_slice by (done || lia). f_equal. apply take_ge.
  rewrite length_drop. unfold blen. lia.
Qed.

(** What an acceptable acknowledgement acknowledges. *)
Lemma ack_range ack t : tcb_ok t → uint 32 ack → net_seq_lt (snd_una t) ack = true →
  net_seq_lt (snd_max t) ack = false → 1 <= ack -w snd_una t <= reach t.
Proof.
  intros Hok Ha H1 H2. pose proof (seq_bound_le t Hok) as Hb. unfold NET_TCP_TXBUF in Hb.
  destruct Hok as [(Hu & Hn & Hm & _) _ _ _ _ [[_ Hr] _]].
  rewrite seq_lt_dist in H1, H2. bool_facts.
  unfold reach in *. pose proof Ha as []. pose proof Hu as []. pose proof Hm as [].
  destruct (sub32_cases ack (snd_una t) Ha Hu) as [[? Ea] | [? Ea]],
    (sub32_cases (snd_una t) ack Hu Ha) as [[? Eb] | [? Eb]],
    (sub32_cases (snd_max t) ack Hm Ha) as [[? Ec] | [? Ec]],
    (sub32_cases (snd_max t) (snd_una t) Hm Hu) as [[? Ed] | [? Ed]]; lia.
Qed.

(** The control block after it: the acknowledged prefix leaves the buffer, the cursor is
    never behind, the retransmission episode ends. *)
Definition acked_tcb (ack : Z) (t : net_tcb) : net_tcb :=
  let a := ack -w snd_una t in
  let dat := Z.min a (txlen t) in
  let t1 := tc_cwnd (cwnd (tcp_cwnd_ack dat t)) t in
  let t2 := tc_snd_una ack (tc_txbuf (drop (Z.to_nat dat) (txbuf t)) t1) in
  let t3 := tc_snd_nxt (ack +w Z.max 0 (flight t - a)) t2 in
  tc_rto_on false (tc_rtx 0 t3).

Lemma consume_ack_eq ack t : tcb_ok t → uint 32 ack → 1 <= ack -w snd_una t <= reach t →
  consume_ack_tcb ack t = Some (acked_tcb ack t).
Proof.
  intros Hok Ha Hr. pose proof (seq_bound_le t Hok) as Hb. unfold NET_TCP_TXBUF in Hb.
  destruct Hok as [(Hu & Hn & Hm & _) _ [_ Htx] _ _ [[Hf1 Hf2] _]].
  pose proof (txlen_nonneg t). pose proof (sub32_range (snd_nxt t) (snd_una t)) as Hfr.
  fold (flight t) in Hfr.
  unfold consume_ack_tcb, acked_tcb. cbv zeta.
  assert ((if txlen t <? ack -w snd_una t then txlen t else ack -w snd_una t)
    = Z.min (ack -w snd_una t) (txlen t)) as ->.
  { destruct (Z.ltb_spec (txlen t) (ack -w snd_una t)); lia. }
  set (a := ack -w snd_una t) in *. set (dat := Z.min a (txlen t)).
  assert ((if dat =? 0 then Some t else
           rest ← get_bytes (txbuf (tcp_cwnd_ack dat t)) dat (txlen (tcp_cwnd_ack dat t) - dat);
           Some (tc_txbuf rest (tcp_cwnd_ack dat t)))
          = Some (tc_txbuf (drop (Z.to_nat dat) (txbuf t)) (tc_cwnd (cwnd (tcp_cwnd_ack dat t)) t))) as ->.
  { destruct (Z.eqb_spec dat 0) as [E0 | Hne].
    - rewrite E0. change (Z.to_nat 0) with 0%nat. rewrite drop_0. unfold tcp_cwnd_ack. cbn. by destruct t.
    - rewrite (cwnd_ack_is dat t). change (txbuf (tc_cwnd _ t)) with (txbuf t).
      change (txlen (tc_cwnd _ t)) with (txlen t). unfold txlen at 1.
      rewrite get_bytes_drop; [done | done | fold (txlen t); lia]. }
  cbn [mbind option_bind]. do 3 f_equal.
  set (t2 := tc_snd_una ack _). change (snd_nxt t2) with (snd_nxt t).
  assert (ack = snd_una t +w a) as Eack by (unfold a; by rewrite add_sub_base).
  rewrite (seq_lt_base (snd_una t)); [| done | done | done | fold (flight t); lia | fold a; lia].
  fold (flight t) a. destruct (Z.ltb_spec (flight t) a).
  - rewrite Z.max_l by lia. rewrite Z.add_0_r, w32_small by done. done.
  - rewrite Z.max_r by lia. rewrite Eack, add_add_base.
    replace (a + (flight t - a)) with (flight t) by lia. unfold flight. rewrite add_sub_base by done.
    done.
Qed.

Lemma acked_reach ack t : tcb_ok t → uint 32 ack → 1 <= ack -w snd_una t <= reach t →
  let a := ack -w snd_una t in let t' := acked_tcb ack t in
  reach t' = reach t - a ∧ flight t' = Z.max 0 (flight t - a) ∧ txlen t' = txlen t - Z.min a (txlen t).
Proof.
  intros Hok Ha Hr. pose proof (seq_bound_le t Hok) as Hb. unfold NET_TCP_TXBUF in Hb.
  destruct Hok as [(Hu & Hn & Hm & _) _ [_ Htx] _ _ [[Hf1 Hf2] _]].
  pose proof (txlen_nonneg t). cbv zeta. set (a := ack -w snd_una t) in *.
  assert (ack = snd_una t +w a) as Eack by (unfold a; by rewrite add_sub_base).
  split_and!.
  - unfold reach, acked_tcb. cbn. rewrite Eack at 1. rewrite sub_shift; [done.. |].
    fold (reach t). lia.
  - unfold flight at 1, acked_tcb. cbn. apply sub_add_base; [done |]. fold a.
    pose proof (sub32_range (snd_nxt t) (snd_una t)). fold (flight t) in *. split; lia.
  - unfold txlen at 1, acked_tcb. cbn. fold a. rewrite blen_drop; [done |]. fold (txlen t). lia.
Qed.

Lemma acked_ok ack t : tcb_ok t → uint 32 ack → 1 <= ack -w snd_una t <= reach t →
  tcb_ok (acked_tcb ack t).
Proof.
  intros Hok Ha Hr. destruct (acked_reach ack t Hok Ha Hr) as (Er & Ef & Et).
  pose proof (seq_bound_le t Hok) as Hb. unfold NET_TCP_TXBUF in Hb. pose proof (txlen_nonneg t).
  assert (state t ≠ NET_TCP_CLOSED) as Hs.
  { intros Hs. pose proof (t_seq t Hok) as [[_ Hr'] _]. unfold seq_bound in Hr'. rewrite Hs in Hr'. lia. }
  destruct Hok as [(Hu & Hn & Hm & Hv) Hw [Htx1 Htx2] Hrx Hwin [[Hf1 Hf2] Hfin]].
  specialize (Hwin Hs). set (t' := acked_tcb ack t) in *.
  split.
  - repeat split; try apply Hm; try apply Hv; try apply Ha; apply uint_w32.
  - done.
  - split; [lia |]. by apply Forall_drop.
  - done.
  - intros _. apply (cwnd_ack_range (Z.min (ack -w snd_una t) (txlen t))) in Hwin as Hc; [| lia].
    by apply ok_window_cwnd.
  - split.
    + rewrite Er, Ef. unfold seq_bound in *. change (state t') with (state t).
      rewrite Et. destruct (state t); lia.
    + unfold fin_ok in *. change (state t') with (state t). change (fin_sent t') with (fin_sent t).
      change (host_eof t') with (host_eof t). rewrite Et. destruct (state t); try done; destruct Hfin; split; try done; lia.
Qed.

(** The whole of [tcp_consume_ack] on the control block. *)
Definition consumed_tcb (now ack : Z) (t : net_tcb) : net_tcb :=
  if fin_sent t && (txlen t <? ack -w snd_una t) then tcp_fin_acked now (acked_tcb ack t)
  else acked_tcb ack t.

Lemma consumed_ok now ack t : tcb_ok t → uint 32 ack → 1 <= ack -w snd_una t <= reach t →
  tcb_ok (consumed_tcb now ack t).
Proof.
  intros Hok Ha Hr. pose proof (acked_ok ack t Hok Ha Hr) as Hok'. unfold consumed_tcb.
  destruct (fin_sent t && _) eqn:E; [| done]. bool_facts.
  destruct (acked_reach ack t Hok Ha Hr) as (Er & _ & Et).
  destruct Hok as [_ _ _ _ _ [[_ Hb] Hfin]]. unfold seq_bound, fin_ok in *. pose proof (txlen_nonneg t).
  assert (reach t <= txlen t + 1 ∧ host_eof t = true) as [Hb' He].
  { destruct (state t); first [congruence | destruct Hfin; split; [lia | done] | lia]. }
  apply ok_fin_acked; [done | lia | lia | done].
Qed.
