(* ===== verification/TcpInv.v ===== *)
(** * TCP keeps the invariant

    Every function of Tcp.v, from a good stack: it returns, inside its buffers, with a good
    stack.  [tcp_out_spec] and the frame facts beside it ([only i]) are shared with the
    theorems on the byte streams. *)

From S2P Require Import Prelude Bytes Net Tcp NetFacts NetInv TcpTcb.

(** ** Emission of a segment *)

Lemma mss_option_bytes : is_bytes mss_option.
Proof. by_computation. Qed.

Section out.
Context {E : Type} `{Egress E}.
Implicit Types ns : net_stack E.

(** No flow but [i] changes. *)
Definition only (i : Z) ns ns' : Prop := ∀ j, j ≠ i → flow ns' j = flow ns j.

Lemma only_refl i ns : only i ns ns.
Proof. done. Qed.
Lemma only_trans i a b c : only i a b → only i b c → only i a c.
Proof. intros H1 H2 j Hj. by rewrite H2, H1. Qed.
Lemma only_on_flow i g ns : only i ns (on_flow i g ns).
Proof. intros j Hj. unfold on_flow. cbn. by rewrite fn_lookup_insert_ne. Qed.
Lemma on_flow_at i g ns : flow (on_flow i g ns) i = g (flow ns i).
Proof. unfold on_flow. cbn. by rewrite fn_lookup_insert. Qed.
Lemma on_tcb_at i g ns : the_tcb i (on_tcb i g ns) = g (the_tcb i ns).
Proof. unfold the_tcb, on_tcb. by rewrite on_flow_at. Qed.
Lemma ok_the_tcb i ns : stack_ok ns → tcb_ok (the_tcb i ns).
Proof. intros Hok. apply (s_flow ns Hok i). Qed.

(** The control block after a segment of [n] octets is queued. *)
Definition out_tcb (flags seq n : Z) (t : net_tcb) : net_tcb :=
  let t := commit_seq flags seq n t in
  if has_flag flags TCP_ACK then tc_need_ack false t else t.

Lemma ok_out_tcb flags seq n t : tcb_ok (commit_seq flags seq n t) → tcb_ok (out_tcb flags seq n t).
Proof. unfold out_tcb. case_match; auto with tcb. Qed.

(** A segment without SYN, FIN or data commits nothing. *)
Lemma commit_none flags seq t : has_flag flags (TCP_SYN .| TCP_FIN) = false → commit_seq flags seq 0 t = t.
Proof. intros Hf. unfold commit_seq. by rewrite Hf. Qed.

Lemma segment_length i flags seq data sum ns :
  blen (tcp_segment i flags seq data sum ns)
  = (if has_flag flags TCP_SYN then 24 else 20) + blen data.
Proof. unfold tcp_segment. rewrite blen_app. by destruct (has_flag flags TCP_SYN). Qed.

Lemma segment_bytes i flags seq data sum ns : uint 8 flags → is_bytes data →
  is_bytes (tcp_segment i flags seq data sum ns).
Proof.
  intros Hf Hd. unfold tcp_segment, tcp_header.
  repeat apply bytes_app; auto with word.
  - repeat apply Forall_cons_2; [apply uint_w8 | done | constructor].
  - case_match; [apply mss_option_bytes | constructor].
Qed.

Lemma header_field sport dport seq ack off flags wnd opts : ∃ pre post,
  (∀ sum, tcp_header sport dport seq ack off flags wnd sum opts = pre ++ net_wr16 sum ++ post) ∧
  Nat.Even (length pre).
Proof.
  exists (net_wr16 sport ++ net_wr16 dport ++ net_wr32 seq ++ net_wr32 ack ++ [off; flags] ++ net_wr16 wnd),
    (net_wr16 0 ++ opts).
  split; [intros sum; unfold tcp_header; by rewrite <- !app_assoc | by exists 8%nat].
Qed.

Lemma segment_field i flags seq data ns : ∃ pre post,
  (∀ sum, tcp_segment i flags seq data sum ns = pre ++ net_wr16 sum ++ post) ∧ Nat.Even (length pre).
Proof.
  unfold tcp_segment. cbv zeta.
  match goal with |- context [tcp_header ?a ?b ?c ?d ?e ?f ?g _ ?o ++ _] =>
    destruct (header_field a b c d e f g o) as (pre & post & Hs & He) end.
  exists pre, (post ++ data). split; [| done]. intros sum. by rewrite Hs, <- !app_assoc.
Qed.

(** The checksum field is at an even offset, so the segment sent verifies. *)
Lemma segment_valid i flags seq data ns src dst : uint 8 flags → is_bytes data → blen data <= 1460 →
  uint 32 src → uint 32 dst → transport_verifies src dst NET_PROTO_TCP (tcp_segment i flags seq data
    (net_l4_checksum src dst NET_PROTO_TCP (tcp_segment i flags seq data 0 ns)) ns).
Proof.
  intros Hf Hd Hl Hsrc Hdst. set (k := net_l4_checksum _ _ _ _).
  assert (blen (tcp_segment i flags seq data k ns) = (if has_flag flags TCP_SYN then 24 else 20) + blen data) as Hk
    by apply segment_length.
  assert (octet (tcp_segment i flags seq data k ns) 12 = if has_flag flags TCP_SYN then 0x60 else 0x50) as Ho
    by (unfold tcp_segment; by case_match).
  assert (0 <= blen data) by (unfold blen; lia).
  apply tcp_verifies; [done | done | by apply segment_bytes | rewrite Hk; case_match; lia | |].
  { rewrite Hk, Ho. case_match; [change (0x60 / 16) with 6 | change (0x50 / 16) with 5]; lia. }
  unfold k. clear k Hk Ho. pose proof (segment_length i flags seq data 0 ns) as HL.
  pose proof (segment_bytes i flags seq data 0 ns Hf Hd) as HB.
  destruct (segment_field i flags seq data ns) as (pre & post & HS & He).
  rewrite !HS. rewrite HS in HL, HB.
  apply Forall_app in HB as [HB1 HB]. apply Forall_app in HB as [_ HB2].
  destruct (l4_checksum_fills src dst NET_PROTO_TCP pre post He HB1 HB2) as [_ Hz].
  { rewrite HL. case_match; lia. }
  exact Hz.
Qed.

Lemma tcp_out_spec i flags seq data ns :
  stack_ok ns → uint 8 flags → is_bytes data → blen data <= NET_TCP_MSS_MAX →
  returns (fun '(ok, ns') =>
    quiet ns ns' ∧ only i ns ns' ∧
    (tcb_ok (commit_seq flags seq (blen data) (the_tcb i ns)) → stack_ok ns') ∧
    if (ok : bool) then
      flow ns' i = fl_tcb (out_tcb flags seq (blen data) (the_tcb i ns)) (flow ns i) ∧
      ∃ hdr sum, blen hdr = 20 ∧ queued ns' = queued ns ++ [hdr ++ tcp_segment i flags seq data sum ns]
    else stack_ok ns' ∧ flow ns' = flow ns ∧ queued ns' = queued ns) (tcp_out i flags seq data ns).
Proof.
  intros Hok Hf Hd Hl. unfold tcp_out. change NET_TCP_MSS_MAX with 1460 in *.
  rewrite (proj2 (Z.ltb_ge _ _)).
  2: { rewrite segment_length. change TCP_HDR_LEN with 20. case_match; lia. }
  destruct (s_flow ns Hok i) as [_ Hip _]. destruct (s_cfg ns Hok) as (Hg & _).
  pose proof (net_emit_spec (dst_ip (flow ns i)) NET_PROTO_TCP (tcp_segment i flags seq data
    (net_l4_checksum (dst_ip (flow ns i)) (guest_ip (cfg ns)) NET_PROTO_TCP
       (tcp_segment i flags seq data 0 ns)) ns) ns Hok Hip ltac:(by split)
    (segment_bytes _ _ _ _ _ _ Hf Hd) (segment_valid _ _ _ _ _ _ _ Hf Hd Hl Hip Hg)) as Hem.
  destruct (net_emit _ _ _ _ _) as [ok ns1]. destruct Hem as (Hok1 & Hq & Hfl & Hqueue).
  destruct ok; cbn [negb].
  2: { apply returns_ret. split_and!; [done | intros j _; by rewrite Hfl | done | done ..]. }
  apply returns_ret. destruct Hqueue as (hdr & Hh & Hqueue).
  set (ns2 := on_tcb i (commit_seq flags seq (blen data)) ns1).
  set (ns4 := if _ <? _ then _ else _).
  assert (quiet ns ns4 ∧ only i ns ns4 ∧ queued ns4 = queued ns1 ∧
    flow ns4 i = fl_tcb (commit_seq flags seq (blen data) (the_tcb i ns)) (flow ns i) ∧
    (tcb_ok (commit_seq flags seq (blen data) (the_tcb i ns)) → stack_ok ns4)) as (Q1 & Q2 & Q3 & Q4 & Q5).
  { assert (flow ns2 i = fl_tcb (commit_seq flags seq (blen data) (the_tcb i ns)) (flow ns i)) as Hi.
    { unfold ns2, on_tcb. rewrite on_flow_at. unfold the_tcb. by rewrite Hfl. }
    assert (only i ns ns2) as Ho.
    { intros j Hj. unfold ns2, on_tcb. rewrite (only_on_flow i _ ns1 j Hj). by rewrite Hfl. }
    assert (tcb_ok (commit_seq flags seq (blen data) (the_tcb i ns)) → stack_ok ns2) as Hs.
    { intros Hc. apply ok_on_tcb; [done |]. by rewrite Hfl. }
    assert (quiet ns ns2) as Hq2 by (by destruct Hq).
    unfold ns4. case_match; (split_and!; [by destruct Hq2 | done | done | done |]);
      intros ?; repeat apply ok_bump; auto. }
  unfold out_tcb. destruct (has_flag flags TCP_ACK).
  - split_and!.
    + by apply (quiet_trans _ ns4).
    + eapply only_trans; [exact Q2 | apply only_on_flow].
    + intros Hc. apply ok_on_tcb; [by apply Q5 |]. rewrite Q4. by apply ok_need_ack.
    + unfold on_tcb. by rewrite on_flow_at, Q4.
    + exists hdr. eexists. split; [done |]. rewrite <- Hqueue. exact Q3.
  - split_and!; try done. exists hdr. eexists. split; [done |]. rewrite <- Hqueue. exact Q3.
Qed.

(** ** Traces of a tick *)

(** What a call does at the host's socket. *)
Inductive host_event := HRecv (d : list Z) | HSend (d : list Z) | HOther.

Inductive host_step (h : Z) : E → host_event → E → Prop :=
  | step_recv recv e n r d e' : eg_recv = Some recv → recv e h n = (r, d, e') → 0 < r →
      host_step h e (HRecv d) e'
  | step_recv_none recv e n r d e' : eg_recv = Some recv → recv e h n = (r, d, e') → r <= 0 →
      host_step h e HOther e'
  | step_send send e d r e' : eg_send = Some send → send e h d = (r, e') → 0 <= r →
      host_step h e (HSend (take (Z.to_nat r) d)) e'
  | step_send_fail send e d r e' : eg_send = Some send → send e h d = (r, e') → r < 0 →
      host_step h e HOther e'
  | step_status status e r e' : eg_status = Some status → status e h = (r, e') → host_step h e HOther e'
  | step_shutdown shut e : eg_shutdown_tx = Some shut → host_step h e HOther (shut e h)
  | step_close close e : eg_close = Some close → host_step h e HOther (close e h).

Inductive host_run (h : Z) : E → list host_event → E → Prop :=
  | run_nil e : host_run h e [] e
  | run_cons e x e1 tr e2 : host_step h e x e1 → host_run h e1 tr e2 → host_run h e (x :: tr) e2.

Lemma run_one h e x e' : host_step h e x e' → host_run h e [x] e'.
Proof. intros. eapply run_cons; [done | constructor]. Qed.
Lemma run_app h e tr1 e1 tr2 e2 : host_run h e tr1 e1 → host_run h e1 tr2 e2 → host_run h e (tr1 ++ tr2) e2.
Proof. induction 1; [done |]. intros. eapply run_cons; eauto. Qed.

(** The octets a trace takes from the host, and those the host accepts. *)
Definition host_in (tr : list host_event) : list Z :=
  concat ((fun x => match x with HRecv d => d | _ => [] end) <$> tr).
Definition host_out (tr : list host_event) : list Z :=
  concat ((fun x => match x with HSend d => d | _ => [] end) <$> tr).

Lemma host_in_app a b : host_in (a ++ b) = host_in a ++ host_in b.
Proof. unfold host_in. by rewrite fmap_app, concat_app. Qed.
Lemma host_out_app a b : host_out (a ++ b) = host_out a ++ host_out b.
Proof. unfold host_out. by rewrite fmap_app, concat_app. Qed.

(** The TCP payload of a datagram without IP options, and its sequence number. *)
Definition tcp_payload (d : list Z) : list Z :=
  drop (20 + Z.to_nat ((nth 32 d 0 .>> 4) * 4)) d.
(** The payload is the part of [stream] at its sequence number, [base] being that of the
    first octet of [stream]. *)
Definition carries (base : Z) (stream : list Z) (d : list Z) : Prop :=
  tcp_payload d = [] ∨
  ∃ seq, net_rd32 d 24 = Some seq ∧
         tcp_payload d = take (length (tcp_payload d)) (drop (Z.to_nat (seq -w base)) stream).

(** What serving flow [i] does: it moves no other flow, appends datagrams that carry the
    host's stream, appends to [txbuf] what the host sent and removes from [rxbuf] what the
    host took. *)
Record serves (i : Z) ns (tr : list host_event) ns' : Prop := {
  v_cfg : cfg ns' = cfg ns; v_now : now_ms ns' = now_ms ns; v_dns : dns ns' = dns ns;
  v_only : only i ns ns';
  v_run : host_run (handle (flow ns i)) (eg ns) tr (eg ns');
  v_flow : used (flow ns' i) = true →
    used (flow ns i) = true ∧ handle (flow ns' i) = handle (flow ns i)
    ∧ proto (flow ns' i) = proto (flow ns i)
    ∧ snd_una (the_tcb i ns') = snd_una (the_tcb i ns)
    ∧ rcv_nxt (the_tcb i ns') = rcv_nxt (the_tcb i ns)
    ∧ txbuf (the_tcb i ns') = txbuf (the_tcb i ns) ++ host_in tr
    ∧ rxbuf (the_tcb i ns) = host_out tr ++ rxbuf (the_tcb i ns');
  v_queue : ∃ new, queued ns' = queued ns ++ new ∧
    Forall (carries (snd_una (the_tcb i ns)) (txbuf (the_tcb i ns) ++ host_in tr)) new }.

(** [good i ns m]: from a good stack, [m] returns a good one that only serves flow [i]. *)
Definition good (i : Z) ns (m : option (net_stack E)) : Prop :=
  returns (fun ns' => stack_ok ns' ∧ ∃ tr, serves i ns tr ns') m.

Lemma carries_more base s1 s2 d : carries base s1 d → carries base (s1 ++ s2) d.
Proof.
  intros [Hn | (seq & Hs & Hp)]; [by left | right]. exists seq. split; [done |].
  set (k := Z.to_nat (seq -w base)) in *. set (n := length (tcp_payload d)) in *.
  destruct (decide (n = 0%nat)) as [E0 | Hne].
  { rewrite E0. rewrite E0 in Hp. exact Hp. }
  assert (n <= length (drop k s1))%nat as Hle.
  { apply (f_equal length) in Hp. rewrite length_take in Hp. fold n in Hp. lia. }
  rewrite length_drop in Hle. rewrite drop_app_le by lia. rewrite take_app_le by (rewrite length_drop; lia). done.
Qed.

Lemma serves_trans i a tr1 b tr2 c : serves i a tr1 b → used (flow b i) = true → serves i b tr2 c →
  serves i a (tr1 ++ tr2) c.
Proof.
  intros [A1 A2 A3 A4 A5 A6 (n1 & A7 & A8)] Hu [B1 B2 B3 B4 B5 B6 (n2 & B7 & B8)].
  destruct (A6 Hu) as (Hu0 & Hh & Hp & Hna & Hrc & Htx & Hrx).
  split; try congruence.
  - by eapply only_trans.
  - rewrite Hh in B5. by eapply run_app.
  - intros Hc. destruct (B6 Hc) as (_ & Hh' & Hp' & Hna' & Hrc' & Htx' & Hrx').
    rewrite host_in_app, host_out_app. split_and!; try congruence.
    + by rewrite Htx', Htx, app_assoc.
    + by rewrite Hrx, Hrx', app_assoc.
  - exists (n1 ++ n2). split; [by rewrite B7, A7, app_assoc |].
    rewrite host_in_app. apply Forall_app_2.
    + eapply Forall_impl; [| exact A8]. intros d Hd. rewrite app_assoc. by apply carries_more.
    + rewrite Hna, Htx, <- app_assoc in B8. exact B8.
Qed.

(** Changes of the control block that keep the streams where they are. *)
Definition same_streams (t t' : net_tcb) : Prop :=
  snd_una t' = snd_una t ∧ rcv_nxt t' = rcv_nxt t ∧ txbuf t' = txbuf t ∧ rxbuf t' = rxbuf t.

Lemma serves_refl i ns : used (flow ns i) = true → serves i ns [] ns.
Proof.
  intros Hu. split; try done.
  - constructor.
  - intros _. cbn. by rewrite app_nil_r.
  - exists []. by rewrite app_nil_r.
Qed.

Lemma serves_flow i ns ns' : used (flow ns i) = true → cfg ns' = cfg ns → now_ms ns' = now_ms ns →
  dns ns' = dns ns → eg ns' = eg ns → queued ns' = queued ns → only i ns ns' →
  handle (flow ns' i) = handle (flow ns i) → proto (flow ns' i) = proto (flow ns i) →
  same_streams (the_tcb i ns) (the_tcb i ns') → serves i ns [] ns'.
Proof.
  intros Hu ? ? ? He Hq ? ? ? (? & ? & ? & ?). split; try done.
  - rewrite He. constructor.
  - intros _. split_and!; try done. by rewrite app_nil_r.
  - exists []. by rewrite Hq, app_nil_r.
Qed.

Lemma serves_tcb i g ns : used (flow ns i) = true → same_streams (the_tcb i ns) (g (the_tcb i ns)) →
  serves i ns [] (on_tcb i g ns).
Proof.
  intros Hu Hs. apply serves_flow; try done.
  - apply only_on_flow.
  - unfold on_tcb. by rewrite on_flow_at.
  - unfold on_tcb. by rewrite on_flow_at.
  - by rewrite on_tcb_at.
Qed.

Lemma segment_carries i flags seq data sum ns hdr base stream : blen hdr = 20 → uint 32 seq →
  data = [] ∨ data = take (length data) (drop (Z.to_nat (seq -w base)) stream) →
  carries base stream (hdr ++ tcp_segment i flags seq data sum ns).
Proof.
  intros Hh Hs Hd. assert (length hdr = 20%nat) as Hh' by (unfold blen in Hh; lia).
  assert (tcp_payload (hdr ++ tcp_segment i flags seq data sum ns) = data) as Hp.
  { unfold tcp_payload. rewrite app_nth2 by lia. rewrite Hh'. change (32 - 20)%nat with 12%nat.
    destruct (has_flag flags TCP_SYN) eqn:Ef; unfold tcp_segment; rewrite Ef.
    - change (nth 12 _ 0) with 0x60. change (20 + Z.to_nat ((0x60 .>> 4) * 4))%nat with (20 + 24)%nat.
      by rewrite drop_app_add' by done.
    - change (nth 12 _ 0) with 0x50. change (20 + Z.to_nat ((0x50 .>> 4) * 4))%nat with (20 + 20)%nat.
      by rewrite drop_app_add' by done. }
  destruct Hd as [-> | Hd]; [by left | right]. exists seq. rewrite Hp. split; [| done].
  unfold tcp_segment, tcp_header. cbv zeta. rewrite <- !app_assoc.
  rewrite (app_assoc (net_wr16 _)), app_assoc. eapply net_rd32_at; [reflexivity | | done].
  rewrite blen_app, Hh. done.
Qed.

(** A segment whose data is the buffer's at its sequence number. *)
Lemma serves_out i flags seq data ns :
  stack_ok ns → used (flow ns i) = true → uint 8 flags → uint 32 seq → blen data <= NET_TCP_MSS_MAX →
  data = [] ∨ data = take (length data) (drop (Z.to_nat (seq -w snd_una (the_tcb i ns))) (txbuf (the_tcb i ns))) →
  tcb_ok (commit_seq flags seq (blen data) (the_tcb i ns)) →
  returns (fun '(ok, ns') => stack_ok ns' ∧ serves i ns [] ns' ∧
    if (ok : bool) then
      flow ns' i = fl_tcb (out_tcb flags seq (blen data) (the_tcb i ns)) (flow ns i)
      ∧ length (queued ns') = S (length (queued ns))
    else flow ns' = flow ns) (tcp_out i flags seq data ns).
Proof.
  intros Hok Hu Hf Hs Hl Hd Hc.
  assert (is_bytes data) as Hb.
  { destruct Hd as [-> | ->]; [constructor |]. apply Forall_take, Forall_drop.
    apply (t_tx _ (ok_the_tcb i ns Hok)). }
  destruct (tcp_out_spec i flags seq data ns Hok Hf Hb Hl) as ([ok ns'] & -> & Hq & Ho & Hok' & Hr).
  exists (ok, ns'). split; [done |]. destruct Hq as [Q1 Q2 Q3 Q4]. destruct ok.
  - destruct Hr as (Hfl & hdr & sum & Hh & Hqueue). split_and!; [by apply Hok' | | done |].
    + assert (same_streams (the_tcb i ns) (out_tcb flags seq (blen data) (the_tcb i ns))) as (S1 & S2 & S3 & S4).
      { unfold out_tcb, commit_seq. repeat split; repeat case_match; done. }
      split; try done.
      * rewrite Q3. constructor.
      * intros _. unfold the_tcb at 1 3 5 8. rewrite Hfl. cbn. rewrite app_nil_r. by rewrite S1, S2, S3, S4.
      * eexists. split; [done |]. cbn. rewrite app_nil_r. apply Forall_singleton.
        by apply segment_carries.
    + rewrite Hqueue, length_app. cbn. lia.
  - destruct Hr as (Hok1 & Hfl & Hqueue). split_and!; [done | | done].
    apply serves_flow; try done; rewrite ?Hfl; try done. unfold the_tcb. by rewrite Hfl.
Qed.
End out.
