(* ===== verification/TcpServe.v ===== *)
(** * Serving a flow

    [net_tcp_tick] block by block: each returns, keeps [stack_ok] and only serves its flow
    ([kept], [goodb], [good] of TcpInv.v). *)

From S2P Require Import Prelude Bytes Net Tcp NetFacts NetInv TcpTcb TcpInv.

Section serve.
Context {E : Type} `{EgressOk E}.
Implicit Types ns : net_stack E.

(** As [good], the flow still in use and its state unchanged. *)
Definition kept (i : Z) ns (m : option (net_stack E)) : Prop :=
  returns (fun ns' => stack_ok ns' ∧ used (flow ns' i) = true
                      ∧ state (the_tcb i ns') = state (the_tcb i ns)
                      ∧ ∃ tr, serves i ns tr ns') m.

Definition goodb (i : Z) ns (b : tick_block) : Prop :=
  returns (fun r =>
    match r with
    | inl ns' => stack_ok ns' ∧ ∃ tr, serves i ns tr ns'
    | inr ns' => stack_ok ns' ∧ used (flow ns' i) = true
                 ∧ state (the_tcb i ns') = state (the_tcb i ns) ∧ ∃ tr, serves i ns tr ns'
    end) b.

Lemma kept_good i ns m : kept i ns m → good i ns m.
Proof. intros H'. eapply returns_weaken; [exact H' |]. intros ns' (? & ? & ? & ?). done. Qed.

Lemma good_after i ns tr ns1 m : serves i ns tr ns1 → used (flow ns1 i) = true →
  good i ns1 m → good i ns m.
Proof.
  intros Hs Hu (ns2 & -> & Hok & tr2 & Hs2). exists ns2. split; [done |]. split; [done |].
  eexists. by eapply serves_trans.
Qed.
Lemma kept_after i ns tr ns1 m : serves i ns tr ns1 → used (flow ns1 i) = true →
  state (the_tcb i ns1) = state (the_tcb i ns) → kept i ns1 m → kept i ns m.
Proof.
  intros Hs Hu Hst (ns2 & -> & Hok & Hu2 & Hst2 & tr2 & Hs2). exists ns2.
  split_and!; [done | done | done | congruence |]. eexists. by eapply serves_trans.
Qed.
Lemma goodb_after i ns tr ns1 b : serves i ns tr ns1 → used (flow ns1 i) = true →
  state (the_tcb i ns1) = state (the_tcb i ns) → goodb i ns1 b → goodb i ns b.
Proof.
  intros Hs Hu Hst (r & -> & Hr). exists r. split; [done |].
  destruct r as [ns2 | ns2]; [destruct Hr as (? & tr2 & ?) | destruct Hr as (? & ? & ? & tr2 & ?)];
    split_and!; try done; try congruence; eexists; by eapply serves_trans.
Qed.

Lemma good_bind i ns m k : kept i ns m →
  (∀ ns1, stack_ok ns1 → used (flow ns1 i) = true → state (the_tcb i ns1) = state (the_tcb i ns) →
          good i ns1 (k ns1)) → good i ns (m ≫= k).
Proof. intros (ns1 & -> & Hok & Hu & Hst & tr & Hs) Hk. cbn. eapply good_after; eauto. Qed.
Lemma good_fall i ns b k : goodb i ns b →
  (∀ ns1, stack_ok ns1 → used (flow ns1 i) = true → state (the_tcb i ns1) = state (the_tcb i ns) →
          good i ns1 (k ns1)) → good i ns (fall_through b k).
Proof.
  intros (r & -> & Hr) Hk. cbn. destruct r as [ns1 | ns1].
  - by exists ns1.
  - destruct Hr as (Hok & Hu & Hst & tr & Hs). eapply good_after; eauto.
Qed.

Lemma good_ret i ns : stack_ok ns → used (flow ns i) = true → good i ns (Some ns).
Proof. intros. exists ns. split_and!; try done. exists []. by apply serves_refl. Qed.
Lemma kept_ret i ns : stack_ok ns → used (flow ns i) = true → kept i ns (Some ns).
Proof. intros. exists ns. split_and!; try done. exists []. by apply serves_refl. Qed.
Lemma goodb_ret i ns : stack_ok ns → used (flow ns i) = true → goodb i ns (Some (inr ns)).
Proof. intros. exists (inr ns). split_and!; try done. exists []. by apply serves_refl. Qed.
Lemma goodb_inl i ns m : good i ns m → goodb i ns (inl <$> m).
Proof. intros (ns' & -> & Hr). by exists (inl ns'). Qed.

Lemma used_on_tcb i g ns : used (flow (on_tcb i g ns) i) = used (flow ns i).
Proof. unfold on_tcb. by rewrite on_flow_at. Qed.

(** A counter or an update of the control block, then the rest. *)
Lemma serves_stats i v ns : used (flow ns i) = true → serves i ns [] (n_stats v ns).
Proof. intros. by apply serves_flow. Qed.

Lemma good_tcb i g ns m : used (flow ns i) = true → same_streams (the_tcb i ns) (g (the_tcb i ns)) →
  good i (on_tcb i g ns) m → good i ns m.
Proof. intros Hu Hs. eapply good_after; [by apply serves_tcb | by rewrite used_on_tcb]. Qed.

Lemma timers_streams now t : same_streams t (tcp_timers now t).
Proof. unfold tcp_timers. by repeat case_match. Qed.

(** ** Freeing *)

Lemma free_spec i ns : stack_ok ns → used (flow ns i) = true →
  stack_ok (net_flow_free i ns) ∧ used (flow (net_flow_free i ns) i) = false
  ∧ ∃ tr, serves i ns tr (net_flow_free i ns).
Proof.
  intros Hok Hu. unfold net_flow_free. rewrite Hu. cbn [negb].
  set (ns1 := match eg_close with Some _ => _ | None => _ end).
  assert (∃ tr, stack_ok ns1 ∧ cfg ns1 = cfg ns ∧ now_ms ns1 = now_ms ns ∧ dns ns1 = dns ns
    ∧ flow ns1 = flow ns ∧ queued ns1 = queued ns
    ∧ host_run (handle (flow ns i)) (eg ns) tr (eg ns1)) as (tr & Hok1 & ? & ? & ? & Hf & Hq & Hrun).
  { unfold ns1. destruct eg_close as [close |] eqn:Ec.
    - destruct (0 <=? handle (flow ns i)).
      + exists [HOther]. split_and!; try done; [by apply ok_eg |]. apply run_one. by apply (step_close _ close).
      + exists []. split_and!; try done. constructor.
    - exists []. split_and!; try done. constructor. }
  split_and!.
  - apply ok_on_flow; [done | apply zero_flow_ok].
  - by rewrite on_flow_at.
  - exists tr. split; try done.
    + intros j Hj. rewrite (only_on_flow i _ ns1 j Hj). by rewrite Hf.
    + by rewrite on_flow_at.
    + exists []. rewrite app_nil_r. split; [exact Hq | constructor].
Qed.

Lemma good_free i ns : stack_ok ns → used (flow ns i) = true → good i ns (Some (net_flow_free i ns)).
Proof. intros Hok Hu. destruct (free_spec i ns Hok Hu) as (? & _ & ?). by exists (net_flow_free i ns). Qed.

Lemma good_maybe_free i (b : bool) ns : stack_ok ns → used (flow ns i) = true →
  good i ns (Some (if b then net_flow_free i ns else ns)).
Proof. destruct b; [apply good_free | apply good_ret]. Qed.

(** ** Bare segments *)

(** Commits nothing: neither data nor SYN nor FIN. *)
Lemma serves_bare i flags seq ns :
  stack_ok ns → used (flow ns i) = true → uint 8 flags → uint 32 seq →
  has_flag flags (TCP_SYN .| TCP_FIN) = false → kept i ns (snd <$> tcp_out i flags seq [] ns).
Proof.
  intros Hok Hu Hf Hs Hn. pose proof (ok_the_tcb i ns Hok) as Ht.
  destruct (serves_out i flags seq [] ns Hok Hu Hf Hs ltac:(done) (or_introl eq_refl)) as ([ok ns'] & -> & Hok' & Hsv & Hr).
  { by rewrite commit_none. }
  exists ns'. split_and!; [done | done | | | by exists []].
  - destruct ok; [destruct Hr as [Hr _] |]; by rewrite Hr.
  - unfold the_tcb. destruct ok; [destruct Hr as [Hr _] |]; rewrite Hr; [| done]. cbn.
    unfold out_tcb. rewrite commit_none by done. by case_match.
Qed.

Lemma tcb_nxt i ns : stack_ok ns → uint 32 (snd_nxt (the_tcb i ns)).
Proof. intros Hok. apply (t_words _ (ok_the_tcb i ns Hok)). Qed.

Lemma good_owed_ack i ns : stack_ok ns → used (flow ns i) = true → kept i ns (send_owed_ack i ns).
Proof.
  intros Hok Hu. unfold send_owed_ack. destruct (need_ack _); [| by apply kept_ret].
  apply serves_bare; try done. by apply tcb_nxt.
Qed.

Lemma good_abort i reason ns : stack_ok ns → used (flow ns i) = true → good i ns (tcp_abort i reason ns).
Proof.
  intros Hok Hu. unfold tcp_abort. destruct (count_abort reason ns) as [r ns0] eqn:Ec.
  assert (∃ v, ns0 = n_stats v ns) as [v ->].
  { unfold count_abort in Ec. repeat case_match; injection Ec as <- <-; eexists; try reflexivity.
    instantiate (1 := stats ns). by destruct ns. }
  set (ns1 := set_stat tcp_last_abort_retries _ _).
  assert (∃ v, ns1 = n_stats v ns) as [v' ->] by (eexists; reflexivity).
  eapply good_after; [apply (serves_stats i v'); done | done |].
  apply good_bind.
  - apply serves_bare; try done; [by apply ok_stats |]. by apply (tcb_nxt i ns).
  - intros ns2 Hok2 Hu2 _. eapply good_after; [apply serves_stats; done | done |].
    apply good_free; [by apply ok_bump | done].
Qed.

(** ** The blocks of the tick *)

Lemma good_time_wait i ns : stack_ok ns → used (flow ns i) = true → good i ns (tick_time_wait i ns).
Proof.
  intros Hok Hu. apply good_bind; [by apply good_owed_ack |]. intros. by apply good_maybe_free.
Qed.

(** A call to the host that only changes the egress. *)
Lemma serves_eg i x e ns : used (flow ns i) = true → host_step (handle (flow ns i)) (eg ns) x e →
  host_in [x] = [] → host_out [x] = [] → serves i ns [x] (n_eg e ns).
Proof.
  intros Hu Hst Hi Ho. split; try done.
  - by apply run_one.
  - intros _. rewrite Hi, Ho, app_nil_r. done.
  - exists []. by rewrite app_nil_r.
Qed.

(** The SYN-ACK of a flow whose host connect is done. *)
Lemma good_syn_ack i ns : stack_ok ns → used (flow ns i) = true →
  state (the_tcb i ns) = NET_TCP_SYN_RCVD → flight (the_tcb i ns) = 0 →
  good i ns ('(ok, ns) ← tcp_out i (TCP_SYN .| TCP_ACK) (snd_nxt (the_tcb i ns)) [] ns;
    if negb ok then Some ns else
    let ns := on_tcb i (fun t => tc_snd_nxt (snd_nxt t +w 1) t) ns in
    Some (on_tcb i (tcp_timers (now_ms ns)) ns)).
Proof.
  intros Hok Hu Hst Hfl. pose proof (ok_the_tcb i ns Hok) as Ht. set (t := the_tcb i ns) in *.
  assert (snd_nxt t = snd_una t +w 0) as En.
  { destruct Ht as [(Hun & Hnx & _) _ _ _ _ _]. rewrite <- Hfl. unfold flight. by rewrite add_sub_base. }
  pose proof (t_seq t Ht) as [[_ Hr] _]. unfold seq_bound in Hr. rewrite Hst in Hr.
  destruct (serves_out i (TCP_SYN .| TCP_ACK) (snd_nxt t) [] ns) as ([ok ns1] & -> & Hok1 & Hsv & Hres);
    try done; [by apply tcb_nxt | by left | |].
  { fold t. rewrite En. apply ok_commit; try done. unfold seq_bound. by rewrite Hst. }
  cbn [mbind option_bind].
  assert (used (flow ns1 i) = true) as Hu1 by (destruct ok; [destruct Hres as [Hres _] |]; by rewrite Hres).
  destruct ok; cbn [negb].
  2: { exists ns1. split_and!; try done. by exists []. }
  eapply good_after; [exact Hsv | done |]. destruct Hres as [Hres _].
  assert (the_tcb i ns1 = tc_need_ack false (tc_snd_max (snd_una t +w 1) t)) as Et1.
  { unfold the_tcb. rewrite Hres. unfold out_tcb. cbn [tcb fl_tcb]. fold t. rewrite En.
    rewrite commit_at by done. change (seg_span _ _) with 1. by rewrite Z.max_r by lia. }
  cbv zeta. eapply (good_tcb i (fun t => tc_snd_nxt (snd_nxt t +w 1) t)); [done | by repeat split |].
  eapply (good_tcb i (tcp_timers (now_ms ns1))); [by rewrite used_on_tcb | apply timers_streams |].
  apply good_ret; [| by rewrite !used_on_tcb].
  apply ok_on_tcb; [apply ok_on_tcb; [done |] |].
  - change (tcb (flow ns1 i)) with (the_tcb i ns1). rewrite Et1.
    change (tcb_ok (tc_need_ack false (tc_snd_nxt (snd_nxt t +w 1) (tc_snd_max (snd_una t +w 1) t)))).
    apply ok_need_ack. rewrite En, add_add_base. apply ok_cursors; [done | done |].
    unfold seq_bound. by rewrite Hst.
  - apply ok_timers. change (tcb (flow ?x i)) with (the_tcb i x). rewrite on_tcb_at, Et1.
    change (tcb_ok (tc_need_ack false (tc_snd_nxt (snd_nxt t +w 1) (tc_snd_max (snd_una t +w 1) t)))).
    apply ok_need_ack. rewrite En, add_add_base. apply ok_cursors; [done | done |].
    unfold seq_bound. by rewrite Hst.
Qed.

Lemma good_connect i ns : stack_ok ns → used (flow ns i) = true →
  state (the_tcb i ns) = NET_TCP_SYN_RCVD → flight (the_tcb i ns) = 0 → good i ns (tick_connect i ns).
Proof.
  intros Hok Hu Hst Hfl. unfold tick_connect.
  set (p := match eg_status with Some _ => _ | None => _ end).
  assert (∃ r e tr, p = (r, n_eg e ns) ∧ serves i ns tr (n_eg e ns)) as (r & e & tr & -> & Hsv).
  { unfold p. destruct eg_status as [status |] eqn:Es.
    - destruct (status (eg ns) (handle (flow ns i))) as [r e] eqn:Er. exists r, e, [HOther].
      split; [done |]. apply serves_eg; try done. by eapply step_status.
    - exists NET_ST_READY, (eg ns), []. split; [by destruct ns | by apply serves_flow]. }
  eapply good_after; [exact Hsv | done |]. pose proof (ok_eg e ns Hok) as Hok1.
  destruct (r =? NET_ST_PENDING); [| destruct (r =? NET_ST_FAILED)].
  - case_match; [| by apply good_ret].
    eapply good_after; [by apply serves_stats | done |]. apply good_abort; [by apply ok_bump | done].
  - eapply good_after; [by apply serves_stats | done |]. apply good_abort; [by apply ok_bump | done].
  - by apply good_syn_ack.
Qed.

Lemma good_to_host i ns : stack_ok ns → used (flow ns i) = true → goodb i ns (tick_to_host i ns).
Proof.
  intros Hok Hu. unfold tick_to_host. destruct eg_send as [send |] eqn:Es; [| by apply goodb_ret].
  destruct (rxlen _ =? 0); [by apply goodb_ret |].
  destruct (send _ _ _) as [w e] eqn:Ew. pose proof (ok_eg e ns Hok) as Hok1.
  pose proof (send_ok _ _ _ _ _ _ Es Ew) as Hw. set (t := the_tcb i ns) in *.
  destruct (Z.ltb_spec w 0) as [Hneg | Hpos].
  { apply goodb_inl. apply (good_after i ns [HOther] (n_eg e ns)); [| done | by apply good_abort].
    apply serves_eg; try done. by eapply step_send_fail. }
  destruct (Z.ltb_spec 0 w) as [Hgt | Hle].
  2: { apply (goodb_after i ns [HSend (take (Z.to_nat w) (rxbuf t))] (n_eg e ns));
         [| done | done | by apply goodb_ret].
       apply serves_eg; [done | by eapply step_send | done |]. by replace w with 0 by lia. }
  pose proof (ok_the_tcb i ns Hok) as Ht. fold t in Ht. destruct (t_rx t Ht) as [Hrx Hrb].
  rewrite get_bytes_drop by (done || lia). cbn [mbind option_bind].
  set (ns1 := on_tcb i _ _). exists (inr ns1). split; [done |].
  split_and!.
  - apply ok_on_tcb; [done |]. apply ok_need_ack, ok_rxbuf; [| by apply Forall_drop | done].
    unfold rxlen in *. rewrite blen_drop; lia.
  - unfold ns1. by rewrite used_on_tcb.
  - unfold ns1. by rewrite on_tcb_at.
  - exists [HSend (take (Z.to_nat w) (rxbuf t))]. split; try done.
    + exact (only_on_flow i _ (n_eg e ns)).
    + apply run_one. by eapply step_send.
    + intros _. unfold ns1. rewrite on_tcb_at. unfold on_tcb. rewrite !on_flow_at. cbn.
      rewrite !app_nil_r. split_and!; try done. symmetry. apply take_drop.
    + exists []. by rewrite app_nil_r.
Qed.

Lemma good_shutdown i ns : stack_ok ns → used (flow ns i) = true → kept i ns (Some (tick_shutdown i ns)).
Proof.
  intros Hok Hu. unfold tick_shutdown. destruct (_ && _); [| by apply kept_ret].
  assert (kept i ns (Some (on_tcb i (tc_tx_shutdown true) ns))) as (? & [= <-] & Hok1 & Hu1 & Hst1 & tr & Hsv).
  { eexists. split; [done |]. rewrite used_on_tcb, on_tcb_at. split_and!; try done.
    - apply ok_on_tcb; [done |]. apply ok_tx_shutdown. by apply (ok_the_tcb i ns).
    - exists []. by apply serves_tcb. }
  destruct eg_shutdown_tx as [shut |] eqn:Es.
  - eapply kept_after; [exact Hsv | done | done |]. set (ns1 := on_tcb i _ ns) in *.
    apply (kept_after i ns1 [HOther] (n_eg (shut (eg ns) (handle (flow ns1 i))) ns1)); [| done | done |].
    + apply serves_eg; try done. by apply (step_shutdown _ shut).
    + apply kept_ret; [by apply ok_eg | done].
  - eexists. split; [done |]. split_and!; try done. by exists tr.
Qed.

(** The states in which the host's stream is still open. *)
Lemma open_states t : tcb_ok t → host_eof t = false → state t ≠ NET_TCP_CLOSED →
  fin_sent t = false ∧ (state t = NET_TCP_SYN_RCVD ∨ state t = NET_TCP_ESTABLISHED ∨ state t = NET_TCP_CLOSE_WAIT).
Proof.
  intros Hok He Hs. pose proof (t_seq t Hok) as [_ Hf]. unfold fin_ok in Hf.
  destruct (state t); intuition congruence.
Qed.

Lemma ok_host_eof t : tcb_ok t → state t ≠ NET_TCP_CLOSED → tcb_ok (tc_host_eof true t).
Proof.
  intros [? ? ? ? ? [Hr Hf]] Hs. split; try done. split; [done |]. unfold fin_ok in *. cbn.
  destruct (state t); intuition.
Qed.

Lemma ok_append d t : tcb_ok t → host_eof t = false → state t ≠ NET_TCP_CLOSED → is_bytes d →
  txlen t + blen d <= NET_TCP_TXBUF → tcb_ok (tc_txbuf (txbuf t ++ d) t).
Proof.
  intros Hok He Hs Hd Hl. destruct (open_states t Hok He Hs) as [Hf Hst].
  destruct Hok as [? ? [Htx Hb] ? ? [Hr Hfin]]. split; try done.
  - split; [unfold txlen in *; cbn; by rewrite blen_app | by apply bytes_app].
  - split; [| unfold fin_ok in *; cbn; by destruct Hst as [-> | [-> | ->]]].
    split; [apply Hr |]. destruct Hr as [_ Hr]. unfold seq_bound, txlen in *. cbn. rewrite blen_app.
    pose proof (blen_nonneg d). change (reach (tc_txbuf (txbuf t ++ d) t)) with (reach t).
    destruct Hst as [Es | [Es | Es]]; rewrite Es in *; lia.
Qed.

Lemma good_read_host recv guard i : eg_recv = Some recv → ∀ ns, stack_ok ns → used (flow ns i) = true →
  host_eof (the_tcb i ns) = false → state (the_tcb i ns) ≠ NET_TCP_CLOSED →
  goodb i ns (read_host recv guard i ns).
Proof.
  intros Er. induction guard as [| guard IH]; intros ns Hok Hu He Hs; cbn [read_host].
  { by apply goodb_ret. }
  destruct (negb (txlen (the_tcb i ns) <? NET_TCP_TXBUF)); [by apply goodb_ret |].
  set (t := the_tcb i ns) in *.
  destruct (recv _ _ _) as [[r d] e] eqn:Ed. pose proof (ok_eg e ns Hok) as Hok1.
  pose proof (ok_the_tcb i ns Hok) as Ht. fold t in Ht.
  destruct (Z.leb_spec r 0) as [Hle | Hgt].
  - assert (serves i ns [HOther] (n_eg e ns)) as Hsv.
    { apply serves_eg; try done. by eapply step_recv_none. }
    destruct (Z.eqb_spec r NET_EG_WOULDBLOCK) as [| Hne].
    { eapply goodb_after; [exact Hsv | done | done | by apply goodb_ret]. }
    destruct (r =? NET_EG_EOF).
    { eapply goodb_after; [exact Hsv | done | done |]. apply (goodb_after i (n_eg e ns) [] (on_tcb i (tc_host_eof true) (n_eg e ns))).
      - apply serves_tcb; [done | by repeat split].
      - by rewrite used_on_tcb.
      - by rewrite on_tcb_at.
      - apply goodb_ret; [| by rewrite used_on_tcb]. apply ok_on_tcb; [done |]. by apply ok_host_eof. }
    rewrite (proj2 (Z.ltb_lt r 0)) by (unfold NET_EG_WOULDBLOCK in Hne; lia).
    apply goodb_inl. eapply good_after; [exact Hsv | done | by apply good_abort].
  - destruct (recv_ok _ _ _ _ _ _ _ Er Ed Hgt) as (Hcap & Hlen & Hd).
    unfold NET_EG_WOULDBLOCK, NET_EG_EOF. rewrite !(proj2 (Z.eqb_neq _ _)) by lia.
    rewrite !(proj2 (Z.ltb_ge _ _)) by lia. cbn [orb].
    rewrite take_ge by (unfold blen in Hlen; lia).
    eapply (goodb_after i _ [HRecv d] (on_tcb i (fun t0 => tc_txbuf (txbuf t ++ d) t0) (n_eg e ns))).
    + split; try done.
      * exact (only_on_flow i _ (n_eg e ns)).
      * apply run_one. by eapply step_recv.
      * intros _. rewrite on_tcb_at. unfold on_tcb. rewrite !on_flow_at. cbn.
        rewrite !app_nil_r. by split_and!.
      * exists []. by rewrite app_nil_r.
    + by rewrite used_on_tcb.
    + by rewrite on_tcb_at.
    + apply IH; rewrite ?used_on_tcb, ?on_tcb_at; try done. apply ok_on_tcb; [done |].
      apply ok_append; try done. change (txlen t + blen d <= NET_TCP_TXBUF). lia.
Qed.

Lemma good_from_host i ns : stack_ok ns → used (flow ns i) = true →
  state (the_tcb i ns) ≠ NET_TCP_CLOSED → goodb i ns (tick_from_host i ns).
Proof.
  intros Hok Hu Hs. unfold tick_from_host. destruct eg_recv as [recv |] eqn:Er; [| by apply goodb_ret].
  destruct (host_eof _) eqn:He; [by apply goodb_ret | by apply good_read_host].
Qed.

(** ** The pump *)

Lemma queue_bound ns : stack_ok ns → (length (queued ns) <= 32)%nat.
Proof.
  intros Hok. pose proof (queued_length ns Hok). destruct (s_ring ns Hok) as (_ & _ & Hl).
  change NET_OUT_SLOTS with 32 in Hl. lia.
Qed.

(** After a queued segment of [n] octets at the cursor, [k] octets past [snd_una], the
    cursor moves past it. *)
Lemma sent_tcb flags k n t : tcb_ok t → snd_nxt t = snd_una t +w k → 0 <= k → 0 <= n →
  0 < seg_span flags n → k + seg_span flags n <= seq_bound t → has_flag flags TCP_ACK = true →
  let t1 := out_tcb flags (snd_nxt t) n t in
  let t2 := tc_snd_nxt (snd_nxt t1 +w seg_span flags n) t1 in
  tcb_ok t2 ∧ flight t2 = k + seg_span flags n ∧ same_streams t t2 ∧ state t2 = state t
  ∧ fin_sent t2 = fin_sent t ∧ snd_wnd t2 = snd_wnd t ∧ cwnd t2 = cwnd t ∧ mss t2 = mss t.
Proof.
  intros Hok En Hk Hn Hpos Hb Ha. cbv zeta. unfold out_tcb. rewrite Ha, En.
  pose proof (seq_bound_le t Hok) as Hbl. unfold NET_TCP_TXBUF in Hbl.
  rewrite commit_at by (done || lia). set (m := k + seg_span flags n) in *.
  set (t2 := tc_snd_nxt _ _).
  assert (t2 = tc_need_ack false (tc_snd_nxt (snd_una t +w m) (tc_snd_max (snd_una t +w Z.max (reach t) m) t))) as ->.
  { unfold t2. cbn [snd_nxt tc_need_ack tc_snd_max tc_snd_nxt]. rewrite En, add_add_base. done. }
  pose proof (t_seq t Hok) as [[Hf Hr] _]. pose proof (sub32_range (snd_nxt t) (snd_una t)).
  destruct (t_words t Hok) as (Hu & _).
  split_and!; try done.
  - apply ok_need_ack, ok_cursors; [done | lia | lia].
  - unfold flight. cbn. apply sub_add_base; [done | split; lia].
Qed.

(** What the window leaves of the send buffer. *)
Definition usable (t : net_tcb) : Z := Z.min (snd_wnd t) (cwnd t).

(** One turn of the loop: either a segment of [seg] octets is queued and the cursor moves
    past it, or the queue is full. *)
Lemma pump_turn turns i sent ns : stack_ok ns → used (flow ns i) = true →
  let t := the_tcb i ns in
  state t ≠ NET_TCP_SYN_RCVD → 0 <= sent < txlen t → flight t = sent → sent < usable t →
  (∃ ns1, pump_data (S turns) i sent ns = Some ns1 ∧ stack_ok ns1 ∧ serves i ns [] ns1 ∧ flow ns1 = flow ns)
  ∨ ∃ seg ns2, 1 <= seg ∧ sent + seg <= Z.min (txlen t) (usable t)
    ∧ pump_data (S turns) i sent ns = pump_data turns i (sent + seg) ns2
    ∧ stack_ok ns2 ∧ serves i ns [] ns2 ∧ used (flow ns2 i) = true
    ∧ length (queued ns2) = S (length (queued ns))
    ∧ let t2 := the_tcb i ns2 in
      flight t2 = sent + seg ∧ txlen t2 = txlen t ∧ state t2 = state t ∧ usable t2 = usable t.
Proof.
  intros Hok Hu t Hsyn [Hs Hlt] Hfl Hwin. cbn [pump_data]. fold t.
  rewrite (proj2 (Z.ltb_lt _ _) Hlt). cbn [negb]. pose proof (ok_the_tcb i ns Hok) as Htok. fold t in Htok.
  assert ((if snd_wnd t <? cwnd t then snd_wnd t else cwnd t) = usable t) as ->.
  { unfold usable. destruct (Z.ltb_spec (snd_wnd t) (cwnd t)); lia. }
  rewrite (proj2 (Z.ltb_lt _ _) Hwin). rewrite (proj2 (Z.eqb_neq _ _)) by lia.
  assert (state t ≠ NET_TCP_CLOSED ∧ txlen t <= seq_bound t) as [Hcl Hb].
  { destruct (t_seq t Htok) as [_ Hfin]. unfold fin_ok, seq_bound in *.
    destruct (state t); first [by destruct Hsyn | split; [done | lia] | exfalso; intuition lia]. }
  destruct (t_win t Htok Hcl) as ([Hm1 Hm2] & _).
  set (m := if usable t - sent <? txlen t - sent then usable t - sent else txlen t - sent).
  assert (1 <= m ∧ sent + m <= Z.min (txlen t) (usable t)) as [Hm Hm']
    by (unfold m; destruct (Z.ltb_spec (usable t - sent) (txlen t - sent)); lia).
  set (seg := if mss t <? m then mss t else m).
  assert (1 <= seg ∧ sent + seg <= Z.min (txlen t) (usable t) ∧ seg <= mss t) as (Hseg & Hseg' & Hsm)
    by (unfold seg; destruct (Z.ltb_spec (mss t) m); lia).
  destruct (t_tx t Htok) as [Htx1 Htx2].
  rewrite get_bytes_slice by (done || (unfold txlen in *; lia)). cbn [mbind option_bind].
  set (data := take _ _).
  assert (blen data = seg) as Hdl.
  { unfold data, blen. rewrite length_take, length_drop. unfold txlen, blen in *. lia. }
  destruct (t_words t Htok) as (Hun & Hnx & _).
  assert (snd_nxt t = snd_una t +w sent) as En by (rewrite <- Hfl; unfold flight; by rewrite add_sub_base).
  assert (seg_span (TCP_ACK .| TCP_PSH) seg = seg) as Esp by (change (seg + 0 + 0 = seg); lia).
  destruct (serves_out i (TCP_ACK .| TCP_PSH) (snd_nxt t) data ns) as ([ok ns1] & -> & Hok1 & Hsv & Hres); try done.
  { rewrite Hdl. lia. }
  { right. fold t. change (snd_nxt t -w snd_una t) with (flight t). rewrite Hfl.
    unfold data at 1. f_equal. unfold blen in Hdl. lia. }
  { fold t. rewrite Hdl, En. apply ok_commit; [done | done | lia | lia]. }
  cbn [mbind option_bind]. destruct ok; [| left; exists ns1; done].
  right. destruct Hres as [Hres Hlen].
  assert (the_tcb i ns1 = out_tcb (TCP_ACK .| TCP_PSH) (snd_nxt t) seg t) as Et1
    by (unfold the_tcb; rewrite Hres, Hdl; done).
  destruct (sent_tcb (TCP_ACK .| TCP_PSH) sent seg t) as (Hok2 & Hfl2 & Hss & Hst2 & _ & Hw2 & Hc2 & _);
    try done; try lia.
  rewrite Esp in *. set (g := fun t0 => tc_snd_nxt (snd_nxt t0 +w seg) t0).
  assert (the_tcb i (on_tcb i g ns1) = g (out_tcb (TCP_ACK .| TCP_PSH) (snd_nxt t) seg t)) as Et2
    by (by rewrite on_tcb_at, Et1).
  exists seg, (on_tcb i g ns1). rewrite Et2, used_on_tcb. split_and!; try done; [| | by rewrite Hres | |].
  - apply ok_on_tcb; [done |]. change (tcb (flow ns1 i)) with (the_tcb i ns1). by rewrite Et1.
  - apply (serves_trans i ns [] ns1 [] (on_tcb i g ns1)); [done | by rewrite Hres |].
    apply serves_tcb; [by rewrite Hres | by repeat split].
  - destruct Hss as (_ & _ & Hss & _). exact (f_equal blen Hss).
  - unfold usable. exact (f_equal2 Z.min Hw2 Hc2).
Qed.

(** The loop of [tcp_pump]: it ends, and nothing new goes past the windows. *)
Lemma good_pump_data turns i : ∀ sent ns, stack_ok ns → used (flow ns i) = true →
  state (the_tcb i ns) ≠ NET_TCP_SYN_RCVD → 0 <= sent →
  (sent < txlen (the_tcb i ns) → flight (the_tcb i ns) = sent) →
  (32 < length (queued ns) + turns)%nat →
  returns (fun ns' => stack_ok ns' ∧ used (flow ns' i) = true
    ∧ state (the_tcb i ns') = state (the_tcb i ns) ∧ serves i ns [] ns'
    ∧ flight (the_tcb i ns') <= Z.max (flight (the_tcb i ns)) (usable (the_tcb i ns)))
    (pump_data turns i sent ns).
Proof.
  induction turns as [| turns IH]; intros sent ns Hok Hu Hsyn Hs Hfl Ht.
  { pose proof (queue_bound ns Hok). lia. }
  set (t := the_tcb i ns) in *.
  assert (pump_data (S turns) i sent ns = Some ns ∨ sent < txlen t ∧ sent < usable t) as [-> | [Hlt Hwin]].
  { cbn [pump_data]. fold t. destruct (Z.ltb_spec sent (txlen t)); cbn [negb]; [| by left].
    set (limit := if _ <? _ then snd_wnd t else _). assert (limit = usable t) as ->.
    { unfold limit, usable. destruct (Z.ltb_spec (snd_wnd t) (cwnd t)); lia. }
    destruct (Z.ltb_spec sent (usable t)); [by right | by left]. }
  { apply returns_ret. split_and!; [done | done | done | by apply serves_refl | apply Z.le_max_l]. }
  specialize (Hfl Hlt).
  destruct (pump_turn turns i sent ns Hok Hu Hsyn (conj Hs Hlt) Hfl Hwin)
    as [(ns1 & -> & Hok1 & Hsv & Hf) | (seg & ns2 & Hseg & Hsum & -> & Hok2 & Hsv & Hu2 & Hlen & Hf2 & Htx2 & Hst2 & Hus2)].
  { apply returns_ret. unfold the_tcb. rewrite Hf. fold (the_tcb i ns). fold t. split_and!; try done. lia. }
  fold t in Hsum, Htx2, Hst2, Hus2.
  eapply returns_weaken; [apply IH; [done | done | congruence | lia | by intros _ | lia] |].
  intros ns' (H1 & H2 & H3 & H4 & H5). split_and!; [done | done | congruence | | rewrite Hf2, Hus2 in H5; lia].
  by apply (serves_trans i ns [] ns2 [] ns').
Qed.

Lemma good_pump_fin i ns : stack_ok ns → used (flow ns i) = true → kept i ns (pump_fin i ns).
Proof.
  intros Hok Hu. unfold pump_fin. set (t := the_tcb i ns).
  destruct (fin_due t) eqn:Ed; [| by apply kept_ret].
  pose proof (ok_the_tcb i ns Hok) as Htok. fold t in Htok.
  unfold fin_due in Ed. apply andb_prop in Ed as [Ed Est]. apply andb_prop in Ed as [_ En%Z.eqb_eq].
  assert (seq_bound t = txlen t + 1) as Hb by (unfold seq_bound; by destruct (state t)).
  pose proof (txlen_nonneg t).
  destruct (serves_out i (TCP_ACK .| TCP_FIN) (snd_nxt t) [] ns) as ([ok ns1] & -> & Hok1 & Hsv & Hres);
    try done; [by apply tcb_nxt | by left | |].
  { fold t. rewrite En. apply ok_commit; try done. change (seg_span _ _) with 1. lia. }
  cbn [mbind option_bind]. destruct ok.
  2: { exists ns1. split_and!; try done; [by rewrite Hres | unfold the_tcb; by rewrite Hres | by exists []]. }
  destruct Hres as [Hres Hlen].
  assert (the_tcb i ns1 = out_tcb (TCP_ACK .| TCP_FIN) (snd_nxt t) 0 t) as Et1
    by (unfold the_tcb; rewrite Hres; done).
  destruct (sent_tcb (TCP_ACK .| TCP_FIN) (txlen t) 0 t) as (Hok2 & _ & Hss & Hst2 & _); try done.
  { change (seg_span _ _) with 1. lia. }
  change (seg_span _ _) with 1 in *.
  set (g := fun t0 => tc_snd_nxt (snd_nxt t0 +w 1) t0).
  eexists. split; [done |]. split_and!.
  - apply ok_on_tcb; [done |]. change (tcb (flow ns1 i)) with (the_tcb i ns1). by rewrite Et1.
  - rewrite used_on_tcb. by rewrite Hres.
  - rewrite on_tcb_at, Et1. exact Hst2.
  - exists ([] ++ []). eapply serves_trans; [exact Hsv | by rewrite Hres |].
    apply serves_tcb; [by rewrite Hres | by repeat split].
Qed.

(** [served]: [kept] without the state. *)
Definition served (i : Z) ns (m : option (net_stack E)) : Prop :=
  returns (fun ns' => stack_ok ns' ∧ used (flow ns' i) = true ∧ ∃ tr, serves i ns tr ns') m.

Lemma served_after i ns tr ns1 m : serves i ns tr ns1 → used (flow ns1 i) = true →
  served i ns1 m → served i ns m.
Proof.
  intros Hs Hu (ns2 & -> & Hok & Hu2 & tr2 & Hs2). exists ns2.
  split_and!; [done | done | done |]. eexists. by eapply serves_trans.
Qed.
Lemma served_bind i ns m k : kept i ns m →
  (∀ ns1, stack_ok ns1 → used (flow ns1 i) = true → state (the_tcb i ns1) = state (the_tcb i ns) →
          served i ns1 (k ns1)) → served i ns (m ≫= k).
Proof. intros (ns1 & -> & Hok & Hu & Hst & tr & Hs) Hk. cbn. eapply served_after; eauto. Qed.
Lemma served_ret i ns : stack_ok ns → used (flow ns i) = true → served i ns (Some ns).
Proof. intros. exists ns. split_and!; try done. exists []. by apply serves_refl. Qed.
Lemma served_tcb i g ns m : stack_ok ns → used (flow ns i) = true →
  same_streams (the_tcb i ns) (g (the_tcb i ns)) → tcb_ok (g (the_tcb i ns)) →
  (stack_ok (on_tcb i g ns) → served i (on_tcb i g ns) m) → served i ns m.
Proof.
  intros Hok Hu Hs Hg Hm. eapply served_after; [by apply serves_tcb | by rewrite used_on_tcb |].
  apply Hm. by apply ok_on_tcb.
Qed.

Lemma pump_eof_streams t : same_streams t (pump_eof t).
Proof. unfold pump_eof. by case_match. Qed.

Lemma inflight_range t : tcb_ok t → state t ≠ NET_TCP_SYN_RCVD →
  0 <= tcp_inflight t ∧ (tcp_inflight t < txlen t → flight t = tcp_inflight t).
Proof.
  intros Hok Hs. pose proof (txlen_nonneg t). pose proof (sub32_range (snd_nxt t) (snd_una t)).
  unfold tcp_inflight. fold (flight t). destruct (fin_sent t && _) eqn:Ed; (split; [unfold flight; lia |]); lia.
Qed.

Lemma good_pump i ns : stack_ok ns → used (flow ns i) = true → served i ns (tcp_pump i ns).
Proof.
  intros Hok Hu. unfold tcp_pump. destruct (_ || _) eqn:Eg; [by apply served_ret |].
  apply orb_false_elim in Eg as [Es%bool_decide_eq_false _].
  destruct (inflight_range _ (ok_the_tcb i ns Hok) Es) as [Hn Hf].
  apply served_bind.
  { eapply returns_weaken; [apply good_pump_data; try done; lia |].
    intros ns' (? & ? & ? & ? & _). split_and!; try done. by exists []. }
  intros ns1 Hok1 Hu1 _. cbv zeta.
  eapply (served_tcb i pump_eof); [done | done | apply pump_eof_streams | |].
  { apply ok_pump_eof. by apply ok_the_tcb. }
  intros Hok2. assert (used (flow (on_tcb i pump_eof ns1) i) = true) as Hu2 by (by rewrite used_on_tcb).
  apply served_bind; [by apply good_pump_fin |]. intros ns3 Hok3 Hu3 _.
  apply served_bind; [by apply good_owed_ack |]. intros ns4 Hok4 Hu4 _.
  eapply (served_tcb i (tcp_timers (now_ms ns4))); [done | done | apply timers_streams | |].
  { apply ok_timers. by apply ok_the_tcb. }
  intros Hok5. apply served_ret; [done |]. by rewrite used_on_tcb.
Qed.

(** ** The deadline *)

Lemma cwnd_timeout_streams t : same_streams t (tc_snd_nxt (snd_una (tcp_cwnd_timeout t)) (tcp_cwnd_timeout t)).
Proof. by repeat split. Qed.

(** Go back N: the cursor returns to the oldest unacknowledged octet. *)
Lemma ok_go_back t : tcb_ok t → state t ≠ NET_TCP_CLOSED →
  tcb_ok (tc_snd_nxt (snd_una (tcp_cwnd_timeout t)) (tcp_cwnd_timeout t)).
Proof.
  intros Hok Hs. pose proof (ok_cwnd_timeout t Hs Hok) as Hok'.
  destruct Hok' as [(? & ? & ? & ?) ? ? ? ? [[? ?] ?]]. set (t' := tcp_cwnd_timeout t) in *.
  split; try done. split; [| done]. unfold flight in *. cbn. rewrite Z.sub_diag. change (w32 0) with 0.
  split; [| done]. apply sub32_range.
Qed.

Lemma good_probe i ns : stack_ok ns → used (flow ns i) = true →
  snd_nxt (the_tcb i ns) = snd_una (the_tcb i ns) → txlen (the_tcb i ns) ≠ 0 →
  goodb i ns (data ← get_bytes (txbuf (the_tcb i ns)) 0 1;
    '(ok, ns) ← tcp_out i TCP_ACK (snd_nxt (the_tcb i ns)) data ns;
    Some (inl (if (ok : bool) then on_tcb i (tcp_timers (now_ms ns)) ns else ns))).
Proof.
  intros Hok Hu En Hne. pose proof (ok_the_tcb i ns Hok) as Ht. set (t := the_tcb i ns) in *.
  pose proof (txlen_nonneg t). destruct (t_tx t Ht) as [Htx1 Htx2]. destruct (t_words t Ht) as (Hun & Hnx & _).
  rewrite get_bytes_slice by (done || (unfold txlen in *; lia)). cbn [mbind option_bind].
  change (drop (Z.to_nat 0) (txbuf t)) with (txbuf t). set (data := take _ _).
  assert (blen data = 1) as Hdl.
  { unfold data, blen. rewrite length_take. unfold txlen, blen in *. lia. }
  destruct (serves_out i TCP_ACK (snd_nxt t) data ns) as ([ok ns1] & -> & Hok1 & Hsv & Hres); try done.
  - rewrite Hdl. done.
  - right. fold t. rewrite En, Z.sub_diag. unfold data at 1. unfold blen in Hdl.
    change (drop (Z.to_nat (w32 0)) (txbuf t)) with (txbuf t). f_equal. lia.
  - fold t. rewrite Hdl, En. rewrite <- (w32_small (snd_una t)), <- (Z.add_0_r (snd_una t)) at 1 by done.
    apply ok_commit; [done | done | done |]. change (seg_span TCP_ACK 1) with 1.
    destruct (t_seq t Ht) as [_ Hfin]. unfold seq_bound, fin_ok in *. destruct (state t); intuition lia.
  - cbn [mbind option_bind].
    assert (used (flow ns1 i) = true) as Hu1 by (destruct ok; [destruct Hres as [Hres _] |]; by rewrite Hres).
    destruct ok.
    + eexists. split; [done |]. split.
      * apply ok_on_tcb; [done |]. apply ok_timers. by apply (ok_the_tcb i ns1).
      * exists ([] ++ []). eapply serves_trans; [exact Hsv | done |].
        apply serves_tcb; [done | apply timers_streams].
    + exists (inl ns1). split; [done |]. split; [done |]. by exists [].
Qed.

Lemma good_rto i ns : stack_ok ns → used (flow ns i) = true →
  state (the_tcb i ns) ≠ NET_TCP_CLOSED → goodb i ns (tick_rto i ns).
Proof.
  intros Hok Hu Hs. unfold tick_rto. destruct (negb _); [by apply goodb_ret |].
  set (g := fun t => tc_rtx (rtx t +w 1) (tc_rto_on false t)).
  apply (goodb_after i ns [] (on_tcb i g ns)); [by apply serves_tcb | by rewrite used_on_tcb | by rewrite on_tcb_at |].
  assert (stack_ok (on_tcb i g ns)) as Hok1.
  { apply ok_on_tcb; [done |]. apply ok_rtx, ok_rto_on. by apply (ok_the_tcb i ns). }
  assert (used (flow (on_tcb i g ns) i) = true) as Hu1 by (by rewrite used_on_tcb).
  assert (state (the_tcb i (on_tcb i g ns)) ≠ NET_TCP_CLOSED) as Hs1 by (by rewrite on_tcb_at).
  generalize dependent (on_tcb i g ns). clear g. intros ns1 Hok1 Hu1 Hs1. cbv zeta.
  destruct (NET_TCP_RTX_MAX <? _).
  { apply goodb_inl. by apply good_abort. }
  apply (goodb_after i ns1 [] (bump_stat tcp_retransmits 1 ns1)); [by apply serves_stats | done | done |].
  assert (stack_ok (bump_stat tcp_retransmits 1 ns1)) as Hok2 by (by apply ok_bump).
  change (the_tcb i ns1) with (the_tcb i (bump_stat tcp_retransmits 1 ns1)).
  change (used (flow (bump_stat tcp_retransmits 1 ns1) i) = true) in Hu1.
  change (state (the_tcb i (bump_stat tcp_retransmits 1 ns1)) ≠ NET_TCP_CLOSED) in Hs1.
  generalize dependent (bump_stat tcp_retransmits 1 ns1). intros ns2 Hok2 Hu2 Hs2.
  destruct (_ && _) eqn:Ep.
  - apply andb_prop in Ep as [Ep _]. bool_facts. by apply good_probe.
  - eexists. split; [done |]. cbv beta iota. rewrite used_on_tcb, on_tcb_at. split_and!; try done.
    + apply ok_on_tcb; [done |]. apply ok_go_back; [by apply (ok_the_tcb i ns2) | done].
    + exists []. apply serves_tcb; [done | apply cwnd_timeout_streams].
Qed.

(** ** The tick *)

Lemma good_open i ns : stack_ok ns → used (flow ns i) = true →
  state (the_tcb i ns) ≠ NET_TCP_CLOSED → good i ns (tick_open i ns).
Proof.
  intros Hok Hu Hs. unfold tick_open.
  apply good_fall; [by apply good_to_host |]. intros ns1 Hok1 Hu1 Hs1.
  destruct (good_shutdown i ns1 Hok1 Hu1) as (ns2 & [= <-] & Hok2 & Hu2 & Hs2 & tr & Hsv).
  eapply good_after; [exact Hsv | done |].
  apply good_fall; [apply good_from_host; congruence |]. intros ns3 Hok3 Hu3 Hs3.
  apply good_fall; [apply good_rto; congruence |]. intros ns4 Hok4 Hu4 Hs4.
  destruct (good_pump i ns4 Hok4 Hu4) as (ns5 & -> & Hok5 & Hu5 & tr5 & Hsv5). cbn [mbind option_bind].
  eapply good_after; [exact Hsv5 | done |]. by apply good_maybe_free.
Qed.

Lemma good_tick i ns : stack_ok ns → used (flow ns i) = true → good i ns (net_tcp_tick i ns).
Proof.
  intros Hok Hu. unfold net_tcp_tick. rewrite Hu. cbn [negb].
  destruct (bool_decide_reflect (state (the_tcb i ns) = NET_TCP_TIME_WAIT)); [by apply good_time_wait |].
  destruct (bool_decide_reflect (state (the_tcb i ns) = NET_TCP_CLOSED)); [by apply good_free |].
  destruct (bool_decide (state (the_tcb i ns) = NET_TCP_SYN_RCVD) && _) eqn:Ec; [| by apply good_open].
  apply andb_prop in Ec as [Es%bool_decide_eq_true En%Z.eqb_eq]. apply good_connect; try done.
  unfold flight. by rewrite En, Z.sub_diag.
Qed.
End serve.
