(* ===== verification/TcpInput.v ===== *)
(** * Segments from the guest

    [net_tcp_input] keeps [stack_ok] and returns, for every sequence of octets.  The octets
    an existing flow takes from a segment are [accepted]: the part of the payload from
    [rcv_nxt] on that fits the receive buffer. *)

From S2P Require Import Prelude Bytes Net Tcp NetFacts NetInv TcpTcb TcpInv TcpServe.

(** ** Reads *)

Lemma rd16_inside p off : 0 <= off → off + 2 <= blen p → ∃ v, net_rd16 p off = Some v ∧ uint 16 v.
Proof.
  intros H1 H2. unfold net_rd16.
  destruct (get8_inside p off) as (a & -> & Ha); [lia |].
  destruct (get8_inside p (off + 1)) as (b & -> & Hb); [lia |]. cbn. eexists. split; [done |].
  apply uint_lor; [lia | by apply (uint_shiftl 16 8) | by apply (uint_mono 8)].
Qed.
Lemma rd32_inside' p off : 0 <= off → off + 4 <= blen p → ∃ v, net_rd32 p off = Some v ∧ uint 32 v.
Proof.
  intros H1 H2. unfold net_rd32.
  destruct (get8_inside p off) as (a & -> & Ha); [lia |].
  destruct (get8_inside p (off + 1)) as (b & -> & Hb); [lia |].
  destruct (get8_inside p (off + 2)) as (c & -> & Hc); [lia |].
  destruct (get8_inside p (off + 3)) as (d & -> & Hd); [lia |]. cbn. eexists. split; [done |].
  repeat apply uint_lor; try lia; [by apply (uint_shiftl 32 8) .. | by apply (uint_mono 8)].
Qed.
Lemma returns_rd16 p off : 0 <= off ∧ off + 2 <= blen p → returns (uint 16) (net_rd16 p off).
Proof. intros []. destruct (rd16_inside p off) as (v & -> & ?); eauto. by exists v. Qed.
Lemma returns_net_rd32 p off : 0 <= off ∧ off + 4 <= blen p → returns (uint 32) (net_rd32 p off).
Proof. intros []. destruct (rd32_inside' p off) as (v & -> & ?); eauto. by exists v. Qed.

(** One read of the network functions; as [read1] of Bytes.v. *)
Ltac net_read1 :=
  lazymatch goal with
  | |- returns _ (net_rd16 _ _ ≫= _) =>
    eapply returns_bind; [apply returns_rd16; lia | intros ? ?]
  | |- returns _ (net_rd32 _ _ ≫= _) =>
    eapply returns_bind; [apply returns_net_rd32; lia | intros ? ?]
  | |- returns _ (get8 _ _ ≫= _) =>
    eapply returns_bind; [apply returns_get8; lia | intros ? ?]
  | |- returns _ (get_bytes _ _ _ ≫= _) =>
    eapply returns_bind; [apply returns_get_bytes; lia | intros ? [? ?]]
  | |- returns _ (if _ then _ else _) => apply returns_if; intros; bool_facts
  end.

Section input.
Context {E : Type} `{EgressOk E}.
Implicit Types ns : net_stack E.

(** [safe m]: [m] returns a good stack. *)
Definition safe (m : option (net_stack E)) : Prop := returns stack_ok m.

Lemma safe_ret ns : stack_ok ns → safe (Some ns).
Proof. by exists ns. Qed.
Lemma good_safe i ns m : good i ns m → safe m.
Proof. intros H'. eapply returns_weaken; [exact H' | by intros ns' []]. Qed.

(** ** Resets for segments that match nothing *)

Lemma reject_valid dst g sport dport seq ack flags : uint 8 flags → uint 32 dst → uint 32 g →
  let r := reject_segment sport dport seq ack flags in
  let seg := r (net_l4_checksum dst g NET_PROTO_TCP (r 0)) in
  transport_verifies dst g NET_PROTO_TCP seg ∧ is_bytes seg.
Proof.
  intros Hf Hdst Hg. cbv zeta. unfold reject_segment.
  destruct (header_field sport dport seq ack 0x50 flags 0 []) as (pre & post & Hr & He).
  assert (∀ sum, is_bytes (tcp_header sport dport seq ack 0x50 flags 0 sum [])) as Hb.
  { intros sum. unfold tcp_header. repeat apply bytes_app; auto with word; [| constructor].
    by repeat apply Forall_cons_2. }
  split; [| apply Hb]. apply tcp_verifies; [done | done | apply Hb | by apply Z.leb_le | by split |].
  pose proof (Hb 0) as Hb0. rewrite Hr in Hb0.
  assert (blen (pre ++ net_wr16 0 ++ post) = 20) as Hl by (by rewrite <- Hr).
  apply Forall_app in Hb0 as [B1 B2]. apply Forall_app in B2 as [_ B2]. rewrite !Hr.
  destruct (l4_checksum_fills dst g NET_PROTO_TCP pre post He B1 B2) as [_ Hz]; [lia |].
  exact Hz.
Qed.

Lemma safe_reject_flow dst seg paylen ns : stack_ok ns → uint 32 dst → TCP_HDR_LEN <= blen seg →
  returns (fun ns' => stack_ok ns' ∧ quiet ns ns' ∧ flow ns' = flow ns) (tcp_reject dst seg paylen ns).
Proof.
  intros Hok Hd Hl. change TCP_HDR_LEN with 20 in Hl. unfold tcp_reject.
  net_read1. case_match; [by apply returns_ret |]. do 4 net_read1. cbv zeta.
  set (r := if has_flag _ TCP_ACK then _ else _).
  assert (∃ sp dp sq ak fl, uint 8 fl ∧ r = reject_segment sp dp sq ak fl) as (sp & dp & sq & ak & fl & Hfl & ->).
  { unfold r. case_match; repeat eexists; done. }
  destruct (reject_valid dst (guest_ip (cfg ns)) sp dp sq ak fl Hfl Hd (proj1 (s_cfg ns Hok))) as [Hv Hb].
  pose proof (net_emit_spec dst NET_PROTO_TCP _ ns Hok Hd ltac:(by split) Hb Hv) as Hem.
  destruct (net_emit _ _ _ _ _) as [ok ns1]. destruct Hem as (Hok1 & Hq & Hf & _).
  apply returns_ret. destruct ok; [| done]. split_and!; [by apply ok_bump | by destruct Hq | done].
Qed.

Lemma safe_reject dst seg paylen ns : stack_ok ns → uint 32 dst → TCP_HDR_LEN <= blen seg →
  safe (tcp_reject dst seg paylen ns).
Proof.
  intros. eapply returns_weaken; [by apply safe_reject_flow | by intros ns' []].
Qed.

(** ** Acknowledgements *)

(** [ns'] is [ns] with flow [i] replaced by [f], counters aside. *)
Record touch (i : Z) (f : net_flow) ns ns' : Prop := {
  h_quiet : quiet ns ns';
  h_out : out ns' = out ns ∧ out_head ns' = out_head ns ∧ out_tail ns' = out_tail ns;
  h_only : only i ns ns';
  h_flow : flow ns' i = f }.

Lemma touch_refl i ns : touch i (flow ns i) ns ns.
Proof. by split. Qed.
Lemma touch_trans i f1 f2 a b c : touch i f1 a b → touch i f2 b c → touch i f2 a c.
Proof.
  intros [A1 (? & ? & ?) A3 A4] [B1 (? & ? & ?) B3 B4].
  split; [by eapply quiet_trans | split_and!; congruence | by eapply only_trans | done].
Qed.
Lemma touch_on_flow i g f ns ns' : touch i f ns ns' → touch i (g f) ns (on_flow i g ns').
Proof.
  intros Ht. eapply touch_trans; [exact Ht |]. rewrite <- (h_flow _ _ _ _ Ht). split; [done | done | |].
  - apply only_on_flow.
  - by rewrite on_flow_at.
Qed.
Lemma touch_on_tcb i g f ns ns' : touch i f ns ns' → touch i (fl_tcb (g (tcb f)) f) ns (on_tcb i g ns').
Proof. intros Ht. by apply (touch_on_flow i (fun f => fl_tcb (g (tcb f)) f) f). Qed.
Lemma touch_stats i f v ns ns' : touch i f ns ns' → touch i f ns (n_stats v ns').
Proof. intros Ht. eapply touch_trans; [exact Ht |]. by destruct Ht. Qed.
Lemma touch_ok i f ns ns' : stack_ok ns → touch i f ns ns' → flow_ok f → stack_ok ns'.
Proof.
  intros [? ? Hq Hf Hd] [[Ec En Ee Ed] (E1 & E2 & E3) Ho Hi] Hfl.
  split; rewrite ?Ec, ?Ed, ?E2, ?E3; try done.
  - unfold queued. rewrite E1, E2, E3. exact Hq.
  - intros j. destruct (decide (j = i)) as [-> | Hj]; [by rewrite Hi | by rewrite Ho].
Qed.
Lemma touch_queued i f ns ns' : touch i f ns ns' → queued ns' = queued ns.
Proof. intros [_ (E1 & E2 & E3) _ _]. unfold queued. by rewrite E1, E2, E3. Qed.

Lemma tcb_of_touch i f ns ns' : touch i f ns ns' → the_tcb i ns' = tcb f.
Proof. intros Ht. unfold the_tcb. by rewrite (h_flow _ _ _ _ Ht). Qed.

Lemma fl_tcb_id f : fl_tcb (tcb f) f = f.
Proof. by destruct f. Qed.

(** The control block after [tcp_consume_ack]. *)
Definition after_ack (now ack : Z) (t : net_tcb) : net_tcb :=
  if net_seq_lt (snd_una t) ack then consumed_tcb now ack t else t.

Lemma consume_spec i ack ns : stack_ok ns → uint 32 ack → net_seq_lt (snd_max (the_tcb i ns)) ack = false →
  returns (touch i (fl_tcb (after_ack (now_ms ns) ack (the_tcb i ns)) (flow ns i)) ns) (tcp_consume_ack i ack ns).
Proof.
  intros Hok Ha Hm. pose proof (ok_the_tcb i ns Hok) as Ht. unfold tcp_consume_ack, after_ack.
  set (t := the_tcb i ns) in *.
  destruct (net_seq_lt (snd_una t) ack) eqn:Hlt; cbn [negb orb].
  2: { apply returns_ret. replace (fl_tcb t (flow ns i)) with (flow ns i); [apply touch_refl |].
       symmetry. apply fl_tcb_id. }
  pose proof (ack_range ack t Ht Ha Hlt Hm) as Hr.
  assert (net_seq_le ack (snd_max t) = true) as ->.
  { rewrite seq_le_dist. rewrite seq_lt_dist in Hm. bool_facts.
    destruct (t_words t Ht) as (Hu & _ & Hmx & _). pose proof Ha as []. pose proof Hmx as [].
    destruct (Z.eqb_spec (ack -w snd_max t) 0) as [| Hne]; [done |]. cbn. apply Z.leb_le.
    destruct (sub32_cases ack (snd_max t) Ha Hmx) as [[? E1] | [? E1]],
      (sub32_cases (snd_max t) ack Hmx Ha) as [[? E2] | [? E2]]; lia. }
  cbn [negb]. rewrite consume_ack_eq by done. cbn [mbind option_bind]. apply returns_ret.
  set (ns1 := if _ =? 0 then ns else _).
  assert (touch i (flow ns i) ns ns1) as H1 by (unfold ns1; case_match; [| apply touch_stats]; apply touch_refl).
  apply (touch_on_tcb i (fun _ => acked_tcb ack t)) in H1. unfold consumed_tcb.
  destruct (fin_sent t && _); [| exact H1].
  apply (touch_on_tcb i (tcp_fin_acked (now_ms ns))) in H1.
  assert (now_ms ns1 = now_ms ns) as En by (unfold ns1; by case_match).
  cbn [now_ms on_tcb on_flow n_flow]. rewrite En. exact H1.
Qed.

Lemma after_ack_ok now ack t : tcb_ok t → uint 32 ack → net_seq_lt (snd_max t) ack = false →
  tcb_ok (after_ack now ack t).
Proof.
  intros Ht Ha Hm. unfold after_ack. destruct (net_seq_lt (snd_una t) ack) eqn:Hlt; [| exact Ht].
  apply consumed_ok; [done | done | by apply ack_range].
Qed.

(** ** Data *)

(** What a flow takes of a payload at [sseq]. *)
Definition accepted (sseq : Z) (pay : list Z) (t : net_tcb) : list Z :=
  if (blen pay =? 0) || tcp_guest_finished (state t) then []
  else if in_order sseq (blen pay) t
  then take (Z.to_nat (NET_TCP_RXBUF - rxlen t)) (drop (Z.to_nat (rcv_nxt t -w sseq)) pay)
  else [].

Definition data_tcb (sseq : Z) (pay : list Z) (t : net_tcb) : net_tcb :=
  if (blen pay =? 0) || tcp_guest_finished (state t) then t
  else
    let acc := accepted sseq pay t in
    tc_need_ack true (tc_rcv_nxt (rcv_nxt t +w blen acc) (tc_rxbuf (rxbuf t ++ acc) t)).

(** The octets to skip are fewer than the payload has. *)
Lemma skip_range sseq n t : uint 32 sseq → uint 32 (rcv_nxt t) → 0 < n < 2 ^ 31 →
  in_order sseq n t = true → 0 <= rcv_nxt t -w sseq < n.
Proof.
  intros Hs Hr Hn Hi. unfold in_order in Hi. apply andb_prop in Hi as [H1 H2].
  rewrite seq_le_dist in H1. rewrite seq_lt_dist in H2. bool_facts.
  pose proof (sub32_range (rcv_nxt t) sseq) as Hd. split; [lia |].
  destruct (Z_lt_le_dec (rcv_nxt t -w sseq) n) as [| Hge]; [done | exfalso].
  rewrite sub_shift in H2 by (done || lia).
  apply orb_prop in H1 as [H1 | H1]; bool_facts; pose proof Hs as []; pose proof Hr as [];
    destruct (sub32_cases (rcv_nxt t) sseq Hr Hs) as [[? E1] | [? E1]],
      (sub32_cases sseq (rcv_nxt t) Hs Hr) as [[? E2] | [? E2]]; lia.
Qed.

Lemma accepted_bytes sseq pay t : is_bytes pay → is_bytes (accepted sseq pay t).
Proof. intros Hb. unfold accepted. repeat case_match; try constructor. by apply Forall_take, Forall_drop. Qed.

Lemma accepted_room sseq pay t : rxlen t <= NET_TCP_RXBUF → rxlen t + blen (accepted sseq pay t) <= NET_TCP_RXBUF.
Proof.
  intros Hl. unfold accepted. repeat case_match; try (change (blen []) with 0; lia).
  unfold blen at 1. rewrite length_take. lia.
Qed.

Lemma data_tcb_ok sseq pay t : tcb_ok t → is_bytes pay → tcb_ok (data_tcb sseq pay t).
Proof.
  intros Hok Hb. unfold data_tcb. case_match; [done |]. destruct (t_rx t Hok) as [Hr1 Hr2].
  apply ok_need_ack, ok_rcv_nxt; [apply uint_w32 |]. apply ok_rxbuf; [| | done].
  - rewrite blen_app. by apply accepted_room.
  - apply bytes_app; [done | by apply accepted_bytes].
Qed.

Lemma take_length_take {A} k (l : list A) : take (length (take k l)) l = take k l.
Proof.
  rewrite length_take. destruct (Nat.le_ge_cases k (length l)).
  - by rewrite Nat.min_l.
  - by rewrite Nat.min_r, !take_ge by lia.
Qed.

Lemma data_spec i sseq pay ns : stack_ok ns → uint 32 sseq → is_bytes pay → blen pay < 2 ^ 31 →
  returns (touch i (fl_tcb (data_tcb sseq pay (the_tcb i ns)) (flow ns i)) ns) (tcp_data i sseq pay ns).
Proof.
  intros Hok Hs Hb Hl. pose proof (ok_the_tcb i ns Hok) as Ht. unfold tcp_data, data_tcb, accepted.
  set (t := the_tcb i ns) in *. pose proof (blen_nonneg pay).
  assert (fl_tcb t (flow ns i) = flow ns i) as Eid by apply fl_tcb_id.
  destruct (Z.eqb_spec (blen pay) 0); cbn [orb].
  { apply returns_ret. rewrite Eid. apply touch_refl. }
  destruct (tcp_guest_finished (state t)).
  { apply returns_ret. rewrite Eid. apply touch_refl. }
  destruct (t_words t Ht) as (_ & _ & _ & Hrcv). destruct (t_rx t Ht) as [Hrx Hrb].
  destruct (in_order sseq (blen pay) t) eqn:Ei.
  2: { apply returns_ret. change (blen []) with 0. rewrite app_nil_r, Z.add_0_r, w32_small by done.
       apply (touch_on_tcb i (tc_need_ack true) (flow ns i)), touch_stats.
       apply touch_refl. }
  pose proof (skip_range sseq (blen pay) t Hs Hrcv ltac:(lia) Ei) as Hskip.
  set (skip := rcv_nxt t -w sseq) in *.
  rewrite (w32_small (blen pay)) by (split; lia). rewrite (w32_small (blen pay - skip)) by (split; lia).
  assert (0 <= rxlen t) by apply blen_nonneg. unfold NET_TCP_RXBUF in *.
  rewrite (w32_small (4096 - rxlen t)) by (split; lia).
  set (acc := take _ _).
  assert ((if 4096 - rxlen t <? blen pay - skip then 4096 - rxlen t else blen pay - skip) = blen acc) as ->.
  { unfold acc, blen. rewrite length_take, length_drop. fold (blen pay).
    destruct (Z.ltb_spec (4096 - rxlen t) (blen pay - skip)); unfold blen in *; lia. }
  assert (blen acc <= blen pay - skip ∧ blen acc <= 4096 - rxlen t) as [Ha1 Ha2].
  { unfold acc, blen. rewrite length_take, length_drop. unfold blen in *. lia. }
  pose proof (blen_nonneg acc).
  assert (get_bytes pay skip (blen acc) = Some acc) as ->.
  { rewrite get_bytes_slice by (done || lia). f_equal. unfold blen. rewrite Nat2Z.id. apply take_length_take. }
  cbn [mbind option_bind]. rewrite (proj2 (Z.ltb_ge _ _)) by lia.
  destruct (Z.eqb_spec (blen acc) 0) as [E0 | _].
  - apply returns_ret. assert (acc = []) as -> by (apply nil_length_inv; unfold blen in E0; lia).
    change (blen []) with 0. rewrite app_nil_r, Z.add_0_r, w32_small by done.
    apply (touch_on_tcb i (tc_need_ack true) (flow ns i)), touch_refl.
  - apply returns_ret.
    apply (touch_on_tcb i (tc_need_ack true) (fl_tcb (tc_rcv_nxt (rcv_nxt t +w blen acc)
      (tc_rxbuf (rxbuf t ++ acc) t)) (flow ns i))), touch_stats.
    apply (touch_on_tcb i (fun t0 => tc_rcv_nxt (rcv_nxt t0 +w blen acc) (tc_rxbuf (rxbuf t0 ++ acc) t0))
      (flow ns i)), touch_refl.
Qed.

(** ** A segment with an acceptable acknowledgement *)

(** The control block it leaves for the tick. *)
Definition segment_tcb (now flags sseq sack wnd : Z) (pay : list Z) (t : net_tcb) : net_tcb :=
  let t := after_ack now sack (tc_snd_wnd wnd t) in
  let t := if snd_nxt t =? snd_una t then tcp_timers now t else t in
  let t := if bool_decide (state t = NET_TCP_SYN_RCVD) then tc_state NET_TCP_ESTABLISHED t else t in
  let t := data_tcb sseq pay t in
  if has_flag flags TCP_FIN then fin_accept now (sseq +w blen pay) (fin_again now t) else t.

(** An acknowledgement that is acceptable for the state: nothing never sent, and the SYN
    before the connection is established. *)
Definition acceptable (sack : Z) (t : net_tcb) : Prop :=
  net_seq_lt (snd_max t) sack = false ∧
  (state t = NET_TCP_SYN_RCVD → net_seq_lt (snd_una t) sack = true).

Lemma fin_acked_state now t : state (tcp_fin_acked now t) = NET_TCP_SYN_RCVD → state t = NET_TCP_SYN_RCVD.
Proof. unfold tcp_fin_acked. by destruct (state t) eqn:Es; cbn; rewrite ?Es. Qed.

(** Still in SYN-RCVD after the acknowledgement: the SYN was acknowledged. *)
Lemma after_ack_syn now sack wnd t : tcb_ok t → uint 32 sack → uint 32 wnd → acceptable sack t →
  let t1 := after_ack now sack (tc_snd_wnd wnd t) in
  tcb_ok t1 ∧ (state t1 = NET_TCP_SYN_RCVD → flight t1 = 0 ∧ reach t1 = 0 ∧ fin_sent t1 = false).
Proof.
  intros Ht Hs Hw [Hf Hsyn]. cbv zeta. pose proof (ok_snd_wnd wnd t Hw Ht) as Ht'.
  set (t0 := tc_snd_wnd wnd t) in *.
  change (net_seq_lt (snd_max t0) sack = false) in Hf.
  split; [by apply after_ack_ok |].
  unfold after_ack. change (state t = NET_TCP_SYN_RCVD → net_seq_lt (snd_una t0) sack = true) in Hsyn.
  change (state t) with (state t0) in Hsyn. clearbody t0.
  destruct (net_seq_lt (snd_una t0) sack) eqn:Hlt.
  2: { intros E'. by specialize (Hsyn E'). }
  pose proof (ack_range sack t0 Ht' Hs Hlt Hf) as Hr.
  destruct (acked_reach sack t0 Ht' Hs Hr) as (Er & Ef & _).
  intros Est. assert (state t0 = NET_TCP_SYN_RCVD) as Es.
  { unfold consumed_tcb in Est. case_match; [apply fin_acked_state in Est |]; exact Est. }
  destruct (t_seq t0 Ht') as [[Hfl Hb] Hfin]. unfold seq_bound, fin_ok in Hb, Hfin. rewrite Es in Hb, Hfin.
  unfold consumed_tcb. rewrite Hfin. cbn [andb]. rewrite Er, Ef. split_and!; [lia | lia | done].
Qed.

Lemma ok_established t : tcb_ok t → state t = NET_TCP_SYN_RCVD → reach t = 0 →
  tcb_ok (tc_state NET_TCP_ESTABLISHED t).
Proof.
  intros Ht Es Hr. pose proof (t_seq t Ht) as [_ Hfin]. unfold fin_ok in Hfin. rewrite Es in Hfin.
  pose proof (txlen_nonneg t). apply ok_state; [done | congruence | |].
  - unfold seq_bound. cbn. change (reach t <= txlen t). lia.
  - done.
Qed.

Lemma timers_same now t : flight (tcp_timers now t) = flight t ∧ reach (tcp_timers now t) = reach t
  ∧ state (tcp_timers now t) = state t.
Proof. unfold tcp_timers. by repeat case_match. Qed.

Lemma segment_tcb_ok now flags sseq sack wnd pay t : tcb_ok t → uint 32 sack → uint 32 wnd →
  is_bytes pay → acceptable sack t → tcb_ok (segment_tcb now flags sseq sack wnd pay t).
Proof.
  intros Ht Hs Hw Hb Ha. destruct (after_ack_syn now sack wnd t Ht Hs Hw Ha) as [H1 H2].
  unfold segment_tcb. cbv zeta in *. set (t1 := after_ack _ _ _) in *.
  set (t2 := if snd_nxt t1 =? snd_una t1 then _ else _).
  assert (tcb_ok t2 ∧ state t2 = state t1 ∧ reach t2 = reach t1) as (Ht2 & Es2 & Er2).
  { unfold t2. case_match; [| done]. destruct (timers_same now t1) as (? & ? & ?). auto with tcb. }
  assert (tcb_ok (if bool_decide (state t2 = NET_TCP_SYN_RCVD) then tc_state NET_TCP_ESTABLISHED t2 else t2)) as Ht3.
  { destruct (bool_decide_reflect (state t2 = NET_TCP_SYN_RCVD)) as [Es |]; [| done].
    rewrite Es2 in Es. destruct (H2 Es) as (_ & Hr & _). apply ok_established; congruence. }
  pose proof (data_tcb_ok sseq pay _ Ht3 Hb). destruct (has_flag flags TCP_FIN); [| done].
  by apply ok_fin_accept, ok_fin_again.
Qed.

(** The new window and the acknowledgement. *)
Lemma ack_step i sack wnd ns : stack_ok ns → uint 32 sack → uint 32 wnd →
  net_seq_lt (snd_max (the_tcb i ns)) sack = false →
  returns (touch i (fl_tcb (after_ack (now_ms ns) sack (tc_snd_wnd wnd (the_tcb i ns))) (flow ns i)) ns)
    (tcp_consume_ack i sack (on_tcb i (tc_snd_wnd wnd) ns)).
Proof.
  intros Hok Hsa Hw Hf. pose proof (ok_the_tcb i ns Hok) as Ht. set (t := the_tcb i ns) in *.
  pose proof (touch_on_tcb i (tc_snd_wnd wnd) (flow ns i) ns ns (touch_refl i ns)) as T0.
  set (ns0 := on_tcb i (tc_snd_wnd wnd) ns) in *.
  assert (stack_ok ns0) as Hok0.
  { eapply touch_ok; [exact Hok | exact T0 |]. destruct (s_flow ns Hok i). split; [done | done |].
    by apply ok_snd_wnd. }
  pose proof (tcb_of_touch _ _ _ _ T0) as Et0. cbn [tcb fl_tcb] in Et0.
  destruct (consume_spec i sack ns0 Hok0 Hsa) as (ns1 & -> & T1); [by rewrite Et0 |].
  exists ns1. split; [done |]. rewrite Et0, (h_flow _ _ _ _ T0) in T1.
  exact (touch_trans _ _ _ _ _ _ T0 T1).
Qed.

(** Nothing is in flight: the early return of SYN-RCVD is not taken. *)
Lemma syn_acknowledged t : tcb_ok t → (state t = NET_TCP_SYN_RCVD → flight t = 0) →
  bool_decide (state t = NET_TCP_SYN_RCVD) && net_seq_lt (snd_una t) (snd_nxt t) = false.
Proof.
  intros Ht Hf. destruct (bool_decide_reflect (state t = NET_TCP_SYN_RCVD)) as [Es |]; [| done].
  specialize (Hf Es). unfold flight in Hf. destruct (t_words t Ht) as (U1 & U2 & _). cbn [andb].
  assert (snd_una t = snd_nxt t) as ->; [| by rewrite seq_lt_dist, Z.sub_diag].
  by rewrite <- (add_sub_base _ _ U1 U2), Hf, Z.add_0_r, w32_small.
Qed.

Lemma acked_spec i flags sseq sack wnd pay ns : stack_ok ns → used (flow ns i) = true →
  uint 32 sseq → uint 32 sack → uint 32 wnd → is_bytes pay → blen pay < 2 ^ 31 →
  acceptable sack (the_tcb i ns) →
  ∃ ns1, tcp_acked i flags sseq sack wnd pay ns = net_tcp_tick i ns1 ∧ stack_ok ns1 ∧
    touch i (fl_tcb (segment_tcb (now_ms ns) flags sseq sack wnd pay (the_tcb i ns)) (flow ns i)) ns ns1.
Proof.
  intros Hok Hu Hss Hsa Hw Hb Hl Ha. pose proof (ok_the_tcb i ns Hok) as Ht.
  destruct (after_ack_syn (now_ms ns) sack wnd (the_tcb i ns) Ht Hsa Hw Ha) as [H1 H2].
  pose proof (segment_tcb_ok (now_ms ns) flags sseq sack wnd pay _ Ht Hsa Hw Hb Ha) as Hseg.
  pose proof (segment_tcb_ok (now_ms ns) 0 sseq sack wnd [] _ Ht Hsa Hw (Forall_nil_2 _) Ha) as Hok3.
  set (now := now_ms ns) in *. set (t := the_tcb i ns) in *.
  unfold tcp_acked. destruct (ack_step i sack wnd ns Hok Hsa Hw (proj1 Ha)) as (ns1 & -> & T1).
  cbn [mbind option_bind]. fold now t in T1. set (t1 := after_ack now sack (tc_snd_wnd wnd t)) in *.
  rewrite (h_flow _ _ _ _ T1). change (used (fl_tcb t1 (flow ns i))) with (used (flow ns i)).
  rewrite Hu. cbn [negb]. rewrite (q_now _ _ (h_quiet _ _ _ _ T1)). fold now.
  set (g2 := fun t => if snd_nxt t =? snd_una t then tcp_timers now t else t).
  pose proof (touch_on_tcb i g2 _ _ _ T1) as T2. set (ns2 := on_tcb i g2 ns1) in *.
  rewrite (tcb_of_touch _ _ _ _ T2). cbn [tcb fl_tcb] in *.
  change (fl_tcb (g2 t1) (fl_tcb t1 (flow ns i))) with (fl_tcb (g2 t1) (flow ns i)) in T2.
  rewrite syn_acknowledged.
  2: { unfold g2. case_match; auto with tcb. }
  2: { unfold g2. case_match; [| by intros []%H2].
       destruct (timers_same now t1) as (-> & _ & ->). by intros []%H2. }
  set (g3 := fun t => if bool_decide (state t = NET_TCP_SYN_RCVD) then tc_state NET_TCP_ESTABLISHED t else t).
  set (ns3 := if bool_decide _ then bump_stat _ _ _ else ns2).
  assert (touch i (fl_tcb (g3 (g2 t1)) (flow ns i)) ns ns3) as T3.
  { unfold ns3, g3. case_match; [| exact T2]. apply touch_stats.
    exact (touch_on_tcb i (tc_state NET_TCP_ESTABLISHED) _ _ _ T2). }
  change (tcb_ok (g3 (g2 t1))) in Hok3.
  assert (stack_ok ns3) as Hs3.
  { eapply touch_ok; [exact Hok | exact T3 |]. by destruct (s_flow ns Hok i). }
  destruct (data_spec i sseq pay ns3 Hs3 Hss Hb Hl) as (ns4 & -> & T4). cbn [mbind option_bind].
  rewrite (tcb_of_touch _ _ _ _ T3), (h_flow _ _ _ _ T3) in T4. cbn [tcb fl_tcb] in T4.
  pose proof (touch_trans _ _ _ _ _ _ T3 T4) as T34.
  eexists. split; [reflexivity |].
  assert (touch i (fl_tcb (segment_tcb now flags sseq sack wnd pay t) (flow ns i)) ns
    (tcp_fin i flags (sseq +w blen pay) ns4)) as T5; [| split; [| exact T5]].
  - unfold tcp_fin, segment_tcb. fold t1. fold (g2 t1). fold (g3 (g2 t1)). case_match; [| exact T34].
    cbn [now_ms on_tcb on_flow n_flow]. rewrite (q_now _ _ (h_quiet _ _ _ _ T34)). fold now.
    exact (touch_on_tcb i (fin_accept now (sseq +w blen pay)) _ _ _ (touch_on_tcb i (fin_again now) _ _ _ T34)).
  - eapply touch_ok; [exact Hok | exact T5 |]. by destruct (s_flow ns Hok i).
Qed.

(** ** A segment for an existing flow *)

(** Whether a segment's acknowledgement, payload and FIN are looked at. *)
Definition processed (flags sack : Z) (t : net_tcb) : bool :=
  negb (has_flag flags TCP_RST) && negb (has_flag flags TCP_SYN) && has_flag flags TCP_ACK
  && negb (net_seq_lt (snd_max t) sack)
  && negb (bool_decide (state t = NET_TCP_SYN_RCVD) && negb (net_seq_lt (snd_una t) sack)).

(** The octets it acknowledges, in a stream that starts at [snd_una]. *)
Definition acknowledged (sack : Z) (t : net_tcb) : Z :=
  if net_seq_lt (snd_una t) sack then Z.min (sack -w snd_una t) (txlen t) else 0.

(** What a segment with sequence [sseq], acknowledgement [sack] and payload [pay] does to
    the two buffers of flow [i], in terms of what the code computes; NetTheorems.v says the
    same of sequence numbers. *)
Definition moves (i flags sseq sack : Z) (pay : list Z) ns (tr : list host_event) ns' : Prop :=
  only i ns ns' ∧ host_run (handle (flow ns i)) (eg ns) tr (eg ns') ∧
  (used (flow ns' i) = true →
   let t := the_tcb i ns in let t' := the_tcb i ns' in
   let acc := if processed flags sack t then accepted sseq pay t else [] in
   let n := if processed flags sack t then acknowledged sack t else 0 in
   rxbuf t ++ acc = host_out tr ++ rxbuf t'
   ∧ txbuf t' = drop (Z.to_nat n) (txbuf t) ++ host_in tr
   ∧ snd_una t' = (if processed flags sack t && net_seq_lt (snd_una t) sack then sack else snd_una t)
   ∧ (rcv_nxt t' = rcv_nxt t +w blen acc
      ∨ has_flag flags TCP_FIN = true ∧ rcv_nxt t' = rcv_nxt t +w (blen acc + 1))).

Lemma streams_serves i flags sseq sack pay ns tr ns' : stack_ok ns →
  processed flags sack (the_tcb i ns) = false ∨ used (flow ns' i) = false → serves i ns tr ns' →
  moves i flags sseq sack pay ns tr ns'.
Proof.
  intros Hok Hp [_ _ _ Ho Hrun Hfl _]. split_and!; [done | done |]. intros Hu.
  destruct Hp as [Hp | Hp]; [| congruence]. cbv zeta. rewrite Hp.
  destruct (Hfl Hu) as (_ & _ & _ & Hna & Hrc & Htx & Hrx).
  rewrite app_nil_r, Htx, Hrc. split_and!; [done | done | done |]. left. change (blen []) with 0.
  rewrite Z.add_0_r, w32_small; [done |]. apply (t_words _ (ok_the_tcb i ns Hok)).
Qed.

(** Only flow [i] is looked at, up to its activity time. *)
Lemma streams_last_ms i v flags sseq sack pay ns tr ns' :
  moves i flags sseq sack pay (on_flow i (fl_last_ms v) ns) tr ns' →
  moves i flags sseq sack pay ns tr ns'.
Proof.
  intros (Ho & Hrun & Hs). rewrite on_flow_at in Hrun. split_and!; [| done |].
  - intros j Hj. rewrite Ho by done. by apply only_on_flow.
  - intros Hu. specialize (Hs Hu). unfold the_tcb in *. by rewrite on_flow_at in Hs.
Qed.

Lemma tick_closed i ns : state (the_tcb i ns) = NET_TCP_CLOSED → used (flow ns i) = true →
  net_tcp_tick i ns = Some (net_flow_free i ns).
Proof. intros Hs Hu. unfold net_tcp_tick. by rewrite Hu, Hs. Qed.

Lemma fin_acked_same now t : same_streams t (tcp_fin_acked now t) ∧
  (state (tcp_fin_acked now t) = NET_TCP_CLOSED ∨
   tcp_guest_finished (state (tcp_fin_acked now t)) = tcp_guest_finished (state t)).
Proof. unfold tcp_fin_acked. destruct (state t) eqn:Es; cbn; rewrite ?Es; split; try done; auto. Qed.

(** Acknowledging takes a prefix of the send buffer and nothing else of the streams. *)
Lemma after_ack_streams now sack wnd t : let t' := after_ack now sack (tc_snd_wnd wnd t) in
  rcv_nxt t' = rcv_nxt t ∧ rxbuf t' = rxbuf t ∧
  (state t' = NET_TCP_CLOSED ∨ tcp_guest_finished (state t') = tcp_guest_finished (state t)) ∧
  txbuf t' = drop (Z.to_nat (acknowledged sack t)) (txbuf t) ∧
  snd_una t' = (if net_seq_lt (snd_una t) sack then sack else snd_una t).
Proof.
  cbv zeta. unfold after_ack, acknowledged. change (snd_una (tc_snd_wnd wnd t)) with (snd_una t).
  destruct (net_seq_lt _ sack); [| by split_and!; auto].
  set (t0 := tc_snd_wnd wnd t). unfold consumed_tcb.
  destruct (fin_acked_same now (acked_tcb sack t0)) as ((S1 & S2 & S3 & S4) & Hst).
  set (f := fin_sent t0 && _). destruct f; by split_and!; auto.
Qed.

Lemma data_tcb_streams sseq pay t : uint 32 (rcv_nxt t) → let t' := data_tcb sseq pay t in
  snd_una t' = snd_una t ∧ txbuf t' = txbuf t ∧ state t' = state t ∧ rxbuf t' = rxbuf t ++ accepted sseq pay t ∧
  rcv_nxt t' = rcv_nxt t +w blen (accepted sseq pay t).
Proof.
  intros Hr. cbv zeta. unfold data_tcb. destruct (_ || _) eqn:Ed; [| done].
  unfold accepted. rewrite Ed. change (blen []) with 0. rewrite app_nil_r, Z.add_0_r, w32_small by done. done.
Qed.

Lemma fin_streams now e t : let t' := fin_accept now e (fin_again now t) in
  snd_una t' = snd_una t ∧ txbuf t' = txbuf t ∧ rxbuf t' = rxbuf t ∧ (state t = NET_TCP_CLOSED → state t' = NET_TCP_CLOSED) ∧
  (rcv_nxt t' = rcv_nxt t ∨ rcv_nxt t' = rcv_nxt t +w 1).
Proof.
  cbv zeta.
  assert (same_streams t (fin_again now t) ∧ state (fin_again now t) = state t) as [(<- & <- & <- & <-) <-].
  { unfold fin_again. repeat case_match; done. }
  generalize (fin_again now t). clear t. intros t. unfold fin_accept.
  destruct (_ && _); [| auto 7]. cbn [state tc_need_ack tc_rcv_nxt].
  destruct (state t) eqn:Es; cbn; rewrite ?Es; split_and!; auto; congruence.
Qed.

(** The same of the whole segment, the flow not being about to close. *)
Lemma segment_streams now flags sseq sack wnd pay t : uint 32 (rcv_nxt t) →
  let t' := segment_tcb now flags sseq sack wnd pay t in
  state t' = NET_TCP_CLOSED ∨
  (rxbuf t' = rxbuf t ++ accepted sseq pay t ∧
   txbuf t' = drop (Z.to_nat (acknowledged sack t)) (txbuf t) ∧
   snd_una t' = (if net_seq_lt (snd_una t) sack then sack else snd_una t) ∧
   (rcv_nxt t' = rcv_nxt t +w blen (accepted sseq pay t)
    ∨ has_flag flags TCP_FIN = true ∧
      rcv_nxt t' = rcv_nxt t +w (blen (accepted sseq pay t) + 1))).
Proof.
  intros Hr. cbv zeta. unfold segment_tcb.
  destruct (after_ack_streams now sack wnd t) as (A1 & A2 & A3 & A5 & A6).
  set (t1 := after_ack now sack _) in *.
  set (t2 := if snd_nxt t1 =? snd_una t1 then _ else _).
  assert (same_streams t1 t2 ∧ state t2 = state t1) as [(B0 & B1 & B2 & B3) B4].
  { unfold t2. destruct (_ =? _); [| done]. destruct (timers_same now t1) as (_ & _ & ?).
    split; [apply timers_streams | done]. }
  set (t3 := if bool_decide _ then _ else t2).
  assert (same_streams t2 t3 ∧ (state t3 = NET_TCP_CLOSED ↔ state t2 = NET_TCP_CLOSED)
    ∧ tcp_guest_finished (state t3) = tcp_guest_finished (state t2)) as ((C0 & C1 & C2 & C3) & C4 & C5).
  { unfold t3. destruct (bool_decide_reflect (state t2 = NET_TCP_SYN_RCVD)) as [Es |]; [| done].
    rewrite Es. by repeat split. }
  destruct (data_tcb_streams sseq pay t3) as (D0 & D1 & D2 & D3 & D4); [congruence |].
  set (t4 := data_tcb sseq pay t3) in *.
  destruct (fin_streams now (sseq +w blen pay) t4) as (F0 & F1 & F2 & F3 & F4).
  rewrite <- B4 in A3. destruct A3 as [A3 | A3].
  { left. apply C4 in A3. rewrite <- D2 in A3. destruct (has_flag flags TCP_FIN); [by apply F3 | done]. }
  assert (accepted sseq pay t3 = accepted sseq pay t) as Eacc.
  { unfold accepted, in_order, rxlen. rewrite C5, A3, C1, B1, A1, C3, B3, A2. done. }
  right. rewrite Eacc in D3, D4. rewrite C1, B1, A1 in D4. rewrite C3, B3, A2 in D3.
  rewrite C2, B2, A5 in D1. rewrite C0, B0, A6 in D0.
  destruct (has_flag flags TCP_FIN).
  - rewrite F0, F1, F2. split_and!; [done | done | done |].
    destruct F4 as [-> | ->]; [by left | right]. by rewrite D4, add_add_base.
  - split_and!; auto.
Qed.

(** From an acceptable segment through the tick. *)
Lemma acked_streams i flags sseq sack wnd pay ns : stack_ok ns → used (flow ns i) = true →
  uint 32 sseq → uint 32 sack → uint 32 wnd → is_bytes pay → blen pay < 2 ^ 31 →
  acceptable sack (the_tcb i ns) → processed flags sack (the_tcb i ns) = true →
  returns (fun ns' => stack_ok ns' ∧ ∃ tr, moves i flags sseq sack pay ns tr ns')
    (tcp_acked i flags sseq sack wnd pay ns).
Proof.
  intros Hok Hu Hss Hsa Hw Hb Hl Ha Hproc.
  destruct (acked_spec i flags sseq sack wnd pay ns Hok Hu Hss Hsa Hw Hb Hl Ha) as (ns1 & -> & Hok1 & T).
  assert (used (flow ns1 i) = true) as Hu1 by (by rewrite (h_flow _ _ _ _ T)).
  destruct (good_tick i ns1 Hok1 Hu1) as (ns2 & E2 & Hok2 & tr & Hsv).
  exists ns2. split; [done |]. split; [done |]. exists tr.
  assert (eg ns1 = eg ns) as Ee by apply (q_eg _ _ (h_quiet _ _ _ _ T)).
  assert (handle (flow ns1 i) = handle (flow ns i)) as Eh by (by rewrite (h_flow _ _ _ _ T)).
  destruct Hsv as [_ _ _ Ho Hrun Hfl _]. rewrite Ee, Eh in Hrun.
  split_and!; [eapply only_trans; [apply (h_only _ _ _ _ T) | done] | done |]. intros Hu2. cbv zeta.
  destruct (Hfl Hu2) as (_ & _ & _ & Hna & Hrc & Htx & Hrx).
  pose proof (tcb_of_touch _ _ _ _ T) as Et. cbn [tcb fl_tcb] in Et. set (t := the_tcb i ns) in *.
  destruct (segment_streams (now_ms ns) flags sseq sack wnd pay t) as [Hcl | (S1 & S4 & S5 & S2)].
  { apply (t_words _ (ok_the_tcb i ns Hok)). }
  - exfalso. rewrite <- Et in Hcl. rewrite (tick_closed i ns1 Hcl Hu1) in E2. injection E2 as <-.
    destruct (free_spec i ns1 Hok1 Hu1) as (_ & Hf & _). congruence.
  - rewrite <- Et in S1, S2, S4, S5. rewrite Hproc, <- S1, Htx, S4, Hrc, Hna. cbn [andb]. done.
Qed.

(** Segments that change neither stream. *)
Lemma peer_reset_spec i ns : stack_ok ns → used (flow ns i) = true →
  stack_ok (peer_reset i ns) ∧ ∃ tr, serves i ns tr (peer_reset i ns).
Proof.
  intros Hok Hu. unfold peer_reset. set (ns1 := set_stat tcp_last_peer_reset_retries _ _).
  assert (∃ v, ns1 = n_stats v ns) as [v ->] by (eexists; reflexivity).
  destruct (free_spec i (n_stats v ns)) as (H1 & _ & tr & H2); [by apply ok_stats | done |].
  split; [done |]. exists ([] ++ tr). eapply serves_trans; [by apply serves_stats | done | done].
Qed.

Lemma good_resend_syn i ns : stack_ok ns → used (flow ns i) = true →
  state (the_tcb i ns) = NET_TCP_SYN_RCVD →
  good i ns (snd <$> tcp_out i (TCP_SYN .| TCP_ACK) (snd_una (the_tcb i ns)) [] ns).
Proof.
  intros Hok Hu Hs. pose proof (ok_the_tcb i ns Hok) as Ht. set (t := the_tcb i ns) in *.
  destruct (t_words t Ht) as (Hun & _).
  destruct (serves_out i (TCP_SYN .| TCP_ACK) (snd_una t) [] ns) as ([ok ns1] & -> & Hok1 & Hsv & _);
    try done; [by left | |].
  - fold t. rewrite <- (w32_small (snd_una t)), <- (Z.add_0_r (snd_una t)) at 1 by done.
    apply ok_commit; try done. unfold seq_bound. by rewrite Hs.
  - exists ns1. split_and!; [done | done | by exists []].
Qed.

Lemma good_future_ack i ns : stack_ok ns → used (flow ns i) = true →
  good i ns (snd <$> tcp_out i TCP_ACK (snd_nxt (the_tcb i ns)) [] (on_tcb i (tc_need_ack true) ns)).
Proof.
  intros Hok Hu.
  eapply (good_tcb i (tc_need_ack true)); [done | by repeat split |]. apply kept_good.
  apply serves_bare; [| by rewrite used_on_tcb | done | by apply tcb_nxt | done].
  apply ok_on_tcb; [done |]. apply ok_need_ack. by apply (ok_the_tcb i ns).
Qed.

Lemma reject_streams i flags sseq sack pay dst seg paylen ns : stack_ok ns → uint 32 dst →
  TCP_HDR_LEN <= blen seg → used (flow ns i) = true →
  processed flags sack (the_tcb i ns) = false →
  returns (fun ns' => stack_ok ns' ∧ ∃ tr, moves i flags sseq sack pay ns tr ns') (tcp_reject dst seg paylen ns).
Proof.
  intros Hok Hd Hl Hu Hp. destruct (safe_reject_flow dst seg paylen ns Hok Hd Hl) as (ns1 & -> & Hok1 & Hq & Hf).
  exists ns1. split; [done |]. split; [done |]. exists []. split_and!.
  - intros j _. by rewrite Hf.
  - rewrite (q_eg _ _ Hq). constructor.
  - intros _. cbv zeta. rewrite Hp. unfold the_tcb. rewrite Hf. rewrite !app_nil_r.
    split_and!; [done | done | done |]. left. change (blen []) with 0. rewrite Z.add_0_r, w32_small; [done |].
    apply (t_words _ (ok_the_tcb i ns Hok)).
Qed.

(** A stream's neighbours: nothing is taken, or the flow is gone. *)
Lemma good_streams i flags sseq sack pay ns m : stack_ok ns → processed flags sack (the_tcb i ns) = false →
  good i ns m → returns (fun ns' => stack_ok ns' ∧ ∃ tr, moves i flags sseq sack pay ns tr ns') m.
Proof.
  intros Hok Hp Hm. eapply returns_weaken; [exact Hm |]. intros ns' (Hok' & tr & Hsv).
  split; [done |]. exists tr. apply streams_serves; auto.
Qed.

Lemma for_flow_spec i dst flags sseq sack seg pay ns : stack_ok ns → used (flow ns i) = true →
  uint 32 dst → uint 32 sseq → uint 32 sack → TCP_HDR_LEN <= blen seg → is_bytes pay → blen pay < 2 ^ 31 →
  returns (fun ns' => stack_ok ns' ∧ ∃ tr, moves i flags sseq sack pay ns tr ns')
    (tcp_for_flow i dst flags sseq sack seg pay ns).
Proof.
  intros Hok0 Hu0 Hd Hss Hsa Hl Hb Hp. unfold tcp_for_flow.
  apply (returns_weaken (fun ns' => stack_ok ns' ∧
    ∃ tr, moves i flags sseq sack pay (on_flow i (fl_last_ms (now_ms ns)) ns) tr ns')).
  2: { intros ns' (Hok' & tr & Hs). split; [exact Hok' |]. exists tr. eapply streams_last_ms, Hs. }
  set (ns1 := on_flow i (fl_last_ms (now_ms ns)) ns).
  assert (stack_ok ns1) as Hok by (apply ok_on_flow; [done |]; by destruct (s_flow ns Hok0 i)).
  assert (used (flow ns1 i) = true) as Hu by (unfold ns1; by rewrite on_flow_at).
  clearbody ns1. cbv zeta. set (t := the_tcb i ns1).
  destruct (has_flag flags TCP_RST) eqn:Er.
  { apply good_streams; [done | unfold processed; by rewrite Er |].
    destruct (peer_reset_spec i ns1 Hok Hu). by exists (peer_reset i ns1). }
  destruct (has_flag flags TCP_SYN) eqn:Es.
  { apply good_streams; [done | unfold processed; by rewrite Es, andb_false_r |].
    destruct (bool_decide_reflect (state t = NET_TCP_SYN_RCVD)).
    - case_match; [by apply good_ret | by apply good_resend_syn].
    - by apply good_abort. }
  destruct (has_flag flags TCP_ACK) eqn:Ea; cbn [negb].
  2: { apply good_streams; [done | unfold processed; by rewrite Ea, andb_false_r | by apply good_ret]. }
  destruct (net_seq_lt (snd_max t) sack) eqn:Ef.
  { assert (processed flags sack t = false) as Hpr by (unfold processed; by rewrite Ef, andb_false_r).
    cbn [orb]. rewrite andb_true_r. case_match; [by apply reject_streams |].
    apply good_streams; [done | done | by apply good_future_ack]. }
  destruct (bool_decide (state t = NET_TCP_SYN_RCVD) && (false || negb (net_seq_lt (snd_una t) sack))) eqn:Eb.
  { apply reject_streams; try done. fold t. unfold processed. cbn [orb] in Eb. by rewrite Eb, andb_false_r. }
  unfold TCP_HDR_LEN in Hl. net_read1. cbn [orb] in Eb.
  apply acked_streams; try done; [by apply (uint_mono 16) | |].
  - split; [done |]. fold t. intros Hst. rewrite bool_decide_true in Eb by done. by apply negb_false_iff in Eb.
  - fold t. unfold processed. by rewrite Er, Es, Ea, Ef, Eb.
Qed.

(** ** A SYN *)

Lemma syn_options_spec turns seg doff : doff <= blen seg → ∀ at_ m, 0 <= at_ → doff - at_ <= Z.of_nat turns →
  (1 <= turns)%nat → uint 16 m → returns (uint 16) (syn_options turns seg doff at_ m).
Proof.
  intros Hd. induction turns as [| turns IH]; intros at_ m Ha Ht H1 Hm; [lia |]. cbn [syn_options].
  destruct (Z.ltb_spec (at_ + 1) doff); cbn [negb]; [| by apply returns_ret].
  net_read1. case_match; [by apply returns_ret |]. case_match; [apply IH; done || lia |].
  net_read1. destruct (_ || _) eqn:El; [by apply returns_ret |]. bool_facts.
  eapply (returns_bind (uint 16)).
  - case_match; [| by apply returns_ret]. bool_facts. apply returns_rd16. lia.
  - intros m' Hm'. apply IH; done || lia.
Qed.

Lemma alloc_spec pr gport dst dport ns : stack_ok ns → uint 16 gport → uint 32 dst → uint 16 dport →
  let '(o, ns') := net_flow_alloc pr gport dst dport ns in
  stack_ok ns' ∧ quiet ns ns' ∧
  match o with
  | None => flow ns' = flow ns
  | Some i => used (flow ns i) = false ∧ only i ns ns'
              ∧ flow ns' i = MkFlow true pr gport dst dport (-1) (now_ms ns) zero_tcb
  end.
Proof.
  intros Hok Hg Hd Hp. unfold net_flow_alloc. destruct (find _ _) as [i |] eqn:Ef.
  2: { split_and!; [by apply ok_bump | done | done]. }
  apply find_some in Ef as [_ Ef%negb_true_iff].
  set (ns1 := on_flow i _ ns).
  assert (stack_ok ns1) as Hok1.
  { apply ok_on_flow; [done |]. split; [done | done | apply zero_tcb_ok]. }
  set (live := net_flows_open _). split_and!; try done.
  - case_match; [apply ok_set |]; by apply ok_bump.
  - by case_match.
  - intros j Hj. case_match; exact (only_on_flow i _ ns j Hj).
  - case_match; exact (on_flow_at i _ ns).
Qed.

Lemma touch_iss i f v ns ns' : touch i f ns ns' → touch i f ns (n_iss_walk v ns').
Proof. intros Ht. eapply touch_trans; [exact Ht |]. by destruct Ht. Qed.

(** A flow whose connection the host refused. *)
Lemma good_refused i ns : stack_ok ns → used (flow ns i) = true →
  safe (ns ← snd <$> tcp_out i (TCP_RST .| TCP_ACK) (snd_nxt (the_tcb i ns)) [] ns;
        Some (net_flow_free i (bump_stat tcp_resets_out 1 ns))).
Proof.
  intros Hok Hu. apply (good_safe i ns). apply good_bind.
  - apply serves_bare; try done. by apply tcb_nxt.
  - intros ns2 Hok2 Hu2 _. eapply good_after; [apply serves_stats; done | done |].
    apply good_free; [by apply ok_bump | done].
Qed.

(** Opening the egress and everything after it. *)
Lemma safe_syn_open i dst dport ns : stack_ok ns → used (flow ns i) = true →
  safe (let '(h, ns) :=
      match eg_open with
      | Some open => let '(h, e) := open (eg ns) NET_PROTO_TCP dst dport in (h, n_eg e ns)
      | None => (-1, ns)
      end in
    let ns := on_flow i (fl_handle h) ns in
    if h <? 0 then
      let ns := bump_stat tcp_refused 1 ns in
      ns ← snd <$> tcp_out i (TCP_RST .| TCP_ACK) (snd_nxt (the_tcb i ns)) [] ns;
      Some (net_flow_free i (bump_stat tcp_resets_out 1 ns))
    else
      let ns := on_tcb i (tc_close_at (now_ms ns +w 30000)) ns in
      net_tcp_tick i ns).
Proof.
  intros Hok Hu. set (p := match eg_open with Some _ => _ | None => _ end).
  assert (∃ h e, p = (h, n_eg e ns)) as (h & e & ->).
  { unfold p. destruct eg_open as [open |].
    - destruct (open _ _ _ _) as [h e]. eauto.
    - exists (-1), (eg ns). by destruct ns. }
  cbv zeta. set (ns1 := on_flow i (fl_handle h) (n_eg e ns)).
  assert (stack_ok ns1) as Hok1.
  { apply ok_on_flow; [by apply ok_eg |]. by destruct (s_flow ns Hok i). }
  assert (used (flow ns1 i) = true) as Hu1 by (unfold ns1; by rewrite on_flow_at).
  case_match.
  - apply good_refused; [by apply ok_bump | done].
  - eapply good_safe. apply good_tick; [| by rewrite used_on_tcb].
    apply ok_on_tcb; [done |]. apply ok_close_at. by apply (ok_the_tcb i ns1).
Qed.

Lemma safe_syn dst seg doff ns : stack_ok ns → uint 32 dst → 20 <= doff <= blen seg →
  safe (tcp_syn dst seg doff ns).
Proof.
  intros Hok Hd Hdoff. unfold tcp_syn, safe. net_read1. net_read1.
  pose proof (alloc_spec NET_PROTO_TCP a dst a0 ns Hok ltac:(done) Hd ltac:(done)) as Hal.
  destruct (net_flow_alloc _ _ _ _ ns) as [[i |] ns1]; destruct Hal as (Hok1 & Hq & Hal).
  2: { apply safe_reject; [done | done | unfold TCP_HDR_LEN; lia]. }
  destruct Hal as (_ & _ & Hfl). net_read1. net_read1.
  eapply returns_bind; [apply (syn_options_spec (Z.to_nat doff)); unfold TCP_HDR_LEN; done || lia |].
  intros m Hm. cbv zeta. cbn [cfg bump_stat n_stats].
  set (ns2 := n_iss_walk _ _). set (s := iss_walk ns2).
  assert (touch i (fl_tcb (tc_snd_una s (tc_snd_nxt s (tc_snd_max s (syn_tcb a1 a2 (clamp_mss m)
    (tcp_cwnd_segments (cfg ns1)) zero_tcb)))) (flow ns1 i)) ns1
    (on_tcb i (fun t => tc_snd_una s (tc_snd_nxt s (tc_snd_max s t))) ns2)) as T.
  { pose proof (touch_on_tcb i (syn_tcb a1 a2 (clamp_mss m) (tcp_cwnd_segments (cfg ns1))) _ _ _
      (touch_stats i _ (<[tcp_syns := w64 (stats ns1 tcp_syns + 1)]> (stats ns1)) _ _ (touch_refl i ns1))) as T.
    apply (touch_iss _ _ (iss_walk ns1 +w 0x9e3779b9)) in T. fold ns2 in T.
    apply (touch_on_tcb i (fun t => tc_snd_una s (tc_snd_nxt s (tc_snd_max s t)))) in T.
    rewrite Hfl in T |- *. exact T. }
  apply safe_syn_open.
  - eapply touch_ok; [exact Hok1 | exact T |]. split; [by rewrite Hfl | by rewrite Hfl |].
    apply ok_syn_tcb; [by apply (uint_mono 16) | apply (s_cfg ns1 Hok1) | apply uint_w32].
  - rewrite (h_flow _ _ _ _ T). by rewrite Hfl.
Qed.

(** ** net_tcp_input *)

Lemma find_used proto gport dst dport ns i :
  net_flow_find proto gport dst dport ns = Some i → used (flow ns i) = true.
Proof.
  unfold net_flow_find. intros [_ Hm]%find_some. unfold flow_matches in Hm.
  by repeat (apply andb_prop in Hm as [Hm _]).
Qed.

Lemma safe_tcp_input src dst seg ns : stack_ok ns → uint 32 dst → is_bytes seg → blen seg < 2 ^ 31 →
  safe (net_tcp_input src dst seg ns).
Proof.
  intros Hok Hd Hb Hl. unfold net_tcp_input, safe. cbv zeta.
  assert (∀ c, stack_ok (bump_stat c 1 (bump_stat tcp_in_ 1 ns))) as Hc by (intros; by repeat apply ok_bump).
  destruct (Z.ltb_spec (blen seg) TCP_HDR_LEN) as [| Hn]; [by apply returns_ret |].
  unfold TCP_HDR_LEN in Hn. case_match; [by apply returns_ret |].
  net_read1. case_match; [by apply returns_ret |]. bool_facts. unfold TCP_HDR_LEN in *.
  repeat net_read1.
  assert (stack_ok (bump_stat tcp_in_ 1 ns)) as Hok1 by (by apply ok_bump).
  destruct (net_flow_find _ _ _ _ _) as [i |] eqn:Ef.
  - apply find_used in Ef. eapply returns_weaken; [by eapply for_flow_spec; try done; lia |].
    by intros ns' [Hr _].
  - case_match; [apply safe_syn; done || lia | apply safe_reject; done || (unfold TCP_HDR_LEN; lia)].
Qed.
End input.
