(* ===== verification/NetSafe.v ===== *)
(** * The network stack is safe

    Every entry point, from any reachable stack and for any octets, returns: it reads and
    writes inside its buffers and its loops end.  The invariant [stack_ok] of NetInv.v holds
    throughout; in particular whatever the guest is handed is a valid datagram for it. *)

From S2P Require Import Prelude Bytes Net Tcp NetStack NetFacts NetInv TcpTcb TcpInv TcpServe TcpInput.

Section safe.
Context {E : Type} `{EgressOk E}.
Implicit Types ns : net_stack E.

Lemma safe_map (f : net_stack E → net_stack E) m : safe m → (∀ ns, stack_ok ns → stack_ok (f ns)) →
  safe (f <$> m).
Proof. intros (ns & -> & Hok) Hf. exists (f ns). auto. Qed.
Lemma safe_bind m (k : net_stack E → option (net_stack E)) : safe m → (∀ ns, stack_ok ns → safe (k ns)) → safe (m ≫= k).
Proof. intros (ns & -> & Hok) Hk. by apply Hk. Qed.

(** ** ICMP *)

(** The reply: the request with its type and checksum rewritten. *)
Lemma echo_reply p : is_bytes p → ICMP_HDR_LEN <= blen p → blen p <= NET_MTU →
  ∃ r0 r1 r, put_bytes p 0 [ICMP_ECHO_REPLY] = Some r0 ∧ put_bytes r0 2 (net_wr16 0) = Some r1 ∧
    put_bytes r1 2 (net_wr16 (net_checksum r1)) = Some r ∧
    r = ICMP_ECHO_REPLY :: take 1 (drop 1 p) ++ net_wr16 (net_checksum r1) ++ drop 4 p ∧
    is_bytes r ∧ blen r = blen p ∧ net_checksum r = 0.
Proof.
  intros Hb H1 H2. unfold ICMP_HDR_LEN, NET_MTU in *.
  destruct p as [| a [| b [| c [| d p]]]]; try (unfold blen in H1; simpl in H1; lia).
  assert (blen (a :: b :: c :: d :: p) = 4 + blen p) as El by (unfold blen; simpl length; lia).
  rewrite El in *. pose proof (blen_nonneg p).
  do 4 apply Forall_cons_1 in Hb as [? Hb].
  assert (is_bytes [0; b]) by (repeat apply Forall_cons_2; [by split | done | constructor]).
  exists (0 :: b :: c :: d :: p), ([0; b] ++ net_wr16 0 ++ p).
  set (k := net_checksum _). exists ([0; b] ++ net_wr16 k ++ p). split_and!.
  - by apply (put_bytes_field _ [] [a] (b :: c :: d :: p)).
  - by apply (put_bytes_field _ [0; b] [c; d] p).
  - by apply (put_bytes_field _ [0; b] (net_wr16 0) p).
  - done.
  - apply bytes_app; [done |]. apply bytes_app; [apply wr16_bytes | done].
  - unfold blen. rewrite !length_app. simpl length. lia.
  - apply (net_checksum_fills [0; b] p); [by exists 1%nat | done | done |].
    rewrite !blen_app. change (blen [0; b]) with 2. change (blen (net_wr16 0)) with 2. lia.
Qed.

Lemma safe_icmp src dst p ns : stack_ok ns → uint 32 dst → src = guest_ip (cfg ns) → is_bytes p →
  safe (icmp_input src dst p ns).
Proof.
  intros Hok Hd Hsrc Hb. unfold icmp_input, safe. cbv zeta.
  assert (∀ c, stack_ok (bump_stat c 1 (bump_stat icmp_in 1 ns))) as Hc by (intros; by repeat apply ok_bump).
  destruct (Z.ltb_spec (blen p) ICMP_HDR_LEN) as [| Hl]; [by apply returns_ret |].
  case_match; [by apply returns_ret |]. unfold ICMP_HDR_LEN in Hl. do 2 net_read1.
  case_match; [by apply returns_ret |]. case_match.
  - destruct (Z.ltb_spec (NET_MTU - IPV4_HDR_LEN) (blen p)) as [| Hm]; [by apply returns_ret |].
    unfold NET_MTU, IPV4_HDR_LEN in Hm.
    destruct (echo_reply p Hb) as (r0 & r1 & r & E0 & E1 & E2 & _ & Hr & Hlr & Hz).
    { unfold ICMP_HDR_LEN. lia. } { unfold NET_MTU. lia. }
    rewrite E0. cbn [mbind option_bind]. rewrite E1. cbn [mbind option_bind]. rewrite E2.
    cbn [mbind option_bind]. subst src.
    pose proof (net_emit_spec dst NET_PROTO_ICMP r (bump_stat icmp_in 1 ns) (ok_bump _ _ _ Hok) Hd
      ltac:(by split) Hr) as Hem.
    assert (8 <= blen r <= 65535) as [Hl8 Hl16] by lia.
    specialize (Hem (or_introl (conj eq_refl (conj Hl8 (checksum_verifies r Hr Hl16 Hz))))).
    change (guest_ip (cfg (bump_stat icmp_in 1 ns))) with (guest_ip (cfg ns)) in Hem.
    destruct (net_emit _ _ _ _ _) as [ok ns1]. destruct Hem as (Hok1 & _). apply returns_ret.
    destruct ok; [by apply ok_bump | done].
  - destruct eg_icmp_echo as [echo |]; [| by apply returns_ret].
    destruct (echo _ _ _) as [r e]. apply returns_ret. case_match; repeat (apply ok_bump || apply ok_eg); done.
Qed.

(** ** UDP datagrams *)

Lemma udp_emit_spec src sport dport pay ns : stack_ok ns → uint 32 src → is_bytes pay →
  blen pay <= 65000 →
  let '(ok, ns') := udp_emit src sport dport pay ns in
  stack_ok ns' ∧ quiet ns ns' ∧ flow ns' = flow ns.
Proof.
  intros Hok Hs Hb Hl. unfold udp_emit. destruct (s_cfg ns Hok) as (Hg & _).
  set (len := w16 _). set (u := fun sum => udp_header sport dport len sum ++ pay).
  assert (∀ k, u k = (net_wr16 sport ++ net_wr16 dport ++ net_wr16 len) ++ net_wr16 k ++ pay) as Hu.
  { intros k. unfold u, udp_header. by rewrite <- !app_assoc. }
  destruct (l4_checksum_fills src (guest_ip (cfg ns)) NET_PROTO_UDP
    (net_wr16 sport ++ net_wr16 dport ++ net_wr16 len) pay) as [_ Hz]; [by exists 3%nat | auto with word | done | |].
  { rewrite !blen_app. change (blen (net_wr16 _)) with 2. change (blen (net_wr16 dport)) with 2.
    change (blen (net_wr16 len)) with 2. change (blen (net_wr16 0)) with 2. lia. }
  change (udp_header sport dport len 0 ++ pay) with (u 0).
  rewrite <- !Hu in Hz.
  pose proof (net_emit_spec src NET_PROTO_UDP (u (net_l4_checksum src (guest_ip (cfg ns)) NET_PROTO_UDP (u 0)))
    ns Hok Hs ltac:(by split)) as Hem.
  assert (is_bytes (u (net_l4_checksum src (guest_ip (cfg ns)) NET_PROTO_UDP (u 0)))) as Hub.
  { rewrite Hu. auto 6 with word. }
  set (k := net_l4_checksum _ _ _ (u 0)) in *. clearbody k.
  assert (blen (u k) = 8 + blen pay) as Hlu by (unfold u; by rewrite blen_app).
  assert (0 <= blen pay) by (unfold blen; lia).
  assert (uint 16 (8 + blen pay)) as H8 by (split; lia).
  assert (len = 8 + blen pay) as Hlen by (by apply wrap_small).
  assert (transport_verifies src (guest_ip (cfg ns)) NET_PROTO_UDP (u k)) as Hv.
  { right. right. rewrite Hlu. split_and!; [done | lia | |].
    - change (half_at (u k) 4) with (256 * fld len 8 0xff + (len .& 0xff)). rewrite wr16_be; [done | by rewrite Hlen].
    - rewrite <- Hlu. apply (l4_verifies _ _ NET_PROTO_UDP); [done | done | by split | done | lia | done]. }
  specialize (Hem Hub Hv).
  destruct (net_emit _ _ _ _ _) as [ok ns1]. destruct Hem as (? & ? & ? & _). done.
Qed.

(** ** The resolver *)

(** A name ends inside the buffer. *)
Lemma labels_inside turns p cap : ∀ at_ out, 0 <= at_ <= blen p → blen p - at_ < Z.of_nat turns →
  returns (fun r => match r with None => True | Some (nl, name) => at_ < nl <= blen p end)
    (name_labels turns p cap at_ out).
Proof.
  induction turns as [| turns IH]; intros at_ out Ha Ht; [lia |]. cbn [name_labels].
  destruct (Z.leb_spec (blen p) at_); [by apply returns_ret |]. net_read1. cbv zeta.
  apply returns_if; intros E0.
  { apply returns_ret. repeat case_match; simplify_eq; try done; lia. }
  apply returns_if; intros _; [by apply returns_ret |].
  apply returns_if; intros _; [by apply returns_ret |].
  match goal with Hl : uint 8 ?l |- _ => destruct Hl as [Hl1 Hl2];
    destruct (Z.ltb_spec (blen p) (at_ + 1 + l)); [by apply returns_ret |] end.
  net_read1. apply returns_if; intros _; [by apply returns_ret |].
  apply returns_if; intros _; [by apply returns_ret |].
  eapply returns_weaken; [apply IH; lia |]. intros [[nl name] |]; [lia | done].
Qed.

Lemma dns_message_bytes q flags rcode answer : is_bytes q → is_bytes (dns_message q flags rcode answer).
Proof.
  intros Hb. unfold dns_message. repeat apply bytes_app; auto with word; [by apply Forall_take | by apply Forall_drop |].
  destruct answer; [| constructor]. unfold dns_answer. repeat apply bytes_app; auto with word.
Qed.

Lemma blen_take_le (l : list Z) n : blen (take n l) <= Z.of_nat n.
Proof. unfold blen. rewrite length_take. lia. Qed.
Lemma blen_drop_le (l : list Z) n : blen (drop n l) <= blen l.
Proof. unfold blen. rewrite length_drop. lia. Qed.

Lemma dns_message_length q flags rcode answer : blen (dns_message q flags rcode answer) <= blen q + 28.
Proof.
  unfold dns_message. rewrite !blen_app. pose proof (blen_take_le q 2). pose proof (blen_drop_le q 12).
  change (blen (net_wr16 flags)) with 2. change (blen (net_wr16 0)) with 2.
  assert (∀ v, blen (net_wr16 v) = 2) as -> by done.
  assert (∀ v, blen (net_wr16 v) = 2) as -> by done.
  assert (blen (match answer with Some a => dns_answer a | None => [] end) <= 16) by (by destruct answer).
  lia.
Qed.

Lemma safe_dns_reply gport q qend rcode answer ns : stack_ok ns → is_bytes q →
  0 <= qend <= blen q → 4 <= blen q → safe (dns_reply gport q qend rcode answer ns).
Proof.
  intros Hok Hb Hq Hl. unfold dns_reply, safe.
  destruct (Z.ltb_spec (NET_MTU - IPV4_HDR_LEN - UDP_HDR_LEN) (qend + 16 + UDP_HDR_LEN)) as [| Hm].
  { apply returns_ret. by apply ok_bump. }
  unfold NET_MTU, IPV4_HDR_LEN, UDP_HDR_LEN in Hm. do 2 net_read1. cbv zeta.
  match goal with |- context [dns_message ?a ?f ?r ?n] =>
    pose proof (dns_message_length a f r n) as Hlen; pose proof (dns_message_bytes a f r n) as Hby end.
  destruct (s_cfg ns Hok) as (_ & _ & Hdns & _).
  pose proof (udp_emit_spec (dns_ip (cfg ns)) 53 gport _ ns Hok Hdns (Hby ltac:(done)) ltac:(lia)) as Hem.
  destruct (udp_emit _ _ _ _ _) as [ok ns1]. destruct Hem as (Hok1 & _).
  apply returns_ret. destruct ok; [by apply ok_bump | done].
Qed.

Lemma safe_dns_finish gport q qend r a ns : stack_ok ns → is_bytes q → 0 <= qend <= blen q → 4 <= blen q →
  safe (dns_finish gport q qend r a ns).
Proof.
  intros. unfold dns_finish. repeat case_match;
    (apply safe_map; [by apply safe_dns_reply | intros; by apply ok_bump]).
Qed.

Lemma ok_dns i q ns : stack_ok ns → pending_ok q → stack_ok (n_dns (<[i := q]> (dns ns)) ns).
Proof.
  intros [] Hq. split; try done. intros j. cbn. destruct (decide (i = j)) as [<- |].
  - by rewrite fn_lookup_insert.
  - by rewrite fn_lookup_insert_ne.
Qed.
Lemma no_query_ok : pending_ok no_query.
Proof. repeat split; try done. constructor. Qed.

Lemma ok_defer gport q name ns : stack_ok ns → is_bytes q → uint 16 gport → 12 <= blen q →
  stack_ok (snd (dns_defer gport q name ns)).
Proof.
  intros Hok Hb Hg Hl. unfold dns_defer. destruct (_ || _) eqn:E1; [done |]. bool_facts.
  destruct (dns_scan _ _ _ _ _ _) as [| [i |]]; [done | | by apply ok_bump].
  apply ok_bump, ok_dns; [done |]. by split_and!.
Qed.

Lemma resolve_spec name ns : ∃ rc a e, resolve name ns = (rc, a, n_eg e ns).
Proof.
  unfold resolve. destruct eg_resolve as [res |].
  - destruct (res _ _) as [[rc a] e]. eauto.
  - exists NET_RES_FAIL, 0, (eg ns). by destruct ns.
Qed.

Lemma safe_slot_tick i ns : stack_ok ns → safe (dns_slot_tick i ns).
Proof.
  intros Hok. unfold dns_slot_tick. destruct (pused (dns ns i)) eqn:Eu; cbn [negb]; [| by apply safe_ret].
  destruct (s_dns ns Hok i) as (Hq1 & Hq2 & Hq3 & Hq4). specialize (Hq4 Eu).
  destruct (resolve_spec (pname (dns ns i)) ns) as (rc & a & e & ->).
  pose proof (ok_eg e ns Hok) as Hok1. case_match; [by apply safe_ret |].
  set (p := if rc =? NET_RES_PENDING then _ else _).
  assert (∃ r ns1, p = (r, ns1) ∧ stack_ok ns1) as (r & ns1 & -> & Hok2).
  { unfold p. destruct (rc =? NET_RES_PENDING); do 2 eexists; (split; [reflexivity |]); [by apply ok_bump | done]. }
  apply safe_bind; [apply safe_dns_finish; done || lia |]. intros ns2 Hok3. apply safe_ret.
  apply ok_dns; [done | apply no_query_ok].
Qed.

Lemma safe_for_each k f : (∀ i ns, stack_ok ns → safe (f i ns)) → ∀ i ns, stack_ok ns → safe (for_each k i f ns).
Proof.
  intros Hf. induction k as [| k IH]; intros i ns Hok; cbn [for_each]; [by apply safe_ret |].
  apply safe_bind; [by apply Hf |]. intros. by apply IH.
Qed.

Lemma safe_dns_question gport p name qend qt qc ns : stack_ok ns → is_bytes p → uint 16 gport →
  12 <= qend <= blen p → safe (dns_question gport p name qend qt qc ns).
Proof.
  intros Hok Hb Hg Hq. unfold dns_question.
  assert (∀ rcode answer, safe (dns_reply gport p qend rcode answer ns)) as Hr
    by (intros; apply safe_dns_reply; done || lia).
  repeat (case_match; [apply safe_map; [apply Hr | intros; by apply ok_bump] |]).
  destruct (resolve_spec name ns) as (rc & a & e & ->). pose proof (ok_eg e ns Hok) as Hok1.
  case_match; [| apply safe_dns_finish; done || lia].
  unfold safe. net_read1. apply returns_ret. apply ok_defer; try done. lia.
Qed.

Lemma safe_dns_input gport p ns : stack_ok ns → is_bytes p → uint 16 gport → safe (dns_input gport p ns).
Proof.
  intros Hok Hb Hg. unfold dns_input, safe. cbv zeta.
  destruct (Z.ltb_spec (blen p) 12) as [| Hl]; [apply returns_ret; by repeat apply ok_bump |].
  do 2 net_read1. set (ns1 := set_stat _ _ _).
  assert (stack_ok ns1) as Hok1 by (by apply ok_set, ok_set, ok_bump).
  assert (safe (dns_malformed_reply gport p ns1)) as Hbad.
  { apply safe_dns_reply; [by apply ok_bump | done | lia | lia]. }
  case_match; [apply returns_ret; by apply ok_bump |]. case_match; [done |].
  net_read1. eapply returns_bind; [apply (labels_inside _ _ NET_DNS_NAME 0 []); lia || (unfold blen; lia) |].
  intros [[nl name] |]; [intros Hnl | done].
  destruct (Z.ltb_spec (blen p) (12 + nl + 4)); [done |]. do 2 net_read1.
  apply safe_dns_question; try done. lia.
Qed.

(** ** UDP *)

Lemma ok_free i ns : stack_ok ns → stack_ok (net_flow_free i ns).
Proof.
  intros Hok. destruct (used (flow ns i)) eqn:Eu.
  - apply (free_spec i ns Hok Eu).
  - unfold net_flow_free. by rewrite Eu.
Qed.

Lemma ok_on_flow_at i g ns : stack_ok ns → (∀ f, flow_ok f → flow_ok (g f)) → stack_ok (on_flow i g ns).
Proof. intros Hok Hg. apply ok_on_flow; [done |]. apply Hg, Hok. Qed.
Lemma ok_last_ms i v ns : stack_ok ns → stack_ok (on_flow i (fl_last_ms v) ns).
Proof. intros Hok. apply ok_on_flow_at; [done |]. by intros f []. Qed.
Lemma ok_handle i v ns : stack_ok ns → stack_ok (on_flow i (fl_handle v) ns).
Proof. intros Hok. apply ok_on_flow_at; [done |]. by intros f []. Qed.

Lemma ok_udp_send i pay ns : stack_ok ns → stack_ok (udp_send i pay ns).
Proof.
  intros Hok. unfold udp_send. pose proof (ok_last_ms i (now_ms ns) ns Hok) as Hok1.
  destruct eg_send as [send |]; [| done]. destruct (send _ _ _) as [r e].
  case_match; [apply ok_free |]; by apply ok_eg.
Qed.

Lemma ok_udp_forward dst sport dport pay ns : stack_ok ns → uint 32 dst → uint 16 sport → uint 16 dport →
  stack_ok (udp_forward dst sport dport pay ns).
Proof.
  intros Hok Hd Hs Hp. unfold udp_forward. destruct (net_flow_find _ _ _ _ _); [by apply ok_udp_send |].
  pose proof (alloc_spec NET_PROTO_UDP sport dst dport ns Hok Hs Hd Hp) as Hal.
  destruct (net_flow_alloc _ _ _ _ ns) as [[i |] ns1]; destruct Hal as (Hok1 & _); [| done].
  set (p := match eg_open with Some _ => _ | None => _ end).
  assert (∃ h e, p = (h, n_eg e ns1)) as (h & e & ->).
  { unfold p. destruct eg_open as [open |].
    - destruct (open _ _ _ _) as [h e]. eauto.
    - exists (-1), (eg ns1). by destruct ns1. }
  pose proof (ok_handle i h _ (ok_eg e ns1 Hok1)) as Hok2.
  case_match; [by apply ok_free | by apply ok_udp_send].
Qed.

Lemma safe_udp_input src dst p ns : stack_ok ns → uint 32 dst → is_bytes p → safe (udp_input src dst p ns).
Proof.
  intros Hok Hd Hb. unfold udp_input, safe. cbv zeta.
  assert (stack_ok (bump_stat udp_in 1 ns)) as Hok1 by (by apply ok_bump).
  assert (∀ c, stack_ok (bump_stat c 1 (bump_stat udp_in 1 ns))) as Hc by (intros; by apply ok_bump).
  destruct (Z.ltb_spec (blen p) UDP_HDR_LEN) as [| Hl]; [by apply returns_ret |].
  unfold UDP_HDR_LEN in Hl. do 3 net_read1.
  destruct (_ || _) eqn:El; [by apply returns_ret |]. bool_facts. unfold UDP_HDR_LEN in *.
  do 2 net_read1. destruct (_ && _); [by apply returns_ret |]. net_read1.
  case_match; [by apply safe_dns_input |]. apply returns_ret. by apply ok_udp_forward.
Qed.

Lemma safe_udp_reads recv guard i : eg_recv = Some recv → ∀ ns, stack_ok ns → safe (udp_reads recv guard i ns).
Proof.
  intros Er. induction guard as [| guard IH]; intros ns Hok; cbn [udp_reads]; [by apply safe_ret |].
  destruct (recv _ _ _) as [[r d] e] eqn:Ed. pose proof (ok_eg e ns Hok) as Hok1.
  destruct (Z.eqb_spec r NET_EG_WOULDBLOCK) as [| Hne]; [by apply safe_ret |].
  destruct (Z.ltb_spec r 0); [apply safe_ret; by apply ok_free |]. unfold NET_EG_WOULDBLOCK in Hne.
  destruct (recv_ok _ _ _ _ _ _ _ Er Ed ltac:(lia)) as (Hcap & Hlen & Hd).
  rewrite !(proj2 (Z.ltb_ge _ _)) by lia. cbn [orb].
  rewrite take_ge by (unfold blen in Hlen; lia).
  destruct (s_flow ns Hok i) as [_ Hip _]. unfold NET_MTU, IPV4_HDR_LEN, UDP_HDR_LEN in Hcap.
  pose proof (udp_emit_spec (dst_ip (flow ns i)) (dst_port (flow ns i)) (guest_port (flow ns i)) d _ Hok1 Hip Hd
    ltac:(lia)) as Hem.
  destruct (udp_emit _ _ _ _ _) as [ok ns1]. destruct Hem as (Hok2 & _).
  destruct ok; cbn [negb]; [| by apply safe_ret]. apply IH. by apply ok_last_ms, ok_bump.
Qed.

Lemma safe_udp_poll i ns : stack_ok ns → safe (udp_poll i ns).
Proof.
  intros Hok. unfold udp_poll. destruct eg_recv as [recv |] eqn:Er; [| by apply safe_ret].
  case_match; [by apply safe_ret | by apply safe_udp_reads].
Qed.

(** ** The entry points *)

Lemma safe_input pkt ns : stack_ok ns → is_bytes pkt → safe (net_input pkt ns).
Proof.
  intros Hok Hb. unfold net_input, safe. cbv zeta.
  assert (stack_ok (bump_stat ip_in 1 ns)) as Hok1 by (by apply ok_bump).
  assert (∀ c, stack_ok (bump_stat c 1 (bump_stat ip_in 1 ns))) as Hc by (intros; by apply ok_bump).
  destruct (Z.ltb_spec (blen pkt) IPV4_HDR_LEN) as [| Hl]; [by apply returns_ret |].
  unfold IPV4_HDR_LEN in *. net_read1. case_match; [by apply returns_ret |].
  destruct (_ || _) eqn:Ei; [by apply returns_ret |]. bool_facts. net_read1.
  destruct (_ || _) eqn:Et; [by apply returns_ret |]. bool_facts. net_read1.
  case_match; [by apply returns_ret |]. net_read1. case_match; [by apply returns_ret |].
  do 2 net_read1. case_match; [by apply returns_ret |]. bool_facts. do 2 net_read1.
  match goal with H : uint 16 ?tot, Hl4 : blen ?l = ?tot - _ |- _ => assert (blen l < 2 ^ 31) by (destruct H; lia) end.
  case_match; [apply safe_icmp; done |]. case_match; [by apply safe_udp_input |].
  case_match; [by apply safe_tcp_input | by apply returns_ret].
Qed.

Lemma safe_input_at pkt now ns : stack_ok ns → is_bytes pkt → safe (net_input_at pkt now ns).
Proof. intros Hok Hb. apply safe_input; [| done]. case_match; [by apply ok_now | done]. Qed.

Lemma safe_flow_tick now i ns : stack_ok ns → safe (flow_tick now i ns).
Proof.
  intros Hok. unfold flow_tick. destruct (used (flow ns i)) eqn:Eu; cbn [negb]; [| by apply safe_ret].
  case_match; [| by apply (good_safe i ns), good_tick].
  apply safe_bind; [by apply safe_udp_poll |]. intros ns1 Hok1. apply safe_ret.
  case_match; [by apply ok_free | done].
Qed.

Lemma safe_tick now ns : stack_ok ns → safe (net_tick now ns).
Proof.
  intros Hok. unfold net_tick. case_match; [by apply safe_ret |].
  apply safe_bind; [apply safe_for_each; [intros; by apply safe_slot_tick | by apply ok_now] |].
  intros ns1 Hok1. apply safe_for_each; [intros; by apply safe_flow_tick | done].
Qed.

Lemma init_ok c (e : E) : cfg_ok c → stack_ok (net_init c e).
Proof.
  intros Hc. split.
  - done.
  - by repeat split.
  - constructor.
  - intros i. apply zero_flow_ok.
  - intros i. apply no_query_ok.
Qed.

(** The datagram taken is the oldest, and it is valid. *)
Lemma output_spec cap ns d ns' : stack_ok ns → net_output cap ns = (d, ns') →
  stack_ok ns' ∧ (d = [] ∧ ns' = ns ∨ queued ns = d :: queued ns' ∧ valid_datagram (guest_ip (cfg ns)) d).
Proof.
  intros Hok E'. unfold net_output in E'. destruct (Z.eqb_spec (out_head ns) (out_tail ns)) as [| Hne].
  { injection E' as <- <-. auto. }
  case_match. { injection E' as <- <-. auto. }
  injection E' as Ed <-. destruct (s_ring ns Hok) as (Hh & Ht & Hlen).
  pose proof (queued_length ns Hok) as Hql. pose proof (sub32_range (out_head ns) (out_tail ns)).
  assert (out_head ns -w out_tail ns ≠ 0) as Hn.
  { intros E0. apply Hne. rewrite <- (add_sub_base (out_tail ns) (out_head ns)) by done.
    by rewrite E0, Z.add_0_r, w32_small. }
  destruct (queued ns) as [| d0 q] eqn:Eq; [simpl in Hql; lia |].
  destruct (queued_pop ns d0 q Hh Ht Eq) as [Ho Hq]. rewrite Ed in Ho. subst d0.
  pose proof (s_queue ns Hok) as Hv. rewrite Eq in Hv. apply Forall_cons_1 in Hv as [Hv1 Hv2].
  split; [| right; by rewrite Hq].
  destruct Hok as [? _ _ ? ?]. split; try done.
  - cbn. split_and!; [done | apply uint_w32 |]. rewrite sub_shift by (done || lia). lia.
  - by rewrite Hq.
Qed.

Lemma reset_ok ns : stack_ok ns → stack_ok (net_reset ns).
Proof.
  intros Hok. unfold net_reset.
  assert (stack_ok (foldl (λ ns i, if used (flow ns i) then net_flow_free i ns else ns) ns flow_indices)) as Hok1.
  { generalize flow_indices as l. intros l. revert ns Hok. induction l as [| i l IH]; intros ns Hok; [done |].
    cbn. apply IH. case_match; [by apply ok_free | done]. }
  apply init_ok, (s_cfg _ Hok1).
Qed.

(** ** Reachable stacks *)

Inductive net_reachable (c : net_config) : net_stack E → Prop :=
  | reach_init e : cfg_ok c → net_reachable c (net_init c e)
  | reach_input ns pkt ns' : net_reachable c ns → is_bytes pkt → net_input pkt ns = Some ns' →
      net_reachable c ns'
  | reach_input_at ns pkt now ns' : net_reachable c ns → is_bytes pkt →
      net_input_at pkt now ns = Some ns' → net_reachable c ns'
  | reach_tick ns now ns' : net_reachable c ns → net_tick now ns = Some ns' → net_reachable c ns'
  | reach_output ns cap d ns' : net_reachable c ns → net_output cap ns = (d, ns') → net_reachable c ns'
  | reach_reset ns : net_reachable c ns → net_reachable c (net_reset ns).

Lemma reachable_ok c ns : net_reachable c ns → stack_ok ns.
Proof.
  induction 1 as [| ns pkt ns' _ IH Hb E1 | ns pkt now ns' _ IH Hb E1 | ns now ns' _ IH E1 | ns cap d ns' _ IH E1 | ns _ IH].
  - by apply init_ok.
  - destruct (safe_input pkt ns IH Hb) as (? & E2 & ?). congruence.
  - destruct (safe_input_at pkt now ns IH Hb) as (? & E2 & ?). congruence.
  - destruct (safe_tick now ns IH) as (? & E2 & ?). congruence.
  - by apply (output_spec cap ns d ns').
  - by apply reset_ok.
Qed.
End safe.
