(* ===== verification/NetTheorems.v ===== *)
(** * The network stack: theorems

    Safety from reachability, the two byte streams of a flow, the windows;
    and the places where the code departs from what it says.  [demo_host] is a concrete
    egress: it accepts everything and has a text to send. *)

From S2P Require Import Prelude Bytes Net Tcp NetStack NetFacts NetInv TcpTcb TcpInv TcpServe TcpInput NetSafe.

(** ** Receive coalescing

    [net_tcp_receive_coalesce] merges consecutive segments of one flow before the guest sees
    them.  It always returns; what it returns is again a plain data segment of that flow,
    with both checksums right, whose payload is the two payloads in order. *)

(** What [plain_tcp_data] establishes. *)
Record plain (p : list Z) : Prop := {
  pl_len : 40 < blen p <= 65535;
  pl_version : get8 p 0 = Some 0x45;
  pl_total : net_rd16 p 2 = Some (blen p);
  pl_frag : net_rd16 p 6 = Some 0x4000;
  pl_proto : get8 p 9 = Some NET_PROTO_TCP;
  pl_off : get8 p 32 = Some 0x50;
  pl_flags : get8 p 33 = Some 0x10 ∨ get8 p 33 = Some 0x18;
  pl_urg : net_rd16 p 38 = Some 0;
  pl_header : ∃ hdr, get_bytes p 0 20 = Some hdr ∧ net_checksum hdr = 0;
  pl_segment : ∃ src dst seg, net_rd32 p 12 = Some src ∧ net_rd32 p 16 = Some dst ∧
    get_bytes p 20 (blen p - 20) = Some seg ∧ net_l4_checksum src dst NET_PROTO_TCP seg = 0 }.

Lemma plain_total p : ∃ b, plain_tcp_data p = Some b.
Proof.
  cut (returns (fun _ => True) (plain_tcp_data p)); [intros (b & -> & _); by exists b |].
  unfold plain_tcp_data. destruct (Z.leb_spec (blen p) 40); [by apply returns_ret |].
  destruct (65535 <? blen p); cbn [orb]; [by apply returns_ret |].
  repeat net_read1. by apply returns_ret.
Qed.

Lemma plain_spec p : plain_tcp_data p = Some true ↔ plain p.
Proof.
  unfold plain_tcp_data. split.
  - destruct (Z.leb_spec (blen p) 40); [done |]. destruct (Z.ltb_spec 65535 (blen p)); [done |]. cbn [orb].
    intros E. repeat (apply bind_Some in E as (? & ? & E)).
    injection E as E. rewrite !andb_true_iff, orb_true_iff, !Z.eqb_eq in E.
    destruct E as [[[[[[[[-> ->] ->] ->] ->] Hf] ->] Hc] Hs].
    split; try done; [| by eauto | by eauto 8].
    destruct Hf as [-> | ->]; auto.
  - intros [[H1 H2] Hv Ht Hfr Hp Ho Hfl Hu (hdr & Hh & Hc) (src & dst & seg & Hs & Hd & Hg & Hk)].
    destruct (Z.leb_spec (blen p) 40), (Z.ltb_spec 65535 (blen p)); try lia. cbn [orb].
    rewrite Hv, Ht, Hfr, Hp, Ho, Hu, Hh, Hs, Hd, Hg.
    destruct Hfl as [-> | ->]; cbn [mbind option_bind]; rewrite Hc, Hk, !Z.eqb_refl; done.
Qed.

(** ** The headers rewritten in place *)

Section rewritten.
(** The forty octets of the two headers, the two payloads, the new flags. *)
Context (a0 a1 a2 a3 a4 a5 a6 a7 a8 a9 a10 a11 a12 a13 a14 a15 a16 a17 a18 a19 a20 a21 a22 a23 a24 a25 a26 a27 a28 a29 a30 a31 a32 a33 a34 a35 a36 a37 a38 a39 : Z)
  (q pay : list Z) (fl : Z).

Definition old_octets : list Z :=
  [a0; a1; a2; a3; a4; a5; a6; a7; a8; a9; a10; a11; a12; a13; a14; a15; a16; a17; a18; a19; a20; a21; a22; a23; a24; a25; a26; a27; a28; a29; a30; a31; a32; a33; a34; a35; a36; a37; a38; a39].
Definition upto_sum : list Z := [a0; a1] ++ net_wr16 (40 + blen (q ++ pay)) ++ [a4; a5; a6; a7; a8; a9].
Definition addresses : list Z := [a12; a13; a14; a15; a16; a17; a18; a19].
Definition header_with (k : Z) : list Z := upto_sum ++ net_wr16 k ++ addresses.
Definition upto_tcp_sum : list Z := [a20; a21; a22; a23; a24; a25; a26; a27; a28; a29; a30; a31; a32; fl; a34; a35].
Definition after_tcp_sum : list Z := [a38; a39] ++ q ++ pay.
Definition segment_with (k : Z) : list Z := upto_tcp_sum ++ net_wr16 k ++ after_tcp_sum.

Context (Hold : is_bytes old_octets) (Hq : is_bytes q) (Hpay : is_bytes pay)
  (Hfl : fl = 0x10 ∨ fl = 0x18) (Hlen : 40 < 40 + blen (q ++ pay) <= 65535)
  (Hplain : plain (old_octets ++ q)).

Lemma parts_bytes : is_bytes upto_sum ∧ is_bytes addresses ∧ is_bytes upto_tcp_sum ∧ is_bytes after_tcp_sum.
Proof using Hold Hq Hpay Hfl.
  pose proof Hold as Hb. repeat (apply Forall_cons_1 in Hb as [? Hb]).
  assert (uint 8 fl) by (destruct Hfl as [-> | ->]; by split).
  split_and!; repeat apply bytes_app; auto with word; repeat apply Forall_cons_2; (done || constructor).
Qed.

Lemma segment_with_length k : blen (segment_with k) = 20 + blen (q ++ pay).
Proof.
  unfold segment_with. change (20 + blen (q ++ pay)) with (blen (repeat 0 20) + blen (q ++ pay)).
  by rewrite <- blen_app.
Qed.

Lemma rewritten_length k1 k2 : blen (header_with k1 ++ segment_with k2) = 40 + blen (q ++ pay).
Proof. rewrite blen_app, segment_with_length. change (blen (header_with k1)) with 20. lia. Qed.

(** With the right checksums the result is plain again. *)
Lemma rewritten_plain a b : net_rd32 (old_octets ++ q) 12 = Some a → net_rd32 (old_octets ++ q) 16 = Some b →
  let k1 := net_checksum (header_with 0) in
  let k2 := net_l4_checksum a b NET_PROTO_TCP (segment_with 0) in
  plain (header_with k1 ++ segment_with k2) ∧ is_bytes (header_with k1 ++ segment_with k2).
Proof using Hold Hq Hpay Hfl Hlen Hplain.
  intros Ha Hb k1 k2. destruct parts_bytes as (Hb1 & Hb2 & Hb3 & Hb4).
  destruct Hplain as [_ Hver _ Hfrag Hproto Hoff _ Hurg _ _].
  destruct (net_checksum_fills upto_sum addresses) as [Hk1 Hz1]; [by exists 5%nat | done | done | done |].
  destruct (l4_checksum_fills a b NET_PROTO_TCP upto_tcp_sum after_tcp_sum) as [Hk2 Hz2];
    [by exists 8%nat | done | done | fold (segment_with 0); rewrite segment_with_length; lia |].
  assert (is_bytes (header_with k1) ∧ is_bytes (segment_with k2)) as [Hbh Hbs]
    by (unfold header_with, segment_with; auto with word).
  split; [| by apply bytes_app]. set (r := header_with k1 ++ segment_with k2).
  assert (blen r = 40 + blen (q ++ pay)) as Hr by apply rewritten_length.
  split; try done.
  - lia.
  - rewrite Hr. apply (net_rd16_at r [a0; a1] _ ([a4; a5; a6; a7; a8; a9] ++ net_wr16 k1 ++ addresses
      ++ segment_with k2)); [done | done | split; lia].
  - change (get8 r 33) with (Some (w8 fl)). destruct Hfl as [-> | ->]; auto.
  - exists (header_with k1). split; [by apply (get_bytes_at _ [] _ (segment_with k2)) | exact Hz1].
  - exists a, b, (segment_with k2). split_and!; [exact Ha | exact Hb | | exact Hz2].
    apply (get_bytes_at _ (header_with k1) _ []); [by rewrite app_nil_r | done | | done].
    rewrite Hr, segment_with_length. lia.
Qed.

(** What the function writes, step by step. *)
Lemma rewriting a b : net_rd32 (old_octets ++ q) 12 = Some a → net_rd32 (old_octets ++ q) 16 = Some b →
  let n := 40 + blen (q ++ pay) in
  let k1 := net_checksum (header_with 0) in
  (d1 ← put_bytes ((old_octets ++ q) ++ pay) 33 [fl];
   d2 ← put_bytes d1 2 (net_wr16 (w16 n));
   d3 ← put_bytes d2 10 (net_wr16 0);
   hdr ← get_bytes d3 0 20;
   d4 ← put_bytes d3 10 (net_wr16 (net_checksum hdr));
   d5 ← put_bytes d4 36 (net_wr16 0);
   a' ← net_rd32 d5 12; b' ← net_rd32 d5 16; seg ← get_bytes d5 20 (n - 20);
   put_bytes d5 36 (net_wr16 (net_l4_checksum a' b' NET_PROTO_TCP seg)))
  = Some (header_with k1 ++ segment_with (net_l4_checksum a b NET_PROTO_TCP (segment_with 0))).
Proof using Hold Hq Hpay Hfl Hlen.
  intros Ha Hb n k1. destruct parts_bytes as (Hb1 & Hb2 & Hb3 & Hb4).
  assert (w16 n = n) as -> by (apply wrap_small; split; lia).
  set (tail := upto_tcp_sum ++ [a36; a37] ++ after_tcp_sum).
  rewrite (put_bytes_field _ [a0; a1; a2; a3; a4; a5; a6; a7; a8; a9; a10; a11; a12; a13; a14; a15; a16; a17; a18; a19; a20; a21; a22; a23; a24; a25; a26; a27; a28; a29; a30; a31; a32]
    [a33] ([a34; a35; a36; a37; a38; a39] ++ q ++ pay)) by done.
  cbn [mbind option_bind].
  rewrite (put_bytes_field _ [a0; a1] [a2; a3] ([a4; a5; a6; a7; a8; a9; a10; a11] ++ addresses ++ tail)) by done.
  cbn [mbind option_bind].
  rewrite (put_bytes_field _ upto_sum [a10; a11] (addresses ++ tail)) by done.
  cbn [mbind option_bind].
  assert (is_bytes (header_with 0)) as Hh by (unfold header_with; auto with word).
  rewrite (get_bytes_at _ [] (header_with 0) tail) by done. cbn [mbind option_bind].
  rewrite (put_bytes_field _ upto_sum (net_wr16 0) (addresses ++ tail)) by done.
  cbn [mbind option_bind]. fold k1.
  rewrite (put_bytes_field _ (header_with k1 ++ upto_tcp_sum) [a36; a37] after_tcp_sum) by done.
  cbn [mbind option_bind]. set (d5 := _ ++ _ ++ after_tcp_sum).
  change (net_rd32 d5 12) with (net_rd32 (old_octets ++ q) 12). rewrite Ha.
  change (net_rd32 d5 16) with (net_rd32 (old_octets ++ q) 16). rewrite Hb. cbn [mbind option_bind].
  rewrite (get_bytes_at d5 (header_with k1) (segment_with 0) [] 20).
  - cbn [mbind option_bind]. by apply (put_bytes_field _ (header_with k1 ++ upto_tcp_sum) (net_wr16 0) after_tcp_sum).
  - by rewrite app_nil_r.
  - done.
  - rewrite segment_with_length. lia.
  - unfold segment_with. auto with word.
Qed.
End rewritten.

(** ** The theorem *)

Lemma same_total a b off n : 0 <= off → 0 <= n → off + n <= blen a → off + n <= blen b →
  ∃ c, same_bytes a b off n = Some c.
Proof.
  intros. unfold same_bytes. destruct (get_bytes_inside a off n) as (? & -> & _); [done | done |].
  destruct (get_bytes_inside b off n) as (? & -> & _); [done | done |]. eauto.
Qed.

Lemma flags_of p : plain p → ∃ f, get8 p 33 = Some f ∧ (f = 0x10 ∨ f = 0x18).
Proof. intros Hp. destruct (pl_flags _ Hp); eauto. Qed.

Lemma split_octets p : is_bytes p → 40 <= blen p →
  ∃ h q, p = h ++ q ∧ length h = 40%nat ∧ blen p = 40 + blen q ∧ is_bytes h ∧ is_bytes q.
Proof.
  intros Hb Hp. exists (take 40 p), (drop 40 p). unfold blen in *.
  rewrite take_drop, length_take, length_drop.
  split_and!; [done | lia | lia | by apply Forall_take | by apply Forall_drop].
Qed.

Lemma octets_of h : length h = 40%nat → ∃ a0 a1 a2 a3 a4 a5 a6 a7 a8 a9 a10 a11 a12 a13 a14 a15 a16 a17 a18 a19 a20 a21 a22 a23 a24 a25 a26 a27 a28 a29 a30 a31 a32 a33 a34 a35 a36 a37 a38 a39,
  h = old_octets a0 a1 a2 a3 a4 a5 a6 a7 a8 a9 a10 a11 a12 a13 a14 a15 a16 a17 a18 a19 a20 a21 a22 a23 a24 a25 a26 a27 a28 a29 a30 a31 a32 a33 a34 a35 a36 a37 a38 a39.
Proof.
  intros Hh. do 40 (destruct h as [| ? h]; [discriminate |]). destruct h; [| discriminate].
  by repeat eexists.
Qed.

(** coalescing always returns.  When it merges, the result fits the capacity, is a plain
    data segment with the right length and checksums, comes from and goes to the same ports
    and addresses with the same sequence number and acknowledgement, and its payload is the
    two payloads in order; the second one was next in sequence. *)
Theorem coalesce_sound dst capacity next : is_bytes dst → is_bytes next →
  ∃ r, net_tcp_receive_coalesce dst capacity next = Some r ∧
    (r = [] ∨
     plain_tcp_data r = Some true ∧ is_bytes r ∧ blen r <= capacity
     ∧ take 20 (drop 12 r) = take 20 (drop 12 dst) ∧ drop 40 r = drop 40 dst ++ drop 40 next
     ∧ ∃ s, net_rd32 dst 24 = Some s ∧ net_rd32 next 24 = Some (s +w blen (drop 40 dst))).
Proof.
  intros Hbd Hbn. unfold net_tcp_receive_coalesce.
  destruct (Z.ltb_spec capacity (blen dst)) as [| Hcap]; [by eauto |].
  destruct (plain_total dst) as [ok1 E1]. destruct (plain_total next) as [ok2 E2]. rewrite E1, E2.
  cbn [mbind option_bind]. destruct ok1, ok2; cbn [andb negb]; [| by eauto ..].
  apply plain_spec in E1, E2. pose proof (pl_len _ E1). pose proof (pl_len _ E2).
  destruct (_ || _) eqn:Ebig; [by eauto |].
  apply orb_false_elim in Ebig as [?%Z.ltb_ge ?%Z.ltb_ge].
  destruct (same_total dst next 1 1) as [c1 ->]; [lia .. |].
  destruct (same_total dst next 8 1) as [c2 ->]; [lia .. |].
  destruct (same_total dst next 12 12) as [c3 ->]; [lia .. |].
  destruct (same_total dst next 28 4) as [c4 ->]; [lia .. |].
  destruct (same_total dst next 34 2) as [c5 ->]; [lia .. |].
  destruct (rd32_inside' dst 24) as (s & Es & Hs); [lia | lia |].
  destruct (rd32_inside' next 24) as (s' & Es' & _); [lia | lia |]. rewrite Es, Es'.
  cbn [mbind option_bind]. destruct (negb _) eqn:Ec; [by eauto |].
  apply negb_false_iff in Ec. rewrite !andb_true_iff, Z.eqb_eq in Ec. destruct Ec as [_ Eseq].
  rewrite get_bytes_drop by (done || lia). change (Z.to_nat 40) with 40%nat.
  destruct (flags_of dst E1) as (f1 & -> & Hf1). destruct (flags_of next E2) as (f2 & -> & Hf2).
  cbn [mbind option_bind].
  destruct (split_octets dst Hbd) as (h & q & -> & Hh & Hlen & Hbh & Hbq); [lia |].
  set (pay := drop 40 next).
  assert (blen pay = blen next - 40) as Hpay by (apply (blen_drop next 40); lia).
  destruct (rd32_inside' (h ++ q) 12) as (a & Ea & _); [lia | lia |].
  destruct (rd32_inside' (h ++ q) 16) as (b & Eb & _); [lia | lia |].
  set (fl := f1 .| f2).
  assert (fl = 0x10 ∨ fl = 0x18) as Hfl
    by (unfold fl; destruct Hf1 as [-> | ->], Hf2 as [-> | ->]; (by left) || by right).
  assert (is_bytes pay) as Hbp by (by apply Forall_drop).
  assert (blen ((h ++ q) ++ pay) = 40 + blen (q ++ pay)) as -> by (rewrite !blen_app in *; lia).
  assert (40 < 40 + blen (q ++ pay) <= 65535) as Hn by (rewrite blen_app; lia).
  destruct (octets_of h Hh) as (a0 & a1 & a2 & a3 & a4 & a5 & a6 & a7 & a8 & a9 & a10 & a11
  & a12 & a13 & a14 & a15 & a16 & a17 & a18 & a19 & a20 & a21 & a22 & a23 & a24 & a25 & a26
  & a27 & a28 & a29 & a30 & a31 & a32 & a33 & a34 & a35 & a36 & a37 & a38 & a39 & ->).
  pose proof (rewriting a0 a1 a2 a3 a4 a5 a6 a7 a8 a9 a10 a11 a12 a13 a14 a15 a16 a17 a18 a19 a20
    a21 a22 a23 a24 a25 a26 a27 a28 a29 a30 a31 a32 a33 a34 a35 a36 a37 a38 a39 q pay fl
    Hbh Hbq Hbp Hfl Hn a b Ea Eb) as Hw.
  destruct (rewritten_plain a0 a1 a2 a3 a4 a5 a6 a7 a8 a9 a10 a11 a12 a13 a14 a15 a16 a17 a18 a19 a20
    a21 a22 a23 a24 a25 a26 a27 a28 a29 a30 a31 a32 a33 a34 a35 a36 a37 a38 a39 q pay fl
    Hbh Hbq Hbp Hfl Hn E1 a b Ea Eb) as [Hp Hbr].
  eexists. split; [exact Hw |]. right. split_and!; [by apply plain_spec | exact Hbr | | done | done |].
  - rewrite rewritten_length, blen_app. rewrite Hlen in *. lia.
  - exists s. split; [done |]. rewrite Eseq, Hlen. change (drop 40 _) with q.
    do 2 f_equal. lia.
Qed.


(** ** A concrete host and guest *)

(** The host's sockets: what is still to be sent to the guest, what was taken from it. *)
Record demo_host := MkDemo { to_send : list Z; taken : list Z }.

#[export] Instance demo_egress : Egress demo_host := {|
  eg_open := Some (fun e _ _ _ => (0, e));
  eg_status := Some (fun e _ => (NET_ST_READY, e));
  eg_send := Some (fun e _ d => (blen d, MkDemo (to_send e) (taken e ++ d)));
  eg_recv := Some (fun e _ n =>
    let d := List.filter (fun x => (0 <=? x) && (x <? 256)) (take (Z.to_nat n) (to_send e)) in
    (blen d, d, MkDemo (drop (Z.to_nat n) (to_send e)) (taken e)));
  eg_shutdown_tx := None;
  eg_close := None;
  eg_resolve := Some (fun e _ => (NET_RES_NXDOMAIN, 0, e));
  eg_icmp_echo := None |}.

#[export] Instance demo_egress_ok : EgressOk demo_host.
Proof.
  split.
  - intros send e h d r e' [= <-] [= <- <-]. done.
  - intros recv e h n r d e' [= <-] [= <- <- <-] Hr.
    set (g := fun x => _) in *. set (l := take _ _) in *.
    assert (blen l <= Z.max 0 n) by (unfold blen, l; rewrite length_take; lia).
    assert (blen (List.filter g l) <= blen l) as Hl.
    { unfold blen. pose proof (List.filter_length_le g l). lia. }
    split_and!; [| done |].
    + lia.
    + apply List.Forall_forall. intros x [_ Hx]%List.filter_In. unfold g in Hx.
      apply andb_true_iff in Hx as [H1 H2]. apply Z.leb_le in H1. apply Z.ltb_lt in H2.
      by split.
  - intros res e n r a e' [= <-] [= <- <- <-]. by split.
Qed.

Definition demo_server : Z := 0x08080808.
(** A TCP segment of the guest, port 1234 to port 22 of [demo_server]. *)
Definition guest_segment (seq ack flags wnd : Z) (pay : list Z) : list Z :=
  let seg sum := tcp_header 1234 22 seq ack 0x50 flags wnd sum [] ++ pay in
  seg (net_l4_checksum (guest_ip net_config_default) demo_server NET_PROTO_TCP (seg 0)).
Definition guest_packet (proto dst : Z) (l4 : list Z) : list Z :=
  default [] (net_build_ipv4 NET_MTU (guest_ip net_config_default) dst proto 1 (blen l4)) ++ l4.
Definition guest_tcp (seq ack flags wnd : Z) (pay : list Z) : list Z :=
  guest_packet NET_PROTO_TCP demo_server (guest_segment seq ack flags wnd pay).

Definition demo_start (text : list Z) : net_stack demo_host :=
  net_init net_config_default (MkDemo text []).
(** What the guest does, and the clock. *)
Inductive demo_op := Pkt (pkt : list Z) | Tick (now : Z).
Definition demo_run (ops : list demo_op) (m : option (net_stack demo_host)) : option (net_stack demo_host) :=
  foldl (fun m o => ns ← m; match o with Pkt pkt => net_input pkt ns | Tick now => net_tick now ns end) m ops.

(** The stack's first initial sequence number, and the octets S, S, H. *)
Definition demo_iss : Z := 0x5335384c +w 0x9e3779b9.
Definition demo_text : list Z := [0x53; 0x53; 0x48].
Definition demo_syn : demo_op := Pkt (guest_tcp 1000 0 TCP_SYN 4096 []).
Definition demo_ack : demo_op := Pkt (guest_tcp 1001 (demo_iss + 1) TCP_ACK 4096 []).
Definition demo_after (ops : list demo_op) (text : list Z) : net_stack demo_host :=
  default (demo_start text) (demo_run ops (Some (demo_start text))).

(** ** The two streams of a flow, by sequence numbers

    RFC 9293: [y] comes after [x] when it is less than half the space ahead; a segment is
    heeded when it acknowledges, is neither SYN nor RST, does not acknowledge what was
    never sent, and, while our SYN is unacknowledged, acknowledges that. *)

Definition precedes (x y : Z) : Prop := 0 < (y - x) mod 2 ^ 32 <= 2 ^ 31.

Definition heeded (flags sack : Z) (t : net_tcb) : Prop :=
  Z.testbit flags 4 = true ∧ Z.testbit flags 2 = false ∧ Z.testbit flags 1 = false
  ∧ ¬ precedes (snd_max t) sack ∧ (state t = NET_TCP_SYN_RCVD → precedes (snd_una t) sack).

(** The sequence number of the first octet in the send buffer: the SYN has one of its own.
    [sack] acknowledges the octet [k] places further on. *)
Definition first_octet (t : net_tcb) : Z :=
  if bool_decide (state t = NET_TCP_SYN_RCVD) then snd_una t + 1 else snd_una t.
Definition confirms (sack : Z) (t : net_tcb) (k : Z) : Prop :=
  precedes (first_octet t) sack ∧ k < (sack - first_octet t) mod 2 ^ 32.

(** The octets of a payload at [sseq] from [rcv_nxt] on, as many as there is room for; none
    once the guest has closed its side. *)
Definition next_octets (sseq : Z) (pay : list Z) (t : net_tcb) : list Z :=
  let off := (rcv_nxt t - sseq) mod 2 ^ 32 in
  if tcp_guest_finished (state t) then []
  else if off <? blen pay then take (Z.to_nat (NET_TCP_RXBUF - blen (rxbuf t))) (drop (Z.to_nat off) pay)
  else [].

Lemma precedes_lt x y : precedes x y ↔ net_seq_lt x y = true.
Proof.
  rewrite seq_lt_dist, Z.leb_le. unfold precedes, w32, wrap.
  assert (y - x = - (x - y)) as -> by lia. pose proof (Z.mod_pos_bound (x - y) (2 ^ 32)).
  destruct (Z.eqb_spec ((x - y) mod 2 ^ 32) 0) as [E | E].
  - rewrite Z.mod_opp_l_z by (done || lia). rewrite E. lia.
  - rewrite Z.mod_opp_l_nz by (done || lia). lia.
Qed.

Lemma flag_bit flags k : 0 <= k → has_flag flags (2 ^ k) = Z.testbit flags k.
Proof.
  intros Hk. unfold has_flag. destruct (Z.testbit flags k) eqn:E.
  - apply negb_true_iff, Z.eqb_neq. intros Hz. apply (f_equal (fun x => Z.testbit x k)) in Hz.
    by rewrite Z.land_spec, Z.pow2_bits_true, E, Z.testbit_0_l in Hz by lia.
  - apply negb_false_iff, Z.eqb_eq, Z.bits_inj'. intros i Hi.
    rewrite Z.land_spec, Z.pow2_bits_eqb, Z.testbit_0_l by lia.
    destruct (Z.eqb_spec k i) as [-> |]; [by rewrite E | by rewrite andb_false_r].
Qed.

Lemma heeded_processed flags sack t : heeded flags sack t ↔ processed flags sack t = true.
Proof.
  unfold heeded, processed. change TCP_ACK with (2 ^ 4). change TCP_RST with (2 ^ 2). change TCP_SYN with (2 ^ 1).
  rewrite !precedes_lt, !flag_bit by done.
  rewrite !andb_true_iff, !negb_true_iff, andb_false_iff, bool_decide_eq_false, negb_false_iff, not_true_iff_false.
  split; [intros (? & ? & ? & ? & Hs) | intros [[[[? ?] ?] ?] Hs]]; split_and!; try done.
  - destruct (decide (state t = NET_TCP_SYN_RCVD)); auto.
  - by destruct Hs.
Qed.

Lemma next_accepted sseq pay t : uint 32 sseq → uint 32 (rcv_nxt t) → blen pay < 2 ^ 31 →
  next_octets sseq pay t = accepted sseq pay t.
Proof.
  intros Hs Hr Hl. unfold next_octets, accepted. cbv zeta. change ((rcv_nxt t - sseq) mod 2 ^ 32) with (rcv_nxt t -w sseq).
  pose proof (sub32_range (rcv_nxt t) sseq) as Hd. assert (0 <= blen pay) by (unfold blen; lia).
  destruct (Z.eqb_spec (blen pay) 0) as [E0 |]; cbn [orb].
  { rewrite E0, (proj2 (Z.ltb_ge _ _)) by lia. by case_match. }
  destruct (tcp_guest_finished _); [done |]. destruct (in_order sseq (blen pay) t) eqn:Ei.
  - rewrite (proj2 (Z.ltb_lt _ _)); [done |]. by apply (skip_range sseq (blen pay) t); [.. | lia | ].
  - destruct (Z.ltb_spec (rcv_nxt t -w sseq) (blen pay)) as [Hlt |]; [| done]. exfalso.
    unfold in_order in Ei. rewrite seq_le_dist, seq_lt_dist in Ei.
    rewrite andb_false_iff, orb_false_iff, Z.eqb_neq, !Z.leb_gt in Ei.
    assert (uint 32 (blen pay)) as Hn by (split; lia). pose proof Hs as []. pose proof Hr as [].
    pose proof (uint_w32 (sseq + blen pay)) as He.
    destruct (add32_cases sseq (blen pay) Hs Hn) as [[? E1] | [? E1]],
      (sub32_cases (rcv_nxt t) _ Hr He) as [[? E4] | [? E4]],
      (sub32_cases (rcv_nxt t) sseq Hr Hs) as [[? E2] | [? E2]],
      (sub32_cases sseq (rcv_nxt t) Hs Hr) as [[? E3] | [? E3]]; lia.
Qed.

Lemma confirmed_prefix sack t : (state t = NET_TCP_SYN_RCVD → txbuf t = []) →
  ∀ k, 0 <= k < blen (txbuf t) → k < acknowledged sack t ↔ confirms sack t k.
Proof.
  intros Hs k Hk. unfold confirms, first_octet. rewrite bool_decide_false.
  2: { intros E. rewrite Hs in Hk by done. change (blen []) with 0 in Hk. lia. }
  rewrite precedes_lt. unfold acknowledged.
  destruct (net_seq_lt (snd_una t) sack) eqn:El; [| split; [lia | by intros []]].
  change ((sack - snd_una t) mod 2 ^ 32) with (sack -w snd_una t). unfold txlen. split; [split; [done | lia] |].
  intros [_ ?]. lia.
Qed.

Section theorems.
Context {E : Type} `{EgressOk E}.
Implicit Types ns : net_stack E.

(** C35: whatever octets the guest sends and whatever the host's sockets do within their
    contract, every entry point of the network stack returns from every reachable stack: no
    read or write leaves a buffer and every loop ends.  Every flow keeps its sequence
    numbers in order, with at most the buffered octets and one for the SYN or FIN
    outstanding, and its buffers within their arrays. *)
Theorem net_stack_safe c ns : net_reachable c ns →
  (∀ pkt, is_bytes pkt → ∃ ns', net_input pkt ns = Some ns') ∧
  (∀ pkt now, is_bytes pkt → ∃ ns', net_input_at pkt now ns = Some ns') ∧
  (∀ now, ∃ ns', net_tick now ns = Some ns') ∧
  (∀ i, let t := the_tcb i ns in
    0 <= flight t <= reach t ∧ reach t <= txlen t + 1
    ∧ txlen t <= NET_TCP_TXBUF ∧ rxlen t <= NET_TCP_RXBUF) ∧
  net_output_pending ns <= NET_OUT_SLOTS.
Proof.
  intros Hr. pose proof (reachable_ok c ns Hr) as Hok. split_and!.
  - intros pkt Hb. destruct (safe_input pkt ns Hok Hb) as (? & ? & _). eauto.
  - intros pkt now Hb. destruct (safe_input_at pkt now ns Hok Hb) as (? & ? & _). eauto.
  - intros now. destruct (safe_tick now ns Hok) as (? & ? & _). eauto.
  - intros i t. destruct (ok_the_tcb i ns Hok) as [_ _ [Htx _] [Hrx _] _ [[Hf Hb] Hfin]].
    fold t in Htx, Hrx, Hf, Hb, Hfin. pose proof (txlen_nonneg t).
    pose proof (sub32_range (snd_nxt t) (snd_una t)) as Hn.
    change (snd_nxt t -w snd_una t) with (flight t) in Hn.
    assert (seq_bound t <= txlen t + 1) by (unfold seq_bound; destruct (state t); lia).
    split_and!; lia.
  - apply (s_ring ns Hok).
Qed.

(** C36: what the guest is handed.  The datagrams leave in the order they were queued, and each
    is one the guest's own input accepts: an unfragmented IPv4 datagram of its own length for
    the guest's address, whose header sum verifies by RFC 1071, holding an ICMP message, a
    TCP segment or a UDP datagram whose length fields agree and whose sum over pseudo-header
    and contents verifies. *)
Theorem guest_receives_valid c ns cap d ns' : net_reachable c ns → net_output cap ns = (d, ns') →
  d ≠ [] → queued ns = d :: queued ns' ∧ valid_datagram (guest_ip (cfg ns)) d.
Proof.
  intros Hr Ho Hne. destruct (output_spec cap ns d ns' (reachable_ok c ns Hr) Ho) as [_ [[-> _] | Hd]]; done.
Qed.

(** C34: one tick of a TCP flow implements two reliable streams.  There is a sequence of
    socket calls that leads from the old egress to the new one; if the flow survives, what
    the host sent in them was appended to the send buffer and what the host took was removed
    from the front of the receive buffer; every datagram queued carries the octets of the
    host's stream that belong at its sequence number; no other flow is touched. *)
Theorem tcp_tick_serves i ns : stack_ok ns → used (flow ns i) = true →
  ∃ ns' tr, net_tcp_tick i ns = Some ns' ∧ stack_ok ns' ∧ only i ns ns'
    ∧ host_run (handle (flow ns i)) (eg ns) tr (eg ns')
    ∧ (used (flow ns' i) = true →
       txbuf (the_tcb i ns') = txbuf (the_tcb i ns) ++ host_in tr
       ∧ rxbuf (the_tcb i ns) = host_out tr ++ rxbuf (the_tcb i ns')
       ∧ snd_una (the_tcb i ns') = snd_una (the_tcb i ns))
    ∧ ∃ new, queued ns' = queued ns ++ new ∧
        Forall (carries (snd_una (the_tcb i ns)) (txbuf (the_tcb i ns) ++ host_in tr)) new.
Proof.
  intros Hok Hu. destruct (good_tick i ns Hok Hu) as (ns' & E' & Hok' & tr & [_ _ _ Ho Hrun Hf Hq]).
  exists ns', tr. split_and!; try done. intros Hu'.
  destruct (Hf Hu') as (_ & _ & _ & ? & _ & ? & ?). done.
Qed.

(** What a segment with sequence [sseq], acknowledgement [sack] and payload [pay] does to
    the two streams of flow [i], the calls [tr] of the host's socket included.  Toward the
    host: the next octets are taken if the segment is heeded, and [rcv_nxt] counts them and
    a FIN.  Toward the guest: the send buffer splits into the octets that are confirmed and
    the rest; the rest stays and what the host sends follows it; and [snd_una] moves to the
    acknowledgement.  The host's data must not have overtaken our SYN: the code counts the
    SYN as an octet of any data already buffered ([early_host_data_loses_an_octet]). *)
Definition streams (i flags sseq sack : Z) (pay : list Z) ns (tr : list host_event) ns' : Prop :=
  only i ns ns' ∧ host_run (handle (flow ns i)) (eg ns) tr (eg ns') ∧
  (used (flow ns' i) = true →
   let t := the_tcb i ns in let t' := the_tcb i ns' in
   (∃ next, (heeded flags sack t → next = next_octets sseq pay t) ∧ (¬ heeded flags sack t → next = [])
      ∧ rxbuf t ++ next = host_out tr ++ rxbuf t'
      ∧ (rcv_nxt t' = (rcv_nxt t + blen next) mod 2 ^ 32
         ∨ Z.testbit flags 0 = true ∧ rcv_nxt t' = (rcv_nxt t + (blen next + 1)) mod 2 ^ 32))
   ∧ ((state t = NET_TCP_SYN_RCVD → txbuf t = []) →
      ∃ confirmed rest, txbuf t = confirmed ++ rest ∧ txbuf t' = rest ++ host_in tr
      ∧ ∀ k, 0 <= k < blen (txbuf t) → k < blen confirmed ↔ heeded flags sack t ∧ confirms sack t k)
   ∧ (heeded flags sack t ∧ precedes (snd_una t) sack → snd_una t' = sack)
   ∧ (¬ (heeded flags sack t ∧ precedes (snd_una t) sack) → snd_una t' = snd_una t)).

Lemma moves_streams i flags sseq sack pay ns tr ns' : stack_ok ns → uint 32 sseq → uint 32 sack →
  blen pay < 2 ^ 31 → moves i flags sseq sack pay ns tr ns' → streams i flags sseq sack pay ns tr ns'.
Proof.
  intros Hok Hss Hsa Hl (Ho & Hrun & Hm). split_and!; [done | done |]. intros Hu.
  specialize (Hm Hu). cbv zeta in *. pose proof (ok_the_tcb i ns Hok) as Ht. set (t := the_tcb i ns) in *.
  destruct Hm as (Hrx & Htx & Hna & Hrc). rewrite <- (next_accepted sseq pay t) in * by (done || apply (t_words t Ht)).
  pose proof (heeded_processed flags sack t) as Hh. pose proof (precedes_lt (snd_una t) sack) as Hpr.
  generalize dependent (heeded flags sack t). intros heard Hh. change TCP_FIN with (2 ^ 0) in Hrc. rewrite flag_bit in Hrc by done.
  split_and!.
  - eexists. split_and!; [| | exact Hrx | exact Hrc]; rewrite Hh; [by intros -> | by destruct (processed _ _ _)].
  - intros Hs. set (n := if processed flags sack t then acknowledged sack t else 0) in *.
    assert (0 <= n <= blen (txbuf t)) as Hn.
    { unfold n, acknowledged, txlen, blen. pose proof (sub32_range sack (snd_una t)). repeat case_match; lia. }
    exists (take (Z.to_nat n) (txbuf t)), (drop (Z.to_nat n) (txbuf t)). rewrite take_drop.
    split_and!; [done | done |]. intros k Hk. rewrite <- (confirmed_prefix sack t Hs k Hk).
    assert (blen (take (Z.to_nat n) (txbuf t)) = n) as -> by (unfold blen in *; rewrite length_take; lia).
    rewrite Hh. unfold n. destruct (processed flags sack t); [by split; [| intros []] |]. split; [lia | by intros []].
  - rewrite Hh, Hpr. intros [E1 E2]. by rewrite Hna, E1, E2.
  - rewrite Hh, Hpr. intros Hno. rewrite Hna. destruct (processed flags sack t), (net_seq_lt (snd_una t) sack); try done.
    by destruct Hno.
Qed.

(** C33: a segment for an existing flow.  If its acknowledgement is acceptable, the flow takes
    exactly the octets of its payload that come next and fit the receive buffer, skipping
    what it already has, and drops from the send buffer exactly the octets whose sequence
    numbers it acknowledges; otherwise it takes and drops nothing.  With what the host then
    accepts and sends, no octet of either stream is lost, repeated or reordered while the
    flow lives.  The send side is stated for a flow that buffered nothing before its SYN was
    acknowledged: data that was is numbered one too low, and its first octet is lost. *)
Theorem tcp_input_streams src dst seg b12 gport dport sseq sack flags pay i ns :
  stack_ok ns → uint 32 src → uint 32 dst → is_bytes seg → blen seg <= 65535 →
  sum_verifies (pseudo_sum src dst 6 (blen seg) + words seg) →
  get8 seg 12 = Some b12 → net_rd16 seg 0 = Some gport → net_rd16 seg 2 = Some dport →
  net_rd32 seg 4 = Some sseq → net_rd32 seg 8 = Some sack → get8 seg 13 = Some flags →
  TCP_HDR_LEN <= (b12 .>> 4) * 4 <= blen seg →
  pay = drop (Z.to_nat ((b12 .>> 4) * 4)) seg →
  net_flow_find NET_PROTO_TCP gport dst dport ns = Some i →
  ∃ ns' tr, net_tcp_input src dst seg ns = Some ns' ∧ stack_ok ns'
            ∧ streams i flags sseq sack pay ns tr ns'.
Proof.
  intros Hok Hs Hd Hb Hl Hck E12 E0 E2 E4 E8 E13 Hdoff -> Hf.
  apply (l4_verifies src dst NET_PROTO_TCP) in Hck; [| done | done | by split | done | done].
  unfold net_tcp_input. cbv zeta.
  unfold TCP_HDR_LEN in *. rewrite (proj2 (Z.ltb_ge _ _)) by lia.
  rewrite Hck. cbn [Z.eqb negb]. rewrite E12. cbn [mbind option_bind].
  rewrite !(proj2 (Z.ltb_ge _ _)) by lia. cbn [orb].
  rewrite E0, E2, E4, E8, E13. cbn [mbind option_bind].
  rewrite get_bytes_drop by (done || lia). cbn [mbind option_bind].
  change (net_flow_find NET_PROTO_TCP gport dst dport (bump_stat tcp_in_ 1 ns)) with
    (net_flow_find NET_PROTO_TCP gport dst dport ns). rewrite Hf.
  set (pay := drop (Z.to_nat ((b12 .>> 4) * 4)) seg).
  assert (blen pay < 2 ^ 31) as Hp by (unfold pay; rewrite blen_drop by lia; lia).
  assert (uint 32 sseq ∧ uint 32 sack) as [Hss Hsa].
  { destruct (rd32_inside' seg 4) as (v & E4' & Hv); [lia | lia |].
    destruct (rd32_inside' seg 8) as (v' & E8' & Hv'); [lia | lia |]. split; congruence. }
  destruct (for_flow_spec i dst flags sseq sack seg pay (bump_stat tcp_in_ 1 ns)) as (ns' & E' & Hok' & tr & Hm);
    try done.
  - by apply ok_bump.
  - exact (find_used _ _ _ _ _ _ Hf).
  - unfold TCP_HDR_LEN. lia.
  - by apply Forall_drop.
  - exists ns', tr. split_and!; [done | done |]. by apply moves_streams.
Qed.

(** the pump respects the windows.  What it adds to the octets in flight never reaches past
    the smaller of the guest's window and the congestion window, the FIN aside, and it
    always ends. *)
Theorem pump_within_windows i ns : stack_ok ns → used (flow ns i) = true →
  state (the_tcb i ns) ≠ NET_TCP_SYN_RCVD →
  ∃ ns', pump_data 34 i (tcp_inflight (the_tcb i ns)) ns = Some ns' ∧ stack_ok ns' ∧
    flight (the_tcb i ns')
      <= Z.max (flight (the_tcb i ns)) (Z.min (snd_wnd (the_tcb i ns)) (cwnd (the_tcb i ns))).
Proof.
  intros Hok Hu Hs. destruct (inflight_range _ (ok_the_tcb i ns Hok) Hs) as [Hn Hf].
  destruct (good_pump_data 34 i _ ns Hok Hu Hs Hn Hf ltac:(lia)) as (ns' & E' & Hok' & _ & _ & _ & Hw).
  by exists ns'.
Qed.
End theorems.

(** ** Witnesses *)

Definition octets (l : list Z) : bool := forallb (fun x => (0 <=? x) && (x <? 256)) l.
Lemma octets_bytes l : octets l = true → is_bytes l.
Proof.
  intros Hl. apply List.Forall_forall. intros x Hx.
  apply (proj1 (forallb_forall _ _) Hl), andb_true_iff in Hx as [H1 H2].
  apply Z.leb_le in H1. apply Z.ltb_lt in H2. by split.
Qed.

Definition demo_op_ok (o : demo_op) : bool := match o with Pkt pkt => octets pkt | Tick _ => true end.

Lemma run_reachable ops d0 : ∀ ns, net_reachable net_config_default ns → forallb demo_op_ok ops = true →
  net_reachable net_config_default (default d0 (demo_run ops (Some ns))).
Proof.
  induction ops as [| o ops IH]; intros ns Hr Hops; [done |].
  apply andb_true_iff in Hops as [Ho Hops]. unfold demo_run. cbn [foldl mbind option_bind].
  pose proof (reachable_ok _ ns Hr) as Hok. destruct o as [pkt | now].
  - apply octets_bytes in Ho. destruct (safe_input pkt ns Hok Ho) as (ns1 & E1 & _). rewrite E1.
    apply (IH ns1); [by eapply reach_input | done].
  - destruct (safe_tick now ns Hok) as (ns1 & E1 & _). rewrite E1.
    apply (IH ns1); [by eapply reach_tick | done].
Qed.

Lemma demo_reachable ops text : forallb demo_op_ok ops = true →
  net_reachable net_config_default (demo_after ops text).
Proof. apply run_reachable, reach_init. unfold cfg_ok. split_and!; by split. Qed.

(** The connection open, three octets in flight. *)
Definition demo_open : net_stack demo_host := demo_after [demo_syn; demo_ack; Tick 1] demo_text.
Lemma demo_open_reachable : net_reachable net_config_default demo_open.
Proof. apply demo_reachable. by vm_compute. Qed.

Lemma net_stack_safe_witness :
  ∃ ns', net_input (guest_tcp 1001 (demo_iss + 2) TCP_ACK 4096 [1; 2]) demo_open = Some ns'.
Proof.
  destruct (net_stack_safe net_config_default demo_open demo_open_reachable) as (Hin & _).
  apply Hin, octets_bytes. by vm_compute.
Defined.

Lemma guest_receives_valid_witness :
  valid_datagram (guest_ip net_config_default) (fst (net_output 1500 demo_open)).
Proof.
  assert (net_output 1500 demo_open ≠ ([], snd (net_output 1500 demo_open))) as Hne by by vm_compute.
  assert (cfg demo_open = net_config_default) as Ec by by vm_compute.
  destruct (net_output 1500 demo_open) as [d ns'] eqn:Ed. rewrite <- Ec.
  destruct (guest_receives_valid net_config_default demo_open 1500 d ns' demo_open_reachable Ed) as [_ Hv].
  - intros ->. by apply Hne.
  - exact Hv.
Defined.

Lemma tcp_tick_serves_witness :
  used (flow demo_open 0) = true ∧ ∃ ns', net_tcp_tick 0 demo_open = Some ns'.
Proof.
  assert (used (flow demo_open 0) = true) as Hu by by vm_compute.
  split; [exact Hu |].
  destruct (tcp_tick_serves 0 demo_open (reachable_ok _ _ demo_open_reachable) Hu) as (ns' & _ & E' & _).
  by exists ns'.
Defined.

(** The guest acknowledges one octet and sends two. *)
Definition demo_segment : list Z := guest_segment 1001 (demo_iss + 2) TCP_ACK 4096 [1; 2].
Lemma tcp_input_streams_witness : ∃ ns' tr,
  net_tcp_input (guest_ip net_config_default) demo_server demo_segment demo_open = Some ns'
  ∧ stack_ok ns' ∧ streams 0 TCP_ACK 1001 (demo_iss +w 2) [1; 2] demo_open tr ns'.
Proof.
  apply (tcp_input_streams (guest_ip net_config_default) demo_server demo_segment 0x50 1234 22).
  - exact (reachable_ok _ _ demo_open_reachable).
  - by vm_compute.
  - by vm_compute.
  - apply octets_bytes. by vm_compute.
  - by vm_compute.
  - by vm_compute.
  - by vm_compute.
  - by vm_compute.
  - by vm_compute.
  - by vm_compute.
  - by vm_compute.
  - by vm_compute.
  - by vm_compute.
  - by vm_compute.
  - by vm_compute.
Defined.

Lemma pump_within_windows_witness :
  ∃ ns', pump_data 34 0 (tcp_inflight (the_tcb 0 demo_open)) demo_open = Some ns'
    ∧ flight (the_tcb 0 ns') <= 2144.
Proof.
  destruct (pump_within_windows 0 demo_open (reachable_ok _ _ demo_open_reachable)) as (ns' & E' & _ & Hw).
  - by vm_compute.
  - by vm_compute.
  - exists ns'. split; [exact E' |].
    assert (Z.max (flight (the_tcb 0 demo_open))
              (Z.min (snd_wnd (the_tcb 0 demo_open)) (cwnd (the_tcb 0 demo_open))) = 2144) as E
      by by vm_compute.
    rewrite E in Hw. lia.
Defined.

(** Two consecutive segments merge. *)
Lemma coalesce_sound_witness :
  let a := guest_tcp 1000 7 0x18 4096 [1; 2; 3] in let b := guest_tcp 1003 7 0x10 4096 [4; 5] in
  ∃ r, net_tcp_receive_coalesce a 1500 b = Some r ∧ drop 40 r = [1; 2; 3; 4; 5]
    ∧ plain_tcp_data r = Some true.
Proof.
  destruct (coalesce_sound (guest_tcp 1000 7 0x18 4096 [1; 2; 3]) 1500 (guest_tcp 1003 7 0x10 4096 [4; 5]))
    as (r & E' & [-> | (Hp & _ & _ & _ & Hd & _)]).
  - apply octets_bytes. by vm_compute.
  - apply octets_bytes. by vm_compute.
  - exfalso. by vm_compute in E'.
  - exists r. split_and!; [exact E' | rewrite Hd; by vm_compute | exact Hp].
Defined.

(** ** Where the code departs from what it says *)

(** Host data read before the guest's SYN is acknowledged loses its first octet: of "SSH"
    the guest is sent "SSH" when it answers the SYN-ACK at once, and "SH" when a tick comes
    in between. *)
Lemma early_host_data_loses_an_octet :
  tcp_payload <$> queued (demo_after [demo_syn; demo_ack; Tick 1] demo_text) = [[]; demo_text]
  ∧ tcp_payload <$> queued (demo_after [demo_syn; Tick 1; demo_ack; Tick 2; Tick 3] demo_text)
    = [[]; drop 1 demo_text].
Proof. split; by vm_compute. Qed.

(** A guest that answers every probe of its closed window is aborted all the same. *)
Definition probe_round (k : Z) : list demo_op :=
  [Tick (40000 * k); Tick (40000 * k + 20000); Pkt (guest_tcp 1001 (demo_iss + 1) TCP_ACK 0 [])].
Lemma answered_probes_abort :
  let ops := demo_syn :: Pkt (guest_tcp 1001 (demo_iss + 1) TCP_ACK 0 []) :: flat_map probe_round (seqZ 1 9) in
  let ns := demo_after ops (repeat 0x41 100) in
  stats ns tcp_aborts_retransmit = 1 ∧ used (flow ns 0) = false
  ∧ stats ns tcp_retransmits = NET_TCP_RTX_MAX.
Proof. split_and!; by vm_compute. Qed.

(** The initial congestion window exceeds its ceiling for every segment size but 1460. *)
Lemma initial_window_above_ceiling sseq wnd mss t : 64 <= mss < NET_TCP_MSS_MAX →
  let t := syn_tcb sseq wnd mss 0 t in tcp_cwnd_ceiling t < cwnd t.
Proof.
  unfold NET_TCP_MSS_MAX. intros Hm. cbv zeta. unfold syn_tcb, tcp_cwnd_ceiling, tcp_initial_cwnd. cbn -[Z.mul w32].
  unfold NET_TCP_CWND_MAX_SEGMENTS, NET_TCP_TXBUF, w32. rewrite !wrap_small by (split; lia).
  destruct (Z.ltb_spec (3 * mss) (64 * 1024)), (Z.ltb_spec (2 * mss) 4380),
    (Z.ltb_spec (4 * mss) 4380), (Z.ltb_spec (4 * mss) (2 * mss)); lia.
Qed.

(** A name of 256 octets on the wire is accepted; the limit is 255. *)
Definition long_name : list Z := flat_map (fun n => n :: repeat 0x61 (Z.to_nat n)) [63; 63; 63; 62] ++ [0].
Lemma long_name_accepted :
  ∃ text, dns_name long_name NET_DNS_NAME = Some (Some (256, text)) ∧ blen long_name = 256.
Proof. eexists. split; by vm_compute. Qed.
