(* ===== verification/Uart.v ===== *)
(** * The serial ports

    [core/src/soc/uart.c]: the registers, the sixteen-byte receive FIFO with its counters,
    the latched interrupt causes, and the request line toward the DMA controller with its
    idle timeout.  The bytes the guest printed are the list [tx], whose length is
    [tx_len].  The receive path refines a queue with its own answers ([view_step]). *)

From S2P Require Import Prelude.

Definition UART_ULCON := 0x00.
Definition UART_UCON := 0x04.
Definition UART_UFCON := 0x08.
Definition UART_UMCON := 0x0c.
Definition UART_UTRSTAT := 0x10.
Definition UART_UERSTAT := 0x14.
Definition UART_UFSTAT := 0x18.
Definition UART_UMSTAT := 0x1c.
Definition UART_UTXH := 0x20.
Definition UART_URXH := 0x24.
Definition UART_UBRDIV := 0x28.
Definition UTRSTAT_RX_TIMEOUT := 0x008.
Definition UTRSTAT_RX_INT := 0x010.
Definition UART_TX_BUFFER := 8192.
Definition UART_RX_FIFO := 16.
Definition S5L_UART_RX_TIMEOUT_DISARMED := 0.
Definition S5L_UART_RX_TIMEOUT_ARMED := 1.
Definition S5L_UART_RX_TIMEOUT_RELEASED := 2.
Definition UTRSTAT_RX_READY := 1.
Definition UTRSTAT_TX_BUF_EMPTY := 2.
Definition UTRSTAT_TX_EMPTY := 4.
Definition UTRSTAT_LATCHED := 0x178.
Definition UCON_ENABLE_SHIFT := 8.
Definition UCON_RX_TIMEOUT_ENABLE := 0x80.
Definition UFSTAT_RX_FULL := 0x100.
Definition UFCON_FIFO_ENABLE := 1.
Definition UFCON_RX_TRIGGER_SHIFT := 4.
Definition UFCON_RX_TRIGGER_MASK := 3.

Record s5l_uart := MkUart {
  ulcon : Z; ucon : Z; ufcon : Z; umcon : Z; ubrdiv : Z; tx : list Z;
  rx_pushed : Z; rx_dropped : Z; rx_reads : Z; rx_underruns : Z;
  rx : Z → Z; rx_head : Z; rx_count : Z; rx_irq_suppressed : bool;
  rx_timeout_state : Z; utrstat_pending : Z }.

Definition u_ulcon (v : Z) (u : s5l_uart) : s5l_uart :=
  MkUart v (ucon u) (ufcon u) (umcon u) (ubrdiv u) (tx u) (rx_pushed u) (rx_dropped u) (rx_reads
    u) (rx_underruns u) (rx u) (rx_head u) (rx_count u) (rx_irq_suppressed u) (rx_timeout_state
    u) (utrstat_pending u).
Definition u_ucon (v : Z) (u : s5l_uart) : s5l_uart :=
  MkUart (ulcon u) v (ufcon u) (umcon u) (ubrdiv u) (tx u) (rx_pushed u) (rx_dropped u)
    (rx_reads u) (rx_underruns u) (rx u) (rx_head u) (rx_count u) (rx_irq_suppressed u)
    (rx_timeout_state u) (utrstat_pending u).
Definition u_ufcon (v : Z) (u : s5l_uart) : s5l_uart :=
  MkUart (ulcon u) (ucon u) v (umcon u) (ubrdiv u) (tx u) (rx_pushed u) (rx_dropped u) (rx_reads
    u) (rx_underruns u) (rx u) (rx_head u) (rx_count u) (rx_irq_suppressed u) (rx_timeout_state
    u) (utrstat_pending u).
Definition u_umcon (v : Z) (u : s5l_uart) : s5l_uart :=
  MkUart (ulcon u) (ucon u) (ufcon u) v (ubrdiv u) (tx u) (rx_pushed u) (rx_dropped u) (rx_reads
    u) (rx_underruns u) (rx u) (rx_head u) (rx_count u) (rx_irq_suppressed u) (rx_timeout_state
    u) (utrstat_pending u).
Definition u_ubrdiv (v : Z) (u : s5l_uart) : s5l_uart :=
  MkUart (ulcon u) (ucon u) (ufcon u) (umcon u) v (tx u) (rx_pushed u) (rx_dropped u) (rx_reads
    u) (rx_underruns u) (rx u) (rx_head u) (rx_count u) (rx_irq_suppressed u) (rx_timeout_state
    u) (utrstat_pending u).
Definition u_tx (v : list Z) (u : s5l_uart) : s5l_uart :=
  MkUart (ulcon u) (ucon u) (ufcon u) (umcon u) (ubrdiv u) v (rx_pushed u) (rx_dropped u)
    (rx_reads u) (rx_underruns u) (rx u) (rx_head u) (rx_count u) (rx_irq_suppressed u)
    (rx_timeout_state u) (utrstat_pending u).
Definition u_rx_pushed (v : Z) (u : s5l_uart) : s5l_uart :=
  MkUart (ulcon u) (ucon u) (ufcon u) (umcon u) (ubrdiv u) (tx u) v (rx_dropped u) (rx_reads u)
    (rx_underruns u) (rx u) (rx_head u) (rx_count u) (rx_irq_suppressed u) (rx_timeout_state u)
    (utrstat_pending u).
Definition u_rx_dropped (v : Z) (u : s5l_uart) : s5l_uart :=
  MkUart (ulcon u) (ucon u) (ufcon u) (umcon u) (ubrdiv u) (tx u) (rx_pushed u) v (rx_reads u)
    (rx_underruns u) (rx u) (rx_head u) (rx_count u) (rx_irq_suppressed u) (rx_timeout_state u)
    (utrstat_pending u).
Definition u_rx_reads (v : Z) (u : s5l_uart) : s5l_uart :=
  MkUart (ulcon u) (ucon u) (ufcon u) (umcon u) (ubrdiv u) (tx u) (rx_pushed u) (rx_dropped u) v
    (rx_underruns u) (rx u) (rx_head u) (rx_count u) (rx_irq_suppressed u) (rx_timeout_state u)
    (utrstat_pending u).
Definition u_rx_underruns (v : Z) (u : s5l_uart) : s5l_uart :=
  MkUart (ulcon u) (ucon u) (ufcon u) (umcon u) (ubrdiv u) (tx u) (rx_pushed u) (rx_dropped u)
    (rx_reads u) v (rx u) (rx_head u) (rx_count u) (rx_irq_suppressed u) (rx_timeout_state u)
    (utrstat_pending u).
Definition u_rx (v : Z → Z) (u : s5l_uart) : s5l_uart :=
  MkUart (ulcon u) (ucon u) (ufcon u) (umcon u) (ubrdiv u) (tx u) (rx_pushed u) (rx_dropped u)
    (rx_reads u) (rx_underruns u) v (rx_head u) (rx_count u) (rx_irq_suppressed u)
    (rx_timeout_state u) (utrstat_pending u).
Definition u_rx_head (v : Z) (u : s5l_uart) : s5l_uart :=
  MkUart (ulcon u) (ucon u) (ufcon u) (umcon u) (ubrdiv u) (tx u) (rx_pushed u) (rx_dropped u)
    (rx_reads u) (rx_underruns u) (rx u) v (rx_count u) (rx_irq_suppressed u) (rx_timeout_state
    u) (utrstat_pending u).
Definition u_rx_count (v : Z) (u : s5l_uart) : s5l_uart :=
  MkUart (ulcon u) (ucon u) (ufcon u) (umcon u) (ubrdiv u) (tx u) (rx_pushed u) (rx_dropped u)
    (rx_reads u) (rx_underruns u) (rx u) (rx_head u) v (rx_irq_suppressed u) (rx_timeout_state
    u) (utrstat_pending u).
Definition u_rx_irq_suppressed (v : bool) (u : s5l_uart) : s5l_uart :=
  MkUart (ulcon u) (ucon u) (ufcon u) (umcon u) (ubrdiv u) (tx u) (rx_pushed u) (rx_dropped u)
    (rx_reads u) (rx_underruns u) (rx u) (rx_head u) (rx_count u) v (rx_timeout_state u)
    (utrstat_pending u).
Definition u_rx_timeout_state (v : Z) (u : s5l_uart) : s5l_uart :=
  MkUart (ulcon u) (ucon u) (ufcon u) (umcon u) (ubrdiv u) (tx u) (rx_pushed u) (rx_dropped u)
    (rx_reads u) (rx_underruns u) (rx u) (rx_head u) (rx_count u) (rx_irq_suppressed u) v
    (utrstat_pending u).
Definition u_utrstat_pending (v : Z) (u : s5l_uart) : s5l_uart :=
  MkUart (ulcon u) (ucon u) (ufcon u) (umcon u) (ubrdiv u) (tx u) (rx_pushed u) (rx_dropped u)
    (rx_reads u) (rx_underruns u) (rx u) (rx_head u) (rx_count u) (rx_irq_suppressed u)
    (rx_timeout_state u) v.

Definition s5l_uart_reset : s5l_uart :=
  MkUart 0 0 0 0 0 [] 0 0 0 0 (fun _ => 0) 0 0 false 0 0.

Definition s5l_uart_set_rx_irq (enabled : bool) (u : s5l_uart) : s5l_uart :=
  u_rx_irq_suppressed (negb enabled) u.

Definition s5l_uart_rx_space (u : s5l_uart) : Z :=
  if UART_RX_FIFO <=? rx_count u then 0 else UART_RX_FIFO - rx_count u.

Definition rx_dma_watermark (u : s5l_uart) : Z :=
  if ufcon u .& UFCON_FIFO_ENABLE =? 0 then 1
  else 4 * (((ufcon u .>> UFCON_RX_TRIGGER_SHIFT) .& UFCON_RX_TRIGGER_MASK) + 1).

Definition s5l_uart_rx_dma_ready (u : s5l_uart) : bool :=
  negb (rx_count u =? 0)
  && ((rx_dma_watermark u <=? rx_count u)
      || (rx_timeout_state u =? S5L_UART_RX_TIMEOUT_RELEASED)).

Definition s5l_uart_rx_dma_idle (u : s5l_uart) : bool * s5l_uart :=
  if negb (rx_timeout_state u =? S5L_UART_RX_TIMEOUT_ARMED) || (rx_count u =? 0)
     || (rx_dma_watermark u <=? rx_count u) || (ucon u .& UCON_RX_TIMEOUT_ENABLE =? 0)
  then (false, u)
  else (true, u_utrstat_pending (utrstat_pending u .| UTRSTAT_RX_TIMEOUT)
                (u_rx_timeout_state S5L_UART_RX_TIMEOUT_RELEASED u)).

Definition utrstat_enables (u : s5l_uart) : Z := (ucon u .>> UCON_ENABLE_SHIFT) .& UTRSTAT_LATCHED.

Definition s5l_uart_rx_irq (u : s5l_uart) : bool :=
  if rx_irq_suppressed u then false else negb (utrstat_pending u .& utrstat_enables u =? 0).

Definition s5l_uart_rx_push (byte : Z) (u : s5l_uart) : bool * s5l_uart :=
  if UART_RX_FIFO <=? rx_count u then (false, u_rx_dropped (w64 (rx_dropped u + 1)) u)
  else
    let u := u_rx (<[(rx_head u + rx_count u) mod UART_RX_FIFO := byte]> (rx u)) u in
    let u := u_rx_count (w8 (rx_count u + 1)) u in
    let u := u_rx_pushed (w64 (rx_pushed u + 1)) u in
    let u := if rx_timeout_state u =? S5L_UART_RX_TIMEOUT_RELEASED then u
             else u_rx_timeout_state S5L_UART_RX_TIMEOUT_ARMED u in
    (true, u_utrstat_pending (utrstat_pending u .| UTRSTAT_RX_INT) u).

(** [UART_URXH]: the next byte of the FIFO. *)
Definition rx_pop (u : s5l_uart) : Z * s5l_uart :=
  if rx_count u =? 0 then (0, u_rx_underruns (w64 (rx_underruns u + 1)) u)
  else
    let b := rx u (rx_head u) in
    let u := u_rx_head (w8 ((rx_head u + 1) mod UART_RX_FIFO)) u in
    let u := u_rx_count (w8 (rx_count u - 1)) u in
    let u := u_rx_reads (w64 (rx_reads u + 1)) u in
    (b, if rx_count u =? 0 then u_rx_timeout_state S5L_UART_RX_TIMEOUT_DISARMED u else u).

Definition s5l_uart_read (off : Z) (u : s5l_uart) : Z * s5l_uart :=
  if off =? UART_ULCON then (ulcon u, u)
  else if off =? UART_UCON then (ucon u, u)
  else if off =? UART_UFCON then (ufcon u, u)
  else if off =? UART_UMCON then (umcon u, u)
  else if off =? UART_UBRDIV then (ubrdiv u, u)
  else if off =? UART_UTRSTAT then
    (((UTRSTAT_TX_EMPTY .| UTRSTAT_TX_BUF_EMPTY)
      .| (if rx_count u =? 0 then 0 else UTRSTAT_RX_READY)) .| utrstat_pending u, u)
  else if off =? UART_UERSTAT then (0, u)
  else if off =? UART_UFSTAT then
    ((rx_count u .& 0x0f) .| (if UART_RX_FIFO <=? rx_count u then UFSTAT_RX_FULL else 0), u)
  else if off =? UART_UMSTAT then (0, u)
  else if off =? UART_URXH then rx_pop u
  else (0, u).

Definition s5l_uart_write (off val : Z) (u : s5l_uart) : s5l_uart :=
  if off =? UART_ULCON then u_ulcon val u
  else if off =? UART_UCON then u_ucon val u
  else if off =? UART_UFCON then u_ufcon val u
  else if off =? UART_UMCON then u_umcon val u
  else if off =? UART_UBRDIV then u_ubrdiv val u
  else if off =? UART_UTXH then
    if Z.of_nat (length (tx u)) <? UART_TX_BUFFER - 1 then u_tx (tx u ++ [val .& 0xff]) u else u
  else if off =? UART_UTRSTAT then u_utrstat_pending (utrstat_pending u .& wnot val) u
  else u.

(** ** The port over time *)

(** What the guest, the host and the DMA engine may do. *)
Inductive uart_op :=
  | Push (byte : Z) | RegRead (off : Z) | RegWrite (off val : Z) | DmaIdle | SetIrq (enabled : bool).

(** The answer the caller sees, and the port after it. *)
Definition uart_step (o : uart_op) (u : s5l_uart) : Z * s5l_uart :=
  match o with
  | Push byte => let '(ok, u) := s5l_uart_rx_push byte u in (Z.b2z ok, u)
  | RegRead off => s5l_uart_read off u
  | RegWrite off val => (0, s5l_uart_write off val u)
  | DmaIdle => let '(ok, u) := s5l_uart_rx_dma_idle u in (Z.b2z ok, u)
  | SetIrq enabled => (0, s5l_uart_set_rx_irq enabled u)
  end.

(** The bytes the port took from the wire, and the bytes it handed to the guest. *)
Definition taken_by (o : uart_op) (u : s5l_uart) : list Z :=
  match o with Push byte => if UART_RX_FIFO <=? rx_count u then [] else [byte] | _ => [] end.
Definition handed_by (o : uart_op) (u : s5l_uart) : list Z :=
  match o with
  | RegRead off => if (off =? UART_URXH) && negb (rx_count u =? 0) then [fst (s5l_uart_read off u)] else []
  | _ => []
  end.

(** What a sequence of calls took and handed out, its answers, and the port after it. *)
Record uart_trace := MkTrace { t_in : list Z; t_out : list Z; t_answers : list Z; t_end : s5l_uart }.
Definition uart_run (ops : list uart_op) (u : s5l_uart) : uart_trace :=
  foldl (fun t o =>
    let '(a, u') := uart_step o (t_end t) in
    MkTrace (t_in t ++ taken_by o (t_end t)) (t_out t ++ handed_by o (t_end t)) (t_answers t ++ [a]) u')
    (MkTrace [] [] [] u) ops.

(** ** The receive path as a queue

    What the port promises, said without its ring: a list of at most sixteen bytes, the
    history of both its ends, and the two ways a caller can be turned away. *)
Record queue_view := MkView {
  v_queue : list Z; v_taken : list Z; v_handed : list Z; v_refused : Z; v_empty_reads : Z }.

Definition empty_view : queue_view := MkView [] [] [] 0 0.

(** The answer, where it concerns the queue, and the queue after the call. *)
Definition view_step (o : uart_op) (v : queue_view) : option Z * queue_view :=
  let q := v_queue v in
  match o with
  | Push byte =>
    if (length q <? 16)%nat
    then (Some 1, MkView (q ++ [byte]) (v_taken v ++ [byte]) (v_handed v) (v_refused v) (v_empty_reads v))
    else (Some 0, MkView q (v_taken v) (v_handed v) (v_refused v + 1) (v_empty_reads v))
  | RegRead 0x24 =>
    match q with
    | [] => (Some 0, MkView [] (v_taken v) (v_handed v) (v_refused v) (v_empty_reads v + 1))
    | byte :: q =>
      (Some byte, MkView q (v_taken v) (v_handed v ++ [byte]) (v_refused v) (v_empty_reads v))
    end
  | RegRead 0x18 => (Some (if (length q =? 16)%nat then 0x100 else Z.of_nat (length q)), v)
  | _ => (None, v)
  end.

Definition view_run (ops : list uart_op) : queue_view :=
  foldl (fun v o => snd (view_step o v)) empty_view ops.

(** The FIFO as a list, next byte first. *)
Definition fifo (u : s5l_uart) : list Z :=
  (fun k => rx u ((rx_head u + k) mod UART_RX_FIFO)) <$> seqZ 0 (rx_count u).

Record uart_ok (u : s5l_uart) : Prop := {
  o_head : 0 <= rx_head u < UART_RX_FIFO;
  o_count : 0 <= rx_count u <= UART_RX_FIFO;
  o_timeout : rx_count u = 0 ↔ rx_timeout_state u = S5L_UART_RX_TIMEOUT_DISARMED;
  o_state : 0 <= rx_timeout_state u <= 2;
  o_counters : uint 64 (rx_pushed u) ∧ uint 64 (rx_reads u);
  o_latch : utrstat_pending u .& wnot (UTRSTAT_RX_INT .| UTRSTAT_RX_TIMEOUT) = 0 }.

(** ** The FIFO *)

Lemma uart_reset_ok : uart_ok s5l_uart_reset.
Proof. by split. Qed.

Lemma w8_small x : 0 <= x < 256 → w8 x = x.
Proof. intros. by apply wrap_small. Qed.

Lemma push_spec b u : uart_ok u → rx_count u < UART_RX_FIFO →
  let u' := snd (s5l_uart_rx_push b u) in
  uart_ok u' ∧ fifo u' = fifo u ++ [b] ∧ rx_pushed u' = w64 (rx_pushed u + 1) ∧ rx_reads u' = rx_reads u.
Proof.
  intros [Hh Hc Ht Hs [Hn1 Hn2] Hl] Hlt. unfold UART_RX_FIFO in *. unfold s5l_uart_rx_push, UART_RX_FIFO.
  rewrite (proj2 (Z.leb_gt _ _)) by lia. cbn [snd].
  set (u0 := if _ =? _ then _ else _). cbv zeta.
  assert (∀ p, rx (u_utrstat_pending p u0) = <[(rx_head u + rx_count u) mod 16 := b]> (rx u)
    ∧ rx_head (u_utrstat_pending p u0) = rx_head u ∧ rx_count (u_utrstat_pending p u0) = rx_count u + 1
    ∧ rx_pushed (u_utrstat_pending p u0) = w64 (rx_pushed u + 1) ∧ rx_reads (u_utrstat_pending p u0) = rx_reads u
    ∧ rx_timeout_state (u_utrstat_pending p u0) ≠ 0 ∧ 0 <= rx_timeout_state (u_utrstat_pending p u0) <= 2) as Hu0.
  { intros p. unfold u0. cbn. rewrite w8_small by lia.
    destruct (Z.eqb_spec (rx_timeout_state u) S5L_UART_RX_TIMEOUT_RELEASED) as [E | E]; cbn;
      rewrite ?w8_small by lia; unfold S5L_UART_RX_TIMEOUT_RELEASED in *; split_and!; (done || lia). }
  destruct (Hu0 (utrstat_pending u .| UTRSTAT_RX_INT)) as (E1 & E2 & E3 & E4 & E5 & E6 & E7).
  assert (utrstat_pending u0 = utrstat_pending u) as -> by (unfold u0; by case_match).
  split_and!; [| | done | done].
  - split; rewrite ?E2, ?E3; unfold UART_RX_FIFO, S5L_UART_RX_TIMEOUT_DISARMED; [lia | lia | | lia | |].
    + split; intros; [lia | done].
    + rewrite E4, E5. split; [apply uint_w64 | done].
    + cbn [utrstat_pending u_utrstat_pending]. rewrite Z.land_lor_distr_l, Hl. done.
  - unfold fifo, UART_RX_FIFO. rewrite E1, E2, E3, seqZ_app, fmap_app by lia.
    change (seqZ (0 + rx_count u) 1) with [0 + rx_count u]. f_equal.
    + apply list_fmap_ext. intros k x [-> Hk]%lookup_seqZ. apply fn_lookup_insert_ne.
      intros E. pose proof (Z.div_mod (rx_head u + rx_count u) 16 ltac:(lia)).
      pose proof (Z.div_mod (rx_head u + (0 + Z.of_nat k)) 16 ltac:(lia)). lia.
    + cbn [fmap list_fmap]. by rewrite Z.add_0_l, fn_lookup_insert.
Qed.

Lemma pop_spec u : uart_ok u → rx_count u ≠ 0 →
  let u' := snd (rx_pop u) in
  uart_ok u' ∧ fifo u = fst (rx_pop u) :: fifo u' ∧ rx_reads u' = w64 (rx_reads u + 1)
  ∧ rx_pushed u' = rx_pushed u ∧ rx_count u' = rx_count u - 1
  ∧ (rx_count u' ≠ 0 → rx_timeout_state u' = rx_timeout_state u).
Proof.
  intros [Hh Hc Ht Hs [Hn1 Hn2] Hl] Hne. unfold UART_RX_FIFO in *. unfold rx_pop.
  rewrite (proj2 (Z.eqb_neq _ _)) by done. cbn [fst snd]. cbv zeta.
  set (u1 := u_rx_reads _ _). unfold UART_RX_FIFO in u1.
  pose proof (Z.mod_pos_bound (rx_head u + 1) 16 ltac:(lia)) as Hm.
  set (u' := if _ =? _ then _ else _).
  assert (rx u' = rx u ∧ rx_head u' = (rx_head u + 1) mod 16 ∧ rx_count u' = rx_count u - 1
    ∧ rx_reads u' = w64 (rx_reads u + 1) ∧ rx_pushed u' = rx_pushed u ∧ utrstat_pending u' = utrstat_pending u
    ∧ (rx_timeout_state u' = if rx_count u - 1 =? 0 then 0 else rx_timeout_state u)) as (E1 & E2 & E3 & E4 & E5 & E6 & E7).
  { unfold u'. replace (rx_count u1) with (rx_count u - 1) by (symmetry; apply (w8_small (rx_count u - 1)); lia).
    assert (rx_head u1 = (rx_head u + 1) mod 16) as Eh by (apply (w8_small ((rx_head u + 1) mod 16)); lia).
    assert (rx_count u1 = rx_count u - 1) as Ec by (apply (w8_small (rx_count u - 1)); lia).
    by destruct (rx_count u - 1 =? 0). }
  split_and!; [| | done | done | done |].
  - split; rewrite ?E2, ?E3, ?E6, ?E7; unfold UART_RX_FIFO, S5L_UART_RX_TIMEOUT_DISARMED in *; [lia | lia | | | | done].
    + destruct (Z.eqb_spec (rx_count u - 1) 0); [done |]. split; [lia |]. intros E. apply Ht in E. lia.
    + case_match; lia.
    + rewrite E4, E5. split; [done | apply uint_w64].
  - unfold fifo, UART_RX_FIFO. rewrite E1, E2, E3, (seqZ_cons 0 (rx_count u)) by lia. cbn [fmap list_fmap].
    rewrite Z.add_0_r, (Z.mod_small (rx_head u)) by lia. f_equal. change (Z.succ 0) with 1.
    rewrite <- (fmap_add_seqZ 1 0), <- list_fmap_compose. replace (Z.pred (rx_count u)) with (rx_count u - 1) by lia.
    apply list_fmap_ext. intros k x _. cbn. f_equal. rewrite Zplus_mod_idemp_l. f_equal. lia.
  - intros Hn. rewrite E7, (proj2 (Z.eqb_neq _ _)); [done | lia].
Qed.

Lemma read_keeps off u : off ≠ UART_URXH → snd (s5l_uart_read off u) = u.
Proof.
  intros Hne. unfold s5l_uart_read.
  rewrite (proj2 (Z.eqb_neq off UART_URXH) Hne). by repeat case_match.
Qed.

(** A register write moves neither the FIFO nor its timeout. *)
Lemma write_spec off val u : uart_ok u →
  let u' := s5l_uart_write off val u in
  uart_ok u' ∧ fifo u' = fifo u ∧ rx_pushed u' = rx_pushed u ∧ rx_reads u' = rx_reads u.
Proof.
  intros Hok. unfold s5l_uart_write. destruct (off =? UART_UTRSTAT) eqn:E.
  - apply Z.eqb_eq in E as ->. cbn. split_and!; try done. destruct Hok as [? ? ? ? ? Hl]. split; try done.
    cbn. apply Z.bits_inj'. intros i Hi. apply (f_equal (fun z => Z.testbit z i)) in Hl.
    rewrite !Z.land_spec, Z.testbit_0_l in *. destruct (Z.testbit (utrstat_pending u) i); [| done].
    cbn in *. by rewrite Hl, andb_false_r.
  - cbv zeta. repeat case_match; by destruct Hok.
Qed.

Lemma idle_spec u : uart_ok u →
  let '(ok, u') := s5l_uart_rx_dma_idle u in
  uart_ok u' ∧ fifo u' = fifo u ∧ rx_pushed u' = rx_pushed u ∧ rx_reads u' = rx_reads u
  ∧ (ok = true → s5l_uart_rx_dma_ready u = false ∧ s5l_uart_rx_dma_ready u' = true
                 ∧ rx_timeout_state u' = S5L_UART_RX_TIMEOUT_RELEASED).
Proof.
  intros Hok. unfold s5l_uart_rx_dma_idle, s5l_uart_rx_dma_ready.
  destruct (Z.eqb_spec (rx_timeout_state u) S5L_UART_RX_TIMEOUT_ARMED) as [Ea |]; [| done].
  destruct (Z.eqb_spec (rx_count u) 0) as [| Ec]; [done |].
  destruct (rx_dma_watermark u <=? rx_count u) eqn:Ew; [done |].
  destruct (_ =? 0); [done |]. cbn -[Z.lor]. rewrite Ea, orb_true_r, (proj2 (Z.eqb_neq _ _) Ec).
  split_and!; try done. destruct Hok as [? ? Ht ? ? Hl]. split; try done.
  cbn [utrstat_pending u_utrstat_pending u_rx_timeout_state]. rewrite Z.land_lor_distr_l, Hl. done.
Qed.

Lemma w64_keep x : uint 64 x → x = w64 (x + 0).
Proof. intros. rewrite Z.add_0_r. symmetry. by apply wrap_small. Qed.

Lemma step_spec o u : uart_ok u →
  let u' := snd (uart_step o u) in
  uart_ok u' ∧ fifo u ++ taken_by o u = handed_by o u ++ fifo u'
  ∧ rx_pushed u' = w64 (rx_pushed u + Z.of_nat (length (taken_by o u)))
  ∧ rx_reads u' = w64 (rx_reads u + Z.of_nat (length (handed_by o u))).
Proof.
  intros Hok u'. destruct (o_counters u Hok) as [Hn1 Hn2].
  assert (∀ v, uart_ok v → fifo v = fifo u → rx_pushed v = rx_pushed u → rx_reads v = rx_reads u →
    uart_ok v ∧ fifo u ++ [] = [] ++ fifo v ∧ rx_pushed v = w64 (rx_pushed u + 0)
    ∧ rx_reads v = w64 (rx_reads u + 0)) as Hsame.
  { intros v Hv -> -> ->. rewrite app_nil_r. split_and!; try done; by apply w64_keep. }
  destruct o as [byte | off | off val | | enabled]; unfold u'; cbn [uart_step taken_by handed_by].
  - destruct (Z.leb_spec UART_RX_FIFO (rx_count u)) as [Hge | Hlt].
    + unfold s5l_uart_rx_push. rewrite (proj2 (Z.leb_le _ _) Hge). cbn [snd length].
      apply Hsame; try done. by destruct Hok.
    + pose proof (push_spec byte u Hok Hlt) as Hs. destruct (s5l_uart_rx_push byte u) as [ok v].
      cbv zeta in Hs. cbn [snd length] in *. destruct Hs as (? & -> & Hp & Hr).
      split_and!; [done | done | done |].
      rewrite Hr. by apply w64_keep.
  - destruct (Z.eqb_spec off UART_URXH) as [-> | Hne]; cbn [andb].
    + change (s5l_uart_read UART_URXH u) with (rx_pop u). destruct (Z.eqb_spec (rx_count u) 0) as [E | Hc]; cbn [negb].
      * unfold rx_pop. rewrite (proj2 (Z.eqb_eq _ _) E). cbn [snd length].
        apply Hsame; try done. by destruct Hok.
      * destruct (pop_spec u Hok Hc) as (? & -> & Hr & Hp & _). rewrite app_nil_r. cbn [length].
        split_and!; try done. rewrite Hp. by apply w64_keep.
    + rewrite read_keeps by done. by apply Hsame.
  - destruct (write_spec off val u Hok) as (? & ? & ? & ?). by apply Hsame.
  - pose proof (idle_spec u Hok) as Hi. destruct (s5l_uart_rx_dma_idle u) as [ok v].
    destruct Hi as (? & ? & ? & ? & _). by apply Hsame.
  - apply Hsame; try done. by destruct Hok.
Qed.

Definition trace_ok (t : uart_trace) : Prop :=
  uart_ok (t_end t) ∧ t_in t = t_out t ++ fifo (t_end t)
  ∧ rx_pushed (t_end t) = w64 (Z.of_nat (length (t_in t)))
  ∧ rx_reads (t_end t) = w64 (Z.of_nat (length (t_out t))).

Lemma w64_add a b : w64 (w64 a + b) = w64 (a + b).
Proof. unfold w64, wrap. by rewrite Zplus_mod_idemp_l. Qed.

Lemma run_ok ops u : trace_ok (MkTrace [] [] [] u) → trace_ok (uart_run ops u).
Proof.
  unfold uart_run. generalize (MkTrace [] [] [] u). induction ops as [| o ops IH]; intros t Ht; [done |].
  cbn [foldl]. apply IH. destruct Ht as (Hok & Hq & Hp & Hr). pose proof (step_spec o (t_end t) Hok) as Hs.
  destruct (uart_step o (t_end t)) as [a u']. cbv zeta in Hs. cbn [snd] in Hs. destruct Hs as (? & Hf & Hp' & Hr').
  split_and!; cbn [t_end t_in t_out]; [done | | |].
  - by rewrite Hq, <- !app_assoc, Hf.
  - by rewrite Hp', Hp, w64_add, length_app, Nat2Z.inj_add.
  - by rewrite Hr', Hr, w64_add, length_app, Nat2Z.inj_add.
Qed.

Lemma reset_trace_ok : trace_ok (MkTrace [] [] [] s5l_uart_reset).
Proof. by split_and!. Qed.

Lemma fifo_length u : uart_ok u → Z.of_nat (length (fifo u)) = rx_count u.
Proof. intros [_ [? ?] _ _ _ _]. unfold fifo. rewrite length_fmap, length_seqZ. lia. Qed.

(** The calls that are turned away, and the only ones that move those counters. *)
Lemma step_turned_away o u :
  let u' := snd (uart_step o u) in
  rx_dropped u' = (match o with
    | Push _ => if UART_RX_FIFO <=? rx_count u then w64 (rx_dropped u + 1) else rx_dropped u
    | _ => rx_dropped u end)
  ∧ rx_underruns u' = (match o with
    | RegRead off => if (off =? UART_URXH) && (rx_count u =? 0) then w64 (rx_underruns u + 1) else rx_underruns u
    | _ => rx_underruns u end).
Proof.
  destruct o as [byte | off | off val | | e]; cbv zeta; cbn [uart_step].
  - unfold s5l_uart_rx_push. destruct (_ <=? _); [done |]. cbv zeta. cbn [snd].
    by destruct (rx_timeout_state _ =? _).
  - destruct (Z.eqb_spec off UART_URXH) as [-> | Hne]; cbn [andb]; [| by rewrite read_keeps].
    change (s5l_uart_read UART_URXH u) with (rx_pop u). unfold rx_pop. destruct (rx_count u =? 0); [done |].
    cbv zeta. cbn [snd]. by destruct (rx_count _ =? 0).
  - unfold s5l_uart_write. by repeat case_match.
  - unfold s5l_uart_rx_dma_idle. by destruct (_ || _).
  - done.
Qed.

Lemma status_of_count n : 0 <= n <= 16 →
  (n .& 0x0f) .| (if UART_RX_FIFO <=? n then UFSTAT_RX_FULL else 0) = if n =? 16 then 0x100 else n.
Proof.
  intros Hn. assert (Z.to_nat n <= 16)%nat as Hk by lia. rewrite <- (Z2Nat.id n) by lia.
  generalize dependent (Z.to_nat n). clear. intros k Hk.
  do 17 (destruct k as [| k]; [done |]). lia.
Qed.

(** The answer is the one promised, where one is. *)
Definition answered (promised : option Z) (a : Z) : Prop :=
  match promised with Some x => a = x | None => True end.

(** The port shows the queue. *)
Record views (u : s5l_uart) (v : queue_view) : Prop := {
  vw_ok : uart_ok u;
  vw_queue : fifo u = v_queue v;
  vw_order : v_taken v = v_handed v ++ v_queue v;
  vw_pushed : rx_pushed u = w64 (Z.of_nat (length (v_taken v)));
  vw_reads : rx_reads u = w64 (Z.of_nat (length (v_handed v)));
  vw_dropped : rx_dropped u = w64 (v_refused v);
  vw_underruns : rx_underruns u = w64 (v_empty_reads v) }.

Lemma views_reset : views s5l_uart_reset empty_view.
Proof. by split. Qed.

(** The calls [view_step] says nothing of. *)
Lemma view_step_other o v :
  match o with Push _ => False | RegRead off => off ≠ UART_URXH ∧ off ≠ UART_UFSTAT | _ => True end →
  view_step o v = (None, v).
Proof.
  destruct o as [b | off | off val | | e]; try done. unfold UART_URXH, UART_UFSTAT. intros [H1 H2]. cbn.
  by repeat case_match.
Qed.

Lemma views_same u u' v : views u v → uart_ok u' → fifo u' = fifo u → rx_pushed u' = rx_pushed u →
  rx_reads u' = rx_reads u → rx_dropped u' = rx_dropped u → rx_underruns u' = rx_underruns u → views u' v.
Proof. intros [] ? ? ? ? ? ?. split; congruence. Qed.

Lemma view_push b u v : views u v → let '(ok, u') := s5l_uart_rx_push b u in
  views u' (snd (view_step (Push b) v)) ∧ fst (view_step (Push b) v) = Some (Z.b2z ok).
Proof.
  intros Hv. pose proof (vw_ok _ _ Hv) as Hok. pose proof (fifo_length u Hok) as Hl. rewrite (vw_queue _ _ Hv) in Hl.
  pose proof (step_turned_away (Push b) u) as [Hd Hu]. pose proof (push_spec b u Hok) as Hs.
  cbv zeta in Hs. cbn [uart_step] in Hd, Hu.
  assert (snd (let '(ok, u) := s5l_uart_rx_push b u in (Z.b2z ok, u)) = snd (s5l_uart_rx_push b u)) as Ep
    by (by destruct (s5l_uart_rx_push b u)). rewrite Ep in Hd, Hu. clear Ep.
  unfold s5l_uart_rx_push in *. cbn [view_step uart_step] in *. unfold UART_RX_FIFO in *.
  destruct (Z.leb_spec 16 (rx_count u)) as [Hge | Hlt]; cbn [snd] in *.
  - rewrite (proj2 (Nat.ltb_ge _ _)) by lia. split; [| done]. destruct Hv as [[] ? ? ? ? E ?]. split; try done.
    cbn [rx_dropped u_rx_dropped]. by rewrite E, w64_add.
  - rewrite (proj2 (Nat.ltb_lt _ _)) by lia. destruct (Hs Hlt) as (Hok' & Hf & Hp & Hr).
    split; [| done]. destruct Hv as [_ Hq Ho Ep Er Ed Eu]. split; cbn [v_queue v_taken v_handed v_refused v_empty_reads snd].
    + done. + by rewrite Hf, Hq. + by rewrite Ho, app_assoc.
    + by rewrite Hp, Ep, w64_add, length_app, Nat2Z.inj_add.
    + by rewrite Hr. + by rewrite Hd. + by rewrite Hu.
Qed.

Lemma view_pop u v : views u v →
  views (snd (rx_pop u)) (snd (view_step (RegRead UART_URXH) v))
  ∧ fst (view_step (RegRead UART_URXH) v) = Some (fst (rx_pop u)).
Proof.
  intros Hv. pose proof (vw_ok _ _ Hv) as Hok. pose proof (step_turned_away (RegRead UART_URXH) u) as [Hd Hu].
  change (uart_step (RegRead UART_URXH) u) with (rx_pop u) in *. rewrite Z.eqb_refl in Hu. cbn [andb] in Hu.
  cbn [view_step UART_URXH]. destruct (Z.eqb_spec (rx_count u) 0) as [E | Hc].
  - pose proof (fifo_length u Hok) as Hl. rewrite (vw_queue _ _ Hv), E in Hl.
    destruct Hv as [[] Hq ? ? ? ? Eu]. destruct (v_queue v) eqn:Eq; [| done].
    unfold rx_pop in *. rewrite (proj2 (Z.eqb_eq _ _) E) in *. split; [| done].
    split; try done. cbn [rx_underruns u_rx_underruns snd v_empty_reads]. by rewrite Eu, w64_add.
  - destruct (pop_spec u Hok Hc) as (Hok' & Hf & Hr & Hp & _). destruct Hv as [_ Hq Ho Ep Er Ed Eu].
    rewrite <- Hq, Hf in Ho |- *. split; [| done].
    split; cbn [v_queue v_taken v_handed v_refused v_empty_reads snd]; try congruence.
    + by rewrite Ho, <- app_assoc.
    + by rewrite Hr, Er, w64_add, length_app, Nat2Z.inj_add.
Qed.

(** Every call keeps the port and the queue together, and answers what the queue says. *)
Lemma step_views o u v : views u v →
  views (snd (uart_step o u)) (snd (view_step o v))
  ∧ answered (fst (view_step o v)) (fst (uart_step o u)).
Proof.
  intros Hv. pose proof (vw_ok _ _ Hv) as Hok.
  pose proof (step_turned_away o u) as [Hd Hu].
  destruct o as [byte | off | off val | | e]; cbn [uart_step] in Hd, Hu |- *.
  - pose proof (view_push byte u v Hv) as Hp. destruct (s5l_uart_rx_push byte u) as [ok u'].
    destruct Hp as [? E]. by rewrite E.
  - destruct (decide (off = UART_URXH)) as [-> | Hx].
    { destruct (view_pop u v Hv) as [? E]. by rewrite E. }
    rewrite read_keeps by done. destruct (decide (off = UART_UFSTAT)) as [-> | Hs].
    + split; [done |]. cbn [view_step UART_UFSTAT fst answered].
      change (s5l_uart_read 0x18 u) with (s5l_uart_read UART_UFSTAT u). unfold s5l_uart_read.
      cbn [Z.eqb Pos.eqb UART_UFSTAT UART_ULCON UART_UCON UART_UFCON UART_UMCON UART_UBRDIV UART_UTRSTAT UART_UERSTAT fst].
      destruct (o_count u Hok). rewrite status_of_count by done.
      rewrite <- (fifo_length u Hok), <- (vw_queue _ _ Hv).
      destruct (Nat.eqb_spec (length (fifo u)) 16), (Z.eqb_spec (Z.of_nat (length (fifo u))) 16); lia.
    + by rewrite view_step_other.
  - rewrite view_step_other by done. destruct (write_spec off val u Hok) as (? & ? & ? & ?).
    split; [by eapply views_same | done].
  - rewrite view_step_other by done. pose proof (idle_spec u Hok) as Hi.
    destruct (s5l_uart_rx_dma_idle u) as [ok u']. destruct Hi as (? & ? & ? & ? & _).
    split; [by eapply views_same | done].
  - rewrite view_step_other by done. split; [| done]. destruct Hok. by eapply views_same.
Qed.

Lemma run_views ops : views (t_end (uart_run ops s5l_uart_reset)) (view_run ops).
Proof.
  unfold uart_run, view_run. assert (views (t_end (MkTrace [] [] [] s5l_uart_reset)) empty_view) as H0 by apply views_reset.
  revert H0. generalize (MkTrace [] [] [] s5l_uart_reset), empty_view.
  induction ops as [| o ops IH]; intros t v Hv; [done |]. cbn [foldl]. apply IH.
  destruct (step_views o (t_end t) v Hv) as [Hs _]. by destruct (uart_step o (t_end t)).
Qed.

(** C10: the receive path is a bounded queue.  Whatever the host pushes and whatever the
    guest does to the registers, the port is a queue of at most sixteen bytes ([view_step]):
    the bytes read from [URXH] followed by those still buffered are the bytes accepted, in
    order; the next push is accepted exactly while fewer than sixteen are buffered, [URXH]
    answers the oldest byte, [UFSTAT] the count with its full flag, and bit 0 of [UTRSTAT]
    is up exactly while the queue is not empty; and the four counters count the bytes
    accepted and read and the pushes and reads that were turned away. *)
Theorem uart_fifo_refines ops :
  let u := t_end (uart_run ops s5l_uart_reset) in
  let v := view_run ops in
  fifo u = v_queue v ∧ v_taken v = v_handed v ++ v_queue v ∧ (length (v_queue v) <= 16)%nat
  ∧ s5l_uart_rx_space u = 16 - Z.of_nat (length (v_queue v))
  ∧ bit (fst (s5l_uart_read UART_UTRSTAT u)) 0 = negb (bool_decide (v_queue v = []))
  ∧ (∀ o, answered (fst (view_step o v)) (fst (uart_step o u)))
  ∧ rx_pushed u = w64 (Z.of_nat (length (v_taken v))) ∧ rx_reads u = w64 (Z.of_nat (length (v_handed v)))
  ∧ rx_dropped u = w64 (v_refused v) ∧ rx_underruns u = w64 (v_empty_reads v).
Proof.
  intros u v. pose proof (run_views ops) as Hv. fold u v in Hv. pose proof (fifo_length u (vw_ok _ _ Hv)) as El.
  pose proof Hv as [Hok Hq Ho Hp Hr Hd Hu]. destruct (o_count _ Hok) as [H1 H2]. unfold UART_RX_FIFO in H2.
  rewrite Hq in El. split_and!; try done; [lia | | | intros o; by apply step_views].
  - rewrite El. unfold s5l_uart_rx_space, UART_RX_FIFO. destruct (Z.leb_spec 16 (rx_count u)); lia.
  - change (s5l_uart_read UART_UTRSTAT u) with
      (((UTRSTAT_TX_EMPTY .| UTRSTAT_TX_BUF_EMPTY) .| (if rx_count u =? 0 then 0 else UTRSTAT_RX_READY))
        .| utrstat_pending u, u). cbn [fst].
    assert (bit (utrstat_pending u) 0 = false) as Hl.
    { pose proof (f_equal (fun z => Z.testbit z 0) (o_latch u Hok)) as Hb.
      cbv beta in Hb.
      rewrite Z.land_spec, Z.testbit_0_l in Hb. change (Z.testbit (wnot _) 0) with true in Hb.
      by rewrite andb_true_r in Hb. }
    unfold bit in *. rewrite Z.lor_spec, Hl, orb_false_r.
    destruct (Z.eqb_spec (rx_count u) 0) as [E | E].
    + destruct (v_queue v); [done |]. cbn in El. lia.
    + rewrite bool_decide_eq_false_2; [done |]. intros Ev. rewrite Ev in El. cbn in El. lia.
Qed.

(** ** The request line *)

(** [k] reads of [URXH]. *)
Fixpoint pops (k : nat) (u : s5l_uart) : list Z * s5l_uart :=
  match k with
  | O => ([], u)
  | S k => let '(b, u) := s5l_uart_read UART_URXH u in let '(bs, u) := pops k u in (b :: bs, u)
  end.

Lemma fifo_empty u : rx_count u = 0 → fifo u = [].
Proof. intros E. unfold fifo. by rewrite E. Qed.

Lemma released_drains k : ∀ u, uart_ok u → rx_timeout_state u = S5L_UART_RX_TIMEOUT_RELEASED →
  (k < length (fifo u))%nat → let '(bs, u') := pops k u in
  bs = take k (fifo u) ∧ fifo u' = drop k (fifo u) ∧ s5l_uart_rx_dma_ready u' = true.
Proof.
  induction k as [| k IH]; intros u Hok Hr Hk.
  - cbn. split_and!; [by destruct (fifo u) | done |]. unfold s5l_uart_rx_dma_ready.
    rewrite Hr, orb_true_r, andb_true_r. destruct (Z.eqb_spec (rx_count u) 0) as [E | _]; [| done].
    rewrite (fifo_empty u E) in Hk. cbn in Hk. lia.
  - cbn [pops]. change (s5l_uart_read UART_URXH u) with (rx_pop u).
    assert (rx_count u ≠ 0) as Hc by (intros E; rewrite (fifo_empty u E) in Hk; cbn in Hk; lia).
    destruct (pop_spec u Hok Hc) as (Hok' & Hf & _ & _ & Hn & Hs). rewrite Hf in Hk.
    destruct (rx_pop u) as [b v]. cbn [fst snd] in *. rewrite Hf. cbn [length] in Hk.
    specialize (IH v Hok'). destruct (pops k v) as [bs w].
    assert (rx_count v ≠ 0) as Hcv by (intros E; rewrite (fifo_empty v E) in Hk; cbn in Hk; lia).
    destruct IH as (-> & -> & ?); [by rewrite Hs | lia | done].
Qed.

(** C11: no received byte is stranded below the watermark.  While bytes are buffered and the
    driver has started the receive timeout, either the DMA request is up already or the
    idle notification raises it, latching the timeout cause; once raised by the timeout it
    stays up, whatever the watermark, until the guest side has read the queue to its end. *)
Theorem uart_tail_reaches_dma ops :
  let u := t_end (uart_run ops s5l_uart_reset) in
  fifo u ≠ [] → ucon u .& UCON_RX_TIMEOUT_ENABLE ≠ 0 →
  let u1 := snd (s5l_uart_rx_dma_idle u) in
  s5l_uart_rx_dma_ready u1 = true ∧ fifo u1 = fifo u ∧
  (s5l_uart_rx_dma_ready u = false →
   utrstat_pending u1 = utrstat_pending u .| UTRSTAT_RX_TIMEOUT ∧
   ∀ k, (k < length (fifo u))%nat →
     let '(bs, u2) := pops k u1 in bs = take k (fifo u) ∧ s5l_uart_rx_dma_ready u2 = true).
Proof.
  intros u Hne Hen. destruct (run_ok ops _ reset_trace_ok) as (Hok & _). fold u in Hok.
  pose proof (idle_spec u Hok) as Hi. destruct (s5l_uart_rx_dma_idle u) as [ok u1] eqn:Ei. cbn [snd].
  destruct Hi as (Hok1 & Hf & _ & _ & Hup). assert (rx_count u ≠ 0) as Hc by (by intros E; apply Hne, fifo_empty).
  destruct ok.
  - destruct (Hup eq_refl) as (_ & Hr1 & Hs1). split_and!; [done | done |]. intros _.
    unfold s5l_uart_rx_dma_idle in Ei. destruct (_ || _); [done |]. injection Ei as <-. split; [done |].
    intros k Hk. rewrite <- Hf in Hk |- *. pose proof (released_drains k _ Hok1 Hs1 Hk) as Hd.
    destruct (pops k _) as [bs u2]. by destruct Hd as (? & _ & ?).
  - assert (s5l_uart_rx_dma_ready u = true) as Hr.
    { unfold s5l_uart_rx_dma_idle in Ei. unfold s5l_uart_rx_dma_ready.
      rewrite (proj2 (Z.eqb_neq _ _) Hc) in Ei |- *. rewrite (proj2 (Z.eqb_neq _ _) Hen), !orb_false_r in Ei.
      destruct (rx_dma_watermark u <=? rx_count u); [done |]. rewrite orb_false_r in Ei.
      destruct (Z.eqb_spec (rx_timeout_state u) S5L_UART_RX_TIMEOUT_ARMED) as [| Ha]; [done |].
      destruct (o_state u Hok). pose proof (o_timeout u Hok) as Ht.
      unfold S5L_UART_RX_TIMEOUT_ARMED, S5L_UART_RX_TIMEOUT_RELEASED, S5L_UART_RX_TIMEOUT_DISARMED in *.
      cbn. apply Z.eqb_eq. destruct (decide (rx_timeout_state u = 0)) as [E | ?]; [by apply Ht in E | lia]. }
    assert (u1 = u) as -> by (unfold s5l_uart_rx_dma_idle in Ei; destruct (_ || _); by injection Ei).
    split_and!; [done | done |]. congruence.
Qed.

(** ** The interrupt line *)

Lemma suppress_step b o u : (∀ e, o ≠ SetIrq e) →
  uart_step o (u_rx_irq_suppressed b u) =
  (fst (uart_step o u), u_rx_irq_suppressed b (snd (uart_step o u))).
Proof.
  intros Ho. destruct o as [byte | off | off val | | e]; cbn [uart_step].
  - unfold s5l_uart_rx_push. cbn [rx_count u_rx_irq_suppressed]. destruct (UART_RX_FIFO <=? rx_count u); [done |].
    cbn -[Z.eqb w8 w64]. by destruct (rx_timeout_state u =? S5L_UART_RX_TIMEOUT_RELEASED).
  - unfold s5l_uart_read, rx_pop. cbn [rx_count u_rx_irq_suppressed].
    destruct (off =? UART_URXH) eqn:Eo.
    + apply Z.eqb_eq in Eo as ->. cbn -[w8 w64]. destruct (rx_count u =? 0); [done |].
      by destruct (w8 (rx_count u - 1) =? 0).
    + by repeat case_match.
  - unfold s5l_uart_write. cbn [tx u_rx_irq_suppressed]. by repeat case_match.
  - unfold s5l_uart_rx_dma_idle, rx_dma_watermark. cbn [rx_count u_rx_irq_suppressed rx_timeout_state ucon ufcon].
    by destruct (_ || _).
  - by destruct (Ho e).
Qed.

(** suppressing the receive interrupt is a controlled experiment.  Every answer of every
    call is the one the unsuppressed port gives, the bytes taken and handed out are the
    same, and the port after it differs in the flag alone; the line itself is down. *)
Theorem suppression_invisible ops : Forall (fun o => ∀ e, o ≠ SetIrq e) ops →
  let t := uart_run ops s5l_uart_reset in
  let t' := uart_run ops (s5l_uart_set_rx_irq false s5l_uart_reset) in
  t_in t' = t_in t ∧ t_out t' = t_out t ∧ t_answers t' = t_answers t
  ∧ t_end t' = s5l_uart_set_rx_irq false (t_end t) ∧ s5l_uart_rx_irq (t_end t') = false.
Proof.
  intros Hops. cbv zeta. unfold uart_run.
  cut (∀ t t', t_in t' = t_in t → t_out t' = t_out t → t_answers t' = t_answers t →
    t_end t' = s5l_uart_set_rx_irq false (t_end t) →
    let run := foldl (fun t o => let '(a, u') := uart_step o (t_end t) in
      MkTrace (t_in t ++ taken_by o (t_end t)) (t_out t ++ handed_by o (t_end t)) (t_answers t ++ [a]) u') in
    t_in (run t' ops) = t_in (run t ops) ∧ t_out (run t' ops) = t_out (run t ops)
    ∧ t_answers (run t' ops) = t_answers (run t ops)
    ∧ t_end (run t' ops) = s5l_uart_set_rx_irq false (t_end (run t ops))).
  { intros Hgen. destruct (Hgen (MkTrace [] [] [] s5l_uart_reset)
      (MkTrace [] [] [] (s5l_uart_set_rx_irq false s5l_uart_reset))) as (H1 & H2 & H3 & H4); try done.
    split_and!; try done. by rewrite H4. }
  induction Hops as [| o ops Ho _ IH]; intros t t' E1 E2 E3 E4; [done |]. cbn [foldl]. apply IH.
  all: rewrite E4; unfold s5l_uart_set_rx_irq; rewrite suppress_step by done;
    destruct (uart_step o (t_end t)) as [a u] eqn:Eo; cbn [t_in t_out t_answers t_end fst snd negb];
    rewrite ?E1, ?E2, ?E3; f_equal; try done.
  unfold handed_by. destruct o; try done. cbn [rx_count u_rx_irq_suppressed].
  change (s5l_uart_read off (u_rx_irq_suppressed true (t_end t))) with
    (uart_step (RegRead off) (u_rx_irq_suppressed true (t_end t))). by rewrite suppress_step.
Qed.

Lemma demo_ops_ok : Forall (fun o => ∀ e, o ≠ SetIrq e)
  [RegWrite UART_UCON 0x1880; Push 0x41; Push 0x42; DmaIdle; RegRead UART_URXH].
Proof. by repeat constructor. Qed.

Lemma suppression_invisible_witness :
  let ops := [RegWrite UART_UCON 0x1880; Push 0x41; Push 0x42; DmaIdle; RegRead UART_URXH] in
  s5l_uart_rx_irq (t_end (uart_run ops s5l_uart_reset)) = true
  ∧ t_out (uart_run ops (s5l_uart_set_rx_irq false s5l_uart_reset)) = [0x41].
Proof.
  intros ops. destruct (suppression_invisible ops demo_ops_ok) as (_ & Ho & _).
  split; [by vm_compute |]. etransitivity; [exact Ho | by vm_compute].
Defined.

Lemma uart_tail_reaches_dma_witness :
  let u := t_end (uart_run [RegWrite UART_UFCON 0x11; RegWrite UART_UCON 0x80; Push 0x41; Push 0x42] s5l_uart_reset) in
  s5l_uart_rx_dma_ready u = false ∧ s5l_uart_rx_dma_ready (snd (s5l_uart_rx_dma_idle u)) = true.
Proof.
  split; [by vm_compute |].
  destruct (uart_tail_reaches_dma [RegWrite UART_UFCON 0x11; RegWrite UART_UCON 0x80; Push 0x41; Push 0x42])
    as [Hr _]; [by vm_compute | by vm_compute | exact Hr].
Defined.
