(* ===== verification/Gpio.v ===== *)
(** * The GPIO interrupt controller and the pin block

    [core/src/soc/gpioic.c].  The controller's registers are functions of the group, one
    bit for each of its 32 lines.  The pin block is a page of words, those at
    [S5L_GPIO_PIN_REG] being the levels of a port's pins; a watcher's callback acts on a
    state [W] of its own.  Handles are never NULL here. *)

From S2P Require Import Prelude Bits.

Definition S5L8900_DEV_SIZE := 0x1000.
Definition S5L8900_VIC_COUNT := 2.
Definition S5L_GPIOIC_GROUPS := 7.
Definition S5L_GPIOIC_LINES := S5L_GPIOIC_GROUPS * 32.
Definition GPIOIC_INTLEVEL := 0x80.
Definition GPIOIC_INTSTAT := 0xa0.
Definition GPIOIC_INTEN := 0xc0.
Definition GPIOIC_INTTYPE := 0xe0.
Definition S5L_GPIOIC_UNKNOWN_OFF := 8.
Definition S5L_GPIO_PORTS := 25.
Definition S5L_GPIO_WATCHERS := 4.
Definition S5L_GPIO_FSEL := 0x320.
Definition S5L_GPIO_FUNC_OUT := 7.
Definition S5L_GPIO_PIN_REG (g : Z) : Z := g * 32 + 4.

(** ** The interrupt controller *)

Definition GPIOIC_CASCADE : list Z := [33; 32; 31; 3; 2; 1; 0].
Definition s5l_gpioic_cascade (group : Z) : Z :=
  if S5L_GPIOIC_GROUPS <=? group then 32 * S5L8900_VIC_COUNT else nth (Z.to_nat group) GPIOIC_CASCADE 0.

(** [unknown_off] holds the first [unknown_off_count] offsets. *)
Record s5l_gpioic := MkGpioic {
  level : Z → Z; stat : Z → Z; en : Z → Z; type : Z → Z; raw : Z → Z; driven : Z → Z;
  unknown_reads : Z; unknown_writes : Z; unknown_off : list Z }.

Definition s5l_gpioic_reset : s5l_gpioic :=
  MkGpioic (fun _ => 0) (fun _ => 0) (fun _ => 0) (fun _ => 0) (fun _ => 0) (fun _ => 0) 0 0 [].

Definition ic_level (v : Z → Z) (g : s5l_gpioic) : s5l_gpioic :=
  MkGpioic v (stat g) (en g) (type g) (raw g) (driven g) (unknown_reads g) (unknown_writes g) (unknown_off g).
Definition ic_stat (v : Z → Z) (g : s5l_gpioic) : s5l_gpioic :=
  MkGpioic (level g) v (en g) (type g) (raw g) (driven g) (unknown_reads g) (unknown_writes g) (unknown_off g).
Definition ic_en (v : Z → Z) (g : s5l_gpioic) : s5l_gpioic :=
  MkGpioic (level g) (stat g) v (type g) (raw g) (driven g) (unknown_reads g) (unknown_writes g) (unknown_off g).
Definition ic_type (v : Z → Z) (g : s5l_gpioic) : s5l_gpioic :=
  MkGpioic (level g) (stat g) (en g) v (raw g) (driven g) (unknown_reads g) (unknown_writes g) (unknown_off g).
Definition ic_raw (v : Z → Z) (g : s5l_gpioic) : s5l_gpioic :=
  MkGpioic (level g) (stat g) (en g) (type g) v (driven g) (unknown_reads g) (unknown_writes g) (unknown_off g).
Definition ic_driven (v : Z → Z) (g : s5l_gpioic) : s5l_gpioic :=
  MkGpioic (level g) (stat g) (en g) (type g) (raw g) v (unknown_reads g) (unknown_writes g) (unknown_off g).
Definition ic_unknown (r w : Z) (l : list Z) (g : s5l_gpioic) : s5l_gpioic :=
  MkGpioic (level g) (stat g) (en g) (type g) (raw g) (driven g) r w l.

Definition ic_note_unknown (off : Z) (l : list Z) : list Z :=
  if bool_decide (off ∈ l) then l
  else if Z.of_nat (length l) <? S5L_GPIOIC_UNKNOWN_OFF then l ++ [off] else l.

(** The group [off] names in the bank at [base]. *)
Definition ic_decode (off base : Z) : option Z :=
  if off <? base then None
  else
    let rel := off - base in
    if negb (rel .& 3 =? 0) then None
    else
      let idx := rel .>> 2 in
      if S5L_GPIOIC_GROUPS <=? idx then None else Some idx.

Definition relatch_level (group : Z) (g : s5l_gpioic) : s5l_gpioic :=
  ic_stat (<[group :=
    stat g group .| (((wnot (raw g group .^ level g group) .& type g group) .& driven g group) .& en g group)]>
    (stat g)) g.

Definition s5l_gpioic_read (off : Z) (g : s5l_gpioic) : Z * s5l_gpioic :=
  match ic_decode off GPIOIC_INTLEVEL, ic_decode off GPIOIC_INTSTAT, ic_decode off GPIOIC_INTEN,
        ic_decode off GPIOIC_INTTYPE with
  | Some k, _, _, _ => (level g k, g)
  | _, Some k, _, _ => (stat g k, g)
  | _, _, Some k, _ => (en g k, g)
  | _, _, _, Some k => (type g k, g)
  | None, None, None, None =>
    (0, ic_unknown (w64 (unknown_reads g + 1)) (unknown_writes g) (ic_note_unknown off (unknown_off g)) g)
  end.

Definition s5l_gpioic_write (off val : Z) (g : s5l_gpioic) : s5l_gpioic :=
  match ic_decode off GPIOIC_INTLEVEL, ic_decode off GPIOIC_INTSTAT, ic_decode off GPIOIC_INTEN,
        ic_decode off GPIOIC_INTTYPE with
  | Some k, _, _, _ => relatch_level k (ic_level (<[k := val]> (level g)) g)
  | _, Some k, _, _ => relatch_level k (ic_stat (<[k := stat g k .& wnot val]> (stat g)) g)
  | _, _, Some k, _ => relatch_level k (ic_en (<[k := val]> (en g)) g)
  | _, _, _, Some k => relatch_level k (ic_type (<[k := val]> (type g)) g)
  | None, None, None, None =>
    ic_unknown (unknown_reads g) (w64 (unknown_writes g + 1)) (ic_note_unknown off (unknown_off g)) g
  end.

Definition s5l_gpioic_set_line (line : Z) (lvl : bool) (g : s5l_gpioic) : s5l_gpioic :=
  if S5L_GPIOIC_LINES <=? line then g
  else
    let group := line .>> 5 in
    let b := 1 .<< (line .& 31) in
    let was := negb (raw g group .& b =? 0) in
    let first := driven g group .& b =? 0 in
    let g := ic_raw (<[group := if lvl then raw g group .| b else raw g group .& wnot b]> (raw g)) g in
    let g := ic_driven (<[group := driven g group .| b]> (driven g)) g in
    if negb (type g group .& b =? 0) then
      if negb (Bool.eqb lvl was) || first then relatch_level group g else g
    else if lvl && negb was then ic_stat (<[group := stat g group .| b]> (stat g)) g
    else g.

Definition s5l_gpioic_line (line : Z) (g : s5l_gpioic) : bool :=
  if S5L_GPIOIC_LINES <=? line then false else negb (raw g (line .>> 5) .& (1 .<< (line .& 31)) =? 0).
Definition s5l_gpioic_pending (line : Z) (g : s5l_gpioic) : bool :=
  if S5L_GPIOIC_LINES <=? line then false else negb (stat g (line .>> 5) .& (1 .<< (line .& 31)) =? 0).
Definition s5l_gpioic_group_irq (group : Z) (g : s5l_gpioic) : bool :=
  if S5L_GPIOIC_GROUPS <=? group then false else negb (stat g group .& en g group =? 0).

(** ** The pin block *)

Section pins.
Context {W : Type}.

Record gpio_watch := MkWatch { pin : Z; armed : bool; changed : option (bool → W → W) }.
Record s5l_gpio := MkGpio { regs : Z → Z; watch : Z → gpio_watch }.

Definition s5l_gpio_reset : s5l_gpio := MkGpio (fun _ => 0) (fun _ => MkWatch 0 false None).

Definition s5l_gpio_read (off bytes : Z) (g : s5l_gpio) : Z :=
  if (bytes =? 0) || (4 <? bytes) then 0
  else if S5L8900_DEV_SIZE <? off + bytes then 0
  else for_range (Z.to_nat bytes) 0 (fun i v =>
    let at_ := off + i in
    v .| (((regs g (at_ .>> 2) .>> ((at_ .& 3) * 8)) .& 0xff) .<< (i * 8))) 0.

(** Every armed watcher whose pin differs from the snapshot [before], in order. *)
Definition notify (before : Z → Z) (g : s5l_gpio) (w : W) : W :=
  for_range (Z.to_nat S5L_GPIO_WATCHERS) 0 (fun i w =>
    let x := watch g i in
    match armed x, changed x with
    | true, Some f =>
      let group := pin x .>> 8 in
      if S5L_GPIO_PORTS <=? group then w
      else
        let mask := 1 .<< (pin x .& 0x1f) in
        let now := regs g (S5L_GPIO_PIN_REG group .>> 2) in
        if (before group .^ now) .& mask =? 0 then w else f (negb (now .& mask =? 0)) w
    | _, _ => w
    end) w.

Definition is_pin_reg (off : Z) : bool :=
  let word := off .& wnot 3 in
  if (word <? 4) || negb ((word - 4) mod 32 =? 0) then false else (word - 4) / 32 <? S5L_GPIO_PORTS.

Definition pin_words (g : s5l_gpio) (group : Z) : Z := regs g (S5L_GPIO_PIN_REG group .>> 2).

(** The byte stores of [s5l_gpio_write]; a level register keeps its value. *)
Definition store_byte (at_ byte : Z) (r : Z → Z) : Z → Z :=
  if is_pin_reg at_ then r
  else
    let shift := (at_ .& 3) * 8 in
    <[at_ .>> 2 := (r (at_ .>> 2) .& wnot (0xff .<< shift)) .| ((byte .& 0xff) .<< shift)]> r.
Definition store_bytes (off val bytes : Z) (r : Z → Z) : Z → Z :=
  for_range (Z.to_nat bytes) 0 (fun i r => store_byte (off + i) (val .>> (i * 8)) r) r.

(** The pin command of a word stored at [S5L_GPIO_FSEL]. *)
Definition pin_command (val : Z) (r : Z → Z) : Z → Z :=
  let group := (val .>> 16) .& 0xff in
  let b := (val .>> 8) .& 0xff in
  if (group <? S5L_GPIO_PORTS) && (b <? 32) && ((val .>> 1) .& 7 =? S5L_GPIO_FUNC_OUT) then
    let k := S5L_GPIO_PIN_REG group .>> 2 in
    <[k := if negb (val .& 1 =? 0) then r k .| (1 .<< b) else r k .& wnot (1 .<< b)]> r
  else r.

Definition s5l_gpio_write (off val bytes : Z) (g : s5l_gpio) (w : W) : s5l_gpio * W :=
  if (bytes =? 0) || (4 <? bytes) then (g, w)
  else if S5L8900_DEV_SIZE <? off + bytes then (g, w)
  else
    let before := pin_words g in
    let r := store_bytes off val bytes (regs g) in
    let r := if (off =? S5L_GPIO_FSEL) && (bytes =? 4) then pin_command val r else r in
    let g := MkGpio r (watch g) in
    (g, notify before g w).

Definition s5l_gpio_drive (p : Z) (lvl : bool) (g : s5l_gpio) (w : W) : s5l_gpio * W :=
  let group := p .>> 8 in
  let b := p .& 0xff in
  if (S5L_GPIO_PORTS <=? group) || (31 <? b) then (g, w)
  else
    let k := S5L_GPIO_PIN_REG group .>> 2 in
    if (regs g k .>> b) .& 1 =? Z.b2z lvl then (g, w)
    else
      let before := pin_words g in
      let g := MkGpio (<[k := if lvl then regs g k .| (1 .<< b) else regs g k .& wnot (1 .<< b)]> (regs g))
                 (watch g) in
      (g, notify before g w).

Definition s5l_gpio_pin (p : Z) (g : s5l_gpio) : bool :=
  let group := p .>> 8 in
  if S5L_GPIO_PORTS <=? group then false
  else negb (regs g (S5L_GPIO_PIN_REG group .>> 2) .& (1 .<< (p .& 0x1f)) =? 0).

Definition watch_slots : list Z := seqZ 0 S5L_GPIO_WATCHERS.
Definition s5l_gpio_watch_pin (p : Z) (f : option (bool → W → W)) (g : s5l_gpio) : bool * s5l_gpio :=
  match f with
  | None => (false, g)
  | Some _ =>
    if S5L_GPIO_PORTS <=? p .>> 8 then (false, g)
    else if 31 <? (p .& 0xff) then (false, g)
    else if existsb (fun i => armed (watch g i) && (pin (watch g i) =? p)) watch_slots then (false, g)
    else
      match find (fun i => negb (armed (watch g i))) watch_slots with
      | Some i => (true, MkGpio (regs g) (<[i := MkWatch p true f]> (watch g)))
      | None => (false, g)
      end
  end.
End pins.
Arguments gpio_watch : clear implicits.
Arguments s5l_gpio : clear implicits.

(** ** The controller as 224 independent lines *)

(** One line: what its wire and its register bits hold, and the automaton the comments of
    the source describe. *)
Record line_view := MkLine {
  l_raw : bool; l_driven : bool; l_level : bool; l_type : bool; l_en : bool; l_pend : bool }.

Inductive line_op :=
  | Drive (b : bool) | SetLevel (b : bool) | Ack (b : bool) | SetEn (b : bool) | SetType (b : bool) | Idle.

(** A driven, enabled, level-sensitive line whose wire is at the asserting level. *)
Definition asserting (v : line_view) : bool :=
  Bool.eqb (l_raw v) (l_level v) && l_type v && l_driven v && l_en v.
Definition with_pend (p : bool) (v : line_view) : line_view :=
  MkLine (l_raw v) (l_driven v) (l_level v) (l_type v) (l_en v) p.
Definition settle (v : line_view) : line_view := with_pend (l_pend v || asserting v) v.

Definition line_step (o : line_op) (v : line_view) : line_view :=
  let '(MkLine r d l t e p) := v in
  match o with
  | Drive b =>
    if t then settle (MkLine b true l t e p)
    else MkLine b true l t e (p || (b && negb r))
  | SetLevel b => settle (MkLine r d b t e p)
  | Ack b => settle (MkLine r d l t e (p && negb b))
  | SetEn b => settle (MkLine r d l t b p)
  | SetType b => settle (MkLine r d l b e p)
  | Idle => v
  end.

(** What the board and the guest do to the controller. *)
Inductive gpioic_op := SetLine (line : Z) (lvl : bool) | IcWrite (off val : Z) | IcRead (off : Z).

Definition gpioic_step (o : gpioic_op) (g : s5l_gpioic) : s5l_gpioic :=
  match o with
  | SetLine line lvl => s5l_gpioic_set_line line lvl g
  | IcWrite off val => s5l_gpioic_write off val g
  | IcRead off => snd (s5l_gpioic_read off g)
  end.
Definition gpioic_run (ops : list gpioic_op) (g : s5l_gpioic) : s5l_gpioic :=
  foldl (fun g o => gpioic_step o g) g ops.

Definition op_ok (o : gpioic_op) : Prop :=
  match o with SetLine line _ => 0 <= line | IcWrite off val => uint 32 val | IcRead _ => True end.

Definition line_of (g : s5l_gpioic) (line : Z) : line_view :=
  let k := line / 32 in let i := line mod 32 in
  MkLine (bit (raw g k) i) (bit (driven g k) i) (bit (level g k) i) (bit (type g k) i) (bit (en g k) i)
    (bit (stat g k) i).

(** What an operation is for one line. *)
Definition for_line (line : Z) (o : gpioic_op) : line_op :=
  let k := line / 32 in let i := line mod 32 in
  match o with
  | SetLine l lvl => if l =? line then Drive lvl else Idle
  | IcWrite off val =>
    if off =? GPIOIC_INTLEVEL + 4 * k then SetLevel (bit val i)
    else if off =? GPIOIC_INTSTAT + 4 * k then Ack (bit val i)
    else if off =? GPIOIC_INTEN + 4 * k then SetEn (bit val i)
    else if off =? GPIOIC_INTTYPE + 4 * k then SetType (bit val i)
    else Idle
  | IcRead _ => Idle
  end.

(** An asserting line is pending. *)
Definition settled (g : s5l_gpioic) : Prop :=
  ∀ line, 0 <= line < S5L_GPIOIC_LINES → asserting (line_of g line) = true → l_pend (line_of g line) = true.

Lemma settle_settled v : (asserting v = true → l_pend v = true) → settle v = v.
Proof.
  intros H. unfold settle, with_pend. destruct v. cbn. f_equal. destruct (asserting _) eqn:E.
  - cbn in *. by rewrite H.
  - by rewrite orb_false_r.
Qed.

(** ** Decoding *)

Lemma decode_spec off base k : ic_decode off base = Some k ↔ off = base + 4 * k ∧ 0 <= k < 7.
Proof.
  unfold ic_decode, S5L_GPIOIC_GROUPS. destruct (Z.ltb_spec off base) as [| Hge].
  { split; [done |]. intros [-> ?]. lia. }
  change 3 with (Z.ones 2). rewrite Z.land_ones, Z.shiftr_div_pow2 by lia. change (2 ^ 2) with 4.
  pose proof (Z.div_mod (off - base) 4 ltac:(lia)). pose proof (Z.mod_pos_bound (off - base) 4 ltac:(lia)).
  destruct (Z.eqb_spec ((off - base) mod 4) 0); cbn [negb].
  - destruct (Z.leb_spec 7 ((off - base) / 4)).
    + split; [done |]. intros [-> ?]. replace (base + 4 * k - base) with (k * 4) in * by lia.
      rewrite Z.div_mul in * by lia. lia.
    + split.
      * intros [= <-]. split; [lia |]. split; [apply Z.div_pos; lia | done].
      * intros [-> ?]. replace (base + 4 * k - base) with (k * 4) in * by lia. by rewrite Z.div_mul by lia.
  - split; [done |]. intros [-> ?]. replace (base + 4 * k - base) with (k * 4) in * by lia.
    by rewrite Z.mod_mul in * by lia.
Qed.

Lemma decode_none off base : ic_decode off base = None → ∀ k, 0 <= k < 7 → off ≠ base + 4 * k.
Proof. intros H k Hk E. assert (ic_decode off base = Some k) by (by apply decode_spec). congruence. Qed.

Lemma line_range line : 0 <= line < S5L_GPIOIC_LINES → 0 <= line / 32 < 7 ∧ 0 <= line mod 32 < 32.
Proof.
  unfold S5L_GPIOIC_LINES, S5L_GPIOIC_GROUPS. intros H. split; [| by apply Z.mod_pos_bound].
  split; [apply Z.div_pos; lia | apply Z.div_lt_upper_bound; lia].
Qed.

(** Relatching a group settles its lines and touches no other. *)
Lemma relatch_line k g line : 0 <= line < S5L_GPIOIC_LINES →
  line_of (relatch_level k g) line = if k =? line / 32 then settle (line_of g line) else line_of g line.
Proof.
  intros Hl. destruct (line_range line Hl) as [_ Hi]. unfold line_of, settle, with_pend, asserting, relatch_level.
  cbn. destruct (Z.eqb_spec k (line / 32)) as [-> | Hne].
  - rewrite fn_lookup_insert. f_equal.
    rewrite bit_lor, !bit_land, bit_wnot, bit_lxor by done. f_equal. f_equal. f_equal. f_equal.
    by destruct (bit (raw g (line / 32)) _), (bit (level g (line / 32)) _).
  - by rewrite fn_lookup_insert_ne.
Qed.

Lemma bank_gap off k line : 0 <= k < 7 → 0 <= line / 32 < 7 →
  off = GPIOIC_INTLEVEL + 4 * k ∨ off = GPIOIC_INTSTAT + 4 * k ∨ off = GPIOIC_INTEN + 4 * k
    ∨ off = GPIOIC_INTTYPE + 4 * k →
  k ≠ line / 32 → ∀ val, for_line line (IcWrite off val) = Idle.
Proof.
  intros Hk Hl H Hne val. cbn. unfold GPIOIC_INTLEVEL, GPIOIC_INTSTAT, GPIOIC_INTEN, GPIOIC_INTTYPE in *.
  by rewrite !(proj2 (Z.eqb_neq _ _)) by lia.
Qed.

Lemma write_line off val g line : 0 <= line < S5L_GPIOIC_LINES →
  line_of (s5l_gpioic_write off val g) line = line_step (for_line line (IcWrite off val)) (line_of g line).
Proof.
  intros Hl. destruct (line_range line Hl) as [Hk Hi]. unfold s5l_gpioic_write.
  destruct (ic_decode off GPIOIC_INTLEVEL) as [k |] eqn:E1;
    [| destruct (ic_decode off GPIOIC_INTSTAT) as [k |] eqn:E2;
      [| destruct (ic_decode off GPIOIC_INTEN) as [k |] eqn:E3;
        [| destruct (ic_decode off GPIOIC_INTTYPE) as [k |] eqn:E4]]].
  1-4: match goal with H : ic_decode _ _ = Some _ |- _ => apply decode_spec in H as [Eo Hk'] end;
    rewrite relatch_line by done; destruct (Z.eqb_spec k (line / 32)) as [-> | Hne];
    [| rewrite (bank_gap off k line) by tauto; unfold line_of; cbn; by rewrite ?fn_lookup_insert_ne].
  5: { cbn. apply decode_none with (k := line / 32) in E1, E2, E3, E4; try done.
       by rewrite !(proj2 (Z.eqb_neq _ _)). }
  all: cbn [for_line]; unfold GPIOIC_INTLEVEL, GPIOIC_INTSTAT, GPIOIC_INTEN, GPIOIC_INTTYPE in *; subst off;
    rewrite ?(proj2 (Z.eqb_neq _ _)) by lia; rewrite ?Z.eqb_refl; unfold line_of; cbn;
    rewrite fn_lookup_insert, ?bit_land, ?bit_wnot by done; done.
Qed.

Lemma same_line line line' : 0 <= line < S5L_GPIOIC_LINES → 0 <= line' < S5L_GPIOIC_LINES →
  line' / 32 = line / 32 → (line mod 32 =? line' mod 32) = (line' =? line).
Proof.
  intros. pose proof (Z.div_mod line 32 ltac:(lia)). pose proof (Z.div_mod line' 32 ltac:(lia)).
  destruct (Z.eqb_spec (line mod 32) (line' mod 32)), (Z.eqb_spec line' line); try done; lia.
Qed.

(** The wire after [set_line], before the latch. *)
Definition driven_to (line : Z) (lvl : bool) (g : s5l_gpioic) : s5l_gpioic :=
  let k := line / 32 in let b := 1 .<< (line mod 32) in
  ic_driven (<[k := driven g k .| b]> (driven g))
    (ic_raw (<[k := if lvl then raw g k .| b else raw g k .& wnot b]> (raw g)) g).

Lemma driven_to_line line' lvl g line : 0 <= line < S5L_GPIOIC_LINES → 0 <= line' < S5L_GPIOIC_LINES →
  line_of (driven_to line' lvl g) line =
  let v := line_of g line in
  if line' =? line then MkLine lvl true (l_level v) (l_type v) (l_en v) (l_pend v) else v.
Proof.
  intros Hl Hl'. destruct (line_range line Hl) as [Hk Hi]. destruct (line_range line' Hl') as [Hk' Hi'].
  pose proof (same_line line line' Hl Hl') as Hsame. unfold line_of, driven_to. cbn.
  destruct (Z.eqb_spec (line' / 32) (line / 32)) as [E | Hne].
  - specialize (Hsame E). rewrite E, !fn_lookup_insert, bit_lor_pow by lia. rewrite Hsame.
    assert (bit (if lvl then raw g (line / 32) .| (1 .<< (line' mod 32))
                 else raw g (line / 32) .& wnot (1 .<< (line' mod 32))) (line mod 32)
      = if line' =? line then lvl else bit (raw g (line / 32)) (line mod 32)) as ->.
    { destruct lvl; [rewrite bit_lor_pow by lia | rewrite bit_clear_pow by lia]; rewrite Hsame;
        destruct (line' =? line); by rewrite ?orb_true_r, ?orb_false_r, ?andb_false_r, ?andb_true_r. }
    destruct (line' =? line); by rewrite ?orb_true_r, ?orb_false_r.
  - rewrite !fn_lookup_insert_ne by congruence. destruct (Z.eqb_spec line' line) as [-> |]; done.
Qed.

Lemma set_line_eq line lvl g : 0 <= line < S5L_GPIOIC_LINES →
  s5l_gpioic_set_line line lvl g =
  let k := line / 32 in let i := line mod 32 in
  let g1 := driven_to line lvl g in
  if bit (type g k) i then
    if negb (Bool.eqb lvl (bit (raw g k) i)) || negb (bit (driven g k) i) then relatch_level k g1 else g1
  else if lvl && negb (bit (raw g k) i)
       then ic_stat (<[k := stat g k .| (1 .<< i)]> (stat g)) g1 else g1.
Proof.
  intros Hl. destruct (line_range line Hl) as [_ Hi]. unfold s5l_gpioic_set_line.
  rewrite (proj2 (Z.leb_gt _ _)) by lia. rewrite line_group, line_bit, !bit_test by done.
  rewrite !negb_involutive. done.
Qed.

Lemma set_line_line line' lvl g line : settled g → 0 <= line < S5L_GPIOIC_LINES → 0 <= line' →
  line_of (s5l_gpioic_set_line line' lvl g) line = line_step (for_line line (SetLine line' lvl)) (line_of g line).
Proof.
  intros Hs Hl Hl'. cbn [for_line].
  destruct (Z.leb_spec S5L_GPIOIC_LINES line') as [| Hlt].
  { unfold s5l_gpioic_set_line. rewrite (proj2 (Z.leb_le _ _)) by done. rewrite (proj2 (Z.eqb_neq line' line)) by lia. by destruct (line_of g line). }
  destruct (line_range line Hl) as [Hk Hi]. destruct (line_range line' (conj Hl' Hlt)) as [Hk' Hi'].
  rewrite set_line_eq by done. cbv zeta.
  pose proof (driven_to_line line' lvl g line Hl (conj Hl' Hlt)) as Hd. cbv zeta in Hd.
  pose proof (settle_settled (line_of g line) (Hs line Hl)) as Hset.
  destruct (Z.eqb_spec line' line) as [-> | Hne].
  - unfold line_of at 2. cbn [line_step].
    destruct (bit (type g (line / 32)) (line mod 32)) eqn:Et.
    + destruct (negb (Bool.eqb lvl _) || _) eqn:Ec.
      * rewrite relatch_line, Z.eqb_refl by done. rewrite Hd. unfold line_of. cbn. by rewrite Et.
      * apply orb_false_elim in Ec as [E1%negb_false_iff E2%negb_false_iff]. apply Bool.eqb_prop in E1.
        assert (line_of g line = MkLine lvl true (bit (level g (line / 32)) (line mod 32)) true
          (bit (en g (line / 32)) (line mod 32)) (bit (stat g (line / 32)) (line mod 32))) as Hv
          by (unfold line_of; by rewrite <- E1, E2, Et).
        rewrite Hd. rewrite Hv in Hset |- *. exact (eq_sym Hset).
    + destruct (lvl && _) eqn:Ec.
      * assert (∀ x, line_of (ic_stat x (driven_to line lvl g)) line
          = with_pend (bit (x (line / 32)) (line mod 32)) (line_of (driven_to line lvl g) line)) as -> by done.
        rewrite Hd, fn_lookup_insert, bit_lor_pow, Z.eqb_refl, orb_true_r by lia.
        unfold with_pend, line_of. cbn [l_raw l_driven l_level l_type l_en l_pend]. by rewrite Et.
      * rewrite Hd. unfold line_of. cbn [l_raw l_driven l_level l_type l_en l_pend]. by rewrite Et, orb_false_r.
  - transitivity (line_of g line); [| by destruct (line_of g line)].
    destruct (bit (type g (line' / 32)) _); [destruct (negb (Bool.eqb lvl _) || _); [| done] | destruct (lvl && _); [| done]].
    + rewrite relatch_line by done. rewrite Hd. by destruct (_ =? _).
    + assert (∀ x, line_of (ic_stat x (driven_to line' lvl g)) line
        = with_pend (bit (x (line / 32)) (line mod 32)) (line_of (driven_to line' lvl g) line)) as -> by done.
      rewrite Hd. unfold with_pend, line_of. cbn. f_equal.
      destruct (Z.eqb_spec (line' / 32) (line / 32)) as [E |]; [| by rewrite fn_lookup_insert_ne].
      rewrite E, fn_lookup_insert, bit_lor_pow by lia.
      rewrite (same_line line line' Hl (conj Hl' Hlt) E), (proj2 (Z.eqb_neq _ _) Hne). apply orb_false_r.
Qed.

Lemma asserting_step o v : (asserting v = true → l_pend v = true) →
  asserting (line_step o v) = true → l_pend (line_step o v) = true.
Proof.
  destruct v as [r d l t e p]. destruct o as [b | b | b | b | b |]; unfold asserting; cbn;
    repeat match goal with x : bool |- _ => destruct x end; cbn; auto.
Qed.

Lemma step_line o g line : settled g → op_ok o → 0 <= line < S5L_GPIOIC_LINES →
  line_of (gpioic_step o g) line = line_step (for_line line o) (line_of g line).
Proof.
  intros Hs Ho Hl. destruct o as [l lvl | off val | off]; cbn [gpioic_step].
  - by apply set_line_line.
  - by apply write_line.
  - unfold s5l_gpioic_read. cbn [for_line]. transitivity (line_of g line); [| by destruct (line_of g line)].
    by repeat case_match.
Qed.

Lemma step_settled o g : settled g → op_ok o → settled (gpioic_step o g).
Proof.
  intros Hs Ho line Hl. rewrite step_line by done. apply asserting_step. by apply Hs.
Qed.

(** ** The theorem *)

Definition line_reset : line_view := MkLine false false false false false false.
Definition line_run (ops : list line_op) (v : line_view) : line_view := foldl (fun v o => line_step o v) v ops.

Lemma reset_settled : settled s5l_gpioic_reset.
Proof. intros line _. unfold line_of. cbn. by rewrite !bit_0. Qed.

Lemma run_settled ops : ∀ g, Forall op_ok ops → settled g → settled (gpioic_run ops g).
Proof.
  induction ops as [| o ops IH]; intros g Hops Hs; [done |]. apply Forall_cons_iff in Hops as [Ho Hops].
  cbn. apply IH; [done | by apply step_settled].
Qed.

Lemma run_line ops line : ∀ g, Forall op_ok ops → settled g → 0 <= line < S5L_GPIOIC_LINES →
  line_of (gpioic_run ops g) line = line_run (for_line line <$> ops) (line_of g line).
Proof.
  induction ops as [| o ops IH]; intros g Hops Hs Hl; [done |]. apply Forall_cons_iff in Hops as [Ho Hops].
  unfold gpioic_run, line_run. cbn [foldl fmap list_fmap]. rewrite <- step_line by done.
  apply IH; [done | by apply step_settled | done].
Qed.

Lemma pending_line line g : 0 <= line < S5L_GPIOIC_LINES →
  s5l_gpioic_pending line g = l_pend (line_of g line).
Proof.
  intros Hl. destruct (line_range line Hl) as [_ Hi]. unfold s5l_gpioic_pending.
  rewrite (proj2 (Z.leb_gt _ _)), line_group, line_bit, bit_test by lia. apply negb_involutive.
Qed.

Lemma wire_line line g : 0 <= line < S5L_GPIOIC_LINES →
  s5l_gpioic_line line g = l_raw (line_of g line).
Proof.
  intros Hl. destruct (line_range line Hl) as [_ Hi]. unfold s5l_gpioic_line.
  rewrite (proj2 (Z.leb_gt _ _)), line_group, line_bit, bit_test by lia. apply negb_involutive.
Qed.

(** Every register keeps within a word, so that a bit past 31 asks for nothing. *)
Definition words_ok (g : s5l_gpioic) : Prop := ∀ k, uint 32 (en g k).

Lemma step_words o g : op_ok o → words_ok g → words_ok (gpioic_step o g).
Proof.
  intros Ho Hw k. destruct o as [line lvl | off val | off]; cbn [gpioic_step].
  - unfold s5l_gpioic_set_line. repeat case_match; apply Hw.
  - unfold s5l_gpioic_write. repeat case_match; cbn; try apply Hw.
    destruct (decide (k = z)) as [-> | ?]; [rewrite fn_lookup_insert | rewrite fn_lookup_insert_ne by done]; done.
  - unfold s5l_gpioic_read. repeat case_match; apply Hw.
Qed.

Lemma run_words ops : ∀ g, Forall op_ok ops → words_ok g → words_ok (gpioic_run ops g).
Proof.
  induction ops as [| o ops IH]; intros g Hops Hs; [done |]. apply Forall_cons_iff in Hops as [Ho Hops].
  cbn. apply IH; [done | by apply step_words].
Qed.

Lemma group_irq_lines k g : 0 <= k < S5L_GPIOIC_GROUPS → words_ok g →
  s5l_gpioic_group_irq k g = true ↔
  ∃ line, line / 32 = k ∧ l_pend (line_of g line) = true ∧ l_en (line_of g line) = true.
Proof.
  intros Hk Hw. unfold s5l_gpioic_group_irq. rewrite (proj2 (Z.leb_gt _ _)) by lia.
  rewrite negb_true_iff, Z.eqb_neq. split.
  - intros Hne. assert (uint 32 (stat g k .& en g k)) as Hu by (apply uint_land_r; [lia | apply Hw]).
    set (i := Z.log2 (stat g k .& en g k)). destruct Hu as [H0 H1].
    assert (bit (stat g k .& en g k) i = true) as Hb by (apply Z.bit_log2; lia).
    assert (0 <= i < 32) as Hi.
    { split; [apply Z.log2_nonneg |]. apply Z.log2_lt_pow2; lia. }
    rewrite bit_land in Hb. apply andb_true_iff in Hb as [Hb1 Hb2].
    exists (k * 32 + i). unfold line_of. cbn.
    rewrite Z.div_add_l, Z.div_small, Z.add_0_r, (Z.add_comm (k * 32)), Z.mod_add, Z.mod_small by lia. done.
  - intros (line & <- & Hp & He) H0. unfold line_of in Hp, He. cbn in Hp, He.
    apply (f_equal (fun x => bit x (line mod 32))) in H0. by rewrite bit_land, Hp, He, bit_0 in H0.
Qed.

(** C12: the interrupt controller is 224 independent lines.  After any sequence of board and
    guest operations each line is where the line automaton [line_step] takes it on the
    operations that name it, whatever happened to the others; an asserting level line is
    pending; and a group interrupts exactly when one of its lines is pending and enabled. *)
Theorem gpioic_refines_lines ops : Forall op_ok ops →
  let g := gpioic_run ops s5l_gpioic_reset in
  (∀ line, 0 <= line < S5L_GPIOIC_LINES →
     line_of g line = line_run (for_line line <$> ops) line_reset
     ∧ s5l_gpioic_pending line g = l_pend (line_of g line)
     ∧ (asserting (line_of g line) = true → s5l_gpioic_pending line g = true)) ∧
  ∀ k, 0 <= k < S5L_GPIOIC_GROUPS →
     s5l_gpioic_group_irq k g = true ↔
     ∃ line, line / 32 = k ∧ l_pend (line_of g line) = true ∧ l_en (line_of g line) = true.
Proof.
  intros Hops g. pose proof (run_settled ops _ Hops reset_settled) as Hs. fold g in Hs. split.
  - intros line Hl. rewrite pending_line by done. split_and!; [| done | by apply Hs].
    unfold g. rewrite run_line by (done || apply reset_settled). f_equal. unfold line_of. cbn. by rewrite !bit_0.
  - intros k Hk. apply group_irq_lines; [done |]. apply run_words; [done |]. by intros ?; split.
Qed.

(** The two disciplines on the automaton.  An edge line that stays up is reported once. *)
Lemma edge_reported_once v n : l_type v = false → l_raw v = true →
  l_pend (line_run (Ack true :: repeat (Drive true) n) v) = false.
Proof.
  destruct v as [r d l t e p]. cbn. intros -> ->. unfold settle, asserting. cbn.
  rewrite andb_false_r. cbn. rewrite andb_false_r. cbn. destruct n as [| n]; [done |]. cbn.
  induction n; [done | cbn; done].
Qed.

Lemma gpioic_refines_lines_witness :
  let ops := [IcWrite (GPIOIC_INTTYPE + 4) 0x100; IcWrite (GPIOIC_INTEN + 4) 0x100; IcWrite (GPIOIC_INTLEVEL + 4) 0x100;
              SetLine 40 true] in
  s5l_gpioic_pending 40 (gpioic_run ops s5l_gpioic_reset) = true.
Proof.
  intros ops. assert (Forall op_ok ops) as Hops
    by (unfold ops; repeat apply Forall_cons_2; try apply Forall_nil_2; cbn; (by split) || done).
  destruct (gpioic_refines_lines ops Hops) as [Hl _].
  destruct (Hl 40) as (_ & Hp & _); [by split |]. rewrite Hp. by vm_compute.
Defined.

(** ** Pins *)

Section pin_facts.
Context {W : Type}.
Implicit Types g : s5l_gpio W.

Lemma pin_reg_word k : S5L_GPIO_PIN_REG k .>> 2 = k * 8 + 1.
Proof.
  unfold S5L_GPIO_PIN_REG. rewrite Z.shiftr_div_pow2 by lia. change (2 ^ 2) with 4.
  replace (k * 32 + 4) with ((k * 8 + 1) * 4) by lia. by rewrite Z.div_mul.
Qed.

Lemma pin_bit p g : p .>> 8 < S5L_GPIO_PORTS → s5l_gpio_pin p g = bit (pin_words g (p .>> 8)) (p mod 32).
Proof.
  intros Hp. unfold s5l_gpio_pin. rewrite (proj2 (Z.leb_gt _ _)) by done.
  change 0x1f with 31. rewrite line_bit, bit_test by (by apply Z.mod_pos_bound). apply negb_involutive.
Qed.

(** The bytes of a level register are the only ones that are. *)
Lemma pin_reg_byte off k : 0 <= off → 0 <= k < S5L_GPIO_PORTS → off .>> 2 = k * 8 + 1 → is_pin_reg off = true.
Proof.
  intros Ho Hk E. unfold is_pin_reg. rewrite Z.shiftr_div_pow2 in E by lia. change (2 ^ 2) with 4 in E.
  assert (off .& wnot 3 = off - off mod 4 ∨ 2 ^ 32 <= off) as [Hw | Hbig].
  { destruct (Z_lt_le_dec off (2 ^ 32)) as [Hlt |]; [left | by right].
    apply Z.bits_inj'. intros i Hi. rewrite Z.land_spec, testbit_wnot by done.
    replace (off - off mod 4) with (Z.shiftl (off / 4) 2)
      by (rewrite Z.shiftl_mul_pow2 by lia; pose proof (Z.div_mod off 4 ltac:(lia)); lia).
    rewrite Z.shiftl_spec by done. change (off / 4) with (off / 2 ^ 2).
    rewrite <- (Z.shiftr_div_pow2 off 2) by lia.
    destruct (Z_lt_le_dec i 2) as [H2 | H2].
    - rewrite (Z.testbit_neg_r _ (i - 2)) by lia. assert (i = 0 ∨ i = 1) as [-> | ->] by lia; apply andb_false_r.
    - rewrite Z.shiftr_spec by lia. replace (i - 2 + 2) with i by lia.
      rewrite (uint_high 2 3) by (done || lia). destruct (Z.ltb_spec i 32); [by rewrite andb_true_r |].
      by rewrite (uint_high 32 off) by (lia || (split; lia)). }
  - rewrite Hw. pose proof (Z.div_mod off 4 ltac:(lia)). unfold S5L_GPIO_PORTS in *.
    replace (off - off mod 4) with (k * 32 + 4) by lia. rewrite (proj2 (Z.ltb_ge _ _)) by lia.
    replace (k * 32 + 4 - 4) with (k * 32) by lia. rewrite Z.mod_mul, Z.div_mul by lia. cbn. lia.
  - pose proof (Z.div_mod off 4 ltac:(lia)). pose proof (Z.mod_pos_bound off 4 ltac:(lia)).
    unfold S5L_GPIO_PORTS in *. lia.
Qed.

Lemma store_keeps_pins off val bytes r k : 0 <= off → 0 <= k < S5L_GPIO_PORTS →
  store_bytes off val bytes r (k * 8 + 1) = r (k * 8 + 1).
Proof.
  intros Ho Hk. unfold store_bytes.
  apply (for_range_inv (fun r' => r' (k * 8 + 1) = r (k * 8 + 1))); [| done].
  intros i r' Hi <-. unfold store_byte. destruct (is_pin_reg (off + i)) eqn:E; [done |].
  apply fn_lookup_insert_ne. intros Ek. by rewrite (pin_reg_byte (off + i) k) in E by (lia || done).
Qed.

(** The pin a command drives, if it drives one. *)
Definition commanded (val p : Z) : bool :=
  (fld val 16 0xff =? p .>> 8) && (fld val 8 0xff =? p mod 256)
  && (fld val 1 7 =? S5L_GPIO_FUNC_OUT).

Lemma pin_mod p : 0 <= p → p mod 256 < 32 → p mod 32 = p mod 256.
Proof.
  intros H0 Hb. rewrite <- (Z.mod_small (p mod 256) 32) by (pose proof (Z.mod_pos_bound p 256); lia).
  change 256 with (32 * 8). rewrite Z.rem_mul_r by lia.
  by rewrite (Z.mul_comm 32), Z.mod_add, Z.mod_mod by lia.
Qed.

Lemma pin_of p r x : 0 <= p → p .>> 8 < S5L_GPIO_PORTS → p mod 256 < 32 →
  s5l_gpio_pin p (@MkGpio W r x) = bit (r ((p .>> 8) * 8 + 1)) (p mod 256).
Proof. intros H0 Hp Hb. rewrite pin_bit, pin_mod by done. unfold pin_words. by rewrite pin_reg_word. Qed.

(** the guest moves a pin by a function-select word and by nothing else.  After a store of
    any width anywhere in the page, a pin has its old level, unless the store was a whole
    word to the function-select register that makes this very pin a driven output: then it
    has the level of bit 0. *)
Theorem guest_pin_command off val bytes p g w : 0 <= off → uint 32 val →
  p .>> 8 < S5L_GPIO_PORTS → 0 <= p → p mod 256 < 32 →
  s5l_gpio_pin p (fst (s5l_gpio_write off val bytes g w)) =
  if (off =? S5L_GPIO_FSEL) && (bytes =? 4) && commanded val p then bit val 0 else s5l_gpio_pin p g.
Proof.
  intros Ho Hv Hp H0 Hb. assert (0 <= p .>> 8) as Hp0 by (by apply Z.shiftr_nonneg).
  pose proof (Z.mod_pos_bound p 256 ltac:(lia)) as Hmp.
  assert (∀ r, s5l_gpio_pin p (MkGpio r (watch g)) = bit (r ((p .>> 8) * 8 + 1)) (p mod 256)) as Hpin
    by (intros; by apply pin_of).
  assert (s5l_gpio_pin p g = bit (regs g ((p .>> 8) * 8 + 1)) (p mod 256)) as Hold
    by (rewrite <- (Hpin (regs g)); by destruct g).
  unfold s5l_gpio_write. destruct (_ || _) eqn:Eb.
  { cbn [fst]. apply orb_true_iff in Eb. destruct (Z.eqb_spec bytes 4) as [-> |]; [destruct Eb; done |].
    by rewrite andb_false_r. }
  destruct (Z.ltb_spec S5L8900_DEV_SIZE (off + bytes)) as [Hbig |].
  { cbn [fst]. destruct (Z.eqb_spec off S5L_GPIO_FSEL) as [-> |]; [| done].
    unfold S5L8900_DEV_SIZE, S5L_GPIO_FSEL in Hbig. destruct (Z.eqb_spec bytes 4); [lia | done]. }
  cbn [fst]. rewrite Hpin. destruct (_ && _) eqn:Ef; cbn [andb].
  2: { by rewrite store_keeps_pins, Hold by (done || split; done). }
  unfold pin_command. fold (fld val 16 0xff) (fld val 8 0xff) (fld val 1 7). rewrite pin_reg_word.
  unfold commanded. set (grp := fld val 16 0xff). set (b := fld val 8 0xff).
  destruct (Z.eqb_spec grp (p .>> 8)) as [Eg | Hg]; cbn [andb].
  2: { destruct ((grp <? S5L_GPIO_PORTS) && (b <? 32) && _); [rewrite fn_lookup_insert_ne by lia |]; by rewrite store_keeps_pins, Hold by (done || split; done). }
  rewrite (proj2 (Z.ltb_lt grp S5L_GPIO_PORTS)) by lia. rewrite Eg.
  assert (0 <= b) as Hb0 by (apply Z.land_nonneg; right; lia).
  destruct (fld val 1 7 =? S5L_GPIO_FUNC_OUT).
  2: { rewrite !andb_false_r. by rewrite store_keeps_pins, Hold by (done || split; done). }
  destruct (Z.ltb_spec b 32) as [Hb32 |]; cbn [andb].
  2: { rewrite (proj2 (Z.eqb_neq b (p mod 256))) by lia. cbn.
       by rewrite store_keeps_pins, Hold by (done || split; done). }
  rewrite fn_lookup_insert, store_keeps_pins by (done || split; done).
  change 1 with (2 ^ 0) at 1. rewrite land_bit_zero, negb_involutive, andb_true_r by lia.
  destruct (bit val 0); [rewrite bit_lor_pow by lia | rewrite bit_clear_pow by lia];
    rewrite (Z.eqb_sym (p mod 256)), Hold; destruct (b =? p mod 256);
    by rewrite ?orb_true_r, ?orb_false_r, ?andb_false_r, ?andb_true_r.
Qed.

(** The board's own drive sets the pin it names and no other. *)
Lemma drive_pin p lvl g w q : 0 <= p → p .>> 8 < S5L_GPIO_PORTS → p mod 256 < 32 →
  0 <= q → q .>> 8 < S5L_GPIO_PORTS → q mod 256 < 32 →
  s5l_gpio_pin q (fst (s5l_gpio_drive p lvl g w)) = if q =? p then lvl else s5l_gpio_pin q g.
Proof.
  intros Hp0 Hp Hpb Hq0 Hq Hqb. unfold s5l_gpio_drive. change 0xff with (Z.ones 8).
  rewrite Z.land_ones by lia. change (2 ^ 8) with 256. pose proof (Z.mod_pos_bound p 256 ltac:(lia)).
  pose proof (Z.mod_pos_bound q 256 ltac:(lia)).
  rewrite (proj2 (Z.leb_gt _ _)), (proj2 (Z.ltb_ge _ _)) by lia. cbn [orb]. rewrite pin_reg_word.
  assert (s5l_gpio_pin q g = bit (regs g ((q .>> 8) * 8 + 1)) (q mod 256)) as Hold
    by (rewrite <- pin_of with (x := watch g) by done; by destruct g).
  assert ((q =? p) = ((q .>> 8 =? p .>> 8) && (q mod 256 =? p mod 256))) as Eq.
  { rewrite !Z.shiftr_div_pow2 by lia. change (2 ^ 8) with 256.
    pose proof (Z.div_mod p 256 ltac:(lia)). pose proof (Z.div_mod q 256 ltac:(lia)).
    destruct (Z.eqb_spec q p), (Z.eqb_spec (q / 256) (p / 256)), (Z.eqb_spec (q mod 256) (p mod 256)); try done;
      subst; try done; lia. }
  rewrite Eq. destruct (Z.eqb_spec ((regs g ((p .>> 8) * 8 + 1) .>> (p mod 256)) .& 1) (Z.b2z lvl)) as [Es |]; cbn [fst].
  - rewrite Hold. destruct (Z.eqb_spec (q .>> 8) (p .>> 8)) as [-> |]; [| done].
    destruct (Z.eqb_spec (q mod 256) (p mod 256)) as [-> |]; [| done]. cbn [andb].
    apply (f_equal (fun x => Z.testbit x 0)) in Es.
    rewrite Z.land_spec, testbit_shiftr', andb_true_r, Z.b2z_bit0 in Es by lia. by rewrite <- Es.
  - rewrite pin_of by done. destruct (Z.eqb_spec (q .>> 8) (p .>> 8)) as [E |]; cbn [andb].
    + rewrite E, fn_lookup_insert. destruct lvl; [rewrite bit_lor_pow by lia | rewrite bit_clear_pow by lia];
        rewrite Hold, E; destruct (q mod 256 =? p mod 256);
        by rewrite ?orb_true_r, ?orb_false_r, ?andb_false_r, ?andb_true_r.
    + rewrite fn_lookup_insert_ne by lia. by rewrite Hold.
Qed.
End pin_facts.

Lemma guest_pin_command_witness :
  s5l_gpio_pin 0x1605 (fst (s5l_gpio_write S5L_GPIO_FSEL 0x16050f 4 (@s5l_gpio_reset unit) tt)) = true.
Proof.
  rewrite (guest_pin_command S5L_GPIO_FSEL 0x16050f 4 0x1605); [by vm_compute | done | by split | done | done | done].
Defined.
