(* ===== verification/Buttons.v ===== *)
(** * The five buttons

    [core/src/soc/buttons.c]: the wiring of five switches to the pin block and to the
    interrupt controller of Gpio.v, and the host's interface to them.  The names of the
    buttons are left out.  [press_reported] is about the three together with the guest's
    driver: every press and release is seen, once. *)

From S2P Require Import Prelude Bits Gpio.

Definition S5L_BUTTON_HOLD := 0.
Definition S5L_BUTTON_MENU := 1.
Definition S5L_BUTTON_VOLUP := 2.
Definition S5L_BUTTON_VOLDOWN := 3.
Definition S5L_BUTTON_RINGERAB := 4.
Definition S5L_BUTTON_COUNT := 5.

Record wiring := MkWiring { w_pin : Z; w_line : Z; active_high : bool; inverts : bool }.
Definition WIRING : list wiring :=
  [MkWiring 0x1605 45 true false; MkWiring 0x1600 40 true false; MkWiring 0x1601 41 false false;
   MkWiring 0x1602 42 false false; MkWiring 0x1603 43 false true].
(** [WIRING[which]]. *)
Definition wired (which : Z) : wiring := nth (Z.to_nat which) WIRING (MkWiring 0 0 false false).

Definition s5l_button_pin (which : Z) : Z :=
  if S5L_BUTTON_COUNT <=? which then 0xffff else w_pin (wired which).
Definition s5l_button_line (which : Z) : Z :=
  if S5L_BUTTON_COUNT <=? which then S5L_GPIOIC_LINES else w_line (wired which).
Definition s5l_button_active_high (which : Z) : bool :=
  if S5L_BUTTON_COUNT <=? which then false else active_high (wired which).
Definition s5l_button_driver_inverts (which : Z) : bool :=
  if S5L_BUTTON_COUNT <=? which then false else inverts (wired which).
Definition s5l_button_level (which : Z) (pressed : bool) : bool :=
  if S5L_BUTTON_COUNT <=? which then false
  else Bool.eqb pressed (xorb (active_high (wired which)) (inverts (wired which))).

Record s5l_buttons := MkButtons { pressed_ : Z; sets : Z; refused : Z; edges : Z }.
Definition s5l_buttons_reset : s5l_buttons := MkButtons 0 0 0 0.

Definition s5l_buttons_held (which : Z) (b : s5l_buttons) : bool :=
  if S5L_BUTTON_COUNT <=? which then false else negb (pressed_ b .& (1 .<< which) =? 0).

Section buttons.
Context {W : Type}.

(** The board around the buttons: the pin block with its watchers' state, the controller. *)
Record board := MkBoard { btn : s5l_buttons; pins : s5l_gpio W; watchers : W; ic : s5l_gpioic }.

(** Both ends of one switch. *)
Definition drive_switch (which : Z) (lvl : bool) (x : board) : board :=
  let '(g, w) := s5l_gpio_drive (w_pin (wired which)) lvl (pins x) (watchers x) in
  MkBoard (btn x) g w (s5l_gpioic_set_line (w_line (wired which)) lvl (ic x)).

Definition s5l_buttons_apply (x : board) : board :=
  for_range (Z.to_nat S5L_BUTTON_COUNT) 0 (fun i x =>
    drive_switch i (s5l_button_level i (s5l_buttons_held i (btn x))) x) x.

Definition refuse (x : board) : bool * board :=
  let b := btn x in
  (false, MkBoard (MkButtons (pressed_ b) (sets b) (w64 (refused b + 1)) (edges b)) (pins x) (watchers x) (ic x)).

Definition s5l_buttons_set (which : Z) (pressed : bool) (x : board) : bool * board :=
  let b := btn x in
  if S5L_BUTTON_COUNT <=? which then refuse x
  else if Bool.eqb (s5l_buttons_held which b) pressed then
    (true, MkBoard (MkButtons (pressed_ b) (w64 (sets b + 1)) (refused b) (edges b)) (pins x) (watchers x) (ic x))
  else
    let line := w_line (wired which) in
    if en (ic x) (line .>> 5) .& (1 .<< (line .& 31)) =? 0 then refuse x
    else if s5l_gpioic_pending line (ic x) then refuse x
    else
      let p := if pressed then pressed_ b .| w8 (1 .<< which) else pressed_ b .& w8 (wnot (1 .<< which)) in
      let b := MkButtons p (w64 (sets b + 1)) (refused b) (w64 (edges b + 1)) in
      (true, drive_switch which (s5l_button_level which pressed) (MkBoard b (pins x) (watchers x) (ic x))).
End buttons.
Arguments board : clear implicits.

(** ** The guest's driver *)

(** What [handleInterrupt] does to a level line with the auto-flip bit: read the polarity
    word, store it with the line's bit inverted, acknowledge the line. *)
Definition flip_and_ack (line : Z) (g : s5l_gpioic) : s5l_gpioic :=
  let k := line / 32 in let b := 1 .<< (line mod 32) in
  let g := s5l_gpioic_write (GPIOIC_INTLEVEL + 4 * k) (level g k .^ b) g in
  s5l_gpioic_write (GPIOIC_INTSTAT + 4 * k) b g.

Section driver.
Context {W : Type}.

(** If the button's line is pending, serve it and sample the pin. *)
Definition serve (which : Z) (x : board W) : list bool * board W :=
  let line := w_line (wired which) in
  if s5l_gpioic_pending line (ic x)
  then ([s5l_gpio_pin (w_pin (wired which)) (pins x)],
        MkBoard (btn x) (pins x) (watchers x) (flip_and_ack line (ic x)))
  else ([], x).

(** The host moves the switch through [positions], the guest serving after each move:
    what the host was told, what the guest sampled. *)
Fixpoint moves (which : Z) (positions : list bool) (x : board W) : list bool * list bool * board W :=
  match positions with
  | [] => ([], [], x)
  | p :: positions =>
    let '(ok, x) := s5l_buttons_set which p x in
    let '(seen, x) := serve which x in
    let '(oks, seens, x) := moves which positions x in
    (ok :: oks, seen ++ seens, x)
  end.

(** The positions that differ from the one before. *)
Fixpoint changes (held : bool) (positions : list bool) : list bool :=
  match positions with
  | [] => []
  | p :: positions => if Bool.eqb held p then changes held positions else p :: changes p positions
  end.

(** The guest has armed the button's line as level-sensitive and served everything; the
    board drives the switch's position. *)
Record armed_button (which : Z) (x : board W) : Prop := {
  a_settled : settled (ic x);
  a_words : ∀ k, uint 32 (level (ic x) k);
  a_pressed : uint 8 (pressed_ (btn x));
  a_line : let v := line_of (ic x) (w_line (wired which)) in
    l_driven v = true ∧ l_type v = true ∧ l_en v = true ∧ l_pend v = false
    ∧ l_raw v = s5l_button_level which (s5l_buttons_held which (btn x));
  a_pin : s5l_gpio_pin (w_pin (wired which)) (pins x)
    = s5l_button_level which (s5l_buttons_held which (btn x)) }.
End driver.

(** ** Proofs *)

Lemma wired_range which : 0 <= which < S5L_BUTTON_COUNT →
  0 <= w_line (wired which) < S5L_GPIOIC_LINES
  ∧ 0 <= w_pin (wired which) ∧ w_pin (wired which) .>> 8 < S5L_GPIO_PORTS ∧ w_pin (wired which) mod 256 < 32.
Proof.
  unfold S5L_BUTTON_COUNT. intros H.
  assert (which = 0 ∨ which = 1 ∨ which = 2 ∨ which = 3 ∨ which = 4) as [-> | [-> | [-> | [-> | ->]]]] by lia; by vm_compute.
Qed.

Lemma level_flip which p : 0 <= which < S5L_BUTTON_COUNT →
  s5l_button_level which (negb p) = negb (s5l_button_level which p).
Proof.
  intros H. unfold s5l_button_level. rewrite (proj2 (Z.leb_gt _ _)) by lia. by destruct p, (xorb _ _).
Qed.

Lemma held_bit which b : 0 <= which < S5L_BUTTON_COUNT → s5l_buttons_held which b = bit (pressed_ b) which.
Proof.
  unfold S5L_BUTTON_COUNT. intros H. unfold s5l_buttons_held, S5L_BUTTON_COUNT.
  rewrite (proj2 (Z.leb_gt _ _)), bit_test by lia. apply negb_involutive.
Qed.

(** The register of the switches after a move. *)
Lemma pressed_after which (p : bool) x : 0 <= which < S5L_BUTTON_COUNT → uint 8 x →
  let x' := if p then x .| w8 (1 .<< which) else x .& w8 (wnot (1 .<< which)) in
  uint 8 x' ∧ bit x' which = p.
Proof.
  unfold S5L_BUTTON_COUNT. intros H Hx. cbv zeta. destruct p; split.
  - apply uint_lor; [lia | done | apply uint_w8].
  - rewrite bit_lor. unfold bit at 2, w8. rewrite testbit_wrap, one_shl, Z.pow2_bits_true, andb_true_r by lia.
    rewrite (proj2 (Z.ltb_lt which 8)) by lia. apply orb_true_r.
  - by apply uint_land_l.
  - rewrite bit_land. unfold bit at 2, w8. rewrite testbit_wrap by lia. fold (bit (wnot (1 .<< which)) which).
    rewrite bit_wnot, one_shl by lia. unfold bit at 2. rewrite Z.pow2_bits_true by lia.
    by rewrite !andb_false_r.
Qed.

(** Auto-flip and acknowledge on the automaton: the line falls quiet. *)
Lemma flip_and_ack_line line g : settled g → (∀ k, uint 32 (level g k)) → 0 <= line < S5L_GPIOIC_LINES →
  let g' := flip_and_ack line g in
  settled g' ∧ (∀ k, uint 32 (level g' k)) ∧
  line_of g' line = line_step (Ack true) (line_step (SetLevel (negb (l_level (line_of g line)))) (line_of g line)).
Proof.
  intros Hs Hw Hl. destruct (line_range line Hl) as [Hk Hi]. unfold flip_and_ack. set (k := line / 32) in *.
  set (i := line mod 32) in *. set (val := level g k .^ (1 .<< i)).
  assert (uint 32 val) as Hv by (apply uint_lxor; [lia | apply Hw | apply uint_one_shl]).
  set (g1 := s5l_gpioic_write _ val g).
  assert (settled g1) as Hs1 by (by apply (step_settled (IcWrite (GPIOIC_INTLEVEL + 4 * k) val))).
  split_and!.
  - apply (step_settled (IcWrite (GPIOIC_INTSTAT + 4 * k) (1 .<< i))); [done | apply uint_one_shl].
  - intros k'. unfold s5l_gpioic_write.
    rewrite (proj2 (decode_spec (GPIOIC_INTSTAT + 4 * k) GPIOIC_INTSTAT k)) by done.
    destruct (ic_decode (GPIOIC_INTSTAT + 4 * k) GPIOIC_INTLEVEL) as [k2 |] eqn:E.
    { apply decode_spec in E as [E ?]. unfold GPIOIC_INTSTAT, GPIOIC_INTLEVEL in E. lia. }
    cbn. unfold g1, s5l_gpioic_write.
    rewrite (proj2 (decode_spec (GPIOIC_INTLEVEL + 4 * k) GPIOIC_INTLEVEL k)) by done. cbn.
    destruct (decide (k' = k)) as [-> | ?]; [rewrite fn_lookup_insert; exact Hv | rewrite fn_lookup_insert_ne by done; apply Hw].
  - rewrite write_line by done. unfold g1. rewrite write_line by done. cbn [for_line]. fold k i.
    rewrite Z.eqb_refl. unfold GPIOIC_INTSTAT, GPIOIC_INTLEVEL. rewrite (proj2 (Z.eqb_neq _ _)) by lia.
    rewrite Z.eqb_refl. f_equal; [f_equal | f_equal; f_equal].
    + unfold bit. rewrite one_shl by done. apply Z.pow2_bits_true. lia.
    + unfold val. rewrite bit_lxor. unfold bit at 2. rewrite one_shl, Z.pow2_bits_true by lia.
      rewrite xorb_true_r. done.
Qed.

Section facts.
Context {W : Type}.
Implicit Types x : board W.

(** Driving the switch of a button. *)
Lemma drive_switch_spec which lvl x : 0 <= which < S5L_BUTTON_COUNT → settled (ic x) →
  let x' := drive_switch which lvl x in let line := w_line (wired which) in
  btn x' = btn x ∧ settled (ic x') ∧ level (ic x') = level (ic x)
  ∧ line_of (ic x') line = line_step (Drive lvl) (line_of (ic x) line)
  ∧ s5l_gpio_pin (w_pin (wired which)) (pins x') = lvl.
Proof.
  intros Hw Hs. destruct (wired_range which Hw) as (Hl & Hp0 & Hp & Hpb). unfold drive_switch.
  pose proof (drive_pin (w_pin (wired which)) lvl (pins x) (watchers x) _ Hp0 Hp Hpb Hp0 Hp Hpb) as Hd.
  destruct (s5l_gpio_drive _ _ _ _) as [g w]. cbn [btn ic pins fst] in *. rewrite Z.eqb_refl in Hd.
  split_and!; [done | | | | done].
  - apply (step_settled (SetLine (w_line (wired which)) lvl)); [done | exact (proj1 Hl)].
  - rewrite set_line_eq by done. cbv zeta. by repeat case_match.
  - rewrite set_line_line by (done || lia). cbn [for_line]. by rewrite Z.eqb_refl.
Qed.

Lemma move_spec which p x : 0 <= which < S5L_BUTTON_COUNT → armed_button which x →
  p ≠ s5l_buttons_held which (btn x) →
  let '(ok, x1) := s5l_buttons_set which p x in let '(seen, x2) := serve which x1 in
  ok = true ∧ seen = [s5l_button_level which p] ∧ armed_button which x2
  ∧ s5l_buttons_held which (btn x2) = p.
Proof.
  intros Hw [Hs Hwd Hpr (Hdr & Hty & Hen & Hpe & Hraw) Hpin] Hne. destruct (wired_range which Hw) as (Hl & _).
  destruct (line_range _ Hl) as [_ Hi]. unfold s5l_buttons_set. set (line := w_line (wired which)) in *.
  rewrite (proj2 (Z.leb_gt _ _)) by (destruct Hw; lia).
  assert (p = negb (s5l_buttons_held which (btn x))) as Hp by (by destruct p, (s5l_buttons_held which (btn x))).
  assert (Bool.eqb (s5l_buttons_held which (btn x)) p = false) as ->
    by (rewrite Hp; by destruct (s5l_buttons_held which (btn x))).
  rewrite line_group, line_bit, bit_test by done.
  change (bit (en (ic x) (line / 32)) (line mod 32)) with (l_en (line_of (ic x) line)). rewrite Hen. cbn [negb].
  rewrite pending_line by done. rewrite Hpe.
  destruct (pressed_after which p _ Hw Hpr) as [Hpr' Hbit]. set (pr := if p then _ else _) in *.
  set (lvl := s5l_button_level which p). set (x0 := MkBoard _ (pins x) (watchers x) (ic x)).
  destruct (drive_switch_spec which lvl x0 Hw Hs) as (Eb & Hs1 & El & Ev & Epin).
  set (x1 := drive_switch which lvl x0) in *. fold line in Ev. change (ic x0) with (ic x) in *.
  unfold serve. fold line. rewrite pending_line by done.
  assert (l_level (line_of (ic x) line) = lvl ∧ l_raw (line_of (ic x) line) = negb lvl) as [Hlev Hr].
  { rewrite Hraw. unfold lvl. rewrite Hp, level_flip, negb_involutive by done. split; [| done].
    pose proof (Hs line Hl) as Hset. unfold asserting in Hset. rewrite Hty, Hdr, Hen, Hpe, !andb_true_r, Hraw in Hset.
    destruct (l_level _), (s5l_button_level which (s5l_buttons_held which (btn x))); try done; by discriminate Hset. }
  destruct (line_of (ic x) line) as [r d l t e pe] eqn:Ex. cbn in Hdr, Hty, Hen, Hpe, Hlev, Hr, Hraw. subst.
  cbn [line_step] in Ev. unfold settle, asserting in Ev. cbn in Ev. rewrite eqb_reflx in Ev. cbn in Ev.
  rewrite Ev. cbn [l_pend with_pend]. split_and!; [done | by rewrite Epin | | ].
  - destruct (flip_and_ack_line line (ic x1) Hs1) as (Hs2 & Hw2 & Ev2); [by rewrite El | done |].
    rewrite Ev in Ev2. cbn in Ev2. unfold settle, asserting in Ev2. cbn in Ev2.
    split; cbn [btn pins ic watchers]; try done.
    + by rewrite Eb.
    + fold line. rewrite Ev2, Eb, held_bit by done. cbn [pressed_ x0 btn]. rewrite Hbit. fold lvl.
      unfold with_pend. cbn. by destruct lvl.
    + rewrite Epin, Eb, held_bit by done. cbn [pressed_ x0 btn]. by rewrite Hbit.
  - cbn [btn]. rewrite Eb, held_bit by done. exact Hbit.
Qed.
End facts.

Section theorem.
Context {W : Type}.
Implicit Types x : board W.

Lemma stay_spec which x : 0 <= which < S5L_BUTTON_COUNT → armed_button which x →
  let '(ok, x1) := s5l_buttons_set which (s5l_buttons_held which (btn x)) x in
  let '(seen, x2) := serve which x1 in
  ok = true ∧ seen = [] ∧ armed_button which x2
  ∧ s5l_buttons_held which (btn x2) = s5l_buttons_held which (btn x).
Proof.
  intros Hw [Hs Hwd Hpr Hline Hpin]. destruct (wired_range which Hw) as (Hl & _).
  unfold s5l_buttons_set. rewrite (proj2 (Z.leb_gt _ _)), eqb_reflx by (destruct Hw; lia).
  unfold serve. cbn [ic]. rewrite pending_line by done. cbv zeta in Hline.
  assert (l_pend (line_of (ic x) (w_line (wired which))) = false) as -> by apply Hline.
  by split_and!.
Qed.

(** C13: a button is reported exactly when it moves.  With the line armed as the guest's driver
    arms it, the host is never refused as long as the guest serves between two moves, and
    the guest samples once for every change of position, in order, the pin level that
    stands for the new position; a move to the position the switch is in is no interrupt. *)
Theorem press_reported which positions : ∀ x, 0 <= which < S5L_BUTTON_COUNT → armed_button which x →
  let '(oks, seen, x') := moves which positions x in
  Forall (eq true) oks
  ∧ seen = s5l_button_level which <$> changes (s5l_buttons_held which (btn x)) positions
  ∧ armed_button which x'.
Proof.
  induction positions as [| p positions IH]; intros x Hw Ha; [by cbn |]. cbn [moves changes].
  destruct (Bool.eqb (s5l_buttons_held which (btn x)) p) eqn:Ep.
  - apply Bool.eqb_prop in Ep as <-. pose proof (stay_spec which x Hw Ha) as Hst.
    destruct (s5l_buttons_set _ _ _) as [ok x1]. destruct (serve which x1) as [seen x2].
    destruct Hst as (-> & -> & Ha2 & Eh). specialize (IH x2 Hw Ha2).
    destruct (moves which positions x2) as [[oks seens] x3]. rewrite Eh in IH.
    destruct IH as (? & ? & ?). split_and!; [by constructor | done | done].
  - assert (p ≠ s5l_buttons_held which (btn x)) as Hne by (intros ->; by rewrite eqb_reflx in Ep).
    pose proof (move_spec which p x Hw Ha Hne) as Hm.
    destruct (s5l_buttons_set _ _ _) as [ok x1]. destruct (serve which x1) as [seen x2].
    destruct Hm as (-> & -> & Ha2 & Eh). specialize (IH x2 Hw Ha2).
    destruct (moves which positions x2) as [[oks seens] x3]. rewrite Eh in IH.
    destruct IH as (? & -> & ?). split_and!; [by constructor | done | done].
Qed.
End theorem.

(** The volume-up line armed by the driver, its pin at rest. *)
Definition demo_arm : list gpioic_op :=
  [SetLine 41 true; IcWrite (GPIOIC_INTTYPE + 4) 0x200; IcWrite (GPIOIC_INTSTAT + 4) 0x200;
   IcWrite (GPIOIC_INTEN + 4) 0x200].
Definition demo_board : board unit :=
  MkBoard s5l_buttons_reset (fst (s5l_gpio_drive 0x1601 true s5l_gpio_reset tt)) tt
    (gpioic_run demo_arm s5l_gpioic_reset).

Lemma demo_board_armed : armed_button S5L_BUTTON_VOLUP demo_board.
Proof.
  split; [| | by split | by vm_compute | by vm_compute].
  - apply run_settled; [| apply reset_settled].
    unfold demo_arm; repeat apply Forall_cons_2; try apply Forall_nil_2; cbn; (by split) || done.
  - assert (level (ic demo_board) = fun _ => 0) as -> by by vm_compute. by split.
Qed.

Lemma press_reported_witness :
  let '(oks, seen, _) := moves S5L_BUTTON_VOLUP [true; true; false] demo_board in
  Forall (eq true) oks ∧ seen = [false; true].
Proof.
  pose proof (press_reported S5L_BUTTON_VOLUP [true; true; false] demo_board ltac:(by split) demo_board_armed) as H.
  destruct (moves _ _ _) as [[oks seen] x']. destruct H as (Ho & Hs & _). by split.
Defined.
