(* ===== verification/I2c.v ===== *)
(** * The I2C controller

    [core/src/soc/i2c.c].  A slave is a record of callbacks over a state [W] that holds the
    contexts of all of them; the bus holds the slaves that were attached, in order.  A
    slave without a [start] function, which [s5l_i2c_attach] turns away, has no value here,
    and handles are never NULL.  What the controller owes a slave is stated as the message
    the slave sees ([deliver], [gather]), and the driver's register traffic is proved to
    be that message, for any slave. *)

From S2P Require Import Prelude.

Definition I2C_CON := 0x00.
Definition I2C_STAT := 0x04.
Definition I2C_ADD := 0x08.
Definition I2C_DS := 0x0c.
Definition I2C_BUSY := 0x10.
Definition I2C_ENABLE := 0x14.
Definition I2C_INT := 0x20.
Definition I2C_CON_ACKEN := 0x80.
Definition I2C_CON_RESUME := 0x10.
Definition I2C_STAT_MODE := 0xc0.
Definition I2C_STAT_MODE_MRX := 0x80.
Definition I2C_STAT_MODE_MTX := 0xc0.
Definition I2C_STAT_START := 0x20.
Definition I2C_STAT_ENABLE := 0x10.
Definition I2C_STAT_NAK := 0x01.
Definition I2C_INT_BYTE := 0x0100.
Definition I2C_INT_STOP := 0x2000.
Definition S5L_I2C_SLAVES := 4.
Definition S5L_I2C_UNKNOWN_OFF := 8.

Section bus.
Context {W : Type}.

Record i2c_slave := MkSlave {
  sl_addr : Z; sl_start : bool → W → bool * W; sl_write : option (Z → W → bool * W);
  sl_read : option (W → Z * W); sl_stop : option (W → W) }.

(** [unknown_off] holds the first [unknown_off_count] offsets, [slaves] the first
    [slave_count] slots. *)
Record s5l_i2c := MkI2c {
  con : Z; stat : Z; add : Z; ds : Z; enable : Z; intstat : Z;
  nak : bool; active : bool; reading : bool; sel : Z;
  starts : Z; bytes_tx : Z; bytes_rx : Z; naks : Z; unknown_reads : Z; unknown_writes : Z;
  unknown_off : list Z; slaves : list i2c_slave }.

Definition i_con (v : Z) (b : s5l_i2c) : s5l_i2c :=
  MkI2c v (stat b) (add b) (ds b) (enable b) (intstat b) (nak b) (active b) (reading b) (sel b)
    (starts b) (bytes_tx b) (bytes_rx b) (naks b) (unknown_reads b) (unknown_writes b)
    (unknown_off b) (slaves b).
Definition i_stat (v : Z) (b : s5l_i2c) : s5l_i2c :=
  MkI2c (con b) v (add b) (ds b) (enable b) (intstat b) (nak b) (active b) (reading b) (sel b)
    (starts b) (bytes_tx b) (bytes_rx b) (naks b) (unknown_reads b) (unknown_writes b)
    (unknown_off b) (slaves b).
Definition i_add (v : Z) (b : s5l_i2c) : s5l_i2c :=
  MkI2c (con b) (stat b) v (ds b) (enable b) (intstat b) (nak b) (active b) (reading b) (sel b)
    (starts b) (bytes_tx b) (bytes_rx b) (naks b) (unknown_reads b) (unknown_writes b)
    (unknown_off b) (slaves b).
Definition i_ds (v : Z) (b : s5l_i2c) : s5l_i2c :=
  MkI2c (con b) (stat b) (add b) v (enable b) (intstat b) (nak b) (active b) (reading b) (sel b)
    (starts b) (bytes_tx b) (bytes_rx b) (naks b) (unknown_reads b) (unknown_writes b)
    (unknown_off b) (slaves b).
Definition i_enable (v : Z) (b : s5l_i2c) : s5l_i2c :=
  MkI2c (con b) (stat b) (add b) (ds b) v (intstat b) (nak b) (active b) (reading b) (sel b)
    (starts b) (bytes_tx b) (bytes_rx b) (naks b) (unknown_reads b) (unknown_writes b)
    (unknown_off b) (slaves b).
Definition i_intstat (v : Z) (b : s5l_i2c) : s5l_i2c :=
  MkI2c (con b) (stat b) (add b) (ds b) (enable b) v (nak b) (active b) (reading b) (sel b)
    (starts b) (bytes_tx b) (bytes_rx b) (naks b) (unknown_reads b) (unknown_writes b)
    (unknown_off b) (slaves b).
Definition i_nak (v : bool) (b : s5l_i2c) : s5l_i2c :=
  MkI2c (con b) (stat b) (add b) (ds b) (enable b) (intstat b) v (active b) (reading b) (sel b)
    (starts b) (bytes_tx b) (bytes_rx b) (naks b) (unknown_reads b) (unknown_writes b)
    (unknown_off b) (slaves b).
Definition i_active (v : bool) (b : s5l_i2c) : s5l_i2c :=
  MkI2c (con b) (stat b) (add b) (ds b) (enable b) (intstat b) (nak b) v (reading b) (sel b)
    (starts b) (bytes_tx b) (bytes_rx b) (naks b) (unknown_reads b) (unknown_writes b)
    (unknown_off b) (slaves b).
Definition i_reading (v : bool) (b : s5l_i2c) : s5l_i2c :=
  MkI2c (con b) (stat b) (add b) (ds b) (enable b) (intstat b) (nak b) (active b) v (sel b)
    (starts b) (bytes_tx b) (bytes_rx b) (naks b) (unknown_reads b) (unknown_writes b)
    (unknown_off b) (slaves b).
Definition i_sel (v : Z) (b : s5l_i2c) : s5l_i2c :=
  MkI2c (con b) (stat b) (add b) (ds b) (enable b) (intstat b) (nak b) (active b) (reading b) v
    (starts b) (bytes_tx b) (bytes_rx b) (naks b) (unknown_reads b) (unknown_writes b)
    (unknown_off b) (slaves b).
Definition i_starts (v : Z) (b : s5l_i2c) : s5l_i2c :=
  MkI2c (con b) (stat b) (add b) (ds b) (enable b) (intstat b) (nak b) (active b) (reading b)
    (sel b) v (bytes_tx b) (bytes_rx b) (naks b) (unknown_reads b) (unknown_writes b)
    (unknown_off b) (slaves b).
Definition i_bytes_tx (v : Z) (b : s5l_i2c) : s5l_i2c :=
  MkI2c (con b) (stat b) (add b) (ds b) (enable b) (intstat b) (nak b) (active b) (reading b)
    (sel b) (starts b) v (bytes_rx b) (naks b) (unknown_reads b) (unknown_writes b) (unknown_off
    b) (slaves b).
Definition i_bytes_rx (v : Z) (b : s5l_i2c) : s5l_i2c :=
  MkI2c (con b) (stat b) (add b) (ds b) (enable b) (intstat b) (nak b) (active b) (reading b)
    (sel b) (starts b) (bytes_tx b) v (naks b) (unknown_reads b) (unknown_writes b) (unknown_off
    b) (slaves b).
Definition i_naks (v : Z) (b : s5l_i2c) : s5l_i2c :=
  MkI2c (con b) (stat b) (add b) (ds b) (enable b) (intstat b) (nak b) (active b) (reading b)
    (sel b) (starts b) (bytes_tx b) (bytes_rx b) v (unknown_reads b) (unknown_writes b)
    (unknown_off b) (slaves b).
Definition i_unknown_reads (v : Z) (b : s5l_i2c) : s5l_i2c :=
  MkI2c (con b) (stat b) (add b) (ds b) (enable b) (intstat b) (nak b) (active b) (reading b)
    (sel b) (starts b) (bytes_tx b) (bytes_rx b) (naks b) v (unknown_writes b) (unknown_off b)
    (slaves b).
Definition i_unknown_writes (v : Z) (b : s5l_i2c) : s5l_i2c :=
  MkI2c (con b) (stat b) (add b) (ds b) (enable b) (intstat b) (nak b) (active b) (reading b)
    (sel b) (starts b) (bytes_tx b) (bytes_rx b) (naks b) (unknown_reads b) v (unknown_off b)
    (slaves b).
Definition i_unknown_off (v : list Z) (b : s5l_i2c) : s5l_i2c :=
  MkI2c (con b) (stat b) (add b) (ds b) (enable b) (intstat b) (nak b) (active b) (reading b)
    (sel b) (starts b) (bytes_tx b) (bytes_rx b) (naks b) (unknown_reads b) (unknown_writes b) v
    (slaves b).
Definition i_slaves (v : list i2c_slave) (b : s5l_i2c) : s5l_i2c :=
  MkI2c (con b) (stat b) (add b) (ds b) (enable b) (intstat b) (nak b) (active b) (reading b)
    (sel b) (starts b) (bytes_tx b) (bytes_rx b) (naks b) (unknown_reads b) (unknown_writes b)
    (unknown_off b) v.

Definition s5l_i2c_reset : s5l_i2c :=
  MkI2c 0 0 0 0 0 0 false false false (-1) 0 0 0 0 0 0 [] [].

Definition s5l_i2c_attach (sl : i2c_slave) (b : s5l_i2c) : bool * s5l_i2c :=
  if (0x7f <? sl_addr sl) || (S5L_I2C_SLAVES <=? Z.of_nat (length (slaves b))) then (false, b)
  else if existsb (fun s => sl_addr s =? sl_addr sl) (slaves b) then (false, b)
  else (true, i_slaves (slaves b ++ [sl]) b).

(** The index of the first slave at [a] among those from index [i] on, or -1. *)
Fixpoint find_from (a i : Z) (l : list i2c_slave) : Z :=
  match l with
  | [] => -1
  | s :: l => if sl_addr s =? a then i else find_from a (i + 1) l
  end.
Definition find_slave (a : Z) (b : s5l_i2c) : Z := find_from a 0 (slaves b).

Definition i2c_note_unknown (off : Z) (b : s5l_i2c) : s5l_i2c :=
  if bool_decide (off ∈ unknown_off b) then b
  else if Z.of_nat (length (unknown_off b)) <? S5L_I2C_UNKNOWN_OFF
  then i_unknown_off (unknown_off b ++ [off]) b
  else b.

(** The selected slave, when [sel] names one. *)
Definition selected (b : s5l_i2c) : option i2c_slave :=
  if 0 <=? sel b then slaves b !! Z.to_nat (sel b) else None.
Definition stop_selected (b : s5l_i2c) (w : W) : W :=
  match selected b with
  | Some sl => match sl_stop sl with Some f => f w | None => w end
  | None => w
  end.

Definition do_stop (b : s5l_i2c) (w : W) : s5l_i2c * W :=
  if negb (active b) then (b, w)
  else
    let w := stop_selected b w in
    (i_intstat (intstat b .| I2C_INT_STOP) (i_sel (-1) (i_reading false (i_active false b))), w).

Definition count_nak (b : s5l_i2c) : s5l_i2c := i_naks (w64 (naks b + 1)) b.

Definition do_start (b : s5l_i2c) (w : W) : s5l_i2c * W :=
  let w := if active b then stop_selected b w else w in
  let b := i_reading (stat b .& I2C_STAT_MODE =? I2C_STAT_MODE_MRX) b in
  let b := i_sel (find_slave ((ds b .>> 1) .& 0x7f) b) b in
  let b := i_starts (w64 (starts b + 1)) (i_active true b) in
  let '(ack, w) := match selected b with Some sl => sl_start sl (reading b) w | None => (false, w) end in
  let b := i_nak (negb ack) b in
  let b := if nak b then count_nak b else b in
  (i_intstat (intstat b .| I2C_INT_BYTE) b, w).

Definition resume_read (b : s5l_i2c) (w : W) : s5l_i2c * W :=
  let was_nak := nak b in
  let '(val, b, w) :=
    match (if nak b then None else selected b) with
    | Some sl => match sl_read sl with
                 | Some f => let '(val, w) := f w in (val, b, w)
                 | None => (0, i_nak true b, w)
                 end
    | None => (0, if negb (nak b) then i_nak true b else b, w)
    end in
  let b := if nak b && negb was_nak then count_nak b else b in
  (i_bytes_rx (w64 (bytes_rx b + 1)) (i_ds val b), w).

Definition resume_write (b : s5l_i2c) (w : W) : s5l_i2c * W :=
  let '(ack, w) :=
    match (if nak b then None else selected b) with
    | Some sl => match sl_write sl with Some f => f (w8 (ds b)) w | None => (false, w) end
    | None => (false, w)
    end in
  let b := i_nak (negb ack) b in
  let b := if nak b then count_nak b else b in
  (i_bytes_tx (w64 (bytes_tx b + 1)) b, w).

Definition do_resume (b : s5l_i2c) (w : W) : s5l_i2c * W :=
  if negb (active b) then (b, w)
  else
    let '(b, w) := if reading b then resume_read b w else resume_write b w in
    (i_intstat (intstat b .| I2C_INT_BYTE) b, w).

Definition s5l_i2c_read (off : Z) (b : s5l_i2c) : Z * s5l_i2c :=
  if off =? I2C_CON then (con b, b)
  else if off =? I2C_STAT then ((stat b .& wnot I2C_STAT_NAK) .| (if nak b then I2C_STAT_NAK else 0), b)
  else if off =? I2C_ADD then (add b, b)
  else if off =? I2C_DS then (ds b, b)
  else if off =? I2C_BUSY then (0, b)
  else if off =? I2C_ENABLE then (enable b, b)
  else if off =? I2C_INT then (intstat b, b)
  else (0, i2c_note_unknown off (i_unknown_reads (w64 (unknown_reads b + 1)) b)).

(** [I2C_STAT]: START is an edge. *)
Definition write_stat (val : Z) (b : s5l_i2c) (w : W) : s5l_i2c * W :=
  let was_start := negb (stat b .& I2C_STAT_START =? 0) in
  let now_start := negb (val .& I2C_STAT_START =? 0) in
  let b := i_stat (val .& wnot I2C_STAT_NAK) b in
  if negb was_start && now_start then do_start b w
  else if was_start && negb now_start then do_stop b w
  else (b, w).

Definition s5l_i2c_write (off val : Z) (b : s5l_i2c) (w : W) : s5l_i2c * W :=
  if off =? I2C_CON then
    let b := i_con val b in
    if val .& I2C_CON_RESUME =? 0 then (b, w) else do_resume b w
  else if off =? I2C_STAT then write_stat val b w
  else if off =? I2C_ADD then (i_add val b, w)
  else if off =? I2C_DS then (i_ds (val .& 0xff) b, w)
  else if off =? I2C_BUSY then (b, w)
  else if off =? I2C_ENABLE then (i_enable val b, w)
  else if off =? I2C_INT then (i_intstat (intstat b .& wnot val) b, w)
  else (i2c_note_unknown off (i_unknown_writes (w64 (unknown_writes b + 1)) b), w).

Definition s5l_i2c_irq (b : s5l_i2c) : bool := negb (intstat b =? 0).

(** ** Traffic *)

Inductive i2c_op := Wr (off val : Z) | Rd (off : Z).

(** The values read, the bus and the slaves after a sequence of accesses. *)
Definition i2c_step (o : i2c_op) (b : s5l_i2c) (w : W) : list Z * s5l_i2c * W :=
  match o with
  | Wr off val => let '(b, w) := s5l_i2c_write off val b w in ([], b, w)
  | Rd off => let '(v, b) := s5l_i2c_read off b in ([v], b, w)
  end.
Fixpoint i2c_run (ops : list i2c_op) (b : s5l_i2c) (w : W) : list Z * s5l_i2c * W :=
  match ops with
  | [] => ([], b, w)
  | o :: ops =>
    let '(l, b, w) := i2c_step o b w in
    let '(m, b, w) := i2c_run ops b w in (l ++ m, b, w)
  end.
End bus.
Arguments i2c_slave : clear implicits.
Arguments s5l_i2c : clear implicits.

(** ** What a slave sees *)

Section messages.
Context {W : Type}.
Implicit Types (b : s5l_i2c W) (w : W) (sl : option (i2c_slave W)).

(** The slave that answers to [a]. *)
Definition slave_at (a : Z) b : option (i2c_slave W) := find (fun s => sl_addr s =? a) (slaves b).

(** The address phase; the flag is the absence of an acknowledge. *)
Definition addressed sl (rd : bool) w : bool * W :=
  match sl with Some s => let '(ok, w) := sl_start s rd w in (negb ok, w) | None => (true, w) end.

(** The bytes of a message up to the first that is not acknowledged. *)
Fixpoint deliver sl (bytes : list Z) (nk : bool) w : bool * W :=
  match bytes with
  | [] => (nk, w)
  | byte :: bytes =>
    match (if nk then None else sl ≫= sl_write) with
    | Some f => let '(ok, w) := f byte w in deliver sl bytes (negb ok) w
    | None => deliver sl bytes true w
    end
  end.
(** [n] bytes asked of the slave; a slave that cannot answer, or did not, reads as zeros. *)
Fixpoint gather sl (n : nat) (nk : bool) w : list Z * bool * W :=
  match n with
  | O => ([], nk, w)
  | S n =>
    match (if nk then None else sl ≫= sl_read) with
    | Some f =>
      let '(v, w) := f w in let '(l, nk, w) := gather sl n false w in (v :: l, nk, w)
    | None => let '(l, nk, w) := gather sl n true w in (0 :: l, nk, w)
    end
  end.
Definition finish sl w : W := match sl ≫= sl_stop with Some f => f w | None => w end.

Definition takes sl (bytes : list Z) w : bool * W :=
  let '(nk, w) := addressed sl false w in
  let '(nk, w) := deliver sl bytes nk w in (nk, finish sl w).
Definition gives sl (n : nat) w : list Z * bool * W :=
  let '(nk, w) := addressed sl true w in
  let '(l, nk, w) := gather sl n nk w in (l, nk, finish sl w).

(** The register traffic of the stock driver, which reads and clears the interrupt of
    every phase. *)
Definition ack_event (ev : Z) : list i2c_op := [Rd I2C_INT; Wr I2C_INT ev].
Definition start_ops (mode a : Z) : list i2c_op :=
  [Wr I2C_STAT (mode .| I2C_STAT_ENABLE); Wr I2C_DS (a .<< 1);
   Wr I2C_STAT ((mode .| I2C_STAT_ENABLE) .| I2C_STAT_START)] ++ ack_event I2C_INT_BYTE.
Definition send_ops (byte : Z) : list i2c_op :=
  [Wr I2C_DS byte; Wr I2C_CON (I2C_CON_ACKEN .| I2C_CON_RESUME)] ++ ack_event I2C_INT_BYTE.
Definition recv_ops : list i2c_op := Wr I2C_CON I2C_CON_RESUME :: ack_event I2C_INT_BYTE ++ [Rd I2C_DS].
Definition stop_ops : list i2c_op :=
  Wr I2C_STAT (I2C_STAT_MODE_MRX .| I2C_STAT_ENABLE) :: ack_event I2C_INT_STOP.
Definition write_message (a : Z) (bytes : list Z) : list i2c_op :=
  start_ops I2C_STAT_MODE_MTX a ++ flat_map send_ops bytes ++ stop_ops.
Definition read_message (a : Z) (n : nat) : list i2c_op :=
  start_ops I2C_STAT_MODE_MRX a ++ concat (replicate n recv_ops) ++ stop_ops.

(** ** Invariants *)

(** A message is in progress exactly while START is set. *)
Definition in_step b : Prop := active b = bit (stat b) 5.
Definition at_rest b : Prop := in_step b ∧ active b = false ∧ intstat b = 0.
Definition engaged sl (rd : bool) b : Prop :=
  in_step b ∧ active b = true ∧ intstat b = 0 ∧ reading b = rd ∧ selected b = sl.

Lemma i2c_run_app ops ops' b w :
  i2c_run (ops ++ ops') b w =
  let '(l, b, w) := i2c_run ops b w in let '(m, b, w) := i2c_run ops' b w in (l ++ m, b, w).
Proof.
  revert b w; induction ops as [|o ops IH]; intros b w; simpl.
  - by destruct (i2c_run ops' b w) as [[? ?] ?].
  - destruct (i2c_step o b w) as [[l b1] w1]. rewrite IH. destruct (i2c_run ops b1 w1) as [[l2 b2] w2].
    destruct (i2c_run ops' b2 w2) as [[l3 b3] w3]. by rewrite app_assoc.
Qed.

Lemma find_from_range a i l :
  find_from (W:=W) a i l = -1 ∨ i <= find_from a i l < i + Z.of_nat (length l).
Proof.
  revert i; induction l as [|s l IH]; intros i; simpl; [by left|].
  destruct (_ =? _); [right; lia|]. destruct (IH (i + 1)); [by left|right; lia].
Qed.

Lemma find_from_lookup a i l : 0 <= i →
  (if 0 <=? find_from (W:=W) a i l then l !! Z.to_nat (find_from a i l - i) else None)
  = find (fun s => sl_addr s =? a) l.
Proof.
  revert i; induction l as [|s l IH]; intros i Hi; simpl; [done|].
  destruct (sl_addr s =? a) eqn:E.
  - rewrite (proj2 (Z.leb_le 0 i)) by lia. by rewrite Z.sub_diag.
  - rewrite <- (IH (i + 1)) by lia. destruct (Z.leb_spec 0 (find_from a (i + 1) l)); [|done].
    destruct (find_from_range a (i + 1) l); [lia|].
    by replace (Z.to_nat (find_from a (i + 1) l - i))
      with (S (Z.to_nat (find_from a (i + 1) l - (i + 1)))) by lia.
Qed.

Lemma selected_found a b : selected (i_sel (find_slave a b) b) = slave_at a b.
Proof.
  unfold selected, slave_at, find_slave. simpl. rewrite <- (find_from_lookup a 0) by lia.
  by rewrite Z.sub_0_r.
Qed.

Lemma started v : negb (v .& I2C_STAT_START =? 0) = bit v 5.
Proof. unfold I2C_STAT_START. change 0x20 with (2 ^ 5). by rewrite land_bit_zero, negb_involutive by lia. Qed.

Lemma start_kept v : bit (v .& wnot I2C_STAT_NAK) 5 = bit v 5.
Proof. unfold bit. rewrite Z.land_spec. by rewrite andb_true_r. Qed.

Lemma address_byte a : 0 <= a < 128 → ((((a .<< 1) .& 0xff) .>> 1) .& 0x7f) = a.
Proof.
  intros Ha. change 0xff with (Z.ones 8). change 0x7f with (Z.ones 7).
  rewrite !Z.land_ones, Z.shiftr_div_pow2 by lia. unfold w32, wrap. rewrite Z.shiftl_mul_pow2 by lia.
  change (2 ^ 1) with 2. rewrite (Z.mod_small (a * 2)), (Z.mod_small (a * 2)), Z.div_mul, Z.mod_small by lia. done.
Qed.

Lemma byte_kept v : uint 8 v → w8 (v .& 0xff) = v.
Proof.
  intros [Hl Hh]. change 0xff with (Z.ones 8). rewrite Z.land_ones by lia. unfold w8, wrap.
  by rewrite !(Z.mod_small v) by lia.
Qed.

Definition direction_bits (rd : bool) : Z := if rd then I2C_STAT_MODE_MRX else I2C_STAT_MODE_MTX.

(** What a phase of the driver's traffic is: the interrupt it waits for, and a bus that is
    still in the message, with the slaves it had. *)
Definition phase_done sl (rd nk : bool) b b' : Prop :=
  engaged sl rd b' ∧ nak b' = nk ∧ slaves b' = slaves b.

Lemma do_start_spec b w rd sl : active b = false →
  (stat b .& I2C_STAT_MODE =? I2C_STAT_MODE_MRX) = rd → slave_at ((ds b .>> 1) .& 0x7f) b = sl → ∃ b',
  do_start b w = (b', snd (addressed sl rd w))
  ∧ active b' = true ∧ reading b' = rd ∧ selected b' = sl ∧ nak b' = fst (addressed sl rd w)
  ∧ stat b' = stat b ∧ intstat b' = intstat b .| I2C_INT_BYTE ∧ slaves b' = slaves b.
Proof.
  intros Ha <- <-. unfold do_start. rewrite Ha. cbv zeta.
  change (selected (i_starts _ (i_active _ (i_sel ?s (i_reading ?r b)))))
    with (selected (i_sel (find_slave ((ds b .>> 1) .& 0x7f) b) b)).
  pose proof (selected_found ((ds b .>> 1) .& 0x7f) b) as Hf. rewrite Hf.
  change (reading (i_starts _ (i_active _ (i_sel ?s (i_reading ?r b))))) with r.
  unfold addressed. revert Hf. destruct (slave_at _ b) as [sl|]; intros Hf.
  - destruct (sl_start sl _ w) as [ok w1]. eexists. split; [done|]. by destruct ok.
  - by eexists; repeat split.
Qed.

(** The messages of a read go on with the next byte, those of a write with the flag. *)
Definition next_byte sl (nk : bool) w : Z * bool * W :=
  match (if nk then None else sl ≫= sl_read) with
  | Some f => let '(v, w) := f w in (v, false, w)
  | None => (0, true, w)
  end.
Definition put_byte sl (byte : Z) (nk : bool) w : bool * W :=
  match (if nk then None else sl ≫= sl_write) with
  | Some f => let '(ok, w) := f byte w in (negb ok, w)
  | None => (true, w)
  end.

Lemma do_resume_write b w : active b = true → reading b = false → ∃ b',
  do_resume b w = (b', snd (put_byte (selected b) (w8 (ds b)) (nak b) w))
  ∧ active b' = true ∧ reading b' = false ∧ selected b' = selected b
  ∧ nak b' = fst (put_byte (selected b) (w8 (ds b)) (nak b) w)
  ∧ stat b' = stat b ∧ intstat b' = intstat b .| I2C_INT_BYTE ∧ slaves b' = slaves b.
Proof.
  intros Ha Hr. unfold do_resume, resume_write, put_byte. rewrite Ha, Hr. simpl.
  destruct (nak b) eqn:N; simpl; [by eexists; repeat split|].
  destruct (selected b) as [sl|] eqn:S; simpl; [|by eexists; repeat split].
  destruct (sl_write sl) as [f|]; simpl; [|by eexists; repeat split].
  destruct (f (w8 (ds b)) w) as [[] w1]; by eexists; repeat split.
Qed.

Lemma do_resume_read b w : active b = true → reading b = true → ∃ b',
  do_resume b w = (b', snd (next_byte (selected b) (nak b) w))
  ∧ active b' = true ∧ reading b' = true ∧ selected b' = selected b
  ∧ (ds b', nak b') = fst (next_byte (selected b) (nak b) w)
  ∧ stat b' = stat b ∧ intstat b' = intstat b .| I2C_INT_BYTE ∧ slaves b' = slaves b.
Proof.
  intros Ha Hr. unfold do_resume, resume_read, next_byte. rewrite Ha, Hr. simpl.
  destruct (nak b) eqn:N; simpl; [rewrite N; simpl; eexists; repeat split; simpl; by rewrite ?N|].
  destruct (selected b) as [sl|] eqn:S; simpl; [|by eexists; repeat split].
  destruct (sl_read sl) as [f|]; simpl; [|by eexists; repeat split].
  destruct (f w) as [v w1]; rewrite N; eexists; repeat split; simpl; by rewrite ?N.
Qed.

Lemma do_stop_spec b w : active b = true → ∃ b',
  do_stop b w = (b', finish (selected b) w) ∧ active b' = false
  ∧ stat b' = stat b ∧ intstat b' = intstat b .| I2C_INT_STOP ∧ nak b' = nak b ∧ slaves b' = slaves b.
Proof.
  intros Ha. unfold do_stop. rewrite Ha. eexists. split.
  { unfold stop_selected, finish. simpl. by destruct (selected b) as [sl|]. }
  by repeat split.
Qed.

(** One access of a run. *)
Lemma run_wr off val ops b w b1 w1 r :
  s5l_i2c_write off val b w = (b1, w1) → i2c_run ops b1 w1 = r → i2c_run (Wr off val :: ops) b w = r.
Proof. intros E <-. simpl. rewrite E. by destruct (i2c_run ops b1 w1) as [[? ?] ?]. Qed.
Lemma run_rd off ops b w v l b2 w2 :
  s5l_i2c_read off b = (v, b) → i2c_run ops b w = (l, b2, w2) →
  i2c_run (Rd off :: ops) b w = (v :: l, b2, w2).
Proof. intros E E2. simpl. by rewrite E, E2. Qed.

Lemma ack_run ev b w : intstat b = ev → ev .& wnot ev = 0 →
  i2c_run (ack_event ev) b w = ([ev], i_intstat 0 b, w).
Proof. intros <- E. simpl. by rewrite E. Qed.

Lemma start_run rd a b w : at_rest b → 0 <= a < 128 → ∃ b',
  i2c_run (start_ops (direction_bits rd) a) b w
    = ([I2C_INT_BYTE], b', snd (addressed (slave_at a b) rd w))
  ∧ phase_done (slave_at a b) rd (fst (addressed (slave_at a b) rd w)) b b'.
Proof.
  intros (Hs & Ha & Hi) Ra. unfold in_step in Hs. rewrite Ha in Hs.
  set (b2 := i_ds ((a .<< 1) .& 0xff) (i_stat ((direction_bits rd .| I2C_STAT_ENABLE) .& wnot I2C_STAT_NAK) b)).
  set (b3 := i_stat (((direction_bits rd .| I2C_STAT_ENABLE) .| I2C_STAT_START) .& wnot I2C_STAT_NAK) b2).
  destruct (do_start_spec b3 w rd (slave_at a b)) as (b4 & E4 & A4 & R4 & S4 & N4 & T4 & I4 & L4);
    [done|by destruct rd|change (ds b3) with ((a .<< 1) .& 0xff); by rewrite address_byte|].
  exists (i_intstat 0 b4). split; [|unfold phase_done, engaged, in_step; simpl; split_and!; try done; rewrite A4, T4; by destruct rd].
  eapply run_wr.
  { change (s5l_i2c_write I2C_STAT ?v b w) with (write_stat v b w). unfold write_stat.
    rewrite !started, <- Hs. destruct rd; reflexivity. }
  eapply run_wr; [reflexivity|]. eapply run_wr.
  { change (s5l_i2c_write I2C_STAT ?v ?b w) with (write_stat v b w). unfold write_stat.
    rewrite !started. transitivity (do_start b3 w); [by destruct rd|exact E4]. }
  apply ack_run; [rewrite I4|done]. change (intstat b3) with (intstat b). by rewrite Hi.
Qed.

Lemma send_run sl nk byte b w : engaged sl false b → nak b = nk → uint 8 byte → ∃ b',
  i2c_run (send_ops byte) b w = ([I2C_INT_BYTE], b', snd (put_byte sl byte nk w))
  ∧ phase_done sl false (fst (put_byte sl byte nk w)) b b'.
Proof.
  intros (Hs & Ha & Hi & Hr & <-) <- Hb. set (b2 := i_con (I2C_CON_ACKEN .| I2C_CON_RESUME) (i_ds (byte .& 0xff) b)).
  destruct (do_resume_write b2 w Ha Hr) as (b4 & E4 & A4 & R4 & S4 & N4 & T4 & I4 & L4).
  change (ds b2) with (byte .& 0xff) in E4, N4. rewrite byte_kept in E4, N4 by done.
  exists (i_intstat 0 b4). split; [|unfold phase_done, engaged, in_step; simpl; split_and!; try done; rewrite A4, T4; by rewrite <- Ha].
  eapply run_wr; [reflexivity|]. eapply run_wr; [exact E4|].
  apply ack_run; [rewrite I4|done]. change (intstat b2) with (intstat b). by rewrite Hi.
Qed.

Lemma recv_run sl nk b w : engaged sl true b → nak b = nk → ∃ b',
  i2c_run recv_ops b w
    = ([I2C_INT_BYTE; fst (fst (next_byte sl nk w))], b', snd (next_byte sl nk w))
  ∧ phase_done sl true (snd (fst (next_byte sl nk w))) b b'.
Proof.
  intros (Hs & Ha & Hi & Hr & <-) <-. set (b2 := i_con I2C_CON_RESUME b).
  destruct (do_resume_read b2 w Ha Hr) as (b4 & E4 & A4 & R4 & S4 & N4 & T4 & I4 & L4).
  change (selected b2) with (selected b) in *. change (nak b2) with (nak b) in *.
  rewrite <- N4. exists (i_intstat 0 b4). split; [|unfold phase_done, engaged, in_step; simpl; split_and!; try done; rewrite A4, T4; by rewrite <- Ha].
  eapply run_wr; [exact E4|]. change (intstat b2) with (intstat b) in I4. rewrite Hi in I4.
  by rewrite i2c_run_app, (ack_run I2C_INT_BYTE).
Qed.

Lemma stop_run sl rd b w : engaged sl rd b → ∃ b',
  i2c_run stop_ops b w = ([I2C_INT_STOP], b', finish sl w)
  ∧ at_rest b' ∧ nak b' = nak b ∧ slaves b' = slaves b.
Proof.
  intros (Hs & Ha & Hi & Hr & <-).
  set (b2 := i_stat ((I2C_STAT_MODE_MRX .| I2C_STAT_ENABLE) .& wnot I2C_STAT_NAK) b).
  destruct (do_stop_spec b2 w Ha) as (b4 & E4 & A4 & T4 & I4 & N4 & L4).
  exists (i_intstat 0 b4). split; [|unfold at_rest, in_step; simpl; split_and!; try done; by rewrite A4, T4].
  eapply run_wr.
  { change (s5l_i2c_write I2C_STAT ?v b w) with (write_stat v b w). unfold write_stat.
    rewrite !started. unfold in_step in Hs. rewrite <- Hs, Ha. exact E4. }
  apply ack_run; [rewrite I4|done]. change (intstat b2) with (intstat b). by rewrite Hi.
Qed.

Lemma sends_run sl bytes : ∀ nk b w, engaged sl false b → nak b = nk → Forall (uint 8) bytes → ∃ b',
  i2c_run (flat_map send_ops bytes) b w
    = (replicate (length bytes) I2C_INT_BYTE, b', snd (deliver sl bytes nk w))
  ∧ phase_done sl false (fst (deliver sl bytes nk w)) b b'.
Proof.
  induction bytes as [|byte bytes IH]; intros nk b w He Hn Hb; [by exists b|].
  destruct (Forall_cons_1 _ _ _ Hb) as [H8 Hb'].
  destruct (send_run sl nk byte b w He Hn H8) as (b1 & E1 & He1 & Hn1 & L1).
  destruct (IH _ b1 (snd (put_byte sl byte nk w)) He1 Hn1 Hb')
    as (b2 & E2 & He2 & Hn2 & L2).
  assert (D : deliver sl (byte :: bytes) nk w
              = deliver sl bytes (fst (put_byte sl byte nk w)) (snd (put_byte sl byte nk w))).
  { unfold put_byte. simpl. destruct (if nk then None else sl ≫= sl_write) as [f|]; [|done].
    by destruct (f byte w). }
  exists b2. rewrite D. split; [|split_and!; [done..|by rewrite L2]].
  cbn [flat_map]. by rewrite i2c_run_app, E1, E2.
Qed.

Definition read_answers (l : list Z) : list Z := flat_map (fun v => [I2C_INT_BYTE; v]) l.

Lemma recvs_run sl n : ∀ nk b w, engaged sl true b → nak b = nk → ∃ b',
  i2c_run (concat (replicate n recv_ops)) b w
    = (read_answers (fst (fst (gather sl n nk w))), b', snd (gather sl n nk w))
  ∧ phase_done sl true (snd (fst (gather sl n nk w))) b b'.
Proof.
  induction n as [|n IH]; intros nk b w He Hn; [by exists b|].
  destruct (recv_run sl nk b w He Hn) as (b1 & E1 & He1 & Hn1 & L1).
  destruct (IH _ b1 (snd (next_byte sl nk w)) He1 Hn1) as (b2 & E2 & He2 & Hn2 & L2).
  assert (D : gather sl (S n) nk w
              = let '(v, nk, w) := next_byte sl nk w in
                let '(l, nk, w) := gather sl n nk w in (v :: l, nk, w)).
  { unfold next_byte. simpl. destruct (if nk then None else sl ≫= sl_read) as [f|]; [|done].
    by destruct (f w). }
  exists b2. rewrite D. change (concat (replicate (S n) recv_ops)) with (recv_ops ++ concat (replicate n recv_ops)).
  destruct (next_byte sl nk w) as [[v nk1] w1]. cbn [fst snd] in *.
  destruct (gather sl n nk1 w1) as [[l nk2] w2]. cbn [fst snd] in *.
  split; [|split_and!; [done..|by rewrite L2]]. by rewrite i2c_run_app, E1, E2.
Qed.

(** Every access keeps a message in progress exactly while START is set. *)
Lemma do_resume_in_step b w : in_step b → in_step (fst (do_resume b w)).
Proof.
  intros H. destruct (active b) eqn:A; [|unfold do_resume; by rewrite A].
  unfold in_step in *. destruct (reading b) eqn:R.
  - destruct (do_resume_read b w A R) as (b' & -> & A' & _ & _ & _ & T' & _). cbn [fst]. by rewrite A', T', <- H, A.
  - destruct (do_resume_write b w A R) as (b' & -> & A' & _ & _ & _ & T' & _). cbn [fst]. by rewrite A', T', <- H, A.
Qed.

Lemma write_stat_in_step v b w : in_step b → in_step (fst (write_stat v b w)).
Proof.
  intros H. unfold write_stat. rewrite !started. set (b1 := i_stat _ b).
  assert (T1 : bit (stat b1) 5 = bit v 5) by apply start_kept.
  assert (A1 : active b1 = bit (stat b) 5) by exact H.
  unfold in_step. destruct (bit (stat b) 5) eqn:S, (bit v 5) eqn:V; cbn [negb andb fst].
  - by rewrite A1, T1.
  - destruct (do_stop_spec b1 w A1) as (b' & -> & A' & T' & _). cbn [fst]. by rewrite A', T'.
  - destruct (do_start_spec b1 w _ _ A1 eq_refl eq_refl) as (b' & -> & A' & _ & _ & _ & T' & _).
    cbn [fst]. by rewrite A', T'.
  - by rewrite A1, T1.
Qed.

Lemma note_in_step off b : in_step b → in_step (i2c_note_unknown off b).
Proof. intros H. unfold i2c_note_unknown. repeat case_match; exact H. Qed.

Lemma i2c_step_in_step o b w : in_step b → in_step (snd (fst (i2c_step o b w))).
Proof.
  intros H. destruct o as [off v|off]; simpl.
  - enough (in_step (fst (s5l_i2c_write off v b w))) by (by destruct (s5l_i2c_write off v b w)).
    unfold s5l_i2c_write. split_ifs; try exact H.
    + exact (do_resume_in_step (i_con v b) w H).
    + by apply write_stat_in_step.
    + apply note_in_step. exact H.
  - enough (in_step (snd (s5l_i2c_read off b))) by (by destruct (s5l_i2c_read off b)).
    unfold s5l_i2c_read. split_ifs; try exact H. apply note_in_step. exact H.
Qed.

Lemma i2c_run_in_step ops : ∀ b w, in_step b → in_step (snd (fst (i2c_run ops b w))).
Proof.
  induction ops as [|o ops IH]; intros b w H; [done|]. simpl.
  pose proof (i2c_step_in_step o b w H) as H1. destruct (i2c_step o b w) as [[l1 b1] w1].
  specialize (IH b1 w1 H1). by destruct (i2c_run ops b1 w1) as [[l2 b2] w2].
Qed.

(** So a START inside a message is not a repeated START: it is stored and starts nothing,
    whatever address and direction the driver has set up. *)
Lemma repeated_start_ignored ops b w v : in_step b →
  let '(_, b, w) := i2c_run ops b w in
  active b = true → bit v 5 = true → write_stat v b w = (i_stat (v .& wnot I2C_STAT_NAK) b, w).
Proof.
  intros H. pose proof (i2c_run_in_step ops b w H) as H1. destruct (i2c_run ops b w) as [[l b1] w1].
  intros A V. simpl in H1. unfold write_stat. rewrite !started, V, <- H1. by rewrite A.
Qed.
End messages.

(** ** The controller carries messages *)

Lemma message_written {W} (a : Z) (bytes : list Z) (b : s5l_i2c W) (w : W) :
  at_rest b → 0 <= a < 128 → Forall (uint 8) bytes → ∃ b',
  i2c_run (write_message a bytes) b w
    = (replicate (S (length bytes)) I2C_INT_BYTE ++ [I2C_INT_STOP], b',
       snd (takes (slave_at a b) bytes w))
  ∧ at_rest b' ∧ nak b' = fst (takes (slave_at a b) bytes w) ∧ slaves b' = slaves b.
Proof.
  intros Hb Ra H8.
  destruct (start_run false a b w Hb Ra) as (b1 & E1 & He1 & Hn1 & L1).
  unfold takes. destruct (addressed (slave_at a b) false w) as [nk w1]. cbn [fst snd] in *.
  destruct (sends_run _ bytes nk b1 w1 He1 Hn1 H8) as (b2 & E2 & He2 & Hn2 & L2).
  destruct (deliver (slave_at a b) bytes nk w1) as [nk2 w2]. cbn [fst snd] in *.
  destruct (stop_run _ _ b2 w2 He2) as (b3 & E3 & He3 & Hn3 & L3).
  exists b3. split; [|by rewrite Hn3, L3, L2, L1].
  unfold write_message. change I2C_STAT_MODE_MTX with (direction_bits false).
  by rewrite i2c_run_app, E1, i2c_run_app, E2, E3.
Qed.

Lemma message_read {W} (a : Z) (n : nat) (b : s5l_i2c W) (w : W) : at_rest b → 0 <= a < 128 → ∃ b',
  i2c_run (read_message a n) b w
    = (I2C_INT_BYTE :: read_answers (fst (fst (gives (slave_at a b) n w))) ++ [I2C_INT_STOP], b',
       snd (gives (slave_at a b) n w))
  ∧ at_rest b' ∧ nak b' = snd (fst (gives (slave_at a b) n w)) ∧ slaves b' = slaves b.
Proof.
  intros Hb Ra.
  destruct (start_run true a b w Hb Ra) as (b1 & E1 & He1 & Hn1 & L1).
  unfold gives. destruct (addressed (slave_at a b) true w) as [nk w1]. cbn [fst snd] in *.
  destruct (recvs_run _ n nk b1 w1 He1 Hn1) as (b2 & E2 & He2 & Hn2 & L2).
  destruct (gather (slave_at a b) n nk w1) as [[l nk2] w2]. cbn [fst snd] in *.
  destruct (stop_run _ _ b2 w2 He2) as (b3 & E3 & He3 & Hn3 & L3).
  exists b3. split; [|by rewrite Hn3, L3, L2, L1].
  unfold read_message. change I2C_STAT_MODE_MRX with (direction_bits true).
  by rewrite i2c_run_app, E1, i2c_run_app, E2, E3.
Qed.

(** C14: for every slave, the stock driver's register traffic is the message: writing
    delivers the address and the bytes to the slave at that address in order, up to the
    first it does not acknowledge, and reading returns the bytes it gives.  The driver
    gets an interrupt for every phase, so it never waits for one that does not come; it
    finds the controller at rest afterwards, with the last acknowledge in the status; and
    no other slave sees anything.  An address nobody has leaves every slave as it was and
    reads as zeros. *)
Theorem i2c_carries_messages {W} (a : Z) (bytes : list Z) (n : nat) (b : s5l_i2c W) (w : W) :
  at_rest b → 0 <= a < 128 → Forall (uint 8) bytes →
  (∃ b', i2c_run (write_message a bytes) b w
         = (replicate (S (length bytes)) I2C_INT_BYTE ++ [I2C_INT_STOP], b',
            snd (takes (slave_at a b) bytes w))
       ∧ at_rest b' ∧ nak b' = fst (takes (slave_at a b) bytes w) ∧ slaves b' = slaves b)
  ∧ (∃ b', i2c_run (read_message a n) b w
           = (I2C_INT_BYTE :: read_answers (fst (fst (gives (slave_at a b) n w))) ++ [I2C_INT_STOP], b',
              snd (gives (slave_at a b) n w))
         ∧ at_rest b' ∧ nak b' = snd (fst (gives (slave_at a b) n w)) ∧ slaves b' = slaves b).
Proof. split; [by apply message_written|by apply message_read]. Qed.

(** Where the context of a slave lives among those of all slaves. *)
Class Seat (W C : Type) := {
  context : W → C;
  reseat : C → W → W;
  context_reseat c w : context (reseat c w) = c;
  reseat_context w : reseat (context w) w = w;
  reseat_reseat c c' w : reseat c (reseat c' w) = reseat c w }.
#[export] Program Instance seat_alone C : Seat C C := {| context := id; reseat := fun c _ => c |}.
Solve All Obligations with done.
#[export] Program Instance seat_fst C D : Seat (C * D) C := {| context := fst; reseat := fun c w => (c, snd w) |}.
Solve All Obligations with by intros; destruct_and?; try destruct w.
#[export] Program Instance seat_snd C D : Seat (D * C) C := {| context := snd; reseat := fun c w => (fst w, c) |}.
Solve All Obligations with by intros; destruct_and?; try destruct w.

(** A slave that keeps the bytes it takes and gives them back, newest first. *)
Definition stack_slave : i2c_slave (list Z) :=
  MkSlave 0x20 (fun _ w => (true, w)) (Some (fun byte w => (Z.of_nat (length w) <? 2, byte :: w)))
    (Some (fun w => (default 0 (head w), tail w))) None.
Definition stack_bus : s5l_i2c (list Z) := snd (s5l_i2c_attach stack_slave s5l_i2c_reset).

Lemma i2c_carries_messages_witness : at_rest stack_bus ∧
  (∃ b', i2c_run (write_message 0x20 [7; 8; 9; 10]) stack_bus []
         = ([I2C_INT_BYTE; I2C_INT_BYTE; I2C_INT_BYTE; I2C_INT_BYTE; I2C_INT_BYTE; I2C_INT_STOP], b', [9; 8; 7])
         ∧ nak b' = true)
  ∧ ∃ b', i2c_run (read_message 0x20 1) stack_bus [5]
          = ([I2C_INT_BYTE; I2C_INT_BYTE; 5; I2C_INT_STOP], b', []) ∧ nak b' = false.
Proof.
  assert (B : at_rest stack_bus) by by vm_compute. split; [exact B|].
  assert (F : Forall (uint 8) [7; 8; 9; 10])
    by (repeat apply Forall_cons_2; try apply Forall_nil_2; by split).
  destruct (i2c_carries_messages 0x20 [7; 8; 9; 10] 1 stack_bus [] B) as [(b1 & E1 & _ & N1 & _) _]; [lia|done|].
  destruct (i2c_carries_messages 0x20 [7; 8; 9; 10] 1 stack_bus [5] B) as [_ (b2 & E2 & _ & N2 & _)]; [lia|done|].
  split; [exists b1|exists b2]; by split.
Defined.
