(* ===== verification/Pcf50635.v ===== *)
(** * The power-management unit and its clock

    [core/src/soc/pcf50635.c].  The registers are functions of the register number.  The
    host clock is a callback over its own context [H], which the record holds; without
    one the clock advances with guest time.  The unit is a slave of the I2C bus: its four
    callbacks act on it wherever it sits among the slaves' contexts. *)

From S2P Require Import Prelude Bits I2c.

Definition PCF50635_I2C_ADDR := 0x73.
Definition PCF50635_INT1 := 0x02.
Definition PCF50635_INT2 := 0x03.
Definition PCF50635_INT5 := 0x06.
Definition PCF50635_INT1MASK := 0x07.
Definition PCF50635_INT5MASK := 0x0b.
Definition PCF50635_OOCSHDWN := 0x0c.
Definition PCF50635_INT2_WAKE_BUTTON_HOLD := 0x04.
Definition PCF50635_INT1_USBINS := 0x04.
Definition PCF50635_INT1_USBREM := 0x08.
Definition PCF50635_MBCS1 := 0x4b.
Definition PCF50635_MBCS1_USB_PRESENT_VALID := 0x03.
Definition PCF50635_OOCSHDWN_GO_STANDBY := 0x01.
Definition PCF50635_OOCSHDWN_GO_HIBERNATE := 0x02.
Definition PCF50635_RTCSC := 0x59.
Definition PCF50635_RTCYR := 0x5f.
Definition PCF50635_MIN_TIME := 946684800.
Definition PCF50635_MAX_TIME := 4102444799.
Definition PCF50635_DEFAULT_TIME := 1262304000.
Definition PCF50635_UNKNOWN_REGS := 16.

(** ** The calendar *)

Record civil := MkCivil {
  year : Z; month : Z; day : Z; hour : Z; minute : Z; second : Z; weekday : Z }.

Definition clamp_time (t : Z) : Z :=
  if t <? PCF50635_MIN_TIME then PCF50635_MIN_TIME
  else if PCF50635_MAX_TIME <? t then PCF50635_MAX_TIME else t.

(** Days since the epoch to year, month and day. *)
Definition date_of_days (days : Z) : Z * Z * Z :=
  let z := w64 (days + 719468) in
  let era := z / 146097 in
  let doe := w32 (w64 (z - w64 (era * 146097))) in
  let yoe := (((doe -w doe / 1460) +w doe / 36524) -w doe / 146096) / 365 in
  let yy := w64 (yoe + w64 (era * 400)) in
  let doy := doe -w (((365 *w yoe) +w yoe / 4) -w yoe / 100) in
  let mp := ((5 *w doy) +w 2) / 153 in
  let dd := (doy -w ((153 *w mp) +w 2) / 5) +w 1 in
  let mm := if mp <? 10 then mp +w 3 else mp -w 9 in
  (if mm <=? 2 then w64 (yy + 1) else yy, mm, dd).

Definition s5l_pcf50635_civil (unix_seconds : Z) : civil :=
  let t := clamp_time unix_seconds in
  let days := t / 86400 in
  let sod := w32 (t mod 86400) in
  let '(y, m, d) := date_of_days days in
  MkCivil y m d (sod / 3600) ((sod / 60) mod 60) (sod mod 60) (w64 (days + 4) mod 7).

Definition bcd (val : Z) : Z :=
  let val := if val <? 0 then 0 else val in
  w8 (((val / 10) mod 10) * 16 + val mod 10).

(** ** The unit *)

Section unit.
Context {H : Type}.

(** [unknown_reg] holds the first [unknown_reg_count] registers. *)
Record s5l_pcf50635 := MkPmu {
  regs : Z → Z; written : Z → bool; seconds : Z; tick_hz : Z; tick_accum : Z;
  ptr : Z; have_ptr : bool; reading : bool;
  reg_reads : Z; reg_writes : Z; unknown_reads : Z; unknown_writes : Z; unknown_reg : list Z;
  host_now : option (H → Z * H); host_now_ctx : H }.

Definition m_regs (v : Z → Z) (p : s5l_pcf50635) : s5l_pcf50635 :=
  MkPmu v (written p) (seconds p) (tick_hz p) (tick_accum p) (ptr p) (have_ptr p) (reading p)
    (reg_reads p) (reg_writes p) (unknown_reads p) (unknown_writes p) (unknown_reg p) (host_now
    p) (host_now_ctx p).
Definition m_written (v : Z → bool) (p : s5l_pcf50635) : s5l_pcf50635 :=
  MkPmu (regs p) v (seconds p) (tick_hz p) (tick_accum p) (ptr p) (have_ptr p) (reading p)
    (reg_reads p) (reg_writes p) (unknown_reads p) (unknown_writes p) (unknown_reg p) (host_now
    p) (host_now_ctx p).
Definition m_seconds (v : Z) (p : s5l_pcf50635) : s5l_pcf50635 :=
  MkPmu (regs p) (written p) v (tick_hz p) (tick_accum p) (ptr p) (have_ptr p) (reading p)
    (reg_reads p) (reg_writes p) (unknown_reads p) (unknown_writes p) (unknown_reg p) (host_now
    p) (host_now_ctx p).
Definition m_tick_hz (v : Z) (p : s5l_pcf50635) : s5l_pcf50635 :=
  MkPmu (regs p) (written p) (seconds p) v (tick_accum p) (ptr p) (have_ptr p) (reading p)
    (reg_reads p) (reg_writes p) (unknown_reads p) (unknown_writes p) (unknown_reg p) (host_now
    p) (host_now_ctx p).
Definition m_tick_accum (v : Z) (p : s5l_pcf50635) : s5l_pcf50635 :=
  MkPmu (regs p) (written p) (seconds p) (tick_hz p) v (ptr p) (have_ptr p) (reading p)
    (reg_reads p) (reg_writes p) (unknown_reads p) (unknown_writes p) (unknown_reg p) (host_now
    p) (host_now_ctx p).
Definition m_ptr (v : Z) (p : s5l_pcf50635) : s5l_pcf50635 :=
  MkPmu (regs p) (written p) (seconds p) (tick_hz p) (tick_accum p) v (have_ptr p) (reading p)
    (reg_reads p) (reg_writes p) (unknown_reads p) (unknown_writes p) (unknown_reg p) (host_now
    p) (host_now_ctx p).
Definition m_have_ptr (v : bool) (p : s5l_pcf50635) : s5l_pcf50635 :=
  MkPmu (regs p) (written p) (seconds p) (tick_hz p) (tick_accum p) (ptr p) v (reading p)
    (reg_reads p) (reg_writes p) (unknown_reads p) (unknown_writes p) (unknown_reg p) (host_now
    p) (host_now_ctx p).
Definition m_reading (v : bool) (p : s5l_pcf50635) : s5l_pcf50635 :=
  MkPmu (regs p) (written p) (seconds p) (tick_hz p) (tick_accum p) (ptr p) (have_ptr p) v
    (reg_reads p) (reg_writes p) (unknown_reads p) (unknown_writes p) (unknown_reg p) (host_now
    p) (host_now_ctx p).
Definition m_reg_reads (v : Z) (p : s5l_pcf50635) : s5l_pcf50635 :=
  MkPmu (regs p) (written p) (seconds p) (tick_hz p) (tick_accum p) (ptr p) (have_ptr p)
    (reading p) v (reg_writes p) (unknown_reads p) (unknown_writes p) (unknown_reg p) (host_now
    p) (host_now_ctx p).
Definition m_reg_writes (v : Z) (p : s5l_pcf50635) : s5l_pcf50635 :=
  MkPmu (regs p) (written p) (seconds p) (tick_hz p) (tick_accum p) (ptr p) (have_ptr p)
    (reading p) (reg_reads p) v (unknown_reads p) (unknown_writes p) (unknown_reg p) (host_now
    p) (host_now_ctx p).
Definition m_unknown_reads (v : Z) (p : s5l_pcf50635) : s5l_pcf50635 :=
  MkPmu (regs p) (written p) (seconds p) (tick_hz p) (tick_accum p) (ptr p) (have_ptr p)
    (reading p) (reg_reads p) (reg_writes p) v (unknown_writes p) (unknown_reg p) (host_now p)
    (host_now_ctx p).
Definition m_unknown_writes (v : Z) (p : s5l_pcf50635) : s5l_pcf50635 :=
  MkPmu (regs p) (written p) (seconds p) (tick_hz p) (tick_accum p) (ptr p) (have_ptr p)
    (reading p) (reg_reads p) (reg_writes p) (unknown_reads p) v (unknown_reg p) (host_now p)
    (host_now_ctx p).
Definition m_unknown_reg (v : list Z) (p : s5l_pcf50635) : s5l_pcf50635 :=
  MkPmu (regs p) (written p) (seconds p) (tick_hz p) (tick_accum p) (ptr p) (have_ptr p)
    (reading p) (reg_reads p) (reg_writes p) (unknown_reads p) (unknown_writes p) v (host_now p)
    (host_now_ctx p).
Definition m_host_now (v : option (H → Z * H)) (p : s5l_pcf50635) : s5l_pcf50635 :=
  MkPmu (regs p) (written p) (seconds p) (tick_hz p) (tick_accum p) (ptr p) (have_ptr p)
    (reading p) (reg_reads p) (reg_writes p) (unknown_reads p) (unknown_writes p) (unknown_reg
    p) v (host_now_ctx p).
Definition m_host_now_ctx (v : H) (p : s5l_pcf50635) : s5l_pcf50635 :=
  MkPmu (regs p) (written p) (seconds p) (tick_hz p) (tick_accum p) (ptr p) (have_ptr p)
    (reading p) (reg_reads p) (reg_writes p) (unknown_reads p) (unknown_writes p) (unknown_reg
    p) (host_now p) v.

(** The cleared record; [none] is the context of a clock that is not bound. *)
Definition s5l_pcf50635_reset (hz : Z) (none : H) : s5l_pcf50635 :=
  MkPmu (fun _ => 0) (fun _ => false) PCF50635_DEFAULT_TIME hz 0 0 false false 0 0 0 0 [] None none.

Definition s5l_pcf50635_set_time (unix_seconds : Z) (p : s5l_pcf50635) : s5l_pcf50635 :=
  m_tick_accum 0 (m_seconds (clamp_time unix_seconds) p).

Definition s5l_pcf50635_tick (ticks : Z) (p : s5l_pcf50635) : s5l_pcf50635 :=
  match host_now p with
  | Some _ => p
  | None =>
    if tick_hz p =? 0 then p
    else
      let p := if seconds p <? PCF50635_MIN_TIME then m_seconds PCF50635_MIN_TIME p else p in
      let total := w64 (tick_accum p mod tick_hz p + ticks) in
      let advance := total / tick_hz p in
      if (PCF50635_MAX_TIME <=? seconds p) || (w64 (PCF50635_MAX_TIME - seconds p) <? advance)
      then m_tick_accum 0 (m_seconds PCF50635_MAX_TIME p)
      else m_tick_accum (total mod tick_hz p) (m_seconds (w64 (seconds p + advance)) p)
  end.

Definition is_rtc (reg : Z) : bool := (PCF50635_RTCSC <=? reg) && (reg <=? PCF50635_RTCYR).
Definition is_event_latch (reg : Z) : bool := (PCF50635_INT1 <=? reg) && (reg <=? PCF50635_INT5).
Definition is_event_mask (reg : Z) : bool := (PCF50635_INT1MASK <=? reg) && (reg <=? PCF50635_INT5MASK).

Definition rtc_byte (p : s5l_pcf50635) (reg : Z) : Z :=
  let c := s5l_pcf50635_civil (seconds p) in
  if reg =? 0x59 then bcd (second c)
  else if reg =? 0x5a then bcd (minute c)
  else if reg =? 0x5b then bcd (hour c)
  else if reg =? 0x5c then w8 (weekday c)
  else if reg =? 0x5d then bcd (day c)
  else if reg =? 0x5e then bcd (month c)
  else if reg =? 0x5f then bcd (year c - 2000)
  else 0.

Definition note_unknown_read (reg : Z) (p : s5l_pcf50635) : s5l_pcf50635 :=
  let p := m_unknown_reads (w64 (unknown_reads p + 1)) p in
  if bool_decide (reg ∈ unknown_reg p) then p
  else if Z.of_nat (length (unknown_reg p)) <? PCF50635_UNKNOWN_REGS
  then m_unknown_reg (unknown_reg p ++ [reg]) p
  else p.

Definition pmu_reg_read (reg : Z) (p : s5l_pcf50635) : Z * s5l_pcf50635 :=
  let p := m_reg_reads (w64 (reg_reads p + 1)) p in
  if is_rtc reg then (rtc_byte p reg, p)
  else if reg =? PCF50635_MBCS1 then (regs p reg, p)
  else if is_event_latch reg then (regs p reg, m_regs (<[reg := 0]> (regs p)) p)
  else if is_event_mask reg || (reg =? PCF50635_OOCSHDWN) then (regs p reg, p)
  else if written p reg then (regs p reg, p)
  else (0, note_unknown_read reg p).

Definition pmu_reg_write (reg val : Z) (p : s5l_pcf50635) : s5l_pcf50635 :=
  let p := m_reg_writes (w64 (reg_writes p + 1)) p in
  if reg =? PCF50635_MBCS1 then p
  else if is_rtc reg then m_unknown_writes (w64 (unknown_writes p + 1)) p
  else m_written (<[reg := true]> (written p)) (m_regs (<[reg := val]> (regs p)) p).

Definition s5l_pcf50635_set_usb (connected : bool) (p : s5l_pcf50635) : s5l_pcf50635 :=
  let was_connected := negb (regs p PCF50635_MBCS1 .& 1 =? 0) in
  if Bool.eqb was_connected connected then p
  else
    let r := regs p in
    let r := <[PCF50635_MBCS1 := if connected then r PCF50635_MBCS1 .| PCF50635_MBCS1_USB_PRESENT_VALID
                                 else r PCF50635_MBCS1 .& w8 (wnot PCF50635_MBCS1_USB_PRESENT_VALID)]> r in
    let r := <[PCF50635_INT1 := r PCF50635_INT1
                 .| (if connected then PCF50635_INT1_USBINS else PCF50635_INT1_USBREM)]> r in
    m_regs r p.

Definition sync_host_clock (p : s5l_pcf50635) : s5l_pcf50635 :=
  match host_now p with
  | None => p
  | Some now =>
    let '(t, h) := now (host_now_ctx p) in
    let p := m_host_now_ctx h p in
    if (PCF50635_MIN_TIME <=? t) && (t <=? PCF50635_MAX_TIME) then s5l_pcf50635_set_time t p else p
  end.

Definition s5l_pcf50635_set_host_clock (now : option (H → Z * H)) (h : H) (p : s5l_pcf50635) : s5l_pcf50635 :=
  sync_host_clock (m_host_now_ctx h (m_host_now now p)).

Definition pmu_start (rd : bool) (p : s5l_pcf50635) : bool * s5l_pcf50635 :=
  let p := m_reading rd p in
  let p := if rd then sync_host_clock p else p in
  (true, if negb rd then m_have_ptr false p else p).

Definition pmu_write (byte : Z) (p : s5l_pcf50635) : bool * s5l_pcf50635 :=
  if negb (have_ptr p) then (true, m_have_ptr true (m_ptr byte p))
  else
    let p := pmu_reg_write (ptr p) byte p in
    (true, m_ptr (w8 (ptr p + 1)) p).

Definition pmu_read (p : s5l_pcf50635) : Z * s5l_pcf50635 :=
  let '(val, p) := pmu_reg_read (ptr p) p in (val, m_ptr (w8 (ptr p + 1)) p).

(** The register pointer survives STOP. *)
Definition pmu_stop (p : s5l_pcf50635) : s5l_pcf50635 := p.

Definition s5l_pcf50635_irq (p : s5l_pcf50635) : bool :=
  existsb (fun i => negb (regs p (PCF50635_INT1 + i) .& w8 (wnot (regs p (PCF50635_INT1MASK + i))) =? 0))
    (seqZ 0 5).

Definition s5l_pcf50635_in_standby (p : s5l_pcf50635) : bool :=
  written p PCF50635_OOCSHDWN && negb (regs p PCF50635_OOCSHDWN .& PCF50635_OOCSHDWN_GO_STANDBY =? 0).
Definition s5l_pcf50635_in_hibernation (p : s5l_pcf50635) : bool :=
  written p PCF50635_OOCSHDWN && negb (regs p PCF50635_OOCSHDWN .& PCF50635_OOCSHDWN_GO_HIBERNATE =? 0).

Definition s5l_pcf50635_wake_gpio (p : s5l_pcf50635) : bool * s5l_pcf50635 :=
  if negb (s5l_pcf50635_in_hibernation p) || s5l_pcf50635_in_standby p then (false, p)
  else
    (true, m_regs (<[PCF50635_OOCSHDWN :=
                     regs p PCF50635_OOCSHDWN .& w8 (wnot PCF50635_OOCSHDWN_GO_HIBERNATE)]> (regs p)) p).

Definition s5l_pcf50635_wake_onkey (p : s5l_pcf50635) : s5l_pcf50635 :=
  let r := <[PCF50635_INT2 := regs p PCF50635_INT2 .| PCF50635_INT2_WAKE_BUTTON_HOLD]> (regs p) in
  let r := <[PCF50635_OOCSHDWN := r PCF50635_OOCSHDWN
               .& w8 (wnot (PCF50635_OOCSHDWN_GO_STANDBY .| PCF50635_OOCSHDWN_GO_HIBERNATE))]> r in
  m_regs r p.
End unit.
Arguments s5l_pcf50635 : clear implicits.

(** The slave of a unit that sits in the contexts [W]. *)
Definition s5l_pcf50635_bind {W H} `{Seat W (s5l_pcf50635 H)} : i2c_slave W :=
  MkSlave PCF50635_I2C_ADDR
    (fun rd w => let '(ok, p) := pmu_start rd (context w) in (ok, reseat p w))
    (Some (fun byte w => let '(ok, p) := pmu_write byte (context w) in (ok, reseat p w)))
    (Some (fun w => let '(v, p) := pmu_read (context w) in (v, reseat p w)))
    (Some (fun w => reseat (pmu_stop (context w)) w)).

(** ** The calendar is the Gregorian calendar *)

Definition leap (y : Z) : bool := (y mod 4 =? 0) && (negb (y mod 100 =? 0) || (y mod 400 =? 0)).
Definition month_days (lp : bool) (m : Z) : Z :=
  if m =? 2 then (if lp then 29 else 28)
  else if (m =? 4) || (m =? 6) || (m =? 9) || (m =? 11) then 30 else 31.
Definition year_days (y : Z) : Z := if leap y then 366 else 365.
Definition zsum (l : list Z) : Z := foldr Z.add 0 l.

(** Days from 2000-01-01 to a date, counted year by year and month by month. *)
Definition days_before (y m : Z) : Z :=
  zsum (map year_days (seqZ 2000 (y - 2000))) + zsum (map (month_days (leap y)) (seqZ 1 (m - 1))).
Definition is_date (y m d : Z) : Prop := 1 <= m <= 12 ∧ 1 <= d <= month_days (leap y) m.

(** A day of the year counted from 1 March, as month and day; [lp] is the leapness of the
    year the month falls in. *)
Definition march_date (doy : Z) : Z * Z :=
  let mp := (5 * doy + 2) / 153 in
  (if mp <? 10 then mp + 3 else mp - 9, doy - (153 * mp + 2) / 5 + 1).
Definition march_ok (lp : bool) (doy : Z) : bool :=
  let '(m, d) := march_date doy in
  let before := zsum (map (month_days lp) (seqZ 1 (m - 1))) + d - 1 in
  (1 <=? m) && (m <=? 12) && (1 <=? d)
  && (if m <=? 2 then (306 <=? doy) && (before =? doy - 306) && ((d <=? month_days lp m) || ((doy =? 365) && negb lp))
      else (before =? doy + (if lp then 60 else 59)) && (d <=? month_days lp m) && (doy <? 306)).

Lemma march_table lp doy : 0 <= doy <= 365 → march_ok lp doy = true.
Proof.
  intros H. assert (T : forallb (fun i => march_ok true i && march_ok false i) (seqZ 0 366) = true) by reflexivity.
  rewrite forallb_forall in T. specialize (T doy). rewrite andb_true_iff in T.
  destruct lp; apply T, list_elem_of_In, elem_of_seqZ; lia.
Qed.

Lemma years_table y : 0 <= y <= 99 →
  zsum (map year_days (seqZ 2000 y)) = 365 * y + (y + 3) / 4 ∧ leap (2000 + y) = (y mod 4 =? 0).
Proof.
  intros H.
  assert (T : forallb (fun y => (zsum (map year_days (seqZ 2000 y)) =? 365 * y + (y + 3) / 4)
                                && Bool.eqb (leap (2000 + y)) (y mod 4 =? 0)) (seqZ 0 100) = true) by reflexivity.
  rewrite forallb_forall in T. specialize (T y). rewrite andb_true_iff, Z.eqb_eq, eqb_true_iff in T.
  apply T, list_elem_of_In, elem_of_seqZ; lia.
Qed.

(** Day [k] after 2000-03-01 splits into years from March and a day of the year. *)
Lemma year_split k : 0 <= k < 36524 →
  let y := (k - k / 1460) / 365 in
  0 <= y <= 99 ∧ 0 <= k - (365 * y + y / 4) ∧ k < 365 * (y + 1) + (y + 1) / 4.
Proof. intros Hk y. subst y. Z.to_euclidean_division_equations. lia. Qed.

Lemma date_split d : 11017 <= d < 47482 →
  let k := d - 11017 in
  let y := (k - k / 1460) / 365 in
  let doy := k - (365 * y + y / 4) in
  date_of_days d = let '(m, dd) := march_date doy in ((if m <=? 2 then 2000 + y + 1 else 2000 + y), m, dd).
Proof.
  intros Hd k y doy. assert (Hk : 0 <= k < 36465) by (unfold k; lia).
  destruct (year_split k) as (Hy & Hl & Hh); [lia|]. fold y in Hy, Hl, Hh. fold doy in Hl.
  assert (Hdoy : 0 <= doy <= 366) by (unfold doy; Z.to_euclidean_division_equations; lia).
  unfold date_of_days. assert (W : ∀ x, 0 <= x < 2 ^ 32 → w32 x = x) by (intros; by apply w32_small).
  assert (W' : ∀ x, 0 <= x < 2 ^ 32 → w64 x = x).
  { intros x Hx. apply wrap_small. unfold uint. lia. }
  rewrite (W' (d + 719468)) by lia.
  replace ((d + 719468) / 146097) with 5 by (Z.to_euclidean_division_equations; lia).
  rewrite (W' (5 * 146097)) by lia. replace (d + 719468 - 5 * 146097) with k by (unfold k; lia).
  rewrite (W' k), (W k) by lia.
  replace (k / 36524) with 0 by (Z.to_euclidean_division_equations; lia).
  replace (k / 146096) with 0 by (Z.to_euclidean_division_equations; lia).
  assert (Hq : 0 <= k / 1460 <= k) by (Z.to_euclidean_division_equations; lia).
  rewrite (W (k - k / 1460)), Z.add_0_r, Z.sub_0_r, !(W (k - k / 1460)) by lia. fold y.
  rewrite (W' (5 * 400)), (W' (y + 5 * 400)) by lia.
  replace (y / 100) with 0 by (Z.to_euclidean_division_equations; lia).
  assert (Hy4 : 0 <= y / 4 <= 25) by (Z.to_euclidean_division_equations; lia).
  rewrite (W (365 * y)), (W (365 * y + y / 4)), Z.sub_0_r, !(W (365 * y + y / 4)) by lia.
  rewrite (W (k - (365 * y + y / 4))) by (unfold doy in *; lia). fold doy.
  rewrite (W (5 * doy)), (W (5 * doy + 2)) by lia. unfold march_date. cbv zeta.
  set (mp := (5 * doy + 2) / 153).
  assert (Hmp : 0 <= mp <= 12 ∧ 0 <= (153 * mp + 2) / 5 <= doy)
    by (unfold mp; Z.to_euclidean_division_equations; lia).
  rewrite (W (153 * mp)), (W (153 * mp + 2)), (W (doy - _)), (W (doy - _ + 1)) by lia.
  destruct (Z.ltb_spec mp 10) as [Hm|Hm].
  - rewrite (W (mp + 3)) by lia. rewrite (proj2 (Z.leb_gt (mp + 3) 2)) by lia.
    do 2 f_equal. lia.
  - rewrite (W (mp - 9)) by lia. destruct (_ <=? 2); do 2 f_equal; rewrite ?W'; lia.
Qed.

Lemma date_early d : 10957 <= d < 11017 →
  let '(y, m, dd) := date_of_days d in days_before y m + dd - 1 = d - 10957 ∧ is_date y m dd.
Proof.
  intros Hd.
  assert (T : forallb (fun d => let '(y, m, dd) := date_of_days d in
      (days_before y m + dd - 1 =? d - 10957) && ((1 <=? m) && (m <=? 12)
      && ((1 <=? dd) && (dd <=? month_days (leap y) m)))) (seqZ 10957 60) = true) by (vm_compute; reflexivity).
  rewrite forallb_forall in T. specialize (T d). destruct (date_of_days d) as [[y m] dd].
  unfold is_date. rewrite !andb_true_iff, Z.eqb_eq, !Z.leb_le in T.
  apply T, list_elem_of_In, elem_of_seqZ. lia.
Qed.

Lemma year_sum n : 0 <= n <= 99 → zsum (map year_days (seqZ 2000 (2000 + n - 2000))) = 365 * n + (n + 3) / 4.
Proof. intros H. replace (2000 + n - 2000) with n by lia. by apply years_table. Qed.

(** The date the code computes is the date whose day that is. *)
Lemma date_of_days_correct d : 10957 <= d < 47482 →
  let '(y, m, dd) := date_of_days d in days_before y m + dd - 1 = d - 10957 ∧ is_date y m dd.
Proof.
  intros Hd. destruct (Z.ltb_spec d 11017) as [E|E]; [apply date_early; lia|].
  rewrite date_split by lia. set (k := d - 11017). set (y := (k - k / 1460) / 365).
  assert (Hk : 0 <= k < 36465) by (unfold k; lia).
  destruct (year_split k) as (Hy & Hl & Hh); [lia|]. fold y in Hy, Hl, Hh.
  set (doy := k - (365 * y + y / 4)) in *.
  assert (Hdoy : 0 <= doy <= 365 ∧ (doy = 365 → (y + 1) mod 4 = 0) ∧ (306 <= doy → y <= 98))
    by (unfold doy; Z.to_euclidean_division_equations; lia).
  destruct Hdoy as (Hdoy & Hleap & Hlast).
  destruct (march_date doy) as [m dd] eqn:E0.
  pose proof (march_table (leap (if m <=? 2 then 2000 + y + 1 else 2000 + y)) doy Hdoy) as T.
  unfold march_ok in T. rewrite E0 in T. unfold is_date, days_before.
  rewrite !andb_true_iff, !Z.leb_le in T. destruct T as [((Hm1 & Hm2) & Hd1) T].
  destruct (Z.leb_spec m 2) as [Hm|Hm].
  - rewrite !andb_true_iff, orb_true_iff, andb_true_iff, !Z.eqb_eq, !Z.leb_le in T.
    destruct T as [[H306 Hb] Hv].
    specialize (Hlast H306).
    replace (2000 + y + 1) with (2000 + (y + 1)) in * by lia. rewrite year_sum by lia.
    destruct (years_table (y + 1)) as [_ L]; [lia|]. rewrite L in *.
    split; [unfold doy, k in *; Z.to_euclidean_division_equations; lia|].
    split; [done|]. destruct Hv as [Hv|[Hv Hn]]; [lia|]. rewrite Hleap in Hn by done. discriminate.
  - rewrite !andb_true_iff, Z.eqb_eq, Z.leb_le, Z.ltb_lt in T. destruct T as [[Hb Hv] Hs].
    rewrite year_sum by lia. destruct (years_table y) as [_ L]; [lia|]. rewrite L in *.
    split; [|by split].
    destruct (Z.eqb_spec (y mod 4) 0); unfold doy, k in *; Z.to_euclidean_division_equations; lia.
Qed.

Lemma date_years d : 10957 <= d < 47482 → let '(y, _, _) := date_of_days d in 2000 <= y <= 2099.
Proof.
  intros Hd. destruct (Z.ltb_spec d 11017) as [E|E].
  - assert (T : forallb (fun d => let '(y, _, _) := date_of_days d in (2000 <=? y) && (y <=? 2099))
                  (seqZ 10957 60) = true) by (vm_compute; reflexivity).
    rewrite forallb_forall in T. specialize (T d). destruct (date_of_days d) as [[y m] dd].
    rewrite andb_true_iff, !Z.leb_le in T. apply T, list_elem_of_In, elem_of_seqZ. lia.
  - rewrite date_split by lia. set (k := d - 11017). set (y := (k - k / 1460) / 365).
    destruct (year_split k) as (Hy & Hl & Hh); [unfold k; lia|]. fold y in Hy, Hl, Hh.
    set (doy := k - (365 * y + y / 4)) in *.
    assert (Hdoy : 0 <= doy <= 365 ∧ (306 <= doy → y <= 98))
      by (unfold doy, k in *; Z.to_euclidean_division_equations; lia).
    pose proof (march_table true doy (proj1 Hdoy)) as T. unfold march_ok in T.
    destruct (march_date doy) as [m dd]. rewrite !andb_true_iff in T. destruct T as [_ T].
    destruct (m <=? 2); [rewrite !andb_true_iff, Z.leb_le in T|]; lia.
Qed.

(** ** Transactions *)

Section transactions.
Context {W H : Type} `{Seat W (s5l_pcf50635 H)}.
Implicit Types (p : s5l_pcf50635 H) (w : W) (b : s5l_i2c W).

Abbreviation pmu := (Some (s5l_pcf50635_bind (W:=W) (H:=H))).

(** Consecutive registers written and read from the pointer on. *)
Definition put_reg (byte : Z) p : s5l_pcf50635 H := m_ptr (w8 (ptr p + 1)) (pmu_reg_write (ptr p) byte p).
Definition write_regs (bytes : list Z) p : s5l_pcf50635 H := foldl (fun p byte => put_reg byte p) p bytes.
Fixpoint read_regs (n : nat) p : list Z * s5l_pcf50635 H :=
  match n with
  | O => ([], p)
  | S n => let '(v, p) := pmu_read p in let '(l, p) := read_regs n p in (v :: l, p)
  end.

(** The unit when a write has set the pointer, and when a read begins. *)
Definition pointed (reg : Z) p : s5l_pcf50635 H :=
  m_have_ptr true (m_ptr reg (m_have_ptr false (m_reading false p))).
Definition sampled p : s5l_pcf50635 H := sync_host_clock (m_reading true p).

Lemma ptr_reg_write reg val p : ptr (pmu_reg_write reg val p) = ptr p ∧ have_ptr (pmu_reg_write reg val p) = have_ptr p.
Proof. unfold pmu_reg_write. by repeat case_match. Qed.

Lemma deliver_byte byte bytes p w :
  deliver pmu (byte :: bytes) false (reseat p w) = deliver pmu bytes false (reseat (snd (pmu_write byte p)) w).
Proof.
  cbn [deliver mbind option_bind s5l_pcf50635_bind sl_write]. rewrite context_reseat.
  unfold pmu_write. destruct (have_ptr p); cbn [negb snd]; by rewrite reseat_reseat.
Qed.

Lemma deliver_pmu bytes : ∀ p w, have_ptr p = true →
  deliver pmu bytes false (reseat p w) = (false, reseat (write_regs bytes p) w).
Proof.
  induction bytes as [|byte bytes IH]; intros p w Hp; [done|].
  destruct (ptr_reg_write (ptr p) byte p) as [Ep Eh].
  rewrite deliver_byte. unfold pmu_write. rewrite Hp. cbn [negb snd]. rewrite Ep, IH; [done|].
  simpl. by rewrite Eh.
Qed.

Lemma finish_pmu w : finish pmu w = w.
Proof. apply reseat_context. Qed.

Lemma takes_pmu reg bytes w :
  takes pmu (reg :: bytes) w = (false, reseat (write_regs bytes (pointed reg (context w))) w).
Proof.
  unfold takes. change (addressed pmu false w)
    with (false, reseat (m_have_ptr false (m_reading false (context w))) w). cbv iota beta.
  rewrite deliver_byte. unfold pmu_write. cbn [have_ptr m_have_ptr negb snd].
  change (m_have_ptr true _) with (pointed reg (context w)).
  rewrite deliver_pmu by done. by rewrite finish_pmu.
Qed.

Lemma gather_pmu n : ∀ p w,
  gather pmu n false (reseat p w) = (fst (read_regs n p), false, reseat (snd (read_regs n p)) w).
Proof.
  induction n as [|n IH]; intros p w; [done|]. simpl. rewrite context_reseat.
  destruct (pmu_read p) as [v p1]. rewrite reseat_reseat, IH. by destruct (read_regs n p1).
Qed.

Lemma gives_pmu n w :
  gives pmu n w = (fst (read_regs n (sampled (context w))), false,
                   reseat (snd (read_regs n (sampled (context w)))) w).
Proof.
  unfold gives. change (addressed pmu true w) with (false, reseat (sampled (context w)) w). cbv iota beta.
  rewrite gather_pmu. by rewrite finish_pmu.
Qed.

(** *** The clock *)

Definition unbcd (v : Z) : Z := v / 16 * 10 + v mod 16.
Lemma bcd_unbcd v : 0 <= v <= 99 → unbcd (bcd v) = v.
Proof.
  intros Hv. unfold bcd, unbcd. rewrite (proj2 (Z.ltb_ge v 0)) by lia. unfold w8, wrap.
  change (2 ^ 8) with 256. Z.to_euclidean_division_equations. lia.
Qed.

(** The instant a read transaction shows. *)
Definition rtc_now p : Z :=
  match host_now p with
  | Some now =>
    let t := fst (now (host_now_ctx p)) in
    if (PCF50635_MIN_TIME <=? t) && (t <=? PCF50635_MAX_TIME) then t else seconds p
  | None => seconds p
  end.
Definition rtc_bounds p : Prop := PCF50635_MIN_TIME <= seconds p <= PCF50635_MAX_TIME.

Lemma sampled_seconds p : rtc_bounds p → seconds (sampled p) = rtc_now p ∧ rtc_bounds (sampled p).
Proof.
  intros Hb. unfold sampled, sync_host_clock, rtc_now. simpl. destruct (host_now p) as [now|]; [|done].
  destruct (now (host_now_ctx p)) as [t h]. simpl. destruct (_ && _) eqn:E; [|done].
  rewrite andb_true_iff, !Z.leb_le in E. unfold rtc_bounds, s5l_pcf50635_set_time, clamp_time. simpl.
  by rewrite (proj2 (Z.ltb_ge t _)), (proj2 (Z.ltb_ge _ t)) by lia.
Qed.

Lemma read_rtc n : ∀ r p, ptr p = r → PCF50635_RTCSC <= r → r + Z.of_nat n <= PCF50635_RTCYR + 1 →
  fst (read_regs n p) = map (rtc_byte p) (seqZ r (Z.of_nat n)) ∧ seconds (snd (read_regs n p)) = seconds p
  ∧ host_now_ctx (snd (read_regs n p)) = host_now_ctx p.
Proof.
  unfold PCF50635_RTCSC, PCF50635_RTCYR.
  induction n as [|n IH]; intros r p Hr Hlo Hhi; [done|]. cbn [read_regs]. unfold pmu_read, pmu_reg_read, is_rtc.
  rewrite Hr, (proj2 (Z.leb_le _ r)), (proj2 (Z.leb_le r _)) by (unfold PCF50635_RTCSC, PCF50635_RTCYR; lia).
  cbn [andb]. set (p1 := m_ptr _ _).
  assert (P1 : ptr p1 = r + 1) by (unfold p1; simpl; rewrite Hr; apply wrap_small; unfold uint; lia).
  destruct (IH (r + 1) p1 P1) as (E & Es & Eh); [lia..|]. destruct (read_regs n p1) as [l p2]. simpl in *.
  rewrite Nat2Z.inj_succ, seqZ_cons, E by lia. replace (Z.pred (Z.succ (Z.of_nat n))) with (Z.of_nat n) by lia.
  by rewrite Z.add_1_r, Es, Eh.
Qed.

(** *** The registers *)

Definition plain (reg : Z) : bool := negb (is_rtc reg || (reg =? PCF50635_MBCS1) || is_event_latch reg).
Definition next_reg (r : Z) (i : nat) : Z := w8 (r + Z.of_nat i).

Lemma next_reg_S r i : next_reg (w8 (r + 1)) i = next_reg r (S i).
Proof. unfold next_reg, w8. rewrite wrap_add_l. f_equal. lia. Qed.
Lemma next_reg_inj r i : uint 8 r → (i < 256)%nat → next_reg r i = r → i = 0%nat.
Proof.
  intros [Hl Hh] Hi E. unfold next_reg, w8, wrap in E. change (2 ^ 8) with 256 in *.
  Z.to_euclidean_division_equations. lia.
Qed.

Lemma reg_write_other reg val x p : x ≠ reg →
  regs (pmu_reg_write reg val p) x = regs p x ∧ written (pmu_reg_write reg val p) x = written p x.
Proof. intros Hx. unfold pmu_reg_write. repeat case_match; simpl; by rewrite ?fn_lookup_insert_ne. Qed.
Lemma reg_write_plain reg val p : plain reg = true →
  regs (pmu_reg_write reg val p) reg = val ∧ written (pmu_reg_write reg val p) reg = true.
Proof.
  unfold plain, pmu_reg_write. rewrite negb_true_iff, !orb_false_iff. intros [[-> ->] _]. simpl.
  by rewrite !fn_lookup_insert.
Qed.

Lemma write_regs_other bytes x : ∀ p,
  (∀ i, (i < length bytes)%nat → next_reg (ptr p) i ≠ x) → uint 8 (ptr p) →
  regs (write_regs bytes p) x = regs p x ∧ written (write_regs bytes p) x = written p x.
Proof.
  induction bytes as [|byte bytes IH]; intros p Hx Hp; [done|]. simpl.
  destruct (reg_write_other (ptr p) byte x p) as [Er Ew].
  { intros ->. apply (Hx 0%nat); [simpl; lia|]. unfold next_reg. rewrite Z.add_0_r. by apply wrap_small. }
  destruct (IH (put_reg byte p)) as [E1 E2].
  - intros i Hi. simpl. rewrite next_reg_S. apply Hx. simpl. lia.
  - apply uint_w8.
  - by rewrite E1, E2.
Qed.

(** The registers hold the bytes written and are marked. *)
Definition holds (r : Z) (bytes : list Z) p : Prop :=
  ∀ i v, bytes !! i = Some v → regs p (next_reg r i) = v ∧ written p (next_reg r i) = true.

Lemma write_regs_holds bytes : ∀ p, uint 8 (ptr p) → (length bytes <= 256)%nat →
  (∀ i, (i < length bytes)%nat → plain (next_reg (ptr p) i) = true) → holds (ptr p) bytes (write_regs bytes p).
Proof.
  induction bytes as [|byte bytes IH]; intros p Hp Hn Hpl i v Hv; [done|]. simpl in Hn.
  destruct i as [|i]; simpl in Hv; simplify_eq.
  - assert (E0 : next_reg (ptr p) 0 = ptr p) by (unfold next_reg; rewrite Z.add_0_r; by apply wrap_small).
    rewrite E0. simpl. destruct (write_regs_other bytes (ptr p) (put_reg v p)) as [-> ->].
    + intros i Hi E. simpl in E. rewrite next_reg_S in E. apply next_reg_inj in E; [done|done|lia].
    + apply uint_w8.
    + apply reg_write_plain. rewrite <- E0. apply Hpl. simpl. lia.
  - rewrite <- next_reg_S. apply (IH (put_reg byte p)); [apply uint_w8|lia| |done].
    intros j Hj. simpl. rewrite next_reg_S. apply Hpl. simpl. lia.
Qed.

Lemma read_plain p : plain (ptr p) = true → written p (ptr p) = true → ∃ p',
  pmu_read p = (regs p (ptr p), p') ∧ ptr p' = w8 (ptr p + 1) ∧ regs p' = regs p ∧ written p' = written p.
Proof.
  unfold plain, pmu_read, pmu_reg_read. rewrite negb_true_iff, !orb_false_iff. intros [[-> ->] ->] Hw.
  change (written (m_reg_reads ?x p)) with (written p). rewrite Hw.
  destruct (is_event_mask (ptr p) || _); eexists; by split_and!.
Qed.

Lemma read_regs_holds bytes : ∀ p, holds (ptr p) bytes p →
  (∀ i, (i < length bytes)%nat → plain (next_reg (ptr p) i) = true) → uint 8 (ptr p) →
  fst (read_regs (length bytes) p) = bytes.
Proof.
  induction bytes as [|byte bytes IH]; intros p Hh Hpl Hp; [done|].
  assert (E0 : next_reg (ptr p) 0 = ptr p) by (unfold next_reg; rewrite Z.add_0_r; by apply wrap_small).
  destruct (Hh 0%nat byte eq_refl) as [Hr Hw]. rewrite E0 in Hr, Hw.
  destruct (read_plain p) as (p1 & E1 & P1 & R1 & W1); [rewrite <- E0; apply Hpl; simpl; lia|done|].
  simpl. rewrite E1, Hr. specialize (IH p1). rewrite P1 in IH. destruct (read_regs (length bytes) p1) as [l p2].
  simpl in *. f_equal. apply IH.
  - intros i v Hv. rewrite R1, W1, next_reg_S. by apply Hh.
  - intros i Hi. rewrite next_reg_S. apply Hpl. lia.
  - apply uint_w8.
Qed.

Lemma sampled_regs p :
  regs (sampled p) = regs p ∧ written (sampled p) = written p ∧ ptr (sampled p) = ptr p.
Proof.
  unfold sampled, sync_host_clock. simpl. destruct (host_now p) as [now|]; [|done].
  destruct (now _). by destruct (_ && _).
Qed.

Lemma write_regs_ptr_uint bytes : ∀ p, uint 8 (ptr p) → uint 8 (ptr (write_regs bytes p)).
Proof. induction bytes as [|byte bytes IH]; intros p Hp; [done|]. apply IH, uint_w8. Qed.

(** *** Through the controller *)

(** Set the register pointer, then read from it in a second message. *)
Definition read_from (reg : Z) (n : nat) : list i2c_op :=
  write_message PCF50635_I2C_ADDR [reg] ++ read_message PCF50635_I2C_ADDR n.
Definition pointer_answers : list Z := [I2C_INT_BYTE; I2C_INT_BYTE; I2C_INT_STOP].
Definition burst_answers (l : list Z) : list Z := I2C_INT_BYTE :: read_answers l ++ [I2C_INT_STOP].

Lemma read_from_run reg n b w : at_rest b → slave_at PCF50635_I2C_ADDR b = pmu → uint 8 reg → ∃ b',
  i2c_run (read_from reg n) b w
  = (pointer_answers ++ burst_answers (fst (read_regs n (sampled (pointed reg (context w))))), b',
     reseat (snd (read_regs n (sampled (pointed reg (context w))))) w)
  ∧ at_rest b' ∧ slaves b' = slaves b.
Proof.
  intros Hb Hs Hr. unfold read_from. rewrite i2c_run_app.
  destruct (message_written PCF50635_I2C_ADDR [reg] b w) as (b1 & E1 & R1 & _ & L1);
    [done|done|by apply Forall_cons_2; [|apply Forall_nil_2]|].
  rewrite E1, Hs, takes_pmu. cbn [snd].
  destruct (message_read PCF50635_I2C_ADDR n b1 (reseat (write_regs [] (pointed reg (context w))) w))
    as (b2 & E2 & R2 & _ & L2); [done|done|].
  rewrite E2. unfold slave_at in *. rewrite L1, Hs, gives_pmu. cbn [fst snd].
  rewrite context_reseat, reseat_reseat. exists b2. split; [done|]. by rewrite L2, L1.
Qed.
End transactions.

(** *** What the guest reads as the time *)

(** The seven clock registers as the driver decodes them. *)
Definition decode_rtc (l : list Z) : option civil :=
  match l with
  | [s; mi; h; wd; d; mo; y] =>
    Some (MkCivil (2000 + unbcd y) (unbcd mo) (unbcd d) (unbcd h) (unbcd mi) (unbcd s) wd)
  | _ => None
  end.

(** [c] is the Gregorian reading of the instant [t], 2000-01-01 being a Saturday. *)
Definition shows (c : civil) (t : Z) : Prop :=
  let days := days_before (year c) (month c) + day c - 1 in
  is_date (year c) (month c) (day c) ∧ 0 <= hour c < 24 ∧ 0 <= minute c < 60 ∧ 0 <= second c < 60
  ∧ PCF50635_MIN_TIME + ((days * 24 + hour c) * 60 + minute c) * 60 + second c = t
  ∧ weekday c = (6 + days) mod 7.

Lemma civil_shows t : PCF50635_MIN_TIME <= t <= PCF50635_MAX_TIME →
  shows (s5l_pcf50635_civil t) t ∧ 2000 <= year (s5l_pcf50635_civil t) <= 2099.
Proof.
  unfold PCF50635_MIN_TIME, PCF50635_MAX_TIME. intros Ht. unfold s5l_pcf50635_civil, clamp_time.
  rewrite (proj2 (Z.ltb_ge t _)), (proj2 (Z.ltb_ge _ t)) by (unfold PCF50635_MIN_TIME, PCF50635_MAX_TIME; lia).
  assert (Hd : 10957 <= t / 86400 < 47482) by (Z.to_euclidean_division_equations; lia).
  pose proof (date_of_days_correct _ Hd) as D. pose proof (date_years _ Hd) as Y.
  destruct (date_of_days (t / 86400)) as [[y m] d]. destruct D as [D V]. unfold shows. simpl in *.
  rewrite D. unfold w32, w64, PCF50635_MIN_TIME. rewrite !wrap_small by (unfold uint; Z.to_euclidean_division_equations; lia).
  repeat split; try done; try apply V; try apply Y; Z.to_euclidean_division_equations; lia.
Qed.

Lemma rtc_now_bounds {H} (p : s5l_pcf50635 H) : rtc_bounds p → PCF50635_MIN_TIME <= rtc_now p <= PCF50635_MAX_TIME.
Proof.
  intros Hb. unfold rtc_now. destruct (host_now p) as [now|]; [|exact Hb].
  cbv zeta. destruct (_ && _) eqn:E; [|exact Hb]. by rewrite andb_true_iff, !Z.leb_le in E.
Qed.

Lemma month_days_le lp m : month_days lp m <= 31.
Proof. unfold month_days. repeat case_match; lia. Qed.

Lemma decode_encode {H} (p : s5l_pcf50635 H) t :
  shows (s5l_pcf50635_civil (seconds p)) t → 2000 <= year (s5l_pcf50635_civil (seconds p)) <= 2099 →
  decode_rtc (map (rtc_byte p) (seqZ PCF50635_RTCSC 7)) = Some (s5l_pcf50635_civil (seconds p)).
Proof.
  change (map (rtc_byte p) (seqZ PCF50635_RTCSC 7)) with
    (let c := s5l_pcf50635_civil (seconds p) in
     [bcd (second c); bcd (minute c); bcd (hour c); w8 (weekday c); bcd (day c); bcd (month c); bcd (year c - 2000)]).
  destruct (s5l_pcf50635_civil (seconds p)) as [y mo d h mi s wd]. unfold shows, is_date. simpl.
  intros ((Hm & Hd) & Hh & Hmi & Hsec & _ & ->) Hy. pose proof (month_days_le (leap y) mo).
  rewrite !bcd_unbcd by lia. do 2 f_equal; [lia|]. apply wrap_small. unfold uint.
  Z.to_euclidean_division_equations. lia.
Qed.

(** C15: a read of the seven clock registers through the I2C controller decodes to the
    Gregorian date, time and weekday of one instant between 2000 and 2099, the host
    clock's when it has one that can be shown: the clock is sampled once for the whole
    burst, so no second, minute or midnight that passes meanwhile can mix two dates. *)
Theorem rtc_reads_calendar {W H} `{Seat W (s5l_pcf50635 H)} (b : s5l_i2c W) (w : W) :
  at_rest b → slave_at PCF50635_I2C_ADDR b = Some s5l_pcf50635_bind → rtc_bounds (context w) →
  ∃ l c b' p', i2c_run (read_from PCF50635_RTCSC 7) b w
               = (pointer_answers ++ burst_answers l, b', reseat p' w)
  ∧ decode_rtc l = Some c ∧ shows c (rtc_now (context w))
  ∧ seconds p' = rtc_now (context w) ∧ rtc_bounds p'
  ∧ host_now_ctx p' = match host_now (context w) with
                      | Some now => snd (now (host_now_ctx (context w)))
                      | None => host_now_ctx (context w)
                      end
  ∧ at_rest b' ∧ slaves b' = slaves b.
Proof.
  intros Hb Hs Hr. destruct (read_from_run PCF50635_RTCSC 7 b w Hb Hs) as (b' & E & Hb' & L); [done|].
  set (p := sampled (pointed PCF50635_RTCSC (context w))) in *.
  destruct (sampled_seconds (pointed PCF50635_RTCSC (context w)) Hr) as [S0 B0]. fold p in S0, B0.
  destruct (read_rtc 7 PCF50635_RTCSC p) as (R & Rs & Rh); [apply sampled_regs|done|done|].
  destruct (civil_shows (seconds p) B0) as [C Y]. rewrite S0 in C, Y.
  change (rtc_now (pointed _ (context w))) with (rtc_now (context w)) in *.
  exists (fst (read_regs 7 p)), (s5l_pcf50635_civil (seconds p)), b', (snd (read_regs 7 p)).
  split; [exact E|]. rewrite R, Rs, Rh, S0. unfold rtc_bounds. rewrite Rs.
  split_and!; try done; try apply B0.
  - rewrite <- S0. eapply decode_encode; rewrite S0; [exact C|exact Y].
  - unfold p, sampled, sync_host_clock. simpl. destruct (host_now (context w)) as [now|]; [|done].
    destruct (now _) as [t h]. simpl. by destruct (_ && _).
Qed.

(** whatever registers the guest writes in a burst it reads back in a burst, as long as
    they are storage: not the clock, not the supply status, not the event latches, which a
    read clears.  Between the two the controller, the register pointer with its
    wrap-around and the host clock are at work. *)
Theorem pmu_registers_roundtrip {W H} `{Seat W (s5l_pcf50635 H)} (b : s5l_i2c W) (w : W) (reg : Z) (bytes : list Z) :
  at_rest b → slave_at PCF50635_I2C_ADDR b = Some s5l_pcf50635_bind →
  uint 8 reg → Forall (uint 8) bytes → (length bytes <= 256)%nat →
  (∀ i, (i < length bytes)%nat → plain (next_reg reg i) = true) →
  ∃ b' w', i2c_run (write_message PCF50635_I2C_ADDR (reg :: bytes) ++ read_from reg (length bytes)) b w
           = (replicate (2 + length bytes) I2C_INT_BYTE ++ I2C_INT_STOP :: pointer_answers ++ burst_answers bytes, b', w')
  ∧ at_rest b' ∧ slaves b' = slaves b.
Proof.
  intros Hb Hs Hr H8 Hn Hpl. rewrite i2c_run_app.
  destruct (message_written PCF50635_I2C_ADDR (reg :: bytes) b w) as (b1 & E1 & R1 & _ & L1);
    [done|done|by apply Forall_cons_2|].
  rewrite E1, Hs, takes_pmu. cbn [snd]. set (p := write_regs bytes (pointed reg (context w))).
  destruct (read_from_run reg (length bytes) b1 (reseat p w) R1) as (b2 & E2 & R2 & L2);
    [unfold slave_at in *; by rewrite L1|done|].
  rewrite E2, context_reseat. destruct (sampled_regs (pointed reg p)) as (Sr & Sw & Sp).
  rewrite read_regs_holds.
  - eexists _, _. split; [by rewrite <- app_assoc|]. by rewrite L2, L1.
  - intros i v Hv. rewrite Sr, Sw, Sp.
    exact (write_regs_holds bytes (pointed reg (context w)) Hr Hn Hpl i v Hv).
  - rewrite Sp. exact Hpl.
  - rewrite Sp. exact Hr.
Qed.

(** ** Time and power *)

Section power.
Context {H : Type}.
Implicit Types p : s5l_pcf50635 H.

(** The clock stays between its two ends. *)
Lemma set_time_bounds t p : rtc_bounds (s5l_pcf50635_set_time t p).
Proof.
  unfold rtc_bounds, s5l_pcf50635_set_time, clamp_time, PCF50635_MIN_TIME, PCF50635_MAX_TIME. simpl.
  destruct (Z.ltb_spec t 946684800), (Z.ltb_spec 4102444799 t); lia.
Qed.

(** Seconds and remainder [ticks] later, for a clock of rate [hz]. *)
Definition clock_after (hz ticks : Z) (c : Z * Z) : Z * Z :=
  let total := snd c mod hz + ticks in
  if (PCF50635_MAX_TIME <=? fst c) || (PCF50635_MAX_TIME <? fst c + total / hz) then (PCF50635_MAX_TIME, 0)
  else (fst c + total / hz, total mod hz).
Definition clock p : Z * Z := (seconds p, tick_accum p).

Lemma tick_clock ticks p : host_now p = None → 0 < tick_hz p < 2 ^ 32 → uint 32 ticks → rtc_bounds p →
  clock (s5l_pcf50635_tick ticks p) = clock_after (tick_hz p) ticks (clock p)
  ∧ tick_hz (s5l_pcf50635_tick ticks p) = tick_hz p ∧ host_now (s5l_pcf50635_tick ticks p) = None
  ∧ rtc_bounds (s5l_pcf50635_tick ticks p).
Proof.
  unfold rtc_bounds. intros Hn Hz [Ht0 Ht] Hb. unfold s5l_pcf50635_tick. rewrite Hn.
  rewrite (proj2 (Z.eqb_neq (tick_hz p) 0)), (proj2 (Z.ltb_ge (seconds p) _)) by lia. cbv zeta.
  pose proof (Z.mod_pos_bound (tick_accum p) (tick_hz p) (proj1 Hz)) as Hm.
  set (r := tick_accum p mod tick_hz p) in *.
  assert (T : w64 (r + ticks) = r + ticks) by (apply wrap_small; unfold uint; lia). rewrite T.
  assert (Hq : 0 <= (r + ticks) / tick_hz p <= r + ticks).
  { split; [apply Z.div_pos; lia|]. apply Z.div_le_upper_bound; nia. }
  unfold PCF50635_MIN_TIME, PCF50635_MAX_TIME in *.
  assert (D : w64 (4102444799 - seconds p) = 4102444799 - seconds p) by (apply wrap_small; unfold uint; lia).
  rewrite D. unfold clock_after, clock, PCF50635_MAX_TIME. simpl. fold r.
  destruct (Z.leb_spec 4102444799 (seconds p)) as [E|E]; simpl; [split_and!; done || lia|].
  destruct (Z.ltb_spec (4102444799 - seconds p) ((r + ticks) / tick_hz p)) as [F|F];
    [rewrite (proj2 (Z.ltb_lt _ (seconds p + _))) by lia|rewrite (proj2 (Z.ltb_ge _ (seconds p + _))) by lia]; simpl.
  - split_and!; done || lia.
  - assert (S : w64 (seconds p + (r + ticks) / tick_hz p) = seconds p + (r + ticks) / tick_hz p)
      by (apply wrap_small; unfold uint; lia).
    rewrite S. split_and!; done || lia.
Qed.

(** Guest time may be handed to the clock in one piece or several: the second shown is the
    same (the remainder too, short of the last second of 2099, where the clock stops). *)
Lemma rtc_tick_additive a c p : host_now p = None → 0 < tick_hz p < 2 ^ 32 → 0 <= a → 0 <= c → uint 32 (a + c) →
  rtc_bounds p →
  let q := s5l_pcf50635_tick c (s5l_pcf50635_tick a p) in
  let q' := s5l_pcf50635_tick (a + c) p in
  seconds q = seconds q' ∧ (tick_accum q = tick_accum q' ∨ seconds q = PCF50635_MAX_TIME).
Proof.
  intros Hn Hz Ha Hc [_ Hac] Hb q q'.
  assert (Ua : uint 32 a) by (split; lia). assert (Uc : uint 32 c) by (split; lia).
  destruct (tick_clock a p Hn Hz Ua Hb) as (C1 & Z1 & N1 & B1).
  destruct (tick_clock c (s5l_pcf50635_tick a p) N1) as (C2 & _); [by rewrite Z1|done|done|].
  destruct (tick_clock (a + c) p Hn Hz) as (C3 & _); [split; lia|done|].
  fold q in C2. fold q' in C3. rewrite Z1, C1 in C2. clearbody q q'. unfold clock in C2, C3. revert C2 C3.
  unfold clock_after. cbn [fst snd]. set (h := tick_hz p) in *. set (r := tick_accum p mod h).
  assert (A1 : (r + a) mod h = r + a - h * ((r + a) / h)) by (rewrite Z.mod_eq; lia).
  assert (A2 : (r + (a + c)) / h = (r + a) / h + ((r + a) mod h + c) / h).
  { rewrite A1. replace (r + (a + c)) with (r + a - h * ((r + a) / h) + c + (r + a) / h * h) by lia.
    rewrite Z.div_add by lia. lia. }
  assert (A3 : (r + (a + c)) mod h = ((r + a) mod h + c) mod h).
  { rewrite Z.add_mod_idemp_l by lia. f_equal. lia. }
  assert (P1 : 0 <= ((r + a) mod h + c) / h).
  { apply Z.div_pos; [|lia]. pose proof (Z.mod_pos_bound (r + a) h). lia. }
  destruct (Z.leb_spec PCF50635_MAX_TIME (seconds p)) as [E|E]; cbn [orb].
  { intros C2 C3. rewrite Z.leb_refl in C2. simplify_eq/=. destruct_and?. split; [congruence|left; congruence]. }
  destruct (Z.ltb_spec PCF50635_MAX_TIME (seconds p + (r + a) / h)) as [F|F]; cbn [fst snd].
  { rewrite Z.leb_refl, (proj2 (Z.ltb_lt _ (seconds p + (r + (a + c)) / h))) by lia. simpl.
    intros C2 C3. injection C2. injection C3. intros. split; [congruence|left; congruence]. }
  rewrite (Z.mod_mod (r + a) h), A2, A3, Z.add_assoc by lia.
  destruct (Z.leb_spec PCF50635_MAX_TIME (seconds p + (r + a) / h)) as [G|G]; simpl.
  { destruct (Z.ltb_spec PCF50635_MAX_TIME (seconds p + (r + a) / h + ((r + a) mod h + c) / h)); simpl;
      intros C2 C3; injection C2; injection C3; intros; split; try congruence; try lia; right; congruence. }
  destruct (Z.ltb_spec PCF50635_MAX_TIME (seconds p + (r + a) / h + ((r + a) mod h + c) / h));
    intros C2 C3; injection C2; injection C3; intros; split; try congruence; left; congruence.
Qed.
End power.

(** Power on by the button ends both power-down states and reports the button; a retained
    pin resumes hibernation only, and changes no event. *)
Lemma wake_ends_power_down {H} (p : s5l_pcf50635 H) :
  s5l_pcf50635_in_standby (s5l_pcf50635_wake_onkey p) = false
  ∧ s5l_pcf50635_in_hibernation (s5l_pcf50635_wake_onkey p) = false
  ∧ bit (regs (s5l_pcf50635_wake_onkey p) PCF50635_INT2) 2 = true
  ∧ (∀ r, r ≠ PCF50635_OOCSHDWN → regs (snd (s5l_pcf50635_wake_gpio p)) r = regs p r)
  ∧ (fst (s5l_pcf50635_wake_gpio p) = s5l_pcf50635_in_hibernation p && negb (s5l_pcf50635_in_standby p)).
Proof.
  set (v := regs p PCF50635_OOCSHDWN).
  assert (E : regs (s5l_pcf50635_wake_onkey p) PCF50635_OOCSHDWN = v .& 0xfc)
    by (unfold s5l_pcf50635_wake_onkey; cbn [regs m_regs]; by rewrite fn_lookup_insert).
  unfold s5l_pcf50635_in_standby, s5l_pcf50635_in_hibernation. rewrite E, <- !Z.land_assoc.
  change (0xfc .& PCF50635_OOCSHDWN_GO_STANDBY) with 0. change (0xfc .& PCF50635_OOCSHDWN_GO_HIBERNATE) with 0.
  rewrite Z.land_0_r. change (negb (0 =? 0)) with false. rewrite !andb_false_r. split_and!; try done.
  - unfold s5l_pcf50635_wake_onkey. cbn [regs m_regs]. rewrite (fn_lookup_insert_ne _ PCF50635_OOCSHDWN PCF50635_INT2), fn_lookup_insert by done.
    rewrite bit_lor. apply orb_true_r.
  - intros r Hr. unfold s5l_pcf50635_wake_gpio. destruct (_ || _); [done|]. cbn [regs m_regs snd]. by rewrite fn_lookup_insert_ne.
  - unfold s5l_pcf50635_wake_gpio, s5l_pcf50635_in_standby, s5l_pcf50635_in_hibernation.
    by destruct (written p _ && negb (_ .& PCF50635_OOCSHDWN_GO_HIBERNATE =? 0)), (written p _ && _).
Qed.

(** ** A board with the unit on its bus *)

(** A host clock that advances by a second each time it is read. *)
Definition demo_pmu : s5l_pcf50635 Z :=
  s5l_pcf50635_set_host_clock (Some (fun t => (t, t + 1))) 1709251199 (s5l_pcf50635_reset 6000000 0).
Definition demo_bus : s5l_i2c (s5l_pcf50635 Z) := snd (s5l_i2c_attach s5l_pcf50635_bind s5l_i2c_reset).

Lemma rtc_reads_calendar_witness : at_rest demo_bus ∧ rtc_bounds demo_pmu ∧ ∃ l c b' p',
  i2c_run (read_from PCF50635_RTCSC 7) demo_bus demo_pmu = (pointer_answers ++ burst_answers l, b', p')
  ∧ decode_rtc l = Some c ∧ shows c 1709251200.
Proof.
  assert (B : at_rest demo_bus ∧ rtc_bounds demo_pmu) by by vm_compute.
  destruct B as [B1 B2]. split; [exact B1|]. split; [exact B2|].
  destruct (rtc_reads_calendar demo_bus demo_pmu B1 eq_refl B2) as (l & c & b' & p' & E & D & S & _).
  exists l, c, b', p'. split; [exact E|]. split; [exact D|exact S].
Defined.

Lemma pmu_registers_roundtrip_witness : at_rest demo_bus ∧ ∃ b' w',
  i2c_run (write_message PCF50635_I2C_ADDR [0xfe; 1; 2; 3] ++ read_from 0xfe 3) demo_bus demo_pmu
  = (replicate 5 I2C_INT_BYTE ++ I2C_INT_STOP :: pointer_answers ++ burst_answers [1; 2; 3], b', w') ∧ at_rest b'.
Proof.
  assert (B : at_rest demo_bus) by by vm_compute. split; [exact B|].
  destruct (pmu_registers_roundtrip demo_bus demo_pmu 0xfe [1; 2; 3] B eq_refl) as (b' & w' & E & R & _).
  - by split.
  - repeat apply Forall_cons_2; try apply Forall_nil_2; by split.
  - simpl. lia.
  - intros i Hi. simpl in Hi. by destruct i as [|[|[|]]]; [..|lia].
  - exists b', w'. by split.
Defined.
