(* ===== verification/Wm8991.v ===== *)
(** * The audio codec

    [core/src/soc/wm8991.c], with [s5l_wm8991_t] of [core/include/soc.h]: a slave of the
    I2C controllers (I2c.v) with 128 registers of sixteen bits, written in one of two
    encodings and read most significant octet first. *)

From S2P Require Import Prelude Bits Bytes I2c.

Definition WM8991_I2C_ADDR := 0x1b.
Definition WM8991_NREG := 0x80.
Definition WM8991_REG_ID := 0x00.
Definition WM8991_ID_VALUE := 0x8990.
Definition WM8991_REG_PWR1 := 0x01.
Definition WM8991_PWR1_PROBE := 0x20.
Definition WM8991_REG_GPSTAT := 0x12.
Definition WM8991_REG_GPCTRL := 0x17.
Definition WM8991_REG_SPKVOL := 0x26.
Definition WM8991_SPKVOL_RESET := 0x79.
Definition WM8991_GP_BIT := 0x1000.
Definition WM8991_UNKNOWN_REGS := 16.
Definition WM8991_MAX_WRITE := 3.

Record s5l_wm8991 := MkCodec {
  regs : Z → Z; written : Z → bool; ptr : Z; reading : bool; second_byte : bool; latch : Z; wbuf : Z → Z; wlen : Z;
  reg_reads : Z; reg_writes : Z; wide_writes : Z; packed_writes : Z; refused_writes : Z; id_reads : Z;
  probe_bit_writes : Z; status_mirror_reads : Z; unknown_reads : Z; unknown_reg : list Z }.

Definition a_regs (v : Z → Z) (c : s5l_wm8991) : s5l_wm8991 :=
  MkCodec v (written c) (ptr c) (reading c) (second_byte c) (latch c) (wbuf c) (wlen c)
    (reg_reads c) (reg_writes c) (wide_writes c) (packed_writes c) (refused_writes c) (id_reads
    c) (probe_bit_writes c) (status_mirror_reads c) (unknown_reads c) (unknown_reg c).
Definition a_written (v : Z → bool) (c : s5l_wm8991) : s5l_wm8991 :=
  MkCodec (regs c) v (ptr c) (reading c) (second_byte c) (latch c) (wbuf c) (wlen c) (reg_reads
    c) (reg_writes c) (wide_writes c) (packed_writes c) (refused_writes c) (id_reads c)
    (probe_bit_writes c) (status_mirror_reads c) (unknown_reads c) (unknown_reg c).
Definition a_ptr (v : Z) (c : s5l_wm8991) : s5l_wm8991 :=
  MkCodec (regs c) (written c) v (reading c) (second_byte c) (latch c) (wbuf c) (wlen c)
    (reg_reads c) (reg_writes c) (wide_writes c) (packed_writes c) (refused_writes c) (id_reads
    c) (probe_bit_writes c) (status_mirror_reads c) (unknown_reads c) (unknown_reg c).
Definition a_reading (v : bool) (c : s5l_wm8991) : s5l_wm8991 :=
  MkCodec (regs c) (written c) (ptr c) v (second_byte c) (latch c) (wbuf c) (wlen c) (reg_reads
    c) (reg_writes c) (wide_writes c) (packed_writes c) (refused_writes c) (id_reads c)
    (probe_bit_writes c) (status_mirror_reads c) (unknown_reads c) (unknown_reg c).
Definition a_second_byte (v : bool) (c : s5l_wm8991) : s5l_wm8991 :=
  MkCodec (regs c) (written c) (ptr c) (reading c) v (latch c) (wbuf c) (wlen c) (reg_reads c)
    (reg_writes c) (wide_writes c) (packed_writes c) (refused_writes c) (id_reads c)
    (probe_bit_writes c) (status_mirror_reads c) (unknown_reads c) (unknown_reg c).
Definition a_latch (v : Z) (c : s5l_wm8991) : s5l_wm8991 :=
  MkCodec (regs c) (written c) (ptr c) (reading c) (second_byte c) v (wbuf c) (wlen c)
    (reg_reads c) (reg_writes c) (wide_writes c) (packed_writes c) (refused_writes c) (id_reads
    c) (probe_bit_writes c) (status_mirror_reads c) (unknown_reads c) (unknown_reg c).
Definition a_wbuf (v : Z → Z) (c : s5l_wm8991) : s5l_wm8991 :=
  MkCodec (regs c) (written c) (ptr c) (reading c) (second_byte c) (latch c) v (wlen c)
    (reg_reads c) (reg_writes c) (wide_writes c) (packed_writes c) (refused_writes c) (id_reads
    c) (probe_bit_writes c) (status_mirror_reads c) (unknown_reads c) (unknown_reg c).
Definition a_wlen (v : Z) (c : s5l_wm8991) : s5l_wm8991 :=
  MkCodec (regs c) (written c) (ptr c) (reading c) (second_byte c) (latch c) (wbuf c) v
    (reg_reads c) (reg_writes c) (wide_writes c) (packed_writes c) (refused_writes c) (id_reads
    c) (probe_bit_writes c) (status_mirror_reads c) (unknown_reads c) (unknown_reg c).
Definition a_reg_reads (v : Z) (c : s5l_wm8991) : s5l_wm8991 :=
  MkCodec (regs c) (written c) (ptr c) (reading c) (second_byte c) (latch c) (wbuf c) (wlen c) v
    (reg_writes c) (wide_writes c) (packed_writes c) (refused_writes c) (id_reads c)
    (probe_bit_writes c) (status_mirror_reads c) (unknown_reads c) (unknown_reg c).
Definition a_reg_writes (v : Z) (c : s5l_wm8991) : s5l_wm8991 :=
  MkCodec (regs c) (written c) (ptr c) (reading c) (second_byte c) (latch c) (wbuf c) (wlen c)
    (reg_reads c) v (wide_writes c) (packed_writes c) (refused_writes c) (id_reads c)
    (probe_bit_writes c) (status_mirror_reads c) (unknown_reads c) (unknown_reg c).
Definition a_wide_writes (v : Z) (c : s5l_wm8991) : s5l_wm8991 :=
  MkCodec (regs c) (written c) (ptr c) (reading c) (second_byte c) (latch c) (wbuf c) (wlen c)
    (reg_reads c) (reg_writes c) v (packed_writes c) (refused_writes c) (id_reads c)
    (probe_bit_writes c) (status_mirror_reads c) (unknown_reads c) (unknown_reg c).
Definition a_packed_writes (v : Z) (c : s5l_wm8991) : s5l_wm8991 :=
  MkCodec (regs c) (written c) (ptr c) (reading c) (second_byte c) (latch c) (wbuf c) (wlen c)
    (reg_reads c) (reg_writes c) (wide_writes c) v (refused_writes c) (id_reads c)
    (probe_bit_writes c) (status_mirror_reads c) (unknown_reads c) (unknown_reg c).
Definition a_refused_writes (v : Z) (c : s5l_wm8991) : s5l_wm8991 :=
  MkCodec (regs c) (written c) (ptr c) (reading c) (second_byte c) (latch c) (wbuf c) (wlen c)
    (reg_reads c) (reg_writes c) (wide_writes c) (packed_writes c) v (id_reads c)
    (probe_bit_writes c) (status_mirror_reads c) (unknown_reads c) (unknown_reg c).
Definition a_id_reads (v : Z) (c : s5l_wm8991) : s5l_wm8991 :=
  MkCodec (regs c) (written c) (ptr c) (reading c) (second_byte c) (latch c) (wbuf c) (wlen c)
    (reg_reads c) (reg_writes c) (wide_writes c) (packed_writes c) (refused_writes c) v
    (probe_bit_writes c) (status_mirror_reads c) (unknown_reads c) (unknown_reg c).
Definition a_probe_bit_writes (v : Z) (c : s5l_wm8991) : s5l_wm8991 :=
  MkCodec (regs c) (written c) (ptr c) (reading c) (second_byte c) (latch c) (wbuf c) (wlen c)
    (reg_reads c) (reg_writes c) (wide_writes c) (packed_writes c) (refused_writes c) (id_reads
    c) v (status_mirror_reads c) (unknown_reads c) (unknown_reg c).
Definition a_status_mirror_reads (v : Z) (c : s5l_wm8991) : s5l_wm8991 :=
  MkCodec (regs c) (written c) (ptr c) (reading c) (second_byte c) (latch c) (wbuf c) (wlen c)
    (reg_reads c) (reg_writes c) (wide_writes c) (packed_writes c) (refused_writes c) (id_reads
    c) (probe_bit_writes c) v (unknown_reads c) (unknown_reg c).
Definition a_unknown_reads (v : Z) (c : s5l_wm8991) : s5l_wm8991 :=
  MkCodec (regs c) (written c) (ptr c) (reading c) (second_byte c) (latch c) (wbuf c) (wlen c)
    (reg_reads c) (reg_writes c) (wide_writes c) (packed_writes c) (refused_writes c) (id_reads
    c) (probe_bit_writes c) (status_mirror_reads c) v (unknown_reg c).
Definition a_unknown_reg (v : list Z) (c : s5l_wm8991) : s5l_wm8991 :=
  MkCodec (regs c) (written c) (ptr c) (reading c) (second_byte c) (latch c) (wbuf c) (wlen c)
    (reg_reads c) (reg_writes c) (wide_writes c) (packed_writes c) (refused_writes c) (id_reads
    c) (probe_bit_writes c) (status_mirror_reads c) (unknown_reads c) v.

Definition s5l_wm8991_reset : s5l_wm8991 :=
  MkCodec (fun _ => 0) (fun _ => false) 0 false false 0 (fun _ => 0) 0 0 0 0 0 0 0 0 0 0 [].

Definition not16 (x : Z) : Z := 0xffff .^ x.
Definition apply_status_mirror (c : s5l_wm8991) (val : Z) : Z :=
  let val := val .& not16 WM8991_GP_BIT in
  if regs c WM8991_REG_GPCTRL .& WM8991_GP_BIT =? 0 then val else val .| WM8991_GP_BIT.

Definition s5l_wm8991_peek (reg : Z) (c : s5l_wm8991) : Z :=
  if WM8991_NREG <=? reg then 0
  else if reg =? WM8991_REG_ID then WM8991_ID_VALUE
  else if (reg =? WM8991_REG_SPKVOL) && negb (written c reg) then WM8991_SPKVOL_RESET
  else if reg =? WM8991_REG_GPSTAT then apply_status_mirror c (regs c reg)
  else regs c reg.

Definition codec_note_unknown_read (reg : Z) (c : s5l_wm8991) : s5l_wm8991 :=
  let c := a_unknown_reads (w64 (unknown_reads c + 1)) c in
  if bool_decide (reg ∈ unknown_reg c) then c
  else if blen (unknown_reg c) <? WM8991_UNKNOWN_REGS then a_unknown_reg (unknown_reg c ++ [reg]) c
  else c.

Definition codec_reg_read (reg : Z) (c : s5l_wm8991) : Z * s5l_wm8991 :=
  if WM8991_NREG <=? reg then (0, c)
  else
    let c := a_reg_reads (w64 (reg_reads c + 1)) c in
    if reg =? WM8991_REG_ID then (WM8991_ID_VALUE, a_id_reads (w64 (id_reads c + 1)) c)
    else
      let c := if negb (written c reg) && negb (reg =? WM8991_REG_SPKVOL) then codec_note_unknown_read reg c else c in
      if reg =? WM8991_REG_GPSTAT then
        let c := a_status_mirror_reads (w64 (status_mirror_reads c + 1)) c in (apply_status_mirror c (regs c reg), c)
      else (s5l_wm8991_peek reg c, c).

Definition codec_reg_write (reg val : Z) (c : s5l_wm8991) : s5l_wm8991 :=
  if WM8991_NREG <=? reg then c
  else
    let c := a_reg_writes (w64 (reg_writes c + 1)) c in
    if reg =? WM8991_REG_ID then c
    else
      let c := if (reg =? WM8991_REG_PWR1) && negb (val .& WM8991_PWR1_PROBE =? 0)
               then a_probe_bit_writes (w64 (probe_bit_writes c + 1)) c else c in
      let val := if reg =? WM8991_REG_PWR1 then val .& not16 WM8991_PWR1_PROBE else val in
      let val := if reg =? WM8991_REG_GPSTAT then val .& not16 WM8991_GP_BIT else val in
      a_written (<[reg := true]> (written c)) (a_regs (<[reg := val]> (regs c)) c).

Definition commit_write (c : s5l_wm8991) : s5l_wm8991 :=
  a_wlen 0
    (if wlen c =? 0 then c
     else if wlen c =? 1 then a_ptr (wbuf c 0 .& 0x7f) c
     else if wlen c =? 2 then
       let reg := (wbuf c 0 .>> 1) .& 0x7f in
       let val := Z.shiftl (wbuf c 0 .& 1) 8 .| wbuf c 1 in
       codec_reg_write reg val (a_ptr reg (a_packed_writes (w64 (packed_writes c + 1)) c))
     else if wlen c =? 3 then
       let reg := wbuf c 0 .& 0x7f in
       let val := Z.shiftl (wbuf c 1) 8 .| wbuf c 2 in
       codec_reg_write reg val (a_ptr reg (a_wide_writes (w64 (wide_writes c + 1)) c))
     else a_refused_writes (w64 (refused_writes c + 1)) c).

Definition codec_start (rd : bool) (c : s5l_wm8991) : bool * s5l_wm8991 :=
  let c := a_reading rd c in (true, if rd then a_second_byte false c else a_wlen 0 c).

Definition codec_write (byte : Z) (c : s5l_wm8991) : bool * s5l_wm8991 :=
  if WM8991_MAX_WRITE <=? wlen c then (false, a_wlen (WM8991_MAX_WRITE + 1) c)
  else (true, a_wlen (wlen c + 1) (a_wbuf (<[wlen c := byte]> (wbuf c)) c)).

Definition codec_read (c : s5l_wm8991) : Z * s5l_wm8991 :=
  if negb (second_byte c) then
    let '(v, c) := codec_reg_read (ptr c) c in
    let c := a_second_byte true (a_latch v c) in (w8 (latch c .>> 8), c)
  else
    let c := a_ptr ((ptr c + 1) .& 0x7f) (a_second_byte false c) in (latch c .& 0xff, c).

Definition codec_stop (c : s5l_wm8991) : s5l_wm8991 := if reading c then c else commit_write c.

Definition s5l_wm8991_bind {W} `{Seat W s5l_wm8991} : i2c_slave W :=
  MkSlave WM8991_I2C_ADDR
    (fun rd w => let '(ok, c) := codec_start rd (context w) in (ok, reseat c w))
    (Some (fun byte w => let '(ok, c) := codec_write byte (context w) in (ok, reseat c w)))
    (Some (fun w => let '(v, c) := codec_read (context w) in (v, reseat c w)))
    (Some (fun w => reseat (codec_stop (context w)) w)).

(** ** Registers through the controller *)

(** The two encodings of a store. *)
Definition wide (reg val : Z) : list Z := [reg; val / 256; val mod 256].
Definition packed (reg val : Z) : list Z := [reg * 2 + val / 256; val mod 256].
Definition encodes (reg val : Z) (message : list Z) : Prop :=
  message = wide reg val ∨ (val < 512 ∧ message = packed reg val).

(** What a register reads after [val] is stored in it. *)
Definition reads_after (reg val : Z) (c : s5l_wm8991) : Z :=
  if reg =? WM8991_REG_ID then WM8991_ID_VALUE
  else if reg =? WM8991_REG_PWR1 then val .& not16 WM8991_PWR1_PROBE
  else if reg =? WM8991_REG_GPSTAT then
    (val .& not16 WM8991_GP_BIT) .| (if bit (regs c WM8991_REG_GPCTRL) 12 then WM8991_GP_BIT else 0)
  else val.

Lemma gp_bit x : (x .& WM8991_GP_BIT =? 0) = negb (bit x 12).
Proof. change WM8991_GP_BIT with (1 .<< 12). by apply bit_test. Qed.

Lemma reg_write_ptr reg val c : ptr (codec_reg_write reg val c) = ptr c.
Proof. unfold codec_reg_write. by repeat case_match. Qed.

Lemma peek_after reg val c : 0 <= reg < 128 →
  s5l_wm8991_peek reg (codec_reg_write reg val c) = reads_after reg val c.
Proof.
  intros Hr. unfold s5l_wm8991_peek, codec_reg_write, reads_after. change WM8991_NREG with 128.
  rewrite (proj2 (Z.leb_gt 128 reg)) by lia. destruct (Z.eqb_spec reg WM8991_REG_ID) as [|Hid]; [done|]. cbv zeta.
  cbn [written regs a_written a_regs]. rewrite !fn_lookup_insert, andb_false_r.
  destruct (Z.eqb_spec reg WM8991_REG_PWR1) as [-> | H1]; [done|].
  destruct (Z.eqb_spec reg WM8991_REG_GPSTAT) as [-> | H2]; [|done].
  unfold apply_status_mirror. cbn [regs a_written a_regs]. rewrite fn_lookup_insert_ne by done. cbn [andb]. rewrite gp_bit.
  change (regs (a_reg_writes _ c)) with (regs c).
  rewrite <- Z.land_assoc, Z.land_diag. destruct (bit (regs c WM8991_REG_GPCTRL) 12); [done|]. by rewrite Z.lor_0_r.
Qed.

Lemma peek_other reg val c k : 0 <= reg < 128 → k ≠ reg → ¬ (reg = WM8991_REG_GPCTRL ∧ k = WM8991_REG_GPSTAT) →
  s5l_wm8991_peek k (codec_reg_write reg val c) = s5l_wm8991_peek k c.
Proof.
  intros Hr Hk Hm. unfold codec_reg_write. change WM8991_NREG with 128 at 1. rewrite (proj2 (Z.leb_gt 128 reg)) by lia.
  destruct (reg =? WM8991_REG_ID); [done|]. cbv zeta. unfold s5l_wm8991_peek, apply_status_mirror. cbn [written regs a_written a_regs].
  assert (R : ∀ d : s5l_wm8991, written d = written c → regs d = regs c → ∀ v,
    (if WM8991_NREG <=? k then 0 else if k =? WM8991_REG_ID then WM8991_ID_VALUE
     else if (k =? WM8991_REG_SPKVOL) && negb ((<[reg := true]> (written d)) k) then WM8991_SPKVOL_RESET
     else if k =? WM8991_REG_GPSTAT
     then if (<[reg := v]> (regs d)) WM8991_REG_GPCTRL .& WM8991_GP_BIT =? 0 then (<[reg := v]> (regs d)) k .& not16 WM8991_GP_BIT
          else ((<[reg := v]> (regs d)) k .& not16 WM8991_GP_BIT) .| WM8991_GP_BIT
     else (<[reg := v]> (regs d)) k) = s5l_wm8991_peek k c); [|apply R; by destruct (_ && _)].
  intros d Ew Er v. unfold s5l_wm8991_peek, apply_status_mirror. rewrite Ew, Er, !(fn_lookup_insert_ne _ reg k) by done.
  destruct (_ <=? k); [done|]. destruct (k =? WM8991_REG_ID); [done|]. destruct (_ && _); [done|].
  destruct (Z.eqb_spec k WM8991_REG_GPSTAT) as [-> |]; [|done].
  rewrite fn_lookup_insert_ne by (intros ->; by apply Hm). done.
Qed.

Section controller.
Context {W : Type} `{Seat W s5l_wm8991}.
Implicit Types (b : s5l_i2c W) (w : W) (c : s5l_wm8991).
Abbreviation codec := (Some (s5l_wm8991_bind (W:=W))).

(** The transaction buffer of a message. *)
Definition filled (bytes : list Z) c : s5l_wm8991 :=
  foldl (fun c x => (codec_write x c).2) (a_wlen 0 (a_reading false c)) bytes.

Lemma deliver_codec bytes : ∀ c w, wlen c + Z.of_nat (length bytes) <= 3 →
  deliver codec bytes false (reseat c w) = (false, reseat (foldl (fun c x => (codec_write x c).2) c bytes) w).
Proof.
  induction bytes as [|x bytes IH]; intros c w L; [done|]. cbn [length] in L.
  cbn [deliver mbind option_bind sl_write s5l_wm8991_bind foldl]. rewrite context_reseat.
  assert (E : codec_write x c = (true, a_wlen (wlen c + 1) (a_wbuf (<[wlen c := x]> (wbuf c)) c))).
  { unfold codec_write. change WM8991_MAX_WRITE with 3. by rewrite (proj2 (Z.leb_gt 3 (wlen c))) by lia. }
  rewrite E. cbn [negb snd]. rewrite reseat_reseat. apply IH. cbn [wlen a_wlen]. lia.
Qed.

Lemma filled_reading bytes : ∀ c, reading (foldl (fun c x => (codec_write x c).2) c bytes) = reading c.
Proof. induction bytes as [|x bytes IH]; intros c; [done|]. cbn [foldl]. rewrite IH. unfold codec_write. by destruct (_ <=? _). Qed.

Lemma takes_codec bytes w : (length bytes <= 3)%nat → takes codec bytes w = (false, reseat (commit_write (filled bytes (context w))) w).
Proof.
  intros L. unfold takes. change (addressed codec false w) with (false, reseat (a_wlen 0 (a_reading false (context w))) w).
  cbv iota beta. rewrite deliver_codec by (cbn [wlen a_wlen]; lia). unfold finish. cbn [mbind option_bind sl_stop s5l_wm8991_bind].
  rewrite context_reseat, reseat_reseat. unfold codec_stop. by rewrite filled_reading.
Qed.

(** Everything the registers depend on. *)
Definition same_registers c c' : Prop := regs c' = regs c ∧ written c' = written c.

Lemma peek_same k c c' : same_registers c c' → s5l_wm8991_peek k c' = s5l_wm8991_peek k c.
Proof. intros [E1 E2]. unfold s5l_wm8991_peek, apply_status_mirror. by rewrite E1, E2. Qed.

Lemma reg_read_exact reg c : 0 <= reg < 128 →
  (codec_reg_read reg c).1 = s5l_wm8991_peek reg c ∧ same_registers c (codec_reg_read reg c).2 ∧ ptr (codec_reg_read reg c).2 = ptr c.
Proof.
  intros Hr. unfold codec_reg_read. change WM8991_NREG with 128. rewrite (proj2 (Z.leb_gt 128 reg)) by lia.
  destruct (Z.eqb_spec reg WM8991_REG_ID) as [-> | Hid]; [done|]. cbv zeta.
  assert (N : ∀ d, same_registers d (codec_note_unknown_read reg d) ∧ ptr (codec_note_unknown_read reg d) = ptr d).
  { intros d. unfold codec_note_unknown_read. cbv zeta. case_bool_decide; [done|]. by destruct (_ <? _). }
  set (c1 := a_reg_reads _ c). set (c2 := if _ : bool then _ else c1).
  assert (S : same_registers c c2 ∧ ptr c2 = ptr c).
  { unfold c2. destruct (_ && _); [|done]. apply (N c1). }
  destruct S as [S P]. destruct (Z.eqb_spec reg WM8991_REG_GPSTAT) as [-> |]; cbn [fst snd].
  - split; [|done]. unfold apply_status_mirror. cbn [regs a_status_mirror_reads]. by destruct S as [-> _].
  - split; [|done]. by apply peek_same.
Qed.

Lemma gives_codec w : 0 <= ptr (context w) < 128 → ∃ c',
  gives codec 2 w = ([w8 (s5l_wm8991_peek (ptr (context w)) (context w) .>> 8); s5l_wm8991_peek (ptr (context w)) (context w) .& 0xff],
                     false, reseat c' w)
  ∧ same_registers (context w) c'.
Proof.
  intros Hp. set (c0 := a_second_byte false (a_reading true (context w))).
  destruct (reg_read_exact (ptr c0) c0 Hp) as (V & S & P).
  assert (P0 : s5l_wm8991_peek (ptr c0) c0 = s5l_wm8991_peek (ptr (context w)) (context w)) by (by apply peek_same).
  unfold gives. change (addressed codec true w) with (false, reseat c0 w). cbv iota beta.
  assert (R1 : codec_read c0 = (w8 (s5l_wm8991_peek (ptr c0) c0 .>> 8), a_second_byte true (a_latch (s5l_wm8991_peek (ptr c0) c0) (codec_reg_read (ptr c0) c0).2))).
  { unfold codec_read. change (second_byte c0) with false. cbn [negb]. destruct (codec_reg_read (ptr c0) c0) as [v c1]. cbn [fst snd] in *. by rewrite V. }
  cbn [gather mbind option_bind sl_read s5l_wm8991_bind]. rewrite context_reseat, R1. cbv iota beta. rewrite reseat_reseat, context_reseat.
  set (c1 := a_second_byte true _). assert (R2 : codec_read c1 = (s5l_wm8991_peek (ptr c0) c0 .& 0xff, a_ptr ((ptr c1 + 1) .& 0x7f) (a_second_byte false c1))) by done.
  rewrite R2. cbv iota beta. unfold finish. cbn [mbind option_bind sl_stop s5l_wm8991_bind]. rewrite !reseat_reseat, context_reseat.
  rewrite P0. eexists. split; [reflexivity|]. assert (Rd : reading (codec_reg_read (ptr c0) c0).2 = true).
  { unfold codec_reg_read, codec_note_unknown_read. by repeat case_match. }
  unfold codec_stop. change (reading (a_ptr _ _)) with (reading (codec_reg_read (ptr c0) c0).2). rewrite Rd. exact S.
Qed.

Lemma filled_commit bytes c : (length bytes <= 3)%nat → ∃ c1, same_registers c c1 ∧
  commit_write (filled bytes c) =
  match bytes with
  | [] => c1
  | [x] => a_wlen 0 (a_ptr (x .& 0x7f) c1)
  | [x; y] => a_wlen 0 (codec_reg_write ((x .>> 1) .& 0x7f) (Z.shiftl (x .& 1) 8 .| y) (a_ptr ((x .>> 1) .& 0x7f) c1))
  | x :: y :: z :: _ => a_wlen 0 (codec_reg_write (x .& 0x7f) (Z.shiftl y 8 .| z) (a_ptr (x .& 0x7f) c1))
  end.
Proof. intros L. destruct bytes as [|x [|y [|z [|]]]]; [..|simpl in L; lia]; (eexists; split; [|reflexivity]; done). Qed.

Lemma seven_bits x : 0 <= x < 128 → x .& 0x7f = x.
Proof. intros ?. change 0x7f with (Z.ones 7). rewrite Z.land_ones by lia. by apply Z.mod_small. Qed.

(** The state a store leaves. *)
Lemma store_commit reg val msg c : 0 <= reg < 128 → uint 16 val → encodes reg val msg → ∃ c1, same_registers c c1 ∧
  commit_write (filled msg c) = a_wlen 0 (codec_reg_write reg val (a_ptr reg c1)).
Proof.
  intros Hr [V0 V1] [-> | [Hv ->]].
  - destruct (filled_commit (wide reg val) c) as (c1 & S & ->); [simpl; lia|]. exists c1. split; [done|]. unfold wide.
    rewrite seven_bits, shiftl_lor by (done || (apply Z.mod_pos_bound; lia)). change (2 ^ 8) with 256.
    do 2 f_equal. pose proof (Z.div_mod val 256). lia.
  - destruct (filled_commit (packed reg val) c) as (c1 & S & ->); [simpl; lia|]. exists c1. split; [done|]. unfold packed.
    assert (Q : 0 <= val / 256 < 2) by (split; [apply Z.div_pos; lia|apply Z.div_lt_upper_bound; lia]).
    assert (E : (reg * 2 + val / 256) .>> 1 = reg) by (rewrite Z.shiftr_div_pow2 by lia; change (2 ^ 1) with 2; rewrite Z.div_add_l, Z.div_small by lia; lia).
    assert (F : (reg * 2 + val / 256) .& 1 = val / 256).
    { change 1 with (Z.ones 1) at 1. rewrite Z.land_ones by lia. change (2 ^ 1) with 2. rewrite Z.add_comm, Z.mod_add, Z.mod_small by lia. done. }
    rewrite E, F, seven_bits, shiftl_lor by (done || (apply Z.mod_pos_bound; lia)). change (2 ^ 8) with 256.
    do 2 f_equal. pose proof (Z.div_mod val 256). lia.
Qed.

(** a register written through the I2C controller in either encoding and read back
    through it gives the value written, the two octets in order, except that the identity,
    the probe bit and the mirrored status bit are the part's own; no other register
    changes but the status word that mirrors the one written. *)
Theorem codec_registers_roundtrip (reg val : Z) (msg : list Z) b w :
  at_rest b → slave_at WM8991_I2C_ADDR b = codec → 0 <= reg < 128 → uint 16 val → encodes reg val msg →
  let v := reads_after reg val (context w) in ∃ b' w',
  i2c_run (write_message WM8991_I2C_ADDR msg ++ write_message WM8991_I2C_ADDR [reg] ++ read_message WM8991_I2C_ADDR 2) b w
  = ((replicate (S (length msg)) I2C_INT_BYTE ++ [I2C_INT_STOP]) ++ [I2C_INT_BYTE; I2C_INT_BYTE; I2C_INT_STOP]
     ++ I2C_INT_BYTE :: read_answers [w8 (v .>> 8); v .& 0xff] ++ [I2C_INT_STOP], b', w')
  ∧ at_rest b' ∧ slaves b' = slaves b
  ∧ ∀ k, k ≠ reg → ¬ (reg = WM8991_REG_GPCTRL ∧ k = WM8991_REG_GPSTAT) →
      s5l_wm8991_peek k (context w') = s5l_wm8991_peek k (context w).
Proof.
  intros Hb Hs Hr Hv He v. pose proof He as Hm. 
  assert (L : (length msg <= 3)%nat ∧ Forall (uint 8) msg).
  { destruct Hv. assert (0 <= val / 256 < 256) by (split; [apply Z.div_pos; lia|apply Z.div_lt_upper_bound; lia]).
    assert (0 <= val mod 256 < 256) by (apply Z.mod_pos_bound; lia).
    destruct Hm as [-> | [Hl ->]]; (split; [simpl; lia|]); repeat apply Forall_cons_2; try apply Forall_nil_2; unfold uint; try lia.
    assert (val / 256 < 2) by (apply Z.div_lt_upper_bound; lia). lia. }
  rewrite i2c_run_app. destruct (message_written WM8991_I2C_ADDR msg b w) as (b1 & -> & R1 & _ & L1); [done|done|apply L|].
  rewrite Hs, takes_codec by apply L. cbn [snd].
  destruct (store_commit reg val msg (context w) Hr Hv He) as (c1 & S1 & ->).
  set (c2 := a_wlen 0 (codec_reg_write reg val (a_ptr reg c1))).
  rewrite i2c_run_app. destruct (message_written WM8991_I2C_ADDR [reg] b1 (reseat c2 w)) as (b2 & -> & R2 & _ & L2);
    [done|done|apply Forall_cons_2; [unfold uint; lia|apply Forall_nil_2]|].
  assert (Hs1 : slave_at WM8991_I2C_ADDR b1 = codec) by (unfold slave_at in *; by rewrite L1).
  rewrite Hs1, takes_codec, context_reseat, reseat_reseat by (simpl; lia). cbn [snd].
  destruct (filled_commit [reg] c2) as (c3 & S3 & ->); [simpl; lia|]. rewrite seven_bits by done.
  set (c4 := a_wlen 0 (a_ptr reg c3)).
  destruct (message_read WM8991_I2C_ADDR 2 b2 (reseat c4 w)) as (b3 & -> & R3 & _ & L3); [done|done|].
  assert (Hs2 : slave_at WM8991_I2C_ADDR b2 = codec) by (unfold slave_at in *; by rewrite L2).
  rewrite Hs2. destruct (gives_codec (reseat c4 w)) as (c5 & -> & S5); [by rewrite context_reseat|]. rewrite context_reseat in *. cbn [fst snd].
  change (ptr c4) with reg.
  assert (Peek : ∀ k, s5l_wm8991_peek k c4 = s5l_wm8991_peek k (codec_reg_write reg val (a_ptr reg c1))).
  { intros k. change (s5l_wm8991_peek k c4) with (s5l_wm8991_peek k c3). rewrite (peek_same k c2 c3 S3). done. }
  assert (Vv : s5l_wm8991_peek reg c4 = v).
  { rewrite Peek, peek_after by done. unfold v, reads_after. change (regs (a_ptr reg c1)) with (regs c1). by rewrite (proj1 S1). }
  rewrite Vv, reseat_reseat. exists b3, (reseat c5 w). rewrite context_reseat. split; [done|]. split; [done|].
  split; [by rewrite L3, L2, L1|]. intros k Hk Hg. rewrite (peek_same k c4 c5 S5), Peek, peek_other by done.
  change (s5l_wm8991_peek k (a_ptr reg c1)) with (s5l_wm8991_peek k c1). by apply peek_same.
Qed.
End controller.

(** *** An example: the identity survives a store, and a control bit shows in the status *)

Definition demo_codec_bus : s5l_i2c s5l_wm8991 := snd (s5l_i2c_attach s5l_wm8991_bind s5l_i2c_reset).

Lemma codec_registers_roundtrip_witness : at_rest demo_codec_bus ∧ ∃ b' w',
  i2c_run (write_message 0x1b (wide 0x26 0x1234) ++ write_message 0x1b [0x26] ++ read_message 0x1b 2) demo_codec_bus s5l_wm8991_reset
  = ([256; 256; 256; 256; 8192; 256; 256; 8192; 256; 256; 0x12; 256; 0x34; 8192], b', w').
Proof.
  assert (B : at_rest demo_codec_bus) by by vm_compute. split; [exact B|].
  destruct (codec_registers_roundtrip 0x26 0x1234 (wide 0x26 0x1234) demo_codec_bus s5l_wm8991_reset B) as (b' & w' & E & _);
    [reflexivity|done|done|by left|]. exists b', w'. exact E.
Defined.
