(* ===== verification/I2s.v ===== *)
(** * The I2S controllers and their audio

    [core/src/soc/i2s.c] and [core/src/soc/i2s_audio.c], with [s5l_i2s_t] and
    [s5l_i2s_audio_t] of [core/include/soc.h]: register storage, two bounded FIFOs of octets
    (playback is direction [false], capture [true]), and the serial clocks that move one
    sample pair per period between a FIFO and the host's callback, through the gains and the
    rate the codec's registers set.

    Samples and gains are binary32 patterns, computed as Float.v computes on the host; the
    C library's [powf] is a parameter.  The callback maps its context, the direction, the
    rate and a pair of samples to the pair it leaves. *)

From S2P Require Import Prelude Bits Bytes Float Wm8991.

Definition S5L8900_I2S0_BASE := 0x3ca00000.
Definition S5L8900_I2S1_BASE := 0x3cd00000.
Definition S5L_I2S_REGS := 7.
Definition S5L_I2S_UNKNOWN_OFF := 8.
Definition S5L_I2S_FIFO_BYTES := 256.
Definition S5L_I2S_TX_FIFO_OFF := 0x10.
Definition S5L_I2S_RX_FIFO_OFF := 0x38.

Definition I2S_OFFSETS : list Z := [0x00; 0x04; 0x08; 0x30; 0x34; 0x3c; 0x40].
Definition s5l_i2s_offset (index : Z) : Z :=
  if S5L_I2S_REGS <=? index then 0xffffffff else nth (Z.to_nat index) I2S_OFFSETS 0.

Inductive i2s_fifo := FIFO_NONE | FIFO_TX | FIFO_RX.
Definition s5l_i2s_fifo_role (off : Z) : i2s_fifo :=
  if off =? S5L_I2S_TX_FIFO_OFF then FIFO_TX else if off =? S5L_I2S_RX_FIFO_OFF then FIFO_RX else FIFO_NONE.
Definition s5l_i2s_fifo_pa (index : Z) (which : i2s_fifo) : Z :=
  let of_base base := match which with
                      | FIFO_TX => base + S5L_I2S_TX_FIFO_OFF
                      | FIFO_RX => base + S5L_I2S_RX_FIFO_OFF
                      | FIFO_NONE => 0xffffffff
                      end in
  if index =? 0 then of_base S5L8900_I2S0_BASE
  else if index =? 1 then of_base S5L8900_I2S1_BASE
  else 0xffffffff.

Definition slot_for (off : Z) : option Z :=
  (fun k => Z.of_nat (fst k)) <$> list_find (fun o => o = off) I2S_OFFSETS.

Section i2s.
(** The context of the frame callback. *)
Context {K : Type}.

Record s5l_i2s := MkI2s {
  regs : Z → Z; reads : Z; writes : Z; unknown_reads : Z; unknown_writes : Z; unknown_off : list Z;
  fifo : bool → Z → Z; head : bool → Z; count : bool → Z; phase : bool → Z; frames : bool → Z; xruns : bool → Z;
  rate : bool → Z; codec_generation : Z; gain : bool → bool → Z;
  frame : option (K → bool → Z → Z * Z → (Z * Z) * K); frame_ctx : K }.

Definition j_regs (v : Z → Z) (s : s5l_i2s) : s5l_i2s :=
  MkI2s v (reads s) (writes s) (unknown_reads s) (unknown_writes s) (unknown_off s) (fifo s)
    (head s) (count s) (phase s) (frames s) (xruns s) (rate s) (codec_generation s) (gain s)
    (frame s) (frame_ctx s).
Definition j_reads (v : Z) (s : s5l_i2s) : s5l_i2s :=
  MkI2s (regs s) v (writes s) (unknown_reads s) (unknown_writes s) (unknown_off s) (fifo s)
    (head s) (count s) (phase s) (frames s) (xruns s) (rate s) (codec_generation s) (gain s)
    (frame s) (frame_ctx s).
Definition j_writes (v : Z) (s : s5l_i2s) : s5l_i2s :=
  MkI2s (regs s) (reads s) v (unknown_reads s) (unknown_writes s) (unknown_off s) (fifo s) (head
    s) (count s) (phase s) (frames s) (xruns s) (rate s) (codec_generation s) (gain s) (frame s)
    (frame_ctx s).
Definition j_unknown_reads (v : Z) (s : s5l_i2s) : s5l_i2s :=
  MkI2s (regs s) (reads s) (writes s) v (unknown_writes s) (unknown_off s) (fifo s) (head s)
    (count s) (phase s) (frames s) (xruns s) (rate s) (codec_generation s) (gain s) (frame s)
    (frame_ctx s).
Definition j_unknown_writes (v : Z) (s : s5l_i2s) : s5l_i2s :=
  MkI2s (regs s) (reads s) (writes s) (unknown_reads s) v (unknown_off s) (fifo s) (head s)
    (count s) (phase s) (frames s) (xruns s) (rate s) (codec_generation s) (gain s) (frame s)
    (frame_ctx s).
Definition j_unknown_off (v : list Z) (s : s5l_i2s) : s5l_i2s :=
  MkI2s (regs s) (reads s) (writes s) (unknown_reads s) (unknown_writes s) v (fifo s) (head s)
    (count s) (phase s) (frames s) (xruns s) (rate s) (codec_generation s) (gain s) (frame s)
    (frame_ctx s).
Definition j_fifo (v : bool → Z → Z) (s : s5l_i2s) : s5l_i2s :=
  MkI2s (regs s) (reads s) (writes s) (unknown_reads s) (unknown_writes s) (unknown_off s) v
    (head s) (count s) (phase s) (frames s) (xruns s) (rate s) (codec_generation s) (gain s)
    (frame s) (frame_ctx s).
Definition j_head (v : bool → Z) (s : s5l_i2s) : s5l_i2s :=
  MkI2s (regs s) (reads s) (writes s) (unknown_reads s) (unknown_writes s) (unknown_off s) (fifo
    s) v (count s) (phase s) (frames s) (xruns s) (rate s) (codec_generation s) (gain s) (frame
    s) (frame_ctx s).
Definition j_count (v : bool → Z) (s : s5l_i2s) : s5l_i2s :=
  MkI2s (regs s) (reads s) (writes s) (unknown_reads s) (unknown_writes s) (unknown_off s) (fifo
    s) (head s) v (phase s) (frames s) (xruns s) (rate s) (codec_generation s) (gain s) (frame
    s) (frame_ctx s).
Definition j_phase (v : bool → Z) (s : s5l_i2s) : s5l_i2s :=
  MkI2s (regs s) (reads s) (writes s) (unknown_reads s) (unknown_writes s) (unknown_off s) (fifo
    s) (head s) (count s) v (frames s) (xruns s) (rate s) (codec_generation s) (gain s) (frame
    s) (frame_ctx s).
Definition j_frames (v : bool → Z) (s : s5l_i2s) : s5l_i2s :=
  MkI2s (regs s) (reads s) (writes s) (unknown_reads s) (unknown_writes s) (unknown_off s) (fifo
    s) (head s) (count s) (phase s) v (xruns s) (rate s) (codec_generation s) (gain s) (frame s)
    (frame_ctx s).
Definition j_xruns (v : bool → Z) (s : s5l_i2s) : s5l_i2s :=
  MkI2s (regs s) (reads s) (writes s) (unknown_reads s) (unknown_writes s) (unknown_off s) (fifo
    s) (head s) (count s) (phase s) (frames s) v (rate s) (codec_generation s) (gain s) (frame
    s) (frame_ctx s).
Definition j_rate (v : bool → Z) (s : s5l_i2s) : s5l_i2s :=
  MkI2s (regs s) (reads s) (writes s) (unknown_reads s) (unknown_writes s) (unknown_off s) (fifo
    s) (head s) (count s) (phase s) (frames s) (xruns s) v (codec_generation s) (gain s) (frame
    s) (frame_ctx s).
Definition j_codec_generation (v : Z) (s : s5l_i2s) : s5l_i2s :=
  MkI2s (regs s) (reads s) (writes s) (unknown_reads s) (unknown_writes s) (unknown_off s) (fifo
    s) (head s) (count s) (phase s) (frames s) (xruns s) (rate s) v (gain s) (frame s)
    (frame_ctx s).
Definition j_gain (v : bool → bool → Z) (s : s5l_i2s) : s5l_i2s :=
  MkI2s (regs s) (reads s) (writes s) (unknown_reads s) (unknown_writes s) (unknown_off s) (fifo
    s) (head s) (count s) (phase s) (frames s) (xruns s) (rate s) (codec_generation s) v (frame
    s) (frame_ctx s).
Definition j_frame (v : option (K → bool → Z → Z * Z → (Z * Z) * K)) (s : s5l_i2s) : s5l_i2s :=
  MkI2s (regs s) (reads s) (writes s) (unknown_reads s) (unknown_writes s) (unknown_off s) (fifo
    s) (head s) (count s) (phase s) (frames s) (xruns s) (rate s) (codec_generation s) (gain s)
    v (frame_ctx s).
Definition j_frame_ctx (v : K) (s : s5l_i2s) : s5l_i2s :=
  MkI2s (regs s) (reads s) (writes s) (unknown_reads s) (unknown_writes s) (unknown_off s) (fifo
    s) (head s) (count s) (phase s) (frames s) (xruns s) (rate s) (codec_generation s) (gain s)
    (frame s) v.

Definition s5l_i2s_reset (none : K) : s5l_i2s :=
  MkI2s (fun _ => 0) 0 0 0 0 [] (fun _ _ => 0) (fun _ => 0) (fun _ => 0) (fun _ => 0) (fun _ => 0) (fun _ => 0)
    (fun _ => 0) 0 (fun _ _ => 0) None none.

Definition i2s_note_unknown (off : Z) (s : s5l_i2s) : s5l_i2s :=
  if bool_decide (off ∈ unknown_off s) then s
  else if blen (unknown_off s) <? S5L_I2S_UNKNOWN_OFF then j_unknown_off (unknown_off s ++ [off]) s
  else s.

Definition s5l_i2s_read (off : Z) (s : s5l_i2s) : Z * s5l_i2s :=
  let s := j_reads (w64 (reads s + 1)) s in
  match slot_for off with
  | Some slot => (regs s slot, s)
  | None => (0, i2s_note_unknown off (j_unknown_reads (w64 (unknown_reads s + 1)) s))
  end.

Definition s5l_i2s_write (off val : Z) (s : s5l_i2s) : s5l_i2s :=
  let s := j_writes (w64 (writes s + 1)) s in
  match slot_for off with
  | Some slot => j_regs (<[slot := val]> (regs s)) s
  | None => i2s_note_unknown off (j_unknown_writes (w64 (unknown_writes s + 1)) s)
  end.

(** ** The FIFOs *)

Definition i2s_running (s : s5l_i2s) (d : bool) : bool :=
  bit (regs s 0) 0 && bit (regs s (if d then 4 else 2)) 1.
Definition sample_bits (s : s5l_i2s) (d : bool) : Z :=
  if (regs s (if d then 3 else 1) .>> 5) .& 3 =? 0 then 16 else 0.

(** [n] octets off the front, little-endian. *)
Fixpoint pop_octets (n : nat) (d : bool) (j : Z) (v : Z) (s : s5l_i2s) : Z * s5l_i2s :=
  match n with
  | O => (v, s)
  | S n => pop_octets n d (j + 1) (v .| Z.shiftl (fifo s d (head s d)) (8 * j))
             (j_head (<[d := (head s d + 1) mod S5L_I2S_FIFO_BYTES]> (head s)) s)
  end.
Definition i2s_pop (d : bool) (n : Z) (s : s5l_i2s) : Z * s5l_i2s :=
  let '(v, s) := pop_octets (Z.to_nat n) d 0 0 s in (v, j_count (<[d := count s d - n]> (count s)) s).

Definition push_octet (d : bool) (byte : Z) (s : s5l_i2s) : s5l_i2s :=
  let at_ := (head s d + count s d) mod S5L_I2S_FIFO_BYTES in
  j_fifo (<[d := <[at_ := byte]> (fifo s d)]> (fifo s)) (j_count (<[d := count s d + 1]> (count s)) s).
Definition i2s_push (d : bool) (v n : Z) (s : s5l_i2s) : s5l_i2s :=
  foldl (fun s j => push_octet d (w8 (v .>> (8 * j))) s) s (seqZ 0 n).

Definition fifo_width (width : Z) : bool := (width =? 1) || (width =? 2) || (width =? 4).

Definition s5l_i2s_dma_ready (s : s5l_i2s) (width : Z) (source : bool) : bool :=
  if negb (fifo_width width) then false
  else if negb (bit (regs s 0) 0) then false
  else if source then width <=? count s true
  else count s false <=? S5L_I2S_FIFO_BYTES - width.

Definition count_xrun (d : bool) (n : Z) (s : s5l_i2s) : s5l_i2s := j_xruns (<[d := w64 (xruns s d + n)]> (xruns s)) s.

Definition s5l_i2s_read_width (off width : Z) (s : s5l_i2s) : Z * s5l_i2s :=
  if negb (off =? S5L_I2S_RX_FIFO_OFF) then s5l_i2s_read off s
  else
    let s := j_reads (w64 (reads s + 1)) s in
    if negb (fifo_width width) then (0, s)
    else if count s true <? width then (0, count_xrun true 1 s)
    else i2s_pop true width s.

(** A stopped direction loses its FIFO and its phase. *)
Definition flush_stopped (s : s5l_i2s) (d : bool) : s5l_i2s :=
  if i2s_running s d then s
  else j_phase (<[d := 0]> (phase s)) (j_head (<[d := 0]> (head s)) (j_count (<[d := 0]> (count s)) s)).

Definition s5l_i2s_write_width (off val width : Z) (s : s5l_i2s) : s5l_i2s :=
  if negb (off =? S5L_I2S_TX_FIFO_OFF) then
    let s := s5l_i2s_write off val s in
    if (off =? 0) || (off =? 8) || (off =? 0x34) then flush_stopped (flush_stopped s false) true else s
  else
    let s := j_writes (w64 (writes s + 1)) s in
    if negb (fifo_width width) then s
    else if S5L_I2S_FIFO_BYTES - width <? count s false then count_xrun false 1 s
    else i2s_push false val width s.

(** ** The codec's settings *)

Definition bdiv2 : list Z := [2; 3; 4; 6; 8; 11; 12; 16; 22; 24; 32; 44; 48; 64; 88; 96].

(** The frequency before the divisors, as a fraction; [None] when the PLL is off. *)
Definition pll_clock (c : s5l_wm8991) : option (Z * Z) :=
  if bit (Wm8991.regs c 7) 14 then
    if bit (Wm8991.regs c 2) 15 then
      let pll := Wm8991.regs c 0x3c in
      let k := if bit pll 7 then Z.shiftl (Wm8991.regs c 0x3d .& 255) 8 .| (Wm8991.regs c 0x3e .& 255) else 0 in
      Some (12000000 * (Z.shiftl (pll .& 15) 16 + k), 262144 * (if bit pll 6 then 2 else 1))
    else None
  else Some (12000000, 1).

Definition codec_rate (c : s5l_wm8991) (d : bool) : Z :=
  match pll_clock c with
  | None => 0
  | Some (numerator, denominator) =>
    let mdiv := (Wm8991.regs c 7 .>> 11) .& 3 in
    if negb (mdiv =? 2) && negb (mdiv =? 0) then 0 else
    let denominator := if mdiv =? 2 then denominator * 2 else denominator in
    let lrdiv := Wm8991.regs c (if d then 8 else 9) .& 0x7ff in
    if lrdiv =? 0 then 0 else
    let numerator := numerator * 2 in
    let denominator := denominator * (nth (Z.to_nat ((Wm8991.regs c 6 .>> 1) .& 15)) bdiv2 0 * lrdiv) in
    let rate := (numerator + denominator / 2) / denominator in
    if (8000 <=? rate) && (rate <=? 96000) then rate else 0
  end.

Definition s5l_i2s_input_active (s : s5l_i2s) (c : s5l_wm8991) : bool :=
  i2s_running s true && negb (sample_bits s true =? 0) && negb (Wm8991.regs c 2 .& 3 =? 0) && negb (codec_rate c true =? 0).
End i2s.

Arguments s5l_i2s : clear implicits.

(** ** Gains and samples *)

Section audio.
Context {K : Type} `{HostFpu} (powf : Z → Z → Z).
Implicit Types (s : s5l_i2s K) (c : s5l_wm8991).

Definition float_op (op : fop) (a b : Z) : Z := fst (host_op binary32 RN op a b).
Definition double_op (op : fop) (a b : Z) : Z := fst (host_op binary64 RN op a b).
Definition float_of (n : Z) : Z := fst (deliver binary32 RN (n <? 0) (Z.abs n) 0).
Definition less (f : format) (a b : Z) : bool :=
  negb (is_nan f a) && negb (is_nan f b) && match f_compare f a b with Lt => true | _ => false end.

(** [10.f], [20.f], [121.f], [192.f], [0.375f], [-6.f]. *)
Definition F10 := 0x41200000.
Definition F20 := 0x41a00000.
Definition F121 := 0x42f20000.
Definition F192 := 0x43400000.
Definition F0_375 := 0x3ec00000.
Definition F_6 := 0xc0c00000.

Definition db_gain (db : Z) : Z := powf F10 (float_op OP_DIV db F20).

Definition out_gain (v : Z) : Z :=
  let v := v .& 127 in if v <? 48 then 0 else db_gain (float_op OP_SUB (float_of v) F121).

Definition louder (a b : Z) : Z := if less binary32 b a then a else b.

(** The analogue path of an output channel: line out, speaker, receiver. *)
Definition analogue (c : s5l_wm8991) (ch : Z) : Z :=
  let a := if Wm8991.regs c 1 .& (0x200 .>> ch) =? 0 then 0 else out_gain (Wm8991.regs c (0x1c + ch)) in
  let a := if negb (Wm8991.regs c 1 .& 0x1000 =? 0) && negb (Wm8991.regs c 0x36 .& (2 .>> ch) =? 0) then
             let attn := Wm8991.regs c 0x22 .& 3 in
             let speaker := if attn =? 3 then 0
                            else float_op OP_MUL (out_gain (s5l_wm8991_peek WM8991_REG_SPKVOL c))
                                   (db_gain (float_op OP_MUL F_6 (float_of attn))) in
             louder speaker a
           else a in
  if Wm8991.regs c 1 .& (0x800 .>> ch) =? 0 then a else louder (out_gain (Wm8991.regs c (0x20 + ch))) a.

Definition channel_gain (c : s5l_wm8991) (d : bool) (ch : Z) : Z :=
  let vol := Wm8991.regs c ((if d then 0x0f else 0x0b) + ch) .& 255 in
  let g := if vol =? 0 then 0 else db_gain (float_op OP_MUL (float_op OP_SUB (float_of vol) F192) F0_375) in
  if d then if Wm8991.regs c 2 .& (2 .>> ch) =? 0 then 0 else g
  else
    let g := if (Wm8991.regs c 3 .& (2 .>> ch) =? 0) || negb (Wm8991.regs c 0x0a .& 4 =? 0) then 0 else g in
    float_op OP_MUL g (analogue c ch).

Definition configure_direction (c : s5l_wm8991) (s : s5l_i2s K) (d : bool) : s5l_i2s K :=
  let r := codec_rate c d in
  let s := if rate s d =? r then s else j_phase (<[d := 0]> (phase s)) s in
  let s := j_rate (<[d := r]> (rate s)) s in
  j_gain (<[d := fun right => channel_gain c d (if right : bool then 1 else 0)]> (gain s)) s.

Definition configure (c : s5l_wm8991) (s : s5l_i2s K) : s5l_i2s K :=
  if codec_generation s =? reg_writes c then s
  else configure_direction c (configure_direction c (j_codec_generation (reg_writes c) s) false) true.

Definition pcm_decode (v bits : Z) : Z :=
  let value := v .& (2 ^ bits - 1) in
  let value := if bit value (bits - 1) then value - 2 ^ bits else value in
  fst (narrow RN (double_op OP_DIV (of_integer value) (of_integer (2 ^ (bits - 1))))).

(** [(int64_t)n] for a finite double: toward zero. *)
Definition truncated (u : Z) : Z :=
  let mag := f_mag binary64 u in
  let n := Z.shiftl (f_mant binary64 mag) (f_expo binary64 mag) in
  if f_sign binary64 u then - n else n.

Definition finite (f : format) (u : Z) : bool := negb (is_nan f u) && negb (is_inf f u).

Definition pcm_encode (v bits : Z) : Z :=
  let v := if finite binary32 v then v else 0 in
  let scale := of_integer (2 ^ (bits - 1)) in
  let n := double_op OP_MUL (fst (widen v)) scale in
  let n := if less binary64 n (f_neg binary64 scale) then f_neg binary64 scale else n in
  let top := double_op OP_SUB scale (of_integer 1) in
  let n := if less binary64 top n then top else n in
  w32 (truncated n).

(** ** The serial clocks *)

(** The pair a playback frame takes from its FIFO: silence when it has not got one. *)
Definition frame_in (bits width : Z) (s : s5l_i2s K) : (Z * Z) * s5l_i2s K :=
  if width * 2 <=? count s false then
    let '(l, s) := i2s_pop false width s in
    let '(r, s) := i2s_pop false width s in
    ((float_op OP_MUL (pcm_decode l bits) (gain s false false), float_op OP_MUL (pcm_decode r bits) (gain s false true)), s)
  else ((0, 0), count_xrun false 1 s).

Definition frame_out (bits width : Z) (samples : Z * Z) (s : s5l_i2s K) : s5l_i2s K :=
  if count s true <=? S5L_I2S_FIFO_BYTES - width * 2 then
    let s := i2s_push true (pcm_encode (float_op OP_MUL samples.1 (gain s true false)) bits) width s in
    i2s_push true (pcm_encode (float_op OP_MUL samples.2 (gain s true true)) bits) width s
  else count_xrun true 1 s.

Definition one_frame (d : bool) (s : s5l_i2s K) : s5l_i2s K :=
  let bits := sample_bits s d in
  let width := if bits =? 16 then 2 else 4 in
  let '(samples, s) := if d then ((0, 0), s) else frame_in bits width s in
  let '(samples, s) := match frame s with
                       | Some f => let '(p, k) := f (frame_ctx s) d (rate s d) samples in (p, j_frame_ctx k s)
                       | None => (samples, s)
                       end in
  let s := if d then frame_out bits width samples s else s in
  j_frames (<[d := w64 (frames s d + 1)]> (frames s)) s.

Definition direction_tick (ticks hz : Z) (edge : bool * s5l_i2s K) (d : bool) : bool * s5l_i2s K :=
  let '(edge, s) := edge in
  let active := i2s_running s d && negb (sample_bits s d =? 0) in
  if negb (bit (regs s 0) 0) || (rate s d =? 0) || (d && negb active) then (edge, s)
  else
    let ph := w64 (phase s d + w64 (ticks * rate s d)) in
    let n := ph / hz in
    let s := j_phase (<[d := ph mod hz]> (phase s)) s in
    let edge := edge || (negb d && negb (n =? 0) && bit (regs s 1) 20) in
    if negb active then (edge, s)
    else
      let s := if 4096 <? n then count_xrun d (n - 4096) s else s in
      (edge, Nat.iter (Z.to_nat (Z.min n 4096)) (one_frame d) s).

Definition s5l_i2s_audio_tick (c : s5l_wm8991) (ticks hz : Z) (s : s5l_i2s K) : bool * s5l_i2s K :=
  if hz =? 0 then (false, s)
  else foldl (direction_tick ticks hz) (false, configure c s) [false; true].
End audio.

Definition s5l_i2s_clock_next {K} (hz : Z) (s : s5l_i2s K) : Z :=
  if (hz =? 0) || negb (bit (regs s 0) 0) || negb (bit (regs s 1) 20) || (rate s false =? 0) then 0
  else w32 ((w64 (w64 (w64 (hz - phase s false) + rate s false) - 1)) / rate s false).

Definition next_sample {K} (hz : Z) (s : s5l_i2s K) (next : Z) (d : bool) : Z :=
  let r := rate s d in
  if negb (i2s_running s d) || (r =? 0) || (sample_bits s d =? 0) then next
  else
    let ticks := w32 (w64 (w64 (w64 (hz - phase s d) + r) - 1) / r) in
    let ticks := if ticks =? 0 then 1 else ticks in
    if (next =? 0) || (ticks <? next) then ticks else next.

Definition s5l_i2s_audio_next {K} (hz : Z) (s : s5l_i2s K) : Z :=
  if hz =? 0 then 0 else foldl (next_sample hz s) 0 [false; true].

(** ** The FIFO is a queue of octets *)

Section queue.
Context {K : Type}.
Implicit Types (s : s5l_i2s K).

Definition queue (d : bool) s : list Z := map (fun i => fifo s d ((head s d + i) mod S5L_I2S_FIFO_BYTES)) (seqZ 0 (count s d)).
Definition ring_ok (d : bool) s : Prop := 0 <= head s d < 256 ∧ 0 <= count s d <= 256.

Lemma queue_length d s : ring_ok d s → blen (queue d s) = count s d.
Proof. intros [_ H]. unfold queue, blen. rewrite length_map, length_seqZ. lia. Qed.

Lemma queue_push d b s : ring_ok d s → count s d < 256 →
  queue d (push_octet d b s) = queue d s ++ [b] ∧ ring_ok d (push_octet d b s).
Proof.
  intros [Hh Hc] Hl. unfold queue, ring_ok, push_octet. cbn [fifo head count j_fifo j_count]. rewrite !fn_lookup_insert.
  split; [|lia]. rewrite (seqZ_app 0 (count s d) 1) by lia. rewrite map_app. cbn [map]. f_equal.
  - apply map_ext_in. intros i Hi. apply list_elem_of_In, elem_of_seqZ in Hi. rewrite fn_lookup_insert_ne; [done|].
    change S5L_I2S_FIFO_BYTES with 256. intros E.
    assert (D : (head s d + count s d - (head s d + i)) mod 256 = 0) by (rewrite Zminus_mod, E, Z.sub_diag; done).
    rewrite Z.mod_small in D; lia.
  - change (seqZ (0 + count s d) 1) with [0 + count s d]. cbn [map]. by rewrite Z.add_0_l, fn_lookup_insert.
Qed.

Lemma queue_drop d n s s' : ring_ok d s → 0 <= n <= count s d →
  fifo s' d = fifo s d → head s' d = (head s d + n) mod 256 → count s' d = count s d - n →
  queue d s' = drop (Z.to_nat n) (queue d s) ∧ ring_ok d s'.
Proof.
  intros [Hh Hc] Hn Ef Eh Ec. pose proof (Z.mod_pos_bound (head s d + n) 256 ltac:(lia)) as B. split; [|unfold ring_ok; lia].
  unfold queue. rewrite Ef, Eh, Ec. change S5L_I2S_FIFO_BYTES with 256.
  replace (count s d) with (n + (count s d - n)) at 2 by lia. rewrite (seqZ_app 0 n) by lia.
  rewrite map_app, drop_app_length' by (rewrite length_map, length_seqZ; lia).
  apply list_eq. intros i. rewrite !list_lookup_fmap. destruct (decide (Z.of_nat i < count s d - n)).
  - rewrite !lookup_seqZ_lt by lia. cbn [fmap option_fmap option_map]. do 2 f_equal. rewrite Zplus_mod_idemp_l. f_equal. lia.
  - by rewrite !lookup_seqZ_ge by lia.
Qed.

Lemma queue_head d s i : 0 <= i < count s d → nth (Z.to_nat i) (queue d s) 0 = fifo s d ((head s d + i) mod 256).
Proof.
  intros Hi. apply nth_lookup_Some. unfold queue. rewrite list_lookup_fmap, lookup_seqZ_lt by lia.
  cbn [fmap option_fmap option_map]. do 3 f_equal. lia.
Qed.

(** A store of [n] octets that fits. *)
Lemma queue_pushes d v n s : ring_ok d s → 0 <= n → count s d + n <= 256 →
  queue d (i2s_push d v n s) = queue d s ++ map (fun j => w8 (v .>> (8 * j))) (seqZ 0 n) ∧ ring_ok d (i2s_push d v n s).
Proof.
  intros Hs Hn. unfold i2s_push.
  assert (G : ∀ l s, ring_ok d s → count s d + blen l <= 256 →
    queue d (foldl (fun s j => push_octet d (w8 (v .>> (8 * j))) s) s l) = queue d s ++ map (fun j => w8 (v .>> (8 * j))) l
    ∧ ring_ok d (foldl (fun s j => push_octet d (w8 (v .>> (8 * j))) s) s l)).
  { clear. induction l as [|j l IH]; intros s Hs L; cbn [foldl map]; [by rewrite app_nil_r|]. unfold blen in *. cbn [length] in L.
    destruct (queue_push d (w8 (v .>> (8 * j))) s Hs ltac:(lia)) as [Q R].
    destruct (IH _ R) as [Q' R']; [unfold push_octet; cbn [count j_fifo j_count]; rewrite fn_lookup_insert; lia|].
    split; [|done]. rewrite Q', Q, <- app_assoc. done. }
  intros L. apply G; [done|]. unfold blen. rewrite length_seqZ. lia.
Qed.
End queue.

(** ** Playback *)

Section playback.
Context `{HostFpu} (powf : Z → Z → Z).
(** A host that writes down what it hears. *)
Abbreviation tape := (list (bool * (Z * Z))).
Definition recorder (l : tape) (d : bool) (_ : Z) (p : Z * Z) : (Z * Z) * tape := (p, l ++ [(d, p)]).
Implicit Types (s : s5l_i2s tape) (c : s5l_wm8991).

Inductive i2s_op := Play (val width : Z) | Pass (ticks : Z).
Definition i2s_do (c : s5l_wm8991) (hz : Z) s (o : i2s_op) : s5l_i2s tape :=
  match o with
  | Play val width => s5l_i2s_write_width S5L_I2S_TX_FIFO_OFF val width s
  | Pass ticks => (s5l_i2s_audio_tick powf c ticks hz s).2
  end.
Definition op_ok (o : i2s_op) : Prop := match o with Play _ _ => True | Pass t => uint 32 t end.

(** Playback is on, capture off, and the codec's settings are in effect. *)
Record playing (c : s5l_wm8991) (hz : Z) s : Prop := {
  pl_ring : ring_ok false s;
  pl_running : i2s_running s false = true;
  pl_capture : i2s_running s true = false;
  pl_bits : sample_bits s false = 16;
  pl_tape : frame s = Some recorder;
  pl_codec : codec_generation s = reg_writes c;
  pl_rate : 0 < rate s false < 2 ^ 32;
  pl_phase : 0 <= phase s false < hz }.

(** What a listener of the queue hears: [n] frames, each the next four octets or silence. *)
Fixpoint hear (n : nat) (q : list Z) : list (option (list Z)) * list Z :=
  match n with
  | O => ([], q)
  | S n => if 4 <=? blen q then let '(l, q') := hear n (drop 4 q) in (Some (take 4 q) :: l, q')
           else let '(l, q') := hear n q in (None :: l, q')
  end.

(** The driver's view: the octets it could store, and the frames that time brings. *)
Fixpoint listen (ops : list i2s_op) (r hz : Z) (q : list Z) (ph : Z) : list (option (list Z)) * list Z * Z :=
  match ops with
  | [] => ([], q, ph)
  | Play v w :: ops =>
    listen ops r hz (if fifo_width w && (blen q + w <=? 256) then q ++ map (fun j => w8 (v .>> (8 * j))) (seqZ 0 w) else q) ph
  | Pass t :: ops =>
    let '(l, q) := hear (Z.to_nat (Z.min ((ph + t * r) / hz) 4096)) q in
    let '(l', q, ph) := listen ops r hz q ((ph + t * r) mod hz) in (l ++ l', q, ph)
  end.

(** Two octets make a sample, two samples a frame. *)
Definition pcm (a b : Z) : Z := Z.shiftl a 0 .| Z.shiftl b 8.
Definition sound (g : bool → Z) (o : option (list Z)) : bool * (Z * Z) :=
  (false, match o with
          | Some [a; b; x; y] => (float_op OP_MUL (pcm_decode (pcm a b) 16) (g false), float_op OP_MUL (pcm_decode (pcm x y) 16) (g true))
          | _ => (0, 0)
          end).

Lemma hear_all n : ∀ q, let '(l, q') := hear n q in
  concat (omap id l) ++ q' = q ∧ length l = n ∧ (∀ k o, l !! k = Some (Some o) → length o = 4%nat).
Proof.
  induction n as [|n IH]; intros q; [done|]. cbn [hear]. destruct (Z.leb_spec 4 (blen q)) as [L|L].
  - specialize (IH (drop 4 q)). destruct (hear n (drop 4 q)) as [l q']. destruct IH as (E & F & G). split; [|split].
    + cbn. by rewrite <- app_assoc, E, take_drop.
    + simpl. by rewrite F.
    + intros [|k] o; [|apply G]. intros [= <-]. rewrite length_take. unfold blen in L. lia.
  - specialize (IH q). destruct (hear n q) as [l q']. destruct IH as (E & F & G). split; [done|split; [simpl; by rewrite F|]].
    intros [|k] o; [done|apply G].
Qed.

Lemma ring_next h n : ((h + n) mod 256 + 1) mod 256 = (h + (n + 1)) mod 256.
Proof. rewrite Zplus_mod_idemp_l. f_equal. lia. Qed.

(** One frame of the device is one frame of the listener. *)
Lemma frame_heard c hz s : playing c hz s →
  let '(l, q) := hear 1 (queue false s) in let s' := one_frame false s in
  playing c hz s' ∧ queue false s' = q ∧ frame_ctx s' = frame_ctx s ++ map (sound (gain s false)) l
  ∧ gain s' = gain s ∧ rate s' = rate s ∧ phase s' = phase s.
Proof.
  intros Hp. pose proof (pl_ring _ _ _ Hp) as R. pose proof (queue_length false s R) as L.
  unfold one_frame. rewrite (pl_bits _ _ _ Hp). change (16 =? 16) with true. cbv iota. unfold frame_in. change (2 * 2) with 4.
  cbn [hear]. rewrite L. destruct (Z.leb_spec 4 (count s false)) as [C|C].
  - unfold i2s_pop. change (Z.to_nat 2) with 2%nat. cbn [pop_octets]. cbv beta iota zeta.
    cbn [head count fifo gain frame frame_ctx j_head j_count]. rewrite (pl_tape _ _ _ Hp). unfold recorder. cbn [fst snd].
    rewrite !fn_lookup_insert. set (s' := j_frames _ _).
    destruct (queue_drop false 4 s s' R ltac:(lia)) as [Q R'].
    { done. }
    { unfold s'. cbn [head j_frames j_frame_ctx j_count j_head]. rewrite !fn_lookup_insert. change S5L_I2S_FIFO_BYTES with 256.
      rewrite !ring_next, ?Zplus_mod_idemp_l. f_equal. lia. }
    { unfold s'. cbn [count j_frames j_frame_ctx j_count j_head]. rewrite !fn_lookup_insert. lia. }
    assert (T : take 4 (queue false s) = map (fun i => fifo s false ((head s false + i) mod 256)) [0; 1; 2; 3]).
    { unfold queue. replace (count s false) with (4 + (count s false - 4)) by lia. rewrite (seqZ_app 0 4) by lia. rewrite map_app. done. }
    split; [|split; [exact Q|]].
    + destruct Hp. by constructor.
    + split; [|done]. unfold s'. cbn [frame_ctx j_frames j_frame_ctx]. rewrite T. cbn [map]. unfold sound, pcm.
      change S5L_I2S_FIFO_BYTES with 256. change (8 * (0 + 1)) with 8. change (8 * 0) with 0.
      rewrite !Z.lor_0_l, !Z.add_0_r, (Z.mod_small (head s false)) by apply R.
      by rewrite !ring_next.
  - cbn [frame frame_ctx count_xrun j_xruns]. rewrite (pl_tape _ _ _ Hp). unfold recorder. cbn [fst snd].
    split; [|split; [done|]]; [destruct Hp; by constructor|done].
Qed.

Lemma frames_heard c hz n : ∀ s, playing c hz s →
  let '(l, q) := hear n (queue false s) in let s' := Nat.iter n (one_frame false) s in
  playing c hz s' ∧ queue false s' = q ∧ frame_ctx s' = frame_ctx s ++ map (sound (gain s false)) l
  ∧ gain s' = gain s ∧ rate s' = rate s ∧ phase s' = phase s.
Proof.
  induction n as [|n IH]; intros s Hp; [cbn; by rewrite app_nil_r|].
  rewrite Nat.iter_succ_r. pose proof (frame_heard c hz s Hp) as F. cbn [hear] in *.
  assert (Next : ∀ o q, playing c hz (one_frame false s) ∧ queue false (one_frame false s) = q
    ∧ frame_ctx (one_frame false s) = frame_ctx s ++ map (sound (gain s false)) [o] ∧ gain (one_frame false s) = gain s
    ∧ rate (one_frame false s) = rate s ∧ phase (one_frame false s) = phase s →
    let '(l, q') := (let '(l, q') := hear n q in (o :: l, q')) in
    playing c hz (Nat.iter n (one_frame false) (one_frame false s)) ∧ queue false (Nat.iter n (one_frame false) (one_frame false s)) = q'
    ∧ frame_ctx (Nat.iter n (one_frame false) (one_frame false s)) = frame_ctx s ++ map (sound (gain s false)) l
    ∧ gain (Nat.iter n (one_frame false) (one_frame false s)) = gain s
    ∧ rate (Nat.iter n (one_frame false) (one_frame false s)) = rate s
    ∧ phase (Nat.iter n (one_frame false) (one_frame false s)) = phase s).
  { clear F. intros o q (P & Q & C & G & R & T). specialize (IH _ P). rewrite Q in IH. destruct (hear n q) as [l q'].
    destruct IH as (P' & Q' & C' & G' & R' & T'). repeat split; try congruence; try apply P'.
    rewrite C', C, G, <- app_assoc. done. }
  destruct (4 <=? blen (queue false s)); by apply Next.
Qed.

(** A store, and time, as the listener sees them. *)
Lemma play_heard c hz v w s : playing c hz s →
  let s' := i2s_do c hz s (Play v w) in
  playing c hz s' ∧ queue false s' = (if fifo_width w && (blen (queue false s) + w <=? 256)
    then queue false s ++ map (fun j => w8 (v .>> (8 * j))) (seqZ 0 w) else queue false s)
  ∧ frame_ctx s' = frame_ctx s ∧ gain s' = gain s ∧ rate s' = rate s ∧ phase s' = phase s.
Proof.
  intros Hp. pose proof (pl_ring _ _ _ Hp) as R. rewrite (queue_length false s R). cbn [i2s_do].
  unfold s5l_i2s_write_width. change (S5L_I2S_TX_FIFO_OFF =? S5L_I2S_TX_FIFO_OFF) with true. cbv iota beta zeta. cbn [negb].
  change (count (j_writes _ s) false) with (count s false). change S5L_I2S_FIFO_BYTES with 256.
  assert (P : playing c hz (j_writes (w64 (writes s + 1)) s)) by (destruct Hp; by constructor).
  destruct (fifo_width w) eqn:F; cbn [negb andb]; [|done].
  assert (W : 0 <= w) by (unfold fifo_width in F; lia).
  destruct (Z.ltb_spec (256 - w) (count s false)); [rewrite (proj2 (Z.leb_gt _ _)) by lia|rewrite (proj2 (Z.leb_le _ _)) by lia].
  { split; [|done]. destruct P; by constructor. }
  destruct (queue_pushes false v w _ (pl_ring _ _ _ P) W ltac:(cbn; lia)) as [Q R'].
  assert (Same : ∀ l (s0 : s5l_i2s tape), let s1 := foldl (fun s j => push_octet false (w8 (v .>> (8 * j))) s) s0 l in
    regs s1 = regs s0 ∧ frame s1 = frame s0 ∧ codec_generation s1 = codec_generation s0 ∧ rate s1 = rate s0 ∧ phase s1 = phase s0
    ∧ frame_ctx s1 = frame_ctx s0 ∧ gain s1 = gain s0).
  { clear. induction l as [|j l IH]; intros s0; [done|]. cbn [foldl]. specialize (IH (push_octet false (w8 (v .>> (8 * j))) s0)). done. }
  destruct (Same (seqZ 0 w) (j_writes (w64 (writes s + 1)) s)) as (E1 & E2 & E3 & E4 & E5 & E6 & E7).
  fold (i2s_push false v w (j_writes (w64 (writes s + 1)) s)) in E1, E2, E3, E4, E5, E6, E7.
  split; [|done]. destruct P as [_ P2 P3 P4 P5 P6 P7 P8].
  constructor; unfold i2s_running, sample_bits in *; rewrite ?E1, ?E2, ?E3, ?E4, ?E5; done.
Qed.

Lemma capture_off t hz e s : i2s_running s true = false → direction_tick t hz (e, s) true = (e, s).
Proof. intros R. unfold direction_tick. rewrite R. cbn [andb negb]. by rewrite orb_true_r. Qed.

Lemma playback_frames c hz t s : hz < 2 ^ 32 → uint 32 t → playing c hz s →
  let n := (phase s false + t * rate s false) / hz in
  let s1 := j_phase (<[false := (phase s false + t * rate s false) mod hz]> (phase s)) s in
  ∃ e, direction_tick t hz (false, s) false
       = (e, Nat.iter (Z.to_nat (Z.min n 4096)) (one_frame false) (if 4096 <? n then count_xrun false (n - 4096) s1 else s1)).
Proof.
  intros Hz [T0 T1] Hp n s1. destruct (pl_phase _ _ _ Hp) as [P0 P1]. destruct (pl_rate _ _ _ Hp) as [R0 R1].
  unfold direction_tick. rewrite (pl_running _ _ _ Hp), (pl_bits _ _ _ Hp). change (negb (16 =? 0)) with true.
  assert (B : bit (regs s 0) 0 = true) by (pose proof (pl_running _ _ _ Hp) as Q; unfold i2s_running in Q; by apply andb_prop in Q as [? _]).
  rewrite B, (proj2 (Z.eqb_neq (rate s false) 0)) by lia. cbn [negb orb andb].
  assert (W : w64 (phase s false + w64 (t * rate s false)) = phase s false + t * rate s false).
  { assert (t * rate s false <= (2 ^ 32 - 1) * (2 ^ 32 - 1)) by nia. unfold w64, wrap. rewrite (Z.mod_small (t * _)) by (split; nia). apply Z.mod_small. split; nia. }
  rewrite W. by eexists.
Qed.

Lemma pass_heard c hz t s : hz < 2 ^ 32 → uint 32 t → playing c hz s →
  let '(l, q) := hear (Z.to_nat (Z.min ((phase s false + t * rate s false) / hz) 4096)) (queue false s) in
  let s' := i2s_do c hz s (Pass t) in
  playing c hz s' ∧ queue false s' = q ∧ frame_ctx s' = frame_ctx s ++ map (sound (gain s false)) l
  ∧ gain s' = gain s ∧ rate s' = rate s ∧ phase s' false = (phase s false + t * rate s false) mod hz.
Proof.
  intros Hz Ht Hp. destruct (playback_frames c hz t s Hz Ht Hp) as [e E]. destruct (pl_phase _ _ _ Hp) as [P0 P1].
  set (n := (phase s false + t * rate s false) / hz) in *. set (s2 := if 4096 <? n then _ else _) in *.
  assert (S2 : playing c hz s2 ∧ queue false s2 = queue false s ∧ frame_ctx s2 = frame_ctx s ∧ gain s2 = gain s ∧ rate s2 = rate s
               ∧ phase s2 false = (phase s false + t * rate s false) mod hz).
  { assert (0 <= (phase s false + t * rate s false) mod hz < hz) by (apply Z.mod_pos_bound; lia).
    unfold s2. destruct (4096 <? n); (split; [destruct Hp; constructor; try done; cbn; by rewrite fn_lookup_insert|]);
      repeat (split; [done|]); apply fn_lookup_insert. }
  destruct S2 as (Q1 & Q2 & Q3 & Q4 & Q5 & Q6). pose proof (frames_heard c hz (Z.to_nat (Z.min n 4096)) s2 Q1) as F. rewrite Q2, Q3, Q4, Q5 in F.
  destruct (hear _ _) as [l q]. destruct F as (P & Q & C & G & R & Ph).
  assert (D : i2s_do c hz s (Pass t) = Nat.iter (Z.to_nat (Z.min n 4096)) (one_frame false) s2).
  { cbn [i2s_do]. unfold s5l_i2s_audio_tick, configure. rewrite (pl_codec _ _ _ Hp), Z.eqb_refl, (proj2 (Z.eqb_neq hz 0)) by lia.
    cbn [foldl]. rewrite E, capture_off by apply P. done. }
  cbv zeta. rewrite D. repeat (split; [done|]). by rewrite Ph.
Qed.

Lemma listened c hz ops : hz < 2 ^ 32 → Forall op_ok ops → ∀ s, playing c hz s →
  let '(heard, q, ph) := listen ops (rate s false) hz (queue false s) (phase s false) in
  let s' := foldl (i2s_do c hz) s ops in
  playing c hz s' ∧ queue false s' = q ∧ phase s' false = ph ∧ frame_ctx s' = frame_ctx s ++ map (sound (gain s false)) heard.
Proof.
  intros Hz. induction 1 as [|o ops Ho _ IH]; intros s Hp; [cbn; by rewrite app_nil_r|]. cbn [foldl]. destruct o as [v w|t]; cbn [listen].
  - destruct (play_heard c hz v w s Hp) as (P & Q & C & G & R & T). specialize (IH _ P). rewrite Q, G, R, T, C in IH. exact IH.
  - pose proof (pass_heard c hz t s Hz Ho Hp) as F. destruct (hear _ _) as [l q]. destruct F as (P & Q & C & G & R & T).
    specialize (IH _ P). rewrite Q, G, R, T, C in IH. destruct (listen _ _ _ _ _) as [[l' q'] ph].
    destruct IH as (P' & Q' & T' & C'). split; [done|]. split; [done|]. split; [done|]. by rewrite C', map_app, <- app_assoc.
Qed.

(** The octets of the stores that fitted. *)
Fixpoint accepted (ops : list i2s_op) (r hz : Z) (q : list Z) (ph : Z) : list Z :=
  match ops with
  | [] => []
  | Play v w :: ops =>
    if fifo_width w && (blen q + w <=? 256)
    then let bytes := map (fun j => w8 (v .>> (8 * j))) (seqZ 0 w) in bytes ++ accepted ops r hz (q ++ bytes) ph
    else accepted ops r hz q ph
  | Pass t :: ops => accepted ops r hz (hear (Z.to_nat (Z.min ((ph + t * r) / hz) 4096)) q).2 ((ph + t * r) mod hz)
  end.
Definition elapsed (ops : list i2s_op) : Z := foldr (fun o n => match o with Pass t => t + n | Play _ _ => n end) 0 ops.
Definition steady (r hz : Z) (o : i2s_op) : Prop := match o with Pass t => (hz + t * r) / hz <= 4096 | Play _ _ => True end.

Lemma stream_kept r hz ops : ∀ q ph, let '(heard, q', _) := listen ops r hz q ph in
  concat (omap id heard) ++ q' = q ++ accepted ops r hz q ph.
Proof.
  induction ops as [|[v w|t] ops IH]; intros q ph; cbn [listen accepted]; [by rewrite app_nil_r| |].
  - destruct (_ && _); [|apply IH]. specialize (IH (q ++ map (fun j => w8 (v .>> (8 * j))) (seqZ 0 w)) ph).
    destruct (listen _ _ _ _ _) as [[l q'] ph']. rewrite IH. by rewrite <- app_assoc.
  - pose proof (hear_all (Z.to_nat (Z.min ((ph + t * r) / hz) 4096)) q) as E. destruct (hear _ _) as [l q1]. destruct E as (E & _).
    specialize (IH q1 ((ph + t * r) mod hz)). destruct (listen _ _ _ _ _) as [[l' q'] ph']. cbn [snd].
    rewrite omap_app, concat_app, <- app_assoc, IH, app_assoc, E. done.
Qed.

Lemma frames_due r hz ops : 0 < hz → 0 < r → Forall op_ok ops → Forall (steady r hz) ops → ∀ q ph, 0 <= ph < hz →
  let '(heard, _, ph') := listen ops r hz q ph in
  Z.of_nat (length heard) = (ph + elapsed ops * r) / hz ∧ ph' = (ph + elapsed ops * r) mod hz.
Proof.
  intros Hz Hr Ho. induction Ho as [|o ops Hop _ IH]; intros Hs q ph Hp; cbn [listen elapsed foldr].
  { rewrite Z.mul_0_l, Z.add_0_r, Z.div_small, Z.mod_small by lia. done. }
  inversion_clear Hs as [|? ? Hs1 Hs2]. destruct o as [v w|t]; [by apply IH|]. destruct Hop as [T0 _].
  pose proof (hear_all (Z.to_nat (Z.min ((ph + t * r) / hz) 4096)) q) as E. destruct (hear _ _) as [l q1]. destruct E as (_ & L & _).
  specialize (IH Hs2 q1 ((ph + t * r) mod hz) ltac:(apply Z.mod_pos_bound; lia)). destruct (listen _ _ _ _ _) as [[l' q'] ph'].
  destruct IH as [I1 I2]. fold (elapsed ops) in *. pose proof (advance_split ph (t * r) (elapsed ops * r) hz Hz) as [A1 A2].
  assert (M : (ph + t * r) / hz <= (hz + t * r) / hz) by (apply Z.div_le_mono; lia).
  assert (0 <= (ph + t * r) / hz) by (apply Z.div_pos; nia). cbn [steady] in Hs1.
  rewrite length_app, Nat2Z.inj_add, L, I1, Z.min_l, Z2Nat.id by lia. rewrite I2, A1, Z.mul_add_distr_r, A2. done.
Qed.

(** C16: what the host hears of the playback FIFO: one frame per period of the codec's rate,
    exactly as much as the time that passed is worth; each frame is the next four octets
    the driver stored, in order, as two samples at the channels' gains, or silence when
    fewer than four wait; no octet that was taken is lost, repeated or reordered. *)
Theorem i2s_plays_stream (c : s5l_wm8991) (hz : Z) (ops : list i2s_op) s :
  hz < 2 ^ 32 → playing c hz s → Forall op_ok ops →
  let s' := foldl (i2s_do c hz) s ops in let r := rate s false in
  let '(heard, waiting, _) := listen ops r hz (queue false s) (phase s false) in
  frame_ctx s' = frame_ctx s ++ map (sound (gain s false)) heard
  ∧ queue false s' = waiting
  ∧ concat (omap id heard) ++ waiting = queue false s ++ accepted ops r hz (queue false s) (phase s false)
  ∧ (Forall (steady r hz) ops → Z.of_nat (length heard) = (phase s false + elapsed ops * r) / hz).
Proof.
  intros Hz Hp Ho s' r. pose proof (listened c hz ops Hz Ho s Hp) as L. pose proof (stream_kept r hz ops (queue false s) (phase s false)) as A.
  destruct (pl_phase _ _ _ Hp). destruct (pl_rate _ _ _ Hp).
  pose proof (fun S => frames_due r hz ops ltac:(lia) ltac:(unfold r; lia) Ho S (queue false s) (phase s false) ltac:(done)) as D.
  fold r in L. destruct (listen _ _ _ _ _) as [[heard q] ph]. destruct L as (_ & Q & _ & C). split; [done|]. split; [done|].
  split; [done|]. intros S. by destruct (D S).
Qed.
End playback.

(** *** An example: three samples of two stores, the third not yet a frame *)

#[local] Instance demo_fpu : HostFpu :=
  { tininess_after := true; nan_of f _ _ _ := inf_bits f + quiet_bit f; nan_narrowed _ := 0x7fc00000;
    nan_widened _ := 0x7ff8000000000000; less_signals := false; round_refused _ := false }.

(** Unit gains, a 44.1 kHz divider. *)
Definition demo_powf (_ _ : Z) : Z := 0x3f800000.
Definition demo_codec : s5l_wm8991 :=
  a_reg_writes 1 (a_regs (<[1 := 0x300]> (<[3 := 3]> (<[8 := 272]> (<[9 := 272]> (<[0x0b := 0xc0]> (<[0x0c := 0xc0]>
    (<[0x1c := 121]> (<[0x1d := 121]> (fun _ => 0))))))))) s5l_wm8991_reset).
Definition demo_player : s5l_i2s (list (bool * (Z * Z))) :=
  let s := j_frame (Some recorder) (s5l_i2s_reset []) in
  (s5l_i2s_audio_tick demo_powf demo_codec 0 6000000 (s5l_i2s_write_width 8 2 4 (s5l_i2s_write_width 0 1 4 s))).2.
Definition demo_ops : list i2s_op := [Play 0x80007fff 4; Play 0x4000 2; Pass 137; Pass 137].

Lemma demo_play_ok : Forall op_ok demo_ops.
Proof. repeat constructor; vm_compute; discriminate || reflexivity. Qed.

Lemma demo_playing : playing demo_codec 6000000 demo_player.
Proof.
  constructor; try (vm_compute; done). 
Qed.

Lemma i2s_plays_stream_witness : playing demo_codec 6000000 demo_player ∧
  let s' := foldl (i2s_do demo_powf demo_codec 6000000) demo_player demo_ops in
  frame_ctx s' = [(false, (0x3f7ffe00, 0xbf800000)); (false, (0, 0))] ∧ queue false s' = [0x00; 0x40].
Proof.
  split; [exact demo_playing|].
  pose proof (i2s_plays_stream demo_powf demo_codec 6000000 demo_ops demo_player ltac:(done) demo_playing demo_play_ok) as T.
  assert (L : listen demo_ops (rate demo_player false) 6000000 (queue false demo_player) (phase demo_player false)
              = ([Some [0xff; 0x7f; 0x00; 0x80]; None], [0x00; 0x40], 88332)) by (vm_compute; reflexivity).
  cbv zeta in T. rewrite L in T. destruct T as (F & Q & _). cbv zeta. rewrite F, Q. split; [|reflexivity]. vm_compute. reflexivity.
Defined.
