(* ===== verification/Clcd.v ===== *)
(** * The display controller

    [core/src/soc/clcd.c], with [s5l_clcd_t] of [core/include/soc.h]: the registers, the
    four RGB windows, the frame interrupt on guest time, the handoff a boot loader would
    leave ([s5l_clcd_seed_window0]), and the conversion of a window to RGB
    ([s5l_clcd_scanout]).  Fixed arrays are functions of the index; handles are not NULL. *)

From S2P Require Import Prelude Bits Bytes.

Definition CLCD_ENABLE := 0x0.
Definition CLCD_DISABLE := 0x4.
Definition CLCD_CTRL := 0x8.
Definition CLCD_FIFO := 0xc.
Definition CLCD_INTMASK := 0x14.
Definition CLCD_INTSTATUS := 0x18.
Definition CLCD_REG1C := 0x1c.
Definition CLCD_PREENABLE := 0x20.
Definition CLCD_BACKDROP := 0x24.
Definition CLCD_VIDEO_FIRST := 0x28.
Definition CLCD_VIDEO_LAST := 0x54.
Definition CLCD_WIN_FIRST := 0x58.
Definition CLCD_WIN_STRIDE := 0x18.
Definition CLCD_WIN_COUNT := 4.
Definition CLCD_UPDATE := 0xd4.
Definition CLCD_WINCFG0 := 0xd8.
Definition CLCD_UPDATE2 := 0xe8.
Definition CLCD_WINCFG2_AUX := 0xec.
Definition CLCD_CSC_FIRST := 0x1c8.
Definition CLCD_CSC_LAST := 0x1e8.
Definition CLCD_GATE := 0x200.
Definition CLCD_STATUS := 0x204.
Definition CLCD_UNKNOWN208 := 0x208.
Definition CLCD_VIDTCON0 := 0x20c.
Definition CLCD_VIDTCON1 := 0x210.
Definition CLCD_VIDTCON2 := 0x214.
Definition CLCD_VIDTCON3 := 0x218.
Definition CLCD_OPAQUE_FIRST := CLCD_UNKNOWN208.
Definition CLCD_OPAQUE_LAST := CLCD_VIDTCON3.
Definition CLCD_GAMMA0 := 0x400.
Definition CLCD_GAMMA_SIZE := 0x400.
Definition CLCD_N82_VIDCON0 := 0x441.
Definition CLCD_N82_VIDCON1 := 0x8.
Definition CLCD_WIN_PITCH := 0x0.
Definition CLCD_WIN_CONTROL := 0x4.
Definition CLCD_WIN_FBADDR := 0x8.
Definition CLCD_WIN_GEOMETRY := 0xc.
Definition CLCD_WIN_LINEWORDS := 0x10.
Definition CLCD_WIN_POSITION := 0x14.
Definition CLCD_CTRL_WIN0 := 0x40.
Definition CLCD_CTRL_WIN1 := 0x20.
Definition CLCD_CTRL_WIN2 := 0x10.
Definition CLCD_CTRL_WIN3 := 0x8.
Definition CLCD_CTRL_ENABLE := 0x1.
Definition CLCD_INT_FRAME := 0x1.
Definition CLCD_FMT_SHIFT := 8.
Definition CLCD_FMT_MASK := 0x7.
Definition CLCD_ORDER_SHIFT := 16.
Definition CLCD_ORDER_MASK := 0x3.
Definition S5L_CLCD_REFRESH_HZ := 60.
Definition CLCD_WIN_NONE := 0xffffffff.
Definition CLCD_FMT_IS_32BPP (f : Z) : bool := (f =? 6) || (f =? 7).

Record clcd_window := MkWin { stride : Z; control : Z; fbaddr : Z; geometry : Z; linewords : Z; position : Z }.
Record s5l_clcd := MkClcd {
  enable : Z; disable : Z; ctrl : Z; fifo : Z; intmask : Z; intstatus : Z; reg1c : Z; preenable : Z; backdrop : Z;
  video : Z → Z; win : Z → clcd_window; update : Z; update2 : Z; wincfg_aux : Z → Z; csc : Z → Z; gate : Z;
  opaque : Z → Z; gamma : Z → Z → Z;
  scanning : bool; frame_ticks : Z; frame_accum : Z; frames : Z; updates : Z }.

Definition n_stride (v : Z) (w : clcd_window) : clcd_window :=
  MkWin v (control w) (fbaddr w) (geometry w) (linewords w) (position w).
Definition n_control (v : Z) (w : clcd_window) : clcd_window :=
  MkWin (stride w) v (fbaddr w) (geometry w) (linewords w) (position w).
Definition n_fbaddr (v : Z) (w : clcd_window) : clcd_window :=
  MkWin (stride w) (control w) v (geometry w) (linewords w) (position w).
Definition n_geometry (v : Z) (w : clcd_window) : clcd_window :=
  MkWin (stride w) (control w) (fbaddr w) v (linewords w) (position w).
Definition n_linewords (v : Z) (w : clcd_window) : clcd_window :=
  MkWin (stride w) (control w) (fbaddr w) (geometry w) v (position w).
Definition n_position (v : Z) (w : clcd_window) : clcd_window :=
  MkWin (stride w) (control w) (fbaddr w) (geometry w) (linewords w) v.

Definition l_enable (v : Z) (c : s5l_clcd) : s5l_clcd :=
  MkClcd v (disable c) (ctrl c) (fifo c) (intmask c) (intstatus c) (reg1c c) (preenable c)
    (backdrop c) (video c) (win c) (update c) (update2 c) (wincfg_aux c) (csc c) (gate c)
    (opaque c) (gamma c) (scanning c) (frame_ticks c) (frame_accum c) (frames c) (updates c).
Definition l_disable (v : Z) (c : s5l_clcd) : s5l_clcd :=
  MkClcd (enable c) v (ctrl c) (fifo c) (intmask c) (intstatus c) (reg1c c) (preenable c)
    (backdrop c) (video c) (win c) (update c) (update2 c) (wincfg_aux c) (csc c) (gate c)
    (opaque c) (gamma c) (scanning c) (frame_ticks c) (frame_accum c) (frames c) (updates c).
Definition l_ctrl (v : Z) (c : s5l_clcd) : s5l_clcd :=
  MkClcd (enable c) (disable c) v (fifo c) (intmask c) (intstatus c) (reg1c c) (preenable c)
    (backdrop c) (video c) (win c) (update c) (update2 c) (wincfg_aux c) (csc c) (gate c)
    (opaque c) (gamma c) (scanning c) (frame_ticks c) (frame_accum c) (frames c) (updates c).
Definition l_fifo (v : Z) (c : s5l_clcd) : s5l_clcd :=
  MkClcd (enable c) (disable c) (ctrl c) v (intmask c) (intstatus c) (reg1c c) (preenable c)
    (backdrop c) (video c) (win c) (update c) (update2 c) (wincfg_aux c) (csc c) (gate c)
    (opaque c) (gamma c) (scanning c) (frame_ticks c) (frame_accum c) (frames c) (updates c).
Definition l_intmask (v : Z) (c : s5l_clcd) : s5l_clcd :=
  MkClcd (enable c) (disable c) (ctrl c) (fifo c) v (intstatus c) (reg1c c) (preenable c)
    (backdrop c) (video c) (win c) (update c) (update2 c) (wincfg_aux c) (csc c) (gate c)
    (opaque c) (gamma c) (scanning c) (frame_ticks c) (frame_accum c) (frames c) (updates c).
Definition l_intstatus (v : Z) (c : s5l_clcd) : s5l_clcd :=
  MkClcd (enable c) (disable c) (ctrl c) (fifo c) (intmask c) v (reg1c c) (preenable c)
    (backdrop c) (video c) (win c) (update c) (update2 c) (wincfg_aux c) (csc c) (gate c)
    (opaque c) (gamma c) (scanning c) (frame_ticks c) (frame_accum c) (frames c) (updates c).
Definition l_reg1c (v : Z) (c : s5l_clcd) : s5l_clcd :=
  MkClcd (enable c) (disable c) (ctrl c) (fifo c) (intmask c) (intstatus c) v (preenable c)
    (backdrop c) (video c) (win c) (update c) (update2 c) (wincfg_aux c) (csc c) (gate c)
    (opaque c) (gamma c) (scanning c) (frame_ticks c) (frame_accum c) (frames c) (updates c).
Definition l_preenable (v : Z) (c : s5l_clcd) : s5l_clcd :=
  MkClcd (enable c) (disable c) (ctrl c) (fifo c) (intmask c) (intstatus c) (reg1c c) v
    (backdrop c) (video c) (win c) (update c) (update2 c) (wincfg_aux c) (csc c) (gate c)
    (opaque c) (gamma c) (scanning c) (frame_ticks c) (frame_accum c) (frames c) (updates c).
Definition l_backdrop (v : Z) (c : s5l_clcd) : s5l_clcd :=
  MkClcd (enable c) (disable c) (ctrl c) (fifo c) (intmask c) (intstatus c) (reg1c c) (preenable
    c) v (video c) (win c) (update c) (update2 c) (wincfg_aux c) (csc c) (gate c) (opaque c)
    (gamma c) (scanning c) (frame_ticks c) (frame_accum c) (frames c) (updates c).
Definition l_video (v : Z → Z) (c : s5l_clcd) : s5l_clcd :=
  MkClcd (enable c) (disable c) (ctrl c) (fifo c) (intmask c) (intstatus c) (reg1c c) (preenable
    c) (backdrop c) v (win c) (update c) (update2 c) (wincfg_aux c) (csc c) (gate c) (opaque c)
    (gamma c) (scanning c) (frame_ticks c) (frame_accum c) (frames c) (updates c).
Definition l_win (v : Z → clcd_window) (c : s5l_clcd) : s5l_clcd :=
  MkClcd (enable c) (disable c) (ctrl c) (fifo c) (intmask c) (intstatus c) (reg1c c) (preenable
    c) (backdrop c) (video c) v (update c) (update2 c) (wincfg_aux c) (csc c) (gate c) (opaque
    c) (gamma c) (scanning c) (frame_ticks c) (frame_accum c) (frames c) (updates c).
Definition l_update (v : Z) (c : s5l_clcd) : s5l_clcd :=
  MkClcd (enable c) (disable c) (ctrl c) (fifo c) (intmask c) (intstatus c) (reg1c c) (preenable
    c) (backdrop c) (video c) (win c) v (update2 c) (wincfg_aux c) (csc c) (gate c) (opaque c)
    (gamma c) (scanning c) (frame_ticks c) (frame_accum c) (frames c) (updates c).
Definition l_update2 (v : Z) (c : s5l_clcd) : s5l_clcd :=
  MkClcd (enable c) (disable c) (ctrl c) (fifo c) (intmask c) (intstatus c) (reg1c c) (preenable
    c) (backdrop c) (video c) (win c) (update c) v (wincfg_aux c) (csc c) (gate c) (opaque c)
    (gamma c) (scanning c) (frame_ticks c) (frame_accum c) (frames c) (updates c).
Definition l_wincfg_aux (v : Z → Z) (c : s5l_clcd) : s5l_clcd :=
  MkClcd (enable c) (disable c) (ctrl c) (fifo c) (intmask c) (intstatus c) (reg1c c) (preenable
    c) (backdrop c) (video c) (win c) (update c) (update2 c) v (csc c) (gate c) (opaque c)
    (gamma c) (scanning c) (frame_ticks c) (frame_accum c) (frames c) (updates c).
Definition l_csc (v : Z → Z) (c : s5l_clcd) : s5l_clcd :=
  MkClcd (enable c) (disable c) (ctrl c) (fifo c) (intmask c) (intstatus c) (reg1c c) (preenable
    c) (backdrop c) (video c) (win c) (update c) (update2 c) (wincfg_aux c) v (gate c) (opaque
    c) (gamma c) (scanning c) (frame_ticks c) (frame_accum c) (frames c) (updates c).
Definition l_gate (v : Z) (c : s5l_clcd) : s5l_clcd :=
  MkClcd (enable c) (disable c) (ctrl c) (fifo c) (intmask c) (intstatus c) (reg1c c) (preenable
    c) (backdrop c) (video c) (win c) (update c) (update2 c) (wincfg_aux c) (csc c) v (opaque c)
    (gamma c) (scanning c) (frame_ticks c) (frame_accum c) (frames c) (updates c).
Definition l_opaque (v : Z → Z) (c : s5l_clcd) : s5l_clcd :=
  MkClcd (enable c) (disable c) (ctrl c) (fifo c) (intmask c) (intstatus c) (reg1c c) (preenable
    c) (backdrop c) (video c) (win c) (update c) (update2 c) (wincfg_aux c) (csc c) (gate c) v
    (gamma c) (scanning c) (frame_ticks c) (frame_accum c) (frames c) (updates c).
Definition l_gamma (v : Z → Z → Z) (c : s5l_clcd) : s5l_clcd :=
  MkClcd (enable c) (disable c) (ctrl c) (fifo c) (intmask c) (intstatus c) (reg1c c) (preenable
    c) (backdrop c) (video c) (win c) (update c) (update2 c) (wincfg_aux c) (csc c) (gate c)
    (opaque c) v (scanning c) (frame_ticks c) (frame_accum c) (frames c) (updates c).
Definition l_scanning (v : bool) (c : s5l_clcd) : s5l_clcd :=
  MkClcd (enable c) (disable c) (ctrl c) (fifo c) (intmask c) (intstatus c) (reg1c c) (preenable
    c) (backdrop c) (video c) (win c) (update c) (update2 c) (wincfg_aux c) (csc c) (gate c)
    (opaque c) (gamma c) v (frame_ticks c) (frame_accum c) (frames c) (updates c).
Definition l_frame_ticks (v : Z) (c : s5l_clcd) : s5l_clcd :=
  MkClcd (enable c) (disable c) (ctrl c) (fifo c) (intmask c) (intstatus c) (reg1c c) (preenable
    c) (backdrop c) (video c) (win c) (update c) (update2 c) (wincfg_aux c) (csc c) (gate c)
    (opaque c) (gamma c) (scanning c) v (frame_accum c) (frames c) (updates c).
Definition l_frame_accum (v : Z) (c : s5l_clcd) : s5l_clcd :=
  MkClcd (enable c) (disable c) (ctrl c) (fifo c) (intmask c) (intstatus c) (reg1c c) (preenable
    c) (backdrop c) (video c) (win c) (update c) (update2 c) (wincfg_aux c) (csc c) (gate c)
    (opaque c) (gamma c) (scanning c) (frame_ticks c) v (frames c) (updates c).
Definition l_frames (v : Z) (c : s5l_clcd) : s5l_clcd :=
  MkClcd (enable c) (disable c) (ctrl c) (fifo c) (intmask c) (intstatus c) (reg1c c) (preenable
    c) (backdrop c) (video c) (win c) (update c) (update2 c) (wincfg_aux c) (csc c) (gate c)
    (opaque c) (gamma c) (scanning c) (frame_ticks c) (frame_accum c) v (updates c).
Definition l_updates (v : Z) (c : s5l_clcd) : s5l_clcd :=
  MkClcd (enable c) (disable c) (ctrl c) (fifo c) (intmask c) (intstatus c) (reg1c c) (preenable
    c) (backdrop c) (video c) (win c) (update c) (update2 c) (wincfg_aux c) (csc c) (gate c)
    (opaque c) (gamma c) (scanning c) (frame_ticks c) (frame_accum c) (frames c) v.

Definition no_window : clcd_window := MkWin 0 0 0 0 0 0.
Definition TB_HZ := 6000000.
Definition s5l_clcd_reset : s5l_clcd :=
  MkClcd 0 0 0 0 0 0 0 0 0 (fun _ => 0) (fun _ => no_window) 0 0 (fun _ => 0) (fun _ => 0) 0 (fun _ => 0)
    (fun _ _ => 0) false (TB_HZ / S5L_CLCD_REFRESH_HZ) 0 0 0.

(** ** Registers *)

Definition in_range (off first last : Z) : bool := (first <=? off) && (off <=? last) && (off .& 3 =? 0).

(** The window and the offset inside it. *)
Definition window_at (off : Z) : option (Z * Z) :=
  if off <? CLCD_WIN_FIRST then None
  else
    let rel := off - CLCD_WIN_FIRST in
    let k := rel / CLCD_WIN_STRIDE in
    if CLCD_WIN_COUNT <=? k then None else Some (k, rel mod CLCD_WIN_STRIDE).

Definition gamma_at (off : Z) : option (Z * Z) :=
  if (off <? CLCD_GAMMA0) || (CLCD_GAMMA0 + 3 * CLCD_GAMMA_SIZE <=? off) then None
  else if negb (off .& 3 =? 0) then None
  else
    let rel := off - CLCD_GAMMA0 in
    Some (rel / CLCD_GAMMA_SIZE, (rel mod CLCD_GAMMA_SIZE) / 4).

Definition is_wincfg (off : Z) : bool :=
  (off =? CLCD_WINCFG0) || (off =? CLCD_WINCFG0 + 4) || (off =? CLCD_WINCFG0 + 8) || (off =? CLCD_WINCFG0 + 12).

Definition window_read (sub : Z) (w : clcd_window) : Z :=
  if sub =? CLCD_WIN_PITCH then stride w
  else if sub =? CLCD_WIN_CONTROL then control w
  else if sub =? CLCD_WIN_FBADDR then fbaddr w
  else if sub =? CLCD_WIN_GEOMETRY then geometry w
  else if sub =? CLCD_WIN_LINEWORDS then linewords w
  else if sub =? CLCD_WIN_POSITION then position w
  else 0.

Definition s5l_clcd_read (off : Z) (c : s5l_clcd) : Z :=
  if off =? CLCD_ENABLE then enable c
  else if off =? CLCD_DISABLE then disable c
  else if off =? CLCD_CTRL then ctrl c
  else if off =? CLCD_FIFO then fifo c
  else if off =? CLCD_INTMASK then intmask c
  else if off =? CLCD_INTSTATUS then intstatus c
  else if off =? CLCD_REG1C then reg1c c
  else if off =? CLCD_PREENABLE then preenable c
  else if off =? CLCD_BACKDROP then backdrop c
  else if off =? CLCD_UPDATE then update c
  else if off =? CLCD_UPDATE2 then update2 c
  else if off =? CLCD_GATE then gate c
  else if off =? CLCD_STATUS then (if gate c .& 0xc0 =? 0x40 then CLCD_N82_VIDCON1 else 0)
  else if in_range off CLCD_VIDEO_FIRST CLCD_VIDEO_LAST then video c ((off - CLCD_VIDEO_FIRST) / 4)
  else if in_range off CLCD_CSC_FIRST CLCD_CSC_LAST then csc c ((off - CLCD_CSC_FIRST) / 4)
  else if in_range off CLCD_OPAQUE_FIRST CLCD_OPAQUE_LAST then opaque c ((off - CLCD_OPAQUE_FIRST) / 4)
  else if is_wincfg off then wincfg_aux c ((off - CLCD_WINCFG0) / 4)
  else if off =? CLCD_WINCFG2_AUX then wincfg_aux c 4
  else match window_at off with
       | Some (k, sub) => window_read sub (win c k)
       | None => match gamma_at off with Some (t, i) => gamma c t i | None => 0 end
       end.

Definition window_write (sub val : Z) (w : clcd_window) : clcd_window :=
  if sub =? CLCD_WIN_PITCH then n_stride val w
  else if sub =? CLCD_WIN_CONTROL then n_control val w
  else if sub =? CLCD_WIN_FBADDR then n_fbaddr val w
  else if sub =? CLCD_WIN_GEOMETRY then n_geometry val w
  else if sub =? CLCD_WIN_LINEWORDS then n_linewords val w
  else if sub =? CLCD_WIN_POSITION then n_position val w
  else w.

Definition s5l_clcd_write (off val : Z) (c : s5l_clcd) : s5l_clcd :=
  if off =? CLCD_ENABLE then
    let c := l_enable val c in if bit val 0 then l_frame_accum 0 (l_scanning true c) else c
  else if off =? CLCD_DISABLE then
    let c := l_disable val c in if bit val 0 then l_scanning false c else c
  else if off =? CLCD_CTRL then l_ctrl val c
  else if off =? CLCD_FIFO then l_fifo val c
  else if off =? CLCD_INTMASK then l_intmask val c
  else if off =? CLCD_INTSTATUS then l_intstatus (intstatus c .& wnot val) c
  else if off =? CLCD_REG1C then l_reg1c val c
  else if off =? CLCD_PREENABLE then l_preenable val c
  else if off =? CLCD_BACKDROP then l_backdrop val c
  else if off =? CLCD_UPDATE then
    l_update val (if val =? 2 then l_updates (w64 (updates c + 1)) c else c)
  else if off =? CLCD_UPDATE2 then l_update2 val c
  else if off =? CLCD_GATE then l_gate val c
  else if off =? CLCD_STATUS then c
  else if in_range off CLCD_VIDEO_FIRST CLCD_VIDEO_LAST then l_video (<[(off - CLCD_VIDEO_FIRST) / 4 := val]> (video c)) c
  else if in_range off CLCD_CSC_FIRST CLCD_CSC_LAST then l_csc (<[(off - CLCD_CSC_FIRST) / 4 := val]> (csc c)) c
  else if in_range off CLCD_OPAQUE_FIRST CLCD_OPAQUE_LAST then
    l_opaque (<[(off - CLCD_OPAQUE_FIRST) / 4 := val]> (opaque c)) c
  else if is_wincfg off then l_wincfg_aux (<[(off - CLCD_WINCFG0) / 4 := val]> (wincfg_aux c)) c
  else if off =? CLCD_WINCFG2_AUX then l_wincfg_aux (<[4 := val]> (wincfg_aux c)) c
  else match window_at off with
       | Some (k, sub) => l_win (<[k := window_write sub val (win c k)]> (win c)) c
       | None => match gamma_at off with
                 | Some (t, i) => l_gamma (<[t := <[i := val]> (gamma c t)]> (gamma c)) c
                 | None => c
                 end
       end.

(** ** Frames *)

Definition s5l_clcd_running (c : s5l_clcd) : bool :=
  scanning c && negb (ctrl c .& CLCD_CTRL_ENABLE =? 0) && negb (gate c .& 1 =? 0).

Definition clcd_line (c : s5l_clcd) : bool := negb (intstatus c .& intmask c =? 0).

Definition s5l_clcd_tick (ticks : Z) (c : s5l_clcd) : bool * s5l_clcd :=
  let c :=
    if s5l_clcd_running c && negb (frame_ticks c =? 0) then
      let total := frame_accum c + ticks in
      if frame_ticks c <=? total then
        l_frames (w64 (frames c + total / frame_ticks c))
          (l_intstatus (intstatus c .| CLCD_INT_FRAME) (l_frame_accum (total mod frame_ticks c) c))
      else l_frame_accum total c
    else c in
  (clcd_line c, c).

(** ** Windows *)

(** The [false] result leaves the controller as it was. *)
Definition s5l_clcd_seed_window0 (fb_phys width height pitch format order : Z) (c : s5l_clcd) : bool * s5l_clcd :=
  if (width =? 0) || (0x400 <? width) || (height =? 0) || (0x3ff <? height)
     || (CLCD_FMT_MASK <? format) || (CLCD_ORDER_MASK <? order) || negb (pitch .& 3 =? 0) then (false, c)
  else
    let bytes_per_pixel := if CLCD_FMT_IS_32BPP format then 4 else 2 in
    let allocation_bytes := pitch * height in
    if (pitch <? width * bytes_per_pixel) || (0xffffffff <? allocation_bytes) then (false, c)
    else
      let allocation_span := (allocation_bytes + 0xfff) .& (2 ^ 64 - 1 - 0xfff) in
      if (allocation_span =? 0) || (0xffffffff <? allocation_span) || (2 ^ 32 <? fb_phys + allocation_span)
      then (false, c)
      else
        let w := MkWin pitch (((format .& CLCD_FMT_MASK) .<< CLCD_FMT_SHIFT) .| ((order .& CLCD_ORDER_MASK) .<< CLCD_ORDER_SHIFT))
                   fb_phys ((width .<< 16) .| height) (pitch / 4) 0 in
        let slot r := (r - CLCD_OPAQUE_FIRST) / 4 in
        let c := l_ctrl (ctrl c .| (CLCD_CTRL_ENABLE .| CLCD_CTRL_WIN0)) (l_win (<[0 := w]> (win c)) c) in
        let c := l_gate CLCD_N82_VIDCON0 c in
        let c := l_opaque (<[slot CLCD_VIDTCON3 := 1]> (<[slot CLCD_VIDTCON2 := ((width - 1) .<< 16) .| (height - 1)]>
                   (<[slot CLCD_VIDTCON1 := 0xe0e0f]> (<[slot CLCD_VIDTCON0 := 0x30303]> (opaque c))))) c in
        let c := l_wincfg_aux (<[4 := 0]> (<[3 := 0]> (<[2 := 0x1000]> (<[1 := 0]> (<[0 := 0x1000]> (wincfg_aux c)))))) c in
        (true, l_frame_accum 0 (l_scanning true (l_enable 1 (l_update2 0x1000 c)))).

Definition ENABLE_BIT (k : Z) : Z :=
  if k =? 0 then CLCD_CTRL_WIN0 else if k =? 1 then CLCD_CTRL_WIN1 else if k =? 2 then CLCD_CTRL_WIN2 else CLCD_CTRL_WIN3.

Record window_view := MkView { v_fb : Z; v_width : Z; v_height : Z; v_stride : Z; v_format : Z; v_order : Z }.

Definition s5l_clcd_window (c : s5l_clcd) (k : Z) : option window_view :=
  if CLCD_WIN_COUNT <=? k then None
  else if ctrl c .& ENABLE_BIT k =? 0 then None
  else
    let w := win c k in
    Some (MkView (fbaddr w) ((geometry w .>> 16) .& 0x7ff) (geometry w .& 0x3ff) (stride w)
            ((control w .>> CLCD_FMT_SHIFT) .& CLCD_FMT_MASK) ((control w .>> CLCD_ORDER_SHIFT) .& CLCD_ORDER_MASK)).

Definition s5l_clcd_active_window (c : s5l_clcd) : Z :=
  default CLCD_WIN_NONE (find (fun k => negb (ctrl c .& ENABLE_BIT k =? 0)) [0; 1; 2; 3]).

(** ** Scanout *)

Definition bytes_of_pixel (v : window_view) : Z := if CLCD_FMT_IS_32BPP (v_format v) then 4 else 2.

(** The octets a pixel at [at_] becomes. *)
Definition pixel (bpp : Z) (ram : list Z) (at_ : Z) : option (list Z) :=
  if bpp =? 4 then
    r ← get8 ram (at_ + 2); g ← get8 ram (at_ + 1); b ← get8 ram at_; Some [r; g; b]
  else
    lo ← get8 ram at_; hi ← get8 ram (at_ + 1);
    let p := lo .| Z.shiftl hi 8 in
    let r5 := (p .>> 11) .& 0x1f in
    let g6 := (p .>> 5) .& 0x3f in
    let b5 := p .& 0x1f in
    Some [w8 (Z.shiftl r5 3 .| (r5 .>> 2)); w8 (Z.shiftl g6 2 .| (g6 .>> 4)); w8 (Z.shiftl b5 3 .| (b5 .>> 2))].

Fixpoint scan_row (n : nat) (bpp : Z) (ram : list Z) (src dst : Z) (rgb : list Z) : option (list Z) :=
  match n with
  | O => Some rgb
  | S n => p ← pixel bpp ram src; rgb ← put_bytes rgb dst p; scan_row n bpp ram (src + bpp) (dst + 3) rgb
  end.

Fixpoint scan_rows (n : nat) (v : window_view) (ram : list Z) (src dst : Z) (rgb : list Z) : option (list Z) :=
  match n with
  | O => Some rgb
  | S n =>
    rgb ← scan_row (Z.to_nat (v_width v)) (bytes_of_pixel v) ram src dst rgb;
    scan_rows n v ram (src + v_stride v) (dst + 3 * v_width v) rgb
  end.

(** Where the window starts in [ram], if all of it lies there and the picture fits [room] octets. *)
Definition scanout_start (v : window_view) (ram_base ram_len room : Z) : option Z :=
  let bpp := bytes_of_pixel v in
  if (v_width v =? 0) || (v_height v =? 0) then None
  else if v_stride v <? v_width v * bpp then None
  else if room <? v_width v * v_height v * 3 then None
  else if v_fb v <? ram_base then None
  else
    let off := v_fb v - ram_base in
    if ram_len <? off + ((v_height v - 1) * v_stride v + v_width v * bpp) then None else Some off.

(** The picture and its size, or [None] with the buffer as it was; the outer [None] is an
    access outside a buffer. *)
Definition s5l_clcd_scanout (c : s5l_clcd) (k : Z) (ram : list Z) (ram_base : Z) (rgb : list Z)
  : option (list Z * option (Z * Z)) :=
  match s5l_clcd_window c k with
  | None => Some (rgb, None)
  | Some v =>
    match scanout_start v ram_base (blen ram) (blen rgb) with
    | None => Some (rgb, None)
    | Some off =>
      rgb ← scan_rows (Z.to_nat (v_height v)) v ram off 0 rgb;
      Some (rgb, Some (v_width v, v_height v))
    end
  end.

(** ** The picture *)

Definition octet (ram : list Z) (at_ : Z) : Z := default 0 (get8 ram at_).
(** Five and six bits spread over eight: the high bits again in the low ones. *)
Definition expand5 (c : Z) : Z := c * 8 + c / 4.
Definition expand6 (c : Z) : Z := c * 4 + c / 16.
Definition rgb565 (p : Z) : list Z := [expand5 (p / 2048 mod 32); expand6 (p / 32 mod 64); expand5 (p mod 32)].

(** What a pixel of the framebuffer shows. *)
Definition picture_pixel (bpp : Z) (ram : list Z) (at_ : Z) : list Z :=
  if bpp =? 4 then [octet ram (at_ + 2); octet ram (at_ + 1); octet ram at_]
  else rgb565 (octet ram at_ + 256 * octet ram (at_ + 1)).

Lemma octet_get ram at_ : 0 <= at_ < blen ram → get8 ram at_ = Some (octet ram at_) ∧ uint 8 (octet ram at_).
Proof. intros H. destruct (get8_inside ram at_ H) as (v & E & U). unfold octet. by rewrite E. Qed.

Lemma below_all n (f : Z → bool) a : forallb f (seqZ 0 n) = true → 0 <= a < n → f a = true.
Proof. intros H Ha. rewrite forallb_forall in H. apply H, list_elem_of_In, elem_of_seqZ. lia. Qed.

Lemma expand5_bits a : 0 <= a < 32 → w8 (Z.shiftl a 3 .| (a .>> 2)) = expand5 a.
Proof. intros H. apply Z.eqb_eq. by apply (below_all 32 (fun a => w8 (Z.shiftl a 3 .| (a .>> 2)) =? expand5 a)). Qed.
Lemma expand6_bits a : 0 <= a < 64 → w8 (Z.shiftl a 2 .| (a .>> 4)) = expand6 a.
Proof. intros H. apply Z.eqb_eq. by apply (below_all 64 (fun a => w8 (Z.shiftl a 2 .| (a .>> 4)) =? expand6 a)). Qed.
Lemma expand5_byte a : 0 <= a < 32 → uint 8 (expand5 a).
Proof. intros H. rewrite <- expand5_bits by done. apply uint_w8. Qed.
Lemma expand6_byte a : 0 <= a < 64 → uint 8 (expand6 a).
Proof. intros H. rewrite <- expand6_bits by done. apply uint_w8. Qed.

Lemma join_octets lo hi : uint 8 lo → uint 8 hi → lo .| Z.shiftl hi 8 = lo + 256 * hi.
Proof.
  intros Hl Hh. rewrite Z.lor_comm, shiftl_lor by done. change (2 ^ 8) with 256. lia.
Qed.

Lemma pixel_exact bpp ram at_ : bpp = 4 ∨ bpp = 2 → 0 <= at_ → at_ + bpp <= blen ram →
  pixel bpp ram at_ = Some (picture_pixel bpp ram at_) ∧ blen (picture_pixel bpp ram at_) = 3 ∧ is_bytes (picture_pixel bpp ram at_).
Proof.
  intros [-> | ->] H0 H1; unfold pixel, picture_pixel; cbn [Z.eqb Pos.eqb].
  - destruct (octet_get ram at_) as [-> U0]; [lia|]. destruct (octet_get ram (at_ + 1)) as [-> U1]; [lia|].
    destruct (octet_get ram (at_ + 2)) as [-> U2]; [lia|]. split; [done|]. split; [done|]. repeat apply Forall_cons_2; try apply Forall_nil_2; done.
  - destruct (octet_get ram at_) as [-> U0]; [lia|]. destruct (octet_get ram (at_ + 1)) as [-> U1]; [lia|].
    cbn [mbind option_bind]. rewrite join_octets by done. set (p := octet ram at_ + 256 * octet ram (at_ + 1)).
    assert (Hp : uint 16 p) by (unfold p, uint in *; lia).
    assert (A : (p .>> 11) .& 0x1f = p / 2048 mod 32) by (change 0x1f with (Z.ones 5); rewrite Z.land_ones, Z.shiftr_div_pow2 by lia; done).
    assert (B : (p .>> 5) .& 0x3f = p / 32 mod 64) by (change 0x3f with (Z.ones 6); rewrite Z.land_ones, Z.shiftr_div_pow2 by lia; done).
    assert (C : p .& 0x1f = p mod 32) by (change 0x1f with (Z.ones 5); rewrite Z.land_ones by lia; done).
    rewrite A, B, C. unfold rgb565.
    assert (R : ∀ x n, 0 < n → 0 <= x mod n < n) by (intros; apply Z.mod_pos_bound; lia).
    rewrite !expand5_bits, expand6_bits by (apply R; lia). split; [done|]. split; [done|].
    repeat apply Forall_cons_2; try apply Forall_nil_2; try apply expand5_byte; try apply expand6_byte; apply R; lia.
Qed.

(** A run of [n] pixels, or of rows, written at [dst]: what it shows and what it leaves. *)
Definition outside_kept (dst size : Z) (rgb rgb' : list Z) : Prop :=
  blen rgb' = blen rgb ∧ ∀ i, 0 <= i → i < dst ∨ dst + size <= i → get8 rgb' i = get8 rgb i.

Lemma kept_pixel dst size rgb rgb' x : outside_kept dst size rgb rgb' → 0 <= x → x + 3 <= dst ∨ dst + size <= x →
  get_bytes rgb' x 3 = get_bytes rgb x 3.
Proof. intros [_ H] Hx Ho. apply get_bytes_ext. intros i Hi. apply H; lia. Qed.

Lemma kept_join dst s1 s2 a b c : 0 <= s1 → 0 <= s2 → outside_kept dst s1 a b → outside_kept (dst + s1) s2 b c → outside_kept dst (s1 + s2) a c.
Proof. intros ? ? [L1 K1] [L2 K2]. split; [congruence|]. intros i Hi Ho. rewrite K2, K1 by lia. done. Qed.

Lemma put_kept rgb dst p rgb' : put_bytes rgb dst p = Some rgb' → outside_kept dst (blen p) rgb rgb'.
Proof.
  intros E. split; [by apply put_bytes_blen in E|]. intros i Hi Ho. rewrite (get8_put _ _ _ _ _ E) by done.
  destruct (Z.leb_spec dst i), (Z.ltb_spec i (dst + blen p)); done || lia.
Qed.

Lemma scan_row_exact bpp ram n : bpp = 4 ∨ bpp = 2 → ∀ src dst rgb,
  0 <= src → src + Z.of_nat n * bpp <= blen ram → 0 <= dst → dst + 3 * Z.of_nat n <= blen rgb → ∃ rgb',
  scan_row n bpp ram src dst rgb = Some rgb' ∧ outside_kept dst (3 * Z.of_nat n) rgb rgb'
  ∧ ∀ x, 0 <= x < Z.of_nat n → get_bytes rgb' (dst + 3 * x) 3 = Some (picture_pixel bpp ram (src + x * bpp)).
Proof.
  intros Hb. induction n as [|n IH]; intros src dst rgb Hs Hr Hd Hg.
  { exists rgb. split; [done|]. split; [by split|]. intros x Hx. lia. }
  cbn [scan_row]. destruct (pixel_exact bpp ram src) as (-> & L & U); [done|done|nia|]. cbn [mbind option_bind].
  destruct (put_bytes_inside rgb dst (picture_pixel bpp ram src)) as (rgb1 & E & L1); [done|lia|]. rewrite E. cbn [mbind option_bind].
  pose proof (put_kept _ _ _ _ E) as K1. rewrite L in K1.
  destruct (IH (src + bpp) (dst + 3) rgb1) as (rgb2 & E2 & K2 & P2); [nia|nia|lia|lia|].
  exists rgb2. split; [exact E2|]. split.
  - replace (3 * Z.of_nat (S n)) with (3 + 3 * Z.of_nat n) by lia. apply (kept_join _ _ _ _ rgb1); try done; lia.
  - intros x Hx. destruct (decide (x = 0)) as [-> | Hne].
    + rewrite Z.mul_0_r, Z.mul_0_l, !Z.add_0_r, (kept_pixel _ _ _ _ _ K2) by lia.
      rewrite <- L. by apply (put_get_bytes rgb).
    + replace (dst + 3 * x) with (dst + 3 + 3 * (x - 1)) by lia. rewrite P2 by lia. do 2 f_equal. lia.
Qed.

Lemma scan_rows_exact v ram n : ∀ src dst rgb, let bpp := bytes_of_pixel v in
  0 <= v_width v → v_width v * bpp <= v_stride v → 0 <= src →
  (0 < Z.of_nat n → src + (Z.of_nat n - 1) * v_stride v + v_width v * bpp <= blen ram) →
  0 <= dst → dst + 3 * v_width v * Z.of_nat n <= blen rgb → ∃ rgb',
  scan_rows n v ram src dst rgb = Some rgb' ∧ outside_kept dst (3 * v_width v * Z.of_nat n) rgb rgb'
  ∧ ∀ x y, 0 <= x < v_width v → 0 <= y < Z.of_nat n →
      get_bytes rgb' (dst + 3 * (y * v_width v + x)) 3 = Some (picture_pixel bpp ram (src + y * v_stride v + x * bpp)).
Proof.
  induction n as [|n IH]; intros src dst rgb bpp Hw Hst Hs Hr Hd Hg.
  { exists rgb. split; [done|]. split; [by split|]. intros x y Hx Hy. lia. }
  assert (Hb : bpp = 4 ∨ bpp = 2) by (unfold bpp, bytes_of_pixel; destruct (CLCD_FMT_IS_32BPP _); auto).
  assert (Hbp : 0 <= v_width v * bpp) by (destruct Hb as [-> | ->]; lia).
  cbn [scan_rows]. fold bpp. specialize (Hr ltac:(lia)).
  destruct (scan_row_exact bpp ram (Z.to_nat (v_width v)) Hb src dst rgb) as (rgb1 & E & K1 & P1); [lia|nia|lia|nia|].
  rewrite Z2Nat.id in K1, P1 by lia. rewrite E. cbn [mbind option_bind].
  destruct (IH (src + v_stride v) (dst + 3 * v_width v) rgb1) as (rgb2 & E2 & K2 & P2); fold bpp; try nia.
  { destruct K1 as [-> _]. nia. }
  exists rgb2. split; [exact E2|]. split.
  - replace (3 * v_width v * Z.of_nat (S n)) with (3 * v_width v + 3 * v_width v * Z.of_nat n) by lia.
    apply (kept_join _ _ _ _ rgb1); try done; nia.
  - intros x y Hx Hy. destruct (decide (y = 0)) as [-> | Hne].
    + rewrite !Z.mul_0_l, !Z.add_0_l, Z.add_0_r, (kept_pixel _ _ _ _ _ K2) by lia. by apply P1.
    + replace (dst + 3 * (y * v_width v + x)) with (dst + 3 * v_width v + 3 * ((y - 1) * v_width v + x)) by lia.
      fold bpp in P2. rewrite P2 by lia. do 2 f_equal. lia.
Qed.

(** The window is programmed so that a picture can be made of it. *)
Definition drawable (v : window_view) (ram_base ram_len room : Z) : Prop :=
  0 < v_width v ∧ 0 < v_height v ∧ v_width v * bytes_of_pixel v <= v_stride v ∧ 3 * (v_width v * v_height v) <= room
  ∧ ram_base <= v_fb v ∧ v_fb v + (v_height v - 1) * v_stride v + v_width v * bytes_of_pixel v <= ram_base + ram_len.

Lemma scanout_start_exact v ram_base ram_len room : 0 <= v_width v → 0 <= v_height v →
  scanout_start v ram_base ram_len room = Some (v_fb v - ram_base) ∧ drawable v ram_base ram_len room
  ∨ scanout_start v ram_base ram_len room = None ∧ ¬ drawable v ram_base ram_len room.
Proof.
  intros Hw Hh. unfold scanout_start, drawable. cbv zeta.
  destruct (Z.eqb_spec (v_width v) 0); [right; split; [done|lia]|]. destruct (Z.eqb_spec (v_height v) 0); [right; split; [done|lia]|].
  cbn [orb]. repeat (case_match; [rewrite Z.ltb_lt in *; right; split; [done|lia]|]). rewrite Z.ltb_ge in *. left. split; [done|lia].
Qed.

(** C18: the conversion of a window stays inside guest RAM and the picture's buffer; it
    succeeds exactly when the window is enabled and drawable, every pixel of the picture is
    then the pixel of the framebuffer, and otherwise nothing is written. *)
Theorem clcd_scanout_exact (c : s5l_clcd) (k : Z) (ram : list Z) (ram_base : Z) (rgb : list Z) :
  ∃ rgb' size, s5l_clcd_scanout c k ram ram_base rgb = Some (rgb', size) ∧
  match size with
  | None => rgb' = rgb ∧ ∀ v, s5l_clcd_window c k = Some v → ¬ drawable v ram_base (blen ram) (blen rgb)
  | Some (w, h) => ∃ v, s5l_clcd_window c k = Some v ∧ drawable v ram_base (blen ram) (blen rgb)
    ∧ w = v_width v ∧ h = v_height v ∧ outside_kept 0 (3 * w * h) rgb rgb'
    ∧ ∀ x y, 0 <= x < w → 0 <= y < h → get_bytes rgb' (3 * (y * w + x)) 3
        = Some (picture_pixel (bytes_of_pixel v) ram (v_fb v - ram_base + y * v_stride v + x * bytes_of_pixel v))
  end.
Proof.
  unfold s5l_clcd_scanout. destruct (s5l_clcd_window c k) as [v|] eqn:Ev; [|by exists rgb, None].
  assert (Hv : 0 <= v_width v ∧ 0 <= v_height v).
  { unfold s5l_clcd_window in Ev. repeat (destruct (_ : bool); [done|]). injection Ev as <-.
    split; cbn [v_width v_height]; apply Z.land_nonneg; by right. }
  destruct (scanout_start_exact v ram_base (blen ram) (blen rgb) (proj1 Hv) (proj2 Hv)) as [[-> D] | [-> D]].
  2:{ exists rgb, None. split; [done|]. split; [done|]. by intros ? [= <-]. }
  pose proof D as (D1 & D2 & D3 & D4 & D5 & D6).
  destruct (scan_rows_exact v ram (Z.to_nat (v_height v)) (v_fb v - ram_base) 0 rgb) as (rgb' & -> & K & P);
    rewrite ?Z2Nat.id; try lia.
  cbn [mbind option_bind]. exists rgb', (Some (v_width v, v_height v)). split; [done|]. exists v.
  rewrite Z2Nat.id in K, P by lia. by split_and!.
Qed.

(** ** The frame interrupt *)

Definition phase_ok (c : s5l_clcd) : Prop := 0 <= frame_accum c < frame_ticks c ∧ uint 64 (frames c).

Lemma clcd_tick_exact n c : s5l_clcd_running c = true → phase_ok c → 0 <= n →
  (s5l_clcd_tick n c).2
  = let total := frame_accum c + n in
    l_frames (w64 (frames c + total / frame_ticks c))
      (l_intstatus (if total / frame_ticks c =? 0 then intstatus c else intstatus c .| CLCD_INT_FRAME)
        (l_frame_accum (total mod frame_ticks c) c)).
Proof.
  intros R [Hp Hf] Hn. unfold s5l_clcd_tick. rewrite R, (proj2 (Z.eqb_neq (frame_ticks c) 0)) by lia. cbn [andb negb fst snd]. cbv zeta.
  destruct (Z.leb_spec (frame_ticks c) (frame_accum c + n)) as [L|L].
  - assert (1 <= (frame_accum c + n) / frame_ticks c) by (apply Z.div_le_lower_bound; lia).
    by rewrite (proj2 (Z.eqb_neq _ 0)) by lia.
  - destruct (advance_inside (frame_accum c) n (frame_ticks c)) as [-> ->]; try lia.
    rewrite Z.add_0_r. unfold w64. rewrite wrap_small by done. by destruct c.
Qed.

(** Ticks taken in two calls are ticks taken in one. *)
Lemma clcd_tick_split n1 n2 c : (s5l_clcd_running c = true → phase_ok c) → 0 <= n1 → 0 <= n2 →
  s5l_clcd_tick n2 (s5l_clcd_tick n1 c).2 = s5l_clcd_tick (n1 + n2) c.
Proof.
  intros H H1 H2. assert (L : ∀ n c, (s5l_clcd_tick n c).1 = clcd_line (s5l_clcd_tick n c).2) by done.
  rewrite (surjective_pairing (s5l_clcd_tick n2 _)), (surjective_pairing (s5l_clcd_tick (n1 + n2) c)), !L.
  enough (E : (s5l_clcd_tick n2 (s5l_clcd_tick n1 c).2).2 = (s5l_clcd_tick (n1 + n2) c).2) by (by rewrite E).
  destruct (s5l_clcd_running c) eqn:R.
  2:{ assert (S : ∀ n, (s5l_clcd_tick n c).2 = c) by (intros; unfold s5l_clcd_tick; by rewrite R). by rewrite !S. }
  specialize (H eq_refl). pose proof H as [Hp Hf]. set (p := frame_ticks c) in *. set (a := frame_accum c) in *.
  rewrite (clcd_tick_exact n1), (clcd_tick_exact (n1 + n2)) by (done || lia). cbv zeta. fold p a.
  set (c1 := l_frames _ _).
  assert (P1 : phase_ok c1) by (split; [apply (advance_phase a n1 p); lia|apply uint_w64]).
  rewrite (clcd_tick_exact n2) by (done || lia). cbv zeta.
  change (frame_accum c1) with ((a + n1) mod p). change (frame_ticks c1) with p.
  destruct (advance_split a n1 n2 p) as [-> E]; [lia|]. rewrite <- E.
  change (frames c1) with (w64 (frames c + (a + n1) / p)).
  set (q1 := (a + n1) / p). set (q2 := ((a + n1) mod p + n2) / p).
  assert (0 <= q1) by (apply Z.div_pos; lia). assert (0 <= q2) by (apply Z.div_pos; [pose proof (Z.mod_pos_bound (a + n1) p)|]; lia).
  assert (F : w64 (w64 (frames c + q1) + q2) = w64 (frames c + (q1 + q2))).
  { unfold w64, wrap. rewrite Zplus_mod_idemp_l. f_equal. lia. }
  rewrite F. change (intstatus c1) with (if q1 =? 0 then intstatus c else intstatus c .| CLCD_INT_FRAME).
  destruct (Z.eqb_spec q1 0), (Z.eqb_spec q2 0), (Z.eqb_spec (q1 + q2) 0); try lia; try reflexivity.
  by rewrite <- Z.lor_assoc, Z.lor_diag.
Qed.

(** With the frame latch clear, the frame interrupt comes exactly at the end of the frame. *)
Lemma clcd_frame_due n c : s5l_clcd_running c = true → phase_ok c → 0 <= n → bit (intstatus c) 0 = false →
  bit (intstatus (s5l_clcd_tick n c).2) 0 = (frame_ticks c - frame_accum c <=? n).
Proof.
  intros R P Hn B. rewrite clcd_tick_exact by done. cbn [intstatus l_frames l_intstatus].
  rewrite advance_boundary, Z.leb_antisym by (done || apply P). destruct (_ <? _); [done|]. cbn [negb].
  change CLCD_INT_FRAME with 1. by rewrite bit_lor, B.
Qed.

(** ** The handoff *)

Lemma page_span x : 0 <= x < 2 ^ 63 → (x + 0xfff) .& (2 ^ 64 - 1 - 0xfff) = (x + 0xfff) / 4096 * 4096.
Proof.
  intros Hx. rewrite <- (Z.shiftr_div_pow2 _ 12), <- (Z.shiftl_mul_pow2 _ 12) by lia.
  apply Z.bits_inj'. intros i Hi. rewrite Z.land_spec, Z.shiftl_spec by lia.
  assert (M : Z.testbit (2 ^ 64 - 1 - 0xfff) i = (12 <=? i) && (i <? 64)).
  { change (2 ^ 64 - 1 - 0xfff) with (mask 12 52). by rewrite testbit_mask by lia. }
  rewrite M. destruct (Z.leb_spec 12 i).
  - rewrite Z.shiftr_spec by lia. replace (i - 12 + 12) with i by lia. cbn [andb]. destruct (Z.ltb_spec i 64); [apply andb_true_r|].
    rewrite (uint_high 64 (x + 0xfff)); [done|unfold uint; lia|lia|lia].
  - rewrite (Z.testbit_neg_r (_ .>> 12)) by lia. apply andb_false_r.
Qed.

Definition representable (fb w h pitch format order : Z) : Prop :=
  1 <= w <= 0x400 ∧ 1 <= h <= 0x3ff ∧ format <= 7 ∧ order <= 3 ∧ pitch mod 4 = 0
  ∧ w * (if CLCD_FMT_IS_32BPP format then 4 else 2) <= pitch ∧ (pitch * h + 0xfff) / 4096 * 4096 < 2 ^ 32
  ∧ fb + (pitch * h + 0xfff) / 4096 * 4096 <= 2 ^ 32.

Lemma window_fields fb w h pitch format order c c' :
  0 <= w → 0 <= h → uint 32 fb → uint 32 pitch → 0 <= format → 0 <= order →
  s5l_clcd_seed_window0 fb w h pitch format order c = (true, c') →
  representable fb w h pitch format order ∧ ctrl c' = ctrl c .| 0x41 ∧ gate c' = CLCD_N82_VIDCON0 ∧ scanning c' = true
  ∧ win c' = <[0 := MkWin pitch ((format .<< 8) .| (order .<< 16)) fb ((w .<< 16) .| h) (pitch / 4) 0]> (win c).
Proof.
  intros Hw Hh Hfb Hp Hf Ho. unfold s5l_clcd_seed_window0. change CLCD_FMT_MASK with (Z.ones 3). change CLCD_ORDER_MASK with (Z.ones 2).
  destruct (_ || _) eqn:A; [done|]. cbv zeta. destruct (_ || _) eqn:B in |- *; [done|]. destruct (_ || _) eqn:C in |- *; [done|].
  rewrite !orb_false_iff, !Z.eqb_neq, !Z.ltb_ge, negb_false_iff, Z.eqb_eq in A. rewrite orb_false_iff, !Z.ltb_ge in B.
  rewrite !orb_false_iff, Z.eqb_neq, !Z.ltb_ge in C.
  destruct A as ((((((A1 & A2) & A3) & A4) & A5) & A6) & A7). destruct B as [B1 B2]. destruct C as [[C1 C2] C3].
  assert (Hprod : 0 <= pitch * h) by (destruct Hp; nia).
  rewrite page_span in C1, C2, C3 by lia. change (Z.ones 3) with 7 in A5. change (Z.ones 2) with 3 in A6.
  change 3 with (Z.ones 2) in A7. rewrite Z.land_ones in A7 by lia. change (2 ^ 2) with 4 in A7.
  intros [= <-]. split; [unfold representable; destruct (CLCD_FMT_IS_32BPP format); lia|].
  split_and!; [done|done|done|]. cbn [win l_win l_ctrl l_gate l_opaque l_wincfg_aux l_update2 l_enable l_scanning l_frame_accum].
  rewrite !Z.land_ones by lia. rewrite (Z.mod_small format), (Z.mod_small order) by lia. done.
Qed.

Lemma seed_refused fb w h pitch format order c c' :
  0 <= w → 0 <= h → uint 32 fb → uint 32 pitch → 0 <= format → 0 <= order →
  s5l_clcd_seed_window0 fb w h pitch format order c = (false, c') → c' = c ∧ ¬ representable fb w h pitch format order.
Proof.
  intros Hw Hh Hfb Hp Hf Ho. unfold s5l_clcd_seed_window0, representable. change CLCD_FMT_MASK with 7. change CLCD_ORDER_MASK with 3.
  assert (M : pitch .& 3 = pitch mod 4) by (change 3 with (Z.ones 2); by rewrite Z.land_ones by lia).
  destruct (_ || _) eqn:A.
  { intros [= <-]. split; [done|]. rewrite !orb_true_iff, !Z.eqb_eq, !Z.ltb_lt, negb_true_iff, Z.eqb_neq, M in A. lia. }
  cbv zeta. destruct (_ || _) eqn:B in |- *.
  { intros [= <-]. split; [done|]. rewrite orb_true_iff, !Z.ltb_lt in B. intros R.
    pose proof (Z.div_mod (pitch * h + 0xfff) 4096 ltac:(lia)). pose proof (Z.mod_pos_bound (pitch * h + 0xfff) 4096). lia. }
  rewrite orb_false_iff, !Z.ltb_ge in B. assert (0 <= pitch * h) by (destruct Hp; nia).
  destruct (_ || _) eqn:C in |- *; [|done]. intros [= <-]. split; [done|]. rewrite page_span in C by lia.
  rewrite !orb_true_iff, Z.eqb_eq, !Z.ltb_lt in C. intros R. destruct C as [[C|C]|C]; [|lia|lia].
  assert (2 <= pitch) by (destruct (CLCD_FMT_IS_32BPP format); lia).
  assert (1 <= (pitch * h + 0xfff) / 4096) by (apply Z.div_le_lower_bound; nia). lia.
Qed.

(** a seeded handoff shows the window it was given: the driver's choice is window 0, with
    the geometry, pitch, format and address of the call, over a running scanout, and the
    page-rounded mapping of the framebuffer lies in the address space; a refused one changes
    nothing. *)
Theorem clcd_seed_handoff (fb w h pitch format order : Z) (c : s5l_clcd) :
  0 <= w → 0 <= h → uint 32 fb → uint 32 pitch → 0 <= format → 0 <= order →
  let '(ok, c') := s5l_clcd_seed_window0 fb w h pitch format order c in
  if ok then
    representable fb w h pitch format order ∧ s5l_clcd_active_window c' = 0 ∧ s5l_clcd_running c' = true
    ∧ s5l_clcd_window c' 0 = Some (MkView fb w h pitch format order)
    ∧ ∀ k, k ≠ 0 → win c' k = win c k
  else c' = c ∧ ¬ representable fb w h pitch format order.
Proof.
  intros Hw Hh Hfb Hp Hf Ho. destruct (s5l_clcd_seed_window0 fb w h pitch format order c) as [[] c'] eqn:E; [|by eapply seed_refused].
  destruct (window_fields _ _ _ _ _ _ _ _ Hw Hh Hfb Hp Hf Ho E) as (R & C & G & S & W).
  pose proof R as (R1 & R2 & R3 & R4 & R5).
  assert (B : negb (ctrl c' .& CLCD_CTRL_WIN0 =? 0) = true).
  { rewrite C. apply negb_true_iff, Z.eqb_neq. intros F. apply (f_equal (fun v => bit v 6)) in F. by rewrite bit_land, bit_lor, orb_true_r in F. }
  split; [exact R|]. split; [|split; [|split]].
  - unfold s5l_clcd_active_window. cbn [find]. change (ENABLE_BIT 0) with CLCD_CTRL_WIN0. by rewrite B.
  - unfold s5l_clcd_running. rewrite S, G, C. cbn [andb]. rewrite (proj2 (Z.eqb_neq (_ .& CLCD_CTRL_ENABLE) 0)); [done|].
    intros F. apply (f_equal (fun v => bit v 0)) in F. by rewrite bit_land, bit_lor, orb_true_r in F.
  - unfold s5l_clcd_window. change (ENABLE_BIT 0) with CLCD_CTRL_WIN0. rewrite negb_true_iff in B. rewrite B, W, fn_lookup_insert.
    change (CLCD_WIN_COUNT <=? 0) with false. cbv iota zeta. cbn [fbaddr geometry stride control].
    f_equal. change 0x7ff with (Z.ones 11). change 0x3ff with (Z.ones 10). change CLCD_FMT_MASK with (Z.ones 3). change CLCD_ORDER_MASK with (Z.ones 2).
    rewrite !Z.land_ones by lia. rewrite !w32_small by (unfold uint; rewrite Z.shiftl_mul_pow2 by lia; lia).
    rewrite packed_high by lia. rewrite (Z.mod_small w) by lia.
    assert (A : Z.shiftl format 8 .| Z.shiftl order 16 = order * 2 ^ 16 + format * 2 ^ 8).
    { rewrite Z.lor_comm, shiftl_lor, (Z.shiftl_mul_pow2 format) by (rewrite ?Z.shiftl_mul_pow2 by lia; lia). done. }
    rewrite A. unfold CLCD_FMT_SHIFT, CLCD_ORDER_SHIFT. rewrite !Z.shiftr_div_pow2 by lia.
    assert (Eh : (Z.shiftl w 16 .| h) mod 2 ^ 10 = h).
    { rewrite shiftl_lor by lia. replace (w * 2 ^ 16 + h) with (h + (w * 2 ^ 6) * 2 ^ 10) by lia. rewrite Z.mod_add by lia. apply Z.mod_small. lia. }
    rewrite Eh. f_equal.
    + replace (order * 2 ^ 16 + format * 2 ^ 8) with ((order * 2 ^ 8 + format) * 2 ^ 8) by lia. rewrite Z.div_mul by lia.
      replace (order * 2 ^ 8 + format) with (format + (order * 2 ^ 5) * 2 ^ 3) by lia. rewrite Z.mod_add by lia. apply Z.mod_small. lia.
    + rewrite Z.div_add_l, (Z.div_small (format * 2 ^ 8)) by lia. rewrite Z.add_0_r. apply Z.mod_small. lia.
  - intros k Hk. rewrite W. by rewrite fn_lookup_insert_ne.
Qed.

Lemma clcd_seed_handoff_witness :
  s5l_clcd_window (s5l_clcd_seed_window0 0xfd00000 320 480 1280 7 0 s5l_clcd_reset).2 0 = Some (MkView 0xfd00000 320 480 1280 7 0).
Proof.
  pose proof (clcd_seed_handoff 0xfd00000 320 480 1280 7 0 s5l_clcd_reset ltac:(done) ltac:(done) ltac:(done) ltac:(done) ltac:(done) ltac:(done)) as H.
  assert (S : (s5l_clcd_seed_window0 0xfd00000 320 480 1280 7 0 s5l_clcd_reset).1 = true) by (vm_compute; reflexivity).
  destruct (s5l_clcd_seed_window0 0xfd00000 320 480 1280 7 0 s5l_clcd_reset) as [ok c']. cbn [fst snd] in *. rewrite S in H. apply H.
Defined.
