(* ===== verification/Tvout.v ===== *)
(** * The TV output and the power gates

    [core/src/soc/tvout.c] and [core/src/soc/power.c], with their structures of
    [core/include/soc.h].  The registers of the three TV blocks are a function of block and
    word; accesses are one, two or four octets wide. *)

From S2P Require Import Prelude Bits.

Module Tvout.

Definition S5L_TVOUT_BANK_SIZE := 0x1000.
Definition S5L_TVOUT_REFRESH_HZ := 60.
Definition TVOUT_MIXER_STATUS := 0x4c.
Definition TVOUT_SDO_IRQ := 0x280.
Definition TVOUT_SDO_IRQMASK := 0x284.
Definition TVOUT_RUN := 1.
Definition TVOUT_READY := 2.
Definition TVOUT_SDO_VSYNC := 1.
Definition TVOUT_SDO_MASK_VSYNC := 1.

Inductive s5l_tvout_bank := BANK_CTRL | BANK_MIXER | BANK_SDO.
#[export] Instance bank_eq_dec : EqDecision s5l_tvout_bank.
Proof. solve_decision. Defined.

Record s5l_tvout := MkTv { regs : s5l_tvout_bank → Z → Z; frame_ticks : Z; frame_accum : Z; frames : Z }.

Definition t_regs (v : s5l_tvout_bank → Z → Z) (t : s5l_tvout) : s5l_tvout := MkTv v (frame_ticks t) (frame_accum t) (frames t).
Definition t_accum (v : Z) (t : s5l_tvout) : s5l_tvout := MkTv (regs t) (frame_ticks t) v (frames t).
Definition t_frames (v : Z) (t : s5l_tvout) : s5l_tvout := MkTv (regs t) (frame_ticks t) (frame_accum t) v.
Definition put_word (b : s5l_tvout_bank) (w v : Z) (t : s5l_tvout) : s5l_tvout := t_regs (<[b := <[w := v]> (regs t b)]> (regs t)) t.

Definition valid_access (off bytes : Z) : bool :=
  ((bytes =? 1) || (bytes =? 2) || (bytes =? 4)) && (off + bytes <=? S5L_TVOUT_BANK_SIZE).

Definition visible_word (t : s5l_tvout) (b : s5l_tvout_bank) (word : Z) : Z :=
  let v := regs t b word in
  if word =? 0 then
    let v := v .& wnot TVOUT_READY in
    if v .& TVOUT_RUN =? 0 then v .| TVOUT_READY else v
  else v.

Definition s5l_tvout_running (t : s5l_tvout) : bool :=
  negb (regs t BANK_MIXER 0 .& TVOUT_RUN =? 0) && negb (regs t BANK_SDO 0 .& TVOUT_RUN =? 0).

Definition s5l_tvout_reset (tb_hz : Z) : s5l_tvout :=
  MkTv (<[BANK_SDO := <[TVOUT_SDO_IRQMASK / 4 := TVOUT_SDO_MASK_VSYNC]> (fun _ => 0)]> (fun _ _ => 0)) (tb_hz / S5L_TVOUT_REFRESH_HZ) 0 0.

Definition read_lane (t : s5l_tvout) (b : s5l_tvout_bank) (at_ : Z) : Z :=
  (visible_word t b (at_ .>> 2) .>> ((at_ .& 3) * 8)) .& 0xff.
Definition s5l_tvout_read (b : s5l_tvout_bank) (off bytes : Z) (t : s5l_tvout) : Z :=
  if valid_access off bytes then
    for_range (Z.to_nat bytes) 0 (fun i v => v .| (read_lane t b (off + i) .<< (i * 8))) 0
  else 0.

(** Whether a word is a status that a store of ones clears. *)
Definition is_w1c (b : s5l_tvout_bank) (word_off : Z) : bool :=
  (bool_decide (b = BANK_SDO) && (word_off =? TVOUT_SDO_IRQ)) || (bool_decide (b = BANK_MIXER) && (word_off =? TVOUT_MIXER_STATUS)).

Definition write_lane (b : s5l_tvout_bank) (at_ byte : Z) (t : s5l_tvout) : s5l_tvout :=
  let word_off := at_ .& wnot 3 in
  let word := at_ .>> 2 in
  let shift := (at_ .& 3) * 8 in
  let lane_mask := 0xff .<< shift in
  let lane_value := (byte .& 0xff) .<< shift in
  let reg := regs t b word in
  if is_w1c b word_off then put_word b word (reg .& wnot (lane_value .& lane_mask)) t
  else
    let reg := (reg .& wnot lane_mask) .| (lane_value .& lane_mask) in
    put_word b word (if word =? 0 then reg .& wnot TVOUT_READY else reg) t.

Definition s5l_tvout_write (b : s5l_tvout_bank) (off val bytes : Z) (t : s5l_tvout) : s5l_tvout :=
  if valid_access off bytes then
    let t' := for_range (Z.to_nat bytes) 0 (fun i t => write_lane b (off + i) (val .>> (i * 8)) t) t in
    if eqb (s5l_tvout_running t) (s5l_tvout_running t') then t' else t_accum 0 t'
  else t.

Definition s5l_tvout_irq (t : s5l_tvout) : bool :=
  s5l_tvout_running t && negb (regs t BANK_SDO (TVOUT_SDO_IRQ / 4) .& TVOUT_SDO_VSYNC =? 0)
  && (regs t BANK_SDO (TVOUT_SDO_IRQMASK / 4) .& TVOUT_SDO_MASK_VSYNC =? 0).

Definition s5l_tvout_tick (ticks : Z) (t : s5l_tvout) : bool * s5l_tvout :=
  if negb (s5l_tvout_running t) || (frame_ticks t =? 0) then (false, t_accum 0 t)
  else
    let total := frame_accum t + ticks in
    let elapsed := total / frame_ticks t in
    let t := t_accum (total mod frame_ticks t) t in
    let t := if elapsed =? 0 then t
             else put_word BANK_SDO (TVOUT_SDO_IRQ / 4) (regs t BANK_SDO (TVOUT_SDO_IRQ / 4) .| TVOUT_SDO_VSYNC)
                    (t_frames (w64 (frames t + elapsed)) t) in
    (s5l_tvout_irq t, t).

Definition s5l_tvout_ticks_to_vsync (t : s5l_tvout) : Z :=
  if negb (s5l_tvout_running t) || (frame_ticks t =? 0) || s5l_tvout_irq t
     || negb (regs t BANK_SDO (TVOUT_SDO_IRQMASK / 4) .& TVOUT_SDO_MASK_VSYNC =? 0) then 0
  else if frame_accum t <? frame_ticks t then frame_ticks t - frame_accum t else 1.

(** ** Theorems *)

(** With the line low, the distance is exact: after [n] ticks the line is high exactly when
    there is a distance and it is at most [n]; whatever the phase. *)
Lemma ticks_to_vsync_exact n t : 0 < n → 0 <= frame_accum t → 0 <= frame_ticks t → s5l_tvout_irq t = false →
  (s5l_tvout_tick n t).1 = (0 <? s5l_tvout_ticks_to_vsync t) && (s5l_tvout_ticks_to_vsync t <=? n).
Proof.
  intros Hn Ha Hp L. unfold s5l_tvout_tick, s5l_tvout_ticks_to_vsync. rewrite L.
  destruct (s5l_tvout_running t) eqn:R; [|done]. destruct (Z.eqb_spec (frame_ticks t) 0); [done|]. cbn [negb orb].
  destruct (regs t BANK_SDO (TVOUT_SDO_IRQMASK / 4) .& TVOUT_SDO_MASK_VSYNC =? 0) eqn:K; cbn [negb fst].
  - assert (P : (regs t BANK_SDO (TVOUT_SDO_IRQ / 4) .& TVOUT_SDO_VSYNC =? 0) = true).
    { unfold s5l_tvout_irq in L. rewrite R, K in L. by destruct (_ =? 0). }
    set (total := frame_accum t + n). set (d := if _ <? _ then _ else _).
    assert (D : (total / frame_ticks t =? 0) = (n <? d)).
    { unfold d, total. destruct (Z.ltb_spec (frame_accum t) (frame_ticks t)); [apply advance_boundary; lia|].
      rewrite (proj2 (Z.ltb_ge n 1)) by lia. apply Z.eqb_neq.
      assert (1 <= (frame_accum t + n) / frame_ticks t) by (apply Z.div_le_lower_bound; lia). lia. }
    rewrite D, Z.leb_antisym. assert (Dp : 0 < d) by (unfold d; destruct (Z.ltb_spec (frame_accum t) (frame_ticks t)); lia).
    rewrite (proj2 (Z.ltb_lt 0 d) Dp). destruct (n <? d); cbn [negb andb].
    + unfold s5l_tvout_irq. change (regs (t_accum _ t)) with (regs t). rewrite P. by rewrite andb_false_r.
    + unfold s5l_tvout_irq, s5l_tvout_running in *. cbn [put_word t_regs t_accum t_frames regs].
      rewrite !(fn_lookup_insert_ne _ BANK_SDO BANK_MIXER) by done. rewrite !fn_lookup_insert.
      rewrite !fn_lookup_insert_ne, R, K by done. rewrite andb_true_r. apply negb_true_iff, Z.eqb_neq. intros F.
      apply (f_equal (fun v => bit v 0)) in F. by rewrite bit_land, bit_lor, orb_true_r in F.
  - cbn [Z.ltb Z.compare andb]. unfold s5l_tvout_irq.
    destruct ((frame_accum t + n) / frame_ticks t =? 0); cbn [put_word t_regs t_accum t_frames regs]; [by rewrite K, !andb_false_r|].
    rewrite fn_lookup_insert, (fn_lookup_insert_ne (regs t BANK_SDO) (TVOUT_SDO_IRQ / 4) (TVOUT_SDO_IRQMASK / 4)) by (vm_compute; discriminate). by rewrite K, !andb_false_r.
Qed.

(** A block answers ready exactly while it is not told to run, whatever is stored in it. *)
Lemma ready_derived t b : bit (visible_word t b 0) 1 = negb (bit (visible_word t b 0) 0).
Proof.
  unfold visible_word. change (0 =? 0) with true. cbv iota zeta. set (v := regs t b 0 .& wnot TVOUT_READY).
  assert (V : bit v 1 = false) by (unfold v; rewrite bit_land, bit_wnot by lia; apply andb_false_r).
  assert (T : (v .& TVOUT_RUN =? 0) = negb (bit v 0)).
  { change TVOUT_RUN with (1 .<< 0). by apply bit_test. }
  rewrite T. destruct (bit v 0) eqn:E; cbn [negb]; [by rewrite V, E|]. by rewrite !bit_lor, V, E.
Qed.
End Tvout.

Module Power.

Definition POWER_CONFIG0 := 0x00.
Definition POWER_CONFIG1 := 0x04.
Definition POWER_SETSTATE := 0x08.
Definition POWER_ONCTRL := 0x0c.
Definition POWER_OFFCTRL := 0x10.
Definition POWER_STATE := 0x14.
Definition POWER_SRAM := 0x20.
Definition POWER_CFG24 := 0x24.
Definition POWER_CFG28 := 0x28.
Definition S5L_POWER_DOMAIN_MASK := 0x3fff.
Definition S5L_POWER_GATE_DEFAULTS := 0x12fc.

Record s5l_power := MkPower { cfg0 : Z; cfg1 : Z; state : Z; sram : Z; cfg24 : Z; cfg28 : Z }.

Definition s5l_power_reset : s5l_power := MkPower 0 0 S5L_POWER_GATE_DEFAULTS 0 0 0.

Definition s5l_power_read (off : Z) (p : s5l_power) : Z :=
  if off =? POWER_CONFIG0 then cfg0 p
  else if off =? POWER_CONFIG1 then cfg1 p
  else if off =? POWER_SETSTATE then state p
  else if off =? POWER_STATE then state p
  else if off =? POWER_SRAM then sram p
  else if off =? POWER_CFG24 then cfg24 p
  else if off =? POWER_CFG28 then cfg28 p
  else 0.

Definition w_state (v : Z) (p : s5l_power) : s5l_power := MkPower (cfg0 p) (cfg1 p) v (sram p) (cfg24 p) (cfg28 p).

Definition s5l_power_write (off val : Z) (p : s5l_power) : s5l_power :=
  if off =? POWER_CONFIG0 then MkPower val (cfg1 p) (state p) (sram p) (cfg24 p) (cfg28 p)
  else if off =? POWER_CONFIG1 then MkPower (cfg0 p) val (state p) (sram p) (cfg24 p) (cfg28 p)
  else if off =? POWER_ONCTRL then w_state (state p .& wnot (val .& S5L_POWER_DOMAIN_MASK)) p
  else if off =? POWER_OFFCTRL then w_state (state p .| (val .& S5L_POWER_DOMAIN_MASK)) p
  else if off =? POWER_SRAM then MkPower (cfg0 p) (cfg1 p) (state p) val (cfg24 p) (cfg28 p)
  else if off =? POWER_CFG24 then MkPower (cfg0 p) (cfg1 p) (state p) (sram p) val (cfg28 p)
  else if off =? POWER_CFG28 then MkPower (cfg0 p) (cfg1 p) (state p) (sram p) (cfg24 p) val
  else p.

(** A store to either control moves exactly the gates it names, of the fourteen there are. *)
Lemma gate_moves off val p i : 0 <= i < 32 → off = POWER_ONCTRL ∨ off = POWER_OFFCTRL →
  bit (s5l_power_read POWER_STATE (s5l_power_write off val p)) i
  = if bit val i && (i <? 14) then bool_decide (off = POWER_OFFCTRL) else bit (s5l_power_read POWER_STATE p) i.
Proof.
  intros Hi [-> | ->]; cbn [s5l_power_read s5l_power_write w_state state Z.eqb Pos.eqb POWER_STATE POWER_CONFIG0 POWER_CONFIG1 POWER_SETSTATE POWER_ONCTRL POWER_OFFCTRL].
  all: assert (M : bit (val .& S5L_POWER_DOMAIN_MASK) i = bit val i && (i <? 14)) by
    (rewrite bit_land; change S5L_POWER_DOMAIN_MASK with (Z.ones 14); unfold bit; by rewrite Z.testbit_ones_nonneg by lia).
  - rewrite bit_land, bit_wnot, M by done. destruct (bit val i && (i <? 14)); [apply andb_false_r|apply andb_true_r].
  - rewrite bit_lor, M. destruct (bit val i && (i <? 14)); [apply orb_true_r|apply orb_false_r].
Qed.
End Power.
