(* ===== verification/Spi.v ===== *)
(** * The SPI controllers

    [core/src/soc/spi.c], with [s5l_spi_t] of [core/include/soc.h]: registers, the two
    FIFOs and the shifter between them, the interrupt line, and the two simple devices of
    the file, the null device and the panel.  The FIFOs are lists, so their levels are the
    lengths.  The slaves are apart from the registers: a transfer takes the octet sent, the
    registers at that moment and the slave's own state [W], and may change the select byte,
    which is all the panel does to the controller it hangs on.  The specification is two
    queues before a device, with the fate of every answer ([wire]). *)

From S2P Require Import Prelude Bits Bytes.

Definition SPI_CONTROL := 0x00.
Definition SPI_SETUP := 0x04.
Definition SPI_STATUS := 0x08.
Definition SPI_PIN := 0x0c.
Definition SPI_TXDATA := 0x10.
Definition SPI_RXDATA := 0x20.
Definition SPI_CLKDIV := 0x30.
Definition SPI_CNT := 0x34.
Definition SPI_IDD := 0x38.
Definition SPI_SETUP_IRQ := 0x100.
Definition SPI_SETUP_DMA := 0x40.
Definition SPI_STATUS_EVENTS := 0xf.
Definition SPI_STATUS_TX_SHIFT := 4.
Definition SPI_STATUS_RX_SHIFT := 8.
Definition S5L_SPI_FIFO_DEPTH := 8.
Definition S5L_SPI_SLAVES := 4.
Definition S5L_SPI_CS_ROUTE_MASK := S5L_SPI_SLAVES - 1.
Definition S5L_SPI_LCD_READ_PENDING := 0x80.
Definition S5L_SPI_UNKNOWN_OFF := 8.

Record spi_regs := MkSpi {
  control : Z; setup : Z; pin : Z; clkdiv : Z; cnt : Z; idd : Z; status : Z; words_left : Z;
  tx : list Z; rx : list Z; cs : Z;
  words : Z; tx_drops : Z; rx_underruns : Z; rx_overruns : Z; rx_reads : Z; irq_rises : Z; irq_last : bool;
  dma_arms : Z; unknown_reads : Z; unknown_writes : Z; unknown_off : list Z }.

Definition q_control (v : Z) (b : spi_regs) : spi_regs :=
  MkSpi v (setup b) (pin b) (clkdiv b) (cnt b) (idd b) (status b) (words_left b) (tx b) (rx b)
    (cs b) (words b) (tx_drops b) (rx_underruns b) (rx_overruns b) (rx_reads b) (irq_rises b)
    (irq_last b) (dma_arms b) (unknown_reads b) (unknown_writes b) (unknown_off b).
Definition q_setup (v : Z) (b : spi_regs) : spi_regs :=
  MkSpi (control b) v (pin b) (clkdiv b) (cnt b) (idd b) (status b) (words_left b) (tx b) (rx b)
    (cs b) (words b) (tx_drops b) (rx_underruns b) (rx_overruns b) (rx_reads b) (irq_rises b)
    (irq_last b) (dma_arms b) (unknown_reads b) (unknown_writes b) (unknown_off b).
Definition q_pin (v : Z) (b : spi_regs) : spi_regs :=
  MkSpi (control b) (setup b) v (clkdiv b) (cnt b) (idd b) (status b) (words_left b) (tx b) (rx
    b) (cs b) (words b) (tx_drops b) (rx_underruns b) (rx_overruns b) (rx_reads b) (irq_rises b)
    (irq_last b) (dma_arms b) (unknown_reads b) (unknown_writes b) (unknown_off b).
Definition q_clkdiv (v : Z) (b : spi_regs) : spi_regs :=
  MkSpi (control b) (setup b) (pin b) v (cnt b) (idd b) (status b) (words_left b) (tx b) (rx b)
    (cs b) (words b) (tx_drops b) (rx_underruns b) (rx_overruns b) (rx_reads b) (irq_rises b)
    (irq_last b) (dma_arms b) (unknown_reads b) (unknown_writes b) (unknown_off b).
Definition q_cnt (v : Z) (b : spi_regs) : spi_regs :=
  MkSpi (control b) (setup b) (pin b) (clkdiv b) v (idd b) (status b) (words_left b) (tx b) (rx
    b) (cs b) (words b) (tx_drops b) (rx_underruns b) (rx_overruns b) (rx_reads b) (irq_rises b)
    (irq_last b) (dma_arms b) (unknown_reads b) (unknown_writes b) (unknown_off b).
Definition q_idd (v : Z) (b : spi_regs) : spi_regs :=
  MkSpi (control b) (setup b) (pin b) (clkdiv b) (cnt b) v (status b) (words_left b) (tx b) (rx
    b) (cs b) (words b) (tx_drops b) (rx_underruns b) (rx_overruns b) (rx_reads b) (irq_rises b)
    (irq_last b) (dma_arms b) (unknown_reads b) (unknown_writes b) (unknown_off b).
Definition q_status (v : Z) (b : spi_regs) : spi_regs :=
  MkSpi (control b) (setup b) (pin b) (clkdiv b) (cnt b) (idd b) v (words_left b) (tx b) (rx b)
    (cs b) (words b) (tx_drops b) (rx_underruns b) (rx_overruns b) (rx_reads b) (irq_rises b)
    (irq_last b) (dma_arms b) (unknown_reads b) (unknown_writes b) (unknown_off b).
Definition q_words_left (v : Z) (b : spi_regs) : spi_regs :=
  MkSpi (control b) (setup b) (pin b) (clkdiv b) (cnt b) (idd b) (status b) v (tx b) (rx b) (cs
    b) (words b) (tx_drops b) (rx_underruns b) (rx_overruns b) (rx_reads b) (irq_rises b)
    (irq_last b) (dma_arms b) (unknown_reads b) (unknown_writes b) (unknown_off b).
Definition q_tx (v : list Z) (b : spi_regs) : spi_regs :=
  MkSpi (control b) (setup b) (pin b) (clkdiv b) (cnt b) (idd b) (status b) (words_left b) v (rx
    b) (cs b) (words b) (tx_drops b) (rx_underruns b) (rx_overruns b) (rx_reads b) (irq_rises b)
    (irq_last b) (dma_arms b) (unknown_reads b) (unknown_writes b) (unknown_off b).
Definition q_rx (v : list Z) (b : spi_regs) : spi_regs :=
  MkSpi (control b) (setup b) (pin b) (clkdiv b) (cnt b) (idd b) (status b) (words_left b) (tx
    b) v (cs b) (words b) (tx_drops b) (rx_underruns b) (rx_overruns b) (rx_reads b) (irq_rises
    b) (irq_last b) (dma_arms b) (unknown_reads b) (unknown_writes b) (unknown_off b).
Definition q_cs (v : Z) (b : spi_regs) : spi_regs :=
  MkSpi (control b) (setup b) (pin b) (clkdiv b) (cnt b) (idd b) (status b) (words_left b) (tx
    b) (rx b) v (words b) (tx_drops b) (rx_underruns b) (rx_overruns b) (rx_reads b) (irq_rises
    b) (irq_last b) (dma_arms b) (unknown_reads b) (unknown_writes b) (unknown_off b).
Definition q_words (v : Z) (b : spi_regs) : spi_regs :=
  MkSpi (control b) (setup b) (pin b) (clkdiv b) (cnt b) (idd b) (status b) (words_left b) (tx
    b) (rx b) (cs b) v (tx_drops b) (rx_underruns b) (rx_overruns b) (rx_reads b) (irq_rises b)
    (irq_last b) (dma_arms b) (unknown_reads b) (unknown_writes b) (unknown_off b).
Definition q_tx_drops (v : Z) (b : spi_regs) : spi_regs :=
  MkSpi (control b) (setup b) (pin b) (clkdiv b) (cnt b) (idd b) (status b) (words_left b) (tx
    b) (rx b) (cs b) (words b) v (rx_underruns b) (rx_overruns b) (rx_reads b) (irq_rises b)
    (irq_last b) (dma_arms b) (unknown_reads b) (unknown_writes b) (unknown_off b).
Definition q_rx_underruns (v : Z) (b : spi_regs) : spi_regs :=
  MkSpi (control b) (setup b) (pin b) (clkdiv b) (cnt b) (idd b) (status b) (words_left b) (tx
    b) (rx b) (cs b) (words b) (tx_drops b) v (rx_overruns b) (rx_reads b) (irq_rises b)
    (irq_last b) (dma_arms b) (unknown_reads b) (unknown_writes b) (unknown_off b).
Definition q_rx_overruns (v : Z) (b : spi_regs) : spi_regs :=
  MkSpi (control b) (setup b) (pin b) (clkdiv b) (cnt b) (idd b) (status b) (words_left b) (tx
    b) (rx b) (cs b) (words b) (tx_drops b) (rx_underruns b) v (rx_reads b) (irq_rises b)
    (irq_last b) (dma_arms b) (unknown_reads b) (unknown_writes b) (unknown_off b).
Definition q_rx_reads (v : Z) (b : spi_regs) : spi_regs :=
  MkSpi (control b) (setup b) (pin b) (clkdiv b) (cnt b) (idd b) (status b) (words_left b) (tx
    b) (rx b) (cs b) (words b) (tx_drops b) (rx_underruns b) (rx_overruns b) v (irq_rises b)
    (irq_last b) (dma_arms b) (unknown_reads b) (unknown_writes b) (unknown_off b).
Definition q_irq_rises (v : Z) (b : spi_regs) : spi_regs :=
  MkSpi (control b) (setup b) (pin b) (clkdiv b) (cnt b) (idd b) (status b) (words_left b) (tx
    b) (rx b) (cs b) (words b) (tx_drops b) (rx_underruns b) (rx_overruns b) (rx_reads b) v
    (irq_last b) (dma_arms b) (unknown_reads b) (unknown_writes b) (unknown_off b).
Definition q_irq_last (v : bool) (b : spi_regs) : spi_regs :=
  MkSpi (control b) (setup b) (pin b) (clkdiv b) (cnt b) (idd b) (status b) (words_left b) (tx
    b) (rx b) (cs b) (words b) (tx_drops b) (rx_underruns b) (rx_overruns b) (rx_reads b)
    (irq_rises b) v (dma_arms b) (unknown_reads b) (unknown_writes b) (unknown_off b).
Definition q_dma_arms (v : Z) (b : spi_regs) : spi_regs :=
  MkSpi (control b) (setup b) (pin b) (clkdiv b) (cnt b) (idd b) (status b) (words_left b) (tx
    b) (rx b) (cs b) (words b) (tx_drops b) (rx_underruns b) (rx_overruns b) (rx_reads b)
    (irq_rises b) (irq_last b) v (unknown_reads b) (unknown_writes b) (unknown_off b).
Definition q_unknown_reads (v : Z) (b : spi_regs) : spi_regs :=
  MkSpi (control b) (setup b) (pin b) (clkdiv b) (cnt b) (idd b) (status b) (words_left b) (tx
    b) (rx b) (cs b) (words b) (tx_drops b) (rx_underruns b) (rx_overruns b) (rx_reads b)
    (irq_rises b) (irq_last b) (dma_arms b) v (unknown_writes b) (unknown_off b).
Definition q_unknown_writes (v : Z) (b : spi_regs) : spi_regs :=
  MkSpi (control b) (setup b) (pin b) (clkdiv b) (cnt b) (idd b) (status b) (words_left b) (tx
    b) (rx b) (cs b) (words b) (tx_drops b) (rx_underruns b) (rx_overruns b) (rx_reads b)
    (irq_rises b) (irq_last b) (dma_arms b) (unknown_reads b) v (unknown_off b).
Definition q_unknown_off (v : list Z) (b : spi_regs) : spi_regs :=
  MkSpi (control b) (setup b) (pin b) (clkdiv b) (cnt b) (idd b) (status b) (words_left b) (tx
    b) (rx b) (cs b) (words b) (tx_drops b) (rx_underruns b) (rx_overruns b) (rx_reads b)
    (irq_rises b) (irq_last b) (dma_arms b) (unknown_reads b) (unknown_writes b) v.

Definition s5l_spi_reset : spi_regs := MkSpi 0 0 0 0 0 0 0 0 [] [] 0 0 0 0 0 0 0 false 0 0 0 [].

Definition spi_note_unknown (off : Z) (b : spi_regs) : spi_regs :=
  if bool_decide (off ∈ unknown_off b) then b
  else if blen (unknown_off b) <? S5L_SPI_UNKNOWN_OFF then q_unknown_off (unknown_off b ++ [off]) b
  else b.

Definition spi_dma (b : spi_regs) : bool := negb (setup b .& SPI_SETUP_DMA =? 0).
Definition spi_status (b : spi_regs) : Z :=
  ((status b .& SPI_STATUS_EVENTS) .| (blen (tx b) .<< SPI_STATUS_TX_SHIFT)) .| (blen (rx b) .<< SPI_STATUS_RX_SHIFT).

Section spi.
Context {W : Type}.

(** The answer and the select byte after it. *)
Definition slave_transfer : Type := Z → spi_regs → W → Z * Z * W.
Record s5l_spi := MkPort { regs : spi_regs; slaves : Z → option slave_transfer }.
Definition on_regs (f : spi_regs → spi_regs) (p : s5l_spi) : s5l_spi := MkPort (f (regs p)) (slaves p).

Definition s5l_spi_attach (slot : Z) (slave : slave_transfer) (p : s5l_spi) : bool * s5l_spi :=
  if S5L_SPI_SLAVES <=? slot then (false, p)
  else match slaves p slot with
       | Some _ => (false, p)
       | None => (true, MkPort (regs p) (<[slot := Some slave]> (slaves p)))
       end.

(** The device the select byte routes to. *)
Definition routed (p : s5l_spi) : option slave_transfer :=
  if negb (cs (regs p) .& (0xff .^ (S5L_SPI_CS_ROUTE_MASK .| S5L_SPI_LCD_READ_PENDING)) =? 0) then None
  else slaves p (cs (regs p) .& S5L_SPI_CS_ROUTE_MASK).

(** One word: [rest] stays in the transmit FIFO. *)
Definition shift_word (slave : slave_transfer) (dma : bool) (out : Z) (rest : list Z) (b : spi_regs) (w : W) : spi_regs * W :=
  let b := q_tx rest b in
  let '(answer, sel, w) := slave out b w in
  let b := q_cs sel b in
  let b := if negb dma && (blen (rx b) <? S5L_SPI_FIFO_DEPTH) then q_rx (rx b ++ [answer]) b
           else q_rx_overruns (w64 (rx_overruns b + 1)) b in
  let b := q_words (w64 (words b + 1)) b in
  let b := if words_left b =? 0 then b else q_words_left (words_left b - 1) b in
  (q_status (status b .| SPI_STATUS_EVENTS) b, w).

Fixpoint shift_words (slave : slave_transfer) (dma : bool) (queued : list Z) (b : spi_regs) (w : W) : spi_regs * W :=
  match queued with
  | out :: rest =>
    if dma || (blen (rx b) <? S5L_SPI_FIFO_DEPTH) then
      let '(b, w) := shift_word slave dma out rest b w in shift_words slave dma rest b w
    else (b, w)
  | [] => (b, w)
  end.

Definition spi_shift (p : s5l_spi) (w : W) : s5l_spi * W :=
  match routed p with
  | None => (p, w)
  | Some slave =>
    let '(b, w) := shift_words slave (spi_dma (regs p)) (tx (regs p)) (regs p) w in (MkPort b (slaves p), w)
  end.

Definition s5l_spi_step : s5l_spi → W → s5l_spi * W := spi_shift.

Definition s5l_spi_read (off : Z) (p : s5l_spi) (w : W) : Z * s5l_spi * W :=
  let b := regs p in
  if off =? SPI_CONTROL then (control b, p, w)
  else if off =? SPI_SETUP then (setup b, p, w)
  else if off =? SPI_STATUS then (spi_status b, p, w)
  else if off =? SPI_PIN then (pin b, p, w)
  else if off =? SPI_TXDATA then (0, p, w)
  else if off =? SPI_RXDATA then
    match rx b with
    | [] => (0, on_regs (q_rx_underruns (w64 (rx_underruns b + 1))) p, w)
    | v :: rest =>
      let '(p, w) := spi_shift (on_regs (fun b => q_rx_reads (w64 (rx_reads b + 1)) (q_rx rest b)) p) w in (v, p, w)
    end
  else if off =? SPI_CLKDIV then (clkdiv b, p, w)
  else if off =? SPI_CNT then (cnt b, p, w)
  else if off =? SPI_IDD then (idd b, p, w)
  else (0, on_regs (fun b => spi_note_unknown off (q_unknown_reads (w64 (unknown_reads b + 1)) b)) p, w).

Definition s5l_spi_write (off val : Z) (p : s5l_spi) (w : W) : s5l_spi * W :=
  let b := regs p in
  if off =? SPI_CONTROL then (on_regs (q_control val) p, w)
  else if off =? SPI_SETUP then
    (on_regs (fun b => q_setup val (if negb (val .& SPI_SETUP_DMA =? 0) && negb (spi_dma b)
                                    then q_dma_arms (w64 (dma_arms b + 1)) b else b)) p, w)
  else if off =? SPI_STATUS then (on_regs (q_status (status b .& wnot (val .& SPI_STATUS_EVENTS))) p, w)
  else if off =? SPI_PIN then (on_regs (q_pin val) p, w)
  else if off =? SPI_TXDATA then
    if S5L_SPI_FIFO_DEPTH <=? blen (tx b) then (on_regs (q_tx_drops (w64 (tx_drops b + 1))) p, w)
    else spi_shift (on_regs (q_tx (tx b ++ [w8 val])) p) w
  else if off =? SPI_RXDATA then (p, w)
  else if off =? SPI_CLKDIV then (on_regs (q_clkdiv val) p, w)
  else if off =? SPI_CNT then
    (on_regs (fun b => q_cs (cs b .& (0xff .^ S5L_SPI_LCD_READ_PENDING)) (q_rx [] (q_words_left val (q_cnt val b)))) p, w)
  else if off =? SPI_IDD then (on_regs (q_idd val) p, w)
  else (on_regs (fun b => spi_note_unknown off (q_unknown_writes (w64 (unknown_writes b + 1)) b)) p, w).

(** ** The attached devices of the file *)

Definition null_transfer : slave_transfer := fun _ b w => (0, cs b, w).

Definition lcd_transfer : slave_transfer := fun out b w =>
  if (cnt b =? 2) && (words_left b =? 2) && (blen (rx b) =? 0) && (out =? 0x95)
  then (0, cs b .| S5L_SPI_LCD_READ_PENDING, w)
  else if negb (cs b .& S5L_SPI_LCD_READ_PENDING =? 0) && (cnt b =? 2) && (words_left b =? 1)
  then (if out =? 0xff then 1 else 0, cs b .& (0xff .^ S5L_SPI_LCD_READ_PENDING), w)
  else (0, cs b, w).
End spi.

Arguments slave_transfer : clear implicits.
Arguments s5l_spi : clear implicits.

Definition s5l_spi_irq (b : spi_regs) : bool :=
  negb (setup b .& SPI_SETUP_IRQ =? 0) && negb (status b .& SPI_STATUS_EVENTS =? 0) && negb (blen (rx b) =? 0).

Definition s5l_spi_irq_note (b : spi_regs) : spi_regs :=
  let now := s5l_spi_irq b in
  q_irq_last now (if now && negb (irq_last b) then q_irq_rises (w64 (irq_rises b + 1)) b else b).

(** ** Programmed transfers *)

Section exchange.
Context {W : Type} (f : Z → W → Z * W).

(** A device that answers from its own state alone, and its answers to a list of octets. *)
Definition device : slave_transfer W := fun out b w => let '(a, w) := f out w in (a, cs b, w).
Fixpoint answers (l : list Z) (w : W) : list Z * W :=
  match l with
  | [] => ([], w)
  | out :: l => let '(a, w) := f out w in let '(r, w) := answers l w in (a :: r, w)
  end.

Lemma answers_app l1 l2 w : answers (l1 ++ l2) w = let '(a, w1) := answers l1 w in let '(b, w2) := answers l2 w1 in (a ++ b, w2).
Proof.
  revert w. induction l1 as [|x l1 IH]; intros w; simpl; [by destruct (answers l2 w)|].
  destruct (f x w) as [a w1]. rewrite IH. destruct (answers l1 w1) as [b w2]. by destruct (answers l2 w2).
Qed.

Inductive spi_op := Send (val : Z) | Receive | Turn | Configure (off val : Z).

(** The words the driver reads and the port after an operation.  [Send] and [Configure]
    are stores, [Receive] is a load of [SPI_RXDATA], [Turn] the machine's tick. *)
Definition spi_do (o : spi_op) (p : s5l_spi W) (w : W) : list Z * s5l_spi W * W :=
  match o with
  | Send val => let '(p, w) := s5l_spi_write SPI_TXDATA val p w in ([], p, w)
  | Receive => let '(v, p, w) := s5l_spi_read SPI_RXDATA p w in ([v], p, w)
  | Turn => let '(p, w) := s5l_spi_step p w in ([], p, w)
  | Configure off val => let '(p, w) := s5l_spi_write off val p w in ([], p, w)
  end.
Fixpoint spi_run (ops : list spi_op) (p : s5l_spi W) (w : W) : list Z * s5l_spi W * W :=
  match ops with
  | [] => ([], p, w)
  | o :: ops =>
    let '(r, p, w) := spi_do o p w in
    let '(r', p, w) := spi_run ops p w in (r ++ r', p, w)
  end.

(** *** What the port promises

    Two queues and a device.  An exchange takes as many octets as may go: all of them while
    DMA is armed, when their answers are dropped; as many as there is room for answers
    otherwise.  A new transfer drops the answers nobody read.  The histories record the
    octets accepted and what became of every answer. *)
Record wire := MkWire {
  w_queue : list Z; w_inbox : list Z; w_dma : bool;
  w_sent : list Z; w_read : list Z; w_flushed : list Z; w_overrun : list Z;
  w_refused : Z; w_empty : Z; w_world : W }.

Definition exchange (s : wire) : wire :=
  let n := if w_dma s then length (w_queue s)
           else Nat.min (length (w_queue s)) (8 - length (w_inbox s)) in
  let '(a, w) := answers (take n (w_queue s)) (w_world s) in
  MkWire (drop n (w_queue s)) (if w_dma s then w_inbox s else w_inbox s ++ a) (w_dma s)
    (w_sent s) (w_read s) (w_flushed s) (if w_dma s then w_overrun s ++ a else w_overrun s)
    (w_refused s) (w_empty s) w.

Definition wire_do (o : spi_op) (s : wire) : list Z * wire :=
  let '(MkWire q i d se re fl ov rf em w) := s in
  match o with
  | Turn => ([], exchange s)
  | Receive =>
    match i with
    | [] => ([0], MkWire q i d se re fl ov rf (em + 1) w)
    | a :: i => ([a], exchange (MkWire q i d se (re ++ [a]) fl ov rf em w))
    end
  | Send val | Configure 0x10 val =>
    if (length q <? 8)%nat
    then ([], exchange (MkWire (q ++ [val mod 256]) i d (se ++ [val mod 256]) re fl ov rf em w))
    else ([], MkWire q i d se re fl ov (rf + 1) em w)
  | Configure 0x04 val => ([], MkWire q i (Z.testbit val 6) se re fl ov rf em w)
  | Configure 0x34 val => ([], MkWire q [] d se re (fl ++ i) ov rf em w)
  | Configure _ _ => ([], s)
  end.

Fixpoint wire_run (ops : list spi_op) (s : wire) : list Z * wire :=
  match ops with
  | [] => ([], s)
  | o :: ops => let '(r, s) := wire_do o s in let '(r', s) := wire_run ops s in (r ++ r', s)
  end.

(** The fate of an answer. *)
Inductive fate := Kept | Flushed | Overrun.
#[export] Instance fate_eq_dec : EqDecision fate.
Proof. solve_decision. Defined.
Fixpoint fated (k : fate) (h : list (fate * Z)) : list Z :=
  match h with
  | [] => []
  | (k', a) :: h => if decide (k' = k) then a :: fated k h else fated k h
  end.

Lemma fated_app k h1 h2 : fated k (h1 ++ h2) = fated k h1 ++ fated k h2.
Proof. induction h1 as [| [k' a] h1 IH]; [done |]. cbn. case_decide; [cbn; by f_equal | done]. Qed.
Lemma fated_same k l : fated k ((fun a => (k, a)) <$> l) = l.
Proof. induction l as [| a l IH]; [done |]. cbn. rewrite decide_True by done. by f_equal. Qed.
Lemma fated_other k k' l : k' ≠ k → fated k ((fun a => (k', a)) <$> l) = [].
Proof. intros Hne. induction l as [| a l IH]; [done |]. cbn. by rewrite decide_False by done. Qed.
Lemma fated_values (k : fate) (l : list Z) : ((fun a => (k, a)) <$> l).*2 = l.
Proof. rewrite <- list_fmap_compose. apply list_fmap_id. Qed.

(** Every octet accepted was delivered, in order, or waits; and every answer has its fate. *)
Definition accounted (w0 : W) (s : wire) (h : list (fate * Z)) : Prop :=
  ∃ delivered, w_sent s = delivered ++ w_queue s ∧ answers delivered w0 = (h.*2, w_world s)
  ∧ fated Kept h = w_read s ++ w_inbox s ∧ fated Flushed h = w_flushed s ∧ fated Overrun h = w_overrun s.

(** *** The histories of the promise *)

(** The unread answers are the last ones kept, and none was flushed after the first of them. *)
Definition ledger (w0 : W) (s : wire) : Prop := ∃ h1 h2,
  accounted w0 s (h1 ++ h2) ∧ fated Kept h1 = w_read s ∧ fated Kept h2 = w_inbox s ∧ fated Flushed h2 = [].

Lemma fated_split k h a l : fated k h = a :: l →
  ∃ h1 h2, h = h1 ++ (k, a) :: h2 ∧ fated k h1 = [] ∧ fated k h2 = l.
Proof.
  induction h as [| [k' b] h IH]; [done |]. cbn [fated]. case_decide as E.
  - intros [= -> <-]. subst k'. by exists [], h.
  - intros Hh. destruct (IH Hh) as (h1 & h2 & -> & H1 & H2). exists ((k', b) :: h1), h2.
    split; [done |]. split; [| done]. cbn. by rewrite decide_False.
Qed.

Lemma fated_sub k h1 h2 : fated k (h1 ++ h2) = [] → fated k h1 = [] ∧ fated k h2 = [].
Proof. rewrite fated_app. by intros [? ?]%app_nil. Qed.

(** What a new transfer does to the answers nobody read. *)
Definition flush_fates (h : list (fate * Z)) : list (fate * Z) :=
  (fun e => (if decide (e.1 = Kept) then Flushed else e.1, e.2)) <$> h.

Lemma flush_fated h : fated Flushed h = [] →
  fated Kept (flush_fates h) = [] ∧ fated Flushed (flush_fates h) = fated Kept h
  ∧ fated Overrun (flush_fates h) = fated Overrun h ∧ (flush_fates h).*2 = h.*2.
Proof.
  induction h as [| [k a] h IH]; [done |]. intros Hf.
  assert (fated Flushed h = [] ∧ k ≠ Flushed) as [Hf' Hk].
  { destruct k; cbn in Hf; [done | discriminate | done]. }
  destruct (IH Hf') as (H1 & H2 & H3 & H4). unfold flush_fates in *. destruct k; try done; cbn in *; split_and!; try done; by f_equal.
Qed.

Lemma exchange_ledger w0 s : ledger w0 s → ledger w0 (exchange s).
Proof.
  intros (h1 & h2 & (dl & Hs & Ha & Hk & Hf & Ho) & K1 & K2 & F2). unfold exchange.
  set (n := if w_dma s then _ else _). destruct (answers (take n (w_queue s)) (w_world s)) as [a w] eqn:E.
  set (k := if w_dma s then Overrun else Kept).
  exists h1, (h2 ++ ((fun x => (k, x)) <$> a)). split; [exists (dl ++ take n (w_queue s)); split_and! |]; cbn.
  - by rewrite <- app_assoc, take_drop.
  - rewrite answers_app, Ha, E, app_assoc. f_equal. rewrite (fmap_app snd (h1 ++ h2)). f_equal.
    symmetry. apply fated_values.
  - rewrite app_assoc, fated_app, Hk. unfold k. destruct (w_dma s).
    + by rewrite fated_other, app_nil_r. + by rewrite fated_same, app_assoc.
  - rewrite app_assoc, fated_app, Hf. unfold k. by destruct (w_dma s); rewrite fated_other, app_nil_r.
  - rewrite app_assoc, fated_app, Ho. unfold k. destruct (w_dma s).
    + by rewrite fated_same. + by rewrite fated_other, app_nil_r.
  - split; [done |]. rewrite !fated_app, K2, F2. unfold k. destruct (w_dma s).
    + by rewrite !fated_other, app_nil_r. + by rewrite fated_same, fated_other.
Qed.

Lemma wire_ledger w0 o s : ledger w0 s → ledger w0 (wire_do o s).2.
Proof.
  destruct s as [q i d se re fl ov rf em w]. intros L.
  assert (∀ val, ledger w0 (if (length q <? 8)%nat
    then ([] : list Z, exchange (MkWire (q ++ [val mod 256]) i d (se ++ [val mod 256]) re fl ov rf em w))
    else ([], MkWire q i d se re fl ov (rf + 1) em w)).2) as Hsend.
  { intros val. destruct L as (h1 & h2 & (dl & Hs & Hr) & Hk). cbn in Hs.
    destruct (_ <? _)%nat; [apply exchange_ledger |]; exists h1, h2; (split; [exists dl |]); try done.
    split; [cbn; by rewrite Hs, app_assoc | done]. }
  destruct o as [val | | | off val].
  - specialize (Hsend val). cbn [wire_do]. exact Hsend.
  - destruct L as (h1 & h2 & (dl & Hs & Ha & Hk & Hf & Ho) & K1 & K2 & F2). destruct i as [| a i]; cbn.
    + exists h1, h2. by split; [exists dl |].
    + apply exchange_ledger. cbn in *. destruct (fated_split _ _ _ _ K2) as (g1 & g2 & -> & G1 & G2).
      exists (h1 ++ g1 ++ [(Kept, a)]), g2. apply fated_sub in F2 as [_ F2].
      assert ((h1 ++ g1 ++ [(Kept, a)]) ++ g2 = h1 ++ g1 ++ (Kept, a) :: g2) as Eh by (by rewrite <- !app_assoc).
      split; [exists dl; rewrite Eh; cbn; split_and!; try done; by rewrite <- app_assoc |].
      cbn. split; [by rewrite !fated_app, G1, K1 |]. split; [done |].
      by apply (fated_sub Flushed [(Kept, a)] g2) in F2 as [_ F2].
  - by apply exchange_ledger.
  - assert (∀ d', ledger w0 (MkWire q i d' se re fl ov rf em w)) as Hmode.
    { intros d'. destruct L as (h1 & h2 & (dl & Hr) & Hk). exists h1, h2. by split; [exists dl |]. }
    assert (ledger w0 (MkWire q [] d se re (fl ++ i) ov rf em w)) as Hflush.
    { destruct L as (h1 & h2 & (dl & Hs & Ha & Hk & Hf & Ho) & K1 & K2 & F2). cbn in *.
      destruct (flush_fated h2 F2) as (G1 & G2 & G3 & G4).
      exists (h1 ++ flush_fates h2), []. rewrite app_nil_r. rewrite !fated_app in Hf, Ho |- *.
      rewrite F2, app_nil_r in Hf. split; [exists dl; cbn; split_and! |]; try done.
      - by rewrite fmap_app, G4, <- fmap_app.
      - by rewrite fated_app, K1, G1.
      - by rewrite fated_app, Hf, G2, K2.
      - by rewrite fated_app, G3.
      - cbn. by rewrite K1, G1, app_nil_r. }
    specialize (Hsend val). cbn [wire_do]. repeat case_match; first [done | apply Hmode | exact Hsend].
Qed.

(** *** The port keeps it *)

(** The port shows the queues, the mode and the world of [s]; [d], [u] and [v] are the
    counters it started from. *)
Record shows (d u v : Z) (p : s5l_spi W) (w : W) (s : wire) : Prop := {
  sh_device : routed p = Some device;
  sh_queue : tx (regs p) = w_queue s; sh_inbox : rx (regs p) = w_inbox s;
  sh_mode : spi_dma (regs p) = w_dma s; sh_world : w = w_world s;
  sh_room : (length (w_queue s) <= 8)%nat ∧ (length (w_inbox s) <= 8)%nat;
  sh_drops : tx_drops (regs p) = w64 (d + w_refused s);
  sh_empty : rx_underruns (regs p) = w64 (u + w_empty s);
  sh_overruns : rx_overruns (regs p) = w64 (v + Z.of_nat (length (w_overrun s))) }.

Lemma spi_w64_add a b : w64 (w64 a + b) = w64 (a + b).
Proof. unfold w64, wrap. by rewrite Zplus_mod_idemp_l. Qed.

Lemma shift_word_device dma out rest b w : (length (rx b) < 8)%nat ∨ dma = true →
  let '(a, w1) := f out w in
  ∃ b1, shift_word device dma out rest b w = (b1, w1) ∧ tx b1 = rest
    ∧ rx b1 = (if dma then rx b else rx b ++ [a])
    ∧ rx_overruns b1 = (if dma then w64 (rx_overruns b + 1) else rx_overruns b)
    ∧ cs b1 = cs b ∧ setup b1 = setup b ∧ tx_drops b1 = tx_drops b ∧ rx_underruns b1 = rx_underruns b.
Proof.
  intros Hroom. destruct (f out w) as [a w1] eqn:F. unfold shift_word, device. rewrite F. cbn [rx q_cs q_tx].
  assert (negb dma && (blen (rx b) <? S5L_SPI_FIFO_DEPTH) = negb dma) as ->.
  { destruct Hroom as [Hl | ->]; [| done]. rewrite (proj2 (Z.ltb_lt _ _)) by (unfold blen, S5L_SPI_FIFO_DEPTH; lia).
    by rewrite andb_true_r. }
  destruct dma; cbn [negb]; destruct (_ =? 0); eexists; split_and!; reflexivity.
Qed.

Lemma shift_words_device dma l : ∀ b w, tx b = l → (length (rx b) <= 8)%nat → uint 64 (rx_overruns b) →
  let n := if dma : bool then length l else Nat.min (length l) (8 - length (rx b)) in
  let '(a, w') := answers (take n l) w in
  ∃ b', shift_words device dma l b w = (b', w') ∧ tx b' = drop n l
    ∧ rx b' = (if dma then rx b else rx b ++ a)
    ∧ rx_overruns b' = (if dma then w64 (rx_overruns b + Z.of_nat (length a)) else rx_overruns b)
    ∧ cs b' = cs b ∧ setup b' = setup b ∧ tx_drops b' = tx_drops b ∧ rx_underruns b' = rx_underruns b.
Proof.
  induction l as [| out rest IH]; intros b w T R O n.
  { assert (n = 0%nat) as -> by (unfold n; by destruct dma). exists b. rewrite app_nil_r, Z.add_0_r.
    assert (w64 (rx_overruns b) = rx_overruns b) as -> by (by apply wrap_small). by destruct dma. }
  destruct (decide (dma = false ∧ length (rx b) = 8%nat)) as [[-> Hfull] | Hgo].
  { assert (n = 0%nat) as -> by (unfold n; lia). cbn [take answers]. exists b. cbn [shift_words orb].
    rewrite (proj2 (Z.ltb_ge _ _)) by (unfold blen, S5L_SPI_FIFO_DEPTH; lia). rewrite app_nil_r. by split_and!. }
  assert (n = S (if dma then length rest else Nat.min (length rest) (7 - length (rx b)))) as ->.
  { unfold n. destruct dma; cbn [length]; [done |]. assert (length (rx b) ≠ 8%nat) by naive_solver. lia. }
  cbn [take answers drop shift_words].
  assert (dma || (blen (rx b) <? S5L_SPI_FIFO_DEPTH) = true) as ->.
  { destruct dma; [done |]. apply Z.ltb_lt. assert (length (rx b) ≠ 8%nat) by naive_solver.
    unfold blen, S5L_SPI_FIFO_DEPTH. lia. }
  pose proof (shift_word_device dma out rest b w) as Sw. destruct (f out w) as [a1 w1].
  destruct Sw as (b1 & -> & T1 & R1 & O1 & C1 & S1 & D1 & U1).
  { destruct dma; [by right | left]. assert (length (rx b) ≠ 8%nat) by naive_solver. lia. }
  specialize (IH b1 w1 T1). cbv zeta in IH. rewrite R1, O1, C1, S1, D1, U1 in IH.
  assert ((if dma then length rest else Nat.min (length rest) (8 - length (if dma then rx b else rx b ++ [a1])))
    = (if dma then length rest else Nat.min (length rest) (7 - length (rx b)))) as En.
  { destruct dma; [done |]. rewrite length_app. cbn [length]. lia. }
  rewrite En in IH. clear En. destruct (answers _ w1) as [a w2].
  destruct IH as (b' & E & E1 & E2 & E3 & E4).
  { destruct dma; [done |]. rewrite length_app. assert (length (rx b) ≠ 8%nat) by naive_solver. cbn [length]. lia. }
  { destruct dma; [apply uint_w64 | done]. }
  exists b'. split; [exact E |]. split; [exact E1 |]. destruct dma; rewrite E2, E3; (split; [| split; [| exact E4]]);
    try done; [rewrite spi_w64_add; f_equal; cbn [length]; lia | by rewrite <- app_assoc].
Qed.

Lemma shift_shows d u v p w s : shows d u v p w s →
  shows d u v (spi_shift p w).1 (spi_shift p w).2 (exchange s).
Proof.
  intros [D Q I M Ew [L1 L2] C1 C2 C3]. subst w. unfold spi_shift, exchange. rewrite D, M, Q.
  pose proof (shift_words_device (w_dma s) (w_queue s) (regs p) (w_world s) Q) as Hs.
  cbv zeta in Hs. rewrite I, C1, C2, C3 in Hs. set (n := if w_dma s then _ else _) in *.
  destruct (answers (take n (w_queue s)) (w_world s)) as [a w'] eqn:Ea.
  destruct Hs as (b' & -> & H1 & H2 & H3 & H4 & H5 & H6 & H7); [done | apply uint_w64 |].
  assert (length a <= n)%nat as Hn.
  { assert (∀ l w, length (answers l w).1 = length l) as Hl.
    { induction l as [| x l IH]; intros y; [done |]. cbn. destruct (f x y) as [? y1]. specialize (IH y1).
      destruct (answers l y1). cbn in *. by rewrite IH. }
    specialize (Hl (take n (w_queue s)) (w_world s)). rewrite Ea, length_take in Hl. cbn in Hl. lia. }
  split; cbn.
  - unfold routed in *. cbn. by rewrite H4.
  - done. - done.
  - unfold spi_dma in *. by rewrite H5.
  - done.
  - rewrite length_drop. split; [lia |]. unfold n in Hn. destruct (w_dma s); [done |]. rewrite length_app. lia.
  - by rewrite H6. - by rewrite H7.
  - rewrite H3. destruct (w_dma s); [| done]. by rewrite spi_w64_add, length_app, Nat2Z.inj_add, Z.add_assoc.
Qed.

Lemma routed_cs (p : s5l_spi W) b : slaves p (cs (regs p) .& S5L_SPI_CS_ROUTE_MASK) = slaves p (cs b .& S5L_SPI_CS_ROUTE_MASK) →
  cs b .& (0xff .^ (S5L_SPI_CS_ROUTE_MASK .| S5L_SPI_LCD_READ_PENDING))
    = cs (regs p) .& (0xff .^ (S5L_SPI_CS_ROUTE_MASK .| S5L_SPI_LCD_READ_PENDING)) →
  routed (MkPort b (slaves p)) = routed p.
Proof. intros H1 H2. unfold routed. cbn. by rewrite H1, H2. Qed.

Lemma setup_dma val : negb (val .& SPI_SETUP_DMA =? 0) = Z.testbit val 6.
Proof.
  change SPI_SETUP_DMA with (2 ^ 6). destruct (Z.testbit val 6) eqn:E.
  - apply negb_true_iff, Z.eqb_neq. intros H. apply (f_equal (fun z => Z.testbit z 6)) in H.
    rewrite Z.land_spec, E in H. done.
  - apply negb_false_iff, Z.eqb_eq. apply Z.bits_inj'. intros i Hi. rewrite Z.land_spec, Z.testbit_0_l, Z.pow2_bits_eqb by lia.
    destruct (Z.eqb_spec 6 i) as [<- |]; [by rewrite E | apply andb_false_r].
Qed.

(** A store that touches neither queue, mode nor counter of the promise. *)
Lemma store_shows d u v p w s g : shows d u v p w s →
  tx (g (regs p)) = tx (regs p) → rx (g (regs p)) = rx (regs p) → cs (g (regs p)) = cs (regs p) →
  spi_dma (g (regs p)) = spi_dma (regs p) → tx_drops (g (regs p)) = tx_drops (regs p) →
  rx_underruns (g (regs p)) = rx_underruns (regs p) → rx_overruns (g (regs p)) = rx_overruns (regs p) →
  shows d u v (on_regs g p) w s.
Proof.
  intros [] E1 E2 E3 E4 E5 E6 E7. split; cbn [regs on_regs]; try congruence; try done.
  unfold on_regs. rewrite routed_cs; [done | by rewrite E3 | by rewrite E3].
Qed.

Lemma send_shows d u v val p w s : shows d u v p w s →
  let '(p', w') := s5l_spi_write SPI_TXDATA val p w in
  let '(r, s') := wire_do (Send val) s in r = [] ∧ shows d u v p' w' s'.
Proof.
  intros Hv. destruct s as [q i m se re fl ov rf em y]. pose proof Hv as [D Q I M Ew [L1 L2] C1 C2 C3]. cbn in Q, I, M, Ew, L1, L2, C1, C2, C3.
  unfold s5l_spi_write. cbn [SPI_TXDATA SPI_CONTROL SPI_SETUP SPI_STATUS SPI_PIN Z.eqb Pos.eqb wire_do].
  rewrite Q. destruct (Nat.ltb_spec (length q) 8).
  - rewrite (proj2 (Z.leb_gt _ _)) by (unfold blen, S5L_SPI_FIFO_DEPTH; lia).
    rewrite (surjective_pairing (spi_shift _ w)). split; [done |]. apply shift_shows. split; cbn; try done.
    rewrite length_app. cbn. lia.
  - rewrite (proj2 (Z.leb_le _ _)) by (unfold blen, S5L_SPI_FIFO_DEPTH; lia). split; [done |].
    split; cbn; try done. by rewrite C1, spi_w64_add, Z.add_assoc.
Qed.

Lemma receive_shows d u v p w s : shows d u v p w s →
  let '(a, p', w') := s5l_spi_read SPI_RXDATA p w in
  let '(r, s') := wire_do Receive s in r = [a] ∧ shows d u v p' w' s'.
Proof.
  intros Hv. destruct s as [q i m se re fl ov rf em y]. pose proof Hv as [D Q I M Ew [L1 L2] C1 C2 C3]. cbn in Q, I, M, Ew, L1, L2, C1, C2, C3.
  unfold s5l_spi_read. cbn [SPI_RXDATA SPI_TXDATA SPI_CONTROL SPI_SETUP SPI_STATUS SPI_PIN Z.eqb Pos.eqb wire_do].
  rewrite I. destruct i as [| a i].
  - split; [done |]. split; cbn; try done. by rewrite C2, spi_w64_add, Z.add_assoc.
  - rewrite (surjective_pairing (spi_shift _ w)). split; [done |]. apply shift_shows. split; cbn in *; try done. lia.
Qed.

Lemma configure_shows d u v off val p w s : shows d u v p w s →
  let '(p', w') := s5l_spi_write off val p w in
  let '(r, s') := wire_do (Configure off val) s in r = [] ∧ shows d u v p' w' s'.
Proof.
  intros Hv. destruct (decide (off = SPI_TXDATA)) as [-> | Ht]; [by apply (send_shows d u v val) |].
  destruct (decide (off = SPI_SETUP)) as [-> | Hs]; [| destruct (decide (off = SPI_CNT)) as [-> | Hc]].
  - destruct s as [q i m se re fl ov rf em y]. pose proof Hv as [D Q I M Ew [L1 L2] C1 C2 C3]. cbn in *.
    split; [done |].
    assert (∀ b, b = regs p ∨ b = q_dma_arms (w64 (dma_arms (regs p) + 1)) (regs p) →
      shows d u v (on_regs (fun _ => q_setup val b) p) w (MkWire q i (Z.testbit val 6) se re fl ov rf em y)) as K.
    { intros b [-> | ->]; (split; first [done | exact (setup_dma val)]). }
    apply (K _). case_match; auto.
  - destruct s as [q i m se re fl ov rf em y]. pose proof Hv as [D Q I M Ew [L1 L2] C1 C2 C3]. cbn in *.
    split; [done |]. split; cbn; try done; [| lia]. rewrite <- D. apply routed_cs; cbn.
    + by rewrite <- Z.land_assoc. + by rewrite <- Z.land_assoc.
  - assert (wire_do (Configure off val) s = ([], s)) as ->.
    { destruct s. unfold SPI_TXDATA, SPI_SETUP, SPI_CNT in *. cbn [wire_do]. by repeat case_match. }
    unfold s5l_spi_write.
    rewrite (proj2 (Z.eqb_neq off SPI_TXDATA)), (proj2 (Z.eqb_neq off SPI_CNT)), (proj2 (Z.eqb_neq off SPI_SETUP)) by done.
    repeat (destruct (off =? _); [split; [done |]; first [done | by apply store_shows] |]).
    split; [done |]. apply (store_shows _ _ _ _ _ _ _ Hv);
      (unfold spi_note_unknown; case_bool_decide; [done |]; by destruct (_ <? _)).
Qed.

Lemma do_shows d u v o p w s : shows d u v p w s →
  let '(r, p', w') := spi_do o p w in
  let '(r', s') := wire_do o s in r' = r ∧ shows d u v p' w' s'.
Proof.
  intros Hv. destruct o as [val | | | off val]; cbn [spi_do].
  - pose proof (send_shows d u v val p w s Hv) as H. by destruct (s5l_spi_write _ _ _ _).
  - pose proof (receive_shows d u v p w s Hv) as H. by destruct (s5l_spi_read _ _ _) as [[a p'] w'].
  - pose proof (shift_shows d u v p w s Hv) as H. unfold s5l_spi_step. destruct (spi_shift p w) as [p' w'].
    destruct s. by split.
  - pose proof (configure_shows d u v off val p w s Hv) as H. by destruct (s5l_spi_write _ _ _ _).
Qed.

Lemma run_shows d u v w0 ops : ∀ p w s, shows d u v p w s → ledger w0 s →
  let '(r, p', w') := spi_run ops p w in
  let '(r', s') := wire_run ops s in r' = r ∧ shows d u v p' w' s' ∧ ledger w0 s'.
Proof.
  induction ops as [| o ops IH]; intros p w s Hv Hl; cbn [spi_run wire_run]; [done |].
  pose proof (do_shows d u v o p w s Hv) as Ho. pose proof (wire_ledger w0 o s Hl) as Hl1.
  destruct (spi_do o p w) as [[r p1] w1]. destruct (wire_do o s) as [r1 s1]. destruct Ho as [-> Hv1].
  specialize (IH p1 w1 s1 Hv1 Hl1). destruct (spi_run ops p1 w1) as [[r2 p2] w2].
  destruct (wire_run ops s1) as [r3 s2]. destruct IH as (-> & ? & ?). done.
Qed.

(** At a tick everything moves that may. *)
Lemma exchange_settled s : (length (w_inbox s) <= 8)%nat →
  let s' := exchange s in w_queue s' = [] ∨ (w_dma s' = false ∧ length (w_inbox s') = 8%nat).
Proof.
  intros Hi. unfold exchange.
  assert (∀ l w, length (answers l w).1 = length l) as Hl.
  { induction l as [| x l IH]; intros y; [done |]. cbn. destruct (f x y) as [? y1]. specialize (IH y1).
    destruct (answers l y1). cbn in *. by rewrite IH. }
  set (n := if w_dma s then _ else _). specialize (Hl (take n (w_queue s)) (w_world s)).
  destruct (answers _ _) as [a w]. cbn in *. rewrite length_take in Hl. unfold n in *.
  destruct (w_dma s); [left; apply drop_all |].
  destruct (decide (length (w_queue s) <= 8 - length (w_inbox s))%nat); [left; apply drop_ge; lia |].
  right. split; [done |]. rewrite length_app. lia.
Qed.

End exchange.

(** ** The panel *)

Section panel.
Context {W : Type}.

(** The driver's read of a panel register: the count, the command, an answer dropped, a
    dummy octet, the answer. *)
Definition panel_read (reg : Z) (p : s5l_spi W) (w : W) : Z * s5l_spi W * W :=
  let '(p, w) := s5l_spi_write SPI_CNT 2 p w in
  let '(p, w) := s5l_spi_write SPI_TXDATA (0x80 .| reg) p w in
  let '(_, p, w) := s5l_spi_read SPI_RXDATA p w in
  let '(p, w) := s5l_spi_write SPI_TXDATA 0xff p w in
  s5l_spi_read SPI_RXDATA p w.

Definition panel_routed (p : s5l_spi W) : Prop :=
  slaves p 1 = Some lcd_transfer ∧ (cs (regs p) = 1 ∨ cs (regs p) = 0x81) ∧ spi_dma (regs p) = false ∧ tx (regs p) = [].

(** The enable loop of the panel's driver ends at its first read of register 0x15, whatever
    an earlier transfer left in the receive FIFO or half done; other registers read zero. *)
Lemma panel_answers reg p w : panel_routed p → 0 <= reg < 0x80 →
  let '(v, p', w') := panel_read reg p w in
  v = (if reg =? 0x15 then 1 else 0) ∧ panel_routed p' ∧ rx (regs p') = [] ∧ cs (regs p') = 1 ∧ w' = w.
Proof.
  intros (Sl & C & D & T) Hr. destruct p as [b sl]. cbn [regs slaves] in *.
  assert (O : 0 <= reg → w8 (0x80 .| reg) = 128 + reg).
  { intros _. change 0x80 with (Z.shiftl 1 7) at 1. rewrite shiftl_lor by lia. apply wrap_small. unfold uint. lia. }
  assert (Step : ∀ b out, cs b = 1 ∨ cs b = 0x81 → spi_dma b = false → tx b = [] → rx b = [] →
    ∃ b', s5l_spi_write SPI_TXDATA out (MkPort b sl) w = (MkPort b' sl, w) ∧ tx b' = [] ∧ rx b' = [((lcd_transfer (w8 out) (q_tx [] (q_tx [w8 out] b)) w).1).1]
      ∧ cs b' = ((lcd_transfer (w8 out) (q_tx [] (q_tx [w8 out] b)) w).1).2 ∧ spi_dma b' = false ∧ cnt b' = cnt b
      ∧ words_left b' = if words_left b =? 0 then 0 else words_left b - 1).
  { clear C D T b. intros b out C D T R. unfold s5l_spi_write. cbn [SPI_TXDATA SPI_CONTROL SPI_SETUP SPI_STATUS SPI_PIN Z.eqb Pos.eqb regs].
    rewrite T. change (S5L_SPI_FIFO_DEPTH <=? blen []) with false. cbv iota. unfold spi_shift, on_regs. cbn [regs slaves].
    assert (Rt : routed (MkPort (q_tx ([] ++ [w8 out]) b) sl) = Some lcd_transfer).
    { unfold routed. cbn [regs slaves cs q_tx]. by destruct C as [-> | ->]. }
    rewrite Rt. change (spi_dma (q_tx _ b)) with (spi_dma b). rewrite D. cbn [tx q_tx app shift_words orb].
    change (rx (q_tx [w8 out] b)) with (rx b). rewrite R. change (blen [] <? S5L_SPI_FIFO_DEPTH) with true. cbv iota.
    unfold shift_word. destruct (lcd_transfer (w8 out) (q_tx [] (q_tx [w8 out] b)) w) as [[a s] w1] eqn:L.
    assert (w1 = w) as -> by (unfold lcd_transfer in L; destruct (_ && _) in L; [|destruct (_ && _) in L]; by injection L).
    cbn [fst snd negb andb]. change (rx (q_cs s _)) with (rx b). rewrite R. change (blen [] <? S5L_SPI_FIFO_DEPTH) with true. cbv iota. cbn [shift_words].
    change (words_left (q_words _ _)) with (words_left b). destruct (words_left b =? 0) eqn:Z0; eexists; split_and!; try reflexivity; try exact D.
    apply Z.eqb_eq in Z0. exact Z0. }
  assert (Read : ∀ b v, cs b = 1 ∨ cs b = 0x81 → spi_dma b = false → tx b = [] → rx b = [v] →
    ∃ b', s5l_spi_read SPI_RXDATA (MkPort b sl) w = (v, MkPort b' sl, w) ∧ tx b' = [] ∧ rx b' = [] ∧ cs b' = cs b ∧ spi_dma b' = false
      ∧ cnt b' = cnt b ∧ words_left b' = words_left b).
  { clear C D T b. intros b v C D T R. unfold s5l_spi_read. cbn [SPI_RXDATA SPI_TXDATA SPI_CONTROL SPI_SETUP SPI_STATUS SPI_PIN Z.eqb Pos.eqb regs].
    rewrite R. unfold spi_shift, on_regs. cbn [regs slaves tx q_rx q_rx_reads]. rewrite T. cbn [shift_words].
    destruct (routed _); eexists; split_and!; try reflexivity; try exact T; exact D. }
  unfold panel_read. unfold s5l_spi_write at 1.
  cbn [SPI_CNT SPI_RXDATA SPI_TXDATA SPI_CONTROL SPI_SETUP SPI_STATUS SPI_PIN SPI_CLKDIV Z.eqb Pos.eqb regs]. unfold on_regs. cbn [regs slaves].
  set (b0 := q_cs _ _). assert (C0 : cs b0 = 1) by (unfold b0; cbn [cs q_cs q_rx q_words_left q_cnt]; by destruct C as [-> | ->]).
  destruct (Step b0 (0x80 .| reg)) as (b1 & -> & T1 & R1 & C1 & D1 & N1 & L1); [by left|done|done|done|].
  rewrite O in R1, C1 by lia.
  assert (L0 : lcd_transfer (128 + reg) (q_tx [] (q_tx [128 + reg] b0)) w = (0, if reg =? 0x15 then 0x81 else 1, w)).
  { unfold lcd_transfer. change (cnt _ =? 2) with true. change (words_left _ =? 2) with true. change (words_left _ =? 1) with false.
    change (blen (rx _) =? 0) with true. change (cs (q_tx _ _)) with (cs b0). rewrite C0. cbn [andb negb].
    replace (128 + reg =? 0x95) with (reg =? 0x15) by (destruct (Z.eqb_spec reg 0x15), (Z.eqb_spec (128 + reg) 0x95); done || lia).
    by destruct (reg =? 0x15). }
  rewrite L0 in R1, C1. cbn [fst snd] in R1, C1.
  destruct (Read b1 0) as (b2 & -> & T2 & R2 & C2 & D2 & N2 & L2); [rewrite C1; destruct (reg =? 0x15); auto|done|done|done|].
  rewrite C1 in C2. rewrite N1 in N2. rewrite L1 in L2. change (cnt b0) with 2 in N2. change (words_left b0) with 2 in L2. change (if 2 =? 0 then 0 else 2 - 1) with 1 in L2.
  destruct (Step b2 0xff) as (b3 & -> & T3 & R3 & C3 & D3 & N3 & L3); [rewrite C2; destruct (reg =? 0x15); auto|done|done|done|].
  change (w8 0xff) with 0xff in *.
  assert (L4 : lcd_transfer 0xff (q_tx [] (q_tx [0xff] b2)) w = (if reg =? 0x15 then 1 else 0, 1, w)).
  { unfold lcd_transfer. change (cnt (q_tx _ _)) with (cnt b2). change (words_left (q_tx _ _)) with (words_left b2). change (cs (q_tx _ _)) with (cs b2).
    rewrite N2, L2, C2. cbn [andb negb Z.eqb Pos.eqb]. by destruct (reg =? 0x15). }
  rewrite L4 in R3, C3. cbn [fst snd] in R3, C3.
  destruct (Read b3 (if reg =? 0x15 then 1 else 0)) as (b4 & -> & T4 & R4 & C4 & D4 & _); [by left|done|done|done|].
  rewrite C3 in C4. split; [done|]. unfold panel_routed. cbn [regs slaves]. split_and!; try done. by left.
Qed.
End panel.

(** *** An example: a transfer read by the driver, a DMA burst whose answers go nowhere, and
    a header nobody reads before the next transfer *)

Definition demo_device (out w : Z) : Z * Z := (w8 (out + w), w + 1).
Definition demo_port : s5l_spi Z := MkPort (q_setup 0x1018 s5l_spi_reset) (fun k => if k =? 0 then Some (device demo_device) else None).
Definition demo_ops : list spi_op :=
  Configure SPI_CNT 3 :: map Send [10; 20; 30] ++ replicate 3 Receive
  ++ Configure SPI_SETUP 0x58 :: map Send [1; 2] ++ Configure SPI_SETUP 0x18 :: Configure SPI_CNT 2
  :: map Send [7; 8] ++ Configure SPI_CNT 1 :: [Send 9; Receive].

