(* ===== verification/Nand.v ===== *)
(** * The NAND device

    [core/src/soc/nand.c].  The three arrays are lists of octets, [None] when the pointer
    is NULL; a result of [None] is an access outside one of them.  Allocation is a
    parameter of [nand_init]; the host has 64-bit sizes.  The device is shown to be a
    table of pages. *)

From S2P Require Import Prelude Bytes.

Definition SIZE_MAX := 2 ^ 64 - 1.

Record nand := MkNand {
  page_size : Z; spare_size : Z; pages_per_block : Z; block_count : Z;
  data : option (list Z); spare : option (list Z); bad : option (list Z) }.

Inductive nand_status := NAND_OK | NAND_ERR_RANGE | NAND_ERR_BAD_BLOCK | NAND_ERR_NOT_ERASED.

Definition nand_total_pages (n : nand) : Z := pages_per_block n *w block_count n.

Definition nand_free (n : nand) : nand :=
  MkNand (page_size n) (spare_size n) (pages_per_block n) 0 None None None.

(** Whether each of the three allocations succeeds. *)
Definition nand_init (ps ss ppb blocks : Z) (mem_data mem_spare mem_bad : bool) : bool * nand :=
  let zero := MkNand 0 0 0 0 None None None in
  if (ps =? 0) || (ppb =? 0) || (blocks =? 0) then (false, zero)
  else
    let pages := w64 (ppb * blocks) in
    let dbytes := w64 (pages * ps) in
    let sbytes := w64 (pages * ss) in
    if (0xffffffff <? pages) || (SIZE_MAX <? dbytes) || (SIZE_MAX <? sbytes) then (false, zero)
    else
      let ones k := replicate (Z.to_nat k) 0xff in
      let n := MkNand ps ss ppb blocks
                 (if mem_data then Some (ones dbytes) else None)
                 (if (ss =? 0) || negb mem_spare then None else Some (ones sbytes))
                 (if mem_bad then Some (replicate (Z.to_nat blocks) 0) else None) in
      if negb mem_data || (negb (ss =? 0) && negb mem_spare) || negb mem_bad
      then (false, nand_free n)
      else (true, n).

(** The octets of page [page] in an array of [k] octets a page. *)
Definition page_of (arr : list Z) (page k : Z) : option (list Z) := get_bytes arr (page * k) k.

(** What a read fills in: the data when asked for, the spare when asked for and present. *)
Definition nand_read_page (page : Z) (want_data want_spare : bool) (n : nand)
    : option (nand_status * option (list Z) * option (list Z)) :=
  match data n with
  | None => Some (NAND_ERR_RANGE, None, None)
  | Some d =>
    if nand_total_pages n <=? page then Some (NAND_ERR_RANGE, None, None)
    else
      out ← (if want_data then Some <$> page_of d page (page_size n) else Some None);
      outs ← match spare n with
             | Some s => if want_spare then Some <$> page_of s page (spare_size n) else Some None
             | None => Some None
             end;
      Some (NAND_OK, out, outs)
  end.

(** A page of an array and the buffer for it, where both pointers are there. *)
Definition programs (arr : option (list Z)) (page k : Z) (src : option (list Z)) : option bool :=
  match arr, src with
  | Some a, Some x => old ← page_of a page k; Some (only_clears old x)
  | _, _ => Some true
  end.
Definition programmed (arr : option (list Z)) (page k : Z) (src : option (list Z)) : option (option (list Z)) :=
  match arr, src with
  | Some a, Some x => old ← page_of a page k; Some <$> put_bytes a (page * k) (zip_with Z.land old x)
  | _, _ => Some arr
  end.

Definition nand_program_page (page : Z) (src srcs : option (list Z)) (n : nand) : option (nand_status * nand) :=
  match data n, bad n with
  | Some d, Some b =>
    if nand_total_pages n <=? page then Some (NAND_ERR_RANGE, n)
    else
      mark ← get8 b (page / pages_per_block n);
      if negb (mark =? 0) then Some (NAND_ERR_BAD_BLOCK, n) else
      ok ← programs (data n) page (page_size n) src;
      if negb ok then Some (NAND_ERR_NOT_ERASED, n) else
      oks ← programs (spare n) page (spare_size n) srcs;
      if negb oks then Some (NAND_ERR_NOT_ERASED, n) else
      d' ← programmed (data n) page (page_size n) src;
      s' ← programmed (spare n) page (spare_size n) srcs;
      Some (NAND_OK, MkNand (page_size n) (spare_size n) (pages_per_block n) (block_count n) d' s' (bad n))
  | _, _ => Some (NAND_ERR_RANGE, n)
  end.

Definition erased (arr : option (list Z)) (first pages k : Z) : option (option (list Z)) :=
  match arr with
  | Some a => Some <$> put_bytes a (first * k) (replicate (Z.to_nat (pages * k)) 0xff)
  | None => Some None
  end.

Definition nand_erase_block (block : Z) (n : nand) : option (nand_status * nand) :=
  match data n, bad n with
  | Some d, Some b =>
    if block_count n <=? block then Some (NAND_ERR_RANGE, n)
    else
      mark ← get8 b block;
      if negb (mark =? 0) then Some (NAND_ERR_BAD_BLOCK, n) else
      let first := block * pages_per_block n in
      d' ← erased (data n) first (pages_per_block n) (page_size n);
      s' ← erased (spare n) first (pages_per_block n) (spare_size n);
      Some (NAND_OK, MkNand (page_size n) (spare_size n) (pages_per_block n) (block_count n) d' s' (bad n))
  | _, _ => Some (NAND_ERR_RANGE, n)
  end.

Definition nand_mark_bad (block : Z) (n : nand) : option nand :=
  match bad n with
  | Some b =>
    if block_count n <=? block then Some n
    else
      b ← put_bytes b block [1];
      Some (MkNand (page_size n) (spare_size n) (pages_per_block n) (block_count n) (data n) (spare n) (Some b))
  | None => Some n
  end.

Definition nand_is_bad (block : Z) (n : nand) : option bool :=
  match bad n with
  | Some b => if block_count n <=? block then Some false else mark ← get8 b block; Some (negb (mark =? 0))
  | None => Some false
  end.

(** ** A table of pages *)

Record geometry := MkGeom { g_page : Z; g_spare : Z; g_ppb : Z; g_blocks : Z }.
Definition g_pages (g : geometry) : Z := g_ppb g * g_blocks g.

(** Contents by page, bad blocks by number. *)
Record pages := MkPages { p_data : Z → list Z; p_spare : Z → list Z; p_bad : Z → bool }.

Inductive nand_op :=
  | ReadPage (page : Z) (want_data want_spare : bool)
  | ProgramPage (page : Z) (src srcs : option (list Z))
  | EraseBlock (block : Z)
  | MarkBad (block : Z).

(** The status, and what a read delivers. *)
Definition answer : Type := nand_status * option (list Z) * option (list Z).

Definition over (old : list Z) (src : option (list Z)) : bool :=
  match src with Some x => only_clears old x | None => true end.
Definition spare_src (g : geometry) (srcs : option (list Z)) : option (list Z) :=
  if g_spare g =? 0 then None else srcs.
Definition replaced (page : Z) (src : option (list Z)) (f : Z → list Z) : Z → list Z :=
  match src with Some x => <[page := x]> f | None => f end.
Definition in_block (g : geometry) (block page : Z) : bool := page / g_ppb g =? block.

Definition pages_step (g : geometry) (o : nand_op) (s : pages) : answer * pages :=
  match o with
  | ReadPage page wd ws =>
    if g_pages g <=? page then ((NAND_ERR_RANGE, None, None), s)
    else ((NAND_OK, if wd then Some (p_data s page) else None,
           if ws && negb (g_spare g =? 0) then Some (p_spare s page) else None), s)
  | ProgramPage page src srcs =>
    let srcs := spare_src g srcs in
    if g_pages g <=? page then ((NAND_ERR_RANGE, None, None), s)
    else if p_bad s (page / g_ppb g) then ((NAND_ERR_BAD_BLOCK, None, None), s)
    else if over (p_data s page) src && over (p_spare s page) srcs then
      ((NAND_OK, None, None), MkPages (replaced page src (p_data s)) (replaced page srcs (p_spare s)) (p_bad s))
    else ((NAND_ERR_NOT_ERASED, None, None), s)
  | EraseBlock block =>
    if g_blocks g <=? block then ((NAND_ERR_RANGE, None, None), s)
    else if p_bad s block then ((NAND_ERR_BAD_BLOCK, None, None), s)
    else
      let clear k f := fun page => if in_block g block page then replicate (Z.to_nat k) 0xff else f page in
      ((NAND_OK, None, None), MkPages (clear (g_page g) (p_data s)) (clear (g_spare g) (p_spare s)) (p_bad s))
  | MarkBad block => ((NAND_OK, None, None), MkPages (p_data s) (p_spare s) (<[block := true]> (p_bad s)))
  end.

Definition nand_step (o : nand_op) (n : nand) : option (answer * nand) :=
  match o with
  | ReadPage page wd ws => a ← nand_read_page page wd ws n; Some (a, n)
  | ProgramPage page src srcs => '(st, n) ← nand_program_page page src srcs n; Some ((st, None, None), n)
  | EraseBlock block => '(st, n) ← nand_erase_block block n; Some ((st, None, None), n)
  | MarkBad block => n ← nand_mark_bad block n; Some ((NAND_OK, None, None), n)
  end.

Fixpoint nand_run (ops : list nand_op) (n : nand) : option (list answer * nand) :=
  match ops with
  | [] => Some ([], n)
  | o :: ops => '(a, n) ← nand_step o n; '(l, n) ← nand_run ops n; Some (a :: l, n)
  end.
Fixpoint pages_run (g : geometry) (ops : list nand_op) (s : pages) : list answer * pages :=
  match ops with
  | [] => ([], s)
  | o :: ops => let '(a, s) := pages_step g o s in let '(l, s) := pages_run g ops s in (a :: l, s)
  end.

(** ** The device is such a table *)

Definition geom (n : nand) : geometry := MkGeom (page_size n) (spare_size n) (pages_per_block n) (block_count n).
Record geom_ok (g : geometry) : Prop := {
  go_page : 0 < g_page g; go_spare : 0 <= g_spare g; go_ppb : 0 < g_ppb g; go_blocks : 0 < g_blocks g;
  go_pages : uint 32 (g_pages g) }.

(** An array holds [f page], [k] octets of it, for each page. *)
Definition holds (g : geometry) (a : list Z) (k : Z) (f : Z → list Z) : Prop :=
  blen a = g_pages g * k ∧ is_bytes a ∧ ∀ page, 0 <= page < g_pages g → page_of a page k = Some (f page).
Definition array_shows (g : geometry) (arr : option (list Z)) (k : Z) (f : Z → list Z) : Prop :=
  if k =? 0 then arr = None else ∃ a, arr = Some a ∧ holds g a k f.
Definition marks_show (g : geometry) (arr : option (list Z)) (f : Z → bool) : Prop :=
  ∃ b, arr = Some b ∧ blen b = g_blocks g ∧ is_bytes b
       ∧ ∀ k, 0 <= k < g_blocks g → ∃ v, get8 b k = Some v ∧ negb (v =? 0) = f k.
Record shows (g : geometry) (n : nand) (s : pages) : Prop := {
  sh_geom : geom n = g;
  sh_data : array_shows g (data n) (g_page g) (p_data s);
  sh_spare : array_shows g (spare n) (g_spare g) (p_spare s);
  sh_bad : marks_show g (bad n) (p_bad s) }.

Definition src_of (k : Z) (src : option (list Z)) : option (list Z) := if k =? 0 then None else src.
Definition buffer_ok (k : Z) (src : option (list Z)) : Prop :=
  match src with Some x => blen x = k ∧ is_bytes x | None => True end.
Definition op_ok (g : geometry) (o : nand_op) : Prop :=
  match o with
  | ReadPage page _ _ => 0 <= page
  | ProgramPage page src srcs => 0 <= page ∧ buffer_ok (g_page g) src ∧ buffer_ok (g_spare g) srcs
  | EraseBlock block => 0 <= block
  | MarkBad block => 0 <= block
  end.

Lemma page_of_length a page k l : page_of a page k = Some l → 0 <= k → blen l = k.
Proof. intros H Hk. rewrite (get_bytes_length _ _ _ _ H). lia. Qed.

Lemma programs_shows g arr k f page src : array_shows g arr k f → 0 <= page < g_pages g →
  programs arr page k src = Some (over (f page) (src_of k src)).
Proof.
  unfold array_shows, src_of. destruct (k =? 0); [by intros -> _; destruct src|].
  intros (a & -> & _ & _ & H) Hp. unfold programs. destruct src as [x|]; [|done]. by rewrite (H page Hp).
Qed.

Lemma slot_range p q k total : 0 <= k → 0 <= p < total → 0 <= p * k ∧ p * k + k <= total * k
  ∧ (p < q → p * k + k <= q * k).
Proof. intros. split_and!; nia. Qed.

Lemma programmed_shows g arr k f page src : 0 <= k → array_shows g arr k f → 0 <= page < g_pages g →
  buffer_ok k src → over (f page) (src_of k src) = true → ∃ arr',
  programmed arr page k src = Some arr' ∧ array_shows g arr' k (replaced page (src_of k src) f).
Proof.
  intros Hk. unfold array_shows, src_of. destruct (k =? 0); [intros -> _ _ _; by exists None; destruct src|].
  intros (a & -> & Hl & Hb & H) Hp Hs Hov. destruct src as [x|]; [|by exists (Some a); split; [|exists a]].
  destruct Hs as [Hx Bx]. unfold programmed. rewrite (H page Hp). cbn [mbind option_bind].
  pose proof (page_of_length _ _ _ _ (H page Hp) Hk) as Lf.
  rewrite only_clears_land by (done || (unfold blen in *; lia)).
  destruct (slot_range page 0 k (g_pages g) Hk Hp) as (R0 & R1 & _).
  destruct (put_bytes_inside a (page * k) x) as (a' & Ep & La); [done|lia|].
  rewrite Ep. exists (Some a'). split; [done|]. exists a'. split; [done|]. split; [congruence|].
  split; [by apply (put_bytes_bytes a (page * k) x)|]. intros q Hq. unfold replaced, page_of.
  destruct (decide (q = page)) as [->|N].
  - rewrite fn_lookup_insert, <- Hx. rewrite <- Hx in Ep. by apply (put_get_bytes a _ x).
  - rewrite fn_lookup_insert_ne by done. rewrite <- (H q Hq). apply (get_bytes_beside _ _ _ _ _ _ Ep).
    + apply (slot_range q 0 k (g_pages g)); done.
    + rewrite Hx. destruct (slot_range q page k (g_pages g) Hk Hq) as (_ & _ & L1).
      destruct (slot_range page q k (g_pages g) Hk Hp) as (_ & _ & L2). lia.
Qed.

Lemma erased_shows g arr k f block : geom_ok g → 0 <= k → array_shows g arr k f → 0 <= block < g_blocks g → ∃ arr',
  erased arr (block * g_ppb g) (g_ppb g) k = Some arr'
  ∧ array_shows g arr' k (fun page => if in_block g block page then replicate (Z.to_nat k) 0xff else f page).
Proof.
  intros G Hk. unfold array_shows. destruct (k =? 0); [intros -> _; by exists None|].
  intros (a & -> & Hl & Hb & H) Hblk. unfold erased.
  destruct G as [_ _ Gp _ _]. unfold g_pages in *.
  set (ones := replicate (Z.to_nat (g_ppb g * k)) 0xff).
  assert (Lo : blen ones = g_ppb g * k) by (unfold ones, blen; rewrite length_replicate; nia).
  assert (Bo : is_bytes ones) by (apply Forall_replicate; by split).
  assert (R : 0 <= block * g_ppb g * k ∧ block * g_ppb g * k + g_ppb g * k <= g_ppb g * g_blocks g * k) by (split; nia).
  destruct (put_bytes_inside a (block * g_ppb g * k) ones) as (a' & Ep & La); [lia|lia|].
  rewrite Ep. exists (Some a'). split; [done|]. exists a'. split; [done|]. split; [unfold g_pages; congruence|].
  split; [by apply (put_bytes_bytes a (block * g_ppb g * k) ones)|]. intros q Hq. unfold in_block, page_of, g_pages in *.
  assert (D : g_ppb g * (q / g_ppb g) <= q < g_ppb g * (q / g_ppb g) + g_ppb g)
    by (Z.to_euclidean_division_equations; lia).
  destruct (Z.eqb_spec (q / g_ppb g) block) as [E|E].
  - rewrite E in D. rewrite (get_bytes_within _ _ _ _ _ _ Ep) by nia.
    apply get_bytes_replicate; [by split|nia..].
  - rewrite <- (H q Hq). apply (get_bytes_beside _ _ _ _ _ _ Ep); [nia|]. rewrite Lo.
    destruct (Z.ltb_spec (q / g_ppb g) block); [left|right].
    + assert (q + 1 <= block * g_ppb g) by nia. nia.
    + assert (block * g_ppb g + g_ppb g <= q) by nia. nia.
Qed.

Lemma total_pages g n : geom_ok g → geom n = g → nand_total_pages n = g_pages g.
Proof. intros [] <-. by apply w32_small. Qed.

Lemma data_there g n s : geom_ok g → shows g n s → ∃ d, data n = Some d ∧ holds g d (g_page g) (p_data s).
Proof.
  intros [Gp _ _ _ _] S. pose proof (sh_data _ _ _ S) as D. unfold array_shows in D.
  by rewrite (proj2 (Z.eqb_neq (g_page g) 0)) in D by lia.
Qed.

Section steps.
Context (g : geometry) (G : geom_ok g).

Lemma read_page_step page wd ws n s : shows g n s → 0 <= page →
  nand_read_page page wd ws n = Some (fst (pages_step g (ReadPage page wd ws) s)).
Proof.
  intros S Hp. destruct (data_there g n s G S) as (d & Ed & _ & _ & Hd). pose proof (sh_geom _ _ _ S) as Eg.
  unfold nand_read_page, pages_step. rewrite Ed, (total_pages g n G Eg).
  destruct (Z.leb_spec (g_pages g) page) as [|L]; [done|].
  assert (Ps : page_size n = g_page g) by (by rewrite <- Eg). assert (Ss : spare_size n = g_spare g) by (by rewrite <- Eg).
  rewrite Ps, Ss. pose proof (sh_spare _ _ _ S) as Sp. unfold array_shows in Sp.
  destruct (g_spare g =? 0) eqn:Z0.
  - rewrite Sp, andb_false_r. destruct wd; [by rewrite (Hd page)|done].
  - destruct Sp as (a & -> & _ & _ & Ha). rewrite andb_true_r.
    destruct wd, ws; cbn; by rewrite ?(Hd page), ?(Ha page) by done.
Qed.

Lemma program_page_step page src srcs n s : shows g n s → 0 <= page →
  buffer_ok (g_page g) src → buffer_ok (g_spare g) srcs → ∃ n',
  (let '((st, _, _), s') := pages_step g (ProgramPage page src srcs) s in
   nand_program_page page src srcs n = Some (st, n') ∧ shows g n' s').
Proof.
  intros S Hp B1 B2. pose proof (sh_geom _ _ _ S) as Eg. pose proof (sh_data _ _ _ S) as Sd.
  pose proof (sh_spare _ _ _ S) as Ss. destruct (sh_bad _ _ _ S) as (b & Eb & Lb & Bb & Hb).
  destruct (data_there g n s G S) as (d & Ed & _).
  unfold nand_program_page, pages_step. rewrite Ed, Eb, (total_pages g n G Eg). rewrite <- Ed.
  destruct (Z.leb_spec (g_pages g) page) as [|L]; [by exists n|].
  assert (Ep : page_size n = g_page g ∧ spare_size n = g_spare g ∧ pages_per_block n = g_ppb g)
    by (by rewrite <- Eg). destruct Ep as (-> & -> & ->).
  destruct (Hb (page / g_ppb g)) as (v & Ev & Hv).
  { destruct G as [_ _ Gp _ _]. unfold g_pages in L. split; [by apply Z.div_pos|].
    apply Z.div_lt_upper_bound; lia. }
  rewrite Ev. cbn [mbind option_bind]. rewrite Hv. destruct (p_bad s _); [by exists n|].
  rewrite (programs_shows g _ _ _ page src Sd), (programs_shows g _ _ _ page srcs Ss) by done.
  cbn [mbind option_bind]. unfold src_of at 1. rewrite (proj2 (Z.eqb_neq (g_page g) 0)) by (destruct G; lia).
  change (spare_src g srcs) with (src_of (g_spare g) srcs).
  destruct (over (p_data s page) src) eqn:O1; cbn [negb andb]; [|by exists n].
  destruct (over (p_spare s page) _) eqn:O2; cbn [negb]; [|by exists n].
  assert (Gn : 0 <= g_page g ∧ 0 <= g_spare g) by (destruct G; lia). destruct Gn as [Gn1 Gn2].
  assert (E1 : src_of (g_page g) src = src)
    by (unfold src_of; by rewrite (proj2 (Z.eqb_neq (g_page g) 0)) by (destruct G; lia)).
  destruct (programmed_shows g _ _ _ page src Gn1 Sd (conj Hp L) B1) as (d' & -> & Sd'); [by rewrite E1|].
  destruct (programmed_shows g _ _ _ page srcs Gn2 Ss (conj Hp L) B2 O2) as (s' & -> & Ss').
  cbn [mbind option_bind]. eexists. split; [done|]. rewrite E1 in Sd'. split; simpl; [|done..|].
  - by rewrite <- Eg.
  - by exists b.
Qed.

Lemma erase_block_step block n s : shows g n s → 0 <= block → ∃ n',
  (let '((st, _, _), s') := pages_step g (EraseBlock block) s in
   nand_erase_block block n = Some (st, n') ∧ shows g n' s').
Proof.
  intros S Hp. pose proof (sh_geom _ _ _ S) as Eg. pose proof (sh_data _ _ _ S) as Sd.
  pose proof (sh_spare _ _ _ S) as Ss. destruct (sh_bad _ _ _ S) as (b & Eb & Lb & Bb & Hb).
  destruct (data_there g n s G S) as (d & Ed & _).
  unfold nand_erase_block, pages_step. rewrite Ed, Eb. rewrite <- Ed.
  assert (Ep : page_size n = g_page g ∧ spare_size n = g_spare g ∧ pages_per_block n = g_ppb g ∧ block_count n = g_blocks g)
    by (by rewrite <- Eg). destruct Ep as (-> & -> & -> & ->).
  destruct (Z.leb_spec (g_blocks g) block) as [|L]; [by exists n|].
  destruct (Hb block (conj Hp L)) as (v & Ev & Hv). rewrite Ev. cbn [mbind option_bind]. rewrite Hv.
  destruct (p_bad s _); [by exists n|]. cbn [negb]. cbv zeta.
  assert (Gn : 0 <= g_page g ∧ 0 <= g_spare g) by (destruct G; lia). destruct Gn as [Gn1 Gn2].
  destruct (erased_shows g _ _ _ block G Gn1 Sd (conj Hp L)) as (d' & -> & Sd').
  destruct (erased_shows g _ _ _ block G Gn2 Ss (conj Hp L)) as (s' & -> & Ss').
  cbn [mbind option_bind]. eexists. split; [done|]. split; simpl; [by rewrite <- Eg|done|done|].
  by exists b.
Qed.

Lemma mark_bad_step block n s : shows g n s → 0 <= block → ∃ n',
  nand_mark_bad block n = Some n' ∧ shows g n' (snd (pages_step g (MarkBad block) s)).
Proof.
  intros S Hp. pose proof (sh_geom _ _ _ S) as Eg. destruct (sh_bad _ _ _ S) as (b & Eb & Lb & Bb & Hb).
  unfold nand_mark_bad. rewrite Eb. assert (Ec : block_count n = g_blocks g) by (by rewrite <- Eg). rewrite Ec.
  destruct (Z.leb_spec (g_blocks g) block) as [L|L].
  - exists n. split; [done|]. destruct S. split; try done. exists b. split_and!; try done. intros k Hk.
    simpl. rewrite fn_lookup_insert_ne by lia. by apply Hb.
  - destruct (put_bytes_inside b block [1]) as (b' & Ep & Lp); [done|simpl; unfold blen in *; simpl; lia|].
    rewrite Ep. cbn [mbind option_bind]. eexists. split; [done|]. destruct S. split; simpl; [by rewrite <- Eg|done|done|].
    exists b'. split; [done|]. split; [congruence|].
    split; [apply (put_bytes_bytes b block [1]); [done|done|]; by apply Forall_cons_2; [|apply Forall_nil_2]|].
    intros k Hk. rewrite (get8_put _ _ _ _ _ Ep) by lia. change (blen [1]) with 1.
    destruct (decide (k = block)) as [->|N].
    + rewrite fn_lookup_insert, (proj2 (Z.leb_le _ _)), (proj2 (Z.ltb_lt _ _)), Z.sub_diag by lia. by exists 1.
    + rewrite fn_lookup_insert_ne by done.
      destruct (Z.leb_spec block k), (Z.ltb_spec k (block + 1)); try lia; by apply Hb.
Qed.

Lemma nand_step_shows o n s : shows g n s → op_ok g o → ∃ n',
  nand_step o n = Some (fst (pages_step g o s), n') ∧ shows g n' (snd (pages_step g o s)).
Proof.
  intros S Ho. destruct o as [page wd ws|page src srcs|block|block].
  - exists n. unfold nand_step. rewrite (read_page_step page wd ws n s S Ho). split; [done|].
    simpl. by destruct (g_pages g <=? page).
  - destruct Ho as (Hp & B1 & B2). destruct (program_page_step page src srcs n s S Hp B1 B2) as (n' & H).
    exists n'. unfold nand_step.
    assert (N : snd (fst (fst (pages_step g (ProgramPage page src srcs) s))) = None
                ∧ snd (fst (pages_step g (ProgramPage page src srcs) s)) = None)
      by (simpl; by repeat case_match). revert H N.
    destruct (pages_step g (ProgramPage page src srcs) s) as [[[st x] y] s']. simpl. intros [-> S'] [-> ->]. by split.
  - destruct (erase_block_step block n s S Ho) as (n' & H). exists n'. unfold nand_step.
    assert (N : snd (fst (fst (pages_step g (EraseBlock block) s))) = None
                ∧ snd (fst (pages_step g (EraseBlock block) s)) = None)
      by (simpl; by repeat case_match). revert H N.
    destruct (pages_step g (EraseBlock block) s) as [[[st x] y] s']. simpl. intros [-> S'] [-> ->]. by split.
  - destruct (mark_bad_step block n s S Ho) as (n' & E & S'). exists n'. unfold nand_step. rewrite E. by split.
Qed.

Lemma nand_run_shows ops : ∀ n s, shows g n s → Forall (op_ok g) ops → ∃ n',
  nand_run ops n = Some (fst (pages_run g ops s), n') ∧ shows g n' (snd (pages_run g ops s)).
Proof.
  induction ops as [|o ops IH]; intros n s S Ho; [by exists n|]. apply Forall_cons_1 in Ho as [Ho Hops].
  destruct (nand_step_shows o n s S Ho) as (n1 & E1 & S1). simpl. rewrite E1.
  destruct (pages_step g o s) as [a s1]. simpl in *. destruct (IH n1 s1 S1 Hops) as (n2 & E2 & S2).
  rewrite E2. destruct (pages_run g ops s1) as [l s2]. by exists n2.
Qed.

(** A device just made: all pages erased, no block bad. *)
Definition blank : pages :=
  MkPages (fun _ => replicate (Z.to_nat (g_page g)) 0xff) (fun _ => replicate (Z.to_nat (g_spare g)) 0xff) (fun _ => false).

Lemma erased_array k : 0 < k → holds g (replicate (Z.to_nat (g_pages g * k)) 0xff) k (fun _ => replicate (Z.to_nat k) 0xff).
Proof.
  intros Hk. destruct G as [_ _ _ _ [Hp _]]. split; [unfold blen; rewrite length_replicate; nia|].
  split; [apply Forall_replicate; by split|]. intros page Hpage. unfold page_of.
  apply get_bytes_replicate; [by split|nia..].
Qed.

Lemma nand_init_shows mem_data mem_spare mem_bad :
  g_pages g * g_page g < 2 ^ 64 → g_pages g * g_spare g < 2 ^ 64 → uint 32 (g_blocks g) →
  mem_data = true → mem_spare = true → mem_bad = true → ∃ n,
  nand_init (g_page g) (g_spare g) (g_ppb g) (g_blocks g) mem_data mem_spare mem_bad = (true, n) ∧ shows g n blank.
Proof.
  intros Hd Hs Hb -> -> ->. pose proof G as [Gp Gs Gb Gk [Hp Hp']]. unfold nand_init.
  rewrite !(proj2 (Z.eqb_neq _ 0)) by lia. cbn [orb].
  assert (W : ∀ x, 0 <= x < 2 ^ 64 → w64 x = x) by (intros x Hx; by apply wrap_small).
  change (g_ppb g * g_blocks g) with (g_pages g). rewrite (W (g_pages g)) by lia.
  rewrite (W (g_pages g * g_page g)), (W (g_pages g * g_spare g)) by nia.
  rewrite !(proj2 (Z.ltb_ge _ _)) by (unfold SIZE_MAX; lia). cbn [orb negb andb]. rewrite andb_false_r.
  eexists. split; [done|]. split; [by destruct g|..]; simpl.
  - unfold array_shows. rewrite (proj2 (Z.eqb_neq (g_page g) 0)) by lia. eexists. split; [done|]. by apply erased_array.
  - unfold array_shows. rewrite orb_false_r. destruct (Z.eqb_spec (g_spare g) 0); [done|].
    eexists. split; [done|]. apply erased_array. lia.
  - eexists. split; [done|]. split; [unfold blen; rewrite length_replicate; lia|].
    split; [apply Forall_replicate; by split|]. intros k Hk. exists 0. split; [|done].
    unfold get8. by rewrite (proj2 (Z.ltb_ge _ _)), lookup_replicate_2 by lia.
Qed.
End steps.

(** C20: a NAND device behaves as a table of pages for every sequence of reads, programs,
    erases and bad-block marks, errors included: a read gives the page it names and only
    that one is programmed, a program that would set a bit is refused and changes nothing,
    an erase clears exactly the pages of its block, a bad block refuses both, and no
    access leaves the three arrays. *)
Theorem nand_refines_pages (g : geometry) (ops : list nand_op) : geom_ok g →
  g_pages g * g_page g < 2 ^ 64 → g_pages g * g_spare g < 2 ^ 64 → uint 32 (g_blocks g) →
  Forall (op_ok g) ops → ∃ n n',
  nand_init (g_page g) (g_spare g) (g_ppb g) (g_blocks g) true true true = (true, n)
  ∧ nand_run ops n = Some (fst (pages_run g ops (blank g)), n') ∧ shows g n' (snd (pages_run g ops (blank g))).
Proof.
  intros G Hd Hs Hb Ho. destruct (nand_init_shows g G true true true) as (n & E & S); [done..|].
  destruct (nand_run_shows g G ops n (blank g) S Ho) as (n' & E' & S'). exists n, n'. by split_and!.
Qed.

Definition demo_geom : geometry := MkGeom 4 2 2 3.
Definition demo_ops : list nand_op :=
  [ProgramPage 3 (Some [1; 2; 3; 4]) (Some [5; 6]); ProgramPage 3 (Some [9; 2; 3; 4]) None; ReadPage 3 true true;
   EraseBlock 0; ReadPage 3 true false; EraseBlock 1; ReadPage 3 true true; MarkBad 1; ProgramPage 2 None None;
   ReadPage 6 true true].

Lemma nand_refines_pages_witness : geom_ok demo_geom ∧ ∃ n n',
  nand_init 4 2 2 3 true true true = (true, n)
  ∧ nand_run demo_ops n = Some
      ([(NAND_OK, None, None); (NAND_ERR_NOT_ERASED, None, None); (NAND_OK, Some [1; 2; 3; 4], Some [5; 6]);
        (NAND_OK, None, None); (NAND_OK, Some [1; 2; 3; 4], None); (NAND_OK, None, None);
        (NAND_OK, Some [255; 255; 255; 255], Some [255; 255]); (NAND_OK, None, None);
        (NAND_ERR_BAD_BLOCK, None, None); (NAND_ERR_RANGE, None, None)], n').
Proof.
  assert (G : geom_ok demo_geom) by (split; done). split; [exact G|].
  destruct (nand_refines_pages demo_geom demo_ops G) as (n & n' & E & R & _); [done|done|done| |].
  - unfold demo_ops. repeat apply Forall_cons_2; try apply Forall_nil_2; simpl; split_and?; try done; by_computation.
  - exists n, n'. split; [exact E|exact R].
Defined.
