(* ===== verification/Nor.v ===== *)
(** * The NOR flash

    [core/src/soc/nor.c].  The array is a list of octets, [None] for a handle without one;
    a result of [None] is an access outside the array or a scan that did not end.  The
    directory holds the entries the code counts.  Memory for the array is a parameter of
    [s5l_nor_init]. *)

From Stdlib Require Import Sorted.
From S2P Require Import Prelude Bits Bytes.

Definition IMG3_DISK_MAGIC := 0x496d6733.
Definition IMG3_HEADER := 20.
Definition S5L_NOR_MAX_IMAGES := 16.
Definition S5L8900_NOR_SECTOR := 0x1000.

Record s5l_nor_entry := MkEntry { ident : Z; offset : Z; esize : Z }.
Record s5l_nor := MkNor { data : option (list Z); size : Z; images : list s5l_nor_entry }.

Definition s5l_nor_init (sz : Z) (memory : bool) (n : s5l_nor) : bool * s5l_nor :=
  if sz =? 0 then (false, n)
  else if memory then (true, MkNor (Some (replicate (Z.to_nat sz) 0xff)) sz [])
  else (false, MkNor None 0 []).

Definition s5l_nor_free (n : s5l_nor) : s5l_nor := MkNor None 0 [].

Definition access_width (bytes : Z) : bool := (bytes =? 1) || (bytes =? 2) || (bytes =? 4).

(** The word a little-endian host makes of bytes. *)
Definition le_value (l : list Z) : Z := foldr (fun v acc => v .| Z.shiftl acc 8) 0 l.

Definition s5l_nor_read (off bytes : Z) (n : s5l_nor) : option Z :=
  if negb (access_width bytes) then Some 0
  else
    match data n with
    | None => Some 0
    | Some b => if size n <? off + bytes then Some 0 else l ← get_bytes b off bytes; Some (le_value l)
    end.

Definition s5l_nor_program (off : Z) (src : list Z) (n : s5l_nor) : option s5l_nor :=
  match data n with
  | None => Some n
  | Some b =>
    if (blen src =? 0) || (size n <? blen src) then Some n
    else if size n <? off + blen src then Some n
    else b ← put_bytes b off src; Some (MkNor (Some b) (size n) (images n))
  end.

Fixpoint scan_loop (turns : nat) (b : list Z) (sz off : Z) (found : list s5l_nor_entry)
    : option (list s5l_nor_entry) :=
  match turns with
  | O => None
  | S turns =>
    if sz <? off + IMG3_HEADER then Some found else
    m ← rd32 b off;
    if negb (m =? IMG3_DISK_MAGIC) then scan_loop turns b sz (off +w 4) found else
    full ← rd32 b (off + 4); id ← rd32 b (off + 16);
    if (full <? IMG3_HEADER) || (sz <? off + full) then scan_loop turns b sz (off +w 4) found else
    let found := found ++ [MkEntry id off full] in
    if Z.of_nat (length found) =? S5L_NOR_MAX_IMAGES then Some found else
    let next := w32 ((off + full + 3) .& Z.lnot 3) in
    if next <=? off then Some found else scan_loop turns b sz next found
  end.

Definition s5l_nor_scan (n : s5l_nor) : option (Z * s5l_nor) :=
  let n := MkNor (data n) (size n) [] in
  match data n with
  | None => Some (0, n)
  | Some b =>
    if size n <? IMG3_HEADER then Some (0, n)
    else
      found ← scan_loop (S (length b)) b (size n) 0 [];
      Some (Z.of_nat (length found), MkNor (data n) (size n) found)
  end.

Definition s5l_nor_find (id : Z) (n : s5l_nor) : option s5l_nor_entry :=
  match data n with
  | None => None
  | Some _ =>
    find (fun e => (ident e =? id) && (20 <=? esize e) && (offset e + esize e <=? size n)) (images n)
  end.

Definition wanted (val bytes : Z) : list Z := map (fun i => w8 (val .>> (8 * i))) (seqZ 0 bytes).

Definition s5l_nor_write (off val bytes : Z) (n : s5l_nor) : option (bool * s5l_nor) :=
  match data n with
  | None => Some (false, n)
  | Some b =>
    if negb (access_width bytes) then Some (false, n)
    else if size n <? off + bytes then Some (false, n)
    else
      old ← get_bytes b off bytes;
      if only_clears old (wanted val bytes) then
        b ← put_bytes b off (zip_with Z.land old (wanted val bytes));
        Some (true, MkNor (Some b) (size n) (images n))
      else Some (false, n)
  end.

Definition s5l_nor_erase_sector (off : Z) (n : s5l_nor) : option (bool * s5l_nor) :=
  match data n with
  | None => Some (false, n)
  | Some b =>
    let base := off .& wnot (S5L8900_NOR_SECTOR - 1) in
    if size n <? base + S5L8900_NOR_SECTOR then Some (false, n)
    else
      b ← put_bytes b base (replicate (Z.to_nat S5L8900_NOR_SECTOR) 0xff);
      Some (true, MkNor (Some b) (size n) (images n))
  end.

(** ** The directory *)

(** An array of the size it is said to have. *)
Definition nor_ok (n : s5l_nor) : Prop :=
  uint 32 (size n) ∧ match data n with Some b => blen b = size n ∧ is_bytes b | None => True end.

(** [e] is a container of [b]: a header on the word grid that fits. *)
Definition container (b : list Z) (e : s5l_nor_entry) : Prop :=
  0 <= offset e ∧ offset e mod 4 = 0 ∧ IMG3_HEADER <= esize e ∧ offset e + esize e <= blen b
  ∧ rd32 b (offset e) = Some IMG3_DISK_MAGIC ∧ rd32 b (offset e + 4) = Some (esize e)
  ∧ rd32 b (offset e + 16) = Some (ident e).

(** The end of a container, on the grid. *)
Definition end_of (e : s5l_nor_entry) : Z := (offset e + esize e + 3) / 4 * 4.

(** Containers in order, none inside another, and none left out before [off]. *)
Record directory (b : list Z) (off : Z) (l : list s5l_nor_entry) : Prop := {
  dir_containers : Forall (container b) l;
  dir_ordered : StronglySorted (fun e f => end_of e <= offset f) l;
  dir_before : Forall (fun e => end_of e <= off) l;
  dir_complete e : container b e → offset e < off → ∃ f, f ∈ l ∧ offset f <= offset e < end_of f }.

Lemma next_word x : (x + 3) .& Z.lnot 3 = (x + 3) / 4 * 4.
Proof.
  rewrite <- Z.ldiff_land. change 3 with (Z.ones 2) at 2. rewrite Z.ldiff_ones_r by lia.
  by rewrite Z.shiftr_div_pow2, Z.shiftl_mul_pow2 by lia.
Qed.

Lemma container_end b e : container b e → offset e + 20 <= end_of e ∧ end_of e mod 4 = 0 ∧ end_of e <= blen b + 3.
Proof.
  intros (H0 & Hm & Hs & Hf & _). unfold end_of, IMG3_HEADER in *. Z.to_euclidean_division_equations. lia.
Qed.

Lemma directory_skip b off l : directory b off l → off mod 4 = 0 →
  (∀ e, container b e → offset e ≠ off) → directory b (off + 4) l.
Proof.
  intros [Hc Ho Hb Hk] Hm Hn. split; try done.
  - eapply Forall_impl; [|exact Hb]. simpl. intros e He. lia.
  - intros e He Hlt. apply Hk; [done|]. pose proof (Hn e He). destruct He as (H0 & Hm' & _).
    Z.to_euclidean_division_equations. lia.
Qed.

Lemma directory_add b e l : directory b (offset e) l → container b e → directory b (end_of e) (l ++ [e]).
Proof.
  intros [Hc Ho Hb Hk] He. destruct (container_end b e He) as (Hend & _). split.
  - apply Forall_app. split; [done|]. by apply Forall_cons_2; [|apply Forall_nil_2].
  - clear Hc Hk. induction Ho as [|f l Hs IH Hf]; simpl; [by repeat constructor|].
    apply Forall_cons_1 in Hb as [Hbf Hb]. constructor; [by apply IH|].
    apply Forall_app. split; [done|]. by apply Forall_cons_2; [|apply Forall_nil_2].
  - apply Forall_app. split; [|apply Forall_cons_2; [lia|apply Forall_nil_2]].
    eapply Forall_impl; [|exact Hb]. simpl. intros f Hf. lia.
  - intros f Hf Hlt. destruct (Z.ltb_spec (offset f) (offset e)) as [E|E].
    + destruct (Hk f Hf E) as (g & Hg & Hr). exists g. split; [|done]. apply elem_of_app. by left.
    + exists e. split; [apply elem_of_app; right; by apply list_elem_of_singleton|lia].
Qed.

Lemma directory_end b off l : directory b off l → blen b < off + IMG3_HEADER →
  ∀ e, container b e → ∃ f, f ∈ l ∧ offset f <= offset e < end_of f.
Proof.
  intros D Hoff e He. apply (dir_complete _ _ _ D); [done|].
  destruct He as (_ & _ & Hs & Hf & _). lia.
Qed.

(** What the scan returns: a directory, complete unless it is full. *)
Definition scanned (b : list Z) (l : list s5l_nor_entry) : Prop :=
  Z.of_nat (length l) <= S5L_NOR_MAX_IMAGES ∧ Forall (container b) l
  ∧ StronglySorted (fun e f => end_of e <= offset f) l
  ∧ (Z.of_nat (length l) < S5L_NOR_MAX_IMAGES →
     ∀ e, container b e → ∃ f, f ∈ l ∧ offset f <= offset e < end_of f).

Lemma scan_loop_directory b turns : ∀ off found,
  0 <= off → off mod 4 = 0 → blen b < 2 ^ 32 → off <= blen b + 3 → blen b + 4 - off <= 4 * Z.of_nat turns →
  Z.of_nat (length found) < S5L_NOR_MAX_IMAGES → directory b off found →
  returns (scanned b) (scan_loop turns b (blen b) off found).
Proof.
  induction turns as [|turns IH]; intros off found H0 Hm Hb Hu Ht Hn D; [lia|]. cbn [scan_loop].
  destruct (Z.ltb_spec (blen b) (off + IMG3_HEADER)) as [E|E].
  { apply returns_ret. split; [lia|]. split; [apply D|]. split; [apply D|]. intros _. by apply (directory_end b off). }
  unfold IMG3_HEADER in E.
  assert (W4 : off +w 4 = off + 4) by (apply w32_small; unfold uint; lia).
  assert (Skip : (∀ e, container b e → offset e ≠ off) →
    returns (scanned b) (scan_loop turns b (blen b) (off +w 4) found)).
  { intros Hno. rewrite W4. apply IH; [lia| |lia|lia|lia|done|by apply directory_skip].
    rewrite <- Hm. by rewrite (Z.add_mod off 4), Z.mod_same, Z.add_0_r, Z.mod_mod by lia. }
  destruct (rd32_inside b off) as (m & Em & _); [lia..|]. rewrite Em. cbn [mbind option_bind].
  destruct (Z.eqb_spec m IMG3_DISK_MAGIC) as [->|Nm]; cbn [negb].
  2:{ apply Skip. intros e (_ & _ & _ & _ & Hmag & _) Ho. rewrite Ho, Em in Hmag. simplify_eq. }
  destruct (rd32_inside b (off + 4)) as (full & Ef & Uf); [lia..|]. rewrite Ef. cbn [mbind option_bind].
  destruct (rd32_inside b (off + 16)) as (id & Ei & _); [lia..|]. rewrite Ei. cbn [mbind option_bind].
  destruct ((full <? IMG3_HEADER) || (blen b <? off + full)) eqn:Bad.
  { apply Skip. intros e (_ & _ & Hs & Hf & _ & Hfull & _) Ho. rewrite Ho, Ef in Hfull. simplify_eq.
    rewrite orb_true_iff, !Z.ltb_lt in Bad. lia. }
  rewrite orb_false_iff, !Z.ltb_ge in Bad. destruct Bad as [Hs Hf]. cbv zeta.
  set (e := MkEntry id off full). assert (He : container b e) by (unfold container; simpl; auto 10).
  pose proof (directory_add b e found D He) as D'. rewrite length_app. simpl length.
  destruct (container_end b e He) as (Hend & Hend4 & Hendb).
  destruct (Z.eqb_spec (Z.of_nat (length found + 1)) S5L_NOR_MAX_IMAGES) as [F|F].
  { apply returns_ret. split; [rewrite length_app; simpl; lia|]. split; [apply D'|]. split; [apply D'|].
    rewrite length_app. simpl. lia. }
  rewrite next_word. change ((off + full + 3) / 4 * 4) with (end_of e).
  assert (Stop : blen b < end_of e + IMG3_HEADER → scanned b (found ++ [e])).
  { intros Hstop. split; [rewrite length_app; simpl; lia|]. split; [apply D'|]. split; [apply D'|].
    intros _. by apply (directory_end b (end_of e)). }
  change (offset e) with off in Hend.
  destruct (Z.ltb_spec (end_of e) (2 ^ 32)) as [G|G].
  - assert (W : w32 (end_of e) = end_of e) by (apply w32_small; unfold uint; lia). rewrite W.
    rewrite (proj2 (Z.leb_gt _ _)) by lia.
    apply IH; try lia; [rewrite length_app; simpl; lia|done].
  - assert (W : w32 (end_of e) = 0) by (unfold w32, wrap; Z.to_euclidean_division_equations; lia).
    rewrite W, (proj2 (Z.leb_le 0 off)) by done. apply returns_ret, Stop. unfold IMG3_HEADER. lia.
Qed.

(** scanning ends, inside the array, for any contents.  The directory it leaves holds
    containers that are on the word grid and fit, in flash order and none inside another;
    unless it is full, every container of the array is in it or starts inside one that is.
    Finding a name then gives the first entry that has it. *)
Theorem nor_directory_exact (n : s5l_nor) : nor_ok n → ∃ n',
  s5l_nor_scan n = Some (Z.of_nat (length (images n')), n') ∧ data n' = data n ∧ size n' = size n
  ∧ match data n with Some b => scanned b (images n') | None => images n' = [] end
  ∧ ∀ id, s5l_nor_find id n' = find (fun e => ident e =? id) (images n').
Proof.
  intros [Hs Hd]. unfold s5l_nor_scan. destruct (data n) as [b|] eqn:E.
  2:{ by exists (MkNor None (size n) []). }
  destruct Hd as [Hb _]. simpl. rewrite <- Hb.
  assert (R : returns (scanned b) (if blen b <? IMG3_HEADER then Some [] else scan_loop (S (length b)) b (blen b) 0 [])).
  { assert (D : directory b 0 []) by (split; try constructor; intros e (He & _); lia).
    destruct (Z.ltb_spec (blen b) IMG3_HEADER) as [S|S].
    - apply returns_ret. split; [done|]. split; [constructor|]. split; [constructor|].
      intros _ e (H0 & _ & He & Hf & _). unfold IMG3_HEADER in *. lia.
    - apply scan_loop_directory; try done; rewrite ?Hb; try (unfold uint in Hs; lia).
      unfold blen in *. lia. }
  destruct R as (l & El & Hl).
  assert (Es : (if blen b <? IMG3_HEADER then Some (0, MkNor (Some b) (blen b) [])
                else found ← scan_loop (S (length b)) b (blen b) 0 [];
                     Some (Z.of_nat (length found), MkNor (Some b) (blen b) found))
               = Some (Z.of_nat (length l), MkNor (Some b) (blen b) l)).
  { destruct (blen b <? IMG3_HEADER); [by injection El as <-|]. by rewrite El. }
  exists (MkNor (Some b) (blen b) l). split; [exact Es|]. split_and!; [done..|].
  intros id. unfold s5l_nor_find. cbn [data images size]. clear El Es. destruct Hl as (_ & Hc & _).
  induction Hc as [|e l He Hc IH]; simpl; [done|]. destruct He as (_ & _ & H1 & H2 & _).
  unfold IMG3_HEADER in H1. rewrite (proj2 (Z.leb_le 20 _)), (proj2 (Z.leb_le _ (blen b))) by lia.
  rewrite !andb_true_r. destruct (_ =? id); [done|]. exact IH.
Qed.

(** ** Erasing and programming *)

Lemma get8_out_of_put dst off src l x : put_bytes dst off src = Some l → x < off ∨ off + blen src <= x →
  get8 l x = get8 dst x.
Proof.
  intros Hp Hx. destruct (Z.ltb_spec x 0) as [N|N]; [unfold get8; by rewrite (proj2 (Z.ltb_lt x 0))|].
  rewrite (get8_put _ _ _ _ _ Hp) by done.
  destruct (Z.leb_spec off x), (Z.ltb_spec x (off + blen src)); done || lia.
Qed.

(** *** Words as little-endian bytes *)

Lemma le_value_cons v l : uint 8 v → le_value (v :: l) = v + 256 * le_value l.
Proof. intros Hv. simpl. rewrite Z.lor_comm, lor_shift_add by (done || lia). lia. Qed.

Lemma le_value_inj a : ∀ b, is_bytes a → is_bytes b → length a = length b → le_value a = le_value b → a = b.
Proof.
  induction a as [|v a IH]; intros [|w b] Ha Hb Hl E; try done.
  apply Forall_cons_1 in Ha as [Hv Ha]. apply Forall_cons_1 in Hb as [Hw Hb].
  rewrite !le_value_cons in E by done. unfold uint in Hv, Hw.
  assert (v = w) by lia. subst. f_equal. apply IH; try done; [by injection Hl|lia].
Qed.

Lemma le_value_land a : ∀ b, is_bytes a → is_bytes b → length a = length b →
  le_value (zip_with Z.land a b) = le_value a .& le_value b.
Proof.
  induction a as [|v a IH]; intros [|w b] Ha Hb Hl; try done.
  apply Forall_cons_1 in Ha as [Hv Ha]. apply Forall_cons_1 in Hb as [Hw Hb]. injection Hl as Hl.
  simpl. rewrite IH by done. apply Z.bits_inj'. intros i Hi.
  rewrite !Z.land_spec, !Z.lor_spec, !Z.shiftl_spec, !Z.land_spec by done.
  destruct (Z.ltb_spec i 8) as [E|E].
  - rewrite !(Z.testbit_neg_r _ (i - 8)) by lia. by rewrite !orb_false_r.
  - rewrite (uint_high 8 v i), (uint_high 8 w i) by (done || lia). by simpl.
Qed.

Lemma wanted_value val bytes : access_width bytes = true →
  le_value (wanted val bytes) = val mod 2 ^ (8 * bytes) ∧ is_bytes (wanted val bytes)
  ∧ blen (wanted val bytes) = bytes.
Proof.
  intros Hw. assert (Hb : is_bytes (wanted val bytes)).
  { apply Forall_map, Forall_forall. intros i _. apply uint_w8. }
  unfold access_width in Hw. rewrite !orb_true_iff, !Z.eqb_eq in Hw.
  destruct Hw as [[->| ->]| ->]; (split; [|by split]); unfold wanted in *;
    [change (seqZ 0 1) with [0] in *|change (seqZ 0 2) with [0; 1] in *|change (seqZ 0 4) with [0; 1; 2; 3] in *];
    cbn [map] in *; repeat (apply Forall_cons_1 in Hb as [? Hb]); rewrite !le_value_cons by done;
    unfold w8, wrap; rewrite !Z.shiftr_div_pow2 by lia; simpl; Z.to_euclidean_division_equations; lia.
Qed.

(** *** A store *)

Definition holds_value (n : s5l_nor) (off bytes v : Z) : Prop := s5l_nor_read off bytes n = Some v.

Lemma only_clears_value old w : is_bytes old → is_bytes w → length old = length w →
  only_clears old w = (le_value old .& le_value w =? le_value w).
Proof.
  intros Ho Hw Hl. rewrite <- le_value_land by done.
  assert (E : only_clears old w = bool_decide (zip_with Z.land old w = w)).
  { unfold only_clears. clear Ho Hw. revert w Hl; induction old as [|o old IH]; intros [|v w] Hl; try done. simpl.
    rewrite IH by (by injection Hl). destruct (Z.eqb_spec (o .& v) v) as [->|N]; simpl.
    - apply bool_decide_ext. split; [by intros ->|by intros [=]].
    - symmetry. apply bool_decide_eq_false_2. by intros [=]. }
  rewrite E. destruct (Z.eqb_spec (le_value (zip_with Z.land old w)) (le_value w)) as [F|F].
  - apply bool_decide_eq_true_2. apply le_value_inj; try done; [|rewrite length_zip_with; lia].
    apply Forall_lookup. intros i x Hx. rewrite lookup_zip_with in Hx.
    destruct (old !! i) as [o|] eqn:Eo; [|done]. destruct (w !! i) as [v|] eqn:Ev; [|done]. simplify_eq/=.
    apply uint_land_r; [lia|]. by apply (Forall_lookup_1 _ _ _ _ Hw Ev).
  - apply bool_decide_eq_false_2. intros Hz. by rewrite Hz in F.
Qed.

Lemma access_width_range bytes : access_width bytes = true → 1 <= bytes <= 4.
Proof. unfold access_width. rewrite !orb_true_iff, !Z.eqb_eq. lia. Qed.

Lemma nor_write_spec n b off val bytes : nor_ok n → data n = Some b → access_width bytes = true →
  0 <= off → off + bytes <= size n → ∃ v ok n',
  holds_value n off bytes v ∧ s5l_nor_write off val bytes n = Some (ok, n')
  ∧ ok = (v .& (val mod 2 ^ (8 * bytes)) =? val mod 2 ^ (8 * bytes))
  ∧ (if ok then holds_value n' off bytes (val mod 2 ^ (8 * bytes)) else n' = n)
  ∧ nor_ok n' ∧ size n' = size n ∧ images n' = images n
  ∧ ∃ b', data n' = Some b' ∧ ∀ x, x < off ∨ off + bytes <= x → get8 b' x = get8 b x.
Proof.
  intros [Hs Hd] Eb Hw H0 Hf. rewrite Eb in Hd. destruct Hd as [Hl Hb].
  pose proof (access_width_range _ Hw) as Hr. destruct (wanted_value val bytes Hw) as (Wv & Wb & Wl).
  destruct (get_bytes_inside b off bytes) as (old & Eo & Lo & Bo); [lia..|].
  assert (Elen : length old = length (wanted val bytes)) by (unfold blen in *; lia).
  unfold holds_value, s5l_nor_read, s5l_nor_write. rewrite Hw, Eb, (proj2 (Z.ltb_ge _ _)) by lia. cbn [negb].
  rewrite Eo. cbn [mbind option_bind]. rewrite only_clears_value, Wv by done. exists (le_value old).
  destruct (Z.eqb_spec (le_value old .& (val mod 2 ^ (8 * bytes))) (val mod 2 ^ (8 * bytes))) as [E|E].
  2:{ exists false, n. split_and!; try done; [by split; [|rewrite Eb]|]. by exists b. }
  assert (Ez : zip_with Z.land old (wanted val bytes) = wanted val bytes).
  { apply only_clears_land; [done|]. rewrite only_clears_value, Wv by done. by apply Z.eqb_eq. }
  rewrite Ez. destruct (put_bytes_inside b off (wanted val bytes)) as (b' & Ep & Lp); [lia..|].
  rewrite Ep. cbn [mbind option_bind]. eexists true, _. split; [done|]. split; [done|]. split; [done|].
  cbn [data size images]. rewrite (proj2 (Z.ltb_ge _ _)) by lia.
  pose proof (put_get_bytes _ _ _ _ Ep Wb) as G. rewrite Wl in G. rewrite G. simpl. rewrite Wv.
  split; [done|]. split; [split; [done|]; simpl; split; [congruence|]|].
  - by apply (put_bytes_bytes b off (wanted val bytes)).
  - split_and!; try done. exists b'. split; [done|]. intros x Hx. apply (get8_out_of_put _ _ _ _ _ Ep). by rewrite Wl.
Qed.

(** *** Erase *)

Definition sector_of (off : Z) : Z := off / S5L8900_NOR_SECTOR * S5L8900_NOR_SECTOR.

Lemma sector_mask off : uint 32 off → off .& wnot (S5L8900_NOR_SECTOR - 1) = sector_of off.
Proof.
  intros Ho. transitivity (Z.ldiff off (Z.ones 12)).
  - apply Z.bits_inj'. intros i Hi. rewrite Z.land_spec, Z.ldiff_spec, testbit_wnot by done.
    change (S5L8900_NOR_SECTOR - 1) with (Z.ones 12). destruct (Z.ltb_spec i 32) as [E|E].
    + by rewrite xorb_true_r.
    + by rewrite (uint_high 32 off i) by (done || lia).
  - rewrite Z.ldiff_ones_r, Z.shiftr_div_pow2, Z.shiftl_mul_pow2 by lia. done.
Qed.

Lemma nor_erase_spec n b off : nor_ok n → data n = Some b → uint 32 off →
  sector_of off + S5L8900_NOR_SECTOR <= size n → ∃ n' b',
  s5l_nor_erase_sector off n = Some (true, n') ∧ nor_ok n' ∧ data n' = Some b' ∧ size n' = size n
  ∧ (∀ x, sector_of off <= x < sector_of off + S5L8900_NOR_SECTOR → get8 b' x = Some 0xff)
  ∧ ∀ x, x < sector_of off ∨ sector_of off + S5L8900_NOR_SECTOR <= x → get8 b' x = get8 b x.
Proof.
  intros [Hs Hd] Eb Ho Hf. rewrite Eb in Hd. destruct Hd as [Hl Hb]. unfold s5l_nor_erase_sector.
  rewrite Eb, sector_mask by done. cbv zeta. rewrite (proj2 (Z.ltb_ge _ _)) by lia.
  set (ones := replicate (Z.to_nat S5L8900_NOR_SECTOR) 0xff).
  assert (Bl : blen ones = S5L8900_NOR_SECTOR) by (unfold ones, blen; rewrite length_replicate; done).
  assert (Bb : is_bytes ones) by (apply Forall_replicate; by split).
  assert (P0 : 0 <= sector_of off).
  { unfold sector_of. destruct Ho. apply Z.mul_nonneg_nonneg; [apply Z.div_pos; [lia|done]|done]. }
  destruct (put_bytes_inside b (sector_of off) ones) as (b' & Ep & Lp); [done|lia|].
  rewrite Ep. eexists _, b'. split; [done|]. simpl. split_and!; try done.
  - split; [done|]. simpl. split; [congruence|]. by apply (put_bytes_bytes b (sector_of off) ones).
  - intros x Hx. pose proof (put_get_bytes _ _ _ _ Ep Bb) as G. rewrite Bl in G.
    pose proof (get_bytes_lookup _ _ _ _ (x - sector_of off) G) as L.
    replace (sector_of off + (x - sector_of off)) with x in L by lia. rewrite L by lia.
    apply lookup_replicate_2. unfold S5L8900_NOR_SECTOR in *. lia.
  - intros x Hx. apply (get8_out_of_put _ _ _ _ _ Ep). by rewrite Bl.
Qed.

Lemma erased_value b off bytes : (∀ x, off <= x < off + bytes → get8 b x = Some 0xff) → access_width bytes = true →
  get_bytes b off bytes = Some (replicate (Z.to_nat bytes) 0xff).
Proof.
  intros H Hw. pose proof (access_width_range _ Hw). unfold get_bytes. apply mapM_Some_2.
  apply Forall2_same_length_lookup_2; [by rewrite length_seqZ, length_replicate|].
  intros i x y Hx Hy. apply lookup_seqZ in Hx as [-> Hi]. apply lookup_replicate in Hy as [-> _].
  apply H. lia.
Qed.

Lemma value_of_ones bytes : access_width bytes = true →
  le_value (replicate (Z.to_nat bytes) 0xff) = Z.ones (8 * bytes).
Proof. unfold access_width. rewrite !orb_true_iff, !Z.eqb_eq. by intros [[->| ->]| ->]. Qed.

(** in a sector just erased any value of any width can be stored and reads back; a
    further store at the same place succeeds exactly when it only clears bits, in which
    case it reads back too, and otherwise changes nothing.  Every other octet of the
    sector stays erased and the rest of the array is as it was. *)
Theorem nor_erase_write_read (n : s5l_nor) (b : list Z) (off bytes val val2 : Z) :
  nor_ok n → data n = Some b → uint 32 off → access_width bytes = true →
  sector_of off + S5L8900_NOR_SECTOR <= size n → off + bytes <= sector_of off + S5L8900_NOR_SECTOR →
  let v := val mod 2 ^ (8 * bytes) in
  let v2 := val2 mod 2 ^ (8 * bytes) in
  ∃ n1 n2 ok n3 b3,
  s5l_nor_erase_sector off n = Some (true, n1)
  ∧ s5l_nor_write off val bytes n1 = Some (true, n2) ∧ s5l_nor_read off bytes n2 = Some v
  ∧ s5l_nor_write off val2 bytes n2 = Some (ok, n3) ∧ ok = (v .& v2 =? v2)
  ∧ s5l_nor_read off bytes n3 = Some (if ok then v2 else v)
  ∧ data n3 = Some b3 ∧ nor_ok n3
  ∧ (∀ x, sector_of off <= x < sector_of off + S5L8900_NOR_SECTOR → x < off ∨ off + bytes <= x →
       get8 b3 x = Some 0xff)
  ∧ ∀ x, x < sector_of off ∨ sector_of off + S5L8900_NOR_SECTOR <= x → get8 b3 x = get8 b x.
Proof.
  intros Hn Eb Ho Hw Hf Hin v v2.
  destruct (nor_erase_spec n b off Hn Eb Ho Hf) as (n1 & b1 & E1 & K1 & D1 & S1 & I1 & O1).
  assert (Hso : sector_of off <= off) by (unfold sector_of, S5L8900_NOR_SECTOR; Z.to_euclidean_division_equations; lia).
  destruct Ho as [H0 _]. pose proof (access_width_range _ Hw) as Hr.
  destruct (nor_write_spec n1 b1 off val bytes K1 D1 Hw H0) as (v1 & ok1 & n2 & R1 & W1 & Ok1 & A1 & K2 & S2 & _ & b2 & D2 & O2); [lia|].
  assert (V1 : v1 = Z.ones (8 * bytes)).
  { revert R1. unfold holds_value, s5l_nor_read. rewrite Hw, D1, (proj2 (Z.ltb_ge _ _)), (erased_value b1 off bytes) by
      (done || lia || (intros; apply I1; lia)). cbn. rewrite value_of_ones by done. congruence. }
  rewrite V1, Z.land_comm, Z.land_ones, Z.mod_mod, Z.eqb_refl in Ok1 by lia. subst ok1. cbv iota in A1.
  destruct (nor_write_spec n2 b2 off val2 bytes K2 D2 Hw H0) as (v3 & ok & n3 & R3 & W3 & Ok3 & A3 & K3 & S3 & _ & b3 & D3 & O3); [lia|].
  assert (V3 : v3 = v) by (unfold holds_value in A1, R3; fold v in A1; congruence). rewrite V3 in Ok3.
  exists n1, n2, ok, n3, b3. split_and!; try done.
  - destruct ok; [exact A3|]. rewrite A3. exact A1.
  - intros x Hx Hxo. rewrite (O3 x), (O2 x) by done. by apply I1.
  - intros x Hx. rewrite (O3 x), (O2 x) by (done || lia). by apply O1.
Qed.

(** ** A small flash *)

(** Two containers, the second behind a gap, and a header that does not fit. *)
Definition demo_image (id full : Z) : list Z :=
  le32 IMG3_DISK_MAGIC ++ le32 full ++ le32 0 ++ le32 0 ++ le32 id ++ replicate (Z.to_nat (full - 20)) 0.
Definition demo_flash : list Z :=
  demo_image 7 22 ++ [0xff; 0xff] ++ le32 0 ++ demo_image 8 20 ++ take 20 (demo_image 9 64).
Definition demo_nor : s5l_nor := MkNor (Some demo_flash) (blen demo_flash) [].

Lemma nor_directory_exact_witness : nor_ok demo_nor ∧ ∃ n',
  s5l_nor_scan demo_nor = Some (2, n') ∧ images n' = [MkEntry 7 0 22; MkEntry 8 28 20]
  ∧ s5l_nor_find 8 n' = Some (MkEntry 8 28 20).
Proof.
  assert (B : nor_ok demo_nor) by (split; [by split|split; [done|by_computation]]). split; [exact B|].
  destruct (nor_directory_exact demo_nor B) as (n' & E & D & S & _ & F). exists n'.
  assert (I : images n' = [MkEntry 7 0 22; MkEntry 8 28 20])
    by (vm_compute in E; by injection E as _ <-).
  split; [rewrite E, I; reflexivity|]. split; [exact I|]. rewrite F, I. reflexivity.
Defined.

Lemma nor_erase_write_read_witness : ∃ n n1 n2 n3, nor_ok n
  ∧ s5l_nor_erase_sector 12 n = Some (true, n1) ∧ s5l_nor_write 12 0xf0f 2 n1 = Some (true, n2)
  ∧ s5l_nor_read 12 2 n2 = Some 0xf0f ∧ s5l_nor_write 12 0xf1f 2 n2 = Some (false, n3)
  ∧ s5l_nor_read 12 2 n3 = Some 0xf0f.
Proof.
  set (b := replicate (Z.to_nat 4096) 0). set (n := MkNor (Some b) 4096 []).
  assert (B : nor_ok n).
  { split; [by split|]. split; [unfold b, blen; by rewrite length_replicate|]. apply Forall_replicate. by split. }
  destruct (nor_erase_write_read n b 12 2 0xf0f 0xf1f B eq_refl) as (n1 & n2 & ok & n3 & b3 & H); [by split|done..|].
  exists n, n1, n2, n3. destruct H as (E1 & E2 & R2 & E3 & Ok & R3 & _). simpl in Ok. subst ok.
  split; [exact B|]. split; [exact E1|]. split; [exact E2|]. split; [exact R2|]. split; [exact E3|exact R3].
Defined.
