(* ===== verification/Storage.v ===== *)
(** * Flash contents in files

    [core/src/soc/storage.c].  A file being read is the octets left in it and the number
    the medium still delivers before it fails, if it does; one being written is what it
    holds and how much more it takes.  The host's other answers (allocation, opening,
    closing, renaming) are parameters.  A save touches the file of its path and a sibling.
    [None] is an access outside an array. *)

From S2P Require Import Prelude Bits Bytes.
From S2P Require Nand Nor.

Definition STORAGE_MAGIC := 0x334f4956.
Definition STORAGE_NOR_MAGIC := 0x524f4e56.
Definition STORAGE_VERSION := 1.
Definition HEADER_WORDS := 8.
Definition STORAGE_FLAG_CHECKSUM := 1.
Definition STORAGE_KNOWN_FLAGS := STORAGE_FLAG_CHECKSUM.
Definition STORAGE_FNV64_OFFSET := 14695981039346656037.
Definition STORAGE_FNV64_PRIME := 1099511628211.

Inductive storage_status :=
  | STORAGE_OK | STORAGE_ERR_IO | STORAGE_ERR_FORMAT | STORAGE_ERR_VERSION | STORAGE_ERR_GEOMETRY
  | STORAGE_ERR_TRUNCATED | STORAGE_ERR_CHECKSUM | STORAGE_ERR_TRAILING | STORAGE_ERR_NOMEM.
#[export] Instance storage_status_eq_dec : EqDecision storage_status.
Proof. solve_decision. Defined.

Definition hash_bytes (h : Z) (p : list Z) : Z := foldl (fun h b => w64 ((h .^ b) * STORAGE_FNV64_PRIME)) h p.

(** ** Files *)

Record rfile := MkR { rest : list Z; until : option Z; ferror : bool }.

(** [fread] of [k] octets: those it got, and the file. *)
Definition fread (k : Z) (f : rfile) : list Z * rfile :=
  let have := Z.min k (blen (rest f)) in
  let give := match until f with Some u => Z.min have u | None => have end in
  (take (Z.to_nat give) (rest f),
   MkR (drop (Z.to_nat give) (rest f)) ((fun u => u - give) <$> until f)
     (ferror f || (match until f with Some u => (u <=? give) && (give <? k) | None => false end))).
Definition read_exact (k : Z) (f : rfile) : option (list Z) * rfile :=
  let '(l, f) := fread k f in (if blen l =? k then Some l else None, f).

Definition frd32 (f : rfile) : option Z * rfile :=
  let '(l, f) := read_exact 4 f in (l ≫= fun l => rd32 l 0, f).
Definition frd64 (f : rfile) : option Z * rfile :=
  let '(lo, f) := frd32 f in
  match lo with
  | None => (None, f)
  | Some lo =>
    let '(hi, f) := frd32 f in
    ((fun hi => lo .| Z.shiftl hi 32) <$> hi, f)
  end.
Fixpoint rd_words (k : nat) (f : rfile) : option (list Z) * rfile :=
  match k with
  | O => (Some [], f)
  | S k =>
    let '(w, f) := frd32 f in
    match w with
    | None => (None, f)
    | Some w => let '(l, f) := rd_words k f in (cons w <$> l, f)
    end
  end.

Definition short (f : rfile) : storage_status := if ferror f then STORAGE_ERR_IO else STORAGE_ERR_TRUNCATED.
Definition require_eof (f : rfile) : storage_status :=
  let '(c, f) := fread 1 f in
  if negb (blen c =? 0) then STORAGE_ERR_TRAILING else if ferror f then STORAGE_ERR_IO else STORAGE_OK.

Record wfile := MkW { written : list Z; room : Z }.
Definition fwrite (l : list Z) (f : wfile) : bool * wfile :=
  let give := Z.min (blen l) (Z.max 0 (room f)) in
  (give =? blen l, MkW (written f ++ take (Z.to_nat give) l) (room f - give)).
Fixpoint write_all (ls : list (list Z)) (f : wfile) : bool * wfile :=
  match ls with
  | [] => (true, f)
  | l :: ls => let '(ok, f) := fwrite l f in if ok : bool then write_all ls f else (false, f)
  end.

(** The file of the path and its sibling, and what the host answers to a save. *)
Record disk := MkDisk { target : option (list Z); temp : option (list Z) }.
Record host_save := MkSave {
  save_mem : bool; save_open : bool; save_room : Z; save_close : bool; save_rename : bool; save_remove : bool }.

Definition finish_atomic_save (h : host_save) (f : wfile) (ok : bool) (d : disk) : storage_status * disk :=
  let ok := ok && save_close h in
  let '(ok, d) := if ok && save_rename h then (true, MkDisk (Some (written f)) None)
                  else (false, MkDisk (target d) (Some (written f))) in
  let d := if negb ok && save_remove h then MkDisk (target d) None else d in
  (if ok then STORAGE_OK else STORAGE_ERR_IO, d).

(** Open the sibling, write the chunks, replace the file. *)
Definition save_chunks (h : host_save) (chunks : list (list Z)) (d : disk) : storage_status * disk :=
  if negb (save_mem h) then (STORAGE_ERR_NOMEM, d)
  else if negb (save_open h) then (STORAGE_ERR_IO, d)
  else let '(ok, f) := write_all chunks (MkW [] (save_room h)) in finish_atomic_save h f ok d.

(** ** NAND *)

Definition nand_arrays (n : Nand.nand) : option (list Z * option (list Z) * list Z) :=
  match Nand.data n, Nand.bad n with
  | Some d, Some b =>
    match Nand.spare n with
    | Some s => Some (d, Some s, b)
    | None => if Nand.spare_size n =? 0 then Some (d, None, b) else None
    end
  | _, _ => None
  end.
Definition data_octets (n : Nand.nand) : Z := w64 (Nand.nand_total_pages n * Nand.page_size n).
Definition spare_octets (n : Nand.nand) : Z := w64 (Nand.nand_total_pages n * Nand.spare_size n).

Definition contents_hash (d s b : list Z) : Z := hash_bytes (hash_bytes (hash_bytes STORAGE_FNV64_OFFSET d) s) b.
Definition le64_words (x : Z) : list Z := [w32 x; w32 (x .>> 32)].

(** The spare octets, none when there are none. *)
Definition spare_bytes (sp : option (list Z)) (sb : Z) : option (list Z) :=
  if sb =? 0 then Some [] else s ← sp; get_bytes s 0 sb.

Definition storage_save_nand (h : host_save) (n : Nand.nand) (d : disk) : option (storage_status * disk) :=
  match nand_arrays n with
  | None => Some (STORAGE_ERR_IO, d)
  | Some (da, sp, ba) =>
    marks ← get_bytes ba 0 (Nand.block_count n);
    if existsb (fun v => 1 <? v) marks then Some (STORAGE_ERR_FORMAT, d) else
    data ← get_bytes da 0 (data_octets n); spare ← spare_bytes sp (spare_octets n);
    let words := [STORAGE_MAGIC; STORAGE_VERSION; Nand.page_size n; Nand.spare_size n; Nand.pages_per_block n;
                  Nand.block_count n; STORAGE_FLAG_CHECKSUM; 0] in
    Some (save_chunks h (map le32 words ++ [data; spare; marks]
                         ++ map le32 (le64_words (contents_hash data spare marks))) d)
  end.

(** What a load finds after the header: the three arrays, or why not. *)
Definition read_arrays (db sb bc : Z) (f : rfile) : option (list Z * list Z * list Z) * rfile :=
  let '(d, f) := read_exact db f in
  match d with
  | None => (None, f)
  | Some d =>
    let '(s, f) := if sb =? 0 then (Some [], f) else read_exact sb f in
    match s with
    | None => (None, f)
    | Some s =>
      let '(b, f) := read_exact bc f in ((fun b => (d, s, b)) <$> b, f)
    end
  end.

Definition check_hash (flags hash : Z) (f : rfile) : storage_status * rfile :=
  if flags .& STORAGE_FLAG_CHECKSUM =? 0 then (STORAGE_OK, f)
  else
    let '(recorded, f) := frd64 f in
    match recorded with
    | None => (short f, f)
    | Some r => (if hash =? r then STORAGE_OK else STORAGE_ERR_CHECKSUM, f)
    end.

(** After the arrays: the hash, the marks, the end of the file, closing it. *)
Definition accept (flags : Z) (close_ok : bool) (d s b : list Z) (f : rfile) : storage_status :=
  let '(st, f) := check_hash flags (contents_hash d s b) f in
  let st := if decide (st = STORAGE_OK) then (if existsb (fun v => 1 <? v) b then STORAGE_ERR_FORMAT else st) else st in
  let st := if decide (st = STORAGE_OK) then require_eof f else st in
  if decide (st = STORAGE_OK) then (if close_ok then st else STORAGE_ERR_IO) else st.

Definition same_geometry (hdr : list Z) (n : Nand.nand) : bool :=
  (nth 2 hdr 0 =? Nand.page_size n) && (nth 3 hdr 0 =? Nand.spare_size n)
  && (nth 4 hdr 0 =? Nand.pages_per_block n) && (nth 5 hdr 0 =? Nand.block_count n).

(** [file] is [None] when it cannot be opened; [mem] is whether the staging buffers are
    there. *)
Definition storage_load_nand (file : option rfile) (mem close_ok : bool) (n : Nand.nand)
    : option (storage_status * Nand.nand) :=
  match nand_arrays n, file with
  | None, _ | _, None => Some (STORAGE_ERR_IO, n)
  | Some (da, sp, ba), Some f =>
    let '(hdr, f) := rd_words (Z.to_nat HEADER_WORDS) f in
    match hdr with
    | None => Some (short f, n)
    | Some hdr =>
      if negb (nth 0 hdr 0 =? STORAGE_MAGIC) then Some (STORAGE_ERR_FORMAT, n)
      else if negb (nth 1 hdr 0 =? STORAGE_VERSION) then Some (STORAGE_ERR_VERSION, n)
      else if negb (nth 6 hdr 0 .& wnot STORAGE_KNOWN_FLAGS =? 0) || negb (nth 7 hdr 0 =? 0)
      then Some (STORAGE_ERR_TRAILING, n)
      else if negb (same_geometry hdr n) then Some (STORAGE_ERR_GEOMETRY, n)
      else if negb mem then Some (STORAGE_ERR_NOMEM, n)
      else
        let '(arrays, f) := read_arrays (data_octets n) (spare_octets n) (Nand.block_count n) f in
        match arrays with
        | None => Some (short f, n)
        | Some (d, s, b) =>
          let st := accept (nth 6 hdr 0) close_ok d s b f in
          if decide (st = STORAGE_OK) then
            d' ← put_bytes da 0 d;
            s' ← (if spare_octets n =? 0 then Some sp else s0 ← sp; Some <$> put_bytes s0 0 s);
            b' ← put_bytes ba 0 b;
            Some (st, Nand.MkNand (Nand.page_size n) (Nand.spare_size n) (Nand.pages_per_block n)
                        (Nand.block_count n) (Some d') s' (Some b'))
          else Some (st, n)
        end
    end
  end.

(** ** NOR *)

Definition storage_save_nor (h : host_save) (n : Nor.s5l_nor) (d : disk) : option (storage_status * disk) :=
  match Nor.data n with
  | None => Some (STORAGE_ERR_IO, d)
  | Some a =>
    data ← get_bytes a 0 (Nor.size n);
    let words := [STORAGE_NOR_MAGIC; STORAGE_VERSION; Nor.size n; STORAGE_FLAG_CHECKSUM] in
    Some (save_chunks h (map le32 words ++ [data]
                         ++ map le32 (le64_words (hash_bytes STORAGE_FNV64_OFFSET data))) d)
  end.

Definition accept_nor (flags : Z) (close_ok : bool) (d : list Z) (f : rfile) : storage_status :=
  let '(st, f) := check_hash flags (hash_bytes STORAGE_FNV64_OFFSET d) f in
  let st := if decide (st = STORAGE_OK) then require_eof f else st in
  if decide (st = STORAGE_OK) then (if close_ok then st else STORAGE_ERR_IO) else st.

Definition storage_load_nor (file : option rfile) (mem close_ok : bool) (n : Nor.s5l_nor)
    : option (storage_status * Nor.s5l_nor) :=
  match Nor.data n, file with
  | None, _ | _, None => Some (STORAGE_ERR_IO, n)
  | Some a, Some f =>
    let '(hdr, f) := rd_words 4 f in
    match hdr with
    | None => Some (short f, n)
    | Some hdr =>
      if negb (nth 0 hdr 0 =? STORAGE_NOR_MAGIC) then Some (STORAGE_ERR_FORMAT, n)
      else if negb (nth 1 hdr 0 =? STORAGE_VERSION) then Some (STORAGE_ERR_VERSION, n)
      else if negb (nth 2 hdr 0 =? Nor.size n) then Some (STORAGE_ERR_GEOMETRY, n)
      else if negb (nth 3 hdr 0 .& wnot STORAGE_KNOWN_FLAGS =? 0) then Some (STORAGE_ERR_TRAILING, n)
      else if negb mem then Some (STORAGE_ERR_NOMEM, n)
      else
        let '(d, f) := read_exact (Nor.size n) f in
        match d with
        | None => Some (short f, n)
        | Some d =>
          let st := accept_nor (nth 3 hdr 0) close_ok d f in
          if decide (st = STORAGE_OK) then
            a ← put_bytes a 0 d;
            '(_, n) ← Nor.s5l_nor_scan (Nor.MkNor (Some a) (Nor.size n) (Nor.images n));
            Some (st, n)
          else Some (st, n)
        end
    end
  end.

(** ** Streams *)

Lemma read_exact_some k f l f' : 0 <= k → read_exact k f = (Some l, f') → rest f = l ++ rest f' ∧ blen l = k.
Proof.
  intros Hk. unfold read_exact. destruct (fread k f) as [x g] eqn:E. destruct (Z.eqb_spec (blen x) k); [|done].
  intros [= <- <-]. split; [|done]. unfold fread in E. injection E as <- <-. simpl. by rewrite take_drop.
Qed.

(** A file the medium delivers without fault. *)
Definition plain (l : list Z) : rfile := MkR l None false.

Lemma read_exact_plain k l r : blen l = k → read_exact k (plain (l ++ r)) = (Some l, plain r).
Proof.
  intros <-. unfold read_exact, fread, plain. simpl.
  assert (M : Z.min (blen l) (blen (l ++ r)) = blen l) by (rewrite blen_app; unfold blen; lia). rewrite M.
  assert (T : Z.to_nat (blen l) = length l) by apply Nat2Z.id.
  by rewrite T, take_app_length, drop_app_length, Z.eqb_refl.
Qed.

Lemma rd32_value a b c d : is_bytes [a; b; c; d] → rd32 [a; b; c; d] 0 = Some (a + 256 * (b + 256 * (c + 256 * d))).
Proof.
  intros H. repeat (apply Forall_cons_1 in H as [? H]). unfold rd32, get8. simpl.
  unfold w8. rewrite !wrap_small by done. simpl. f_equal.
  assert (U1 : uint 16 (a + 256 * b)) by (unfold uint in *; lia).
  assert (U2 : uint 24 (a + 256 * b + 65536 * c)) by (unfold uint in *; lia).
  rewrite (Z.lor_comm a), lor_shift_add by (done || lia). replace (b * 2 ^ 8 + a) with (a + 256 * b) by lia.
  rewrite (Z.lor_comm (a + 256 * b)), lor_shift_add by (done || lia).
  replace (c * 2 ^ 16 + (a + 256 * b)) with (a + 256 * b + 65536 * c) by lia.
  rewrite (Z.lor_comm (a + 256 * b + 65536 * c)), lor_shift_add by (done || lia). lia.
Qed.

Lemma four_bytes l : blen l = 4 → ∃ a b c d, l = [a; b; c; d].
Proof. destruct l as [|a [|b [|c [|d [|]]]]]; unfold blen; simpl; intros H; try lia. by exists a, b, c, d. Qed.

Lemma rd32_le32_inv l x : blen l = 4 → is_bytes l → rd32 l 0 = Some x → l = le32 x ∧ uint 32 x.
Proof.
  intros Hl Hb E. destruct (four_bytes l Hl) as (a & b & c & d & ->). rewrite rd32_value in E by done.
  injection E as E. assert (U : uint 32 x).
  { repeat (apply Forall_cons_1 in Hb as [? Hb]). unfold uint in *. lia. }
  split; [|done]. pose proof (rd32_le32 x [] U) as R. rewrite app_nil_r in R.
  pose proof (le32_bytes x) as B. destruct (four_bytes (le32 x) (blen_le32 x)) as (a' & b' & c' & d' & E').
  rewrite E' in R, B |- *. rewrite rd32_value in R by done. injection R as R.
  repeat (apply Forall_cons_1 in Hb as [? Hb]). repeat (apply Forall_cons_1 in B as [? B]).
  unfold uint in *. assert (a = a' ∧ b = b' ∧ c = c' ∧ d = d') as (-> & -> & -> & ->); [|done].
  change (2 ^ 8) with 256 in *. lia.
Qed.

Lemma frd32_plain x r : uint 32 x → frd32 (plain (le32 x ++ r)) = (Some x, plain r).
Proof.
  intros U. unfold frd32. rewrite read_exact_plain by apply blen_le32. simpl.
  pose proof (rd32_le32 x [] U) as R. rewrite app_nil_r in R. by rewrite R.
Qed.

Lemma frd32_some f x f' : is_bytes (rest f) → frd32 f = (Some x, f') →
  rest f = le32 x ++ rest f' ∧ uint 32 x ∧ is_bytes (rest f').
Proof.
  intros Hb. unfold frd32. destruct (read_exact 4 f) as [[l|] g] eqn:E; [|done]. simpl. intros [= Ex <-].
  destruct (read_exact_some 4 f l g) as [Er Hl]; [done..|]. rewrite Er in Hb. apply Forall_app in Hb as [B1 B2].
  destruct (rd32_le32_inv l x Hl B1 Ex) as [-> U]. by split_and!.
Qed.

Definition word_octets (ws : list Z) : list Z := concat (map le32 ws).

Lemma word_octets_cons w ws : word_octets (w :: ws) = le32 w ++ word_octets ws.
Proof. done. Qed.

Lemma rd_words_plain ws r : Forall (uint 32) ws → rd_words (length ws) (plain (word_octets ws ++ r)) = (Some ws, plain r).
Proof.
  induction ws as [|w ws IH]; intros H; [done|]. apply Forall_cons_1 in H as [Hw H].
  rewrite word_octets_cons, <- app_assoc. cbn [length rd_words]. rewrite frd32_plain by done. by rewrite (IH H).
Qed.

Lemma rd_words_some k : ∀ f ws f', is_bytes (rest f) → rd_words k f = (Some ws, f') →
  rest f = word_octets ws ++ rest f' ∧ length ws = k ∧ Forall (uint 32) ws ∧ is_bytes (rest f').
Proof.
  induction k as [|k IH]; intros f ws f' Hb E; cbn [rd_words] in E; [by simplify_eq|].
  destruct (frd32 f) as [[w|] g] eqn:E1; [|by simplify_eq/=]. destruct (frd32_some f w g Hb E1) as (R1 & U1 & B1).
  destruct (rd_words k g) as [[l|] g'] eqn:E2; [|by simplify_eq/=]. simpl in E. simplify_eq.
  destruct (IH g l f' B1 E2) as (R2 & L2 & F2 & B2). rewrite R1, R2, word_octets_cons.
  split_and!; [by rewrite <- app_assoc|simpl; by rewrite L2|by apply Forall_cons_2|done].
Qed.

Lemma le64_join x : uint 64 x → w32 x .| Z.shiftl (w32 (x .>> 32)) 32 = x.
Proof.
  intros [Hl Hh]. rewrite Z.lor_comm, lor_shift_add by (done || apply uint_w32). unfold w32, wrap.
  rewrite Z.shiftr_div_pow2 by lia. change (2 ^ 32) with 4294967296. change (2 ^ 64) with 18446744073709551616 in Hh.
  Z.to_euclidean_division_equations. lia.
Qed.

Lemma le64_octets x : word_octets (le64_words x) = le32 (w32 x) ++ le32 (w32 (x .>> 32)).
Proof. unfold le64_words. rewrite !word_octets_cons. by rewrite app_nil_r. Qed.

Lemma frd64_plain x r : uint 64 x → frd64 (plain (word_octets (le64_words x) ++ r)) = (Some x, plain r).
Proof.
  intros U. unfold frd64.
  rewrite le64_octets, <- app_assoc.
  rewrite frd32_plain by apply uint_w32. rewrite frd32_plain by apply uint_w32. cbn [fmap option_fmap option_map].
  by rewrite le64_join.
Qed.

Lemma frd64_some f x f' : is_bytes (rest f) → frd64 f = (Some x, f') →
  rest f = word_octets (le64_words x) ++ rest f' ∧ is_bytes (rest f').
Proof.
  intros Hb. unfold frd64. destruct (frd32 f) as [[lo|] g] eqn:E1; [|done].
  destruct (frd32_some f lo g Hb E1) as (R1 & U1 & B1).
  destruct (frd32 g) as [[hi|] g'] eqn:E2; [|done]. destruct (frd32_some g hi g' B1 E2) as (R2 & U2 & B2).
  cbn [fmap option_fmap option_map]. intros [= <- <-]. split; [|done]. rewrite R1, R2, le64_octets.
  rewrite Z.lor_comm, lor_shift_add by (done || lia).
  assert (E : w32 (hi * 2 ^ 32 + lo) = lo).
  { unfold w32, wrap. rewrite Z.add_comm, Z.mod_add by lia. by apply wrap_small. }
  assert (E' : w32 ((hi * 2 ^ 32 + lo) .>> 32) = hi).
  { rewrite Z.shiftr_div_pow2, Z.add_comm, Z.div_add by lia. rewrite Z.div_small by done. by apply w32_small. }
  by rewrite E, E', <- app_assoc.
Qed.

Lemma require_eof_ok f : require_eof f = STORAGE_OK → rest f = [].
Proof.
  unfold require_eof, fread. simpl. set (give := match until f with Some u => _ | None => _ end).
  destruct (Z.eqb_spec (blen (take (Z.to_nat give) (rest f))) 0) as [E|E]; [|done]. simpl.
  destruct (ferror f); [done|]. simpl. destruct (rest f) as [|x l] eqn:R; [done|]. unfold blen in E. rewrite length_take in E. simpl in E.
  unfold give in *. clear give. destruct (until f) as [u|].
  - intros H. exfalso. revert H. unfold blen in *. simpl length in *.
    rewrite (proj2 (Z.leb_le _ _)), (proj2 (Z.ltb_lt _ _)) by lia. done.
  - unfold blen in E. simpl length in E. lia.
Qed.

Lemma require_eof_plain : require_eof (plain []) = STORAGE_OK.
Proof. done. Qed.

Lemma write_all_ok ls : ∀ f f', write_all ls f = (true, f') → written f' = written f ++ concat ls.
Proof.
  induction ls as [|l ls IH]; intros f f' E; simpl in E; [simplify_eq; by rewrite app_nil_r|].
  destruct (_ =? blen l) eqn:G in E; [|done]. apply Z.eqb_eq in G. rewrite (IH _ _ E). simpl. rewrite G.
  unfold blen. by rewrite Nat2Z.id, take_ge, <- app_assoc by lia.
Qed.

(** A save either leaves the file as it was or has put the whole of its octets there. *)
Lemma save_chunks_atomic h chunks d : 
  save_chunks h chunks d = (STORAGE_OK, MkDisk (Some (concat chunks)) None)
  ∨ (fst (save_chunks h chunks d) ≠ STORAGE_OK ∧ target (snd (save_chunks h chunks d)) = target d).
Proof.
  unfold save_chunks. destruct (save_mem h); [|by right]. destruct (save_open h); [|by right]. simpl.
  destruct (write_all chunks (MkW [] (save_room h))) as [ok f] eqn:E. unfold finish_atomic_save.
  destruct ok; simpl; [|right; by destruct (save_remove h)].
  destruct (save_close h && save_rename h); [left; by rewrite (write_all_ok _ _ _ E)|right; by destruct (save_remove h)].
Qed.

(** ** The hash sees every single octet *)

Lemma hash_bytes_app h p q : hash_bytes h (p ++ q) = hash_bytes (hash_bytes h p) q.
Proof. apply foldl_app. Qed.
Lemma uint_hash p : ∀ h, uint 64 h → uint 64 (hash_bytes h p).
Proof. induction p as [|b p IH]; intros h Hh; [done|]. apply IH, uint_w64. Qed.

Lemma fnv_step_inj x y : uint 64 x → uint 64 y →
  w64 (x * STORAGE_FNV64_PRIME) = w64 (y * STORAGE_FNV64_PRIME) → x = y.
Proof.
  intros Hx Hy E. set (q := 14886173955864302971).
  assert (Q : (STORAGE_FNV64_PRIME * q) mod 2 ^ 64 = 1) by reflexivity.
  assert (R : ∀ z, uint 64 z → w64 (w64 (z * STORAGE_FNV64_PRIME) * q) = z).
  { intros z Hz. unfold w64, wrap. rewrite Z.mul_mod_idemp_l, <- Z.mul_assoc, <- Z.mul_mod_idemp_r by lia.
    rewrite Q, Z.mul_1_r. by apply wrap_small. }
  by rewrite <- (R x Hx), <- (R y Hy), E.
Qed.

Lemma lxor_inj_r h x y : h .^ x = h .^ y → x = y.
Proof. intros E. by rewrite <- (Z.lxor_0_l x), <- (Z.lxor_0_l y), <- (Z.lxor_nilpotent h), !Z.lxor_assoc, E. Qed.

Lemma uint_byte_lxor h b : uint 64 h → uint 8 b → uint 64 (h .^ b).
Proof. intros Hh Hb. apply uint_lxor; [lia|done|]. apply (uint_mono 8); [done|lia]. Qed.

Lemma hash_inj_seed p : is_bytes p → ∀ h h', uint 64 h → uint 64 h' → hash_bytes h p = hash_bytes h' p → h = h'.
Proof.
  induction p as [|b p IH]; intros Hp h h' Hh Hh' E; [done|]. apply Forall_cons_1 in Hp as [Hb Hp].
  apply (IH Hp) in E; [|apply uint_w64..]. apply fnv_step_inj in E; [|by apply uint_byte_lxor..].
  rewrite (Z.lxor_comm h), (Z.lxor_comm h') in E. by apply lxor_inj_r in E.
Qed.

Lemma hash_one_octet pre x y post : is_bytes post → uint 8 x → uint 8 y →
  hash_bytes STORAGE_FNV64_OFFSET (pre ++ x :: post) = hash_bytes STORAGE_FNV64_OFFSET (pre ++ y :: post) → x = y.
Proof.
  intros Hp Hx Hy. rewrite !hash_bytes_app. simpl. set (h := hash_bytes _ pre).
  assert (Hh : uint 64 h) by (apply uint_hash; by split). intros E.
  apply hash_inj_seed in E; [|done|apply uint_w64..]. apply fnv_step_inj in E; [|by apply uint_byte_lxor..].
  by apply lxor_inj_r in E.
Qed.

(** ** The image of a NAND device *)

Section nand_image.
Implicit Types (n m : Nand.nand) (d s b : list Z).

(** A device whose three arrays, [s] being empty without a spare area, have the sizes its
    geometry gives. *)
Record device n d s b : Prop := {
  dv_words : Forall (uint 32) [Nand.page_size n; Nand.spare_size n; Nand.pages_per_block n; Nand.block_count n];
  dv_data : Nand.data n = Some d ∧ blen d = data_octets n ∧ is_bytes d;
  dv_spare : if Nand.spare_size n =? 0 then Nand.spare n = None ∧ s = []
             else Nand.spare n = Some s;
  dv_spare_size : blen s = spare_octets n ∧ is_bytes s;
  dv_bad : Nand.bad n = Some b ∧ blen b = Nand.block_count n ∧ is_bytes b;
  dv_marks : existsb (fun v => 1 <? v) b = false }.

Definition header_words n (flags : Z) : list Z :=
  [STORAGE_MAGIC; STORAGE_VERSION; Nand.page_size n; Nand.spare_size n; Nand.pages_per_block n; Nand.block_count n; flags; 0].
Definition trailer (flags : Z) d s b : list Z :=
  if flags .& STORAGE_FLAG_CHECKSUM =? 0 then [] else word_octets (le64_words (contents_hash d s b)).
Definition image n (flags : Z) d s b : list Z :=
  word_octets (header_words n flags) ++ d ++ s ++ b ++ trailer flags d s b.

Lemma contents_hash_app d s b : contents_hash d s b = hash_bytes STORAGE_FNV64_OFFSET (d ++ s ++ b).
Proof. unfold contents_hash. by rewrite !hash_bytes_app. Qed.
Lemma uint_contents_hash d s b : uint 64 (contents_hash d s b).
Proof. rewrite contents_hash_app. apply uint_hash. by split. Qed.

Lemma spare_octets_zero n : Nand.spare_size n = 0 → spare_octets n = 0.
Proof. unfold spare_octets. intros ->. by rewrite Z.mul_0_r. Qed.

Lemma spare_bytes_device n d s b : device n d s b → spare_bytes (Nand.spare n) (spare_octets n) = Some s.
Proof.
  intros D. destruct (dv_spare_size _ _ _ _ D) as [Ls Bs]. pose proof (dv_spare _ _ _ _ D) as S. unfold spare_bytes.
  destruct (Z.eqb_spec (spare_octets n) 0) as [Z0|N].
  - destruct s; [done|]. unfold blen in Ls. simpl in Ls. lia.
  - destruct (Z.eqb_spec (Nand.spare_size n) 0) as [E|E]; [by rewrite spare_octets_zero in N|].
    rewrite S. simpl. rewrite <- Ls. by apply get_bytes_all.
Qed.

Lemma nand_arrays_device n d s b : device n d s b → nand_arrays n = Some (d, Nand.spare n, b).
Proof.
  intros D. destruct (dv_data _ _ _ _ D) as [E1 _]. destruct (dv_bad _ _ _ _ D) as [E2 _].
  pose proof (dv_spare _ _ _ _ D) as S. unfold nand_arrays. rewrite E1, E2.
  destruct (Nand.spare_size n =? 0); [destruct S as [-> _]|rewrite S]; done.
Qed.

Lemma save_image h n d s b k : device n d s b →
  storage_save_nand h n k = Some (save_chunks h (map le32 (header_words n 1) ++ [d; s; b]
                              ++ map le32 (le64_words (contents_hash d s b))) k).
Proof.
  intros D. unfold storage_save_nand. rewrite (nand_arrays_device n d s b D).
  destruct (dv_data _ _ _ _ D) as (_ & Ld & Bd). destruct (dv_bad _ _ _ _ D) as (_ & Lb & Bb).
  rewrite <- Lb, (get_bytes_all b Bb). cbn [mbind option_bind]. rewrite (dv_marks _ _ _ _ D).
  rewrite <- Ld, (get_bytes_all d Bd). cbn [mbind option_bind].
  rewrite (spare_bytes_device n d s b D). cbn [mbind option_bind]. unfold header_words. by rewrite Lb.
Qed.

Lemma chunks_image n d s b :
  concat (map le32 (header_words n 1) ++ [d; s; b] ++ map le32 (le64_words (contents_hash d s b))) = image n 1 d s b.
Proof. unfold image, word_octets, trailer. rewrite !concat_app. simpl. by rewrite app_nil_r, <- !app_assoc. Qed.

Definition same_shape n m : Prop :=
  Nand.page_size m = Nand.page_size n ∧ Nand.spare_size m = Nand.spare_size n
  ∧ Nand.pages_per_block m = Nand.pages_per_block n ∧ Nand.block_count m = Nand.block_count n.

Lemma shape_octets n m : same_shape n m → data_octets m = data_octets n ∧ spare_octets m = spare_octets n.
Proof. intros (E1 & E2 & E3 & E4). unfold data_octets, spare_octets, Nand.nand_total_pages. by rewrite E1, E2, E3, E4. Qed.

Lemma put_bytes_whole a l : blen a = blen l → put_bytes a 0 l = Some l.
Proof.
  intros E. unfold put_bytes, blen in *. change (0 <? 0) with false. rewrite (proj2 (Z.ltb_ge _ _)) by lia.
  simpl. f_equal. rewrite drop_ge by lia. apply app_nil_r.
Qed.

Lemma uint32_blen {l} : blen l = 0 → l = [].
Proof. destruct l; [done|unfold blen; simpl; lia]. Qed.

(** Reading back what a save wrote. *)
Lemma read_arrays_plain d s b r : read_arrays (blen d) (blen s) (blen b) (plain (d ++ s ++ b ++ r)) = (Some (d, s, b), plain r).
Proof.
  unfold read_arrays. rewrite read_exact_plain by done. destruct (Z.eqb_spec (blen s) 0) as [E|E].
  - apply uint32_blen in E as ->. rewrite app_nil_l. by rewrite read_exact_plain by done.
  - rewrite read_exact_plain by done. rewrite read_exact_plain by done. done.
Qed.

Lemma accept_plain d s b : existsb (fun v => 1 <? v) b = false →
  accept 1 true d s b (plain (word_octets (le64_words (contents_hash d s b)))) = STORAGE_OK.
Proof.
  intros Hm. unfold accept, check_hash.
  change (1 .& STORAGE_FLAG_CHECKSUM =? 0) with false. cbv iota.
  pose proof (frd64_plain (contents_hash d s b) [] (uint_contents_hash d s b)) as F. rewrite app_nil_r in F.
  rewrite F, Z.eqb_refl, Hm. done.
Qed.

Lemma loaded n m d s b d' s' b' : device n d s b → device m d' s' b' → same_shape n m →
  storage_load_nand (Some (plain (image n 1 d s b))) true true m
  = Some (STORAGE_OK, Nand.MkNand (Nand.page_size n) (Nand.spare_size n) (Nand.pages_per_block n) (Nand.block_count n)
                        (Nand.data n) (Nand.spare n) (Nand.bad n)).
Proof.
  intros D M Sh. unfold storage_load_nand. rewrite (nand_arrays_device m d' s' b' M).
  destruct (shape_octets n m Sh) as [Sd Ss]. destruct Sh as (E1 & E2 & E3 & E4).
  destruct (dv_data _ _ _ _ D) as (Ed & Ld & Bd). destruct (dv_bad _ _ _ _ D) as (Eb & Lb & Bb).
  destruct (dv_spare_size _ _ _ _ D) as [Ls Bs].
  destruct (dv_data _ _ _ _ M) as (_ & Ld' & _). destruct (dv_bad _ _ _ _ M) as (_ & Lb' & _).
  destruct (dv_spare_size _ _ _ _ M) as [Ls' _].
  assert (W : Forall (uint 32) (header_words n 1)).
  { pose proof (dv_words _ _ _ _ D) as W. repeat (apply Forall_cons_1 in W as [? W]).
    repeat apply Forall_cons_2; try apply Forall_nil_2; try done; by split. }
  unfold image. change (Z.to_nat HEADER_WORDS) with (length (header_words n 1)). rewrite rd_words_plain by done.
  unfold header_words, same_geometry. cbn [nth]. rewrite E1, E2, E3, E4, !Z.eqb_refl. cbn [andb negb].
  change (1 .& wnot STORAGE_KNOWN_FLAGS =? 0) with true. cbn [orb negb]. change (0 =? 0) with true. cbn [orb negb].
  rewrite Sd, Ss, <- Ld, <- Ls, <- Lb, read_arrays_plain.
  change (trailer 1 d s b) with (word_octets (le64_words (contents_hash d s b))).
  rewrite (accept_plain d s b (dv_marks _ _ _ _ D)). rewrite decide_True by done.
  rewrite !put_bytes_whole by congruence. cbn [mbind option_bind]. rewrite Ed, Eb, Lb.
  pose proof (dv_spare _ _ _ _ D) as S. pose proof (dv_spare _ _ _ _ M) as S'. rewrite E2 in S'.
  destruct (Z.eqb_spec (Nand.spare_size n) 0) as [Z0|N].
  - destruct S as [-> ->]. destruct S' as [-> _]. done.
  - rewrite S'. destruct (Z.eqb_spec (blen s) 0) as [Z1|N1]; cbn [mbind option_bind fmap option_fmap option_map].
    + apply uint32_blen in Z1. subst s. rewrite Ss, <- Ls in Ls'. apply uint32_blen in Ls'. by rewrite S, Ls'.
    + rewrite put_bytes_whole by congruence. cbn. by rewrite S.
Qed.
End nand_image.

(** ** What a load accepts *)

Section load.
Implicit Types (n m : Nand.nand) (d s b : list Z).

Lemma read_arrays_some db sb bc f d s b f' : 0 <= db → 0 <= sb → 0 <= bc →
  read_arrays db sb bc f = (Some (d, s, b), f') →
  rest f = d ++ s ++ b ++ rest f' ∧ blen d = db ∧ blen s = sb ∧ blen b = bc.
Proof.
  intros H1 H2 H3. unfold read_arrays. destruct (read_exact db f) as [[d0|] g1] eqn:E1; [|done].
  destruct (read_exact_some _ _ _ _ H1 E1) as [R1 L1].
  destruct (Z.eqb_spec sb 0) as [->|N].
  - destruct (read_exact bc g1) as [[b0|] g2] eqn:E2; [|done]. destruct (read_exact_some _ _ _ _ H3 E2) as [R2 L2].
    simpl. intros [= <- <- <- <-]. by rewrite R1, R2.
  - destruct (read_exact sb g1) as [[s0|] g2] eqn:E2; [|done]. destruct (read_exact_some _ _ _ _ H2 E2) as [R2 L2].
    destruct (read_exact bc g2) as [[b0|] g3] eqn:E3; [|done]. destruct (read_exact_some _ _ _ _ H3 E3) as [R3 L3].
    simpl. intros [= <- <- <- <-]. by rewrite R1, R2, R3.
Qed.

Lemma accept_ok flags close_ok d s b f : is_bytes (rest f) →
  accept flags close_ok d s b f = STORAGE_OK → rest f = trailer flags d s b.
Proof.
  intros Hb. unfold accept, trailer. destruct (check_hash flags _ f) as [st g] eqn:E.
  cbv zeta. destruct (decide (st = STORAGE_OK)) as [->|N]; [|by rewrite !(decide_False (P := st = STORAGE_OK)) by done].
  destruct (existsb _ b); [by rewrite !(decide_False (P := STORAGE_ERR_FORMAT = STORAGE_OK)) by done|].
  rewrite !(decide_True (P := STORAGE_OK = STORAGE_OK)) by done.
  destruct (decide (require_eof g = STORAGE_OK)) as [Eof|N]; [|by intros]. intros _. apply require_eof_ok in Eof.
  unfold check_hash in E. destruct (flags .& STORAGE_FLAG_CHECKSUM =? 0); [by simplify_eq|].
  destruct (frd64 f) as [[r|] g'] eqn:F; [|unfold short in E; destruct (ferror g'); by simplify_eq].
  destruct (frd64_some f r g' Hb F) as [R _].
  destruct (Z.eqb_spec (contents_hash d s b) r) as [->|]; [|by simplify_eq]. simplify_eq.
  by rewrite R, Eof, app_nil_r.
Qed.

Lemma known_flags flags : uint 32 flags → flags .& wnot STORAGE_KNOWN_FLAGS = 0 → flags = 0 ∨ flags = 1.
Proof.
  intros U E. assert (H : flags = flags .& 1).
  { apply Z.bits_inj'. intros i Hi. pose proof (f_equal (fun x => Z.testbit x i) E) as B. simpl in B.
    rewrite Z.land_spec, testbit_wnot, Z.testbit_0_l in B by done. rewrite Z.land_spec.
    change STORAGE_KNOWN_FLAGS with 1 in B. destruct (Z.ltb_spec i 32).
    - destruct (Z.testbit flags i), (Z.testbit 1 i); done.
    - by rewrite (uint_high 32 flags i). }
  change 1 with (Z.ones 1) in H at 1. rewrite Z.land_ones in H by lia. change (2 ^ 1) with 2 in H.
  pose proof (Z.mod_pos_bound flags 2). lia.
Qed.

Lemma device_octets n d s b : device n d s b → 0 <= data_octets n ∧ 0 <= spare_octets n ∧ 0 <= Nand.block_count n.
Proof.
  intros D. pose proof (dv_data _ _ _ _ D) as (_ & <- & _). pose proof (dv_spare_size _ _ _ _ D) as (<- & _).
  pose proof (dv_bad _ _ _ _ D) as (_ & <- & _). unfold blen. lia.
Qed.

(** A load returns; it changes the device only when it reports success, and then the file
    was, to its last octet, an image of a device of this shape. *)
Lemma load_outcome m d0 s0 b0 f mem close_ok : device m d0 s0 b0 → is_bytes (rest f) → ∃ st m',
  storage_load_nand (Some f) mem close_ok m = Some (st, m') ∧ (st ≠ STORAGE_OK → m' = m)
  ∧ (st = STORAGE_OK → ∃ flags d s b, (flags = 0 ∨ flags = 1) ∧ rest f = image m flags d s b
       ∧ blen d = data_octets m ∧ blen s = spare_octets m ∧ blen b = Nand.block_count m).
Proof.
  intros M Hb. unfold storage_load_nand. rewrite (nand_arrays_device m d0 s0 b0 M).
  destruct (device_octets m d0 s0 b0 M) as (P1 & P2 & P3).
  destruct (rd_words (Z.to_nat HEADER_WORDS) f) as [[hdr|] g] eqn:E1.
  2:{ eexists _, m. split; [done|]. unfold short. by destruct (ferror g). }
  destruct (rd_words_some _ f hdr g Hb E1) as (R1 & L1 & F1 & B1).
  destruct hdr as [|w0 [|w1 [|w2 [|w3 [|w4 [|w5 [|w6 [|w7 [|]]]]]]]]]; try done. cbn [nth].
  destruct (Z.eqb_spec w0 STORAGE_MAGIC) as [->|]; [|by eexists _, m].
  destruct (Z.eqb_spec w1 STORAGE_VERSION) as [->|]; [|by eexists _, m]. cbn [negb].
  destruct (Z.eqb_spec (w6 .& wnot STORAGE_KNOWN_FLAGS) 0) as [K|]; [|by eexists _, m]. cbn [negb orb].
  destruct (Z.eqb_spec w7 0) as [->|]; [|by eexists _, m]. cbn [negb].
  destruct (same_geometry _ m) eqn:G; [|by eexists _, m]. cbn [negb]. destruct mem; [|by eexists _, m]. cbn [negb].
  unfold same_geometry in G. cbn [nth] in G. rewrite !andb_true_iff, !Z.eqb_eq in G.
  destruct G as (((-> & ->) & ->) & ->).
  destruct (read_arrays _ _ _ g) as [[[[d s] b]|] g2] eqn:E2.
  2:{ eexists _, m. split; [done|]. unfold short. by destruct (ferror g2). }
  destruct (read_arrays_some _ _ _ _ _ _ _ _ P1 P2 P3 E2) as (R2 & L2 & L3 & L4).
  destruct (decide (accept w6 close_ok d s b g2 = STORAGE_OK)) as [A|N]; [|by eexists _, m].
  rewrite R2 in B1. repeat (apply Forall_app in B1 as [? B1]).
  pose proof (accept_ok _ _ _ _ _ _ B1 A) as T.
  pose proof (dv_data _ _ _ _ M) as (_ & Ld & _). pose proof (dv_bad _ _ _ _ M) as (_ & Lb & _).
  pose proof (dv_spare_size _ _ _ _ M) as (Ls & _). pose proof (dv_spare _ _ _ _ M) as S.
  rewrite !(put_bytes_whole d0), (put_bytes_whole b0) by congruence. cbn [mbind option_bind].
  assert (Sp : ∃ s' : option (list Z), (if spare_octets m =? 0 then Some (Nand.spare m)
                     else s1 ← Nand.spare m; Some <$> put_bytes s1 0 s) = Some s').
  { destruct (Z.eqb_spec (spare_octets m) 0); [by eexists|].
    destruct (Z.eqb_spec (Nand.spare_size m) 0) as [E|E]; [by rewrite spare_octets_zero in *|].
    rewrite S. cbn [mbind option_bind]. rewrite put_bytes_whole by congruence. by eexists. }
  destruct Sp as [s' ->]. cbn [mbind option_bind]. eexists _, _. split; [done|]. split; [by rewrite A|]. intros _.
  exists w6, d, s, b. split.
  { apply known_flags; [|done]. do 6 apply Forall_cons_1 in F1 as [_ F1]. by apply Forall_cons_1 in F1 as [? _]. }
  split_and!; try done. unfold image, header_words. by rewrite R1, R2, T.
Qed.

Lemma blen_words ws : blen (word_octets ws) = 4 * Z.of_nat (length ws).
Proof. induction ws as [|w ws IH]; [done|]. rewrite word_octets_cons, blen_app, blen_le32, IH. simpl. lia. Qed.

Lemma blen_trailer flags d s b : blen (trailer flags d s b) = if flags .& STORAGE_FLAG_CHECKSUM =? 0 then 0 else 8.
Proof. unfold trailer. destruct (_ =? 0); [done|]. by rewrite blen_words. Qed.

Lemma blen_image n flags d s b :
  blen (image n flags d s b) = 32 + blen d + blen s + blen b + (if flags .& STORAGE_FLAG_CHECKSUM =? 0 then 0 else 8).
Proof. unfold image. rewrite !blen_app, blen_words, blen_trailer. simpl length. lia. Qed.
End load.

(** ** The two claims *)

(** C21: a save that reports success has replaced the file by the device's image, and loading
    that file into any device of the same shape gives the saved contents, bad blocks
    included; a save that reports anything else, whatever fails on the host, has left the
    file of the path as it was. *)
Theorem storage_nand_roundtrip (h : host_save) (n m : Nand.nand) (d s b d' s' b' : list Z) (k : disk) :
  device n d s b → device m d' s' b' → same_shape n m → ∃ st k',
  storage_save_nand h n k = Some (st, k')
  ∧ (st ≠ STORAGE_OK → target k' = target k)
  ∧ (st = STORAGE_OK → ∃ file m', target k' = Some file ∧ temp k' = None
     ∧ storage_load_nand (Some (plain file)) true true m = Some (STORAGE_OK, m')
     ∧ Nand.geom m' = Nand.geom n ∧ Nand.data m' = Nand.data n ∧ Nand.spare m' = Nand.spare n ∧ Nand.bad m' = Nand.bad n).
Proof.
  intros D M Sh. rewrite (save_image h n d s b k D).
  pose proof (chunks_image n d s b) as C. revert C.
  generalize (map le32 (header_words n 1) ++ [d; s; b] ++ map le32 (le64_words (contents_hash d s b))).
  intros chunks C. destruct (save_chunks h chunks k) as [st k'] eqn:E. exists st, k'. split; [done|].
  destruct (save_chunks_atomic h chunks k) as [A|[A1 A2]]; rewrite E in *; cbn [fst snd] in *; [|by split].
  injection A as -> ->. rewrite C. split; [done|]. intros _.
  eexists _, _. split; [done|]. split; [done|]. split; [by apply (loaded n m d s b d' s' b')|]. done.
Qed.

(** The files the claim is about: one octet changed, the end missing, or octets after it. *)
Inductive damaged (l : list Z) : list Z → Prop :=
  | flipped i x y : l !! i = Some x → uint 8 y → y ≠ x → damaged l (<[i := y]> l)
  | cut i : (i < length l)%nat → damaged l (take i l)
  | extended x r : is_bytes (x :: r) → damaged l (l ++ x :: r).

Lemma image_bytes n flags d s b : is_bytes d → is_bytes s → is_bytes b → is_bytes (image n flags d s b).
Proof.
  assert (W : ∀ ws, is_bytes (word_octets ws)).
  { induction ws as [|w ws IH]; [constructor|]. rewrite word_octets_cons. apply Forall_app. split; [apply le32_bytes|done]. }
  intros Hd Hs Hb. unfold image, trailer. repeat (apply Forall_app; split; [first [apply W|done]|]).
  destruct (_ =? 0); [constructor|apply W].
Qed.

Lemma damaged_bytes l l' : is_bytes l → damaged l l' → is_bytes l'.
Proof.
  intros Hl []; [by apply Forall_insert|by apply Forall_take|by apply Forall_app].
Qed.

(** Two images of the same shape that agree except at one place agree there too. *)
Lemma image_distance n d s b m d1 s1 b1 i x y :
  is_bytes d → is_bytes s → is_bytes b → uint 8 y → blen d = blen d1 → blen s = blen s1 → blen b = blen b1 →
  header_words m 1 = header_words n 1 →
  image n 1 d s b !! i = Some x → <[i := y]> (image n 1 d s b) = image m 1 d1 s1 b1 → y = x.
Proof.
  intros Bd Bs Bb Uy Ld Ls Lb Hw Hx E. set (p := d ++ s ++ b). set (p1 := d1 ++ s1 ++ b1).
  assert (I : ∀ n d s b, image n 1 d s b = word_octets (header_words n 1) ++ (d ++ s ++ b)
                ++ word_octets (le64_words (hash_bytes STORAGE_FNV64_OFFSET (d ++ s ++ b)))).
  { intros n' d' s' b'. unfold image. change (trailer 1 d' s' b') with (word_octets (le64_words (contents_hash d' s' b'))).
    by rewrite contents_hash_app, <- !app_assoc. }
  rewrite !I, Hw in E. rewrite I in Hx. fold p p1 in E, Hx.
  set (hd := word_octets (header_words n 1)) in *.
  assert (Lp : length p = length p1) by (unfold p, p1; rewrite !length_app; unfold blen in *; lia).
  destruct (decide (i < length hd)%nat) as [C1|C1].
  { rewrite insert_app_l in E by done. apply app_inj_1 in E as [E _]; [|by rewrite length_insert].
    rewrite lookup_app_l in Hx by done. apply (f_equal (.!! i)) in E. rewrite list_lookup_insert_eq in E by done. congruence. }
  rewrite lookup_app_r in Hx by lia. replace i with (length hd + (i - length hd))%nat in E by lia.
  rewrite insert_app_r in E. apply app_inj_1 in E as [_ E]; [|done]. set (j := (i - length hd)%nat) in *.
  destruct (decide (j < length p)%nat) as [C2|C2].
  - rewrite insert_app_l in E by done. apply app_inj_1 in E as [E1 E2]; [|by rewrite length_insert].
    rewrite lookup_app_l in Hx by done. destruct (list_elem_of_split_length p j x Hx) as (pre & post & Ep & Hj).
    rewrite <- E1, Ep in E2. rewrite Hj, insert_app_r_alt, Nat.sub_diag in E2 by lia. simpl in E2.
    apply (f_equal (fun l => fst (frd64 (plain (l ++ []))))) in E2.
    rewrite !frd64_plain in E2 by (apply uint_hash; by split). simpl in E2. injection E2 as E2. symmetry.
    assert (Bp : is_bytes p) by (unfold p; repeat (apply Forall_app; split; [done|]); done).
    rewrite Ep in Bp. apply Forall_app in Bp as [_ Bp]. apply Forall_cons_1 in Bp as [Ux Bpost].
    by apply (hash_one_octet pre x y post).
  - rewrite lookup_app_r in Hx by lia. replace j with (length p + (j - length p))%nat in E by lia.
    rewrite insert_app_r in E. apply app_inj_1 in E as [-> E]; [|done].
    apply (f_equal (.!! (j - length p1)%nat)) in E. rewrite Hx in E.
    rewrite list_lookup_insert_eq in E by (by eapply lookup_lt_Some). congruence.
Qed.

(** C22: a saved file that is damaged, by a change of any one octet, a missing end or octets
    after its end, is refused, and a refused file leaves the device as it was.  No
    assumption is made on when the host fails to read. *)
Theorem storage_damage_refused (n m : Nand.nand) (d s b d' s' b' file : list Z) (u : option Z) (err mem close_ok : bool) :
  device n d s b → device m d' s' b' → same_shape n m → damaged (image n 1 d s b) file → ∃ st,
  storage_load_nand (Some (MkR file u err)) mem close_ok m = Some (st, m) ∧ st ≠ STORAGE_OK.
Proof.
  intros D M Sh Dm. destruct (shape_octets n m Sh) as [Od Os].
  destruct (dv_data _ _ _ _ D) as (_ & Ld & Bd). destruct (dv_bad _ _ _ _ D) as (_ & Lb & Bb).
  destruct (dv_spare_size _ _ _ _ D) as [Ls Bs]. pose proof (image_bytes n 1 d s b Bd Bs Bb) as Bi.
  destruct (load_outcome m d' s' b' (MkR file u err) mem close_ok M) as (st & m' & E & K & A); [by apply (damaged_bytes _ _ Bi)|].
  destruct (decide (st = STORAGE_OK)) as [->|N]; [exfalso|exists st; by rewrite E, K].
  destruct (A eq_refl) as (flags & d1 & s1 & b1 & Hf & Ef & L1 & L2 & L3). simpl in Ef. subst file. clear A K E.
  rewrite Od, <- Ld in L1. rewrite Os, <- Ls in L2.
  assert (Eb : Nand.block_count m = blen b) by (rewrite Lb; apply Sh). rewrite Eb in L3.
  assert (Len : blen (image m flags d1 s1 b1) = blen (image n 1 d s b) - (if flags =? 0 then 8 else 0)).
  { rewrite !blen_image, L1, L2, L3. destruct Hf as [-> | ->]; simpl; lia. }
  assert (Hw : header_words m 1 = header_words n 1) by (unfold header_words; by destruct Sh as (-> & -> & -> & ->)).
  remember (image m flags d1 s1 b1) as l eqn:El. destruct Dm as [i x y Hi Uy Nxy|i Hi|x r Hx].
  - destruct Hf as [-> | ->].
    { change (if 0 =? 0 then 8 else 0) with 8 in Len. unfold blen in Len. rewrite length_insert in Len. lia. }
    apply Nxy. by apply (image_distance n d s b m d1 s1 b1 i x y).
  - assert (L40 : 40 <= blen (image n 1 d s b)).
    { rewrite blen_image. change (1 .& STORAGE_FLAG_CHECKSUM =? 0) with false. unfold blen. lia. }
    unfold blen in Len, L40. rewrite length_take in Len.
    destruct Hf as [-> | ->]; [|change (if 1 =? 0 then 8 else 0) with 0 in Len; lia].
    change (if 0 =? 0 then 8 else 0) with 8 in Len.
    assert (F : ∀ n' f d s b, image n' f d s b !! 24%nat = Some (f .& 0xff)) by done.
    apply (f_equal (.!! 24%nat)) in El. rewrite F, lookup_take_lt, F in El by lia. discriminate.
  - rewrite blen_app in Len. change (blen (x :: r)) with (Z.of_nat (S (length r))) in Len. destruct (flags =? 0); lia.
Qed.

(** Two blocks of one four-octet page, with two spare octets each; the second block is bad. *)
Definition demo_device : Nand.nand :=
  Nand.MkNand 4 2 1 2 (Some [1; 2; 3; 4; 5; 6; 7; 8]) (Some [9; 10; 11; 12]) (Some [0; 1]).
Definition demo_blank : Nand.nand := snd (Nand.nand_init 4 2 1 2 true true true).

Lemma demo_device_ok : device demo_device [1; 2; 3; 4; 5; 6; 7; 8] [9; 10; 11; 12] [0; 1].
Proof. split; try done; split_and?; try done; repeat apply Forall_cons_2; try apply Forall_nil_2; done. Qed.
Lemma demo_blank_ok : device demo_blank (replicate 8 255) (replicate 4 255) [0; 0].
Proof. split; try done; split_and?; try done; repeat apply Forall_cons_2; try apply Forall_nil_2; done. Qed.

Lemma storage_nand_roundtrip_witness : ∃ k' m',
  storage_save_nand (MkSave true true 100 true true true) demo_device (MkDisk None None) = Some (STORAGE_OK, k')
  ∧ storage_load_nand (plain <$> target k') true true demo_blank = Some (STORAGE_OK, m')
  ∧ Nand.data m' = Some [1; 2; 3; 4; 5; 6; 7; 8] ∧ Nand.bad m' = Some [0; 1].
Proof.
  destruct (storage_nand_roundtrip (MkSave true true 100 true true true) demo_device demo_blank _ _ _ _ _ _ (MkDisk None None)
              demo_device_ok demo_blank_ok) as (st & k' & E & _ & A); [done|].
  assert (st = STORAGE_OK) as -> by (vm_compute in E; congruence).
  destruct (A eq_refl) as (file & m' & Ek & _ & El & _ & Ed & _ & Eb). exists k', m'. rewrite Ek.
  split; [exact E|]. split; [exact El|]. rewrite Ed, Eb. split; reflexivity.
Defined.

(** The first data octet reads 17 instead of 1. *)
Lemma storage_damage_refused_witness : ∃ st,
  let file := <[32%nat := 17]> (image demo_device 1 [1; 2; 3; 4; 5; 6; 7; 8] [9; 10; 11; 12] [0; 1]) in
  storage_load_nand (Some (plain file)) true true demo_blank = Some (st, demo_blank) ∧ st ≠ STORAGE_OK.
Proof.
  apply (storage_damage_refused demo_device demo_blank _ _ _ _ _ _ _ None false true true demo_device_ok demo_blank_ok); [done|].
  apply (flipped _ 32%nat 1 17); done.
Defined.
