(* ===== verification/UsbOtg.v ===== *)
(** * The USB device controller

    [core/src/soc/usbotg.c], with [s5l_usbotg_t] of [core/include/soc.h].  Fixed arrays are
    functions of the index; [ep] takes the direction first, [true] for IN.  Handles and
    buffers are not NULL.  Packets move between the virtual host and guest RAM, which the
    rest of the machine supplies through [UsbMachine]. *)

From S2P Require Import Prelude Bits Bytes.

Definition USBOTG_GHWCFG1 := 0x44.
Definition USBOTG_GHWCFG2 := 0x48.
Definition USBOTG_GHWCFG4 := 0x50.
Definition USBOTG_PCGCCTL := 0xe00.
Definition S5L_DWC2_GHWCFG1 := 0x0.
Definition S5L_DWC2_GHWCFG2 := 0x228de550.
Definition S5L_DWC2_GHWCFG4 := 0x0.
Definition S5L_USB_ENDPOINTS := 6.
Definition USBOTG_GOTGCTL := 0x0.
Definition USBOTG_GOTGINT := 0x4.
Definition USBOTG_GAHBCFG := 0x8.
Definition USBOTG_GUSBCFG := 0xc.
Definition USBOTG_GRSTCTL := 0x10.
Definition USBOTG_GINTSTS := 0x14.
Definition USBOTG_GINTMSK := 0x18.
Definition USBOTG_GRXFSIZ := 0x24.
Definition USBOTG_GNPTXFSIZ := 0x28.
Definition USBOTG_DCFG := 0x800.
Definition USBOTG_DCTL := 0x804.
Definition USBOTG_DSTS := 0x808.
Definition USBOTG_DIEPMSK := 0x810.
Definition USBOTG_DOEPMSK := 0x814.
Definition USBOTG_DAINT := 0x818.
Definition USBOTG_DAINTMSK := 0x81c.
Definition USBOTG_EP_ENABLE := 2 ^ 31.
Definition USBOTG_EP_DISABLE := 2 ^ 30.
Definition USBOTG_EP_SNAK := 2 ^ 27.
Definition USBOTG_EP_CNAK := 2 ^ 26.
Definition USBOTG_EP_STALL := 2 ^ 21.
Definition USBOTG_EP_NAK := 2 ^ 17.
Definition USBOTG_INT_RESET := 2 ^ 12.
Definition USBOTG_INT_ENUM := 2 ^ 13.
Definition USBOTG_INT_IN := 2 ^ 18.
Definition USBOTG_INT_OUT := 2 ^ 19.
Definition EP_COMPLETE := 1.
Definition EP_DISABLED := 2.
Definition EP_AHB_ERROR := 4.
Definition EP_SETUP := 8.
Definition EP_IN_NAK := 2 ^ 6.
Definition SIZE_BYTES := 0x7ffff.
Definition SIZE_PACKETS := Z.shiftl 0x3ff 19.
Definition SOFT_DISCONNECT := 2.
Definition GLOBAL_IN_NAK := 4.
Definition GLOBAL_OUT_NAK := 8.

Record usb_ep := MkEp { ctl : Z; interrupt : Z; size : Z; dma : Z }.
Record s5l_usbotg := MkOtg {
  pcgcctl : Z; enabled : bool; connected : bool;
  gotgint : Z; gahbcfg : Z; gusbcfg : Z; gintsts : Z; gintmsk : Z; grxfsiz : Z; gnptxfsiz : Z; dptxfsiz : Z → Z;
  dcfg : Z; dctl : Z; diepmsk : Z; doepmsk : Z; daintmsk : Z;
  ep : bool → Z → usb_ep; reset_generation : Z }.

Definition e_ctl (v : Z) (e : usb_ep) : usb_ep :=
  MkEp v (interrupt e) (size e) (dma e).
Definition e_interrupt (v : Z) (e : usb_ep) : usb_ep :=
  MkEp (ctl e) v (size e) (dma e).
Definition e_size (v : Z) (e : usb_ep) : usb_ep :=
  MkEp (ctl e) (interrupt e) v (dma e).
Definition e_dma (v : Z) (e : usb_ep) : usb_ep :=
  MkEp (ctl e) (interrupt e) (size e) v.

Definition o_pcgcctl (v : Z) (u : s5l_usbotg) : s5l_usbotg :=
  MkOtg v (enabled u) (connected u) (gotgint u) (gahbcfg u) (gusbcfg u) (gintsts u) (gintmsk u)
    (grxfsiz u) (gnptxfsiz u) (dptxfsiz u) (dcfg u) (dctl u) (diepmsk u) (doepmsk u) (daintmsk
    u) (ep u) (reset_generation u).
Definition o_enabled (v : bool) (u : s5l_usbotg) : s5l_usbotg :=
  MkOtg (pcgcctl u) v (connected u) (gotgint u) (gahbcfg u) (gusbcfg u) (gintsts u) (gintmsk u)
    (grxfsiz u) (gnptxfsiz u) (dptxfsiz u) (dcfg u) (dctl u) (diepmsk u) (doepmsk u) (daintmsk
    u) (ep u) (reset_generation u).
Definition o_connected (v : bool) (u : s5l_usbotg) : s5l_usbotg :=
  MkOtg (pcgcctl u) (enabled u) v (gotgint u) (gahbcfg u) (gusbcfg u) (gintsts u) (gintmsk u)
    (grxfsiz u) (gnptxfsiz u) (dptxfsiz u) (dcfg u) (dctl u) (diepmsk u) (doepmsk u) (daintmsk
    u) (ep u) (reset_generation u).
Definition o_gotgint (v : Z) (u : s5l_usbotg) : s5l_usbotg :=
  MkOtg (pcgcctl u) (enabled u) (connected u) v (gahbcfg u) (gusbcfg u) (gintsts u) (gintmsk u)
    (grxfsiz u) (gnptxfsiz u) (dptxfsiz u) (dcfg u) (dctl u) (diepmsk u) (doepmsk u) (daintmsk
    u) (ep u) (reset_generation u).
Definition o_gahbcfg (v : Z) (u : s5l_usbotg) : s5l_usbotg :=
  MkOtg (pcgcctl u) (enabled u) (connected u) (gotgint u) v (gusbcfg u) (gintsts u) (gintmsk u)
    (grxfsiz u) (gnptxfsiz u) (dptxfsiz u) (dcfg u) (dctl u) (diepmsk u) (doepmsk u) (daintmsk
    u) (ep u) (reset_generation u).
Definition o_gusbcfg (v : Z) (u : s5l_usbotg) : s5l_usbotg :=
  MkOtg (pcgcctl u) (enabled u) (connected u) (gotgint u) (gahbcfg u) v (gintsts u) (gintmsk u)
    (grxfsiz u) (gnptxfsiz u) (dptxfsiz u) (dcfg u) (dctl u) (diepmsk u) (doepmsk u) (daintmsk
    u) (ep u) (reset_generation u).
Definition o_gintsts (v : Z) (u : s5l_usbotg) : s5l_usbotg :=
  MkOtg (pcgcctl u) (enabled u) (connected u) (gotgint u) (gahbcfg u) (gusbcfg u) v (gintmsk u)
    (grxfsiz u) (gnptxfsiz u) (dptxfsiz u) (dcfg u) (dctl u) (diepmsk u) (doepmsk u) (daintmsk
    u) (ep u) (reset_generation u).
Definition o_gintmsk (v : Z) (u : s5l_usbotg) : s5l_usbotg :=
  MkOtg (pcgcctl u) (enabled u) (connected u) (gotgint u) (gahbcfg u) (gusbcfg u) (gintsts u) v
    (grxfsiz u) (gnptxfsiz u) (dptxfsiz u) (dcfg u) (dctl u) (diepmsk u) (doepmsk u) (daintmsk
    u) (ep u) (reset_generation u).
Definition o_grxfsiz (v : Z) (u : s5l_usbotg) : s5l_usbotg :=
  MkOtg (pcgcctl u) (enabled u) (connected u) (gotgint u) (gahbcfg u) (gusbcfg u) (gintsts u)
    (gintmsk u) v (gnptxfsiz u) (dptxfsiz u) (dcfg u) (dctl u) (diepmsk u) (doepmsk u) (daintmsk
    u) (ep u) (reset_generation u).
Definition o_gnptxfsiz (v : Z) (u : s5l_usbotg) : s5l_usbotg :=
  MkOtg (pcgcctl u) (enabled u) (connected u) (gotgint u) (gahbcfg u) (gusbcfg u) (gintsts u)
    (gintmsk u) (grxfsiz u) v (dptxfsiz u) (dcfg u) (dctl u) (diepmsk u) (doepmsk u) (daintmsk
    u) (ep u) (reset_generation u).
Definition o_dptxfsiz (v : Z → Z) (u : s5l_usbotg) : s5l_usbotg :=
  MkOtg (pcgcctl u) (enabled u) (connected u) (gotgint u) (gahbcfg u) (gusbcfg u) (gintsts u)
    (gintmsk u) (grxfsiz u) (gnptxfsiz u) v (dcfg u) (dctl u) (diepmsk u) (doepmsk u) (daintmsk
    u) (ep u) (reset_generation u).
Definition o_dcfg (v : Z) (u : s5l_usbotg) : s5l_usbotg :=
  MkOtg (pcgcctl u) (enabled u) (connected u) (gotgint u) (gahbcfg u) (gusbcfg u) (gintsts u)
    (gintmsk u) (grxfsiz u) (gnptxfsiz u) (dptxfsiz u) v (dctl u) (diepmsk u) (doepmsk u)
    (daintmsk u) (ep u) (reset_generation u).
Definition o_dctl (v : Z) (u : s5l_usbotg) : s5l_usbotg :=
  MkOtg (pcgcctl u) (enabled u) (connected u) (gotgint u) (gahbcfg u) (gusbcfg u) (gintsts u)
    (gintmsk u) (grxfsiz u) (gnptxfsiz u) (dptxfsiz u) (dcfg u) v (diepmsk u) (doepmsk u)
    (daintmsk u) (ep u) (reset_generation u).
Definition o_diepmsk (v : Z) (u : s5l_usbotg) : s5l_usbotg :=
  MkOtg (pcgcctl u) (enabled u) (connected u) (gotgint u) (gahbcfg u) (gusbcfg u) (gintsts u)
    (gintmsk u) (grxfsiz u) (gnptxfsiz u) (dptxfsiz u) (dcfg u) (dctl u) v (doepmsk u) (daintmsk
    u) (ep u) (reset_generation u).
Definition o_doepmsk (v : Z) (u : s5l_usbotg) : s5l_usbotg :=
  MkOtg (pcgcctl u) (enabled u) (connected u) (gotgint u) (gahbcfg u) (gusbcfg u) (gintsts u)
    (gintmsk u) (grxfsiz u) (gnptxfsiz u) (dptxfsiz u) (dcfg u) (dctl u) (diepmsk u) v (daintmsk
    u) (ep u) (reset_generation u).
Definition o_daintmsk (v : Z) (u : s5l_usbotg) : s5l_usbotg :=
  MkOtg (pcgcctl u) (enabled u) (connected u) (gotgint u) (gahbcfg u) (gusbcfg u) (gintsts u)
    (gintmsk u) (grxfsiz u) (gnptxfsiz u) (dptxfsiz u) (dcfg u) (dctl u) (diepmsk u) (doepmsk u)
    v (ep u) (reset_generation u).
Definition o_ep (v : bool → Z → usb_ep) (u : s5l_usbotg) : s5l_usbotg :=
  MkOtg (pcgcctl u) (enabled u) (connected u) (gotgint u) (gahbcfg u) (gusbcfg u) (gintsts u)
    (gintmsk u) (grxfsiz u) (gnptxfsiz u) (dptxfsiz u) (dcfg u) (dctl u) (diepmsk u) (doepmsk u)
    (daintmsk u) v (reset_generation u).
Definition o_reset_generation (v : Z) (u : s5l_usbotg) : s5l_usbotg :=
  MkOtg (pcgcctl u) (enabled u) (connected u) (gotgint u) (gahbcfg u) (gusbcfg u) (gintsts u)
    (gintmsk u) (grxfsiz u) (gnptxfsiz u) (dptxfsiz u) (dcfg u) (dctl u) (diepmsk u) (doepmsk u)
    (daintmsk u) (ep u) v.

Definition set_ep (d : bool) (n : Z) (e : usb_ep) (u : s5l_usbotg) : s5l_usbotg :=
  o_ep (fun d' n' => if eqb d' d && (n' =? n) then e else ep u d' n') u.
Definition map_ep (f : usb_ep → usb_ep) (u : s5l_usbotg) : s5l_usbotg := o_ep (fun d n => f (ep u d n)) u.

Definition s5l_usbotg_reset : s5l_usbotg :=
  MkOtg 0 false false 0 0 0 0 0 0 0 (fun _ => 0) 0 0 0 0 0 (fun _ _ => MkEp 0 0 0 0) 0.

Definition s5l_usbotg_enable (u : s5l_usbotg) : s5l_usbotg :=
  if enabled u then u else map_ep (e_ctl USBOTG_EP_NAK) (o_dctl 0 (o_enabled true u)).

(** ** Interrupts *)

Definition set_if (c : bool) (b x : Z) : Z := if c then x .| b else x.

Definition endpoint_interrupts (u : s5l_usbotg) : Z :=
  foldl (fun bits n =>
           set_if (negb (interrupt (ep u false n) .& doepmsk u =? 0)) (1 .<< (16 + n))
             (set_if (negb (interrupt (ep u true n) .& diepmsk u =? 0)) (1 .<< n) bits))
    0 (seqZ 0 S5L_USB_ENDPOINTS).

Definition interrupts (u : s5l_usbotg) : Z :=
  let eps := endpoint_interrupts u .& daintmsk u in
  set_if (negb (dctl u .& GLOBAL_OUT_NAK =? 0)) (2 ^ 7)
    (set_if (negb (dctl u .& GLOBAL_IN_NAK =? 0)) (2 ^ 6)
       (set_if (negb (gotgint u =? 0)) 4
          (set_if (negb (eps .>> 16 =? 0)) USBOTG_INT_OUT
             (set_if (negb (eps .& 0xffff =? 0)) USBOTG_INT_IN (gintsts u))))).

Definition s5l_usbotg_irq (u : s5l_usbotg) : bool :=
  enabled u && negb (gahbcfg u .& 1 =? 0) && negb (interrupts u .& gintmsk u =? 0).

(** ** Registers *)

(** The endpoint an offset is in, and the register of it. *)
Definition endpoint (off : Z) : option (bool * Z * Z) :=
  let at_ d base := Some (d, (off - base) / 32, (off - base) .& 31) in
  if (0x900 <=? off) && (off <? 0x900 + S5L_USB_ENDPOINTS * 32) then at_ true 0x900
  else if (0xb00 <=? off) && (off <? 0xb00 + S5L_USB_ENDPOINTS * 32) then at_ false 0xb00
  else None.

Definition s5l_usbotg_read (off : Z) (u : s5l_usbotg) : Z :=
  if off =? USBOTG_GHWCFG1 then S5L_DWC2_GHWCFG1
  else if off =? USBOTG_GHWCFG2 then S5L_DWC2_GHWCFG2
  else if off =? USBOTG_GHWCFG4 then S5L_DWC2_GHWCFG4
  else if off =? USBOTG_PCGCCTL then pcgcctl u
  else if negb (enabled u) || negb (off .& 3 =? 0) then 0
  else if off =? USBOTG_GOTGCTL then 2 ^ 16 .| (if connected u then 2 ^ 19 else 0)
  else if off =? USBOTG_GOTGINT then gotgint u
  else if off =? USBOTG_GAHBCFG then gahbcfg u
  else if off =? USBOTG_GUSBCFG then gusbcfg u
  else if off =? USBOTG_GRSTCTL then 2 ^ 31
  else if off =? USBOTG_GINTSTS then interrupts u
  else if off =? USBOTG_GINTMSK then gintmsk u
  else if off =? USBOTG_GRXFSIZ then grxfsiz u
  else if off =? USBOTG_GNPTXFSIZ then gnptxfsiz u
  else if off =? 0x02c then 0x00080000 .| (gnptxfsiz u .>> 16)
  else if off =? 0x040 then 0x4f542800
  else if off =? 0x04c then 0x08000035
  else if off =? USBOTG_DCFG then dcfg u
  else if off =? USBOTG_DCTL then dctl u
  else if off =? USBOTG_DSTS then 0
  else if off =? USBOTG_DIEPMSK then diepmsk u
  else if off =? USBOTG_DOEPMSK then doepmsk u
  else if off =? USBOTG_DAINT then endpoint_interrupts u
  else if off =? USBOTG_DAINTMSK then daintmsk u
  else if (0x104 <=? off) && (off <? 0x140) then dptxfsiz u ((off - 0x104) / 4)
  else match endpoint off with
       | None => 0
       | Some (d, n, reg) =>
         let e := ep u d n in
         if reg =? 0 then ctl e else if reg =? 8 then interrupt e
         else if reg =? 0x10 then size e else if reg =? 0x14 then dma e else 0
       end.

(** A store to an endpoint's control register; [din] is its direction. *)
Definition ep_control (din : bool) (val : Z) (e : usb_ep) : usb_ep :=
  let nak := ctl e .& USBOTG_EP_NAK in
  let pid := ctl e .& 2 ^ 16 in
  let nak := if negb (val .& USBOTG_EP_CNAK =? 0) then 0 else nak in
  let snak := negb (val .& USBOTG_EP_SNAK =? 0) in
  let nak := if snak then USBOTG_EP_NAK else nak in
  let e := if snak && din then e_interrupt (interrupt e .| EP_IN_NAK) e else e in
  let pid := if negb (val .& 2 ^ 28 =? 0) then 0 else pid in
  let pid := if negb (val .& 2 ^ 29 =? 0) then 2 ^ 16 else pid in
  let stops := negb (val .& USBOTG_EP_DISABLE =? 0) && negb (ctl e .& USBOTG_EP_ENABLE =? 0) in
  let e := if stops then e_interrupt (interrupt e .| EP_DISABLED) e else e in
  let val := if stops then val .& wnot USBOTG_EP_ENABLE else val in
  e_ctl (((val .& wnot ((0x7c000000 .| USBOTG_EP_NAK) .| 2 ^ 16)) .| nak) .| pid) e.

(** A store to the reset register with the core reset bit. *)
Definition core_reset (u : s5l_usbotg) : s5l_usbotg :=
  o_reset_generation (reset_generation u +w 1) (o_pcgcctl (pcgcctl u) (o_connected (connected u)
    (s5l_usbotg_enable s5l_usbotg_reset))).

Definition device_control (val : Z) (u : s5l_usbotg) : s5l_usbotg :=
  let nak := dctl u .& (GLOBAL_IN_NAK .| GLOBAL_OUT_NAK) in
  let nak := if negb (val .& 2 ^ 7 =? 0) then nak .| GLOBAL_IN_NAK else nak in
  let nak := if negb (val .& 2 ^ 8 =? 0) then nak .& wnot GLOBAL_IN_NAK else nak in
  let nak := if negb (val .& 2 ^ 9 =? 0) then nak .| GLOBAL_OUT_NAK else nak in
  let nak := if negb (val .& 2 ^ 10 =? 0) then nak .& wnot GLOBAL_OUT_NAK else nak in
  o_dctl ((val .& wnot (0x780 .| 12)) .| nak) u.

Definition s5l_usbotg_write (off val : Z) (u : s5l_usbotg) : s5l_usbotg :=
  if off =? USBOTG_PCGCCTL then o_pcgcctl val u
  else if negb (enabled u) || negb (off .& 3 =? 0) then u
  else if off =? USBOTG_GOTGINT then o_gotgint (gotgint u .& wnot val) u
  else if off =? USBOTG_GAHBCFG then o_gahbcfg val u
  else if off =? USBOTG_GUSBCFG then o_gusbcfg val u
  else if off =? USBOTG_GINTSTS then o_gintsts (gintsts u .& wnot val) u
  else if off =? USBOTG_GINTMSK then o_gintmsk val u
  else if off =? USBOTG_GRXFSIZ then o_grxfsiz val u
  else if off =? USBOTG_GNPTXFSIZ then o_gnptxfsiz val u
  else if off =? USBOTG_DCFG then o_dcfg val u
  else if off =? USBOTG_DIEPMSK then o_diepmsk val u
  else if off =? USBOTG_DOEPMSK then o_doepmsk val u
  else if off =? USBOTG_DAINTMSK then o_daintmsk val u
  else if off =? USBOTG_GRSTCTL then if negb (val .& 1 =? 0) then core_reset u else u
  else if off =? USBOTG_DCTL then device_control val u
  else if (0x104 <=? off) && (off <? 0x140) then o_dptxfsiz (<[(off - 0x104) / 4 := val]> (dptxfsiz u)) u
  else match endpoint off with
       | None => u
       | Some (d, n, reg) =>
         let e := ep u d n in
         if reg =? 0 then set_ep d n (ep_control d val e) u
         else if reg =? 8 then set_ep d n (e_interrupt (interrupt e .& wnot val) e) u
         else if reg =? 0x10 then set_ep d n (e_size val e) u
         else if reg =? 0x14 then set_ep d n (e_dma val e) u
         else u
       end.

(** ** The cable *)

Definition s5l_usbotg_connect (plug : bool) (u : s5l_usbotg) : s5l_usbotg :=
  if negb (enabled u) || eqb (connected u) plug then u
  else
    let u := o_connected plug u in
    if plug then o_gintsts (gintsts u .| 2 ^ 30) u
    else map_ep (fun e => e_ctl (ctl e .& wnot USBOTG_EP_ENABLE) e)
           (o_gintsts (gintsts u .| 2 ^ 29) (o_gotgint (gotgint u .| 2 ^ 2) u)).

Definition s5l_usbotg_bus_reset (u : s5l_usbotg) : bool * s5l_usbotg :=
  if negb (enabled u) || negb (connected u) || negb (dctl u .& SOFT_DISCONNECT =? 0) then (false, u)
  else
    let clear e := e_interrupt 0 (e_ctl ((ctl e .& wnot (USBOTG_EP_ENABLE .| USBOTG_EP_STALL)) .| USBOTG_EP_NAK) e) in
    (true, o_gintsts (gintsts u .| USBOTG_INT_RESET) (map_ep clear (o_dcfg (dcfg u .& wnot (Z.shiftl 0x7f 4)) u))).

Definition s5l_usbotg_enumerated (u : s5l_usbotg) : bool * s5l_usbotg :=
  if negb (enabled u) || negb (connected u) || negb (dctl u .& SOFT_DISCONNECT =? 0)
     || negb (gintsts u .& USBOTG_INT_RESET =? 0) then (false, u)
  else (true, o_gintsts (gintsts u .| USBOTG_INT_ENUM) u).

(** ** Packets *)

(** The machine around the controller: guest RAM, the store that tells derived views of it,
    and the refresh of interrupt lines. *)
Class UsbMachine (M : Type) := {
  usbotg : M → s5l_usbotg; with_usbotg : s5l_usbotg → M → M;
  ram : M → list Z; ram_base : M → Z; s5l8900_load : Z → list Z → M → M; refresh : M → M }.

(** A token with its buffer: what the host sends, or how much it can take. *)
Inductive usb_token := USB_OUT (data : list Z) | USB_IN (room : Z) | USB_SETUP (data : list Z).
Inductive usb_result := USB_ACK | USB_NAK | USB_STALL | USB_DISCONNECTED | USB_INVALID | USB_DMA_ERROR.
#[export] Instance usb_result_eq_dec : EqDecision usb_result.
Proof. solve_decision. Defined.

Definition token_length (t : usb_token) : Z := match t with USB_OUT l | USB_SETUP l => blen l | USB_IN room => room end.
Definition is_in (t : usb_token) : bool := match t with USB_IN _ => true | _ => false end.
Definition is_setup (t : usb_token) : bool := match t with USB_SETUP _ => true | _ => false end.

Definition max_packet (n : Z) (e : usb_ep) : Z := if n =? 0 then 64 .>> (ctl e .& 3) else ctl e .& 0x7ff.
Definition size_bytes (n : Z) (e : usb_ep) : Z := size e .& (if n =? 0 then 0x7f else SIZE_BYTES).
Definition size_packets (e : usb_ep) : Z := (size e .& SIZE_PACKETS) .>> 19.

(** The endpoint after an accepted packet of [count] octets. *)
Definition after_packet (setup : bool) (n count mps : Z) (e : usb_ep) : usb_ep :=
  let remaining := size_bytes n e -w count in
  let packets := if size_packets e =? 0 then 0 else size_packets e - 1 in
  let e := e_size (((size e .& wnot (SIZE_BYTES .| SIZE_PACKETS)) .| remaining) .| (packets .<< 19)) (e_dma (dma e +w count) e) in
  if setup then
    e_ctl ((ctl e .& wnot USBOTG_EP_STALL) .& wnot USBOTG_EP_ENABLE)
      (e_interrupt (interrupt e .| EP_SETUP) (e_size (size e -w 2 ^ 29) e))
  else if (remaining =? 0) || (packets =? 0) || (count <? mps) then
    e_ctl (ctl e .& wnot USBOTG_EP_ENABLE) (e_interrupt (interrupt e .| EP_COMPLETE) e)
  else e.
Definition toggle (n : Z) (e : usb_ep) : usb_ep := if n =? 0 then e else e_ctl (ctl e .^ 2 ^ 16) e.

(** Why a packet is not taken, or how many octets it moves. *)
Definition packet_count (t : usb_token) (n : Z) (u : s5l_usbotg) : usb_result + Z :=
  let setup := is_setup t in
  let length := token_length t in
  if (S5L_USB_ENDPOINTS <=? n) || (setup && (negb (n =? 0) || negb (length =? 8))) then inl USB_INVALID
  else if negb (enabled u) || negb (connected u) || negb (dctl u .& SOFT_DISCONNECT =? 0) then inl USB_DISCONNECTED
  else
    let d := is_in t in
    let e := ep u d n in
    if negb setup && negb (ctl e .& USBOTG_EP_STALL =? 0) then inl USB_STALL
    else if (gahbcfg u .& 2 ^ 5 =? 0) || negb (dcfg u .& 2 ^ 23 =? 0) then inl USB_INVALID
    else if ctl e .& USBOTG_EP_ENABLE =? 0 then inl USB_NAK
    else if negb setup && (negb (ctl e .& USBOTG_EP_NAK =? 0)
              || negb (dctl u .& (if d then GLOBAL_IN_NAK else GLOBAL_OUT_NAK) =? 0)) then inl USB_NAK
    else
      let mps := max_packet n e in
      let remaining := size_bytes n e in
      if (mps =? 0) || (1024 <? mps) || (negb setup && (size_packets e =? 0)) then inl USB_INVALID
      else
        let count := if d then (if remaining <? mps then remaining else mps) else length in
        if d && (length <? count) then inl USB_INVALID
        else if negb d && negb setup && ((mps <? count) || (remaining <? count)) then inl USB_INVALID
        else if setup && ((size e .>> 29 =? 0) || (remaining <? 8)) then inl USB_NAK
        else inr count.

Section packet.
Context {M : Type} {HM : UsbMachine M}.

Definition outside_ram (m : M) (addr count : Z) : bool :=
  (addr <? ram_base m) || (blen (ram m) <? count) || (blen (ram m) <? (addr - ram_base m) + count).

Definition dma_error (d : bool) (n : Z) (m : M) : M :=
  let u := usbotg m in
  let e := ep u d n in
  refresh (with_usbotg (set_ep d n (e_ctl (ctl e .& wnot USBOTG_EP_ENABLE) (e_interrupt (interrupt e .| EP_AHB_ERROR) e)) u) m).

(** The answer, how many octets moved and those the host got. *)
Definition s5l8900_usb_packet (t : usb_token) (n : Z) (m : M) : option (usb_result * Z * list Z * M) :=
  match packet_count t n (usbotg m) with
  | inl r => Some (r, 0, [], m)
  | inr count =>
    let d := is_in t in
    let e := ep (usbotg m) d n in
    if negb (count =? 0) && outside_ram m (dma e) count then Some (USB_DMA_ERROR, 0, [], dma_error d n m)
    else
      got ← (if d && negb (count =? 0) then get_bytes (ram m) (dma e - ram_base m) count else Some []);
      let m := match t with
               | USB_OUT data | USB_SETUP data => if count =? 0 then m else s5l8900_load (dma e) data m
               | USB_IN _ => m
               end in
      let u := set_ep d n (toggle n (after_packet (is_setup t) n count (max_packet n e) e)) (usbotg m) in
      let u := if is_setup t then
                 let i := ep u true 0 in
                 set_ep true 0 (e_interrupt 0 (e_ctl (ctl i .& wnot (USBOTG_EP_STALL .| USBOTG_EP_ENABLE)) i)) u
               else u in
      Some (USB_ACK, count, got, refresh (with_usbotg u m))
  end.
End packet.

(** ** A transfer *)

(** An endpoint the guest has armed: [left] octets and [packets] packets to go, at [addr]. *)
Record armed (mps left packets addr : Z) (e : usb_ep) : Prop := {
  am_enable : bit (ctl e) 31 = true; am_nak : bit (ctl e) 17 = false; am_stall : bit (ctl e) 21 = false;
  am_mps : ctl e .& 0x7ff = mps; am_left : size e .& SIZE_BYTES = left; am_packets : size_packets e = packets;
  am_addr : dma e = addr }.
Record done_with (left : Z) (e : usb_ep) : Prop := {
  dn_enable : bit (ctl e) 31 = false; dn_stall : bit (ctl e) 21 = false; dn_complete : bit (interrupt e) 0 = true;
  dn_left : size e .& SIZE_BYTES = left }.

Lemma uint_size_bytes x : uint 19 (x .& SIZE_BYTES).
Proof. change SIZE_BYTES with (Z.ones 19). rewrite Z.land_ones by lia. apply Z.mod_pos_bound. lia. Qed.
Lemma uint_size_packets e : uint 10 (size_packets e).
Proof.
  unfold size_packets. change SIZE_PACKETS with (mask 19 10). apply uint_bits; [lia| |].
  - apply Z.shiftr_nonneg, Z.land_nonneg. right. done.
  - intros i Hi. rewrite Z.shiftr_spec, Z.land_spec, testbit_mask by lia.
    rewrite (proj2 (Z.ltb_ge (i + 19) _)) by lia. by rewrite !andb_false_r.
Qed.

(** The size register with both counters replaced. *)
Lemma size_fields x r p : uint 19 r → uint 10 p →
  let y := ((x .& wnot (SIZE_BYTES .| SIZE_PACKETS)) .| r) .| (p .<< 19) in
  y .& SIZE_BYTES = r ∧ (y .& SIZE_PACKETS) .>> 19 = p.
Proof.
  intros Hr Hp y. change SIZE_PACKETS with (mask 19 10). change SIZE_BYTES with (mask 0 19) in *.
  assert (B : ∀ i, 0 <= i → Z.testbit y i = (Z.testbit x i && xorb (((0 <=? i) && (i <? 0 + 19)) || ((19 <=? i) && (i <? 19 + 10))) (i <? 32)
               || Z.testbit r i) || ((i <? 32) && ((19 <=? i) && Z.testbit p (i - 19)))).
  { intros i Hi. unfold y. change SIZE_PACKETS with (mask 19 10). autorewrite with bitspec. repeat f_equal.
    destruct (Z.leb_spec 19 i); [done|]. by rewrite Z.testbit_neg_r by lia. }
  split; apply Z.bits_inj'; intros i Hi.
  - rewrite Z.land_spec, B, testbit_mask by lia. destruct (Z.ltb_spec i 19).
    + rewrite (proj2 (Z.leb_le 0 i)), !(proj2 (Z.ltb_lt i _)), (proj2 (Z.leb_gt 19 i)) by lia.
      by rewrite andb_false_r, andb_true_r, orb_false_r.
    + rewrite (uint_high 19 r i) by (done || lia). rewrite (proj2 (Z.ltb_ge i (0 + 19))) by lia. by rewrite !andb_false_r.
  - rewrite Z.shiftr_spec, Z.land_spec, B, testbit_mask by lia. rewrite (uint_high 19 r (i + 19)) by (done || lia).
    rewrite (proj2 (Z.leb_le 19 (i + 19))), (proj2 (Z.ltb_ge (i + 19) (0 + 19))), Z.add_simpl_r by lia.
    destruct (Z.ltb_spec (i + 19) (19 + 10)).
    + rewrite (proj2 (Z.ltb_lt (i + 19) 32)) by lia. by rewrite !andb_false_r, orb_false_l, andb_true_r.
    + rewrite (uint_high 10 p i) by (done || lia). by rewrite !andb_false_r.
Qed.

Lemma pow_bit i k : 0 <= k → bit (2 ^ k) i = (k =? i).
Proof. intros. unfold bit. apply Z.pow2_bits_eqb. done. Qed.

(** Bits of the control register that a packet does not touch. *)
Lemma ctl_kept x y : (∀ i, 0 <= i < 32 → i ≠ 31 → i ≠ 16 → bit y i = bit x i) →
  bit y 17 = bit x 17 ∧ bit y 21 = bit x 21 ∧ y .& 0x7ff = x .& 0x7ff.
Proof.
  intros H. split; [by apply H|]. split; [by apply H|]. change 0x7ff with (Z.ones 11).
  apply Z.bits_inj'. intros i Hi. rewrite !Z.land_spec, Z.testbit_ones_nonneg by lia.
  destruct (Z.ltb_spec i 11); [|by rewrite !andb_false_r]. rewrite !andb_true_r. apply H; lia.
Qed.

Lemma toggle_fields n e : bit (ctl (toggle n e)) 31 = bit (ctl e) 31
  ∧ (∀ i, 0 <= i < 32 → i ≠ 31 → i ≠ 16 → bit (ctl (toggle n e)) i = bit (ctl e) i)
  ∧ interrupt (toggle n e) = interrupt e ∧ size (toggle n e) = size e ∧ dma (toggle n e) = dma e.
Proof.
  unfold toggle. destruct (n =? 0); [done|]. cbn [ctl interrupt size dma e_ctl]. split_and!; try done.
  - rewrite bit_lxor, pow_bit by done. change (16 =? 31) with false. apply xorb_false_r.
  - intros i _ _ N. rewrite bit_lxor, pow_bit by done. rewrite (proj2 (Z.eqb_neq _ _)) by done. apply xorb_false_r.
Qed.

Definition ends (left packets mps count : Z) : bool := (left - count =? 0) || (packets - 1 =? 0) || (count <? mps).

Lemma packet_moves n mps left packets addr count e : n ≠ 0 → armed mps left packets addr e → 0 < packets →
  0 <= count <= left → 0 <= addr → addr + count < 2 ^ 32 →
  let e' := toggle n (after_packet false n count mps e) in
  if ends left packets mps count then done_with (left - count) e'
  else armed mps (left - count) (packets - 1) (addr + count) e'.
Proof.
  intros Hn A Hp Hc Ha Hw e'. pose proof (uint_size_bytes (size e)) as Ul. rewrite (am_left _ _ _ _ _ A) in Ul.
  pose proof (uint_size_packets e) as Up. rewrite (am_packets _ _ _ _ _ A) in Up.
  assert (Sb : size_bytes n e = left) by (unfold size_bytes; rewrite (proj2 (Z.eqb_neq n 0)) by done; apply A).
  assert (E1 : size_bytes n e -w count = left - count) by (rewrite Sb; apply w32_small; unfold uint in *; lia).
  assert (E2 : (if size_packets e =? 0 then 0 else size_packets e - 1) = packets - 1)
    by (rewrite (am_packets _ _ _ _ _ A), (proj2 (Z.eqb_neq _ _)) by lia; done).
  destruct (size_fields (size e) (left - count) (packets - 1)) as [F1 F2]; [unfold uint in *; lia..|].
  unfold e', after_packet. cbv zeta. rewrite E1, E2. fold (ends left packets mps count).
  set (sz := ((size e .& _) .| _) .| _) in *. destruct A as [A1 A2 A3 A4 A5 A6 A7]. rewrite A7, (w32_small (addr + count)) by (split; lia).
  match goal with |- context [toggle n ?x] => set (f := x) end.
  destruct (toggle_fields n f) as (T1 & T2 & T3 & T4 & T5). destruct (ctl_kept _ _ T2) as (K1 & K2 & K3).
  destruct (ends left packets mps count) eqn:E.
  - assert (Cl : ∀ i, 0 <= i < 32 → bit (ctl f) i = bit (ctl e) i && negb (i =? 31)).
    { intros i Hi. unfold f. cbn [ctl e_ctl e_interrupt e_size e_dma]. rewrite bit_land, bit_wnot by done. unfold USBOTG_EP_ENABLE. rewrite pow_bit by done. by rewrite Z.eqb_sym. }
    split; [rewrite T1, Cl by done; apply andb_false_r|rewrite K2, Cl, A3 by done; done| |rewrite T4; exact F1].
    rewrite T3. unfold f. cbn [interrupt e_ctl e_interrupt e_size e_dma]. rewrite bit_lor. apply orb_true_r.
  - split; [by rewrite T1|by rewrite K1|by rewrite K2|by rewrite K3|by rewrite T4|unfold size_packets; by rewrite T4|by rewrite T5].
Qed.

(** The controller while the link is up and packets of direction [d] are let through. *)
Record link_up (d : bool) (u : s5l_usbotg) : Prop := {
  lu_enabled : enabled u = true; lu_connected : connected u = true; lu_soft : bit (dctl u) 1 = false;
  lu_dma : bit (gahbcfg u) 5 = true; lu_desc : bit (dcfg u) 23 = false; lu_global : bit (dctl u) (if d then 2 else 3) = false }.

Lemma count_armed t n mps left packets addr u : is_setup t = false → link_up (is_in t) u → 0 < n < S5L_USB_ENDPOINTS →
  armed mps left packets addr (ep u (is_in t) n) → 0 < mps <= 1024 → 0 < packets →
  packet_count t n u = (if is_in t then
      let count := if left <? mps then left else mps in if token_length t <? count then inl USB_INVALID else inr count
    else if (mps <? token_length t) || (left <? token_length t) then inl USB_INVALID else inr (token_length t)).
Proof.
  intros Hs L Hn A Hm Hp. unfold packet_count. rewrite Hs. cbv zeta. cbn [negb andb orb].
  rewrite (proj2 (Z.leb_gt _ _)) by lia. cbn [orb].
  destruct L as [L1 L2 L3 L4 L5 L6]. rewrite L1, L2. cbn [negb orb]. change SOFT_DISCONNECT with (2 ^ 1).
  rewrite land_bit_zero, L3 by lia. cbn [negb].
  set (e := ep u (is_in t) n) in *. unfold USBOTG_EP_STALL, USBOTG_EP_ENABLE, USBOTG_EP_NAK.
  rewrite !land_bit_zero, (am_stall _ _ _ _ _ A), L4, L5, (am_enable _ _ _ _ _ A), (am_nak _ _ _ _ _ A) by lia. cbn [negb orb].
  assert (G : (dctl u .& (if is_in t then GLOBAL_IN_NAK else GLOBAL_OUT_NAK) =? 0) = true).
  { destruct (is_in t); [change GLOBAL_IN_NAK with (2 ^ 2)|change GLOBAL_OUT_NAK with (2 ^ 3)]; rewrite land_bit_zero, L6 by lia; done. }
  rewrite G. cbn [negb]. assert (Mp : max_packet n e = mps) by (unfold max_packet; rewrite (proj2 (Z.eqb_neq n 0)) by lia; apply A).
  assert (Sb : size_bytes n e = left) by (unfold size_bytes; rewrite (proj2 (Z.eqb_neq n 0)) by lia; apply A).
  rewrite Mp, Sb, (am_packets _ _ _ _ _ A). rewrite (proj2 (Z.eqb_neq mps 0)), (proj2 (Z.ltb_ge 1024 mps)), (proj2 (Z.eqb_neq packets 0)) by lia.
  cbn [orb]. destruct (is_in t); cbn [negb andb]; [done|]. by destruct (_ || _).
Qed.

(** A completed endpoint answers nothing until it is armed again. *)
Lemma count_done t n left u : is_setup t = false → link_up (is_in t) u → 0 < n < S5L_USB_ENDPOINTS →
  done_with left (ep u (is_in t) n) → packet_count t n u = inl USB_NAK.
Proof.
  intros Hs L Hn A. unfold packet_count. rewrite Hs. cbv zeta. cbn [negb andb orb].
  rewrite (proj2 (Z.leb_gt _ _)) by lia. cbn [orb].
  destruct L as [L1 L2 L3 L4 L5 L6]. rewrite L1, L2. cbn [negb orb]. change SOFT_DISCONNECT with (2 ^ 1).
  rewrite land_bit_zero, L3 by lia. cbn [negb]. unfold USBOTG_EP_STALL, USBOTG_EP_ENABLE, USBOTG_EP_NAK.
  rewrite !land_bit_zero, (dn_stall _ _ A), L4, L5, (dn_enable _ _ A) by lia. done.
Qed.

Lemma ep_set d n e u d' n' : ep (set_ep d n e u) d' n' = if eqb d' d && (n' =? n) then e else ep u d' n'.
Proof. done. Qed.
Lemma ep_set_same d n e u : ep (set_ep d n e u) d n = e.
Proof. rewrite ep_set, eqb_reflx, Z.eqb_refl. done. Qed.

(** What the machine owes the controller.  [ram_refresh] says that nothing else writes guest
    RAM meanwhile: no DMA channel is running. *)
Class UsbMachineOk (M : Type) {HM : UsbMachine M} : Prop := {
  otg_with u (m : M) : usbotg (with_usbotg u m) = u;
  ram_with u (m : M) : ram (with_usbotg u m) = ram m;
  base_with u (m : M) : ram_base (with_usbotg u m) = ram_base m;
  otg_load a l (m : M) : usbotg (s5l8900_load a l m) = usbotg m;
  ram_load a l (m : M) r : put_bytes (ram m) (a - ram_base m) l = Some r → ram (s5l8900_load a l m) = r;
  base_load a l (m : M) : ram_base (s5l8900_load a l m) = ram_base m;
  otg_refresh (m : M) : usbotg (refresh m) = usbotg m;
  ram_refresh (m : M) : ram (refresh m) = ram m;
  base_refresh (m : M) : ram_base (refresh m) = ram_base m }.

Section transfer.
Context {M : Type} {HM : UsbMachine M} {HMok : UsbMachineOk M}.
Context (n mps : Z) (Hn : 0 < n < S5L_USB_ENDPOINTS) (Hm : 0 < mps <= 1024).

(** The guest gave [left] octets of RAM at [addr]. *)
Definition buffer_in_ram (m : M) (addr left : Z) : Prop :=
  ram_base m <= addr ∧ addr + left <= ram_base m + blen (ram m) ∧ addr + left < 2 ^ 32 ∧ 0 <= ram_base m.

Lemma inside_ram (m : M) addr left count : buffer_in_ram m addr left → 0 <= count <= left → outside_ram m addr count = false.
Proof.
  intros (B1 & B2 & _) Hc. unfold outside_ram. rewrite !(proj2 (Z.ltb_ge _ _)) by lia. done.
Qed.

Lemma put_nothing dst off : 0 <= off <= blen dst → put_bytes dst off [] = Some dst.
Proof.
  intros H. unfold put_bytes. rewrite (proj2 (Z.ltb_ge off 0)), (proj2 (Z.ltb_ge _ _)) by (unfold blen in *; simpl; lia).
  simpl. by rewrite Nat.add_0_r, take_drop.
Qed.

Lemma machine_after (u : s5l_usbotg) (m : M) : usbotg (refresh (with_usbotg u m)) = u ∧ ram (refresh (with_usbotg u m)) = ram m
  ∧ ram_base (refresh (with_usbotg u m)) = ram_base m.
Proof. by rewrite otg_refresh, ram_refresh, base_refresh, otg_with, ram_with, base_with. Qed.

(** The machine after an accepted packet: only the endpoint and, for OUT, the octets. *)
Record moved (d : bool) (count : Z) (l : list Z) (addr : Z) (m m' : M) : Prop := {
  mv_otg : usbotg m' = set_ep d n (toggle n (after_packet false n count mps (ep (usbotg m) d n))) (usbotg m);
  mv_ram : if d then ram m' = ram m else put_bytes (ram m) (addr - ram_base m) l = Some (ram m');
  mv_base : ram_base m' = ram_base m }.

Lemma out_packet l left packets addr (m : M) : link_up false (usbotg m) → armed mps left packets addr (ep (usbotg m) false n) →
  0 < packets → blen l <= mps → blen l <= left → buffer_in_ram m addr left → ∃ m',
  s5l8900_usb_packet (USB_OUT l) n m = Some (USB_ACK, blen l, [], m') ∧ moved false (blen l) l addr m m'.
Proof.
  intros L A Hp H1 H2 B. unfold s5l8900_usb_packet.
  pose proof (count_armed (USB_OUT l) n mps left packets addr (usbotg m) eq_refl L Hn A Hm Hp) as C.
  cbn [is_in token_length] in C. rewrite !(proj2 (Z.ltb_ge _ _)) in C by done. cbn [orb] in C. rewrite C. clear C.
  cbn [is_in is_setup]. cbv zeta. set (e := ep (usbotg m) false n) in *.
  rewrite (am_addr _ _ _ _ _ A), (inside_ram m addr left) by (done || (pose proof (Nat2Z.is_nonneg (length l)); unfold blen in *; lia)).
  rewrite andb_false_r. cbn [andb mbind option_bind].
  assert (Mp : max_packet n e = mps) by (unfold max_packet; rewrite (proj2 (Z.eqb_neq n 0)) by lia; apply A). rewrite Mp.
  set (f := after_packet false n (blen l) mps e).
  set (m1 := if blen l =? 0 then m else s5l8900_load addr l m).
  eexists. split; [done|].
  assert (P : put_bytes (ram m) (addr - ram_base m) l = Some (ram m1) ∧ ram_base m1 = ram_base m ∧ usbotg m1 = usbotg m).
  { unfold m1. destruct B as (B1 & B2 & _). destruct (Z.eqb_spec (blen l) 0) as [Z0|N0].
    - assert (l = []) as -> by (destruct l; [done|unfold blen in Z0; simpl in Z0; lia]). split; [|done].
      apply put_nothing. change (blen []) with 0 in H2. lia.
    - destruct (put_bytes_inside (ram m) (addr - ram_base m) l) as (r & Er & _); [lia|lia|].
      rewrite (ram_load addr l m r Er), base_load, otg_load. by split_and!. }
  destruct P as (P1 & P2 & P3). change (if blen l =? 0 then m else s5l8900_load addr l m) with m1. rewrite P3.
  destruct (machine_after (set_ep false n (toggle n f) (usbotg m)) m1) as (E1 & E2 & E3).
  split; [by rewrite E1|by rewrite E2, P1|by rewrite E3, P2].
Qed.

Lemma in_packet room left packets addr (m : M) : link_up true (usbotg m) → armed mps left packets addr (ep (usbotg m) true n) →
  0 < packets → 0 <= left → mps <= room → buffer_in_ram m addr left → ∃ m' l,
  let count := Z.min left mps in
  s5l8900_usb_packet (USB_IN room) n m = Some (USB_ACK, count, l, m') ∧ moved true count l addr m m'
  ∧ get_bytes (ram m) (addr - ram_base m) count = Some l.
Proof.
  intros L A Hp Hl Hr B. cbv zeta. unfold s5l8900_usb_packet.
  pose proof (count_armed (USB_IN room) n mps left packets addr (usbotg m) eq_refl L Hn A Hm Hp) as C.
  cbn [is_in token_length] in C. cbv zeta in C.
  assert (Ec : (if left <? mps then left else mps) = Z.min left mps) by (destruct (Z.ltb_spec left mps); lia).
  rewrite Ec, (proj2 (Z.ltb_ge _ _)) in C by lia. rewrite C. clear C Ec.
  cbn [is_in is_setup]. cbv zeta. set (e := ep (usbotg m) true n) in *. set (count := Z.min left mps) in *.
  assert (Hc : 0 <= count <= left) by lia.
  rewrite (am_addr _ _ _ _ _ A), (inside_ram m addr left) by done. rewrite andb_false_r. cbn [andb].
  destruct B as (B1 & B2 & _). destruct (get_bytes_inside (ram m) (addr - ram_base m) count) as (l & El & _); [lia..|].
  assert (Eg : (if negb (count =? 0) then get_bytes (ram m) (addr - ram_base m) count else Some []) = Some l).
  { destruct (Z.eqb_spec count 0) as [Z0|]; [|done]. rewrite Z0 in El. cbn in El. by injection El as <-. }
  rewrite Eg. cbn [mbind option_bind].
  assert (Mp : max_packet n e = mps) by (unfold max_packet; rewrite (proj2 (Z.eqb_neq n 0)) by lia; apply A). rewrite Mp.
  set (f := after_packet false n count mps e).
  eexists _, l. split; [done|].
  destruct (machine_after (set_ep true n (toggle n f) (usbotg m)) m) as (E1 & E2 & E3). by split.
Qed.

(** *** Endpoint and interrupt after a packet *)

Lemma moved_ep d count l addr m m' : moved d count l addr m m' →
  ep (usbotg m') d n = toggle n (after_packet false n count mps (ep (usbotg m) d n))
  ∧ (link_up d (usbotg m) → link_up d (usbotg m'))
  ∧ (∀ d' k, d' ≠ d ∨ k ≠ n → ep (usbotg m') d' k = ep (usbotg m) d' k).
Proof.
  intros [E _ _]. rewrite E. split; [apply ep_set_same|]. split; [by intros []|]. intros d' k N. rewrite ep_set.
  destruct (eqb d' d) eqn:Ed, (Z.eqb_spec k n); try done. apply eqb_prop in Ed. by destruct N.
Qed.

Lemma endpoint_bit u d : done_with 0 (ep u d n) ∨ bit (interrupt (ep u d n)) 0 = true → bit (if d then diepmsk u else doepmsk u) 0 = true →
  bit (endpoint_interrupts u) (if d then n else 16 + n) = true.
Proof.
  intros H Hm0. assert (B : bit (interrupt (ep u d n)) 0 = true) by (destruct H as [[] |]; done). clear H.
  assert (K : negb (interrupt (ep u d n) .& (if d then diepmsk u else doepmsk u) =? 0) = true).
  { apply negb_true_iff, Z.eqb_neq. intros E. apply (f_equal (fun x => bit x 0)) in E. by rewrite bit_land, B, Hm0 in E. }
  unfold endpoint_interrupts. change (seqZ 0 S5L_USB_ENDPOINTS) with [0; 1; 2; 3; 4; 5]. unfold S5L_USB_ENDPOINTS in Hn. cbn [foldl].
  assert (C : n = 1 ∨ n = 2 ∨ n = 3 ∨ n = 4 ∨ n = 5) by lia.
  assert (S : ∀ c k x i, 0 <= k < 32 → 0 <= i → bit (set_if c (1 .<< k) x) i = bit x i || (c && (i =? k))).
  { intros c k x i Hk Hi. unfold set_if. destruct c; [by apply bit_lor_pow|by rewrite orb_false_r]. }
  destruct d, C as [-> | [-> | [-> | [-> | ->]]]]; rewrite !S by lia; rewrite K;
    cbn [Z.eqb Z.add Pos.eqb Pos.add andb]; rewrite ?orb_true_r; done.
Qed.

(** The masks that let the completion of this endpoint through to the interrupt line. *)
Definition reports (d : bool) (u : s5l_usbotg) : Prop :=
  bit (gahbcfg u) 0 = true ∧ bit (if d then diepmsk u else doepmsk u) 0 = true
  ∧ bit (daintmsk u) (if d then n else 16 + n) = true ∧ bit (gintmsk u) (if d then 18 else 19) = true.

Lemma reported d left u : enabled u = true → reports d u → done_with left (ep u d n) → s5l_usbotg_irq u = true.
Proof.
  intros En (R1 & R2 & R3 & R4) D. unfold s5l_usbotg_irq. rewrite En. change 1 with (2 ^ 0) at 1.
  rewrite land_bit_zero, R1 by lia. cbn [negb andb].
  apply negb_true_iff, Z.eqb_neq. intros E. apply (f_equal (fun x => bit x (if d then 18 else 19))) in E.
  rewrite bit_land, R4, bit_0, andb_true_r in E. revert E.
  assert (Bn : bit (endpoint_interrupts u .& daintmsk u) (if d then n else 16 + n) = true).
  { rewrite bit_land, R3, andb_true_r. apply endpoint_bit; [right; apply D|done]. }
  set (eps := endpoint_interrupts u .& daintmsk u) in *. unfold interrupts. cbv zeta. fold eps.
  assert (S : ∀ c k x i, 0 <= k → bit (set_if c (2 ^ k) x) i = bit x i || (c && (k =? i))).
  { intros c k x i Hk. unfold set_if. destruct c; [by rewrite bit_lor, pow_bit|by rewrite orb_false_r]. }
  change 4 with (2 ^ 2). unfold USBOTG_INT_OUT, USBOTG_INT_IN. rewrite !S by lia. unfold S5L_USB_ENDPOINTS in Hn.
  assert (K : (if d then negb (eps .& 0xffff =? 0) else negb (eps .>> 16 =? 0)) = true).
  { destruct d; apply negb_true_iff, Z.eqb_neq; intros E.
    - apply (f_equal (fun x => bit x n)) in E. rewrite bit_land, Bn, bit_0 in E. change 0xffff with (Z.ones 16) in E.
      unfold bit in E. rewrite Z.testbit_ones_nonneg in E by lia. rewrite (proj2 (Z.ltb_lt _ _)) in E by lia. done.
    - apply (f_equal (fun x => bit x n)) in E. unfold bit in E. rewrite Z.shiftr_spec, Z.testbit_0_l in E by lia.
      unfold bit in Bn. by rewrite Z.add_comm, Bn in E. }
  destruct d; rewrite K; cbn [Z.eqb Pos.eqb andb]; rewrite ?orb_true_r; done.
Qed.
End transfer.

Section whole_transfer.
Context {M : Type} {HM : UsbMachine M} {HMok : UsbMachineOk M}.
Context (n mps : Z) (Hn : 0 < n < S5L_USB_ENDPOINTS) (Hm : 0 < mps <= 1024).

(** The host's packets, one after the other. *)
Fixpoint send_all (ls : list (list Z)) (m : M) : option (list usb_result * M) :=
  match ls with
  | [] => Some ([], m)
  | l :: ls => '(r, _, _, m) ← s5l8900_usb_packet (USB_OUT l) n m; '(rs, m) ← send_all ls m; Some (r :: rs, m)
  end.
(** Polling for packets until one is refused; the fuel is the number of polls. *)
Fixpoint receive_all (fuel : nat) (room : Z) (m : M) : option (usb_result * list (list Z) * M) :=
  match fuel with
  | O => None
  | S fuel =>
    '(r, _, l, m) ← s5l8900_usb_packet (USB_IN room) n m;
    if decide (r = USB_ACK) then '(r, ls, m) ← receive_all fuel room m; Some (r, l :: ls, m) else Some (r, [], m)
  end.

(** Packets that fill a buffer of [left] octets and [packets] packets: whole ones up to the
    one that ends the transfer. *)
Inductive cut : Z → Z → list (list Z) → Prop :=
  | cut_last l left packets : blen l <= mps → blen l <= left → 0 < packets → ends left packets mps (blen l) = true → cut left packets [l]
  | cut_more l ls left packets : blen l = mps → mps <= left → 0 < packets → ends left packets mps mps = false →
      cut (left - mps) (packets - 1) ls → cut left packets (l :: ls).

Lemma buffer_tail (m m' : M) addr left k : buffer_in_ram m addr left → ram_base m' = ram_base m → blen (ram m') = blen (ram m) →
  0 <= k <= left → buffer_in_ram m' (addr + k) (left - k).
Proof. intros (B1 & B2 & B3 & B4) E1 E2 Hk. unfold buffer_in_ram. rewrite E1, E2. lia. Qed.

Lemma armed_after d count l addr left packets (m m' : M) : moved n mps d count l addr m m' → armed mps left packets addr (ep (usbotg m) d n) →
  0 < packets → 0 <= count <= left → buffer_in_ram m addr left → link_up d (usbotg m) →
  link_up d (usbotg m') ∧ (∀ d' k, d' ≠ d ∨ k ≠ n → ep (usbotg m') d' k = ep (usbotg m) d' k) ∧
  if ends left packets mps count then done_with (left - count) (ep (usbotg m') d n)
  else armed mps (left - count) (packets - 1) (addr + count) (ep (usbotg m') d n).
Proof.
  intros Mv A Hp Hc (B1 & B2 & B3 & B4) L. destruct (moved_ep n mps d count l addr m m' Mv) as (E & L' & O).
  split; [by apply L'|]. split; [done|]. rewrite E. apply (packet_moves n mps left packets addr count); [lia|done..|lia|lia].
Qed.

Lemma put_base dst off l r : put_bytes dst off l = Some r → blen r = blen dst.
Proof. apply put_bytes_blen. Qed.

Lemma out_all left packets ls : cut left packets ls → ∀ (m : M) addr, link_up false (usbotg m) →
  armed mps left packets addr (ep (usbotg m) false n) → buffer_in_ram m addr left → ∃ m',
  send_all ls m = Some (replicate (length ls) USB_ACK, m')
  ∧ put_bytes (ram m) (addr - ram_base m) (concat ls) = Some (ram m') ∧ link_up false (usbotg m')
  ∧ done_with (left - blen (concat ls)) (ep (usbotg m') false n)
  ∧ ∀ d' k, d' ≠ false ∨ k ≠ n → ep (usbotg m') d' k = ep (usbotg m) d' k.
Proof.
  induction 1 as [l left packets H1 H2 Hp He|l ls left packets H1 H2 Hp He _ IH]; intros m addr L A B.
  - destruct (out_packet n mps Hn Hm l left packets addr m L A Hp H1 H2 B) as (m' & E & Mv).
    destruct (armed_after false (blen l) l addr left packets m m' Mv A Hp) as (L' & O & D); [unfold blen in *; lia|done..|].
    rewrite He in D. exists m'. cbn [send_all]. rewrite E. cbn [mbind option_bind concat length replicate]. rewrite app_nil_r.
    split_and!; try done. apply Mv.
  - destruct (out_packet n mps Hn Hm l left packets addr m L A Hp ltac:(lia) ltac:(lia) B) as (m1 & E & Mv). rewrite H1 in *.
    destruct (armed_after false mps l addr left packets m m1 Mv A Hp) as (L1 & O1 & A1); [lia|done..|]. rewrite He in A1.
    pose proof (mv_ram _ _ _ _ _ _ _ _ Mv) as P. cbv iota in P. pose proof (mv_base _ _ _ _ _ _ _ _ Mv) as Bs.
    destruct (IH m1 (addr + mps) L1 A1) as (m2 & E2 & P2 & L2 & D2 & O2).
    { apply (buffer_tail m); [done|done|by apply put_bytes_blen in P|lia]. }
    exists m2. cbn [send_all]. rewrite E. cbn [mbind option_bind]. rewrite E2. cbn [mbind option_bind concat length replicate].
    split_and!; try done.
    + rewrite Bs in P2. apply (put_bytes_join _ _ _ _ _ _ P). rewrite H1. by replace (addr - ram_base m + mps) with (addr + mps - ram_base m) by lia.
    + by rewrite blen_app, H1, Z.sub_add_distr.
    + intros d' k N. rewrite O2, O1 by done. done.
Qed.

(** the packets of a bulk transfer to the guest land in the buffer it armed the endpoint
    with, whole and in order, and nowhere else; every one is acknowledged, the transfer ends
    with the packet that fills the buffer or is short, the endpoint then refuses packets
    until it is armed again, and the completion reaches the interrupt line. *)
Theorem usb_out_transfer (m : M) (addr left packets : Z) (ls : list (list Z)) :
  cut left packets ls → link_up false (usbotg m) → armed mps left packets addr (ep (usbotg m) false n) →
  buffer_in_ram m addr left → ∃ m',
  send_all ls m = Some (replicate (length ls) USB_ACK, m')
  ∧ put_bytes (ram m) (addr - ram_base m) (concat ls) = Some (ram m')
  ∧ size_bytes n (ep (usbotg m') false n) = left - blen (concat ls)
  ∧ (∀ l, s5l8900_usb_packet (USB_OUT l) n m' = Some (USB_NAK, 0, [], m'))
  ∧ (reports n false (usbotg m') → s5l_usbotg_irq (usbotg m') = true)
  ∧ ∀ d k, d ≠ false ∨ k ≠ n → ep (usbotg m') d k = ep (usbotg m) d k.
Proof.
  intros C L A B. destruct (out_all left packets ls C m addr L A B) as (m' & E & P & L' & D & O). exists m'. split_and!; try done.
  - unfold size_bytes. rewrite (proj2 (Z.eqb_neq n 0)) by lia. apply D.
  - intros l. unfold s5l8900_usb_packet. by rewrite (count_done (USB_OUT l) n _ _ eq_refl L' Hn D).
  - intros R. apply (reported n Hn false (left - blen (concat ls))); [apply L'|done|done].
Qed.

Lemma in_all k : ∀ (m : M) addr left packets room, link_up true (usbotg m) → armed mps left packets addr (ep (usbotg m) true n) →
  buffer_in_ram m addr left → 0 < packets → 0 <= left → mps <= room → packets < Z.of_nat k → ∃ m' ls,
  receive_all k room m = Some (USB_NAK, ls, m')
  ∧ get_bytes (ram m) (addr - ram_base m) (Z.min left (packets * mps)) = Some (concat ls) ∧ ram m' = ram m ∧ link_up true (usbotg m')
  ∧ done_with (left - Z.min left (packets * mps)) (ep (usbotg m') true n)
  ∧ Forall (fun l => blen l <= mps) ls
  ∧ ∀ d' j, d' ≠ true ∨ j ≠ n → ep (usbotg m') d' j = ep (usbotg m) d' j.
Proof.
  induction k as [|k IH]; intros m addr left packets room L A B Hp Hl Hr Hk; [lia|].
  destruct (in_packet n mps Hn Hm room left packets addr m L A Hp Hl Hr B) as (m1 & l & E & Mv & G). cbv zeta in *.
  set (count := Z.min left mps) in *.
  destruct (armed_after true count l addr left packets m m1 Mv A Hp) as (L1 & O1 & A1); [lia|done..|].
  pose proof (get_bytes_length _ _ _ _ G) as Ll.
  cbn [receive_all]. rewrite E. cbn [mbind option_bind]. rewrite decide_True by done.
  pose proof (mv_ram _ _ _ _ _ _ _ _ Mv) as P. cbv iota in P. pose proof (mv_base _ _ _ _ _ _ _ _ Mv) as Bs.
  destruct (ends left packets mps count) eqn:He.
  - destruct k as [|k]; [lia|]. exists m1, [l]. cbn [receive_all]. unfold s5l8900_usb_packet at 1.
    rewrite (count_done (USB_IN room) n _ _ eq_refl L1 Hn A1). cbn [mbind option_bind]. rewrite decide_False by done.
    assert (Et : Z.min left (packets * mps) = count).
    { unfold ends in He. rewrite !orb_true_iff, !Z.eqb_eq, Z.ltb_lt in He. unfold count in *.
      destruct He as [[He|He]|He]; [nia| |nia]. assert (packets = 1) by lia. subst packets. lia. }
    rewrite Et. cbn [concat]. rewrite app_nil_r. split_and!; try done. apply Forall_cons_2; [lia|apply Forall_nil_2].
  - unfold ends in He. rewrite !orb_false_iff, !Z.eqb_neq, Z.ltb_ge in He. destruct He as [[He1 He2] He3].
    assert (Ec : count = mps) by lia. rewrite Ec in *.
    destruct (IH m1 (addr + mps) (left - mps) (packets - 1) room L1 A1) as (m2 & ls & E2 & G2 & R2 & L2 & D2 & F2 & O2); try lia.
    { apply (buffer_tail m); [done|done|by rewrite P|lia]. }
    exists m2, (l :: ls). rewrite E2. cbn [mbind option_bind concat].
    assert (Et : Z.min left (packets * mps) = mps + Z.min (left - mps) ((packets - 1) * mps)) by nia.
    rewrite P, Bs in G2. split_and!; try done.
    + rewrite Et. apply get_bytes_join; [lia|nia|done|]. by replace (addr - ram_base m + mps) with (addr + mps - ram_base m) by lia.
    + congruence.
    + by rewrite Et, Z.sub_add_distr.
    + apply Forall_cons_2; [lia|done].
    + intros d' j N. rewrite O2, O1 by done. done.
Qed.

(** C23: a host that polls an endpoint the guest armed gets the octets of the buffer, in
    order, in packets of at most the packet size, up to the octet and packet counts given;
    guest RAM is not changed, and the completion reaches the interrupt line. *)
Theorem usb_in_transfer (m : M) (addr left packets room : Z) (fuel : nat) :
  link_up true (usbotg m) → armed mps left packets addr (ep (usbotg m) true n) → buffer_in_ram m addr left →
  0 < packets → 0 <= left → mps <= room → packets < Z.of_nat fuel → ∃ m' ls,
  receive_all fuel room m = Some (USB_NAK, ls, m')
  ∧ get_bytes (ram m) (addr - ram_base m) (Z.min left (packets * mps)) = Some (concat ls) ∧ ram m' = ram m
  ∧ Forall (fun l => blen l <= mps) ls
  ∧ (reports n true (usbotg m') → s5l_usbotg_irq (usbotg m') = true)
  ∧ ∀ d k, d ≠ true ∨ k ≠ n → ep (usbotg m') d k = ep (usbotg m) d k.
Proof.
  intros L A B Hp Hl Hr Hk. destruct (in_all fuel m addr left packets room L A B Hp Hl Hr Hk) as (m' & ls & E & G & R & L' & D & F & O).
  exists m', ls. split_and!; try done. intros Rp. apply (reported n Hn true (left - Z.min left (packets * mps))); [apply L'|done|done].
Qed.
End whole_transfer.

(** ** A machine of the controller and RAM alone *)

Record usb_box := MkBox { box_otg : s5l_usbotg; box_ram : list Z; box_base : Z }.
#[export] Instance box_machine : UsbMachine usb_box := {|
  usbotg := box_otg; with_usbotg u m := MkBox u (box_ram m) (box_base m); ram := box_ram; ram_base := box_base;
  s5l8900_load a l m := MkBox (box_otg m) (default (box_ram m) (put_bytes (box_ram m) (a - box_base m) l)) (box_base m);
  refresh m := m |}.
#[export] Instance box_machine_ok : UsbMachineOk usb_box.
Proof. split; try done. intros a l m r H. simpl in *. by rewrite H. Qed.

(** What the guest's driver writes: DMA on, interrupts on, endpoint [n] armed. *)
Definition demo_arm (d : bool) (n addr bytes packets mps : Z) (u : s5l_usbotg) : s5l_usbotg :=
  let base := (if d then 0x900 else 0xb00) + 32 * n in
  s5l_usbotg_write base (USBOTG_EP_ENABLE .| USBOTG_EP_CNAK .| mps)
    (s5l_usbotg_write (base + 0x14) addr (s5l_usbotg_write (base + 0x10) (packets * 2 ^ 19 + bytes)
      (s5l_usbotg_write USBOTG_DAINTMSK 0xffffffff (s5l_usbotg_write (if d then USBOTG_DIEPMSK else USBOTG_DOEPMSK) 0xf
        (s5l_usbotg_write USBOTG_GINTMSK 0xffffffff (s5l_usbotg_write USBOTG_GAHBCFG 0x21 u)))))).
Definition demo_box (d : bool) : usb_box :=
  MkBox (demo_arm d 2 0x8002 6 3 4 (s5l_usbotg_connect true (s5l_usbotg_enable s5l_usbotg_reset))) [1; 2; 3; 4; 5; 6; 7; 8; 9] 0x8000.

Lemma demo_link d : link_up d (usbotg (demo_box d)) ∧ armed 4 6 3 0x8002 (ep (usbotg (demo_box d)) d 2)
  ∧ buffer_in_ram (demo_box d) 0x8002 6 ∧ reports 2 d (usbotg (demo_box d)).
Proof. destruct d; by split_and!; split. Qed.

Lemma usb_out_transfer_witness : ∃ m',
  send_all 2 [[11; 12; 13; 14]; [15; 16]] (demo_box false) = Some ([USB_ACK; USB_ACK], m')
  ∧ ram m' = [1; 2; 11; 12; 13; 14; 15; 16; 9].
Proof.
  destruct (demo_link false) as (L & A & B & _).
  destruct (usb_out_transfer 2 4 ltac:(done) ltac:(done) (demo_box false) 0x8002 6 3 [[11; 12; 13; 14]; [15; 16]]) as (m' & E & P & _);
    [|exact L|exact A|exact B|].
  - apply cut_more; [done|done|done|done|]. apply cut_last; [done|done|done|done].
  - assert (Q : put_bytes (ram (demo_box false)) (0x8002 - ram_base (demo_box false)) (concat [[11; 12; 13; 14]; [15; 16]])
                = Some [1; 2; 11; 12; 13; 14; 15; 16; 9]) by reflexivity.
    exists m'. split; [exact E|congruence].
Defined.

Lemma usb_in_transfer_witness : ∃ m' ls,
  receive_all 2 4 512 (demo_box true) = Some (USB_NAK, ls, m') ∧ concat ls = [3; 4; 5; 6; 7; 8].
Proof.
  destruct (demo_link true) as (L & A & B & _).
  destruct (usb_in_transfer 2 4 ltac:(done) ltac:(done) (demo_box true) 0x8002 6 3 512 4) as (m' & ls & E & G & _); [exact L|exact A|exact B|done..|].
  assert (Q : get_bytes (ram (demo_box true)) (0x8002 - ram_base (demo_box true)) (Z.min 6 (3 * 4)) = Some [3; 4; 5; 6; 7; 8]) by reflexivity.
  exists m', ls. split; [exact E|congruence].
Defined.
