(* ===== verification/UsbHost.v ===== *)
(** * The virtual USB host

    [core/src/usb_host.c], [core/include/usb_host.h]: enumeration of the guest's device.
    The received octets of [descriptor] are a list, [used] being its length; [None] is an
    access past them or past the array.  The PMU's cable input is [UsbPower].  The
    configuration parser is compared with descriptors given by their fields
    ([usb_descriptor]) and encoded octet by octet. *)

From Stdlib Require Import String.
From S2P Require Import Prelude Bytes UsbOtg.
Open Scope Z_scope.
Open Scope word_scope.

Inductive host_stage := WAIT_DEVICE | WAIT_RESET | WAIT_ENUM | DEVICE | ADDRESS | CONFIG_HEAD | CONFIG_BODY | CONFIG_SET | READY | FAILED.
Inductive control_stage := CONTROL_IDLE | CONTROL_SETUP | CONTROL_DATA | CONTROL_STATUS.
#[export] Instance host_stage_eq_dec : EqDecision host_stage.
Proof. solve_decision. Defined.
#[export] Instance control_stage_eq_dec : EqDecision control_stage.
Proof. solve_decision. Defined.

Definition DESCRIPTOR_SIZE := 4096.

Record usb_host := MkHost {
  hstage : host_stage; control : control_stage; wanted : Z; config_index : Z; config_count : Z; host_generation : Z;
  setup : list Z; descriptor : list Z; configuration : Z; bulk_in : Z; bulk_out : Z; vendor : Z; product : Z;
  h_error : option string }.

Definition h_stage (v : host_stage) (h : usb_host) : usb_host :=
  MkHost v (control h) (wanted h) (config_index h) (config_count h) (host_generation h) (setup
    h) (descriptor h) (configuration h) (bulk_in h) (bulk_out h) (vendor h) (product h) (h_error
    h).
Definition h_control (v : control_stage) (h : usb_host) : usb_host :=
  MkHost (hstage h) v (wanted h) (config_index h) (config_count h) (host_generation h) (setup h)
    (descriptor h) (configuration h) (bulk_in h) (bulk_out h) (vendor h) (product h) (h_error
    h).
Definition h_wanted (v : Z) (h : usb_host) : usb_host :=
  MkHost (hstage h) (control h) v (config_index h) (config_count h) (host_generation h) (setup
    h) (descriptor h) (configuration h) (bulk_in h) (bulk_out h) (vendor h) (product h) (h_error
    h).
Definition h_config_index (v : Z) (h : usb_host) : usb_host :=
  MkHost (hstage h) (control h) (wanted h) v (config_count h) (host_generation h) (setup h)
    (descriptor h) (configuration h) (bulk_in h) (bulk_out h) (vendor h) (product h) (h_error
    h).
Definition h_config_count (v : Z) (h : usb_host) : usb_host :=
  MkHost (hstage h) (control h) (wanted h) (config_index h) v (host_generation h) (setup h)
    (descriptor h) (configuration h) (bulk_in h) (bulk_out h) (vendor h) (product h) (h_error
    h).
Definition h_host_generation (v : Z) (h : usb_host) : usb_host :=
  MkHost (hstage h) (control h) (wanted h) (config_index h) (config_count h) v (setup h)
    (descriptor h) (configuration h) (bulk_in h) (bulk_out h) (vendor h) (product h) (h_error
    h).
Definition h_setup (v : list Z) (h : usb_host) : usb_host :=
  MkHost (hstage h) (control h) (wanted h) (config_index h) (config_count h) (host_generation h)
    v (descriptor h) (configuration h) (bulk_in h) (bulk_out h) (vendor h) (product h) (h_error
    h).
Definition h_descriptor (v : list Z) (h : usb_host) : usb_host :=
  MkHost (hstage h) (control h) (wanted h) (config_index h) (config_count h) (host_generation h)
    (setup h) v (configuration h) (bulk_in h) (bulk_out h) (vendor h) (product h) (h_error h).
Definition h_configuration (v : Z) (h : usb_host) : usb_host :=
  MkHost (hstage h) (control h) (wanted h) (config_index h) (config_count h) (host_generation h)
    (setup h) (descriptor h) v (bulk_in h) (bulk_out h) (vendor h) (product h) (h_error h).
Definition h_bulk_in (v : Z) (h : usb_host) : usb_host :=
  MkHost (hstage h) (control h) (wanted h) (config_index h) (config_count h) (host_generation h)
    (setup h) (descriptor h) (configuration h) v (bulk_out h) (vendor h) (product h) (h_error
    h).
Definition h_bulk_out (v : Z) (h : usb_host) : usb_host :=
  MkHost (hstage h) (control h) (wanted h) (config_index h) (config_count h) (host_generation h)
    (setup h) (descriptor h) (configuration h) (bulk_in h) v (vendor h) (product h) (h_error h).
Definition h_vendor (v : Z) (h : usb_host) : usb_host :=
  MkHost (hstage h) (control h) (wanted h) (config_index h) (config_count h) (host_generation h)
    (setup h) (descriptor h) (configuration h) (bulk_in h) (bulk_out h) v (product h) (h_error
    h).
Definition h_product (v : Z) (h : usb_host) : usb_host :=
  MkHost (hstage h) (control h) (wanted h) (config_index h) (config_count h) (host_generation h)
    (setup h) (descriptor h) (configuration h) (bulk_in h) (bulk_out h) (vendor h) v (h_error
    h).
Definition h_err (v : option string) (h : usb_host) : usb_host :=
  MkHost (hstage h) (control h) (wanted h) (config_index h) (config_count h) (host_generation h)
    (setup h) (descriptor h) (configuration h) (bulk_in h) (bulk_out h) (vendor h) (product h)
    v.

Definition used (h : usb_host) : Z := blen (descriptor h).
Definition le16 (p : list Z) (off : Z) : option Z := a ← get8 p off; b ← get8 p (off + 1); Some (a .| Z.shiftl b 8).

Definition fresh_host (generation : Z) : usb_host :=
  MkHost WAIT_DEVICE CONTROL_IDLE 0 0 0 generation (replicate 8 0) [] 0 0 0 0 0 None.
Definition usb_host_ready (h : usb_host) : bool := bool_decide (hstage h = READY).
Definition usb_host_enumerating (h : usb_host) : bool :=
  match hstage h with WAIT_DEVICE | READY | FAILED => false | _ => true end.

Definition fail (message : string) (h : usb_host) : usb_host := h_err (Some message) (h_stage FAILED (h_control CONTROL_IDLE h)).

Definition request_octets (type req value length : Z) : list Z :=
  [type; req; w8 value; w8 (value .>> 8); 0; 0; w8 length; w8 (length .>> 8)].
Definition request (type req value length : Z) (h : usb_host) : usb_host :=
  h_setup (request_octets type req value length) (h_wanted length (h_descriptor [] (h_control CONTROL_SETUP h))).

(** ** Configurations *)

Definition is_mux_interface (p : list Z) : option bool :=
  a ← get8 p 5; b ← get8 p 6; c ← get8 p 7; d ← get8 p 3; Some ((a =? 0xff) && (b =? 0xfe) && (c =? 2) && (d =? 0)).

(** The pipes found so far: IN and OUT endpoint, 0 for none. *)
Definition pipes : Type := Z * Z.
Definition both (p : pipes) : bool := negb (p.1 =? 0) && negb (p.2 =? 0).

Definition note_endpoint (p : list Z) (found : pipes) : option pipes :=
  attributes ← get8 p 3; address ← get8 p 2; size ← le16 p 4;
  let n := address .& 15 in
  Some (if (attributes .& 3 =? 2) && negb (n =? 0) && (n <? S5L_USB_ENDPOINTS) && (size =? 512)
        then if negb (address .& 0x80 =? 0) then (n, found.2) else (found.1, n)
        else found).

(** The rest [d] of the descriptors. *)
Fixpoint config_loop (fuel : nat) (d : list Z) (mux : bool) (found : pipes) : option (bool * pipes) :=
  if blen d =? 0 then Some (mux && both found, found)
  else match fuel with
  | O => None
  | S fuel =>
    if blen d <? 2 then Some (false, found)
    else
      len ← get8 d 0; type ← get8 d 1;
      if (len <? 2) || (blen d <? len) then Some (false, found)
      else
        let rest := drop (Z.to_nat len) d in
        if type =? 4 then
          if len <? 9 then Some (false, found)
          else if mux && both found then Some (true, found)
          else mux ← is_mux_interface d; config_loop fuel rest mux (0, 0)
        else if (type =? 5) && mux then
          if len <? 7 then Some (false, found)
          else found ← note_endpoint d found; config_loop fuel rest mux found
        else config_loop fuel rest mux found
  end.
Definition parse_config (h : usb_host) : option (bool * usb_host) :=
  '(ok, found) ← config_loop (length (descriptor h)) (descriptor h) false (0, 0);
  Some (ok, h_bulk_in found.1 (h_bulk_out found.2 h)).

(** ** Polling *)

Class UsbPower (M : Type) := pmu_set_usb : bool → M → M.

Section poll.
Context {M : Type} {HM : UsbMachine M} {HP : UsbPower M}.

Definition on_otg (f : s5l_usbotg → s5l_usbotg) (m : M) : M := with_usbotg (f (usbotg m)) m.

(** [dirty] marks the interrupt levels as to be worked out again. *)
Context (dirty : M → M).

Definition usb_host_init (m : M) : usb_host * M :=
  (fresh_host (reset_generation (usbotg m)),
   dirty (pmu_set_usb true (on_otg (s5l_usbotg_connect true) (on_otg s5l_usbotg_enable m)))).
Definition usb_host_disconnect (m : M) : usb_host * M :=
  (fresh_host 0, dirty (pmu_set_usb false (on_otg (s5l_usbotg_connect false) m))).

Definition refused (r : usb_result) (h : usb_host) : usb_host :=
  if decide (r = USB_NAK) then h
  else fail (if decide (r = USB_STALL) then "USB control request stalled" else "USB control transport failed") h.

(** Whether the control transfer ended, and the host and machine after it. *)
Definition control_poll (h : usb_host) (m : M) : option (bool * usb_host * M) :=
  match control h with
  | CONTROL_IDLE => Some (false, h, m)
  | CONTROL_SETUP =>
    '(r, _, _, m) ← s5l8900_usb_packet (USB_SETUP (setup h)) 0 m;
    Some (false, if decide (r = USB_ACK) then h_control (if wanted h =? 0 then CONTROL_STATUS else CONTROL_DATA) h else refused r h, m)
  | CONTROL_DATA =>
    '(r, n, packet, m) ← s5l8900_usb_packet (USB_IN 64) 0 m;
    Some (false,
      if decide (r = USB_ACK) then
        if (wanted h -w used h <? n) || (DESCRIPTOR_SIZE - used h <? n) then fail "USB descriptor exceeds request" h
        else
          let h := h_descriptor (descriptor h ++ packet) h in
          if (n <? 64) || (used h =? wanted h) then h_control CONTROL_STATUS h else h
      else refused r h, m)
  | CONTROL_STATUS =>
    type ← get8 (setup h) 0;
    '(r, _, _, m) ← s5l8900_usb_packet (if negb (type .& 0x80 =? 0) then USB_OUT [] else USB_IN 0) 0 m;
    Some (if decide (r = USB_ACK) then (true, h_control CONTROL_IDLE h, m) else (false, refused r h, m))
  end.

Definition device_descriptor (h : usb_host) : option usb_host :=
  let bad := Some (fail "Unsupported USB device descriptor" h) in
  let d := descriptor h in
  if negb (used h =? 18) then bad
  else
    a ← get8 d 0; b ← get8 d 1; c ← get8 d 7; k ← get8 d 17;
    if negb (a =? 18) || negb (b =? 1) || negb (c =? 64) || (k =? 0) || (16 <? k) then bad
    else
      v ← le16 d 8; p ← le16 d 10;
      Some (h_stage ADDRESS (request 0 5 1 0 (h_config_count k (h_product (w16 p) (h_vendor (w16 v) h))))).

Definition config_head (h : usb_host) : option usb_host :=
  let bad := Some (fail "Invalid USB configuration header" h) in
  if used h <? 9 then bad
  else
    t ← get8 (descriptor h) 1;
    if negb (t =? 2) then bad
    else
      total ← le16 (descriptor h) 2;
      if (total <? 9) || (DESCRIPTOR_SIZE <? total) then Some (fail "USB configuration too large" h)
      else c ← get8 (descriptor h) 5; Some (h_stage CONFIG_BODY (request 0x80 6 (0x200 .| config_index h) total (h_configuration c h))).

Definition config_body (h : usb_host) : option usb_host :=
  if negb (used h =? wanted h) then Some (fail "Truncated USB configuration" h)
  else
    '(ok, h) ← parse_config h;
    if ok : bool then Some (h_stage CONFIG_SET (request 0 9 (configuration h) 0 h))
    else
      let h := h_config_index (config_index h +w 1) h in
      if config_index h <? config_count h then Some (h_stage ADDRESS h)
      else Some (fail "Guest has no supported usbmux interface" h).

Definition guest_listens (u : s5l_usbotg) : bool :=
  (gahbcfg u .& 0x21 =? 0x21) && negb (gintmsk u .& USBOTG_INT_RESET =? 0) && (pcgcctl u .& 1 =? 0).

Definition host_step (h : usb_host) (m : M) : option (usb_host * M) :=
  let u := usbotg m in
  let pure h := Some (h, m) in
  match hstage h with
  | WAIT_DEVICE =>
    if negb (guest_listens u) then pure h
    else let '(ok, u) := s5l_usbotg_bus_reset u in
         Some (if ok : bool then (h_stage WAIT_RESET h, dirty (with_usbotg u m)) else (h, with_usbotg u m))
  | WAIT_RESET =>
    let '(ok, u) := s5l_usbotg_enumerated u in
    Some (if ok : bool then (h_stage WAIT_ENUM h, dirty (with_usbotg u m)) else (h, with_usbotg u m))
  | WAIT_ENUM => pure (if negb (gintsts u .& USBOTG_INT_ENUM =? 0) then h else h_stage DEVICE (request 0x80 6 0x100 18 h))
  | DEVICE => h ← device_descriptor h; pure h
  | ADDRESS => pure (h_stage CONFIG_HEAD (request 0x80 6 (0x200 .| config_index h) 9 h))
  | CONFIG_HEAD => h ← config_head h; pure h
  | CONFIG_BODY => h ← config_body h; pure h
  | CONFIG_SET => pure (h_stage READY h)
  | READY | FAILED => pure h
  end.

(** Whether an old link still stands: [None] ends the poll. *)
Definition recheck (h : usb_host) (m : M) : option usb_host :=
  let u := usbotg m in
  let h := if host_generation h =? reset_generation u then h else fresh_host (reset_generation u) in
  match hstage h with
  | FAILED => None
  | READY =>
    if enabled u && connected u && negb (dcfg u .& Z.shiftl 0x7f 4 =? 0) then None else Some (fresh_host (reset_generation u))
  | _ => Some h
  end.

Definition usb_host_poll (h : usb_host) (m : M) : option (usb_host * M) :=
  match recheck h m with
  | None => Some (h, m)
  | Some h =>
    if decide (control h = CONTROL_IDLE) then host_step h m
    else
      '(over, h, m) ← control_poll h m;
      if over : bool then host_step h m else Some (h, m)
  end.
End poll.

(** ** What a configuration offers *)

(** A configuration as its descriptors: each begins with its length and its type. *)
Definition descriptor_ok (d : list Z) : Prop :=
  is_bytes d ∧ ∃ type rest, d = blen d :: type :: rest ∧ (type = 4 → 9 <= blen d) ∧ (type = 5 → 7 <= blen d).
Definition type_of (d : list Z) : Z := nth 1 d 0.

(** An interface with the descriptors up to the next one; those before the first belong to
    no interface. *)
Fixpoint groups (ds : list (list Z)) : list (list Z) * list (list Z * list (list Z)) :=
  match ds with
  | [] => ([], [])
  | d :: ds =>
    let '(mine, gs) := groups ds in if type_of d =? 4 then ([], (d, mine) :: gs) else (d :: mine, gs)
  end.
Definition pipes_of (members : list (list Z)) : pipes :=
  foldl (fun found d => if type_of d =? 5 then default found (note_endpoint d found) else found) (0, 0) members.
Definition offers_mux (g : list Z * list (list Z)) : bool := default false (is_mux_interface g.1) && both (pipes_of g.2).

Lemma note_endpoint_some d found : 7 <= blen d → is_Some (note_endpoint d found).
Proof.
  intros H. unfold note_endpoint, le16.
  destruct (get8_inside d 3) as (a & -> & _); [lia|]. destruct (get8_inside d 2) as (b & -> & _); [lia|].
  destruct (get8_inside d 4) as (c & -> & _); [lia|]. destruct (get8_inside d (4 + 1)) as (e & -> & _); [lia|]. by eexists.
Qed.
Lemma is_mux_some d : 9 <= blen d → is_Some (is_mux_interface d).
Proof.
  intros H. unfold is_mux_interface. destruct (get8_inside d 5) as (a & -> & _); [lia|]. destruct (get8_inside d 6) as (b & -> & _); [lia|].
  destruct (get8_inside d 7) as (c & -> & _); [lia|]. destruct (get8_inside d 3) as (e & -> & _); [lia|]. by eexists.
Qed.

(** Reads of the first descriptor of many. *)
Lemma note_endpoint_app d r found : 7 <= blen d → note_endpoint (d ++ r) found = note_endpoint d found.
Proof. intros H. unfold note_endpoint, le16. by rewrite !get8_prefix by lia. Qed.
Lemma is_mux_app d r : 9 <= blen d → is_mux_interface (d ++ r) = is_mux_interface d.
Proof. intros H. unfold is_mux_interface. by rewrite !get8_prefix by lia. Qed.

(** The members of the interface at hand are noted on top of what was [found]. *)
Definition noted (found : pipes) (members : list (list Z)) : pipes :=
  foldl (fun found d => if type_of d =? 5 then default found (note_endpoint d found) else found) found members.

(** What the loop is to answer, told by groups: [mux] and [found] stand for the interface
    whose members come first. *)
Definition sought (mux : bool) (found : pipes) (ds : list (list Z)) : option pipes :=
  let '(mine, gs) := groups ds in
  if mux && both (noted found mine) then Some (noted found mine) else (fun g => pipes_of g.2) <$> find offers_mux gs.
Definition tells (target : option pipes) (r : option (bool * pipes)) : Prop :=
  ∃ ok found, r = Some (ok, found) ∧ match target with Some p => ok = true ∧ found = p | None => ok = false end.

Lemma config_loop_groups ds : Forall descriptor_ok ds → ∀ fuel mux found, (length (concat ds) <= fuel)%nat →
  tells (sought mux found ds) (config_loop fuel (concat ds) mux found).
Proof.
  induction 1 as [|d ds Hd _ IH]; intros fuel mux found Hf.
  - assert (E : config_loop fuel (concat []) mux found = Some (mux && both found, found)) by (by destruct fuel). rewrite E.
    unfold sought. cbn [groups noted foldl find fmap option_fmap option_map]. eexists _, _. split; [done|].
    by destruct (mux && both found).
  - destruct Hd as (Bd & type & rest & Ed & T4 & T5). cbn [concat] in *.
    assert (L2 : 2 <= blen d) by (rewrite Ed; unfold blen; simpl; lia).
    rewrite length_app in Hf. destruct fuel as [|fuel]; [unfold blen in L2; lia|].
    cbn [config_loop]. rewrite !blen_app. pose proof (Nat2Z.is_nonneg (length (concat ds))) as P. fold (blen (concat ds)) in P.
    rewrite (proj2 (Z.eqb_neq _ 0)), (proj2 (Z.ltb_ge _ 2)) by lia. rewrite !get8_prefix by lia.
    assert (G0 : get8 d 0 = Some (blen d) ∧ get8 d 1 = Some type).
    { rewrite Ed in Bd. apply Forall_cons_1 in Bd as [B0 Bd]. apply Forall_cons_1 in Bd as [B1 _].
      rewrite Ed at 1 3. unfold get8. simpl. unfold w8. by rewrite !wrap_small by done. }
    destruct G0 as [-> ->]. cbn [mbind option_bind].
    rewrite (proj2 (Z.ltb_ge (blen d) 2)), (proj2 (Z.ltb_ge _ (blen d))) by lia. cbn [orb].
    assert (Dr : drop (Z.to_nat (blen d)) (d ++ concat ds) = concat ds) by (unfold blen; rewrite Nat2Z.id; apply drop_app_length).
    cbv zeta. rewrite Dr. assert (Ty : type_of d = type) by (unfold type_of; by rewrite Ed).
    assert (Hf' : (length (concat ds) <= fuel)%nat) by (unfold blen in L2; lia).
    unfold sought. cbn [groups]. unfold sought in IH. destruct (groups ds) as [mine gs]. rewrite Ty.
    destruct (Z.eqb_spec type 4) as [E4|N4].
    + rewrite (proj2 (Z.ltb_ge (blen d) 9)), is_mux_app by auto.
      change (noted found []) with found. destruct (mux && both found); [by exists true, found|].
      destruct (is_mux_some d (T4 E4)) as [b Eb]. rewrite Eb. cbn [mbind option_bind].
      specialize (IH fuel b (0, 0) Hf'). cbn [find]. unfold offers_mux at 1. cbn [fst snd]. rewrite Eb. cbn [from_option id].
      fold (noted (0, 0) mine) in IH. change (pipes_of mine) with (noted (0, 0) mine). by destruct (b && both (noted (0, 0) mine)).
    + destruct (Z.eqb_spec type 5) as [E5|N5]; cbn [andb].
      * destruct mux.
        -- rewrite (proj2 (Z.ltb_ge (blen d) 7)), note_endpoint_app by auto. destruct (note_endpoint_some d found (T5 E5)) as [f Ef].
           rewrite Ef. cbn [mbind option_bind]. specialize (IH fuel true f Hf').
           assert (En : noted found (d :: mine) = noted f mine)
             by (unfold noted; cbn [foldl]; by rewrite Ty, (proj2 (Z.eqb_eq type 5) E5), Ef). by rewrite En.
        -- specialize (IH fuel false found Hf'). done.
      * specialize (IH fuel mux found Hf').
        assert (En : noted found (d :: mine) = noted found mine)
          by (unfold noted; cbn [foldl]; by rewrite Ty, (proj2 (Z.eqb_neq type 5) N5)). by rewrite En.
Qed.

(** *** Descriptors by their fields

    A configuration as USB defines it: interfaces and endpoints with their fields, anything
    else by its type; [encode] lays them out in octets, with whatever a class specification
    adds at the end.  What the host is after is said of the fields. *)
Record usb_interface := MkInterface {
  if_number : Z; if_alternate : Z; if_endpoints : Z; if_class : Z; if_subclass : Z; if_protocol : Z; if_string : Z }.
Inductive usb_transfer := Control | Isochronous | Bulk | Interrupt.
Record usb_endpoint := MkEndpoint {
  ep_input : bool; ep_number : Z; ep_reserved : Z; ep_transfer : usb_transfer; ep_flags : Z; ep_packet : Z; ep_interval : Z }.
Inductive usb_descriptor :=
  | Interface (i : usb_interface) (extra : list Z)
  | Endpoint (e : usb_endpoint) (extra : list Z)
  | Other (type : Z) (body : list Z).

Definition transfer_code (t : usb_transfer) : Z :=
  match t with Control => 0 | Isochronous => 1 | Bulk => 2 | Interrupt => 3 end.
Definition endpoint_address (e : usb_endpoint) : Z :=
  ep_number e + 16 * ep_reserved e + 128 * Z.b2z (ep_input e).

Definition encode (d : usb_descriptor) : list Z :=
  match d with
  | Interface i extra =>
    [9 + blen extra; 4; if_number i; if_alternate i; if_endpoints i; if_class i; if_subclass i; if_protocol i; if_string i] ++ extra
  | Endpoint e extra =>
    [7 + blen extra; 5; endpoint_address e; transfer_code (ep_transfer e) + 4 * ep_flags e;
     ep_packet e mod 256; ep_packet e / 256; ep_interval e] ++ extra
  | Other type body => [2 + blen body; type] ++ body
  end.

(** The fields have their widths. *)
Definition descriptor_fits (d : usb_descriptor) : Prop :=
  match d with
  | Interface i extra =>
    is_bytes [9 + blen extra; if_number i; if_alternate i; if_endpoints i; if_class i; if_subclass i; if_protocol i; if_string i]
    ∧ is_bytes extra
  | Endpoint e extra =>
    is_bytes [7 + blen extra; ep_interval e] ∧ is_bytes extra ∧ 0 <= ep_number e < 16 ∧ 0 <= ep_reserved e < 8
    ∧ 0 <= ep_flags e < 64 ∧ 0 <= ep_packet e < 65536
  | Other type body => is_bytes [2 + blen body; type] ∧ is_bytes body ∧ type ≠ 4 ∧ type ≠ 5
  end.

(** The interfaces, each with its endpoints; endpoints before the first belong to none. *)
Fixpoint interfaces (ds : list usb_descriptor) : list usb_endpoint * list (usb_interface * list usb_endpoint) :=
  match ds with
  | [] => ([], [])
  | Interface i _ :: ds => let '(es, gs) := interfaces ds in ([], (i, es) :: gs)
  | Endpoint e _ :: ds => let '(es, gs) := interfaces ds in (e :: es, gs)
  | Other _ _ :: ds => interfaces ds
  end.

(** Apple's multiplexer, and a pipe it can use. *)
Definition speaks_usbmux (i : usb_interface) : bool :=
  (if_class i =? 255) && (if_subclass i =? 254) && (if_protocol i =? 2) && (if_alternate i =? 0).
Definition mux_pipe (input : bool) (e : usb_endpoint) : bool :=
  eqb (ep_input e) input && match ep_transfer e with Bulk => true | _ => false end
  && (1 <=? ep_number e) && (ep_number e <=? 5) && (ep_packet e =? 512).
Definition last_pipe (input : bool) (es : list usb_endpoint) : option Z :=
  foldl (fun found e => if mux_pipe input e then Some (ep_number e) else found) None es.

(** The pipes, IN and OUT, of the first interface that speaks it over both. *)
Fixpoint mux_pipes (gs : list (usb_interface * list usb_endpoint)) : option (Z * Z) :=
  match gs with
  | [] => None
  | (i, es) :: gs =>
    match last_pipe true es, last_pipe false es with
    | Some input, Some output => if speaks_usbmux i then Some (input, output) else mux_pipes gs
    | _, _ => mux_pipes gs
    end
  end.

Lemma address_uint e : 0 <= ep_number e < 16 → 0 <= ep_reserved e < 8 → uint 8 (endpoint_address e).
Proof. unfold endpoint_address, uint. destruct (ep_input e); simpl; lia. Qed.

Lemma encode_ok d : descriptor_fits d → descriptor_ok (encode d).
Proof.
  intros Hd. split.
  - destruct d as [i extra | e extra | type body]; cbn [descriptor_fits encode] in *.
    + destruct Hd as [Hf Hx]. apply Forall_app. split; [| done]. repeat (apply Forall_cons_1 in Hf as [? Hf]).
      repeat (apply Forall_cons_2; [first [done | by split] |]). by apply Forall_nil_2.
    + destruct Hd as (Hf & Hx & Hn & Hr & Hg & Hp). apply Forall_app. split; [| done]. repeat (apply Forall_cons_1 in Hf as [? Hf]).
      repeat apply Forall_cons_2; try done; try (by apply address_uint); try apply Forall_nil_2; unfold uint.
      * destruct (ep_transfer e); simpl; lia.
      * apply Z.mod_pos_bound. lia.
      * split; [apply Z.div_pos; lia | apply Z.div_lt_upper_bound; lia].
    + destruct Hd as (Hf & Hx & _). apply Forall_app. by split.
  - destruct d as [i extra | e extra | type body]; cbn [encode]; eexists _, _; rewrite blen_app;
      (split; [cbn [app]; f_equal; unfold blen; simpl; lia |]); unfold blen; simpl; (split; intros; try lia);
      destruct Hd as (_ & _ & ? & ?); congruence.
Qed.

(** What the parser's reads see of an encoded descriptor. *)
Lemma encode_type d : type_of (encode d) = match d with Interface _ _ => 4 | Endpoint _ _ => 5 | Other type _ => type end.
Proof. by destruct d. Qed.

Lemma byte_at d k x : d !! k = Some x → uint 8 x → get8 d (Z.of_nat k) = Some x.
Proof.
  intros Hk Hx. unfold get8. rewrite (proj2 (Z.ltb_ge _ _)), Nat2Z.id, Hk by lia. cbn. unfold w8. by rewrite wrap_small.
Qed.

Lemma interface_seen i extra : descriptor_fits (Interface i extra) →
  is_mux_interface (encode (Interface i extra)) = Some (speaks_usbmux i).
Proof.
  intros [Hf _]. repeat (apply Forall_cons_1 in Hf as [? Hf]). unfold is_mux_interface.
  rewrite (byte_at _ 5 (if_class i)), (byte_at _ 6 (if_subclass i)), (byte_at _ 7 (if_protocol i)), (byte_at _ 3 (if_alternate i)) by done.
  done.
Qed.

Lemma address_fields e : 0 <= ep_number e < 16 → 0 <= ep_reserved e < 8 →
  endpoint_address e .& 15 = ep_number e ∧ negb (endpoint_address e .& 0x80 =? 0) = ep_input e.
Proof.
  intros Hn Hr. split.
  - unfold endpoint_address. change 15 with (Z.ones 4). rewrite Z.land_ones by lia. destruct (ep_input e); simpl Z.b2z; change (2 ^ 4) with 16.
    + symmetry. apply (Z.mod_unique _ _ (ep_reserved e + 8)); lia.
    + symmetry. apply (Z.mod_unique _ _ (ep_reserved e)); lia.
  - change (endpoint_address e .& 0x80) with (endpoint_address e .& 2 ^ 7). rewrite land_bit_zero, negb_involutive by lia. unfold bit, endpoint_address. rewrite Z.testbit_odd, Z.shiftr_div_pow2 by lia.
    replace ((ep_number e + 16 * ep_reserved e + 128 * Z.b2z (ep_input e)) / 2 ^ 7) with (Z.b2z (ep_input e)) by (apply (Z.div_unique _ _ _ (ep_number e + 16 * ep_reserved e)); lia).
    by destruct (ep_input e).
Qed.

(** One endpoint, noted on top of what was found. *)
Definition seen (found : pipes) (e : usb_endpoint) : pipes :=
  (if mux_pipe true e then ep_number e else found.1, if mux_pipe false e then ep_number e else found.2).

Lemma endpoint_seen e extra found : descriptor_fits (Endpoint e extra) →
  note_endpoint (encode (Endpoint e extra)) found = Some (seen found e).
Proof.
  intros (Hf & _ & Hn & Hr & Hg & Hp). repeat (apply Forall_cons_1 in Hf as [? Hf]). unfold note_endpoint, le16.
  destruct (address_fields e Hn Hr) as [A1 A2].
  assert (0 <= transfer_code (ep_transfer e) < 4) as Ht by (destruct (ep_transfer e); simpl; lia).
  rewrite (byte_at _ 3 (transfer_code (ep_transfer e) + 4 * ep_flags e)) by (done || (unfold uint; lia)).
  rewrite (byte_at _ 2 (endpoint_address e)) by (done || by apply address_uint).
  rewrite (byte_at _ 4 (ep_packet e mod 256)) by (done || (apply Z.mod_pos_bound; lia)).
  rewrite (byte_at _ 5 (ep_packet e / 256)) by (done || (split; [apply Z.div_pos; lia | apply Z.div_lt_upper_bound; lia])).
  cbn [mbind option_bind]. f_equal. rewrite A1, A2.
  assert ((transfer_code (ep_transfer e) + 4 * ep_flags e) .& 3 = transfer_code (ep_transfer e)) as ->.
  { change 3 with (Z.ones 2). rewrite Z.land_ones by lia. symmetry. apply (Z.mod_unique _ _ (ep_flags e)); lia. }
  assert (ep_packet e mod 256 .| Z.shiftl (ep_packet e / 256) 8 = ep_packet e) as ->.
  { rewrite Z.lor_comm, lor_shift_add by (lia || apply Z.mod_pos_bound; lia). change (2 ^ 8) with 256.
    pose proof (Z.div_mod (ep_packet e) 256). lia. }
  unfold seen, mux_pipe.
  assert ((transfer_code (ep_transfer e) =? 2) = match ep_transfer e with Bulk => true | _ => false end) as -> by (by destruct (ep_transfer e)).
  destruct (match ep_transfer e with Bulk => true | _ => false end); [| by rewrite !andb_false_r; destruct found].
  replace (1 <=? ep_number e) with (negb (ep_number e =? 0)) by (destruct (Z.eqb_spec (ep_number e) 0), (Z.leb_spec 1 (ep_number e)); simpl; lia || done).
  replace (ep_number e <=? 5) with (ep_number e <? S5L_USB_ENDPOINTS) by (unfold S5L_USB_ENDPOINTS; destruct (Z.leb_spec (ep_number e) 5), (Z.ltb_spec (ep_number e) 6); lia || done).
  destruct (negb (ep_number e =? 0)), (ep_number e <? S5L_USB_ENDPOINTS), (ep_packet e =? 512), (ep_input e), found; done.
Qed.

(** And the whole: groups of octets against interfaces of fields. *)
Definition noted_fields (found : pipes) (es : list usb_endpoint) : pipes := foldl seen found es.

Lemma noted_last es : ∀ i o, noted_fields (default 0 i, default 0 o) es =
  (default 0 (foldl (fun f e => if mux_pipe true e then Some (ep_number e) else f) i es),
   default 0 (foldl (fun f e => if mux_pipe false e then Some (ep_number e) else f) o es)).
Proof.
  induction es as [| e es IH]; intros i o; [done |]. cbn [noted_fields foldl]. unfold seen. cbn [fst snd].
  rewrite <- IH. unfold noted_fields. f_equal. by destruct (mux_pipe true e), (mux_pipe false e).
Qed.

Lemma pipe_nonzero input es : ∀ f, (∀ n, f = Some n → n ≠ 0) →
  ∀ n, foldl (fun f e => if mux_pipe input e then Some (ep_number e) else f) f es = Some n → n ≠ 0.
Proof.
  induction es as [| e es IH]; intros f Hf; [done |]. cbn [foldl]. apply IH. destruct (mux_pipe input e) eqn:E; [| done].
  unfold mux_pipe in E. rewrite !andb_true_iff, !Z.leb_le in E. intros n [= <-]. lia.
Qed.

Lemma both_pipes es : both (noted_fields (0, 0) es)
  = match last_pipe true es, last_pipe false es with Some _, Some _ => true | _, _ => false end.
Proof.
  change (0, 0) with (default 0 (None : option Z), default 0 (None : option Z)). rewrite noted_last.
  fold (last_pipe true es) (last_pipe false es). unfold both. cbn [fst snd].
  pose proof (pipe_nonzero true es None ltac:(done)) as H1. pose proof (pipe_nonzero false es None ltac:(done)) as H2.
  fold (last_pipe true es) in H1. fold (last_pipe false es) in H2.
  destruct (last_pipe true es) as [a |]; [| done]. cbn. rewrite (proj2 (Z.eqb_neq a 0)) by auto.
  destruct (last_pipe false es) as [b |]; [| done]. cbn. by rewrite (proj2 (Z.eqb_neq b 0)) by auto.
Qed.

Lemma groups_fields ds : Forall descriptor_fits ds →
  let '(mine, gs) := groups (encode <$> ds) in let '(es, gi) := interfaces ds in
  (∀ found, noted found mine = noted_fields found es)
  ∧ (fun g => pipes_of g.2) <$> find offers_mux gs = mux_pipes gi.
Proof.
  induction 1 as [| d ds Hd _ IH]; [done |]. cbn [fmap list_fmap groups]. change (list_fmap _ _ encode ds) with (encode <$> ds).
  destruct (groups (encode <$> ds)) as [mine gs]. cbn [interfaces]. destruct (interfaces ds) as [es gi]. destruct IH as [IH1 IH2].
  rewrite encode_type. destruct d as [i extra | e extra | type body].
  - cbn [Z.eqb Pos.eqb]. split; [done |]. cbn [find mux_pipes]. unfold offers_mux at 1. cbn [fst snd].
    rewrite (interface_seen i extra Hd). cbn [default from_option id]. change (pipes_of mine) with (noted (0, 0) mine).
    rewrite IH1, both_pipes. pose proof (noted_last es None None) as Hl. cbn [default] in Hl.
    fold (last_pipe true es) (last_pipe false es) in Hl.
    destruct (last_pipe true es), (last_pipe false es), (speaks_usbmux i); cbn [andb]; try exact IH2.
    cbn. change (pipes_of mine) with (noted (0, 0) mine). by rewrite IH1, Hl.
  - cbn [Z.eqb Pos.eqb]. split; [| done]. intros found. unfold noted. cbn [foldl]. rewrite encode_type. cbn [Z.eqb Pos.eqb].
    rewrite (endpoint_seen e extra found Hd). cbn [default from_option id]. apply IH1.
  - destruct Hd as (_ & _ & N4 & N5). rewrite (proj2 (Z.eqb_neq type 4) N4). split; [| done]. intros found.
    unfold noted. cbn [foldl]. rewrite encode_type, (proj2 (Z.eqb_neq type 5) N5). apply IH1.
Qed.

(** C24: over any configuration, given by its fields: the host accepts it exactly when some
    interface of class 255, subclass 254, protocol 2 and alternate setting 0 has a bulk IN
    and a bulk OUT endpoint numbered 1 to 5 with packets of 512 octets, and then its pipes
    are the last such endpoints of the first such interface; nothing else of the host
    changes, and parsing reads no octet outside the configuration. *)
Theorem parse_config_exact (ds : list usb_descriptor) (h : usb_host) :
  Forall descriptor_fits ds → descriptor h = concat (encode <$> ds) →
  match mux_pipes (interfaces ds).2 with
  | Some (input, output) => parse_config h = Some (true, h_bulk_in input (h_bulk_out output h))
  | None => ∃ input output, parse_config h = Some (false, h_bulk_in input (h_bulk_out output h))
  end.
Proof.
  intros Hd Eh. unfold parse_config. rewrite Eh.
  assert (Forall descriptor_ok (encode <$> ds)) as Hok.
  { apply Forall_fmap. eapply Forall_impl; [exact encode_ok | exact Hd]. }
  destruct (config_loop_groups _ Hok (length (concat (encode <$> ds))) false (0, 0)) as (ok & found & E & T); [done |].
  rewrite E. cbn [mbind option_bind]. unfold sought in T. pose proof (groups_fields ds Hd) as G.
  destruct (groups (encode <$> ds)) as [mine gs], (interfaces ds) as [es gi]. cbn [andb snd] in *. destruct G as [_ <-].
  destruct (_ <$> find offers_mux gs) as [[input output] |]; [by destruct T as [-> ->] |]. subst ok. by eexists _, _.
Qed.

(** ** Any device at all *)

Definition pipes_ok (p : pipes) : Prop := 0 <= p.1 < S5L_USB_ENDPOINTS ∧ 0 <= p.2 < S5L_USB_ENDPOINTS.

Lemma note_endpoint_ok d found : 7 <= blen d → pipes_ok found → returns pipes_ok (note_endpoint d found).
Proof.
  intros Hd [H1 H2]. unfold note_endpoint, le16.
  eapply returns_bind; [apply returns_get8; lia|intros a _]. eapply returns_bind; [apply returns_get8; lia|intros b _].
  eapply returns_bind with (P := fun _ => True).
  { eapply returns_bind; [apply returns_get8; lia|intros c _]. eapply returns_bind; [apply returns_get8; lia|intros e _]. by apply returns_ret. }
  intros size _. apply returns_ret. destruct (_ && (size =? 512)) eqn:E; [|done].
  rewrite !andb_true_iff, Z.ltb_lt in E. destruct E as [[[_ _] E] _].
  assert (0 <= b .& 15) by (apply Z.land_nonneg; by right). by destruct (negb _).
Qed.

Lemma config_loop_ok fuel : ∀ d mux found, (length d <= fuel)%nat → pipes_ok found →
  returns (fun r => pipes_ok r.2 ∧ (r.1 = true → both r.2 = true)) (config_loop fuel d mux found).
Proof.
  induction fuel as [|fuel IH]; intros d mux found Hf Hp.
  { destruct d; [|simpl in Hf; lia]. apply returns_ret. split; [done|]. simpl. by intros [_ ?]%andb_true_iff. }
  cbn [config_loop]. destruct (Z.eqb_spec (blen d) 0); [apply returns_ret; split; [done|]; simpl; by intros [_ ?]%andb_true_iff|].
  destruct (Z.ltb_spec (blen d) 2); [by apply returns_ret|].
  eapply returns_bind; [apply returns_get8; lia|intros len [L0 _]]. eapply returns_bind; [apply returns_get8; lia|intros type _].
  destruct (_ || _) eqn:E; [by apply returns_ret|]. bool_facts. cbv zeta.
  assert (Hr : (length (drop (Z.to_nat len) d) <= fuel)%nat) by (rewrite length_drop; lia).
  destruct (type =? 4).
  - destruct (Z.ltb_spec len 9); [by apply returns_ret|].
    destruct (mux && both found) eqn:F; [apply returns_ret; split; [done|]; intros _; by apply andb_true_iff in F as [_ ?]|].
    destruct (is_mux_some d) as [b ->]; [lia|]. by apply IH.
  - destruct ((type =? 5) && mux); [|by apply IH].
    destruct (Z.ltb_spec len 7); [by apply returns_ret|]. eapply returns_bind; [apply note_endpoint_ok; [lia|done]|].
    intros f Hpf. by apply IH.
Qed.

(** A packet never reads outside RAM, whatever the registers hold. *)
Lemma packet_ok {M} {HM : UsbMachine M} t n (m : M) : 
  returns (fun '(r, count, l, _) => r = USB_ACK → is_in t = true → blen l = count ∧ 0 <= count <= token_length t)
    (s5l8900_usb_packet t n m).
Proof.
  unfold s5l8900_usb_packet. destruct (packet_count t n (usbotg m)) as [r|count] eqn:E.
  { apply returns_ret. intros -> _. exfalso. revert E. unfold packet_count. cbv zeta.
    repeat match goal with |- (if ?b then _ else _) = _ → _ => destruct b; [done|] end. done. }
  assert (Hc : is_in t = true → 0 <= count <= token_length t).
  { destruct t as [|room|]; try done. intros _. revert E. unfold packet_count. cbn [is_in is_setup token_length]. cbv zeta. cbn [negb andb].
    set (e := ep (usbotg m) true n).
    assert (H1 : 0 <= size_bytes n e) by (unfold size_bytes; apply Z.land_nonneg; right; by destruct (n =? 0)).
    assert (H2 : 0 <= max_packet n e).
    { unfold max_packet. destruct (n =? 0); [by apply Z.shiftr_nonneg|]. apply Z.land_nonneg. by right. }
    repeat match goal with |- (if ?b then inl _ else _) = _ → _ => destruct b eqn:?; [done|] end. intros [= <-]. bool_facts.
    destruct (size_bytes _ _ <? max_packet _ _); lia. }
  cbv zeta. set (e := ep (usbotg m) (is_in t) n).
  destruct (negb (count =? 0) && outside_ram m (dma e) count) eqn:O; [by apply returns_ret|].
  eapply returns_bind with (P := fun l => is_in t = true → blen l = count); [|intros l Hl; apply returns_ret; intros _ Hi; by split; auto].
  destruct (is_in t) eqn:Hi; cbn [andb]; [|by apply returns_ret]. destruct (Z.eqb_spec count 0) as [->|N]; cbn [negb andb] in *; [by apply returns_ret|].
  unfold outside_ram in O. bool_facts. specialize (Hc eq_refl).
  destruct (get_bytes_inside (ram m) (dma e - ram_base m) count) as (l & El & Hl & _); [lia..|].
  exists l. split; [done|]. intros _. lia.
Qed.

(** ** The host's invariant *)

Definition waiting (s : host_stage) : bool :=
  match s with WAIT_DEVICE | WAIT_RESET | WAIT_ENUM | READY | FAILED => true | _ => false end.

Record host_ok (h : usb_host) : Prop := {
  ho_setup : blen (setup h) = 8; ho_used : used h <= wanted h; ho_wanted : wanted h <= DESCRIPTOR_SIZE;
  ho_index : uint 32 (config_index h) ∧ 0 <= config_count h <= 16; ho_pipes : pipes_ok (bulk_in h, bulk_out h);
  ho_idle : waiting (hstage h) = true → control h = CONTROL_IDLE;
  ho_ready : hstage h = CONFIG_SET ∨ hstage h = READY → both (bulk_in h, bulk_out h) = true }.

(** One stage and the next. *)
Inductive follows : host_stage → host_stage → Prop :=
  | f_same s : follows s s
  | f_reset : follows WAIT_DEVICE WAIT_RESET
  | f_enum : follows WAIT_RESET WAIT_ENUM
  | f_device : follows WAIT_ENUM DEVICE
  | f_address : follows DEVICE ADDRESS
  | f_head : follows ADDRESS CONFIG_HEAD
  | f_body : follows CONFIG_HEAD CONFIG_BODY
  | f_again : follows CONFIG_BODY ADDRESS
  | f_set : follows CONFIG_BODY CONFIG_SET
  | f_ready : follows CONFIG_SET READY
  | f_fail s : follows s FAILED.

Definition good (s : host_stage) (h : usb_host) : Prop := host_ok h ∧ follows s (hstage h).

Lemma host_ok_fresh g : host_ok (fresh_host g).
Proof. split; try done; [by split..|by intros [?|?]]. Qed.

Lemma host_ok_fail message h : host_ok h → good (hstage h) (fail message h).
Proof. intros []. split; [|apply f_fail]. split; try done. by intros [?|?]. Qed.

Lemma request_ok type req value len s s' h : host_ok h → 0 <= len <= DESCRIPTOR_SIZE → waiting s' = false → (s' = CONFIG_SET → both (bulk_in h, bulk_out h) = true) → follows s s' →
  good s (h_stage s' (request type req value len h)).
Proof.
  intros [] [Hl Hl'] W B F. split; [|done]. split; try done; cbn [hstage h_stage]; [intros E; by rewrite E in W|].
  intros [E|E]; [by apply B|by subst].
Qed.

Section safety.
Context {M : Type} {HM : UsbMachine M} (dirty : M → M).

Lemma refused_ok r h : host_ok h → good (hstage h) (refused r h).
Proof.
  intros H. unfold refused. destruct (decide (r = USB_NAK)); [split; [done|apply f_same]|by apply host_ok_fail].
Qed.

Lemma host_ok_control c h : host_ok h → (waiting (hstage h) = true → c = CONTROL_IDLE) → good (hstage h) (h_control c h).
Proof. intros [] W. split; [|apply f_same]. by split. Qed.

(** A transfer in progress keeps its stage, unless it fails. *)
Lemma control_poll_ok h (m : M) : host_ok h → waiting (hstage h) = false →
  returns (fun '(over, h', _) => good (hstage h) h' ∧ (over = true → hstage h' = hstage h ∧ control h' = CONTROL_IDLE)) (control_poll h m).
Proof.
  intros H W. assert (Wf : ∀ c, waiting (hstage h) = true → c = CONTROL_IDLE) by (intros c E; by rewrite E in W).
  unfold control_poll. destruct (control h).
  - apply returns_ret. split; [split; [done|apply f_same]|done].
  - destruct (packet_ok (USB_SETUP (setup h)) 0 m) as ([[[r n] l] m'] & -> & _). apply returns_ret. split; [|done].
    destruct (decide _); [apply host_ok_control; [done|apply Wf]|by apply refused_ok].
  - destruct (packet_ok (USB_IN 64) 0 m) as ([[[r n] l] m'] & -> & Hn). apply returns_ret. split; [|done].
    destruct (decide (r = USB_ACK)) as [->|]; [|by apply refused_ok]. destruct (Hn eq_refl eq_refl) as [Hl Hn'].
    destruct (_ || _) eqn:E; [by apply host_ok_fail|]. bool_facts.
    assert (Hu : w32 (wanted h - used h) = wanted h - used h).
    { destruct H. apply w32_small. unfold uint, DESCRIPTOR_SIZE in *. unfold used, blen in *. lia. }
    assert (G : host_ok (h_descriptor (descriptor h ++ l) h)).
    { destruct H. split; try done. unfold used in *. simpl. rewrite blen_app. lia. }
    cbv zeta. destruct (_ || _); [|split; [done|apply f_same]]. exact (host_ok_control CONTROL_STATUS _ G (Wf _)).
  - destruct (returns_get8 (setup h) 0) as (type & -> & _); [rewrite (ho_setup _ H); lia|]. cbn [mbind option_bind].
    destruct (packet_ok (if negb (type .& 0x80 =? 0) then USB_OUT [] else USB_IN 0) 0 m) as ([[[r n] l] m'] & -> & _).
    apply returns_ret. destruct (decide _); [|split; [by apply refused_ok|done]]. split; [apply host_ok_control; [done|apply Wf]|done].
Qed.

Lemma le16_ok p off : 0 <= off → off + 2 <= blen p → returns (uint 16) (le16 p off).
Proof.
  intros H1 H2. unfold le16. reading. apply uint_lor; [lia|by apply (uint_mono 8)|by apply (uint_shiftl 16 8)].
Qed.

Lemma device_descriptor_ok h : host_ok h → hstage h = DEVICE → returns (good DEVICE) (device_descriptor h).
Proof.
  intros H S. assert (B : returns (good DEVICE) (Some (fail "Unsupported USB device descriptor" h)))
    by (apply returns_ret; rewrite <- S; by apply host_ok_fail).
  unfold device_descriptor. cbv zeta. unfold used. destruct (Z.eqb_spec (blen (descriptor h)) 18); [|done]. cbn [negb].
  eapply returns_bind; [apply returns_get8; lia|intros a _]. eapply returns_bind; [apply returns_get8; lia|intros b _].
  eapply returns_bind; [apply returns_get8; lia|intros c _]. eapply returns_bind; [apply returns_get8; lia|intros k [Hk _]].
  destruct (_ || _) eqn:E; [done|]. bool_facts.
  eapply returns_bind; [apply le16_ok; lia|intros v _]. eapply returns_bind; [apply le16_ok; lia|intros p _].
  apply returns_ret. apply request_ok; [|done|done|done|apply f_address].
  destruct H as [? ? ? [I1 I2] ? ? ?]. by split.
Qed.

Lemma config_head_ok h : host_ok h → hstage h = CONFIG_HEAD → returns (good CONFIG_HEAD) (config_head h).
Proof.
  intros H S. assert (B : ∀ message, returns (good CONFIG_HEAD) (Some (fail message h)))
    by (intros message; apply returns_ret; rewrite <- S; by apply host_ok_fail).
  unfold config_head. cbv zeta. unfold used. destruct (Z.ltb_spec (blen (descriptor h)) 9); [done|].
  eapply returns_bind; [apply returns_get8; lia|intros t _]. destruct (negb _); [done|].
  eapply returns_bind; [apply le16_ok; lia|intros total _]. destruct (_ || _) eqn:E; [done|]. bool_facts.
  eapply returns_bind; [apply returns_get8; lia|intros c _]. apply returns_ret.
  apply request_ok; [by destruct H|lia|done|done|apply f_body].
Qed.

Lemma config_body_ok h : host_ok h → hstage h = CONFIG_BODY → returns (good CONFIG_BODY) (config_body h).
Proof.
  intros H S. unfold config_body. destruct (negb _); [apply returns_ret; rewrite <- S; by apply host_ok_fail|].
  unfold parse_config. destruct (config_loop_ok (length (descriptor h)) (descriptor h) false (0, 0)) as ([ok [i o]] & -> & Hp & Hb); [done|done|].
  cbn [mbind option_bind fst snd] in *. set (h1 := h_bulk_in i (h_bulk_out o h)).
  assert (H1 : host_ok h1) by (destruct H; split; try done; intros [E|E]; simpl in E; congruence).
  destruct ok; [apply returns_ret; apply request_ok; [done|done|done|intros _; by apply Hb|apply f_set]|]. cbv zeta.
  set (h2 := h_config_index _ h1).
  destruct (Z.ltb_spec (config_index h2) (config_count h2)) as [L|L]; apply returns_ret.
  - split; [|apply f_again]. destruct H1 as [? ? ? [I1 I2] ? ? ?]. split; try done; [by split; [apply uint_w32|]|by intros [?|?]].
  - split; [|apply f_fail]. destruct H1 as [? ? ? [I1 I2] ? ? ?]. split; try done; [by split; [apply uint_w32|]|by intros [?|?]].
Qed.

Lemma host_step_ok h (m : M) : host_ok h → control h = CONTROL_IDLE →
  returns (fun r => good (hstage h) r.1) (host_step dirty h m).
Proof.
  intros H C. unfold host_step. cbv zeta.
  assert (Keep : good (hstage h) h) by (split; [done|apply f_same]).
  assert (Wait : ∀ s, hstage h = WAIT_DEVICE ∨ hstage h = WAIT_RESET → waiting s = true → s ≠ READY → s ≠ CONFIG_SET → host_ok (h_stage s h)).
  { intros s W Ws N1 N2. destruct H. split; try done; cbn [hstage h_stage]; by intros [E|E]. }
  destruct (hstage h) eqn:S.
  - destruct (negb _); [by apply returns_ret|]. destruct (s5l_usbotg_bus_reset (usbotg m)) as [[] u]; apply returns_ret; [|done].
    split; [apply Wait; [by left|done|done|done]|apply f_reset].
  - destruct (s5l_usbotg_enumerated (usbotg m)) as [[] u]; apply returns_ret; [|done].
    split; [apply Wait; [by right|done|done|done]|apply f_enum].
  - apply returns_ret. simpl. destruct (negb _); [done|]. by apply request_ok; [|done|done|done|apply f_device].
  - destruct (device_descriptor_ok h H S) as (h' & -> & G). by apply returns_ret.
  - apply returns_ret. by apply request_ok; [|done|done|done|apply f_head].
  - destruct (config_head_ok h H S) as (h' & -> & G). by apply returns_ret.
  - destruct (config_body_ok h H S) as (h' & -> & G). by apply returns_ret.
  - apply returns_ret. split; [|apply f_ready]. destruct H. split; try done; cbn [hstage h_stage]; intros _; apply ho_ready0; by left.
  - by apply returns_ret.
  - by apply returns_ret.
Qed.
End safety.

(** ** Enumeration against any guest *)

Section enumeration.
Context {M : Type} {HM : UsbMachine M} {HP : UsbPower M} (dirty : M → M).

(** The link is started again: the guest has reset the core, or lost its address. *)
Definition restarted (h : usb_host) (m : M) : bool :=
  let u := usbotg m in
  negb (host_generation h =? reset_generation u)
  || usb_host_ready h && negb (enabled u && connected u && negb (dcfg u .& Z.shiftl 0x7f 4 =? 0)).

Lemma host_poll_ok h (m : M) : host_ok h → returns (fun r => host_ok r.1 ∧
  follows (if restarted h m then WAIT_DEVICE else hstage h) (hstage r.1)) (usb_host_poll dirty h m).
Proof.
  intros H. unfold usb_host_poll, restarted, usb_host_ready.
  assert (Go : ∀ h1, host_ok h1 → returns (fun r => host_ok r.1 ∧ follows (hstage h1) (hstage r.1))
     (if decide (control h1 = CONTROL_IDLE) then host_step dirty h1 m
      else '(over, h, m) ← control_poll h1 m; if over : bool then host_step dirty h m else Some (h, m))).
  { intros h1 H1. destruct (decide (control h1 = CONTROL_IDLE)) as [C|C]; [by apply host_step_ok|].
    assert (W : waiting (hstage h1) = false) by (destruct (waiting (hstage h1)) eqn:W; [|done]; by pose proof (ho_idle _ H1 W)).
    destruct (control_poll_ok h1 m H1 W) as ([[over h2] m2] & -> & [G F] & O). cbn [mbind option_bind].
    destruct over; [|by apply returns_ret]. destruct (O eq_refl) as [E C2]. rewrite <- E. by apply host_step_ok. }
  cbv zeta. unfold recheck. cbv zeta. destruct (host_generation h =? reset_generation (usbotg m)); cbn [negb orb].
  2:{ cbn [hstage fresh_host]. apply (Go (fresh_host (reset_generation (usbotg m)))), host_ok_fresh. }
  destruct (hstage h) eqn:S; try (rewrite bool_decide_false by done; cbn [andb]; rewrite <- S; by apply Go).
  - rewrite bool_decide_true by done. cbn [andb].
    destruct (enabled (usbotg m) && connected (usbotg m) && negb (dcfg (usbotg m) .& Z.shiftl 0x7f 4 =? 0)); cbn [negb].
    + apply returns_ret. split; [done|]. simpl. rewrite S. apply f_same.
    + apply (Go (fresh_host (reset_generation (usbotg m)))), host_ok_fresh.
  - rewrite bool_decide_false by done. apply returns_ret. split; [done|]. simpl. rewrite S. apply f_same.
Qed.

(** Polls, the guest doing anything between them. *)
Fixpoint host_run (guest : list (M → M)) (h : usb_host) (m : M) : option (usb_host * M) :=
  match guest with
  | [] => Some (h, m)
  | g :: guest => '(h, m) ← usb_host_poll dirty h (g m); host_run guest h m
  end.

(** C25: whatever the guest does with the controller, RAM and descriptors, each poll of the
    virtual host returns, reads and writes inside its buffers and RAM, and keeps or advances
    its stage in order, from the start when the guest has reset the controller; it is ready
    only with a configuration read and two pipes of that configuration. *)
Theorem usb_host_safe (guest : list (M → M)) (m : M) : ∃ h' m',
  host_run guest (usb_host_init dirty m).1 (usb_host_init dirty m).2 = Some (h', m') ∧ host_ok h'
  ∧ ∀ g, ∃ h2 m2, usb_host_poll dirty h' (g m') = Some (h2, m2)
     ∧ follows (if restarted h' (g m') then WAIT_DEVICE else hstage h') (hstage h2).
Proof.
  assert (R : ∀ h m, host_ok h → ∃ h' m', host_run guest h m = Some (h', m') ∧ host_ok h').
  { induction guest as [|g l IH]; intros h m0 H; [by exists h, m0|]. cbn [host_run].
    destruct (host_poll_ok h (g m0) H) as ([h1 m1] & -> & H1 & _). by apply IH. }
  destruct (R (usb_host_init dirty m).1 (usb_host_init dirty m).2) as (h' & m' & E & H); [apply host_ok_fresh|].
  exists h', m'. split_and!; try done. intros g. destruct (host_poll_ok h' (g m') H) as ([h2 m2] & E2 & _ & F). by exists h2, m2.
Qed.
End enumeration.

(** *** A guest that enumerates *)

Definition demo_device : list Z := [18; 1; 0; 2; 0; 0; 0; 64; 0xac; 5; 0x90; 0x12; 1; 0; 1; 2; 3; 1].
Definition demo_interfaces : list (list Z) :=
  [[9; 4; 0; 0; 2; 6; 1; 1; 0]; [7; 5; 0x84; 2; 0; 2; 0]; [7; 5; 3; 2; 0; 2; 0];
   [9; 4; 1; 0; 2; 0xff; 0xfe; 2; 0]; [7; 5; 0x81; 2; 0; 2; 0]; [7; 5; 2; 2; 0; 2; 0]].
Definition demo_configuration : list Z := [9; 2; 55; 0; 2; 1; 0; 0xc0; 50] ++ concat demo_interfaces.

#[local] Instance box_power : UsbPower usb_box := fun _ m => m.

(** Its driver: answer a SETUP packet from RAM at the base, the reply lying 64 octets on. *)
Definition demo_reply (q : list Z) : list Z :=
  let len := Z.to_nat (nth 6 q 0) in
  if nth 1 q 0 =? 6 then take len (if nth 3 q 0 =? 1 then demo_device else demo_configuration) else [].
Definition demo_guest (m : usb_box) : usb_box :=
  let u := box_otg m in
  let write off val u := s5l_usbotg_write off val u in
  let listen u := write 0xb00 (USBOTG_EP_ENABLE .| USBOTG_EP_CNAK) (write 0xb10 (2 ^ 29 + 2 ^ 19 + 64) (write 0xb14 0x1000 u)) in
  if bit (gintsts u) 12 then on_otg (fun u => listen (write USBOTG_GINTSTS (2 ^ 12) u)) m
  else if bit (gintsts u) 13 then on_otg (write USBOTG_GINTSTS (2 ^ 13)) m
  else if bit (interrupt (ep u false 0)) 3 then
    let q := take 8 (box_ram m) in
    let reply := demo_reply q in
    let m := s5l8900_load 0x1040 reply m in
    on_otg (fun u => listen (write 0x900 (USBOTG_EP_ENABLE .| USBOTG_EP_CNAK)
                      (write 0x910 (2 ^ 19 + blen reply) (write 0x914 0x1040 (write 0xb08 0xff
                        (if nth 1 q 0 =? 5 then write USBOTG_DCFG (Z.shiftl (nth 2 q 0) 4) u else u)))))) m
  else if bit (interrupt (ep u false 0)) 0 then on_otg (fun u => listen (write 0xb08 0xff u)) m
  else if gahbcfg u =? 0 then on_otg (fun u => write USBOTG_GINTMSK (2 ^ 12) (write USBOTG_GAHBCFG 0x21 u)) m
  else m.

Definition demo_start : usb_box := MkBox s5l_usbotg_reset (replicate 256 0) 0x1000.

Lemma demo_enumerates :
  match host_run id (replicate 40 demo_guest) (usb_host_init id demo_start).1 (usb_host_init id demo_start).2 with
  | Some (h, m) => hstage h = READY ∧ (bulk_in h, bulk_out h) = (1, 2) ∧ vendor h = 0x5ac ∧ product h = 0x1290
  | None => False
  end.
Proof. by vm_compute. Qed.

(** The demo configuration by its fields: a camera interface with pipes of its own, then the
    multiplexer. *)
Definition demo_fields : list usb_descriptor :=
  [Other 2 [55; 0; 2; 1; 0; 0xc0; 50];
   Interface (MkInterface 0 0 2 6 1 1 0) []; Endpoint (MkEndpoint true 4 0 Bulk 0 512 0) []; Endpoint (MkEndpoint false 3 0 Bulk 0 512 0) [];
   Interface (MkInterface 1 0 2 255 254 2 0) []; Endpoint (MkEndpoint true 1 0 Bulk 0 512 0) []; Endpoint (MkEndpoint false 2 0 Bulk 0 512 0) []].

Lemma parse_config_exact_witness :
  concat (encode <$> demo_fields) = demo_configuration
  ∧ parse_config (h_descriptor demo_configuration (fresh_host 0))
    = Some (true, h_bulk_in 1 (h_bulk_out 2 (h_descriptor demo_configuration (fresh_host 0)))).
Proof.
  split; [reflexivity|].
  assert (H : Forall descriptor_fits demo_fields) by (unfold demo_fields; repeat constructor; discriminate).
  exact (parse_config_exact demo_fields (h_descriptor demo_configuration (fresh_host 0)) H eq_refl).
Defined.
