(* ===== verification/UsbMux.v ===== *)
(** * The usbmux peer

    [core/src/usb_mux.c], [core/include/usb_mux.h].  A buffer with its count of used octets
    is the list of the used ones; a function that reads past them, or writes past the
    array, yields [None].  [usb_mux_poll] is in UsbPoll.v.  The peer is shown to be safe against any
    guest and not to care how its octets are split between calls; UsbMuxStreams.v has the
    two streams of octets of each channel. *)

From Stdlib Require Import String.
From S2P Require Import Prelude Bytes.
Open Scope Z_scope.
Open Scope word_scope.

Definition USB_MUX_CHANNELS := 4.
Definition USB_MUX_RX_SIZE := 65536.
Definition USB_MUX_TX_SIZE := 16384.

Inductive mux_state :=
  | USB_MUX_UNUSED | USB_MUX_CONNECT | USB_MUX_SYN_SENT | USB_MUX_OPEN | USB_MUX_CLOSING | USB_MUX_CLOSED | USB_MUX_ERROR.
Inductive mux_stage := SEND_VERSION | WAIT_VERSION | SEND_SETUP | WAIT_SETUP | ACTIVE | FAILED.
#[export] Instance mux_state_eq_dec : EqDecision mux_state.
Proof. solve_decision. Defined.
#[export] Instance mux_stage_eq_dec : EqDecision mux_stage.
Proof. solve_decision. Defined.

Record mux_channel := MkChannel {
  state : mux_state; local_port : Z; remote_port : Z;
  send_next : Z; send_acked : Z; receive_next : Z; peer_window : Z;
  ack_pending : bool; c_error : option string; rcv : list Z; snd : list Z }.

Record usb_mux := MkMux {
  version : Z; stage : mux_stage; round_robin : Z; transmit_at : Z;
  tx_sequence : Z; rx_sequence : Z; next_port : Z; transmit_zlp : bool; u_error : option string;
  receive : list Z; transmit : list Z; channel : Z → mux_channel }.

Definition k_state (v : mux_state) (c : mux_channel) : mux_channel :=
  MkChannel v (local_port c) (remote_port c) (send_next c) (send_acked c) (receive_next c)
    (peer_window c) (ack_pending c) (c_error c) (rcv c) (snd c).
Definition k_local_port (v : Z) (c : mux_channel) : mux_channel :=
  MkChannel (state c) v (remote_port c) (send_next c) (send_acked c) (receive_next c)
    (peer_window c) (ack_pending c) (c_error c) (rcv c) (snd c).
Definition k_remote_port (v : Z) (c : mux_channel) : mux_channel :=
  MkChannel (state c) (local_port c) v (send_next c) (send_acked c) (receive_next c)
    (peer_window c) (ack_pending c) (c_error c) (rcv c) (snd c).
Definition k_send_next (v : Z) (c : mux_channel) : mux_channel :=
  MkChannel (state c) (local_port c) (remote_port c) v (send_acked c) (receive_next c)
    (peer_window c) (ack_pending c) (c_error c) (rcv c) (snd c).
Definition k_send_acked (v : Z) (c : mux_channel) : mux_channel :=
  MkChannel (state c) (local_port c) (remote_port c) (send_next c) v (receive_next c)
    (peer_window c) (ack_pending c) (c_error c) (rcv c) (snd c).
Definition k_receive_next (v : Z) (c : mux_channel) : mux_channel :=
  MkChannel (state c) (local_port c) (remote_port c) (send_next c) (send_acked c) v (peer_window
    c) (ack_pending c) (c_error c) (rcv c) (snd c).
Definition k_peer_window (v : Z) (c : mux_channel) : mux_channel :=
  MkChannel (state c) (local_port c) (remote_port c) (send_next c) (send_acked c) (receive_next
    c) v (ack_pending c) (c_error c) (rcv c) (snd c).
Definition k_ack_pending (v : bool) (c : mux_channel) : mux_channel :=
  MkChannel (state c) (local_port c) (remote_port c) (send_next c) (send_acked c) (receive_next
    c) (peer_window c) v (c_error c) (rcv c) (snd c).
Definition k_c_error (v : option string) (c : mux_channel) : mux_channel :=
  MkChannel (state c) (local_port c) (remote_port c) (send_next c) (send_acked c) (receive_next
    c) (peer_window c) (ack_pending c) v (rcv c) (snd c).
Definition k_rcv (v : list Z) (c : mux_channel) : mux_channel :=
  MkChannel (state c) (local_port c) (remote_port c) (send_next c) (send_acked c) (receive_next
    c) (peer_window c) (ack_pending c) (c_error c) v (snd c).
Definition k_snd (v : list Z) (c : mux_channel) : mux_channel :=
  MkChannel (state c) (local_port c) (remote_port c) (send_next c) (send_acked c) (receive_next
    c) (peer_window c) (ack_pending c) (c_error c) (rcv c) v.

Definition x_version (v : Z) (u : usb_mux) : usb_mux :=
  MkMux v (stage u) (round_robin u) (transmit_at u) (tx_sequence u) (rx_sequence u) (next_port
    u) (transmit_zlp u) (u_error u) (receive u) (transmit u) (channel u).
Definition x_stage (v : mux_stage) (u : usb_mux) : usb_mux :=
  MkMux (version u) v (round_robin u) (transmit_at u) (tx_sequence u) (rx_sequence u) (next_port
    u) (transmit_zlp u) (u_error u) (receive u) (transmit u) (channel u).
Definition x_round_robin (v : Z) (u : usb_mux) : usb_mux :=
  MkMux (version u) (stage u) v (transmit_at u) (tx_sequence u) (rx_sequence u) (next_port u)
    (transmit_zlp u) (u_error u) (receive u) (transmit u) (channel u).
Definition x_transmit_at (v : Z) (u : usb_mux) : usb_mux :=
  MkMux (version u) (stage u) (round_robin u) v (tx_sequence u) (rx_sequence u) (next_port u)
    (transmit_zlp u) (u_error u) (receive u) (transmit u) (channel u).
Definition x_tx_sequence (v : Z) (u : usb_mux) : usb_mux :=
  MkMux (version u) (stage u) (round_robin u) (transmit_at u) v (rx_sequence u) (next_port u)
    (transmit_zlp u) (u_error u) (receive u) (transmit u) (channel u).
Definition x_rx_sequence (v : Z) (u : usb_mux) : usb_mux :=
  MkMux (version u) (stage u) (round_robin u) (transmit_at u) (tx_sequence u) v (next_port u)
    (transmit_zlp u) (u_error u) (receive u) (transmit u) (channel u).
Definition x_next_port (v : Z) (u : usb_mux) : usb_mux :=
  MkMux (version u) (stage u) (round_robin u) (transmit_at u) (tx_sequence u) (rx_sequence u) v
    (transmit_zlp u) (u_error u) (receive u) (transmit u) (channel u).
Definition x_transmit_zlp (v : bool) (u : usb_mux) : usb_mux :=
  MkMux (version u) (stage u) (round_robin u) (transmit_at u) (tx_sequence u) (rx_sequence u)
    (next_port u) v (u_error u) (receive u) (transmit u) (channel u).
Definition x_u_error (v : option string) (u : usb_mux) : usb_mux :=
  MkMux (version u) (stage u) (round_robin u) (transmit_at u) (tx_sequence u) (rx_sequence u)
    (next_port u) (transmit_zlp u) v (receive u) (transmit u) (channel u).
Definition x_receive (v : list Z) (u : usb_mux) : usb_mux :=
  MkMux (version u) (stage u) (round_robin u) (transmit_at u) (tx_sequence u) (rx_sequence u)
    (next_port u) (transmit_zlp u) (u_error u) v (transmit u) (channel u).
Definition x_transmit (v : list Z) (u : usb_mux) : usb_mux :=
  MkMux (version u) (stage u) (round_robin u) (transmit_at u) (tx_sequence u) (rx_sequence u)
    (next_port u) (transmit_zlp u) (u_error u) (receive u) v (channel u).
Definition x_channel (v : Z → mux_channel) (u : usb_mux) : usb_mux :=
  MkMux (version u) (stage u) (round_robin u) (transmit_at u) (tx_sequence u) (rx_sequence u)
    (next_port u) (transmit_zlp u) (u_error u) (receive u) (transmit u) v.

Definition set_channel (i : Z) (c : mux_channel) (u : usb_mux) : usb_mux := x_channel (<[i := c]> (channel u)) u.
Definition is_state (s : mux_state) (c : mux_channel) : bool := bool_decide (state c = s).
Definition is_stage (s : mux_stage) (u : usb_mux) : bool := bool_decide (stage u = s).

(** ** Big-endian fields *)

Definition mux_be16 (p : list Z) (off : Z) : option Z :=
  a ← get8 p off; b ← get8 p (off + 1); Some (Z.shiftl a 8 .| b).
Definition mux_be32 (p : list Z) (off : Z) : option Z :=
  a ← get8 p off; b ← get8 p (off + 1); c ← get8 p (off + 2); d ← get8 p (off + 3);
  Some (((Z.shiftl a 24 .| Z.shiftl b 16) .| Z.shiftl c 8) .| d).
Definition put16 (v : Z) : list Z := [w8 (v .>> 8); w8 v].
Definition put32 (v : Z) : list Z := put16 (v .>> 16) ++ put16 v.

Definition header_size (u : usb_mux) : Z := if version u =? 2 then 16 else 8.

(** ** The client's calls *)

Definition no_channel : mux_channel := MkChannel USB_MUX_UNUSED 0 0 0 0 0 0 false None [] [].
Definition usb_mux_init : usb_mux := MkMux 0 SEND_VERSION 0 0 0 0 1 false None [] [] (fun _ => no_channel).

Definition usb_mux_ready (u : usb_mux) : bool := is_stage ACTIVE u.

Definition usb_mux_cancel (reason : string) (u : usb_mux) : usb_mux :=
  let err c := if is_state USB_MUX_UNUSED c || is_state USB_MUX_CLOSED c then c
               else k_state USB_MUX_ERROR (k_c_error (Some reason) c) in
  MkMux (version u) FAILED (round_robin u) 0 (tx_sequence u) (rx_sequence u) (next_port u) false (Some reason)
    [] [] (fun i => err (channel u i)).

Definition free_slot (c : mux_channel) : bool := is_state USB_MUX_UNUSED c || is_state USB_MUX_CLOSED c.
Definition indices : list Z := seqZ 0 USB_MUX_CHANNELS.

(** The index, or -1. *)
Definition usb_mux_connect (port : Z) (u : usb_mux) : Z * usb_mux :=
  if negb (usb_mux_ready u) || (port =? 0) || (next_port u =? 0) then (-1, u)
  else match find (fun i => free_slot (channel u i)) indices with
       | None => (-1, u)
       | Some i =>
         let c := MkChannel USB_MUX_CONNECT (next_port u) port 0 0 0 0 false None [] [] in
         (i, x_next_port (w16 (next_port u + 1)) (set_channel i c u))
       end.

(** [data] is [None] for a NULL pointer. *)
Definition usb_mux_write (ch : Z) (data : option (list Z)) (u : usb_mux) : Z * usb_mux :=
  match data with
  | None => (0, u)
  | Some l =>
    if negb (usb_mux_ready u) || (USB_MUX_CHANNELS <=? ch) then (0, u)
    else let c := channel u ch in
      if negb (is_state USB_MUX_OPEN c) then (0, u)
      else
        let room := USB_MUX_TX_SIZE - blen (snd c) in
        let size := if room <? blen l then room else blen l in
        (size, set_channel ch (k_snd (snd c ++ take (Z.to_nat size) l) c) u)
  end.

(** What was read; [None] for a NULL pointer, which reads nothing. *)
Definition usb_mux_read (ch : Z) (capacity : option Z) (u : usb_mux) : list Z * usb_mux :=
  match capacity with
  | None => ([], u)
  | Some n =>
    if USB_MUX_CHANNELS <=? ch then ([], u)
    else let c := channel u ch in
      let n := if blen (rcv c) <? n then blen (rcv c) else n in
      if n =? 0 then ([], u)
      else
        let c' := k_rcv (drop (Z.to_nat n) (rcv c)) c in
        (take (Z.to_nat n) (rcv c), set_channel ch (if is_state USB_MUX_OPEN c then k_ack_pending true c' else c') u)
  end.

Definition usb_mux_close (ch : Z) (u : usb_mux) : usb_mux :=
  if USB_MUX_CHANNELS <=? ch then u
  else let c := channel u ch in
    if free_slot c then u
    else set_channel ch (k_state (if usb_mux_ready u then USB_MUX_CLOSING else USB_MUX_CLOSED) (k_rcv [] (k_snd [] c))) u.

(** ** Sending *)

(** The packet built for [body]; [None] when it does not fit the buffer. *)
Definition frame (protocol : Z) (body : list Z) (u : usb_mux) : option usb_mux :=
  let h := header_size u in
  let size := h + blen body in
  if USB_MUX_TX_SIZE <? size then None
  else
    let long := h =? 16 in
    let head := put32 protocol ++ put32 size
                ++ (if long then put32 0xfeedface ++ put16 (tx_sequence u) ++ put16 (rx_sequence u) else []) in
    Some (x_transmit (head ++ body) (x_transmit_at 0 (x_transmit_zlp (size mod 512 =? 0)
            (x_tx_sequence (if long then w16 (tx_sequence u + 1) else tx_sequence u) u)))).

Definition stream_header (c : mux_channel) (flags : Z) : list Z :=
  put16 (local_port c) ++ put16 (remote_port c) ++ put32 (send_next c) ++ put32 (receive_next c)
  ++ [80; w8 flags] ++ put16 ((USB_MUX_RX_SIZE - blen (rcv c)) .>> 8) ++ [0; 0; 0; 0].

(** [None] also when fewer than [n] octets are queued. *)
Definition tcp_frame (i flags n : Z) (u : usb_mux) : option usb_mux :=
  let c := channel u i in
  if blen (snd c) <? n then None
  else
    u ← frame 6 (stream_header c flags ++ take (Z.to_nat n) (snd c)) u;
    Some (set_channel i (k_ack_pending false (k_snd (drop (Z.to_nat n) (snd c))
            (k_send_next (send_next c +w (n + (if flags .& 2 =? 0 then 0 else 1))) c))) u).

(** How much an open channel may send now. *)
Definition sendable (c : mux_channel) (u : usb_mux) : Z :=
  let flight := send_next c -w send_acked c in
  let available := if flight <? peer_window c then peer_window c - flight else 0 in
  let max_payload := USB_MUX_TX_SIZE - header_size u - 20 in
  let n := blen (snd c) in
  let n := if max_payload <? n then max_payload else n in
  if available <? n then available else n.

Definition serve_channel (i : Z) (u : usb_mux) : option usb_mux :=
  let c := channel u i in
  let to s u := set_channel i (k_state s (channel u i)) u in
  match state c with
  | USB_MUX_CONNECT => to USB_MUX_SYN_SENT <$> tcp_frame i 2 0 u
  | USB_MUX_CLOSING => to USB_MUX_CLOSED <$> tcp_frame i 4 0 u
  | USB_MUX_OPEN =>
    let n := sendable c u in
    if negb (n =? 0) || ack_pending c then tcp_frame i 16 n u else Some u
  | _ => Some u
  end.

Fixpoint serve_from (ks : list Z) (u : usb_mux) : option usb_mux :=
  match ks with
  | [] => Some u
  | k :: ks =>
    let i := (round_robin u + k) mod USB_MUX_CHANNELS in
    u ← serve_channel i u;
    if blen (transmit u) =? 0 then serve_from ks u
    else Some (x_round_robin ((i + 1) mod USB_MUX_CHANNELS) u)
  end.

Definition fill (u : usb_mux) : option usb_mux :=
  match stage u with
  | SEND_VERSION => x_stage WAIT_VERSION <$> frame 0 (put32 2 ++ put32 0 ++ put32 0) u
  | SEND_SETUP => x_stage WAIT_SETUP <$> frame 2 [7] (x_tx_sequence 0 (x_rx_sequence 0xffff u))
  | ACTIVE => serve_from indices u
  | _ => Some u
  end.

(** The packet to send, empty for none. *)
Definition usb_mux_output (u : usb_mux) : option (list Z * usb_mux) :=
  if is_stage FAILED u then Some ([], u)
  else
    u ← (if blen (transmit u) =? 0 then fill u else Some u);
    Some (transmit u, u).

Definition usb_mux_output_complete (u : usb_mux) : usb_mux :=
  let u := x_transmit [] (x_transmit_at 0 (x_transmit_zlp false u)) in
  if is_stage WAIT_SETUP u then x_stage ACTIVE u else u.

(** ** Receiving *)

Definition channel_error (message : string) (c : mux_channel) : mux_channel :=
  k_snd [] (k_state USB_MUX_ERROR (k_c_error (Some message) c)).

Definition for_channel (u : usb_mux) (to from : Z) (i : Z) : bool :=
  (local_port (channel u i) =? to) && (remote_port (channel u i) =? from).

(** A segment [q] (its header and its octets) for a channel that takes segments. *)
Definition channel_input (q : list Z) (c : mux_channel) : option mux_channel :=
  flags ← get8 q 13; sequence ← mux_be32 q 4; ack ← mux_be32 q 8; window ← mux_be16 q 14;
  if negb (flags .& 4 =? 0) then Some (channel_error "Guest refused or reset the service connection" c)
  else if is_state USB_MUX_SYN_SENT c then
    if negb (flags =? 18) || negb (blen q =? 20) || negb (ack =? send_next c)
    then Some (channel_error "Invalid service connection handshake" c)
    else Some (k_ack_pending true (k_state USB_MUX_OPEN (k_peer_window (Z.shiftl window 8)
                 (k_receive_next (sequence +w 1) (k_send_acked ack c)))))
  else if negb (is_state USB_MUX_OPEN c) || (negb (flags =? 16) && negb (flags =? 24))
  then Some (channel_error "Unexpected service connection flags" c)
  else if (send_next c -w send_acked c) <? (ack -w send_acked c)
  then Some (channel_error "Guest acknowledged unsent stream bytes" c)
  else
    let c := k_peer_window (Z.shiftl window 8) (k_send_acked ack c) in
    let l := drop 20 q in
    let n := blen l in
    if negb (sequence =? receive_next c) then
      let behind := receive_next c -w sequence in
      if (n <=? behind) && (behind <=? USB_MUX_RX_SIZE) then Some (k_ack_pending true c)
      else Some (channel_error "Out-of-order usbmux stream bytes" c)
    else if USB_MUX_RX_SIZE - blen (rcv c) <? n
    then Some (channel_error "Guest exceeded advertised receive window" c)
    else if n =? 0 then Some c
    else Some (k_ack_pending true (k_receive_next (receive_next c +w n) (k_rcv (rcv c ++ l) c))).

Definition refuses (c : mux_channel) : bool :=
  is_state USB_MUX_CLOSED c || is_state USB_MUX_CLOSING c || is_state USB_MUX_ERROR c.

Definition stream_input (protocol : Z) (q : list Z) (u : usb_mux) : option usb_mux :=
  if protocol =? 1 then
    quiet ← (if blen q =? 0 then Some false else v ← get8 q 0; Some ((v =? 5) || (v =? 7)));
    Some (if quiet : bool then u else usb_mux_cancel "Guest reported a usbmux control error" u)
  else
    bad ← (if negb (protocol =? 6) || (blen q <? 20) then Some true else v ← get8 q 12; Some (negb (v .>> 4 =? 5)));
    if bad : bool then Some (usb_mux_cancel "Invalid usbmux stream header" u)
    else
      to ← mux_be16 q 2; from ← mux_be16 q 0;
      match find (for_channel u to from) indices with
      | None => Some u
      | Some i =>
        if refuses (channel u i) then Some u
        else c ← channel_input q (channel u i); Some (set_channel i c u)
      end.

Definition version_input (protocol : Z) (q : list Z) (u : usb_mux) : option usb_mux :=
  offered ← (if negb (protocol =? 0) || negb (blen q =? 12) then Some None
             else v ← mux_be32 q 0; Some (if (v =? 1) || (v =? 2) then Some v else None));
  Some (match offered with
        | None => usb_mux_cancel "Unsupported guest usbmux version" u
        | Some v => x_stage (if v =? 2 then SEND_SETUP else ACTIVE) (x_version v u)
        end).

Definition input_frame (p : list Z) (u : usb_mux) : option usb_mux :=
  let h := header_size u in
  protocol ← mux_be32 p 0;
  if blen p <? h then Some (usb_mux_cancel "Truncated usbmux header" u)
  else
    u ← (if h =? 16 then s ← mux_be16 p 14; Some (x_rx_sequence (w16 s) u) else Some u);
    let q := drop (Z.to_nat h) p in
    match stage u with
    | WAIT_VERSION => version_input protocol q u
    | ACTIVE => stream_input protocol q u
    | _ => Some (usb_mux_cancel "Unexpected usbmux negotiation packet" u)
    end.

Definition wrong_length : usb_mux → usb_mux := usb_mux_cancel "Invalid usbmux packet length".

(** One turn: the octets taken, and the rest. *)
Definition feed_turn (data : list Z) (u : usb_mux) : option (list Z * usb_mux) :=
  let used := blen (receive u) in
  wanted ← (if used <? 8 then Some 8 else mux_be32 (receive u) 4);
  if (wanted <? 8) || (USB_MUX_RX_SIZE <? wanted) || (wanted <? used) then Some ([], wrong_length u)
  else
    let n := Z.to_nat (Z.min (wanted - used) (blen data)) in
    let u := x_receive (receive u ++ take n data) u in
    let rest := drop n data in
    if blen (receive u) <? 8 then Some (rest, u)
    else
      len ← mux_be32 (receive u) 4;
      if (len <? header_size u) || (USB_MUX_RX_SIZE <? len) then Some ([], wrong_length u)
      else if blen (receive u) =? len then u ← input_frame (receive u) u; Some (rest, x_receive [] u)
      else Some (rest, u).

Fixpoint feed_loop (fuel : nat) (data : list Z) (u : usb_mux) : option usb_mux :=
  if (blen data =? 0) || is_stage FAILED u then Some u
  else match fuel with
       | O => None
       | S fuel => '(data, u) ← feed_turn data u; feed_loop fuel data u
       end.

Definition usb_mux_feed (data : option (list Z)) (u : usb_mux) : option usb_mux :=
  match data with
  | None => Some u
  | Some l => feed_loop (length l) l u
  end.

(** ** The peer's invariant *)

Record chan_ok (c : mux_channel) : Prop := {
  co_rcv : blen (rcv c) <= USB_MUX_RX_SIZE; co_snd : blen (snd c) <= USB_MUX_TX_SIZE;
  co_ports : uint 16 (local_port c) ∧ uint 16 (remote_port c);
  co_send : uint 32 (send_next c) ∧ uint 32 (send_acked c); co_next : uint 32 (receive_next c);
  co_window : 0 <= peer_window c <= 0xffff00 }.

(** A packet being received: at most its first seven octets, or its length is known,
    allowed and not reached. *)
Definition gathering (u : usb_mux) : Prop :=
  blen (receive u) < 8
  ∨ ∃ len, mux_be32 (receive u) 4 = Some len ∧ header_size u <= len <= USB_MUX_RX_SIZE ∧ blen (receive u) < len.

Record mux_ok (u : usb_mux) : Prop := {
  mo_version : 0 <= version u <= 2; mo_robin : 0 <= round_robin u < USB_MUX_CHANNELS;
  mo_receive : gathering u; mo_transmit : blen (transmit u) <= USB_MUX_TX_SIZE; mo_port : uint 16 (next_port u);
  mo_channel : ∀ i, chan_ok (channel u i) }.

Lemma blen_take_min (l : list Z) n : 0 <= n → blen (take (Z.to_nat n) l) = Z.min n (blen l).
Proof. unfold blen. rewrite length_take. lia. Qed.
Lemma blen_drop_max (l : list Z) n : 0 <= n → blen (drop (Z.to_nat n) l) = Z.max 0 (blen l - n).
Proof. unfold blen. rewrite length_drop. lia. Qed.
Lemma blen_zero {l : list Z} : blen l = 0 → l = [].
Proof. destruct l; [done|]. unfold blen. simpl. lia. Qed.

Lemma header_size_cases u : header_size u = 16 ∨ header_size u = 8.
Proof. unfold header_size. destruct (_ =? 2); auto. Qed.

Lemma returns_be16 p off : 0 <= off → off + 2 <= blen p → returns (uint 16) (mux_be16 p off).
Proof.
  intros H1 H2. unfold mux_be16. reading. apply uint_lor; [lia|by apply (uint_shiftl 16 8)|by apply (uint_mono 8)].
Qed.
Lemma returns_be32 p off : 0 <= off → off + 4 <= blen p → returns (uint 32) (mux_be32 p off).
Proof.
  intros H1 H2. unfold mux_be32. reading. repeat apply uint_lor; try lia.
  1-3: by apply (uint_shiftl 32 8). by apply (uint_mono 8).
Qed.

Lemma chan_ok_no : chan_ok no_channel.
Proof. split; simpl; try done; by split. Qed.

Lemma mux_ok_init : mux_ok usb_mux_init.
Proof. split; try done. by left. Qed.

Lemma mux_ok_set i c u : mux_ok u → chan_ok c → mux_ok (set_channel i c u).
Proof.
  intros [] Hc. split; try done. intros j. simpl.
  destruct (decide (j = i)) as [->|N]; [by rewrite fn_lookup_insert|by rewrite fn_lookup_insert_ne].
Qed.

Lemma mux_ok_cancel reason u : mux_ok u → mux_ok (usb_mux_cancel reason u).
Proof.
  intros []. split; try done; [by left|]. intros i. cbn [channel usb_mux_cancel]. destruct (_ || _); [done|].
  destruct (mo_channel0 i). by split.
Qed.
Lemma cancel_failed reason u : stage (usb_mux_cancel reason u) = FAILED.
Proof. done. Qed.

Lemma mux_ok_stage s u : mux_ok u → mux_ok (x_stage s u).
Proof. intros []. by split. Qed.

(** Stages, sequence numbers and flags are not part of the invariant. *)
Lemma mux_ok_same u u' : mux_ok u → version u' = version u → round_robin u' = round_robin u → receive u' = receive u →
  blen (transmit u') <= USB_MUX_TX_SIZE → next_port u' = next_port u → channel u' = channel u → mux_ok u'.
Proof.
  intros [] V R C T P Ch. split; rewrite ?V, ?R, ?P, ?Ch; try done.
  unfold gathering, header_size. by rewrite C, V.
Qed.

Lemma mux_ok_connect port u : uint 16 port → mux_ok u → mux_ok (usb_mux_connect port u).2.
Proof.
  intros Hp H. unfold usb_mux_connect. destruct (_ || _); [done|]. destruct (find _ _); [|done]. simpl.
  assert (Hc : chan_ok (MkChannel USB_MUX_CONNECT (next_port u) port 0 0 0 0 false None [] [])).
  { split; simpl; try done; split; try done; apply H. }
  pose proof (mux_ok_set z _ _ H Hc) as []. split; try done. apply uint_w16.
Qed.

Lemma mux_ok_write ch data u : mux_ok u → mux_ok (usb_mux_write ch data u).2.
Proof.
  intros H. unfold usb_mux_write. destruct data as [l|]; [|done]. destruct (_ || _); [done|]. destruct (negb _); [done|].
  cbv zeta. simpl. apply mux_ok_set; [done|]. destruct (mo_channel _ H ch). split; try done. simpl.
  set (room := USB_MUX_TX_SIZE - blen (snd (channel u ch))). pose proof (blen_nonneg l).
  rewrite blen_app, blen_take_min by (destruct (room <? blen l); lia). destruct (Z.ltb_spec room (blen l)); lia.
Qed.

Lemma mux_ok_read ch capacity u : mux_ok u → mux_ok (usb_mux_read ch capacity u).2.
Proof.
  intros H. unfold usb_mux_read. destruct capacity as [n|]; [|done]. destruct (_ <=? ch); [done|]. cbv zeta.
  set (n' := if _ <? n then _ else n). destruct (_ =? 0); [done|]. simpl. apply mux_ok_set; [done|].
  destruct (mo_channel _ H ch). destruct (is_state _ _); split; try done; simpl.
  all: unfold blen in *; rewrite length_drop; lia.
Qed.

Lemma mux_ok_close ch u : mux_ok u → mux_ok (usb_mux_close ch u).
Proof.
  intros H. unfold usb_mux_close. destruct (_ <=? ch); [done|]. cbv zeta. destruct (free_slot _); [done|].
  apply mux_ok_set; [done|]. destruct (mo_channel _ H ch). split; try done; unfold USB_MUX_RX_SIZE, USB_MUX_TX_SIZE; simpl; unfold blen; simpl; lia.
Qed.

Lemma mux_ok_complete u : mux_ok u → mux_ok (usb_mux_output_complete u).
Proof.
  intros H. unfold usb_mux_output_complete. cbv zeta. destruct (is_stage _ _); apply (mux_ok_same u); try done.
Qed.

(** *** Sending fits *)

Lemma frame_ok protocol body u : mux_ok u → blen body <= USB_MUX_TX_SIZE - header_size u →
  returns (fun u' => mux_ok u' ∧ channel u' = channel u ∧ stage u' = stage u ∧ version u' = version u
                     ∧ receive u' = receive u ∧ 8 + blen body <= blen (transmit u')) (frame protocol body u).
Proof.
  intros H Hb. unfold frame. cbv zeta. rewrite (proj2 (Z.ltb_ge _ _)) by lia. apply returns_ret.
  assert (L : ∀ v, blen (put32 v) = 4) by done.
  assert (T : ∀ head : list Z, blen head = (if header_size u =? 16 then 16 else 8) → blen (head ++ body) = header_size u + blen body).
  { intros head Hh. rewrite blen_app, Hh. by destruct (header_size_cases u) as [-> | ->]. }
  set (head := put32 protocol ++ _). assert (Hh : blen head = (if header_size u =? 16 then 16 else 8)).
  { unfold head. rewrite !blen_app, !L. by destruct (_ =? 16). }
  specialize (T head Hh).
  split; [|split_and!; try done; change (8 + blen body <= blen (head ++ body)); rewrite T; destruct (header_size_cases u) as [-> | ->]; lia].
  apply (mux_ok_same u); try done. change (blen (head ++ body) <= USB_MUX_TX_SIZE). lia.
Qed.

Lemma stream_header_length c flags : blen (stream_header c flags) = 20.
Proof. done. Qed.

Lemma tcp_frame_ok i flags n u : mux_ok u → 0 <= n <= blen (snd (channel u i)) →
  n <= USB_MUX_TX_SIZE - header_size u - 20 →
  returns (fun u' => mux_ok u' ∧ stage u' = stage u ∧ version u' = version u ∧ receive u' = receive u ∧ 8 < blen (transmit u')) (tcp_frame i flags n u).
Proof.
  intros H Hn Hm. unfold tcp_frame. cbv zeta. rewrite (proj2 (Z.ltb_ge _ _)) by lia.
  eapply returns_bind.
  - apply (frame_ok 6); [done|]. rewrite blen_app, stream_header_length, blen_take_min by lia. lia.
  - intros u1 (H1 & C1 & S1 & V1 & R1 & T1). apply returns_ret. rewrite blen_app, stream_header_length in T1.
    pose proof (blen_nonneg (take (Z.to_nat n) (snd (channel u i)))). split_and!; try done; [|simpl; lia].
    apply mux_ok_set; [done|]. destruct (mo_channel _ H i). split; try done; simpl.
    + unfold blen in *. rewrite length_drop. lia.
    + split; [apply uint_w32|apply co_send0].
Qed.

Lemma sendable_bounds c u : 0 <= sendable c u ∧ sendable c u <= blen (snd c) ∧ sendable c u <= USB_MUX_TX_SIZE - header_size u - 20.
Proof.
  unfold sendable. cbv zeta. pose proof (blen_nonneg (snd c)).
  assert (0 <= USB_MUX_TX_SIZE - header_size u - 20) by (destruct (header_size_cases u) as [-> | ->]; unfold USB_MUX_TX_SIZE; lia).
  destruct (Z.ltb_spec (send_next c -w send_acked c) (peer_window c)) as [A|A];
    destruct (Z.ltb_spec (USB_MUX_TX_SIZE - header_size u - 20) (blen (snd c))) as [B|B];
    match goal with |- context [?x <? ?y] => destruct (Z.ltb_spec x y) end; lia.
Qed.

Definition sent_or (u u' : usb_mux) : Prop :=
  mux_ok u' ∧ stage u' = stage u ∧ version u' = version u ∧ receive u' = receive u.

Lemma k_state_ok s c : chan_ok c → chan_ok (k_state s c).
Proof. intros []. by split. Qed.

Lemma serve_channel_ok i u : mux_ok u → returns (sent_or u) (serve_channel i u).
Proof.
  intros H. unfold serve_channel. cbv zeta.
  assert (Z0 : ∀ flags, returns (fun u' => mux_ok u' ∧ stage u' = stage u ∧ version u' = version u ∧ receive u' = receive u ∧ 8 < blen (transmit u'))
                 (tcp_frame i flags 0 u)).
  { intros flags. apply tcp_frame_ok; [done| |]; pose proof (blen_nonneg (snd (channel u i))); [lia|].
    destruct (header_size_cases u) as [-> | ->]; unfold USB_MUX_TX_SIZE; lia. }
  destruct (state _); try (apply returns_ret; done).
  - destruct (Z0 2) as (u' & -> & H1 & H2 & H3 & H4 & _). apply returns_ret. split_and!; try done.
    apply mux_ok_set; [done|]. apply k_state_ok, H1.
  - destruct (_ || _); [|by apply returns_ret]. eapply returns_weaken; [apply tcp_frame_ok; [done|..]|].
    1,2: pose proof (sendable_bounds (channel u i) u); lia. intros u' (H1 & H2 & H3 & H4 & _). by split_and!.
  - destruct (Z0 4) as (u' & -> & H1 & H2 & H3 & H4 & _). apply returns_ret. split_and!; try done.
    apply mux_ok_set; [done|]. apply k_state_ok, H1.
Qed.

Lemma serve_from_ok ks : ∀ u, mux_ok u → returns (sent_or u) (serve_from ks u).
Proof.
  induction ks as [|k ks IH]; intros u H; [by apply returns_ret|]. cbn [serve_from]. cbv zeta.
  eapply returns_bind; [by apply serve_channel_ok|]. intros u1 (H1 & S1 & V1 & R1).
  destruct (_ =? 0).
  - eapply returns_weaken; [by apply IH|]. intros u2 (H2 & S2 & V2 & R2). split_and!; congruence.
  - apply returns_ret. split_and!; try done. destruct H1. split; try done. simpl. apply Z.mod_pos_bound. done.
Qed.

Lemma output_ok u : mux_ok u → returns (fun r => mux_ok r.2 ∧ receive r.2 = receive u) (usb_mux_output u).
Proof.
  intros H. unfold usb_mux_output. destruct (is_stage _ _); [by apply returns_ret|].
  eapply returns_bind with (P := fun u' => mux_ok u' ∧ receive u' = receive u); [|intros u' [? ?]; by apply returns_ret].
  destruct (_ =? 0); [|by apply returns_ret]. unfold fill.
  assert (B : ∀ u0 (body : list Z), mux_ok u0 → blen body <= 12 → blen body <= USB_MUX_TX_SIZE - header_size u0)
    by (intros u0 body _ ?; destruct (header_size_cases u0) as [-> | ->]; unfold USB_MUX_TX_SIZE; lia).
  destruct (stage u); try (by apply returns_ret).
  - destruct (frame_ok 0 (put32 2 ++ put32 0 ++ put32 0) u) as (u' & -> & H1 & _ & _ & _ & R & _); [done|by apply B|].
    apply returns_ret. split; [by apply mux_ok_stage|done].
  - set (u0 := x_tx_sequence 0 _). assert (H0 : mux_ok u0) by (apply (mux_ok_same u); try done; apply H).
    destruct (frame_ok 2 [7] u0) as (u' & -> & H1 & _ & _ & _ & R & _); [done|by apply B|].
    apply returns_ret. split; [by apply mux_ok_stage|done].
  - eapply returns_weaken; [by apply serve_from_ok|]. intros u' (H1 & _ & _ & R). done.
Qed.

(** *** Receiving stays inside the packet *)

Lemma channel_error_ok message c : chan_ok c → chan_ok (channel_error message c).
Proof. intros []. split; try done. Qed.

Lemma channel_input_ok q c : chan_ok c → 20 <= blen q → returns chan_ok (channel_input q c).
Proof.
  intros Hc Hq. unfold channel_input.
  eapply returns_bind; [apply returns_get8; lia|intros flags [Hf _]].
  eapply returns_bind; [apply returns_be32; lia|intros sequence Hs].
  eapply returns_bind; [apply returns_be32; lia|intros ack Ha].
  eapply returns_bind; [apply returns_be16; lia|intros window [Hw Hw']].
  assert (W : 0 <= Z.shiftl window 8 <= 0xffff00) by (rewrite Z.shiftl_mul_pow2 by lia; lia).
  pose proof Hc as [].
  destruct (negb (flags .& 4 =? 0)); [by apply returns_ret, channel_error_ok|].
  destruct (is_state USB_MUX_SYN_SENT c).
  { destruct (_ || _); apply returns_ret; [by apply channel_error_ok|]. split; try done; simpl; [by split; [apply co_send0|]|apply uint_w32]. }
  destruct (_ || _); [by apply returns_ret, channel_error_ok|].
  destruct (_ <? _); [by apply returns_ret, channel_error_ok|]. cbv zeta.
  set (c' := k_peer_window _ _). assert (Hc' : chan_ok c') by (split; try done; split; [apply co_send0|done]).
  destruct (negb _).
  - destruct (_ && _); apply returns_ret; [|by apply channel_error_ok]. destruct Hc'. by split.
  - destruct (Z.ltb_spec (USB_MUX_RX_SIZE - blen (rcv c')) (blen (drop 20 q))); [by apply returns_ret, channel_error_ok|].
    destruct (_ =? 0); apply returns_ret; [done|]. clearbody c'. destruct Hc'.
    split; simpl; try assumption; [rewrite blen_app; lia|apply uint_w32].
Qed.

(** After a packet the peer is sound whatever is done with the gathered octets. *)
Definition sound_but_input (u : usb_mux) : Prop := mux_ok (x_receive [] u).

Lemma sound_input u : mux_ok u → sound_but_input u.
Proof. intros []. split; try done. by left. Qed.
Lemma sound_cancel reason u : sound_but_input u → mux_ok (usb_mux_cancel reason u).
Proof. intros H. pose proof (mux_ok_cancel reason _ H). done. Qed.
Lemma sound_channel u i : sound_but_input u → chan_ok (channel u i).
Proof. intros H. apply (mo_channel _ H). Qed.

Ltac canceled := apply returns_ret; apply sound_input, sound_cancel; assumption.

Lemma stream_input_ok protocol q u : sound_but_input u → returns sound_but_input (stream_input protocol q u).
Proof.
  intros H. unfold stream_input. destruct (protocol =? 1).
  - destruct (Z.eqb_spec (blen q) 0); [canceled|]. pose proof (blen_nonneg q).
    eapply returns_bind with (P := fun _ => True); [eapply returns_bind; [apply returns_get8; lia|intros; by apply returns_ret]|].
    intros [] _; [by apply returns_ret|canceled].
  - destruct (_ || _) eqn:E; [canceled|]. bool_facts.
    eapply returns_bind with (P := fun _ => True); [eapply returns_bind; [apply returns_get8; lia|intros; by apply returns_ret]|].
    intros [] _; [canceled|].
    eapply returns_bind; [apply returns_be16; lia|intros to _]. eapply returns_bind; [apply returns_be16; lia|intros from _].
    destruct (find _ _) as [i|]; [|by apply returns_ret]. destruct (refuses _); [by apply returns_ret|].
    eapply returns_bind; [apply channel_input_ok; [by apply sound_channel|lia]|]. intros c Hc. apply returns_ret.
    exact (mux_ok_set i c _ H Hc).
Qed.

Lemma version_input_ok protocol q u : sound_but_input u → returns sound_but_input (version_input protocol q u).
Proof.
  intros H. unfold version_input.
  eapply returns_bind with (P := fun o => match o with Some v => 0 <= v <= 2 | None => True end).
  - destruct (_ || _) eqn:E; [by apply returns_ret|]. bool_facts.
    eapply returns_bind; [apply returns_be32; lia|]. intros v _. apply returns_ret.
    destruct (Z.eqb_spec v 1), (Z.eqb_spec v 2); cbn [orb]; try lia; exact I.
  - intros [v|] Hv; [|canceled]. apply returns_ret. destruct H. split; try done; by left.
Qed.

Lemma input_frame_ok p u : sound_but_input u → 8 <= blen p → returns sound_but_input (input_frame p u).
Proof.
  intros H Hp. unfold input_frame. cbv zeta. eapply returns_bind; [apply returns_be32; lia|intros protocol _].
  destruct (Z.ltb_spec (blen p) (header_size u)); [canceled|].
  eapply returns_bind with (P := sound_but_input).
  - destruct (Z.eqb_spec (header_size u) 16); [|by apply returns_ret].
    eapply returns_bind; [apply returns_be16; lia|]. intros s _. apply returns_ret. apply (mux_ok_same (x_receive [] u)); try done. apply H.
  - intros u1 H1. destruct (stage u1); try canceled; [by apply version_input_ok|by apply stream_input_ok].
Qed.

(** *** Turns *)

Lemma be32_prefix p post off : off + 4 <= blen p → mux_be32 (p ++ post) off = mux_be32 p off.
Proof. intros H. unfold mux_be32. by rewrite !get8_prefix by lia. Qed.

(** The packet in the buffer with more octets put behind it. *)
Definition grown (l : list Z) (u : usb_mux) : usb_mux := x_receive (receive u ++ l) u.

(** How many octets complete the header, or the packet. *)
Definition missing (u : usb_mux) : Z :=
  (if blen (receive u) <? 8 then 8 else default 0 (mux_be32 (receive u) 4)) - blen (receive u).

Lemma missing_pos u : mux_ok u → 0 < missing u.
Proof.
  intros H. unfold missing. destruct (mo_receive _ H) as [L|(len & E & _ & L)].
  - rewrite (proj2 (Z.ltb_lt _ _)) by done. lia.
  - destruct (Z.ltb_spec (blen (receive u)) 8); [lia|]. rewrite E. simpl. lia.
Qed.

(** What a turn does once its octets are in the buffer. *)
Definition settle (u : usb_mux) : option usb_mux :=
  len ← mux_be32 (receive u) 4;
  if (len <? header_size u) || (USB_MUX_RX_SIZE <? len) then Some (wrong_length u)
  else if blen (receive u) =? len then u ← input_frame (receive u) u; Some (x_receive [] u)
  else Some u.

Lemma take_blen (l : list Z) : take (Z.to_nat (blen l)) l = l.
Proof. unfold blen. by rewrite Nat2Z.id, take_ge by lia. Qed.
Lemma drop_blen (l : list Z) : drop (Z.to_nat (blen l)) l = [].
Proof. unfold blen. by rewrite Nat2Z.id, drop_ge by lia. Qed.

(** A turn with octets that do not reach the end of what is missing only stores them. *)
Lemma feed_turn_short data u : mux_ok u → blen data < missing u → feed_turn data u = Some ([], grown data u) ∧ mux_ok (grown data u)
  ∧ missing (grown data u) = missing u - blen data.
Proof.
  intros H Hd. unfold feed_turn, missing, grown in *. cbv zeta. cbn [receive x_receive].
  destruct (mo_receive _ H) as [L|(len & E & R & L)].
  - rewrite !(proj2 (Z.ltb_lt (blen (receive u)) 8)) in * by done. cbn [mbind option_bind].
    change (8 <? 8) with false. change (USB_MUX_RX_SIZE <? 8) with false. cbn [orb].
    rewrite (proj2 (Z.ltb_ge 8 _)) by lia. rewrite Z.min_r by lia. rewrite take_blen, drop_blen.
    rewrite blen_app, (proj2 (Z.ltb_lt _ 8)) by lia. split_and!; [done| |lia].
    destruct H. split; try done. left. simpl. rewrite blen_app. lia.
  - destruct (Z.ltb_spec (blen (receive u)) 8) as [C|C].
    + cbn [mbind option_bind]. change (8 <? 8) with false. change (USB_MUX_RX_SIZE <? 8) with false. cbn [orb].
      rewrite (proj2 (Z.ltb_ge 8 _)) by lia. rewrite Z.min_r by lia. rewrite take_blen, drop_blen.
      rewrite blen_app, (proj2 (Z.ltb_lt _ 8)) by lia. split_and!; [done| |lia].
      destruct H. split; try done. left. simpl. rewrite blen_app. lia.
    + rewrite E in *. cbn [mbind option_bind from_option id] in *. pose proof (blen_nonneg data).
      assert (8 <= header_size u) by (destruct (header_size_cases u); lia).
      rewrite !(proj2 (Z.ltb_ge _ _)) by lia. cbn [orb].
      rewrite Z.min_r by lia. rewrite take_blen, drop_blen.
      rewrite blen_app, (proj2 (Z.ltb_ge _ 8)) by lia. rewrite be32_prefix, E by lia. cbn [mbind option_bind from_option id].
      change (header_size (x_receive (receive u ++ data) u)) with (header_size u).
      rewrite !(proj2 (Z.ltb_ge _ _)) by lia. cbn [orb].
      rewrite (proj2 (Z.eqb_neq _ _)) by lia. split_and!; [done| |lia].
      destruct H. split; try done. right. exists len. cbn [receive x_receive]. change (header_size (x_receive (receive u ++ data) u)) with (header_size u).
      rewrite be32_prefix, blen_app by lia. split_and!; try done; lia.
Qed.

Lemma full_wanted u : mux_ok u → ∃ wanted,
  (if blen (receive u) <? 8 then Some 8 else mux_be32 (receive u) 4) = Some wanted
  ∧ missing u = wanted - blen (receive u) ∧ 8 <= wanted <= USB_MUX_RX_SIZE.
Proof.
  intros H. unfold missing. assert (8 <= header_size u) by (destruct (header_size_cases u); lia).
  destruct (mo_receive _ H) as [L|(len & E & R & L)].
  - rewrite (proj2 (Z.ltb_lt _ _)) by done. by exists 8.
  - destruct (Z.ltb_spec (blen (receive u)) 8); [by exists 8|]. rewrite E. exists len. split_and!; done || lia.
Qed.

Lemma settle_ok l u : mux_ok u → blen l = missing u → returns mux_ok (settle (grown l u)).
Proof.
  intros H Hl. destruct (full_wanted u H) as (wanted & Ew & Em & Hw).
  assert (B : blen (receive (grown l u)) = wanted) by (simpl; rewrite blen_app; lia).
  unfold settle. destruct (returns_be32 (receive (grown l u)) 4) as (len & El & Hlen & _); [lia..|].
  rewrite El. cbn [mbind option_bind].
  change (header_size (grown l u)) with (header_size u).
  assert (S : sound_but_input (grown l u)) by (apply (sound_input u H)).
  destruct (_ || _) eqn:E; [apply returns_ret; by apply sound_cancel|]. bool_facts.
  destruct (Z.eqb_spec (blen (receive (grown l u))) len) as [F|F].
  - eapply returns_bind; [apply input_frame_ok; [done|lia]|]. intros u' H'. by apply returns_ret.
  - apply returns_ret. destruct H as [? ? G ? ? ?]. split; try done. right. exists len.
    assert (8 <= header_size u) by (destruct (header_size_cases u); lia).
    destruct (Z.ltb_spec (blen (receive u)) 8) as [C|C].
    + split_and!; try done. injection Ew as <-. lia.
    + destruct G as [G|(len' & E' & R' & L')]; [lia|]. exfalso. apply F.
      unfold grown in El. cbn [receive x_receive] in El. rewrite be32_prefix, E' in El by lia.
      rewrite B. congruence.
Qed.

(** A turn that can take all that is missing takes it, and settles. *)
Lemma feed_turn_full data u : mux_ok u → missing u <= blen data → ∃ rest,
  feed_turn data u = (fun u' => (rest, u')) <$> settle (grown (take (Z.to_nat (missing u)) data) u)
  ∧ (rest = drop (Z.to_nat (missing u)) data
     ∨ rest = [] ∧ ∀ u', settle (grown (take (Z.to_nat (missing u)) data) u) = Some u' → stage u' = FAILED).
Proof.
  intros H Hd. destruct (full_wanted u H) as (wanted & Ew & Em & Hw). pose proof (missing_pos u H) as Hp.
  unfold feed_turn. cbv zeta. rewrite Ew. cbn [mbind option_bind].
  rewrite (proj2 (Z.ltb_ge wanted 8)), (proj2 (Z.ltb_ge USB_MUX_RX_SIZE _)), (proj2 (Z.ltb_ge wanted _)) by lia. cbn [orb].
  rewrite <- Em, Z.min_l by lia. set (l := take (Z.to_nat (missing u)) data).
  assert (Hl : blen l = missing u) by (unfold l; rewrite blen_take_min; lia).
  change (x_receive (receive u ++ l) u) with (grown l u).
  assert (B : blen (receive (grown l u)) = wanted) by (simpl; rewrite blen_app; lia).
  rewrite B, (proj2 (Z.ltb_ge wanted 8)) by lia. unfold settle. rewrite B.
  destruct (returns_be32 (receive (grown l u)) 4) as (len & El & Hlen & _); [lia..|].
  rewrite El. cbn [mbind option_bind].
  destruct (_ || _); [exists []; split; [done|right; split; [done|by intros ? [= <-]]]|].
  exists (drop (Z.to_nat (missing u)) data). split; [|by left].
  destruct (wanted =? len); [|done]. by destruct (input_frame _ _).
Qed.

(** ** Any cut of the octets is the same *)

(** The reference: one octet at a time. *)
Definition feed_octet (b : Z) (u : usb_mux) : option usb_mux :=
  if is_stage FAILED u then Some u
  else if missing u =? 1 then settle (grown [b] u) else Some (grown [b] u).
Fixpoint feed_octets (l : list Z) (u : usb_mux) : option usb_mux :=
  match l with
  | [] => Some u
  | b :: l => u ← feed_octet b u; feed_octets l u
  end.

Lemma feed_octets_app a : ∀ b u, feed_octets (a ++ b) u = u ← feed_octets a u; feed_octets b u.
Proof. induction a as [|x a IH]; intros b u; [done|]. simpl. destruct (feed_octet x u); [apply IH|done]. Qed.

Lemma failed_octets l u : stage u = FAILED → feed_octets l u = Some u.
Proof.
  intros F. induction l as [|b l IH]; [done|]. simpl. unfold feed_octet, is_stage. by rewrite bool_decide_true by done.
Qed.

Lemma grown_grown a b u : grown b (grown a u) = grown (a ++ b) u.
Proof. unfold grown, x_receive. simpl. by rewrite <- app_assoc. Qed.

Lemma octets_short l : ∀ u, mux_ok u → stage u ≠ FAILED → blen l < missing u → feed_octets l u = Some (grown l u).
Proof.
  induction l as [|b l IH]; intros u H F Hl.
  - simpl. unfold grown. rewrite app_nil_r. by destruct u.
  - assert (L : blen (b :: l) = 1 + blen l) by (unfold blen; simpl; lia). pose proof (blen_nonneg l).
    simpl. unfold feed_octet, is_stage. rewrite bool_decide_false by done.
    rewrite (proj2 (Z.eqb_neq _ _)) by lia. cbn [mbind option_bind].
    destruct (feed_turn_short [b] u H) as (_ & H1 & M1); [change (blen [b]) with 1; lia|]. change (blen [b]) with 1 in M1.
    rewrite (IH (grown [b] u)); [|done..|lia]. by rewrite grown_grown.
Qed.

Lemma octets_full l u : mux_ok u → stage u ≠ FAILED → blen l = missing u → feed_octets l u = settle (grown l u).
Proof.
  intros H F Hl. pose proof (missing_pos u H). destruct (exists_last (l := l)) as (a & b & ->); [intros ->; change (blen []) with 0 in Hl; lia|].
  rewrite blen_app in Hl. change (blen [b]) with 1 in Hl. rewrite feed_octets_app, octets_short by (done || lia).
  cbn [mbind option_bind feed_octets]. unfold feed_octet, is_stage. rewrite bool_decide_false by done.
  destruct (feed_turn_short a u H) as (_ & H1 & M1); [lia|].
  rewrite (proj2 (Z.eqb_eq _ _)) by lia. rewrite grown_grown. by destruct (settle _).
Qed.

Lemma feed_loop_octets fuel : ∀ data u, mux_ok u → (length data <= fuel)%nat →
  feed_loop fuel data u = feed_octets data u ∧ returns mux_ok (feed_octets data u).
Proof.
  induction fuel as [|fuel IH]; intros data u H Hf.
  { destruct data; [|simpl in Hf; lia]. split; [done|by apply returns_ret]. }
  cbn [feed_loop]. destruct (Z.eqb_spec (blen data) 0) as [E|E]; cbn [orb].
  { apply blen_zero in E as ->. split; [done|by apply returns_ret]. }
  destruct (is_stage FAILED u) eqn:F.
  { apply bool_decide_eq_true in F. rewrite failed_octets by done. split; [done|by apply returns_ret]. }
  apply bool_decide_eq_false in F. pose proof (missing_pos u H) as Mp.
  destruct (Z.ltb_spec (blen data) (missing u)) as [L|L].
  - destruct (feed_turn_short data u H L) as (-> & H1 & _). rewrite octets_short by done.
    cbn [mbind option_bind]. split; [by destruct fuel|by apply returns_ret].
  - destruct (feed_turn_full data u H L) as (rest & -> & Hr). set (l := take (Z.to_nat (missing u)) data) in *.
    assert (Hl : blen l = missing u) by (unfold l; rewrite blen_take_min; lia).
    destruct (settle_ok l u H Hl) as (u' & Es & H'). rewrite Es in *. cbn [fmap option_fmap option_map mbind option_bind].
    rewrite <- (take_drop (Z.to_nat (missing u)) data), feed_octets_app. fold l. rewrite octets_full, Es by done.
    cbn [mbind option_bind].
    assert (Ld : (length (drop (Z.to_nat (missing u)) data) <= fuel)%nat) by (rewrite length_drop; lia).
    destruct (IH _ u' H' Ld) as [E1 E2]. destruct Hr as [-> | [-> Fd]]; [by split|].
    split; [|done]. rewrite failed_octets by (by apply Fd). unfold blen. simpl. by destruct fuel.
Qed.

Lemma feed_is_octets l u : mux_ok u → usb_mux_feed (Some l) u = feed_octets l u.
Proof. intros H. by apply feed_loop_octets. Qed.

Lemma feed_returns data u : mux_ok u → returns mux_ok (usb_mux_feed data u).
Proof.
  intros H. destruct data as [l|]; [|by apply returns_ret]. rewrite feed_is_octets by done.
  by apply (feed_loop_octets (length l) l u H).
Qed.
