(* ===== verification/UsbMuxStreams.v ===== *)
(** * The two streams of a usbmux channel

    Specification and proofs for UsbMux.v: what any call may do to a channel, the stream of
    octets an open channel sends and the one it receives. *)

From Stdlib Require Import String.
From S2P Require Import Prelude Bytes UsbMux.
Open Scope Z_scope.
Open Scope word_scope.

(** ** Fields as they were put *)

Lemma be32_sum a b c d : uint 8 a → uint 8 b → uint 8 c → uint 8 d →
  ((Z.shiftl a 24 .| Z.shiftl b 16) .| Z.shiftl c 8) .| d = ((a * 256 + b) * 256 + c) * 256 + d.
Proof.
  intros Ha Hb Hc Hd.
  assert (S : ∀ x y n, 0 <= n → Z.shiftl x (8 + n) .| Z.shiftl y n = Z.shiftl (Z.shiftl x 8 .| y) n)
    by (intros; rewrite Z.shiftl_lor, Z.shiftl_shiftl by lia; done).
  pose proof (S a b 16 ltac:(lia)) as S1. change (8 + 16) with 24 in S1.
  pose proof (S (Z.shiftl a 8 .| b) c 8 ltac:(lia)) as S2. change (8 + 8) with 16 in S2.
  rewrite S1, S2. by rewrite !lor_shift_add by (done || lia).
Qed.

Lemma get8_mid pre v post off : off = blen pre → uint 8 v → get8 (pre ++ v :: post) off = Some v.
Proof.
  intros -> Hv. rewrite <- (Z.add_0_r (blen pre)), get8_app by done. unfold get8. simpl. unfold w8. by rewrite wrap_small.
Qed.

Lemma be32_at pre v post off : off = blen pre → uint 32 v → mux_be32 (pre ++ put32 v ++ post) off = Some v.
Proof.
  intros -> Hv. unfold mux_be32, put32, put16. rewrite <- (Z.add_0_r (blen pre)).
  rewrite <- !Z.add_assoc, !get8_app by done. unfold get8. cbn [app Z.add Z.ltb Z.compare Z.to_nat lookup list_lookup fmap option_fmap option_map mbind option_bind].
  simpl. unfold w8. rewrite !wrap_idem by done. f_equal. rewrite be32_sum by apply uint_w8.
  unfold wrap, uint in *. rewrite !Z.shiftr_div_pow2, Z.div_div by lia.
  change (2 ^ 16) with 65536. change (2 ^ 8) with 256 in *. change (2 ^ 32) with 4294967296 in Hv.
  Z.to_euclidean_division_equations. lia.
Qed.

Lemma be16_at pre v post off : off = blen pre → uint 16 v → mux_be16 (pre ++ put16 v ++ post) off = Some v.
Proof.
  intros -> Hv. unfold mux_be16, put16. rewrite <- (Z.add_0_r (blen pre)).
  rewrite <- !Z.add_assoc, !get8_app by done. unfold get8. simpl. unfold w8. rewrite !wrap_idem by done. f_equal.
  rewrite lor_shift_add by (done || apply uint_w8).
  unfold wrap, uint in *. rewrite !Z.shiftr_div_pow2 by lia. change (2 ^ 8) with 256. change (2 ^ 16) with 65536 in Hv.
  Z.to_euclidean_division_equations. lia.
Qed.

Lemma be32_head v post : uint 32 v → mux_be32 (put32 v ++ post) 0 = Some v.
Proof. intros H. by apply (be32_at [] v post). Qed.

(** ** What a call may do to a channel *)

(** The part of a channel that only the client's calls and sending move. *)
Definition keeps (c c' : mux_channel) : Prop :=
  (state c' = state c ∨ state c = USB_MUX_SYN_SENT ∧ state c' = USB_MUX_OPEN) ∧ snd c' = snd c ∧ send_next c' = send_next c.
Definition evolves (c c' : mux_channel) : Prop :=
  local_port c' = local_port c ∧ remote_port c' = remote_port c ∧ (keeps c c' ∨ state c' = USB_MUX_ERROR).

Lemma evolves_refl c : evolves c c.
Proof. split_and!; try done. left. split; [by left|done]. Qed.
Lemma evolves_trans c1 c2 c3 : evolves c1 c2 → evolves c2 c3 → evolves c1 c3.
Proof.
  intros (P1 & Q1 & A) (P2 & Q2 & B). split_and!; [congruence..|]. destruct B as [(S & B1 & B2)|B]; [|by right].
  destruct A as [(S' & A1 & A2)|A].
  - left. split; [|split; congruence]. destruct S as [-> | [S S2]], S' as [S' | [S' S2']]; auto; rewrite ?S', ?S2' in *; try done; by right.
  - right. destruct S as [-> | [S S2]]; congruence.
Qed.

Definition all_evolve (u u' : usb_mux) : Prop := next_port u' = next_port u ∧ ∀ i, evolves (channel u i) (channel u' i).

Lemma all_evolve_refl u : all_evolve u u.
Proof. split; [done|]. intros i. apply evolves_refl. Qed.
Lemma all_evolve_trans u1 u2 u3 : all_evolve u1 u2 → all_evolve u2 u3 → all_evolve u1 u3.
Proof. intros [N1 A] [N2 B]. split; [congruence|]. intros i. eapply evolves_trans; [apply A|apply B]. Qed.
Lemma all_evolve_set i c u : evolves (channel u i) c → all_evolve u (set_channel i c u).
Proof.
  intros H. split; [done|]. intros j. simpl. destruct (decide (j = i)) as [->|N]; [by rewrite fn_lookup_insert|].
  rewrite fn_lookup_insert_ne by done. apply evolves_refl.
Qed.
Lemma all_evolve_cancel reason u : all_evolve u (usb_mux_cancel reason u).
Proof.
  split; [done|]. intros i. cbn [channel usb_mux_cancel]. destruct (_ || _); [apply evolves_refl|]. split_and!; try done. by right.
Qed.
Lemma all_evolve_same u u' : channel u' = channel u → next_port u' = next_port u → all_evolve u u'.
Proof. intros E N. split; [done|]. intros i. rewrite E. apply evolves_refl. Qed.

Lemma error_evolves message c : evolves c (channel_error message c).
Proof. split_and!; try done. by right. Qed.

Lemma channel_input_evolves q c c' : channel_input q c = Some c' → evolves c c'.
Proof.
  unfold channel_input. destruct (get8 q 13) as [flags|]; [|done]. destruct (mux_be32 q 4) as [sequence|]; [|done].
  destruct (mux_be32 q 8) as [ack|]; [|done]. destruct (mux_be16 q 14) as [window|]; [|done]. cbn [mbind option_bind]. cbv zeta.
  destruct (negb (flags .& 4 =? 0)); [intros [= <-]; apply error_evolves|].
  destruct (is_state USB_MUX_SYN_SENT c) eqn:S.
  { apply bool_decide_eq_true in S. destruct (_ || _); intros [= <-]; [apply error_evolves|].
    split_and!; try done. left. split; [by right|done]. }
  repeat match goal with |- (if ?b then _ else _) = _ → _ => destruct b end; intros [= <-];
    (split_and!; try done; first [by right|left; split; [by left|done]]).
Qed.

Ltac canceled_evolves := intros [= <-]; apply all_evolve_cancel.

Lemma stream_input_evolves protocol q u u' : stream_input protocol q u = Some u' → all_evolve u u'.
Proof.
  unfold stream_input. destruct (protocol =? 1).
  - destruct (if blen q =? 0 then _ else _) as [[]|]; [intros [= <-]; apply all_evolve_refl|canceled_evolves|done].
  - destruct (if _ || _ then _ else _) as [[]|]; [canceled_evolves| |done]. cbn [mbind option_bind].
    destruct (mux_be16 q 2); [|done]. destruct (mux_be16 q 0); [|done]. cbn [mbind option_bind].
    destruct (find _ _) as [i|]; [|intros [= <-]; apply all_evolve_refl].
    destruct (refuses _); [intros [= <-]; apply all_evolve_refl|].
    destruct (channel_input q (channel u i)) as [c|] eqn:E; [|done]. intros [= <-].
    apply all_evolve_set. by apply (channel_input_evolves q).
Qed.

Lemma input_frame_evolves p u u' : input_frame p u = Some u' → all_evolve u u'.
Proof.
  unfold input_frame. cbv zeta. destruct (mux_be32 p 0) as [protocol|]; [|done]. cbn [mbind option_bind].
  destruct (blen p <? header_size u); [canceled_evolves|].
  destruct (if header_size u =? 16 then _ else _) as [u1|] eqn:E1; [|done].
  assert (A1 : all_evolve u u1).
  { destruct (header_size u =? 16); [|injection E1 as <-; apply all_evolve_refl].
    destruct (mux_be16 p 14); [|done]. injection E1 as <-. by apply all_evolve_same. }
  cbn [mbind option_bind]. intros E. apply (all_evolve_trans _ _ _ A1). revert E.
  destruct (stage u1); try (canceled_evolves); [|apply stream_input_evolves].
  unfold version_input. destruct (if _ || _ then _ else _) as [[v|]|]; [|canceled_evolves|done]. intros [= <-]. by apply all_evolve_same.
Qed.

Lemma settle_evolves u u' : settle u = Some u' → all_evolve u u'.
Proof.
  unfold settle. destruct (mux_be32 (receive u) 4) as [len|]; [|done]. cbn [mbind option_bind].
  destruct (_ || _); [canceled_evolves|]. destruct (_ =? len); [|intros [= <-]; apply all_evolve_refl].
  destruct (input_frame _ u) as [u1|] eqn:E; [|done]. intros [= <-].
  eapply all_evolve_trans; [by apply (input_frame_evolves _ _ _ E)|]. by apply all_evolve_same.
Qed.

Lemma octets_evolve l : ∀ u u', feed_octets l u = Some u' → all_evolve u u'.
Proof.
  induction l as [|b l IH]; intros u u' E; [injection E as <-; apply all_evolve_refl|]. simpl in E.
  destruct (feed_octet b u) as [u1|] eqn:E1; [|done]. apply IH in E. eapply all_evolve_trans; [|exact E].
  unfold feed_octet in E1. destruct (is_stage FAILED u); [injection E1 as <-; apply all_evolve_refl|].
  destruct (missing u =? 1).
  - eapply all_evolve_trans; [|by apply settle_evolves in E1]. by apply all_evolve_same.
  - injection E1 as <-. by apply all_evolve_same.
Qed.

(** ** A client's run *)

Inductive mux_op :=
  | Connect (port : Z) | Write (ch : Z) (data : option (list Z)) | Read (ch : Z) (capacity : option Z) | Close (ch : Z)
  | Cancel (reason : string) | Feed (data : option (list Z)) | Output | Complete.

(** What is seen of a call: octets accepted from the client, octets delivered to it, a new
    packet with the length of its first header. *)
Inductive mux_event := Accepted (ch : Z) (l : list Z) | Delivered (ch : Z) (l : list Z) | Packet (h : Z) (p : list Z).

Definition mux_step (o : mux_op) (u : usb_mux) : option (list mux_event * usb_mux) :=
  match o with
  | Connect port => Some ([], (usb_mux_connect port u).2)
  | Write ch data =>
    let '(n, u) := usb_mux_write ch data u in Some ([Accepted ch (take (Z.to_nat n) (default [] data))], u)
  | Read ch capacity => let '(l, u) := usb_mux_read ch capacity u in Some ([Delivered ch l], u)
  | Close ch => Some ([], usb_mux_close ch u)
  | Cancel reason => Some ([], usb_mux_cancel reason u)
  | Feed data => u ← usb_mux_feed data u; Some ([], u)
  | Output =>
    '(p, u') ← usb_mux_output u;
    Some (if (blen (transmit u) =? 0) && negb (blen p =? 0) then [Packet (header_size u) p] else [], u')
  | Complete => Some ([], usb_mux_output_complete u)
  end.

Definition mux_op_ok (o : mux_op) : Prop := match o with Connect port => uint 16 port | _ => True end.

Fixpoint mux_run (ops : list mux_op) (u : usb_mux) : option (list mux_event * usb_mux) :=
  match ops with
  | [] => Some ([], u)
  | o :: ops => '(e, u) ← mux_step o u; '(es, u) ← mux_run ops u; Some (e ++ es, u)
  end.

(** Local ports are not reused while the counter has some left. *)
Definition live (c : mux_channel) : Prop :=
  state c = USB_MUX_CONNECT ∨ state c = USB_MUX_SYN_SENT ∨ state c = USB_MUX_OPEN.
Record ports_ok (u : usb_mux) : Prop := {
  po_distinct : ∀ i j, i ≠ j → local_port (channel u i) ≠ 0 → local_port (channel u i) ≠ local_port (channel u j);
  po_fresh : next_port u ≠ 0 → ∀ i, local_port (channel u i) < next_port u;
  po_live : ∀ i, live (channel u i) → local_port (channel u i) ≠ 0 }.

Lemma ports_ok_init : ports_ok usb_mux_init.
Proof. split; [done|by intros|]. intros i [L|[L|L]]; done. Qed.

Lemma ports_ok_same u u' : ports_ok u → next_port u' = next_port u →
  (∀ i, local_port (channel u' i) = local_port (channel u i) ∧ (live (channel u' i) → live (channel u i))) → ports_ok u'.
Proof.
  intros [D F L] N E. split.
  - intros i j. rewrite (proj1 (E i)), (proj1 (E j)). apply D.
  - rewrite N. intros Hn i. rewrite (proj1 (E i)). by apply F.
  - intros i Hi. rewrite (proj1 (E i)). apply L, E, Hi.
Qed.

Lemma ports_ok_set u i c : ports_ok u → local_port c = local_port (channel u i) → (live c → live (channel u i)) →
  ports_ok (set_channel i c u).
Proof.
  intros H P L. apply (ports_ok_same u); [done..|]. intros j. simpl.
  destruct (decide (j = i)) as [->|N]; [by rewrite fn_lookup_insert|by rewrite fn_lookup_insert_ne].
Qed.

Lemma ports_ok_evolve u u' : ports_ok u → all_evolve u u' → ports_ok u'.
Proof.
  intros H [N E]. apply (ports_ok_same u); [done..|]. intros i. destruct (E i) as (P & _ & [(S & _)|S]); (split; [done|]).
  - unfold live. destruct S as [-> | [S1 S2]]; [done|]. intros _. by right; left.
  - intros [L|[L|L]]; congruence.
Qed.

Lemma find_free P i : find P indices = Some i → P i = true ∧ 0 <= i < USB_MUX_CHANNELS.
Proof.
  intros E. apply find_some in E as [Hi ->]. split; [done|]. apply list_elem_of_In, elem_of_seqZ in Hi. lia.
Qed.

Lemma ports_ok_connect port u : mux_ok u → ports_ok u → ports_ok (usb_mux_connect port u).2.
Proof.
  intros O H. unfold usb_mux_connect. destruct (_ || _) eqn:E; [done|]. destruct (find _ _) as [i|]; [|done]. bool_facts.
  pose proof (mo_port _ O) as [Hn Hn']. destruct H as [D F L]. simpl.
  assert (K : ∀ j c, local_port (<[i := c]> (channel u) j) = if decide (j = i) then local_port c else local_port (channel u j)).
  { intros j c. destruct (decide (j = i)) as [->|N]; [by rewrite fn_lookup_insert|by rewrite fn_lookup_insert_ne]. }
  split; cbn [channel next_port x_next_port set_channel x_channel].
  - intros j k N. rewrite !K. specialize (F ltac:(done)).
    destruct (decide (j = i)), (decide (k = i)); simpl; try congruence; [pose proof (F k); lia|pose proof (F j); lia|by apply D].
  - unfold w16, wrap. intros Hw j. rewrite K. specialize (F ltac:(done) j).
    assert (next_port u + 1 < 2 ^ 16) by (destruct (Z.ltb_spec (next_port u + 1) (2 ^ 16)); [done|]; replace (next_port u + 1) with (2 ^ 16) in Hw by lia; done).
    rewrite Z.mod_small by lia. destruct (decide _); simpl; lia.
  - intros j. rewrite K. destruct (decide (j = i)); [done|]. rewrite fn_lookup_insert_ne by done. apply L.
Qed.

(** *** The packet of a channel *)

Definition octets_for (h : Z) (c : mux_channel) (p : list Z) : list Z :=
  if bool_decide (mux_be32 p 0 = Some 6) && bool_decide (mux_be16 p h = Some (local_port c))
     && bool_decide (mux_be16 p (h + 2) = Some (remote_port c))
  then drop (Z.to_nat (h + 20)) p else [].

Lemma frame_spec protocol body u u' : frame protocol body u = Some u' → ∃ rest,
  transmit u' = put32 protocol ++ rest ++ body ∧ 4 + blen rest = header_size u ∧ channel u' = channel u
  ∧ next_port u' = next_port u ∧ header_size u' = header_size u ∧ round_robin u' = round_robin u.
Proof.
  unfold frame. cbv zeta. destruct (_ <? _); [done|]. intros [= <-].
  set (size := put32 (header_size u + blen body)).
  exists (size ++ if header_size u =? 16 then put32 0xfeedface ++ put16 (tx_sequence u) ++ put16 (rx_sequence u) else []).
  split_and!; try done. rewrite blen_app. destruct (header_size_cases u) as [-> | ->]; done.
Qed.

Lemma blen_put32 v : blen (put32 v) = 4.
Proof. done. Qed.

Lemma octets_of_other h c p protocol rest body : p = put32 protocol ++ rest ++ body → uint 32 protocol → protocol ≠ 6 →
  octets_for h c p = [].
Proof.
  intros -> U N. unfold octets_for. rewrite be32_head by done.
  rewrite bool_decide_false by congruence. done.
Qed.

Lemma stream_packet rest c c0 flags l p : p = put32 6 ++ rest ++ stream_header c flags ++ l → chan_ok c →
  octets_for (4 + blen rest) c0 p = (if bool_decide (local_port c = local_port c0) && bool_decide (remote_port c = remote_port c0) then l else [])
  ∧ mux_be32 p (4 + blen rest + 4) = Some (send_next c).
Proof.
  intros Ep Hc. destruct (co_ports _ Hc) as [Pl Pr]. destruct (co_send _ Hc) as [Ps _]. unfold octets_for, stream_header in *.
  assert (B : blen (put32 6 ++ rest) = 4 + blen rest) by (rewrite blen_app; done).
  assert (E0 : mux_be32 p 0 = Some 6).
  { subst p. by apply be32_head. }
  assert (E1 : mux_be16 p (4 + blen rest) = Some (local_port c)).
  { rewrite <- B. subst p. rewrite app_assoc, <- !(app_assoc (put16 _)). by apply be16_at. }
  assert (E2 : mux_be16 p (4 + blen rest + 2) = Some (remote_port c)).
  { assert (B2 : blen (put32 6 ++ rest ++ put16 (local_port c)) = 4 + blen rest + 2) by (rewrite !blen_app; change (blen (put16 _)) with 2; change (blen (put32 6)) with 4; lia).
    rewrite <- B2. subst p. rewrite <- !app_assoc.
    replace (put32 6 ++ rest ++ put16 (local_port c) ++ put16 (remote_port c) ++ _) with
      ((put32 6 ++ rest ++ put16 (local_port c)) ++ put16 (remote_port c) ++ (put32 (send_next c) ++ put32 (receive_next c)
         ++ [80; w8 flags] ++ put16 ((USB_MUX_RX_SIZE - blen (rcv c)) .>> 8) ++ [0; 0; 0; 0] ++ l)) by (by rewrite <- !app_assoc).
    by apply be16_at. }
  assert (E3 : mux_be32 p (4 + blen rest + 4) = Some (send_next c)).
  { assert (B2 : blen (put32 6 ++ rest ++ put16 (local_port c) ++ put16 (remote_port c)) = 4 + blen rest + 4) by (rewrite !blen_app; change (blen (put16 _)) with 2; change (blen (put32 6)) with 4; lia).
    rewrite <- B2. subst p. rewrite <- !app_assoc.
    replace (put32 6 ++ rest ++ put16 (local_port c) ++ put16 (remote_port c) ++ put32 (send_next c) ++ _) with
      ((put32 6 ++ rest ++ put16 (local_port c) ++ put16 (remote_port c)) ++ put32 (send_next c) ++ (put32 (receive_next c)
         ++ [80; w8 flags] ++ put16 ((USB_MUX_RX_SIZE - blen (rcv c)) .>> 8) ++ [0; 0; 0; 0] ++ l)) by (by rewrite <- !app_assoc).
    by apply be32_at. }
  split; [|done]. rewrite E0, E1, E2. rewrite bool_decide_true by done. cbn [andb].
  assert (I : ∀ x y : Z, bool_decide (Some x = Some y) = bool_decide (x = y)).
  { intros x y. apply bool_decide_ext. split; congruence. }
  rewrite !I. destruct (_ && _); [|done]. subst p.
  assert (B4 : blen (put32 6 ++ rest ++ stream_header c flags) = 4 + blen rest + 20)
    by (rewrite !blen_app, stream_header_length; change (blen (put32 6)) with 4; lia).
  rewrite <- B4. unfold blen. rewrite Nat2Z.id.
  change (drop (length (put32 6 ++ rest ++ stream_header c flags)) (put32 6 ++ rest ++ stream_header c flags ++ l) = l).
  rewrite !app_assoc, drop_app_length. done.
Qed.

Lemma sendable_window c u : 0 < sendable c u → (send_next c -w send_acked c) + sendable c u <= peer_window c.
Proof.
  unfold sendable. cbv zeta.
  destruct (Z.ltb_spec (send_next c -w send_acked c) (peer_window c)) as [A|A];
    destruct (Z.ltb_spec (USB_MUX_TX_SIZE - header_size u - 20) (blen (snd c))) as [B|B];
    match goal with |- context [?x <? ?y] => destruct (Z.ltb_spec x y) end; lia.
Qed.

(** [u'] is [u] after a segment of channel [i] with its first [n] queued octets. *)
Record sends (i n : Z) (u u' : usb_mux) : Prop := {
  se_packet : ∃ rest flags, transmit u' = put32 6 ++ rest ++ stream_header (channel u i) flags ++ take (Z.to_nat n) (snd (channel u i))
                            ∧ 4 + blen rest = header_size u;
  se_range : 0 <= n <= blen (snd (channel u i));
  se_others : ∀ j, j ≠ i → channel u' j = channel u j;
  se_ports : local_port (channel u' i) = local_port (channel u i) ∧ remote_port (channel u' i) = remote_port (channel u i);
  se_snd : snd (channel u' i) = drop (Z.to_nat n) (snd (channel u i));
  se_live : live (channel u' i) → live (channel u i);
  se_open : state (channel u i) = USB_MUX_OPEN →
    send_next (channel u' i) = send_next (channel u i) +w n
    ∧ (0 < n → (send_next (channel u i) -w send_acked (channel u i)) + n <= peer_window (channel u i));
  se_next : next_port u' = next_port u; se_header : header_size u' = header_size u }.

Lemma tcp_frame_sends i flags n u u' : 0 <= n → tcp_frame i flags n u = Some u' → ∃ rest,
  transmit u' = put32 6 ++ rest ++ stream_header (channel u i) flags ++ take (Z.to_nat n) (snd (channel u i))
  ∧ 4 + blen rest = header_size u ∧ n <= blen (snd (channel u i)) ∧ next_port u' = next_port u ∧ header_size u' = header_size u
  ∧ round_robin u' = round_robin u
  ∧ channel u' = <[i := k_ack_pending false (k_snd (drop (Z.to_nat n) (snd (channel u i)))
            (k_send_next (send_next (channel u i) +w (n + (if flags .& 2 =? 0 then 0 else 1))) (channel u i)))]> (channel u).
Proof.
  intros Hn. unfold tcp_frame. cbv zeta. destruct (Z.ltb_spec (blen (snd (channel u i))) n); [done|].
  destruct (frame 6 _ u) as [u1|] eqn:E; [|done]. intros [= <-].
  destruct (frame_spec _ _ _ _ E) as (rest & T & R & C & N & Hh & Rr). exists rest.
  split_and!; try done. unfold set_channel. simpl. by rewrite C.
Qed.

Lemma sends_state i n s u u1 : sends i n u u1 → (live (k_state s (channel u1 i)) → live (channel u i)) →
  (state (channel u i) ≠ USB_MUX_OPEN) → sends i n u (set_channel i (k_state s (channel u1 i)) u1).
Proof.
  intros [] L O. split; try done; simpl; rewrite ?fn_lookup_insert; try done.
  intros j N. by rewrite fn_lookup_insert_ne; [apply se_others0|].
Qed.

Lemma serve_channel_sends i u u' : serve_channel i u = Some u' →
  (u' = u ∨ ∃ n, sends i n u u') ∧ round_robin u' = round_robin u.
Proof.
  unfold serve_channel. cbv zeta.
  assert (T : ∀ flags n u1, 0 <= n → tcp_frame i flags n u = Some u1 →
            (state (channel u i) = USB_MUX_OPEN → flags = 16 ∧ n = sendable (channel u i) u) → sends i n u u1 ∧ round_robin u1 = round_robin u
            ∧ state (channel u1 i) = state (channel u i)).
  { intros flags n u1 Hn E O. destruct (tcp_frame_sends _ _ _ _ _ Hn E) as (rest & Tr & R & Ln & N & Hh & Rr & C).
    split; [|split; [done|by rewrite C, fn_lookup_insert]].
    split; try done; rewrite ?C, ?fn_lookup_insert; try done.
    - by exists rest, flags.
    - intros j Nj. by rewrite fn_lookup_insert_ne.
    - intros Ho. destruct (O Ho) as [-> ->]. simpl. rewrite Z.add_0_r. split; [done|]. intros Hp.
      by apply (sendable_window _ u). }
  destruct (state (channel u i)) eqn:S; try (intros [= <-]; split; [by left|done]).
  - destruct (tcp_frame i 2 0 u) as [u1|] eqn:E; [|done]. intros [= <-]. destruct (T 2 0 u1) as (H & R & _); [done..|].
    split; [|done]. right. exists 0. apply sends_state; [done| |congruence]. intros _. unfold live. rewrite S. by left.
  - destruct (_ || _); [|intros [= <-]; split; [by left|done]]. intros E.
    destruct (T 16 (sendable (channel u i) u) u') as (H & R & _); [apply sendable_bounds|done..|].
    split; [|done]. right. by exists (sendable (channel u i) u).
  - destruct (tcp_frame i 4 0 u) as [u1|] eqn:E; [|done]. intros [= <-]. destruct (T 4 0 u1) as (H & R & _); [done..|].
    split; [|done]. right. exists 0. apply sends_state; [done| |congruence]. intros [L|[L|L]]; done.
Qed.

Lemma sends_some i n u u' : sends i n u u' → blen (transmit u') ≠ 0.
Proof.
  intros []. destruct se_packet0 as (rest & flags & -> & _). rewrite blen_app. change (blen (put32 6)) with 4.
  pose proof (blen_nonneg (rest ++ stream_header (channel u i) flags ++ take (Z.to_nat n) (snd (channel u i)))). lia.
Qed.

Lemma serve_from_sends ks : ∀ u u', blen (transmit u) = 0 → serve_from ks u = Some u' → u' = u ∨ ∃ i n, sends i n u u'.
Proof.
  induction ks as [|k ks IH]; intros u u' T E; [injection E as <-; by left|]. cbn [serve_from] in E. cbv zeta in E.
  set (i := (round_robin u + k) mod USB_MUX_CHANNELS) in *.
  destruct (serve_channel i u) as [u1|] eqn:E1; [|done]. cbn [mbind option_bind] in E.
  destruct (serve_channel_sends i u u1 E1) as [[->|(n & S)] _].
  - rewrite T in E. cbn [Z.eqb] in E. by apply IH.
  - rewrite (proj2 (Z.eqb_neq _ _) (sends_some _ _ _ _ S)) in E. injection E as <-. right. exists i, n. by destruct S.
Qed.

(** What an output does: nothing to the channels, or a segment of one of them. *)
Lemma output_sends u p u' : usb_mux_output u = Some (p, u') →
  (channel u' = channel u ∧ next_port u' = next_port u ∧ (blen (transmit u) = 0 → ∀ h c, octets_for h c p = []))
  ∨ blen (transmit u) = 0 ∧ p = transmit u' ∧ ∃ i n, sends i n u u'.
Proof.
  unfold usb_mux_output. destruct (is_stage FAILED u); [intros [= <- <-]; by left|].
  destruct (Z.eqb_spec (blen (transmit u)) 0) as [T|T]; [|intros [= <- <-]; left; by split_and!].
  destruct (fill u) as [u1|] eqn:E; [|done]. intros [= <- <-]. unfold fill in E.
  assert (F : ∀ s protocol body u0 u2, channel u0 = channel u → next_port u0 = next_port u → uint 32 protocol → protocol ≠ 6 →
            x_stage s <$> frame protocol body u0 = Some u2 →
            channel u2 = channel u ∧ next_port u2 = next_port u ∧ (blen (transmit u) = 0 → ∀ h c, octets_for h c (transmit u2) = [])).
  { intros s protocol body u0 u2 C N U P. destruct (frame protocol body u0) as [u3|] eqn:E3; [|done]. intros [= <-].
    destruct (frame_spec _ _ _ _ E3) as (rest & Tr & _ & C3 & N3 & _). split_and!; [simpl; congruence..|].
    intros _ h c. by apply (octets_of_other h c _ protocol rest body). }
  assert (K : u1 = u → channel u1 = channel u ∧ next_port u1 = next_port u
              ∧ (blen (transmit u) = 0 → ∀ h c, octets_for h c (transmit u1) = [])).
  { intros ->. apply blen_zero in T. rewrite T. done. }
  destruct (stage u); try (injection E as <-; left; by apply K).
  - left. by apply F in E.
  - left. by apply F in E.
  - destruct (serve_from_sends _ _ _ T E) as [->|S]; [left; by apply K|by right].
Qed.

(** ** The stream a channel sends *)

(** The calls while channel [k] stays open. *)
Inductive open_run (k : Z) : usb_mux → list mux_event → usb_mux → Prop :=
  | open_nil u : state (channel u k) = USB_MUX_OPEN → open_run k u [] u
  | open_cons o u e u1 es u2 : state (channel u k) = USB_MUX_OPEN → mux_op_ok o → mux_step o u = Some (e, u1) →
      open_run k u1 es u2 → open_run k u (e ++ es) u2.

Definition accepted_by (k : Z) (e : mux_event) : list Z :=
  match e with Accepted ch l => if ch =? k then l else [] | _ => [] end.
Definition sent_for (c : mux_channel) (e : mux_event) : list Z :=
  match e with Packet h p => octets_for h c p | _ => [] end.

(** The packets with octets carry consecutive sequence numbers from [s] on. *)
Fixpoint numbered (c : mux_channel) (s : Z) (es : list mux_event) : Prop :=
  match es with
  | [] => True
  | e :: es =>
    match e with Packet h p => octets_for h c p ≠ [] → mux_be32 p (h + 4) = Some s | _ => True end
    ∧ numbered c (s +w blen (sent_for c e)) es
  end.

Lemma open_not_free c : state c = USB_MUX_OPEN → free_slot c = false.
Proof. intros S. unfold free_slot, is_state. by rewrite S. Qed.

(** One call: what the channel held and took is what left and what it holds. *)
Definition conserved (k : Z) (u : usb_mux) (e : list mux_event) (u1 : usb_mux) : Prop :=
  let c := channel u k in let c1 := channel u1 k in
  local_port c1 = local_port c ∧ remote_port c1 = remote_port c
  ∧ snd c ++ concat (map (accepted_by k) e) = concat (map (sent_for c) e) ++ snd c1
  ∧ send_next c1 = send_next c +w blen (concat (map (sent_for c) e)) ∧ numbered c (send_next c) e.

Lemma conserved_same k u e u1 : uint 32 (send_next (channel u k)) → concat (map (accepted_by k) e) = [] →
  (∀ x, In x e → match x with Packet h p => octets_for h (channel u k) p = [] | _ => True end) →
  local_port (channel u1 k) = local_port (channel u k) → remote_port (channel u1 k) = remote_port (channel u k) →
  snd (channel u1 k) = snd (channel u k) → send_next (channel u1 k) = send_next (channel u k) → conserved k u e u1.
Proof.
  intros U A P L R S N. unfold conserved. cbv zeta. rewrite A, L, R, S, N.
  assert (B : concat (map (sent_for (channel u k)) e) = [] ∧ numbered (channel u k) (send_next (channel u k)) e).
  { clear - P U. induction e as [|x e IH]; [done|]. destruct IH as [I1 I2]; [intros; apply P; by right|].
    pose proof (P x (or_introl eq_refl)) as Px. simpl. rewrite I1.
    assert (E : sent_for (channel u k) x = []) by (by destruct x). rewrite E, app_nil_r. change (blen []) with 0.
    rewrite Z.add_0_r, w32_small by done. split; [done|]. split; [|done]. destruct x; [done|done|]. by rewrite Px. }
  destruct B as [-> B]. change (blen []) with 0. rewrite Z.add_0_r, w32_small, app_nil_r by done. done.
Qed.

Lemma ports_ok_output u p u' : ports_ok u → usb_mux_output u = Some (p, u') → ports_ok u'.
Proof.
  intros H E. destruct (output_sends _ _ _ E) as [(C & N & _)|(_ & _ & i & n & S)].
  - apply (ports_ok_evolve u); [done|by apply all_evolve_same].
  - apply (ports_ok_same u); [done|apply S|]. intros j. destruct (decide (j = i)) as [->|Nj].
    + split; [apply S|apply S].
    + by rewrite (se_others _ _ _ _ S).
Qed.

Definition mux_inv (u : usb_mux) : Prop := mux_ok u ∧ ports_ok u.

Lemma mux_inv_init : mux_inv usb_mux_init.
Proof. split; [apply mux_ok_init|apply ports_ok_init]. Qed.

Lemma mux_step_ok o u : mux_inv u → mux_op_ok o → returns (fun r => mux_inv r.2) (mux_step o u).
Proof.
  intros [M P] O. destruct o as [port|ch data|ch capacity|ch|reason|data| |]; unfold mux_step.
  - apply returns_ret. split; [by apply mux_ok_connect|by apply ports_ok_connect].
  - pose proof (mux_ok_write ch data u M) as M'. destruct (usb_mux_write ch data u) as [n u1] eqn:E. apply returns_ret.
    split; [done|]. unfold usb_mux_write in E. destruct data; [|by injection E as <- <-].
    destruct (_ || _); [by injection E as <- <-|]. destruct (negb _); [by injection E as <- <-|].
    cbv zeta in E. injection E as <- <-. by apply ports_ok_set.
  - pose proof (mux_ok_read ch capacity u M) as M'. destruct (usb_mux_read ch capacity u) as [l u1] eqn:E. apply returns_ret.
    split; [done|]. unfold usb_mux_read in E. destruct capacity; [|by injection E as <- <-].
    destruct (_ <=? ch); [by injection E as <- <-|]. cbv zeta in E. destruct (_ =? 0); [by injection E as <- <-|].
    injection E as <- <-. destruct (is_state _ _); by apply ports_ok_set.
  - apply returns_ret. split; [by apply mux_ok_close|]. simpl. unfold usb_mux_close. destruct (_ <=? ch); [done|].
    cbv zeta. destruct (free_slot _); [done|]. apply ports_ok_set; [done..|]. destruct (usb_mux_ready u); intros [L|[L|L]]; done.
  - apply returns_ret. split; [by apply mux_ok_cancel|]. apply (ports_ok_evolve u); [done|apply all_evolve_cancel].
  - destruct (feed_returns data u M) as (u1 & E & M1). rewrite E. apply returns_ret. split; [done|].
    destruct data as [l|]; [|by injection E as <-]. rewrite feed_is_octets in E by done.
    apply (ports_ok_evolve u); [done|by apply (octets_evolve l)].
  - destruct (output_ok u M) as ([p u1] & E & M1 & _). rewrite E. apply returns_ret. split; [done|].
    by apply (ports_ok_output u p).
  - apply returns_ret. split; [by apply mux_ok_complete|]. apply (ports_ok_evolve u); [done|].
    simpl. unfold usb_mux_output_complete. cbv zeta. destruct (is_stage _ _); by apply all_evolve_same.
Qed.

Lemma set_channel_at i c u k : channel (set_channel i c u) k = if decide (k = i) then c else channel u k.
Proof. simpl. destruct (decide _) as [->|N]; [apply fn_lookup_insert|by apply fn_lookup_insert_ne]. Qed.

Lemma evolves_open c c' : evolves c c' → state c = USB_MUX_OPEN → state c' = USB_MUX_OPEN →
  local_port c' = local_port c ∧ remote_port c' = remote_port c ∧ snd c' = snd c ∧ send_next c' = send_next c.
Proof. intros (L & R & [(_ & S & N)|E]) S1 S2; [done|congruence]. Qed.

Lemma output_conserved k u p u1 : mux_inv u → state (channel u k) = USB_MUX_OPEN → usb_mux_output u = Some (p, u1) →
  conserved k u (if (blen (transmit u) =? 0) && negb (blen p =? 0) then [Packet (header_size u) p] else []) u1.
Proof.
  intros [M P] S E. pose proof (proj1 (co_send _ (mo_channel _ M k))) as U.
  destruct (output_sends _ _ _ E) as [(C & N & O)|(T & -> & i & n & Se)].
  - apply conserved_same; rewrite ?C; try done.
    + by destruct (_ && _).
    + destruct (Z.eqb_spec (blen (transmit u)) 0) as [T|]; [|done]. cbn [andb]. destruct (negb _); [|done].
      intros x [<-|[]]. by apply O.
  - rewrite T. rewrite (proj2 (Z.eqb_neq _ _) (sends_some _ _ _ _ Se)). cbn [Z.eqb negb andb].
    destruct (se_packet _ _ _ _ Se) as (rest & flags & Tr & R).
    destruct (stream_packet rest (channel u i) (channel u k) flags _ _ Tr (mo_channel _ M i)) as [Eo En].
    rewrite R in Eo, En. destruct (decide (i = k)) as [->|N].
    + rewrite !bool_decide_true in Eo by done. cbn [andb] in Eo. destruct (se_open _ _ _ _ Se S) as [Sn _].
      destruct (se_range _ _ _ _ Se). unfold conserved. cbv zeta. simpl map. simpl concat. rewrite !app_nil_r. cbn [sent_for].
      rewrite Eo. split_and!; [apply Se|apply Se| | |].
      * rewrite (se_snd _ _ _ _ Se). by rewrite take_drop.
      * rewrite Sn, blen_take_min by lia. f_equal. lia.
      * cbn [numbered]. split; [done|exact I].
    + rewrite (bool_decide_false (local_port (channel u i) = _)) in Eo.
      2:{ intros Ep. apply (po_distinct _ P k i ltac:(congruence)); [|done]. apply (po_live _ P). by right; right. }
      apply conserved_same; rewrite ?(se_others _ _ _ _ Se k) by congruence; try done. intros x [<-|[]]. exact Eo.
Qed.

Lemma mux_step_conserved o k u e u1 : mux_inv u → state (channel u k) = USB_MUX_OPEN →
  mux_step o u = Some (e, u1) → state (channel u1 k) = USB_MUX_OPEN → conserved k u e u1.
Proof.
  intros [M P] S E S1. pose proof (proj1 (co_send _ (mo_channel _ M k))) as U.
  assert (Q : ∀ e, e = [] → all_evolve u u1 → conserved k u e u1).
  { intros e0 -> [_ V]. destruct (evolves_open _ _ (V k) S S1) as (?&?&?&?). by apply conserved_same. }
  destruct o as [port|ch data|ch capacity|ch|reason|data| |]; unfold mux_step in E.
  - injection E as <- <-. unfold usb_mux_connect in *. destruct (_ || _); [by apply conserved_same|].
    destruct (find _ _) as [i|] eqn:F; [|by apply conserved_same]. simpl in *.
    destruct (decide (k = i)) as [->|N]; [by rewrite fn_lookup_insert in S1|].
    apply conserved_same; simpl; rewrite ?fn_lookup_insert_ne by done; done.
  - unfold usb_mux_write in E. destruct data as [l|].
    2:{ injection E as <- <-. apply conserved_same; try done; [simpl; by destruct (_ =? _)|]. by intros x [<-|[]]. }
    assert (Z0 : ∀ v, v = u → conserved k u [Accepted ch (take (Z.to_nat 0) l)] v).
    { intros v ->. apply conserved_same; try done; [simpl; by destruct (_ =? _)|]. by intros x [<-|[]]. }
    destruct (_ || _); [injection E as <- <-; by apply Z0|]. destruct (negb _); [injection E as <- <-; by apply Z0|].
    cbv zeta in E. set (n := if _ <? _ then _ else _) in E. injection E as <- <-. cbn [from_option].
    unfold conserved. cbv zeta. rewrite set_channel_at. simpl map. simpl concat. rewrite !app_nil_r. cbn [accepted_by app].
    change (blen []) with 0. destruct (decide (k = ch)) as [->|N].
    + rewrite Z.eqb_refl. simpl. rewrite Z.add_0_r, w32_small by done. done.
    + rewrite (proj2 (Z.eqb_neq _ _)) by congruence. rewrite app_nil_r, Z.add_0_r, w32_small by done. done.
  - unfold usb_mux_read in E. assert (Z0 : ∀ l v, v = u → conserved k u [Delivered ch l] v).
    { intros l v ->. apply conserved_same; try done. by intros x [<-|[]]. }
    destruct capacity as [n|]; [|injection E as <- <-; by apply Z0].
    destruct (_ <=? ch); [injection E as <- <-; by apply Z0|]. cbv zeta in E.
    destruct (_ =? 0); [injection E as <- <-; by apply Z0|]. injection E as <- <-.
    apply conserved_same; try done; [by intros x [<-|[]]|..]; rewrite set_channel_at; destruct (decide (k = ch)) as [->|];
      try done; by destruct (is_state _ _).
  - injection E as <- <-. unfold usb_mux_close in *. destruct (_ <=? ch); [by apply conserved_same|]. cbv zeta in *.
    destruct (free_slot _); [by apply conserved_same|]. rewrite set_channel_at in S1.
    destruct (decide (k = ch)) as [->|N]; [simpl in S1; by destruct (usb_mux_ready u)|].
    apply conserved_same; rewrite ?set_channel_at, ?decide_False by done; done.
  - injection E as <- <-. apply Q; [done|]. apply all_evolve_cancel.
  - destruct (usb_mux_feed data u) as [u2|] eqn:F; [|done]. injection E as <- <-. apply Q; [done|].
    destruct data as [l|]; [|injection F as <-; apply all_evolve_refl]. rewrite feed_is_octets in F by done. by apply (octets_evolve l).
  - destruct (usb_mux_output u) as [[p u2]|] eqn:F; [|done]. injection E as <- <-. by apply output_conserved.
  - injection E as <- <-. apply Q; [done|]. unfold usb_mux_output_complete. cbv zeta. destruct (is_stage _ _); by apply all_evolve_same.
Qed.

Lemma mux_run_ok ops : Forall mux_op_ok ops → ∀ u, mux_inv u → ∃ es u', mux_run ops u = Some (es, u') ∧ mux_inv u'.
Proof.
  induction 1 as [|o ops Ho H IH]; intros u I; [by exists [], u|].
  destruct (mux_step_ok o u I Ho) as ([e u1] & E & I1). destruct (IH u1 I1) as (es & u2 & E2 & I2).
  exists (e ++ es), u2. cbn [mux_run]. rewrite E. cbn [mbind option_bind]. by rewrite E2.
Qed.

(** C26: the usbmux peer returns from every sequence of client calls and of octets from the
    guest, whatever they are, without leaving its buffers or looping; its buffers, counters
    and windows stay in their ranges, and no two channels share a local port. *)
Theorem usb_mux_safe (ops : list mux_op) : Forall mux_op_ok ops →
  ∃ es u, mux_run ops usb_mux_init = Some (es, u) ∧ mux_ok u ∧ ports_ok u.
Proof.
  intros H. destruct (mux_run_ok ops H usb_mux_init mux_inv_init) as (es & u & E & M & P). by exists es, u.
Qed.

Lemma numbered_app c e es : ∀ s, numbered c s e → numbered c (s +w blen (concat (map (sent_for c) e))) es →
  uint 32 s → numbered c s (e ++ es).
Proof.
  induction e as [|x e IH]; intros s H1 H2 U; simpl in *.
  - change (blen []) with 0 in H2. by rewrite Z.add_0_r, w32_small in H2 by done.
  - destruct H1 as [Hx H1]. split; [done|]. apply IH; [done| |apply uint_w32].
    rewrite blen_app in H2. unfold w32 in *. by rewrite wrap_add_l, <- Z.add_assoc.
Qed.

Lemma sent_ports c c' : local_port c' = local_port c → remote_port c' = remote_port c → sent_for c' = sent_for c.
Proof. intros L R. unfold sent_for, octets_for. by rewrite L, R. Qed.
Lemma numbered_ports c c' es : local_port c' = local_port c → remote_port c' = remote_port c →
  ∀ s, numbered c' s es → numbered c s es.
Proof.
  intros L R. induction es as [|e es IH]; intros s; [done|]. simpl. rewrite (sent_ports c c' L R). intros [H1 H2].
  split; [|by apply IH]. destruct e; try done. unfold octets_for in *. by rewrite L, R in H1.
Qed.

(** C27: while a channel is open, whatever calls are made and whatever the guest sends, the
    octets its packets carry are, in order, the octets the client wrote, those still queued
    apart, and each packet names the position of its first octet in that stream. *)
Theorem mux_sends_stream (k : Z) (u : usb_mux) (es : list mux_event) (u' : usb_mux) :
  mux_ok u → ports_ok u → open_run k u es u' →
  let c := channel u k in
  snd c ++ concat (map (accepted_by k) es) = concat (map (sent_for c) es) ++ snd (channel u' k)
  ∧ numbered c (send_next c) es ∧ send_next (channel u' k) = send_next c +w blen (concat (map (sent_for c) es)).
Proof.
  intros M P R. revert M P. induction R as [u S|o u e u1 es u2 S O E R IH]; intros M P.
  - simpl. rewrite app_nil_r. change (blen []) with 0. rewrite Z.add_0_r, w32_small by apply (co_send _ (mo_channel _ M k)). done.
  - destruct (mux_step_ok o u (conj M P) O) as (r & Er & M1 & P1). rewrite E in Er. injection Er as <-. simpl in M1, P1.
    assert (S1 : state (channel u1 k) = USB_MUX_OPEN) by (by inversion R).
    destruct (mux_step_conserved o k u e u1 (conj M P) S E S1) as (L & Rp & C1 & N1 & O1).
    destruct (IH M1 P1) as (C2 & O2 & N2). cbv zeta in *. rewrite (sent_ports _ _ L Rp) in *.
    rewrite !map_app, !concat_app, blen_app. split_and!.
    + by rewrite app_assoc, C1, <- app_assoc, C2, app_assoc.
    + apply numbered_app; [done| |apply (co_send _ (mo_channel _ M k))]. rewrite <- N1. by apply (numbered_ports _ _ _ L Rp).
    + rewrite N2, N1. unfold w32. by rewrite wrap_add_l, <- Z.add_assoc.
Qed.

(** ** The stream a channel receives *)

(** A segment of the guest's stream [X]: [g_len] octets from offset [g_off]; [g_link] is
    what a long first header holds beside protocol and length. *)
Record segment := MkSegment { g_off : Z; g_len : Z; g_ack : Z; g_window : Z; g_push : bool; g_link : list Z }.

Definition slice (X : list Z) (off len : Z) : list Z := take (Z.to_nat len) (drop (Z.to_nat off) X).

(** The wire format, octet 0 of [X] having sequence number [isn]. *)
Definition segment_body (c : mux_channel) (isn : Z) (X : list Z) (s : segment) : list Z :=
  put16 (remote_port c) ++ put16 (local_port c) ++ put32 (isn +w g_off s) ++ put32 (g_ack s)
  ++ [80; if g_push s then 24 else 16] ++ put16 (g_window s) ++ [0; 0; 0; 0] ++ slice X (g_off s) (g_len s).
Definition segment_packet (h : Z) (c : mux_channel) (isn : Z) (X : list Z) (s : segment) : list Z :=
  put32 6 ++ put32 (h + 20 + g_len s) ++ (if h =? 16 then g_link s else []) ++ segment_body c isn X s.

Record segment_ok (X : list Z) (sn acked : Z) (s : segment) : Prop := {
  so_range : 0 <= g_off s ∧ 0 <= g_len s <= 65500 ∧ g_off s + g_len s <= blen X;
  so_ack : uint 32 (g_ack s) ∧ (g_ack s -w acked) <= (sn -w acked);
  so_window : uint 16 (g_window s); so_link : blen (g_link s) = 8 }.

(** Segments that take a receiver from the first [n] octets of [X] to the first [n']: each
    carries the next octets, as far as there is [room], or repeats old ones. *)
Inductive arrives (X : list Z) (sn : Z) : Z → Z → Z → list segment → Z → Prop :=
  | arrives_nil n room acked : arrives X sn n room acked [] n
  | arrives_next s n room acked segs n' : segment_ok X sn acked s → g_off s = n → g_len s <= room →
      arrives X sn (n + g_len s) (room - g_len s) (g_ack s) segs n' → arrives X sn n room acked (s :: segs) n'
  | arrives_again s n room acked segs n' : segment_ok X sn acked s → g_off s < n → g_off s + g_len s <= n →
      n - g_off s <= USB_MUX_RX_SIZE → arrives X sn n room (g_ack s) segs n' → arrives X sn n room acked (s :: segs) n'.

Lemma slice_length X off len : 0 <= off → 0 <= len → off + len <= blen X → blen (slice X off len) = len.
Proof. unfold slice, blen. rewrite length_take, length_drop. lia. Qed.
Lemma slice_join X off a b : 0 <= off → 0 <= a → 0 <= b → slice X off a ++ slice X (off + a) b = slice X off (a + b).
Proof.
  intros. unfold slice. rewrite <- (take_drop (Z.to_nat a) (take (Z.to_nat (a + b)) _)), take_take, Nat.min_l by lia.
  f_equal. rewrite skipn_firstn_comm, drop_drop. f_equal; [lia|]. f_equal. lia.
Qed.

(** The fields of a segment. *)
Lemma segment_fields c isn X s : chan_ok c → uint 32 (g_ack s) → uint 16 (g_window s) →
  let q := segment_body c isn X s in
  mux_be16 q 0 = Some (remote_port c) ∧ mux_be16 q 2 = Some (local_port c) ∧ mux_be32 q 4 = Some (isn +w g_off s)
  ∧ mux_be32 q 8 = Some (g_ack s) ∧ get8 q 12 = Some 80 ∧ get8 q 13 = Some (if g_push s then 24 else 16)
  ∧ mux_be16 q 14 = Some (g_window s) ∧ drop 20 q = slice X (g_off s) (g_len s).
Proof.
  intros Hc Ha Hw q. destruct (co_ports _ Hc) as [Pl Pr]. unfold q, segment_body. clear q. split_and!.
  - by apply (be16_at []).
  - by apply (be16_at (put16 (remote_port c))).
  - apply (be32_at (put16 (remote_port c) ++ put16 (local_port c))); [done|apply uint_w32].
  - by apply (be32_at (put16 (remote_port c) ++ put16 (local_port c) ++ put32 (isn +w g_off s))).
  - done.
  - by destruct (g_push s).
  - by apply (be16_at (put16 (remote_port c) ++ put16 (local_port c) ++ put32 (isn +w g_off s) ++ put32 (g_ack s)
      ++ [80; if g_push s then 24 else 16])).
  - done.
Qed.

(** What a good segment does to its channel. *)
Definition take_segment (X : list Z) (n : Z) (s : segment) (c : mux_channel) : mux_channel :=
  let c := k_peer_window (Z.shiftl (g_window s) 8) (k_send_acked (g_ack s) c) in
  if g_off s =? n then
    if g_len s =? 0 then c
    else k_ack_pending true (k_receive_next (receive_next c +w g_len s) (k_rcv (rcv c ++ slice X (g_off s) (g_len s)) c))
  else k_ack_pending true c.

Definition acceptable (X : list Z) (n : Z) (s : segment) (c : mux_channel) : Prop :=
  g_off s = n ∧ g_len s <= USB_MUX_RX_SIZE - blen (rcv c)
  ∨ g_off s < n ∧ g_off s + g_len s <= n ∧ n - g_off s <= USB_MUX_RX_SIZE.

Lemma w32_sub a n m : w32 (w32 (a + n) - w32 (a + m)) = w32 (n - m).
Proof. unfold w32, wrap. rewrite <- Zminus_mod. f_equal. lia. Qed.

Lemma channel_input_segment X isn n s c : chan_ok c → state c = USB_MUX_OPEN → receive_next c = isn +w n →
  segment_ok X (send_next c) (send_acked c) s → acceptable X n s c →
  channel_input (segment_body c isn X s) c = Some (take_segment X n s c).
Proof.
  intros Hc So Hn [[R1 [R2 R3]] [A1 A2] W L] Acc.
  destruct (segment_fields c isn X s Hc A1 W) as (_ & _ & E4 & E8 & _ & E13 & E14 & Ed).
  unfold channel_input. rewrite E4, E8, E13, E14. cbn [mbind option_bind]. cbv zeta.
  assert (F : negb ((if g_push s then 24 else 16) .& 4 =? 0) = false) by (by destruct (g_push s)). rewrite F.
  unfold is_state. rewrite So. rewrite bool_decide_false, bool_decide_true by done. cbn [negb orb].
  assert (G : negb ((if g_push s then 24 else 16) =? 16) && negb ((if g_push s then 24 else 16) =? 24) = false) by (by destruct (g_push s)).
  rewrite G, (proj2 (Z.ltb_ge _ _)) by done. rewrite Ed, slice_length by lia.
  unfold take_segment. cbv zeta.
  change (receive_next (k_peer_window _ (k_send_acked _ c))) with (receive_next c). change (rcv (k_peer_window _ (k_send_acked _ c))) with (rcv c).
  rewrite Hn. unfold acceptable in Acc. destruct (Z.eqb_spec (g_off s) n) as [Eq|N].
  - rewrite Eq, Z.eqb_refl. cbn [negb]. rewrite (proj2 (Z.ltb_ge _ _)) by lia. by destruct (g_len s =? 0).
  - destruct Acc as [[? _]|(B1 & B2 & B3)]; [done|].
    assert (Bh : (isn +w n) -w (isn +w g_off s) = n - g_off s)
      by (rewrite w32_sub; apply w32_small; unfold uint, USB_MUX_RX_SIZE in *; lia).
    rewrite (proj2 (Z.eqb_neq (isn +w g_off s) _)).
    + cbn [negb]. rewrite Bh, !(proj2 (Z.leb_le _ _)) by lia. done.
    + intros E. rewrite E, Z.sub_diag in Bh. change (w32 0) with 0 in Bh. lia.
Qed.

Lemma find_unique (P : Z → bool) k l : In k l → P k = true → (∀ j, P j = true → j = k) → find P l = Some k.
Proof.
  intros Hk Pk U. induction l as [|x l IH]; [done|]. simpl. destruct (P x) eqn:E; [by rewrite (U x E)|].
  destruct Hk as [->|Hk]; [congruence|by apply IH].
Qed.

Lemma find_channel k u : ports_ok u → 0 <= k < USB_MUX_CHANNELS → live (channel u k) →
  find (for_channel u (local_port (channel u k)) (remote_port (channel u k))) indices = Some k.
Proof.
  intros P Hk L. apply find_unique.
  - apply list_elem_of_In, elem_of_seqZ. lia.
  - unfold for_channel. by rewrite !Z.eqb_refl.
  - intros j E. apply andb_true_iff in E as [E _]. apply Z.eqb_eq in E. destruct (decide (j = k)) as [|N]; [done|].
    exfalso. apply (po_distinct _ P k j); [congruence|by apply (po_live _ P)|done].
Qed.

(** A whole packet, octet by octet. *)
Lemma packet_octets p u : mux_ok u → receive u = [] → stage u ≠ FAILED → mux_be32 p 4 = Some (blen p) →
  header_size u <= blen p <= USB_MUX_RX_SIZE → 8 < blen p →
  feed_octets p u = u' ← input_frame p (grown p u); Some (x_receive [] u').
Proof.
  intros M R S E Hp H8. rewrite <- (take_drop 8 p) at 1. set (a := take 8 p). set (b := drop 8 p).
  assert (La : blen a = 8) by (unfold a, blen in *; rewrite length_take; lia).
  assert (Lb : blen b = blen p - 8) by (unfold b, blen in *; rewrite length_drop; lia).
  assert (Ep : p = a ++ b) by (unfold a, b; by rewrite take_drop).
  assert (M8 : missing u = 8) by (unfold missing; by rewrite R). rewrite feed_octets_app, octets_full by (done || lia).
  assert (Ea : mux_be32 a 4 = Some (blen p)) by (rewrite <- E, Ep; symmetry; apply be32_prefix; lia).
  assert (Sa : settle (grown a u) = Some (grown a u)).
  { unfold settle, grown. cbn [receive x_receive]. rewrite R, app_nil_l, Ea. cbn [mbind option_bind].
    change (header_size (x_receive a u)) with (header_size u). rewrite !(proj2 (Z.ltb_ge _ _)) by lia. cbn [orb].
    by rewrite La, (proj2 (Z.eqb_neq _ _)) by lia. }
  rewrite Sa. cbn [mbind option_bind].
  destruct (settle_ok a u M ltac:(lia)) as (u1 & E1 & M1). rewrite Sa in E1. injection E1 as <-.
  assert (Mb : missing (grown a u) = blen b).
  { unfold missing, grown. cbn [receive x_receive]. rewrite R, app_nil_l, La, Ea. change (8 <? 8) with false. cbn [from_option id]. lia. }
  rewrite octets_full by done. rewrite grown_grown, <- Ep. unfold settle, grown. cbn [receive x_receive]. rewrite R, app_nil_l, E.
  cbn [mbind option_bind]. change (header_size (x_receive p u)) with (header_size u).
  rewrite !(proj2 (Z.ltb_ge _ _)) by lia. cbn [orb]. by rewrite Z.eqb_refl.
Qed.

Lemma blen_segment_body c isn X s : 0 <= g_off s → 0 <= g_len s → g_off s + g_len s <= blen X →
  blen (segment_body c isn X s) = 20 + g_len s.
Proof.
  intros H1 H2 H3. pose proof (slice_length X (g_off s) (g_len s) H1 H2 H3) as L. unfold segment_body, blen in *.
  rewrite !length_app. change (length (put16 _)) with 2%nat. cbn [length put32 put16 app]. lia.
Qed.

Lemma segment_packet_shape h c isn X s : h = 16 ∨ h = 8 → 0 <= g_off s → 0 <= g_len s → g_off s + g_len s <= blen X →
  blen (g_link s) = 8 → let p := segment_packet h c isn X s in
  blen p = h + 20 + g_len s ∧ (uint 32 (blen p) → mux_be32 p 4 = Some (blen p)) ∧ drop (Z.to_nat h) p = segment_body c isn X s.
Proof.
  intros Hh H1 H2 H3 Hl p.
  assert (Lp : blen p = h + 20 + g_len s).
  { unfold p, segment_packet. rewrite !blen_app, blen_segment_body by done. change (blen (put32 _)) with 4.
    destruct Hh as [-> | ->]; cbn [Z.eqb Pos.eqb]; [lia|change (blen []) with 0; lia]. }
  split; [done|]. split.
  - intros U. rewrite Lp in *. by apply (be32_at (put32 6)).
  - unfold p, segment_packet. set (L := put32 (h + 20 + g_len s)).
    assert (Lh : Z.to_nat h = length (put32 6 ++ L ++ (if h =? 16 then g_link s else []))).
    { rewrite !length_app. change (length (put32 6)) with 4%nat. change (length L) with 4%nat. unfold blen in Hl.
      destruct Hh as [-> | ->]; cbn [Z.eqb Pos.eqb]; [lia|done]. }
    rewrite Lh, !app_assoc. apply drop_app_length.
Qed.

Lemma segment_arrives k X isn n s u : mux_inv u → stage u = ACTIVE → receive u = [] → 0 <= k < USB_MUX_CHANNELS →
  state (channel u k) = USB_MUX_OPEN → receive_next (channel u k) = isn +w n →
  segment_ok X (send_next (channel u k)) (send_acked (channel u k)) s → acceptable X n s (channel u k) →
  ∃ u', feed_octets (segment_packet (header_size u) (channel u k) isn X s) u = Some u' ∧ mux_inv u' ∧ stage u' = ACTIVE
    ∧ receive u' = [] ∧ header_size u' = header_size u ∧ channel u' = <[k := take_segment X n s (channel u k)]> (channel u).
Proof.
  intros [M P] Sa R Hk So Hn Hs Acc. set (c := channel u k) in *. pose proof (mo_channel _ M k) as Hc. fold c in Hc.
  destruct Hs as [(R1 & R2 & R3) A W L] eqn:Es. clear Es.
  destruct (segment_packet_shape (header_size u) c isn X s (header_size_cases u)) as (Lp & E4 & Ed); [done|lia|done..|].
  set (p := segment_packet _ c isn X s) in *.
  assert (Hp : header_size u <= blen p <= USB_MUX_RX_SIZE)
    by (destruct (header_size_cases u) as [E|E]; rewrite E in *; unfold USB_MUX_RX_SIZE; lia).
  assert (Up : uint 32 (blen p)) by (unfold uint, USB_MUX_RX_SIZE in *; pose proof (blen_nonneg p); lia).
  assert (E : ∃ r, input_frame p (grown p u) = Some (set_channel k (take_segment X n s c) (x_rx_sequence r (grown p u)))).
  { assert (E0 : mux_be32 p 0 = Some 6) by (by apply be32_head). unfold input_frame. cbv zeta. rewrite E0. cbn [mbind option_bind].
    change (header_size (grown p u)) with (header_size u). rewrite (proj2 (Z.ltb_ge _ _)), Ed by lia.
    destruct (segment_fields c isn X s Hc (proj1 A) W) as (F0 & F2 & _ & _ & F12 & _).
    assert (St : ∀ v, channel v = channel u → next_port v = next_port u → stream_input 6 (segment_body c isn X s) v
              = Some (set_channel k (take_segment X n s c) v)).
    { intros v Cv Nv. unfold stream_input. change (6 =? 1) with false. change (negb (6 =? 6)) with false. cbn [orb].
      rewrite blen_segment_body, (proj2 (Z.ltb_ge _ 20)), F12 by lia. cbn [mbind option_bind]. change (negb (80 .>> 4 =? 5)) with false.
      cbv iota. rewrite F0, F2. cbn [mbind option_bind].
      assert (Pv : ports_ok v) by (apply (ports_ok_evolve u); [done|]; by apply all_evolve_same).
      pose proof (find_channel k v Pv Hk) as Fi. rewrite Cv in Fi. fold c in Fi. rewrite Fi by (by right; right). rewrite Cv. fold c.
      assert (Rf : refuses c = false) by (unfold refuses, is_state; by rewrite So). rewrite Rf.
      rewrite (channel_input_segment X isn n s c Hc So Hn) by (done || by split). done. }
    destruct (header_size u =? 16) eqn:E16.
    - apply Z.eqb_eq in E16. destruct (returns_be16 p 14) as (r & Er & _); [lia..|]. rewrite Er. cbn [mbind option_bind].
      exists (w16 r). change (stage (x_rx_sequence (w16 r) (grown p u))) with (stage u). rewrite Sa. by rewrite St.
    - exists (rx_sequence u). cbn [mbind option_bind]. change (stage (grown p u)) with (stage u). rewrite Sa, St; by destruct u. }
  destruct E as [r E]. assert (Nf : stage u ≠ FAILED) by congruence.
  pose proof (packet_octets p u M R Nf (E4 Up) Hp ltac:(destruct (header_size_cases u); lia)) as F. rewrite E in F. cbn [mbind option_bind] in F.
  eexists. split; [exact F|]. destruct (proj2 (feed_loop_octets _ p u M (le_n _))) as (u1 & F1 & M1). rewrite F in F1. injection F1 as <-.
  split_and!; try done. split; [done|]. by apply (ports_ok_evolve u), (octets_evolve p).
Qed.

Fixpoint feed_chunks (chunks : list (list Z)) (u : usb_mux) : option usb_mux :=
  match chunks with
  | [] => Some u
  | l :: chunks => u ← usb_mux_feed (Some l) u; feed_chunks chunks u
  end.

Lemma chunks_octets chunks : ∀ u, mux_ok u → feed_chunks chunks u = feed_octets (concat chunks) u.
Proof.
  induction chunks as [|l chunks IH]; intros u M; [done|]. cbn [feed_chunks concat].
  rewrite feed_octets_app, feed_is_octets by done. destruct (proj2 (feed_loop_octets _ l u M (le_n _))) as (u1 & -> & M1). by apply IH.
Qed.

(** What the guest's stream has added to a channel. *)
Record received (X : list Z) (isn n n' : Z) (c c' : mux_channel) : Prop := {
  rd_state : state c' = USB_MUX_OPEN; rd_rcv : rcv c' = rcv c ++ slice X n (n' - n); rd_next : receive_next c' = isn +w n';
  rd_snd : snd c' = snd c ∧ send_next c' = send_next c;
  rd_ports : local_port c' = local_port c ∧ remote_port c' = remote_port c; rd_order : 0 <= n <= n' }.

Lemma take_segment_received X isn sn a n s c : state c = USB_MUX_OPEN → receive_next c = isn +w n → 0 <= n →
  segment_ok X sn a s → received X isn n (if g_off s =? n then n + g_len s else n) c (take_segment X n s c)
  ∧ send_acked (take_segment X n s c) = g_ack s.
Proof.
  intros So Hn H0 [(R1 & R2 & R3) _ _ _]. unfold take_segment. cbv zeta.
  assert (N : slice X n (n - n) = []) by (unfold slice; by rewrite Z.sub_diag).
  destruct (Z.eqb_spec (g_off s) n) as [E|E].
  - assert (A : n + g_len s - n = g_len s) by lia. destruct (Z.eqb_spec (g_len s) 0) as [Z0|Z0].
    + split; [|done]. split; try done; simpl; rewrite ?Z0, ?Z.add_0_r, ?N, ?app_nil_r; (done || lia).
    + split; [|done]. split; try done; simpl; rewrite ?A, ?E, ?Hn; [done| |lia]. unfold w32. by rewrite wrap_add_l, <- Z.add_assoc.
  - split; [|done]. split; try done; simpl. by rewrite N, app_nil_r.
Qed.

Lemma received_trans X isn n1 n2 n3 c1 c2 c3 : received X isn n1 n2 c1 c2 → received X isn n2 n3 c2 c3 → received X isn n1 n3 c1 c3.
Proof.
  intros [A1 A2 A3 [A4 A5] [A6 A7] A8] [B1 B2 B3 [B4 B5] [B6 B7] B8]. split; try done; try (split; congruence); [|lia].
  rewrite B2, A2, <- app_assoc. f_equal. replace (n3 - n1) with ((n2 - n1) + (n3 - n2)) by lia. rewrite <- slice_join by lia.
  do 2 f_equal. lia.
Qed.

Lemma arrives_octets X isn k sn n room acked segs n' : arrives X sn n room acked segs n' → ∀ u, mux_inv u → stage u = ACTIVE →
  receive u = [] → 0 <= k < USB_MUX_CHANNELS → 0 <= n → state (channel u k) = USB_MUX_OPEN → receive_next (channel u k) = isn +w n →
  send_next (channel u k) = sn → send_acked (channel u k) = acked → room = USB_MUX_RX_SIZE - blen (rcv (channel u k)) →
  ∃ u', feed_octets (concat (map (segment_packet (header_size u) (channel u k) isn X) segs)) u = Some u' ∧ mux_inv u'
    ∧ stage u' = ACTIVE ∧ receive u' = [] ∧ received X isn n n' (channel u k) (channel u' k) ∧ ∀ j, j ≠ k → channel u' j = channel u j.
Proof.
  assert (Pk : ∀ h c c' s, local_port c' = local_port c → remote_port c' = remote_port c → segment_packet h c' isn X s = segment_packet h c isn X s)
    by (intros h c c' s L R; unfold segment_packet, segment_body; by rewrite L, R).
  induction 1 as [n room acked|s n room acked segs n' Hs Ho Hl _ IH|s n room acked segs n' Hs Ho He Hw _ IH];
    intros u I Sa R Hk H0 So Hn Hsn Ha Hr.
  { exists u. split; [done|]. split_and!; try done. split; try done. unfold slice. by rewrite Z.sub_diag, app_nil_r. }
  - rewrite <- Hsn, <- Ha in Hs. destruct (segment_arrives k X isn n s u I Sa R Hk So Hn Hs) as (u1 & E1 & I1 & S1 & R1 & H1 & C1).
    { left. lia. }
    destruct (take_segment_received X isn _ _ n s _ So Hn H0 Hs) as [Rc Ak]. rewrite (proj2 (Z.eqb_eq _ _) Ho) in Rc.
    assert (C1k : channel u1 k = take_segment X n s (channel u k)) by (by rewrite C1, fn_lookup_insert). rewrite <- C1k in Rc, Ak.
    destruct (so_range _ _ _ _ Hs) as (Q1 & Q2 & Q3). pose proof (blen_nonneg X).
    destruct (IH u1 I1 S1 R1 Hk) as (u2 & E2 & I2 & S2 & R2 & Rc2 & J2); try apply Rc; try done; [lia|destruct Rc; destruct rd_snd0; congruence| |].
    { rewrite (rd_rcv _ _ _ _ _ _ Rc), blen_app, slice_length by lia. lia. }
    exists u2. cbn [map concat]. rewrite feed_octets_app, E1. cbn [mbind option_bind].
    rewrite H1, (map_ext _ _ (fun s => Pk _ _ _ s (proj1 (rd_ports _ _ _ _ _ _ Rc)) (proj2 (rd_ports _ _ _ _ _ _ Rc)))) in E2.
    split; [exact E2|]. split_and!; try done; [by apply (received_trans _ _ _ _ _ _ _ _ Rc)|].
    intros j Nj. rewrite (J2 j Nj), C1. by apply fn_lookup_insert_ne.
  - rewrite <- Hsn, <- Ha in Hs. destruct (segment_arrives k X isn n s u I Sa R Hk So Hn Hs) as (u1 & E1 & I1 & S1 & R1 & H1 & C1).
    { right. lia. }
    destruct (take_segment_received X isn _ _ n s _ So Hn H0 Hs) as [Rc Ak]. rewrite (proj2 (Z.eqb_neq (g_off s) n)) in Rc by lia.
    assert (C1k : channel u1 k = take_segment X n s (channel u k)) by (by rewrite C1, fn_lookup_insert). rewrite <- C1k in Rc, Ak.
    destruct (IH u1 I1 S1 R1 Hk) as (u2 & E2 & I2 & S2 & R2 & Rc2 & J2); try apply Rc; try done; [destruct Rc; destruct rd_snd0; congruence| |].
    { rewrite (rd_rcv _ _ _ _ _ _ Rc). unfold slice. by rewrite Z.sub_diag, app_nil_r. }
    exists u2. cbn [map concat]. rewrite feed_octets_app, E1. cbn [mbind option_bind].
    rewrite H1, (map_ext _ _ (fun s => Pk _ _ _ s (proj1 (rd_ports _ _ _ _ _ _ Rc)) (proj2 (rd_ports _ _ _ _ _ _ Rc)))) in E2.
    split; [exact E2|]. split_and!; try done; [by apply (received_trans _ _ _ _ _ _ _ _ Rc)|].
    intros j Nj. rewrite (J2 j Nj), C1. by apply fn_lookup_insert_ne.
Qed.

(** C28: while a channel is open, the octets of the guest's stream reach its buffer in order,
    once each, whatever segments it is cut into, however often old ones are repeated and
    however the octets of the packets are split between the calls; the other channels and
    what this one sends are not touched, and the link stays up. *)
Theorem mux_receives_stream (k : Z) (u : usb_mux) (X : list Z) (isn n n' : Z) (segs : list segment) (chunks : list (list Z)) :
  mux_ok u → ports_ok u → stage u = ACTIVE → receive u = [] → 0 <= k < USB_MUX_CHANNELS → 0 <= n →
  let c := channel u k in
  state c = USB_MUX_OPEN → receive_next c = isn +w n →
  arrives X (send_next c) n (USB_MUX_RX_SIZE - blen (rcv c)) (send_acked c) segs n' →
  concat chunks = concat (map (segment_packet (header_size u) c isn X) segs) → ∃ u',
  feed_chunks chunks u = Some u' ∧ stage u' = ACTIVE ∧ received X isn n n' c (channel u' k)
  ∧ ∀ j, j ≠ k → channel u' j = channel u j.
Proof.
  intros M P Sa R Hk H0 c So Hn A E. rewrite chunks_octets, E by done.
  destruct (arrives_octets X isn k _ _ _ _ _ _ A u (conj M P) Sa R Hk H0 So Hn) as (u' & Eu & _ & S' & _ & Rc & J); [done..|].
  by exists u'.
Qed.

(** *** An example: version exchange, a connection, and data both ways *)

Definition demo_setup : list mux_op :=
  [Output; Complete; Feed (Some (put32 0 ++ put32 20 ++ put32 1 ++ put32 0 ++ put32 0)); Connect 62078; Output; Complete;
   Feed (Some (put32 6 ++ put32 28 ++ put16 62078 ++ put16 1 ++ put32 1000 ++ put32 1 ++ [80; 18] ++ put16 256 ++ [0; 0; 0; 0]))].
Definition demo_open : usb_mux := match mux_run demo_setup usb_mux_init with Some (_, u) => u | None => usb_mux_init end.

Lemma demo_open_ok : mux_inv demo_open.
Proof.
  destruct (mux_run_ok demo_setup) with (u := usb_mux_init) as (es & u & E & I); [|apply mux_inv_init|].
  - unfold demo_setup. repeat apply Forall_cons_2; try apply Forall_nil_2; try exact I; by split.
  - unfold demo_open. by rewrite E.
Qed.

Lemma usb_mux_safe_witness : Forall mux_op_ok demo_setup ∧ ∃ es u, mux_run demo_setup usb_mux_init = Some (es, u) ∧ mux_ok u ∧ ports_ok u.
Proof.
  assert (H : Forall mux_op_ok demo_setup) by (repeat apply Forall_cons_2; try apply Forall_nil_2; try exact I; by split).
  split; [exact H|]. exact (usb_mux_safe demo_setup H).
Defined.

Lemma mux_sends_stream_witness : ∃ es u',
  open_run 0 demo_open es u' ∧ concat (map (sent_for (channel demo_open 0)) es) = [1; 2; 3; 4] ∧ snd (channel u' 0) = [5; 6]
  ∧ send_next (channel u' 0) = 5.
Proof.
  assert (R : ∃ es u', open_run 0 demo_open es u' ∧ concat (map (accepted_by 0) es) = [1; 2; 3; 4; 5; 6]
              ∧ concat (map (sent_for (channel demo_open 0)) es) = [1; 2; 3; 4]).
  { eexists _, _. split.
    - eapply (open_cons 0 (Write 0 (Some [1; 2; 3; 4]))); [reflexivity|exact I|vm_compute; reflexivity|].
      eapply (open_cons 0 Output); [reflexivity|exact I|vm_compute; reflexivity|].
      eapply (open_cons 0 Complete); [reflexivity|exact I|vm_compute; reflexivity|].
      eapply (open_cons 0 (Write 0 (Some [5; 6]))); [reflexivity|exact I|vm_compute; reflexivity|].
      apply open_nil. reflexivity.
    - split; vm_compute; reflexivity. }
  destruct R as (es & u' & R & A & B). exists es, u'. split; [exact R|]. split; [exact B|].
  destruct (mux_sends_stream 0 demo_open es u' (proj1 demo_open_ok) (proj2 demo_open_ok) R) as (C & _ & N). cbv zeta in *.
  rewrite A, B in C. rewrite B in N. split; [change (snd (channel demo_open 0)) with (@nil Z) in C; cbn [app] in C; congruence|rewrite N; vm_compute; reflexivity].
Defined.

Definition demo_segments : list segment :=
  let link := replicate 8 0 in
  [MkSegment 0 3 1 256 false link; MkSegment 0 3 1 256 true link; MkSegment 3 2 1 256 true link].

Lemma mux_receives_stream_witness : ∃ u',
  let octets := concat (map (segment_packet 8 (channel demo_open 0) 1001 [10; 20; 30; 40; 50]) demo_segments) in
  feed_chunks [take 5 octets; take 40 (drop 5 octets); drop 45 octets] demo_open = Some u'
  ∧ rcv (channel u' 0) = [10; 20; 30; 40; 50].
Proof.
  assert (A : arrives [10; 20; 30; 40; 50] (send_next (channel demo_open 0)) 0 (USB_MUX_RX_SIZE - blen (rcv (channel demo_open 0)))
                (send_acked (channel demo_open 0)) demo_segments 5).
  { assert (O : ∀ off len push, 0 <= off → 0 <= len → off + len <= 5 →
              segment_ok [10; 20; 30; 40; 50] 1 1 (MkSegment off len 1 256 push (replicate 8 0))).
    { intros off len push H1 H2 H3. split; simpl; [unfold blen; simpl; lia|split; [by split|done]|by split|done]. }
    change (send_next (channel demo_open 0)) with 1. change (send_acked (channel demo_open 0)) with 1.
    change (USB_MUX_RX_SIZE - blen (rcv (channel demo_open 0))) with 65536. unfold demo_segments. cbv zeta.
    apply arrives_next; [apply O; lia|done|done|]. apply arrives_again; [apply O; lia|done|done|done|].
    apply arrives_next; [apply O; lia|done|done|]. apply arrives_nil. }
  destruct (mux_receives_stream 0 demo_open [10; 20; 30; 40; 50] 1001 0 5 demo_segments
              (let octets := concat (map (segment_packet 8 (channel demo_open 0) 1001 [10; 20; 30; 40; 50]) demo_segments) in
               [take 5 octets; take 40 (drop 5 octets); drop 45 octets])
              (proj1 demo_open_ok) (proj2 demo_open_ok)) as (u' & E & _ & R & _); try reflexivity; try exact A; try lia; try (split; reflexivity).
  exists u'. split; [exact E|]. destruct R as [_ R _ _ _ _]. rewrite R. vm_compute. reflexivity.
Defined.

(** A guest's frame between ports zero is taken for a slot that is in no use: the slot goes
    into error and is not given out again until the client closes it. *)
Lemma zero_ports_take_slot : ∃ u',
  usb_mux_feed (Some (put32 6 ++ put32 28 ++ put16 0 ++ put16 0 ++ put32 0 ++ put32 0 ++ [80; 16; 0; 0; 0; 0; 0; 0])) demo_open = Some u'
  ∧ state (channel demo_open 1) = USB_MUX_UNUSED ∧ state (channel u' 1) = USB_MUX_ERROR ∧ (usb_mux_connect 5 u').1 = 2.
Proof. eexists. split; [vm_compute; reflexivity|]. by vm_compute. Qed.
