(* ===== verification/UsbPoll.v ===== *)
(** * The usbmux peer on the USB bus

    [usb_mux_poll] of [core/src/usb_mux.c]: one burst of packets between the peer
    (UsbMux.v) and the guest's controller (UsbOtg.v), on the pipes the host (UsbHost.v)
    found.  The three are shown to carry a packet of the peer into guest RAM. *)

From Stdlib Require Import String.
From S2P Require Import Prelude Bytes UsbOtg UsbMux UsbMuxStreams.
From S2P Require UsbHost.
Open Scope Z_scope.
Open Scope word_scope.

Definition BURST : nat := 32.

Section poll.
Context {M : Type} {HM : UsbMachine M}.

(** Whether the burst goes on to sending. *)
Fixpoint poll_receive (turns : nat) (pipe : Z) (u : usb_mux) (m : M) : option (bool * usb_mux * M) :=
  match turns with
  | O => Some (true, u, m)
  | S turns =>
    '(r, actual, packet, m) ← s5l8900_usb_packet (USB_IN 512) pipe m;
    if decide (r = USB_NAK) then Some (true, u, m)
    else if decide (r ≠ USB_ACK) then Some (false, usb_mux_cancel "Virtual USB receive failed" u, m)
    else
      u ← usb_mux_feed (Some packet) u;
      if decide (u_error u ≠ None) then Some (false, u, m)
      else if actual <? 512 then Some (true, u, m)
      else poll_receive turns pipe u m
  end.

Fixpoint poll_send (turns : nat) (pipe size : Z) (u : usb_mux) (m : M) : option (usb_mux * M) :=
  match turns with
  | O => Some (u, m)
  | S turns =>
    let n := Z.min (size - transmit_at u) 512 in
    if (n <? 0) || (blen (transmit u) <? transmit_at u + n) then None
    else
      let packet := take (Z.to_nat n) (drop (Z.to_nat (transmit_at u)) (transmit u)) in
      '(r, actual, _, m) ← s5l8900_usb_packet (USB_OUT packet) pipe m;
      if decide (r = USB_NAK) then Some (u, m)
      else if bool_decide (r ≠ USB_ACK) || negb (actual =? n) then Some (usb_mux_cancel "Virtual USB send failed" u, m)
      else
        let u := x_transmit_at (transmit_at u + n) u in
        let u := if n =? 0 then x_transmit_zlp false u else u in
        if (transmit_at u =? size) && negb (transmit_zlp u) then Some (usb_mux_output_complete u, m)
        else poll_send turns pipe size u m
  end.

Definition usb_mux_poll (u : usb_mux) (m : M) (h : UsbHost.usb_host) : option (usb_mux * M) :=
  if is_stage FAILED u then Some (u, m)
  else if negb (UsbHost.usb_host_ready h) || negb (enabled (usbotg m)) || negb (connected (usbotg m))
  then Some (usb_mux_cancel "Virtual USB session disconnected" u, m)
  else
    '(on, u, m) ← poll_receive BURST (UsbHost.bulk_in h) u m;
    if negb on then Some (u, m)
    else
      '(p, u) ← usb_mux_output u;
      if blen p =? 0 then Some (u, m) else poll_send BURST (UsbHost.bulk_out h) (blen p) u m.
End poll.

(** ** Sending a packet *)

Section delivery.
Context {M : Type} {HM : UsbMachine M} {HMok : UsbMachineOk M}.
Context (pipe : Z) (Hpipe : 0 < pipe < S5L_USB_ENDPOINTS).

Lemma completed_same at_ zlp u : usb_mux_output_complete (x_transmit_zlp zlp (x_transmit_at at_ u)) = usb_mux_output_complete u
  ∧ usb_mux_output_complete (x_transmit_at at_ u) = usb_mux_output_complete u.
Proof. done. Qed.

(** From [transmit_at] on, the rest [r] goes out; a buffer longer than it takes it, and the
    short packet that ends it. *)
Lemma poll_send_rest turns : ∀ (u : usb_mux) (m : M) left packets addr r,
  let size := blen (transmit u) in
  0 <= transmit_at u → transmit_at u mod 512 = 0 → drop (Z.to_nat (transmit_at u)) (transmit u) = r → transmit_at u + blen r = size →
  transmit_zlp u = (size mod 512 =? 0) →
  link_up false (usbotg m) → armed 512 left packets addr (ep (usbotg m) false pipe) → buffer_in_ram m addr left →
  blen r < left → blen r / 512 < packets → blen r / 512 < Z.of_nat turns → ∃ m',
  poll_send turns pipe size u m = Some (usb_mux_output_complete u, m')
  ∧ put_bytes (ram m) (addr - ram_base m) r = Some (ram m').
Proof.
  induction turns as [|turns IH]; intros u m left packets addr r size Ha Ham Hr Hs Hz L A B Hl Hp Ht.
  { pose proof (blen_nonneg r). exfalso. simpl in Ht. assert (0 <= blen r / 512) by (apply Z.div_pos; lia). lia. }
  pose proof (blen_nonneg r) as Pr. cbn [poll_send]. cbv zeta. rewrite Hr.
  assert (En : size - transmit_at u = blen r) by lia. rewrite En. set (n := Z.min (blen r) 512).
  rewrite (proj2 (Z.ltb_ge n 0)), (proj2 (Z.ltb_ge _ _)) by (fold size; lia). cbn [orb].
  assert (Lt : blen (take (Z.to_nat n) r) = n) by (rewrite blen_take_min; lia).
  assert (P0 : 0 < packets) by (assert (0 <= blen r / 512) by (apply Z.div_pos; lia); lia).
  destruct (out_packet pipe 512 Hpipe ltac:(done) (take (Z.to_nat n) r) left packets addr m L A P0) as (m1 & E & Mv); [lia|lia|done|].
  rewrite E, Lt. cbn [mbind option_bind]. rewrite decide_False by done. rewrite bool_decide_false by (by intros []).
  rewrite Z.eqb_refl. cbn [orb negb]. rewrite Lt in Mv.
  destruct (armed_after pipe 512 Hpipe false n _ addr left packets m m1 Mv A P0) as (L1 & _ & A1); [lia|done|done|].
  pose proof (mv_ram _ _ _ _ _ _ _ _ Mv) as Pm. cbv iota in Pm. pose proof (mv_base _ _ _ _ _ _ _ _ Mv) as Bs.
  destruct (Z.ltb_spec (blen r) 512) as [S|S].
  - assert (n = blen r) as En' by lia. rewrite En', take_blen in Pm.
    assert (Hsz : size mod 512 = blen r).
    { rewrite <- Hs, Z.add_mod, Ham, Z.add_0_l, Z.mod_mod, Z.mod_small by lia. done. }
    assert (Ez : transmit_zlp (if n =? 0 then x_transmit_zlp false (x_transmit_at (transmit_at u + n) u) else x_transmit_at (transmit_at u + n) u) = false).
    { destruct (Z.eqb_spec n 0); [done|]. simpl. rewrite Hz, Hsz. apply Z.eqb_neq. lia. }
    rewrite Ez. exists m1. split; [|done].
    assert (Ea : transmit_at (if n =? 0 then x_transmit_zlp false (x_transmit_at (transmit_at u + n) u) else x_transmit_at (transmit_at u + n) u) = size).
    { destruct (n =? 0); simpl; lia. }
    rewrite Ea, Z.eqb_refl. cbn [andb negb]. by destruct (n =? 0).
  - assert (n = 512) as En' by lia. rewrite En' in *. change (512 =? 0) with false. cbv iota.
    assert (He : ends left packets 512 512 = false).
    { unfold ends. assert (1 <= blen r / 512) by (apply Z.div_le_lower_bound; lia).
      rewrite (proj2 (Z.eqb_neq _ 0)), (proj2 (Z.eqb_neq (packets - 1) 0)) by lia. done. }
    rewrite He in A1.
    set (r' := drop (Z.to_nat 512) r). assert (Lr : blen r' = blen r - 512) by (unfold r'; rewrite blen_drop_max; lia).
    assert (D : blen r' / 512 = blen r / 512 - 1) by (rewrite Lr; replace (blen r - 512) with (blen r + (-1) * 512) by lia; rewrite Z.div_add; lia).
    assert (Hmore : (transmit_at (x_transmit_at (transmit_at u + 512) u) =? size) && negb (transmit_zlp (x_transmit_at (transmit_at u + 512) u)) = false).
    { cbn [transmit_at x_transmit_at transmit_zlp]. rewrite Hz. destruct (Z.eqb_spec (transmit_at u + 512) size) as [F|F]; [|done]. cbn [andb].
      apply negb_false_iff, Z.eqb_eq. rewrite <- F, Z.add_mod, Ham by lia. done. }
    rewrite Hmore.
    destruct (IH (x_transmit_at (transmit_at u + 512) u) m1 (left - 512) (packets - 1) (addr + 512) r') as (m2 & E2 & P2);
      try done; cbn [transmit_at x_transmit_at transmit]; try lia.
    + rewrite Z.add_mod, Ham by lia. done.
    + unfold r'. rewrite <- Hr, drop_drop. f_equal. lia.
    + apply (buffer_tail m); [done|done|by apply put_bytes_blen in Pm|lia].
    + exists m2. split; [exact E2|].
      rewrite <- (take_drop (Z.to_nat 512) r). fold r'. rewrite Bs in P2. apply (put_bytes_join _ _ _ _ _ _ Pm). rewrite Lt.
      by replace (addr - ram_base m + 512) with (addr + 512 - ram_base m) by lia.
Qed.
End delivery.

(** ** A burst against any guest *)

(** The part of the packet already sent is within it. *)
Definition at_ok (u : usb_mux) : Prop := 0 <= transmit_at u <= blen (transmit u).

Lemma at_ok_cancel reason u : at_ok (usb_mux_cancel reason u).
Proof. by split. Qed.

Lemma stream_input_at protocol q u u' : at_ok u → stream_input protocol q u = Some u' → at_ok u'.
Proof.
  intros H. unfold stream_input. destruct (protocol =? 1).
  - destruct (if blen q =? 0 then _ else _) as [[]|]; [by intros [= <-]|intros [= <-]; apply at_ok_cancel|done].
  - destruct (if _ || _ then _ else _) as [[]|]; [intros [= <-]; apply at_ok_cancel| |done]. cbn [mbind option_bind].
    destruct (mux_be16 q 2); [|done]. destruct (mux_be16 q 0); [|done]. cbn [mbind option_bind].
    destruct (find _ _) as [i|]; [|by intros [= <-]]. destruct (refuses _); [by intros [= <-]|].
    destruct (channel_input q (channel u i)); [|done]. by intros [= <-].
Qed.

Lemma input_frame_at p u u' : at_ok u → input_frame p u = Some u' → at_ok u'.
Proof.
  intros H. unfold input_frame. cbv zeta. destruct (mux_be32 p 0) as [protocol|]; [|done]. cbn [mbind option_bind].
  destruct (blen p <? header_size u); [intros [= <-]; apply at_ok_cancel|].
  destruct (if header_size u =? 16 then _ else _) as [u1|] eqn:E1; [|done]. cbn [mbind option_bind].
  assert (H1 : at_ok u1).
  { destruct (header_size u =? 16); [|by injection E1 as <-]. destruct (mux_be16 p 14); [|done]. by injection E1 as <-. }
  destruct (stage u1); try (intros [= <-]; apply at_ok_cancel); [|by apply stream_input_at].
  unfold version_input. destruct (if _ || _ then _ else _) as [[v|]|]; [by intros [= <-]|intros [= <-]; apply at_ok_cancel|done].
Qed.

Lemma octets_at l : ∀ u u', at_ok u → feed_octets l u = Some u' → at_ok u'.
Proof.
  induction l as [|b l IH]; intros u u' H E; [by injection E as <-|]. simpl in E.
  destruct (feed_octet b u) as [u1|] eqn:E1; [|done]. apply (IH u1 u'); [|done]. clear E IH.
  unfold feed_octet in E1. destruct (is_stage FAILED u); [by injection E1 as <-|].
  destruct (missing u =? 1); [|by injection E1 as <-]. unfold settle in E1.
  destruct (mux_be32 _ 4) as [len|]; [|done]. cbn [mbind option_bind] in E1.
  destruct (_ || _); [injection E1 as <-; apply at_ok_cancel|]. destruct (_ =? len); [|by injection E1 as <-].
  destruct (input_frame _ _) as [u2|] eqn:E2; [|done]. injection E1 as <-. by apply (input_frame_at _ (grown [b] u) u2 H) in E2.
Qed.

Lemma frame_at protocol body u u' : frame protocol body u = Some u' → at_ok u'.
Proof. unfold frame. cbv zeta. destruct (_ <? _); [done|]. intros [= <-]. split; [done|]. apply blen_nonneg. Qed.

Lemma tcp_frame_at i flags n u u' : tcp_frame i flags n u = Some u' → at_ok u'.
Proof.
  unfold tcp_frame. cbv zeta. destruct (_ <? _); [done|]. destruct (frame _ _ _) as [u1|] eqn:E; [|done]. intros [= <-].
  by apply frame_at in E.
Qed.

Lemma output_at u p u' : at_ok u → usb_mux_output u = Some (p, u') → at_ok u' ∧ (p = [] ∨ p = transmit u').
Proof.
  intros H. unfold usb_mux_output. destruct (is_stage FAILED u); [intros [= <- <-]; auto|].
  destruct (blen (transmit u) =? 0); [|intros [= <- <-]; auto].
  destruct (fill u) as [u1|] eqn:E; [|done]. intros [= <- <-]. split; [|by right]. unfold fill in E.
  assert (F : ∀ s r, (∀ v, r = Some v → at_ok v) → x_stage s <$> r = Some u1 → at_ok u1).
  { intros s [v|] Hv; [|done]. intros [= <-]. by apply (Hv v). }
  destruct (stage u); try (by injection E as <-); [by apply F in E; [|intros v; apply frame_at]..|].
  revert u H E. generalize indices. intros ks. induction ks as [|k ks IH]; intros u H E; [by injection E as <-|].
  cbn [serve_from] in E. cbv zeta in E. destruct (serve_channel _ u) as [u2|] eqn:E2; [|done]. cbn [mbind option_bind] in E.
  assert (H2 : at_ok u2).
  { unfold serve_channel in E2. cbv zeta in E2. destruct (state _); try (by injection E2 as <-).
    - destruct (tcp_frame _ 2 0 u) as [u3|] eqn:E3; [|done]. injection E2 as <-. by apply tcp_frame_at in E3.
    - destruct (_ || _); [by apply tcp_frame_at in E2|by injection E2 as <-].
    - destruct (tcp_frame _ 4 0 u) as [u3|] eqn:E3; [|done]. injection E2 as <-. by apply tcp_frame_at in E3. }
  destruct (_ =? 0); [by apply (IH u2)|by injection E as <-].
Qed.

Section safety.
Context {M : Type} {HM : UsbMachine M}.
Definition poll_ok (u : usb_mux) : Prop := mux_ok u ∧ at_ok u.

Lemma poll_ok_cancel reason u : mux_ok u → poll_ok (usb_mux_cancel reason u).
Proof. intros H. split; [by apply mux_ok_cancel|apply at_ok_cancel]. Qed.

Lemma poll_receive_ok turns : ∀ pipe u (m : M), poll_ok u → returns (fun '(_, u', _) => poll_ok u') (poll_receive turns pipe u m).
Proof.
  induction turns as [|turns IH]; intros pipe u m H; [by apply returns_ret|]. cbn [poll_receive].
  destruct (UsbHost.packet_ok (USB_IN 512) pipe m) as ([[[r actual] l] m1] & -> & _). cbn [mbind option_bind].
  destruct (decide (r = USB_NAK)); [by apply returns_ret|].
  destruct (decide (r ≠ USB_ACK)); [apply returns_ret; by apply poll_ok_cancel, H|].
  destruct (feed_returns (Some l) u (proj1 H)) as (u1 & E & H1). rewrite E. cbn [mbind option_bind].
  assert (G : poll_ok u1) by (split; [done|]; rewrite feed_is_octets in E by apply H; by apply (octets_at l u u1 (proj2 H))).
  destruct (decide _); [by apply returns_ret|]. destruct (_ <? 512); [by apply returns_ret|by apply IH].
Qed.

Lemma poll_send_ok turns : ∀ pipe u (m : M), poll_ok u → returns (fun r => poll_ok r.1) (poll_send turns pipe (blen (transmit u)) u m).
Proof.
  induction turns as [|turns IH]; intros pipe u m H; [by apply returns_ret|]. cbn [poll_send]. cbv zeta.
  destruct H as [Hm [H1 H2]]. set (n := Z.min (blen (transmit u) - transmit_at u) 512).
  rewrite (proj2 (Z.ltb_ge n 0)), (proj2 (Z.ltb_ge _ _)) by lia. cbn [orb].
  destruct (UsbHost.packet_ok (USB_OUT (take (Z.to_nat n) (drop (Z.to_nat (transmit_at u)) (transmit u)))) pipe m)
    as ([[[r actual] l] m1] & -> & _). cbn [mbind option_bind].
  destruct (decide (r = USB_NAK)); [by apply returns_ret|].
  destruct (_ || _); [apply returns_ret; by apply poll_ok_cancel|].
  set (v := if n =? 0 then _ else _).
  assert (Tv : transmit v = transmit u ∧ transmit_at v = transmit_at u + n) by (unfold v; by destruct (n =? 0)). destruct Tv as [Tv Av].
  assert (Hv : poll_ok v).
  { split; [|split; rewrite ?Tv, Av; lia]. apply (mux_ok_same u); try done; try (unfold v; by destruct (n =? 0)). rewrite Tv. apply Hm. }
  destruct (_ && _); [|rewrite <- Tv; by apply IH]. apply returns_ret. split; [by apply mux_ok_complete, Hv|].
  simpl. unfold usb_mux_output_complete. cbv zeta. by destruct (is_stage _ _).
Qed.

Lemma mux_poll_ok u (m : M) h : poll_ok u → returns (fun r => poll_ok r.1) (usb_mux_poll u m h).
Proof.
  intros H. unfold usb_mux_poll. destruct (is_stage FAILED u); [by apply returns_ret|].
  destruct (_ || _); [apply returns_ret; by apply poll_ok_cancel, H|].
  destruct (poll_receive_ok BURST (UsbHost.bulk_in h) u m H) as ([[on u1] m1] & -> & H1). cbn [mbind option_bind].
  destruct on; cbn [negb]; [|by apply returns_ret].
  destruct (output_ok u1 (proj1 H1)) as ([p u2] & E & H2 & _). rewrite E. cbn [mbind option_bind].
  destruct (output_at u1 p u2 (proj2 H1) E) as [H2' Hp]. destruct (Z.eqb_spec (blen p) 0); [by apply returns_ret|].
  destruct Hp as [-> | ->]; [done|]. by apply poll_send_ok.
Qed.
End safety.

(** ** From the client to guest RAM *)

(** A packet just built starts at its first octet, and wants an empty bus packet behind it
    when it fills the last one. *)
Definition fresh_packet (u : usb_mux) : Prop :=
  transmit_at u = 0 ∧ transmit_zlp u = (blen (transmit u) mod 512 =? 0).

Lemma frame_fresh protocol body u u' : frame protocol body u = Some u' → fresh_packet u'.
Proof.
  unfold frame. cbv zeta. destruct (_ <? _); [done|]. intros [= <-]. split; [done|].
  cbn [transmit_zlp transmit x_transmit x_transmit_at x_transmit_zlp x_tx_sequence]. f_equal. f_equal.
  unfold blen. by destruct (header_size_cases u) as [-> | ->]; simpl length; simpl app; simpl length; lia.
Qed.
Lemma tcp_frame_fresh i flags n u u' : tcp_frame i flags n u = Some u' → fresh_packet u'.
Proof.
  unfold tcp_frame. cbv zeta. destruct (_ <? _); [done|]. destruct (frame _ _ _) as [u1|] eqn:E; [|done]. intros [= <-].
  by apply frame_fresh in E.
Qed.

Lemma serve_channel_fresh i u u' : serve_channel i u = Some u' → u' = u ∨ fresh_packet u'.
Proof.
  unfold serve_channel. cbv zeta. destruct (state _); try (intros [= <-]; by left).
  - destruct (tcp_frame _ 2 0 u) as [u3|] eqn:E3; [|done]. intros [= <-]. right. by apply tcp_frame_fresh in E3.
  - destruct (_ || _); [intros E; right; by apply tcp_frame_fresh in E|intros [= <-]; by left].
  - destruct (tcp_frame _ 4 0 u) as [u3|] eqn:E3; [|done]. intros [= <-]. right. by apply tcp_frame_fresh in E3.
Qed.

Lemma output_fresh u p u' : transmit u = [] → usb_mux_output u = Some (p, u') → p ≠ [] →
  p = transmit u' ∧ fresh_packet u'.
Proof.
  intros T. unfold usb_mux_output. destruct (is_stage FAILED u); [by intros [= <- <-]|]. rewrite T. change (blen [] =? 0) with true. cbv iota.
  destruct (fill u) as [u1|] eqn:E; [|done]. intros [= <- <-] Np. split; [done|]. unfold fill in E.
  assert (F : ∀ s r, (∀ v, r = Some v → fresh_packet v) → x_stage s <$> r = Some u1 → fresh_packet u1).
  { intros s [v|] Hv; [|done]. intros [= <-]. by apply (Hv v). }
  destruct (stage u); try (injection E as <-; congruence); [by apply F in E; [|intros v; apply frame_fresh]..|].
  revert u T E. generalize indices. intros ks. induction ks as [|k ks IH]; intros u T E; [injection E as <-; congruence|].
  cbn [serve_from] in E. cbv zeta in E. destruct (serve_channel _ u) as [u2|] eqn:E2; [|done]. cbn [mbind option_bind] in E.
  destruct (serve_channel_fresh _ _ _ E2) as [-> | H].
  - rewrite T in E. change (blen [] =? 0) with true in E. by apply (IH u).
  - destruct (Z.eqb_spec (blen (transmit u2)) 0) as [Z0|]; [apply (IH u2); [by apply blen_zero|done]|by injection E as <-].
Qed.

Section end_to_end.
Context {M : Type} {HM : UsbMachine M} {HMok : UsbMachineOk M}.

Lemma poll_receive_nak turns pipe u (m : M) :
  packet_count (USB_IN 512) pipe (usbotg m) = inl USB_NAK → poll_receive (S turns) pipe u m = Some (true, u, m).
Proof. intros H. cbn [poll_receive]. unfold s5l8900_usb_packet at 1. by rewrite H. Qed.

(** C29: a burst hands the packet the peer has ready to the guest: its octets lie in the
    buffer the guest armed the pipe with, however many bus packets they take, and the peer
    has let go of it.  [left] and [packets] are the room of that buffer. *)
Theorem mux_poll_delivers (u u1 : usb_mux) (m : M) (h : UsbHost.usb_host) (p : list Z) (left packets addr : Z) :
  mux_ok u → UsbHost.usb_host_ready h = true → transmit u = [] → usb_mux_output u = Some (p, u1) → p ≠ [] → blen p <= 31 * 512 →
  0 < UsbHost.bulk_out h < S5L_USB_ENDPOINTS → packet_count (USB_IN 512) (UsbHost.bulk_in h) (usbotg m) = inl USB_NAK →
  link_up false (usbotg m) → armed 512 left packets addr (ep (usbotg m) false (UsbHost.bulk_out h)) → buffer_in_ram m addr left →
  blen p < left → blen p / 512 < packets → ∃ m',
  usb_mux_poll u m h = Some (usb_mux_output_complete u1, m')
  ∧ put_bytes (ram m) (addr - ram_base m) p = Some (ram m') ∧ transmit (usb_mux_output_complete u1) = [].
Proof.
  intros Hu Hh T E Np Lp Hb Hin L A B Hl Hk. unfold usb_mux_poll.
  assert (NF : is_stage FAILED u = false).
  { destruct (is_stage FAILED u) eqn:F; [|done]. unfold usb_mux_output in E. rewrite F in E. by injection E as <- <-. }
  rewrite NF, Hh, (lu_enabled _ _ L), (lu_connected _ _ L). cbn [negb orb].
  unfold BURST at 1. rewrite (poll_receive_nak 31) by done. cbn [mbind option_bind negb].
  rewrite E. cbn [mbind option_bind].
  assert (Np' : blen p ≠ 0) by (intros Z0; by apply Np, blen_zero). rewrite (proj2 (Z.eqb_neq _ 0)) by done.
  destruct (output_fresh u p u1 T E Np) as (Tp & At & Zl). subst p.
  destruct (poll_send_rest (UsbHost.bulk_out h) Hb BURST u1 m left packets addr (transmit u1)) as (m' & Es & P); try done; rewrite ?At; try done.
  - assert (blen (transmit u1) / 512 <= 31) by (apply Z.div_le_upper_bound; lia). unfold BURST. lia.
  - exists m'. split_and!; [done..|]. unfold usb_mux_output_complete. cbv zeta. by destruct (is_stage WAIT_SETUP _).
Qed.
End end_to_end.

(** *** An example: four octets of a client reach the buffer of endpoint 2 *)

Definition demo_written : usb_mux :=
  match mux_run (demo_setup ++ [Write 0 (Some [1; 2; 3; 4])]) usb_mux_init with Some (_, u) => u | None => usb_mux_init end.
Definition demo_guest : usb_box :=
  MkBox (demo_arm false 2 0x8002 600 2 512 (s5l_usbotg_connect true (s5l_usbotg_enable s5l_usbotg_reset))) (replicate 640 0) 0x8000.
Definition demo_pipes : UsbHost.usb_host :=
  UsbHost.h_stage UsbHost.READY (UsbHost.h_bulk_in 1 (UsbHost.h_bulk_out 2 (UsbHost.fresh_host 0))).

Lemma demo_written_ok : mux_ok demo_written.
Proof.
  destruct (mux_run_ok (demo_setup ++ [Write 0 (Some [1; 2; 3; 4])])) with (u := usb_mux_init) as (es & u & E & [I _]); [|apply mux_inv_init|].
  - unfold demo_setup. repeat apply Forall_cons_2; try apply Forall_nil_2; try exact I; by split.
  - unfold demo_written. by rewrite E.
Qed.

Lemma mux_poll_delivers_witness : ∃ u' m',
  usb_mux_poll demo_written demo_guest demo_pipes = Some (u', m')
  ∧ take 34 (ram m') = [0; 0; 0; 0; 0; 6; 0; 0; 0; 32; 0; 1; 242; 126; 0; 0; 0; 1; 0; 0; 3; 233; 80; 16; 1; 0; 0; 0; 0; 0; 1; 2; 3; 4].
Proof.
  destruct (usb_mux_output demo_written) as [[p u1]|] eqn:E; [|vm_compute in E; discriminate].
  assert (P : p = [0; 0; 0; 6; 0; 0; 0; 32; 0; 1; 242; 126; 0; 0; 0; 1; 0; 0; 3; 233; 80; 16; 1; 0; 0; 0; 0; 0; 1; 2; 3; 4]).
  { assert (F : fst <$> usb_mux_output demo_written = Some p) by (by rewrite E). vm_compute in F. congruence. }
  assert (T : transmit demo_written = []) by (vm_compute; reflexivity).
  assert (L : link_up false (usbotg demo_guest)) by (by split).
  assert (A : armed 512 600 2 0x8002 (ep (usbotg demo_guest) false (UsbHost.bulk_out demo_pipes))) by (by split).
  assert (B : buffer_in_ram demo_guest 0x8002 600) by (split_and!; vm_compute; congruence).
  assert (N : p ≠ []) by (by rewrite P). assert (S : blen p = 32) by (by rewrite P).
  destruct (mux_poll_delivers demo_written u1 demo_guest demo_pipes p 600 2 0x8002 demo_written_ok eq_refl T E N) as (m' & R & Q & _);
    [rewrite S; vm_compute; congruence|vm_compute; by split|vm_compute; reflexivity|exact L|exact A|exact B|rewrite S; reflexivity|rewrite S; reflexivity|].
  exists (usb_mux_output_complete u1), m'. split; [exact R|].
  rewrite P in Q. apply (f_equal (fmap (take 34))) in Q. cbn [fmap option_fmap option_map] in Q.
  transitivity (default [] (Some (take 34 (ram m')))); [done|]. rewrite <- Q. vm_compute. reflexivity.
Defined.
