(* ===== verification/Vic.v ===== *)
(** * The vectored interrupt controller

    [core/src/soc/vic.c]: the S5L8900's PL190/PL192-style controller, whose outputs
    the platform copies into the core's [irq_line] and [fiq_line], sampled by
    [arm_step]. *)

From S2P Require Import Prelude State.

Definition VIC_IRQSTATUS := 0x00.
Definition VIC_FIQSTATUS := 0x04.
Definition VIC_RAWINTR := 0x08.
Definition VIC_INTSELECT := 0x0c.
Definition VIC_INTENABLE := 0x10.
Definition VIC_INTENCLEAR := 0x14.
Definition VIC_SOFTINT := 0x18.
Definition VIC_SOFTINTCLEAR := 0x1c.

Record s5l_vic := MkVic { raw : Z; enable : Z; select : Z; soft : Z }.

Definition pending (v : s5l_vic) : Z := raw v .| soft v.

Definition s5l_vic_reset : s5l_vic := MkVic 0 0 0 0.

Definition irq_status (v : s5l_vic) : Z := (pending v .& enable v) .& wnot (select v).
Definition fiq_status (v : s5l_vic) : Z := (pending v .& enable v) .& select v.

Definition s5l_vic_irq (v : s5l_vic) : bool := negb (irq_status v =? 0).
Definition s5l_vic_fiq (v : s5l_vic) : bool := negb (fiq_status v =? 0).

Definition s5l_vic_set_line (v : s5l_vic) (line : Z) (level : bool) : s5l_vic :=
  if 31 <? line then v
  else MkVic (if level then raw v .| (1 .<< line) else raw v .& wnot (1 .<< line))
         (enable v) (select v) (soft v).

(** [while (!(irq & (1u << bit))) bit++] *)
Fixpoint lowest_bit_from (fuel : nat) (irq b : Z) : Z :=
  match fuel with
  | O => b
  | S fuel => if bit irq b then b else lowest_bit_from fuel irq (b + 1)
  end.

Definition s5l_vic_vectaddr (v : s5l_vic) (base_source : Z) : Z :=
  let irq := irq_status v in
  if irq =? 0 then 0 else w32 (base_source + lowest_bit_from 32 irq 0) .| 0x80000000.

Definition s5l_vic_read (v : s5l_vic) (off : Z) : Z :=
  if off =? VIC_IRQSTATUS then irq_status v
  else if off =? VIC_FIQSTATUS then fiq_status v
  else if off =? VIC_RAWINTR then pending v
  else if off =? VIC_INTSELECT then select v
  else if off =? VIC_INTENABLE then enable v
  else if off =? VIC_SOFTINT then soft v
  else 0.

Definition s5l_vic_write (v : s5l_vic) (off val : Z) : s5l_vic :=
  if off =? VIC_INTSELECT then MkVic (raw v) (enable v) val (soft v)
  else if off =? VIC_INTENABLE then MkVic (raw v) (enable v .| val) (select v) (soft v)
  else if off =? VIC_INTENCLEAR then MkVic (raw v) (enable v .& wnot val) (select v) (soft v)
  else if off =? VIC_SOFTINT then MkVic (raw v) (enable v) (select v) (soft v .| val)
  else if off =? VIC_SOFTINTCLEAR then MkVic (raw v) (enable v) (select v) (soft v .& wnot val)
  else v.

(** ** Specification: each source on its own *)

(** Source [i] requests service. *)
Definition requests (v : s5l_vic) (i : Z) : bool :=
  (bit (raw v) i || bit (soft v) i) && bit (enable v) i.

Definition wf_vic (v : s5l_vic) : Prop :=
  uint 32 (raw v) ∧ uint 32 (enable v) ∧ uint 32 (select v) ∧ uint 32 (soft v).

Lemma irq_status_bit v i : 0 <= i < 32 →
  bit (irq_status v) i = requests v i && negb (bit (select v) i).
Proof.
  intros Hi. unfold irq_status, requests, pending, bit. autorewrite with bitspec.
  replace (i <? 32) with true by lia. by rewrite xorb_true_r.
Qed.

Lemma fiq_status_bit v i :
  bit (fiq_status v) i = requests v i && bit (select v) i.
Proof. unfold fiq_status, requests, pending, bit. by autorewrite with bitspec. Qed.

Lemma irq_status_uint v : wf_vic v → uint 32 (irq_status v).
Proof. intros (Hr & He & Hs & Hf). unfold irq_status, pending. solve_uint. Qed.

Lemma nonzero_has_bit w x : 0 <= w → uint w x → x ≠ 0 → ∃ i, 0 <= i < w ∧ bit x i = true.
Proof.
  intros Hw Hx Hne. exists (Z.log2 x). destruct Hx.
  assert (Z.log2 x < w) by (apply Z.log2_lt_pow2; lia).
  split; [split; [apply Z.log2_nonneg | done] |]. apply Z.bit_log2. lia.
Qed.

Lemma lowest_bit_spec fuel x b j :
  0 <= b → bit x j = true → b <= j < b + Z.of_nat fuel →
  let l := lowest_bit_from fuel x b in
  b <= l <= j ∧ bit x l = true ∧ (∀ i, b <= i < l → bit x i = false).
Proof.
  revert b. induction fuel as [| fuel IH]; intros b Hb Hj Hr; simpl; [lia |].
  destruct (bit x b) eqn:Eb.
  - split; [lia |]. split; [done |]. lia.
  - assert (b ≠ j) by congruence.
    destruct (IH (b + 1)) as (H1 & H2 & H3); [lia | done | lia |].
    split; [lia |]. split; [done |]. intros i Hi.
    destruct (decide (i = b)) as [-> | ?]; [done | apply H3; lia].
Qed.

Lemma set_line_bit v line level i : 0 <= line <= 31 → 0 <= i < 32 →
  bit (raw (s5l_vic_set_line v line level)) i = if i =? line then level else bit (raw v) i.
Proof.
  intros Hl Hi. unfold s5l_vic_set_line. replace (31 <? line) with false by lia.
  assert (1 .<< line = Z.shiftl 1 line) as E.
  { apply w32_small. rewrite Z.shiftl_1_l. split; [lia |]. apply Z.pow_lt_mono_r; lia. }
  simpl. rewrite E. unfold bit.
  assert (Z.testbit (Z.shiftl 1 line) i = (i =? line)) as Eb.
  { rewrite Z.shiftl_1_l. destruct (Z.eqb_spec i line) as [-> | Hne].
    - apply Z.pow2_bits_true. lia.
    - apply Z.pow2_bits_false. lia. }
  destruct level.
  - rewrite Z.lor_spec, Eb. destruct (i =? line); [apply orb_true_r | apply orb_false_r].
  - rewrite Z.land_spec, testbit_wnot, Eb by lia. replace (i <? 32) with true by lia.
    destruct (i =? line); [apply andb_false_r | apply andb_true_r].
Qed.

(** the vectored dispatch word names the pending source of highest default
    priority.  Reading VICADDRESS yields 0 exactly when no line requests an IRQ
    (and then the IRQ output is low); otherwise bit 31 is set and the low bits are
    [base_source] plus the lowest-numbered line that is asserted (by its device or
    by software), enabled and routed to IRQ. *)
Theorem vectaddr_lowest_pending v base :
  wf_vic v → 0 <= base → base + 31 < 2 ^ 31 →
  let irq i := requests v i && negb (bit (select v) i) in
  (s5l_vic_irq v = false ∧ s5l_vic_vectaddr v base = 0 ∧ ∀ i, 0 <= i < 32 → irq i = false) ∨
  (s5l_vic_irq v = true ∧ ∃ i, 0 <= i < 32 ∧ irq i = true ∧ (∀ j, 0 <= j < i → irq j = false) ∧
   s5l_vic_vectaddr v base = 2 ^ 31 + base + i).
Proof.
  intros Hwf Hb Hb' irq. unfold s5l_vic_irq, s5l_vic_vectaddr.
  pose proof (irq_status_uint v Hwf) as Hu.
  destruct (Z.eqb_spec (irq_status v) 0) as [E | E]; [left | right]; (split; [done |]).
  - split; [done |]. intros i Hi. unfold irq. rewrite <- irq_status_bit, E by done.
    apply Z.testbit_0_l.
  - destruct (nonzero_has_bit 32 (irq_status v)) as (j & Hj & Ej); [lia | done | done |].
    destruct (lowest_bit_spec 32 (irq_status v) 0 j) as (H1 & H2 & H3); [lia | done | lia |].
    set (l := lowest_bit_from 32 _ 0) in *. exists l. split; [lia |].
    unfold irq. split; [by rewrite <- irq_status_bit by lia |].
    split; [intros i Hi; rewrite <- irq_status_bit by lia; apply H3; lia |].
    rewrite w32_small by (split; lia). change 0x80000000 with (Z.shiftl 1 31).
    rewrite Z.lor_comm, lor_shift_add by (done || split; lia). lia.
Qed.

(** every enable, select and software-interrupt write acts on each source
    alone.  Writing INTENABLE/SOFTINT sets exactly the bits written as one,
    INTENCLEAR/SOFTINTCLEAR clears exactly them, INTSELECT replaces the routing,
    a device's line is changed only by [s5l_vic_set_line], and a source requests
    service afterwards exactly as these three facts say. *)
Theorem vic_write_per_source v off val i :
  uint 32 val → 0 <= i < 32 →
  let v' := s5l_vic_write v off val in
  raw v' = raw v ∧
  bit (enable v') i =
    (if off =? VIC_INTENABLE then bit (enable v) i || bit val i
     else if off =? VIC_INTENCLEAR then bit (enable v) i && negb (bit val i)
     else bit (enable v) i) ∧
  bit (soft v') i =
    (if off =? VIC_SOFTINT then bit (soft v) i || bit val i
     else if off =? VIC_SOFTINTCLEAR then bit (soft v) i && negb (bit val i)
     else bit (soft v) i) ∧
  select v' = (if off =? VIC_INTSELECT then val else select v) ∧
  (wf_vic v → wf_vic v').
Proof.
  intros Hv Hi. unfold s5l_vic_write.
  assert (∀ x, bit (x .& wnot val) i = bit x i && negb (bit val i)) as Hc.
  { intros x. unfold bit. rewrite Z.land_spec, testbit_wnot by lia.
    replace (i <? 32) with true by lia. by rewrite xorb_true_r. }
  assert (∀ x, bit (x .| val) i = bit x i || bit val i) as Hs
    by (intros x; apply Z.lor_spec).
  destruct (Z.eqb_spec off VIC_INTSELECT) as [-> |]; [| 
    destruct (Z.eqb_spec off VIC_INTENABLE) as [-> |]; [|
    destruct (Z.eqb_spec off VIC_INTENCLEAR) as [-> |]; [|
    destruct (Z.eqb_spec off VIC_SOFTINT) as [-> |]; [|
    destruct (Z.eqb_spec off VIC_SOFTINTCLEAR) as [-> |]]]]];
    simpl; rewrite ?Hc, ?Hs;
    (split; [done |]; split; [done |]; split; [done |]; split; [done |]);
    intros (Hr & He & Hl & Hf); refine (conj _ (conj _ (conj _ _))); simpl; solve_uint.
Qed.

(** ** Concrete inputs *)

Definition demo_vic : s5l_vic := MkVic 0x90 0x92 0x80 0x02.

Lemma demo_vic_wf : wf_vic demo_vic.
Proof. repeat split; by vm_compute. Qed.

Lemma vectaddr_lowest_pending_witness :
  s5l_vic_vectaddr demo_vic 32 = 0x80000021 ∧
  let irq i := requests demo_vic i && negb (bit (select demo_vic) i) in
  (s5l_vic_irq demo_vic = false ∧ s5l_vic_vectaddr demo_vic 32 = 0 ∧
   ∀ i, 0 <= i < 32 → irq i = false) ∨
  (s5l_vic_irq demo_vic = true ∧ ∃ i, 0 <= i < 32 ∧ irq i = true ∧
   (∀ j, 0 <= j < i → irq j = false) ∧ s5l_vic_vectaddr demo_vic 32 = 2 ^ 31 + 32 + i).
Proof.
  split; [vm_compute; reflexivity |].
  apply (vectaddr_lowest_pending demo_vic 32); [apply demo_vic_wf | lia | lia].
Defined.

Lemma vic_write_per_source_witness :
  let v' := s5l_vic_write demo_vic VIC_INTENCLEAR 0x10 in
  raw v' = 0x90 ∧ bit (enable v') 4 = (bit 0x92 4 && negb (bit 0x10 4)).
Proof.
  destruct (vic_write_per_source demo_vic VIC_INTENCLEAR 0x10 4) as (H1 & H2 & _);
    [split; lia | lia |].
  split; [exact H1 | exact H2].
Defined.
