(* ===== verification/Timer.v ===== *)
(** * The timer block

    [core/src/soc/timer.c]: the free-running 64-bit counter and Timer 4, the
    kernel's decrementer.  [s5l_timer_tick] advances any number of ticks at once
    by modular arithmetic; it is proved equal to advancing tick by tick, and
    [s5l_timer_ticks_to_irq] to be the exact distance to the next latched enabled
    edge. *)

From S2P Require Import Prelude State.

Definition TIMER_TICKSHIGH := 0x0080.
Definition TIMER_TICKSLOW := 0x0084.
Definition TIMER_CONFIG := 0x0088.
Definition TIMER4_CONFIG := 0x00a0.
Definition TIMER4_STATE := 0x00a4.
Definition TIMER4_COUNTBUF := 0x00a8.
Definition TIMER4_COUNTBUF2 := 0x00ac.
Definition TIMER4_VALUE := 0x00b4.
Definition TIMER_IRQACK := 0x00f4.
Definition TIMER_IRQLATCH := 0x00f8.
Definition TIMER_IRQSTATUS := 0x10000.
Definition TIMER4_STATE_START := 1.
Definition TIMER4_STATE_UPDATE := 2.
Definition TIMER4_IRQ_BITS := 0x00030000.
Definition TIMER4_MODE_MASK := 0x30.
Definition TIMER4_MODE_PWM := 0x10.
Definition TIMER4_INT0_EN := 0x1000.
Definition TIMER4_INT1_EN := 0x2000.
Definition TIMER4_INT0 := 0x00010000.
Definition TIMER4_INT1 := 0x00020000.

Record s5l_timer := MkTimer {
  ticks : Z; config : Z; t4_config : Z; t4_state : Z;
  t4_count : Z; t4_count2 : Z; t4_value : Z; irqlatch : Z }.

Definition s5l_timer_reset : s5l_timer := MkTimer 0 0 0 0 0 0 0 0.

Definition set_ticks (x : Z) (t : s5l_timer) : s5l_timer :=
  MkTimer x (config t) (t4_config t) (t4_state t) (t4_count t) (t4_count2 t) (t4_value t)
    (irqlatch t).
Definition set_value (x : Z) (t : s5l_timer) : s5l_timer :=
  MkTimer (ticks t) (config t) (t4_config t) (t4_state t) (t4_count t) (t4_count2 t) x
    (irqlatch t).
Definition set_latch (x : Z) (t : s5l_timer) : s5l_timer :=
  MkTimer (ticks t) (config t) (t4_config t) (t4_state t) (t4_count t) (t4_count2 t)
    (t4_value t) x.

Definition timer4_pwm (t : s5l_timer) : bool :=
  (t4_config t .& TIMER4_MODE_MASK) =? TIMER4_MODE_PWM.

Definition timer4_started (t : s5l_timer) : bool :=
  negb ((t4_state t .& TIMER4_STATE_START) =? 0).

Definition timer4_elapsed (t : s5l_timer) : Z := t4_count t -w t4_value t.

Definition timer4_distance (phase target : Z) : Z :=
  let distance := target -w phase in
  if distance =? 0 then 2 ^ 32 else distance.

Definition timer4_period (t : s5l_timer) : Z := if t4_count2 t =? 0 then 1 else t4_count2 t.

Definition UINT32_MAX := 0xffffffff.

(** [UINT64_MAX] marks "none" in the C code; here it is [None]. *)
Definition opt_min (next : option Z) (x : Z) : option Z :=
  match next with Some n => if x <? n then Some x else next | None => Some x end.

Definition s5l_timer_ticks_to_irq (t : s5l_timer) : Z :=
  if negb (timer4_started t) then 0
  else if negb (timer4_pwm t) then if t4_value t =? 0 then t4_count t else t4_value t
  else
    let phase := timer4_elapsed t in
    let period := timer4_period t in
    let end_ := timer4_distance phase period in
    let next := if (t4_config t .& TIMER4_INT1_EN) =? 0 then None else Some end_ in
    let next :=
      if (t4_config t .& TIMER4_INT0_EN) =? 0 then next
      else
        let first := timer4_distance phase (t4_count t) in
        let next := if first <=? end_ then opt_min next first else next in
        if t4_count t <=? period then opt_min next (end_ + t4_count t) else next in
    match next with
    | None => 0
    | Some n => if UINT32_MAX <? n then UINT32_MAX else n
    end.

Definition timer4_tick_pwm (t : s5l_timer) (n : Z) : s5l_timer :=
  let phase := timer4_elapsed t in
  let period := timer4_period t in
  let end_ := timer4_distance phase period in
  let first := timer4_distance phase (t4_count t) in
  let latch := irqlatch t in
  let latch := if (first <=? n) && (first <=? end_) then latch .| TIMER4_INT0 else latch in
  let '(phase, latch) :=
    if end_ <=? n then
      let rest := n - end_ in
      let latch := latch .| TIMER4_INT1 in
      let latch := if (t4_count t <=? period) && (t4_count t <=? rest)
                   then latch .| TIMER4_INT0 else latch in
      (rest mod period, latch)
    else (phase +w n, latch) in
  set_value (t4_count t -w phase) (set_latch latch t).

Definition s5l_timer_read (t : s5l_timer) (off : Z) : Z :=
  if off =? TIMER_TICKSLOW then w32 (ticks t)
  else if off =? TIMER_TICKSHIGH then w32 (ticks t .>> 32)
  else if off =? TIMER_CONFIG then config t
  else if off =? TIMER4_CONFIG then t4_config t
  else if off =? TIMER4_STATE then t4_state t .& wnot TIMER4_STATE_UPDATE
  else if off =? TIMER4_COUNTBUF then t4_count t
  else if off =? TIMER4_COUNTBUF2 then t4_count2 t
  else if off =? TIMER4_VALUE then timer4_elapsed t
  else if off =? TIMER_IRQLATCH then irqlatch t
  else if off =? TIMER_IRQSTATUS then irqlatch t
  else 0.

Definition s5l_timer_write (t : s5l_timer) (off val : Z) : s5l_timer :=
  let '(MkTimer tk cf c4 st n n2 v l) := t in
  if off =? TIMER_CONFIG then MkTimer tk val c4 st n n2 v l
  else if off =? TIMER4_CONFIG then MkTimer tk cf val st n n2 v l
  else if off =? TIMER4_STATE then
    MkTimer tk cf c4 val n n2 (if (val .& TIMER4_STATE_UPDATE) =? 0 then v else n) l
  else if off =? TIMER4_COUNTBUF then
    MkTimer tk cf c4 st val n2 (if timer4_pwm t then v +w (val -w n) else val) l
  else if off =? TIMER4_COUNTBUF2 then MkTimer tk cf c4 st n val v l
  else if (off =? TIMER_IRQACK) || (off =? TIMER_IRQLATCH)
  then MkTimer tk cf c4 st n n2 v (l .& wnot val)
  else if off =? TIMER_IRQSTATUS then MkTimer tk cf c4 st n n2 v 0
  else t.

(** The legacy interval path. *)
Definition timer4_tick_interval (t : s5l_timer) (n : Z) : s5l_timer :=
  let period := t4_count t in
  let value := if t4_value t =? 0 then period else t4_value t in
  if value =? 0 then t
  else if n <? value then set_value (value - n) t
  else
    let after_first := n - value in
    let t := set_latch (irqlatch t .| TIMER4_IRQ_BITS) t in
    if period =? 0 then set_value 0 t
    else
      let phase := after_first mod period in
      set_value (if phase =? 0 then period else period - phase) t.

(** Whether the interrupt line is asserted. *)
Definition timer_line (t : s5l_timer) : bool :=
  if timer4_pwm t
  then negb (((irqlatch t .& (t4_config t .<< 4)) .& TIMER4_IRQ_BITS) =? 0)
  else negb (irqlatch t =? 0).

Definition s5l_timer_tick (t : s5l_timer) (n : Z) : bool * s5l_timer :=
  let t := set_ticks (w64 (ticks t + n)) t in
  let t :=
    if timer4_started t && negb (n =? 0) then
      if timer4_pwm t then timer4_tick_pwm t n else timer4_tick_interval t n
    else t in
  (timer_line t, t).

(** ** Well-formed states *)

Definition wf_timer (t : s5l_timer) : Prop :=
  uint 64 (ticks t) ∧ uint 32 (t4_config t) ∧ uint 32 (t4_count t) ∧ uint 32 (t4_count2 t) ∧
  uint 32 (t4_value t) ∧ uint 32 (irqlatch t).

(** ** Tick by tick *)

Definition tick (t : s5l_timer) (n : Z) : s5l_timer := snd (s5l_timer_tick t n).

(** The reference: the up-counter advanced by one tick.  A compare raises match 0
    when the counter becomes equal to COUNTBUF, match 1 when it becomes equal to
    the period, which also returns it to zero. *)
Definition count_once (count period : Z) (s : Z * Z) : Z * Z :=
  let '(phase, latch) := s in
  let phase := phase +w 1 in
  let latch := if phase =? count then latch .| TIMER4_INT0 else latch in
  if phase =? period then
    let latch := latch .| TIMER4_INT1 in
    (0, if count =? 0 then latch .| TIMER4_INT0 else latch)
  else (phase, latch).

(** ** The PWM counter as a pure function of the phase *)

Section Pwm.
Variables (count period : Z).
Hypotheses (Hc : uint 32 count) (Hp : 1 <= period < 2 ^ 32).

(** Match 0 and match 1 within [n] ticks, and the phase after them. *)
Definition match0 (p n : Z) : bool :=
  let E := timer4_distance p period in
  let F := timer4_distance p count in
  ((F <=? n) && (F <=? E)) || ((E <=? n) && (count <=? period) && (count <=? n - E)).
Definition match1 (p n : Z) : bool := timer4_distance p period <=? n.
Definition phase_after (p n : Z) : Z :=
  let E := timer4_distance p period in
  if E <=? n then (n - E) mod period else p +w n.

Lemma distance_range p q : uint 32 p → uint 32 q →
  1 <= timer4_distance p q <= 2 ^ 32 ∧
  (p < q → timer4_distance p q = q - p) ∧ (q <= p → timer4_distance p q = q - p + 2 ^ 32).
Proof.
  intros [H1 H2] [H3 H4]. unfold timer4_distance, w32, wrap.
  destruct (Z.eqb_spec ((q - p) mod 2 ^ 32) 0); Z.to_euclidean_division_equations; lia.
Qed.

(** A bounded phase moves modulo [2^32]. *)
Lemma phase_add p n : uint 32 p → 0 <= n < 2 ^ 32 →
  p +w n = p + n ∧ p + n < 2 ^ 32 ∨ p +w n = p + n - 2 ^ 32 ∧ 2 ^ 32 <= p + n.
Proof.
  intros [H1 H2] H. unfold w32, wrap. Z.to_euclidean_division_equations; lia.
Qed.

Lemma phase_after_range p n : uint 32 p → 0 <= n < 2 ^ 32 → uint 32 (phase_after p n).
Proof using Hp.
  intros Hp0 Hn. unfold phase_after. destruct (_ <=? n); [| apply uint_w32].
  pose proof (Z.mod_pos_bound (n - timer4_distance p period) period). split; lia.
Qed.

(** Where the counter stands after it passed the period at least once. *)
Lemma phase_wrapped p a : uint 32 p → timer4_distance p period <= a →
  0 <= phase_after p a < period ∧
  ∃ q, 0 <= q ∧ a - timer4_distance p period = q * period + phase_after p a.
Proof using Hp.
  intros Hp0 Ha. unfold phase_after. replace (_ <=? a) with true by lia.
  set (x := a - _). assert (0 <= x) by lia.
  pose proof (Z.mod_pos_bound x period ltac:(lia)). split; [done |].
  exists (x / period). split; [apply Z.div_pos; lia |].
  pose proof (Z.div_mod x period). lia.
Qed.

Lemma phase_after_add p a b : uint 32 p → 0 <= a → 0 <= b → a + b < 2 ^ 32 →
  phase_after (phase_after p a) b = phase_after p (a + b).
Proof using Hp Hc.
  intros Hp0 Ha Hb Hab.
  destruct (distance_range p period Hp0) as (HE & HE1 & HE2); [split; lia |].
  destruct (Z_le_gt_dec (timer4_distance p period) a) as [Hle | Hgt].
  - destruct (phase_wrapped p a Hp0 Hle) as (Hr & q & Hq & Ea).
    set (p' := phase_after p a) in *.
    destruct (distance_range p' period) as (_ & HE1' & _); [split; lia | split; lia |].
    unfold phase_after. rewrite HE1' by lia. replace (_ <=? a + b) with true by lia.
    replace (a + b - timer4_distance p period) with (p' + b + q * period) by lia.
    rewrite Z.mod_add by lia. destruct (Z.leb_spec (period - p') b).
    + replace (p' + b) with (b - (period - p') + 1 * period) by lia. by rewrite Z.mod_add by lia.
    + rewrite w32_small by (split; lia). symmetry. apply Z.mod_small. lia.
  - unfold phase_after at 2. replace (_ <=? a) with false by lia.
    assert (timer4_distance (p +w a) period = timer4_distance p period - a) as HEa.
    { destruct (distance_range (p +w a) period (uint_w32 _)) as (_ & H1 & H2); [split; lia |].
      destruct Hp0. destruct (phase_add p a); [split; lia | lia | |]; lia. }
    unfold phase_after. rewrite HEa.
    replace (timer4_distance p period - a <=? b) with (timer4_distance p period <=? a + b) by lia.
    destruct (_ <=? a + b); [f_equal; lia |].
    unfold w32. rewrite wrap_add_l. by rewrite Z.add_assoc.
Qed.

Lemma match1_add p a b : uint 32 p → 0 <= a → 0 <= b → a + b < 2 ^ 32 →
  match1 p (a + b) = match1 p a || match1 (phase_after p a) b.
Proof using Hp Hc.
  intros Hp0 Ha Hb Hab. unfold match1.
  destruct (distance_range p period Hp0) as (HE & HE1 & HE2); [split; lia |].
  destruct (Z_le_gt_dec (timer4_distance p period) a) as [Hle | Hgt]; [lia |].
  unfold phase_after. replace (_ <=? a) with false by lia.
  destruct (distance_range (p +w a) period (uint_w32 _)) as (_ & H1 & H2); [split; lia |].
  destruct Hp0. destruct (phase_add p a); [split; lia | lia | |]; lia.
Qed.

Lemma match0_add p a b : uint 32 p → 0 <= a → 0 <= b → a + b < 2 ^ 32 →
  match0 p (a + b) = match0 p a || match0 (phase_after p a) b.
Proof using Hp Hc.
  intros Hp0 Ha Hb Hab. unfold match0.
  destruct (distance_range p period Hp0) as (HE & HE1 & HE2); [split; lia |].
  destruct (distance_range p count Hp0 Hc) as (HF & HF1 & HF2).
  destruct (Z_le_gt_dec (timer4_distance p period) a) as [Hle | Hgt].
  - destruct (phase_wrapped p a Hp0 Hle) as (Hr & q & Hq & Ea).
    set (p' := phase_after p a) in *.
    destruct (distance_range p' period) as (_ & HE1' & _); [split; lia | split; lia |].
    destruct (distance_range p' count) as (HF' & HF1' & HF2'); [split; lia | done |].
    rewrite HE1' by lia.
    assert (q = 0 ∨ period <= q * period) as [-> | Hq'] by nia.
    + destruct Hc. lia.
    + destruct Hc. set (qp := q * period) in *. lia.
  - unfold phase_after. replace (timer4_distance p period <=? a) with false by lia.
    destruct (distance_range (p +w a) period (uint_w32 _)) as (_ & H1 & H2); [split; lia |].
    destruct (distance_range (p +w a) count (uint_w32 _) Hc) as (_ & H3 & H4).
    destruct Hp0, Hc. destruct (phase_add p a); [split; lia | lia | |]; lia.
Qed.

Lemma match0_zero p : uint 32 p → match0 p 0 = false.
Proof using Hp Hc.
  intros Hp0. unfold match0.
  destruct (distance_range p period Hp0) as (HE & _); [split; lia |].
  destruct (distance_range p count Hp0 Hc) as (HF & _). lia.
Qed.

Lemma match1_zero p : uint 32 p → match1 p 0 = false.
Proof using Hp.
  intros Hp0. unfold match1.
  destruct (distance_range p period Hp0) as (HE & _); [split; lia |]. lia.
Qed.

Lemma phase_after_zero p : uint 32 p → phase_after p 0 = p.
Proof using Hp.
  intros Hp0. unfold phase_after.
  destruct (distance_range p period Hp0) as (HE & _); [split; lia |].
  replace (_ <=? 0) with false by lia. rewrite Z.add_0_r. by apply w32_small.
Qed.

End Pwm.

(** ** The tick as a whole *)

Definition pwm_latch (l : Z) (m0 m1 : bool) : Z :=
  (l .| (if m0 then TIMER4_INT0 else 0)) .| (if m1 then TIMER4_INT1 else 0).

Lemma pwm_latch_twice l a b c d :
  pwm_latch (pwm_latch l a b) c d = pwm_latch l (a || c) (b || d).
Proof.
  unfold pwm_latch. apply Z.bits_inj. intros i. rewrite !Z.lor_spec.
  destruct a, b, c, d; simpl; rewrite ?Z.testbit_0_l;
    by destruct (Z.testbit l i), (Z.testbit TIMER4_INT0 i), (Z.testbit TIMER4_INT1 i).
Qed.

Lemma pwm_latch_none l : pwm_latch l false false = l.
Proof. unfold pwm_latch. by rewrite !Z.lor_0_r. Qed.

(** The counter state a PWM tick works on. *)
Definition pwm_next (t : s5l_timer) (n : Z) : s5l_timer :=
  let p := timer4_elapsed t in
  let per := timer4_period t in
  set_value (t4_count t -w phase_after per p n)
    (set_latch (pwm_latch (irqlatch t) (match0 (t4_count t) per p n) (match1 per p n)) t).

Lemma tick_pwm_eq t n : timer4_tick_pwm t n = pwm_next t n.
Proof.
  unfold timer4_tick_pwm, pwm_next, match0, match1, phase_after, pwm_latch.
  set (E := timer4_distance _ (timer4_period t)). set (F := timer4_distance _ (t4_count t)).
  set (l := irqlatch t).
  assert (∀ x y, (l .| x) .| y = (l .| y) .| x) as Hlc
    by (intros; rewrite <- !Z.lor_assoc; f_equal; apply Z.lor_comm).
  destruct (E <=? n), ((F <=? n) && (F <=? E)), (t4_count t <=? timer4_period t),
    (t4_count t <=? n - E); simpl; rewrite ?Z.lor_0_r; try done.
  all: do 2 f_equal; try (by rewrite Hlc).
  all: rewrite Hlc; rewrite <- !Z.lor_assoc; f_equal;
    by rewrite Z.lor_assoc, Z.lor_diag.
Qed.

Lemma period_range t : uint 32 (t4_count2 t) → 1 <= timer4_period t < 2 ^ 32.
Proof. intros [H1 H2]. unfold timer4_period. destruct (Z.eqb_spec (t4_count2 t) 0); lia. Qed.

Lemma elapsed_set_value t p l :
  uint 32 p → timer4_elapsed (set_value (t4_count t -w p) (set_latch l t)) = p.
Proof.
  intros Hp. unfold timer4_elapsed. simpl. destruct Hp.
  unfold w32, wrap. Z.to_euclidean_division_equations; lia.
Qed.

Lemma pwm_next_add t a b : wf_timer t → 0 <= a → 0 <= b → a + b < 2 ^ 32 →
  pwm_next (pwm_next t a) b = pwm_next t (a + b).
Proof.
  intros (_ & _ & Hc & Hc2 & _) Ha Hb Hab. pose proof (period_range t Hc2) as Hper.
  assert (uint 32 (timer4_elapsed t)) as Hp by apply uint_w32.
  unfold pwm_next at 1.
  assert (timer4_elapsed (pwm_next t a) = phase_after (timer4_period t) (timer4_elapsed t) a)
    as -> by (apply elapsed_set_value, phase_after_range; (done || lia)).
  change (timer4_period (pwm_next t a)) with (timer4_period t).
  unfold pwm_next. simpl. unfold set_value, set_latch. simpl.
  rewrite (phase_after_add (t4_count t)), pwm_latch_twice by done.
  by rewrite <- match0_add, <- (match1_add (t4_count t)) by done.
Qed.

Lemma pwm_next_zero t : wf_timer t → pwm_next t 0 = t.
Proof.
  intros (_ & _ & Hc & Hc2 & Hv & _). pose proof (period_range t Hc2) as Hper.
  assert (uint 32 (timer4_elapsed t)) as Hp by apply uint_w32.
  unfold pwm_next. rewrite match0_zero, match1_zero, phase_after_zero, pwm_latch_none by done.
  assert (t4_count t -w timer4_elapsed t = t4_value t) as ->; [| by destruct t].
  unfold timer4_elapsed, w32, wrap. destruct Hv.
  Z.to_euclidean_division_equations; lia.
Qed.

(** *** The interval path *)

Lemma interval_add t a b : wf_timer t → 0 < a → 0 < b →
  timer4_tick_interval (timer4_tick_interval t a) b = timer4_tick_interval t (a + b).
Proof.
  intros (_ & _ & Hc & _ & Hv & _) Ha Hb. unfold timer4_tick_interval at 2 3.
  set (P := t4_count t). set (v := if t4_value t =? 0 then P else t4_value t).
  assert (0 <= P) by apply Hc. assert (0 <= v) by (unfold v; destruct Hv, (_ =? 0); lia).
  destruct (Z.eqb_spec v 0) as [E | E].
  { unfold timer4_tick_interval. fold P. fold v. by rewrite E. }
  assert ((irqlatch t .| TIMER4_IRQ_BITS) .| TIMER4_IRQ_BITS = irqlatch t .| TIMER4_IRQ_BITS)
    as Hid by by rewrite <- Z.lor_assoc, Z.lor_diag.
  destruct (Z.ltb_spec a v).
  - unfold timer4_tick_interval. simpl. replace (v - a =? 0) with false by lia.
    cbn iota. replace (v - a =? 0) with false by lia.
    replace (b <? v - a) with (a + b <? v) by lia. fold P.
    destruct (a + b <? v); [unfold set_value; simpl; f_equal; lia |].
    by replace (b - (v - a)) with (a + b - v) by lia.
  - replace (a + b <? v) with false by lia. destruct (Z.eqb_spec P 0) as [E0 | E0].
    { unfold timer4_tick_interval. simpl. fold P. by rewrite E0. }
    set (ph := (a - v) mod P). pose proof (Z.mod_pos_bound (a - v) P ltac:(lia)) as Hph.
    fold ph in Hph.
    assert ((a + b - v) mod P = (ph + b) mod P) as ->.
    { unfold ph. rewrite Zplus_mod_idemp_l. f_equal. lia. }
    unfold timer4_tick_interval. simpl. fold P.
    set (v' := if ph =? 0 then P else P - ph).
    assert (0 < v' <= P) by (unfold v'; destruct (Z.eqb_spec ph 0); lia).
    replace (v' =? 0) with false by lia. cbn iota. replace (v' =? 0) with false by lia.
    unfold set_value, set_latch. simpl. rewrite Hid.
    replace (P =? 0) with false by lia. destruct (Z.ltb_spec b v').
    + f_equal. unfold v' in *. destruct (Z.eqb_spec ph 0) as [e | e].
      * rewrite e, Z.add_0_l, Z.mod_small by lia. by replace (b =? 0) with false by lia.
      * rewrite Z.mod_small by lia. replace (ph + b =? 0) with false by lia. lia.
    + assert ((b - v') mod P = (ph + b) mod P) as ->; [| done].
      unfold v'. destruct (Z.eqb_spec ph 0) as [-> | _].
      * replace (0 + b) with (b - P + 1 * P) by lia. by rewrite Z.mod_add by lia.
      * replace (ph + b) with (b - (P - ph) + 1 * P) by lia. by rewrite Z.mod_add by lia.
Qed.

(** *** Frames *)

Lemma tick_frame t n :
  t4_config (tick t n) = t4_config t ∧ t4_state (tick t n) = t4_state t ∧
  t4_count (tick t n) = t4_count t ∧ t4_count2 (tick t n) = t4_count2 t ∧
  config (tick t n) = config t ∧ ticks (tick t n) = w64 (ticks t + n).
Proof.
  unfold tick, s5l_timer_tick. simpl.
  destruct (_ && _); [| done]. destruct (timer4_pwm _); [by rewrite tick_pwm_eq |].
  unfold timer4_tick_interval. simpl. by repeat case_match.
Qed.

Lemma uint_pwm_latch l a b : uint 32 l → uint 32 (pwm_latch l a b).
Proof. intros. unfold pwm_latch. apply uint_lor; [lia | apply uint_lor; [lia | done |] |];
  case_match; split; by vm_compute. Qed.

Lemma tick_wf t n : wf_timer t → 0 <= n → wf_timer (tick t n).
Proof.
  intros (Ht & Hcf & Hc & Hc2 & Hv & Hl) Hn.
  destruct (tick_frame t n) as (E1 & E2 & E3 & E4 & E5 & E6). unfold wf_timer.
  rewrite E1, E3, E4, E6. refine (conj _ (conj Hcf (conj Hc (conj Hc2 _)))); [apply uint_w64 |].
  unfold tick, s5l_timer_tick. simpl. destruct (_ && _); [| done].
  destruct (timer4_pwm _).
  { rewrite tick_pwm_eq. split; [apply uint_w32 | by apply uint_pwm_latch]. }
  unfold timer4_tick_interval. simpl.
  set (v := if t4_value t =? 0 then _ else _).
  assert (uint 32 v) as Hv' by (unfold v; by destruct (_ =? 0)).
  assert (uint 32 (irqlatch t .| TIMER4_IRQ_BITS)) by (apply uint_lor; [lia | done | split; by vm_compute]).
  destruct (v =? 0); [done |].
  destruct (Z.ltb_spec n v); simpl; [split; [destruct Hv'; split; lia | done] |].
  destruct (Z.eqb_spec (t4_count t) 0); simpl; [split; [by split | done] |].
  split; [| done]. destruct ((n - v) mod t4_count t =? 0); [exact Hc |].
  destruct Hc. pose proof (Z.mod_pos_bound (n - v) (t4_count t)). split; lia.
Qed.

Lemma set_ticks_pwm_next x t n : pwm_next (set_ticks x t) n = set_ticks x (pwm_next t n).
Proof. done. Qed.

Lemma set_ticks_interval x t n :
  timer4_tick_interval (set_ticks x t) n = set_ticks x (timer4_tick_interval t n).
Proof. unfold timer4_tick_interval. simpl. by repeat case_match. Qed.

(** A tick is the counter's advance plus the Timer 4 path. *)
Definition timer4_path (t : s5l_timer) (n : Z) : s5l_timer :=
  if timer4_started t && negb (n =? 0) then
    if timer4_pwm t then pwm_next t n else timer4_tick_interval t n
  else t.

Lemma tick_eq t n : tick t n = set_ticks (w64 (ticks t + n)) (timer4_path t n).
Proof.
  unfold tick, s5l_timer_tick, timer4_path. simpl.
  change (timer4_started (set_ticks _ t)) with (timer4_started t).
  change (timer4_pwm (set_ticks _ t)) with (timer4_pwm t).
  destruct (_ && _); [| done]. rewrite tick_pwm_eq, set_ticks_pwm_next, set_ticks_interval.
  by destruct (timer4_pwm t).
Qed.

Lemma path_frame t n :
  timer4_started (timer4_path t n) = timer4_started t ∧
  timer4_pwm (timer4_path t n) = timer4_pwm t ∧ ticks (timer4_path t n) = ticks t.
Proof.
  unfold timer4_path. destruct (_ && _); [| done]. destruct (timer4_pwm t) eqn:E; [done |].
  unfold timer4_started, timer4_pwm, timer4_tick_interval. by repeat case_match.
Qed.

Lemma path_add t a b : wf_timer t → 0 <= a → 0 <= b → a + b < 2 ^ 32 →
  timer4_path (timer4_path t a) b = timer4_path t (a + b).
Proof.
  intros Hwf Ha Hb Hab. destruct (path_frame t a) as (E1 & E2 & _).
  unfold timer4_path at 1. rewrite E1, E2. unfold timer4_path.
  destruct (timer4_started t); [simpl | done].
  destruct (Z.eqb_spec a 0) as [-> | Hna]; simpl.
  { by rewrite Z.add_0_l. }
  destruct (Z.eqb_spec b 0) as [-> | Hnb]; simpl.
  { rewrite Z.add_0_r. by replace (a =? 0) with false by lia. }
  replace (a + b =? 0) with false by lia. simpl.
  destruct (timer4_pwm t); [by apply pwm_next_add | apply interval_add; (done || lia)].
Qed.

Lemma path_set_ticks x t n : timer4_path (set_ticks x t) n = set_ticks x (timer4_path t n).
Proof.
  unfold timer4_path. change (timer4_started (set_ticks x t)) with (timer4_started t).
  change (timer4_pwm (set_ticks x t)) with (timer4_pwm t).
  destruct (_ && _); [| done]. rewrite set_ticks_pwm_next, set_ticks_interval.
  by destruct (timer4_pwm t).
Qed.

Lemma tick_add t a b : wf_timer t → 0 <= a → 0 <= b → a + b < 2 ^ 32 →
  tick (tick t a) b = tick t (a + b).
Proof.
  intros Hwf Ha Hb Hab. rewrite !tick_eq, path_set_ticks, path_add by done. simpl.
  unfold w64. rewrite wrap_add_l. rewrite <- Z.add_assoc. by destruct (timer4_path t (a + b)).
Qed.

Lemma count_once_eq count period p l :
  uint 32 count → 1 <= period < 2 ^ 32 → uint 32 p →
  count_once count period (p, l) =
  (phase_after period p 1, pwm_latch l (match0 count period p 1) (match1 period p 1)).
Proof.
  intros Hc Hper Hp. unfold count_once.
  destruct (distance_range p period Hp) as (HE & HE1 & HE2); [split; lia |].
  destruct (distance_range p count Hp Hc) as (HF & HF1 & HF2).
  destruct Hp, Hc.
  assert ((p +w 1 =? period) = (timer4_distance p period <=? 1)) as EP.
  { destruct (phase_add p 1); [split; lia | lia | |]; lia. }
  assert ((p +w 1 =? count) = (timer4_distance p count <=? 1)) as EC.
  { destruct (phase_add p 1); [split; lia | lia | |]; lia. }
  unfold match0, match1, phase_after, pwm_latch. rewrite EP, EC.
  destruct (Z.leb_spec (timer4_distance p period) 1) as [Hle1 | Hgt1].
  - replace (1 - timer4_distance p period) with 0 by lia. rewrite Z.mod_0_l by lia.
    f_equal.
    destruct (Z.leb_spec (timer4_distance p count) 1).
    + replace (timer4_distance p count <=? timer4_distance p period) with true by lia. simpl.
      destruct (Z.eqb_spec count 0); [| done]. rewrite <- !Z.lor_assoc. f_equal.
    + replace (timer4_distance p count <=? timer4_distance p period) with false by lia. simpl.
      destruct (Z.eqb_spec count 0) as [-> | Hne].
      * replace (0 <=? period) with true by lia. simpl.
        rewrite <- !Z.lor_assoc. f_equal.
      * replace ((count <=? period) && (count <=? 0)) with false by lia.
        by rewrite Z.lor_0_r.
  - rewrite ?andb_false_l, ?orb_false_r, Z.lor_0_r. f_equal.
    destruct (Z.leb_spec (timer4_distance p count) 1); simpl; [| by rewrite Z.lor_0_r].
    by replace (timer4_distance p count <=? timer4_distance p period) with true by lia.
Qed.

(** The PWM counter after a tick. *)
Lemma tick_counter t n : wf_timer t → timer4_started t = true → timer4_pwm t = true →
  0 < n < 2 ^ 32 →
  (timer4_elapsed (tick t n), irqlatch (tick t n)) =
  (phase_after (timer4_period t) (timer4_elapsed t) n,
   pwm_latch (irqlatch t) (match0 (t4_count t) (timer4_period t) (timer4_elapsed t) n)
     (match1 (timer4_period t) (timer4_elapsed t) n)).
Proof.
  intros Hwf Hst Hpwm Hn. rewrite tick_eq. unfold timer4_path. rewrite Hst, Hpwm.
  replace (n =? 0) with false by lia. simpl. f_equal.
  change (timer4_elapsed (set_ticks _ (pwm_next t n))) with (timer4_elapsed (pwm_next t n)).
  destruct Hwf as (_ & _ & _ & Hc2 & _).
  apply elapsed_set_value, phase_after_range;
    [by apply period_range | apply uint_w32 | lia].
Qed.

(** advancing Timer 4 in one call or in several is the same, in both modes and
    with the counter wrapping, the period crossed any number of times, and the
    latches accumulating: no interrupt edge depends on how the caller slices time. *)
Theorem timer_tick_additive t a b :
  wf_timer t → 0 <= a → 0 <= b → a + b < 2 ^ 32 →
  tick (tick t a) b = tick t (a + b) ∧ s5l_timer_tick (tick t a) b = s5l_timer_tick t (a + b).
Proof.
  intros Hwf Ha Hb Hab. pose proof (tick_add t a b Hwf Ha Hb Hab) as E. split; [done |].
  assert (∀ t n, s5l_timer_tick t n = (timer_line (tick t n), tick t n)) as Hs by done.
  by rewrite !Hs, E.
Qed.

(** the modular arithmetic of a PWM tick computes the counter.  [k] ticks at
    once leave the elapsed count and the match latches that [k] single steps of the
    up-counter leave (compare on becoming equal, reset on the period), and advance
    the free-running counter by [k]. *)
Theorem timer_tick_reference t k :
  wf_timer t → timer4_started t = true → timer4_pwm t = true → Z.of_nat k < 2 ^ 32 →
  let t' := tick t (Z.of_nat k) in
  (timer4_elapsed t', irqlatch t') =
    Nat.iter k (count_once (t4_count t) (timer4_period t)) (timer4_elapsed t, irqlatch t) ∧
  ticks t' = w64 (ticks t + Z.of_nat k).
Proof.
  intros Hwf Hst Hpwm Hk. split; [| by apply tick_frame].
  induction k as [| k IH].
  { rewrite tick_eq. unfold timer4_path. rewrite andb_false_r. done. }
  replace (Z.of_nat (S k)) with (Z.of_nat k + 1) by lia.
  rewrite <- tick_add by (done || lia). rewrite Nat.iter_succ, <- IH by lia.
  destruct (tick_frame t (Z.of_nat k)) as (E1 & E2 & E3 & E4 & _).
  assert (timer4_started (tick t (Z.of_nat k)) = true)
    by (unfold timer4_started in *; by rewrite E2).
  assert (timer4_pwm (tick t (Z.of_nat k)) = true) by (unfold timer4_pwm in *; by rewrite E1).
  assert (timer4_period (tick t (Z.of_nat k)) = timer4_period t) as EP
    by (unfold timer4_period; by rewrite E4).
  pose proof (tick_wf t (Z.of_nat k) Hwf ltac:(lia)) as Hwf'.
  rewrite tick_counter, EP, E3 by (done || lia).
  rewrite count_once_eq; [done | apply Hwf | apply period_range, Hwf | apply uint_w32].
Qed.

(** ** The distance to the next edge *)

(** The PWM interrupt line: a latched match drives it when enabled. *)
Lemma pwm_line t : timer4_pwm t = true →
  timer_line t = (bit (irqlatch t) 16 && bit (t4_config t) 12) ||
                 (bit (irqlatch t) 17 && bit (t4_config t) 13).
Proof.
  intros Hp. unfold timer_line. rewrite Hp. set (x := irqlatch t .& _).
  assert (∀ i, 0 <= i < 28 → Z.testbit x (i + 4) = bit (irqlatch t) (i + 4) && bit (t4_config t) i)
    as Hx.
  { intros i Hi. unfold x, bit. autorewrite with bitspec.
    replace (i + 4 <? 32) with true by lia. by replace (i + 4 - 4) with i by lia. }
  pose proof (Hx 12 ltac:(lia)) as H12. pose proof (Hx 13 ltac:(lia)) as H13.
  change (12 + 4) with 16 in H12. change (13 + 4) with 17 in H13. rewrite <- H12, <- H13.
  change TIMER4_IRQ_BITS with (2 ^ 16 .| 2 ^ 17).
  rewrite Z.land_lor_distr_r.
  destruct (Z.testbit x 16) eqn:E16, (Z.testbit x 17) eqn:E17; simpl.
  4: { replace (x .& 2 ^ 16) with 0; [replace (x .& 2 ^ 17) with 0; [done |] |].
       all: symmetry; apply Z.eqb_eq; rewrite land_bit_zero by lia; unfold bit.
       - by rewrite E17. - by rewrite E16. }
  all: apply negb_true_iff, Z.eqb_neq; intros H; apply Z.lor_eq_0_iff in H as [H1 H2];
    apply Z.eqb_eq in H1, H2; rewrite land_bit_zero in H1, H2 by lia; unfold bit in H1, H2.
  - by rewrite E16 in H1.
  - by rewrite E16 in H1.
  - by rewrite E17 in H2.
Qed.

Lemma pwm_latch_bits l a b :
  bit (pwm_latch l a b) 16 = bit l 16 || a ∧ bit (pwm_latch l a b) 17 = bit l 17 || b.
Proof.
  unfold pwm_latch, bit. rewrite !Z.lor_spec. by destruct a, b; rewrite ?orb_false_r, ?orb_true_r.
Qed.

(** The next enabled match, [None] when none is scheduled. *)
Definition next_match (e0 e1 : bool) (count period p : Z) : option Z :=
  let E := timer4_distance p period in
  let F := timer4_distance p count in
  let next := if e1 then Some E else None in
  if e0 then
    let next := if F <=? E then opt_min next F else next in
    if count <=? period then opt_min next (E + count) else next
  else next.

Lemma ticks_to_irq_pwm t : timer4_started t = true → timer4_pwm t = true →
  s5l_timer_ticks_to_irq t =
  match next_match (bit (t4_config t) 12) (bit (t4_config t) 13) (t4_count t)
          (timer4_period t) (timer4_elapsed t) with
  | None => 0
  | Some n => if UINT32_MAX <? n then UINT32_MAX else n
  end.
Proof.
  intros Hst Hp. unfold s5l_timer_ticks_to_irq, next_match. rewrite Hst, Hp.
  cbn [negb]. change TIMER4_INT1_EN with (2 ^ 13). change TIMER4_INT0_EN with (2 ^ 12).
  rewrite !land_bit_zero by lia.
  by destruct (bit (t4_config t) 12), (bit (t4_config t) 13).
Qed.

Lemma next_match_spec e0 e1 count period p k :
  uint 32 count → 1 <= period < 2 ^ 32 → uint 32 p → 0 < k →
  (match0 count period p k && e0) || (match1 period p k && e1) =
  match next_match e0 e1 count period p with Some n => n <=? k | None => false end ∧
  match next_match e0 e1 count period p with Some n => 0 < n | None => True end.
Proof.
  intros Hc Hper Hp Hk. unfold match0, match1, next_match, opt_min.
  destruct (distance_range p period Hp) as (HE & _); [split; lia |].
  destruct (distance_range p count Hp Hc) as (HF & _). destruct Hc.
  set (E := timer4_distance p period) in *. set (F := timer4_distance p count) in *.
  destruct (Z.leb_spec F E), (Z.leb_spec count period), e0, e1; cbv iota beta;
    repeat case_match; simplify_eq; lia.
Qed.

(** A latched match after [k] ticks, with the line low before. *)
Lemma pwm_line_after t k :
  wf_timer t → timer4_started t = true → timer4_pwm t = true → timer_line t = false →
  0 < k < 2 ^ 32 →
  timer_line (tick t k) =
  (match0 (t4_count t) (timer4_period t) (timer4_elapsed t) k && bit (t4_config t) 12) ||
  (match1 (timer4_period t) (timer4_elapsed t) k && bit (t4_config t) 13).
Proof.
  intros Hwf Hst Hp Hl Hk. destruct (tick_frame t k) as (E1 & _).
  rewrite pwm_line in Hl by done.
  rewrite pwm_line by (unfold timer4_pwm in *; by rewrite E1). rewrite E1.
  pose proof (tick_counter t k Hwf Hst Hp Hk) as Ht. apply (f_equal snd) in Ht. simpl in Ht.
  rewrite Ht. destruct (pwm_latch_bits (irqlatch t)
    (match0 (t4_count t) (timer4_period t) (timer4_elapsed t) k)
    (match1 (timer4_period t) (timer4_elapsed t) k)) as [-> ->].
  apply orb_false_iff in Hl as [Hl0 Hl1].
  destruct (match0 _ _ _ _), (match1 _ _ _), (bit (irqlatch t) 16), (bit (irqlatch t) 17), (bit (t4_config t) 12),
    (bit (t4_config t) 13); simpl in *; done.
Qed.

(** C7: the wait-for-interrupt fast-forward is exact.  With Timer 4 running and its
    line low, [s5l_timer_ticks_to_irq] is the number of ticks to the next interrupt:
    no smaller advance raises the line, zero means no advance does, and (below the
    saturation value [UINT32_MAX]) that advance and any longer one does. *)
Theorem ticks_to_irq_exact t k :
  wf_timer t → timer4_started t = true → timer_line t = false → 0 < k < 2 ^ 32 →
  let n := s5l_timer_ticks_to_irq t in
  (k < n ∨ n = 0 → timer_line (tick t k) = false) ∧
  (0 < n <= k → n < UINT32_MAX → timer_line (tick t k) = true).
Proof.
  intros Hwf Hst Hl Hk. destruct (timer4_pwm t) eqn:Hp.
  - rewrite ticks_to_irq_pwm, pwm_line_after by done.
    destruct (next_match_spec (bit (t4_config t) 12) (bit (t4_config t) 13) (t4_count t)
      (timer4_period t) (timer4_elapsed t) k) as [-> Hpos];
      [apply Hwf | apply period_range, Hwf | apply uint_w32 | lia |].
    unfold UINT32_MAX. destruct (next_match _ _ _ _ _) as [n |]; [| lia].
    destruct (Z.ltb_spec 0xffffffff n); split; intros; lia.
  - unfold s5l_timer_ticks_to_irq. rewrite Hst, Hp. cbn [negb].
    destruct (tick_frame t k) as (E1 & _).
    assert (irqlatch t = 0) as Hz.
    { unfold timer_line in Hl. rewrite Hp in Hl. by apply negb_false_iff, Z.eqb_eq in Hl. }
    assert (timer_line (tick t k) = negb (irqlatch (tick t k) =? 0)) as ->.
    { unfold timer_line, timer4_pwm in *. by rewrite E1, Hp. }
    rewrite tick_eq. unfold timer4_path. rewrite Hst, Hp.
    replace (k =? 0) with false by lia. simpl. unfold timer4_tick_interval.
    set (v := if t4_value t =? 0 then t4_count t else t4_value t).
    assert (0 <= v) by (destruct Hwf as (_ & _ & [] & _ & [] & _); unfold v; by destruct (_ =? 0)).
    destruct (Z.eqb_spec v 0) as [Ev | Ev]; [rewrite Hz; split; simpl; (done || lia) |].
    destruct (Z.ltb_spec k v); [simpl; rewrite Hz; split; simpl; (done || lia) |].
    split; [lia |]. intros _ _. destruct (t4_count t =? 0); simpl; by rewrite Hz.
Qed.

(** ** Concrete inputs *)

(** PWM mode, match 0 enabled, deadline 100, period 2^32 - 1, counter at 7. *)
Definition demo_timer : s5l_timer :=
  MkTimer 0 0 (TIMER4_MODE_PWM .| TIMER4_INT0_EN) TIMER4_STATE_START 100 0xffffffff 93 0.

Lemma demo_timer_wf : wf_timer demo_timer.
Proof. repeat split; by vm_compute. Qed.

Lemma timer_tick_additive_witness :
  tick (tick demo_timer 50) 60 = tick demo_timer 110 ∧
  s5l_timer_tick (tick demo_timer 50) 60 = s5l_timer_tick demo_timer 110.
Proof. apply (timer_tick_additive demo_timer 50 60); [apply demo_timer_wf | lia ..]. Defined.

Lemma timer_tick_reference_witness :
  (timer4_elapsed (tick demo_timer 93), irqlatch (tick demo_timer 93)) =
    Nat.iter 93 (count_once 100 0xffffffff) (7, 0) ∧
  timer4_elapsed (tick demo_timer 93) = 100.
Proof.
  split; [| reflexivity].
  destruct (timer_tick_reference demo_timer 93) as [E _];
    [apply demo_timer_wf | reflexivity | reflexivity | reflexivity | exact E].
Defined.

Lemma ticks_to_irq_exact_witness :
  s5l_timer_ticks_to_irq demo_timer = 93 ∧ timer_line (tick demo_timer 92) = false ∧
  timer_line (tick demo_timer 93) = true.
Proof.
  split; [reflexivity |]. split.
  - apply (ticks_to_irq_exact demo_timer 92);
      [apply demo_timer_wf | reflexivity | reflexivity | lia | left; reflexivity].
  - apply (ticks_to_irq_exact demo_timer 93);
      [apply demo_timer_wf | reflexivity | reflexivity | lia | | reflexivity].
    split; [reflexivity | discriminate].
Defined.
