(* ===== verification/Pl080.v ===== *)
(** * The DMA controllers

    [core/src/soc/pl080.c]: the registers of a PL080, its interrupt line, and the engine
    that runs from the machine's tick: linked-list items moved over the system bus, with
    width conversion, peripheral pacing and a bound on the chain.  The bus is any
    instance of [Bus]; the request lines are a parameter of the engine. *)

From S2P Require Import Prelude State Cpu Bus.

Definition S5L_PL080_CHANNELS := 8.
Definition S5L_PL080_UNKNOWN_OFF := 8.
Definition S5L_PL080_MAX_ITEMS := 1024.
Definition PL080_INTSTATUS := 0x000.
Definition PL080_INTTCSTATUS := 0x004.
Definition PL080_INTTCCLEAR := 0x008.
Definition PL080_INTERRSTATUS := 0x00c.
Definition PL080_INTERRCLEAR := 0x010.
Definition PL080_RAWINTTCSTATUS := 0x014.
Definition PL080_RAWINTERRSTATUS := 0x018.
Definition PL080_ENBLDCHNS := 0x01c.
Definition PL080_SOFTBREQ := 0x020.
Definition PL080_SOFTSREQ := 0x024.
Definition PL080_SOFTLBREQ := 0x028.
Definition PL080_SOFTLSREQ := 0x02c.
Definition PL080_CONFIG := 0x030.
Definition PL080_SYNC := 0x034.
Definition PL080_CHAN_BASE := 0x100.
Definition PL080_CHAN_STRIDE := 0x020.
Definition PL080_CH_SRC := 0x00.
Definition PL080_CH_DST := 0x04.
Definition PL080_CH_LLI := 0x08.
Definition PL080_CH_CTRL := 0x0c.
Definition PL080_CH_CFG := 0x10.
Definition PL080_CONFIG_EN := 0x00000001.
Definition PL080_CONFIG_ENDIAN := 0x00000006.
Definition PL080_CFG_EN := 0x00000001.
Definition PL080_CFG_FLOW_SHIFT := 11.
Definition PL080_CFG_FLOW_MASK := 0x00003800.
Definition PL080_CFG_IE := 0x00004000.
Definition PL080_CFG_ITC := 0x00008000.
Definition PL080_CFG_ACTIVE := 0x00020000.
Definition PL080_CFG_HALT := 0x00040000.
Definition PL080_CTRL_SIZE_MASK := 0x00000fff.
Definition PL080_CTRL_SWIDTH_SHIFT := 18.
Definition PL080_CTRL_DWIDTH_SHIFT := 21.
Definition PL080_CTRL_WIDTH_MASK := 7.
Definition PL080_CTRL_SI := 0x04000000.
Definition PL080_CTRL_DI := 0x08000000.
Definition PL080_CTRL_I := 0x80000000.

Record pl080_chan := MkPlChan {
  ch_src : Z; ch_dst : Z; ch_lli : Z; ch_ctrl : Z; ch_cfg : Z; ch_runs : Z; ch_bytes : Z }.

(** The counters of [s5l_pl080_t]. *)
Inductive pl080_stat :=
  | pl_reads | pl_writes | pl_unknown_reads | pl_unknown_writes | pl_transfers | pl_bytes_moved
  | pl_items | pl_completions | pl_refused_flow | pl_refused_width | pl_refused_chain
  | pl_refused_softreq | pl_refused_endian | pl_config_writes.
#[export] Instance pl080_stat_eq_dec : EqDecision pl080_stat.
Proof. solve_decision. Defined.

Record s5l_pl080 := MkPl080 {
  pl_ch : Z → pl080_chan; pl_config : Z; pl_sync : Z; raw_tc : Z; raw_err : Z;
  pl_stats : pl080_stat → Z; unknown_off : list Z; config_first : Z }.

(** ** Assignments *)

Definition c_src (v : Z) (c : pl080_chan) : pl080_chan :=
  MkPlChan v (ch_dst c) (ch_lli c) (ch_ctrl c) (ch_cfg c) (ch_runs c) (ch_bytes c).
Definition c_dst (v : Z) (c : pl080_chan) : pl080_chan :=
  MkPlChan (ch_src c) v (ch_lli c) (ch_ctrl c) (ch_cfg c) (ch_runs c) (ch_bytes c).
Definition c_lli (v : Z) (c : pl080_chan) : pl080_chan :=
  MkPlChan (ch_src c) (ch_dst c) v (ch_ctrl c) (ch_cfg c) (ch_runs c) (ch_bytes c).
Definition c_ctrl (v : Z) (c : pl080_chan) : pl080_chan :=
  MkPlChan (ch_src c) (ch_dst c) (ch_lli c) v (ch_cfg c) (ch_runs c) (ch_bytes c).
Definition c_cfg (v : Z) (c : pl080_chan) : pl080_chan :=
  MkPlChan (ch_src c) (ch_dst c) (ch_lli c) (ch_ctrl c) v (ch_runs c) (ch_bytes c).
Definition c_runs (v : Z) (c : pl080_chan) : pl080_chan :=
  MkPlChan (ch_src c) (ch_dst c) (ch_lli c) (ch_ctrl c) (ch_cfg c) v (ch_bytes c).
Definition c_bytes (v : Z) (c : pl080_chan) : pl080_chan :=
  MkPlChan (ch_src c) (ch_dst c) (ch_lli c) (ch_ctrl c) (ch_cfg c) (ch_runs c) v.

Definition d_ch (c : Z) (f : pl080_chan → pl080_chan) (d : s5l_pl080) : s5l_pl080 :=
  MkPl080 (<[c := f (pl_ch d c)]> (pl_ch d)) (pl_config d) (pl_sync d) (raw_tc d) (raw_err d)
    (pl_stats d) (unknown_off d) (config_first d).
Definition d_config (v : Z) (d : s5l_pl080) : s5l_pl080 :=
  MkPl080 (pl_ch d) v (pl_sync d) (raw_tc d) (raw_err d) (pl_stats d) (unknown_off d) (config_first d).
Definition d_sync (v : Z) (d : s5l_pl080) : s5l_pl080 :=
  MkPl080 (pl_ch d) (pl_config d) v (raw_tc d) (raw_err d) (pl_stats d) (unknown_off d) (config_first d).
Definition d_raw_tc (v : Z) (d : s5l_pl080) : s5l_pl080 :=
  MkPl080 (pl_ch d) (pl_config d) (pl_sync d) v (raw_err d) (pl_stats d) (unknown_off d) (config_first d).
Definition d_raw_err (v : Z) (d : s5l_pl080) : s5l_pl080 :=
  MkPl080 (pl_ch d) (pl_config d) (pl_sync d) (raw_tc d) v (pl_stats d) (unknown_off d) (config_first d).
Definition d_unknown_off (v : list Z) (d : s5l_pl080) : s5l_pl080 :=
  MkPl080 (pl_ch d) (pl_config d) (pl_sync d) (raw_tc d) (raw_err d) (pl_stats d) v (config_first d).
Definition d_config_first (v : Z) (d : s5l_pl080) : s5l_pl080 :=
  MkPl080 (pl_ch d) (pl_config d) (pl_sync d) (raw_tc d) (raw_err d) (pl_stats d) (unknown_off d) v.
(** [d->s += n]. *)
Definition pl_count (s : pl080_stat) (n : Z) (d : s5l_pl080) : s5l_pl080 :=
  MkPl080 (pl_ch d) (pl_config d) (pl_sync d) (raw_tc d) (raw_err d)
    (<[s := w64 (pl_stats d s + n)]> (pl_stats d)) (unknown_off d) (config_first d).

Definition s5l_pl080_reset : s5l_pl080 :=
  MkPl080 (fun _ => MkPlChan 0 0 0 0 0 0 0) 0 0 0 0 (fun _ => 0) [] 0.

(** ** Registers *)

Definition pl_note_unknown (off : Z) (d : s5l_pl080) : s5l_pl080 :=
  if bool_decide (off ∈ unknown_off d) then d
  else if Z.of_nat (length (unknown_off d)) <? S5L_PL080_UNKNOWN_OFF
       then d_unknown_off (unknown_off d ++ [off]) d else d.

(** The channel and register of an offset; [None] is -1. *)
Definition chan_of (off : Z) : option (Z * Z) :=
  if off <? PL080_CHAN_BASE then None else
  let rel := off - PL080_CHAN_BASE in
  let idx := rel / PL080_CHAN_STRIDE in
  if S5L_PL080_CHANNELS <=? idx then None else
  let r := rel mod PL080_CHAN_STRIDE in
  if PL080_CH_CFG <? r then None else Some (idx, r).

Definition cfg_has (c : pl080_chan) (m : Z) : bool := negb (ch_cfg c .& m =? 0).

Definition collect (f : Z → bool) : Z :=
  for_range 8 0 (fun i v => if f i then v .| (1 .<< i) else v) 0.
Definition masked_tc (d : s5l_pl080) : Z :=
  collect (fun i => bit (raw_tc d) i && cfg_has (pl_ch d i) PL080_CFG_ITC).
Definition masked_err (d : s5l_pl080) : Z :=
  collect (fun i => bit (raw_err d) i && cfg_has (pl_ch d i) PL080_CFG_IE).
Definition enabled_chans (d : s5l_pl080) : Z :=
  collect (fun i => cfg_has (pl_ch d i) PL080_CFG_EN).

Definition s5l_pl080_irq (d : s5l_pl080) : bool := negb ((masked_tc d .| masked_err d) =? 0).

Definition pl_global_read (off : Z) (d : s5l_pl080) : Z * s5l_pl080 :=
  if off =? PL080_INTSTATUS then (masked_tc d .| masked_err d, d)
  else if off =? PL080_INTTCSTATUS then (masked_tc d, d)
  else if off =? PL080_INTERRSTATUS then (masked_err d, d)
  else if off =? PL080_RAWINTTCSTATUS then (raw_tc d, d)
  else if off =? PL080_RAWINTERRSTATUS then (raw_err d, d)
  else if off =? PL080_ENBLDCHNS then (enabled_chans d, d)
  else if off =? PL080_CONFIG then (pl_config d, d)
  else if off =? PL080_SYNC then (pl_sync d, d)
  else (0, pl_note_unknown off (pl_count pl_unknown_reads 1 d)).

Definition s5l_pl080_read (d : s5l_pl080) (off : Z) : Z * s5l_pl080 :=
  let d := pl_count pl_reads 1 d in
  match chan_of off with
  | Some (c, r) =>
    if r =? PL080_CH_SRC then (ch_src (pl_ch d c), d)
    else if r =? PL080_CH_DST then (ch_dst (pl_ch d c), d)
    else if r =? PL080_CH_LLI then (ch_lli (pl_ch d c), d)
    else if r =? PL080_CH_CTRL then (ch_ctrl (pl_ch d c), d)
    else if r =? PL080_CH_CFG then (ch_cfg (pl_ch d c) .& wnot PL080_CFG_ACTIVE, d)
    else pl_global_read off d
  | None => pl_global_read off d
  end.

Definition pl_global_write (off val : Z) (d : s5l_pl080) : s5l_pl080 :=
  if off =? PL080_INTTCCLEAR then d_raw_tc (raw_tc d .& wnot val) d
  else if off =? PL080_INTERRCLEAR then d_raw_err (raw_err d .& wnot val) d
  else if off =? PL080_CONFIG then
    let d := if val .& PL080_CONFIG_ENDIAN =? 0 then d else pl_count pl_refused_endian 1 d in
    let d := if pl_stats d pl_config_writes =? 0 then d_config_first val d else d in
    d_config val (pl_count pl_config_writes 1 d)
  else if off =? PL080_SYNC then d_sync val d
  else if (off =? PL080_SOFTBREQ) || (off =? PL080_SOFTSREQ) || (off =? PL080_SOFTLBREQ)
          || (off =? PL080_SOFTLSREQ) then pl_count pl_refused_softreq 1 d
  else pl_note_unknown off (pl_count pl_unknown_writes 1 d).

Definition s5l_pl080_write (d : s5l_pl080) (off val : Z) : s5l_pl080 :=
  let d := pl_count pl_writes 1 d in
  match chan_of off with
  | Some (c, r) =>
    if r =? PL080_CH_SRC then d_ch c (c_src val) d
    else if r =? PL080_CH_DST then d_ch c (c_dst val) d
    else if r =? PL080_CH_LLI then d_ch c (c_lli val) d
    else if r =? PL080_CH_CTRL then d_ch c (c_ctrl val) d
    else if r =? PL080_CH_CFG then d_ch c (c_cfg (val .& wnot PL080_CFG_ACTIVE)) d
    else pl_global_write off val d
  | None => pl_global_write off val d
  end.

(** ** The engine *)

Section Engine.
Context {B : Type} `{Bus B}.
(** [ready] with its context, which is the machine behind the bus: the address, the
    width, whether it is the source that is asked. *)
Context (ready : option (B → Z → Z → bool → bool * B)).

(** The staging of one item: bytes read and not yet delivered, low address first. *)
Record staging := MkStaging { stage : Z; stage_bytes : Z }.

Definition endpoint (asked : bool) (b : B) (addr width : Z) (source : bool) : bool * B :=
  match ready with
  | Some f => if asked then f b addr width source else (true, b)
  | None => (true, b)
  end.

(** [while (pend_bytes >= dwidth)]: the staged bytes at destination width. *)
Fixpoint drain (fuel : nat) (c dwidth : Z) (di : bool) (s : staging) (d : s5l_pl080) (b : B)
    : staging * s5l_pl080 * B :=
  match fuel with
  | O => (s, d, b)
  | S fuel =>
    if stage_bytes s <? dwidth then (s, d, b) else
    let dst := ch_dst (pl_ch d c) in
    let b := bus_write dwidth b dst (stage s .& (2 ^ (8 * dwidth) - 1)) in
    let d := if di then d_ch c (c_dst (dst +w dwidth)) d else d in
    let s := MkStaging (stage s .>> (8 * dwidth)) (stage_bytes s - dwidth) in
    let d := pl_count pl_bytes_moved dwidth d in
    let d := d_ch c (fun ch => c_bytes (w64 (ch_bytes ch + dwidth)) ch) d in
    drain fuel c dwidth di s d b
  end.

(** One source transfer, and what it lets out at the other end. *)
Definition transfer (c swidth dwidth : Z) (si di : bool) (left_ : Z) (s : staging) (d : s5l_pl080) (b : B)
    : staging * s5l_pl080 * B :=
  let src := ch_src (pl_ch d c) in
  let '(v, b) := bus_read swidth b src in
  let s := MkStaging (stage s .| w64 (Z.shiftl v (8 * stage_bytes s))) (stage_bytes s + swidth) in
  let d := if si then d_ch c (c_src (src +w swidth)) d else d in
  let d := d_ch c (fun ch => c_ctrl ((ch_ctrl ch .& wnot PL080_CTRL_SIZE_MASK) .| left_) ch) d in
  let d := pl_count pl_transfers 1 d in
  drain (Z.to_nat (stage_bytes s)) c dwidth di s d b.

(** [while (n)]; the boolean tells a stall. *)
Fixpoint transfers (n : nat) (c swidth dwidth flow : Z) (si di : bool) (s : staging) (d : s5l_pl080) (b : B)
    : bool * s5l_pl080 * B :=
  match n with
  | O => (false, d, b)
  | S n =>
    let '(go, b) :=
      if stage_bytes s =? 0 then
        let '(source_ready, b) := endpoint (2 <=? flow) b (ch_src (pl_ch d c)) swidth true in
        let '(destination_ready, b) := endpoint (bit flow 0) b (ch_dst (pl_ch d c)) dwidth false in
        (source_ready && destination_ready, b)
      else (true, b) in
    if negb go then (true, d, b) else
    let '(s, d, b) := transfer c swidth dwidth si di (Z.of_nat n) s d b in
    transfers n c swidth dwidth flow si di s d b
  end.

Definition disable (c : Z) (d : s5l_pl080) : s5l_pl080 :=
  d_ch c (fun ch => c_cfg (ch_cfg ch .& wnot PL080_CFG_EN) ch) d.

(** The end of an item: its count and the terminal-count status. *)
Definition complete_item (c : Z) (d : s5l_pl080) : s5l_pl080 :=
  let d := pl_count pl_items 1 d in
  let d := d_ch c (fun ch => c_runs (w64 (ch_runs ch + 1)) ch) d in
  if ch_ctrl (pl_ch d c) .& PL080_CTRL_I =? 0 then d
  else pl_count pl_completions 1 (d_raw_tc (raw_tc d .| (1 .<< c)) d).

(** And the next item of the list, if there is one. *)
Definition finish_item (c : Z) (d : s5l_pl080) (b : B) : bool * s5l_pl080 * B :=
  let d := complete_item c d in
  if ch_lli (pl_ch d c) =? 0 then (false, disable c d, b) else
  let at_ := ch_lli (pl_ch d c) .& wnot 3 in
  let '(src, b) := read32 b at_ in
  let d := d_ch c (c_src src) d in
  let '(dst, b) := read32 b (at_ +w 4) in
  let d := d_ch c (c_dst dst) d in
  let '(lli, b) := read32 b (at_ +w 8) in
  let d := d_ch c (c_lli lli) d in
  let '(ctrl, b) := read32 b (at_ +w 12) in
  (true, d_ch c (c_ctrl ctrl) d, b).

(** Returns whether the channel continues. *)
Definition run_item (c : Z) (d : s5l_pl080) (b : B) : bool * s5l_pl080 * B :=
  let ch := pl_ch d c in
  let sw := fld (ch_ctrl ch) PL080_CTRL_SWIDTH_SHIFT PL080_CTRL_WIDTH_MASK in
  let dw := fld (ch_ctrl ch) PL080_CTRL_DWIDTH_SHIFT PL080_CTRL_WIDTH_MASK in
  if (2 <? sw) || (2 <? dw) then (false, disable c (pl_count pl_refused_width 1 d), b) else
  let swidth := 1 .<< sw in
  let dwidth := 1 .<< dw in
  let flow := (ch_cfg ch .& PL080_CFG_FLOW_MASK) .>> PL080_CFG_FLOW_SHIFT in
  if 3 <? flow then (false, disable c (pl_count pl_refused_flow 1 d), b) else
  let si := negb (ch_ctrl ch .& PL080_CTRL_SI =? 0) in
  let di := negb (ch_ctrl ch .& PL080_CTRL_DI =? 0) in
  let n := ch_ctrl ch .& PL080_CTRL_SIZE_MASK in
  if negb ((n * swidth) mod dwidth =? 0) then (false, disable c (pl_count pl_refused_width 1 d), b) else
  let '(stalled, d, b) := transfers (Z.to_nat n) c swidth dwidth flow si di (MkStaging 0 0) d b in
  if stalled then (false, d, b) else finish_item c d b.

(** A channel's chain, at most [fuel] items of it. *)
Fixpoint run_chain (fuel : nat) (c : Z) (d : s5l_pl080) (b : B) : s5l_pl080 * B :=
  match fuel with
  | O => (disable c (pl_count pl_refused_chain 1 d), b)
  | S fuel =>
    let '(more, d, b) := run_item c d b in
    if more then run_chain fuel c d b else (d, b)
  end.

Definition run_channel (c : Z) (db : s5l_pl080 * B) : s5l_pl080 * B :=
  let '(d, b) := db in
  if ch_cfg (pl_ch d c) .& (PL080_CFG_EN .| PL080_CFG_HALT) =? PL080_CFG_EN
  then run_chain (Z.to_nat S5L_PL080_MAX_ITEMS) c d b else (d, b).

Definition s5l_pl080_run (d : s5l_pl080) (b : B) : bool * s5l_pl080 * B :=
  if pl_config d .& PL080_CONFIG_EN =? 0 then (s5l_pl080_irq d, d, b) else
  let '(d, b) := for_range 8 0 run_channel (d, b) in
  (s5l_pl080_irq d, d, b).
End Engine.
