(* ===== verification/Pl080Facts.v ===== *)
(** * What the DMA controllers guarantee

    The interrupt line and its acknowledgement; a channel that is stalled by a request
    line loses nothing, whatever the lines' own effects on the machine ([request_lines],
    instantiated in DmaRequest.v); an item is a copy, whatever the two widths. *)

From S2P Require Import Prelude Bits State Cpu Bus Bytes Pl080.

(** ** The interrupt line *)

Lemma collect_bits f j : 0 <= j → bit (collect f) j = (j <? 8) && f j.
Proof.
  intros Hj.
  assert (∀ k lo v, 0 <= lo → lo + Z.of_nat k <= 32 →
    bit (for_range k lo (fun i v => if f i then v .| (1 .<< i) else v) v) j
      = bit v j || ((lo <=? j) && (j <? lo + Z.of_nat k) && f j)) as Hk.
  { induction k as [| k IH]; intros lo v Hlo Hhi; cbn [for_range].
    - destruct (Z.leb_spec lo j), (Z.ltb_spec j (lo + Z.of_nat 0)); simpl; try lia; by rewrite orb_false_r.
    - rewrite IH by lia. destruct (f lo) eqn:E.
      + rewrite bit_lor_pow by lia. destruct (Z.eqb_spec j lo) as [-> | Hne].
        * rewrite E. destruct (bit v lo), (Z.leb_spec lo lo), (Z.ltb_spec lo (lo + Z.of_nat (S k))); simpl; try lia; done.
        * rewrite orb_false_r. f_equal. f_equal.
          destruct (Z.leb_spec (lo + 1) j), (Z.leb_spec lo j), (Z.ltb_spec j (lo + 1 + Z.of_nat k)),
            (Z.ltb_spec j (lo + Z.of_nat (S k))); simpl; lia || done.
      + f_equal. destruct (decide (j = lo)) as [-> | Hne]; [by rewrite E, !andb_false_r |]. f_equal.
        destruct (Z.leb_spec (lo + 1) j), (Z.leb_spec lo j), (Z.ltb_spec j (lo + 1 + Z.of_nat k)),
          (Z.ltb_spec j (lo + Z.of_nat (S k))); simpl; lia || done. }
  unfold collect. rewrite Hk by lia. unfold bit at 1. rewrite Z.testbit_0_l. cbn [orb].
  by rewrite (proj2 (Z.leb_le 0 j)) by done.
Qed.

Lemma collect_nonneg f : 0 <= collect f.
Proof.
  unfold collect. apply (for_range_inv (fun v => 0 <= v)); [| done].
  intros i a _ Ha. destruct (f i); [| done]. apply Z.lor_nonneg. split; [done | apply uint_w32].
Qed.

Lemma collect_none f : (∀ i, 0 <= i < 8 → f i = false) → collect f = 0.
Proof.
  intros H. apply Z.bits_inj'. intros j Hj. fold (bit (collect f) j). rewrite collect_bits, Z.testbit_0_l by done.
  destruct (Z.ltb_spec j 8); [| done]. simpl. apply H. lia.
Qed.

Lemma clear_bit x v i : 0 <= i < 32 → bit (x .& wnot v) i = bit x i && negb (bit v i).
Proof. intros Hi. unfold bit. rewrite Z.land_spec. by rewrite (bit_wnot v i Hi : Z.testbit _ _ = _). Qed.

(** The interrupt filter terminates: the status word is non-zero exactly while the
    line is up, and writing it back to the two clear registers lowers the line, leaving
    every status bit that was masked. *)
Theorem pl080_acknowledge (d : s5l_pl080) :
  let v := fst (s5l_pl080_read d PL080_INTSTATUS) in
  let d' := s5l_pl080_write (s5l_pl080_write d PL080_INTTCCLEAR v) PL080_INTERRCLEAR v in
  s5l_pl080_irq d = negb (v =? 0) ∧ s5l_pl080_irq d' = false
  ∧ (∀ i, 0 <= i < 8 → bit v i = false → bit (raw_tc d') i = bit (raw_tc d) i ∧ bit (raw_err d') i = bit (raw_err d) i)
  ∧ pl_ch d' = pl_ch d ∧ enabled_chans d' = enabled_chans d.
Proof.
  intros v d'. assert (v = masked_tc d .| masked_err d) as Hv by done. split; [by rewrite Hv |].
  assert (raw_tc d' = raw_tc d .& wnot v) as Htc by done. assert (raw_err d' = raw_err d .& wnot v) as Herr by done.
  assert (∀ i, 0 <= i < 8 → bit v i = (bit (raw_tc d) i && cfg_has (pl_ch d i) PL080_CFG_ITC)
    || (bit (raw_err d) i && cfg_has (pl_ch d i) PL080_CFG_IE)) as Hb.
  { intros i Hi. rewrite Hv. unfold bit at 1. rewrite Z.lor_spec.
    change (bit (masked_tc d) i || bit (masked_err d) i
      = bit (raw_tc d) i && cfg_has (pl_ch d i) PL080_CFG_ITC || bit (raw_err d) i && cfg_has (pl_ch d i) PL080_CFG_IE).
    unfold masked_tc, masked_err. rewrite !collect_bits by lia. by rewrite (proj2 (Z.ltb_lt i 8)) by lia. }
  split; [| split; [| done]].
  - unfold s5l_pl080_irq. assert (masked_tc d' = 0) as ->; [| assert (masked_err d' = 0) as ->; [| done]].
    + apply collect_none. intros i Hi. rewrite Htc, clear_bit, (Hb i) by lia.
      change (pl_ch d' i) with (pl_ch d i). by destruct (bit (raw_tc d) i), (bit (raw_err d) i), (cfg_has _ PL080_CFG_ITC), (cfg_has _ PL080_CFG_IE).
    + apply collect_none. intros i Hi. rewrite Herr, clear_bit, (Hb i) by lia.
      change (pl_ch d' i) with (pl_ch d i). by destruct (bit (raw_tc d) i), (bit (raw_err d) i), (cfg_has _ PL080_CFG_ITC), (cfg_has _ PL080_CFG_IE).
  - intros i Hi Hvi. rewrite Htc, Herr, !clear_bit, Hvi by lia. by rewrite !andb_true_r.
Qed.

(** ** The engine *)

Section Engine.
Context {B : Type} `{BusRanges B}.

Lemma pl_ch_same c f d : pl_ch (d_ch c f d) c = f (pl_ch d c).
Proof. apply fn_lookup_insert. Qed.

Lemma pl_ch_count s n d : pl_ch (pl_count s n d) = pl_ch d.
Proof. done. Qed.

(** What one item's transfers keep of a channel: the configuration and, of the control
    word, everything but the count. *)
Definition same_item (c : Z) (d d' : s5l_pl080) : Prop :=
  ch_cfg (pl_ch d' c) = ch_cfg (pl_ch d c)
  ∧ ch_ctrl (pl_ch d' c) .& wnot PL080_CTRL_SIZE_MASK = ch_ctrl (pl_ch d c) .& wnot PL080_CTRL_SIZE_MASK.

Definition staged (s : staging) : Prop := 0 <= stage_bytes s <= 8 ∧ uint (8 * stage_bytes s) (stage s).

Lemma staged_empty s : staged s → stage_bytes s = 0 → s = MkStaging 0 0.
Proof. destruct s as [v n]. intros [_ Hv] Hn. cbn in *. subst n. destruct Hv. f_equal. simpl in *. lia. Qed.

Lemma drain_spec fuel c dw di : 1 <= dw → ∀ s d b s' d' b', drain fuel c dw di s d b = (s', d', b') →
  staged s → stage_bytes s <= Z.of_nat fuel →
  staged s' ∧ stage_bytes s' < dw ∧ (stage_bytes s - stage_bytes s') mod dw = 0 ∧ stage_bytes s' <= stage_bytes s
  ∧ ch_cfg (pl_ch d' c) = ch_cfg (pl_ch d c) ∧ ch_ctrl (pl_ch d' c) = ch_ctrl (pl_ch d c).
Proof.
  intros Hdw. induction fuel as [| fuel IH]; intros s d b s' d' b'; cbn [drain].
  - intros [= <- <- <-] Hs Hf. rewrite Z.sub_diag, Zmod_0_l. pose proof Hs as [[? ?] _].
    split; [done |]. split; [lia |]. done.
  - destruct (Z.ltb_spec (stage_bytes s) dw) as [Hlt | Hge].
    { intros [= <- <- <-] Hs Hf. rewrite Z.sub_diag, Zmod_0_l. done. }
    intros E Hs Hf. destruct Hs as [[Hs0 Hs8] Hsv]. apply IH in E as (H1 & H2 & H3 & H4 & H5 & H6).
    + split; [done |]. split; [done |]. cbn [stage_bytes] in H3, H4. split; [| split; [lia |]].
      * replace (stage_bytes s - stage_bytes s') with (stage_bytes s - dw - stage_bytes s' + 1 * dw) by lia.
        by rewrite Z_mod_plus_full.
      * rewrite H5, H6. destruct di; repeat (rewrite pl_ch_same || rewrite pl_ch_count); done.
    + split; [cbn; lia |]. cbn. destruct Hsv as [Hv0 Hv1]. split; [by apply Z.shiftr_nonneg |].
      rewrite Z.shiftr_div_pow2 by lia. apply Z.div_lt_upper_bound; [lia |].
      rewrite <- Z.pow_add_r by lia. by replace (8 * dw + 8 * (stage_bytes s - dw)) with (8 * stage_bytes s) by lia.
    + cbn. lia.
Qed.

(** The widths a bus access may have. *)
Definition bus_width (w : Z) : Prop := w = 1 ∨ w = 2 ∨ w = 4.

Lemma bus_read_range w b a : bus_width w → uint (8 * w) (fst (bus_read w b a)).
Proof. intros [-> | [-> | ->]]; [apply read8_range | apply read16_range | apply read32_range]. Qed.

Lemma stage_more s v w : staged s → stage_bytes s < 4 → bus_width w → uint (8 * w) v →
  staged (MkStaging (stage s .| w64 (Z.shiftl v (8 * stage_bytes s))) (stage_bytes s + w)).
Proof.
  intros [[Hs0 Hs8] Hv] Hl Hw Hr. assert (1 <= w <= 4) by (destruct Hw as [-> | [-> | ->]]; lia).
  assert (uint (8 * (stage_bytes s + w)) (Z.shiftl v (8 * stage_bytes s))) as Hs.
  { apply (uint_shiftl _ (8 * w)); [lia | lia | done]. }
  split; cbn [stage stage_bytes]; [lia |]. unfold w64. rewrite wrap_small by (apply (uint_mono _ 64) in Hs; [done | lia]).
  apply uint_lor; [lia | apply (uint_mono (8 * stage_bytes s)); [done | lia] | done].
Qed.

Lemma size_field x n : 0 <= n <= 4095 →
  ((x .& wnot PL080_CTRL_SIZE_MASK) .| n) .& PL080_CTRL_SIZE_MASK = n
  ∧ ((x .& wnot PL080_CTRL_SIZE_MASK) .| n) .& wnot PL080_CTRL_SIZE_MASK = x .& wnot PL080_CTRL_SIZE_MASK.
Proof.
  intros Hn. assert (∀ i, 12 <= i → Z.testbit n i = false) as Hh by (intros; apply (uint_high 12); [split; lia | lia | done]).
  assert (∀ i, 0 <= i → Z.testbit PL080_CTRL_SIZE_MASK i = (i <? 12)) as Hm.
  { intros i Hi. change PL080_CTRL_SIZE_MASK with (Z.ones 12). by apply Z.testbit_ones_nonneg. }
  split; apply Z.bits_inj'; intros i Hi;
    repeat (rewrite ?Z.land_spec, ?Z.lor_spec, ?testbit_wnot, ?Hm by done);
    destruct (Z.ltb_spec i 12), (Z.ltb_spec i 32); rewrite ?Hh by lia;
    destruct (Z.testbit x i); simpl; try done; try lia; by destruct (Z.testbit n i).
Qed.

(** What the engine relies on in the machine's request lines: a refusal and a question
    about a destination change nothing, and a source that was granted is granted again with
    no further effect. *)
Record request_lines (f : B → Z → Z → bool → bool * B) : Prop := {
  refusal_silent b a w x : fst (f b a w x) = false → snd (f b a w x) = b;
  destination_silent b a w : snd (f b a w false) = b;
  granted_again b a w b' : f b a w true = (true, b') → f b' a w true = (true, b') }.

(** The same lines with every refusal overruled: asked as often, with the same effects. *)
Definition granting (f : B → Z → Z → bool → bool * B) (b : B) (a w : Z) (x : bool) : bool * B :=
  (true, snd (f b a w x)).

Section Transfer.
Context (c sw dw flow : Z) (si di : bool) (Hsw : bus_width sw) (Hdw : bus_width dw).

Lemma transfer_spec n s d b s' d' b' : transfer c sw dw si di (Z.of_nat n) s d b = (s', d', b') →
  (n < 4096)%nat → staged s → stage_bytes s < dw →
  staged s' ∧ stage_bytes s' < dw ∧ (stage_bytes s + sw - stage_bytes s') mod dw = 0
  ∧ same_item c d d' ∧ ch_ctrl (pl_ch d' c) .& PL080_CTRL_SIZE_MASK = Z.of_nat n.
Proof.
  intros E Hn Hs Hl. unfold transfer in E. pose proof (bus_read_range sw b (ch_src (pl_ch d c)) Hsw) as Hr.
  destruct (bus_read sw b _) as [v b0]. cbn [fst] in Hr.
  assert (1 <= dw <= 4) by (destruct Hdw as [-> | [-> | ->]]; lia).
  assert (1 <= sw <= 4) by (destruct Hsw as [-> | [-> | ->]]; lia).
  destruct Hs as [Hs0 Hsv]. apply drain_spec in E as (G1 & G2 & G3 & G4 & G5 & G6);
    [| lia | apply stage_more; [done | lia | done | done] | cbn [stage_bytes]; lia].
  split; [done |]. split; [done |]. split; [exact G3 |]. unfold same_item. rewrite G5, G6, !pl_ch_count, !pl_ch_same.
  cbn [ch_cfg ch_ctrl c_ctrl].
  destruct (size_field (ch_ctrl (pl_ch (if si then d_ch c (c_src (ch_src (pl_ch d c) +w sw)) d else d) c)) (Z.of_nat n)
    ltac:(lia)) as [Hz Hk].
  rewrite Hz, Hk. destruct si; rewrite ?pl_ch_same; done.
Qed.

(** One round of the loop when the request lines do not object. *)
Lemma transfers_step ready n s d b :
  transfers ready (S n) c sw dw flow si di s d b =
    let '(go, b) :=
      if stage_bytes s =? 0 then
        let '(source_ready, b) := endpoint ready (2 <=? flow) b (ch_src (pl_ch d c)) sw true in
        let '(destination_ready, b) := endpoint ready (bit flow 0) b (ch_dst (pl_ch d c)) dw false in
        (source_ready && destination_ready, b)
      else (true, b) in
    if negb go then (true, d, b) else
    let '(s, d, b) := transfer c sw dw si di (Z.of_nat n) s d b in
    transfers ready n c sw dw flow si di s d b.
Proof. done. Qed.

Lemma transfers_free n s d b :
  transfers None (S n) c sw dw flow si di s d b =
    let '(s, d, b) := transfer c sw dw si di (Z.of_nat n) s d b in transfers None n c sw dw flow si di s d b.
Proof. rewrite transfers_step. by destruct (stage_bytes s =? 0). Qed.

Lemma free_never_stalls n : ∀ s d b, fst (fst (transfers None n c sw dw flow si di s d b)) = false.
Proof.
  induction n as [| n IH]; intros s d b; [done |]. rewrite transfers_free.
  destruct (transfer _ _ _ _ _ _ _ _ _) as [[s' d'] b']. apply IH.
Qed.

Context (f : B → Z → Z → bool → bool * B) (Hf : request_lines f).

(** The two questions of one round: what a refused round leaves, a granting one can be
    started on again. *)
Lemma endpoints_granting b src dst :
  ∃ go b1,
    (let '(source_ready, b) := endpoint (Some f) (2 <=? flow) b src sw true in
     let '(destination_ready, b) := endpoint (Some f) (bit flow 0) b dst dw false in
     (source_ready && destination_ready, b)) = (go, b1)
    ∧ ∀ b', b' = b ∨ (go = false ∧ b' = b1) →
      (let '(source_ready, b) := endpoint (Some (granting f)) (2 <=? flow) b' src sw true in
       let '(destination_ready, b) := endpoint (Some (granting f)) (bit flow 0) b dst dw false in
       (source_ready && destination_ready, b)) = (true, b1).
Proof.
  destruct Hf as [Hsil Hdst Hagain]. unfold endpoint, granting.
  assert (∀ b, f b dst dw false = (fst (f b dst dw false), b)) as Hd.
  { intros x. rewrite (surjective_pairing (f x dst dw false)) at 1. by rewrite Hdst. }
  destruct (2 <=? flow).
  - destruct (f b src sw true) as [g1 b1] eqn:E1. exists (g1 && (if bit flow 0 then fst (f b1 dst dw false) else true)), b1.
    split; [destruct (bit flow 0); [by rewrite (Hd b1) | done] |].
    intros b' Hb'. assert (snd (f b' src sw true) = b1) as ->.
    { destruct Hb' as [-> | [Hgo ->]]; [by rewrite E1 |]. destruct g1.
      - by rewrite (Hagain b src sw b1 E1).
      - specialize (Hsil b src sw true). rewrite E1 in Hsil. cbn in Hsil. rewrite Hsil by done.
        rewrite E1. cbn. by rewrite Hsil. }
    destruct (bit flow 0); [by rewrite Hdst | done].
  - exists (if bit flow 0 then fst (f b dst dw false) else true), b.
    split; [destruct (bit flow 0); [by rewrite (Hd b) | done] |].
    intros b' [-> | [_ ->]]; (destruct (bit flow 0); [by rewrite Hdst | done]).
Qed.

(** A paced loop either does what the granted one does, or stops at a point from which the
    granted one finishes the same. *)
Lemma transfers_paced n : ∀ s d b r d1 b1,
  (n < 4096)%nat → staged s → stage_bytes s < dw → (stage_bytes s + Z.of_nat n * sw) mod dw = 0 →
  ch_ctrl (pl_ch d c) .& PL080_CTRL_SIZE_MASK = Z.of_nat n →
  transfers (Some f) n c sw dw flow si di s d b = (r, d1, b1) →
  if r : bool then ∃ m : nat, (m < 4096)%nat ∧ (Z.of_nat m * sw) mod dw = 0 ∧ same_item c d d1
    ∧ ch_ctrl (pl_ch d1 c) .& PL080_CTRL_SIZE_MASK = Z.of_nat m
    ∧ transfers (Some (granting f)) n c sw dw flow si di s d b
      = transfers (Some (granting f)) m c sw dw flow si di (MkStaging 0 0) d1 b1
  else transfers (Some (granting f)) n c sw dw flow si di s d b = (r, d1, b1).
Proof.
  assert (1 <= dw <= 4) by (destruct Hdw as [-> | [-> | ->]]; lia).
  induction n as [| n IH]; intros s d b r d1 b1 Hn Hs Hl Hm Hc E.
  { injection E as <- <- <-. done. }
  rewrite transfers_step in E. rewrite (transfers_step (Some (granting f)) n s d b).
  destruct (endpoints_granting b (ch_src (pl_ch d c)) (ch_dst (pl_ch d c))) as (g0 & b0 & Hg & Hgr).
  rewrite Hg in E. rewrite (Hgr b) by auto.
  assert (∃ g b2, (if stage_bytes s =? 0 then (g0, b0) else (true, b)) = (g, b2)
    ∧ (if stage_bytes s =? 0 then (true, b0) else (true, b)) = (true, b2)
    ∧ (g = false → stage_bytes s = 0 ∧ g0 = false ∧ b2 = b0)) as (g & b2 & E1 & E2 & Hz).
  { destruct (Z.eqb_spec (stage_bytes s) 0); [by exists g0, b0 | by exists true, b]. }
  rewrite E1 in E. rewrite E2. destruct g; cbn [negb] in E |- *.
  - destruct (transfer c sw dw si di (Z.of_nat n) s d b2) as [[s' d'] b'] eqn:Et.
    apply transfer_spec in Et as (G1 & G2 & G3 & [G4 G5] & G6); [| lia | done | done].
    apply IH in E; [| lia | done | done | | done].
    + destruct r; [| done]. destruct E as (m & ? & ? & [? ?] & ? & ?). exists m. unfold same_item.
      split; [done |]. split; [done |]. split; [split; congruence | done].
    + replace (stage_bytes s' + Z.of_nat n * sw)
        with ((stage_bytes s + Z.of_nat (S n) * sw) - (stage_bytes s + sw - stage_bytes s')) by lia.
      by rewrite Zminus_mod, Hm, G3, Z.sub_diag, Zmod_0_l.
  - injection E as <- <- <-. destruct (Hz eq_refl) as (Hs0 & -> & ->). exists (S n). split; [done |].
    split; [by rewrite Hs0 in Hm |]. split; [done |]. split; [done |].
    rewrite (transfers_step (Some (granting f)) n (MkStaging 0 0) d b0). cbn [stage_bytes Z.eqb].
    rewrite (Hgr b0) by auto. cbn [negb]. by rewrite (staged_empty s Hs Hs0).
Qed.
End Transfer.

(** The parameters of an item depend on the configuration and the control word without
    its count. *)
Lemma upper_mask x y m : x .& wnot PL080_CTRL_SIZE_MASK = y .& wnot PL080_CTRL_SIZE_MASK →
  m .& wnot PL080_CTRL_SIZE_MASK = m → x .& m = y .& m.
Proof.
  intros E <-. by rewrite !(Z.land_comm m), !Z.land_assoc, E.
Qed.

Lemma upper_fld x y lo m : x .& wnot PL080_CTRL_SIZE_MASK = y .& wnot PL080_CTRL_SIZE_MASK → 0 <= lo →
  Z.shiftl m lo .& wnot PL080_CTRL_SIZE_MASK = Z.shiftl m lo → fld x lo m = fld y lo m.
Proof.
  intros E Hlo Hm. apply (upper_mask x y _ E) in Hm. unfold fld.
  assert (∀ z, (z .>> lo) .& m = (z .& Z.shiftl m lo) .>> lo) as Hz.
  { intros z. rewrite Z.shiftr_land, Z.shiftr_shiftl_l, Z.sub_diag, Z.shiftl_0_r by lia. done. }
  by rewrite !Hz, Hm.
Qed.

Lemma wf_width sw : uint 3 sw → sw <= 2 → bus_width (1 .<< sw).
Proof.
  intros [? ?] ?. assert (sw = 0 ∨ sw = 1 ∨ sw = 2) as [-> | [-> | ->]] by lia; unfold bus_width; vm_compute; tauto.
Qed.

(** An item's parameters. *)
Record item := MkItem { ip_sw : Z; ip_dw : Z; ip_flow : Z; ip_si : bool; ip_di : bool; ip_n : Z }.

Definition item_params (ch : pl080_chan) : item :=
  MkItem (1 .<< fld (ch_ctrl ch) PL080_CTRL_SWIDTH_SHIFT PL080_CTRL_WIDTH_MASK)
    (1 .<< fld (ch_ctrl ch) PL080_CTRL_DWIDTH_SHIFT PL080_CTRL_WIDTH_MASK)
    ((ch_cfg ch .& PL080_CFG_FLOW_MASK) .>> PL080_CFG_FLOW_SHIFT)
    (negb (ch_ctrl ch .& PL080_CTRL_SI =? 0)) (negb (ch_ctrl ch .& PL080_CTRL_DI =? 0))
    (ch_ctrl ch .& PL080_CTRL_SIZE_MASK).

(** Why an item is refused, if it is. *)
Definition refusal (p : item) : option pl080_stat :=
  if (4 <? ip_sw p) || (4 <? ip_dw p) then Some pl_refused_width
  else if 3 <? ip_flow p then Some pl_refused_flow
  else if negb ((ip_n p * ip_sw p) mod ip_dw p =? 0) then Some pl_refused_width else None.

Lemma width_test x lo : (2 <? fld x lo PL080_CTRL_WIDTH_MASK) = (4 <? 1 .<< fld x lo PL080_CTRL_WIDTH_MASK).
Proof.
  assert (uint 3 (fld x lo PL080_CTRL_WIDTH_MASK)) as [H1 H2] by (apply uint_land_r; [lia | split; by vm_compute]).
  revert H1 H2. generalize (fld x lo PL080_CTRL_WIDTH_MASK). change (2 ^ 3) with 8. intros k H1 H2.
  assert (k = 0 ∨ k = 1 ∨ k = 2 ∨ k = 3 ∨ k = 4 ∨ k = 5 ∨ k = 6 ∨ k = 7) as Hk by lia.
  by repeat destruct Hk as [-> | Hk]; subst.
Qed.

Lemma run_item_eq ready c d b :
  run_item ready c d b =
    let p := item_params (pl_ch d c) in
    match refusal p with
    | Some why => (false, disable c (pl_count why 1 d), b)
    | None =>
      let '(stalled, d, b) := transfers ready (Z.to_nat (ip_n p)) c (ip_sw p) (ip_dw p) (ip_flow p)
                                (ip_si p) (ip_di p) (MkStaging 0 0) d b in
      if stalled then (false, d, b) else finish_item c d b
    end.
Proof.
  unfold run_item, refusal, item_params. cbn [ip_sw ip_dw ip_flow ip_si ip_di ip_n]. rewrite !width_test.
  destruct (_ || _); [done |]. destruct (3 <? _); [done |]. by destruct (negb _).
Qed.

Lemma params_ok ch : let p := item_params ch in refusal p = None →
  bus_width (ip_sw p) ∧ bus_width (ip_dw p) ∧ (ip_n p * ip_sw p) mod ip_dw p = 0 ∧ 0 <= ip_n p < 4096.
Proof.
  intros p Hr. unfold refusal in Hr. destruct (_ || _) eqn:Ew; [done |]. destruct (3 <? _); [done |].
  destruct (negb _) eqn:Em; [done |]. apply negb_false_iff, Z.eqb_eq in Em. apply orb_false_iff in Ew as [Es Ed].
  assert (0 <= ip_n p < 4096) as Hn by (apply (uint_land_r 12); [lia | split; by vm_compute]).
  unfold p in Es, Ed. cbn [ip_sw ip_dw item_params] in Es, Ed. rewrite <- width_test in Es, Ed.
  split; [| split; [| done]]; apply wf_width;
    try (apply uint_land_r; [lia | split; by vm_compute]); by apply Z.ltb_ge.
Qed.

Lemma params_resume c d d' m : same_item c d d' → ch_ctrl (pl_ch d' c) .& PL080_CTRL_SIZE_MASK = m →
  let p := item_params (pl_ch d c) in
  item_params (pl_ch d' c) = MkItem (ip_sw p) (ip_dw p) (ip_flow p) (ip_si p) (ip_di p) m.
Proof.
  intros [Hcfg Hctrl] Hm p. unfold p, item_params. cbn [ip_sw ip_dw ip_flow ip_si ip_di]. rewrite Hm, Hcfg.
  rewrite (upper_fld _ _ PL080_CTRL_SWIDTH_SHIFT PL080_CTRL_WIDTH_MASK Hctrl) by done.
  rewrite (upper_fld _ _ PL080_CTRL_DWIDTH_SHIFT PL080_CTRL_WIDTH_MASK Hctrl) by done.
  rewrite (upper_mask _ _ PL080_CTRL_SI Hctrl), (upper_mask _ _ PL080_CTRL_DI Hctrl) by done. done.
Qed.

Lemma refusal_resume p m : refusal p = None → (m * ip_sw p) mod ip_dw p = 0 →
  refusal (MkItem (ip_sw p) (ip_dw p) (ip_flow p) (ip_si p) (ip_di p) m) = None.
Proof.
  unfold refusal. cbn [ip_sw ip_dw ip_flow ip_si ip_di ip_n]. destruct (_ || _); [done |]. destruct (3 <? _); [done |].
  by intros _ ->.
Qed.

Definition channel_enabled (c : Z) (d : s5l_pl080) : bool := bit (ch_cfg (pl_ch d c)) 0.

Lemma disable_clears c d : channel_enabled c (disable c d) = false.
Proof.
  unfold channel_enabled, disable. rewrite pl_ch_same. cbn [ch_cfg c_cfg]. unfold bit.
  by rewrite Z.land_spec, andb_false_r.
Qed.

Lemma finish_stops c d b d1 b1 : finish_item c d b = (false, d1, b1) → channel_enabled c d1 = false.
Proof.
  unfold finish_item. cbv zeta.
  match goal with |- context [if ?e then (false, _, _) else _] => destruct e end.
  - intros [= <- _]. apply disable_clears.
  - repeat destruct (read32 _ _). discriminate.
Qed.

(** A channel held back by a request line loses nothing: a paced item either does exactly
    what the granted one does, or stops with the channel still enabled at registers from
    which the granted item finishes the same. *)
Lemma paced_item (f : B → Z → Z → bool → bool * B) (c : Z) (d : s5l_pl080) (b : B)
    (more : bool) (d1 : s5l_pl080) (b1 : B)
    (Hf : request_lines f) (Hen : channel_enabled c d = true)
    (Hrun : run_item (Some f) c d b = (more, d1, b1)) :
  let free := run_item (Some (granting f)) c in
  if negb more && channel_enabled c d1 then free d1 b1 = free d b else free d b = (more, d1, b1).
Proof.
  intros free. unfold free.
  rewrite (run_item_eq (Some f)) in Hrun. rewrite (run_item_eq (Some (granting f)) c d). cbv zeta in Hrun |- *.
  set (p := item_params (pl_ch d c)) in *. destruct (refusal p) as [why |] eqn:Er.
  { injection Hrun as <- <- <-. by rewrite disable_clears. }
  destruct (params_ok (pl_ch d c) Er) as (Hsw & Hdw & Hm & Hn). fold p in Hsw, Hdw, Hm, Hn.
  assert (0 < ip_dw p) by (destruct Hdw as [-> | [-> | ->]]; lia).
  destruct (transfers (Some f) _ _ _ _ _ _ _ _ _ _) as [[r d2] b2] eqn:Et.
  apply (transfers_paced c _ _ _ _ _ Hsw Hdw f Hf) in Et; [| lia | done | done | by rewrite Z2Nat.id by lia |
    by rewrite Z2Nat.id by lia].
  destruct r.
  - injection Hrun as <- <- <-. destruct Et as (m & Hm4 & Hmm & Hsame & Hsz & Hfree).
    assert (channel_enabled c d2 = true) as -> by (unfold channel_enabled; by rewrite (proj1 Hsame)).
    cbn [negb andb]. rewrite (run_item_eq (Some (granting f)) c d2). cbv zeta.
    assert (item_params (pl_ch d2 c) = MkItem (ip_sw p) (ip_dw p) (ip_flow p) (ip_si p) (ip_di p) (Z.of_nat m)) as ->
      by (by apply params_resume).
    assert (refusal (MkItem (ip_sw p) (ip_dw p) (ip_flow p) (ip_si p) (ip_di p) (Z.of_nat m)) = None) as ->.
    { by apply (refusal_resume p). }
    cbn [ip_sw ip_dw ip_flow ip_si ip_di ip_n]. by rewrite Nat2Z.id, Hfree.
  - rewrite Et, Hrun. destruct more; [done |]. by rewrite (finish_stops _ _ _ _ _ Hrun).
Qed.
End Engine.

(** * A DMA item is a copy

    Over flat RAM an item whose two ends both advance copies its source range to its
    destination range, whatever the two transfer widths: the staging of Pl080.v packs and
    unpacks without loss or reordering. *)

(** ** Multi-byte accesses of flat RAM *)

Lemma flat_get_app m n b a :
  flat_get (m + n) b a = flat_get m b a .| Z.shiftl (flat_get n b (a + Z.of_nat m)) (8 * Z.of_nat m).
Proof.
  revert a. induction m as [| m IH]; intros a; cbn [flat_get Nat.add].
  - by rewrite Z.add_0_r, Z.shiftl_0_r, Z.lor_0_l.
  - rewrite IH. replace (a + 1 + Z.of_nat m) with (a + Z.of_nat (S m)) by lia.
    rewrite Z.shiftl_lor, Z.shiftl_shiftl, Z.lor_assoc by lia. do 2 f_equal. lia.
Qed.

Lemma join_low x y w : 0 <= w → uint w x → (x .| Z.shiftl y w) .& (2 ^ w - 1) = x.
Proof.
  intros Hw Hx. replace (2 ^ w - 1) with (Z.ones w) by (rewrite Z.ones_equiv; lia).
  apply Z.bits_inj'. intros i Hi. rewrite Z.land_spec, Z.lor_spec, Z.shiftl_spec, Z.testbit_ones_nonneg by lia.
  destruct (Z.ltb_spec i w).
  - rewrite (Z.testbit_neg_r y) by lia. by rewrite orb_false_r, andb_true_r.
  - rewrite (uint_high w x) by lia || done. apply andb_false_r.
Qed.

Lemma join_high x y w : 0 <= w → uint w x → (x .| Z.shiftl y w) .>> w = y.
Proof.
  intros Hw Hx. apply Z.bits_inj'. intros i Hi.
  rewrite Z.shiftr_spec, Z.lor_spec, Z.shiftl_spec by lia. rewrite (uint_high w x) by lia || done.
  simpl. f_equal. lia.
Qed.

Lemma flat_get_low m n b a : flat_get (m + n) b a .& (2 ^ (8 * Z.of_nat m) - 1) = flat_get m b a.
Proof. rewrite flat_get_app. apply join_low; [lia | apply flat_get_range]. Qed.

Lemma flat_get_high m n b a : flat_get (m + n) b a .>> (8 * Z.of_nat m) = flat_get n b (a + Z.of_nat m).
Proof. rewrite flat_get_app. apply join_high; [lia | apply flat_get_range]. Qed.

Lemma flat_get_ext k b b' : ∀ a, (∀ x, a <= x < a + Z.of_nat k → flat_get8 b x = flat_get8 b' x) →
  flat_get k b a = flat_get k b' a.
Proof.
  induction k as [| k IH]; intros a Ha; cbn [flat_get]; [done |].
  rewrite (Ha a), (IH (a + 1)); [done | | lia]. intros; apply Ha; lia.
Qed.

Lemma flat_get8_put8 b a v x : 0 <= a < ram_size b → uint 8 v →
  flat_get8 (flat_put8 b a v) x = if x =? a then v else flat_get8 b x.
Proof.
  intros Ha Hv. unfold flat_put8, flat_get8.
  rewrite (proj2 (Z.leb_le 0 a)), (proj2 (Z.ltb_lt a _)) by lia. cbn [andb ram_size ram_byte].
  destruct (Z.eqb_spec x a) as [-> | Hne].
  - rewrite (proj2 (Z.leb_le 0 a)), (proj2 (Z.ltb_lt a _)) by lia. cbn [andb].
    rewrite fn_lookup_insert. by apply wrap_small.
  - by rewrite fn_lookup_insert_ne.
Qed.

Lemma flat_put_size k : ∀ b a v, ram_size (flat_put k b a v) = ram_size b.
Proof.
  induction k as [| k IH]; intros b a v; cbn [flat_put]; [done |]. rewrite IH. unfold flat_put8. by case_match.
Qed.

(** Storing what was read is copying. *)
Lemma flat_put_get k : ∀ b a b0 s x, 0 <= a → a + Z.of_nat k <= ram_size b →
  flat_get8 (flat_put k b a (flat_get k b0 s)) x
    = if (a <=? x) && (x <? a + Z.of_nat k) then flat_get8 b0 (s + (x - a)) else flat_get8 b x.
Proof.
  induction k as [| k IH]; intros b a b0 s x Ha Hk; cbn [flat_put flat_get].
  - destruct (Z.leb_spec a x), (Z.ltb_spec x (a + Z.of_nat 0)); simpl; lia || done.
  - pose proof (join_low (flat_get8 b0 s) (flat_get k b0 (s + 1)) 8 ltac:(lia) (flat_get8_range _ _)) as Hl.
    pose proof (join_high (flat_get8 b0 s) (flat_get k b0 (s + 1)) 8 ltac:(lia) (flat_get8_range _ _)) as Hh.
    change (2 ^ 8 - 1) with 0xff in Hl. rewrite Hl, Hh.
    assert (ram_size (flat_put8 b a (flat_get8 b0 s)) = ram_size b) as Hsz by (unfold flat_put8; by case_match).
    rewrite IH by (rewrite ?Hsz; lia). rewrite flat_get8_put8 by (lia || apply flat_get8_range).
    destruct (Z.leb_spec (a + 1) x), (Z.leb_spec a x), (Z.ltb_spec x (a + 1 + Z.of_nat k)),
      (Z.ltb_spec x (a + Z.of_nat (S k))), (Z.eqb_spec x a); simpl; try lia; try done; f_equal; lia.
Qed.

(** ** The copy *)

Section Copy.
Context (c : Z) (sw dw : nat) (Hsw : bus_width (Z.of_nat sw)) (Hdw : bus_width (Z.of_nat dw)).
Context (b0 : flat_ram) (src dst len : Z).
Context (Hs : 0 <= src ∧ src + len <= ram_size b0) (Hd : 0 <= dst ∧ dst + len <= ram_size b0)
  (Hsize : ram_size b0 <= 2 ^ 32) (Hdisj : src + len <= dst ∨ dst + len <= src).

(** [j] bytes have arrived. *)
Definition copied (j : Z) (b : flat_ram) : Prop :=
  ram_size b = ram_size b0 ∧
  ∀ x, flat_get8 b x = if (dst <=? x) && (x <? dst + j) then flat_get8 b0 (src + (x - dst)) else flat_get8 b0 x.

Lemma flat_read w b a : bus_width (Z.of_nat w) → bus_read (Z.of_nat w) b a = (flat_get w b a, b).
Proof.
  intros Hw. assert (w = 1%nat ∨ w = 2%nat ∨ w = 4%nat) as [-> | [-> | ->]] by (unfold bus_width in Hw; lia); done.
Qed.

Lemma flat_write w b a v : bus_width (Z.of_nat w) → bus_write (Z.of_nat w) b a v = flat_put w b a v.
Proof.
  intros Hw. assert (w = 1%nat ∨ w = 2%nat ∨ w = 4%nat) as [-> | [-> | ->]] by (unfold bus_width in Hw; lia); done.
Qed.

Lemma copied_read j b w a : copied j b → 0 <= j <= len → src <= a → a + Z.of_nat w <= src + len →
  flat_get w b a = flat_get w b0 a.
Proof.
  intros [_ Hb] Hj Ha Hw. apply flat_get_ext. intros x Hx. rewrite Hb.
  destruct (Z.leb_spec dst x), (Z.ltb_spec x (dst + j)); simpl; lia || done.
Qed.

Lemma copied_write j b : copied j b → 0 <= j → j + Z.of_nat dw <= len →
  copied (j + Z.of_nat dw) (flat_put dw b (dst + j) (flat_get dw b0 (src + j))).
Proof.
  intros [Hz Hb] Hj Hl. split; [by rewrite flat_put_size |]. intros x. rewrite flat_put_get by lia. rewrite Hb.
  destruct (Z.leb_spec (dst + j) x), (Z.ltb_spec x (dst + j + Z.of_nat dw)), (Z.leb_spec dst x),
    (Z.ltb_spec x (dst + (j + Z.of_nat dw))), (Z.ltb_spec x (dst + j)); simpl; try lia; try done; f_equal; lia.
Qed.

(** [k] bytes read, [j] of them delivered. *)
Record progress (k j : Z) (s : staging) (d : s5l_pl080) (b : flat_ram) : Prop := {
  pr_order : 0 <= j <= k ∧ k <= len;
  pr_whole : (Z.of_nat dw | j);
  pr_bytes : stage_bytes s = k - j;
  pr_stage : stage s = flat_get (Z.to_nat (k - j)) b0 (src + j);
  pr_src : ch_src (pl_ch d c) = w32 (src + k);
  pr_dst : ch_dst (pl_ch d c) = w32 (dst + j);
  pr_mem : copied j b }.

Lemma drain_progress fuel : ∀ k j s d b s' d' b', progress k j s d b →
  drain fuel c (Z.of_nat dw) true s d b = (s', d', b') → k - j <= Z.of_nat fuel →
  ∃ j', j <= j' ∧ progress k j' s' d' b' ∧ k - j' < Z.of_nat dw.
Proof.
  assert (1 <= Z.of_nat dw <= 4) as Hw by (destruct Hdw as [E | [E | E]]; lia).
  induction fuel as [| fuel IH]; intros k j s d b s' d' b' Hp; cbn [drain].
  { intros [= <- <- <-] Hf. exists j. split; [lia |]. split; [done |]. destruct Hp. lia. }
  destruct (Z.ltb_spec (stage_bytes s) (Z.of_nat dw)) as [Hlt | Hge].
  { intros [= <- <- <-] Hf. exists j. split; [lia |]. split; [done |]. destruct Hp. lia. }
  intros E Hf. destruct Hp as [Ho Hdiv Hb Hst Hsr Hds Hm].
  assert (Z.to_nat (k - j) = (dw + Z.to_nat (k - j - Z.of_nat dw))%nat) as Hn by lia.
  rewrite flat_write in E by done. rewrite Hst, Hn, flat_get_low, flat_get_high in E.
    assert (uint 32 (dst + j)) as Hu by (split; lia). rewrite Hds, (w32_small _ Hu) in E.
  apply (IH k (j + Z.of_nat dw)) in E as (j' & ? & ? & ?); [exists j'; split; [lia | done] | | lia].
  split; cbn [stage stage_bytes].
  - lia.
  - try apply Z.divide_add_r; try done; apply Z.divide_refl.
  - lia.
  - rewrite Z.add_assoc. do 2 f_equal. lia.
  - rewrite !pl_ch_same, pl_ch_count, pl_ch_same. exact Hsr.
  - rewrite !pl_ch_same, pl_ch_count, pl_ch_same. cbn [ch_dst c_bytes c_dst]. f_equal. lia.
  - by apply copied_write; [| lia | lia].
Qed.

Lemma transfer_progress n k j s d b s' d' b' : progress k j s d b →
  k - j < Z.of_nat dw → k + Z.of_nat sw <= len →
  transfer c (Z.of_nat sw) (Z.of_nat dw) true true n s d b = (s', d', b') →
  ∃ j', progress (k + Z.of_nat sw) j' s' d' b' ∧ k + Z.of_nat sw - j' < Z.of_nat dw.
Proof.
  assert (1 <= Z.of_nat dw <= 4) as Hw by (destruct Hdw as [E | [E | E]]; lia).
  assert (1 <= Z.of_nat sw <= 4) as Hw' by (destruct Hsw as [E | [E | E]]; lia).
  intros [Ho Hdiv Hb Hst Hsr Hds Hm] Hlt Hlen E. unfold transfer in E. rewrite flat_read in E by done.
  assert (uint 32 (src + k)) as Hu by (split; lia). rewrite Hsr, (w32_small _ Hu) in E. rewrite (copied_read j) in E by (done || lia).
  eapply (drain_progress _ (k + Z.of_nat sw) j) in E as (j' & ? & ? & ?); [by exists j' | | cbn [stage_bytes]; lia].
  split; cbn [stage stage_bytes].
  - lia.
  - try apply Z.divide_add_r; try done; apply Z.divide_refl.
  - lia.
  - rewrite Hst, Hb. replace (Z.to_nat (k + Z.of_nat sw - j)) with (Z.to_nat (k - j) + sw)%nat by lia.
    rewrite flat_get_app, Z2Nat.id by lia. replace (src + j + (k - j)) with (src + k) by lia. f_equal.
    unfold w64. apply wrap_small. apply (uint_shiftl 64 (8 * Z.of_nat sw)); [lia | lia | apply flat_get_range].
  - rewrite pl_ch_count, !pl_ch_same. cbn [ch_src c_ctrl c_src]. f_equal. lia.
  - rewrite pl_ch_count, !pl_ch_same. exact Hds.
  - done.
Qed.

Lemma transfers_progress flow n : ∀ k j s d b r d' b', progress k j s d b →
  k - j < Z.of_nat dw → k + Z.of_nat n * Z.of_nat sw = len →
  transfers None n c (Z.of_nat sw) (Z.of_nat dw) flow true true s d b = (r, d', b') →
  ∃ j' s', progress len j' s' d' b' ∧ len - j' < Z.of_nat dw.
Proof.
  induction n as [| n IH]; intros k j s d b r d' b' Hp Hlt Hlen E.
  { injection E as <- <- <-. exists j, s. rewrite <- Hlen. by rewrite Z.mul_0_l, Z.add_0_r. }
  rewrite transfers_free in E. destruct (transfer _ _ _ _ _ _ _ _ _) as [[s1 d1] b1] eqn:Et.
  apply (transfer_progress _ k j) in Et as (j' & Hp' & Hlt'); [| done | done | lia].
  eapply IH in E; [done | exact Hp' | done | lia].
Qed.

(** All of it has arrived. *)
Lemma transfers_copy flow n s d b r d' b' : progress 0 0 s d b →
  Z.of_nat n * Z.of_nat sw = len → (Z.of_nat dw | len) →
  transfers None n c (Z.of_nat sw) (Z.of_nat dw) flow true true s d b = (r, d', b') →
  copied len b' ∧ ch_src (pl_ch d' c) = w32 (src + len) ∧ ch_dst (pl_ch d' c) = w32 (dst + len).
Proof.
  assert (1 <= Z.of_nat dw <= 4) as Hw by (destruct Hdw as [E | [E | E]]; lia).
  intros Hp Hn Hdiv E. eapply (transfers_progress flow n 0 0) in E as (j & s' & [Ho Hj Hb _ Hsr Hds Hm] & Hlt);
    [| done | lia | lia].
  assert (j = len) as ->; [| done].
  destruct Hdiv as [x ->], Hj as [y ->]. assert (x = y) by nia. by subst.
Qed.
End Copy.

(** ** What an item's transfers leave alone *)

Section Keeps.
Context {B : Type} `{Bus B}.

Lemma drain_keeps fuel c dw di : ∀ s d (b : B) s' d' b', drain fuel c dw di s d b = (s', d', b') →
  raw_tc d' = raw_tc d ∧ ch_lli (pl_ch d' c) = ch_lli (pl_ch d c)
  ∧ ch_ctrl (pl_ch d' c) = ch_ctrl (pl_ch d c) ∧ ch_cfg (pl_ch d' c) = ch_cfg (pl_ch d c).
Proof.
  induction fuel as [| fuel IH]; intros s d b s' d' b'; cbn [drain]; [by intros [= <- <- <-] |].
  case_match; [by intros [= <- <- <-] |]. intros E. apply IH in E as (-> & -> & -> & ->).
  destruct di; repeat (rewrite pl_ch_same || rewrite pl_ch_count); done.
Qed.

Lemma transfer_keeps c sw dw si di n s d (b : B) s' d' b' : 0 <= n < 4096 →
  transfer c sw dw si di n s d b = (s', d', b') →
  raw_tc d' = raw_tc d ∧ ch_lli (pl_ch d' c) = ch_lli (pl_ch d c)
  ∧ same_item c d d' ∧ ch_ctrl (pl_ch d' c) .& PL080_CTRL_SIZE_MASK = n.
Proof.
  intros Hn E. unfold transfer in E. destruct (bus_read sw b _) as [v b1].
  apply drain_keeps in E as (-> & -> & Hc & Hf). unfold same_item. rewrite Hc, Hf, !pl_ch_count, !pl_ch_same.
  cbn [ch_cfg ch_ctrl ch_lli c_ctrl].
  destruct (size_field (ch_ctrl (pl_ch (if si then d_ch c (c_src (ch_src (pl_ch d c) +w sw)) d else d) c)) n
    ltac:(lia)) as [Hz Hk].
  rewrite Hz, Hk. destruct si; rewrite ?pl_ch_same; done.
Qed.

Lemma transfers_keeps c sw dw flow si di n : ∀ s d (b : B) r d' b', Z.of_nat n < 4096 →
  ch_ctrl (pl_ch d c) .& PL080_CTRL_SIZE_MASK = Z.of_nat n →
  transfers None n c sw dw flow si di s d b = (r, d', b') →
  raw_tc d' = raw_tc d ∧ ch_lli (pl_ch d' c) = ch_lli (pl_ch d c) ∧ same_item c d d'
  ∧ ch_ctrl (pl_ch d' c) .& PL080_CTRL_SIZE_MASK = 0.
Proof.
  induction n as [| n IH]; intros s d b r d' b' Hn Hc E.
  { injection E as <- <- <-. done. }
  cbn [transfers] in E. assert (∀ x y : bool * B, (if stage_bytes s =? 0 then let '(a, b) := endpoint None (2 <=? flow) b (ch_src (pl_ch d c)) sw true in let '(a', b) := endpoint None (bit flow 0) b (ch_dst (pl_ch d c)) dw false in (a && a', b) else (true, b)) = (true, b)) as Hgo.
  { intros _ _. by destruct (stage_bytes s =? 0). }
  rewrite Hgo in E by exact (true, b). cbn [negb] in E. clear Hgo.
  destruct (transfer _ _ _ _ _ _ _ _ _) as [[s1 d1] b1] eqn:Et.
  apply transfer_keeps in Et as (Ht & Hl & [Hs1 Hs2] & Hz); [| lia].
  apply IH in E as (-> & -> & [Hs3 Hs4] & ->); [| lia | done]. unfold same_item. rewrite Hs3, Hs4. done.
Qed.
End Keeps.

(** The last item of a chain. *)
Lemma complete_last {B} `{Bus B} c d (b : B) : 0 <= c < 8 → ch_lli (pl_ch d c) = 0 →
  ∃ d', finish_item c d b = (false, d', b)
    ∧ ch_src (pl_ch d' c) = ch_src (pl_ch d c) ∧ ch_dst (pl_ch d' c) = ch_dst (pl_ch d c)
    ∧ ch_ctrl (pl_ch d' c) = ch_ctrl (pl_ch d c) ∧ channel_enabled c d' = false
    ∧ bit (raw_tc d') c = bit (ch_ctrl (pl_ch d c)) 31 || bit (raw_tc d) c.
Proof.
  intros Hc Hl. assert (∃ d1, complete_item c d = d1 ∧ pl_ch d1 c = c_runs (w64 (ch_runs (pl_ch d c) + 1)) (pl_ch d c)
    ∧ bit (raw_tc d1) c = bit (ch_ctrl (pl_ch d c)) 31 || bit (raw_tc d) c) as (d1 & Hd1 & Hch & Htc).
  { eexists. split; [done |]. unfold complete_item. cbv zeta. rewrite pl_ch_same, pl_ch_count. cbn [ch_ctrl c_runs].
    change PL080_CTRL_I with (2 ^ 31). rewrite land_bit_zero by done.
    destruct (bit (ch_ctrl (pl_ch d c)) 31); cbn [negb orb].
    - split; [exact (pl_ch_same c _ (pl_count pl_items 1 d)) |]. cbn [raw_tc pl_count d_raw_tc d_ch]. rewrite bit_lor_pow by lia.
      by rewrite Z.eqb_refl, orb_true_r.
    - split; [exact (pl_ch_same c _ (pl_count pl_items 1 d)) | done]. }
  unfold finish_item. cbv zeta. rewrite Hd1, Hch. cbn [ch_lli c_runs]. rewrite Hl. cbn [Z.eqb].
  exists (disable c d1). split; [done |]. unfold disable at 1 2 3. rewrite pl_ch_same, Hch.
  split; [done |]. split; [done |]. split; [done |]. split; [apply disable_clears | exact Htc].
Qed.

(** C8: An item over flat RAM is a copy.  With both ends advancing and ranges that do not
    overlap, the destination holds the source, byte for byte and whatever the two widths,
    no other byte changes, both addresses have advanced by the length, and the last item
    of a chain leaves a count of zero, the channel disabled and, if it asked for it, its
    terminal-count bit set. *)
Theorem pl080_item_copies (c : Z) (d : s5l_pl080) (b : flat_ram) (Hc : 0 <= c < 8)
    (Hok : refusal (item_params (pl_ch d c)) = None) :
  let ch := pl_ch d c in
  let p := item_params ch in
  let len := ip_n p * ip_sw p in
  ip_si p = true → ip_di p = true → ch_lli ch = 0 →
  uint 32 (ch_src ch) → ch_src ch + len <= ram_size b → uint 32 (ch_dst ch) → ch_dst ch + len <= ram_size b →
  ram_size b <= 2 ^ 32 → ch_src ch + len <= ch_dst ch ∨ ch_dst ch + len <= ch_src ch →
  ∃ d' b', run_item None c d b = (false, d', b')
    ∧ (∀ x, flat_get8 b' x = if (ch_dst ch <=? x) && (x <? ch_dst ch + len)
                              then flat_get8 b (ch_src ch + (x - ch_dst ch)) else flat_get8 b x)
    ∧ ch_src (pl_ch d' c) = w32 (ch_src ch + len) ∧ ch_dst (pl_ch d' c) = w32 (ch_dst ch + len)
    ∧ ch_ctrl (pl_ch d' c) .& PL080_CTRL_SIZE_MASK = 0 ∧ channel_enabled c d' = false
    ∧ bit (raw_tc d') c = bit (ch_ctrl ch) 31 || bit (raw_tc d) c.
Proof.
  intros ch p len Hsi Hdi Hlli Hsu Hs1 Hdu Hd1 Hsz Hdisj.
  pose proof (proj1 Hsu) as Hs0. pose proof (proj1 Hdu) as Hd0.
  destruct (params_ok ch Hok) as (Hsw & Hdw & Hm & Hn). fold p in Hsw, Hdw, Hm, Hn.
  assert (0 < ip_sw p) by (destruct Hsw as [-> | [-> | ->]]; lia).
  assert (0 < ip_dw p) by (destruct Hdw as [-> | [-> | ->]]; lia).
  rewrite (run_item_eq None c d). cbv zeta. fold ch p. fold ch p in Hok. rewrite Hok, Hsi, Hdi.
  destruct (transfers None _ _ _ _ _ _ _ _ _ _) as [[r d1] b1] eqn:Et.
  pose proof (free_never_stalls c (ip_sw p) (ip_dw p) (ip_flow p) true true (Z.to_nat (ip_n p)) (MkStaging 0 0) d b) as Hr.
  rewrite Et in Hr. cbn [fst] in Hr. subst r.
  pose proof Et as Hk. apply transfers_keeps in Hk as (Htc & Hl & [Hcfg Hctrl] & Hz); [| lia | fold ch; rewrite Z2Nat.id by lia; done].
  rewrite <- (Z2Nat.id (ip_sw p)), <- (Z2Nat.id (ip_dw p)) in Et by lia.
  apply (transfers_copy c (Z.to_nat (ip_sw p)) (Z.to_nat (ip_dw p))
    ltac:(rewrite Z2Nat.id by lia; exact Hsw) ltac:(rewrite Z2Nat.id by lia; exact Hdw) b (ch_src ch) (ch_dst ch) len) in Et
    as ([_ Hb] & Hsr & Hds); try done.
  - destruct (complete_last c d1 b1 Hc ltac:(by rewrite Hl)) as (d' & Hf & Hs' & Hd' & Hc' & He' & Ht').
    exists d', b1. rewrite Hf, Hs', Hd', Hc', He', Ht', Hz, Htc. do 6 (split; [done |]). f_equal.
    apply (upper_mask _ _ (2 ^ 31)) in Hctrl; [| by vm_compute].
    rewrite <- (negb_involutive (bit (ch_ctrl (pl_ch d1 c)) 31)), <- (negb_involutive (bit (ch_ctrl ch) 31)).
    by rewrite <- !land_bit_zero, Hctrl by done.
  - split; try done.
    + split; [lia |]. apply Z.mul_nonneg_nonneg; lia.
    + apply Z.divide_0_r.
    + fold ch. rewrite Z.add_0_r. by rewrite w32_small.
    + fold ch. rewrite Z.add_0_r. by rewrite w32_small.
    + split; [done |]. intros x.
      destruct (Z.leb_spec (ch_dst ch) x), (Z.ltb_spec x (ch_dst ch + 0)); simpl; lia || done.
  - by rewrite !Z2Nat.id by lia.
  - rewrite Z2Nat.id by lia. apply Z.mod_divide; [lia | exact Hm].
Qed.

(** A word source and a byte destination, as the digitizer's channel is programmed. *)
Definition demo_ram : flat_ram := FlatRam 64 (fun a => a + 1).
Definition demo_channel : s5l_pl080 :=
  d_ch 3 (fun _ => MkPlChan 8 32 0 (0x8c080000 .| 3) 0x8001 0 0) s5l_pl080_reset.

Lemma pl080_item_copies_witness : ∃ d' b', run_item None 3 demo_channel demo_ram = (false, d', b')
    ∧ (∀ x, flat_get8 b' x = if (32 <=? x) && (x <? 32 + 12)
                              then flat_get8 demo_ram (8 + (x - 32)) else flat_get8 demo_ram x)
    ∧ ch_src (pl_ch d' 3) = 20 ∧ ch_dst (pl_ch d' 3) = 44
    ∧ ch_ctrl (pl_ch d' 3) .& PL080_CTRL_SIZE_MASK = 0 ∧ channel_enabled 3 d' = false
    ∧ bit (raw_tc d') 3 = true.
Proof.
  apply (pl080_item_copies 3 demo_channel demo_ram); try reflexivity; try by_computation; try (split; by_computation).
Defined.

