(* ===== verification/DmaRequest.v ===== *)
(** * The machine's DMA request lines

    [dma_request_ready] of [core/src/soc/machine.c]: which endpoint of a DMA transfer may
    be touched now.  It is the callback the machine hands to both PL080s, and it is not
    pure -- asking for the receive register of UART4 may release that port's idle timeout.
    The machine is any type that holds the ports ([DmaPorts]); the engine's theorem about
    paced channels (Pl080Facts.v) is instantiated with it here. *)

From S2P Require Import Prelude State Cpu Bus Bytes Pl080 Pl080Facts Uart I2s Spi.

Definition S5L8900_I2S0_BASE := 0x3ca00000.
Definition S5L8900_UART0_BASE := 0x3cc00000.
Definition S5L8900_UART4_BASE := 0x3cc10000.
Definition S5L8900_SPI0_BASE := 0x3c300000.
Definition S5L8900_SPI1_BASE := 0x3ce00000.
Definition S5L8900_SPI2_BASE := 0x3d200000.
Definition S5L8900_SPI_COUNT := 2.

(** ** The ports a machine holds *)

Class DmaPorts (B K W : Type) := {
  port_i2s0 : B → s5l_i2s K;
  port_uart0 : B → s5l_uart;
  port_uart4 : B → s5l_uart;
  set_uart4 : s5l_uart → B → B;
  port_spi : B → Z → s5l_spi W
}.

(** UART4 is a field of the machine. *)
Class DmaPortsOk (B K W : Type) `{DmaPorts B K W} : Prop := {
  uart4_same u b : port_uart4 (set_uart4 u b) = u;
  uart4_back b : set_uart4 (port_uart4 b) b = b
}.

Section Lines.
Context {B K W : Type} `{DmaPorts B K W}.

Definition spi_base (i : Z) : Z :=
  if i =? 0 then S5L8900_SPI0_BASE else if i =? 1 then S5L8900_SPI1_BASE else S5L8900_SPI2_BASE.

(** The first SPI port one of whose registers is at [address]. *)
Definition spi_at (address reg : Z) : option Z :=
  for_range (Z.to_nat S5L8900_SPI_COUNT) 0
    (fun i found => match found with
                    | Some _ => found
                    | None => if address =? spi_base i + reg then Some i else None
                    end) None.

Definition dma_request_ready (m : B) (address width : Z) (source : bool) : bool * B :=
  if address =? S5L8900_I2S0_BASE + (if source then S5L_I2S_RX_FIFO_OFF else S5L_I2S_TX_FIFO_OFF)
  then (s5l_i2s_dma_ready (port_i2s0 m) width source, m)
  else if source then
    if address =? S5L8900_UART0_BASE + UART_URXH then (s5l_uart_rx_dma_ready (port_uart0 m), m)
    else if address =? S5L8900_UART4_BASE + UART_URXH then
      if s5l_uart_rx_dma_ready (port_uart4 m) then (true, m)
      else let '(released, u) := s5l_uart_rx_dma_idle (port_uart4 m) in (released, set_uart4 u m)
    else match spi_at address SPI_RXDATA with
         | Some i => (negb (blen (Spi.rx (Spi.regs (port_spi m i))) =? 0), m)
         | None => (true, m)
         end
  else match spi_at address SPI_TXDATA with
       | Some i => (blen (Spi.tx (Spi.regs (port_spi m i))) <? S5L_SPI_FIFO_DEPTH, m)
       | None => (true, m)
       end.

(** ** They are request lines the engine may rely on *)

(** The idle notification either changes nothing or raises the line. *)
Lemma idle_raises u : let '(ok, u') := s5l_uart_rx_dma_idle u in
  if ok : bool then s5l_uart_rx_dma_ready u' = true else u' = u.
Proof.
  unfold s5l_uart_rx_dma_idle. destruct (_ || _) eqn:E; [done |].
  repeat rewrite ?orb_false_iff in E. destruct E as [[[_ E] _] _].
  unfold s5l_uart_rx_dma_ready. cbn [rx_count rx_timeout_state u_utrstat_pending u_rx_timeout_state].
  by rewrite E, orb_true_r.
Qed.

Lemma machine_lines `{!DmaPortsOk B K W} : request_lines dma_request_ready.
Proof.
  assert (∀ m a w x, dma_request_ready m a w x = (fst (dma_request_ready m a w x), m)
    ∨ (x = true ∧ a = S5L8900_UART4_BASE + UART_URXH
       ∧ dma_request_ready m a w x = (true, snd (dma_request_ready m a w x))
       ∧ s5l_uart_rx_dma_ready (port_uart4 (snd (dma_request_ready m a w x))) = true)) as Hcases.
  { intros m a w x. unfold dma_request_ready. destruct (_ =? _); [by left |].
    destruct x; [| destruct (spi_at _ _); by left].
    destruct (_ =? _); [by left |]. destruct (Z.eqb_spec a (S5L8900_UART4_BASE + UART_URXH)) as [Ha | _];
      [| destruct (spi_at _ _); by left].
    destruct (s5l_uart_rx_dma_ready _); [by left |].
    pose proof (idle_raises (port_uart4 m)) as Hi. destruct (s5l_uart_rx_dma_idle _) as [[] u].
    - right. cbn [fst snd]. by rewrite uart4_same.
    - left. by rewrite Hi, uart4_back. }
  split.
  - intros m a w x Hr. destruct (Hcases m a w x) as [E | (_ & _ & E & _)]; rewrite E in *; done.
  - intros m a w. by destruct (Hcases m a w false) as [E | [? _]]; [rewrite E |].
  - intros m a w m' Hr. destruct (Hcases m a w true) as [E | (_ & -> & _ & Hu)].
    + rewrite Hr in E. cbn in E. congruence.
    + rewrite Hr in Hu. cbn [snd] in Hu. unfold dma_request_ready. by rewrite Hu.
Qed.

End Lines.

(** C9: a DMA channel held back by the machine's request lines loses nothing.  Over any bus,
    an item paced by [dma_request_ready] -- whose question about UART4 may itself release
    that port's idle timeout -- either does exactly what the item does whose every request
    is granted, or stops with the channel still enabled; and then the granted item, resumed
    from the registers and the machine the stall left, ends exactly where the granted item
    from the start ends: the same bytes on the bus in the same order, the same registers,
    counters and status. *)
Theorem pl080_stall_lossless {B K W : Type} `{BusRanges B, DmaPorts B K W, !DmaPortsOk B K W}
    (c : Z) (d : s5l_pl080) (m : B) (more : bool) (d1 : s5l_pl080) (m1 : B) :
  channel_enabled c d = true → run_item (Some dma_request_ready) c d m = (more, d1, m1) →
  let free := run_item (Some (granting dma_request_ready)) c in
  if negb more && channel_enabled c d1 then free d1 m1 = free d m else free d m = (more, d1, m1).
Proof. intros Hen Hrun. exact (paced_item dma_request_ready c d m more d1 m1 machine_lines Hen Hrun). Qed.

(** ** A machine with the modem's port

    Flat RAM, and UART4's receive register at its address. *)
Record modem := MkModem { md_ram : flat_ram; md_uart4 : s5l_uart }.

Definition modem_read (n : nat) (b : modem) (a : Z) : Z * modem :=
  if a =? S5L8900_UART4_BASE + UART_URXH
  then let '(v, u) := s5l_uart_read UART_URXH (md_uart4 b) in (wrap (8 * Z.of_nat n) v, MkModem (md_ram b) u)
  else (flat_get n (md_ram b) a, b).

Definition modem_write (n : nat) (b : modem) (a v : Z) : modem :=
  MkModem (flat_put n (md_ram b) a v) (md_uart4 b).

#[export] Instance modem_bus : Bus modem := {
  read32 := modem_read 4; read16 := modem_read 2; read8 := modem_read 1;
  write32 := modem_write 4; write16 := modem_write 2; write8 := modem_write 1;
  host_ram _ := None; host_ram_write _ := None;
  host_load b p := flat_get8 (md_ram b) p; host_store b _ _ := b;
  wait_for_interrupt _ := None; privileged_svc_handler _ := None; prepare_fetch _ := None
}.

Lemma modem_read_range n b a : uint (8 * Z.of_nat n) (fst (modem_read n b a)).
Proof.
  unfold modem_read. case_match; [| apply flat_get_range].
  destruct (s5l_uart_read _ _). apply uint_wrap. lia.
Qed.

#[export] Instance modem_ranges : BusRanges modem.
Proof. split; intros; [apply (modem_read_range 4) | apply (modem_read_range 2) | apply (modem_read_range 1) | apply flat_get8_range]. Qed.

#[export] Instance modem_ports : DmaPorts modem unit unit := {
  port_i2s0 _ := MkI2s (fun _ => 0) 0 0 0 0 [] (fun _ _ => 0) (fun _ => 0) (fun _ => 0) (fun _ => 0)
                   (fun _ => 0) (fun _ => 0) (fun _ => 0) 0 (fun _ _ => 0) None tt;
  port_uart0 _ := s5l_uart_reset;
  port_uart4 := md_uart4;
  set_uart4 u b := MkModem (md_ram b) u;
  port_spi _ _ := MkPort s5l_spi_reset (fun _ => None)
}.

#[export] Instance modem_ports_ok : DmaPortsOk modem unit unit.
Proof. split; [done | by intros []]. Qed.

(** Two bytes below the watermark, a channel that wants four. *)
Definition tail_modem : modem :=
  MkModem (FlatRam 64 (fun _ => 0))
    (t_end (uart_run [RegWrite UART_UFCON 0x11; RegWrite UART_UCON 0x80; Push 0x41; Push 0x42] s5l_uart_reset)).
Definition tail_channel : s5l_pl080 :=
  d_ch 3 (fun _ => MkPlChan (S5L8900_UART4_BASE + UART_URXH) 32 0 (0x88000000 .| 4) 0x9001 0 0) s5l_pl080_reset.

(** The question releases the tail, both bytes arrive, and the channel waits for the rest. *)
Lemma pl080_stall_lossless_witness :
  let '(more, d1, m1) := run_item (Some dma_request_ready) 3 tail_channel tail_modem in
  more = false ∧ ch_ctrl (pl_ch d1 3) .& PL080_CTRL_SIZE_MASK = 2 ∧ flat_get 2 (md_ram m1) 32 = 0x4241
  ∧ rx_timeout_state (md_uart4 tail_modem) = S5L_UART_RX_TIMEOUT_ARMED
  ∧ utrstat_pending (md_uart4 m1) .& UTRSTAT_RX_TIMEOUT = UTRSTAT_RX_TIMEOUT
  ∧ run_item (Some (granting dma_request_ready)) 3 d1 m1
    = run_item (Some (granting dma_request_ready)) 3 tail_channel tail_modem.
Proof.
  destruct (run_item (Some dma_request_ready) 3 tail_channel tail_modem) as [[more d1] m1] eqn:E.
  pose proof (pl080_stall_lossless 3 tail_channel tail_modem more d1 m1 eq_refl E) as H. cbv zeta in H.
  assert (∀ r, run_item (Some dma_request_ready) 3 tail_channel tail_modem = r →
    fst (fst r) = false ∧ ch_ctrl (pl_ch (snd (fst r)) 3) .& PL080_CTRL_SIZE_MASK = 2
    ∧ channel_enabled 3 (snd (fst r)) = true ∧ flat_get 2 (md_ram (snd r)) 32 = 0x4241
    ∧ utrstat_pending (md_uart4 (snd r)) .& UTRSTAT_RX_TIMEOUT = UTRSTAT_RX_TIMEOUT) as F
    by (intros r <-; vm_compute; done).
  destruct (F _ E) as (F1 & F2 & F3 & F4 & F5). cbn [fst snd] in *. subst more. rewrite F3 in H.
  split_and!; try done.
Defined.
