(* ===== verification/Lzss.v ===== *)
(** * LZSS decompression of the kernelcache

    [core/src/firmware/lzss.c].  The decompressor is modelled over byte lists (a
    byte is a [Z] below 256); the ring buffer's 35 bytes that the C code leaves
    uninitialised are the parameter [junk].  The specification is plain LZ77:
    literals and copies at a distance in the output.  [encode] writes any such
    token list in the container's format, and decompressing it gives the text. *)

From S2P Require Import Prelude.

Definition LZSS_HEADER_SIZE := 0x180.
Definition LZSS_SIG_COMP := 0x636f6d70.
Definition LZSS_SIG_LZSS := 0x6c7a7373.
Definition LZSS_N := 4096.
Definition LZSS_F := 18.
Definition LZSS_THRESHOLD := 2.

Record lzss_header := MkHeader {
  h_adler32 : Z; uncompressed_size : Z; compressed_size : Z }.

(** Byte [k] of a buffer. *)
Definition byte_at (buf : list Z) (k : nat) : Z := nth k buf 0.

Definition rd32be (buf : list Z) (k : nat) : Z :=
  (((byte_at buf k .<< 24) .| (byte_at buf (k + 1) .<< 16)) .| (byte_at buf (k + 2) .<< 8)) .|
  byte_at buf (k + 3).

(** [None] is the C [false]; a null [buf] is [None]. *)
Definition lzss_parse_header (buf : option (list Z)) : option lzss_header :=
  match buf with
  | None => None
  | Some buf =>
    let len := Z.of_nat (length buf) in
    if len <? LZSS_HEADER_SIZE then None
    else if negb (rd32be buf 0 =? LZSS_SIG_COMP) then None
    else if negb (rd32be buf 4 =? LZSS_SIG_LZSS) then None
    else
      let cmp := rd32be buf 16 in
      if len <? LZSS_HEADER_SIZE + cmp then None
      else Some (MkHeader (rd32be buf 8) (rd32be buf 12) cmp)
  end.

(** [dst[out++] = c; ring[r++] = c; r &= N - 1;] on ring, [r] and output. *)
Record window := MkWin { ring : Z → Z; rpos : Z; outp : list Z }.

Definition emit (c : Z) (w : window) : window :=
  MkWin (<[rpos w := c]> (ring w)) ((rpos w + 1) .& (LZSS_N - 1)) (outp w ++ [c]).

Definition full (cap : Z) (w : window) : bool := cap <=? Z.of_nat (length (outp w)).

(** The match loop, [n] bytes from [k] on; [true] when the destination filled up. *)
Fixpoint copy_match (n : nat) (k i cap : Z) (w : window) : bool * window :=
  match n with
  | O => (false, w)
  | S n =>
    let c := ring w ((i + k) .& (LZSS_N - 1)) in
    if full cap w then (true, w) else copy_match n (k + 1) i cap (emit c w)
  end.

(** One item under the current flags; [continue] is the rest of the loop. *)
Definition lzss_item (continue : Z → list Z → window → option (list Z)) (cap flags : Z)
    (src : list Z) (w : window) : option (list Z) :=
  if bit flags 0 then
    match src with
    | [] => Some (outp w)
    | c :: src => if full cap w then Some (outp w) else continue flags src (emit c w)
    end
  else
    match src with
    | i :: j :: src =>
      let i := i .| Z.shiftl (j .& 0xf0) 4 in
      let j := (j .& 0x0f) + LZSS_THRESHOLD in
      let '(stop, w) := copy_match (Z.to_nat (j + 1)) 0 i cap w in
      if stop then Some (outp w) else continue flags src w
    | _ => Some (outp w)
    end.

(** The main loop; [None] only when the fuel runs out. *)
Fixpoint lzss_loop (fuel : nat) (cap flags : Z) (src : list Z) (w : window)
    : option (list Z) :=
  match fuel with
  | O => None
  | S fuel =>
    let flags := flags .>> 1 in
    if negb (bit flags 8) then
      match src with
      | [] => Some (outp w)
      | b :: src => lzss_item (lzss_loop fuel cap) cap (b .| 0xff00) src w
      end
    else lzss_item (lzss_loop fuel cap) cap flags src w
  end.

(** [memset(ring, ' ', N - F)] over an uninitialised array. *)
Definition initial_window (junk : Z → Z) : window :=
  MkWin (fun i => if i <? LZSS_N - LZSS_F then 0x20 else junk i) (LZSS_N - LZSS_F) [].

(** [dst] is its capacity when it is not null.  The result is what was written to
    [dst]; the C return value is its length. *)
Definition lzss_decompress (junk : Z → Z) (dst : option Z) (src : option (list Z))
    : option (list Z) :=
  match dst, src with
  | Some cap, Some src => lzss_loop (S (length src)) cap 0 src (initial_window junk)
  | _, _ => Some []
  end.

(** ** Adler-32 *)

(** One byte: the two running sums. *)
Definition adler_step (s : Z * Z) (d : Z) : Z * Z :=
  let a := (fst s +w d) mod 65521 in (a, (snd s +w a) mod 65521).
Definition lzss_adler32 (data : list Z) : Z :=
  let '(a, b) := foldl adler_step (1, 0) data in (b .<< 16) .| a.

(** ** The specification *)

Inductive token : Set := Lit (c : Z) | Copy (d len : nat).

(** One more byte from distance [d]. *)
Definition copy_back (d : nat) (out : list Z) : list Z := out ++ [nth (length out - d) out 0].

Definition expand_token (t : token) (out : list Z) : list Z :=
  match t with
  | Lit c => out ++ [c]
  | Copy d len => Nat.iter len (copy_back d) out
  end.

Definition expand (ts : list token) (out : list Z) : list Z :=
  foldl (fun out t => expand_token t out) out ts.

(** Copies reach back at most the ring's size, into text already produced. *)
Definition valid_token (n : nat) (t : token) : Prop :=
  match t with
  | Lit _ => True
  | Copy d len => (1 <= d <= 4096 ∧ d <= n ∧ 3 <= len <= 18)%nat
  end.

Definition token_length (t : token) : nat := match t with Lit _ => 1 | Copy _ len => len end.

Fixpoint valid_tokens (n : nat) (ts : list token) : Prop :=
  match ts with
  | [] => True
  | t :: ts => valid_token n t ∧ valid_tokens (n + token_length t) ts
  end.

(** ** The encoder *)

Definition is_lit (t : token) : bool := match t with Lit _ => true | Copy _ _ => false end.

(** Ring offset of a copy made when [n] bytes have been produced. *)
Definition ring_offset (n d : nat) : Z := (4078 + Z.of_nat n - Z.of_nat d) mod 4096.

Definition encode_token (n : nat) (t : token) : list Z :=
  match t with
  | Lit c => [c]
  | Copy d len =>
    let i := ring_offset n d in
    [i .& 0xff; Z.shiftl (i .>> 8) 4 .| (Z.of_nat len - 3)]
  end.

Fixpoint encode_items (n : nat) (ts : list token) : list Z :=
  match ts with
  | [] => []
  | t :: ts => encode_token n t ++ encode_items (n + token_length t) ts
  end.

(** The flag byte of at most eight tokens, lowest bit first. *)
Fixpoint flag_byte (ts : list token) : Z :=
  match ts with
  | [] => 0
  | t :: ts => Z.b2z (is_lit t) + 2 * flag_byte ts
  end.

Definition items_length (ts : list token) : nat := foldr (fun t n => token_length t + n)%nat O ts.

(** Groups of eight tokens, each behind its flag byte. *)
Fixpoint encode_groups (n : nat) (gs : list (list token)) : list Z :=
  match gs with
  | [] => []
  | g :: gs => flag_byte g :: encode_items n g ++ encode_groups (n + items_length g) gs
  end.

(** What the encoder produces: full groups of eight, then a last one of one to
    eight tokens. *)
Fixpoint grouped (gs : list (list token)) : Prop :=
  match gs with
  | [] => True
  | g :: gs' => (1 <= length g <= 8)%nat ∧ (gs' ≠ [] → length g = 8%nat) ∧ grouped gs'
  end.

(** ** The window holds the recent output *)

Definition hist (w : window) : Prop :=
  let n := length (outp w) in
  rpos w = (4078 + Z.of_nat n) mod 4096 ∧
  ∀ d : nat, (1 <= d <= 4096)%nat → (d <= n)%nat →
    ring w (ring_offset n d) = nth (n - d) (outp w) 0.

Lemma land_ring x : x .& (LZSS_N - 1) = x mod 4096.
Proof. change (LZSS_N - 1) with (Z.ones 12). by rewrite Z.land_ones by lia. Qed.

Lemma hist_initial junk : hist (initial_window junk).
Proof. split; [done |]. simpl. lia. Qed.

Lemma hist_emit c w : hist w → hist (emit c w).
Proof.
  intros [Hr Hh]. unfold hist, emit. simpl. rewrite length_app. simpl.
  set (n := length (outp w)) in *. rewrite land_ring. split.
  { rewrite Hr, Zplus_mod_idemp_l. f_equal. lia. }
  intros d Hd Hdn. unfold ring_offset. destruct (decide (d = 1%nat)) as [-> | Hne].
  - replace (4078 + Z.of_nat (n + 1) - Z.of_nat 1) with (4078 + Z.of_nat n) by lia.
    rewrite Hr, fn_lookup_insert. rewrite app_nth2 by lia.
    by replace (n + 1 - 1 - length (outp w))%nat with 0%nat by lia.
  - rewrite fn_lookup_insert_ne.
    + replace (4078 + Z.of_nat (n + 1) - Z.of_nat d) with
        (4078 + Z.of_nat n - Z.of_nat (d - 1)) by lia.
      specialize (Hh (d - 1)%nat ltac:(lia) ltac:(lia)). unfold ring_offset in Hh. rewrite Hh.
      rewrite app_nth1 by lia. f_equal. lia.
    + rewrite Hr. intros E. Z.to_euclidean_division_equations; lia.
Qed.

(** ** Copies *)

Lemma length_copy_iter d n out : length (Nat.iter n (copy_back d) out) = (length out + n)%nat.
Proof.
  induction n as [| n IH]; simpl; [lia |]. unfold copy_back at 1. rewrite length_app, IH. simpl. lia.
Qed.

Lemma copy_iter_prefix d n out : out `prefix_of` Nat.iter n (copy_back d) out.
Proof.
  induction n as [| n IH]; simpl; [done |]. unfold copy_back at 1. by apply prefix_app_r.
Qed.

Lemma take_prefix_full {A} (l l' : list A) n : l `prefix_of` l' → length l = n → take n l' = l.
Proof. intros [k ->] <-. by rewrite take_app_length. Qed.

Lemma copy_match_spec n : ∀ k n0 d cap w,
  hist w → length (outp w) = (n0 + k)%nat → (1 <= d <= 4096)%nat → (d <= n0)%nat →
  Z.of_nat (length (outp w)) <= cap →
  let out' := Nat.iter n (copy_back d) (outp w) in
  ∃ w', copy_match n (Z.of_nat k) (ring_offset n0 d) cap w =
          (negb (Z.of_nat (length out') <=? cap), w') ∧
        (Z.of_nat (length out') <= cap → hist w' ∧ outp w' = out') ∧
        (cap < Z.of_nat (length out') → outp w' = take (Z.to_nat cap) out').
Proof.
  induction n as [| n IH]; intros k n0 d cap w Hh Hl Hd Hdn Hcap out'; simpl copy_match.
  { exists w. subst out'. simpl. replace (_ <=? cap) with true by lia. split; [done |].
    split; [done | lia]. }
  rewrite land_ring. unfold full. destruct (Z.leb_spec cap (Z.of_nat (length (outp w)))).
  { exists w. subst out'. rewrite length_copy_iter.
    destruct (Z.leb_spec (Z.of_nat (length (outp w) + S n)) cap); [lia |]. split; [done |]. split; [lia |]. intros _. symmetry.
    apply take_prefix_full; [apply copy_iter_prefix | lia]. }
  assert (ring w ((ring_offset n0 d + Z.of_nat k) mod 4096) =
          nth (length (outp w) - d) (outp w) 0) as ->.
  { destruct Hh as [_ Hh]. rewrite <- Hh by lia. f_equal. unfold ring_offset.
    rewrite Zplus_mod_idemp_l. f_equal. lia. }
  assert (emit (nth (length (outp w) - d) (outp w) 0) w =
          emit (nth (length (outp w) - d) (outp w) 0) w) as _ by done.
  set (w1 := emit _ w). assert (outp w1 = copy_back d (outp w)) as Ew1 by done.
  destruct (IH (S k) n0 d cap w1) as (w' & Ec & H1 & H2);
    [by apply hist_emit | rewrite Ew1; unfold copy_back; rewrite length_app; simpl; lia | done
    | done | rewrite Ew1; unfold copy_back; rewrite length_app; simpl; lia |].
  rewrite Ew1, <- Nat.iter_succ_r in Ec, H1, H2.
  exists w'. replace (Z.of_nat k + 1) with (Z.of_nat (S k)) by lia. done.
Qed.

Lemma length_expand_token t out :
  length (expand_token t out) = (length out + token_length t)%nat.
Proof. destruct t; simpl; [by rewrite length_app | apply length_copy_iter]. Qed.

Lemma expand_token_prefix t out : out `prefix_of` expand_token t out.
Proof. destruct t; simpl; [by apply prefix_app_r | apply copy_iter_prefix]. Qed.

Lemma expand_prefix ts out : out `prefix_of` expand ts out.
Proof.
  revert out. induction ts as [| t ts IH]; intros out; simpl; [done |].
  etrans; [apply expand_token_prefix | apply IH].
Qed.

Lemma length_expand ts out : length (expand ts out) = (length out + items_length ts)%nat.
Proof.
  revert out. induction ts as [| t ts IH]; intros out; simpl; [lia |].
  rewrite IH, length_expand_token. unfold items_length. simpl. lia.
Qed.

(** ** One item of the loop *)

(** The stored bytes of a copy decode to its offset and length. *)
Lemma copy_bytes i x : uint 12 i → uint 4 x →
  let j := Z.shiftl (i .>> 8) 4 .| x in
  (i .& 0xff) .| Z.shiftl (j .& 0xf0) 4 = i ∧ j .& 0x0f = x.
Proof.
  intros Hi Hx j. change 0xff with (mask 0 8). change 0xf0 with (mask 4 4).
  change 0x0f with (mask 0 4). subst j. split; bitwise k Hk.
  - destruct (Z_lt_le_dec k 8).
    + replace (0 <=? k) with true by lia. replace (k <? 0 + 8) with true by lia. simpl.
      rewrite andb_true_r. destruct (Z_lt_le_dec k 4).
      * rewrite !(Z.testbit_neg_r _ (k - 4)) by lia. apply orb_false_r.
      * autorewrite with bitspec. replace (4 <=? k - 4) with false by lia.
        rewrite andb_false_l, andb_false_r. apply orb_false_r.
    + replace (k <? 0 + 8) with false by lia. rewrite !andb_false_r. simpl.
      autorewrite with bitspec. rewrite (uint_high 4 x (k - 4) Hx), orb_false_r by lia.
      replace (4 <=? k - 4) with true by lia. rewrite andb_true_l.
      replace (k - 4 - 4 + 8) with k by lia. destruct (Z.ltb_spec (k - 4) (4 + 4)).
      * by rewrite andb_true_r.
      * by rewrite andb_false_r, (uint_high 12 i) by (done || lia).
  - replace (0 <=? k) with true by lia. rewrite andb_true_l. destruct (Z.ltb_spec k (0 + 4)).
    + by rewrite Z.testbit_neg_r, andb_true_r by lia.
    + by rewrite andb_false_r, (uint_high 4 x) by (done || lia).
Qed.

Lemma ring_offset_range n d : uint 12 (ring_offset n d).
Proof. unfold ring_offset. pose proof (Z.mod_pos_bound (4078 + Z.of_nat n - Z.of_nat d) 4096). split; lia. Qed.

(** The flags seen by token [i] of a group in progress. *)
Definition group_flags (F : Z) (ts : list token) : Prop :=
  ∀ i t, ts !! i = Some t →
    bit F (Z.of_nat i + 1) = is_lit t ∧ bit F (Z.of_nat i + 9) = true.

Lemma group_flags_tail F t ts : group_flags F (t :: ts) → group_flags (F .>> 1) ts.
Proof.
  intros HF i t' Hi. destruct (HF (S i) t' Hi) as [H1 H2].
  unfold bit in *. rewrite !Z.shiftr_spec by lia.
  replace (Z.of_nat i + 1 + 1) with (Z.of_nat (S i) + 1) by lia.
  by replace (Z.of_nat i + 9 + 1) with (Z.of_nat (S i) + 9) by lia.
Qed.

Lemma bit_shiftr1 F k : 0 <= k → bit (F .>> 1) k = bit F (k + 1).
Proof. intros. unfold bit. by rewrite Z.shiftr_spec. Qed.

Lemma loop_token f cap F t ts rest w :
  hist w → Z.of_nat (length (outp w)) <= cap → valid_token (length (outp w)) t →
  group_flags F (t :: ts) →
  let out' := expand_token t (outp w) in
  (Z.of_nat (length out') <= cap → ∃ w', hist w' ∧ outp w' = out' ∧
     ∀ f, lzss_loop (S f) cap F (encode_token (length (outp w)) t ++ rest) w =
          lzss_loop f cap (F .>> 1) rest w') ∧
  (cap < Z.of_nat (length out') →
     lzss_loop (S f) cap F (encode_token (length (outp w)) t ++ rest) w =
     Some (take (Z.to_nat cap) out')).
Proof.
  intros Hh Hcap Hv HF out'. destruct (HF 0%nat t eq_refl) as [Hlit H8].
  change (Z.of_nat 0 + 1) with 1 in Hlit. change (Z.of_nat 0 + 9) with 9 in H8. cbn [lzss_loop]. unfold lzss_item. rewrite !bit_shiftr1 by lia.
  change (8 + 1) with 9. change (0 + 1) with 1. rewrite H8, Hlit. simpl negb. cbv iota.
  destruct t as [c | d len]; simpl is_lit; cbv iota.
  - simpl encode_token. cbn [app]. subst out'. simpl expand_token. rewrite length_app.
    unfold full. simpl length. split; intros Hc.
    + exists (emit c w). replace (cap <=? _) with false by lia.
      split; [by apply hist_emit |]. by split.
    + replace (cap <=? _) with true by lia. f_equal. symmetry.
      apply take_prefix_full; [by apply prefix_app_r | lia].
  - destruct Hv as (Hd & Hdn & Hlen). simpl encode_token. cbn [app].
    destruct (copy_bytes (ring_offset (length (outp w)) d) (Z.of_nat len - 3)) as [Ei Ej];
      [apply ring_offset_range | split; lia |].
    rewrite Ei, Ej. unfold LZSS_THRESHOLD.
    replace (Z.to_nat (Z.of_nat len - 3 + 2 + 1)) with len by lia.
    destruct (copy_match_spec len 0 (length (outp w)) d cap w) as (w' & Ec & H1 & H2);
      [done | lia | done | done | done |].
    change (Z.of_nat 0) with 0 in Ec. rewrite Ec. subst out'. simpl expand_token. split; intros Hc.
    + exists w'. destruct (H1 Hc) as [Hh' Eo]. replace (_ <=? cap) with true by lia. done.
    + replace (_ <=? cap) with false by lia. simpl. by rewrite H2.
Qed.

(** ** A group, and the whole stream *)

Lemma loop_items ts : ∀ cap F rest w,
  hist w → Z.of_nat (length (outp w)) <= cap → valid_tokens (length (outp w)) ts →
  group_flags F ts →
  let src := encode_items (length (outp w)) ts ++ rest in
  let out' := expand ts (outp w) in
  (Z.of_nat (length out') <= cap → ∃ w', hist w' ∧ outp w' = out' ∧
     ∀ f, lzss_loop (length ts + f) cap F src w =
          lzss_loop f cap (F .>> Z.of_nat (length ts)) rest w') ∧
  (cap < Z.of_nat (length out') →
     ∀ f, lzss_loop (length ts + f) cap F src w = Some (take (Z.to_nat cap) out')).
Proof.
  induction ts as [| t ts IH]; intros cap F rest w Hh Hcap Hv HF src out'.
  { split; [| subst out'; simpl; lia]. intros _. exists w. split; [done |]. split; [done |].
    intros f. subst src. simpl. by rewrite Z.shiftr_0_r. }
  destruct Hv as [Hv Hvs]. subst src out'. simpl encode_items. simpl expand.
  rewrite <- app_assoc.
  assert (length (outp w) + token_length t = length (expand_token t (outp w)))%nat as El
    by by rewrite length_expand_token.
  rewrite El in *.
  pose proof (expand_prefix ts (expand_token t (outp w))) as [l El2].
  assert (length (expand ts (expand_token t (outp w))) =
          length (expand_token t (outp w)) + length l)%nat as El3
    by by rewrite El2, length_app.
  destruct (Z_le_gt_dec (Z.of_nat (length (expand_token t (outp w)))) cap) as [Hle | Hgt].
  - destruct (loop_token 0 cap F t ts
      (encode_items (length (expand_token t (outp w))) ts ++ rest) w Hh Hcap Hv HF)
      as [H1 _].
    destruct (H1 Hle) as (w1 & Hh1 & E1 & Hl1). rewrite <- E1 in Hvs, Hle |- *.
    destruct (IH cap (F .>> 1) rest w1 Hh1 Hle Hvs (group_flags_tail F t ts HF)) as [IH1 IH2].
    rewrite E1 in IH1, IH2, Hle |- *. split.
    + intros Hc. destruct (IH1 Hc) as (w' & Hh' & E' & Hl'). exists w'.
      split; [done |]. split; [done |]. intros f. simpl plus. rewrite Hl1, Hl'.
      rewrite Z.shiftr_shiftr by lia. by replace (1 + Z.of_nat (length ts)) with
        (Z.of_nat (length (t :: ts))) by (simpl; lia).
    + intros Hc f. simpl plus. by rewrite Hl1, IH2.
  - split; [lia |]. intros _ f. simpl plus.
    destruct (loop_token (length ts + f) cap F t ts
      (encode_items (length (expand_token t (outp w))) ts ++ rest) w Hh Hcap Hv HF)
      as [_ H2].
    rewrite H2 by lia. f_equal. rewrite El2, take_app_le; [done | lia].
Qed.

Lemma flag_byte_bit ts i t : ts !! i = Some t → bit (flag_byte ts) (Z.of_nat i) = is_lit t.
Proof.
  revert i. induction ts as [| u ts IH]; intros i Hi; [done |]. simpl flag_byte.
  rewrite Z.add_comm. unfold bit in *. destruct i as [| i].
  - injection Hi as ->. apply Z.testbit_0_r.
  - replace (Z.of_nat (S i)) with (Z.succ (Z.of_nat i)) by lia.
    rewrite Z.testbit_succ_r by lia. by apply IH.
Qed.

Lemma flag_byte_range ts : uint (Z.of_nat (length ts)) (flag_byte ts).
Proof.
  induction ts as [| t ts [IH1 IH2]]; simpl length; [split; simpl; lia |].
  rewrite Nat2Z.inj_succ. simpl flag_byte. split; [destruct (is_lit t); simpl; lia |].
  rewrite Z.pow_succ_r by lia. destruct (is_lit t); simpl; lia.
Qed.

(** Reading a flag byte is the same as having it in the shift register. *)
Definition loaded_flags (fb : Z) : Z := Z.shiftl (fb .| 0xff00) 1.

Lemma loop_load f cap G fb src w :
  bit G 9 = false →
  lzss_loop (S f) cap G (fb :: src) w = lzss_loop (S f) cap (loaded_flags fb) src w.
Proof.
  intros HG. cbn [lzss_loop].
  assert (loaded_flags fb .>> 1 = fb .| 0xff00) as ->.
  { unfold loaded_flags. rewrite Z.shiftr_shiftl_l by lia. apply Z.shiftl_0_r. }
  assert (bit (G .>> 1) 8 = false) as -> by by rewrite bit_shiftr1.
  assert (bit (fb .| 0xff00) 8 = true) as ->; [| done].
  unfold bit. rewrite Z.lor_spec. apply orb_true_r.
Qed.

Lemma loaded_group_flags g : (length g <= 8)%nat → group_flags (loaded_flags (flag_byte g)) g.
Proof.
  intros Hg i t Hi. assert (i < 8)%nat by (apply lookup_lt_Some in Hi; lia).
  unfold loaded_flags, bit. rewrite !Z.shiftl_spec, !Z.lor_spec by lia.
  replace (Z.of_nat i + 1 - 1) with (Z.of_nat i) by lia.
  replace (Z.of_nat i + 9 - 1) with (Z.of_nat i + 8) by lia.
  pose proof (flag_byte_bit g i t Hi) as Hb. unfold bit in Hb. rewrite Hb.
  change 0xff00 with (mask 8 8). rewrite !testbit_mask by lia.
  replace (8 <=? Z.of_nat i) with false by lia.
  replace (8 <=? Z.of_nat i + 8) with true by lia.
  replace (Z.of_nat i + 8 <? 8 + 8) with true by lia.
  by rewrite orb_false_r, orb_true_r.
Qed.

Lemma exhausted_flags g : length g = 8%nat →
  bit (loaded_flags (flag_byte g) .>> Z.of_nat (length g)) 9 = false.
Proof.
  intros Hg. pose proof (flag_byte_range g) as Hr. rewrite Hg in *.
  unfold loaded_flags, bit. rewrite Z.shiftr_spec, Z.shiftl_spec, Z.lor_spec by lia.
  by rewrite (uint_high (Z.of_nat 8) _ _ Hr) by lia.
Qed.

Lemma valid_tokens_app n g ts :
  valid_tokens n (g ++ ts) ↔ valid_tokens n g ∧ valid_tokens (n + items_length g) ts.
Proof.
  revert n. induction g as [| t g IH]; intros n; simpl.
  - replace (n + 0)%nat with n by lia. tauto.
  - rewrite IH. unfold items_length. simpl.
    replace (n + token_length t + foldr (λ t n, (token_length t + n)%nat) 0%nat g)%nat with
      (n + (token_length t + foldr (λ t n, (token_length t + n)%nat) 0%nat g))%nat by lia.
    tauto.
Qed.

Lemma loop_groups gs : ∀ cap G w f,
  hist w → Z.of_nat (length (outp w)) <= cap → grouped gs →
  valid_tokens (length (outp w)) (concat gs) → bit G 9 = false ∨ gs = [] →
  lzss_loop (length (concat gs) + S f) cap G (encode_groups (length (outp w)) gs) w =
  Some (take (Z.to_nat cap) (expand (concat gs) (outp w))).
Proof.
  induction gs as [| g gs IH]; intros cap G w f Hh Hcap Hg Hv HG.
  { simpl concat. simpl encode_groups. simpl expand. rewrite take_ge by lia.
    simpl length. simpl plus. cbn [lzss_loop].
    destruct (negb _); [done |]. unfold lzss_item. by destruct (bit (G .>> 1) 0). }
  destruct Hg as (Hlen & Hfull & Hgs). destruct HG as [HG | ?]; [| done].
  simpl concat in *. apply valid_tokens_app in Hv as [Hv Hvs].
  rewrite length_app. simpl encode_groups.
  destruct (length g) as [| n] eqn:El; [lia |].
  replace (S n + length (concat gs) + S f)%nat with
    (S (n + (length (concat gs) + S f))) by lia.
  rewrite loop_load by done.
  destruct (loop_items g cap (loaded_flags (flag_byte g))
    (encode_groups (length (outp w) + items_length g) gs) w Hh Hcap Hv) as [H1 H2].
  { apply loaded_group_flags. lia. }
  rewrite El in H1, H2.
  assert (expand (g ++ concat gs) (outp w) = expand (concat gs) (expand g (outp w))) as ->
    by apply foldl_app.
  destruct (Z_le_gt_dec (Z.of_nat (length (expand g (outp w)))) cap) as [Hle | Hgt].
  - destruct (H1 Hle) as (w' & Hh' & E' & Hl').
    specialize (Hl' (length (concat gs) + S f)%nat). simpl plus in Hl'. rewrite Hl'.
    rewrite <- length_expand, <- E' in Hvs |- *.
    apply IH; [done | by rewrite E' | done | done |].
    destruct (decide (gs = [])) as [-> | Hne]; [by right | left].
    rewrite <- El. apply exhausted_flags. rewrite El. by apply Hfull.
  - specialize (H2 ltac:(lia) (length (concat gs) + S f)%nat). simpl plus in H2. rewrite H2.
    f_equal. destruct (expand_prefix (concat gs) (expand g (outp w))) as [l ->].
    by rewrite take_app_le by lia.
Qed.

Lemma length_encode_items n g : (length g <= length (encode_items n g))%nat.
Proof.
  revert n. induction g as [| t g IH]; intros n; simpl; [lia |].
  rewrite length_app. specialize (IH (n + token_length t)%nat).
  assert (1 <= length (encode_token n t))%nat by (destruct t; simpl; lia). lia.
Qed.

Lemma length_encode_groups n gs : (length (concat gs) <= length (encode_groups n gs))%nat.
Proof.
  revert n. induction gs as [| g gs IH]; intros n; simpl; [lia |].
  rewrite !length_app. specialize (IH (n + items_length g)%nat).
  pose proof (length_encode_items n g). lia.
Qed.

(** LZSS round trip.  Any text given as literals and LZ77 copies (distance at
    most the 4096-byte window and never before the start of the text, length 3 to
    18, source and destination allowed to overlap), written in groups of eight
    behind flag bytes, is decompressed to exactly that text, cut at the
    destination's capacity, whatever the uninitialised part of the ring held. *)
Theorem lzss_roundtrip junk cap gs :
  0 <= cap → grouped gs → valid_tokens 0 (concat gs) →
  lzss_decompress junk (Some cap) (Some (encode_groups 0 gs)) =
  Some (take (Z.to_nat cap) (expand (concat gs) [])).
Proof.
  intros Hcap Hg Hv. unfold lzss_decompress.
  pose proof (length_encode_groups 0 gs) as Hl.
  replace (S (length (encode_groups 0 gs))) with
    (length (concat gs) + S (length (encode_groups 0 gs) - length (concat gs)))%nat by lia.
  apply (loop_groups gs cap 0 (initial_window junk));
    [apply hist_initial | done | done | done | by left].
Qed.

(** ** Hostile input *)

Lemma copy_match_bound n k i cap w :
  Z.of_nat (length (outp w)) <= cap →
  Z.of_nat (length (outp (snd (copy_match n k i cap w)))) <= cap.
Proof.
  revert k w. induction n as [| n IH]; intros k w Hw; simpl; [done |].
  unfold full. destruct (Z.leb_spec cap (Z.of_nat (length (outp w)))); [done |].
  apply IH. simpl. rewrite length_app. simpl. lia.
Qed.

Lemma lzss_loop_total fuel : ∀ cap flags src w,
  (length src < fuel)%nat → Z.of_nat (length (outp w)) <= cap →
  ∃ out, lzss_loop fuel cap flags src w = Some out ∧ Z.of_nat (length out) <= cap.
Proof.
  induction fuel as [| fuel IH]; intros cap flags src w Hf Hw; [lia |].
  cbn [lzss_loop].
  assert (∀ fl s, (length s <= length src)%nat →
            ∃ out, lzss_item (lzss_loop fuel cap) cap fl s w = Some out ∧
                   Z.of_nat (length out) <= cap) as Hitem.
  { intros fl s Hs. unfold lzss_item. destruct (bit fl 0).
    - destruct s as [| c s]; [by eexists |]. simpl in Hs. unfold full.
      destruct (Z.leb_spec cap (Z.of_nat (length (outp w)))); [by eexists |].
      apply IH; [lia |]. simpl. rewrite length_app. simpl. lia.
    - destruct s as [| i [| j s]]; [by eexists .. |]. simpl in Hs.
      set (n := Z.to_nat _). set (i' := i .| _).
      pose proof (copy_match_bound n 0 i' cap w Hw) as Hb.
      destruct (copy_match n 0 i' cap w) as [[] w']; [by eexists |]. apply IH; [lia | done]. }
  destruct (negb _); [| by apply Hitem]. destruct src as [| b src]; [by eexists |].
  apply Hitem. simpl. lia.
Qed.

(** the decompressor is safe on hostile input.  On every byte stream, of any
    length and content, it terminates (the fuel, one more than the number of source
    bytes, is never exhausted) and writes at most [dstcap] bytes; null pointers
    produce nothing. *)
Theorem lzss_decompress_safe junk dst src :
  match dst with Some cap => 0 <= cap | None => True end →
  ∃ out, lzss_decompress junk dst src = Some out ∧
    match dst, src with
    | Some cap, Some _ => Z.of_nat (length out) <= cap
    | _, _ => out = []
    end.
Proof.
  intros Hcap. destruct dst as [cap |], src as [src |]; [| by eexists ..].
  unfold lzss_decompress. apply lzss_loop_total; [lia | done].
Qed.

(** a hostile stream can read uninitialised memory.  The ring is filled up to
    [N - F] only, but a back-reference may name the positions behind it before
    anything was written there: this three-byte stream outputs three bytes of
    whatever the C stack held. *)
Theorem lzss_leaks_uninitialised junk :
  lzss_decompress junk (Some 16) (Some [0x00; 0xee; 0xf0]) =
  Some [junk 4078; junk 4079; junk 4080].
Proof. reflexivity. Qed.

(** ** Concrete inputs *)

(** "ab", then five bytes from distance two. *)
Definition demo_tokens : list (list token) := [[Lit 0x61; Lit 0x62; Copy 2 5]].

Lemma lzss_roundtrip_witness :
  lzss_decompress (fun _ => 0) (Some 100) (Some (encode_groups 0 demo_tokens)) =
  Some [0x61; 0x62; 0x61; 0x62; 0x61; 0x62; 0x61].
Proof.
  apply (lzss_roundtrip (fun _ => 0) 100 demo_tokens); [discriminate | |].
  - split; [simpl; lia |]. split; [intros []; reflexivity | exact I].
  - simpl. lia.
Defined.

Lemma lzss_decompress_safe_witness :
  ∃ out, lzss_decompress (fun _ => 0) (Some 2) (Some [0xff; 1; 2; 3]) = Some out ∧
         Z.of_nat (length out) <= 2.
Proof. apply (lzss_decompress_safe (fun _ => 0) (Some 2) (Some [0xff; 1; 2; 3])). discriminate. Defined.

(** A stream cut inside an item is not answered with zero: the bytes before it are
    kept and counted. *)
Lemma lzss_truncated_keeps_prefix junk :
  lzss_decompress junk (Some 16) (Some [0x01; 0x41; 0x07]) = Some [0x41].
Proof. reflexivity. Qed.

(** ** The checksum is Adler-32

    The sum of the bytes and the sum of the running sums, each modulo 65521; no 32-bit
    sum of the loop wraps. *)
Fixpoint running (a : Z) (l : list Z) : Z :=
  match l with [] => 0 | d :: l => (a + d) + running (a + d) l end.

Lemma adler_foldl l : ∀ a b, 0 <= a < 65521 → 0 <= b < 65521 → Forall (uint 8) l →
  foldl adler_step (a, b) l
    = ((a + foldr Z.add 0 l) mod 65521, (b + running a l) mod 65521).
Proof.
  induction l as [| d l IH]; intros a b Ha Hb Hl; cbn [foldl].
  { simpl. by rewrite !Z.add_0_r, !Z.mod_small by lia. }
  apply Forall_cons_iff in Hl as [[? ?] Hl]. change (2 ^ 8) with 256 in *.
  assert (adler_step (a, b) d = ((a + d) mod 65521, (b + (a + d)) mod 65521)) as ->.
  { unfold adler_step. cbn [fst snd]. pose proof (Z.mod_pos_bound (a + d) 65521 ltac:(lia)).
    rewrite (w32_small (a + d)) by (split; lia). rewrite w32_small by (split; lia).
    by rewrite Z.add_mod_idemp_r by lia. }
  rewrite IH by (done || (apply Z.mod_pos_bound; lia)). cbn [foldr running]. f_equal.
  - rewrite Z.add_mod_idemp_l by lia. f_equal. lia.
  - rewrite Z.add_mod_idemp_l by lia.
    enough (∀ x y, x mod 65521 = y mod 65521 → ∀ l, running x l mod 65521 = running y l mod 65521) as H1.
    { rewrite Z.add_mod, (H1 ((a + d) mod 65521) (a + d)), <- Z.add_mod by (lia || (by rewrite Z.mod_mod)).
      f_equal. lia. }
    clear. intros x y E l. revert x y E. induction l as [| e l IH]; intros x y E; cbn [running]; [done |].
    assert ((x + e) mod 65521 = (y + e) mod 65521) as E' by (rewrite Z.add_mod, E, <- Z.add_mod by lia; done).
    by rewrite Z.add_mod, E', (IH _ _ E'), <- Z.add_mod by lia.
Qed.

Lemma lzss_adler32_exact l : Forall (uint 8) l →
  lzss_adler32 l = ((running 1 l) mod 65521) * 2 ^ 16 + (1 + foldr Z.add 0 l) mod 65521.
Proof.
  intros Hl. unfold lzss_adler32. rewrite adler_foldl by (done || lia). rewrite Z.add_0_l.
  pose proof (Z.mod_pos_bound (running 1 l) 65521 ltac:(lia)).
  pose proof (Z.mod_pos_bound (1 + foldr Z.add 0 l) 65521 ltac:(lia)).
  rewrite w32_small.
  - apply lor_shift_add; [lia | split; lia].
  - rewrite Z.shiftl_mul_pow2 by lia. split; lia.
Qed.
